(* ===== verification/_CoqProject ===== *)
-Q . S2P
Prelude.v
Bits.v
Layout.v
Records.v
RecordBytes.v
FileSys.v
Recorder.v
FsUtil.v
TraceNames.v
RecordReader.v
AddrMap.v
Addr2id.v
Csv2db.v
Preload.v
Client.v
Agent.v
AgentVm.v
Native.v
ArgsBuffer.v
NativeSpec.v
NativeProps.v
NativeLog.v
Threads.v
SqlVarint.v
SqlRecord.v
SqlBitvec.v
SqlText.v
SqlHash.v
SqlRowSet.v
SqlInt.v
SqlUtf.v
SqlLike.v
SqlKeyword.v
SqlToken.v
SqlCompare.v
SqlLock.v
SqlLockWorld.v
SqlBytes.v
SqlCell.v
SqlCellProps.v
SqlPage.v
SqlPageSpace.v
SqlPageFree.v
SqlPageOk.v
SqlPageCells.v
SqlPageInit.v
SqlPageProps.v
SqlFreelist.v
SqlFreelistOk.v
SqlFreelistProps.v
SqlOverflow.v
SqlOverflowOk.v
SqlOverflowCell.v
SqlOverflowAccess.v
SqlOverflowProps.v
SqlCursor.v
SqlCursorTree.v
SqlCursorMove.v
SqlCursorRow.v
SqlCursorRead.v
SqlCursorSeek.v
SqlCursorPos.v
SqlCursorStep.v
SqlCursorProps.v
