(* ===== verification/Prelude.v ===== *)
(** * CINST: a verification development

    CINST (under [src/cinst/]) traces the objects of a Java program.  An
    agent in the virtual machine has classes instrumented by a server; the
    instrumented code calls a native library, which writes binary records to
    files, one per thread and record type; a preloaded library adds the moves of the
    garbage collector; after the run [addr2id] replaces the addresses in
    the files by object ids and [csv2db] loads them into an SQLite table.
    SQLite is compiled from the sources in the repository.

    ** Parts and files

    Shared by all: this file (machine integers, little-endian bytes,
    strings, lemmas on options and lists, the hint databases [machine] and
    [cinst]) and [Bits] (shifts and masks as arithmetic).

    - Records.  [Layout] is the object representation of a C++ struct, [Records]
      the structs of [native/recorder.hpp] with their templates' parameters, as
      instances of [RecordType] (prefix, members, CSV form) with [RecordLaws];
      [RecordBytes] writes out the bytes of each as a table.  [FileSys] is the file system they are written to, [Recorder] the class
      template [Recorder<Record>], [TraceNames] the names its files get.
    - Tracing.  [Native] has the JNI functions of [native/native.cpp] as
      computations of the monad [M] over the state of the calling thread
      ([thread], the [thread_local] variables) and of the process
      ([process], the statics).  They write to a [Sink] and reach object tags
      through [JVMTI] with the laws [JVMTILaws].  [NativeSpec] proves the
      invariant [inv] for every call, [NativeProps] what single calls record,
      [NativeLog] that recorders over files simulate plain logs.  [Threads] lets
      threads start, call and end in any interleaving.  [ArgsBuffer] is the
      argument buffer of the same library.  [Preload] is [preload/preload.cpp]:
      the interposed [memmove].
    - Agent.  [Client] is [agent/src/client.cpp], the framing of messages on a
      socket; [Agent] the options, the candidate classes and the class hook of
      [agent/src/agent.cpp], [AgentVm] its requests to the virtual machine,
      its callbacks over a whole run, and [printCallTrace].
    - After the run.  [FsUtil] is [scripts/include/fs_util.h] and
      [scripts/src/fs_utils.cpp]; [RecordReader] is
      [scripts/include/record_reader.hpp]; [AddrMap] and [Addr2id] are the class
      and the program of [scripts/src/addr2id.cpp]; [Csv2db] is
      [scripts/src/csv2db.cpp].
    - SQLite ([scripts/sqlite/sqlite3.c]), from what a row goes through
      outwards: [SqlVarint] and [SqlRecord] (the format of a row),
      [SqlCompare] (the order of values and rows), [SqlInt]
      (integers and their text), [SqlText] and [SqlUtf] (character tables and
      encodings), [SqlKeyword] and [SqlToken] (the tokens of a statement),
      [SqlLike] (the LIKE and GLOB operators), [SqlHash] (symbol tables),
      [SqlBitvec] (page sets), [SqlRowSet] (row sets), [SqlLock] and
      [SqlLockWorld] (the locks on the database file, one call and any
      interleaving of calls).
    - SQLite's B-tree pages.  [SqlBytes] is a buffer of bytes with the accesses of
      C to it; [SqlCell] the records [BtShared], [MemPage] and [CellInfo] and the
      four formats of cells, [SqlCellProps] their sizes and fields; [SqlPage] the
      routines on one page (space, insertion, removal, page read from
      disk).  What a page holds is the relation [page_ok] of [SqlPageOk]; the
      lemmas on free blocks ([SqlPageSpace], [SqlPageFree]), on the
      operations ([SqlPageCells]) and on reading a page ([SqlPageInit]) lead to
      the theorems of [SqlPageProps].
    - SQLite's pages as a whole.  [SqlFreelist] is a database of pages ([Db], the
      monad [routine]) with the list of free ones, [SqlFreelistOk] the
      calculus [does] and [runs] of routines that succeed and the relation
      [freelist], [SqlFreelistProps] any sequence of requests.
      [SqlOverflow] has the chains of overflow pages: [SqlOverflowOk] and
      [SqlOverflowCell] follow [fillInCell], [SqlOverflowAccess] [accessPayload],
      and [SqlOverflowProps] puts a cell on its page, reads, overwrites
      and clears it.
    - SQLite's cursors on tables.  [SqlCursor] has the routines of a cursor, on
      its fields, the database of [SqlFreelist] and the memory of the pages.
      [SqlCursorTree] says which pages are the tree of a table and what its rows are;
      [SqlCursorMove] follows the walks up and down it, [SqlCursorRow] the steps
      from row to row, [SqlCursorRead] the reads (by [SqlOverflowAccess]),
      [SqlCursorSeek] the search for a rowid and the way back to a saved
      position.  [SqlCursorPos] is the specification, positions in a list of rows and
      how each operation moves them; [SqlCursorStep] shows it of every operation and
      [SqlCursorProps] of runs in which the table changes.

    A specification does not use the routine it is about: the comparisons of columns in
    [SqlCompare], the grammar of numbers in [SqlInt], the encodings in [SqlUtf], the rows
    of the timeline in [Csv2db], the latest binding in [AddrMap], the messages in [AgentVm] and
    the format of records in [RecordBytes] are written from what they mean.

    The parts meet in files and messages.  What [Threads] proves about the files of
    a process is what [Addr2id] and [Csv2db] assume of their directory: for every
    thread and record type a file of whole records, under the name
    [TraceNames] gives it.  [AgentVm] runs [Agent], [Client] and [Preload]
    together.  The columns [Csv2db] reads in its own statements are those the
    tokenizer of the library finds ([SqlToken.csv2db_statements_lex]).

    ** How the code is read

    An integer is the [Z] it denotes, with [wrapu w] or [wraps w] where
    the code converts or wraps; bytes are [list byte] with the padding of structs as an
    argument.  A function that updates objects takes their state and returns it.
    [option] is the outcome of code that C++ leaves undefined in some states:
    [None] is an access out of bounds, a null pointer that is followed, an object that
    is read before it is set, a broken assert.  Theorems prove [Some], so they
    include the absence of these.  [outcome] (in [Client]) separates an
    exception that is thrown from undefined behaviour.  Pointers are kept where
    the code shares cells ([SqlHash]: a store of elements indexed by location;
    [ArgsBuffer]: raw addresses); a structure with one owner is a term.

    In [Native] a read of the unset local of [get_tag] is [None] or a value some
    machine finds there ([stack]).  Clocks, [rand], padding bytes, the results of system calls,
    the answers of the virtual machine, the results of [malloc] in [SqlHash] are
    arguments of the definitions.  The laws assumed of the virtual machine's tags
    ([JVMTILaws]) have an instance ([NativeSpec.vm_laws]).

    The calls of [SqlLock] are trees of system calls; [SqlLockWorld] runs
    the calls of all connections of all processes in any order at these calls, over any
    implementation of POSIX record locks ([PosixLocks] with [PosixLaws], the
    instance [granted]).

    ** Fuel

    Loops that are not structural take a [nat].  Where the model chooses it:
    the length of the input for loops that use at least one byte per step
    ([translate], [char_len_loop], [read_candidates], the last with one more for the
    failing read at the end; [fill_loop], a byte of the payload per turn); the length of the
    page for walks along its free blocks, the number of cells or leaves for loops
    over them; [offset + amt] turns and one more for [access_loop]; for the walks down a
    tree the 20 pages the path of a cursor has room for, for those up the length of the
    path, for the search on a page the number of its cells, and two turns for [sqlite3BtreeNext], which
    calls itself once; the size of the store for walks along the element
    list of a hash table; the length of the list for [grow_tree]; the 124 slots of
    the table for the probes of [SqlBitvec] and [DEPTH] turns, two for each of the
    four levels that dividing a 32-bit size by 62 allows and one more; 21 digits for [fill_digits]; 64 halvings for
    [log_loop]; 9 rounds for [varint_len_from]; one turn more than the pattern has
    bytes for [patternCompare] and two more for a set in it; the number of
    keywords for a collision chain; the length of the text for [tokens].  Each time the theorem that
    the result is [Some] shows that it is enough.  Where the fuel stays an argument
    ([transform_local], [recv], [drain]) a theorem states an amount from which on the
    result does not depend on it: [rewrite_file_terminates],
    [recv_reassembles], [rowset_extracts_sorted].  [recv_spins_on_close] shows
    that no amount is enough once the server has closed the connection.

    ** What the theorems show

    - The trace is complete and in order: [Recorder_run_log] (a recorder is a log
      whatever its buffer size), [process_files_are_logs] (so are the files of
      a process under every interleaving), [preload_refines_log],
      [container_records_pair_with_lines], [sampling_rate].
    - The trace names objects: [tag_names_one_object] under every interleaving,
      [calls_return_records_in_range] (for calls without null references),
      [compressed_round_trip] and the cases where it does not:
      [null_reference_undefined], [null_reference_records_garbage],
      [untagged_holder_not_tagged], [early_look_hides_object],
      [string_id_wraps].
    - The passes keep it: [trace_format] (each member at its offset),
      [rewrite_file_spec] and [rewrite_file_terminates], [query_refines_log],
      [addr2id_ids] (every address of the fifteen kinds of files that are rewritten becomes the
      number of its allocation), [csv2db_timeline] (one row per record, each
      member in its column, for the eight kinds of records), [free_row_address].
    - The agent: [request_round_trip], [recv_reassembles],
      [candidates_are_terminated_lines], [session_requests] (what the server and
      the preloaded library are sent over a whole run).
    - The database's storage: [record_fields_round_trip],
      [unrolled_varint_is_format], [varint_round_trip],
      [sqlite3VarintLen_spec], [sqlite3Atoi64_clamps], [int64_text_round_trip],
      [int64_arith_portable], [translation_fits], [translation_keeps_text].
    - The order of an index: [record_compare_orders_values] (comparing the bytes of a
      record is comparing its values, column by column), [short_record_is_corrupt]
      (against the comment of the routine), [fast_compares_agree],
      [values_totally_ordered].
    - The B-tree's pages: [cell_size_is_parsed], [page_is_cell_list] (a page is the
      list of its cells and loses no space), [page_read_back],
      [full_page_overflows], [payload_length_wraps]; [pages_in_use_or_free] (no
      page of the file is lost or handed out twice), [payload_is_byte_array] (a
      payload on any number of pages is an array of bytes) and
      [overflow_pages_given_back].
    - The rows of a table: [cursor_is_position] (a cursor is a place in the list of the rows,
      whatever its operations, the other users of the pages, and the changes of the table
      while its position is saved, but for a search for the rowid that was just left);
      [cursor_operations_succeed]; [stale_rowid] is a run in which such a search says that
      it found a row and is on another one.
    - The language: [tokens_partition_text], [words_are_keywords_or_ids],
      [quoted_text_is_one_token], [like_operator_is_like] (the matcher with its
      shortcuts against a relation on characters).
    - The database's data structures against abstract ones: [hash_is_a_map],
      [bitvec_is_a_set], [rowset_tests_batches], [rowset_extracts_sorted].
    - The locks between connections: [exclusive_lock_excludes] and
      [one_connection_reserves], for executions in which no call of a process
      begins between the parts of a close; [close_drops_other_locks] runs two
      connections into the case that is left out.

    ** Not modelled

    Of CINST: [getTid] and [getPid], two system calls; the callbacks the agent
    never registers; the generated header [logger_Record.h]; the Python queries and
    scripts.  Java code, the server's instrumentation and the virtual machine are
    outside: their behaviour is a parameter.  A call is one step in
    [Threads]: the tag counter is an atomic, each tag is reached by one
    call of the tool interface, but threads that make the first calls at the same time may each
    find [jvmti_env] empty in [init_jvmti] and both fill it, which this leaves out.
    In [SqlLock] [unixClose] is two steps, up to the second time it leaves the mutex of
    the inode and from there on (it also leaves it after the unlock and takes it again); [SqlFreelist] leaves out the hint [sqlite3PagerDontWrite], which
    saves a write of a page whose content does not matter.

    Of SQLite: everything but the routines listed; the parser, the code
    generator, the virtual machine's other opcodes, the balancing of B-trees and the
    search in those of indexes, the pager's cache and journal, and the VFS
    but for its locks are not, nor databases with auto-vacuum.  Allocation succeeds there
    except in [SqlHash] and, as an input, in [SqlFreelist] and [SqlOverflow].  The shell
    ([shell.c]) is not built by the repository. *)

From Stdlib Require Import Ascii.
From Stdlib Require Export ZArith Lia.
From stdpp Require Export gmap strings pretty list fin_maps.

#[global] Open Scope Z_scope.

(** ** Machine integers

    An integer object of [w] bits is the [Z] it denotes; a conversion to the
    type wraps around. *)

Definition wrapu (w : Z) (z : Z) : Z := z mod 2 ^ w.

Definition wraps (w : Z) (z : Z) : Z := (z + 2 ^ (w - 1)) mod 2 ^ w - 2 ^ (w - 1).

Abbreviation u8 := (wrapu 8) (only parsing).
Abbreviation u16 := (wrapu 16) (only parsing).
Abbreviation u32 := (wrapu 32) (only parsing).
Abbreviation u64 := (wrapu 64) (only parsing).
Abbreviation i32 := (wraps 32) (only parsing).
Abbreviation i64 := (wraps 64) (only parsing).

Definition in_u (w z : Z) : Prop := 0 <= z < 2 ^ w.

Definition in_s (w z : Z) : Prop := - 2 ^ (w - 1) <= z < 2 ^ (w - 1).

#[export] Instance in_u_dec w z : Decision (in_u w z).
Proof. unfold in_u. apply _. Defined.
#[export] Instance in_s_dec w z : Decision (in_s w z).
Proof. unfold in_s. apply _. Defined.

Create HintDb machine.
Create HintDb cinst.
Create Rewrite HintDb machine.

Lemma pow2_half w : 0 < w -> 2 ^ w = 2 * 2 ^ (w - 1).
Proof. intros. rewrite <- Z.pow_succ_r by lia. f_equal. lia. Qed.

Lemma wrapu_range w z : 0 <= w -> in_u w (wrapu w z).
Proof. intros. apply Z.mod_pos_bound. apply Z.pow_pos_nonneg; lia. Qed.

Lemma wraps_range w z : 0 < w -> in_s w (wraps w z).
Proof.
  intros Hw. unfold in_s, wraps.
  pose proof (Z.mod_pos_bound (z + 2 ^ (w - 1)) (2 ^ w) ltac:(apply Z.pow_pos_nonneg; lia)).
  rewrite (pow2_half w) in * by done. lia.
Qed.

Lemma wrapu_id w z : in_u w z -> wrapu w z = z.
Proof. intros. by apply Z.mod_small. Qed.

Lemma wraps_id w z : 0 < w -> in_s w z -> wraps w z = z.
Proof.
  intros Hw [H1 H2]. unfold wraps. rewrite Z.mod_small; [lia|].
  rewrite (pow2_half w) by done. lia.
Qed.

Lemma wrapu_wrapu w z : 0 <= w -> wrapu w (wrapu w z) = wrapu w z.
Proof. intros. by apply wrapu_id, wrapu_range. Qed.

Lemma wraps_wrapu w z : 0 < w -> wraps w (wrapu w z) = wraps w z.
Proof.
  intros. unfold wraps, wrapu. by rewrite Zplus_mod_idemp_l.
Qed.

Lemma wrapu_wraps w z : 0 < w -> wrapu w (wraps w z) = wrapu w z.
Proof.
  intros. unfold wraps, wrapu. rewrite Zminus_mod_idemp_l.
  f_equal. lia.
Qed.

#[export] Hint Resolve wrapu_range wraps_range : machine.
#[export] Hint Rewrite wrapu_wrapu wraps_wrapu wrapu_wraps using lia : machine.

(** Closes range side conditions on concrete widths. *)
Ltac machine :=
  unfold in_u, in_s, wrapu, wraps in *; simpl Z.pow in *;
  try (Z.to_euclidean_division_equations; lia).

(** ** Bytes and strings *)

Definition byte_ok (b : Z) : Prop := 0 <= b < 256.

Abbreviation bytes := (list Z).

Definition bytes_ok (bs : bytes) : Prop := Forall byte_ok bs.

(** The characters of a string, as the bytes a stream receives. *)
Definition str_bytes (s : string) : bytes := Z.of_N ∘ Ascii.N_of_ascii <$> String.list_ascii_of_string s.

Lemma str_bytes_app s1 s2 : str_bytes (s1 +:+ s2) = str_bytes s1 ++ str_bytes s2.
Proof.
  unfold str_bytes. rewrite <- fmap_app. f_equal.
  induction s1 as [|c s1 IH]; simpl; [done|]. by f_equal.
Qed.

#[export] Instance str_bytes_inj : Inj (=) (=) str_bytes.
Proof.
  intros s1 s2. unfold str_bytes. intros H.
  apply list_fmap_eq_inj in H.
  - rewrite <- (String.string_of_list_ascii_of_string s1),
      <- (String.string_of_list_ascii_of_string s2). by f_equal.
  - intros a b Hab. simpl in Hab. apply N2Z.inj in Hab.
    rewrite <- (Ascii.ascii_N_embedding a), <- (Ascii.ascii_N_embedding b). by f_equal.
Qed.

(** The newline character as a string. *)
Definition nl : string := String (Ascii.ascii_of_nat 10) EmptyString.

(** Decimal output of an integer ([std::to_string], [operator<<], [%d]). *)
Definition dec (z : Z) : string := pretty z.

#[export] Instance dec_inj : Inj (=) (=) dec.
Proof. unfold dec. apply _. Qed.

(** Decimal text is made of digits and a minus sign. *)
Definition dec_char (c : Ascii.ascii) : bool :=
  match c with
  | "0" | "1" | "2" | "3" | "4" | "5" | "6" | "7" | "8" | "9" | "-" => true
  | _ => false
  end%char.

Fixpoint all_chars (P : Ascii.ascii -> bool) (s : string) : bool :=
  match s with
  | EmptyString => true
  | String c s => P c && all_chars P s
  end.

Lemma all_chars_app P s1 s2 : all_chars P (s1 +:+ s2) = all_chars P s1 && all_chars P s2.
Proof. induction s1 as [|c s1 IH]; simpl; [done|]. rewrite IH. by destruct (P c). Qed.

Lemma pretty_N_go_chars x s :
  all_chars dec_char s -> all_chars dec_char (pretty_N_go x s).
Proof.
  revert s. induction (N.lt_wf_0 x) as [x _ IH]; intros s Hs.
  destruct (decide (0 < x)%N) as [Hx|Hx].
  - rewrite pretty_N_go_step by done. apply IH; [by apply N.div_lt|].
    simpl. apply andb_True. split; [|done].
    unfold pretty_N_char. by repeat case_match.
  - assert (x = 0%N) as -> by lia. by rewrite pretty_N_go_0.
Qed.

Lemma dec_chars z : all_chars dec_char (dec z).
Proof.
  unfold dec. destruct z as [|x|x]; simpl; [done| |];
    unfold pretty, pretty_Z, pretty, pretty_positive, pretty, pretty_N;
    case_decide; try done; by apply pretty_N_go_chars.
Qed.

Lemma string_app_cons c (a b : string) : String c a +:+ b = String c (a +:+ b).
Proof. done. Qed.

Lemma string_app_nil_l (a : string) : "" +:+ a = a.
Proof. done. Qed.

Lemma string_app_inj_l (a b c : string) : a +:+ b = a +:+ c -> b = c.
Proof. apply (inj (String.app a)). Qed.

Lemma string_app_inj_r (a b c : string) : a +:+ c = b +:+ c -> a = b.
Proof.
  intros H. apply (inj str_bytes). apply (f_equal str_bytes) in H.
  rewrite !str_bytes_app in H. by apply app_inv_tail in H.
Qed.

Lemma string_app_assoc (a b c : string) : (a +:+ b) +:+ c = a +:+ b +:+ c.
Proof. apply (inj str_bytes). by rewrite !str_bytes_app, app_assoc. Qed.

Lemma string_app_nil_r (a : string) : a +:+ "" = a.
Proof. apply (inj str_bytes). rewrite str_bytes_app. apply app_nil_r. Qed.

(** ** Little-endian object representations *)

Definition le_enc (n : nat) (z : Z) : bytes := Z_to_little_endian (Z.of_nat n) 8 z.

Definition le_dec (bs : bytes) : Z := little_endian_to_Z 8 bs.

Lemma length_le_enc n z : length (le_enc n z) = n.
Proof.
  apply Nat2Z.inj. unfold le_enc. by rewrite length_Z_to_little_endian by lia.
Qed.

Lemma le_dec_enc n z : le_dec (le_enc n z) = wrapu (8 * Z.of_nat n) z.
Proof.
  unfold le_dec, le_enc, wrapu.
  rewrite little_endian_to_Z_to_little_endian by lia. do 2 f_equal. lia.
Qed.

Lemma le_enc_dec bs n : n = length bs -> bytes_ok bs -> le_enc n (le_dec bs) = bs.
Proof.
  intros -> H. unfold le_enc, le_dec. by apply Z_to_little_endian_to_Z.
Qed.

Lemma le_enc_ok n z : bytes_ok (le_enc n z).
Proof. by apply (Z_to_little_endian_bound (Z.of_nat n) 8); lia. Qed.

Lemma le_dec_range bs : bytes_ok bs -> in_u (8 * Z.of_nat (length bs)) (le_dec bs).
Proof.
  intros H. unfold in_u, le_dec.
  replace (8 * Z.of_nat (length bs)) with (Z.of_nat (length bs) * 8) by lia.
  by apply little_endian_to_Z_bound.
Qed.

#[export] Hint Rewrite length_le_enc : machine.
#[export] Hint Resolve le_enc_ok : machine.

Lemma bytes_ok_app bs1 bs2 : bytes_ok (bs1 ++ bs2) <-> bytes_ok bs1 /\ bytes_ok bs2.
Proof. apply Forall_app. Qed.

(** ** Lists *)

(** Folding a fallible state transformer over a list. *)
Fixpoint foldM {A S} (f : S -> A -> option S) (s : S) (l : list A) : option S :=
  match l with
  | [] => Some s
  | x :: l => s' ← f s x; foldM f s' l
  end.

Lemma foldM_app {A S} (f : S -> A -> option S) s l1 l2 :
  foldM f s (l1 ++ l2) = (s' ← foldM f s l1; foldM f s' l2).
Proof.
  revert s. induction l1 as [|x l1 IH]; intros s; simpl; [done|].
  destruct (f s x); simpl; [apply IH|done].
Qed.

(** A fold that never fails and keeps an invariant of its state. *)
Lemma foldM_total {A S} (P : S -> list A -> Prop) (f : S -> A -> option S) :
  (forall s done_ x, P s done_ -> exists s', f s x = Some s' /\ P s' (done_ ++ [x])) ->
  forall l s done_, P s done_ ->
  exists s', foldM f s l = Some s' /\ P s' (done_ ++ l).
Proof.
  intros Hstep l. induction l as [|x l IH]; intros s d Hs; simpl.
  - exists s. by rewrite app_nil_r.
  - destruct (Hstep s d x Hs) as (s1 & -> & H1). simpl.
    destruct (IH s1 _ H1) as (s2 & -> & H2). exists s2.
    by rewrite <- app_assoc in H2.
Qed.
