(* ===== verification/Bits.v ===== *)
(** * Bit operations on machine words, as arithmetic

    SQLite assembles its integers with shifts and masks.  The definitions of
    the components keep them; these lemmas turn them into sums, quotients and
    remainders, where [lia] takes over. *)

From S2P Require Import Prelude.

(** A left shift in an unsigned type of 32 or 64 bits. *)
Definition shl32 (x n : Z) : Z := u32 (Z.shiftl x n).

Definition shl64 (x n : Z) : Z := u64 (Z.shiftl x n).

(** Closes linear goals with quotients and remainders by constants. *)
Ltac mods := Z.to_euclidean_division_equations; lia.

Lemma shl32_mul x n : 0 <= n -> shl32 x n = (x * 2 ^ n) mod 2 ^ 32.
Proof. intros. unfold shl32, wrapu. by rewrite Z.shiftl_mul_pow2. Qed.

Lemma shl64_mul x n : 0 <= n -> shl64 x n = (x * 2 ^ n) mod 2 ^ 64.
Proof. intros. unfold shl64, wrapu. by rewrite Z.shiftl_mul_pow2. Qed.

Lemma shr_div x n : 0 <= n -> Z.shiftr x n = x / 2 ^ n.
Proof. intros. by apply Z.shiftr_div_pow2. Qed.

Lemma land_ones_mod x n : 0 <= n -> Z.land x (2 ^ n - 1) = x mod 2 ^ n.
Proof. intros. rewrite <- Z.land_ones by done. by rewrite Z.ones_equiv, <- Z.sub_1_r. Qed.

Lemma land_127 x : Z.land x 127 = x mod 128.
Proof. by apply (land_ones_mod x 7). Qed.

Lemma land_1 x : Z.land x 1 = x mod 2.
Proof. by apply (land_ones_mod x 1). Qed.

Lemma testbit_high x n i : 0 <= x < 2 ^ n -> 0 <= n <= i -> Z.testbit x i = false.
Proof.
  intros Hx Hi. destruct (decide (x = 0)) as [->|]; [by rewrite Z.testbit_0_l|].
  apply Z.bits_above_log2; [lia|]. assert (Z.log2 x < n); [apply Z.log2_lt_pow2; lia|lia].
Qed.

(** Two numbers split at the same bit: the operations act part by part. *)
Lemma testbit_split k h l i :
  0 <= k -> 0 <= l < 2 ^ k -> 0 <= i ->
  Z.testbit (h * 2 ^ k + l) i = if decide (i < k) then Z.testbit l i else Z.testbit h (i - k).
Proof.
  intros Hk Hl Hi. case_decide.
  - rewrite <- (Z.mod_pow2_bits_low _ k i) by lia.
    rewrite Z.add_comm, Z_mod_plus_full, Z.mod_small by lia. done.
  - replace i with (i - k + k) at 1 by lia. rewrite <- Z.div_pow2_bits by lia.
    rewrite Z.div_add_l, Z.div_small by lia. by rewrite Z.add_0_r.
Qed.

Lemma land_split k h l mh ml :
  0 <= k -> 0 <= l < 2 ^ k -> 0 <= ml < 2 ^ k ->
  Z.land (h * 2 ^ k + l) (mh * 2 ^ k + ml) = Z.land h mh * 2 ^ k + Z.land l ml.
Proof.
  intros Hk Hl Hml.
  assert (0 <= Z.land l ml < 2 ^ k) as Hb.
  { rewrite <- (Z.mod_small l (2 ^ k)) by lia. rewrite <- Z.land_ones by lia.
    rewrite <- Z.land_assoc, (Z.land_comm (Z.ones k)), Z.land_assoc, Z.land_ones by lia.
    apply Z.mod_pos_bound. lia. }
  apply Z.bits_inj'. intros i Hi. rewrite Z.land_spec, !testbit_split by done.
  case_decide; by rewrite Z.land_spec.
Qed.

(** Joining a number below the [k]-th bit to one above it. *)
Lemma lor_split k h l : 0 <= k -> 0 <= l < 2 ^ k -> Z.lor (h * 2 ^ k) l = h * 2 ^ k + l.
Proof.
  intros Hk Hl. apply Z.bits_inj'. intros i Hi. rewrite Z.lor_spec.
  rewrite testbit_split by done. rewrite <- (Z.add_0_r (h * 2 ^ k)), testbit_split by lia.
  case_decide; [by rewrite Z.testbit_0_l|].
  rewrite (testbit_high l k i) by lia. by rewrite orb_false_r.
Qed.

Lemma lor_disjoint k a l : 0 <= k -> a mod 2 ^ k = 0 -> 0 <= l < 2 ^ k -> Z.lor a l = a + l.
Proof.
  intros Hk Ha Hl. rewrite (Z.div_mod a (2 ^ k)) by lia. rewrite Ha, Z.add_0_r.
  rewrite (Z.mul_comm (2 ^ k)). by apply lor_split.
Qed.

(** Joining in either order. *)
Lemma lor_disjoint_r k a l : 0 <= k -> a mod 2 ^ k = 0 -> 0 <= l < 2 ^ k -> Z.lor l a = a + l.
Proof. rewrite Z.lor_comm. apply lor_disjoint. Qed.

Lemma land_bit_ne0 x n : 0 <= n -> Z.land x (2 ^ n) <> 0 <-> Z.testbit x n = true.
Proof.
  intros Hn. split.
  - intros H. destruct (Z.testbit x n) eqn:E; [done|]. exfalso. apply H.
    apply Z.bits_inj'. intros i Hi. rewrite Z.land_spec, Z.testbit_0_l.
    destruct (decide (i = n)) as [->|]; [by rewrite E|].
    rewrite Z.pow2_bits_false by lia. apply andb_false_r.
  - intros H E. apply (f_equal (fun z => Z.testbit z n)) in E.
    by rewrite Z.land_spec, H, Z.pow2_bits_true, Z.testbit_0_l in E.
Qed.

(** The flag bit of a byte. *)
Lemma land_128 x : Z.land x 128 = if decide (x mod 256 < 128) then 0 else 128.
Proof.
  assert (Z.testbit x 7 = bool_decide (128 <= x mod 256)) as Ht.
  { rewrite Z.testbit_eqb by lia. apply eq_true_iff_eq. rewrite bool_decide_eq_true, Z.eqb_eq.
    change (2 ^ 7) with 128. Z.to_euclidean_division_equations. lia. }
  apply Z.bits_inj'. intros i Hi. rewrite Z.land_spec. change 128 with (2 ^ 7) at 1.
  destruct (decide (i = 7)) as [->|].
  - rewrite Ht, Z.pow2_bits_true by lia. case_bool_decide; case_decide; done || lia.
  - rewrite Z.pow2_bits_false, andb_false_r by lia. symmetry. clear Ht. case_decide; [apply Z.testbit_0_l|].
    apply (Z.pow2_bits_false 7). lia.
Qed.

Lemma lor_parts k h l h' l' :
  0 <= k -> 0 <= l < 2 ^ k -> 0 <= l' < 2 ^ k ->
  Z.lor (h * 2 ^ k + l) (h' * 2 ^ k + l') = Z.lor h h' * 2 ^ k + Z.lor l l'.
Proof.
  intros Hk Hl Hl'.
  assert (0 <= Z.lor l l' < 2 ^ k) as Hb.
  { rewrite <- (Z.mod_small l (2 ^ k)), <- (Z.mod_small l' (2 ^ k)) by lia.
    rewrite <- !Z.land_ones, <- Z.land_lor_distr_l, Z.land_ones by lia. apply Z.mod_pos_bound. lia. }
  apply Z.bits_inj'. intros i Hi. rewrite Z.lor_spec, !testbit_split by done.
  case_decide; by rewrite Z.lor_spec.
Qed.

Lemma shl32_mod x n : 0 <= n <= 32 -> shl32 x n mod 2 ^ n = 0.
Proof.
  intros Hn. rewrite shl32_mul by lia. replace 32 with (n + (32 - n)) by lia.
  rewrite Z.pow_add_r, Z.mul_comm, Zmult_mod_distr_l by lia.
  rewrite Z.mul_comm. apply Z_mod_mult.
Qed.

(** [x << n | y] for a [y] of at most [n] bits. *)
Lemma lor_shl32 x n y :
  0 <= n <= 32 -> 0 <= y < 2 ^ n -> Z.lor (shl32 x n) y = (x * 2 ^ n) mod 2 ^ 32 + y.
Proof.
  intros Hn Hy. rewrite (lor_disjoint n) by (try apply shl32_mod; lia). by rewrite shl32_mul by lia.
Qed.
