(* ===== verification/Layout.v ===== *)
(** * Object representations of C++ structs

    The trace files hold arrays of trivially copyable structs written with
    [fwrite]-style calls, so the bytes of a record are its x86-64 object
    representation: members at naturally aligned offsets in declaration
    order, indeterminate padding between them, the size rounded up to the
    alignment.  [recorder.hpp] relies on nothing else of the ABI. *)

From S2P Require Import Prelude.

#[local] Set Warnings "-register-all".

(** Types of data members: a scalar of [n] bytes or a nested struct. *)
Inductive cty :=
| Scalar (sgn : bool) (n : nat)
| Struct (members : list cty).

(** A laid-out struct: member bytes and padding runs. *)
Inductive item :=
| Fld (sgn : bool) (n : nat)
| Pad (n : nat).

Definition item_size (it : item) : nat :=
  match it with Fld _ n => n | Pad n => n end.

Definition items_size (its : list item) : nat := sum_list_with item_size its.

Fixpoint align_of (t : cty) : nat :=
  match t with
  | Scalar _ n => n
  | Struct ms => (fix go ms := match ms with [] => 1 | m :: ms => align_of m `max` go ms end)%nat ms
  end.

(** Bytes to add to [off] to reach a multiple of [a]. *)
Definition pad_to (a off : nat) : nat := ((a - off mod a) mod a)%nat.

(** The layout of a type at offset 0; [go off ms] lays out the members that
    remain once [off] bytes are used. *)
Fixpoint layout_of (t : cty) : list item :=
  match t with
  | Scalar s n => [Fld s n]
  | Struct ms =>
      (fix go (off : nat) (ms : list cty) : list item :=
         match ms with
         | [] => [Pad (pad_to (align_of t) off)]
         | m :: ms' =>
             let p := pad_to (align_of m) off in
             let l := layout_of m in
             Pad p :: l ++ go (off + p + items_size l)%nat ms'
         end) O ms
  end.

Definition size_of (t : cty) : nat := items_size (layout_of t).

(** *** Encoding and decoding along a layout

    [vals] are the member values in declaration order, [pads] the padding
    bytes, run by run. *)

Definition in_scalar (s : bool) (n : nat) (v : Z) : Prop :=
  if s then in_s (8 * Z.of_nat n) v else in_u (8 * Z.of_nat n) v.

Fixpoint encode_items (its : list item) (vals : list Z) (pads : list bytes) : bytes :=
  match its, vals, pads with
  | [], _, _ => []
  | Fld _ n :: its, v :: vals, _ => le_enc n v ++ encode_items its vals pads
  | Fld _ n :: its, [], _ => le_enc n 0 ++ encode_items its [] pads
  | Pad n :: its, _, p :: pads => p ++ encode_items its vals pads
  | Pad n :: its, _, [] => replicate n 0 ++ encode_items its vals []
  end.

Definition decode_scalar (s : bool) (n : nat) (bs : bytes) : Z :=
  if s then wraps (8 * Z.of_nat n) (le_dec bs) else le_dec bs.

Fixpoint decode_items (its : list item) (bs : bytes) : list Z * list bytes :=
  match its with
  | [] => ([], [])
  | Fld s n :: its =>
      let '(vs, ps) := decode_items its (drop n bs) in
      (decode_scalar s n (take n bs) :: vs, ps)
  | Pad n :: its =>
      let '(vs, ps) := decode_items its (drop n bs) in
      (vs, take n bs :: ps)
  end.

(** Values and padding of the right shape for a layout. *)
Inductive fits : list item -> list Z -> list bytes -> Prop :=
| fits_nil : fits [] [] []
| fits_fld s n its v vs ps :
    in_scalar s n v -> (0 < n)%nat -> fits its vs ps -> fits (Fld s n :: its) (v :: vs) ps
| fits_pad n its vs p ps :
    length p = n -> bytes_ok p -> fits its vs ps -> fits (Pad n :: its) vs (p :: ps).

#[export] Hint Constructors fits : machine.

Lemma decode_scalar_enc s n v :
  (0 < n)%nat -> in_scalar s n v -> decode_scalar s n (le_enc n v) = v.
Proof.
  intros Hn Hv. unfold decode_scalar. destruct s; simpl in Hv; rewrite le_dec_enc.
  - rewrite wraps_wrapu by lia. apply wraps_id; [lia|done].
  - by apply wrapu_id.
Qed.

Lemma decode_scalar_range s n bs :
  (0 < n)%nat -> length bs = n -> bytes_ok bs -> in_scalar s n (decode_scalar s n bs).
Proof.
  intros Hn <- Hbs. unfold in_scalar, decode_scalar. destruct s.
  - apply wraps_range. lia.
  - by apply le_dec_range.
Qed.

Lemma le_enc_decode_scalar s n bs :
  (0 < n)%nat -> length bs = n -> bytes_ok bs -> le_enc n (decode_scalar s n bs) = bs.
Proof.
  intros Hn Hl Hbs. destruct s; unfold decode_scalar; [|by apply le_enc_dec].
  rewrite <- (le_enc_dec bs n) at 2 by done.
  transitivity (le_enc n (le_dec (le_enc n (wraps (8 * Z.of_nat n) (le_dec bs))))).
  - symmetry. apply le_enc_dec; [by rewrite length_le_enc|apply le_enc_ok].
  - rewrite le_dec_enc, wrapu_wraps by lia.
    rewrite <- le_dec_enc. rewrite le_enc_dec; [done|by rewrite length_le_enc|apply le_enc_ok].
Qed.

Lemma length_encode_items its vs ps :
  fits its vs ps -> length (encode_items its vs ps) = items_size its.
Proof.
  induction 1; simpl; unfold items_size in *; simpl;
    rewrite ?length_app, ?length_le_enc; lia.
Qed.

(** Decoding the object representation gives the members and the padding. *)
Lemma decode_encode_items its vs ps :
  fits its vs ps -> decode_items its (encode_items its vs ps) = (vs, ps).
Proof.
  induction 1 as [|s n its v vs ps Hv Hn _ IH|n its vs p ps Hl Hp _ IH]; simpl; [done|..].
  - rewrite drop_app_length' by (by rewrite length_le_enc).
    rewrite take_app_length' by (by rewrite length_le_enc).
    by rewrite IH, decode_scalar_enc.
  - by rewrite drop_app_length', take_app_length', IH.
Qed.

Definition item_ok (it : item) : Prop :=
  match it with Fld _ n => (0 < n)%nat | Pad _ => True end.

#[export] Instance item_ok_dec it : Decision (item_ok it).
Proof. destruct it; simpl; apply _. Defined.

(** Any byte image of the right length is the representation of what it
    decodes to. *)
Lemma encode_decode_items its bs :
  Forall item_ok its -> length bs = items_size its -> bytes_ok bs ->
  fits its (decode_items its bs).1 (decode_items its bs).2 /\
  encode_items its (decode_items its bs).1 (decode_items its bs).2 = bs.
Proof.
  revert bs. induction its as [|[s n|n] its IH]; intros bs Hok Hl Hbs;
    unfold items_size in Hl; simpl in Hl |- *.
  - destruct bs; [split; [constructor|done]|done].
  - inversion_clear Hok as [|? ? Hn Hok']. simpl in Hn.
    pose proof (Forall_take _ n _ Hbs) as Ht. pose proof (Forall_drop _ n _ Hbs) as Hd.
    destruct (IH (drop n bs)) as [Hf He]; [done|rewrite length_drop; fold (items_size its) in *; lia|done|].
    destruct (decode_items its (drop n bs)) as [vs ps]; simpl in *.
    assert (length (take n bs) = n) as Hlen by (rewrite length_take; lia).
    split.
    + constructor; [by apply decode_scalar_range|done|done].
    + by rewrite He, le_enc_decode_scalar, take_drop.
  - inversion_clear Hok as [|? ? _ Hok'].
    pose proof (Forall_take _ n _ Hbs) as Ht. pose proof (Forall_drop _ n _ Hbs) as Hd.
    destruct (IH (drop n bs)) as [Hf He]; [done|rewrite length_drop; fold (items_size its) in *; lia|done|].
    destruct (decode_items its (drop n bs)) as [vs ps]; simpl in *.
    split.
    + constructor; [rewrite length_take; lia|done|done].
    + by rewrite He, take_drop.
Qed.

(** *** Members and padding separately *)

Fixpoint fld_items (its : list item) : list item :=
  match its with
  | [] => []
  | Fld s n :: its => Fld s n :: fld_items its
  | Pad _ :: its => fld_items its
  end.

Fixpoint pad_runs (its : list item) : list nat :=
  match its with
  | [] => []
  | Fld _ _ :: its => pad_runs its
  | Pad n :: its => n :: pad_runs its
  end.

Definition in_fld (it : item) (v : Z) : Prop :=
  match it with Fld s n => in_scalar s n v | Pad _ => False end.

Definition pad_fits (n : nat) (p : bytes) : Prop := length p = n /\ bytes_ok p.

#[export] Instance in_scalar_dec s n v : Decision (in_scalar s n v).
Proof. unfold in_scalar. destruct s; apply _. Defined.
#[export] Instance in_fld_dec it v : Decision (in_fld it v).
Proof. destruct it; simpl; apply _. Defined.
#[export] Instance pad_fits_dec n p : Decision (pad_fits n p).
Proof. unfold pad_fits, bytes_ok, byte_ok. apply _. Defined.

Lemma fits_iff its vs ps :
  Forall item_ok its ->
  fits its vs ps <-> Forall2 in_fld (fld_items its) vs /\ Forall2 pad_fits (pad_runs its) ps.
Proof.
  intros Hok. split.
  - intros Hf. clear Hok.
    induction Hf as [|s n its v vs ps Hv Hn _ [IHv IHp]|n its vs p ps Hl Hp _ [IHv IHp]]; simpl.
    + by split.
    + by split; [constructor|].
    + by split; [|constructor].
  - revert vs ps. induction Hok as [|[s n|n] its Hi _ IH]; simpl; intros vs ps [Hv Hp].
    + inversion_clear Hv. inversion_clear Hp. constructor.
    + inversion_clear Hv. constructor; [done|done|naive_solver].
    + inversion_clear Hp as [|? ? ? ? [??]]. constructor; [done|done|naive_solver].
Qed.

(** The encoding has the size of the layout whatever the values, as long as
    the padding runs have their sizes. *)
Lemma length_encode_pads its vs ps :
  Forall2 (fun n p => length p = n) (pad_runs its) ps ->
  length (encode_items its vs ps) = items_size its.
Proof.
  revert vs ps. induction its as [|[s n|n] its IH]; intros vs ps Hp; simpl in Hp; [done|..].
  - destruct vs; simpl; rewrite length_app, length_le_enc, IH by done; done.
  - inversion Hp as [|? p ? ps' Hl Hp' Heq1 Heq2]; subst. simpl. by rewrite length_app, IH.
Qed.

Lemma decode_pads_length its bs :
  length bs = items_size its -> Forall2 (fun n p => length p = n) (pad_runs its) (decode_items its bs).2.
Proof.
  revert bs. induction its as [|[s n|n] its IH]; intros bs Hl; simpl; [constructor|..];
    unfold items_size in Hl; simpl in Hl; fold (items_size its) in Hl;
    specialize (IH (drop n bs) ltac:(rewrite length_drop; lia));
    destruct (decode_items its (drop n bs)) as [vs ps]; simpl in *; [done|].
  constructor; [rewrite length_take; lia|done].
Qed.
