(* ===== verification/Records.v ===== *)
(** * The trace records of [native/recorder.hpp]

    One Rocq record per record struct of the header, with its template
    parameters as indices, its file-name prefix, its data members (hence its
    object representation, through [Layout]), and its [operator<<], the CSV
    form.  [RecordType] is the interface [Recorder] and [RecordReader] use:
    the C++ templates take any struct with a [prefix] and a trivial layout. *)

From Stdlib Require Import Ascii.
From S2P Require Import Prelude Layout.

(** ** The interface of a record type *)

Class RecordType (R : Type) := {
  rec_prefix : string;
  rec_members : list cty;
  rec_vals : R -> list Z;
  rec_make : list Z -> option R;
  rec_csv : R -> string;
}.
Arguments rec_prefix R {_}.
Arguments rec_members R {_}.

(** What a record type promises: members determine the record, and each
    member has a slot of the layout. *)
Class RecordLaws (R : Type) `{RecordType R} := {
  rec_make_vals (r : R) : rec_make (rec_vals r) = Some r;
  rec_vals_make (vs : list Z) (r : R) : rec_make vs = Some r -> rec_vals r = vs;
  rec_items_ok : Forall item_ok (layout_of (Struct (rec_members R)));
  rec_make_some (vs : list Z) :
    length vs = length (fld_items (layout_of (Struct (rec_members R)))) -> is_Some (rec_make vs);
}.

Definition layout_items (R : Type) `{RecordType R} : list item :=
  layout_of (Struct (rec_members R)).

(** [sizeof(Record)]. *)
Definition sizeof (R : Type) `{RecordType R} : nat := items_size (layout_items R).

(** Every member is in the range of its type. *)
Definition rec_wf {R} `{RecordType R} (r : R) : Prop :=
  Forall2 in_fld (fld_items (layout_items R)) (rec_vals r).

(** Padding bytes of the right shape. *)
Definition pads_ok (R : Type) `{RecordType R} (ps : list bytes) : Prop :=
  Forall2 pad_fits (pad_runs (layout_items R)) ps.

#[export] Instance rec_wf_dec {R} `{RecordType R} (r : R) : Decision (rec_wf r).
Proof. unfold rec_wf. apply _. Defined.
#[export] Instance pads_ok_dec R `{RecordType R} ps : Decision (pads_ok R ps).
Proof. unfold pads_ok. apply _. Defined.

(** The bytes [fwrite] takes from an object, and the object [fread] makes. *)
Definition rec_image {R} `{RecordType R} (ps : list bytes) (r : R) : bytes :=
  encode_items (layout_items R) (rec_vals r) ps.

Definition rec_read (R : Type) `{RecordType R} (bs : bytes) : option R :=
  rec_make (decode_items (layout_items R) bs).1.

(** ** Address widths and nanoseconds *)

(** [AddressType<is_64bit>::value]: an unsigned integer of 8 or 4 bytes. *)
Definition AddressType (is_64bit : bool) : cty := Scalar false (if is_64bit then 8 else 4).

Definition uint16_t : cty := Scalar false 2.
Definition uint32_t : cty := Scalar false 4.
Definition uint64_t : cty := Scalar false 8.
Definition int_t : cty := Scalar true 4.

(** [nanotime]: seconds and nanoseconds of a clock as one 64-bit count. *)
Definition nanotime (tv_sec tv_nsec : Z) : Z :=
  u64 (u64 (u64 tv_sec * 1000000000) + u64 tv_nsec).

(** ** Numbers on a stream *)

(** [z] divided by [d], rounded to nearest, ties to even. *)
Definition div_half_even (z d : Z) : Z :=
  let q := z / d in
  let r := z mod d in
  if decide (2 * r < d) then q
  else if decide (d < 2 * r) then q + 1
  else if Z.even q then q else q + 1.

(** A non-negative integer rounded to [p] significant bits: its conversion
    to [float] ([p] = 24) or [double] ([p] = 53). *)
Definition to_floating (p z : Z) : Z :=
  let s := Z.log2 z + 1 - p in
  if decide (s <= 0) then z else div_half_even z (2 ^ s) * 2 ^ s.

Fixpoint strip_zeros (l : list Ascii.ascii) : list Ascii.ascii :=
  match l with
  | "0"%char :: l => strip_zeros l
  | _ => l
  end.

(** A non-negative integral floating-point value on an [ostream] of the
    default precision: [%g], six significant digits. *)
Definition fmt_g (z : Z) : string :=
  if decide (z < 1000000) then dec z
  else
    let n := Z.of_nat (String.length (dec z)) in
    let m := div_half_even z (10 ^ (n - 6)) in
    let '(m, e) := if decide (m = 1000000) then (100000, n) else (m, n - 1) in
    let ds := reverse (strip_zeros (reverse (String.list_ascii_of_string (dec m)))) in
    let mant :=
      match ds with
      | d :: (_ :: _) as ds' => String d (String "."%char (String.string_of_list_ascii (tail ds)))
      | _ => String.string_of_list_ascii ds
      end in
    mant +:+ "e+" +:+ (if decide (e < 10) then "0" else "") +:+ dec e.

Fixpoint csv_join (l : list string) : string :=
  match l with
  | [] => ""
  | [s] => s
  | s :: l => s +:+ "," +:+ csv_join l
  end.

(** ** Record structs *)

Record GCRecord (is_64bit : bool) := {
  gc_org_addr : Z;
  gc_new_addr : Z;
  gc_time : Z;
}.
Arguments gc_org_addr {_}.
Arguments gc_new_addr {_}.
Arguments gc_time {_}.

Definition gc_csv {b} (r : GCRecord b) : string :=
  csv_join [dec (gc_time r); dec (gc_org_addr r); dec (gc_new_addr r)] +:+ nl.

#[export] Instance gc_record b : RecordType (GCRecord b) := {
  rec_prefix := "gc";
  rec_members := [AddressType b; AddressType b; uint64_t];
  rec_vals r := [gc_org_addr r; gc_new_addr r; gc_time r];
  rec_make vs := match vs with [a; c; t] => Some (Build_GCRecord b a c t) | _ => None end;
  rec_csv := gc_csv;
}.

Record PutFieldRecord (is_64bit : bool) := {
  pf_line : Z;
  pf_class_name_id : Z;
  pf_field_id : Z;
  pf_holder_addr : Z;
  pf_ref_addr : Z;
  pf_time : Z;
}.
Arguments pf_line {_}.
Arguments pf_class_name_id {_}.
Arguments pf_field_id {_}.
Arguments pf_holder_addr {_}.
Arguments pf_ref_addr {_}.
Arguments pf_time {_}.

Definition pf_csv {b} (r : PutFieldRecord b) : string :=
  csv_join [dec (pf_line r); dec (pf_class_name_id r); dec (pf_field_id r);
            dec (pf_time r); dec (pf_holder_addr r); dec (pf_ref_addr r)] +:+ nl.

#[export] Instance pf_record b : RecordType (PutFieldRecord b) := {
  rec_prefix := "PutField";
  rec_members := [uint16_t; uint16_t; int_t; AddressType b; AddressType b; uint64_t];
  rec_vals r := [pf_line r; pf_class_name_id r; pf_field_id r;
                 pf_holder_addr r; pf_ref_addr r; pf_time r];
  rec_make vs := match vs with
    | [l; c; f; h; a; t] => Some (Build_PutFieldRecord b l c f h a t) | _ => None end;
  rec_csv := pf_csv;
}.

Record ConstructRecord (is_64bit : bool) := {
  co_line : Z;
  co_class_name_id : Z;
  co_obj_typeid : Z;
  co_addr : Z;
  co_time : Z;
}.
Arguments co_line {_}.
Arguments co_class_name_id {_}.
Arguments co_obj_typeid {_}.
Arguments co_addr {_}.
Arguments co_time {_}.

Definition co_csv {b} (r : ConstructRecord b) : string :=
  csv_join [dec (co_line r); dec (co_class_name_id r); dec (co_time r);
            dec (co_obj_typeid r); dec (co_addr r)] +:+ nl.

#[export] Instance co_record b : RecordType (ConstructRecord b) := {
  rec_prefix := "Construct";
  rec_members := [uint16_t; uint16_t; int_t; AddressType b; uint64_t];
  rec_vals r := [co_line r; co_class_name_id r; co_obj_typeid r; co_addr r; co_time r];
  rec_make vs := match vs with
    | [l; c; o; a; t] => Some (Build_ConstructRecord b l c o a t) | _ => None end;
  rec_csv := co_csv;
}.

Record NewRecord (is_64bit : bool) := {
  nw_line : Z;
  nw_class_name_id : Z;
  nw_obj_typeid : Z;
  nw_obj_size : Z;
  nw_addr : Z;
  nw_time : Z;
}.
Arguments nw_line {_}.
Arguments nw_class_name_id {_}.
Arguments nw_obj_typeid {_}.
Arguments nw_obj_size {_}.
Arguments nw_addr {_}.
Arguments nw_time {_}.

Definition nw_csv {b} (r : NewRecord b) : string :=
  csv_join [dec (nw_line r); dec (nw_class_name_id r); dec (nw_time r);
            dec (nw_obj_typeid r); dec (nw_addr r); dec (nw_obj_size r)] +:+ nl.

#[export] Instance nw_record b : RecordType (NewRecord b) := {
  rec_prefix := "NEW";
  rec_members := [uint16_t; uint16_t; int_t; uint32_t; AddressType b; uint64_t];
  rec_vals r := [nw_line r; nw_class_name_id r; nw_obj_typeid r; nw_obj_size r;
                 nw_addr r; nw_time r];
  rec_make vs := match vs with
    | [l; c; o; s; a; t] => Some (Build_NewRecord b l c o s a t) | _ => None end;
  rec_csv := nw_csv;
}.

Record AAStoreRecord (is_64bit : bool) := {
  aa_line : Z;
  aa_class_name_id : Z;
  aa_index : Z;
  aa_holder_addr : Z;
  aa_ref_addr : Z;
  aa_time : Z;
}.
Arguments aa_line {_}.
Arguments aa_class_name_id {_}.
Arguments aa_index {_}.
Arguments aa_holder_addr {_}.
Arguments aa_ref_addr {_}.
Arguments aa_time {_}.

Definition aa_csv {b} (r : AAStoreRecord b) : string :=
  csv_join [dec (aa_line r); dec (aa_class_name_id r); dec (aa_time r);
            dec (aa_index r); dec (aa_holder_addr r); dec (aa_ref_addr r)] +:+ nl.

#[export] Instance aa_record b : RecordType (AAStoreRecord b) := {
  rec_prefix := "AAStore";
  rec_members := [uint16_t; uint16_t; int_t; AddressType b; AddressType b; uint64_t];
  rec_vals r := [aa_line r; aa_class_name_id r; aa_index r;
                 aa_holder_addr r; aa_ref_addr r; aa_time r];
  rec_make vs := match vs with
    | [l; c; i; h; a; t] => Some (Build_AAStoreRecord b l c i h a t) | _ => None end;
  rec_csv := aa_csv;
}.

Record UseRecord (is_64bit : bool) := {
  us_type : Z;
  us_line : Z;
  us_class_name_id : Z;
  us_addr : Z;
  us_time : Z;
}.
Arguments us_type {_}.
Arguments us_line {_}.
Arguments us_class_name_id {_}.
Arguments us_addr {_}.
Arguments us_time {_}.

Definition us_csv {b} (r : UseRecord b) : string :=
  csv_join [dec (us_type r); dec (us_line r); dec (us_class_name_id r);
            dec (us_addr r); dec (us_time r)] +:+ nl.

#[export] Instance us_record b : RecordType (UseRecord b) := {
  rec_prefix := "Use";
  rec_members := [uint16_t; uint16_t; uint16_t; AddressType b; uint64_t];
  rec_vals r := [us_type r; us_line r; us_class_name_id r; us_addr r; us_time r];
  rec_make vs := match vs with
    | [k; l; c; a; t] => Some (Build_UseRecord b k l c a t) | _ => None end;
  rec_csv := us_csv;
}.

(** ** Field-value records: template <is_64bit, is_put, val_len, is_float> *)

(** [concate]: the file-name prefix of a field-value record. *)
Definition concate (is_put val_len is_float is_static is_string : bool) : string :=
  if is_string then
    let id := (if is_static then 10 else 0) + (if is_put then 1 else 0) in
    match id with
    | 11 => "PutStaticString"
    | 10 => "GetStaticString"
    | 1 => "PutStringField"
    | 0 => "GetStringField"
    | _ => "ERROR"
    end
  else
    let id := (if is_put then 100 else 0) + (if val_len then 10 else 0)
              + (if is_float then 1 else 0) in
    if negb is_static then
      match id with
      | 100 => "FieldValue100"
      | 110 => "FieldValue110"
      | 101 => "FieldValue101"
      | 111 => "FieldValue111"
      | 0 => "FieldValue000"
      | 10 => "FieldValue010"
      | 1 => "FieldValue001"
      | 11 => "FieldValue011"
      | _ => "FieldValue"
      end
    else
      match id with
      | 100 => "StaticFieldValue100"
      | 110 => "StaticFieldValue110"
      | 101 => "StaticFieldValue101"
      | 111 => "StaticFieldValue111"
      | 0 => "StaticFieldValue000"
      | 10 => "StaticFieldValue010"
      | 1 => "StaticFieldValue001"
      | 11 => "StaticFieldValue011"
      | _ => "StaticFieldValue"
      end.

(** How both [operator<<] of field values print [r.value], an unsigned
    integer of 32 or 64 bits: a numeric conversion to the printed type. *)
Definition value_csv (val_len is_float : bool) (v : Z) : string :=
  if val_len then
    if is_float then fmt_g (to_floating 53 v) else dec (i64 v)
  else
    if is_float then fmt_g (to_floating 24 v) else dec (i32 v).

Record FieldValueRecord (is_64bit is_put val_len is_float : bool) := {
  fv_line : Z;
  fv_class_name_id : Z;
  fv_addr : Z;
  fv_time : Z;
  fv_field_id : Z;
  fv_value : Z;
}.
Arguments fv_line {_ _ _ _}.
Arguments fv_class_name_id {_ _ _ _}.
Arguments fv_addr {_ _ _ _}.
Arguments fv_time {_ _ _ _}.
Arguments fv_field_id {_ _ _ _}.
Arguments fv_value {_ _ _ _}.

Definition fv_csv {b is_put val_len is_float} (r : FieldValueRecord b is_put val_len is_float) : string :=
  csv_join [if is_put then "Put" else "Get";
            value_csv val_len is_float (fv_value r);
            dec (fv_line r); dec (fv_class_name_id r); dec (fv_addr r);
            dec (fv_field_id r); dec (fv_time r)] +:+ nl.

#[export] Instance fv_record b p v f : RecordType (FieldValueRecord b p v f) := {
  rec_prefix := concate p v f false false;
  rec_members := [uint16_t; uint16_t; AddressType b; uint64_t; uint16_t; AddressType v];
  rec_vals r := [fv_line r; fv_class_name_id r; fv_addr r; fv_time r; fv_field_id r; fv_value r];
  rec_make vs := match vs with
    | [l; c; a; t; i; x] => Some (Build_FieldValueRecord b p v f l c a t i x) | _ => None end;
  rec_csv := fv_csv;
}.

Record StaticFieldValueRecord (is_64bit is_put val_len is_float : bool) := {
  sf_line : Z;
  sf_class_name_id : Z;
  sf_time : Z;
  sf_field_id : Z;
  sf_value : Z;
}.
Arguments sf_line {_ _ _ _}.
Arguments sf_class_name_id {_ _ _ _}.
Arguments sf_time {_ _ _ _}.
Arguments sf_field_id {_ _ _ _}.
Arguments sf_value {_ _ _ _}.

Definition sf_csv {b is_put val_len is_float} (r : StaticFieldValueRecord b is_put val_len is_float) : string :=
  csv_join [if is_put then "PutStatic" else "GetStatic";
            value_csv val_len is_float (sf_value r);
            dec (sf_line r); dec (sf_class_name_id r);
            dec (sf_field_id r); dec (sf_time r)] +:+ nl.

#[export] Instance sf_record b p v f : RecordType (StaticFieldValueRecord b p v f) := {
  rec_prefix := concate p v f true false;
  rec_members := [uint16_t; uint16_t; uint64_t; uint16_t; AddressType v];
  rec_vals r := [sf_line r; sf_class_name_id r; sf_time r; sf_field_id r; sf_value r];
  rec_make vs := match vs with
    | [l; c; t; i; x] => Some (Build_StaticFieldValueRecord b p v f l c t i x) | _ => None end;
  rec_csv := sf_csv;
}.

Record StringFieldValueRecord (is_64bit is_put : bool) := {
  st_line : Z;
  st_class_name_id : Z;
  st_addr : Z;
  st_time : Z;
  st_field_id : Z;
  st_string_id : Z;
}.
Arguments st_line {_ _}.
Arguments st_class_name_id {_ _}.
Arguments st_addr {_ _}.
Arguments st_time {_ _}.
Arguments st_field_id {_ _}.
Arguments st_string_id {_ _}.

Definition st_csv {b is_put} (r : StringFieldValueRecord b is_put) : string :=
  csv_join [if is_put then "Put" else "Get";
            dec (st_string_id r); dec (st_line r); dec (st_class_name_id r);
            dec (st_addr r); dec (st_field_id r); dec (st_time r)] +:+ nl.

#[export] Instance st_record b p : RecordType (StringFieldValueRecord b p) := {
  rec_prefix := concate p false false false true;
  rec_members := [uint16_t; uint16_t; AddressType b; uint64_t; uint16_t; uint16_t];
  rec_vals r := [st_line r; st_class_name_id r; st_addr r; st_time r; st_field_id r; st_string_id r];
  rec_make vs := match vs with
    | [l; c; a; t; i; x] => Some (Build_StringFieldValueRecord b p l c a t i x) | _ => None end;
  rec_csv := st_csv;
}.

Record StaticStringFieldValueRecord (is_64bit is_put : bool) := {
  ss_line : Z;
  ss_class_name_id : Z;
  ss_time : Z;
  ss_field_id : Z;
  ss_string_id : Z;
}.
Arguments ss_line {_ _}.
Arguments ss_class_name_id {_ _}.
Arguments ss_time {_ _}.
Arguments ss_field_id {_ _}.
Arguments ss_string_id {_ _}.

Definition ss_csv {b is_put} (r : StaticStringFieldValueRecord b is_put) : string :=
  csv_join [if is_put then "PutStatic" else "GetStatic";
            dec (ss_string_id r); dec (ss_line r); dec (ss_class_name_id r);
            dec (ss_field_id r); dec (ss_time r)] +:+ nl.

#[export] Instance ss_record b p : RecordType (StaticStringFieldValueRecord b p) := {
  rec_prefix := concate p false false true true;
  rec_members := [uint16_t; uint16_t; uint64_t; uint16_t; uint16_t];
  rec_vals r := [ss_line r; ss_class_name_id r; ss_time r; ss_field_id r; ss_string_id r];
  rec_make vs := match vs with
    | [l; c; t; i; x] => Some (Build_StaticStringFieldValueRecord b p l c t i x) | _ => None end;
  rec_csv := ss_csv;
}.

(** ** Container records *)

Record ContainerRecord (is_64bit : bool) := {
  br_holder_addr : Z;
  br_ref_addr : Z;
  br_cid : Z;
  br_copid : Z;
  br_time : Z;
  br_size : Z;
}.
Arguments br_holder_addr {_}.
Arguments br_ref_addr {_}.
Arguments br_cid {_}.
Arguments br_copid {_}.
Arguments br_time {_}.
Arguments br_size {_}.

Definition container_members (b : bool) : list cty :=
  [AddressType b; AddressType b; uint16_t; uint16_t; uint64_t; uint32_t].

Definition container_vals {b} (r : ContainerRecord b) : list Z :=
  [br_holder_addr r; br_ref_addr r; br_cid r; br_copid r; br_time r; br_size r].

Record ListAndSetRecord (is_64bit : bool) := {
  ls_br : ContainerRecord is_64bit;
  ls_idx_or_succ : Z;
}.
Arguments ls_br {_}.
Arguments ls_idx_or_succ {_}.

Definition ls_csv {b} (r : ListAndSetRecord b) : string :=
  csv_join [dec (br_cid (ls_br r)); dec (br_copid (ls_br r));
            dec (br_holder_addr (ls_br r)); dec (br_ref_addr (ls_br r));
            dec (ls_idx_or_succ r); dec (br_time (ls_br r)); dec (br_size (ls_br r))] +:+ nl.

#[export] Instance ls_record b : RecordType (ListAndSetRecord b) := {
  rec_prefix := "List-Set";
  rec_members := [Struct (container_members b); uint32_t];
  rec_vals r := container_vals (ls_br r) ++ [ls_idx_or_succ r];
  rec_make vs := match vs with
    | [h; a; c; o; t; s; i] =>
        Some (Build_ListAndSetRecord b (Build_ContainerRecord b h a c o t s) i)
    | _ => None end;
  rec_csv := ls_csv;
}.

Record MapRecord (is_64bit : bool) := {
  mp_br : ContainerRecord is_64bit;
  mp_value_addr : Z;
  mp_key_addr : Z;
}.
Arguments mp_br {_}.
Arguments mp_value_addr {_}.
Arguments mp_key_addr {_}.

Definition mp_csv {b} (r : MapRecord b) : string :=
  csv_join [dec (br_cid (mp_br r)); dec (br_copid (mp_br r));
            dec (br_holder_addr (mp_br r)); dec (br_ref_addr (mp_br r));
            dec (mp_key_addr r); dec (mp_value_addr r);
            dec (br_time (mp_br r)); dec (br_size (mp_br r))] +:+ nl.

#[export] Instance mp_record b : RecordType (MapRecord b) := {
  rec_prefix := "Map";
  rec_members := [Struct (container_members b); AddressType b; AddressType b];
  rec_vals r := container_vals (mp_br r) ++ [mp_value_addr r; mp_key_addr r];
  rec_make vs := match vs with
    | [h; a; c; o; t; s; v; k] =>
        Some (Build_MapRecord b (Build_ContainerRecord b h a c o t s) v k)
    | _ => None end;
  rec_csv := mp_csv;
}.

Record ContainerLineInfoRecord := {
  cl_line : Z;
  cl_class_name_id : Z;
  cl_time : Z;
}.

Definition cl_csv (r : ContainerLineInfoRecord) : string :=
  csv_join [dec (cl_line r); dec (cl_class_name_id r); dec (cl_time r)] +:+ nl.

#[export] Instance cl_record : RecordType ContainerLineInfoRecord := {
  rec_prefix := "ContainerLineInfo";
  rec_members := [uint16_t; uint16_t; uint64_t];
  rec_vals r := [cl_line r; cl_class_name_id r; cl_time r];
  rec_make vs := match vs with
    | [l; c; t] => Some (Build_ContainerLineInfoRecord l c t) | _ => None end;
  rec_csv := cl_csv;
}.

Record FreeRecord (is_64bit : bool) := {
  fr_obj_size : Z;
  fr_addr : Z;
  fr_time : Z;
}.
Arguments fr_obj_size {_}.
Arguments fr_addr {_}.
Arguments fr_time {_}.

Definition fr_csv {b} (r : FreeRecord b) : string :=
  csv_join [dec (fr_addr r); dec (fr_time r)] +:+ nl.

#[export] Instance fr_record b : RecordType (FreeRecord b) := {
  rec_prefix := "Free";
  rec_members := [uint32_t; AddressType b; uint64_t];
  rec_vals r := [fr_obj_size r; fr_addr r; fr_time r];
  rec_make vs := match vs with
    | [s; a; t] => Some (Build_FreeRecord b s a t) | _ => None end;
  rec_csv := fr_csv;
}.

(** [EventRecord::Event]. *)
Definition GC_START_EVENT : Z := 1.
Definition GC_END_EVENT : Z := 2.

Record EventRecord (is_64bit : bool) := {
  ev_event_id : Z;
  ev_time : Z;
}.
Arguments ev_event_id {_}.
Arguments ev_time {_}.

Definition ev_csv {b} (r : EventRecord b) : string :=
  csv_join [dec (ev_time r); dec (ev_event_id r)] +:+ nl.

#[export] Instance ev_record b : RecordType (EventRecord b) := {
  rec_prefix := "Event";
  rec_members := [int_t; uint64_t];
  rec_vals r := [ev_event_id r; ev_time r];
  rec_make vs := match vs with [e; t] => Some (Build_EventRecord b e t) | _ => None end;
  rec_csv := ev_csv;
}.

(** ** The laws hold of every record type *)

Ltac record_laws :=
  repeat match goal with b : bool |- _ => destruct b end;
  (split;
   [ intros [[]] || intros []; done
   | intros vs r; repeat (destruct vs as [|? vs]; simpl; try discriminate);
     by intros [= <-]
   | by apply (bool_decide_unpack _)
   | intros vs; simpl;
     repeat (destruct vs as [|? vs]; simpl; try (intros; discriminate)); by eexists ]).

#[export] Instance gc_laws b : RecordLaws (GCRecord b).
Proof. record_laws. Qed.
#[export] Instance pf_laws b : RecordLaws (PutFieldRecord b).
Proof. record_laws. Qed.
#[export] Instance co_laws b : RecordLaws (ConstructRecord b).
Proof. record_laws. Qed.
#[export] Instance nw_laws b : RecordLaws (NewRecord b).
Proof. record_laws. Qed.
#[export] Instance aa_laws b : RecordLaws (AAStoreRecord b).
Proof. record_laws. Qed.
#[export] Instance us_laws b : RecordLaws (UseRecord b).
Proof. record_laws. Qed.
#[export] Instance fv_laws b p v f : RecordLaws (FieldValueRecord b p v f).
Proof. record_laws. Qed.
#[export] Instance sf_laws b p v f : RecordLaws (StaticFieldValueRecord b p v f).
Proof. record_laws. Qed.
#[export] Instance st_laws b p : RecordLaws (StringFieldValueRecord b p).
Proof. record_laws. Qed.
#[export] Instance ss_laws b p : RecordLaws (StaticStringFieldValueRecord b p).
Proof. record_laws. Qed.
#[export] Instance ls_laws b : RecordLaws (ListAndSetRecord b).
Proof. record_laws. Qed.
#[export] Instance mp_laws b : RecordLaws (MapRecord b).
Proof. record_laws. Qed.
#[export] Instance cl_laws : RecordLaws ContainerLineInfoRecord.
Proof. record_laws. Qed.
#[export] Instance fr_laws b : RecordLaws (FreeRecord b).
Proof. record_laws. Qed.
#[export] Instance ev_laws b : RecordLaws (EventRecord b).
Proof. record_laws. Qed.

(** ** Object representations *)

Section Images.
Context {R : Type} `{RecordLaws R}.

Lemma rec_fits (r : R) ps :
  rec_wf r -> pads_ok R ps -> fits (layout_items R) (rec_vals r) ps.
Proof. intros. apply fits_iff; [apply rec_items_ok|done]. Qed.

Lemma length_rec_image (r : R) ps :
  rec_wf r -> pads_ok R ps -> length (rec_image ps r) = sizeof R.
Proof. intros. by apply length_encode_items, rec_fits. Qed.

Lemma rec_read_image (r : R) ps :
  rec_wf r -> pads_ok R ps -> rec_read R (rec_image ps r) = Some r.
Proof.
  intros. unfold rec_read, rec_image.
  rewrite decode_encode_items by (by apply rec_fits). apply rec_make_vals.
Qed.

(** A byte image of the right length is the image of the object it reads
    as, with its own padding bytes. *)
Lemma image_split (bs : bytes) r :
  length bs = sizeof R -> bytes_ok bs -> rec_read R bs = Some r ->
  exists ps, pads_ok R ps /\ rec_wf r /\ rec_image ps r = bs.
Proof.
  intros Hl Hb Hr. unfold rec_read in Hr. apply rec_vals_make in Hr.
  destruct (encode_decode_items (layout_items R) bs rec_items_ok Hl Hb) as [Hf He].
  apply fits_iff in Hf as [Hv Hp]; [|apply rec_items_ok].
  exists (decode_items (layout_items R) bs).2. unfold rec_wf, rec_image.
  by rewrite Hr.
Qed.
End Images.

Section Update.
Context {R : Type} `{RecordLaws R}.

(** An object in a buffer updated through its members: the padding bytes
    stay as they are. *)
Definition update_image (f : R -> R) (bs : bytes) : bytes :=
  let '(vs, ps) := decode_items (layout_items R) bs in
  match rec_make vs with
  | Some r => rec_image ps (f r)
  | None => bs
  end.

Lemma length_update_image f bs : length bs = sizeof R -> length (update_image f bs) = sizeof R.
Proof.
  intros Hl. unfold update_image.
  pose proof (decode_pads_length (layout_items R) bs Hl) as Hp.
  destruct (decode_items (layout_items R) bs) as [vs ps]. simpl in Hp.
  destruct (rec_make vs); [by apply length_encode_pads|done].
Qed.

Lemma update_image_spec f (r : R) ps :
  rec_wf r -> pads_ok R ps -> update_image f (rec_image ps r) = rec_image ps (f r).
Proof.
  intros. unfold update_image, rec_image at 1.
  rewrite decode_encode_items by (by apply rec_fits). by rewrite rec_make_vals.
Qed.
End Update.

Example sizeof_trace_records :
  [sizeof (GCRecord false); sizeof (PutFieldRecord false); sizeof (ConstructRecord false);
   sizeof (NewRecord false); sizeof (AAStoreRecord false); sizeof (UseRecord false);
   sizeof (FieldValueRecord false true false true); sizeof (FieldValueRecord false true true true);
   sizeof (ListAndSetRecord false); sizeof (MapRecord false);
   sizeof ContainerLineInfoRecord; sizeof (FreeRecord false); sizeof (EventRecord false)]
  = [16; 24; 24; 24; 24; 24; 24; 32; 40; 40; 16; 16; 16]%nat.
Proof. vm_compute. reflexivity. Qed.

(** The text form of a float field is the bit pattern as a number: the value
    1.5, stored as 0x3fc00000, prints as 1.06955e+09. *)
Example csv_of_float_field :
  fv_csv (Build_FieldValueRecord false true false true 1 2 3 4 5 1069547520) = "Put,1.06955e+09,1,2,3,5,4" +:+ nl.
Proof. vm_compute. reflexivity. Qed.
