(* ===== verification/RecordBytes.v ===== *)
(** * The bytes of the trace files

    The table of the file format: for each record struct of
    [native/recorder.hpp], as every part of the tool instantiates it (32-bit
    addresses), its size and the offset, width and signedness of each
    member, written out.  The theorem says that the objects the recorders
    write and the readers read are laid out like this. *)

From S2P Require Import Prelude Layout Records.

(** ** The format, in bytes *)

Inductive kind := UInt16 | UInt32 | UInt64 | Int32.

Definition width (k : kind) : nat :=
  match k with UInt16 => 2 | UInt32 => 4 | UInt64 => 8 | Int32 => 4 end.

Definition in_range (k : kind) (v : Z) : Prop :=
  match k with
  | UInt16 => 0 <= v < 65536
  | UInt32 => 0 <= v < 4294967296
  | UInt64 => 0 <= v < 18446744073709551616
  | Int32 => -2147483648 <= v < 2147483648
  end.

(** A member at an offset, with its value. *)
Inductive place := At (off : nat) (k : kind) (v : Z).

Definition place_ok (p : place) : Prop := let '(At _ k v) := p in in_range k v.

(** Its bytes, the least significant one first; a negative value in two's
    complement. *)
Definition holds (bs : bytes) (p : place) : Prop :=
  let '(At off k v) := p in
  forall i, (i < width k)%nat -> bs !! (off + i)%nat = Some (v / 256 ^ Z.of_nat i mod 256).

(** Objects of type [R] have [size] bytes with the members in their places,
    and any bytes otherwise. *)
Definition stored_as (R : Type) `{RecordType R} (size : nat) (members : R -> list place) : Prop :=
  forall r : R, (rec_wf r <-> Forall place_ok (members r)) /\
    (rec_wf r -> forall bs, bytes_ok bs ->
       ((exists ps, pads_ok R ps /\ rec_image ps r = bs) <->
        length bs = size /\ Forall (holds bs) (members r)) /\
       (length bs = size -> Forall (holds bs) (members r) -> rec_read R bs = Some r)).

Definition gc_places (r : GCRecord false) : list place :=
  [At 0 UInt32 (gc_org_addr r); At 4 UInt32 (gc_new_addr r); At 8 UInt64 (gc_time r)].

Definition pf_places (r : PutFieldRecord false) : list place :=
  [At 0 UInt16 (pf_line r); At 2 UInt16 (pf_class_name_id r); At 4 Int32 (pf_field_id r);
   At 8 UInt32 (pf_holder_addr r); At 12 UInt32 (pf_ref_addr r); At 16 UInt64 (pf_time r)].

Definition co_places (r : ConstructRecord false) : list place :=
  [At 0 UInt16 (co_line r); At 2 UInt16 (co_class_name_id r); At 4 Int32 (co_obj_typeid r);
   At 8 UInt32 (co_addr r); At 16 UInt64 (co_time r)].

Definition nw_places (r : NewRecord false) : list place :=
  [At 0 UInt16 (nw_line r); At 2 UInt16 (nw_class_name_id r); At 4 Int32 (nw_obj_typeid r);
   At 8 UInt32 (nw_obj_size r); At 12 UInt32 (nw_addr r); At 16 UInt64 (nw_time r)].

Definition aa_places (r : AAStoreRecord false) : list place :=
  [At 0 UInt16 (aa_line r); At 2 UInt16 (aa_class_name_id r); At 4 Int32 (aa_index r);
   At 8 UInt32 (aa_holder_addr r); At 12 UInt32 (aa_ref_addr r); At 16 UInt64 (aa_time r)].

Definition us_places (r : UseRecord false) : list place :=
  [At 0 UInt16 (us_type r); At 2 UInt16 (us_line r); At 4 UInt16 (us_class_name_id r);
   At 8 UInt32 (us_addr r); At 16 UInt64 (us_time r)].

(** A value of 32 bits fills the rest of the object, one of 64 bits starts
    at its own alignment. *)
Definition value_place (val_len : bool) (v : Z) : place :=
  if val_len then At 24 UInt64 v else At 20 UInt32 v.
Definition value_size (val_len : bool) : nat := if val_len then 32 else 24.

Definition fv_places {p v f} (r : FieldValueRecord false p v f) : list place :=
  [At 0 UInt16 (fv_line r); At 2 UInt16 (fv_class_name_id r); At 4 UInt32 (fv_addr r);
   At 8 UInt64 (fv_time r); At 16 UInt16 (fv_field_id r); value_place v (fv_value r)].

Definition sf_places {p v f} (r : StaticFieldValueRecord false p v f) : list place :=
  [At 0 UInt16 (sf_line r); At 2 UInt16 (sf_class_name_id r);
   At 8 UInt64 (sf_time r); At 16 UInt16 (sf_field_id r); value_place v (sf_value r)].

Definition st_places {p} (r : StringFieldValueRecord false p) : list place :=
  [At 0 UInt16 (st_line r); At 2 UInt16 (st_class_name_id r); At 4 UInt32 (st_addr r);
   At 8 UInt64 (st_time r); At 16 UInt16 (st_field_id r); At 18 UInt16 (st_string_id r)].

Definition ss_places {p} (r : StaticStringFieldValueRecord false p) : list place :=
  [At 0 UInt16 (ss_line r); At 2 UInt16 (ss_class_name_id r);
   At 8 UInt64 (ss_time r); At 16 UInt16 (ss_field_id r); At 18 UInt16 (ss_string_id r)].

Definition br_places (r : ContainerRecord false) : list place :=
  [At 0 UInt32 (br_holder_addr r); At 4 UInt32 (br_ref_addr r); At 8 UInt16 (br_cid r);
   At 10 UInt16 (br_copid r); At 16 UInt64 (br_time r); At 24 UInt32 (br_size r)].

Definition ls_places (r : ListAndSetRecord false) : list place :=
  br_places (ls_br r) ++ [At 32 UInt32 (ls_idx_or_succ r)].

Definition mp_places (r : MapRecord false) : list place :=
  br_places (mp_br r) ++ [At 32 UInt32 (mp_value_addr r); At 36 UInt32 (mp_key_addr r)].

Definition cl_places (r : ContainerLineInfoRecord) : list place :=
  [At 0 UInt16 (cl_line r); At 2 UInt16 (cl_class_name_id r); At 8 UInt64 (cl_time r)].

Definition fr_places (r : FreeRecord false) : list place :=
  [At 0 UInt32 (fr_obj_size r); At 4 UInt32 (fr_addr r); At 8 UInt64 (fr_time r)].

Definition ev_places (r : EventRecord false) : list place :=
  [At 0 Int32 (ev_event_id r); At 8 UInt64 (ev_time r)].

(** ** Layouts place their members *)

Definition signed (k : kind) : bool := match k with Int32 => true | _ => false end.

(** What a layout from offset [off] on says of its members. *)
Fixpoint layout_places (off : nat) (its : list item) (vs : list Z) : list (nat * bool * nat * Z) :=
  match its, vs with
  | Fld s n :: its, v :: vs => (off, s, n, v) :: layout_places (off + n) its vs
  | Pad n :: its, vs => layout_places (off + n) its vs
  | _, _ => []
  end.

Definition raw (p : place) : nat * bool * nat * Z :=
  let '(At off k v) := p in (off, signed k, width k, v).

Definition raw_holds (bs : bytes) (q : nat * bool * nat * Z) : Prop :=
  let '(off, s, n, v) := q in take n (drop off bs) = le_enc n v.

Lemma le_enc_lookup n v i : (i < n)%nat -> le_enc n v !! i = Some (v / 256 ^ Z.of_nat i mod 256).
Proof.
  intros Hi. unfold le_enc. rewrite Z_to_little_endian_lookup_Some by lia.
  split; [lia|]. rewrite Z.land_ones, Z.shiftr_div_pow2 by lia. do 2 f_equal.
  by rewrite Z.mul_comm, Z.pow_mul_r by lia.
Qed.

Lemma raw_holds_iff bs p : holds bs p <-> raw_holds bs (raw p).
Proof.
  destruct p as [off k v]. simpl. split.
  - intros Hbs. apply list_eq. intros i. destruct (decide (i < width k)%nat) as [Hi|Hi].
    + rewrite lookup_take_lt, lookup_drop by done. by rewrite Hbs, le_enc_lookup.
    + rewrite !lookup_ge_None_2; [done|rewrite length_le_enc; lia|rewrite length_take; lia].
  - intros Hbs i Hi. rewrite <- le_enc_lookup with (n := width k) by done.
    rewrite <- Hbs, lookup_take_lt, lookup_drop by done. done.
Qed.

Lemma in_range_iff k v : in_range k v <-> in_scalar (signed k) (width k) v.
Proof. destruct k; cbn; unfold in_s, in_u; cbn; lia. Qed.

Lemma encode_places its vs ps :
  fits its vs ps -> forall pre,
  Forall (raw_holds (pre ++ encode_items its vs ps)) (layout_places (length pre) its vs).
Proof.
  induction 1 as [|s n its v vs ps Hv Hn _ IH|n its vs p ps Hl Hp _ IH]; intros pre; simpl; [done|..].
  - constructor.
    + simpl. rewrite drop_app_length. rewrite take_app_length' by (by rewrite length_le_enc). done.
    + specialize (IH (pre ++ le_enc n v)). rewrite length_app, length_le_enc, <- app_assoc in IH. done.
  - specialize (IH (pre ++ p)). rewrite length_app, Hl, <- app_assoc in IH. destruct vs; exact IH.
Qed.

Lemma decode_places its vs bs off :
  Forall2 in_fld (fld_items its) vs -> Forall item_ok its ->
  Forall (raw_holds bs) (layout_places off its vs) -> (decode_items its (drop off bs)).1 = vs.
Proof.
  intros Hvs Hok. revert vs off Hvs.
  induction Hok as [|[s n|n] its Hi _ IH]; simpl; intros vs off Hvs Hbs.
  - by inversion_clear Hvs.
  - inversion Hvs as [|? v ? vs' Hv Hvs' Heq1 Heq2]; subst. apply Forall_cons in Hbs as [Hb Hbs].
    specialize (IH _ (off + n)%nat Hvs' Hbs). rewrite drop_drop.
    destruct (decode_items its (drop (off + n) bs)) as [vs1 ps1]. simpl in *. subst vs1.
    by rewrite Hb, decode_scalar_enc.
  - assert (Forall (raw_holds bs) (layout_places (off + n) its vs)) as Hbs' by (destruct vs; exact Hbs).
    specialize (IH _ (off + n)%nat Hvs Hbs'). rewrite drop_drop.
    by destruct (decode_items its (drop (off + n) bs)) as [vs1 ps1].
Qed.

Lemma layout_places_range its vs off :
  length vs = length (fld_items its) ->
  Forall2 in_fld (fld_items its) vs <->
  Forall (fun q => let '(_, s, n, v) := q in in_scalar s n v) (layout_places off its vs).
Proof.
  revert vs off. induction its as [|[s n|n] its IH]; simpl; intros vs off Hl.
  - destruct vs; [|done]. by split.
  - destruct vs as [|v vs]; [done|]. injection Hl as Hl.
    rewrite Forall2_cons, Forall_cons, (IH vs (off + n)%nat Hl). done.
  - rewrite (IH vs (off + n)%nat Hl). by destruct vs.
Qed.

(** A record type with this layout is stored in these places. *)
Lemma stored_in_layout R `{RecordLaws R} size (members : R -> list place) :
  sizeof R = size ->
  (forall r, length (rec_vals r) = length (fld_items (layout_items R)) /\
     layout_places 0 (layout_items R) (rec_vals r) = raw <$> members r) ->
  stored_as R size members.
Proof.
  intros Hsize Hpl r. destruct (Hpl r) as [Hlen Heq].
  assert (forall bs, Forall (holds bs) (members r) <->
            Forall (raw_holds bs) (layout_places 0 (layout_items R) (rec_vals r))) as Hh.
  { intros bs. rewrite Heq, Forall_fmap. apply Forall_iff. intros p. apply raw_holds_iff. }
  assert (forall bs, rec_wf r -> Forall (holds bs) (members r) -> rec_read R bs = Some r) as Hread.
  { intros bs Hr Hbs. apply Hh in Hbs. apply decode_places in Hbs; [|done|apply rec_items_ok].
    rewrite drop_0 in Hbs. unfold rec_read. rewrite Hbs. apply rec_make_vals. }
  split.
  - unfold rec_wf. rewrite (layout_places_range _ _ 0) by done. rewrite Heq, Forall_fmap.
    apply Forall_iff. intros [off k v]. symmetry. apply in_range_iff.
  - intros Hr bs Hok. split; [split|by intros; apply Hread].
    + intros (ps & Hps & <-). split; [by rewrite length_rec_image|]. apply Hh.
      apply (encode_places _ _ _ (rec_fits r ps Hr Hps) []).
    + intros [Hl Hbs]. destruct (image_split bs r) as (ps & Hps & _ & Him);
        [by rewrite Hsize|done|by apply Hread|by exists ps].
Qed.

Ltac stored :=
  repeat match goal with b : bool |- _ => destruct b end;
  (apply stored_in_layout; [apply _|vm_compute; reflexivity|intros []; split; vm_compute; reflexivity]).

(** C39: The format of the trace files: for every record struct, what its
    objects are in memory, and so in the files, is exactly the table: the
    members in range are those of the widths listed, an object is any bytes
    of that size in which every member stands at its offset, least
    significant byte first, and from such bytes the readers get exactly the
    members, whatever the bytes between them are. *)
Theorem trace_format :
  stored_as (GCRecord false) 16 gc_places /\
  stored_as (PutFieldRecord false) 24 pf_places /\
  stored_as (ConstructRecord false) 24 co_places /\
  stored_as (NewRecord false) 24 nw_places /\
  stored_as (AAStoreRecord false) 24 aa_places /\
  stored_as (UseRecord false) 24 us_places /\
  (forall p v f, stored_as (FieldValueRecord false p v f) (value_size v) fv_places) /\
  (forall p v f, stored_as (StaticFieldValueRecord false p v f) (value_size v) sf_places) /\
  (forall p, stored_as (StringFieldValueRecord false p) 24 st_places) /\
  (forall p, stored_as (StaticStringFieldValueRecord false p) 24 ss_places) /\
  stored_as (ListAndSetRecord false) 40 ls_places /\
  stored_as (MapRecord false) 40 mp_places /\
  stored_as ContainerLineInfoRecord 16 cl_places /\
  stored_as (FreeRecord false) 16 fr_places /\
  stored_as (EventRecord false) 16 ev_places.
Proof. split_and!; intros; stored. Qed.

(** The 24 bytes of a use of object 10 with junk between its members. *)
Definition sample_use : bytes :=
  [1;0; 11;0; 2;0; 99;98; 10;0;0;0; 97;96;95;94; 7;202;154;59;0;0;0;0].

Lemma trace_format_witness :
  rec_read (UseRecord false) sample_use = Some (Build_UseRecord false 1 11 2 10 1000000007).
Proof.
  destruct trace_format as (_ & _ & _ & _ & _ & Huse & _).
  destruct (Huse (Build_UseRecord false 1 11 2 10 1000000007)) as [Hwf Hbytes].
  apply (Hbytes ltac:(apply (bool_decide_unpack _); vm_compute; exact I) sample_use
           ltac:(apply (bool_decide_unpack _); vm_compute; exact I)).
  - reflexivity.
  - repeat constructor; intros i Hi; cbn in Hi; repeat (destruct i as [|i]; [vm_compute; reflexivity|]); lia.
Defined.
