(* ===== verification/FileSys.v ===== *)
(** * Files and output streams

    What the recorders use of [std::filesystem] and [std::ofstream]: named
    directories and regular files below the working directory, a stream that
    truncates its file when it opens and then writes at its own position. *)

From S2P Require Import Prelude.

Record fs := { dirs : gset string; files : gmap string bytes }.

(** [filesystem::exists]. *)
Definition path_exists (p : string) (w : fs) : bool :=
  bool_decide (p ∈ dirs w) || bool_decide (is_Some (files w !! p)).

(** [filesystem::create_directory] of a path that does not exist. *)
Definition create_directory (p : string) (w : fs) : fs :=
  {| dirs := {[p]} ∪ dirs w; files := files w |}.

(** An [ofstream]: its path, whether the open succeeded, its position. *)
Record ofstream := { os_path : string; os_good : bool; os_pos : nat }.

(** [open(dir + "/" + name, ios::out|ios::binary)]. *)
Definition open_out (dir name : string) (w : fs) : ofstream * fs :=
  let p := dir +:+ "/" +:+ name in
  if decide (dir ∈ dirs w /\ p ∉ dirs w)
  then ({| os_path := p; os_good := true; os_pos := 0 |},
        {| dirs := dirs w; files := <[p := []]> (files w) |})
  else ({| os_path := p; os_good := false; os_pos := 0 |}, w).

(** Bytes written at offset [pos] of a file, which grows as needed. *)
Definition write_at (pos : nat) (bs content : bytes) : bytes :=
  take pos (content ++ replicate (pos - length content) 0) ++ bs
  ++ drop (pos + length bs) content.

Definition os_write (bs : bytes) (st : ofstream) (w : fs) : ofstream * fs :=
  if os_good st then
    ({| os_path := os_path st; os_good := true; os_pos := os_pos st + length bs |},
     {| dirs := dirs w;
        files := <[os_path st := write_at (os_pos st) bs (default [] (files w !! os_path st))]>
                   (files w) |})
  else (st, w).

Lemma write_at_end bs content : write_at (length content) bs content = content ++ bs.
Proof.
  unfold write_at. rewrite Nat.sub_diag. simpl.
  rewrite app_nil_r, firstn_all, skipn_all2 by lia. by rewrite app_nil_r.
Qed.

(** A stream that is the only writer of its file: the file holds exactly
    what it wrote. *)
Definition stream_holds (w : fs) (p : string) (st : ofstream) (bs : bytes) : Prop :=
  os_path st = p /\ os_good st = true /\ files w !! p = Some bs /\ os_pos st = length bs.

Lemma os_write_holds w p st bs bs' :
  stream_holds w p st bs ->
  stream_holds (os_write bs' st w).2 p (os_write bs' st w).1 (bs ++ bs').
Proof.
  intros (Hp & Hg & Hf & Hpos). unfold os_write. rewrite Hg. simpl.
  split_and!; simpl; [done|done| |by rewrite length_app; lia].
  rewrite Hp, Hf, Hpos. simpl. by rewrite write_at_end, lookup_insert_eq.
Qed.

(** Two worlds that agree except on the files of [ps] and new directories
    of [ds]. *)
Definition only_touches (ps ds : gset string) (w w' : fs) : Prop :=
  (forall q, q ∉ ps -> files w' !! q = files w !! q) /\
  dirs w ⊆ dirs w' /\ dirs w' ⊆ ds ∪ dirs w.

#[export] Instance only_touches_refl ps ds : Reflexive (only_touches ps ds).
Proof. intros w. unfold only_touches. set_solver. Qed.

#[export] Instance only_touches_trans ps ds : Transitive (only_touches ps ds).
Proof.
  intros w1 w2 w3 (Hf1 & Hd1 & Hs1) (Hf2 & Hd2 & Hs2). split_and!; [|set_solver..].
  intros q Hq. rewrite Hf2 by done. by apply Hf1.
Qed.

Lemma os_write_touches w st bs ps ds :
  os_path st ∈ ps -> only_touches ps ds w (os_write bs st w).2.
Proof.
  intros Hp. unfold os_write. destruct (os_good st); simpl; [|done].
  split_and!; simpl; [|done|set_solver].
  intros q Hq. apply lookup_insert_ne. by intros <-.
Qed.

Lemma stream_holds_frame w w' p st bs ps ds :
  only_touches ps ds w w' -> p ∉ ps -> stream_holds w p st bs -> stream_holds w' p st bs.
Proof. intros (Hf & _) Hp (? & ? & ? & ?). split_and!; [done|done| |done]. by rewrite Hf. Qed.

(** Opening in an existing directory truncates; the stream starts empty. *)
Lemma open_out_holds dir name w :
  dir ∈ dirs w -> dir +:+ "/" +:+ name ∉ dirs w ->
  stream_holds (open_out dir name w).2 (dir +:+ "/" +:+ name) (open_out dir name w).1 [].
Proof.
  intros Hd Hn. unfold open_out. rewrite decide_True by done. simpl.
  split_and!; simpl; [done|done| |done]. apply lookup_insert_eq.
Qed.

Lemma open_out_touches dir name w ps ds :
  dir +:+ "/" +:+ name ∈ ps -> only_touches ps ds w (open_out dir name w).2.
Proof.
  intros Hp. unfold open_out. case_decide; [|done].
  split_and!; simpl; [|done|set_solver].
  intros q Hq. apply lookup_insert_ne. by intros <-.
Qed.
