(* ===== verification/Recorder.v ===== *)
(** * [Recorder<Record>] of [native/recorder.hpp]

    A recorder buffers [_limit] records and appends the full buffer to its
    file, in binary or (under [__CSV_OUTPUT__]) as text.  The operations
    return [None] where the C++ has no defined behaviour: a store past the
    buffer, a read of a slot never written.  The refinement below says that
    a recorder is a log: what was added is what the file holds after the
    destructor, in order, whatever the limit. *)

From S2P Require Import Prelude Layout Records FileSys.

Section Recorder.
Context {R : Type} `{RecordLaws R}.
(** Whether the build defines [__CSV_OUTPUT__]. *)
Variable csv_output : bool.
(** The indeterminate padding bytes of an object. *)
Variable padding : R -> list bytes.

Record Recorder := {
  _limit : Z;
  _pos : Z;
  _tid : Z;
  _pid : Z;
  fout : option ofstream;
  fstrout : option ofstream;
  _buffer : list (option R);
  _prefix : string;
}.

Definition data_dir (pid : Z) : string := "data-" +:+ dec pid.

(** The constructor: [new Record[_limit]] leaves the slots indeterminate. *)
Definition Recorder_new (limit tid pid : Z) : Recorder :=
  {| _limit := limit; _pos := 0; _tid := tid; _pid := pid;
     fout := None; fstrout := None;
     _buffer := replicate (Z.to_nat limit) None;
     _prefix := rec_prefix R +:+ "-" |}.

Definition with_fout (st : ofstream) (rc : Recorder) : Recorder :=
  {| _limit := _limit rc; _pos := _pos rc; _tid := _tid rc; _pid := _pid rc;
     fout := Some st; fstrout := fstrout rc; _buffer := _buffer rc; _prefix := _prefix rc |}.

Definition with_fstrout (st : ofstream) (rc : Recorder) : Recorder :=
  {| _limit := _limit rc; _pos := _pos rc; _tid := _tid rc; _pid := _pid rc;
     fout := fout rc; fstrout := Some st; _buffer := _buffer rc; _prefix := _prefix rc |}.

Definition with_buffer (pos : Z) (buf : list (option R)) (rc : Recorder) : Recorder :=
  {| _limit := _limit rc; _pos := pos; _tid := _tid rc; _pid := _pid rc;
     fout := fout rc; fstrout := fstrout rc; _buffer := buf; _prefix := _prefix rc |}.

Definition data_name (rc : Recorder) : string :=
  _prefix rc +:+ dec (_tid rc) +:+ "-" +:+ dec (_pid rc).

Definition string_name (rc : Recorder) : string :=
  _prefix rc +:+ "string-" +:+ dec (_tid rc) +:+ "-" +:+ dec (_pid rc).

(** The directory check and the open shared by the two [sync]s and by
    [addString]. *)
Definition open_in_data_dir (pid : Z) (name : string) (w : fs) : ofstream * fs :=
  let path := data_dir pid in
  let w := if path_exists path w then w else create_directory path w in
  open_out path name w.

Definition ensure_fout (rc : Recorder) (w : fs) : ofstream * fs :=
  match fout rc with
  | Some st => (st, w)
  | None => open_in_data_dir (_pid rc) (data_name rc) w
  end.

(** The records [_buffer[0 .. _pos)]. *)
Definition pending (rc : Recorder) : option (list R) :=
  mapM id (take (Z.to_nat (_pos rc)) (_buffer rc)).

Definition sync_csv (rc : Recorder) (w : fs) : option (Recorder * fs) :=
  let '(st, w) := ensure_fout rc w in
  rs ← pending rc;
  let '(st, w) := os_write (concat (str_bytes ∘ rec_csv <$> rs)) st w in
  Some (with_buffer 0 (_buffer rc) (with_fout st rc), w).

Definition sync_bin (rc : Recorder) (w : fs) : option (Recorder * fs) :=
  let '(st, w) := ensure_fout rc w in
  rs ← pending rc;
  let '(st, w) := os_write (concat ((fun r => rec_image (padding r) r) <$> rs)) st w in
  Some (with_buffer 0 (_buffer rc) (with_fout st rc), w).

Definition sync (rc : Recorder) (w : fs) : option (Recorder * fs) :=
  if csv_output then sync_csv rc w else sync_bin rc w.

Definition Recorder_add (r : R) (rc : Recorder) (w : fs) : option (Recorder * fs) :=
  '(rc, w) ← (if decide (_limit rc <= _pos rc) then sync rc w else Some (rc, w));
  if decide (0 <= _pos rc < Z.of_nat (length (_buffer rc))) then
    Some (with_buffer (_pos rc + 1) (<[Z.to_nat (_pos rc) := Some r]> (_buffer rc)) rc, w)
  else None.

Definition addString (s : string) (rc : Recorder) (w : fs) : Recorder * fs :=
  let '(st, w) :=
    match fstrout rc with
    | Some st => (st, w)
    | None => open_in_data_dir (_pid rc) (string_name rc) w
    end in
  let '(st, w) := os_write (str_bytes s) st w in
  (with_fstrout st rc, w).

(** The destructor; the world it leaves. *)
Definition Recorder_delete (rc : Recorder) (w : fs) : option fs :=
  if decide (_pos rc <> 0) then '(_, w) ← sync rc w; Some w else Some w.

(** *** The log a recorder stands for *)

(** The bytes of one record in the output. *)
Definition out_bytes (r : R) : bytes :=
  if csv_output then str_bytes (rec_csv r) else rec_image (padding r) r.

Definition data_path (tid pid : Z) : string :=
  data_dir pid +:+ "/" +:+ (rec_prefix R +:+ "-") +:+ dec tid +:+ "-" +:+ dec pid.

Definition string_path (tid pid : Z) : string :=
  data_dir pid +:+ "/" +:+ (rec_prefix R +:+ "-") +:+ "string-" +:+ dec tid +:+ "-" +:+ dec pid.

(** The names the process needs are free: the data directory is not a
    regular file, the data files are not directories. *)
Record names_free (w : fs) (tid pid : Z) : Prop := {
  dir_not_file : files w !! data_dir pid = None;
  data_not_dir : data_path tid pid ∉ dirs w;
  string_not_dir : string_path tid pid ∉ dirs w;
}.

Definition stream_log (w : fs) (p : string) (st : option ofstream) (bs : bytes) : Prop :=
  match st with
  | None => bs = []
  | Some st => stream_holds w p st bs
  end.

(** [rc] in world [w] stands for the records [log] and the strings
    [slog], in the order they were added. *)
Record recorder_rep (w : fs) (rc : Recorder) (log : list R) (slog : list string) : Prop := {
  rep_limit : 0 < _limit rc;
  rep_buffer : Z.of_nat (length (_buffer rc)) = _limit rc;
  rep_pos : 0 <= _pos rc <= _limit rc;
  rep_prefix : _prefix rc = rec_prefix R +:+ "-";
  rep_names : names_free w (_tid rc) (_pid rc);
  rep_log : exists written buffered, log = written ++ buffered /\
    take (Z.to_nat (_pos rc)) (_buffer rc) = Some <$> buffered /\
    match fout rc with
    | None => written = []
    | Some st => stream_holds w (data_path (_tid rc) (_pid rc)) st (concat (out_bytes <$> written))
    end;
  rep_slog : stream_log w (string_path (_tid rc) (_pid rc)) (fstrout rc)
               (concat (str_bytes <$> slog));
}.

(** *** Proof of the refinement *)

Lemma data_path_not_string_path tid pid : data_path tid pid <> string_path tid pid.
Proof.
  unfold data_path, string_path. intros Heq.
  do 3 apply string_app_inj_l in Heq.
  assert (all_chars dec_char (dec tid +:+ "-" +:+ dec pid)) as Hc
    by (rewrite !all_chars_app; by rewrite !andb_True; split_and!; try apply dec_chars).
  rewrite Heq in Hc. done.
Qed.

Lemma open_in_data_dir_spec pid name w ps :
  files w !! data_dir pid = None ->
  data_dir pid +:+ "/" +:+ name ∉ dirs w ->
  data_dir pid +:+ "/" +:+ name ∈ ps ->
  stream_holds (open_in_data_dir pid name w).2 (data_dir pid +:+ "/" +:+ name)
    (open_in_data_dir pid name w).1 [] /\
  only_touches ps {[data_dir pid]} w (open_in_data_dir pid name w).2.
Proof.
  intros Hf Hd Hin. unfold open_in_data_dir, path_exists. rewrite Hf.
  rewrite (bool_decide_eq_false_2 (is_Some _)) by (by intros []).
  rewrite orb_false_r. case_bool_decide as Hex.
  - split; [by apply open_out_holds|by apply open_out_touches].
  - assert (data_dir pid +:+ "/" +:+ name <> data_dir pid) as Hne.
    { intros Heq. apply (f_equal String.length) in Heq. clear -Heq.
      revert Heq. generalize (data_dir pid). intros s. induction s; simpl; lia. }
    split.
    + apply open_out_holds; simpl; set_solver.
    + trans (create_directory (data_dir pid) w); [|by apply open_out_touches].
      split_and!; simpl; [done|set_solver..].
Qed.

Lemma path_not_dir pid name : data_dir pid +:+ "/" +:+ name <> data_dir pid.
Proof.
  intros Heq. apply (f_equal String.length) in Heq.
  revert Heq. generalize (data_dir pid). intros s. induction s; simpl; lia.
Qed.

Lemma names_free_frame w w' tid pid p :
  only_touches {[data_dir pid +:+ "/" +:+ p]} {[data_dir pid]} w w' ->
  names_free w tid pid -> names_free w' tid pid.
Proof.
  intros (Hf & _ & Hd) [Hn1 Hn2 Hn3]. split.
  - rewrite Hf; [done|]. rewrite elem_of_singleton. intros Heq. by apply (path_not_dir pid p).
  - intros Hin%Hd. rewrite elem_of_union, elem_of_singleton in Hin.
    destruct Hin as [Hin|Hin]; [by apply path_not_dir in Hin|done].
  - intros Hin%Hd. rewrite elem_of_union, elem_of_singleton in Hin.
    destruct Hin as [Hin|Hin]; [by apply path_not_dir in Hin|done].
Qed.

Lemma ensure_fout_spec w rc log slog :
  recorder_rep w rc log slog ->
  let p := data_path (_tid rc) (_pid rc) in
  let '(st, w') := ensure_fout rc w in
  only_touches {[p]} {[data_dir (_pid rc)]} w w' /\
  exists written buffered, log = written ++ buffered /\
    pending rc = Some buffered /\ length buffered = Z.to_nat (_pos rc) /\
    stream_holds w' p st (concat (out_bytes <$> written)).
Proof.
  intros [Hl Hb Hp Hpre Hn (wr & bf & -> & Ht & Hst) Hs]. simpl.
  assert (data_dir (_pid rc) +:+ "/" +:+ data_name rc = data_path (_tid rc) (_pid rc)) as Hpath
    by (unfold data_name, data_path; by rewrite Hpre).
  assert (pending rc = Some bf /\ length bf = Z.to_nat (_pos rc)) as [Hpend Hlen].
  { split.
    - unfold pending. rewrite Ht. apply mapM_Some. apply Forall2_fmap_l, Forall_Forall2_diag.
      apply Forall_forall. done.
    - rewrite <- (length_fmap Some), <- Ht, length_take. lia. }
  unfold ensure_fout. destruct (fout rc) as [st|]; simpl in Hst.
  - split; [done|]. exists wr, bf. done.
  - destruct (open_in_data_dir_spec (_pid rc) (data_name rc) w {[data_path (_tid rc) (_pid rc)]})
      as [Hh Ht']; [apply Hn|rewrite Hpath; apply Hn|rewrite Hpath; set_solver|].
    destruct (open_in_data_dir _ _ _) as [st w']. simpl in *. rewrite Hpath in Hh.
    split; [done|]. exists wr, bf. rewrite Hst. done.
Qed.

Lemma sync_eq rc w :
  sync rc w =
    ('(st, w) ← Some (ensure_fout rc w);
     rs ← pending rc;
     let '(st, w) := os_write (concat (out_bytes <$> rs)) st w in
     Some (with_buffer 0 (_buffer rc) (with_fout st rc), w)).
Proof.
  unfold sync, sync_csv, sync_bin, out_bytes.
  destruct csv_output; destruct (ensure_fout rc w) as [st w']; reflexivity.
Qed.

(** [sync] writes everything pending and empties the buffer. *)
Lemma sync_spec w rc log slog :
  recorder_rep w rc log slog ->
  exists rc' w', sync rc w = Some (rc', w') /\
    recorder_rep w' rc' log slog /\
    _pos rc' = 0 /\ _limit rc' = _limit rc /\ _buffer rc' = _buffer rc /\
    _tid rc' = _tid rc /\ _pid rc' = _pid rc /\
    files w' !! data_path (_tid rc) (_pid rc) = Some (concat (out_bytes <$> log)) /\
    only_touches {[data_path (_tid rc) (_pid rc)]} {[data_dir (_pid rc)]} w w'.
Proof.
  intros Hrep. pose proof (ensure_fout_spec w rc log slog Hrep) as Hens. rewrite sync_eq. simpl in *.
  destruct (ensure_fout rc w) as [st w1].
  destruct Hens as (Ht1 & wr & bf & -> & -> & Hlen & Hh). simpl.
  pose proof (os_write_holds _ _ _ _ (concat (out_bytes <$> bf)) Hh) as Hh2.
  rewrite <- concat_app, <- fmap_app in Hh2.
  assert (only_touches {[data_path (_tid rc) (_pid rc)]} {[data_dir (_pid rc)]} w
            (os_write (concat (out_bytes <$> bf)) st w1).2) as Ht2.
  { trans w1; [done|]. apply os_write_touches. destruct Hh as [-> _]. set_solver. }
  destruct (os_write _ st w1) as [st2 w2]. simpl in *.
  exists (with_buffer 0 (_buffer rc) (with_fout st2 rc)), w2.
  destruct Hrep as [Hl Hb Hp Hpre Hn _ Hs].
  split; [done|]. split; [|split_and!; try done; apply Hh2].
  split; simpl; try done.
  - lia.
  - by eapply (names_free_frame w w2), Hn.
  - exists (wr ++ bf), []. rewrite app_nil_r. done.
  - destruct (fstrout rc); simpl in *; [|done].
    eapply stream_holds_frame; [exact Ht2| |exact Hs].
    rewrite elem_of_singleton. intros Heq. symmetry in Heq. by apply data_path_not_string_path in Heq.
Qed.

Lemma Recorder_add_spec w rc log slog r :
  recorder_rep w rc log slog ->
  exists rc' w', Recorder_add r rc w = Some (rc', w') /\
    recorder_rep w' rc' (log ++ [r]) slog /\
    _tid rc' = _tid rc /\ _pid rc' = _pid rc /\
    only_touches {[data_path (_tid rc) (_pid rc)]} {[data_dir (_pid rc)]} w w'.
Proof.
  intros Hrep. unfold Recorder_add.
  assert (exists rc1 w1, (if decide (_limit rc <= _pos rc) then sync rc w else Some (rc, w)) = Some (rc1, w1)
    /\ recorder_rep w1 rc1 log slog /\ _pos rc1 < _limit rc1 /\ _tid rc1 = _tid rc /\ _pid rc1 = _pid rc
    /\ only_touches {[data_path (_tid rc) (_pid rc)]} {[data_dir (_pid rc)]} w w1) as
    (rc1 & w1 & -> & Hrep1 & Hlt & Htid & Hpid & Ht).
  { case_decide.
    - destruct (sync_spec _ _ _ _ Hrep) as (rc1 & w1 & Hs & Hrep1 & Hp0 & Hlim & _ & ? & ? & _ & ?).
      exists rc1, w1. split_and!; try done. pose proof (rep_limit _ _ _ _ Hrep). lia.
    - exists rc, w. split_and!; try done. lia. }
  simpl. pose proof (rep_pos _ _ _ _ Hrep1) as Hpos. pose proof (rep_buffer _ _ _ _ Hrep1) as Hbuf.
  rewrite decide_True by lia.
  eexists _, w1. split; [done|]. split; [|done].
  destruct Hrep1 as [Hl Hb Hp Hpre Hn (wr & bf & -> & Htk & Hst) Hs].
  split; simpl; try done.
  - by rewrite length_insert.
  - lia.
  - exists wr, (bf ++ [r]). split; [by rewrite app_assoc|]. split; [|done].
    replace (Z.to_nat (_pos rc1 + 1)) with (S (Z.to_nat (_pos rc1))) by lia.
    rewrite (take_S_r _ _ (Some r)) by (apply list_lookup_insert_eq; lia).
    rewrite take_insert_ge by lia. by rewrite Htk, fmap_app.
Qed.

Lemma addString_spec w rc log slog s :
  recorder_rep w rc log slog ->
  let '(rc', w') := addString s rc w in
  recorder_rep w' rc' log (slog ++ [s]) /\
  _tid rc' = _tid rc /\ _pid rc' = _pid rc /\
  only_touches {[string_path (_tid rc) (_pid rc)]} {[data_dir (_pid rc)]} w w'.
Proof.
  intros [Hl Hb Hp Hpre Hn Hlog Hs]. unfold addString.
  assert (data_dir (_pid rc) +:+ "/" +:+ string_name rc = string_path (_tid rc) (_pid rc)) as Hpath
    by (unfold string_name, string_path; by rewrite Hpre).
  assert (exists st w1, match fstrout rc with Some st => (st, w)
            | None => open_in_data_dir (_pid rc) (string_name rc) w end = (st, w1) /\
          stream_holds w1 (string_path (_tid rc) (_pid rc)) st (concat (str_bytes <$> slog)) /\
          only_touches {[string_path (_tid rc) (_pid rc)]} {[data_dir (_pid rc)]} w w1)
    as (st & w1 & -> & Hh & Ht).
  { destruct (fstrout rc) as [st|]; simpl in Hs; [by exists st, w|].
    destruct (open_in_data_dir_spec (_pid rc) (string_name rc) w {[string_path (_tid rc) (_pid rc)]})
      as [Hh Ht']; [apply Hn|rewrite Hpath; apply Hn|rewrite Hpath; set_solver|].
    destruct (open_in_data_dir _ _ _) as [st w1]. simpl in *. rewrite Hpath in Hh.
    exists st, w1. by rewrite Hs. }
  pose proof (os_write_holds _ _ _ _ (str_bytes s) Hh) as Hh2.
  assert (only_touches {[string_path (_tid rc) (_pid rc)]} {[data_dir (_pid rc)]} w
            (os_write (str_bytes s) st w1).2) as Ht2.
  { trans w1; [done|]. apply os_write_touches. destruct Hh as [-> _]. set_solver. }
  destruct (os_write _ st w1) as [st2 w2]. simpl in *.
  split; [|done]. split; simpl; try done.
  - by eapply (names_free_frame w w2), Hn.
  - destruct Hlog as (wr & bf & Hl1 & Hl2 & Hl3). exists wr, bf. split_and!; [done|done|].
    destruct (fout rc); simpl in *; [|done].
    eapply stream_holds_frame; [exact Ht2| |exact Hl3].
    rewrite elem_of_singleton. apply data_path_not_string_path.
  - rewrite fmap_app, concat_app. simpl. by rewrite app_nil_r.
Qed.

Lemma Recorder_new_rep w limit tid pid :
  0 < limit -> names_free w tid pid -> recorder_rep w (Recorder_new limit tid pid) [] [].
Proof.
  intros Hl Hn. split; simpl; try done; try lia.
  - rewrite length_replicate. lia.
  - exists [], []. done.
Qed.

Lemma recorder_rep_frame w w' ps ds rc log slog :
  only_touches ps ds w w' ->
  data_path (_tid rc) (_pid rc) ∉ ps -> string_path (_tid rc) (_pid rc) ∉ ps ->
  data_dir (_pid rc) ∉ ps ->
  data_path (_tid rc) (_pid rc) ∉ ds -> string_path (_tid rc) (_pid rc) ∉ ds ->
  recorder_rep w rc log slog -> recorder_rep w' rc log slog.
Proof.
  intros Ht Hd Hs Hdir Hd2 Hs2 [Hl Hb Hp Hpre Hn (wr & bf & Hl1 & Hl2 & Hl3) Hsl].
  split; try done.
  - destruct Hn as [Hn1 Hn2 Hn3], Ht as (Hf & _ & Hds).
    split; [by rewrite Hf|set_solver..].
  - exists wr, bf. split_and!; [done|done|]. destruct (fout rc); simpl in *; [|done].
    by eapply stream_holds_frame.
  - destruct (fstrout rc); simpl in *; [|done]. by eapply stream_holds_frame.
Qed.

Lemma Recorder_delete_spec w rc log slog :
  recorder_rep w rc log slog ->
  exists w', Recorder_delete rc w = Some w' /\
    (log <> [] -> files w' !! data_path (_tid rc) (_pid rc) = Some (concat (out_bytes <$> log))) /\
    only_touches {[data_path (_tid rc) (_pid rc)]} {[data_dir (_pid rc)]} w w'.
Proof.
  intros Hrep. unfold Recorder_delete. case_decide as Hpos.
  - destruct (sync_spec _ _ _ _ Hrep) as (rc' & w' & -> & _ & _ & _ & _ & _ & _ & Hf & Ht).
    exists w'. done.
  - exists w. split_and!; [done| |done]. intros Hlog.
    destruct Hrep as [Hl Hb Hp Hpre Hn (wr & bf & -> & Htk & Hst) Hs].
    assert (_pos rc = 0) as Hz by (destruct (decide (_pos rc = 0)); naive_solver).
    rewrite Hz in Htk. destruct bf; [|done]. rewrite app_nil_r in *.
    destruct (fout rc); simpl in Hst; [apply Hst|].
    by rewrite Hst in Hlog.
Qed.

(** A run of the recorder: construct it, add [rs], destroy it. *)
Definition Recorder_run (limit tid pid : Z) (rs : list R) (w : fs) : option fs :=
  '(rc, w) ← foldM (fun '(rc, w) r => Recorder_add r rc w) (Recorder_new limit tid pid, w) rs;
  Recorder_delete rc w.

Lemma Recorder_run_spec limit tid pid rs w :
  0 < limit -> names_free w tid pid ->
  exists w', Recorder_run limit tid pid rs w = Some w' /\
    (rs <> [] -> files w' !! data_path tid pid = Some (concat (out_bytes <$> rs))) /\
    only_touches {[data_path tid pid]} {[data_dir pid]} w w'.
Proof.
  intros Hl Hn. unfold Recorder_run.
  destruct (foldM_total
    (fun '(rc, w1) log => recorder_rep w1 rc log [] /\ _tid rc = tid /\ _pid rc = pid /\
       only_touches {[data_path tid pid]} {[data_dir pid]} w w1)
    (fun '(rc, w) r => Recorder_add r rc w)) with (l := rs) (s := (Recorder_new limit tid pid, w)) (done_ := @nil R)
    as ([rc w1] & -> & Hrep & Htid & Hpid & Ht).
  - intros [rc w1] log r (Hrep & <- & <- & Ht).
    destruct (Recorder_add_spec _ _ _ _ r Hrep) as (rc' & w' & Ha & Hrep' & Htid & Hpid & Ht').
    exists (rc', w'). split_and!; [done|done|done|done|]. by trans w1.
  - split_and!; [by apply Recorder_new_rep|done|done|done].
  - simpl. destruct (Recorder_delete_spec _ _ _ _ Hrep) as (w' & -> & Hf & Ht').
    exists w'. rewrite Htid, Hpid in *. split_and!; [done|done|]. by trans w1.
Qed.

(** C3: No record is lost, duplicated or reordered, for any buffer size:
    a recorder that is constructed, given the records [rs] and destroyed
    leaves exactly their bytes, in order, in its data file; it never
    touches the buffer out of bounds, and it changes no other file. *)
Theorem Recorder_run_log limit tid pid rs w :
  0 < limit -> names_free w tid pid ->
  exists w', Recorder_run limit tid pid rs w = Some w' /\
    (rs <> [] -> files w' !! data_path tid pid = Some (concat (out_bytes <$> rs))) /\
    only_touches {[data_path tid pid]} {[data_dir pid]} w w'.
Proof. apply Recorder_run_spec. Qed.
End Recorder.
Arguments Recorder R : clear implicits.

(** ** Reuse of a thread id *)

Section Reuse.
Context {R : Type} `{RecordLaws R} (csv_output : bool) (padding : R -> list bytes).

(** The kernel may give a new thread the id of one that has ended; the
    recorder of the new thread opens the same file name without [ios::app],
    so all that remains of the two threads is what the second one recorded. *)
Theorem reused_tid_loses_log limit tid pid rs1 rs2 w w1 :
  0 < limit -> names_free (R := R) w tid pid -> rs2 <> [] ->
  Recorder_run csv_output padding limit tid pid rs1 w = Some w1 ->
  exists w2, Recorder_run csv_output padding limit tid pid rs2 w1 = Some w2 /\
    files w2 !! data_path (R := R) tid pid = Some (concat (out_bytes csv_output padding <$> rs2)).
Proof.
  intros Hl Hn Hrs2 Hrun.
  destruct (Recorder_run_spec csv_output padding limit tid pid rs1 w Hl Hn) as (w1' & Hrun' & _ & Ht).
  rewrite Hrun in Hrun'. simplify_eq.
  destruct (Recorder_run_spec csv_output padding limit tid pid rs2 w1' Hl) as (w2 & Hrun2 & Hf & _).
  - by eapply names_free_frame.
  - exists w2. auto.
Qed.
End Reuse.

(** ** Witnesses *)

Definition empty_fs : fs := {| dirs := ∅; files := ∅ |}.

Lemma names_free_empty (R : Type) `{RecordType R} tid pid : names_free (R := R) empty_fs tid pid.
Proof. split; [done|apply not_elem_of_empty..]. Qed.

Definition zero_padding {R} `{RecordType R} (r : R) : list bytes :=
  (fun n => replicate n 0) <$> pad_runs (layout_items R).

Definition start_event : EventRecord false := Build_EventRecord false GC_START_EVENT 12.
Definition end_event : EventRecord false := Build_EventRecord false GC_END_EVENT 15.

Lemma Recorder_run_log_witness :
  0 < 1 /\ names_free (R := EventRecord false) empty_fs 7 5 /\
  exists w', Recorder_run false zero_padding 1 7 5 [start_event; end_event] empty_fs = Some w' /\
    files w' !! data_path (R := EventRecord false) 7 5
    = Some [1;0;0;0; 0;0;0;0; 12;0;0;0;0;0;0;0; 2;0;0;0; 0;0;0;0; 15;0;0;0;0;0;0;0].
Proof.
  split; [lia|]. split; [apply names_free_empty|].
  destruct (Recorder_run_log false zero_padding 1 7 5 [start_event; end_event] empty_fs
              ltac:(lia) (names_free_empty _ 7 5)) as (w' & Hw & Hf & _).
  exists w'. split; [exact Hw|]. rewrite Hf by done. vm_compute. reflexivity.
Defined.

Lemma reused_tid_loses_log_witness :
  exists w1 w2,
    Recorder_run true zero_padding 4 7 5 [start_event] empty_fs = Some w1 /\
    Recorder_run true zero_padding 4 7 5 [end_event] w1 = Some w2 /\
    files w2 !! data_path (R := EventRecord false) 7 5 = Some (str_bytes ("15,2" +:+ nl)).
Proof.
  destruct (Recorder_run_spec true zero_padding 4 7 5 [start_event] empty_fs
              ltac:(lia) (names_free_empty _ 7 5)) as (w1 & Hw1 & _).
  exists w1.
  destruct (reused_tid_loses_log true zero_padding 4 7 5 [start_event] [end_event] empty_fs w1
              ltac:(lia) (names_free_empty _ 7 5) ltac:(done) Hw1) as (w2 & Hw2 & Hf).
  exists w2. split; [exact Hw1|]. split; [exact Hw2|]. rewrite Hf. reflexivity.
Defined.
