(* ===== verification/FsUtil.v ===== *)
(** * File names: [scripts/include/fs_util.h], [scripts/src/fs_utils.cpp],
    [glob] of [scripts/src/csv2db.cpp]

    The analysis programs pick the trace files of a data directory by the
    prefix or the suffix of their names. *)


From S2P Require Import Prelude Records.

(** [std::string::find] and [rfind], [None] for [npos]. *)
Fixpoint str_find (s sub : string) : option nat :=
  if String.prefix sub s then Some O
  else match s with
       | EmptyString => None
       | String _ s => S <$> str_find s sub
       end.

Fixpoint str_rfind (s sub : string) : option nat :=
  match s with
  | EmptyString => if String.prefix sub EmptyString then Some O else None
  | String _ s' =>
      match str_rfind s' sub with
      | Some i => Some (S i)
      | None => if String.prefix sub s then Some O else None
      end
  end.

(** Positions are [size_t]; [npos] is its largest value, and so is [-1]
    converted to it. *)
Definition npos : Z := u64 (-1).

Definition size_t_pos (o : option nat) : Z := from_option Z.of_nat npos o.

Definition str_length (s : string) : Z := Z.of_nat (String.length s).

Definition endsWith (s sub : string) : bool :=
  let pos := size_t_pos (str_rfind s sub) in
  bool_decide (pos <> u64 (-1)) && bool_decide (pos = u64 (str_length s - str_length sub)).

Definition startsWith (s sub : string) : bool :=
  bool_decide (size_t_pos (str_find s sub) = 0).

(** A directory as its iterator lists it: names with whether the entry is a
    regular file; [None] when the path is not a directory, for which the
    iterator throws. *)
Definition directory : Type := option (list (string * bool)).

Definition select_files (P : string -> bool) (dir : directory) : option (list string) :=
  match dir with
  | None => None
  | Some entries => Some (List.map fst (List.filter (fun e => snd e && P (fst e)) entries))
  end.

Definition filesStartWith (dir : directory) (prefix : string) : option (list string) :=
  select_files (fun filename => startsWith filename prefix) dir.

Definition glob (dir : directory) (ext : string) : option (list string) :=
  select_files (fun filename => endsWith filename ext) dir.

(** ** Correctness *)

Lemma prefix_iff sub s : String.prefix sub s = true <-> exists t, s = sub +:+ t.
Proof.
  revert s. induction sub as [|c sub IH]; intros s; simpl.
  - destruct s; naive_solver.
  - destruct s as [|c' s]; simpl; [split; [done|by intros [t Ht]]|].
    destruct (Ascii.ascii_dec c c') as [->|Hne].
    + rewrite IH. split; intros [t Ht]; exists t; [by rewrite Ht|]. simpl in Ht. by injection Ht.
    + split; [done|]. intros [t Ht]. simpl in Ht. by injection Ht.
Qed.

Lemma prefix_refl s : String.prefix s s = true.
Proof. apply prefix_iff. exists ""%string. by rewrite string_app_nil_r. Qed.

Lemma str_length_app s1 s2 : str_length (s1 +:+ s2) = str_length s1 + str_length s2.
Proof.
  unfold str_length. induction s1 as [|c s1 IH]; [done|].
  rewrite string_app_cons. cbn [String.length]. lia.
Qed.

(** The last occurrence: the tail that starts there has [sub] as a prefix,
    and no later one does. *)
Lemma prefix_app sub t : String.prefix sub (sub +:+ t) = true.
Proof. apply prefix_iff. by exists t. Qed.

Lemma str_rfind_some s sub p t :
  s = p +:+ sub +:+ t -> exists i, str_rfind s sub = Some i /\ (String.length p <= i)%nat.
Proof.
  revert p. induction s as [|c s IH]; intros p Heq.
  - destruct p; [|done]. rewrite string_app_nil_l in Heq.
    destruct sub; [by exists 0%nat|done].
  - destruct p as [|c' p].
    + rewrite string_app_nil_l in Heq. cbn [str_rfind].
      destruct (str_rfind s sub) as [j|]; [exists (S j); split; [done|cbn [String.length]; lia]|].
      exists 0%nat. rewrite Heq, prefix_app. split; [done|]. cbn. lia.
    + rewrite string_app_cons in Heq. injection Heq as -> Heq.
      destruct (IH p Heq) as (j & Hj & Hle). cbn [str_rfind]. rewrite Hj.
      exists (S j). split; [done|cbn [String.length]; lia].
Qed.

Lemma str_rfind_occurs s sub i :
  str_rfind s sub = Some i -> exists p t, s = p +:+ sub +:+ t /\ String.length p = i.
Proof.
  revert i. induction s as [|c s IH]; intros i; cbn [str_rfind].
  - destruct sub; [|done]. intros [= <-]. by exists "", "".
  - destruct (str_rfind s sub) as [j|].
    + intros [= <-]. destruct (IH j eq_refl) as (p & t & -> & <-).
      by exists (String c p), t.
    + destruct (String.prefix sub (String c s)) eqn:Hp; [|done].
      intros [= <-]. apply prefix_iff in Hp as [t Ht]. by exists "", t.
Qed.

(** [endsWith] holds exactly of the names that end with the suffix, on
    strings of any length a [size_t] can count, including a suffix longer
    than the name. *)
Theorem endsWith_spec s sub :
  str_length s < 2 ^ 64 - 1 -> str_length sub < 2 ^ 64 ->
  endsWith s sub = true <-> exists p, s = p +:+ sub.
Proof.
  intros Hs Hsub. unfold endsWith.
  change (u64 (-1)) with (2 ^ 64 - 1).
  assert (Hlen : 0 <= str_length s /\ 0 <= str_length sub) by (unfold str_length; lia).
  rewrite andb_true_iff, !bool_decide_eq_true. split.
  - intros [Hnp Heq]. destruct (str_rfind s sub) as [i|] eqn:Hi; [|done]. simpl in *.
    apply str_rfind_occurs in Hi as (p & t & -> & <-).
    rewrite 2!str_length_app in Heq. rewrite 2!str_length_app in Hs. rewrite 2!str_length_app in Hlen. unfold str_length in *.
    rewrite wrapu_id in Heq by (unfold in_u; lia).
    assert (t = "") as -> by (destruct t; [done|]; cbn [String.length] in Heq; lia).
    exists p. by rewrite string_app_nil_r.
  - intros [p Hp].
    destruct (str_rfind_some s sub p "") as (i & Hi & Hle); [by rewrite string_app_nil_r|].
    destruct (str_rfind_occurs _ _ _ Hi) as (p' & t & Heq & <-).
    rewrite Hi. simpl.
    assert (Hl2 := f_equal str_length Hp). assert (Hl1 := f_equal str_length Heq).
    rewrite 2!str_length_app in Hl1. rewrite str_length_app in Hl2. unfold str_length in *.
    rewrite wrapu_id by (unfold in_u; lia). lia.
Qed.

Lemma startsWith_iff s sub : startsWith s sub = true <-> exists t, s = sub +:+ t.
Proof.
  unfold startsWith. rewrite bool_decide_eq_true, <- prefix_iff.
  assert (forall o, size_t_pos o = 0 <-> o = Some 0%nat) as Hpos.
  { intros [i|]; simpl; [|done]. split; [intros; f_equal; lia|by intros [= ->]]. }
  rewrite Hpos. destruct s as [|c s]; cbn [str_find].
  - by destruct (String.prefix sub "").
  - destruct (String.prefix sub (String c s)); [done|].
    by destruct (str_find s sub).
Qed.

(** ** Dispatch on file names *)

(** The prefixes of all record files the tracing side creates. *)
Definition trace_prefixes : list string :=
  [rec_prefix (GCRecord false); rec_prefix (PutFieldRecord false);
   rec_prefix (ConstructRecord false); rec_prefix (NewRecord false);
   rec_prefix (AAStoreRecord false); rec_prefix (UseRecord false);
   rec_prefix (ListAndSetRecord false); rec_prefix (MapRecord false);
   rec_prefix ContainerLineInfoRecord; rec_prefix (FreeRecord false);
   rec_prefix (EventRecord false)]
  ++ (p ← [false; true]; v ← [false; true]; f ← [false; true];
      [rec_prefix (FieldValueRecord false p v f); rec_prefix (StaticFieldValueRecord false p v f)])
  ++ (p ← [false; true];
      [rec_prefix (StringFieldValueRecord false p); rec_prefix (StaticStringFieldValueRecord false p)]).

Lemma prefixes_comparable (a b x y : string) :
  a +:+ x = b +:+ y -> String.prefix a b = true \/ String.prefix b a = true.
Proof.
  revert b. induction a as [|c a IH]; intros b Heq; [by left; destruct b|].
  destruct b as [|d b]; [by right|].
  rewrite !string_app_cons in Heq. injection Heq as -> Heq.
  destruct (IH b Heq) as [H|H]; [left|right]; cbn [String.prefix];
    (destruct (Ascii.ascii_dec d d); [done|congruence]).
Qed.

Lemma prefix_dispatch name p q :
  p ∈ trace_prefixes -> q ∈ trace_prefixes ->
  startsWith name p = true -> startsWith name q = true -> p = q.
Proof.
  intros Hp Hq [x Hx]%startsWith_iff [y Hy]%startsWith_iff.
  assert (String.prefix p q = true \/ String.prefix q p = true) as Hpq.
  { apply (prefixes_comparable p q x y). congruence. }
  assert (forallb (fun p => forallb (fun q =>
    implb (String.prefix p q || String.prefix q p) (String.eqb p q)) trace_prefixes) trace_prefixes = true)
    as Hall by (vm_compute; reflexivity).
  rewrite forallb_forall in Hall. specialize (Hall p). rewrite <- list_elem_of_In in Hall.
  specialize (Hall Hp). rewrite forallb_forall in Hall. specialize (Hall q).
  rewrite <- list_elem_of_In in Hall. specialize (Hall Hq).
  apply String.eqb_eq. destruct Hpq as [H|H]; rewrite H in Hall; simpl in Hall; [done|].
  by rewrite orb_true_r in Hall.
Qed.

(** No prefix of a record file is a prefix of another, so a file name
    selects at most one record type in [addr2id] and [csv2db]. *)
Theorem dispatch_unambiguous name p q :
  p ∈ trace_prefixes -> q ∈ trace_prefixes ->
  startsWith name p = true -> startsWith name q = true -> p = q.
Proof. apply prefix_dispatch. Qed.

Lemma dispatch_unambiguous_witness :
  startsWith "FieldValue110-7-5" "FieldValue110" = true /\
  ("FieldValue110" : string) = rec_prefix (FieldValueRecord false true true false).
Proof.
  split; [vm_compute; reflexivity|].
  apply (dispatch_unambiguous "FieldValue110-7-5"); try (vm_compute; reflexivity);
    apply (bool_decide_unpack _); vm_compute; exact I.
Defined.

Lemma endsWith_spec_witness :
  endsWith "Map-7-4242" "4242" = true /\ endsWith "42" "4242" = false /\
  exists p, ("Map-7-4242" : string) = p +:+ "4242".
Proof.
  split; [vm_compute; reflexivity|]. split; [vm_compute; reflexivity|].
  apply (proj1 (endsWith_spec "Map-7-4242" "4242" ltac:(vm_compute; reflexivity)
                  ltac:(vm_compute; reflexivity))).
  vm_compute. reflexivity.
Defined.
