(* ===== verification/TraceNames.v ===== *)
(** * The names of trace files

    Every file the tracing side writes lies in the data directory of its
    process and is called after the prefix of its record type, the thread
    and the process.  Different types and different threads have different
    files. *)

From S2P Require Import Prelude Layout Records FileSys Recorder FsUtil.

(** A prefix, a dash and something. *)
Definition trace_name (pid : Z) (prefix rest : string) : string :=
  data_dir pid +:+ "/" +:+ (prefix +:+ "-") +:+ rest.

Lemma trace_name_inj pid p p' r r' :
  p ∈ trace_prefixes -> p' ∈ trace_prefixes -> trace_name pid p r = trace_name pid p' r' -> p = p' /\ r = r'.
Proof.
  intros Hp Hp' Heq. unfold trace_name in Heq. do 2 apply string_app_inj_l in Heq.
  rewrite !string_app_assoc in Heq.
  assert (p = p') as ->.
  { apply (prefix_dispatch (p +:+ "-" +:+ r)); try done; apply startsWith_iff; eauto. }
  by do 2 apply string_app_inj_l in Heq.
Qed.

Lemma tid_suffix_inj tid tid' pid : dec tid +:+ "-" +:+ dec pid = dec tid' +:+ "-" +:+ dec pid -> tid = tid'.
Proof. intros Heq%string_app_inj_r. by apply (inj dec). Qed.

Lemma string_suffix_ne tid tid' pid : "string-" +:+ dec tid' +:+ "-" +:+ dec pid <> dec tid +:+ "-" +:+ dec pid.
Proof.
  intros Heq.
  assert (all_chars dec_char (dec tid +:+ "-" +:+ dec pid)) as Hc
    by (rewrite !all_chars_app, !andb_True; split_and!; try apply dec_chars; done).
  by rewrite <- Heq in Hc.
Qed.


(** The two names of a recorder. *)
Lemma data_path_name {R} `{RecordType R} tid pid :
  data_path (R := R) tid pid = trace_name pid (rec_prefix R) (dec tid +:+ "-" +:+ dec pid).
Proof. done. Qed.

Lemma string_path_name {R} `{RecordType R} tid pid :
  string_path (R := R) tid pid = trace_name pid (rec_prefix R) ("string-" +:+ dec tid +:+ "-" +:+ dec pid).
Proof. done. Qed.

Lemma trace_name_not_dir pid p r : trace_name pid p r <> data_dir pid.
Proof. apply path_not_dir. Qed.

(** Recorders of different types or threads do not disturb each other. *)
Section Frame.
Context {R1 R2 : Type} `{RecordLaws R1} `{RecordLaws R2}.
Variables (csv_output : bool) (padding : R2 -> list bytes).
Hypothesis prefix1 : rec_prefix R1 ∈ trace_prefixes.
Hypothesis prefix2 : rec_prefix R2 ∈ trace_prefixes.

Lemma recorder_rep_apart tid1 pid w w' (rc : Recorder R2) log slog :
  rec_prefix R1 <> rec_prefix R2 \/ tid1 <> _tid rc -> _pid rc = pid ->
  only_touches {[data_path (R := R1) tid1 pid]} {[data_dir pid]} w w' ->
  recorder_rep csv_output padding w rc log slog -> recorder_rep csv_output padding w' rc log slog.
Proof.
  intros Hne <- Ht. eapply recorder_rep_frame; [exact Ht|..];
    rewrite not_elem_of_singleton, ?data_path_name, ?string_path_name; try apply trace_name_not_dir.
  - intros Heq. apply trace_name_inj in Heq as [Hp Hr]; [|done..].
    apply tid_suffix_inj in Hr. naive_solver.
  - intros Heq. apply trace_name_inj in Heq as [_ Hr]; [|done..]. by apply string_suffix_ne in Hr.
  - intros Heq. symmetry in Heq. by apply trace_name_not_dir in Heq.
Qed.

Lemma names_free_apart tid1 tid2 pid w w' :
  only_touches {[data_path (R := R1) tid1 pid]} {[data_dir pid]} w w' ->
  names_free (R := R2) w tid2 pid -> names_free (R := R2) w' tid2 pid.
Proof.
  intros (Hf & _ & Hd) [Hn1 Hn2 Hn3]. split.
  - rewrite Hf; [done|]. rewrite not_elem_of_singleton. intros Heq. symmetry in Heq.
    by apply trace_name_not_dir in Heq.
  - intros Hin%Hd. rewrite elem_of_union, elem_of_singleton in Hin.
    destruct Hin as [Hin|Hin]; [by apply trace_name_not_dir in Hin|done].
  - intros Hin%Hd. rewrite elem_of_union, elem_of_singleton in Hin.
    destruct Hin as [Hin|Hin]; [by apply trace_name_not_dir in Hin|done].
Qed.
End Frame.
