(* ===== verification/RecordReader.v ===== *)
(** * Reading and rewriting record files

    The stdio operations the analysis programs use on a file ([fread],
    [fseek], [fwrite]) and [RecordReader<T>] of
    [scripts/include/record_reader.hpp], which rewrites a file of records in
    place, a buffer at a time. *)

From S2P Require Import Prelude Layout Records FileSys.

(** A [FILE*]: the content of its file and its position in it. *)
Record FILE := { f_content : bytes; f_pos : nat }.

(** [fread(buffer, size, n, f)]: the bytes read, the number of whole
    elements, the end-of-file indicator, the file after the read. *)
Definition fread (size : nat) (n : Z) (f : FILE) : bytes * nat * bool * FILE :=
  let avail := drop (f_pos f) (f_content f) in
  let got := take (Z.to_nat (Z.min (n * Z.of_nat size) (Z.of_nat (length avail)))) avail in
  (got, (length got / size)%nat, bool_decide (Z.of_nat (length avail) < n * Z.of_nat size),
   {| f_content := f_content f; f_pos := f_pos f + length got |}).

Lemma fread_nat size n f :
  fread size (Z.of_nat n) f =
  (let avail := drop (f_pos f) (f_content f) in
   let got := take (n * size) avail in
   (got, (length got / size)%nat, bool_decide (length avail < n * size)%nat,
    {| f_content := f_content f; f_pos := f_pos f + length got |})).
Proof.
  unfold fread. cbv zeta. set (avail := drop (f_pos f) (f_content f)).
  assert (take (Z.to_nat (Z.min (Z.of_nat n * Z.of_nat size) (Z.of_nat (length avail)))) avail
          = take (n * size) avail) as ->.
  { destruct (decide (n * size <= length avail)%nat).
    - f_equal. lia.
    - rewrite !take_ge by lia. done. }
  do 2 f_equal. apply bool_decide_ext. lia.
Qed.

(** [fseek(f, off, SEEK_CUR)]. *)
Definition fseek_cur (off : Z) (f : FILE) : FILE :=
  {| f_content := f_content f; f_pos := Z.to_nat (Z.of_nat (f_pos f) + off) |}.

Definition fwrite (bs : bytes) (f : FILE) : FILE :=
  {| f_content := write_at (f_pos f) bs (f_content f); f_pos := f_pos f + length bs |}.

(** The first [n] elements of [size] bytes. *)
Fixpoint elements_of (size n : nat) (bs : bytes) : list bytes :=
  match n with
  | O => []
  | S n => take size bs :: elements_of size n (drop size bs)
  end.

(** The read loops of [addr2id] and [csv2db]: buffers of at most [bufsize]
    records until [fread] returns none. *)
Fixpoint read_loop {T S} `{RecordType T} (step : list T -> S -> S) (bufsize : Z) (fuel : nat)
    (f : FILE) (s : S) : option S :=
  match fuel with
  | O => None
  | Datatypes.S fuel =>
      let '(got, len, _, f) := fread (sizeof T) bufsize f in
      if decide (len <= 0)%nat then Some s
      else read_loop step bufsize fuel f (step (omap (rec_read T) (elements_of (sizeof T) len got)) s)
  end.

(** Enough turns for any file: each one but the last consumes a record. *)
Definition turns (content : bytes) : nat := S (length content).

Section Reader.
Context {T : Type} `{RecordLaws T}.

(** [RecordReader]: the file, the buffer size, the transformers in the
    order of their registration. *)
Record RecordReader := {
  rr_file : FILE;
  rr_buffer_size : nat;
  transformers : list (T -> T);
}.

(** The constructor opens an existing file at its start ([fopen] with
    ["r+"]; the assertion stops the program when there is none). *)
Definition RecordReader_new (content : option bytes) : option RecordReader :=
  bs ← content;
  Some {| rr_file := {| f_content := bs; f_pos := 0 |};
          rr_buffer_size := Z.to_nat (Z.shiftl 1 10);
          transformers := [] |}.

Definition register_transformer (func : T -> T) (rr : RecordReader) : RecordReader :=
  {| rr_file := rr_file rr; rr_buffer_size := rr_buffer_size rr;
     transformers := transformers rr ++ [func] |}.

(** The inner loop: every transformer on one element of the buffer. *)
Definition apply_transformers (ts : list (T -> T)) (bs : bytes) : bytes :=
  fold_left (fun bs func => update_image func bs) ts bs.

(** One turn of the outer loop.  [count] is an [int] and the offset
    [-count * sizeof(T)] is computed in [size_t] and passed as a [long]. *)
Definition transform_step (ts : list (T -> T)) (bufsize : nat) (f : FILE) : bool * FILE :=
  let '(got, n, eof, f) := fread (sizeof T) (Z.of_nat bufsize) f in
  let count := i32 (Z.of_nat n) in
  let buffer := apply_transformers ts <$> elements_of (sizeof T) (Z.to_nat count) got in
  let f := fseek_cur (i64 (u64 (u64 (- count) * Z.of_nat (sizeof T)))) f in
  (eof, fwrite (concat buffer) f).

(** [transform_local]; [None] when the fuel does not suffice. *)
Fixpoint transform_loop (fuel : nat) (ts : list (T -> T)) (bufsize : nat) (f : FILE) : option FILE :=
  match fuel with
  | O => None
  | S fuel =>
      let '(eof, f) := transform_step ts bufsize f in
      if eof : bool then Some f else transform_loop fuel ts bufsize f
  end.

Definition transform_local (fuel : nat) (rr : RecordReader) : option RecordReader :=
  f ← transform_loop fuel (transformers rr) (rr_buffer_size rr) (rr_file rr);
  Some {| rr_file := f; rr_buffer_size := rr_buffer_size rr; transformers := transformers rr |}.

(** *** Correctness *)

(** An object in a file: its members and its padding. *)
Definition obj_ok (o : T * list bytes) : Prop := rec_wf o.1 /\ pads_ok T o.2.

#[export] Instance obj_ok_dec o : Decision (obj_ok o).
Proof. unfold obj_ok. apply _. Defined.

Definition obj_image (o : T * list bytes) : bytes := rec_image o.2 o.1.

Definition objs_image (os : list (T * list bytes)) : bytes := concat (obj_image <$> os).

Definition map_obj (g : T -> T) (o : T * list bytes) : T * list bytes := (g o.1, o.2).

Definition run_transformers (ts : list (T -> T)) (r : T) : T := fold_left (fun r g => g r) ts r.

(** Transformers that keep members in range. *)
Definition keeps_wf (g : T -> T) : Prop := forall r, rec_wf r -> rec_wf (g r).

Lemma run_transformers_wf ts r : Forall keeps_wf ts -> rec_wf r -> rec_wf (run_transformers ts r).
Proof.
  unfold run_transformers. intros Hts. revert r.
  induction Hts as [|g ts Hg _ IH]; intros r Hr; simpl; [done|]. by apply IH, Hg.
Qed.

Lemma apply_transformers_spec ts o :
  Forall keeps_wf ts -> obj_ok o ->
  apply_transformers ts (obj_image o) = obj_image (map_obj (run_transformers ts) o).
Proof.
  unfold apply_transformers, run_transformers, map_obj, obj_image. destruct o as [r ps]. simpl.
  intros Hts [Hr Hp]. simpl in *. revert r Hr.
  induction Hts as [|g ts Hg _ IH]; intros r Hr; simpl; [done|].
  rewrite update_image_spec by done. by apply IH, Hg.
Qed.

Lemma length_obj_image o : obj_ok o -> length (obj_image o) = sizeof T.
Proof. intros [Hr Hp]. by apply length_rec_image. Qed.

Lemma length_objs_image os :
  Forall obj_ok os -> length (objs_image os) = (length os * sizeof T)%nat.
Proof.
  unfold objs_image. induction 1 as [|o os Ho _ IH]; [done|].
  rewrite fmap_cons. cbn [concat length]. rewrite length_app, length_obj_image by done.
  rewrite IH. lia.
Qed.

Lemma elements_of_objs os rest :
  Forall obj_ok os ->
  elements_of (sizeof T) (length os) (objs_image os ++ rest) = obj_image <$> os.
Proof.
  unfold objs_image. induction 1 as [|o os Ho _ IH]; [done|].
  rewrite !fmap_cons. cbn [concat length elements_of]. rewrite <- app_assoc.
  rewrite take_app_length', drop_app_length' by (by rewrite length_obj_image).
  by rewrite IH.
Qed.

Lemma elements_of_all os :
  Forall obj_ok os -> elements_of (sizeof T) (length os) (objs_image os) = obj_image <$> os.
Proof. intros. rewrite <- (app_nil_r (objs_image os)). by apply elements_of_objs. Qed.

Lemma objs_image_app os1 os2 : objs_image (os1 ++ os2) = objs_image os1 ++ objs_image os2.
Proof. unfold objs_image. by rewrite fmap_app, concat_app. Qed.

Lemma take_objs_image n os :
  Forall obj_ok os -> take (n * sizeof T) (objs_image os) = objs_image (take n os).
Proof.
  intros Hos. assert (Forall obj_ok (take n os)) as Hos1 by (by apply Forall_take).
  rewrite <- (take_drop n os) at 1. rewrite objs_image_app.
  destruct (decide (n <= length os)%nat).
  - rewrite take_app_length'; [done|].
    by rewrite length_objs_image, length_take, Nat.min_l by (done || lia).
  - rewrite (drop_ge os) by lia. rewrite app_nil_r. apply take_ge.
    rewrite length_objs_image, length_take, Nat.min_r by (done || lia). nia.
Qed.

(** The seek offset is [-count * sizeof(T)] in spite of the unsigned
    multiplication. *)
Lemma seek_offset n k :
  Z.of_nat n * Z.of_nat k < 2 ^ 63 ->
  i64 (u64 (u64 (- Z.of_nat n) * Z.of_nat k)) = - (Z.of_nat n * Z.of_nat k).
Proof.
  intros Hb. rewrite wraps_wrapu by lia. unfold wrapu. rewrite <- (wraps_wrapu 64) by lia.
  unfold wrapu. rewrite Zmult_mod_idemp_l. fold (wrapu 64 (- Z.of_nat n * Z.of_nat k)).
  rewrite wraps_wrapu by lia. rewrite wraps_id; [lia|lia|]. unfold in_s. simpl. nia.
Qed.

(** One turn on a file whose unread part is whole records: the next
    [bufsize] of them are rewritten where they are. *)
Lemma transform_step_spec ts bufsize pre os :
  Forall keeps_wf ts -> Forall obj_ok os -> Z.of_nat bufsize < 2 ^ 31 -> (0 < sizeof T)%nat ->
  Z.of_nat bufsize * Z.of_nat (sizeof T) < 2 ^ 63 ->
  transform_step ts bufsize {| f_content := pre ++ objs_image os; f_pos := length pre |}
  = (bool_decide (length os < bufsize)%nat,
     let pre' := pre ++ objs_image (map_obj (run_transformers ts) <$> take bufsize os) in
     {| f_content := pre' ++ objs_image (drop bufsize os); f_pos := length pre' |}).
Proof.
  intros Hts Hos Hb1 Hsz Hb2. unfold transform_step. rewrite fread_nat. simpl.
  rewrite drop_app_length, length_objs_image by done.
  assert (Forall obj_ok (take bufsize os)) as Hos1 by (by apply Forall_take).
  pose proof (take_objs_image bufsize os Hos) as Htake.
  rewrite Htake. rewrite (length_objs_image (take bufsize os)) by done.
  rewrite Nat.div_mul by lia. set (n := length (take bufsize os)).
  assert (n <= bufsize)%nat as Hn by (unfold n; rewrite length_take; lia).
  rewrite (wraps_id 32) by (unfold in_s; simpl; lia). rewrite Nat2Z.id.
  replace (elements_of (sizeof T) n (objs_image (take bufsize os)))
    with (obj_image <$> take bufsize os)
    by (symmetry; by apply elements_of_all).
  assert (apply_transformers ts <$> (obj_image <$> take bufsize os)
          = obj_image <$> (map_obj (run_transformers ts) <$> take bufsize os)) as ->.
  { rewrite <- !list_fmap_compose. apply Forall_fmap_ext_1.
    eapply Forall_impl; [exact Hos1|]. intros o Ho. simpl. by apply apply_transformers_spec. }
  set (os1 := map_obj (run_transformers ts) <$> take bufsize os).
  assert (Forall obj_ok os1) as Hok1.
  { unfold os1. apply Forall_fmap. eapply Forall_impl; [exact Hos1|].
    intros [r ps] [Hr Hp]. split; [|done]. simpl. by apply run_transformers_wf. }
  assert (length (objs_image os1) = (n * sizeof T)%nat) as Hl1
    by (rewrite length_objs_image by done; unfold os1; by rewrite length_fmap).
  rewrite seek_offset by nia.
  unfold fseek_cur, fwrite. simpl.
  replace (Z.to_nat (Z.of_nat (length pre + n * sizeof T) + - (Z.of_nat n * Z.of_nat (sizeof T))))
    with (length pre) by lia.
  fold (objs_image os1).
  assert (forall b, write_at (length pre) (objs_image os1) (pre ++ objs_image (take bufsize os) ++ b)
                    = (pre ++ objs_image os1) ++ b) as Hw.
  { intros b. unfold write_at. rewrite length_app.
    replace (length pre - _)%nat with 0%nat by lia. simpl. rewrite app_nil_r.
    rewrite take_app_length, <- app_assoc. do 2 f_equal.
    rewrite drop_app_ge by lia. replace (length pre + _ - length pre)%nat with (length (objs_image os1)) by lia.
    apply drop_app_length'. rewrite Hl1, length_objs_image by done. done. }
  assert (objs_image os = objs_image (take bufsize os) ++ objs_image (drop bufsize os)) as Hsplit.
  { rewrite <- (take_drop bufsize os) at 1. unfold objs_image. by rewrite fmap_app, concat_app. }
  rewrite Hsplit, Hw, length_app. f_equal.
  apply bool_decide_ext. rewrite <- Nat.mul_lt_mono_pos_r by done. done.
Qed.

Lemma transform_loop_spec fuel ts bufsize pre os :
  Forall keeps_wf ts -> Forall obj_ok os ->
  (0 < bufsize)%nat -> Z.of_nat bufsize < 2 ^ 31 -> (0 < sizeof T)%nat ->
  Z.of_nat bufsize * Z.of_nat (sizeof T) < 2 ^ 63 ->
  (length os < fuel)%nat ->
  exists f, transform_loop fuel ts bufsize
              {| f_content := pre ++ objs_image os; f_pos := length pre |} = Some f /\
    f_content f = pre ++ objs_image (map_obj (run_transformers ts) <$> os).
Proof.
  intros Hts Hos Hb0 Hb1 Hsz Hb2. revert pre os Hos.
  induction fuel as [|fuel IH]; intros pre os Hos Hfuel; [lia|]. cbn [transform_loop].
  rewrite transform_step_spec by done. cbv zeta. case_bool_decide as Hlt.
  - eexists. split; [done|]. simpl. rewrite take_ge, drop_ge by lia.
    unfold objs_image at 2. simpl. by rewrite app_nil_r.
  - destruct (IH (pre ++ objs_image (map_obj (run_transformers ts) <$> take bufsize os))
                (drop bufsize os)) as (f & Hf & Hc).
    + by apply Forall_drop.
    + rewrite length_drop. lia.
    + exists f. split; [done|]. rewrite Hc, <- app_assoc, <- objs_image_app, <- fmap_app.
      by rewrite take_drop.
Qed.

(** The whole rewriting of a file by [addr2id]: open, register, rewrite. *)
Definition rewrite_file (fuel : nat) (ts : list (T -> T)) (content : bytes) : option bytes :=
  rr ← RecordReader_new (Some content);
  rr ← transform_local fuel (fold_left (fun rr g => register_transformer g rr) ts rr);
  Some (f_content (rr_file rr)).

Lemma register_all ts rr :
  fold_left (fun rr g => register_transformer g rr) ts rr
  = {| rr_file := rr_file rr; rr_buffer_size := rr_buffer_size rr;
       transformers := transformers rr ++ ts |}.
Proof.
  revert rr. induction ts as [|g ts IH]; intros rr; simpl.
  - rewrite app_nil_r. by destruct rr.
  - rewrite IH. unfold register_transformer. simpl. by rewrite <- app_assoc.
Qed.

Lemma rewrite_file_ok fuel ts os :
  Forall keeps_wf ts -> Forall obj_ok os -> (0 < sizeof T)%nat -> Z.of_nat (sizeof T) < 2 ^ 53 ->
  (length os < fuel)%nat ->
  rewrite_file fuel ts (objs_image os) = Some (objs_image (map_obj (run_transformers ts) <$> os)).
Proof.
  intros Hts Hos Hsz Hbig Hfuel. unfold rewrite_file, RecordReader_new. cbn [mbind option_bind].
  rewrite register_all. unfold transform_local. cbn [rr_file rr_buffer_size transformers app].
  change (Z.to_nat (Z.shiftl 1 10)) with 1024%nat.
  destruct (transform_loop_spec fuel ts 1024 [] os) as (f & Hf & Hc);
    [done|done|lia|lia|done|lia|done|].
  cbn [app length] in Hf. rewrite Hf. simpl. by rewrite Hc.
Qed.

(** *** Termination on any file *)

Lemma length_apply_transformers ts bs :
  length bs = sizeof T -> length (apply_transformers ts bs) = sizeof T.
Proof.
  unfold apply_transformers. revert bs. induction ts as [|g ts IH]; intros bs Hl; simpl; [done|].
  by apply IH, length_update_image.
Qed.

Lemma length_buffer ts n bs :
  (n * sizeof T <= length bs)%nat ->
  length (concat (apply_transformers ts <$> elements_of (sizeof T) n bs)) = (n * sizeof T)%nat.
Proof.
  revert bs. induction n as [|n IH]; intros bs Hl; cbn [elements_of]; [done|].
  rewrite fmap_cons. cbn [concat]. rewrite length_app, length_apply_transformers.
  - rewrite IH; [lia|]. rewrite length_drop. lia.
  - rewrite length_take. lia.
Qed.

Lemma transform_step_progress ts bufsize f :
  (0 < bufsize)%nat -> Z.of_nat bufsize < 2 ^ 31 -> (0 < sizeof T)%nat ->
  Z.of_nat bufsize * Z.of_nat (sizeof T) < 2 ^ 63 ->
  let '(eof, f') := transform_step ts bufsize f in
  eof = true \/
  (length (f_content f') = length (f_content f) /\ (f_pos f < f_pos f' <= length (f_content f'))%nat).
Proof.
  intros Hb0 Hb1 Hsz Hb2. destruct f as [content pos]. unfold transform_step. rewrite fread_nat. cbn [f_content f_pos].
  case_bool_decide as Hlt; [by left|right].
  set (avail := drop pos content) in *.
  assert (length (take (bufsize * sizeof T) avail) = (bufsize * sizeof T)%nat) as Hgot
    by (rewrite length_take; lia).
  rewrite Hgot, Nat.div_mul by lia.
  rewrite (wraps_id 32) by (unfold in_s; simpl; lia). rewrite Nat2Z.id.
  assert (i64 (u64 (u64 (- Z.of_nat bufsize) * Z.of_nat (sizeof T)))
          = - (Z.of_nat bufsize * Z.of_nat (sizeof T))) as -> by (by apply seek_offset).
  unfold fseek_cur, fwrite. cbn [f_content f_pos].
  set (out := concat _).
  assert (length out = (bufsize * sizeof T)%nat) as Hout by (apply length_buffer; lia).
  replace (Z.to_nat _) with pos by lia. rewrite Hout.
  assert (pos + bufsize * sizeof T <= length content)%nat as Hle
    by (unfold avail in Hlt; rewrite length_drop in Hlt; lia).
  unfold write_at. rewrite !length_app, length_take, length_app, length_replicate, length_drop, Hout.
  lia.
Qed.

Lemma transform_loop_total fuel ts bufsize f :
  (0 < bufsize)%nat -> Z.of_nat bufsize < 2 ^ 31 -> (0 < sizeof T)%nat ->
  Z.of_nat bufsize * Z.of_nat (sizeof T) < 2 ^ 63 ->
  (length (f_content f) - f_pos f < fuel)%nat ->
  is_Some (transform_loop fuel ts bufsize f).
Proof.
  intros Hb0 Hb1 Hsz Hb2. revert f. induction fuel as [|fuel IH]; intros f Hf; [lia|].
  cbn [transform_loop].
  pose proof (transform_step_progress ts bufsize f Hb0 Hb1 Hsz Hb2) as Hstep.
  destruct (transform_step ts bufsize f) as [[] f']; [by eexists|].
  destruct Hstep as [Hstep|[Hl Hp]]; [done|]. apply IH. lia.
Qed.

Lemma rewrite_file_total fuel ts content :
  (0 < sizeof T)%nat -> Z.of_nat (sizeof T) < 2 ^ 53 -> (length content < fuel)%nat ->
  is_Some (rewrite_file fuel ts content).
Proof.
  intros Hsz Hbig Hfuel. unfold rewrite_file, RecordReader_new. cbn [mbind option_bind].
  rewrite register_all. unfold transform_local. cbn [rr_file rr_buffer_size transformers app].
  change (Z.to_nat (Z.shiftl 1 10)) with 1024%nat.
  destruct (transform_loop_total fuel ts 1024 {| f_content := content; f_pos := 0 |}) as [f ->];
    [lia|lia|done|lia|simpl; lia|]. by eexists.
Qed.

(** [transform_local] terminates on every file, also one that ends in
    the middle of a record: one turn more than the file has bytes is
    enough, whatever the transformers do. *)
Theorem rewrite_file_terminates fuel ts content :
  (0 < sizeof T)%nat -> Z.of_nat (sizeof T) < 2 ^ 53 -> (length content < fuel)%nat ->
  is_Some (rewrite_file fuel ts content).
Proof. apply rewrite_file_total. Qed.

(** C7: Rewriting a file of whole records terminates within one turn more
    than it has records, and leaves exactly the records with all
    transformers applied in registration order, padding included, whatever
    the number of records modulo the buffer size. *)
Theorem rewrite_file_spec fuel ts os :
  Forall keeps_wf ts -> Forall obj_ok os -> (0 < sizeof T)%nat -> Z.of_nat (sizeof T) < 2 ^ 53 ->
  (length os < fuel)%nat ->
  rewrite_file fuel ts (objs_image os) = Some (objs_image (map_obj (run_transformers ts) <$> os)).
Proof. apply rewrite_file_ok. Qed.
End Reader.

(** ** The read loops see every record once, in order *)

Section ReadLoop.
Context {T S : Type} `{RecordLaws T} (step : list T -> S -> S).
Hypothesis step_nil : forall s, step [] s = s.
Hypothesis step_app : forall l1 l2 s, step (l1 ++ l2) s = step l2 (step l1 s).
Hypothesis size_pos : (0 < sizeof T)%nat.

Lemma omap_rec_read (os : list (T * list bytes)) :
  Forall obj_ok os -> omap (rec_read T) (obj_image <$> os) = fst <$> os.
Proof.
  induction 1 as [|[r ps] os [Hr Hp] _ IH]; [done|].
  rewrite !fmap_cons. unfold obj_image at 1. cbn [omap list_omap fst snd] in *.
  rewrite rec_read_image by done. by f_equal.
Qed.

Lemma fread_objs n pre (os : list (T * list bytes)) :
  Forall obj_ok os ->
  let k := (length os `min` n)%nat in
  exists eof,
  fread (sizeof T) (Z.of_nat n) {| f_content := pre ++ objs_image os; f_pos := length pre |}
  = (objs_image (take n os), k, eof,
     {| f_content := pre ++ objs_image os; f_pos := length (pre ++ objs_image (take n os)) |}).
Proof.
  intros Hos k. rewrite fread_nat. cbn [f_pos f_content]. rewrite drop_app_length.
  assert (Forall obj_ok (take n os)) as Hos1 by (by apply Forall_take).
  rewrite take_objs_image by done.
  rewrite (length_objs_image (take n os)), Nat.div_mul by (done || lia).
  unfold k. rewrite (Nat.min_comm (length os)), <- length_take, length_app.
  rewrite (length_objs_image (take n os)) by done. by eexists.
Qed.

Lemma read_loop_from bufsize fuel pre (os : list (T * list bytes)) s :
  0 < bufsize -> Forall obj_ok os -> (length os < fuel)%nat ->
  read_loop step bufsize fuel {| f_content := pre ++ objs_image os; f_pos := length pre |} s
  = Some (step (fst <$> os) s).
Proof.
  intros Hb. rewrite <- (Z2Nat.id bufsize) by lia. set (n := Z.to_nat bufsize).
  assert (0 < n)%nat as Hn by lia. clearbody n.
  revert pre os s. induction fuel as [|fuel IH]; intros pre os s Hos Hf; [lia|].
  cbn [read_loop].
  destruct (fread_objs n pre os Hos) as [eof ->].
  destruct (decide (length os `min` n <= 0)%nat) as [Hz|Hz].
  - assert (os = []) as -> by (destruct os; [done|cbn [length] in Hz; lia]). by rewrite step_nil.
  - replace (length os `min` n)%nat with (length (take n os)) by (rewrite length_take; lia).
    rewrite elements_of_all by (by apply Forall_take).
    rewrite omap_rec_read by (by apply Forall_take).
    replace (objs_image os) with (objs_image (take n os) ++ objs_image (drop n os))
      by (by rewrite <- objs_image_app, take_drop).
    rewrite app_assoc.
    rewrite IH; [|by apply Forall_drop|rewrite length_drop; lia].
    by rewrite <- step_app, <- fmap_app, take_drop.
Qed.

Lemma read_loop_spec bufsize (os : list (T * list bytes)) s :
  0 < bufsize -> Forall obj_ok os ->
  read_loop step bufsize (turns (objs_image os)) {| f_content := objs_image os; f_pos := 0 |} s
  = Some (step (fst <$> os) s).
Proof.
  intros Hb Hos. apply (read_loop_from bufsize _ []); [done|done|].
  unfold turns. rewrite length_objs_image by done. nia.
Qed.
End ReadLoop.

(** ** Witness, and what happens to a file that ends in part of a record *)

Definition bump_event (r : EventRecord false) : EventRecord false :=
  Build_EventRecord false GC_END_EVENT (ev_time r).

Lemma bump_event_wf : keeps_wf bump_event.
Proof.
  intros [e t] Hr. unfold rec_wf in *. simpl in *.
  inversion_clear Hr as [|? ? ? ? _ Ht]. constructor; [split; vm_compute; congruence|done].
Qed.

Definition event_obj (e t : Z) : EventRecord false * list bytes :=
  (Build_EventRecord false e t, [[]; [7; 7; 7; 7]; []]).

Lemma rewrite_file_spec_witness :
  rewrite_file 2 [bump_event] (objs_image [event_obj 1 9])
  = Some [2;0;0;0; 7;7;7;7; 9;0;0;0;0;0;0;0].
Proof.
  rewrite (rewrite_file_spec 2 [bump_event] [event_obj 1 9]).
  - vm_compute. reflexivity.
  - constructor; [apply bump_event_wf|constructor].
  - apply (bool_decide_unpack _). vm_compute. exact I.
  - vm_compute. lia.
  - vm_compute. reflexivity.
  - simpl. lia.
Defined.

Lemma rewrite_file_terminates_witness :
  is_Some (rewrite_file 18 [bump_event] (obj_image (event_obj 1 9) ++ [255])).
Proof.
  apply (rewrite_file_terminates 18 [bump_event]); vm_compute; [lia|reflexivity|lia].
Defined.

(** With one stray byte at the end, even the identity shifts the records:
    the position after the partial read is not a multiple of the size. *)
Example partial_record_is_shifted :
  rewrite_file 3 [fun r : EventRecord false => r] (obj_image (event_obj 1 9) ++ [255])
  = Some [1; 1;0;0;0; 7;7;7;7; 9;0;0;0;0;0;0;0].
Proof. vm_compute. reflexivity. Qed.

Arguments RecordReader T : clear implicits.
