(* ===== verification/AddrMap.v ===== *)
(** * [addr_map] of [scripts/src/addr2id.cpp]

    The map from (address, time) to object id: one binding per address as
    long as the address was seen once, a time-ordered map of bindings once
    it was seen again.  The specification is the list of insertions. *)

From S2P Require Import Prelude Records.

(** [addr_t], [obj_id_t] are [uint32_t]; times are [uint64_t]. *)
Record unique_addr_info := { ua_id : Z; ua_time : Z }.

(** [variant<unique_addr_info, map<uint64_t, obj_id_t>>]. *)
Inductive addr_entry :=
| Unique (info : unique_addr_info)
| Times (time_map : gmap Z Z).

Record addr_map := { _addr_map : gmap Z addr_entry; cur_id : Z }.

(** The value [-1] of type [obj_id_t]. *)
Definition no_id : Z := u32 (-1).

Definition GC_MASK : Z := 2147483648.

(** [--upper_bound(time)]: the entry with the greatest key at most [time],
    [None] when [upper_bound] is [begin()]. *)
Definition floor_step (t k v : Z) (acc : option (Z * Z)) : option (Z * Z) :=
  if decide (k <= t) then
    match acc with
    | Some (k', _) => if decide (k' < k) then Some (k, v) else acc
    | None => Some (k, v)
    end
  else acc.

Definition floor_entry (m : gmap Z Z) (t : Z) : option (Z * Z) :=
  map_fold (floor_step t) None m.

Definition query (am : addr_map) (addr time : Z) : Z :=
  match _addr_map am !! addr with
  | None => no_id
  | Some (Unique info) => ua_id info
  | Some (Times time_map) =>
      match floor_entry time_map time with
      | None => no_id
      | Some (_, id) => id
      end
  end.

(** [map::emplace]: no effect on a key that is present. *)
Definition emplace (k v : Z) (m : gmap Z Z) : gmap Z Z :=
  match m !! k with Some _ => m | None => <[k := v]> m end.

Definition insert_with_id (addr time id : Z) (am : addr_map) : addr_map :=
  let entry :=
    match _addr_map am !! addr with
    | None => Unique {| ua_id := id; ua_time := time |}
    | Some (Unique info) => Times (emplace time id {[ua_time info := ua_id info]})
    | Some (Times time_map) => Times (emplace time id time_map)
    end in
  {| _addr_map := <[addr := entry]> (_addr_map am); cur_id := cur_id am |}.

(** The constructor binds address 0 to id 0. *)
Definition addr_map_new : addr_map :=
  insert_with_id 0 0 0 {| _addr_map := ∅; cur_id := 1 |}.

Definition next_id (am : addr_map) : addr_map :=
  {| _addr_map := _addr_map am; cur_id := u32 (cur_id am + 1) |}.

Definition addr_insert (addr time : Z) (am : addr_map) : Z * addr_map :=
  let am' := insert_with_id addr time (cur_id am) (next_id am) in
  (u32 (cur_id am' - 1), am').

Definition insert_gc (addr time : Z) (am : addr_map) : addr_map :=
  insert_with_id addr time (Z.lor (cur_id am) GC_MASK) (next_id am).

(** [insert(old_addr, new_addr, time)]: an object moved by the collector. *)
Definition insert_move (old_addr new_addr time : Z) (am : addr_map) : addr_map :=
  let id := query am old_addr time in
  if decide (id = no_id) then insert_gc new_addr time am
  else insert_with_id new_addr time id am.

(** The line of [addr-id.dat] for one allocation; [%d] reads its argument as
    an [int]. *)
Definition id_line (id : Z) (r : NewRecord false) : string :=
  dec (i32 id) +:+ " " +:+ dec (nw_class_name_id r) +:+ " " +:+ dec (nw_line r) +:+ " "
  +:+ dec (i32 (nw_obj_size r)) +:+ " " +:+ dec (nw_obj_typeid r) +:+ nl.

Fixpoint insert_new_records (buffer : list (NewRecord false)) (am : addr_map) : string * addr_map :=
  match buffer with
  | [] => ("", am)
  | r :: buffer =>
      let '(id, am) := addr_insert (nw_addr r) (nw_time r) am in
      let '(out, am) := insert_new_records buffer am in
      (id_line id r +:+ out, am)
  end.

(** [addr2id]: an unknown address is left as it is, with a warning. *)
Definition addr2id (am : addr_map) (addr time : Z) : Z :=
  let id := query am addr time in
  if decide (id = no_id) then addr else id.

(** ** The specification: a log of insertions *)

Abbreviation event := (Z * Z)%type.

(** The insertions at one address, as (time, id). *)
Definition events_at (a : Z) (log : list (Z * event)) : list event :=
  omap (fun '(a', e) => if decide (a' = a) then Some e else None) log.

(** Of the events at or before [t], the first one that none of them is later
    than. *)
Definition latest (t : Z) (evs : list event) : option event :=
  let seen := filter (fun e => e.1 <= t) evs in
  head (filter (fun e => Forall (fun e' => e'.1 <= e.1) seen) seen).

(** An address seen once has its id at every time, also before the event;
    one seen more than once has the id of the latest event. *)
Definition spec_query (log : list (Z * event)) (a t : Z) : Z :=
  match events_at a log with
  | [] => no_id
  | [(_, id)] => id
  | evs => from_option snd no_id (latest t evs)
  end.

Fixpoint first_at (k : Z) (evs : list event) : option Z :=
  match evs with
  | [] => None
  | (k', v) :: evs => if decide (k' = k) then Some v else first_at k evs
  end.

Definition entry_rep (evs : list event) (e : option addr_entry) : Prop :=
  match e with
  | None => evs = []
  | Some (Unique info) => evs = [(ua_time info, ua_id info)]
  | Some (Times m) => (2 <= length evs)%nat /\ forall k, m !! k = first_at k evs
  end.

(** [am] holds the bindings of the insertions [log]. *)
Definition addr_map_rep (am : addr_map) (log : list (Z * event)) : Prop :=
  forall a, entry_rep (events_at a log) (_addr_map am !! a).

(** *** The latest entry *)

Definition is_floor (look : Z -> option Z) (t : Z) (res : option event) : Prop :=
  match res with
  | None => forall k v, look k = Some v -> t < k
  | Some (k, v) => look k = Some v /\ k <= t /\ (forall k' v', look k' = Some v' -> k' <= t -> k' <= k)
  end.

Lemma is_floor_unique look t r1 r2 : is_floor look t r1 -> is_floor look t r2 -> r1 = r2.
Proof.
  destruct r1 as [[k1 v1]|], r2 as [[k2 v2]|]; simpl; try done.
  - intros (Hl1 & Ht1 & Hm1) (Hl2 & Ht2 & Hm2).
    assert (k1 = k2) as -> by (pose proof (Hm1 _ _ Hl2 Ht2); pose proof (Hm2 _ _ Hl1 Ht1); lia).
    congruence.
  - intros (Hl1 & Ht1 & _) Hn. specialize (Hn _ _ Hl1). lia.
  - intros Hn (Hl2 & Ht2 & _). specialize (Hn _ _ Hl2). lia.
Qed.

Lemma floor_step_is_floor look t k v acc :
  look k = None -> is_floor look t acc ->
  is_floor (fun k' => if decide (k' = k) then Some v else look k') t (floor_step t k v acc).
Proof.
  intros Hk. unfold floor_step. case_decide as Hle.
  - destruct acc as [[k1 v1]|]; simpl.
    + intros (Hl1 & Ht1 & Hm1). assert (k1 <> k) by congruence.
      case_decide as Hlt; simpl.
      * rewrite decide_True by done. split_and!; [done|done|].
        intros k' v'. case_decide; [lia|]. intros Hl' Ht'. specialize (Hm1 _ _ Hl' Ht'). lia.
      * rewrite decide_False by done. split_and!; [done|done|].
        intros k' v'. case_decide; [lia|]. eauto.
    + intros Hn. rewrite decide_True by done. split_and!; [done|done|].
      intros k' v'. case_decide; [lia|]. intros Hl' Ht'. specialize (Hn _ _ Hl'). lia.
  - destruct acc as [[k1 v1]|]; simpl.
    + intros (Hl1 & Ht1 & Hm1). assert (k1 <> k) by congruence. rewrite decide_False by done.
      split_and!; [done|done|]. intros k' v'. case_decide; [lia|]. eauto.
    + intros Hn k' v'. case_decide; [lia|]. eauto.
Qed.

Lemma is_floor_ext look look' t r :
  (forall k, look k = look' k) -> is_floor look t r -> is_floor look' t r.
Proof.
  intros He. destruct r as [[k v]|]; simpl.
  - rewrite He. intros (? & ? & Hm). split_and!; [done|done|]. intros k' v'. rewrite <- He. apply Hm.
  - intros Hn k v. rewrite <- He. apply Hn.
Qed.

Lemma floor_entry_spec m t : is_floor (fun k => m !! k) t (floor_entry m t).
Proof.
  unfold floor_entry. apply (map_fold_weak_ind (fun r m => is_floor (fun k => m !! k) t r)).
  - by intros k v.
  - intros k v m' r Hk Hr.
    eapply is_floor_ext; [|exact (floor_step_is_floor _ t k v r Hk Hr)].
    intros k'. simpl. case_decide as Heq; [subst; by rewrite lookup_insert_eq|].
    by rewrite lookup_insert_ne by congruence.
Qed.

Lemma first_at_snoc k evs k' v :
  first_at k (evs ++ [(k', v)]) =
  match first_at k evs with Some x => Some x | None => if decide (k' = k) then Some v else None end.
Proof. induction evs as [|[k1 v1] evs IH]; simpl; [done|]. by destruct (decide (k1 = k)). Qed.

Lemma first_at_elem k v evs : first_at k evs = Some v -> (k, v) ∈ evs.
Proof.
  induction evs as [|[k1 v1] evs IH]; simpl; [done|].
  case_decide; [intros [= ->]; subst; by left|]. intros ?. right. by apply IH.
Qed.

(** The first event a test of the time lets through. *)
Lemma head_filter_first_at (Q : event -> Prop) `{!forall e, Decision (Q e)} evs k v :
  (forall e e' : event, e.1 = e'.1 -> Q e -> Q e') ->
  head (filter Q evs) = Some (k, v) -> first_at k evs = Some v /\ Q (k, v).
Proof.
  intros HQ. induction evs as [|[k1 v1] evs IH]; [done|]. rewrite filter_cons. cbn [first_at].
  destruct (decide (Q (k1, v1))) as [Hq|Hq].
  - intros [= <- <-]. by rewrite decide_True.
  - intros Hh. destruct (IH Hh) as [Hf Hk]. split; [|done].
    rewrite decide_False; [done|]. intros <-. by apply Hq, (HQ (k1, v)).
Qed.

Lemma latest_exists (evs : list event) :
  evs <> [] -> exists e, e ∈ evs /\ Forall (fun e' => e'.1 <= e.1) evs.
Proof.
  induction evs as [|e evs IH]; [done|]. intros _. destruct evs as [|e1 evs].
  - exists e. split; [by left|]. by apply Forall_singleton.
  - destruct IH as (m & Hm & Hall); [done|]. destruct (decide (m.1 <= e.1)) as [Hle|Hle].
    + exists e. split; [by left|]. apply Forall_cons. split; [lia|].
      eapply Forall_impl; [exact Hall|]. simpl. lia.
    + exists m. split; [by right|]. apply Forall_cons. split; [lia|done].
Qed.

Lemma latest_spec evs t : is_floor (fun k => first_at k evs) t (latest t evs).
Proof.
  unfold latest. set (seen := filter (fun e : event => e.1 <= t) evs).
  assert (forall k v, first_at k evs = Some v -> k <= t -> (k, v) ∈ seen) as Hin.
  { intros k v Hk Ht. apply list_elem_of_filter. split; [done|]. by apply first_at_elem. }
  destruct (head _) as [[k v]|] eqn:Hh.
  - pose proof (list_filter_filter (fun e : event => Forall (fun e' => e'.1 <= e.1) seen)
      (fun e => e.1 <= t) evs) as Hff. fold seen in Hff. rewrite Hff in Hh. clear Hff.
    apply head_filter_first_at in Hh as (Hf & Hmax & Ht); [|intros [k1 v1] [k2 v2]; simpl; by intros ->].
    simpl in *. split_and!; [done|done|]. intros k' v' Hk' Ht'. rewrite Forall_forall in Hmax.
    by apply (Hmax (k', v')), Hin.
  - intros k v Hk. destruct (decide (k <= t)) as [Ht|]; [|lia]. exfalso.
    destruct (latest_exists seen) as (e & He & Hmax).
    { intros Hnil. specialize (Hin _ _ Hk Ht). rewrite Hnil in Hin. by apply elem_of_nil in Hin. }
    assert (e ∈ filter (fun e => Forall (fun e' => e'.1 <= e.1) seen) seen) as Hf
      by (by apply list_elem_of_filter).
    destruct (filter _ seen); [by apply elem_of_nil in Hf|done].
Qed.

Lemma floor_entry_latest m evs t :
  (forall k, m !! k = first_at k evs) -> floor_entry m t = latest t evs.
Proof.
  intros Hm. eapply is_floor_unique; [apply floor_entry_spec|].
  eapply is_floor_ext; [|apply latest_spec]. intros k. simpl. by rewrite Hm.
Qed.

(** *** Refinement *)

Lemma events_at_app a log1 log2 : events_at a (log1 ++ log2) = events_at a log1 ++ events_at a log2.
Proof. apply omap_app. Qed.

Lemma query_rep am log a t : addr_map_rep am log -> query am a t = spec_query log a t.
Proof.
  intros Hrep. specialize (Hrep a). unfold query, spec_query.
  destruct (_addr_map am !! a) as [[info|m]|]; simpl in Hrep.
  - by rewrite Hrep.
  - destruct Hrep as [Hlen Hm]. rewrite (floor_entry_latest _ _ t Hm).
    destruct (events_at a log) as [|[t1 i1] [|e2 evs]]; simpl in Hlen; [lia|lia|].
    by destruct (latest t _) as [[k v]|].
  - by rewrite Hrep.
Qed.

Lemma emplace_first_at m evs t id :
  (forall k, m !! k = first_at k evs) ->
  forall k, emplace t id m !! k = first_at k (evs ++ [(t, id)]).
Proof.
  intros Hm k. unfold emplace. rewrite first_at_snoc, <- Hm.
  destruct (m !! t) as [x|] eqn:Ht.
  - destruct (m !! k) as [y|] eqn:Hk; [done|]. case_decide; [congruence|done].
  - destruct (decide (t = k)) as [->|Hne].
    + by rewrite lookup_insert_eq, Ht.
    + rewrite lookup_insert_ne by done. by destruct (m !! k).
Qed.

Lemma insert_with_id_rep am log a t id :
  addr_map_rep am log -> addr_map_rep (insert_with_id a t id am) (log ++ [(a, (t, id))]).
Proof.
  intros Hrep b. unfold insert_with_id. cbn [_addr_map].
  rewrite events_at_app. cbn [events_at omap list_omap].
  destruct (decide (a = b)) as [->|Hne].
  - rewrite lookup_insert_eq. specialize (Hrep b).
    destruct (_addr_map am !! b) as [[info|m]|]; simpl in Hrep |- *.
    + rewrite Hrep. split; [simpl; lia|]. intros k.
      apply (emplace_first_at _ [(ua_time info, ua_id info)]). intros k'. simpl.
      case_decide as He; [subst; apply lookup_singleton_eq|by apply lookup_singleton_ne].
    + destruct Hrep as [Hlen Hm]. split; [rewrite length_app; simpl; lia|].
      by apply emplace_first_at.
    + by rewrite Hrep.
  - rewrite lookup_insert_ne, app_nil_r by done. apply Hrep.
Qed.

Lemma next_id_rep am log : addr_map_rep am log -> addr_map_rep (next_id am) log.
Proof. done. Qed.

Lemma addr_map_new_rep : addr_map_rep addr_map_new [(0, (0, 0))].
Proof. apply (insert_with_id_rep _ []). intros a. simpl. by rewrite lookup_empty. Qed.

#[export] Hint Resolve insert_with_id_rep next_id_rep addr_map_new_rep : cinst.

(** C4: A query answers exactly as the log of insertions specifies, after any
    sequence of insertions: unknown addresses give -1, an address inserted
    once gives its id at every time, and otherwise the id is that of the
    latest insertion at or before the time, the first one when several have
    that time. *)
Theorem query_refines_log log a t :
  query (fold_left (fun am '(a, (t, id)) => insert_with_id a t id am) log addr_map_new) a t
  = spec_query ((0, (0, 0)) :: log) a t.
Proof.
  apply query_rep.
  induction log as [|[a1 [t1 id1]] log IH] using rev_ind; simpl; [apply addr_map_new_rep|].
  rewrite fold_left_app. simpl. by apply (insert_with_id_rep _ ((0, (0, 0)) :: log)).
Qed.

Lemma latest_app_late t evs t' id' :
  t < t' -> latest t (evs ++ [(t', id')]) = latest t evs.
Proof.
  intros Hlt. unfold latest. rewrite filter_app, (filter_cons_False _ _ []) by (simpl; lia).
  by rewrite filter_nil, app_nil_r.
Qed.

Lemma latest_singleton t t1 id1 : t1 <= t -> latest t [(t1, id1)] = Some (t1, id1).
Proof.
  intros. unfold latest. rewrite filter_cons_True, filter_nil by done.
  rewrite filter_cons_True; [done|]. by apply Forall_singleton.
Qed.

(** An address bound at times 5, 9, 9 and 7: a query at time 8 finds the
    binding of time 7, one at time 9 or later the first of time 9, one before
    time 5 finds nothing; an address bound once is found at every time. *)
Lemma query_refines_log_witness :
  let am := fold_left (fun am '(a, (t, id)) => insert_with_id a t id am)
              [(64, (5, 1)); (64, (9, 2)); (32, (6, 3)); (64, (9, 4)); (64, (7, 5))] addr_map_new in
  [query am 64 4; query am 64 5; query am 64 8; query am 64 9; query am 64 100; query am 32 0; query am 16 9]
  = [no_id; 1; 5; 2; 2; 3; no_id].
Proof. cbv zeta. rewrite !query_refines_log. vm_compute. reflexivity. Defined.

(** A binding stamped later than every event that is looked up is never
    found at an address that has an earlier binding.  The collector's moves
    are stamped with [CLOCK_REALTIME] and the events with [CLOCK_MONOTONIC],
    so this is what happens to a move into a reused address. *)
Theorem late_move_is_invisible am log old_addr new_addr t_move t t0 id0 :
  addr_map_rep am log -> (t0, id0) ∈ events_at new_addr log -> t0 <= t -> t < t_move ->
  query (insert_move old_addr new_addr t_move am) new_addr t = query am new_addr t.
Proof.
  intros Hrep Hin Ht0 Hlt.
  assert (forall id, spec_query (log ++ [(new_addr, (t_move, id))]) new_addr t = spec_query log new_addr t)
    as Hspec.
  { intros id. unfold spec_query. rewrite events_at_app. cbn [events_at omap list_omap].
    rewrite decide_True by done. pose proof (latest_app_late t (events_at new_addr log) t_move id Hlt) as Hl.
    destruct (events_at new_addr log) as [|[t1 id1] [|e2 evs]]; [by apply elem_of_nil in Hin| |].
    - cbn [app] in *. rewrite Hl. apply list_elem_of_singleton in Hin as [= <- <-].
      by rewrite latest_singleton.
    - cbn [app] in *. destruct evs; cbn [app] in *; by rewrite Hl. }
  unfold insert_move, insert_gc. rewrite (query_rep _ _ _ _ Hrep). case_decide.
  - rewrite (query_rep _ _ _ _ (insert_with_id_rep _ _ _ _ _ (next_id_rep _ _ Hrep))).
    by rewrite Hspec, (query_rep _ _ _ _ Hrep).
  - rewrite (query_rep _ _ _ _ (insert_with_id_rep _ _ _ _ _ Hrep)).
    by rewrite Hspec, (query_rep _ _ _ _ Hrep).
Qed.

Lemma late_move_is_invisible_witness :
  (5, 1) ∈ events_at 64 [(0, (0, 0)); (64, (5, 1))] /\
  query (insert_move 32 64 1000 (insert_with_id 64 5 1 addr_map_new)) 64 7 = 1.
Proof.
  split; [apply (bool_decide_unpack _); vm_compute; exact I|].
  rewrite (late_move_is_invisible _ [(0, (0, 0)); (64, (5, 1))] 32 64 1000 7 5 1).
  - vm_compute. reflexivity.
  - apply (insert_with_id_rep _ [(0, (0, 0))]), addr_map_new_rep.
  - apply (bool_decide_unpack _). vm_compute. exact I.
  - lia.
  - lia.
Defined.
