(* ===== verification/Addr2id.v ===== *)
(** * [scripts/src/addr2id.cpp]: from addresses to object ids

    The program reads the allocation files ([NEW]) and the collector's move
    files ([gc]) of the working directory into an [addr_map], writes one
    line per allocation to [addr-id.dat], and rewrites every data file in
    place so that its addresses become object ids. *)

From S2P Require Import Prelude Layout Records FileSys FsUtil RecordReader AddrMap.

(** The regular files of the working directory, in the order its iterator
    lists them. *)
Record workdir := { wd_list : list string; wd_files : gmap string bytes }.

Definition wd_listing (wd : workdir) : directory := Some ((fun n => (n, true)) <$> wd_list wd).

(** ** Building the map *)

(** What the programs read so far: the text of [addr-id.dat] and the map. *)
Definition new_step (buffer : list (NewRecord false)) (s : string * addr_map) : string * addr_map :=
  let '(out, am) := insert_new_records buffer s.2 in (s.1 +:+ out, am).

Definition gc_step (buffer : list (GCRecord false)) (am : addr_map) : addr_map :=
  fold_left (fun am r => insert_move (gc_org_addr r) (gc_new_addr r) (gc_time r) am) buffer am.

Definition process_new_file (content : bytes) (s : string * addr_map) : option (string * addr_map) :=
  read_loop new_step (Z.shiftl 1 10) (turns content) {| f_content := content; f_pos := 0 |} s.

Definition process_gc_file (content : bytes) (am : addr_map) : option addr_map :=
  read_loop gc_step (Z.shiftl 1 10) (turns content) {| f_content := content; f_pos := 0 |} am.

Definition build_addr_map (wd : workdir) : option (string * addr_map) :=
  new_files ← filesStartWith (wd_listing wd) "NEW";
  s ← foldM (fun s path => content ← wd_files wd !! path; process_new_file content s)
        ("", addr_map_new) new_files;
  gc_files ← filesStartWith (wd_listing wd) "gc";
  am ← foldM (fun am path => content ← wd_files wd !! path; process_gc_file content am)
         s.2 gc_files;
  Some (s.1, am).

(** ** Rewriting the data files *)

(** An address accessor: a reference to a member, read and assigned. *)
Record accessor (T : Type) := { acc_get : T -> Z; acc_set : Z -> T -> T }.
Arguments acc_get {T}.
Arguments acc_set {T}.

(** [value(t)]: [t.time] when the type has a member [time] ([DetectTime]),
    [t.br.time] otherwise. *)
Class HasTime (T : Type) := value : T -> Z.

Definition query_transformer {T} (time : T -> Z) (am : addr_map) (func : accessor T) (val : T) : T :=
  acc_set func (query am (acc_get func val) (time val)) val.

(** One [process_all_*] call: the prefix of its files and what it makes of
    the content of one of them. *)
Record stage := { st_prefix : string; st_rewrite : addr_map -> bytes -> option bytes }.

Definition process_all_data_file {T} `{RecordType T} `{HasTime T} (funcs : list (accessor T)) : stage :=
  {| st_prefix := rec_prefix T;
     st_rewrite am content :=
       rewrite_file (turns content) (query_transformer value am <$> funcs) content |}.

(** The same with [val.time], for the field-value records. *)
Definition process_all_field_data_file {T} `{RecordType T} (time : T -> Z) (funcs : list (accessor T)) : stage :=
  {| st_prefix := rec_prefix T;
     st_rewrite am content :=
       rewrite_file (turns content) (query_transformer time am <$> funcs) content |}.

Definition run_stage (am : addr_map) (wd : workdir) (s : stage) : option workdir :=
  data_files ← filesStartWith (wd_listing wd) (st_prefix s);
  foldM (fun wd path =>
           content ← wd_files wd !! path;
           content' ← st_rewrite s am content;
           Some {| wd_list := wd_list wd; wd_files := <[path := content']> (wd_files wd) |})
        wd data_files.

#[export] Instance ls_time : HasTime (ListAndSetRecord false) := fun r => br_time (ls_br r).
#[export] Instance mp_time : HasTime (MapRecord false) := fun r => br_time (mp_br r).
#[export] Instance pf_has_time : HasTime (PutFieldRecord false) := pf_time.
#[export] Instance co_has_time : HasTime (ConstructRecord false) := co_time.
#[export] Instance aa_has_time : HasTime (AAStoreRecord false) := aa_time.
#[export] Instance us_has_time : HasTime (UseRecord false) := us_time.
#[export] Instance nw_has_time : HasTime (NewRecord false) := nw_time.

Definition set_br_holder (x : Z) (b : ContainerRecord false) : ContainerRecord false :=
  Build_ContainerRecord false x (br_ref_addr b) (br_cid b) (br_copid b) (br_time b) (br_size b).

Definition set_br_ref (x : Z) (b : ContainerRecord false) : ContainerRecord false :=
  Build_ContainerRecord false (br_holder_addr b) x (br_cid b) (br_copid b) (br_time b) (br_size b).

Definition ls_accessors : list (accessor (ListAndSetRecord false)) :=
  [ {| acc_get r := br_holder_addr (ls_br r);
       acc_set x r := Build_ListAndSetRecord false (set_br_holder x (ls_br r)) (ls_idx_or_succ r) |};
    {| acc_get r := br_ref_addr (ls_br r);
       acc_set x r := Build_ListAndSetRecord false (set_br_ref x (ls_br r)) (ls_idx_or_succ r) |} ].

Definition mp_accessors : list (accessor (MapRecord false)) :=
  [ {| acc_get r := mp_key_addr r;
       acc_set x r := Build_MapRecord false (mp_br r) (mp_value_addr r) x |};
    {| acc_get r := mp_value_addr r;
       acc_set x r := Build_MapRecord false (mp_br r) x (mp_key_addr r) |};
    {| acc_get r := br_holder_addr (mp_br r);
       acc_set x r := Build_MapRecord false (set_br_holder x (mp_br r)) (mp_value_addr r) (mp_key_addr r) |};
    {| acc_get r := br_ref_addr (mp_br r);
       acc_set x r := Build_MapRecord false (set_br_ref x (mp_br r)) (mp_value_addr r) (mp_key_addr r) |} ].

Definition fv_accessors p v f : list (accessor (FieldValueRecord false p v f)) :=
  [ {| acc_get r := fv_addr r;
       acc_set x r := Build_FieldValueRecord false p v f (fv_line r) (fv_class_name_id r) x
                        (fv_time r) (fv_field_id r) (fv_value r) |} ].

Definition pf_accessors : list (accessor (PutFieldRecord false)) :=
  [ {| acc_get r := pf_holder_addr r;
       acc_set x r := Build_PutFieldRecord false (pf_line r) (pf_class_name_id r) (pf_field_id r)
                        x (pf_ref_addr r) (pf_time r) |};
    {| acc_get r := pf_ref_addr r;
       acc_set x r := Build_PutFieldRecord false (pf_line r) (pf_class_name_id r) (pf_field_id r)
                        (pf_holder_addr r) x (pf_time r) |} ].

Definition co_accessors : list (accessor (ConstructRecord false)) :=
  [ {| acc_get r := co_addr r;
       acc_set x r := Build_ConstructRecord false (co_line r) (co_class_name_id r) (co_obj_typeid r)
                        x (co_time r) |} ].

Definition aa_accessors : list (accessor (AAStoreRecord false)) :=
  [ {| acc_get r := aa_holder_addr r;
       acc_set x r := Build_AAStoreRecord false (aa_line r) (aa_class_name_id r) (aa_index r)
                        x (aa_ref_addr r) (aa_time r) |};
    {| acc_get r := aa_ref_addr r;
       acc_set x r := Build_AAStoreRecord false (aa_line r) (aa_class_name_id r) (aa_index r)
                        (aa_holder_addr r) x (aa_time r) |} ].

Definition us_accessors : list (accessor (UseRecord false)) :=
  [ {| acc_get r := us_addr r;
       acc_set x r := Build_UseRecord false (us_type r) (us_line r) (us_class_name_id r) x (us_time r) |} ].

Definition nw_accessors : list (accessor (NewRecord false)) :=
  [ {| acc_get r := nw_addr r;
       acc_set x r := Build_NewRecord false (nw_line r) (nw_class_name_id r) (nw_obj_typeid r)
                        (nw_obj_size r) x (nw_time r) |} ].

Definition field_stage p v f : stage :=
  process_all_field_data_file fv_time (fv_accessors p v f).

(** The calls of [main] after [build_addr_map], in order. *)
Definition main_stages : list stage :=
  [ process_all_data_file ls_accessors;
    process_all_data_file mp_accessors;
    field_stage false false false;
    field_stage false false true;
    field_stage false true false;
    field_stage false true true;
    field_stage true false false;
    field_stage true false true;
    field_stage true true false;
    field_stage true true true;
    process_all_data_file pf_accessors;
    process_all_data_file co_accessors;
    process_all_data_file aa_accessors;
    process_all_data_file us_accessors;
    process_all_data_file nw_accessors ].

(** [main]: the rewritten files and the text of [addr-id.dat]. *)
Definition addr2id_main (wd : workdir) : option (workdir * string) :=
  '(out, am) ← build_addr_map wd;
  wd ← foldM (run_stage am) wd main_stages;
  Some (wd, out).

(** ** Ids are the line numbers of [addr-id.dat] *)

(** The insertions a list of allocations makes, from id [c] on. *)
Definition new_events (c : Z) (rs : list (NewRecord false)) : list (Z * event) :=
  imap (fun i r => (nw_addr r, (nw_time r, c + Z.of_nat i))) rs.

Definition new_lines (c : Z) (rs : list (NewRecord false)) : string :=
  foldr (fun s out => s +:+ out) "" (imap (fun i r => id_line (c + Z.of_nat i) r) rs).

Lemma new_events_cons c r rs :
  new_events c (r :: rs) = (nw_addr r, (nw_time r, c)) :: new_events (c + 1) rs.
Proof.
  unfold new_events. rewrite imap_cons. f_equal; [by rewrite Z.add_0_r|].
  apply imap_ext. intros i x _. unfold compose. by replace (c + Z.of_nat (S i)) with (c + 1 + Z.of_nat i) by lia.
Qed.

Lemma new_lines_cons c r rs : new_lines c (r :: rs) = id_line c r +:+ new_lines (c + 1) rs.
Proof.
  unfold new_lines. rewrite imap_cons. cbn [foldr]. f_equal; [by rewrite Z.add_0_r|].
  f_equal. apply imap_ext. intros i x _. unfold compose. by replace (c + Z.of_nat (S i)) with (c + 1 + Z.of_nat i) by lia.
Qed.

Lemma insert_new_records_spec rs am log :
  addr_map_rep am log -> 0 <= cur_id am -> cur_id am + Z.of_nat (length rs) < 2 ^ 32 ->
  let '(out, am') := insert_new_records rs am in
  out = new_lines (cur_id am) rs /\
  cur_id am' = cur_id am + Z.of_nat (length rs) /\
  addr_map_rep am' (log ++ new_events (cur_id am) rs).
Proof.
  revert am log. induction rs as [|r rs IH]; intros am log Hrep Hpos Hlt.
  - simpl. split_and!; [done|lia|by rewrite app_nil_r].
  - cbn [insert_new_records]. unfold addr_insert. cbn [length] in Hlt.
    assert (u32 (cur_id am + 1) = cur_id am + 1) as Hc by (apply wrapu_id; unfold in_u; lia).
    assert (u32 (cur_id am + 1 - 1) = cur_id am) as Hc'
      by (rewrite wrapu_id; [lia|unfold in_u; lia]).
    set (am1 := insert_with_id _ _ _ _).
    assert (cur_id am1 = cur_id am + 1) as Ham1 by done.
    specialize (IH am1 (log ++ [(nw_addr r, (nw_time r, cur_id am))])).
    destruct (insert_new_records rs am1) as [out am'].
    destruct IH as (Hout & Hcur & Hrep').
    { by apply insert_with_id_rep, next_id_rep. }
    { lia. }
    { rewrite Ham1. lia. }
    rewrite Ham1 in *. split_and!.
    + by rewrite new_lines_cons, Hout, Hc'.
    + rewrite Hcur. cbn [length]. lia.
    + by rewrite new_events_cons, (cons_middle _ log), app_assoc.
Qed.

Lemma insert_new_records_app l1 l2 am :
  insert_new_records (l1 ++ l2) am =
    (let '(out1, am1) := insert_new_records l1 am in
     let '(out2, am2) := insert_new_records l2 am1 in (out1 +:+ out2, am2)).
Proof.
  revert am. induction l1 as [|r l1 IH]; intros am.
  - cbn [app insert_new_records]. by destruct (insert_new_records l2 am).
  - cbn [app insert_new_records]. destruct (addr_insert _ _ am) as [id am'].
    rewrite IH. destruct (insert_new_records l1 am') as [out1 am1].
    destruct (insert_new_records l2 am1) as [out2 am2]. by rewrite string_app_assoc.
Qed.

Lemma process_new_file_spec (os : list (NewRecord false * list bytes)) s :
  Forall obj_ok os -> process_new_file (objs_image os) s = Some (new_step (fst <$> os) s).
Proof.
  intros Hos. unfold process_new_file.
  apply (read_loop_spec new_step).
  - intros [out am]. unfold new_step. cbn [insert_new_records fst snd]. by rewrite string_app_nil_r.
  - intros l1 l2 [out am]. unfold new_step. cbn [fst snd]. rewrite insert_new_records_app.
    destruct (insert_new_records l1 am) as [out1 am1]. cbn [fst snd].
    destruct (insert_new_records l2 am1) as [out2 am2]. by rewrite string_app_assoc.
  - vm_compute. lia.
  - done.
  - done.
Qed.

(** The id of an address by the allocations alone: the 1-based position of
    the allocation that has it. *)
Definition alloc_id (rs : list (NewRecord false)) (a : Z) : Z :=
  if decide (a = 0) then 0
  else match list_find (fun r => nw_addr r = a) rs with
       | Some (i, _) => Z.of_nat i + 1
       | None => no_id
       end.

Lemma events_at_new c rs a :
  NoDup (nw_addr <$> rs) ->
  events_at a (new_events c rs) =
  match list_find (fun r => nw_addr r = a) rs with
  | Some (i, r) => [(nw_time r, c + Z.of_nat i)]
  | None => []
  end.
Proof.
  revert c. induction rs as [|r rs IH]; intros c Hnd; [done|].
  rewrite fmap_cons in Hnd. apply NoDup_cons in Hnd as [Hni Hnd].
  rewrite new_events_cons. cbn [events_at omap list_omap list_find].
  fold (events_at a (new_events (c + 1) rs)). rewrite IH by done.
  destruct (decide (nw_addr r = a)) as [<-|Hne].
  - rewrite Z.add_0_r. destruct (list_find _ rs) as [[i x]|] eqn:Hf; [|done].
    apply list_find_Some in Hf as (Hl & Hx & _). destruct Hni. rewrite <- Hx.
    apply list_elem_of_fmap. exists x. split; [done|]. by eapply list_elem_of_lookup_2.
  - destruct (list_find _ rs) as [[i x]|]; [|done]. cbn. do 2 f_equal. lia.
Qed.

Lemma query_alloc_id am rs a t :
  addr_map_rep am ((0, (0, 0)) :: new_events 1 rs) -> NoDup (0 :: (nw_addr <$> rs)) ->
  query am a t = alloc_id rs a.
Proof.
  intros Hrep Hnd. apply NoDup_cons in Hnd as [H0 Hnd].
  rewrite (query_rep _ _ _ _ Hrep). unfold spec_query, alloc_id.
  cbn [events_at omap list_omap]. fold (events_at a (new_events 1 rs)).
  rewrite events_at_new by done.
  destruct (decide (0 = a)) as [<-|Hne].
  - rewrite decide_True by done. destruct (list_find _ rs) as [[i x]|] eqn:Hf; [|done].
    apply list_find_Some in Hf as (Hl & Hx & _). destruct H0. rewrite <- Hx.
    apply list_elem_of_fmap. exists x. split; [done|]. by eapply list_elem_of_lookup_2.
  - rewrite decide_False by done. destruct (list_find _ rs) as [[i x]|]; [|done].
    cbn [snd]. lia.
Qed.

(** ** The pipeline *)

(** What the rewriting stages make of one file. *)
Definition file_effect (ss : list stage) (am : addr_map) (name : string) (content : bytes) : option bytes :=
  foldM (fun bs s => if startsWith name (st_prefix s) then st_rewrite s am bs else Some bs) content ss.

Definition stage_total (s : stage) : Prop := forall am content, is_Some (st_rewrite s am content).

(** A directory listing without repetitions, all of it readable. *)
Definition wd_ok (wd : workdir) : Prop :=
  NoDup (wd_list wd) /\ forall name, name ∈ wd_list wd -> is_Some (wd_files wd !! name).

Lemma filesStartWith_listing wd prefix :
  filesStartWith (wd_listing wd) prefix
  = Some (List.filter (fun n => startsWith n prefix) (wd_list wd)).
Proof.
  unfold filesStartWith, select_files, wd_listing. f_equal.
  induction (wd_list wd) as [|n l IH]; [done|].
  rewrite fmap_cons. cbn [List.filter snd fst]. rewrite andb_true_l.
  destruct (startsWith n prefix); cbn [List.map]; by rewrite IH.
Qed.

Definition rewrite_path (s : stage) (am : addr_map) (wd : workdir) (path : string) : option workdir :=
  content ← wd_files wd !! path;
  content' ← st_rewrite s am content;
  Some {| wd_list := wd_list wd; wd_files := <[path := content']> (wd_files wd) |}.

Lemma rewrite_paths_spec s am wd paths :
  stage_total s -> NoDup paths -> (forall p, p ∈ paths -> is_Some (wd_files wd !! p)) ->
  exists wd', foldM (rewrite_path s am) wd paths = Some wd' /\ wd_list wd' = wd_list wd /\
    (forall name, wd_files wd' !! name =
       if decide (name ∈ paths) then content ← wd_files wd !! name; st_rewrite s am content
       else wd_files wd !! name).
Proof.
  intros Htot. revert wd. induction paths as [|p paths IH]; intros wd Hnd Hin.
  - exists wd. split_and!; [done|done|]. intros name. by rewrite decide_False by apply not_elem_of_nil.
  - apply NoDup_cons in Hnd as [Hni Hnd]. cbn [foldM].
    destruct (Hin p) as [content Hc]; [by left|].
    destruct (Htot am content) as [content' Hc'].
    assert (rewrite_path s am wd p
            = Some {| wd_list := wd_list wd; wd_files := <[p := content']> (wd_files wd) |}) as ->
      by (unfold rewrite_path; rewrite Hc; cbn [mbind option_bind]; by rewrite Hc').
    cbn [mbind option_bind].
    destruct (IH {| wd_list := wd_list wd; wd_files := <[p := content']> (wd_files wd) |}) as
      (wd' & Hwd' & Hl & Hf); [done| |].
    { intros q Hq. cbn [wd_files]. destruct (decide (p = q)) as [->|Hne].
      - rewrite lookup_insert_eq. by eexists.
      - rewrite lookup_insert_ne by done. apply Hin. by right. }
    exists wd'. split_and!; [done|done|]. intros name. rewrite Hf. cbn [wd_files].
    destruct (decide (name = p)) as [->|Hne].
    + rewrite decide_False by done. rewrite decide_True by (by left).
      by rewrite lookup_insert_eq, Hc.
    + rewrite lookup_insert_ne by done.
      destruct (decide (name ∈ paths)).
      * by rewrite decide_True by (by right).
      * rewrite decide_False; [done|]. by apply not_elem_of_cons.
Qed.

Lemma run_stage_spec am wd s :
  wd_ok wd -> stage_total s ->
  exists wd', run_stage am wd s = Some wd' /\ wd_list wd' = wd_list wd /\ wd_ok wd' /\
    (forall name, name ∈ wd_list wd -> wd_files wd' !! name =
       (content ← wd_files wd !! name; file_effect [s] am name content)).
Proof.
  intros [Hnd Hin] Htot. unfold run_stage. rewrite filesStartWith_listing. cbn [mbind option_bind].
  destruct (rewrite_paths_spec s am wd (List.filter (fun n => startsWith n (st_prefix s)) (wd_list wd)))
    as (wd' & Hwd' & Hl & Hf); [done| | |].
  { apply NoDup_ListNoDup. apply List.NoDup_filter. by apply NoDup_ListNoDup. }
  { intros p. rewrite list_elem_of_In, filter_In, <- list_elem_of_In. intros [Hp _]. by apply Hin. }
  exists wd'. split; [exact Hwd'|]. split; [done|].
  assert (forall name, name ∈ wd_list wd -> wd_files wd' !! name =
            (content ← wd_files wd !! name; file_effect [s] am name content)) as Heff.
  { intros name Hname. rewrite Hf. unfold file_effect. cbn [foldM].
    destruct (Hin name Hname) as [content ->]. cbn [mbind option_bind].
    destruct (startsWith name (st_prefix s)) eqn:Hs.
    - rewrite decide_True by (rewrite list_elem_of_In, filter_In, <- list_elem_of_In; done).
      by destruct (st_rewrite s am content).
    - rewrite decide_False; [done|]. rewrite list_elem_of_In, filter_In. intros [_ ?]. congruence. }
  split; [|done]. split; [by rewrite Hl|]. rewrite Hl. intros name Hname. rewrite Heff by done.
  destruct (Hin name Hname) as [content ->]. cbn. unfold file_effect. cbn [foldM].
  destruct (startsWith name (st_prefix s)); [|by eexists].
  destruct (Htot am content) as [c' ->]. by eexists.
Qed.

Lemma run_stages_spec am ss wd :
  wd_ok wd -> Forall stage_total ss ->
  exists wd', foldM (run_stage am) wd ss = Some wd' /\ wd_list wd' = wd_list wd /\
    (forall name, name ∈ wd_list wd -> wd_files wd' !! name =
       (content ← wd_files wd !! name; file_effect ss am name content)).
Proof.
  intros Hok Htot. revert wd Hok. induction Htot as [|s ss Hs _ IH]; intros wd Hok.
  - exists wd. split_and!; [done|done|]. intros name _. by destruct (wd_files wd !! name).
  - destruct (run_stage_spec am wd s Hok Hs) as (wd1 & Hr & Hl1 & Hok1 & Hf1).
    destruct (IH wd1 Hok1) as (wd2 & Hr2 & Hl2 & Hf2).
    exists wd2. cbn [foldM]. rewrite Hr. split_and!; [done|by rewrite Hl2|].
    intros name Hname. rewrite Hf2 by (by rewrite Hl1). rewrite Hf1 by done.
    destruct (wd_files wd !! name) as [content|]; [|done].
    symmetry. apply (foldM_app _ content [s] ss).
Qed.

Lemma main_stages_total : Forall stage_total main_stages.
Proof.
  assert (forall T (RT : RecordType T) (RL : RecordLaws T) (time : T -> Z) funcs,
    (0 < sizeof T)%nat -> Z.of_nat (sizeof T) < 2 ^ 53 ->
    stage_total (process_all_field_data_file time funcs)) as Htot.
  { intros T RT RL time funcs H0 H1 am content. simpl. apply rewrite_file_total; [done|done|].
    unfold turns. lia. }
  repeat (apply Forall_cons; split; [apply Htot; [apply _|vm_compute; lia|vm_compute; reflexivity]|]).
  by apply Forall_nil.
Qed.

Lemma main_prefixes :
  Forall (fun s => st_prefix s ∈ trace_prefixes) main_stages /\ NoDup (st_prefix <$> main_stages).
Proof.
  split; [apply (bool_decide_unpack _); vm_compute; exact I|].
  apply (bool_decide_unpack _). vm_compute. exact I.
Qed.

(** A file that no stage selects is left alone. *)
Lemma file_effect_other ss am name content :
  Forall (fun s => startsWith name (st_prefix s) = false) ss ->
  file_effect ss am name content = Some content.
Proof.
  unfold file_effect. induction 1 as [|s ss Hs _ IH]; [done|]. cbn [foldM]. rewrite Hs. apply IH.
Qed.

(** A file that a stage selects is rewritten by that stage only. *)
Lemma file_effect_stage am name content s :
  s ∈ main_stages -> startsWith name (st_prefix s) = true ->
  file_effect main_stages am name content = st_rewrite s am content.
Proof.
  intros Hs Hname. destruct main_prefixes as [Hpre Hnd].
  apply list_elem_of_split in Hs as (ss1 & ss2 & Heq). rewrite Heq in Hpre, Hnd |- *.
  apply Forall_app in Hpre as [Hp1 Hp2]. apply Forall_cons in Hp2 as [Hps Hp2].
  rewrite fmap_app, fmap_cons in Hnd. apply NoDup_app in Hnd as (_ & Hd & Hnd2).
  apply NoDup_cons in Hnd2 as [Hni _].
  assert (forall s', st_prefix s' ∈ trace_prefixes -> st_prefix s' <> st_prefix s ->
            startsWith name (st_prefix s') = false) as Hother.
  { intros s' Hs' Hne. destruct (startsWith name (st_prefix s')) eqn:H; [|done].
    destruct Hne. by apply (prefix_dispatch name). }
  unfold file_effect. rewrite foldM_app.
  assert (file_effect ss1 am name content = Some content) as H1.
  { apply file_effect_other, Forall_forall. intros s' Hs'. rewrite Forall_forall in Hp1. apply Hother; [by apply Hp1|].
    intros Heq'. apply (Hd (st_prefix s')); [by apply list_elem_of_fmap_2|]. rewrite Heq'. by left. }
  unfold file_effect in H1. rewrite H1. cbn [mbind option_bind foldM]. rewrite Hname.
  destruct (st_rewrite s am content) as [content'|]; [|done]. cbn [mbind option_bind].
  apply (file_effect_other ss2), Forall_forall. intros s' Hs'. rewrite Forall_forall in Hp2.
  apply Hother; [by apply Hp2|]. intros Heq'. apply Hni. rewrite <- Heq'. by apply list_elem_of_fmap_2.
Qed.

(** The allocation records of a listed directory whose [NEW] files hold the
    objects [objs]. *)
Definition allocations (objs : string -> list (NewRecord false * list bytes)) (wd : workdir)
    : list (NewRecord false) :=
  p ← List.filter (fun n => startsWith n "NEW") (wd_list wd); fst <$> objs p.

(** A recorded run in tag mode: allocation files of whole records, every
    object allocated once and never at address 0, no collector moves. *)
Record tag_run (wd : workdir) (objs : string -> list (NewRecord false * list bytes)) : Prop := {
  tr_ok : wd_ok wd;
  tr_new : forall name, name ∈ wd_list wd -> startsWith name "NEW" = true ->
    wd_files wd !! name = Some (objs_image (objs name)) /\ Forall obj_ok (objs name);
  tr_gc : forall name, name ∈ wd_list wd -> startsWith name "gc" = false;
  tr_addrs : NoDup (0 :: (nw_addr <$> allocations objs wd));
  tr_count : Z.of_nat (length (allocations objs wd)) < 2 ^ 31;
}.

Lemma build_addr_map_spec wd objs :
  tag_run wd objs ->
  exists am, build_addr_map wd = Some (new_lines 1 (allocations objs wd), am) /\
    addr_map_rep am ((0, (0, 0)) :: new_events 1 (allocations objs wd)).
Proof.
  intros [Hok Hnew Hgc Hnd Hcount]. unfold build_addr_map. rewrite !filesStartWith_listing.
  cbn [mbind option_bind].
  set (news := List.filter (fun n => startsWith n "NEW") (wd_list wd)).
  assert (forall s, foldM (fun s path => content ← wd_files wd !! path; process_new_file content s) s news
    = Some (new_step (p ← news; fst <$> objs p) s)) as Hfold.
  { assert (forall p, p ∈ news -> wd_files wd !! p = Some (objs_image (objs p)) /\ Forall obj_ok (objs p)) as Hn.
    { intros p. unfold news. rewrite list_elem_of_In, filter_In, <- list_elem_of_In. intros [??]. by apply Hnew. }
    clearbody news. induction news as [|p news IH]; intros s; cbn [foldM].
    - unfold new_step. cbn. destruct s. by rewrite string_app_nil_r.
    - destruct (Hn p) as [-> Hobj]; [by left|]. cbn [mbind option_bind].
      rewrite process_new_file_spec by done. cbn [mbind option_bind].
      rewrite IH by (intros; apply Hn; by right).
      f_equal. cbn [mbind list_bind]. unfold new_step. rewrite insert_new_records_app.
      destruct (insert_new_records (fst <$> objs p) s.2) as [out1 am1]. cbn [fst snd].
      fold (mbind (M := list) (fun p => fst <$> objs p) news).
      destruct (insert_new_records _ am1) as [out2 am2]. by rewrite string_app_assoc. }
  rewrite Hfold. cbn [mbind option_bind].
  replace (List.filter (fun n => startsWith n "gc") (wd_list wd)) with (@nil string); cycle 1.
  { symmetry. clear -Hgc. induction (wd_list wd) as [|n l IH]; [done|]. cbn [List.filter].
    rewrite Hgc by (by left). apply IH. intros. apply Hgc. by right. }
  cbn [foldM mbind option_bind].
  change (news ≫= (fun p => fst <$> objs p)) with (allocations objs wd).
  pose proof (insert_new_records_spec (allocations objs wd) addr_map_new _ addr_map_new_rep) as Hins.
  unfold new_step. cbn [fst snd].
  destruct (insert_new_records (allocations objs wd) addr_map_new) as [out am].
  destruct Hins as (Hout & _ & Hrep); [done|simpl; lia|].
  exists am. cbn [fst snd]. rewrite Hout. done.
Qed.

(** ** Rewritten records *)

Definition ids_ok (am : addr_map) : Prop := forall a t, in_u 32 (query am a t).

(** Proves that assigning an id to an address member keeps a record in
    range. *)
Ltac keeps_wf_tac Hids :=
  let r := fresh "r" in let Hr := fresh "Hr" in
  intros r Hr; unfold rec_wf in *;
  match goal with
  | |- Forall2 _ (fld_items (layout_items ?T)) _ =>
      let its := eval vm_compute in (fld_items (layout_items T)) in
      change (fld_items (layout_items T)) with its in *
  end;
  cbn [rec_vals ls_record mp_record fv_record pf_record co_record aa_record us_record nw_record
       container_vals app] in *;
  rewrite ?Forall2_cons in Hr |- *;
  cbn; unfold in_fld, in_scalar in *; cbn in Hr;
  repeat match goal with H : _ /\ _ |- _ => destruct H end;
  split_and!; try done; try apply Hids.

Lemma stage_on_objs {T} `{RecordLaws T} (time : T -> Z) funcs am (os : list (T * list bytes)) :
  Forall keeps_wf (query_transformer time am <$> funcs) -> Forall obj_ok os ->
  (0 < sizeof T)%nat -> Z.of_nat (sizeof T) < 2 ^ 53 ->
  st_rewrite (process_all_field_data_file time funcs) am (objs_image os)
  = Some (objs_image (map_obj (run_transformers (query_transformer time am <$> funcs)) <$> os)).
Proof.
  intros Hwf Hos Hsz Hbig. simpl. apply rewrite_file_ok; try done.
  unfold turns. rewrite length_objs_image by done. nia.
Qed.

(** The records with every object address looked up in [id], the other
    members as they are. *)
Definition br_with_ids (id : Z -> Z) (b : ContainerRecord false) : ContainerRecord false :=
  Build_ContainerRecord false (id (br_holder_addr b)) (id (br_ref_addr b)) (br_cid b) (br_copid b)
    (br_time b) (br_size b).

Definition ls_with_ids (id : Z -> Z) (r : ListAndSetRecord false) : ListAndSetRecord false :=
  Build_ListAndSetRecord false (br_with_ids id (ls_br r)) (ls_idx_or_succ r).

Definition mp_with_ids (id : Z -> Z) (r : MapRecord false) : MapRecord false :=
  Build_MapRecord false (br_with_ids id (mp_br r)) (id (mp_value_addr r)) (id (mp_key_addr r)).

Definition fv_with_ids {p v f} (id : Z -> Z) (r : FieldValueRecord false p v f) : FieldValueRecord false p v f :=
  Build_FieldValueRecord false p v f (fv_line r) (fv_class_name_id r) (id (fv_addr r)) (fv_time r)
    (fv_field_id r) (fv_value r).

Definition pf_with_ids (id : Z -> Z) (r : PutFieldRecord false) : PutFieldRecord false :=
  Build_PutFieldRecord false (pf_line r) (pf_class_name_id r) (pf_field_id r) (id (pf_holder_addr r))
    (id (pf_ref_addr r)) (pf_time r).

Definition co_with_ids (id : Z -> Z) (r : ConstructRecord false) : ConstructRecord false :=
  Build_ConstructRecord false (co_line r) (co_class_name_id r) (co_obj_typeid r) (id (co_addr r)) (co_time r).

Definition aa_with_ids (id : Z -> Z) (r : AAStoreRecord false) : AAStoreRecord false :=
  Build_AAStoreRecord false (aa_line r) (aa_class_name_id r) (aa_index r) (id (aa_holder_addr r))
    (id (aa_ref_addr r)) (aa_time r).

Definition us_with_ids (id : Z -> Z) (r : UseRecord false) : UseRecord false :=
  Build_UseRecord false (us_type r) (us_line r) (us_class_name_id r) (id (us_addr r)) (us_time r).

Definition nw_with_ids (id : Z -> Z) (r : NewRecord false) : NewRecord false :=
  Build_NewRecord false (nw_line r) (nw_class_name_id r) (nw_obj_typeid r) (nw_obj_size r)
    (id (nw_addr r)) (nw_time r).

(** A file of whole records whose name has the prefix holds, afterwards, the
    same records under [f], their padding bytes unchanged. *)
Definition rewritten_as {T} `{RecordType T} (wd wd' : workdir) (name prefix : string) (f : T -> T) : Prop :=
  startsWith name prefix = true -> forall os, Forall obj_ok os ->
  wd_files wd !! name = Some (objs_image os) ->
  wd_files wd' !! name = Some (objs_image (map_obj f <$> os)).

(** The prefixes of the files [addr2id] rewrites. *)
Definition rewritten_prefixes : list string :=
  [ "List-Set"; "Map"; "FieldValue000"; "FieldValue001"; "FieldValue010"; "FieldValue011";
    "FieldValue100"; "FieldValue101"; "FieldValue110"; "FieldValue111"; "PutField"; "Construct";
    "AAStore"; "Use"; "NEW" ].

(** The text of [addr-id.dat]: for each allocation the number of its line,
    the class and line of the allocation, the size and the type. *)
Definition addr_id_dat (rs : list (NewRecord false)) : string :=
  String.concat "" (imap (fun i r =>
    String.concat " " (dec <$> [Z.of_nat i + 1; nw_class_name_id r; nw_line r; i32 (nw_obj_size r); nw_obj_typeid r])
    +:+ nl) rs).

Lemma string_concat_foldr l : String.concat "" l = foldr (fun s out => s +:+ out) "" l.
Proof.
  induction l as [|s l IH]; [done|]. cbn [foldr]. rewrite <- IH.
  destruct l; [by rewrite string_app_nil_r|done].
Qed.

Lemma new_lines_addr_id_dat rs : Z.of_nat (length rs) < 2 ^ 31 -> new_lines 1 rs = addr_id_dat rs.
Proof.
  intros Hl. unfold new_lines, addr_id_dat. rewrite string_concat_foldr. f_equal.
  apply imap_ext. intros i r Hi. apply lookup_lt_Some in Hi. unfold id_line.
  rewrite (wraps_id 32 (1 + Z.of_nat i)) by (try done; unfold in_s; lia).
  cbn. rewrite !string_app_assoc. by rewrite (Z.add_comm 1).
Qed.

Lemma alloc_id_range rs a : Z.of_nat (length rs) < 2 ^ 31 -> in_u 32 (alloc_id rs a).
Proof.
  intros Hl. unfold alloc_id. case_decide; [unfold in_u; lia|].
  destruct (list_find _ rs) as [[i x]|] eqn:Hf.
  - apply list_find_Some in Hf as (Hi & _). apply lookup_lt_Some in Hi. unfold in_u. lia.
  - apply wrapu_range. lia.
Qed.

Lemma addr2id_main_effect wd objs :
  tag_run wd objs ->
  exists wd' am, addr2id_main wd = Some (wd', new_lines 1 (allocations objs wd)) /\
    ids_ok am /\ (forall a t, query am a t = alloc_id (allocations objs wd) a) /\
    (forall name, name ∈ wd_list wd ->
       wd_files wd' !! name = (content ← wd_files wd !! name; file_effect main_stages am name content)).
Proof.
  intros Hrun. destruct (build_addr_map_spec wd objs Hrun) as (am & Hb & Hrep).
  destruct (run_stages_spec am main_stages wd (tr_ok _ _ Hrun) main_stages_total) as (wd' & Hr & _ & Hf).
  assert (forall a t, query am a t = alloc_id (allocations objs wd) a) as Hq.
  { intros a t. apply query_alloc_id; [done|]. apply Hrun. }
  exists wd', am. split_and!; [|intros a t; rewrite Hq; apply alloc_id_range, Hrun|done|done].
  unfold addr2id_main. rewrite Hb. cbn [mbind option_bind]. rewrite Hr. done.
Qed.

(** A stage of [main] makes of a file of its prefix what its accessors make
    of each record. *)
Lemma stage_rewritten {T} `{RecordLaws T} wd wd' am (time : T -> Z) funcs (f : T -> T) name :
  wd_files wd' !! name = (content ← wd_files wd !! name; file_effect main_stages am name content) ->
  process_all_field_data_file time funcs ∈ main_stages ->
  Forall keeps_wf (query_transformer time am <$> funcs) ->
  (0 < sizeof T)%nat -> Z.of_nat (sizeof T) < 2 ^ 53 ->
  (forall r, run_transformers (query_transformer time am <$> funcs) r = f r) ->
  rewritten_as wd wd' name (rec_prefix T) f.
Proof.
  intros Hf Hin Hwf Hsz Hbig Hext Hs os Hos Hc. rewrite Hf, Hc. cbn [mbind option_bind].
  rewrite (file_effect_stage _ _ _ _ Hin Hs), stage_on_objs by done.
  do 2 f_equal. apply list_fmap_ext. intros _ [r ps] _. unfold map_obj. by rewrite Hext.
Qed.

Ltac stage_tac Hf Hids Hq time accs :=
  refine (stage_rewritten _ _ _ time accs _ _ Hf _ _ _ _ _);
  [ repeat first [apply list_elem_of_here | apply list_elem_of_further]
  | repeat (apply Forall_cons; split; [keeps_wf_tac Hids|]); by apply Forall_nil
  | apply (bool_decide_unpack _); vm_compute; exact I
  | done
  | intros r; unfold run_transformers, query_transformer; cbn; by rewrite !Hq ].


(** ** A concrete run: one thread allocates an object with tag 10 and adds
    to it an object that was not sampled *)

Definition w_new : NewRecord false := Build_NewRecord false 3 1 2 16 10 100.
Definition w_list : ListAndSetRecord false :=
  Build_ListAndSetRecord false (Build_ContainerRecord false 10 4294967295 1 2 200 1) 1.

Definition w_new_objs : list (NewRecord false * list bytes) := [(w_new, [[]; []; []; []; []; []; []])].
Definition w_list_objs : list (ListAndSetRecord false * list bytes) :=
  [(w_list, [[]; []; []; []; []; [0; 0; 0; 0]; []; [0; 0; 0; 0]; []; [0; 0; 0; 0]])].

Definition w_wd : workdir :=
  {| wd_list := ["NEW-7-5"; "List-Set-7-5"];
     wd_files := <["NEW-7-5" := objs_image w_new_objs]>
                   (<["List-Set-7-5" := objs_image w_list_objs]> ∅) |}.

Lemma w_tag_run : tag_run w_wd (fun _ => w_new_objs).
Proof.
  assert (forall (P : string -> Prop), P "NEW-7-5" -> P "List-Set-7-5" ->
            forall name, name ∈ wd_list w_wd -> P name) as Hall.
  { intros P H1 H2 name Hn. apply list_elem_of_In in Hn. simpl in Hn. naive_solver. }
  split.
  - split; [apply (bool_decide_unpack _); vm_compute; exact I|].
    apply (Hall (fun n => is_Some (wd_files w_wd !! n)));
      apply (bool_decide_unpack _); vm_compute; exact I.
  - apply (Hall (fun n => startsWith n "NEW" = true ->
             wd_files w_wd !! n = Some (objs_image w_new_objs) /\ Forall obj_ok w_new_objs)).
    + intros _. split; [vm_compute; reflexivity|]. apply (bool_decide_unpack _). vm_compute. exact I.
    + vm_compute. discriminate.
  - apply (Hall (fun n => startsWith n "gc" = false)); vm_compute; reflexivity.
  - apply (bool_decide_unpack _). vm_compute. exact I.
  - vm_compute. reflexivity.
Qed.

