(* ===== verification/Csv2db.v ===== *)
(** * [scripts/src/csv2db.cpp]: loading record files into the TIMELINE table

    For each record type the program has a list of column names, a list of
    placeholders and a function that binds the parameters in order.  The
    rows it inserts are what the INSERT statement says: the i-th bound value
    in the i-th named column. *)

From Stdlib Require Import Ascii.
From S2P Require Import Prelude Layout Records FileSys FsUtil RecordReader.

(** [sql_map], [value_map] and [type_map]. *)
Definition sql_map : gmap string string :=
  list_to_map
    [("gc", "TIME,ADDR0,ADDR1");
     ("AAStore", "LINE, CLASS_NAME_ID, TIME, ID, ADDR0, ADDR1");
     ("PutField", "LINE, CLASS_NAME_ID, ID, TIME, ADDR0, ADDR1");
     ("NEW", "LINE, CLASS_NAME_ID, TIME, ID, ADDR0, ADDR1");
     ("Construct", "LINE, CLASS_NAME_ID, TIME, ID, ADDR0");
     ("Use", "ID, LINE, CLASS_NAME_ID, ADDR0, TIME");
     ("Free", "TIME, ADDR0, ADDR1");
     ("Event", "TIME, ID")].

Definition value_map : gmap string string :=
  list_to_map
    [("gc", "?,?,?,?");
     ("AAStore", "?,?,?,?,?,?,?");
     ("PutField", "?,?,?,?,?,?,?");
     ("NEW", "?,?,?,?,?,?,?");
     ("Construct", "?,?,?,?,?,?");
     ("Use", "?,?,?,?,?,?");
     ("Free", "?,?,?,?");
     ("Event", "?,?,?")].

Definition type_map : gmap string ascii :=
  list_to_map
    [("gc", "g"%char); ("AAStore", "a"%char); ("PutField", "p"%char); ("NEW", "n"%char);
     ("Construct", "c"%char); ("Use", "u"%char); ("Free", "f"%char); ("Event", "e"%char)].

(** A parameter bound to a statement: [sqlite3_bind_int] takes an [int],
    [sqlite3_bind_int64] a 64-bit integer. *)
Definition bind_int (v : Z) : Z := i32 v.
Definition bind_int64 (v : Z) : Z := i64 v.

Definition char_code (c : ascii) : Z := Z.of_N (N_of_ascii c).

(** [sql_bind]: the values of the parameters 1, 2, ... in order. *)
Class SqlBind (R : Type) := sql_bind : R -> list Z.

#[export] Instance sql_bind_event : SqlBind (EventRecord false) := fun r =>
  [bind_int64 (ev_time r); bind_int (ev_event_id r); bind_int (char_code "e")].

#[export] Instance sql_bind_free : SqlBind (FreeRecord false) := fun r =>
  [bind_int64 (fr_time r); bind_int (fr_addr r); bind_int (fr_obj_size r);
   bind_int (char_code "f")].

#[export] Instance sql_bind_use : SqlBind (UseRecord false) := fun r =>
  [bind_int (us_type r); bind_int (us_line r); bind_int (us_class_name_id r);
   bind_int64 (us_addr r); bind_int64 (us_time r); bind_int (char_code "u")].

#[export] Instance sql_bind_gc : SqlBind (GCRecord false) := fun r =>
  [bind_int64 (gc_time r); bind_int64 (gc_org_addr r); bind_int64 (gc_new_addr r);
   bind_int (char_code "g")].

#[export] Instance sql_bind_aastore : SqlBind (AAStoreRecord false) := fun r =>
  [bind_int (aa_line r); bind_int (aa_class_name_id r); bind_int64 (aa_time r);
   bind_int64 (aa_index r); bind_int64 (aa_holder_addr r); bind_int64 (aa_ref_addr r);
   bind_int (char_code "a")].

#[export] Instance sql_bind_new : SqlBind (NewRecord false) := fun r =>
  [bind_int (nw_line r); bind_int (nw_class_name_id r); bind_int64 (nw_time r);
   bind_int64 (nw_obj_typeid r); bind_int64 (nw_addr r); bind_int64 (nw_obj_size r);
   bind_int (char_code "n")].

#[export] Instance sql_bind_construct : SqlBind (ConstructRecord false) := fun r =>
  [bind_int (co_line r); bind_int (co_class_name_id r); bind_int64 (co_time r);
   bind_int64 (co_obj_typeid r); bind_int64 (co_addr r); bind_int (char_code "c")].

#[export] Instance sql_bind_putfield : SqlBind (PutFieldRecord false) := fun r =>
  [bind_int (pf_line r); bind_int (pf_class_name_id r); bind_int (pf_field_id r);
   bind_int64 (pf_time r); bind_int64 (pf_holder_addr r); bind_int64 (pf_ref_addr r);
   bind_int (char_code "p")].

(** ** The INSERT statement *)

(** The statement text of [load_timeline<Record>]; [operator[]] of the maps
    gives the empty string for a missing key. *)
Definition insert_sql (prefix : string) : string :=
  "INSERT INTO TIMELINE(" +:+ default "" (sql_map !! prefix) +:+ ",TYPE) VALUES("
  +:+ default "" (value_map !! prefix) +:+ ")".

(** The comma-separated names between the first parenthesis and its match,
    blanks removed; the number of placeholders. *)
Fixpoint split_names (cur : list ascii) (l : list ascii) : list string :=
  match l with
  | [] => [String.string_of_list_ascii (reverse cur)]
  | c :: l =>
      if decide (c = ","%char) then String.string_of_list_ascii (reverse cur) :: split_names [] l
      else if decide (c = " "%char) then split_names cur l
      else split_names (c :: cur) l
  end.

Fixpoint until_paren (l : list ascii) : list ascii :=
  match l with
  | [] => []
  | c :: l => if decide (c = ")"%char) then [] else c :: until_paren l
  end.

Fixpoint after_paren (l : list ascii) : list ascii :=
  match l with
  | [] => []
  | c :: l => if decide (c = "("%char) then l else after_paren l
  end.

Definition insert_columns (sql : string) : list string :=
  split_names [] (until_paren (after_paren (String.list_ascii_of_string sql))).

Definition placeholders (sql : string) : nat :=
  length (filter (fun c => c = "?"%char) (String.list_ascii_of_string sql)).

(** A row of TIMELINE: the columns that are not NULL. *)
Abbreviation row := (gmap string Z).

(** The row an execution of the statement inserts: none when the numbers of
    columns and placeholders differ, for then the statement does not
    prepare. *)
Definition insert_row (sql : string) (params : list Z) : option row :=
  let cols := insert_columns sql in
  if decide (length cols = placeholders sql /\ length params = placeholders sql)
  then Some (list_to_map (zip cols params)) else None.

(** ** The program *)

Definition BUF_SIZE : Z := Z.shiftl 16 30.

(** [load_timeline<Record>]: one reset, bind and step for each record read. *)
Definition load_step {R} `{RecordType R} `{SqlBind R} (buf : list R) (rows : list row) : list row :=
  rows ++ omap (fun r => insert_row (insert_sql (rec_prefix R)) (sql_bind r)) buf.

Definition load_timeline {R} `{RecordType R} `{SqlBind R} (content : bytes) (rows : list row)
    : option (list row) :=
  read_loop load_step (BUF_SIZE / Z.of_nat (sizeof R)) (turns content)
    {| f_content := content; f_pos := 0 |} rows.
Arguments load_timeline R {_ _}.

(** The loader of a record type as [LOAD_TIMELINE] selects it. *)
Record loader := { ld_prefix : string; ld_load : bytes -> list row -> option (list row) }.

Definition LOAD_TIMELINE (R : Type) `{RecordType R} `{SqlBind R} : loader :=
  {| ld_prefix := rec_prefix R; ld_load := load_timeline R |}.

Definition loaders : list loader :=
  [ LOAD_TIMELINE (GCRecord false); LOAD_TIMELINE (AAStoreRecord false);
    LOAD_TIMELINE (PutFieldRecord false); LOAD_TIMELINE (NewRecord false);
    LOAD_TIMELINE (ConstructRecord false); LOAD_TIMELINE (UseRecord false);
    LOAD_TIMELINE (FreeRecord false); LOAD_TIMELINE (EventRecord false) ].

(** The body of the file loop of [main].  After a loader has run, its file
    is at the end, so a second one would read nothing of it. *)
Definition load_file (file : string) (content : bytes) (rows : list row) : option (list row) :=
  snd <$> foldM (fun '(rest, rows) ld =>
                   if startsWith file (ld_prefix ld)
                   then rows ← ld_load ld rest rows; Some ([], rows)
                   else Some (rest, rows)) (content, rows) loaders.

(** [main]: the rows of TIMELINE after the commit; the argument is the pid
    of the traced process. *)
Definition csv2db_main (listing : directory) (content_of : gmap string bytes) (pid : string)
    : option (list row) :=
  files ← glob listing pid;
  foldM (fun rows file => content ← content_of !! file; load_file file content rows) [] files.

(** ** What a record says in TIMELINE *)

(** A row by columns: [None] is NULL. *)
Record timeline := {
  TIME : Z;
  ADDR0 : option Z;
  ADDR1 : option Z;
  ID : option Z;
  LINE : option Z;
  CLASS_NAME_ID : option Z;
  TYPE : ascii;
}.

Definition columns (t : timeline) : list (string * option Z) :=
  [("TIME", Some (TIME t)); ("ADDR0", ADDR0 t); ("ADDR1", ADDR1 t); ("ID", ID t);
   ("LINE", LINE t); ("CLASS_NAME_ID", CLASS_NAME_ID t); ("TYPE", Some (char_code (TYPE t)))].

Definition timeline_row (t : timeline) : row :=
  list_to_map (omap (fun '(k, v) => v ← v; Some (k, v)) (columns t)).

(** The meaning of each record, by column; it mentions neither the order of
    columns nor the order of parameters.  Times are 64-bit integers.  The
    address and size of a [Free] record arrive as signed 32-bit integers, for
    they are bound with [sqlite3_bind_int]. *)
Definition gc_meaning (r : GCRecord false) : timeline :=
  {| TIME := i64 (gc_time r); ADDR0 := Some (gc_org_addr r); ADDR1 := Some (gc_new_addr r);
     ID := None; LINE := None; CLASS_NAME_ID := None; TYPE := "g" |}.

Definition aa_meaning (r : AAStoreRecord false) : timeline :=
  {| TIME := i64 (aa_time r); ADDR0 := Some (aa_holder_addr r); ADDR1 := Some (aa_ref_addr r);
     ID := Some (aa_index r); LINE := Some (aa_line r); CLASS_NAME_ID := Some (aa_class_name_id r); TYPE := "a" |}.

Definition pf_meaning (r : PutFieldRecord false) : timeline :=
  {| TIME := i64 (pf_time r); ADDR0 := Some (pf_holder_addr r); ADDR1 := Some (pf_ref_addr r);
     ID := Some (pf_field_id r); LINE := Some (pf_line r); CLASS_NAME_ID := Some (pf_class_name_id r); TYPE := "p" |}.

Definition nw_meaning (r : NewRecord false) : timeline :=
  {| TIME := i64 (nw_time r); ADDR0 := Some (nw_addr r); ADDR1 := Some (nw_obj_size r);
     ID := Some (nw_obj_typeid r); LINE := Some (nw_line r); CLASS_NAME_ID := Some (nw_class_name_id r); TYPE := "n" |}.

Definition co_meaning (r : ConstructRecord false) : timeline :=
  {| TIME := i64 (co_time r); ADDR0 := Some (co_addr r); ADDR1 := None;
     ID := Some (co_obj_typeid r); LINE := Some (co_line r); CLASS_NAME_ID := Some (co_class_name_id r); TYPE := "c" |}.

Definition us_meaning (r : UseRecord false) : timeline :=
  {| TIME := i64 (us_time r); ADDR0 := Some (us_addr r); ADDR1 := None;
     ID := Some (us_type r); LINE := Some (us_line r); CLASS_NAME_ID := Some (us_class_name_id r); TYPE := "u" |}.

Definition fr_meaning (r : FreeRecord false) : timeline :=
  {| TIME := i64 (fr_time r); ADDR0 := Some (i32 (fr_addr r)); ADDR1 := Some (i32 (fr_obj_size r));
     ID := None; LINE := None; CLASS_NAME_ID := None; TYPE := "f" |}.

Definition ev_meaning (r : EventRecord false) : timeline :=
  {| TIME := i64 (ev_time r); ADDR0 := None; ADDR1 := None;
     ID := Some (ev_event_id r); LINE := None; CLASS_NAME_ID := None; TYPE := "e" |}.

(** The promise that the INSERT statement of a type implements its meaning. *)
Class TimelineRecord (R : Type) `{RecordType R} `{SqlBind R} := {
  timeline_of : R -> timeline;
  insert_row_timeline (r : R) :
    rec_wf r -> insert_row (insert_sql (rec_prefix R)) (sql_bind r) = Some (timeline_row (timeline_of r));
}.

Lemma bind_int_u16 v : in_u 16 v -> bind_int v = v.
Proof. intros. apply wraps_id; [lia|]. unfold in_u, in_s in *. simpl in *. lia. Qed.

Lemma bind_int_s32 v : in_s 32 v -> bind_int v = v.
Proof. intros. by apply wraps_id. Qed.

Lemma bind_int64_u32 v : in_u 32 v -> bind_int64 v = v.
Proof. intros. apply wraps_id; [lia|]. unfold in_u, in_s in *. simpl in *. lia. Qed.

Lemma bind_int64_s32 v : in_s 32 v -> bind_int64 v = v.
Proof. intros. apply wraps_id; [lia|]. unfold in_s in *. simpl in *. lia. Qed.

(** Takes the ranges of the members from [rec_wf]. *)
Ltac member_ranges Hr :=
  unfold rec_wf in Hr;
  match type of Hr with Forall2 _ ?l _ => let l' := eval vm_compute in l in change l with l' in Hr end;
  cbn [rec_vals] in Hr;
  repeat (let H := fresh "Hin" in apply Forall2_cons in Hr as [H Hr]);
  unfold in_fld, in_scalar in *; cbn -[in_u in_s] in *;
  change (8 * Z.of_nat 2) with 16 in *; change (8 * Z.of_nat 4) with 32 in *;
  change (8 * Z.of_nat 8) with 64 in *.

Ltac timeline_row :=
  intros [] Hr;
  cbv [gc_meaning pf_meaning co_meaning nw_meaning aa_meaning us_meaning fr_meaning ev_meaning];
  cbv [gc_record pf_record co_record nw_record aa_record us_record fr_record ev_record] in Hr;
  member_ranges Hr;
  cbv [sql_bind sql_bind_event sql_bind_free sql_bind_use sql_bind_gc sql_bind_aastore
       sql_bind_new sql_bind_construct sql_bind_putfield];
  cbn -[insert_row insert_sql bind_int bind_int64];
  repeat match goal with
    | H : in_u 32 ?x |- context [bind_int64 ?x] => rewrite (bind_int64_u32 x H)
    | H : in_s 32 ?x |- context [bind_int64 ?x] => rewrite (bind_int64_s32 x H)
    | H : in_u 16 ?x |- context [bind_int ?x] => rewrite (bind_int_u16 x H)
    | H : in_s 32 ?x |- context [bind_int ?x] => rewrite (bind_int_s32 x H)
    end;
  unfold bind_int64;
  repeat match goal with |- context [wraps 64 ?x] => generalize (wraps 64 x); intros ? end;
  repeat match goal with |- context [bind_int ?x] =>
    is_var x; change (bind_int x) with (i32 x); generalize (i32 x); intros ? end;
  match goal with |- _ = ?x => vm_cast_no_check (eq_refl x) end.

#[export] Program Instance gc_timeline : TimelineRecord (GCRecord false) := { timeline_of := gc_meaning }.
Next Obligation. timeline_row. Qed.

#[export] Program Instance pf_timeline : TimelineRecord (PutFieldRecord false) := { timeline_of := pf_meaning }.
Next Obligation. timeline_row. Qed.

#[export] Program Instance co_timeline : TimelineRecord (ConstructRecord false) := { timeline_of := co_meaning }.
Next Obligation. timeline_row. Qed.

#[export] Program Instance nw_timeline : TimelineRecord (NewRecord false) := { timeline_of := nw_meaning }.
Next Obligation. timeline_row. Qed.

#[export] Program Instance aa_timeline : TimelineRecord (AAStoreRecord false) := { timeline_of := aa_meaning }.
Next Obligation. timeline_row. Qed.

#[export] Program Instance us_timeline : TimelineRecord (UseRecord false) := { timeline_of := us_meaning }.
Next Obligation. timeline_row. Qed.

#[export] Program Instance fr_timeline : TimelineRecord (FreeRecord false) := { timeline_of := fr_meaning }.
Next Obligation. timeline_row. Qed.

#[export] Program Instance ev_timeline : TimelineRecord (EventRecord false) := { timeline_of := ev_meaning }.
Next Obligation. timeline_row. Qed.

(** ** Correctness *)

(** The loaders have different prefixes, all among those of the trace. *)
Lemma loaders_prefixes ld : ld ∈ loaders -> ld_prefix ld ∈ trace_prefixes.
Proof.
  intros Hld. assert (Forall (fun p => p ∈ trace_prefixes) (ld_prefix <$> loaders)) as Hall.
  { apply (bool_decide_unpack _). vm_compute. exact I. }
  rewrite Forall_forall in Hall. apply Hall. by apply list_elem_of_fmap_2.
Qed.

Lemma loaders_nodup : NoDup (ld_prefix <$> loaders).
Proof. apply (bool_decide_unpack _). vm_compute. exact I. Qed.

Lemma size_timeline R `{RecordLaws R} : 0 < Z.of_nat (sizeof R) <= BUF_SIZE -> 0 < BUF_SIZE / Z.of_nat (sizeof R).
Proof. intros. apply Z.div_str_pos. lia. Qed.

(** The step function of [load_timeline] on records in range. *)
Lemma load_timeline_ok R `{RecordLaws R} `{SqlBind R} `{!TimelineRecord R} (os : list (R * list bytes)) rows :
  0 < Z.of_nat (sizeof R) <= BUF_SIZE -> Forall obj_ok os ->
  load_timeline R (objs_image os) rows = Some (rows ++ (timeline_row ∘ timeline_of ∘ fst <$> os)).
Proof.
  intros Hsz Hos. unfold load_timeline.
  rewrite (read_loop_spec load_step); [| | |lia|by apply size_timeline|done].
  - unfold load_step. do 2 f_equal. induction Hos as [|[r ps] os [Hr Hp] _ IH]; [done|].
    rewrite !fmap_cons. cbn [omap list_omap fst snd] in *.
    rewrite insert_row_timeline by done. by f_equal.
  - intros s. unfold load_step. apply app_nil_r.
  - intros l1 l2 s. unfold load_step. by rewrite omap_app, app_assoc.
Qed.

(** One turn of the file loop: only the loader of the file's own prefix
    runs. *)
Definition try_loader (file : string) : bytes * list row -> loader -> option (bytes * list row) :=
  fun '(rest, rows) ld =>
    if startsWith file (ld_prefix ld) then rows ← ld_load ld rest rows; Some ([], rows)
    else Some (rest, rows).

Lemma try_no file ld rest rows :
  startsWith file (ld_prefix ld) = false -> try_loader file (rest, rows) ld = Some (rest, rows).
Proof. unfold try_loader. by intros ->. Qed.

Lemma try_yes file ld rest rows :
  startsWith file (ld_prefix ld) = true ->
  try_loader file (rest, rows) ld = (rows ← ld_load ld rest rows; Some ([], rows)).
Proof. unfold try_loader. by intros ->. Qed.

Lemma try_none file l rest rows :
  Forall (fun ld => startsWith file (ld_prefix ld) = false) l ->
  foldM (try_loader file) (rest, rows) l = Some (rest, rows).
Proof. induction 1 as [|ld l Hld _ IH]; [done|]. cbn [foldM]. by rewrite try_no. Qed.

Lemma load_file_fold file content rows :
  load_file file content rows = snd <$> foldM (try_loader file) (content, rows) loaders.
Proof. reflexivity. Qed.

Lemma load_file_one file content rows ld :
  ld ∈ loaders -> startsWith file (ld_prefix ld) = true ->
  load_file file content rows = ld_load ld content rows.
Proof.
  intros Hld Hst. rewrite load_file_fold.
  assert (forall ld', ld' ∈ loaders -> startsWith file (ld_prefix ld') = true ->
                 ld_prefix ld' = ld_prefix ld) as Hsame.
  { intros ld' H1 H2. eapply prefix_dispatch; eauto using loaders_prefixes. }
  pose proof loaders_nodup as Hnd.
  apply list_elem_of_split in Hld as (l1 & l2 & Hl). rewrite Hl in Hnd, Hsame |- *.
  rewrite fmap_app, fmap_cons in Hnd. apply NoDup_app in Hnd as (_ & Hd1 & Hd2).
  apply NoDup_cons in Hd2 as [Hd2 _].
  assert (forall ld', ld' ∈ l1 \/ ld' ∈ l2 -> startsWith file (ld_prefix ld') = false) as Hno.
  { intros ld' Hin. apply not_true_is_false. intros Ht.
    assert (ld_prefix ld' = ld_prefix ld) as Heq by (apply Hsame; [set_solver|done]).
    destruct Hin as [Hin|Hin]; apply (list_elem_of_fmap_2 ld_prefix) in Hin; rewrite Heq in Hin.
    - apply (Hd1 _ Hin). left.
    - done. }
  rewrite foldM_app, try_none by (apply Forall_forall; auto). cbn [mbind option_bind].
  cbn [foldM]. rewrite try_yes by done.
  destruct (ld_load ld content rows) as [rows'|]; [|done]. cbn [mbind option_bind].
  by rewrite try_none by (apply Forall_forall; auto).
Qed.

Lemma load_file_none file content rows :
  Forall (fun ld => startsWith file (ld_prefix ld) = false) loaders ->
  load_file file content rows = Some rows.
Proof. intros Hno. rewrite load_file_fold. by rewrite try_none. Qed.

(** The name prefixes of the files that [main] loads. *)
Definition timeline_prefixes : list string :=
  ["gc"; "AAStore"; "PutField"; "NEW"; "Construct"; "Use"; "Free"; "Event"].

(** The rows of an array of objects. *)
Definition meanings {R} (f : R -> timeline) (os : list (R * list bytes)) : list row :=
  (fun o => timeline_row (f o.1)) <$> os.

(** A file of the data directory, its bytes and the rows it stands for: the
    array of records of the type its name starts with, or a file of no
    timeline type, whatever its bytes. *)
Inductive trace_file : string -> bytes -> list row -> Prop :=
| gc_file t os : Forall obj_ok os -> trace_file ("gc" +:+ t) (objs_image os) (meanings gc_meaning os)
| aa_file t os : Forall obj_ok os -> trace_file ("AAStore" +:+ t) (objs_image os) (meanings aa_meaning os)
| pf_file t os : Forall obj_ok os -> trace_file ("PutField" +:+ t) (objs_image os) (meanings pf_meaning os)
| nw_file t os : Forall obj_ok os -> trace_file ("NEW" +:+ t) (objs_image os) (meanings nw_meaning os)
| co_file t os : Forall obj_ok os -> trace_file ("Construct" +:+ t) (objs_image os) (meanings co_meaning os)
| us_file t os : Forall obj_ok os -> trace_file ("Use" +:+ t) (objs_image os) (meanings us_meaning os)
| fr_file t os : Forall obj_ok os -> trace_file ("Free" +:+ t) (objs_image os) (meanings fr_meaning os)
| ev_file t os : Forall obj_ok os -> trace_file ("Event" +:+ t) (objs_image os) (meanings ev_meaning os)
| other_file name content :
    Forall (fun p => ~ exists t, name = p +:+ t) timeline_prefixes -> trace_file name content [].

Lemma load_timeline_file R `{RecordLaws R} `{SqlBind R} `{!TimelineRecord R} t (os : list (R * list bytes)) rows0 :
  LOAD_TIMELINE R ∈ loaders -> 0 < Z.of_nat (sizeof R) <= BUF_SIZE -> Forall obj_ok os ->
  load_file (rec_prefix R +:+ t) (objs_image os) rows0 = Some (rows0 ++ meanings timeline_of os).
Proof.
  intros Hin Hsz Hos. rewrite (load_file_one _ _ _ _ Hin); [by apply load_timeline_ok|].
  apply startsWith_iff. by exists t.
Qed.

Ltac timeline_file R Hos :=
  refine (load_timeline_file R _ _ _ _ _ Hos);
  [ repeat first [apply list_elem_of_here | apply list_elem_of_further]
  | vm_compute; split; [reflexivity|discriminate] ].

Lemma load_trace_file name content rows0 rows :
  trace_file name content rows -> load_file name content rows0 = Some (rows0 ++ rows).
Proof.
  destruct 1 as [t os Hos|t os Hos|t os Hos|t os Hos|t os Hos|t os Hos|t os Hos|t os Hos|name content Hno];
    [ timeline_file (GCRecord false) Hos | timeline_file (AAStoreRecord false) Hos
    | timeline_file (PutFieldRecord false) Hos | timeline_file (NewRecord false) Hos
    | timeline_file (ConstructRecord false) Hos | timeline_file (UseRecord false) Hos
    | timeline_file (FreeRecord false) Hos | timeline_file (EventRecord false) Hos | ].
  rewrite app_nil_r. apply load_file_none.
  assert (timeline_prefixes = ld_prefix <$> loaders) as Heq by (vm_compute; reflexivity).
  rewrite Heq, Forall_fmap in Hno. eapply Forall_impl; [exact Hno|]. intros ld Hld. simpl in Hld.
  apply not_true_is_false. by rewrite startsWith_iff.
Qed.

(** The rows of a directory: those of its regular files whose names end in
    the pid, in listing order. *)
Inductive directory_rows (contents : gmap string bytes) (pid : string) : list (string * bool) -> list row -> Prop :=
| no_entries : directory_rows contents pid [] []
| selected_file p bs rs entries rows :
    contents !! (p +:+ pid) = Some bs -> trace_file (p +:+ pid) bs rs ->
    directory_rows contents pid entries rows ->
    directory_rows contents pid ((p +:+ pid, true) :: entries) (rs ++ rows)
| skipped_entry name regular entries rows :
    (regular = true -> ~ exists p, name = p +:+ pid) ->
    directory_rows contents pid entries rows ->
    directory_rows contents pid ((name, regular) :: entries) rows.

Lemma glob_cons name regular entries pid files :
  glob (Some entries) pid = Some files ->
  glob (Some ((name, regular) :: entries)) pid
  = Some (if regular && endsWith name pid then name :: files else files).
Proof.
  unfold glob, select_files. intros [= <-]. cbn [List.filter fst snd].
  by destruct (regular && endsWith name pid).
Qed.

Lemma directory_rows_files contents pid entries rows :
  str_length pid < 2 ^ 64 -> Forall (fun e => str_length e.1 < 2 ^ 64 - 1) entries ->
  directory_rows contents pid entries rows ->
  exists files rss, glob (Some entries) pid = Some files /\ rows = concat rss /\
    Forall2 (fun file rs => exists bs, contents !! file = Some bs /\ trace_file file bs rs) files rss.
Proof.
  intros Hpid Hshort Hrows. induction Hrows as [|p bs rs entries rows Hbs Htf _ IH|name reg entries rows Hno _ IH];
    [by exists [], []| |];
    apply Forall_cons in Hshort as [Hn Hshort]; destruct (IH Hshort) as (files & rss & Hg & -> & Hf);
    rewrite (glob_cons _ _ _ _ _ Hg).
  - exists ((p +:+ pid) :: files), (rs :: rss).
    assert (endsWith (p +:+ pid) pid = true) as -> by (apply endsWith_spec; eauto).
    split_and!; [done|done|]. constructor; [by exists bs|done].
  - exists files, rss. split_and!; [|done|done]. do 2 f_equal.
    destruct reg; [|done]. cbn [andb]. destruct (endsWith name pid) eqn:He; [|done].
    apply endsWith_spec in He; [|done|done]. by destruct (Hno eq_refl).
Qed.

(** C5: The TIMELINE table holds exactly the rows of the records of the
    regular files whose names end in the pid, each record once, files in
    listing order and records in file order, every member in the column of
    its meaning, the type as its letter and the other columns NULL; a file
    whose name starts with none of the eight prefixes contributes nothing.
    The address and the size of a [Free] record arrive as signed 32-bit
    integers. *)
Theorem csv2db_timeline entries contents pid rows :
  str_length pid < 2 ^ 64 -> Forall (fun e => str_length e.1 < 2 ^ 64 - 1) entries ->
  directory_rows contents pid entries rows ->
  csv2db_main (Some entries) contents pid = Some rows.
Proof.
  intros Hpid Hshort Hrows.
  destruct (directory_rows_files _ _ _ _ Hpid Hshort Hrows) as (files & rss & Hglob & -> & Hfiles).
  unfold csv2db_main. rewrite Hglob. cbn [mbind option_bind].
  enough (forall rows0, foldM (fun rows file => content ← contents !! file; load_file file content rows)
                         rows0 files = Some (rows0 ++ concat rss)) as Hgo by apply Hgo.
  clear -Hfiles. induction Hfiles as [|file rs files rss (bs & Hbs & Htf) _ IH]; intros rows0; simpl.
  - by rewrite app_nil_r.
  - rewrite Hbs. cbn [mbind option_bind].
    rewrite (load_trace_file _ _ rows0 _ Htf). cbn [mbind option_bind].
    by rewrite IH, <- app_assoc.
Qed.

(** A run that loads a file of moves, one of a freed object at an address
    above 2^31 and one of no timeline type, and skips the files of another
    process and the database's directory. *)
Definition sample_gc : GCRecord false := Build_GCRecord false 100 7 55.
Definition sample_free : FreeRecord false := Build_FreeRecord false 24 3000000000 60.

Definition sample_contents : gmap string bytes :=
  {["gc-3-42" := objs_image [(sample_gc, [[]; []; []; []] : list bytes)];
    "Free-3-42" := objs_image [(sample_free, [[]; []; []; []] : list bytes)]; "Map-3-42" := [1; 2]]}.

Lemma csv2db_timeline_witness :
  csv2db_main (Some [("gc-3-42", true); ("Free-3-42", true); ("Map-3-42", true); ("gc-3-43", true); ("42", false)])
    sample_contents "42"
  = Some [list_to_map [("TIME", 55); ("ADDR0", 100); ("ADDR1", 7); ("TYPE", 103)];
          list_to_map [("TIME", 60); ("ADDR0", -1294967296); ("ADDR1", 24); ("TYPE", 102)]].
Proof.
  etransitivity; [apply (csv2db_timeline _ _ _ (meanings gc_meaning [(sample_gc, [[]; []; []; []])] ++
    meanings fr_meaning [(sample_free, [[]; []; []; []])] ++ [] ++ []))|vm_compute; reflexivity].
  - vm_compute. reflexivity.
  - repeat (apply Forall_cons; split; [vm_compute; reflexivity|]). by apply Forall_nil.
  - refine (selected_file sample_contents "42" "gc-3-" (objs_image [(sample_gc, [[]; []; []; []])]) _ _ _ _ _ _);
      [vm_compute; reflexivity| |].
    { apply (gc_file "-3-42"). apply (bool_decide_unpack _). vm_compute. exact I. }
    refine (selected_file sample_contents "42" "Free-3-" (objs_image [(sample_free, [[]; []; []; []])]) _ _ _ _ _ _);
      [vm_compute; reflexivity| |].
    { apply (fr_file "-3-42"). apply (bool_decide_unpack _). vm_compute. exact I. }
    refine (selected_file sample_contents "42" "Map-3-" [1; 2] _ _ _ _ _ _); [vm_compute; reflexivity| |].
    { apply other_file. repeat (apply Forall_cons; split; [intros [t Ht]; discriminate Ht|]). by apply Forall_nil. }
    apply skipped_entry.
    { intros _ [p Hp]. assert (endsWith "gc-3-43" "42" = true) as He
        by (apply endsWith_spec; [vm_compute; reflexivity|vm_compute; reflexivity|by exists p]).
      vm_compute in He. discriminate He. }
    apply skipped_entry; [discriminate|]. constructor.
Defined.

Lemma wraps_high v : in_u 32 v -> 2 ^ 31 <= v -> i32 v = v - 2 ^ 32.
Proof.
  unfold in_u, wraps. intros Hv Hb. change (32 - 1) with 31.
  rewrite <- (Z_mod_plus_full _ (-1)), Z.mod_small; lia.
Qed.

(** A [FreeRecord] of an object whose address has its top bit set gets
    a negative ADDR0, and a [UseRecord] of the same address the address
    itself: the two rows do not join on ADDR0. *)
Theorem free_row_address (f : FreeRecord false) (u : UseRecord false) :
  rec_wf f -> rec_wf u -> 2 ^ 31 <= fr_addr f -> us_addr u = fr_addr f ->
  exists rf ru, insert_row (insert_sql "Free") (sql_bind f) = Some rf /\
    insert_row (insert_sql "Use") (sql_bind u) = Some ru /\
    rf !! "ADDR0" = Some (fr_addr f - 2 ^ 32) /\ ru !! "ADDR0" = Some (fr_addr f).
Proof.
  intros Hf Hu Hbig Heq.
  exists (timeline_row (timeline_of f)), (timeline_row (timeline_of u)).
  split; [exact (insert_row_timeline f Hf)|]. split; [exact (insert_row_timeline u Hu)|].
  split; [|rewrite <- Heq; by vm_compute].
  transitivity (Some (i32 (fr_addr f))); [reflexivity|]. f_equal.
  destruct f as [sz a t]. member_ranges Hf. by apply wraps_high.
Qed.

Lemma free_row_address_witness :
  exists rf ru,
    insert_row (insert_sql "Free") (sql_bind (Build_FreeRecord false 0 3000000000 5)) = Some rf /\
    insert_row (insert_sql "Use") (sql_bind (Build_UseRecord false 1 2 3 3000000000 4)) = Some ru /\
    rf !! "ADDR0" = Some (-1294967296) /\ ru !! "ADDR0" = Some 3000000000.
Proof.
  apply (free_row_address (Build_FreeRecord false 0 3000000000 5)
                          (Build_UseRecord false 1 2 3 3000000000 4));
    [apply (bool_decide_unpack _); vm_compute; exact I
    |apply (bool_decide_unpack _); vm_compute; exact I|vm_compute; discriminate|reflexivity].
Defined.
