(* ===== verification/Preload.v ===== *)
(** * [preload/preload.cpp]: the collector's moves

    The library interposes [memmove].  Between the start and the end of a
    collection it records every move of an aligned block; the start and the
    end are events of their own.  Recorders are per thread and made at
    their first use, the flag [_gc_start] is shared. *)

From S2P Require Import Prelude Layout Records FileSys Recorder FsUtil TraceNames.

(** Memory: a byte at each address. *)
Abbreviation memory := (Z -> Z).

(** The library function: all of the source is read before the destination
    is written. *)
Definition real_memmove (dest src n : Z) (m : memory) : memory :=
  fun a => if decide (dest <= a < dest + n) then m (src + (a - dest)) else m a.

(** A call, by the thread that makes it, with the clock it reads. *)
Inductive gc_op :=
| SetGC (tid : Z) (v : bool) (clk : Z * Z)
| Move (tid : Z) (dest src n : Z) (clk : Z * Z).

Definition op_tid (o : gc_op) : Z := match o with SetGC t _ _ => t | Move t _ _ _ _ => t end.

Section Preload.
Variables (csv_output : bool).
Variables (gc_padding : GCRecord false -> list bytes) (ev_padding : EventRecord false -> list bytes).
Variable pid : Z.

(** [_gc_start], the thread-local recorders of the threads that have made
    them, the files, the memory. *)
Record preload := {
  gc_start : bool;
  event_recorder : gmap Z (Recorder (EventRecord false));
  recorder : gmap Z (Recorder (GCRecord false));
  pl_fs : fs;
  pl_mem : memory;
}.

Definition GC_BUFFER_SIZE : Z := Z.shiftl 1 8.

Definition event_at (v : bool) (clk : Z * Z) : EventRecord false :=
  if v then {| ev_event_id := GC_START_EVENT; ev_time := nanotime clk.1 clk.2 |}
  else {| ev_event_id := GC_END_EVENT; ev_time := nanotime clk.1 clk.2 |}.

(** [set_gc_start(v)] on thread [tid]. *)
Definition set_gc_start (tid : Z) (v : bool) (clk : Z * Z) (st : preload) : option preload :=
  let rc := default (Recorder_new 1 tid pid) (event_recorder st !! tid) in
  '(rc, w) ← Recorder_add csv_output ev_padding (event_at v clk) rc (pl_fs st);
  Some {| gc_start := v; event_recorder := <[tid := rc]> (event_recorder st);
          recorder := recorder st; pl_fs := w; pl_mem := pl_mem st |}.

Definition gc_record_of (dest src : Z) (clk : Z * Z) : GCRecord false :=
  {| gc_new_addr := u32 (Z.shiftr dest 3); gc_org_addr := u32 (Z.shiftr src 3);
     gc_time := nanotime clk.1 clk.2 |}.

(** [memmove(dest, src, n)] on thread [tid]: the pointer it returns and the
    state.  The recorder is made before the alignment is checked. *)
Definition memmove (tid dest src n : Z) (clk : Z * Z) (st : preload) : option (Z * preload) :=
  let m := real_memmove dest src n (pl_mem st) in
  if gc_start st then
    let rc := default (Recorder_new GC_BUFFER_SIZE tid pid) (recorder st !! tid) in
    '(rc, w) ← (if decide (Z.land src 7 = 0)
                then Recorder_add csv_output gc_padding (gc_record_of dest src clk) rc (pl_fs st)
                else Some (rc, pl_fs st));
    Some (dest, {| gc_start := gc_start st; event_recorder := event_recorder st;
                   recorder := <[tid := rc]> (recorder st); pl_fs := w; pl_mem := m |})
  else
    Some (dest, {| gc_start := gc_start st; event_recorder := event_recorder st;
                   recorder := recorder st; pl_fs := pl_fs st; pl_mem := m |}).

Definition pl_step (st : preload) (o : gc_op) : option preload :=
  match o with
  | SetGC tid v clk => set_gc_start tid v clk st
  | Move tid dest src n clk => '(_, st) ← memmove tid dest src n clk st; Some st
  end.

Definition gc_run (st : preload) (ops : list gc_op) : option preload := foldM pl_step st ops.

(** The thread ends: its recorders are destroyed, the last one first. *)
Definition delete_opt {R} `{RecordType R} (padding : R -> list bytes) (o : option (Recorder R)) (w : fs) : option fs :=
  match o with Some rc => Recorder_delete csv_output padding rc w | None => Some w end.

Definition exit_thread (tid : Z) (st : preload) : option fs :=
  w ← delete_opt gc_padding (recorder st !! tid) (pl_fs st);
  delete_opt ev_padding (event_recorder st !! tid) w.

Definition preload_new (w : fs) (m : memory) : preload :=
  {| gc_start := false; event_recorder := ∅; recorder := ∅; pl_fs := w; pl_mem := m |}.

(** ** Specification *)

(** The moves a thread records, given whether a collection is running. *)
Fixpoint gc_log (tid : Z) (on : bool) (ops : list gc_op) : list (GCRecord false) :=
  match ops with
  | [] => []
  | SetGC _ v _ :: ops => gc_log tid v ops
  | Move t dest src _ clk :: ops =>
      (if decide (on = true /\ t = tid /\ Z.land src 7 = 0) then [gc_record_of dest src clk] else [])
      ++ gc_log tid on ops
  end.

Definition event_of (tid : Z) (o : gc_op) : option (EventRecord false) :=
  match o with
  | SetGC t v clk => if decide (t = tid) then Some (event_at v clk) else None
  | Move _ _ _ _ _ => None
  end.

Definition event_log (tid : Z) (ops : list gc_op) : list (EventRecord false) := omap (event_of tid) ops.

Fixpoint moved (ops : list gc_op) (m : memory) : memory :=
  match ops with
  | [] => m
  | SetGC _ _ _ :: ops => moved ops m
  | Move _ dest src n _ :: ops => moved ops (real_memmove dest src n m)
  end.

(** The flag after the calls. *)
Definition gc_on (on : bool) (ops : list gc_op) : bool :=
  fold_left (fun on o => match o with SetGC _ v _ => v | Move _ _ _ _ _ => on end) ops on.

Lemma gc_log_snoc tid on ops o :
  gc_log tid on (ops ++ [o]) = gc_log tid on ops ++ gc_log tid (gc_on on ops) [o].
Proof.
  revert on. induction ops as [|[t v clk|t dest src n clk] ops IH]; intros on; [done|apply IH|].
  cbn [app gc_log]. rewrite IH. by rewrite app_assoc.
Qed.

Lemma event_log_snoc tid ops o :
  event_log tid (ops ++ [o]) = event_log tid ops ++ event_log tid [o].
Proof. apply omap_app. Qed.

Lemma event_log_set tid t v clk :
  event_log tid [SetGC t v clk] = if decide (t = tid) then [event_at v clk] else [].
Proof. unfold event_log. simpl. by case_decide. Qed.

Lemma gc_on_snoc on ops o : gc_on on (ops ++ [o]) = gc_on (gc_on on ops) [o].
Proof. unfold gc_on. by rewrite fold_left_app. Qed.

Lemma moved_snoc ops o m : moved (ops ++ [o]) m = moved [o] (moved ops m).
Proof. revert m. induction ops as [|[] ops IH]; intros m; simpl; auto. Qed.

(** ** Refinement *)

(** The recorder of a thread, made or not, stands for a log. *)
Definition opt_rep {R} `{RecordType R} (padding : R -> list bytes) (w : fs) (tid : Z)
    (o : option (Recorder R)) (log : list R) : Prop :=
  match o with
  | None => log = []
  | Some rc => recorder_rep csv_output padding w rc log [] /\ _tid rc = tid /\ _pid rc = pid
  end.

Record preload_rep (tids : gset Z) (m0 : memory) (ops : list gc_op) (st : preload) : Prop := {
  pr_flag : gc_start st = gc_on false ops;
  pr_gc tid : opt_rep gc_padding (pl_fs st) tid (recorder st !! tid) (gc_log tid false ops);
  pr_ev tid : opt_rep ev_padding (pl_fs st) tid (event_recorder st !! tid) (event_log tid ops);
  pr_names tid : tid ∈ tids -> names_free (R := GCRecord false) (pl_fs st) tid pid /\
                               names_free (R := EventRecord false) (pl_fs st) tid pid;
  pr_mem : pl_mem st = moved ops m0;
}.

(** One more record on a recorder that may have to be made first. *)
Lemma opt_add {R} `{RecordLaws R} (padding : R -> list bytes) w tid limit (o : option (Recorder R)) log r :
  0 < limit -> names_free (R := R) w tid pid -> opt_rep padding w tid o log ->
  exists rc' w', Recorder_add csv_output padding r (default (Recorder_new limit tid pid) o) w = Some (rc', w') /\
    opt_rep padding w' tid (Some rc') (log ++ [r]) /\
    only_touches {[data_path (R := R) tid pid]} {[data_dir pid]} w w'.
Proof.
  intros Hlim Hn Ho.
  assert (opt_rep padding w tid (Some (default (Recorder_new limit tid pid) o)) log) as (Hr & Ht & Hp).
  { destruct o as [rc|]; [done|]. simpl in *. rewrite Ho. split; [by apply Recorder_new_rep|done]. }
  destruct (Recorder_add_spec csv_output padding w _ log [] r Hr) as (rc' & w' & Heq & Hr' & Ht' & Hp' & Htch).
  rewrite Ht, Hp in *. exists rc', w'. done.
Qed.

(** Recorders of the other type, or of other threads, are not disturbed. *)
Lemma opt_apart {R1 R2} `{RecordLaws R1} `{RecordLaws R2} (padding : R2 -> list bytes) tid1 w w' tid
    (o : option (Recorder R2)) log :
  rec_prefix R1 ∈ trace_prefixes -> rec_prefix R2 ∈ trace_prefixes ->
  rec_prefix R1 <> rec_prefix R2 \/ tid1 <> tid ->
  only_touches {[data_path (R := R1) tid1 pid]} {[data_dir pid]} w w' ->
  opt_rep padding w tid o log -> opt_rep padding w' tid o log.
Proof.
  intros Hp1 Hp2 Hne Ht. destruct o as [rc|]; [|done]. intros (Hr & <- & Hp).
  split; [|done]. by eapply (recorder_rep_apart (R1 := R1)).
Qed.

Lemma delete_opt_rep {R} `{RecordLaws R} (padding : R -> list bytes) w tid (o : option (Recorder R)) log :
  opt_rep padding w tid o log ->
  exists w', delete_opt padding o w = Some w' /\
    (log <> [] -> files w' !! data_path (R := R) tid pid = Some (concat (out_bytes csv_output padding <$> log))) /\
    only_touches {[data_path (R := R) tid pid]} {[data_dir pid]} w w'.
Proof.
  destruct o as [rc|]; simpl; [|intros ->; by exists w]. intros (Hr & <- & <-).
  by apply (Recorder_delete_spec csv_output padding w rc log []).
Qed.

Lemma gc_prefix_trace : rec_prefix (GCRecord false) ∈ trace_prefixes.
Proof. apply (bool_decide_unpack _). vm_compute. exact I. Qed.
Lemma ev_prefix_trace : rec_prefix (EventRecord false) ∈ trace_prefixes.
Proof. apply (bool_decide_unpack _). vm_compute. exact I. Qed.

Lemma set_gc_start_rep tids m0 ops st tid v clk :
  tid ∈ tids -> preload_rep tids m0 ops st ->
  exists st', set_gc_start tid v clk st = Some st' /\ preload_rep tids m0 (ops ++ [SetGC tid v clk]) st'.
Proof.
  intros Hin [Hflag Hgc Hev Hnames Hmem]. unfold set_gc_start.
  destruct (opt_add ev_padding (pl_fs st) tid 1 _ _ (event_at v clk) ltac:(done) (proj2 (Hnames tid Hin)) (Hev tid))
    as (rc & w & -> & Hrc & Ht).
  cbn [mbind option_bind]. eexists. split; [reflexivity|]. split; simpl.
  - by rewrite gc_on_snoc.
  - intros t. rewrite gc_log_snoc, app_nil_r.
    eapply (opt_apart (R1 := EventRecord false)); [apply ev_prefix_trace|apply gc_prefix_trace|by left|exact Ht|apply Hgc].
  - intros t. rewrite event_log_snoc, event_log_set.
    destruct (decide (tid = t)) as [<-|Hne].
    + rewrite lookup_insert_eq. exact Hrc.
    + rewrite lookup_insert_ne by done. rewrite app_nil_r.
      eapply (opt_apart (R1 := EventRecord false)); [apply ev_prefix_trace..|by right|exact Ht|apply Hev].
  - intros t Hint. destruct (Hnames t Hint). split; eapply (names_free_apart (R1 := EventRecord false)); eauto.
  - by rewrite moved_snoc.
Qed.

(** A step of [memmove] outside a collection, or of a block that is not
    aligned. *)
Lemma memmove_quiet tids m0 ops st tid dest src n clk o :
  preload_rep tids m0 ops st -> gc_log tid (gc_start st) [Move tid dest src n clk] = [] ->
  (forall t, opt_rep gc_padding (pl_fs st) t (o !! t) (gc_log t false ops)) ->
  preload_rep tids m0 (ops ++ [Move tid dest src n clk])
    {| gc_start := gc_start st; event_recorder := event_recorder st; recorder := o;
       pl_fs := pl_fs st; pl_mem := real_memmove dest src n (pl_mem st) |}.
Proof.
  intros [Hflag Hgc Hev Hnames Hmem] Hnil Ho. rewrite Hflag in Hnil. split; simpl.
  - by rewrite gc_on_snoc.
  - intros t. rewrite gc_log_snoc. destruct (decide (tid = t)) as [<-|Hne].
    + rewrite Hnil, app_nil_r. apply Ho.
    + simpl. rewrite decide_False by naive_solver. rewrite !app_nil_r. apply Ho.
  - intros t. rewrite event_log_snoc. unfold event_log at 2. simpl. rewrite app_nil_r. apply Hev.
  - done.
  - by rewrite moved_snoc, Hmem.
Qed.

Lemma memmove_rep tids m0 ops st tid dest src n clk :
  tid ∈ tids -> preload_rep tids m0 ops st ->
  exists st', memmove tid dest src n clk st = Some (dest, st') /\
    preload_rep tids m0 (ops ++ [Move tid dest src n clk]) st'.
Proof.
  intros Hin Hrep. unfold memmove. destruct (gc_start st) eqn:Hon; cbn [negb].
  2:{ eexists. split; [reflexivity|]. rewrite <- Hon. apply (memmove_quiet tids m0 ops st); [done| |apply Hrep].
      simpl. by rewrite Hon. }
  pose proof Hrep as [Hflag Hgc Hev Hnames Hmem]. destruct (decide (Z.land src 7 = 0)) as [Hal|Hal].
  - destruct (opt_add gc_padding (pl_fs st) tid GC_BUFFER_SIZE _ _ (gc_record_of dest src clk)
                ltac:(done) (proj1 (Hnames tid Hin)) (Hgc tid)) as (rc & w & -> & Hrc & Ht).
    cbn [mbind option_bind]. eexists. split; [reflexivity|]. rewrite Hflag in Hon. split; simpl.
    + by rewrite gc_on_snoc.
    + intros t. rewrite gc_log_snoc, Hon. cbn [gc_log]. rewrite app_nil_r.
      destruct (decide (tid = t)) as [<-|Hne].
      * rewrite lookup_insert_eq, decide_True by done. exact Hrc.
      * rewrite lookup_insert_ne, decide_False, app_nil_r by naive_solver.
        eapply (opt_apart (R1 := GCRecord false)); [apply gc_prefix_trace..|by right|exact Ht|apply Hgc].
    + intros t. rewrite event_log_snoc. unfold event_log at 2. simpl. rewrite app_nil_r.
      eapply (opt_apart (R1 := GCRecord false));
        [apply gc_prefix_trace|apply ev_prefix_trace|by left|exact Ht|apply Hev].
    + intros t Hint. destruct (Hnames t Hint). split; eapply (names_free_apart (R1 := GCRecord false)); eauto.
    + by rewrite moved_snoc, Hmem.
  - cbn [mbind option_bind]. eexists. split; [reflexivity|]. rewrite <- Hon.
    apply (memmove_quiet tids m0 ops st); [done| |].
    + simpl. rewrite Hon. rewrite decide_False by naive_solver. done.
    + intros t. destruct (decide (tid = t)) as [<-|Hne]; [|by rewrite lookup_insert_ne].
      rewrite lookup_insert_eq. specialize (Hgc tid). destruct (recorder st !! tid) as [rc|]; [done|].
      simpl in *. rewrite Hgc. split; [|done]. apply Recorder_new_rep; [done|by apply Hnames].
Qed.

Lemma preload_new_rep tids w m :
  (forall tid, tid ∈ tids -> names_free (R := GCRecord false) w tid pid /\
                        names_free (R := EventRecord false) w tid pid) ->
  preload_rep tids m [] (preload_new w m).
Proof. intros Hn. split; simpl; try done. Qed.

Lemma gc_run_rep tids w m ops :
  (forall tid, tid ∈ tids -> names_free (R := GCRecord false) w tid pid /\
                        names_free (R := EventRecord false) w tid pid) ->
  Forall (fun o => op_tid o ∈ tids) ops ->
  exists st, gc_run (preload_new w m) ops = Some st /\ preload_rep tids m ops st.
Proof.
  intros Hn Hops.
  enough (forall todo done_ st, Forall (fun o => op_tid o ∈ tids) todo -> preload_rep tids m done_ st ->
    exists st', gc_run st todo = Some st' /\ preload_rep tids m (done_ ++ todo) st') as Hgo
    by (apply (Hgo ops [] _ Hops), preload_new_rep, Hn).
  clear Hops. induction todo as [|o todo IH]; intros done_ st Hin Hrep.
  { exists st. by rewrite app_nil_r. }
  apply Forall_cons in Hin as [Ho Hin].
  assert (exists st1, pl_step st o = Some st1 /\ preload_rep tids m (done_ ++ [o]) st1) as (st1 & Hst1 & Hrep1).
  { destruct o as [t v clk|t dest src n clk]; simpl in *.
    - by apply set_gc_start_rep.
    - destruct (memmove_rep tids m done_ st t dest src n clk Ho Hrep) as (st1 & -> & Hr). by exists st1. }
  destruct (IH _ st1 Hin Hrep1) as (st' & Hst' & Hrep'). exists st'. rewrite <- app_assoc in Hrep'.
  split; [|done]. unfold gc_run in *. cbn [foldM]. by rewrite Hst1.
Qed.

(** C8: Whatever the interleaving of collections and moves over the threads,
    memory changes as with the real [memmove] (whose result is returned),
    and when a thread ends its files hold exactly its collection events and
    its moves of 8-byte aligned blocks between a start and the next end, in
    order. *)
Theorem preload_refines_log (tids : gset Z) w m ops tid :
  (forall t, t ∈ tids -> names_free (R := GCRecord false) w t pid /\
                    names_free (R := EventRecord false) w t pid) ->
  Forall (fun o => op_tid o ∈ tids) ops ->
  exists st w', gc_run (preload_new w m) ops = Some st /\ pl_mem st = moved ops m /\
    exit_thread tid st = Some w' /\
    (gc_log tid false ops <> [] ->
      files w' !! data_path (R := GCRecord false) tid pid
      = Some (concat (out_bytes csv_output gc_padding <$> gc_log tid false ops))) /\
    (event_log tid ops <> [] ->
      files w' !! data_path (R := EventRecord false) tid pid
      = Some (concat (out_bytes csv_output ev_padding <$> event_log tid ops))).
Proof.
  intros Hn Hops. destruct (gc_run_rep tids w m ops Hn Hops) as (st & Hrun & [_ Hgc Hev _ Hmem]).
  exists st. specialize (Hgc tid). specialize (Hev tid). unfold exit_thread.
  destruct (delete_opt_rep gc_padding _ _ _ _ Hgc) as (w1 & -> & Hf1 & Ht1).
  cbn [mbind option_bind].
  pose proof (opt_apart ev_padding _ _ _ tid _ _ gc_prefix_trace ev_prefix_trace ltac:(by left) Ht1 Hev) as Hev1.
  destruct (delete_opt_rep ev_padding _ _ _ _ Hev1) as (w2 & -> & Hf2 & Ht2).
  exists w2. split; [done|]. split; [done|]. split; [done|]. split; [|done].
  intros Hne. destruct Ht2 as [Hsame _]. rewrite Hsame; [by apply Hf1|].
  rewrite not_elem_of_singleton, !data_path_name. intros Heq.
  apply trace_name_inj in Heq as [Hp _]; [done|apply gc_prefix_trace|apply ev_prefix_trace].
Qed.
End Preload.

(** ** Witness *)

(** Thread 3 announces a collection, thread 4 moves an aligned block, an
    unaligned one, and a block after the collection. *)
Definition gc_ops : list gc_op :=
  [SetGC 3 true (1, 0); Move 4 800 80 16 (1, 5); Move 4 804 84 16 (1, 6); SetGC 3 false (2, 0);
   Move 4 1600 800 16 (2, 1)].

Lemma preload_refines_log_witness :
  exists st w', gc_run false zero_padding zero_padding 9 (preload_new empty_fs id) gc_ops = Some st /\
    exit_thread false zero_padding zero_padding 4 st = Some w' /\
    files w' !! data_path (R := GCRecord false) 4 9 = Some [10;0;0;0; 100;0;0;0; 5;202;154;59;0;0;0;0] /\
    pl_mem st 1605 = 85.
Proof.
  destruct (preload_refines_log false zero_padding zero_padding 9 {[3; 4]} empty_fs id gc_ops 4)
    as (st & w' & Hrun & Hmem & Hexit & Hgc & _).
  - intros t _. split; apply names_free_empty.
  - apply (bool_decide_unpack _). vm_compute. exact I.
  - exists st, w'. split; [exact Hrun|]. split; [exact Hexit|].
    split; [rewrite Hgc by (vm_compute; discriminate)|rewrite Hmem]; vm_compute; reflexivity.
Defined.
