(* ===== verification/Client.v ===== *)
(** * [agent/src/client.cpp]: the connection to the instrumentation server

    [ASMClient] wraps a blocking TCP socket.  What is sent arrives as it is;
    what is received comes in packets of any size, may fail, and ends when
    the server closes: then [::recv] gives 0 bytes. *)

From S2P Require Import Prelude.

(** What the socket delivers next. *)
Inductive packet :=
| Data (bs : bytes)
| Err.

Record ASMClient := {
  pid : Z;
  sent : bytes;
  incoming : list packet;
}.

Definition with_sent (bs : bytes) (c : ASMClient) : ASMClient :=
  {| pid := pid c; sent := sent c ++ bs; incoming := incoming c |}.
Definition with_incoming (ps : list packet) (c : ASMClient) : ASMClient :=
  {| pid := pid c; sent := sent c; incoming := ps |}.

(** [::recv(sockfd, buf, len, 0)]: at most [len] bytes of the next packet,
    no byte once the server has closed, [None] for a negative result. *)
Definition sys_recv (len : nat) (c : ASMClient) : option (bytes * ASMClient) :=
  match incoming c with
  | [] => Some ([], c)
  | Err :: ps => None
  | Data bs :: ps =>
      if decide (length bs <= len)%nat then Some (bs, with_incoming ps c)
      else Some (take len bs, with_incoming (Data (drop len bs) :: ps) c)
  end.

(** The result of [ASMClient::recv]: the buffer, or what had arrived when a
    receive failed. *)
Inductive recv_result :=
| Received (bs : bytes) (c : ASMClient)
| Failed (bs : bytes).

(** [ASMClient::recv(buf, len)]: the loop with [sum] bytes in [got]; [None]
    when the fuel does not suffice. *)
Fixpoint recv_loop (fuel : nat) (got : bytes) (len : nat) (c : ASMClient) : option recv_result :=
  if decide (length got = len) then Some (Received got c)
  else match fuel with
       | O => None
       | S fuel =>
           match sys_recv (len - length got) c with
           | None => Some (Failed got)
           | Some (bs, c) => recv_loop fuel (got ++ bs) len c
           end
       end.

Definition recv (fuel len : nat) (c : ASMClient) : option recv_result := recv_loop fuel [] len c.

Definition send_int (val : Z) (c : ASMClient) : ASMClient := with_sent (le_enc 4 val) c.

Definition send_with_len (buf : bytes) (c : ASMClient) : ASMClient :=
  with_sent buf (with_sent (le_enc 4 (Z.of_nat (length buf))) c).

Definition send_str (src : string) (c : ASMClient) : ASMClient := send_with_len (str_bytes src) c.

Definition send_bytecode (name : string) (class_data : bytes) (c : ASMClient) : ASMClient :=
  send_with_len class_data (send_str name c).

Definition send_header (command : Z) (c : ASMClient) : ASMClient :=
  send_int command (send_int (pid c) c).

(** What a computation on the connection comes to; [Undefined] covers
    behaviour without a definition, and calls that never return. *)
Inductive outcome (A : Type) :=
| Done (a : A)
| Thrown
| Undefined.
Arguments Done {A}.
Arguments Thrown {A}.
Arguments Undefined {A}.

#[export] Instance outcome_ret : MRet outcome := fun A a => Done a.
#[export] Instance outcome_bind : MBind outcome := fun A B f m =>
  match m with Done a => f a | Thrown => Thrown | Undefined => Undefined end.

(** [recv_int(&val)]: a failed receive leaves the variable indeterminate. *)
Definition recv_int (fuel : nat) (c : ASMClient) : outcome (Z * ASMClient) :=
  match recv fuel 4 c with
  | Some (Received bs c) => Done (i32 (le_dec bs), c)
  | _ => Undefined
  end.

(** [recv_bytecode]: no data when the length is 0; [None] is "leave the
    class as it is".  A negative length has no meaning. *)
Definition recv_bytecode (fuel : nat) (c : ASMClient) : outcome (option bytes * ASMClient) :=
  '(len, c) ← recv_int fuel c;
  if decide (len = 0) then Done (None, c)
  else if decide (len < 0) then Undefined
  else match recv fuel (Z.to_nat len) c with
       | Some (Received bs c) => Done (Some bs, c)
       | _ => Undefined
       end.

(** ** Receiving *)

(** The bytes still to come, if no receive fails. *)
Fixpoint stream_of (ps : list packet) : option bytes :=
  match ps with
  | [] => Some []
  | Err :: _ => None
  | Data bs :: ps => rest ← stream_of ps; Some (bs ++ rest)
  end.

(** Packets of a running connection are not empty. *)
Definition packet_ok (p : packet) : Prop := match p with Data bs => bs <> [] | Err => True end.

#[export] Instance packet_ok_dec p : Decision (packet_ok p).
Proof. destruct p as [[|]|]; simpl; [right|left|left]; naive_solver. Defined.

Lemma sys_recv_stream len c s :
  (0 < len)%nat -> Forall packet_ok (incoming c) -> stream_of (incoming c) = Some s -> s <> [] ->
  exists bs c', sys_recv len c = Some (bs, c') /\ bs <> [] /\ (length bs <= len)%nat /\
    Forall packet_ok (incoming c') /\ pid c' = pid c /\ sent c' = sent c /\
    exists s', stream_of (incoming c') = Some s' /\ s = bs ++ s'.
Proof.
  intros Hlen Hok Hs Hne. unfold sys_recv. destruct (incoming c) as [|[bs|] ps]; simpl in Hs.
  - by simplify_eq.
  - apply Forall_cons in Hok as [Hbs Hok]. simpl in Hbs.
    destruct (stream_of ps) as [rest|] eqn:Hrest; [|done]. simpl in Hs. injection Hs as <-.
    case_decide as Hle.
    + exists bs, (with_incoming ps c). split_and!; try done. by exists rest.
    + exists (take len bs), (with_incoming (Data (drop len bs) :: ps) c). split_and!; try done.
      * intros Hnil. apply (f_equal length) in Hnil. rewrite length_take in Hnil. simpl in Hnil. lia.
      * rewrite length_take. lia.
      * constructor; [|done]. simpl. intros Hnil. apply (f_equal length) in Hnil.
        rewrite length_drop in Hnil. simpl in Hnil. lia.
      * exists (drop len bs ++ rest). simpl. rewrite Hrest. simpl. split; [done|].
        by rewrite app_assoc, take_drop.
  - done.
Qed.

Lemma recv_loop_spec fuel got len c s :
  (length got <= len)%nat -> (len - length got <= length s)%nat -> (len - length got <= fuel)%nat ->
  Forall packet_ok (incoming c) -> stream_of (incoming c) = Some s ->
  exists c', recv_loop fuel got len c = Some (Received (got ++ take (len - length got) s) c') /\
    stream_of (incoming c') = Some (drop (len - length got) s) /\
    Forall packet_ok (incoming c') /\ pid c' = pid c /\ sent c' = sent c.
Proof.
  revert got c s. induction fuel as [|fuel IH]; intros got c s Hg Hs Hf Hok Hst; cbn [recv_loop];
    (destruct (decide (length got = len)) as [Heq|Hne];
     [exists c; rewrite Heq, Nat.sub_diag, app_nil_r; done|]); [lia|].
  destruct (sys_recv_stream (len - length got) c s) as (bs & c1 & -> & Hbs & Hle & Hok1 & Hp & Hsn & s' & Hst1 & ->);
    [lia|done|done|by intros ->; simpl in Hs; lia|].
  assert (0 < length bs)%nat by (destruct bs; simpl; [done|lia]).
  destruct (IH (got ++ bs) c1 s') as (c' & Heq & Hst' & Hok' & Hp' & Hsn');
    rewrite ?length_app in *; try lia; [done|done|].
  exists c'. rewrite Heq. split_and!; try done; try congruence.
  - rewrite take_app_ge, <- app_assoc by lia. do 5 f_equal. lia.
  - rewrite drop_app_ge by lia. rewrite Hst'. do 2 f_equal. lia.
Qed.

Lemma recv_spec fuel len c s :
  (len <= length s)%nat -> (len <= fuel)%nat ->
  Forall packet_ok (incoming c) -> stream_of (incoming c) = Some s ->
  exists c', recv fuel len c = Some (Received (take len s) c') /\
    stream_of (incoming c') = Some (drop len s) /\
    Forall packet_ok (incoming c') /\ pid c' = pid c /\ sent c' = sent c.
Proof.
  intros Hs Hf Hok Hst.
  destruct (recv_loop_spec fuel [] len c s) as (c' & Heq & Hst' & Hr); simpl; try lia; [done|done|].
  cbn [length] in Hst', Heq. rewrite Nat.sub_0_r in *. by exists c'.
Qed.

(** C35: However the network cuts the stream into packets, [recv] of [len]
    bytes delivers exactly the next [len] bytes and leaves the rest, within
    [len] receives. *)
Theorem recv_reassembles fuel len c s :
  (len <= length s)%nat -> (len <= fuel)%nat ->
  Forall packet_ok (incoming c) -> stream_of (incoming c) = Some s ->
  exists c', recv fuel len c = Some (Received (take len s) c') /\
    stream_of (incoming c') = Some (drop len s).
Proof.
  intros Hs Hf Hok Hst. destruct (recv_spec fuel len c s Hs Hf Hok Hst) as (c' & ? & ? & _).
  by exists c'.
Qed.

Lemma recv_loop_closed fuel got len c s :
  stream_of (incoming c) = Some s -> (length got + length s < len)%nat -> recv_loop fuel got len c = None.
Proof.
  revert got c s. induction fuel as [|fuel IH]; intros got c s Hst Hlt; cbn [recv_loop];
    rewrite decide_False by lia; [done|].
  unfold sys_recv. destruct (incoming c) as [|[bs|] ps] eqn:Hin; simpl in Hst; [| |done].
  - simplify_eq. rewrite app_nil_r. apply (IH _ _ []); [by rewrite Hin|done].
  - destruct (stream_of ps) as [rest|] eqn:Hrest; [|done]. simpl in Hst. injection Hst as <-.
    rewrite length_app in Hlt. rewrite decide_True by lia.
    apply (IH _ _ rest); [done|]. rewrite length_app. lia.
Qed.

(** C40: When the server closes the connection before it has sent all the
    bytes asked for, [recv] never returns: [::recv] gives 0, which the loop
    takes for progress. *)
Theorem recv_spins_on_close fuel len c s :
  stream_of (incoming c) = Some s -> (length s < len)%nat -> recv fuel len c = None.
Proof. intros Hst Hlt. by eapply recv_loop_closed. Qed.

(** ** Framing *)

(** How the server takes a length-prefixed block, and a request, from the
    stream. *)
Definition parse_int (s : bytes) : option (Z * bytes) :=
  if decide (4 <= length s)%nat then Some (i32 (le_dec (take 4 s)), drop 4 s) else None.

Definition parse_block (s : bytes) : option (bytes * bytes) :=
  '(n, s) ← parse_int s;
  if decide (0 <= n <= Z.of_nat (length s)) then Some (take (Z.to_nat n) s, drop (Z.to_nat n) s) else None.

Record request := { rq_pid : Z; rq_command : Z; rq_name : bytes; rq_data : bytes }.

Definition parse_request (s : bytes) : option (request * bytes) :=
  '(p, s) ← parse_int s;
  '(cmd, s) ← parse_int s;
  '(name, s) ← parse_block s;
  '(data, s) ← parse_block s;
  Some ({| rq_pid := p; rq_command := cmd; rq_name := name; rq_data := data |}, s).

Lemma parse_int_enc v rest : in_s 32 v -> parse_int (le_enc 4 v ++ rest) = Some (v, rest).
Proof.
  intros Hv. unfold parse_int. rewrite length_app, length_le_enc. rewrite decide_True by lia.
  rewrite take_app_length', drop_app_length' by (by rewrite length_le_enc).
  rewrite le_dec_enc. change (8 * Z.of_nat 4) with 32. rewrite wraps_wrapu by lia.
  by rewrite wraps_id.
Qed.

Lemma parse_block_enc bs rest :
  Z.of_nat (length bs) < 2 ^ 31 ->
  parse_block (le_enc 4 (Z.of_nat (length bs)) ++ bs ++ rest) = Some (bs, rest).
Proof.
  intros Hb. unfold parse_block. rewrite parse_int_enc by (unfold in_s; change (32 - 1) with 31; lia).
  cbn [mbind option_bind]. rewrite length_app, decide_True by lia. rewrite Nat2Z.id.
  by rewrite take_app_length, drop_app_length.
Qed.

(** The server reads back from the stream exactly the process id, the
    command, the class name and the class file that the agent sent. *)
Theorem request_round_trip c command name data rest :
  in_s 32 (pid c) -> in_s 32 command -> Z.of_nat (length (str_bytes name)) < 2 ^ 31 ->
  Z.of_nat (length data) < 2 ^ 31 -> sent c = [] ->
  parse_request (sent (send_bytecode name data (send_header command c)) ++ rest)
  = Some ({| rq_pid := pid c; rq_command := command; rq_name := str_bytes name; rq_data := data |}, rest).
Proof.
  intros Hp Hc Hn Hd Hs. unfold send_bytecode, send_str, send_with_len, send_header, send_int, with_sent.
  cbn [sent pid]. rewrite Hs. cbn [app]. rewrite <- !app_assoc. unfold parse_request.
  rewrite parse_int_enc by done. cbn [mbind option_bind].
  rewrite parse_int_enc by done. cbn [mbind option_bind].
  rewrite parse_block_enc by done. cbn [mbind option_bind].
  rewrite parse_block_enc by done. done.
Qed.

(** The reply to a request: a length and, unless it is 0, the new class. *)
Definition reply (o : option bytes) : bytes :=
  match o with Some bs => le_enc 4 (Z.of_nat (length bs)) ++ bs | None => le_enc 4 0 end.

Definition reply_ok (o : option bytes) : Prop :=
  match o with Some bs => bs <> [] /\ Z.of_nat (length bs) < 2 ^ 31 | None => True end.

Lemma recv_int_spec fuel c v rest :
  in_s 32 v -> (4 <= fuel)%nat -> Forall packet_ok (incoming c) ->
  stream_of (incoming c) = Some (le_enc 4 v ++ rest) ->
  exists c', recv_int fuel c = Done (v, c') /\ stream_of (incoming c') = Some rest /\
    Forall packet_ok (incoming c') /\ pid c' = pid c /\ sent c' = sent c.
Proof.
  intros Hv Hf Hok Hst. unfold recv_int.
  destruct (recv_spec fuel 4 c (le_enc 4 v ++ rest)) as (c' & -> & Hst' & Hr);
    [rewrite length_app, length_le_enc; lia|done|done|done|].
  exists c'.
  rewrite take_app_length' by (by rewrite length_le_enc).
  rewrite drop_app_length' in Hst' by (by rewrite length_le_enc).
  rewrite le_dec_enc. change (8 * Z.of_nat 4) with 32. rewrite wraps_wrapu by lia.
  by rewrite wraps_id.
Qed.

Lemma recv_bytecode_spec fuel c o rest :
  reply_ok o -> (length (reply o) <= fuel)%nat -> Forall packet_ok (incoming c) ->
  stream_of (incoming c) = Some (reply o ++ rest) ->
  exists c', recv_bytecode fuel c = Done (o, c') /\ stream_of (incoming c') = Some rest /\
    pid c' = pid c /\ sent c' = sent c.
Proof.
  intros Ho Hf Hok Hst. unfold recv_bytecode. destruct o as [bs|]; cbn [reply reply_ok] in *.
  - destruct Ho as [Hne Hlen]. rewrite length_app, length_le_enc in Hf. rewrite <- app_assoc in Hst.
    destruct (recv_int_spec fuel c (Z.of_nat (length bs)) (bs ++ rest)) as (c1 & -> & Hst1 & Hok1 & Hp1 & Hs1);
      [unfold in_s; change (32 - 1) with 31; lia|lia|done|done|].
    cbn [mbind outcome_bind]. assert (0 < length bs)%nat by (destruct bs; simpl; [done|lia]).
    rewrite !decide_False by lia. rewrite Nat2Z.id.
    destruct (recv_spec fuel (length bs) c1 (bs ++ rest)) as (c' & -> & Hst' & _ & Hp' & Hs');
      [rewrite length_app; lia|lia|done|done|].
    rewrite take_app_length. rewrite drop_app_length in Hst'.
    exists c'. split_and!; try done; congruence.
  - destruct (recv_int_spec fuel c 0 rest) as (c1 & -> & Hst1 & Hok1 & Hp1 & Hs1);
      [unfold in_s; change (32 - 1) with 31; lia|rewrite length_le_enc in Hf; lia|done|done|].
    cbn [mbind outcome_bind]. by exists c1.
Qed.

(** ** Witnesses *)

Definition w_client : ASMClient :=
  {| pid := 77; sent := []; incoming := [Data [1]; Data [2; 3; 4; 5]; Data [6]] |}.

Lemma recv_reassembles_witness :
  exists c', recv 5 3 w_client = Some (Received [1; 2; 3] c') /\ stream_of (incoming c') = Some [4; 5; 6].
Proof.
  apply (recv_reassembles 5 3 w_client [1; 2; 3; 4; 5; 6]); [simpl; lia|lia| |reflexivity].
  apply (bool_decide_unpack _). vm_compute. exact I.
Defined.

Lemma recv_spins_on_close_witness : recv 1000 8 w_client = None.
Proof. apply (recv_spins_on_close 1000 8 w_client [1; 2; 3; 4; 5; 6]); [reflexivity|simpl; lia]. Defined.

Lemma request_round_trip_witness :
  parse_request (sent (send_bytecode "a/B" [202; 254] (send_header 1 w_client)) ++ [9])
  = Some ({| rq_pid := 77; rq_command := 1; rq_name := [97; 47; 66]; rq_data := [202; 254] |}, [9]).
Proof.
  apply (request_round_trip w_client 1 "a/B" [202; 254] [9]); try reflexivity;
    apply (bool_decide_unpack _); vm_compute; exact I.
Defined.
