(* ===== verification/Agent.v ===== *)
(** * [agent/src/agent.cpp]: the agent in the virtual machine

    The options, the list of candidate classes, the hook that sends each
    class once to the server, and the method-entry callback that starts the
    instrumentation by retransforming what is already loaded. *)

From Stdlib Require Import Ascii.
From S2P Require Import Prelude Client.

(** [utils.h]. *)
Inductive MODE := INVALID | BASEMODE | USEMODE | VALUEMODE | CONTAINERMODE.

#[export] Instance MODE_eq_dec : EqDecision MODE.
Proof. solve_decision. Defined.

Definition HELLO : Z := 0.
Definition BASE : Z := 1.
Definition USE : Z := 2.
Definition VALUE : Z := 3.
Definition CONTAINER : Z := 4.
Definition EXIT : Z := 5.

(** ** Reading [candidate.txt] *)

Definition newline : ascii := ascii_of_nat 10.
Definition nul : ascii := ascii_of_nat 0.

(** [fgets(buf, n + 1, f)]: at most [n] characters, through a newline; the
    end-of-file indicator; the rest of the file. *)
Fixpoint fgets (n : nat) (f : list ascii) : list ascii * bool * list ascii :=
  match n, f with
  | O, _ => ([], false, f)
  | S _, [] => ([], true, [])
  | S n, c :: f =>
      if decide (c = newline) then ([c], false, f)
      else let '(buf, eof, rest) := fgets n f in (c :: buf, eof, rest)
  end.

(** The C string in a buffer. *)
Fixpoint c_string (buf : list ascii) : list ascii :=
  match buf with
  | [] => []
  | c :: buf => if decide (c = nul) then [] else c :: c_string buf
  end.

(** The loop of [parse_args]; a line that starts with a NUL would be cut at
    index -1. *)
Fixpoint read_candidates (fuel : nat) (f : list ascii) (candidates : gset string) : outcome (gset string) :=
  match fuel with
  | O => Undefined
  | S fuel =>
      let '(buf, eof, rest) := fgets 255 f in
      if eof : bool then Done candidates
      else
        let s := c_string buf in
        if decide (s = []) then Undefined
        else read_candidates fuel rest
               ({[String.string_of_list_ascii (take (length s - 1) s)]} ∪ candidates)
  end.

Record agent := {
  mode : MODE;
  candidates : gset string;
  vm_init : bool;
  transformed_classes : gset string;
}.

Definition agent_new : agent :=
  {| mode := INVALID; candidates := ∅; vm_init := false; transformed_classes := ∅ |}.

Definition set_mode (m : MODE) (a : agent) : agent :=
  {| mode := m; candidates := candidates a; vm_init := vm_init a;
     transformed_classes := transformed_classes a |}.
Definition set_candidates (s : gset string) (a : agent) : agent :=
  {| mode := mode a; candidates := s; vm_init := vm_init a;
     transformed_classes := transformed_classes a |}.
Definition set_vm_init (b : bool) (a : agent) : agent :=
  {| mode := mode a; candidates := candidates a; vm_init := b;
     transformed_classes := transformed_classes a |}.
Definition set_transformed (s : gset string) (a : agent) : agent :=
  {| mode := mode a; candidates := candidates a; vm_init := vm_init a; transformed_classes := s |}.

(** [parse_args]; the file is [None] when [fopen] fails. *)
Definition parse_args (args : string) (file : option (list ascii)) (a : agent) : outcome agent :=
  if decide (args = "base") then Done (set_mode BASEMODE a)
  else if decide (args = "use" \/ args = "value") then
    let a := if decide (args = "use") then set_mode USEMODE a else set_mode VALUEMODE a in
    match file with
    | None => Thrown
    | Some f =>
        cs ← read_candidates (S (length f)) f (candidates a);
        Done (set_candidates cs a)
    end
  else if decide (args = "container") then Done (set_mode CONTAINERMODE a)
  else Done a.

(** ** Connections *)

(** The world: the agent, the process id, what each new connection gives
    ([None] when it is refused), the bytes sent on those closed. *)
Record world := {
  w_agent : agent;
  w_pid : Z;
  w_connect : list (option (list packet));
  w_sessions : list bytes;
}.

Definition set_agent (a : agent) (w : world) : world :=
  {| w_agent := a; w_pid := w_pid w; w_connect := w_connect w; w_sessions := w_sessions w |}.

(** [ASMClient::ASMClient]. *)
Definition ASMClient_new (w : world) : outcome (ASMClient * world) :=
  match w_connect w with
  | Some ps :: rest =>
      Done ({| pid := w_pid w; sent := []; incoming := ps |},
            {| w_agent := w_agent w; w_pid := w_pid w; w_connect := rest; w_sessions := w_sessions w |})
  | _ => Thrown
  end.

(** [ASMClient::~ASMClient]. *)
Definition ASMClient_delete (c : ASMClient) (w : world) : world :=
  {| w_agent := w_agent w; w_pid := w_pid w; w_connect := w_connect w;
     w_sessions := w_sessions w ++ [sent c] |}.

Section Agent.
(** Enough turns for the receive loops. *)
Variable fuel : nat.

(** [send_hello]; a status other than 0 fails the assertion. *)
Definition send_hello (cwd : string) (c : ASMClient) : outcome ASMClient :=
  let c := send_str cwd (send_header HELLO c) in
  '(status, c) ← recv_int fuel c;
  if decide (status = 0) then Done c else Thrown.

(** The part of [Agent_OnLoad] before the callbacks are registered.  The
    options are tested for NULL, and then passed as they are. *)
Definition Agent_OnLoad (options : option string) (file : option (list ascii)) (cwd : string) (w : world)
    : outcome world :=
  match options with
  | None => Undefined
  | Some options =>
      a ← parse_args options file (w_agent w);
      '(c, w) ← ASMClient_new (set_agent a w);
      c ← send_hello cwd c;
      Done (ASMClient_delete c w)
  end.

Definition command_of (m : MODE) : option Z :=
  match m with
  | BASEMODE => Some BASE
  | USEMODE => Some USE
  | VALUEMODE => Some VALUE
  | CONTAINERMODE => Some CONTAINER
  | INVALID => None
  end.

(** [ClassFileLoadHook]: the new class file, if any. *)
Definition ClassFileLoadHook (name : option string) (class_data : option bytes) (w : world)
    : outcome (option bytes * world) :=
  match name, class_data with
  | Some name, Some class_data =>
      let a := w_agent w in
      if negb (vm_init a) then Done (None, w)
      else if decide (name ∈ transformed_classes a) then Done (None, w)
      else
        let w := set_agent (set_transformed ({[name]} ∪ transformed_classes a) a) w in
        if decide (length class_data = O) then Done (None, w)
        else if decide (name = "") then Done (None, w)
        else
          '(c, w) ← ASMClient_new w;
          match command_of (mode a) with
          | None => Thrown
          | Some command =>
              '(new, c) ← recv_bytecode fuel (send_bytecode name class_data (send_header command c));
              Done (new, ASMClient_delete c w)
          end
  | _, _ => Done (None, w)
  end.

(** [VMDeath]. *)
Definition VMDeath (w : world) : outcome world :=
  '(c, w) ← ASMClient_new w;
  Done (ASMClient_delete (send_header EXIT c) w).

(** ** The start of the instrumentation *)

(** A loaded class: its signature, its name, whether it can be modified,
    its class file. *)
Record class := { c_signature : string; c_name : string; c_modifiable : bool; c_data : bytes }.

(** [RetransformClasses] runs the hook of the class. *)
Definition RetransformClasses (k : class) (w : world) : outcome world :=
  '(_, w) ← ClassFileLoadHook (Some (c_name k)) (Some (c_data k)) w;
  Done w.

Fixpoint retransform_loaded (ks : list class) (w : world) : outcome world :=
  match ks with
  | [] => Done w
  | k :: ks =>
      if String.prefix "Ljava/lang/invoke" (c_signature k) then retransform_loaded ks w
      else if negb (c_modifiable k) then retransform_loaded ks w
      else w ← RetransformClasses k w; retransform_loaded ks w
  end.

(** [MethodEntry]: whether method-entry events are still wanted, and the
    state.  [loaded] are the loaded classes once the Java side of the logger
    is initialised. *)
Definition MethodEntry (class_signature method_name : string) (loaded : list class) (w : world)
    : outcome (bool * world) :=
  if decide (class_signature = "Lsun/launcher/LauncherHelper;") then
    if decide (method_name = "checkAndLoadMain") then
      w ← retransform_loaded loaded (set_agent (set_vm_init true (w_agent w)) w);
      Done (false, w)
    else Done (true, w)
  else Done (true, w).
End Agent.

(** ** The candidate list *)

Definition line_ok (l : list ascii) : Prop :=
  Forall (fun c => c <> newline /\ c <> nul) l /\ (length l <= 254)%nat.

#[export] Instance line_ok_dec l : Decision (line_ok l).
Proof. unfold line_ok. apply _. Defined.

(** The text of lines that all end with a newline. *)
Definition lines_text (ls : list (list ascii)) : list ascii := concat ((fun l => l ++ [newline]) <$> ls).

Lemma fgets_line n l rest :
  Forall (fun c => c <> newline) l -> (length l < n)%nat ->
  fgets n (l ++ newline :: rest) = (l ++ [newline], false, rest).
Proof.
  intros Hl. revert n. induction Hl as [|c l Hc _ IH]; intros n Hn; (destruct n as [|n]; [simpl in Hn; lia|]).
  - done.
  - cbn [app fgets]. rewrite decide_False by done. rewrite IH by (simpl in Hn; lia). done.
Qed.

Lemma fgets_tail n l :
  Forall (fun c => c <> newline) l -> (length l < n)%nat -> fgets n l = (l, true, []).
Proof.
  intros Hl. revert n. induction Hl as [|c l Hc _ IH]; intros n Hn; (destruct n as [|n]; [simpl in Hn; lia|]).
  - done.
  - cbn [fgets]. rewrite decide_False by done. rewrite IH by (simpl in Hn; lia). done.
Qed.

Lemma c_string_id l : Forall (fun c => c <> nul) l -> c_string l = l.
Proof. induction 1 as [|c l Hc _ IH]; [done|]. cbn. rewrite decide_False by done. by rewrite IH. Qed.

Lemma read_candidates_spec fuel ls tail cs :
  Forall line_ok ls -> Forall (fun c => c <> newline) tail -> (length tail <= 254)%nat ->
  (length ls < fuel)%nat ->
  read_candidates fuel (lines_text ls ++ tail) cs
  = Done (list_to_set (String.string_of_list_ascii <$> ls) ∪ cs).
Proof.
  intros Hls Htail Hlen. revert fuel cs.
  induction Hls as [|l ls [Hl Hlenl] _ IH]; intros fuel cs Hf; (destruct fuel as [|fuel]; [lia|]); cbn [read_candidates].
  - cbn [lines_text fmap list_fmap concat app]. rewrite fgets_tail by (done || lia).
    f_equal. set_solver.
  - unfold lines_text. rewrite fmap_cons. cbn [concat]. rewrite <- !app_assoc. cbn [app].
    rewrite fgets_line; [|eapply Forall_impl; [exact Hl|by intros ? []]|lia].
    assert (c_string (l ++ [newline]) = l ++ [newline]) as ->.
    { apply c_string_id. apply Forall_app. split; [eapply Forall_impl; [exact Hl|by intros ? []]|].
      constructor; [done|constructor]. }
    rewrite decide_False by (by destruct l). rewrite length_app. cbn [length].
    replace (length l + 1 - 1)%nat with (length l) by lia. rewrite take_app_length.
    fold (lines_text ls). rewrite IH by (simpl in Hf; lia). f_equal. rewrite fmap_cons. set_solver.
Qed.

(** The candidates are the lines of [candidate.txt] that end with a
    newline (lines shorter than the buffer, without NUL): what follows the
    last newline is not one, so the last class of a file without a final
    newline is dropped. *)
Theorem candidates_are_terminated_lines args ls tail a :
  args = "use" \/ args = "value" -> Forall line_ok ls ->
  Forall (fun c => c <> newline) tail -> (length tail <= 254)%nat ->
  exists a', parse_args args (Some (lines_text ls ++ tail)) a = Done a' /\
    candidates a' = list_to_set (String.string_of_list_ascii <$> ls) ∪ candidates a /\
    mode a' = if decide (args = "use") then USEMODE else VALUEMODE.
Proof.
  intros Hargs Hls Htail Hlen. unfold parse_args.
  rewrite decide_False by (intros ->; by destruct Hargs). rewrite decide_True by done.
  assert (length ls < S (length (lines_text ls ++ tail)))%nat as Hf.
  { rewrite length_app. clear. unfold lines_text. induction ls as [|l ls IH]; [simpl; lia|].
    rewrite fmap_cons. cbn [concat length]. rewrite !length_app. cbn [length]. lia. }
  rewrite read_candidates_spec by done. cbn [mbind outcome_bind]. eexists. split; [reflexivity|].
  split; case_decide; done.
Qed.

(** ** Each class once *)

Section Hook.
Variable fuel : nat.

(** The hook on a sequence of class loads. *)
Fixpoint hook_run (ks : list (string * bytes)) (w : world) : outcome (list (option bytes) * world) :=
  match ks with
  | [] => Done ([], w)
  | (name, data) :: ks =>
      '(new, w) ← ClassFileLoadHook fuel (Some name) (Some data) w;
      '(news, w) ← hook_run ks w;
      Done (new :: news, w)
  end.

(** The classes sent: the first load of each name, unless the name or the
    class file is empty. *)
Fixpoint to_send (seen : gset string) (ks : list (string * bytes)) : list (string * bytes) :=
  match ks with
  | [] => []
  | (name, data) :: ks =>
      if decide (name ∈ seen) then to_send seen ks
      else (if decide (data = [] \/ name = "") then [] else [(name, data)])
           ++ to_send ({[name]} ∪ seen) ks
  end.

Definition request_bytes (p command : Z) (k : string * bytes) : bytes :=
  sent (send_bytecode k.1 k.2 (send_header command {| pid := p; sent := []; incoming := [] |})).

(** A connection on which the server answers. *)
Definition answers (ps : list packet) (o : option bytes) : Prop :=
  Forall packet_ok ps /\ reply_ok o /\ (length (reply o) <= fuel)%nat /\
  exists rest, stream_of ps = Some (reply o ++ rest).

Lemma to_send_names seen ks :
  NoDup (to_send seen ks).*1 /\ forall name, name ∈ (to_send seen ks).*1 -> name ∉ seen.
Proof.
  revert seen. induction ks as [|[name data] ks IH]; intros seen; cbn [to_send].
  - split; [constructor|]. intros ? []%not_elem_of_nil.
  - case_decide as Hin; [apply IH|]. destruct (IH ({[name]} ∪ seen)) as [Hnd Hns].
    case_decide; cbn [app].
    + split; [done|]. intros n Hn%Hns. set_solver.
    + rewrite fmap_cons. split.
      * constructor; [|done]. intros Hn%Hns. set_solver.
      * intros n [->|Hn%Hns]%elem_of_cons; [done|set_solver].
Qed.

Lemma hook_fresh w name data command ps more o :
  vm_init (w_agent w) = true -> command_of (mode (w_agent w)) = Some command ->
  name ∉ transformed_classes (w_agent w) -> data <> [] -> name <> "" ->
  w_connect w = Some ps :: more -> answers ps o ->
  ClassFileLoadHook fuel (Some name) (Some data) w
  = Done (o, {| w_agent := set_transformed ({[name]} ∪ transformed_classes (w_agent w)) (w_agent w);
                w_pid := w_pid w; w_connect := more;
                w_sessions := w_sessions w ++ [request_bytes (w_pid w) command (name, data)] |}).
Proof.
  intros Hvm Hmode Hnew Hd Hn Hconn (Hok & Hro & Hf & rest & Hst).
  unfold ClassFileLoadHook. rewrite Hvm. cbn [negb]. rewrite decide_False by done.
  rewrite decide_False by (by destruct data). rewrite decide_False by done.
  unfold ASMClient_new. cbn [w_connect set_agent]. rewrite Hconn. cbn [mbind outcome_bind w_pid set_agent].
  rewrite Hmode.
  destruct (recv_bytecode_spec fuel
    (send_bytecode name data (send_header command {| pid := w_pid w; sent := []; incoming := ps |})) o rest)
    as (c' & -> & _ & _ & Hs); [done|done|done|done|].
  cbn [mbind outcome_bind]. unfold ASMClient_delete. cbn. rewrite Hs. done.
Qed.

(** The hook leaves the process and the mode alone. *)
Lemma hook_run_spec ks w command pss more os :
  vm_init (w_agent w) = true -> command_of (mode (w_agent w)) = Some command ->
  w_connect w = (Some <$> pss) ++ more -> Forall2 answers pss os ->
  length pss = length (to_send (transformed_classes (w_agent w)) ks) ->
  exists news w', hook_run ks w = Done (news, w') /\
    w_sessions w' = w_sessions w
      ++ (request_bytes (w_pid w) command <$> to_send (transformed_classes (w_agent w)) ks) /\
    omap id news = omap id os /\ w_connect w' = more.
Proof.
  revert w pss os. induction ks as [|[name data] ks IH]; intros w pss os Hvm Hmode Hconn Hans Hlen; cbn [to_send] in *.
  { destruct pss; [|done]. inversion Hans; subst. exists [], w. by rewrite app_nil_r. }
  cbn [hook_run]. destruct (decide (name ∈ transformed_classes (w_agent w))) as [Hin|Hnin].
  { unfold ClassFileLoadHook. rewrite Hvm. cbn [negb]. rewrite decide_True by done.
    cbn [mbind outcome_bind]. destruct (IH w pss os Hvm Hmode Hconn Hans Hlen) as (news & w' & -> & Hr).
    by exists (None :: news), w'. }
  set (w1 := set_agent (set_transformed ({[name]} ∪ transformed_classes (w_agent w)) (w_agent w)) w).
  destruct (decide (data = [] \/ name = "")) as [Hskip|Hsend].
  { assert (ClassFileLoadHook fuel (Some name) (Some data) w = Done (None, w1)) as ->.
    { unfold ClassFileLoadHook. rewrite Hvm. cbn [negb]. rewrite decide_False by done.
      destruct Hskip as [->| ->]; [done|]. by case_decide. }
    cbn [mbind outcome_bind]. destruct (IH w1 pss os Hvm Hmode Hconn Hans Hlen) as (news & w' & -> & Hr).
    by exists (None :: news), w'. }
  cbn [app length] in Hlen. destruct pss as [|ps pss]; [done|].
  inversion Hans as [|? o ? os' Ha Hans']; subst os. subst.
  rewrite (hook_fresh w name data command ps ((Some <$> pss) ++ more) o) by naive_solver.
  cbn [mbind outcome_bind]. set (w2 := {| w_agent := _ |}).
  destruct (IH w2 pss os' Hvm Hmode eq_refl Hans' ltac:(simpl in *; lia)) as (news & w' & -> & Hs & Hn & Hc).
  exists (o :: news), w'. split; [done|]. split; [|split; [|done]].
  - rewrite Hs. simpl. rewrite <- app_assoc. done.
  - destruct o as [b|]; [exact (f_equal (cons b) Hn)|exact Hn].
Qed.

(** Once the instrumentation has started, whatever classes are loaded
    and however often, each class is sent to the server once, at its first
    load, and the virtual machine gets exactly the server's replacements,
    in order. *)
Theorem classes_sent_once ks w command pss more os :
  vm_init (w_agent w) = true -> command_of (mode (w_agent w)) = Some command ->
  w_connect w = (Some <$> pss) ++ more -> Forall2 answers pss os ->
  length pss = length (to_send (transformed_classes (w_agent w)) ks) ->
  exists news w', hook_run ks w = Done (news, w') /\
    w_sessions w' = w_sessions w
      ++ (request_bytes (w_pid w) command <$> to_send (transformed_classes (w_agent w)) ks) /\
    NoDup (to_send (transformed_classes (w_agent w)) ks).*1 /\ omap id news = omap id os.
Proof.
  intros Hvm Hmode Hconn Hans Hlen.
  destruct (hook_run_spec ks w command pss more os) as (news & w' & Hrun & Hs & Hn & _); try done.
  exists news, w'. split; [done|]. split; [done|]. split; [apply to_send_names|done].
Qed.

(** ** The start *)

(** The classes the start retransforms. *)
Definition transformable (k : class) : Prop :=
  String.prefix "Ljava/lang/invoke" (c_signature k) = false /\ c_modifiable k = true.

#[export] Instance transformable_dec k : Decision (transformable k).
Proof. unfold transformable. apply _. Defined.

Lemma retransform_loaded_hooks ks w :
  retransform_loaded fuel ks w
  = ('(_, w) ← hook_run ((fun k => (c_name k, c_data k)) <$> filter transformable ks) w; Done w).
Proof.
  revert w. induction ks as [|k ks IH]; intros w; [done|]. cbn [retransform_loaded].
  rewrite filter_cons. destruct (decide (transformable k)) as [[Hp Hm]|Hn].
  - rewrite Hp, Hm. cbn [negb]. rewrite fmap_cons. cbn [hook_run]. unfold RetransformClasses.
    destruct (ClassFileLoadHook fuel (Some (c_name k)) (Some (c_data k)) w) as [[new w1]| |]; [|done|done].
    cbn [mbind outcome_bind]. rewrite IH.
    by destruct (hook_run ((fun k => (c_name k, c_data k)) <$> filter transformable ks) w1) as [[news w2]| |].
  - rewrite <- IH. unfold transformable in Hn.
    destruct (String.prefix "Ljava/lang/invoke" (c_signature k)); [done|].
    destruct (c_modifiable k); [naive_solver|done].
Qed.

(** Entering the launcher starts the instrumentation: every loaded
    class that can be modified, outside java.lang.invoke, is sent once, in
    the order of the virtual machine, and method-entry events are turned
    off. *)
Theorem start_sends_loaded_classes loaded w command pss more os :
  command_of (mode (w_agent w)) = Some command ->
  w_connect w = (Some <$> pss) ++ more -> Forall2 answers pss os ->
  let ks := to_send (transformed_classes (w_agent w))
              ((fun k => (c_name k, c_data k)) <$> filter transformable loaded) in
  length pss = length ks ->
  exists w', MethodEntry fuel "Lsun/launcher/LauncherHelper;" "checkAndLoadMain" loaded w = Done (false, w') /\
    w_sessions w' = w_sessions w ++ (request_bytes (w_pid w) command <$> ks).
Proof.
  intros Hmode Hconn Hans ks Hlen. unfold MethodEntry. rewrite !decide_True by done.
  rewrite retransform_loaded_hooks.
  destruct (hook_run_spec ((fun k => (c_name k, c_data k)) <$> filter transformable loaded)
    (set_agent (set_vm_init true (w_agent w)) w) command pss more os)
    as (news & w' & -> & Hs & _); try done.
  by exists w'.
Qed.
End Hook.

(** ** Witnesses *)

Lemma candidates_are_terminated_lines_witness :
  exists a', parse_args "use" (Some (lines_text [String.list_ascii_of_string "a/B"] ++ String.list_ascii_of_string "c/D"))
               agent_new = Done a' /\ candidates a' = {["a/B"]} ∪ ∅ ∪ ∅ /\ mode a' = USEMODE.
Proof.
  apply (candidates_are_terminated_lines "use" [String.list_ascii_of_string "a/B"]
           (String.list_ascii_of_string "c/D") agent_new).
  - by left.
  - apply (bool_decide_unpack _). vm_compute. exact I.
  - apply (bool_decide_unpack _). vm_compute. exact I.
  - simpl. lia.
Defined.

Definition w_packets : list packet := [Data [2; 0]; Data [0; 0; 7]; Data [8]].
Definition w_world : world :=
  {| w_agent := set_mode CONTAINERMODE (set_vm_init true agent_new); w_pid := 5;
     w_connect := [Some w_packets]; w_sessions := [] |}.

Lemma w_answers : answers 6 w_packets (Some [7; 8]).
Proof.
  split; [apply (bool_decide_unpack _); vm_compute; exact I|].
  split; [split; [discriminate|vm_compute; reflexivity]|].
  split; [simpl; lia|]. exists []. vm_compute. reflexivity.
Qed.

Lemma classes_sent_once_witness :
  exists news w', hook_run 6 [("A", [1]); ("A", [2])] w_world = Done (news, w') /\
    w_sessions w' = [] ++ [[5;0;0;0; 4;0;0;0; 1;0;0;0; 65; 1;0;0;0; 1]] /\
    NoDup ["A"] /\ omap id news = [[7; 8]].
Proof.
  apply (classes_sent_once 6 [("A", [1]); ("A", [2])] w_world 4 [w_packets] [] [Some [7; 8]]);
    [reflexivity|reflexivity|reflexivity|constructor; [apply w_answers|constructor]|reflexivity].
Defined.

Definition w_loaded : list class :=
  [Build_class "Ljava/lang/invoke/X;" "java/lang/invoke/X" true [9]; Build_class "LA;" "A" true [1];
   Build_class "[I" "[I" false [3]].

Lemma start_sends_loaded_classes_witness :
  exists w', MethodEntry 6 "Lsun/launcher/LauncherHelper;" "checkAndLoadMain" w_loaded w_world = Done (false, w') /\
    w_sessions w' = [[5;0;0;0; 4;0;0;0; 1;0;0;0; 65; 1;0;0;0; 1]].
Proof.
  destruct (start_sends_loaded_classes 6 w_loaded w_world 4 [w_packets] [] [Some [7; 8]]) as (w' & H1 & H2);
    [reflexivity|reflexivity|constructor; [apply w_answers|constructor]|vm_compute; reflexivity|].
  exists w'. split; [exact H1|]. rewrite H2. vm_compute. reflexivity.
Defined.
