(* ===== verification/AgentVm.v ===== *)
(** * [agent/src/agent.cpp]: the agent and the virtual machine

    What the agent asks of the virtual machine (the capabilities, callbacks and
    notification modes of [Agent_OnLoad]), the callbacks as handlers of its events, and
    [printCallTrace].  The collection callbacks go to the preloaded
    library of [Preload].

    The virtual machine is not part of the program: which events it sends, given
    what it was asked, is a parameter, and so are its queries. *)

From Stdlib Require Import Ascii.
From S2P Require Import Prelude Layout Records FileSys Recorder FsUtil TraceNames Preload Client Agent.

(** ** Requests *)

Inductive event_kind :=
  | VM_DEATH | METHOD_ENTRY | CLASS_PREPARE | CLASS_LOAD
  | GARBAGE_COLLECTION_START | GARBAGE_COLLECTION_FINISH | CLASS_FILE_LOAD_HOOK.

#[export] Instance event_kind_eq_dec : EqDecision event_kind.
Proof. solve_decision. Defined.

Inductive capability :=
  | can_generate_method_entry_events | can_generate_garbage_collection_events
  | can_retransform_classes | can_retransform_any_class
  | can_redefine_any_class | can_redefine_classes.

#[export] Instance capability_eq_dec : EqDecision capability.
Proof. solve_decision. Defined.

Inductive jvmti_call :=
  | AddCapabilities (caps : list capability)
  | SetEventCallbacks (callBacks : list event_kind)
  | SetEventNotificationMode (enable : bool) (k : event_kind).

(** The calls of [Agent_OnLoad]. *)
Definition OnLoad_calls : list jvmti_call :=
  [ AddCapabilities [can_generate_method_entry_events; can_generate_garbage_collection_events;
                     can_retransform_classes; can_retransform_any_class;
                     can_redefine_any_class; can_redefine_classes];
    SetEventCallbacks [VM_DEATH; METHOD_ENTRY; CLASS_PREPARE; CLASS_LOAD;
                       GARBAGE_COLLECTION_START; GARBAGE_COLLECTION_FINISH; CLASS_FILE_LOAD_HOOK];
    SetEventNotificationMode true VM_DEATH;
    SetEventNotificationMode true METHOD_ENTRY;
    SetEventNotificationMode true CLASS_PREPARE;
    SetEventNotificationMode true CLASS_LOAD;
    SetEventNotificationMode true GARBAGE_COLLECTION_FINISH;
    SetEventNotificationMode true GARBAGE_COLLECTION_START;
    SetEventNotificationMode true CLASS_FILE_LOAD_HOOK ].

Definition JVMTI_JLOCATION_JVMBCI : Z := 1.

(** The assertion on the location format. *)
Definition check_jlocation_format (jf : Z) : outcome unit :=
  if decide (jf = JVMTI_JLOCATION_JVMBCI) then Done tt else Thrown.

(** ** Events *)

(** An event and what the virtual machine passes to its callback, or answers
    when the callback asks; a collection is reported on a thread, at a time. *)
Inductive vm_event :=
  | EvMethodEntry (class_signature method_name : string) (loaded : list class)
  | EvClassFileLoad (name : option string) (class_data : option bytes)
  | EvClassPrepare (klass : Z)
  | EvClassLoad (klass : Z)
  | EvCollectionStart (tid : Z) (clk : Z * Z)
  | EvCollectionFinish (tid : Z) (clk : Z * Z)
  | EvDeath.

Definition kind_of (e : vm_event) : event_kind :=
  match e with
  | EvMethodEntry _ _ _ => METHOD_ENTRY
  | EvClassFileLoad _ _ => CLASS_FILE_LOAD_HOOK
  | EvClassPrepare _ => CLASS_PREPARE
  | EvClassLoad _ => CLASS_LOAD
  | EvCollectionStart _ _ => GARBAGE_COLLECTION_START
  | EvCollectionFinish _ _ => GARBAGE_COLLECTION_FINISH
  | EvDeath => VM_DEATH
  end.

(** The agent's world, the preloaded library, the requests so far, and what was
    printed on the error stream. *)
Record vm := { vm_w : world; vm_gc : preload; vm_calls : list jvmti_call; vm_err : list string }.

Definition set_vm_w (w : world) (v : vm) : vm :=
  {| vm_w := w; vm_gc := vm_gc v; vm_calls := vm_calls v; vm_err := vm_err v |}.
Definition set_vm_gc (st : preload) (v : vm) : vm :=
  {| vm_w := vm_w v; vm_gc := st; vm_calls := vm_calls v; vm_err := vm_err v |}.
Definition add_calls (cs : list jvmti_call) (v : vm) : vm :=
  {| vm_w := vm_w v; vm_gc := vm_gc v; vm_calls := vm_calls v ++ cs; vm_err := vm_err v |}.
Definition add_err (s : list string) (v : vm) : vm :=
  {| vm_w := vm_w v; vm_gc := vm_gc v; vm_calls := vm_calls v; vm_err := vm_err v ++ s |}.

Definition newline_str : string := String newline "".

Section Vm.
Variable fuel : nat.
Variables (csv_output : bool) (ev_padding : EventRecord false -> list bytes) (pid : Z).
(** The error code of [GetClassMethods] for a class. *)
Variable GetClassMethods : Z -> Z.

(** The rest of [Agent_OnLoad]; [jf] is what [GetJLocationFormat] answers. *)
Definition OnLoad (options : option string) (file : option (list ascii)) (cwd : string) (jf : Z) (v : vm) : outcome vm :=
  w ← Agent_OnLoad fuel options file cwd (vm_w v);
  _ ← check_jlocation_format jf;
  Done (add_calls OnLoad_calls (set_vm_w w v)).

Definition GetJMethodIDs (klass : Z) (v : vm) : vm :=
  let err := GetClassMethods klass in
  if decide (err <> 0) then add_err ["GetJMethodIDs: Error in GetClassMethods: " +:+ dec err +:+ newline_str] v else v.

(** [GarbageCollectionStart] and [GarbageCollectionFinish]. *)
Definition GarbageCollection (start : bool) (tid : Z) (clk : Z * Z) (v : vm) : outcome vm :=
  match set_gc_start csv_output ev_padding pid tid start clk (vm_gc v) with
  | Some st => Done (set_vm_gc st v)
  | None => Undefined
  end.

(** The callbacks.  [MethodEntry] turns its own events off, twice. *)
Definition callback (e : vm_event) (v : vm) : outcome vm :=
  match e with
  | EvMethodEntry class_signature method_name loaded =>
      '(wanted, w) ← MethodEntry fuel class_signature method_name loaded (vm_w v);
      Done (add_calls (if wanted : bool then [] else [SetEventNotificationMode false METHOD_ENTRY;
                                                      SetEventNotificationMode false METHOD_ENTRY]) (set_vm_w w v))
  | EvClassFileLoad name class_data =>
      '(_, w) ← ClassFileLoadHook fuel name class_data (vm_w v);
      Done (set_vm_w w v)
  | EvClassPrepare klass => Done (GetJMethodIDs klass v)
  | EvClassLoad _ => Done v
  | EvCollectionStart tid clk => GarbageCollection true tid clk v
  | EvCollectionFinish tid clk => GarbageCollection false tid clk v
  | EvDeath => w ← VMDeath (vm_w v); Done (set_vm_w w v)
  end.

(** ** The virtual machine *)

(** The last mode set for a kind of event. *)
Definition last_mode (k : event_kind) (calls : list jvmti_call) : bool :=
  fold_left (fun on c => match c with
                         | SetEventNotificationMode b k' => if decide (k' = k) then b else on
                         | _ => on
                         end) calls false.

(** The callbacks last set. *)
Definition has_callback (k : event_kind) (calls : list jvmti_call) : bool :=
  fold_left (fun on c => match c with SetEventCallbacks ks => bool_decide (k ∈ ks) | _ => on end) calls false.

Definition granted (c : capability) (calls : list jvmti_call) : bool :=
  existsb (fun call => match call with AddCapabilities cs => bool_decide (c ∈ cs) | _ => false end) calls.

(** The capability an event needs. *)
Definition capability_of (k : event_kind) : option capability :=
  match k with
  | METHOD_ENTRY => Some can_generate_method_entry_events
  | GARBAGE_COLLECTION_START | GARBAGE_COLLECTION_FINISH => Some can_generate_garbage_collection_events
  | _ => None
  end.

(** Does the machine send an event, given the requests made? *)
Variable delivers : list jvmti_call -> event_kind -> bool.

(** Every event that happens, in order; those that are not delivered have no effect. *)
Definition deliver (v : vm) (e : vm_event) : outcome vm :=
  if delivers (vm_calls v) (kind_of e) then callback e v else Done v.

Fixpoint deliver_all (es : list vm_event) (v : vm) : outcome vm :=
  match es with
  | [] => Done v
  | e :: es => v ← deliver v e; deliver_all es v
  end.

(** The documented behaviour: an event is sent when it is enabled, has a
    callback and its capability was added, and only then. *)
Definition delivers_enabled : Prop := forall calls k,
  delivers calls k = last_mode k calls && has_callback k calls
                     && match capability_of k with Some c => granted c calls | None => true end.
End Vm.

(** ** [printCallTrace] *)

Section Trace.
(** The queries on methods (a method and a class are numbers) and
    [AsyncGetCallTrace], if the machine has it: the number of frames and
    the array of their methods. *)
Variable GetMethodDeclaringClass : Z -> Z.
Variable GetClassSignature : Z -> option string.
Variable GetMethodName : Z -> Z * option string.
Variable AsyncGetCallTrace : option (Z -> Z * (Z -> option Z)).

Definition MAX_DEPTH : Z := 16.

(** What is printed for a frame; printing a null string is undefined. *)
Definition print_frame (i : Z) (method_id : option Z) : outcome (list string) :=
  match method_id with
  | None => Done ["Number " +:+ dec i +:+ " frame method_id is NULL" +:+ newline_str]
  | Some m =>
      match GetClassSignature (GetMethodDeclaringClass m), GetMethodName m with
      | Some declaringClassName, (err, Some name) =>
          Done (["classname = " +:+ declaringClassName +:+ ", "]
                ++ (if decide (err <> 0)
                    then ["checkAsyncGetCallTrace: Error in GetMethodName: " +:+ dec err +:+ newline_str] else [])
                ++ ["name = " +:+ name +:+ newline_str])
      | _, _ => Undefined
      end
  end.

(** The loop over the frames from [i] on. *)
Fixpoint print_frames (n : nat) (i : Z) (frames : Z -> option Z) : outcome (list string) :=
  match n with
  | O => Done []
  | S n =>
      if decide (i < MAX_DEPTH) then
        s ← print_frame i (frames i);
        rest ← print_frames n (i + 1) frames;
        Done (s ++ rest)
      else Undefined
  end.

(** Without [AsyncGetCallTrace] a null pointer is called. *)
Definition printCallTrace : outcome (list string) :=
  match AsyncGetCallTrace with
  | None => Undefined
  | Some agct =>
      let '(num_frames, frames) := agct MAX_DEPTH in
      rest ← print_frames (Z.to_nat num_frames) 0 frames;
      Done ((if decide (num_frames <= 0)
             then ["The num_frames must be positive: " +:+ dec num_frames +:+ newline_str] else [])
            ++ ["num_frames=" +:+ dec num_frames +:+ newline_str] ++ rest)
  end.

(** A trace whose methods all have names is printed frame by frame. *)
Lemma printCallTrace_named agct num_frames frames cls name :
  AsyncGetCallTrace = Some agct -> agct MAX_DEPTH = (num_frames, frames) -> 0 < num_frames <= MAX_DEPTH ->
  (forall i, 0 <= i < num_frames -> exists m, frames i = Some m
     /\ GetClassSignature (GetMethodDeclaringClass m) = Some (cls i) /\ GetMethodName m = (0, Some (name i))) ->
  printCallTrace = Done (("num_frames=" +:+ dec num_frames +:+ newline_str)
    :: concat ((fun i => ["classname = " +:+ cls i +:+ ", "; "name = " +:+ name i +:+ newline_str])
               <$> seqZ 0 num_frames)).
Proof.
  intros HA Hf Hn Hfr. unfold printCallTrace. rewrite HA, Hf.
  assert (H : forall n i, 0 <= i -> i + Z.of_nat n = num_frames -> print_frames n i frames
    = Done (concat ((fun i => ["classname = " +:+ cls i +:+ ", "; "name = " +:+ name i +:+ newline_str]) <$> seqZ i (Z.of_nat n)))).
  { induction n as [|n IH]; intros i Hi Hin; [done|]. cbn [print_frames]. rewrite decide_True by lia.
    destruct (Hfr i) as (m & -> & Hc & Hm); [lia|]. unfold print_frame. rewrite Hc, Hm. cbn [mbind outcome_bind].
    rewrite IH by lia. cbn [mbind outcome_bind]. rewrite (seqZ_cons i) by lia.
    rewrite <- Z.add_1_r. rewrite fmap_cons. by replace (Z.pred (Z.of_nat (S n))) with (Z.of_nat n) by lia. }
  rewrite (H (Z.to_nat num_frames) 0) by lia. rewrite Z2Nat.id by lia. cbn [mbind outcome_bind].
  by rewrite decide_False by lia.
Qed.
End Trace.

(** ** Whole runs *)

(** The classes that go to the hook once the instrumentation is on: those loaded
    at the start, then every one loaded. *)
Definition starts (class_signature method_name : string) : bool :=
  bool_decide (class_signature = "Lsun/launcher/LauncherHelper;" /\ method_name = "checkAndLoadMain").

Fixpoint loads (started : bool) (es : list vm_event) : list (string * bytes) :=
  match es with
  | [] => []
  | EvMethodEntry sig name loaded :: es =>
      if negb started && starts sig name
      then ((fun k => (c_name k, c_data k)) <$> filter transformable loaded) ++ loads true es
      else loads started es
  | EvClassFileLoad (Some name) (Some data) :: es =>
      if started then (name, data) :: loads started es else loads started es
  | _ :: es => loads started es
  end.

(** The collections, as calls of the preloaded library. *)
Definition gc_op_of (e : vm_event) : option gc_op :=
  match e with
  | EvCollectionStart tid clk => Some (SetGC tid true clk)
  | EvCollectionFinish tid clk => Some (SetGC tid false clk)
  | _ => None
  end.

Definition start (w : world) : world := set_agent (set_vm_init true (w_agent w)) w.

Lemma start_id w : vm_init (w_agent w) = true -> start w = w.
Proof. destruct w as [[m c i t] p cn s]. cbn. by intros ->. Qed.

Section Runs.
Context (fuel : nat) (csv_output : bool) (gc_padding : GCRecord false -> list bytes)
        (ev_padding : EventRecord false -> list bytes) (pid : Z) (GetClassMethods : Z -> Z)
        (delivers : list jvmti_call -> event_kind -> bool) (Hdelivers : delivers_enabled delivers).

Abbreviation deliver_all' := (deliver_all fuel csv_output ev_padding pid GetClassMethods delivers).

(** The requests made so far. *)
Definition requested (started : bool) : list jvmti_call :=
  OnLoad_calls ++ if started then [SetEventNotificationMode false METHOD_ENTRY; SetEventNotificationMode false METHOD_ENTRY] else [].

(** Every event is delivered but the entry of a method after the start. *)
Lemma delivers_requested started k :
  delivers (requested started) k = negb (started && bool_decide (k = METHOD_ENTRY)).
Proof. rewrite Hdelivers. by destruct started, k. Qed.

Lemma hook_vm_init name data w new w' : ClassFileLoadHook fuel name data w = Done (new, w') ->
  vm_init (w_agent w') = vm_init (w_agent w).
Proof.
  unfold ClassFileLoadHook. destruct name as [name|], data as [data|]; try (intros [= _ <-]; done).
  destruct (negb _); [by intros [= _ <-]|]. case_decide; [by intros [= _ <-]|]. do 2 (case_decide; [by intros [= _ <-]|]).
  unfold ASMClient_new. cbn [w_connect set_agent]. destruct (w_connect w) as [|[ps|] more]; try done. cbn [mbind outcome_bind].
  destruct (command_of _); [|done]. destruct (recv_bytecode _ _) as [[b c]| |]; try done. by intros [= _ <-].
Qed.

Lemma hook_run_app ks1 ks2 w : hook_run fuel (ks1 ++ ks2) w
  = ('(n1, w) ← hook_run fuel ks1 w; '(n2, w) ← hook_run fuel ks2 w; Done (n1 ++ n2, w)).
Proof.
  revert w. induction ks1 as [|[name data] ks1 IH]; intros w; cbn [app hook_run mbind outcome_bind].
  - by destruct (hook_run fuel ks2 w) as [[n2 w']| |].
  - destruct (ClassFileLoadHook fuel (Some name) (Some data) w) as [[new w1]| |]; try done. cbn [mbind outcome_bind].
    rewrite IH. destruct (hook_run fuel ks1 w1) as [[n1 w2]| |]; try done. cbn [mbind outcome_bind].
    by destruct (hook_run fuel ks2 w2) as [[n2 w3]| |].
Qed.

Lemma hook_run_vm_init ks w news w' : hook_run fuel ks w = Done (news, w') -> vm_init (w_agent w') = vm_init (w_agent w).
Proof.
  revert w news. induction ks as [|[name data] ks IH]; intros w news; cbn [hook_run]; [by intros [= _ <-]|].
  destruct (ClassFileLoadHook fuel (Some name) (Some data) w) as [[new w1]| |] eqn:Eh; try done. cbn [mbind outcome_bind].
  destruct (hook_run fuel ks w1) as [[n1 w2]| |] eqn:Er; try done. intros [= _ <-].
  rewrite (IH _ _ Er). by apply hook_vm_init in Eh.
Qed.

(** What a run amounts to: the hook on the classes of [loads], and the calls
    of the preloaded library. *)
(** Every other method leaves the agent waiting. *)
Lemma MethodEntry_other sig name loaded w : ~ (sig = "Lsun/launcher/LauncherHelper;" /\ name = "checkAndLoadMain") ->
  MethodEntry fuel sig name loaded w = Done (true, w).
Proof. intros Hno. unfold MethodEntry. case_decide; [|done]. case_decide; [tauto|done]. Qed.

Lemma deliver_all_hooks es : forall v started st news w', EvDeath ∉ es ->
  vm_calls v = requested started -> vm_init (w_agent (vm_w v)) = started ->
  gc_run csv_output gc_padding ev_padding pid (vm_gc v) (omap gc_op_of es) = Some st ->
  hook_run fuel (loads started es) (start (vm_w v)) = Done (news, w') ->
  exists v' started', deliver_all' es v = Done v' /\ vm_gc v' = st /\ start (vm_w v') = w' /\ vm_calls v' = requested started'.
Proof.
  induction es as [|e es IH]; intros v started st news w' Hnd Hcalls Hinit Hgc Hrun.
  { injection Hgc as <-. injection Hrun as _ <-. by exists v, started. }
  cbn [deliver_all]. unfold deliver. rewrite Hcalls, delivers_requested.
  assert (Hnd' : EvDeath ∉ es) by set_solver.
  destruct e as [sig name loaded|name data|k|k|tid clk|tid clk|]; cbn [kind_of bool_decide decide_rel];
    [| | | | | |set_solver].
  5-6: rewrite bool_decide_eq_false_2, andb_false_r by done; cbn [negb callback]; unfold GarbageCollection;
    unfold gc_run in Hgc; cbn [omap list_omap gc_op_of foldM pl_step] in Hgc;
    (destruct (set_gc_start _ _ _ _ _ _ _) as [st1|]; [|done]); cbn [mbind option_bind outcome_bind] in Hgc |- *;
    by apply (IH _ started st news w').
  - rewrite bool_decide_eq_true_2, andb_true_r by done. cbn [omap list_omap gc_op_of] in Hgc. cbn [loads] in Hrun.
    destruct started; cbn [negb andb] in Hrun |- *; [cbn [mbind outcome_bind]; by apply (IH v true st news w')|].
    cbn [callback]. unfold starts in Hrun.
    destruct (bool_decide_reflect (sig = "Lsun/launcher/LauncherHelper;" /\ name = "checkAndLoadMain")) as [[-> ->]|Hno].
    + unfold MethodEntry. rewrite !decide_True by done. rewrite retransform_loaded_hooks.
      rewrite hook_run_app in Hrun. fold (start (vm_w v)).
      destruct (hook_run fuel _ (start (vm_w v))) as [[n1 w1]| |] eqn:E1; try done. cbn [mbind outcome_bind] in Hrun |- *.
      destruct (hook_run fuel (loads true es) w1) as [[n2 w2]| |] eqn:E2; try done. injection Hrun as _ <-.
      pose proof (hook_run_vm_init _ _ _ _ E1) as Hi1. cbn in Hi1.
      apply (IH _ true st n2 w2); try done; cbn [vm_w vm_calls vm_gc add_calls set_vm_w].
      * rewrite Hcalls. done.
      * rewrite start_id; done.
    + rewrite MethodEntry_other by done. cbn [mbind outcome_bind]. apply (IH _ false st news w'); try done. cbn. by rewrite Hcalls, app_nil_r.
  - rewrite bool_decide_eq_false_2, andb_false_r by done. cbn [negb callback]. cbn [omap list_omap gc_op_of] in Hgc.
    cbn [loads] in Hrun.
    assert (Hidle : ClassFileLoadHook fuel name data (vm_w v) = Done (None, vm_w v) -> loads started (EvClassFileLoad name data :: es) = loads started es ->
      exists v' started', (v ← ('(_, w) ← ClassFileLoadHook fuel name data (vm_w v); Done (set_vm_w w v)); deliver_all' es v) = Done v'
        /\ vm_gc v' = st /\ start (vm_w v') = w' /\ vm_calls v' = requested started').
    { intros Eh El. rewrite Eh. cbn [mbind outcome_bind]. cbn [loads] in El. rewrite El in Hrun.
      apply (IH _ started st news w'); done. }
    destruct name as [name|], data as [data|]; try (by apply Hidle). destruct started; [|apply Hidle; [|done]].
    + cbn [hook_run] in Hrun. rewrite start_id in Hrun by done.
      destruct (ClassFileLoadHook fuel (Some name) (Some data) (vm_w v)) as [[new w1]| |] eqn:Eh; try done.
      cbn [mbind outcome_bind] in Hrun |- *.
      destruct (hook_run fuel (loads true es) w1) as [[n2 w2]| |] eqn:E2; try done. injection Hrun as _ <-.
      apply hook_vm_init in Eh. apply (IH _ true st n2 w2); try done; cbn [vm_w set_vm_w]; [congruence|].
      rewrite start_id; [done|congruence].
    + unfold ClassFileLoadHook. by rewrite Hinit.
  - rewrite bool_decide_eq_false_2, andb_false_r by done. cbn [negb callback mbind outcome_bind].
    apply (IH _ started st news w'); try done; unfold GetJMethodIDs; case_decide; done.
  - rewrite bool_decide_eq_false_2, andb_false_r by done. cbn [negb callback mbind outcome_bind].
    by apply (IH _ started st news w').
Qed.
End Runs.

Lemma parse_args_keeps args file a a' : parse_args args file a = Done a' ->
  vm_init a' = vm_init a /\ transformed_classes a' = transformed_classes a.
Proof.
  unfold parse_args. case_decide; [by intros [= <-]|]. case_decide; [|case_decide; by intros [= <-]].
  destruct file as [f|]; [|done]. destruct (read_candidates _ _ _) as [cs| |]; try done.
  cbn [mbind outcome_bind]. intros [= <-]. by case_decide.
Qed.

Lemma hook_run_pid fuel ks w news w' : hook_run fuel ks w = Done (news, w') -> w_pid w' = w_pid w.
Proof.
  revert w news. induction ks as [|[name data] ks IH]; intros w news; cbn [hook_run]; [by intros [= _ <-]|].
  destruct (ClassFileLoadHook fuel (Some name) (Some data) w) as [[new w1]| |] eqn:Eh; try done. cbn [mbind outcome_bind].
  destruct (hook_run fuel ks w1) as [[n1 w2]| |] eqn:Er; try done. intros [= _ <-]. rewrite (IH _ _ Er).
  revert Eh. unfold ClassFileLoadHook. destruct (negb _); [by intros [= _ <-]|]. do 3 (case_decide; [by intros [= _ <-]|]).
  unfold ASMClient_new. cbn [w_connect set_agent]. destruct (w_connect w) as [|[ps|] more]; try done. cbn [mbind outcome_bind].
  destruct (command_of _); [|done]. destruct (recv_bytecode _ _) as [[b c]| |]; try done. by intros [= _ <-].
Qed.

Section Session.
Context (fuel : nat) (csv_output : bool) (gc_padding : GCRecord false -> list bytes)
        (ev_padding : EventRecord false -> list bytes) (pid : Z) (GetClassMethods : Z -> Z)
        (delivers : list jvmti_call -> event_kind -> bool) (Hdelivers : delivers_enabled delivers).

(** The messages, byte by byte: the process id and the command, then blocks of
    bytes with their lengths. *)
Definition block (b : bytes) : bytes := le_enc 4 (Z.of_nat (length b)) ++ b.

Definition hello_message (cwd : string) : bytes := le_enc 4 pid ++ le_enc 4 0 ++ block (str_bytes cwd).

Definition class_message (command : Z) (k : string * bytes) : bytes :=
  le_enc 4 pid ++ le_enc 4 command ++ block (str_bytes k.1) ++ block k.2.

Definition exit_message : bytes := le_enc 4 pid ++ le_enc 4 5.

Lemma hello_sent cwd c : Client.pid c = pid -> sent c = [] -> sent (send_str cwd (send_header HELLO c)) = hello_message cwd.
Proof.
  intros Hp Hs. unfold send_str, send_with_len, send_header, send_int, with_sent. cbn [sent Client.pid].
  rewrite Hs, Hp. cbn [app]. by rewrite <- !app_assoc.
Qed.

Lemma request_bytes_message command k : request_bytes pid command k = class_message command k.
Proof.
  unfold request_bytes, send_bytecode, send_str, send_with_len, send_header, send_int, with_sent. cbn [sent Client.pid app].
  by rewrite <- !app_assoc.
Qed.

(** The machine starts, [es] happens, and it ends. *)
Definition session (options : option string) (file : option (list ascii)) (cwd : string) (jf : Z) (es : list vm_event)
    (v : vm) : outcome vm :=
  v ← OnLoad fuel options file cwd jf v;
  deliver_all fuel csv_output ev_padding pid GetClassMethods delivers (es ++ [EvDeath]) v.

(** C10: The whole life of the agent: the server gets the greeting, then one
    request for each class to instrument, in order, and the exit message, and
    nothing else.  The classes to instrument are, when the launcher first
    enters [checkAndLoadMain], those already loaded that are modifiable and
    whose signature does not start with [Ljava/lang/invoke], and afterwards
    each class loaded with a name and a class file ([loads]); of each name
    only the first such load counts, and it is passed over when its name or
    its class file is empty ([to_send]).  The preloaded library gets the start
    and end of each collection, in order. *)
Theorem session_requests options file cwd es tids w m a command hello pss last_ps os rest :
  parse_args options file agent_new = Done a -> command_of (mode a) = Some command ->
  Forall packet_ok hello -> stream_of hello = Some (le_enc 4 0 ++ rest) -> (4 <= fuel)%nat ->
  EvDeath ∉ es ->
  (forall tid, tid ∈ tids -> names_free (R := GCRecord false) w tid pid /\
                        names_free (R := EventRecord false) w tid pid) ->
  Forall (fun o => op_tid o ∈ (tids : gset Z)) (omap gc_op_of es) ->
  Forall2 (answers fuel) pss os -> length pss = length (to_send ∅ (loads false es)) ->
  let v := {| vm_w := {| w_agent := agent_new; w_pid := pid;
                         w_connect := Some hello :: (Some <$> pss) ++ [Some last_ps]; w_sessions := [] |};
              vm_gc := preload_new w m; vm_calls := []; vm_err := [] |} in
  exists v', session (Some options) file cwd JVMTI_JLOCATION_JVMBCI es v = Done v' /\
    w_sessions (vm_w v') = [hello_message cwd] ++ (class_message command <$> to_send ∅ (loads false es)) ++ [exit_message] /\
    NoDup (to_send ∅ (loads false es)).*1 /\
    gc_run csv_output gc_padding ev_padding pid (preload_new w m) (omap gc_op_of es) = Some (vm_gc v').
Proof.
  intros Hargs Hmode Hhok Hhello Hfuel Hnd Hnames Htids Hans Hlen v.
  destruct (parse_args_keeps _ _ _ _ Hargs) as [Hinit Htr].
  destruct (gc_run_rep csv_output gc_padding ev_padding pid tids w m (omap gc_op_of es) Hnames Htids) as (st & Hgc & _).
  unfold session, OnLoad, Agent_OnLoad. cbn [vm_w v w_agent]. rewrite Hargs. cbn [mbind outcome_bind].
  unfold ASMClient_new. cbn [w_connect set_agent mbind outcome_bind w_pid]. unfold send_hello.
  destruct (recv_int_spec fuel (send_str cwd (send_header HELLO {| Client.pid := pid; sent := []; incoming := hello |})) 0 rest)
    as (c & Hrecv & _ & _ & _ & Hsent); [done|done|done|done|].
  rewrite Hrecv. cbn [mbind outcome_bind]. rewrite decide_True by done. cbn [mbind outcome_bind].
  unfold check_jlocation_format. rewrite decide_True by done. cbn [mbind outcome_bind].
  unfold ASMClient_delete. cbn [w_agent w_pid w_connect w_sessions app]. rewrite Hsent, (hello_sent cwd) by done.
  set (w1 := {| w_agent := a; w_pid := pid; w_connect := (Some <$> pss) ++ [Some last_ps]; w_sessions := [hello_message cwd] |}).
  set (v1 := add_calls OnLoad_calls (set_vm_w w1 v)).
  match goal with |- context [deliver_all _ _ _ _ _ _ (es ++ _) ?x] => change x with v1 end.
  destruct (hook_run_spec fuel (loads false es) (start w1) command pss [Some last_ps] os) as (news & w2 & Hrun & Hs & _ & Hc);
    [done|done|done|done|cbn; by rewrite Htr|].
  destruct (deliver_all_hooks fuel csv_output gc_padding ev_padding pid GetClassMethods delivers Hdelivers
              es v1 false st news w2) as (v2 & started & Hdel & Hgc2 & Hw2 & Hcalls); try done.
  assert (Hp2 : w_pid (vm_w v2) = pid).
  { transitivity (w_pid w2); [by rewrite <- Hw2|]. by rewrite (hook_run_pid _ _ _ _ _ Hrun). }
  assert (Hc2 : w_connect (vm_w v2) = [Some last_ps]) by by rewrite <- Hc, <- Hw2.
  assert (Hs2 : w_sessions (vm_w v2) = w_sessions w2) by by rewrite <- Hw2.
  assert (Happ : forall es2 x, deliver_all fuel csv_output ev_padding pid GetClassMethods delivers (es ++ es2) x
     = (x ← deliver_all fuel csv_output ev_padding pid GetClassMethods delivers es x;
        deliver_all fuel csv_output ev_padding pid GetClassMethods delivers es2 x)).
  { clear. induction es as [|e es IH]; intros es2 x; [done|]. cbn [app deliver_all].
    destruct (deliver _ _ _ _ _ _ _ _) as [y| |]; try done. cbn [mbind outcome_bind]. apply IH. }
  rewrite Happ, Hdel. cbn [mbind outcome_bind deliver_all]. unfold deliver. cbn [kind_of].
  rewrite Hcalls, delivers_requested by done. rewrite bool_decide_eq_false_2, andb_false_r by done. cbn [negb callback].
  unfold VMDeath, ASMClient_new. rewrite Hc2, Hp2. cbn [mbind outcome_bind]. eexists. split; [done|].
  cbn [vm_w set_vm_w ASMClient_delete w_sessions vm_gc]. split; [|split; [apply to_send_names|by rewrite Hgc2]].
  rewrite Hs2, Hs. cbn [start set_agent w_sessions w1 w_pid w_agent set_vm_init transformed_classes]. rewrite Htr, <- app_assoc.
  rewrite <- (list_fmap_ext (request_bytes pid command) (class_message command) (to_send ∅ (loads false es)));
    [done|]. intros _ k _. apply request_bytes_message.
Qed.
End Session.

(** ** Witness *)

Definition documented (calls : list jvmti_call) (k : event_kind) : bool :=
  last_mode k calls && has_callback k calls && match capability_of k with Some c => granted c calls | None => true end.

(** A class loaded before the start is not sent; one of the two loaded at the
    start cannot be changed; a class is loaded after the start, twice; the
    launcher method is entered again. *)
Definition w_events : list vm_event :=
  [ EvClassFileLoad (Some "A") (Some [1]); EvClassPrepare 4;
    EvMethodEntry "Lsun/launcher/LauncherHelper;" "checkAndLoadMain" w_loaded;
    EvCollectionStart 3 (1, 0); EvClassFileLoad (Some "B") (Some [6]); EvClassFileLoad (Some "B") (Some [7]);
    EvMethodEntry "Lsun/launcher/LauncherHelper;" "checkAndLoadMain" w_loaded; EvCollectionFinish 3 (2, 0) ].

Lemma session_requests_witness :
  exists v', session 6 false zero_padding 5 (fun _ => 0) documented (Some "base") None "/x" 1 w_events
    {| vm_w := {| w_agent := agent_new; w_pid := 5;
                  w_connect := [Some [Data [0; 0]; Data [0; 0]]; Some w_packets; Some w_packets; Some []]; w_sessions := [] |};
       vm_gc := preload_new empty_fs id; vm_calls := []; vm_err := [] |} = Done v' /\
    w_sessions (vm_w v') = [[5;0;0;0; 0;0;0;0; 2;0;0;0; 47;120]; [5;0;0;0; 1;0;0;0; 1;0;0;0; 65; 1;0;0;0; 1];
                            [5;0;0;0; 1;0;0;0; 1;0;0;0; 66; 1;0;0;0; 6]; [5;0;0;0; 5;0;0;0]].
Proof.
  destruct (session_requests 6 false zero_padding zero_padding 5 (fun _ => 0) documented (fun _ _ => eq_refl)
    "base" None "/x" w_events {[3]} empty_fs id (set_mode BASEMODE agent_new) 1 [Data [0; 0]; Data [0; 0]]
    [w_packets; w_packets] [] [Some [7; 8]; Some [7; 8]] [])
    as (v' & Hrun & Hs & _); try reflexivity.
  - apply (bool_decide_unpack _). vm_compute. exact I.
  - simpl. lia.
  - unfold w_events. intros Hin. repeat (apply elem_of_cons in Hin as [Hin|Hin]; [discriminate|]). by apply not_elem_of_nil in Hin.
  - intros t _. split; apply names_free_empty.
  - apply (bool_decide_unpack _). vm_compute. exact I.
  - constructor; [apply w_answers|constructor; [apply w_answers|constructor]].
  - exists v'. split; [exact Hrun|]. rewrite Hs. vm_compute. reflexivity.
Defined.
