(* ===== verification/Native.v ===== *)
(** * [native/native.cpp]: the JNI entry points

    Every entry point is a computation on the state of the calling thread
    (the [thread_local] variables) and of the process (the statics, the
    tags the virtual machine keeps).  The recorders are behind the
    interface [Sink], so the same handlers run on files ([NativeLog]) and on
    plain logs; the tool interface of the virtual machine is the parameter
    [JVMTI] with the laws its documentation states. *)

From Stdlib Require Import Ascii.
From S2P Require Import Prelude Layout Records.

(** ** The recorders of a thread *)

(** The thread-local recorders, in the order of their declarations; the
    three digits of [fieldValueRecord0101] and its like are arguments. *)
Inductive recorder_id :=
| putFieldRecoreder | newRecoreder | constructRecoreder | aaStoreRecoreder
| useRecorder | freeRecorder
| listAndSetRecord | mapRecord | containerLineInfoRecorder
| fieldValueRecord (is_put val_len is_float : bool)
| stringFieldValueRecord (is_put : bool)
| staticFieldValueRecord (is_put val_len is_float : bool)
| staticStringFieldValueRecord (is_put : bool).

#[export] Instance recorder_id_eq_dec : EqDecision recorder_id.
Proof. solve_decision. Defined.

Definition record_of (id : recorder_id) : Type :=
  match id with
  | putFieldRecoreder => PutFieldRecord false
  | newRecoreder => NewRecord false
  | constructRecoreder => ConstructRecord false
  | aaStoreRecoreder => AAStoreRecord false
  | useRecorder => UseRecord false
  | freeRecorder => FreeRecord false
  | listAndSetRecord => ListAndSetRecord false
  | mapRecord => MapRecord false
  | containerLineInfoRecorder => ContainerLineInfoRecord
  | fieldValueRecord p v f => FieldValueRecord false p v f
  | stringFieldValueRecord p => StringFieldValueRecord false p
  | staticFieldValueRecord p v f => StaticFieldValueRecord false p v f
  | staticStringFieldValueRecord p => StaticStringFieldValueRecord false p
  end.

#[export] Instance record_of_type id : RecordType (record_of id) :=
  match id with
  | putFieldRecoreder => _ | newRecoreder => _ | constructRecoreder => _
  | aaStoreRecoreder => _ | useRecorder => _ | freeRecorder => _
  | listAndSetRecord => _ | mapRecord => _ | containerLineInfoRecorder => _
  | fieldValueRecord p v f => _ | stringFieldValueRecord p => _
  | staticFieldValueRecord p v f => _ | staticStringFieldValueRecord p => _
  end.

#[export] Instance record_of_laws id : RecordLaws (record_of id).
Proof. destruct id; simpl; apply _. Qed.

Definition LIMIT : Z := Z.shiftl 1 12.

(** ** The interfaces *)

(** Where records go: [L] is the thread's own part, [W] what threads
    share. *)
Class Sink (L W : Type) := {
  sink_add (id : recorder_id) (r : record_of id) : L -> W -> option (L * W);
  sink_addString (id : recorder_id) (s : string) : L -> W -> option (L * W);
}.

(** Objects, and references to them: [None] is NULL. *)
Abbreviation object := positive.
Abbreviation jobject := (option positive).

(** The part of JVMTI the library calls: [GetEnv] makes a new environment;
    each environment has its own tag for each object. *)
Class JVMTI (J : Type) := {
  GetEnv : J -> Z * J;
  GetTag : Z -> object -> J -> Z;
  SetTag : Z -> object -> Z -> J -> J;
  environments : J -> gset Z;
}.

(** "Each call creates a new environment"; "the tag of an untagged object is
    zero"; tags are per environment and per object. *)
Class JVMTILaws (J : Type) `{JVMTI J} := {
  GetEnv_fresh (j : J) : (GetEnv j).1 ∉ environments j;
  GetEnv_environments (j : J) : environments (GetEnv j).2 = {[(GetEnv j).1]} ∪ environments j;
  GetEnv_untagged (j : J) o : GetTag (GetEnv j).1 o (GetEnv j).2 = 0;
  GetEnv_GetTag (j : J) e o : e ∈ environments j -> GetTag e o (GetEnv j).2 = GetTag e o j;
  SetTag_environments e o t (j : J) : environments (SetTag e o t j) = environments j;
  SetTag_GetTag e o t (j : J) : e ∈ environments j -> GetTag e o (SetTag e o t j) = t;
  SetTag_GetTag_ne e o t e' o' (j : J) : (e', o') <> (e, o) ->
    GetTag e' o' (SetTag e o t j) = GetTag e' o' j;
}.

(** ** Tags *)

Definition NOT_SAMPLED_MASK : Z := i64 (Z.shiftl 1 63).

Definition is_sampled_object (tag : Z) : bool :=
  bool_decide (tag <> 0) && negb (bool_decide (Z.land tag NOT_SAMPLED_MASK <> 0))
  && bool_decide (tag <> -1).

(** ** The sampling frequency *)

Definition is_space (c : ascii) : bool :=
  let n := nat_of_ascii c in bool_decide (n = 32 \/ 9 <= n <= 13)%nat.

Definition digit_of (c : ascii) : option Z :=
  let n := Z.of_nat (nat_of_ascii c) in
  if decide (48 <= n <= 57) then Some (n - 48) else None.

Fixpoint atoi_digits (acc : Z) (s : string) : Z :=
  match s with
  | String c s' => match digit_of c with Some d => atoi_digits (acc * 10 + d) s' | None => acc end
  | EmptyString => acc
  end.

(** [atoi]: blanks, a sign, digits; [strtol] saturates and the result is
    converted to [int]. *)
Fixpoint atoi (s : string) : Z :=
  match s with
  | EmptyString => 0
  | String c s' =>
      if is_space c then atoi s'
      else i32 (Z.max (- 2 ^ 63) (Z.min (2 ^ 63 - 1)
             (if decide (c = "-"%char) then - atoi_digits 0 s'
              else if decide (c = "+"%char) then atoi_digits 0 s'
              else atoi_digits 0 s)))
  end.

(** The value of the environment variable [JLITE_SAMPLING_FREQ], if set. *)
Definition sampling_freq (env : option string) : Z :=
  match env with Some s => atoi s | None => 1000 end.

(** [1./sampling_freq < rand()/(RAND_MAX+1.)] with [RAND_MAX] = 2^31 - 1:
    the quotient on the right is exact; the rounding of the one on the left
    does not change the comparison, its relative error being below 2^-52
    and the two sides differing by a relative 2^-31 when they differ.
    1/0 is an infinity. *)
Definition skips (freq r : Z) : bool :=
  if decide (freq = 0) then false
  else if decide (freq < 0) then true
  else bool_decide (2 ^ 31 < r * freq).

(** ** Calls

    The entry points that may record, as data; the value a call returns is
    dropped here. *)
Inductive call :=
| PutFieldRecord_call (holder_addr ref_addr : Z) (line class_name_id field_id : Z)
| NewRecord_call (addr : Z) (obj_typeid line class_name_id : Z) (obj_size : Z)
| ConstructRecord_call (addr : Z) (obj_typeid line class_name_id : Z)
| AASTORERecord_call (holder_addr : Z) (index : Z) (ref_addr : Z) (line class_name_id : Z)
| UseRecord_call (type : Z) (addr : Z) (line class_name_id : Z)
| FreeRecord_call (addr obj_size : Z)
| FieldValueRecordJint_call (addr : Z) (value line class_name_id field_id : Z) (is_put : bool)
| FieldValueRecordJlong_call (addr value : Z) (line class_name_id field_id : Z) (is_put : bool)
| FieldValueRecordJfloat_call (addr value : Z) (line class_name_id field_id : Z) (is_put : bool)
| FieldValueRecordJdouble_call (addr value : Z) (line class_name_id field_id : Z) (is_put : bool)
| FieldValueRecordJstring_call (addr : Z) (value : string) (line class_name_id field_id : Z) (is_put : bool)
| StaticFieldValueRecordJint_call (value line class_name_id field_id : Z) (is_put : bool)
| StaticFieldValueRecordJlong_call (value : Z) (line class_name_id field_id : Z) (is_put : bool)
| StaticFieldValueRecordJfloat_call (value line class_name_id field_id : Z) (is_put : bool)
| StaticFieldValueRecordJdouble_call (value : Z) (line class_name_id field_id : Z) (is_put : bool)
| StaticFieldValueRecordJstring_call (value : string) (line class_name_id field_id : Z) (is_put : bool)
| ContainerRecordList15_call (retobj holder : jobject) (idx_or_succ size cid copid : Z)
| ContainerRecordList6_call (holder : jobject) (idx : Z) (ref : jobject) (size cid copid : Z)
| ContainerRecordList4_call (holder : jobject) (size cid copid : Z)
| ContainerRecordListI5_call (idx : Z) (holder ref : jobject) (size cid copid : Z)
| ContainerRecordList14_call (retobj holder : jobject) (size cid copid : Z)
| ContainerRecordList5_call (retobj : Z) (holder ref : jobject) (size cid copid : Z)
| ContainerRecordMap15_call (retobj holder key : jobject) (size cid copid : Z)
| ContainerRecordMap4_call (holder : jobject) (size cid copid : Z)
| ContainerRecordMap5_call (holder map : jobject) (size cid copid : Z)
| ContainerRecordMap16_call (retobj holder key value : jobject) (size cid copid : Z)
| ContainerLineInfoRecord_call (line class_name_id : Z)
| DecreaseContainerFilterFlag_call
| UnsetIsRightAfter_call
| EnableRecord_call
| DisableRecord_call
| EnablePrintNew_call
| DisablePrintNew_call
| GetPrintNew_call
| TagNewRecord_call (obj : jobject) (obj_typeid line class_name_id : Z) (obj_size : Z)
| TagConstructRecord_call (obj : jobject) (obj_typeid line class_name_id : Z)
| TagPutFieldRecord_call (holder ref : jobject) (line class_name_id field_id : Z)
| TagAASTORERecord_call (holder : jobject) (index : Z) (ref : jobject) (line class_name_id : Z)
| TagUseRecord_call (type : Z) (obj : jobject) (line class_name_id : Z).

(** Arguments in the range of [jint] where the code stores them as they
    are. *)
Definition call_ok (c : call) : Prop :=
  match c with
  | PutFieldRecord_call _ _ _ _ field_id => in_s 32 field_id
  | NewRecord_call _ obj_typeid _ _ _ => in_s 32 obj_typeid
  | ConstructRecord_call _ obj_typeid _ _ => in_s 32 obj_typeid
  | AASTORERecord_call _ index _ _ _ => in_s 32 index
  | TagNewRecord_call _ obj_typeid _ _ _ => in_s 32 obj_typeid
  | TagConstructRecord_call _ obj_typeid _ _ => in_s 32 obj_typeid
  | TagPutFieldRecord_call _ _ _ _ field_id => in_s 32 field_id
  | TagAASTORERecord_call _ index _ _ _ => in_s 32 index
  | _ => True
  end.

Section Handlers.
Context {L W J : Type} `{Sink L W} `{JVMTI J}.

(** The successive results of [clock_gettime] and of [rand], and what a read
    of the uninitialised [local_tag] of each call of [get_tag] gives: [None]
    when the read is undefined, as it is for the language, or the value that
    a machine happens to find on its stack. *)
Variables (clock : nat -> Z * Z) (rand : nat -> Z) (stack : nat -> option Z).
Variable freq : Z.

(** ** State *)

Record thread := {
  t_sink : L;
  stringMap : gmap string Z;
  is_right_after : bool;
  enable : bool;
  is_sampled_container : bool;
  enablePrintNEW : bool;
  local_jvmti_env : option Z;
}.

Record process := {
  p_sink : W;
  p_jvm : J;
  jvmti_env : list Z;
  global_tag : Z;
  new_called : bool;
  clock_reads : nat;
  rand_calls : nat;
  tag_reads : nat;
}.

Definition new_thread (l : L) : thread :=
  {| t_sink := l; stringMap := ∅; is_right_after := false; enable := true;
     is_sampled_container := true; enablePrintNEW := true; local_jvmti_env := None |}.

Definition new_process (w : W) (j : J) : process :=
  {| p_sink := w; p_jvm := j; jvmti_env := []; global_tag := 10; new_called := false;
     clock_reads := 0; rand_calls := 0; tag_reads := 0 |}.

(** Computations; [None] is undefined behaviour. *)
Definition M (A : Type) : Type := thread -> process -> option (A * (thread * process)).

#[export] Instance M_ret : MRet M := fun A a th pr => Some (a, (th, pr)).
#[export] Instance M_bind : MBind M := fun A B f m th pr =>
  match m th pr with Some (a, (th, pr)) => f a th pr | None => None end.

Definition gets {A} (f : thread -> A) : M A := fun th pr => Some (f th, (th, pr)).
Definition pgets {A} (f : process -> A) : M A := fun th pr => Some (f pr, (th, pr)).
Definition modify (f : thread -> thread) : M unit := fun th pr => Some (tt, (f th, pr)).
Definition pmodify (f : process -> process) : M unit := fun th pr => Some (tt, (th, f pr)).
Definition require {A} (o : option A) : M A := fun th pr =>
  match o with Some a => Some (a, (th, pr)) | None => None end.

Definition set_right_after b th := {|
  t_sink := t_sink th; stringMap := stringMap th; is_right_after := b; enable := enable th;
  is_sampled_container := is_sampled_container th; enablePrintNEW := enablePrintNEW th;
  local_jvmti_env := local_jvmti_env th |}.
Definition set_enable b th := {|
  t_sink := t_sink th; stringMap := stringMap th; is_right_after := is_right_after th; enable := b;
  is_sampled_container := is_sampled_container th; enablePrintNEW := enablePrintNEW th;
  local_jvmti_env := local_jvmti_env th |}.
Definition set_sampled_container b th := {|
  t_sink := t_sink th; stringMap := stringMap th; is_right_after := is_right_after th;
  enable := enable th; is_sampled_container := b; enablePrintNEW := enablePrintNEW th;
  local_jvmti_env := local_jvmti_env th |}.
Definition set_printNEW b th := {|
  t_sink := t_sink th; stringMap := stringMap th; is_right_after := is_right_after th;
  enable := enable th; is_sampled_container := is_sampled_container th; enablePrintNEW := b;
  local_jvmti_env := local_jvmti_env th |}.
Definition set_stringMap m th := {|
  t_sink := t_sink th; stringMap := m; is_right_after := is_right_after th;
  enable := enable th; is_sampled_container := is_sampled_container th;
  enablePrintNEW := enablePrintNEW th; local_jvmti_env := local_jvmti_env th |}.
Definition set_local_env e th := {|
  t_sink := t_sink th; stringMap := stringMap th; is_right_after := is_right_after th;
  enable := enable th; is_sampled_container := is_sampled_container th;
  enablePrintNEW := enablePrintNEW th; local_jvmti_env := e |}.
Definition set_t_sink l th := {|
  t_sink := l; stringMap := stringMap th; is_right_after := is_right_after th;
  enable := enable th; is_sampled_container := is_sampled_container th;
  enablePrintNEW := enablePrintNEW th; local_jvmti_env := local_jvmti_env th |}.

Definition set_p_sink w pr := {|
  p_sink := w; p_jvm := p_jvm pr; jvmti_env := jvmti_env pr; global_tag := global_tag pr;
  new_called := new_called pr; clock_reads := clock_reads pr; rand_calls := rand_calls pr;
  tag_reads := tag_reads pr |}.
Definition set_jvm j pr := {|
  p_sink := p_sink pr; p_jvm := j; jvmti_env := jvmti_env pr; global_tag := global_tag pr;
  new_called := new_called pr; clock_reads := clock_reads pr; rand_calls := rand_calls pr;
  tag_reads := tag_reads pr |}.
Definition set_envs es j pr := {|
  p_sink := p_sink pr; p_jvm := j; jvmti_env := es; global_tag := global_tag pr;
  new_called := new_called pr; clock_reads := clock_reads pr; rand_calls := rand_calls pr;
  tag_reads := tag_reads pr |}.
Definition set_global_tag t pr := {|
  p_sink := p_sink pr; p_jvm := p_jvm pr; jvmti_env := jvmti_env pr; global_tag := t;
  new_called := new_called pr; clock_reads := clock_reads pr; rand_calls := rand_calls pr;
  tag_reads := tag_reads pr |}.
Definition set_new_called b pr := {|
  p_sink := p_sink pr; p_jvm := p_jvm pr; jvmti_env := jvmti_env pr; global_tag := global_tag pr;
  new_called := b; clock_reads := clock_reads pr; rand_calls := rand_calls pr;
  tag_reads := tag_reads pr |}.
Definition tick_clock pr := {|
  p_sink := p_sink pr; p_jvm := p_jvm pr; jvmti_env := jvmti_env pr; global_tag := global_tag pr;
  new_called := new_called pr; clock_reads := S (clock_reads pr); rand_calls := rand_calls pr;
  tag_reads := tag_reads pr |}.
Definition tick_rand pr := {|
  p_sink := p_sink pr; p_jvm := p_jvm pr; jvmti_env := jvmti_env pr; global_tag := global_tag pr;
  new_called := new_called pr; clock_reads := clock_reads pr; rand_calls := S (rand_calls pr);
  tag_reads := tag_reads pr |}.
Definition tick_tag pr := {|
  p_sink := p_sink pr; p_jvm := p_jvm pr; jvmti_env := jvmti_env pr; global_tag := global_tag pr;
  new_called := new_called pr; clock_reads := clock_reads pr; rand_calls := rand_calls pr;
  tag_reads := S (tag_reads pr) |}.

(** ** Primitives *)

(** [nanotime()] of [recorder.hpp]. *)
Definition now : M Z :=
  n ← pgets clock_reads;
  _ ← pmodify tick_clock;
  mret (nanotime (clock n).1 (clock n).2).

Definition rand_ : M Z := n ← pgets rand_calls; _ ← pmodify tick_rand; mret (rand n).

Definition uninitialised : M (option Z) := n ← pgets tag_reads; _ ← pmodify tick_tag; mret (stack n).

(** [recorder.add(r)] and [recorder.addString(s)]. *)
Definition add (id : recorder_id) (r : record_of id) : M unit := fun th pr =>
  match sink_add id r (t_sink th) (p_sink pr) with
  | Some (l, w) => Some (tt, (set_t_sink l th, set_p_sink w pr))
  | None => None
  end.

Definition addString (id : recorder_id) (s : string) : M unit := fun th pr =>
  match sink_addString id s (t_sink th) (p_sink pr) with
  | Some (l, w) => Some (tt, (set_t_sink l th, set_p_sink w pr))
  | None => None
  end.

(** ** The virtual machine *)

Definition JVMTI_BUCKET_SIZE : nat := 1024.

(** [n] calls of [GetEnv] (which the library assumes to succeed). *)
Fixpoint get_envs (n : nat) (j : J) : list Z * J :=
  match n with
  | O => ([], j)
  | S n => let '(e, j) := GetEnv j in let '(es, j) := get_envs n j in (e :: es, j)
  end.

#[global] Arguments get_envs : simpl never.

Definition jvmti_valid (pr : process) : bool := bool_decide (jvmti_env pr <> []).

Definition init_jvmti : M unit :=
  valid ← pgets jvmti_valid;
  _ ← (if negb valid then
         pmodify (fun pr => let '(es, j) := get_envs (JVMTI_BUCKET_SIZE + 1) (p_jvm pr) in
                            set_envs es j pr)
       else mret tt);
  local ← gets local_jvmti_env;
  match local with
  | Some _ => mret tt
  | None =>
      '(e, j) ← pgets (fun pr => GetEnv (p_jvm pr));
      _ ← pmodify (set_jvm j);
      modify (set_local_env (Some e))
  end.

(** [env->GetTag(obj, &var)]: an error for NULL leaves the variable as it
    is, set or not. *)
Definition env_GetTag (env : Z) (obj : jobject) (var : option Z) : M (option Z) :=
  match obj with
  | Some o => pgets (fun pr => Some (GetTag env o (p_jvm pr)))
  | None => mret var
  end.

Definition env_SetTag (env : Z) (obj : jobject) (tag : Z) : M unit :=
  match obj with
  | Some o => pmodify (fun pr => set_jvm (SetTag env o tag (p_jvm pr)) pr)
  | None => mret tt
  end.

(** Dereferences of [local_jvmti_env] and [jvmti_env[0]]. *)
Definition local_env : M Z := e ← gets local_jvmti_env; require e.
Definition global_env : M Z := es ← pgets jvmti_env; require (head es).

Definition get_tag (obj : jobject) : M Z :=
  local ← local_env;
  var ← uninitialised;
  var ← env_GetTag local obj var;
  local_tag ← require var;
  if decide (local_tag <> 0) then mret local_tag
  else
    global ← global_env;
    var ← env_GetTag global obj (Some local_tag);
    local_tag ← require var;
    if decide (local_tag <> 0) then
      _ ← env_SetTag local obj local_tag;
      mret local_tag
    else
      _ ← env_SetTag local obj (-1);
      mret (-1).

Definition set_tag (obj : jobject) (tag : Z) : M unit :=
  local ← local_env;
  _ ← env_SetTag local obj tag;
  global ← global_env;
  env_SetTag global obj tag.

(** [global_tag++] on an [atomic<long>]. *)
Definition next_tag : M Z :=
  t ← pgets global_tag;
  _ ← pmodify (set_global_tag (i64 (t + 1)));
  mret t.

(** ** Entry points: plain records

    A [jlong] or [jint] argument is its value; an assignment to a narrower
    or unsigned member converts it. *)

Definition compressed (addr : Z) : Z := u32 (Z.shiftr addr 3).

Definition addPutFieldRecord (holder_addr ref_addr line class_name_id field_id : Z) : M unit :=
  time ← now;
  add putFieldRecoreder
    {| pf_time := time; pf_holder_addr := compressed holder_addr; pf_ref_addr := compressed ref_addr;
       pf_field_id := field_id; pf_line := u16 line; pf_class_name_id := u16 class_name_id |}.

Definition addNewRecord (addr obj_typeid line class_name_id obj_size : Z) : M unit :=
  time ← now;
  add newRecoreder
    {| nw_time := time; nw_addr := compressed addr; nw_obj_typeid := obj_typeid;
       nw_line := u16 line; nw_class_name_id := u16 class_name_id; nw_obj_size := u32 obj_size |}.

Definition addConstructRecord (addr obj_typeid line class_name_id : Z) : M unit :=
  time ← now;
  add constructRecoreder
    {| co_time := time; co_addr := compressed addr; co_obj_typeid := obj_typeid;
       co_line := u16 line; co_class_name_id := u16 class_name_id |}.

Definition addAASTORERecord (holder_addr index ref_addr line class_name_id : Z) : M unit :=
  time ← now;
  add aaStoreRecoreder
    {| aa_time := time; aa_holder_addr := compressed holder_addr; aa_index := index;
       aa_ref_addr := compressed ref_addr; aa_line := u16 line;
       aa_class_name_id := u16 class_name_id |}.

Definition addUseRecord (type addr line class_name_id : Z) : M unit :=
  time ← now;
  add useRecorder
    {| us_type := u16 type; us_time := time; us_addr := compressed addr;
       us_line := u16 line; us_class_name_id := u16 class_name_id |}.

Definition addFreeRecord (addr obj_size : Z) : M unit :=
  time ← now;
  add freeRecorder {| fr_time := time; fr_addr := compressed addr; fr_obj_size := u32 obj_size |}.

(** ** Entry points: field values

    A [jfloat] or [jdouble] is its bit pattern, which is what the code
    stores. *)

Definition addFieldValueRecordJint (addr value line class_name_id field_id : Z) (is_put : bool) : M unit :=
  if is_put then
    time ← now;
    add (fieldValueRecord true false false)
      {| fv_time := time; fv_addr := compressed addr; fv_line := u16 line;
         fv_class_name_id := u16 class_name_id; fv_field_id := u16 field_id; fv_value := u32 value |}
  else
    time ← now;
    add (fieldValueRecord false false false)
      {| fv_time := time; fv_addr := compressed addr; fv_line := u16 line;
         fv_class_name_id := u16 class_name_id; fv_field_id := u16 field_id; fv_value := u32 value |}.

Definition addFieldValueRecordJlong (addr value line class_name_id field_id : Z) (is_put : bool) : M unit :=
  if is_put then
    time ← now;
    add (fieldValueRecord true true false)
      {| fv_time := time; fv_addr := compressed addr; fv_line := u16 line;
         fv_class_name_id := u16 class_name_id; fv_field_id := u16 field_id; fv_value := u64 value |}
  else
    time ← now;
    add (fieldValueRecord false true false)
      {| fv_time := time; fv_addr := compressed addr; fv_line := u16 line;
         fv_class_name_id := u16 class_name_id; fv_field_id := u16 field_id; fv_value := u64 value |}.

Definition addFieldValueRecordJfloat (addr value line class_name_id field_id : Z) (is_put : bool) : M unit :=
  if is_put then
    time ← now;
    add (fieldValueRecord true false true)
      {| fv_time := time; fv_addr := compressed addr; fv_line := u16 line;
         fv_class_name_id := u16 class_name_id; fv_field_id := u16 field_id; fv_value := u32 value |}
  else
    time ← now;
    add (fieldValueRecord false false true)
      {| fv_time := time; fv_addr := compressed addr; fv_line := u16 line;
         fv_class_name_id := u16 class_name_id; fv_field_id := u16 field_id; fv_value := u32 value |}.

Definition addFieldValueRecordJdouble (addr value line class_name_id field_id : Z) (is_put : bool) : M unit :=
  if is_put then
    time ← now;
    add (fieldValueRecord true true true)
      {| fv_time := time; fv_addr := compressed addr; fv_line := u16 line;
         fv_class_name_id := u16 class_name_id; fv_field_id := u16 field_id; fv_value := u64 value |}
  else
    time ← now;
    add (fieldValueRecord false true true)
      {| fv_time := time; fv_addr := compressed addr; fv_line := u16 line;
         fv_class_name_id := u16 class_name_id; fv_field_id := u16 field_id; fv_value := u64 value |}.

(** The id of a string: its rank among the distinct strings of the thread,
    written to the string file of the recorder at its first use.
    [stringMap.size()] is converted to [int]. *)
Definition string_line (string_id : Z) (value : string) : string :=
  dec string_id +:+ "," +:+ value +:+ nl.

Definition addFieldValueRecordJstring (addr : Z) (value : string)
    (line class_name_id field_id : Z) (is_put : bool) : M unit :=
  map ← gets stringMap;
  let string_id := i32 (Z.of_nat (size map)) in
  string_id ←
    match map !! value with
    | None =>
        _ ← (if is_put then addString (stringFieldValueRecord true) (string_line string_id value)
             else addString (stringFieldValueRecord false) (string_line string_id value));
        _ ← modify (set_stringMap (<[value := string_id]> map));
        mret string_id
    | Some string_id => mret string_id
    end;
  if is_put then
    time ← now;
    add (stringFieldValueRecord true)
      {| st_time := time; st_addr := compressed addr; st_line := u16 line;
         st_class_name_id := u16 class_name_id; st_field_id := u16 field_id;
         st_string_id := u16 string_id |}
  else
    time ← now;
    add (stringFieldValueRecord false)
      {| st_time := time; st_addr := compressed addr; st_line := u16 line;
         st_class_name_id := u16 class_name_id; st_field_id := u16 field_id;
         st_string_id := u16 string_id |}.

Definition addStaticFieldValueRecordJint (value line class_name_id field_id : Z) (is_put : bool) : M unit :=
  if is_put then
    time ← now;
    add (staticFieldValueRecord true false false)
      {| sf_time := time; sf_line := u16 line; sf_class_name_id := u16 class_name_id;
         sf_field_id := u16 field_id; sf_value := u32 value |}
  else
    time ← now;
    add (staticFieldValueRecord false false false)
      {| sf_time := time; sf_line := u16 line; sf_class_name_id := u16 class_name_id;
         sf_field_id := u16 field_id; sf_value := u32 value |}.

Definition addStaticFieldValueRecordJlong (value line class_name_id field_id : Z) (is_put : bool) : M unit :=
  if is_put then
    time ← now;
    add (staticFieldValueRecord true true false)
      {| sf_time := time; sf_line := u16 line; sf_class_name_id := u16 class_name_id;
         sf_field_id := u16 field_id; sf_value := u64 value |}
  else
    time ← now;
    add (staticFieldValueRecord false true false)
      {| sf_time := time; sf_line := u16 line; sf_class_name_id := u16 class_name_id;
         sf_field_id := u16 field_id; sf_value := u64 value |}.

Definition addStaticFieldValueRecordJfloat (value line class_name_id field_id : Z) (is_put : bool) : M unit :=
  if is_put then
    time ← now;
    add (staticFieldValueRecord true false true)
      {| sf_time := time; sf_line := u16 line; sf_class_name_id := u16 class_name_id;
         sf_field_id := u16 field_id; sf_value := u32 value |}
  else
    time ← now;
    add (staticFieldValueRecord false false true)
      {| sf_time := time; sf_line := u16 line; sf_class_name_id := u16 class_name_id;
         sf_field_id := u16 field_id; sf_value := u32 value |}.

Definition addStaticFieldValueRecordJdouble (value line class_name_id field_id : Z) (is_put : bool) : M unit :=
  if is_put then
    time ← now;
    add (staticFieldValueRecord true true true)
      {| sf_time := time; sf_line := u16 line; sf_class_name_id := u16 class_name_id;
         sf_field_id := u16 field_id; sf_value := u64 value |}
  else
    time ← now;
    add (staticFieldValueRecord false true true)
      {| sf_time := time; sf_line := u16 line; sf_class_name_id := u16 class_name_id;
         sf_field_id := u16 field_id; sf_value := u64 value |}.

(** Here the map is updated before the string is written. *)
Definition addStaticFieldValueRecordJstring (value : string)
    (line class_name_id field_id : Z) (is_put : bool) : M unit :=
  map ← gets stringMap;
  let string_id := i32 (Z.of_nat (size map)) in
  string_id ←
    match map !! value with
    | None =>
        _ ← modify (set_stringMap (<[value := string_id]> map));
        _ ← (if is_put then addString (staticStringFieldValueRecord true) (string_line string_id value)
             else addString (staticStringFieldValueRecord false) (string_line string_id value));
        mret string_id
    | Some string_id => mret string_id
    end;
  if is_put then
    time ← now;
    add (staticStringFieldValueRecord true)
      {| ss_time := time; ss_line := u16 line; ss_class_name_id := u16 class_name_id;
         ss_field_id := u16 field_id; ss_string_id := u16 string_id |}
  else
    time ← now;
    add (staticStringFieldValueRecord false)
      {| ss_time := time; ss_line := u16 line; ss_class_name_id := u16 class_name_id;
         ss_field_id := u16 field_id; ss_string_id := u16 string_id |}.

(** ** Entry points: container operations

    All of them return their first argument (or nothing), record only when
    recording is enabled and the holder is sampled, and leave in
    [is_sampled_container] whether it was. *)

Definition container_op {A} (ret : A) (holder : jobject) (record : Z -> M unit) : M A :=
  en ← gets enable;
  if negb en then mret ret
  else
    _ ← init_jvmti;
    holder_tag ← get_tag holder;
    if negb (is_sampled_object holder_tag) then
      _ ← modify (set_sampled_container false);
      mret ret
    else
      _ ← modify (set_sampled_container true);
      _ ← record holder_tag;
      mret ret.

Definition container_record (cid copid holder_tag ref_tag time size : Z) : ContainerRecord false :=
  {| br_time := time; br_cid := u16 cid; br_copid := u16 copid; br_holder_addr := u32 holder_tag;
     br_ref_addr := u32 ref_tag; br_size := u32 size |}.

Definition addContainerRecordList15 (retobj holder : jobject) (idx_or_succ size cid copid : Z) : M jobject :=
  container_op retobj holder (fun holder_tag =>
    ref_tag ← get_tag retobj;
    time ← now;
    add listAndSetRecord
      {| ls_br := container_record cid copid holder_tag ref_tag time size;
         ls_idx_or_succ := u32 idx_or_succ |}).

Definition addContainerRecordList6 (holder : jobject) (idx : Z) (ref : jobject) (size cid copid : Z) : M unit :=
  container_op tt holder (fun holder_tag =>
    ref_tag ← get_tag ref;
    time ← now;
    add listAndSetRecord
      {| ls_br := container_record cid copid holder_tag ref_tag time size; ls_idx_or_succ := u32 idx |}).

Definition addContainerRecordList4 (holder : jobject) (size cid copid : Z) : M unit :=
  container_op tt holder (fun holder_tag =>
    time ← now;
    add listAndSetRecord
      {| ls_br := container_record cid copid holder_tag 0 time size; ls_idx_or_succ := 0 |}).

Definition addContainerRecordListI5 (idx : Z) (holder ref : jobject) (size cid copid : Z) : M Z :=
  container_op idx holder (fun holder_tag =>
    ref_tag ← get_tag ref;
    time ← now;
    add listAndSetRecord
      {| ls_br := container_record cid copid holder_tag ref_tag time size; ls_idx_or_succ := u32 idx |}).

Definition addContainerRecordList14 (retobj holder : jobject) (size cid copid : Z) : M jobject :=
  container_op retobj holder (fun holder_tag =>
    ref_tag ← get_tag retobj;
    time ← now;
    add listAndSetRecord
      {| ls_br := container_record cid copid holder_tag ref_tag time size; ls_idx_or_succ := 0 |}).

(** [retobj] is a [jboolean], an unsigned byte. *)
Definition addContainerRecordList5 (retobj : Z) (holder ref : jobject) (size cid copid : Z) : M Z :=
  container_op retobj holder (fun holder_tag =>
    ref_tag ← get_tag ref;
    time ← now;
    add listAndSetRecord
      {| ls_br := container_record cid copid holder_tag ref_tag time size;
         ls_idx_or_succ := if decide (retobj = 1) then 1 else 0 |}).

Definition addContainerRecordMap15 (retobj holder key : jobject) (size cid copid : Z) : M jobject :=
  container_op retobj holder (fun holder_tag =>
    ref_tag ← get_tag retobj;
    key_tag ← get_tag key;
    time ← now;
    add mapRecord
      {| mp_br := container_record cid copid holder_tag ref_tag time size;
         mp_key_addr := u32 key_tag; mp_value_addr := u32 ref_tag |}).

Definition addContainerRecordMap4 (holder : jobject) (size cid copid : Z) : M unit :=
  container_op tt holder (fun holder_tag =>
    time ← now;
    add mapRecord
      {| mp_br := container_record cid copid holder_tag 0 time size;
         mp_key_addr := 0; mp_value_addr := 0 |}).

Definition addContainerRecordMap5 (holder map : jobject) (size cid copid : Z) : M unit :=
  container_op tt holder (fun holder_tag =>
    map_tag ← get_tag map;
    time ← now;
    add mapRecord
      {| mp_br := container_record cid copid holder_tag map_tag time size;
         mp_key_addr := 0; mp_value_addr := 0 |}).

Definition addContainerRecordMap16 (retobj holder key value : jobject) (size cid copid : Z) : M jobject :=
  container_op retobj holder (fun holder_tag =>
    ref_tag ← get_tag retobj;
    key_tag ← get_tag key;
    value_tag ← get_tag value;
    time ← now;
    add mapRecord
      {| mp_br := container_record cid copid holder_tag ref_tag time size;
         mp_key_addr := u32 key_tag; mp_value_addr := u32 value_tag |}).

Definition addContainerLineInfoRecord (line class_name_id : Z) : M unit :=
  en ← gets enable;
  sampled ← gets is_sampled_container;
  if negb en || negb sampled then mret tt
  else
    time ← now;
    _ ← add containerLineInfoRecorder
          {| cl_time := time; cl_line := u16 line; cl_class_name_id := u16 class_name_id |};
    modify (set_right_after true).

(** ** Entry points: flags *)

Definition decreaseContainerFilterFlag : M unit :=
  b ← gets is_right_after;
  if b : bool then modify (set_right_after false) else mret tt.
Definition unsetIsRightAfter : M unit := modify (set_right_after false).
Definition enableRecord : M unit := modify (set_enable true).
Definition disableRecord : M unit := modify (set_enable false).
Definition enablePrintNew : M unit := modify (set_printNEW true).
Definition disablePrintNew : M unit := modify (set_printNEW false).
Definition getPrintNew : M bool := gets enablePrintNEW.

(** ** Entry points: records of tagged objects *)

Definition addTagNewRecord (obj : jobject) (obj_typeid line class_name_id obj_size : Z) : M unit :=
  r ← rand_;
  if skips freq r then mret tt
  else
    time ← now;
    tag ← next_tag;
    _ ← add newRecoreder
          {| nw_time := time; nw_addr := u32 tag; nw_obj_typeid := obj_typeid; nw_line := u16 line;
             nw_class_name_id := u16 class_name_id; nw_obj_size := u32 obj_size |};
    _ ← init_jvmti;
    _ ← set_tag obj tag;
    pmodify (set_new_called true).

Definition addTagConstructRecord (obj : jobject) (obj_typeid line class_name_id : Z) : M unit :=
  _ ← init_jvmti;
  tag ← get_tag obj;
  if negb (is_sampled_object tag) then mret tt
  else
    time ← now;
    add constructRecoreder
      {| co_time := time; co_addr := u32 tag; co_obj_typeid := obj_typeid; co_line := u16 line;
         co_class_name_id := u16 class_name_id |}.

(** The tag of a holder: one that reads as zero would get a fresh one,
    marked as not sampled. *)
Definition holder_tag (holder : jobject) : M Z :=
  tag ← get_tag holder;
  if decide (tag = 0) then
    tag ← next_tag;
    _ ← set_tag holder (Z.lor tag NOT_SAMPLED_MASK);
    mret tag
  else mret tag.

Definition addTagPutFieldRecord (holder ref : jobject) (line class_name_id field_id : Z) : M unit :=
  time ← now;
  _ ← init_jvmti;
  ref_tag ← get_tag ref;
  if negb (is_sampled_object ref_tag) then mret tt
  else
    tag ← holder_tag holder;
    add putFieldRecoreder
      {| pf_time := time; pf_ref_addr := u32 ref_tag; pf_holder_addr := u32 tag;
         pf_field_id := field_id; pf_line := u16 line; pf_class_name_id := u16 class_name_id |}.

Definition addTagAASTORERecord (holder : jobject) (index : Z) (ref : jobject) (line class_name_id : Z) : M unit :=
  _ ← init_jvmti;
  ref_tag ← get_tag ref;
  if negb (is_sampled_object ref_tag) then mret tt
  else
    time ← now;
    tag ← holder_tag holder;
    add aaStoreRecoreder
      {| aa_time := time; aa_ref_addr := u32 ref_tag; aa_index := index; aa_holder_addr := u32 tag;
         aa_line := u16 line; aa_class_name_id := u16 class_name_id |}.

Definition addTagUseRecord (type : Z) (obj : jobject) (line class_name_id : Z) : M unit :=
  called ← pgets new_called;
  if negb called then mret tt
  else
    valid ← pgets jvmti_valid;
    if negb valid then mret tt
    else
      _ ← init_jvmti;
      tag ← get_tag obj;
      if negb (is_sampled_object tag) then mret tt
      else
        time ← now;
        add useRecorder
          {| us_type := u16 type; us_time := time; us_addr := u32 tag;
             us_line := u16 line; us_class_name_id := u16 class_name_id |}.

Definition discard {A} (m : M A) : M unit := _ ← m; mret tt.

Definition exec (c : call) : M unit :=
  match c with
  | PutFieldRecord_call holder_addr ref_addr line class_name_id field_id => addPutFieldRecord holder_addr ref_addr line class_name_id field_id
  | NewRecord_call addr obj_typeid line class_name_id obj_size => addNewRecord addr obj_typeid line class_name_id obj_size
  | ConstructRecord_call addr obj_typeid line class_name_id => addConstructRecord addr obj_typeid line class_name_id
  | AASTORERecord_call holder_addr index ref_addr line class_name_id => addAASTORERecord holder_addr index ref_addr line class_name_id
  | UseRecord_call type addr line class_name_id => addUseRecord type addr line class_name_id
  | FreeRecord_call addr obj_size => addFreeRecord addr obj_size
  | FieldValueRecordJint_call addr value line class_name_id field_id is_put => addFieldValueRecordJint addr value line class_name_id field_id is_put
  | FieldValueRecordJlong_call addr value line class_name_id field_id is_put => addFieldValueRecordJlong addr value line class_name_id field_id is_put
  | FieldValueRecordJfloat_call addr value line class_name_id field_id is_put => addFieldValueRecordJfloat addr value line class_name_id field_id is_put
  | FieldValueRecordJdouble_call addr value line class_name_id field_id is_put => addFieldValueRecordJdouble addr value line class_name_id field_id is_put
  | FieldValueRecordJstring_call addr value line class_name_id field_id is_put => addFieldValueRecordJstring addr value line class_name_id field_id is_put
  | StaticFieldValueRecordJint_call value line class_name_id field_id is_put => addStaticFieldValueRecordJint value line class_name_id field_id is_put
  | StaticFieldValueRecordJlong_call value line class_name_id field_id is_put => addStaticFieldValueRecordJlong value line class_name_id field_id is_put
  | StaticFieldValueRecordJfloat_call value line class_name_id field_id is_put => addStaticFieldValueRecordJfloat value line class_name_id field_id is_put
  | StaticFieldValueRecordJdouble_call value line class_name_id field_id is_put => addStaticFieldValueRecordJdouble value line class_name_id field_id is_put
  | StaticFieldValueRecordJstring_call value line class_name_id field_id is_put => addStaticFieldValueRecordJstring value line class_name_id field_id is_put
  | ContainerRecordList15_call retobj holder idx_or_succ size cid copid => discard (addContainerRecordList15 retobj holder idx_or_succ size cid copid)
  | ContainerRecordList6_call holder idx ref size cid copid => addContainerRecordList6 holder idx ref size cid copid
  | ContainerRecordList4_call holder size cid copid => addContainerRecordList4 holder size cid copid
  | ContainerRecordListI5_call idx holder ref size cid copid => discard (addContainerRecordListI5 idx holder ref size cid copid)
  | ContainerRecordList14_call retobj holder size cid copid => discard (addContainerRecordList14 retobj holder size cid copid)
  | ContainerRecordList5_call retobj holder ref size cid copid => discard (addContainerRecordList5 retobj holder ref size cid copid)
  | ContainerRecordMap15_call retobj holder key size cid copid => discard (addContainerRecordMap15 retobj holder key size cid copid)
  | ContainerRecordMap4_call holder size cid copid => addContainerRecordMap4 holder size cid copid
  | ContainerRecordMap5_call holder map size cid copid => addContainerRecordMap5 holder map size cid copid
  | ContainerRecordMap16_call retobj holder key value size cid copid => discard (addContainerRecordMap16 retobj holder key value size cid copid)
  | ContainerLineInfoRecord_call line class_name_id => addContainerLineInfoRecord line class_name_id
  | DecreaseContainerFilterFlag_call => decreaseContainerFilterFlag
  | UnsetIsRightAfter_call => unsetIsRightAfter
  | EnableRecord_call => enableRecord
  | DisableRecord_call => disableRecord
  | EnablePrintNew_call => enablePrintNew
  | DisablePrintNew_call => disablePrintNew
  | GetPrintNew_call => discard (getPrintNew)
  | TagNewRecord_call obj obj_typeid line class_name_id obj_size => addTagNewRecord obj obj_typeid line class_name_id obj_size
  | TagConstructRecord_call obj obj_typeid line class_name_id => addTagConstructRecord obj obj_typeid line class_name_id
  | TagPutFieldRecord_call holder ref line class_name_id field_id => addTagPutFieldRecord holder ref line class_name_id field_id
  | TagAASTORERecord_call holder index ref line class_name_id => addTagAASTORERecord holder index ref line class_name_id
  | TagUseRecord_call type obj line class_name_id => addTagUseRecord type obj line class_name_id
  end.

(** The calls of a thread, in order. *)
Fixpoint exec_all (cs : list call) : M unit :=
  match cs with
  | [] => mret tt
  | c :: cs => _ ← exec c; exec_all cs
  end.
End Handlers.

Arguments thread L : clear implicits.
Arguments process W J : clear implicits.
Arguments M L W J A : clear implicits.
