(* ===== verification/ArgsBuffer.v ===== *)
(** * The argument buffer of a thread

    [native/native.cpp]: [allocateArgsBuffer], [putInt], [putFloat],
    [putLong], [putDouble], [printArgs] and [doSomething].  The instrumented
    code stores the arguments of a call in a buffer of 32 ints through raw
    addresses; [printArgs] shows one of them.

    Memory is a finite map from addresses to bytes; an access to an address
    that is not mapped is an error ([None]).  [float] and [double] values are
    their bit patterns. *)

From S2P Require Import Prelude.

Abbreviation memory := (gmap Z Z).

Fixpoint load_bytes (n : nat) (addr : Z) (m : memory) : option bytes :=
  match n with
  | O => Some []
  | S n => b ← m !! addr; bs ← load_bytes n (addr + 1) m; Some (b :: bs)
  end.

Fixpoint store_bytes (addr : Z) (bs : bytes) (m : memory) : option memory :=
  match bs with
  | [] => Some m
  | b :: bs =>
      match m !! addr with
      | None => None
      | Some _ => store_bytes (addr + 1) bs (<[addr := b]> m)
      end
  end.

(** A load or store of an [n]-byte scalar, low byte first. *)
Definition load (n : nat) (addr : Z) (m : memory) : option Z := le_dec <$> load_bytes n addr m.

Definition store (n : nat) (addr v : Z) (m : memory) : option memory := store_bytes addr (le_enc n v) m.

(** [thread_local int* args_buffer], 0 for [nullptr]. *)
Record args_state := { args_buffer : Z; args_mem : memory }.

Definition ARGS_BYTES : nat := 128.

(** [new int[32]] returns [fresh], the address of memory not in use. *)
Definition allocateArgsBuffer (fresh : Z) (st : args_state) : Z * args_state :=
  if decide (args_buffer st = 0) then
    (fresh, {| args_buffer := fresh;
               args_mem := map_seqZ fresh (replicate ARGS_BYTES 0) ∪ args_mem st |})
  else (args_buffer st, st).

Definition put (n : nat) (addr v : Z) (st : args_state) : option args_state :=
  m ← store n addr v (args_mem st);
  Some {| args_buffer := args_buffer st; args_mem := m |}.

Definition putInt (addr v : Z) : args_state -> option args_state := put 4 addr v.

Definition putDouble (addr v : Z) : args_state -> option args_state := put 8 addr v.

Definition putFloat (addr v : Z) : args_state -> option args_state := put 4 addr v.

Definition putLong (addr v : Z) : args_state -> option args_state := put 8 addr v.

(** What [printArgs] logs: the position, the name of the type and the value;
    nothing for another type code. *)
Definition printArgs (pos type : Z) (st : args_state) : option (option (Z * string * Z)) :=
  let p := args_buffer st + 4 * pos in
  if decide (type = 0) then v ← load 4 p (args_mem st); Some (Some (pos, "int", i32 v))
  else if decide (type = 1) then v ← load 8 p (args_mem st); Some (Some (pos, "double", v))
  else if decide (type = 2) then v ← load 4 p (args_mem st); Some (Some (pos, "float", v))
  else if decide (type = 3) then v ← load 8 p (args_mem st); Some (Some (pos, "long", i64 v))
  else Some None.

(** [doSomething] prints six words of an object and increments the fourth. *)
Definition doSomething (addr : Z) (m : memory) : option (list Z * memory) :=
  ws ← mapM (fun k => load 4 (addr + 4 * Z.of_nat k) m) (seq 0 6);
  w ← load 4 (addr + 12) m;
  m ← store 4 (addr + 12) (u32 (w + 1)) m;
  Some (ws, m).

(** ** Loads and stores *)

Definition mapped (addr : Z) (n : nat) (m : memory) : Prop :=
  forall a, addr <= a < addr + Z.of_nat n -> is_Some (m !! a).

Lemma mapped_cons addr n m : mapped addr (S n) m -> is_Some (m !! addr) /\ mapped (addr + 1) n m.
Proof. intros H. split; [apply H; lia|]. intros a Ha. apply H. lia. Qed.

Lemma mapped_insert addr n a b m : mapped addr n m -> mapped addr n (<[a := b]> m).
Proof. intros H x Hx. rewrite lookup_insert_is_Some'. auto. Qed.

Lemma store_bytes_ok bs : forall addr m, mapped addr (length bs) m ->
  exists m', store_bytes addr bs m = Some m' /\ dom m' = dom m /\
    forall a, m' !! a = if decide (addr <= a < addr + Z.of_nat (length bs))
                        then bs !! Z.to_nat (a - addr) else m !! a.
Proof.
  induction bs as [|b bs IH]; intros addr m Hm; cbn [store_bytes].
  { exists m. split; [done|]. split; [done|]. intros a. rewrite decide_False; [done|]. cbn. lia. }
  apply mapped_cons in Hm as [[x Hx] Hm]. rewrite Hx.
  destruct (IH (addr + 1) (<[addr := b]> m)) as (m' & -> & Hd & Hl); [by apply mapped_insert|].
  exists m'. split; [done|]. split.
  { rewrite Hd, dom_insert_lookup_L; [done|by exists x]. }
  intros a. rewrite Hl. cbn [length]. destruct (decide (a = addr)) as [->|Ha].
  - rewrite decide_False by lia. rewrite decide_True by lia. rewrite lookup_insert_eq, Z.sub_diag. done.
  - destruct (decide (addr + 1 <= a < addr + 1 + Z.of_nat (length bs))).
    + rewrite decide_True by lia. replace (Z.to_nat (a - addr)) with (S (Z.to_nat (a - (addr + 1)))) by lia. done.
    + rewrite decide_False by lia. by rewrite lookup_insert_ne by done.
Qed.

Lemma load_bytes_list bs : forall addr m,
  (forall k b, bs !! k = Some b -> m !! (addr + Z.of_nat k) = Some b) -> load_bytes (length bs) addr m = Some bs.
Proof.
  induction bs as [|b bs IH]; intros addr m Hm; cbn [load_bytes length]; [done|].
  assert (m !! addr = Some b) as -> by (rewrite <- (Hm O b); [f_equal; lia|done]).
  cbn [mbind option_bind]. rewrite IH; [done|].
  intros k c Hk. rewrite <- (Hm (S k) c) by done. f_equal. lia.
Qed.

Lemma load_bytes_ext n : forall addr m m',
  (forall a, addr <= a < addr + Z.of_nat n -> m' !! a = m !! a) -> load_bytes n addr m' = load_bytes n addr m.
Proof.
  induction n as [|n IH]; intros addr m m' H; cbn [load_bytes]; [done|].
  rewrite H by lia. rewrite (IH (addr + 1) m m') by (intros; apply H; lia). done.
Qed.

Lemma put_spec n addr v st : mapped addr n (args_mem st) ->
  exists st', put n addr v st = Some st' /\ args_buffer st' = args_buffer st /\
    dom (args_mem st') = dom (args_mem st) /\
    load n addr (args_mem st') = Some (wrapu (8 * Z.of_nat n) v) /\
    forall k a, a + Z.of_nat k <= addr \/ addr + Z.of_nat n <= a ->
      load k a (args_mem st') = load k a (args_mem st).
Proof.
  intros Hm. unfold put, store. destruct (store_bytes_ok (le_enc n v) addr (args_mem st)) as (m' & -> & Hd & Hl);
    [by rewrite length_le_enc|]. rewrite length_le_enc in Hl.
  cbn [mbind option_bind]. eexists. split; [done|]. cbn. split; [done|]. split; [done|]. split.
  - unfold load. pose proof (load_bytes_list (le_enc n v) addr m') as Hb. rewrite length_le_enc in Hb.
    rewrite Hb; [by rewrite <- le_dec_enc|]. intros k b Hk. pose proof (lookup_lt_Some _ _ _ Hk) as Hlt.
    rewrite length_le_enc in Hlt. rewrite Hl, decide_True by lia. by replace (Z.to_nat (addr + Z.of_nat k - addr)) with k by lia.
  - intros k a Ha. unfold load. f_equal. apply load_bytes_ext. intros x Hx. rewrite Hl, decide_False by lia. done.
Qed.

(** The buffer and its 32 slots. *)
Definition has_buffer (st : args_state) : Prop :=
  args_buffer st <> 0 /\ mapped (args_buffer st) ARGS_BYTES (args_mem st).

Lemma allocate_has_buffer fresh st :
  fresh <> 0 -> args_buffer st = 0 \/ has_buffer st -> has_buffer (allocateArgsBuffer fresh st).2.
Proof.
  intros Hf Hst. unfold allocateArgsBuffer. case_decide as Hz; [|destruct Hst; done]. cbn [snd].
  split; [done|]. cbn [args_buffer args_mem]. intros a Ha. rewrite lookup_union_is_Some. left.
  rewrite lookup_map_seqZ, option_guard_True by lia.
  apply lookup_lt_is_Some_2. rewrite length_replicate. lia.
Qed.

(** Types an argument is stored with. *)
Inductive arg_type := AInt | ADouble | AFloat | ALong.

Definition arg_size (t : arg_type) : nat := match t with AInt | AFloat => 4 | ADouble | ALong => 8 end.

Definition arg_code (t : arg_type) : Z := match t with AInt => 0 | ADouble => 1 | AFloat => 2 | ALong => 3 end.

Definition arg_name (t : arg_type) : string :=
  match t with AInt => "int" | ADouble => "double" | AFloat => "float" | ALong => "long" end.

Definition arg_ok (t : arg_type) (v : Z) : Prop :=
  match t with AInt => in_s 32 v | ALong => in_s 64 v | AFloat => in_u 32 v | ADouble => in_u 64 v end.

Definition put_arg (t : arg_type) : Z -> Z -> args_state -> option args_state :=
  match t with AInt => putInt | ADouble => putDouble | AFloat => putFloat | ALong => putLong end.

Lemma put_arg_put t addr v st : put_arg t addr v st = put (arg_size t) addr v st.
Proof. by destruct t. Qed.

Lemma printArgs_load pos t st v :
  load (arg_size t) (args_buffer st + 4 * pos) (args_mem st) = Some (wrapu (8 * Z.of_nat (arg_size t)) v) ->
  arg_ok t v -> printArgs pos (arg_code t) st = Some (Some (pos, arg_name t, v)).
Proof.
  intros Hl Hv. unfold printArgs. destruct t; cbn [arg_code arg_size arg_name arg_ok] in *;
    rewrite ?decide_False by lia; rewrite decide_True by lia; rewrite Hl; cbn [mbind option_bind]; do 3 f_equal.
  - change (8 * Z.of_nat 4) with 32. rewrite wraps_wrapu by lia. by apply wraps_id; [lia|].
  - by apply wrapu_id.
  - by apply wrapu_id.
  - change (8 * Z.of_nat 8) with 64. rewrite wraps_wrapu by lia. by apply wraps_id; [lia|].
Qed.

(** Slots an argument of type [t] at position [pos] takes. *)
Definition in_slots (pos : Z) (t : arg_type) (k : Z) : Prop := pos <= k < pos + Z.of_nat (arg_size t) / 4.

Lemma slots_size t : Z.of_nat (arg_size t) = 4 * (Z.of_nat (arg_size t) / 4) /\ 0 < Z.of_nat (arg_size t) / 4.
Proof. by destruct t. Qed.

Lemma store_bytes_mapped bs : forall addr m m', store_bytes addr bs m = Some m' -> mapped addr (length bs) m.
Proof.
  induction bs as [|b bs IH]; intros addr m m'; cbn [store_bytes length]; [intros _ a Ha; cbn in Ha; lia|].
  destruct (m !! addr) as [x|] eqn:Hx; [|done]. intros Hs a Ha.
  destruct (decide (a = addr)) as [->|Hne]; [by exists x|].
  destruct (IH _ _ _ Hs a ltac:(lia)) as [y Hy]. rewrite lookup_insert_ne in Hy by done. by exists y.
Qed.

(** A store of eight bytes leaves the upper half of the value in the last four. *)
Lemma put_high addr v st st' : put 8 addr v st = Some st' ->
  load 4 (addr + 4) (args_mem st') = Some (wrapu 32 (v / 2 ^ 32)).
Proof.
  unfold put, store. intros Hput. destruct (store_bytes addr (le_enc 8 v) (args_mem st)) as [m'|] eqn:Hs; [|done].
  injection Hput as <-. cbn [args_mem]. pose proof (store_bytes_mapped _ _ _ _ Hs) as Hm.
  destruct (store_bytes_ok _ _ _ Hm) as (m'' & Hs' & _ & Hl). rewrite Hs in Hs'. injection Hs' as <-.
  rewrite length_le_enc in Hl. unfold load.
  assert (drop 4 (le_enc 8 v) = le_enc 4 (v / 2 ^ 32)) as Hdrop.
  { unfold le_enc. change (Z.of_nat 8) with (Z.succ (Z.succ (Z.succ (Z.succ 4)))). change (Z.of_nat 4) with 4.
    rewrite !Z_to_little_endian_succ by lia. cbn [drop]. rewrite !Z.shiftr_shiftr, Z.shiftr_div_pow2 by lia. done. }
  pose proof (load_bytes_list (le_enc 4 (v / 2 ^ 32)) (addr + 4) m') as Hb. rewrite length_le_enc in Hb.
  rewrite Hb; [change 32 with (8 * Z.of_nat 4); by rewrite <- le_dec_enc|].
  intros k b Hk. pose proof (lookup_lt_Some _ _ _ Hk) as Hlt.
  rewrite length_le_enc in Hlt. rewrite <- Hdrop, lookup_drop in Hk.
  rewrite Hl, decide_True by lia. replace (Z.to_nat (addr + 4 + Z.of_nat k - addr)) with (4 + k)%nat by lia. done.
Qed.

(** C33: An argument stored in slots of the thread's buffer is printed with
    its value, a second allocation returns the same buffer, and the arguments
    in other slots are printed as before.  A [long] or [double] takes two
    slots; stored in the last slot its upper half goes to the four bytes after
    the buffer: the store changes them when they are mapped memory, and is
    an invalid access when they are not. *)
Theorem args_are_printed fresh st pos t v :
  has_buffer st -> 0 <= pos < 32 -> arg_ok t v ->
  allocateArgsBuffer fresh st = (args_buffer st, st) /\
  (pos + Z.of_nat (arg_size t) / 4 <= 32 ->
   exists st', put_arg t (args_buffer st + 4 * pos) v st = Some st' /\ has_buffer st' /\
     printArgs pos (arg_code t) st' = Some (Some (pos, arg_name t, v)) /\
     forall pos' t', (forall k, in_slots pos t k -> ~ in_slots pos' t' k) ->
       printArgs pos' (arg_code t') st' = printArgs pos' (arg_code t') st) /\
  (32 < pos + Z.of_nat (arg_size t) / 4 ->
   let after := args_buffer st + 128 in
   (mapped after 4 (args_mem st) -> exists st', put_arg t (args_buffer st + 4 * pos) v st = Some st' /\
      load 4 after (args_mem st') = Some (wrapu 32 (v / 2 ^ 32))) /\
   (~ mapped after 4 (args_mem st) -> put_arg t (args_buffer st + 4 * pos) v st = None)).
Proof.
  intros [Hb Hm] Hpos Hv. split; [unfold allocateArgsBuffer; by rewrite decide_False|]. split.
  - intros Hend. destruct (put_spec (arg_size t) (args_buffer st + 4 * pos) v st) as (st' & Hput & Hb' & Hd & Hl & Hframe).
    { intros a Ha. apply Hm. unfold ARGS_BYTES. pose proof (slots_size t). lia. }
    exists st'. rewrite put_arg_put, Hput. split; [done|]. split.
    { split; [by rewrite Hb'|]. intros a Ha. rewrite <- elem_of_dom, Hd, elem_of_dom. apply Hm. by rewrite <- Hb'. }
    split; [by apply printArgs_load; [rewrite Hb'|]|].
    intros pos' t' Hdis. unfold printArgs. rewrite Hb'. unfold in_slots in Hdis.
    assert (load (arg_size t') (args_buffer st + 4 * pos') (args_mem st')
            = load (arg_size t') (args_buffer st + 4 * pos') (args_mem st)) as Heq.
    { apply Hframe. pose proof (Hdis (Z.max pos pos')) as Hd'.
      pose proof (slots_size t). pose proof (slots_size t'). lia. }
    destruct t'; cbn [arg_code arg_size] in *; rewrite ?decide_False by lia; rewrite !decide_True by lia; by rewrite Heq.
  - intros Hlast after. rewrite put_arg_put.
    assert (arg_size t = 8%nat /\ pos = 31) as [-> ->].
    { destruct t; cbn [arg_size] in *; change (Z.of_nat 4 / 4) with 1 in *; change (Z.of_nat 8 / 4) with 2 in *; (lia || (split; [done|lia])). }
    split.
    + intros Hafter. destruct (put_spec 8 (args_buffer st + 4 * 31) v st) as (st' & Hput & _).
      { intros a Ha. unfold after in Hafter. destruct (decide (a < args_buffer st + 128)); [apply Hm|apply Hafter]; unfold ARGS_BYTES; lia. }
      exists st'. split; [done|]. apply put_high in Hput. unfold after.
      by replace (args_buffer st + 128) with (args_buffer st + 4 * 31 + 4) by lia.
    + intros Hno. unfold put, store. destruct (store_bytes _ _ _) as [m'|] eqn:Hs; [|done]. exfalso. apply Hno.
      apply store_bytes_mapped in Hs. rewrite length_le_enc in Hs. intros a Ha. apply Hs. unfold after in Ha. lia.
Qed.

Lemma args_are_printed_witness :
  let st := (allocateArgsBuffer 4096 {| args_buffer := 0; args_mem := ∅ |}).2 in
  (exists st', putInt (4096 + 4 * 31) (-7) st = Some st' /\ printArgs 31 0 st' = Some (Some (31, "int", -7)) /\
    printArgs 29 3 st' = Some (Some (29, "long", 0))) /\
  putLong (4096 + 4 * 31) (-7) st = None.
Proof.
  intros st. assert (has_buffer st) as Hb by (apply allocate_has_buffer; [done|by left]). split.
  - destruct (args_are_printed 0 st 31 AInt (-7) Hb) as (_ & Hfits & _);
      [lia|apply (bool_decide_unpack _); vm_compute; exact I|].
    destruct Hfits as (st' & Hput & _ & Hp & Hother); [apply (bool_decide_unpack _); vm_compute; exact I|].
    exists st'. split; [exact Hput|]. split; [exact Hp|].
    change 3 with (arg_code ALong). rewrite Hother.
    + vm_compute. reflexivity.
    + unfold in_slots. cbn [arg_size]. change (Z.of_nat 4 / 4) with 1. change (Z.of_nat 8 / 4) with 2. lia.
  - destruct (args_are_printed 0 st 31 ALong (-7) Hb) as (_ & _ & Hpast);
      [lia|apply (bool_decide_unpack _); vm_compute; exact I|].
    destruct Hpast as [_ Hnone]; [reflexivity|]. apply Hnone. intros Hmap.
    destruct (Hmap (4096 + 128)) as [b Hb']; [change (args_buffer st) with 4096; lia|].
    vm_compute in Hb'. discriminate Hb'.
Defined.
