(* ===== verification/NativeSpec.v ===== *)
(** * The entry points of [native/native.cpp]: tags, totality, range

    A total-correctness triple for the computations of [Native], and the
    invariant every entry point keeps: its environments exist, a positive
    tag names one object in every environment and cache of the process, and
    the records it hands to its sink have all members in range. *)

From Stdlib Require Import Ascii.
From S2P Require Import Prelude Layout Records Native.

(** ** Sampling *)

Lemma mask_negative : NOT_SAMPLED_MASK = - 2 ^ 63.
Proof. vm_compute. reflexivity. Qed.

Lemma land_mask t : in_s 64 t -> Z.land t (- 2 ^ 63) = 0 <-> 0 <= t.
Proof.
  intros [H1 H2]. change (64 - 1) with 63 in *.
  replace (- 2 ^ 63) with (Z.lnot (Z.ones 63)) by (vm_compute; reflexivity).
  rewrite <- Z.ldiff_land, Z.ldiff_ones_r by lia. rewrite Z.shiftl_mul_pow2, Z.shiftr_div_pow2 by lia.
  split; intros Hz.
  - assert (t / 2 ^ 63 = 0) as Hd by lia. apply Z.div_small_iff in Hd; lia.
  - rewrite Z.div_small; lia.
Qed.

Lemma is_sampled_object_pos t : in_s 64 t -> is_sampled_object t = bool_decide (0 < t).
Proof.
  intros Ht. unfold is_sampled_object. rewrite mask_negative.
  pose proof (land_mask t Ht) as Hm.
  repeat case_bool_decide; simpl; try done; lia.
Qed.

(** The four conditions of [is_sampled_object] hold exactly of the
    positive tags: an unmarked tag, a cached failure (-1) and a tag with the
    mark of unsampled holders are all refused. *)
Theorem is_sampled_object_spec t : in_s 64 t -> is_sampled_object t = bool_decide (0 < t).
Proof. apply is_sampled_object_pos. Qed.

Lemma skips_spec freq r : 0 < freq -> 0 <= r -> skips freq r = false <-> r <= 2 ^ 31 / freq.
Proof.
  intros Hf Hr. unfold skips. rewrite !decide_False by lia. rewrite bool_decide_eq_false.
  split; intros Hle.
  - apply Z.div_le_lower_bound; lia.
  - assert (r * freq <= (2 ^ 31 / freq) * freq) by (apply Z.mul_le_mono_nonneg_r; lia).
    pose proof (Z.mul_div_le (2 ^ 31) freq). lia.
Qed.

(** With [JLITE_SAMPLING_FREQ] = f > 0 an allocation is recorded exactly
    when [rand()] is at most 2^31 / f, that is about once in f; 0 records
    every allocation, a negative frequency none. *)
Theorem sampling_rate freq r :
  0 <= r < 2 ^ 31 ->
  skips freq r = false <-> freq = 0 \/ 0 < freq /\ r <= 2 ^ 31 / freq.
Proof.
  intros Hr. destruct (decide (freq = 0)) as [->|Hz].
  - unfold skips. rewrite decide_True by done. naive_solver.
  - destruct (decide (0 < freq)) as [Hf|Hf].
    + rewrite skips_spec by lia. lia.
    + unfold skips. rewrite decide_False by done. rewrite decide_True by lia. split; [done|lia].
Qed.

(** ** Decimal text is read back *)

Lemma digit_of_pretty x : (x < 10)%N -> digit_of (pretty_N_char x) = Some (Z.of_N x).
Proof.
  intros Hx.
  assert (x = 0 \/ x = 1 \/ x = 2 \/ x = 3 \/ x = 4 \/ x = 5 \/ x = 6 \/ x = 7 \/ x = 8 \/ x = 9)%N
    as Hd by lia.
  by repeat destruct Hd as [->|Hd]; subst.
Qed.

Lemma atoi_digits_pretty x s : atoi_digits 0 (pretty_N_go x s) = atoi_digits (Z.of_N x) s.
Proof.
  revert s. induction (N.lt_wf_0 x) as [x _ IH]; intros s. destruct (decide (0 < x)%N) as [Hx|Hx].
  - rewrite pretty_N_go_step by done. rewrite IH by (by apply N.div_lt). cbn [atoi_digits].
    rewrite digit_of_pretty by (apply N.mod_lt; lia). f_equal.
    rewrite N2Z.inj_div, N2Z.inj_mod. simpl. pose proof (Z.div_mod (Z.of_N x) 10). lia.
  - assert (x = 0%N) as -> by lia. by rewrite pretty_N_go_0.
Qed.

Lemma atoi_digits_N (n : N) : atoi_digits 0 (pretty n) = Z.of_N n.
Proof.
  unfold pretty, pretty_N. case_decide as Hn; [by subst|]. by rewrite atoi_digits_pretty.
Qed.

Lemma atoi_digits_none c s acc : digit_of c = None -> atoi_digits acc (String c s) = acc.
Proof. simpl. by intros ->. Qed.

(** A character that starts a number is a digit: not a blank, not a sign. *)
Lemma digit_not_space c d : digit_of c = Some d ->
  is_space c = false /\ c <> "-"%char /\ c <> "+"%char.
Proof.
  unfold digit_of, is_space. case_decide as Hd; [|done]. intros _.
  split; [apply bool_decide_eq_false; lia|]. split; intros ->; vm_compute in Hd; by destruct Hd as [[] _].
Qed.

Lemma pretty_N_head (n : N) : exists c s d, pretty n = String c s /\ digit_of c = Some d.
Proof.
  destruct (decide (n = 0%N)) as [->|Hn]; [by exists "0"%char, "", 0|].
  destruct (pretty n) as [|c s] eqn:Hp.
  - pose proof (atoi_digits_N n) as Ha. rewrite Hp in Ha. cbn [atoi_digits] in Ha. lia.
  - destruct (digit_of c) as [d|] eqn:Hd; [by exists c, s, d|].
    pose proof (atoi_digits_N n) as Ha. rewrite Hp, atoi_digits_none in Ha by done. lia.
Qed.

Lemma atoi_saturate v : in_s 32 v -> i32 (Z.max (- 2 ^ 63) (Z.min (2 ^ 63 - 1) v)) = v.
Proof.
  intros [H1 H2]. change (32 - 1) with 31 in *. rewrite Z.min_r, Z.max_r by lia.
  by apply wraps_id.
Qed.

Lemma atoi_N (n : N) : in_s 32 (Z.of_N n) -> atoi (pretty n) = Z.of_N n.
Proof.
  intros Hn. destruct (pretty_N_head n) as (c & s & d & Hp & Hd).
  pose proof (digit_not_space c d Hd) as (Hs & Hm & Hpl).
  rewrite Hp. cbn [atoi]. rewrite Hs, !decide_False by done.
  rewrite <- Hp, atoi_digits_N. by apply atoi_saturate.
Qed.

(** Every frequency the environment variable spells in decimal, signed
    or not, is the frequency the library samples with; without the variable
    it is 1000. *)
Theorem sampling_freq_decimal f :
  in_s 32 f -> sampling_freq (Some (dec f)) = f /\ sampling_freq None = 1000.
Proof.
  intros Hf. split; [|done]. unfold sampling_freq, dec. destruct f as [|p|p].
  - by vm_compute.
  - apply (atoi_N (Npos p)). done.
  - change (pretty (Zneg p)) with (String "-"%char (pretty (Npos p))). cbn [atoi].
    replace (is_space "-") with false by (by vm_compute). rewrite decide_True by done.
    rewrite atoi_digits_N. by apply atoi_saturate.
Qed.

(** ** Triples *)

(** The references whose tags a call reads, when it gets that far, are not
    null. *)
Definition no_null_reference (c : call) : Prop :=
  match c with
  | ContainerRecordList15_call retobj holder _ _ _ _ => is_Some holder /\ is_Some retobj
  | ContainerRecordList6_call holder _ ref _ _ _ => is_Some holder /\ is_Some ref
  | ContainerRecordList4_call holder _ _ _ => is_Some holder
  | ContainerRecordListI5_call _ holder ref _ _ _ => is_Some holder /\ is_Some ref
  | ContainerRecordList14_call retobj holder _ _ _ => is_Some holder /\ is_Some retobj
  | ContainerRecordList5_call _ holder ref _ _ _ => is_Some holder /\ is_Some ref
  | ContainerRecordMap15_call retobj holder key _ _ _ => is_Some holder /\ is_Some retobj /\ is_Some key
  | ContainerRecordMap4_call holder _ _ _ => is_Some holder
  | ContainerRecordMap5_call holder map _ _ _ => is_Some holder /\ is_Some map
  | ContainerRecordMap16_call retobj holder key value _ _ _ =>
      is_Some holder /\ is_Some retobj /\ is_Some key /\ is_Some value
  | TagConstructRecord_call obj _ _ _ => is_Some obj
  | TagPutFieldRecord_call holder ref _ _ _ => is_Some holder /\ is_Some ref
  | TagAASTORERecord_call holder _ ref _ _ => is_Some holder /\ is_Some ref
  | TagUseRecord_call _ obj _ _ => is_Some obj
  | _ => True
  end.

(** A call that reads no unset variable, or a machine on which such a read
    gives a value. *)
Definition call_defined (stack : nat -> option Z) (c : call) : Prop :=
  (forall n, is_Some (stack n)) \/ no_null_reference c.

Section Triples.
Context {L W J : Type} {HSink : Sink L W} {HJ : JVMTI J} {HL : JVMTILaws J}.
Variables (clock : nat -> Z * Z) (rand : nat -> Z) (stack : nat -> option Z) (freq : Z).

Abbreviation assertion := (thread L -> process W J -> Prop) (only parsing).

Definition triple {A} (P : assertion) (m : M L W J A) (Q : A -> assertion) : Prop :=
  forall th pr, P th pr -> exists a th' pr', m th pr = Some (a, (th', pr')) /\ Q a th' pr'.

Lemma triple_ret {A} (a : A) (P : A -> assertion) : triple (P a) (mret a) P.
Proof. intros th pr HP. by exists a, th, pr. Qed.

Lemma triple_bind {A B} P Q R (m : M L W J A) (f : A -> M L W J B) :
  triple P m Q -> (forall a, triple (Q a) (f a) R) -> triple P (m ≫= f) R.
Proof.
  intros Hm Hf th pr HP. destruct (Hm _ _ HP) as (a & th1 & pr1 & Heq & HQ).
  destruct (Hf a _ _ HQ) as (b & th2 & pr2 & Heq' & HR).
  exists b, th2, pr2. unfold mbind, M_bind. by rewrite Heq.
Qed.

Lemma triple_assoc {A B C} P R (m : M L W J A) (f : A -> M L W J B) (k : B -> M L W J C) :
  triple P (m ≫= fun a => f a ≫= k) R -> triple P ((m ≫= f) ≫= k) R.
Proof.
  intros Hm th pr HP. destruct (Hm th pr HP) as (c & th' & pr' & Heq & HR).
  exists c, th', pr'. split; [|done]. revert Heq. unfold mbind, M_bind.
  by destruct (m th pr) as [[a [th1 pr1]]|].
Qed.

Lemma triple_ret_bind {A B} P R (a : A) (f : A -> M L W J B) :
  triple P (f a) R -> triple P (mret a ≫= f) R.
Proof. done. Qed.

Lemma triple_pure {A} (phi : Prop) P (m : M L W J A) Q :
  (phi -> triple P m Q) -> triple (fun th pr => phi /\ P th pr) m Q.
Proof. intros Hm th pr [Hphi HP]. by apply Hm. Qed.

Lemma triple_weaken {A} (P P' : assertion) (m : M L W J A) (Q Q' : A -> assertion) :
  triple P m Q -> (forall th pr, P' th pr -> P th pr) -> (forall a th pr, Q a th pr -> Q' a th pr) ->
  triple P' m Q'.
Proof.
  intros Hm HP HQ th pr Hp. destruct (Hm th pr (HP _ _ Hp)) as (a & th' & pr' & Heq & Hq).
  exists a, th', pr'. auto.
Qed.

Lemma triple_gets {A} (P : assertion) (f : thread L -> A) : triple P (gets f) (fun _ => P).
Proof. intros th pr HP. by exists (f th), th, pr. Qed.
Lemma triple_pgets {A} (P : assertion) (f : process W J -> A) : triple P (pgets f) (fun _ => P).
Proof. intros th pr HP. by exists (f pr), th, pr. Qed.
Lemma triple_modify (P : assertion) (f : thread L -> thread L) :
  (forall th pr, P th pr -> P (f th) pr) -> triple P (modify f) (fun _ => P).
Proof. intros HP th pr Hp. exists tt, (f th), pr. auto. Qed.
Lemma triple_pmodify (P : assertion) (f : process W J -> process W J) :
  (forall th pr, P th pr -> P th (f pr)) -> triple P (pmodify f) (fun _ => P).
Proof. intros HP th pr Hp. exists tt, th, (f pr). auto. Qed.

(** ** The invariant *)

(** The sink keeps an invariant and takes every record in range. *)
Variable sink_inv : L -> W -> Prop.
Hypothesis sink_add_ok : forall id r l w, sink_inv l w -> rec_wf r ->
  exists l' w', sink_add id r l w = Some (l', w') /\ sink_inv l' w'.
Hypothesis sink_addString_ok : forall id s l w, sink_inv l w ->
  exists l' w', sink_addString id s l w = Some (l', w') /\ sink_inv l' w'.

(** Ghost state: the environments of the library, the object each tag was
    handed out for. *)
Record ghost := { g_envs : gset Z; g_owner : gmap Z object }.

Definition grows (g g' : ghost) : Prop := g_envs g ⊆ g_envs g' /\ g_owner g ⊆ g_owner g'.

#[local] Instance grows_refl : Reflexive grows.
Proof. intros g. by split. Qed.
#[local] Instance grows_trans : Transitive grows.
Proof. intros g1 g2 g3 [H1 H2] [H3 H4]. split; by etrans. Qed.

(** The tag of an object in an environment: none, a cached failure, or one
    handed out for this object. *)
Definition tag_of (g : ghost) (o : object) (t : Z) : Prop :=
  t = 0 \/ t = -1 \/ g_owner g !! t = Some o.

Record tags_ok (g : ghost) (j : J) (top : Z) : Prop := {
  tags_envs : g_envs g ⊆ environments j;
  tags_owned e o : e ∈ g_envs g -> tag_of g o (GetTag e o j);
  tags_owner t o : g_owner g !! t = Some o -> 10 <= t < top;
}.

(** [n] more tags can be handed out without overflow of the counter. *)
Record inv (n : nat) (g : ghost) (th : thread L) (pr : process W J) : Prop := {
  inv_sink : sink_inv (t_sink th) (p_sink pr);
  inv_tags : tags_ok g (p_jvm pr) (global_tag pr);
  inv_top : 10 <= global_tag pr /\ global_tag pr + Z.of_nat n <= 2 ^ 63 - 1;
  inv_global e : e ∈ jvmti_env pr -> e ∈ g_envs g;
  inv_local e : local_jvmti_env th = Some e -> e ∈ g_envs g;
}.

(** Both environments are set up. *)
Definition ready (th : thread L) (pr : process W J) : Prop :=
  is_Some (local_jvmti_env th) /\ jvmti_env pr <> [].

(** A tag reserved for an object. *)
Definition owns (r : option (Z * object)) (g : ghost) : Prop :=
  match r with Some (t, o) => g_owner g !! t = Some o | None => True end.

Variable g0 : ghost.

Definition K (n : nat) (b : bool) (r : option (Z * object)) : assertion := fun th pr =>
  exists g, grows g0 g /\ owns r g /\ inv n g th pr /\ (b -> ready th pr).

Lemma owns_grows r g g' : grows g g' -> owns r g -> owns r g'.
Proof. intros [_ Hg]. destruct r as [[t o]|]; [|done]. simpl. intros. by eapply lookup_weaken. Qed.

Lemma tag_of_grows g g' o t : grows g g' -> tag_of g o t -> tag_of g' o t.
Proof.
  intros [_ Hg] [?|[?|Ho]]; [by left|by right; left|]. do 2 right. by eapply lookup_weaken.
Qed.

(** ** Triples of the primitives *)

Lemma now_triple n b r : triple (K n b r) (now clock) (fun t th pr => in_u 64 t /\ K n b r th pr).
Proof.
  intros th pr (g & Hg & Ho & [] & Hr). unfold now.
  eexists _, th, (tick_clock pr). split; [reflexivity|].
  split; [apply wrapu_range; lia|]. exists g. split_and!; try done.
Qed.

Lemma rand_triple n b r : triple (K n b r) (rand_ rand) (fun _ => K n b r).
Proof.
  intros th pr (g & Hg & Ho & [] & Hr).
  eexists _, th, (tick_rand pr). split; [reflexivity|]. exists g. split_and!; try done.
Qed.

Lemma add_triple n b r id (x : record_of id) :
  rec_wf x -> triple (K n b r) (add id x) (fun _ => K n b r).
Proof.
  intros Hx th pr (g & Hg & Ho & [Hs] & Hr).
  destruct (sink_add_ok id x _ _ Hs Hx) as (l' & w' & Heq & Hs').
  exists tt, (set_t_sink l' th), (set_p_sink w' pr). unfold add. rewrite Heq. split; [done|].
  exists g. split_and!; try done.
Qed.

Lemma addString_triple n b r id s : triple (K n b r) (addString id s) (fun _ => K n b r).
Proof.
  intros th pr (g & Hg & Ho & [Hs] & Hr).
  destruct (sink_addString_ok id s _ _ Hs) as (l' & w' & Heq & Hs').
  exists tt, (set_t_sink l' th), (set_p_sink w' pr). unfold addString. rewrite Heq. split; [done|].
  exists g. split_and!; try done.
Qed.

(** *** Setting up the environments *)

Lemma tags_ok_GetEnv g j top :
  tags_ok g j top ->
  tags_ok {| g_envs := {[(GetEnv j).1]} ∪ g_envs g; g_owner := g_owner g |} (GetEnv j).2 top.
Proof.
  intros [He Ht Ho]. split; simpl; [|intros e o; rewrite elem_of_union, elem_of_singleton|done].
  - rewrite GetEnv_environments. set_solver.
  - intros [->|Hin].
    + left. apply GetEnv_untagged.
    + rewrite GetEnv_GetTag by set_solver. by apply Ht.
Qed.

Lemma get_envs_S n (j : J) :
  get_envs (S n) j = let '(e, j) := GetEnv j in let '(es, j) := get_envs n j in (e :: es, j).
Proof. reflexivity. Qed.

Lemma get_envs_ok n g j top :
  tags_ok g j top ->
  exists g', grows g g' /\ tags_ok g' (get_envs n j).2 top /\
    (forall e, e ∈ (get_envs n j).1 -> e ∈ g_envs g') /\ g_owner g' = g_owner g.
Proof.
  revert g j. induction n as [|n IH]; intros g j Hj.
  - exists g. split_and!; [done|done| |done]. intros e He. by apply not_elem_of_nil in He.
  - pose proof (tags_ok_GetEnv g j top Hj) as Hj1.
    destruct (IH _ _ Hj1) as (g' & [Hg1 Hg2] & Ht & Hin & Ho).
    rewrite get_envs_S, (surjective_pairing (GetEnv j)). simpl.
    destruct (get_envs n (GetEnv j).2) as [es j2]. simpl in *.
    exists g'. split; [split; [set_solver|exact Hg2]|]. split; [exact Ht|]. split; [|by rewrite Ho].
    intros e [->|He]%elem_of_cons; [set_solver|by apply Hin].
Qed.

Lemma ready_global th pr : ready th pr -> exists e, head (jvmti_env pr) = Some e /\ e ∈ jvmti_env pr.
Proof. intros [_ Hne]. destruct (jvmti_env pr) as [|e es]; [done|]. exists e. split; [done|left]. Qed.

Lemma init_jvmti_triple n b r : triple (K n b r) init_jvmti (fun _ => K n true r).
Proof.
  intros th pr (g & Hg & Ho & Hi & _). unfold init_jvmti.
  assert (exists pr1 g1, (valid ← pgets jvmti_valid;
     if negb valid then pmodify (fun pr => let '(es, j) := get_envs (JVMTI_BUCKET_SIZE + 1) (p_jvm pr) in
                            set_envs es j pr) else mret tt) th pr = Some (tt, (th, pr1)) /\
     grows g g1 /\ inv n g1 th pr1 /\ jvmti_env pr1 <> []) as (pr1 & g1 & Heq & Hg1 & Hi1 & Hne).
  { unfold mbind, M_bind, pgets, jvmti_valid. case_bool_decide as Hne; cbv [negb].
    - by exists pr, g.
    - unfold pmodify. destruct Hi as [Hs Ht Htop Hgl Hl].
      destruct (get_envs_ok (JVMTI_BUCKET_SIZE + 1) g (p_jvm pr) _ Ht) as (g1 & Hg1 & Ht1 & Hin & _).
      assert ((get_envs (JVMTI_BUCKET_SIZE + 1) (p_jvm pr)).1 <> []) as Hne1.
      { unfold JVMTI_BUCKET_SIZE. rewrite Nat.add_1_r, get_envs_S.
        destruct (GetEnv (p_jvm pr)) as [e j]. by destruct (get_envs 1024 j). }
      destruct (get_envs (JVMTI_BUCKET_SIZE + 1) (p_jvm pr)) as [es j]. simpl in *.
      eexists _, g1. split; [reflexivity|]. split; [exact Hg1|]. split; [|exact Hne1].
      split; simpl; try done. intros e He. apply Hl in He. destruct Hg1 as [Hg1 _]. set_solver. }
  unfold mbind, M_bind in Heq |- *. unfold pgets at 1 in Heq. unfold pgets at 1.
  rewrite Heq. clear Heq. unfold gets. destruct (local_jvmti_env th) as [e|] eqn:Hloc.
  - exists tt, th, pr1. split; [done|]. exists g1.
    split; [by etrans|]. split; [by eapply owns_grows|]. split; [done|].
    intros _. split; [by rewrite Hloc|done].
  - unfold pgets. destruct Hi1 as [Hs Ht Htop Hgl Hl].
    pose proof (tags_ok_GetEnv g1 (p_jvm pr1) _ Ht) as Ht2.
    destruct (GetEnv (p_jvm pr1)) as [e j]. simpl in Ht2. unfold pmodify, modify.
    set (g2 := {| g_envs := {[e]} ∪ g_envs g1; g_owner := g_owner g1 |}) in *.
    assert (grows g1 g2) as Hg2 by (split; [set_solver|done]).
    eexists tt, _, _. split; [reflexivity|].
    exists g2. split; [etrans; [exact Hg|by etrans]|]. split; [eapply owns_grows, Ho; by etrans|]. split.
    + split; simpl; try done; [intros e' He'; apply Hgl in He'; set_solver|].
      intros e' [= <-]. set_solver.
    + intros _. split; [by eexists|done].
Qed.

(** *** Reading and writing tags *)

Lemma tags_ok_SetTag g j top e o t :
  tags_ok g j top -> e ∈ g_envs g -> tag_of g o t -> tags_ok g (SetTag e o t j) top.
Proof.
  intros [He Ht Ho] Hin Htag. split; [by rewrite SetTag_environments| |done].
  intros e' o' He'. destruct (decide ((e', o') = (e, o))) as [[= -> ->]|Hne].
  - rewrite SetTag_GetTag by set_solver. done.
  - rewrite SetTag_GetTag_ne by done. by apply Ht.
Qed.

(** The invariant with the local environment named. *)
Definition KE (n : nat) (r : option (Z * object)) (e : Z) : assertion := fun th pr =>
  K n true r th pr /\ local_jvmti_env th = Some e.

Lemma local_env_triple n r : triple (K n true r) local_env (KE n r).
Proof.
  intros th pr (g & Hg & Ho & Hi & Hr). destruct (Hr I) as [[e He] Hne].
  exists e, th, pr. unfold local_env, mbind, M_bind, gets, require. rewrite He.
  split; [done|]. split; [|done]. by exists g.
Qed.

Lemma global_env_triple n r e :
  triple (KE n r e) global_env (fun ge th pr => KE n r e th pr /\ ge ∈ jvmti_env pr).
Proof.
  intros th pr [(g & Hg & Ho & Hi & Hr) He].
  destruct (ready_global th pr (Hr I)) as (ge & Hge & Hin).
  exists ge, th, pr. unfold global_env, mbind, M_bind, pgets, require. rewrite Hge.
  split; [done|]. split; [|done]. split; [|done]. by exists g.
Qed.

(** The reference is not null, or a read of an unset variable is defined. *)
Definition readable (obj : jobject) : Prop := is_Some obj \/ forall n, is_Some (stack n).

Lemma uninitialised_triple n r e obj : readable obj ->
  triple (KE n r e) (uninitialised stack) (fun v th pr => (is_Some obj \/ is_Some v) /\ KE n r e th pr).
Proof.
  intros Hread th pr [(g & Hg & Ho & [] & Hr) He].
  eexists _, th, (tick_tag pr). split; [reflexivity|].
  split; [destruct Hread as [?|Hs]; [by left|right; apply Hs]|]. split; [|done].
  exists g. split; [done|]. split; [done|]. split; [|done]. by split.
Qed.

(** What a read of a tag gives. *)
Definition tag_read (e : Z) (obj : jobject) (t : Z) (pr : process W J) : Prop :=
  match obj with Some o => t = GetTag e o (p_jvm pr) | None => True end.

(** The variable is set after [GetTag], unless the reference is null. *)
Lemma env_GetTag_triple {B} (P : assertion) e obj v (f : Z -> M L W J B) Q :
  is_Some obj \/ is_Some v ->
  (forall t, triple (fun th pr => P th pr /\ tag_read e obj t pr) (f t) Q) ->
  triple P (var ← env_GetTag e obj v; t ← require var; f t) Q.
Proof.
  intros Hset Hf th pr HP. destruct obj as [o|].
  - apply (Hf (GetTag e o (p_jvm pr)) th pr). done.
  - destruct Hset as [[o Ho]|[t ->]]; [done|]. apply (Hf t th pr). done.
Qed.

(** Writing an allowed tag through one of the environments. *)
Lemma SetTag_K n r e o t th pr g :
  grows g0 g -> owns r g -> inv n g th pr -> ready th pr -> e ∈ g_envs g -> tag_of g o t ->
  K n true r th (set_jvm (SetTag e o t (p_jvm pr)) pr).
Proof.
  intros Hg Ho [Hs Ht Htop Hgl Hl] Hr He Htag. exists g.
  split; [done|]. split; [done|]. split; [|done]. split; simpl; try done. by apply tags_ok_SetTag.
Qed.

(** The two writes of [get_tag] through the local environment. *)
Lemma cache_triple n r e ge obj t :
  triple (fun th pr => KE n r e th pr /\ ge ∈ jvmti_env pr /\ (t = -1 \/ tag_read ge obj t pr))
    (env_SetTag e obj t) (fun _ => K n true r).
Proof.
  intros th pr ([HK He] & Hge & Ht). destruct obj as [o|]; [|by exists tt, th, pr].
  destruct HK as (g & Hg & Ho & Hi & Hr).
  eexists tt, th, _. split; [reflexivity|].
  assert (tag_of g o t) as Htag.
  { destruct Ht as [->|Ht]; [by right; left|]. rewrite Ht.
    apply (tags_owned _ _ _ (inv_tags _ _ _ _ Hi)), (inv_global _ _ _ _ Hi), Hge. }
  apply (SetTag_K n r e o t th pr g); try done; [by apply Hr|by apply (inv_local _ _ _ _ Hi)].
Qed.

Lemma get_tag_triple n r obj : readable obj ->
  triple (K n true r) (get_tag stack obj) (fun t th pr => t <> 0 /\ K n true r th pr).
Proof.
  intros Hread. unfold get_tag. eapply triple_bind; [apply local_env_triple|]. intros e.
  eapply triple_bind; [by apply (uninitialised_triple _ _ _ obj)|]. intros v. apply triple_pure. intros Hset.
  apply env_GetTag_triple; [done|]. intros t. case_decide as Ht.
  { intros th pr [[HK _] _]. by exists t, th, pr. }
  eapply triple_bind; [eapply triple_weaken; [apply global_env_triple|by intros ?? [? _]|done]|].
  intros ge. apply env_GetTag_triple; [right; by eexists|]. intros t'. case_decide as Ht'.
  - eapply triple_bind; [eapply triple_weaken; [apply (cache_triple n r e ge obj t')| |done]|].
    + intros th pr [[? ?] ?]. auto.
    + intros []. intros th pr HK. by exists t', th, pr.
  - eapply triple_bind; [eapply triple_weaken; [apply (cache_triple n r e ge obj (-1))| |done]|].
    + intros th pr [[? ?] ?]. auto.
    + intros []. intros th pr HK. by exists (-1), th, pr.
Qed.

(** Writing a reserved tag. *)
Lemma set_tag_triple n obj t :
  triple (K n true ((fun o => (t, o)) <$> obj)) (set_tag obj t) (fun _ => K n true None).
Proof.
  intros th pr (g & Hg & Ho & Hi & Hr). specialize (Hr I).
  destruct (Hr) as [[e He] Hne]. destruct (ready_global th pr Hr) as (ge & Hge & Hin).
  unfold set_tag, local_env, global_env, mbind, M_bind, gets, pgets, require. rewrite He.
  destruct obj as [o|]; simpl.
  - rewrite Hge. eexists _, _, _. split; [reflexivity|]. simpl in Ho.
    assert (e ∈ g_envs g) as Hein by (by apply (inv_local _ _ _ _ Hi)).
    assert (ge ∈ g_envs g) as Hgein by (by apply (inv_global _ _ _ _ Hi)).
    assert (tag_of g o t) as Htag by (by do 2 right).
    exists g. split; [done|]. split; [done|]. split; [|done].
    destruct Hi as [Hs Ht Htop Hgl Hl]. split; simpl; try done.
    by do 2 (apply tags_ok_SetTag; [|done|done]).
  - rewrite Hge. eexists _, _, _. split; [reflexivity|]. by exists g.
Qed.

(** Handing out a tag reserves it. *)
Lemma next_tag_triple n b obj :
  triple (K (S n) b None) next_tag (fun t => K n b ((fun o => (t, o)) <$> obj)).
Proof.
  intros th pr (g & Hg & _ & [Hs Ht Htop Hgl Hl] & Hr).
  assert (i64 (global_tag pr + 1) = global_tag pr + 1) as Hnext.
  { apply wraps_id; [lia|]. unfold in_s. change (64 - 1) with 63. lia. }
  eexists _, th, (set_global_tag (global_tag pr + 1) pr).
  unfold next_tag, mbind, M_bind, pgets, pmodify. rewrite Hnext. split; [reflexivity|].
  destruct obj as [o|]; simpl.
  - set (g1 := {| g_envs := g_envs g; g_owner := <[global_tag pr := o]> (g_owner g) |}).
    assert (g_owner g !! global_tag pr = None) as Hfresh.
    { destruct (g_owner g !! global_tag pr) eqn:Hx; [|done].
      apply (tags_owner _ _ _ Ht) in Hx. lia. }
    assert (grows g g1) as Hg1 by (split; [done|by apply insert_subseteq]).
    exists g1. split; [by etrans|]. split; [apply lookup_insert_eq|]. split; [|done].
    split; simpl; try done; [|lia]. destruct Ht as [H1 H2 H3]. split; [done| |].
    + intros e o' He. by eapply tag_of_grows, H2.
    + intros t o'. simpl. rewrite lookup_insert_Some. intros [[<- <-]|[_ Ho]]; [lia|].
      apply H3 in Ho. lia.
  - exists g. split; [done|]. split; [done|]. split; [|done]. split; simpl; try done; [|lia].
    destruct Ht as [H1 H2 H3]. split; [done|done|]. intros t o Ho. apply H3 in Ho. lia.
Qed.

(** ** Triples of the entry points *)

Lemma K_forget n b r th pr : K n b r th pr -> K n false None th pr.
Proof. intros (g & Hg & _ & Hi & _). by exists g. Qed.

Lemma K_fewer n b r th pr : K (S n) b r th pr -> K n b r th pr.
Proof.
  intros (g & Hg & Ho & [Hs Ht Htop Hgl Hl] & Hr). exists g.
  split; [done|]. split; [done|]. split; [|done]. split; try done. lia.
Qed.

(** Assignments to the flags and the string map. *)
Lemma modify_triple n b r f :
  (forall th, t_sink (f th) = t_sink th /\ local_jvmti_env (f th) = local_jvmti_env th) ->
  triple (K n b r) (modify f) (fun _ => K n b r).
Proof.
  intros Hf. apply triple_modify. intros th pr (g & Hg & Ho & [Hs Ht Htop Hgl Hl] & Hr).
  destruct (Hf th) as [Hf1 Hf2]. exists g. split; [done|]. split; [done|]. split.
  - split; rewrite ?Hf1, ?Hf2; done.
  - unfold ready. by rewrite Hf2.
Qed.

(** The tail of a computation: what holds then is more than enough. *)
Lemma triple_tail {A} n b r (m : M L W J A) :
  triple (K n b r) m (fun _ => K n b r) -> triple (K n b r) m (fun _ => K n false None).
Proof. intros Hm. eapply triple_weaken; [exact Hm|done|]. intros a th pr. apply K_forget. Qed.

Lemma holder_tag_get_tag h (th : thread L) (pr : process W J) t s :
  get_tag stack h th pr = Some (t, s) -> t <> 0 -> holder_tag stack h th pr = Some (t, s).
Proof.
  intros Heq Ht. unfold holder_tag, mbind, M_bind. rewrite Heq.
  destruct s as [th' pr']. by rewrite decide_False.
Qed.

Lemma holder_tag_triple n r h : readable h ->
  triple (K n true r) (holder_tag stack h) (fun _ => K n true r).
Proof.
  intros Hread th pr HK. destruct (get_tag_triple n r h Hread th pr HK) as (t & th' & pr' & Heq & Ht & HK').
  exists t, th', pr'. split; [by apply holder_tag_get_tag|done].
Qed.

Lemma bit_range w (P : Prop) `{Decision P} : 0 < w -> in_u w (if decide P then 1 else 0).
Proof.
  intros Hw. unfold in_u. pose proof (Z.pow_gt_1 2 w). case_decide; lia.
Qed.

Lemma zero_range w : 0 <= w -> in_u w 0.
Proof. intros Hw. split; [lia|]. by apply Z.pow_pos_nonneg. Qed.

(** Members of a record are in range: conversions are, and so are the
    arguments that are stored as they are. *)
Ltac record_in_range :=
  cbv [rec_wf];
  match goal with |- Forall2 _ ?l _ => let l' := eval vm_compute in l in change l with l' end;
  cbn [rec_vals record_of record_of_type pf_record nw_record co_record aa_record us_record fr_record
       ls_record mp_record cl_record fv_record st_record sf_record ss_record
       container_vals app];
  repeat (apply Forall2_cons; split); try apply Forall2_nil_2;
  cbn; first [assumption | apply wrapu_range; lia | apply bit_range; lia | apply zero_range; lia].

Ltac readable := first [assumption | left; assumption | right; assumption].

Ltac triple_step :=
  lazymatch goal with
  | |- triple _ (now clock ≫= _) _ =>
      eapply triple_bind; [apply now_triple|intros ?; apply triple_pure; intros ?]
  | |- triple _ (init_jvmti ≫= _) _ => eapply triple_bind; [apply init_jvmti_triple|intros []]
  | |- triple _ (get_tag _ _ ≫= _) _ =>
      eapply triple_bind; [apply get_tag_triple; readable|intros ?; apply triple_pure; intros ?]
  | |- triple _ (holder_tag _ _ ≫= _) _ => eapply triple_bind; [apply holder_tag_triple; readable|intros ?]
  | |- triple _ (rand_ _ ≫= _) _ => eapply triple_bind; [apply rand_triple|intros ?]
  | |- triple _ (gets _ ≫= _) _ => eapply triple_bind; [apply triple_gets|intros ?]
  | |- triple _ (pgets _ ≫= _) _ => eapply triple_bind; [apply triple_pgets|intros ?]
  | |- triple _ (modify _ ≫= _) _ =>
      eapply triple_bind; [apply modify_triple; done|intros []]
  | |- triple _ (add _ _ ≫= _) _ =>
      eapply triple_bind; [apply add_triple; record_in_range|intros []]
  | |- triple _ (addString _ _ ≫= _) _ => eapply triple_bind; [apply addString_triple|intros []]
  | |- triple _ ((_ ≫= _) ≫= _) _ => apply triple_assoc
  | |- triple _ (mret _ ≫= _) _ => apply triple_ret_bind
  | |- triple _ ((if ?b then addString _ _ else addString _ _) ≫= _) _ => destruct b
  | |- triple _ ((match ?x with _ => _ end) ≫= _) _ => destruct x
  | |- triple _ (if ?b then _ else _) _ => destruct b eqn:?
  | |- triple _ (match ?b with _ => _ end) _ => destruct b
  | |- triple _ (let _ := _ in _) _ => cbv zeta
  | |- triple _ (mret _) _ => apply triple_tail; apply (triple_ret _ (fun _ => _))
  | |- triple _ (add _ _) _ => apply triple_tail; apply add_triple; record_in_range
  | |- triple _ (modify _) _ => apply triple_tail; apply modify_triple; done
  | |- triple _ (gets _) _ => apply triple_tail; apply triple_gets
  end.

Lemma container_op_triple {A} n (a : A) h f : readable h ->
  (forall t, triple (K n true None) (f t) (fun _ => K n false None)) ->
  triple (K n false None) (container_op stack a h f) (fun _ => K n false None).
Proof.
  intros Hh Hf. unfold container_op. repeat triple_step.
  eapply triple_bind; [apply Hf|]. intros []. repeat triple_step.
Qed.

Lemma discard_triple {A} P (m : M L W J A) Q :
  triple P m (fun _ => Q) -> triple P (discard m) (fun _ => Q).
Proof. intros Hm. unfold discard. eapply triple_bind; [exact Hm|]. intros a. apply (triple_ret tt (fun _ => Q)). Qed.

Ltac unfold_call :=
  unfold addPutFieldRecord, addNewRecord, addConstructRecord, addAASTORERecord, addUseRecord,
    addFreeRecord, addFieldValueRecordJint, addFieldValueRecordJlong, addFieldValueRecordJfloat,
    addFieldValueRecordJdouble, addFieldValueRecordJstring, addStaticFieldValueRecordJint,
    addStaticFieldValueRecordJlong, addStaticFieldValueRecordJfloat, addStaticFieldValueRecordJdouble,
    addStaticFieldValueRecordJstring, addContainerRecordList15, addContainerRecordList6,
    addContainerRecordList4, addContainerRecordListI5, addContainerRecordList14,
    addContainerRecordList5, addContainerRecordMap15, addContainerRecordMap4,
    addContainerRecordMap5, addContainerRecordMap16, addContainerLineInfoRecord,
    decreaseContainerFilterFlag, unsetIsRightAfter, enableRecord, disableRecord, enablePrintNew,
    disablePrintNew, getPrintNew, addTagConstructRecord, addTagPutFieldRecord,
    addTagAASTORERecord, addTagUseRecord.

(** An entry point that does not hand out a tag. *)
Lemma exec_triple_plain n c :
  (forall o ty l k s, c <> TagNewRecord_call o ty l k s) -> call_ok c -> call_defined stack c ->
  triple (K n false None) (exec clock rand stack freq c) (fun _ => K n false None).
Proof.
  intros Hc Hok Hdef. destruct c; cbn -[in_s] in Hok; unfold exec; try (exfalso; by eapply Hc);
    (destruct Hdef as [Hdef|Hdef]; [|cbn in Hdef; repeat match goal with H : _ /\ _ |- _ => destruct H end]);
    try apply discard_triple; unfold_call;
    try (apply container_op_triple; [readable|intros ?]); repeat triple_step.
Qed.

Lemma addTagNewRecord_triple n obj ty l k s :
  in_s 32 ty ->
  triple (K (S n) false None) (addTagNewRecord clock rand freq obj ty l k s) (fun _ => K n false None).
Proof.
  intros Hty. unfold addTagNewRecord. triple_step. destruct (skips freq a).
  { eapply triple_weaken; [apply (triple_ret tt (fun _ => K (S n) false None))|done|].
    intros ?. apply K_fewer. }
  triple_step. eapply triple_bind; [apply (next_tag_triple n false obj)|]. intros t. cbv beta.
  eapply triple_bind; [apply add_triple; record_in_range|]. intros [].
  triple_step. eapply triple_bind; [apply set_tag_triple|]. intros [].
  intros th pr (g & Hg & _ & [] & Hr). eexists tt, th, (set_new_called true pr).
  split; [reflexivity|]. exists g. split; [done|]. split; [done|]. split; [by split|done].
Qed.

Lemma exec_triple n c :
  call_ok c -> call_defined stack c -> triple (K (S n) false None) (exec clock rand stack freq c) (fun _ => K n false None).
Proof.
  intros Hok Hdef.
  assert ((exists o ty l k s, c = TagNewRecord_call o ty l k s) \/
          forall o ty l k s, c <> TagNewRecord_call o ty l k s) as [Hn|Hn]
    by (destruct c; (right; done) || (left; by repeat eexists)).
  - destruct Hn as (o & ty & l & k & s & ->). by apply addTagNewRecord_triple.
  - eapply triple_weaken; [by apply (exec_triple_plain (S n))|done|intros ? ? ?; apply K_fewer].
Qed.

Lemma exec_all_triple n cs :
  Forall (fun c => call_ok c /\ call_defined stack c) cs ->
  triple (K (length cs + n) false None) (exec_all clock rand stack freq cs) (fun _ => K n false None).
Proof.
  induction 1 as [|c cs [Hc Hd] _ IH]; simpl; [apply (triple_ret tt (fun _ => _))|].
  eapply triple_bind; [by apply exec_triple|]. done.
Qed.
End Triples.

(** ** Logs *)

(** What a thread records, as data. *)
Inductive event :=
| Added (id : recorder_id) (r : record_of id)
| AddedString (id : recorder_id) (s : string).

#[export] Instance log_sink W : Sink (list event) W := {
  sink_add id r l w := Some (l ++ [Added id r], w);
  sink_addString id s l w := Some (l ++ [AddedString id s], w);
}.

Definition event_ok (e : event) : Prop :=
  match e with Added id r => rec_wf r | AddedString _ _ => True end.

Lemma log_add_ok {W} id r (l : list event) (w : W) :
  Forall event_ok l -> rec_wf r ->
  exists l' w', sink_add id r l w = Some (l', w') /\ Forall event_ok l'.
Proof.
  intros Hl Hr. eexists _, _. split; [reflexivity|]. apply Forall_app. by repeat constructor.
Qed.

Lemma log_addString_ok {W} id s (l : list event) (w : W) :
  Forall event_ok l ->
  exists l' w', sink_addString id s l w = Some (l', w') /\ Forall event_ok l'.
Proof.
  intros Hl. eexists _, _. split; [reflexivity|]. apply Forall_app. by repeat constructor.
Qed.

(** ** The laws of the tool interface can hold *)

(** A machine that numbers its environments and keeps a table of tags. *)
Record vm := { vm_envs : nat; vm_tags : gmap (Z * positive) Z }.

#[export] Instance vm_jvmti : JVMTI vm := {
  GetEnv j := (Z.of_nat (vm_envs j),
    {| vm_envs := S (vm_envs j);
       vm_tags := filter (fun kv => kv.1.1 <> Z.of_nat (vm_envs j)) (vm_tags j) |});
  GetTag e o j := default 0 (vm_tags j !! (e, o));
  SetTag e o t j := {| vm_envs := vm_envs j; vm_tags := <[(e, o) := t]> (vm_tags j) |};
  environments j := list_to_set (Z.of_nat <$> seq 0 (vm_envs j));
}.

#[export] Instance vm_laws : JVMTILaws vm.
Proof.
  split; cbn -[seq].
  - intros j. rewrite elem_of_list_to_set, list_elem_of_fmap. intros (x & Hx & Hin).
    apply elem_of_seq in Hin. lia.
  - intros j. rewrite seq_S, fmap_app, list_to_set_app_L. simpl. set_solver.
  - intros j o. rewrite map_lookup_filter_None_2; [done|]. right. by intros x _ ?.
  - intros j e o. rewrite elem_of_list_to_set, list_elem_of_fmap. intros (x & -> & Hin).
    apply elem_of_seq in Hin. f_equal. rewrite map_lookup_filter.
    destruct (vm_tags j !! _); [|done]. simpl. by rewrite option_guard_True by (simpl; lia).
  - done.
  - intros e o t j _. by rewrite lookup_insert_eq.
  - intros e o t e' o' j Hne. by rewrite lookup_insert_ne.
Qed.

Definition no_vm : vm := {| vm_envs := 0; vm_tags := ∅ |}.

(** ** Witnesses *)

Lemma is_sampled_object_spec_witness :
  is_sampled_object 10 = bool_decide (0 < 10) /\
  is_sampled_object (Z.lor 10 NOT_SAMPLED_MASK) = bool_decide (0 < Z.lor 10 NOT_SAMPLED_MASK).
Proof.
  split; apply is_sampled_object_spec; apply (bool_decide_unpack _); vm_compute; exact I.
Defined.

Lemma sampling_rate_witness :
  skips 1000 2147483 = false /\ skips 1000 2147484 = true /\
  (1000 = 0 \/ 0 < 1000 /\ 2147483 <= 2 ^ 31 / 1000).
Proof.
  split; [vm_compute; reflexivity|]. split; [vm_compute; reflexivity|].
  apply (proj1 (sampling_rate 1000 2147483 ltac:(lia))). vm_compute. reflexivity.
Defined.

Lemma sampling_freq_decimal_witness :
  sampling_freq (Some "-250") = -250 /\ sampling_freq None = 1000.
Proof.
  apply (sampling_freq_decimal (-250)). apply (bool_decide_unpack _). vm_compute. exact I.
Defined.
