(* ===== verification/NativeProps.v ===== *)
(** * What single entry points of [native/native.cpp] do

    Properties of calls on logs: container records and their line
    information come in pairs, the values that pass through are unchanged,
    and what is recorded for null, untagged and already looked up objects. *)

From S2P Require Import Prelude Layout Records Native NativeSpec.

Section Props.
Context {W J : Type} {HJ : JVMTI J} {HL : JVMTILaws J}.
Variables (clock : nat -> Z * Z) (rand : nat -> Z) (stack : nat -> option Z) (freq : Z).

Abbreviation log_thread := (thread (list event)).
Abbreviation log_process := (process W J).

(** ** Computations that record nothing *)

(** The log and the two flags of container recording are untouched. *)
Definition quiet_step (th th' : log_thread) : Prop :=
  t_sink th' = t_sink th /\ enable th' = enable th /\ is_sampled_container th' = is_sampled_container th.

Definition quiet {A} (m : M (list event) W J A) : Prop :=
  forall th pr a th' pr', m th pr = Some (a, (th', pr')) -> quiet_step th th'.

Lemma quiet_ret {A} (a : A) : quiet (mret a).
Proof. intros th pr a' th' pr' [= <- <- <-]. done. Qed.

Lemma quiet_bind {A B} (m : M (list event) W J A) (f : A -> M _ W J B) :
  quiet m -> (forall a, quiet (f a)) -> quiet (m ≫= f).
Proof.
  intros Hm Hf th pr b th' pr'. unfold mbind, M_bind.
  destruct (m th pr) as [[a [th1 pr1]]|] eqn:Heq; [|done]. intros Heq'.
  apply Hm in Heq as (H1 & H2 & H3). apply Hf in Heq' as (H4 & H5 & H6).
  split_and!; congruence.
Qed.

Lemma quiet_gets {A} (f : log_thread -> A) : quiet (gets f).
Proof. intros th pr a' th' pr' [= <- <- <-]. done. Qed.
Lemma quiet_pgets {A} (f : log_process -> A) : quiet (pgets f).
Proof. intros th pr a' th' pr' [= <- <- <-]. done. Qed.
Lemma quiet_pmodify (f : log_process -> log_process) : quiet (pmodify f).
Proof. intros th pr a' th' pr' [= <- <- <-]. done. Qed.
Lemma quiet_local_env e : quiet (modify (set_local_env e)).
Proof. intros th pr a' th' pr' [= <- <- <-]. done. Qed.
Lemma quiet_require {A} (o : option A) : quiet (require o).
Proof. intros th pr a' th' pr'. destruct o; [|done]. intros [= <- <- <-]. done. Qed.

Create HintDb quiet.
#[local] Hint Resolve quiet_ret quiet_gets quiet_pgets quiet_pmodify quiet_local_env quiet_require : quiet.

Ltac quiet :=
  repeat lazymatch goal with
    | |- forall _, _ => intros ?
    | |- quiet (_ ≫= _) => apply quiet_bind
    | |- quiet (if ?b then _ else _) => destruct b
    | |- quiet (match ?x with _ => _ end) => destruct x
    | |- quiet _ => solve [auto with quiet]
    end.

Lemma quiet_now : quiet (now clock).
Proof. unfold now. quiet. Qed.
Lemma quiet_init_jvmti : quiet init_jvmti.
Proof. unfold init_jvmti. quiet. Qed.
Lemma quiet_get_tag o : quiet (get_tag stack o).
Proof.
  unfold get_tag, local_env, global_env, uninitialised, env_GetTag, env_SetTag. quiet.
Qed.
#[local] Hint Resolve quiet_now quiet_init_jvmti quiet_get_tag : quiet.

(** ** Container records *)

(** The computation appends one record of [id]. *)
Definition adds_one (id : recorder_id) (m : M (list event) W J unit) : Prop :=
  forall th pr th' pr', m th pr = Some (tt, (th', pr')) ->
  exists r, t_sink th' = t_sink th ++ [Added id r] /\ enable th' = enable th /\
    is_sampled_container th' = is_sampled_container th.

Lemma adds_one_add id r : adds_one id (add id r).
Proof. intros th pr th' pr' [= <- <-]. by exists r. Qed.

Lemma adds_one_bind {A} id (m : M (list event) W J A) f :
  quiet m -> (forall a, adds_one id (f a)) -> adds_one id (m ≫= f).
Proof.
  intros Hm Hf th pr th' pr'. unfold mbind, M_bind.
  destruct (m th pr) as [[a [th1 pr1]]|] eqn:Heq; [|done]. intros Heq'.
  apply Hm in Heq as (H1 & H2 & H3). apply Hf in Heq' as (r & H4 & H5 & H6).
  exists r. split_and!; congruence.
Qed.

(** What a container entry point does to the log and the flag. *)
Definition container_effect (id : recorder_id) (th th' : log_thread) : Prop :=
  enable th' = enable th /\
  if enable th
  then (is_sampled_container th' = true /\ exists r, t_sink th' = t_sink th ++ [Added id r]) \/
       (is_sampled_container th' = false /\ t_sink th' = t_sink th)
  else th' = th.

Lemma container_op_effect {A} id (a : A) h f th pr x th' pr' :
  (forall t, adds_one id (f t)) ->
  container_op stack a h f th pr = Some (x, (th', pr')) ->
  x = a /\ container_effect id th th'.
Proof.
  intros Hf. unfold container_op, container_effect. unfold mbind at 1, M_bind at 1, gets at 1.
  destruct (enable th) eqn:Hen; cbn [negb]; [|by intros [= <- <- <-]].
  unfold mbind at 1, M_bind at 1.
  destruct (init_jvmti th pr) as [[[] [th1 pr1]]|] eqn:H1; [|done].
  apply quiet_init_jvmti in H1 as (Hs1 & He1 & _).
  unfold mbind at 1, M_bind at 1.
  destruct (get_tag stack h th1 pr1) as [[t [th2 pr2]]|] eqn:H2; [|done].
  apply quiet_get_tag in H2 as (Hs2 & He2 & _).
  destruct (is_sampled_object t); cbn [negb].
  - unfold mbind at 1, M_bind at 1, modify at 1. unfold mbind, M_bind.
    destruct (f t _ pr2) as [[[] [th3 pr3]]|] eqn:H3; [|done].
    apply Hf in H3 as (r & Hs3 & He3 & Hc3). simpl in *.
    intros [= <- <- <-]. split; [done|]. split; [congruence|]. left. split; [done|].
    exists r. congruence.
  - unfold mbind, M_bind, modify. intros [= <- <- <-]. simpl.
    split; [done|]. split; [congruence|]. right. split; [done|]. congruence.
Qed.

(** The container entry points, with the recorder each writes to. *)
Definition container_recorder (c : call) : option recorder_id :=
  match c with
  | ContainerRecordList15_call _ _ _ _ _ _ | ContainerRecordList6_call _ _ _ _ _ _
  | ContainerRecordList4_call _ _ _ _ | ContainerRecordListI5_call _ _ _ _ _ _
  | ContainerRecordList14_call _ _ _ _ _ | ContainerRecordList5_call _ _ _ _ _ _ => Some listAndSetRecord
  | ContainerRecordMap15_call _ _ _ _ _ _ | ContainerRecordMap4_call _ _ _ _
  | ContainerRecordMap5_call _ _ _ _ _ | ContainerRecordMap16_call _ _ _ _ _ _ _ => Some mapRecord
  | _ => None
  end.

Lemma discard_inv {A} (m : M (list event) W J A) th pr s :
  discard m th pr = Some (tt, s) -> exists a, m th pr = Some (a, s).
Proof.
  unfold discard, mbind, M_bind. destruct (m th pr) as [[a [th1 pr1]]|]; [|done].
  intros [= <-]. by exists a.
Qed.

Ltac adds_one :=
  repeat lazymatch goal with
    | |- forall _, _ => intros ?; cbv beta
    | |- adds_one _ (_ ≫= _) => apply adds_one_bind; [solve [auto with quiet]|]
    | |- adds_one _ (add _ _) => apply adds_one_add
    end.

Lemma container_call_effect c id (th th' : log_thread) (pr pr' : log_process) :
  container_recorder c = Some id ->
  exec clock rand stack freq c th pr = Some (tt, (th', pr')) -> container_effect id th th'.
Proof.
  destruct c; try done; cbn [container_recorder]; intros [= <-]; unfold exec; intros Heq;
    try (apply discard_inv in Heq as [? Heq]); eapply container_op_effect; try exact Heq; adds_one.
Qed.

(** C34: With recording enabled, a container operation followed by its line
    information leaves in the log both or neither, in this order: both when
    the container is sampled, neither when it is not; with recording
    disabled neither, and the operation changes nothing at all.  So the two
    files of a thread always pair up. *)
Theorem container_records_pair_with_lines c id line cls 
    (th th1 th2 : log_thread) (pr pr1 pr2 : log_process) :
  container_recorder c = Some id ->
  exec clock rand stack freq c th pr = Some (tt, (th1, pr1)) ->
  exec clock rand stack freq (ContainerLineInfoRecord_call line cls) th1 pr1 = Some (tt, (th2, pr2)) ->
  if enable th
  then t_sink th2 = t_sink th \/
       exists r l, t_sink th2 = t_sink th ++ [Added id r; Added containerLineInfoRecorder l]
  else th2 = th.
Proof.
  intros Hc Hexec. apply (container_call_effect _ id) in Hexec as [He Heff]; [|done].
  unfold exec, addContainerLineInfoRecord, mbind, M_bind, gets. rewrite He.
  destruct (enable th); cbn [negb orb]; [|intros [= <- _]; done].
  destruct Heff as [[-> (r & Hs)]|[-> Hs]]; cbn.
  - intros [= <- _]. right. eexists r, _. simpl. rewrite Hs, <- app_assoc. done.
  - intros [= <- _]. by left.
Qed.

(** A computation that can only return [a]. *)
Definition returns {A} (m : M (list event) W J A) (a : A) : Prop :=
  forall th pr, fst <$> m th pr = (fun _ => a) <$> m th pr.

Lemma container_op_returns {A} (a : A) h f : returns (container_op stack a h f) a.
Proof.
  intros th pr. unfold container_op, mbind, M_bind, gets, modify.
  destruct (negb (enable th)); [done|]. destruct (init_jvmti th pr) as [[[] [th1 pr1]]|]; [|done].
  destruct (get_tag stack h th1 pr1) as [[t [th2 pr2]]|]; [|done].
  destruct (negb (is_sampled_object t)); [done|]. by destruct (f t _ pr2) as [[[] [th3 pr3]]|].
Qed.

(** The entry points that stand in for a container method return what
    they were given, whatever they record. *)
Theorem container_values_pass_through retobj holder ref key value ret idx succ size cid copid :
  returns (addContainerRecordList15 clock stack retobj holder succ size cid copid) retobj /\
  returns (addContainerRecordListI5 clock stack idx holder ref size cid copid) idx /\
  returns (addContainerRecordList14 clock stack retobj holder size cid copid) retobj /\
  returns (addContainerRecordList5 clock stack ret holder ref size cid copid) ret /\
  returns (addContainerRecordMap15 clock stack retobj holder key size cid copid) retobj /\
  returns (addContainerRecordMap16 clock stack retobj holder key value size cid copid) retobj.
Proof. split_and!; apply container_op_returns. Qed.

(** ** References that are null, and objects without a tag *)

(** A thread whose environments are set up. *)
Record env_ready (th : log_thread) (pr : log_process) (e ge : Z) : Prop := {
  er_local : local_jvmti_env th = Some e;
  er_global : head (jvmti_env pr) = Some ge;
  er_exists : e ∈ environments (p_jvm pr);
}.

Lemma init_jvmti_ready th pr e ge :
  env_ready th pr e ge -> init_jvmti th pr = Some (tt, (th, pr)).
Proof.
  intros [Hl Hg _]. unfold init_jvmti, mbind, M_bind, pgets, gets, jvmti_valid.
  rewrite bool_decide_eq_true_2 by (by intros Hnil; rewrite Hnil in Hg). cbn [negb mret M_ret].
  by rewrite Hl.
Qed.

Lemma env_ready_tick th pr e ge : env_ready th pr e ge -> env_ready th (tick_tag pr) e ge.
Proof. by intros [? ? ?]. Qed.

Lemma local_env_ready th pr e ge : env_ready th pr e ge -> local_env th pr = Some (e, (th, pr)).
Proof. intros [Hl _ _]. unfold local_env, mbind, M_bind, gets, require. by rewrite Hl. Qed.

Lemma global_env_ready th pr e ge : env_ready th pr e ge -> global_env th pr = Some (ge, (th, pr)).
Proof. intros [_ Hg _]. unfold global_env, mbind, M_bind, pgets, require. by rewrite Hg. Qed.

(** The first read of [get_tag], of its own environment; of an unset
    variable for a null reference. *)
Definition first_read (e : Z) (obj : jobject) (pr : log_process) : option Z :=
  match obj with Some o => Some (GetTag e o (p_jvm pr)) | None => stack (tag_reads pr) end.

Lemma get_tag_first th pr e ge obj t :
  env_ready th pr e ge -> first_read e obj pr = Some t -> t <> 0 ->
  get_tag stack obj th pr = Some (t, (th, tick_tag pr)).
Proof.
  intros Hr Ht Hne. unfold get_tag. unfold mbind at 1, M_bind at 1. rewrite (local_env_ready _ _ _ _ Hr).
  destruct obj as [o|]; unfold uninitialised, env_GetTag, pgets, pmodify, mbind, M_bind;
    cbn -[decide] in *; [injection Ht as ->|rewrite Ht; cbn -[decide]]; by rewrite decide_True.
Qed.

(** For a null reference [GetTag] fails without writing [local_tag], and
    the test of [local_tag] reads it unset. *)
Lemma null_reference_undefined th pr e ge :
  env_ready th pr e ge -> stack (tag_reads pr) = None -> get_tag stack None th pr = None.
Proof.
  intros Hr Hs. unfold get_tag. unfold mbind at 1, M_bind at 1. rewrite (local_env_ready _ _ _ _ Hr).
  unfold uninitialised, env_GetTag, pgets, pmodify, mbind, M_bind. cbn -[decide]. by rewrite Hs.
Qed.

Lemma get_tag_second th pr e ge obj :
  env_ready th pr e ge -> first_read e obj pr = Some 0 ->
  get_tag stack obj th pr =
  (let t := match obj with Some o => GetTag ge o (p_jvm pr) | None => 0 end in
   let t := if decide (t <> 0) then t else -1 in
   Some (t, (th, match obj with
                 | Some o => set_jvm (SetTag e o t (p_jvm pr)) (tick_tag pr)
                 | None => tick_tag pr
                 end))).
Proof.
  intros Hr Hz. unfold get_tag. unfold mbind at 1, M_bind at 1. rewrite (local_env_ready _ _ _ _ Hr).
  pose proof (global_env_ready _ _ _ _ (env_ready_tick _ _ _ _ Hr)) as Hg.
  destruct obj as [o|]; unfold uninitialised, env_GetTag, env_SetTag, pgets, pmodify, mbind, M_bind;
    cbn -[decide] in Hz |- *; [injection Hz as Hz|]; rewrite Hz; cbn -[decide];
    rewrite decide_False by (by intros []); cbn -[decide];
    rewrite Hg; cbn -[decide]; [by case_decide|by rewrite decide_False by (by intros [])].
Qed.

(** [get_tag] leaves [local_tag] unset for a null reference, because
    [GetTag] fails without writing it.  On a machine where the read gives
    what the stack holds, the record of a [put] that displaced nothing names
    this as the displaced value. *)
Theorem null_reference_records_garbage th pr e ge h k v size cid copid x :
  env_ready th pr e ge -> enable th = true ->
  0 < GetTag e h (p_jvm pr) < 2 ^ 63 ->
  GetTag e k (p_jvm pr) <> 0 -> GetTag e v (p_jvm pr) <> 0 ->
  stack (S (tag_reads pr)) = Some x -> x <> 0 ->
  exists th' pr' r,
    addContainerRecordMap16 clock stack None (Some h) (Some k) (Some v) size cid copid th pr
    = Some (None, (th', pr')) /\
    t_sink th' = t_sink th ++ [Added mapRecord r] /\
    br_ref_addr (mp_br r) = u32 x.
Proof.
  intros Hr Hen Hh Hk Hv Hs Hx. unfold addContainerRecordMap16, container_op.
  unfold mbind, M_bind, gets, modify, pgets. rewrite Hen. cbn [negb].
  rewrite (init_jvmti_ready _ _ _ _ Hr), (get_tag_first _ _ _ _ (Some h) _ Hr eq_refl) by lia.
  rewrite is_sampled_object_pos by (unfold in_s; lia).
  rewrite bool_decide_eq_true_2 by lia. cbn [negb].
  set (th1 := set_sampled_container true th).
  assert (env_ready th1 (tick_tag pr) e ge) as Hr1 by (by destruct Hr).
  rewrite (get_tag_first _ _ _ _ None x Hr1 Hs) by done. pose proof (env_ready_tick _ _ _ _ Hr1) as Hr2.
  rewrite (get_tag_first _ _ _ _ (Some k) _ Hr2 eq_refl) by done. pose proof (env_ready_tick _ _ _ _ Hr2) as Hr3.
  rewrite (get_tag_first _ _ _ _ (Some v) _ Hr3 eq_refl) by done.
  cbn. eexists _, _, _. split; [reflexivity|]. done.
Qed.

(** The branch that would give an untagged holder a fresh tag, marked as
    not sampled, is never taken, since [get_tag] does not return zero: the
    record names the holder 2^32 - 1, like every other untagged holder, and
    the tag counter does not move. *)
Theorem untagged_holder_not_tagged th pr e ge h o line cls fid :
  env_ready th pr e ge -> 0 < GetTag e o (p_jvm pr) < 2 ^ 63 ->
  GetTag e h (p_jvm pr) = 0 -> GetTag ge h (p_jvm pr) = 0 ->
  exists th' pr' r,
    addTagPutFieldRecord clock stack (Some h) (Some o) line cls fid th pr = Some (tt, (th', pr')) /\
    t_sink th' = t_sink th ++ [Added putFieldRecoreder r] /\
    pf_holder_addr r = 2 ^ 32 - 1 /\ global_tag pr' = global_tag pr.
Proof.
  intros Hr Ho He Hge. unfold addTagPutFieldRecord, now, mbind, M_bind, pgets, pmodify. cbn [mret M_ret].
  set (pr1 := tick_clock pr). assert (env_ready th pr1 e ge) as Hr1 by (by destruct Hr).
  rewrite (init_jvmti_ready _ _ _ _ Hr1), (get_tag_first _ _ _ _ (Some o) _ Hr1 eq_refl) by (simpl; lia).
  rewrite is_sampled_object_pos by (unfold in_s; simpl; lia).
  rewrite bool_decide_eq_true_2 by (simpl; lia). cbn [negb].
  pose proof (env_ready_tick _ _ _ _ Hr1) as Hr2.
  assert (exists s, get_tag stack (Some h) th (tick_tag pr1) = Some (-1, (th, s)) /\
            global_tag s = global_tag pr) as (s & Hget & Hs).
  { rewrite (get_tag_second _ _ _ _ (Some h) Hr2) by (cbn; by rewrite He). cbn zeta. cbn [p_jvm tick_tag pr1 tick_clock].
    rewrite Hge, decide_False by (by intros []). by eexists. }
  rewrite (holder_tag_get_tag stack _ _ _ _ _ Hget) by done.
  cbn. eexists _, _, _. split; [reflexivity|]. done.
Qed.

(** A thread that looked at an object before it was tagged keeps the
    failure in its cache: once another thread has allocated the tag, no use
    the first thread makes of the object is recorded. *)
Theorem early_look_hides_object th pr e ge o t type line cls :
  env_ready th pr e ge -> e <> ge ->
  GetTag e o (p_jvm pr) = 0 -> GetTag ge o (p_jvm pr) = 0 ->
  exists pr1, get_tag stack (Some o) th pr = Some (-1, (th, pr1)) /\
    let pr2 := set_new_called true (set_jvm (SetTag ge o t (p_jvm pr1)) pr1) in
    exists th' pr', addTagUseRecord clock stack type (Some o) line cls th pr2 = Some (tt, (th', pr')) /\
      t_sink th' = t_sink th.
Proof.
  intros Hr Hne He Hge. eexists. split.
  { rewrite (get_tag_second _ _ _ _ (Some o) Hr) by (cbn; by rewrite He). cbn zeta. rewrite Hge.
    rewrite decide_False by (by intros []). reflexivity. }
  cbn zeta. set (pr2 := set_new_called _ _).
  assert (env_ready th pr2 e ge) as Hr2.
  { destruct Hr as [Hl Hg Hex]. split; [done|done|]. simpl. by rewrite !SetTag_environments. }
  assert (GetTag e o (p_jvm pr2) = -1) as Hcached.
  { simpl. rewrite SetTag_GetTag_ne by congruence. apply SetTag_GetTag. apply Hr. }
  unfold addTagUseRecord, mbind, M_bind, pgets. cbn [new_called pr2 set_new_called negb].
  unfold jvmti_valid. rewrite bool_decide_eq_true_2
    by (intros Hnil; pose proof (er_global _ _ _ _ Hr2) as Hg; by rewrite Hnil in Hg).
  cbn [negb]. rewrite (init_jvmti_ready _ _ _ _ Hr2), (get_tag_first _ _ _ _ (Some o) (-1) Hr2)
    by (cbn [first_read]; by rewrite ?Hcached).
  cbn. by eexists _, _.
Qed.

(** ** Field values *)

Lemma u16_i32 z : u16 (i32 z) = z mod 2 ^ 16.
Proof.
  unfold wrapu, wraps. rewrite Zminus_mod.
  replace (((z + 2 ^ (32 - 1)) mod 2 ^ 32) mod 2 ^ 16) with ((z + 2 ^ (32 - 1)) mod 2 ^ 16).
  - rewrite <- Zminus_mod. f_equal. lia.
  - replace (2 ^ 32) with (2 ^ 16 * 2 ^ 16) by lia. rewrite Z.rem_mul_r by lia.
    rewrite Z.mul_comm, Z_mod_plus_full, Z.mod_mod by lia. done.
Qed.

(** The id of a string is its rank in the thread's table, but a record
    keeps 16 bits of it: the string first used when the table holds a
    multiple of 65536 strings is recorded with the id of the first one. *)
Theorem string_id_wraps (th : log_thread) (pr : log_process) addr value line cls fid is_put :
  stringMap th !! value = None -> Z.of_nat (size (stringMap th)) mod 2 ^ 16 = 0 ->
  exists th' pr' s r,
    addFieldValueRecordJstring clock addr value line cls fid is_put th pr = Some (tt, (th', pr')) /\
    t_sink th' = t_sink th ++ [AddedString (stringFieldValueRecord is_put) s;
                               Added (stringFieldValueRecord is_put) r] /\
    st_string_id r = 0.
Proof.
  intros Hnone Hsize. unfold addFieldValueRecordJstring, mbind, M_bind, gets, modify, now, pgets, pmodify.
  rewrite Hnone. destruct is_put; cbn;
    (eexists _, _, _, _; split; [reflexivity|]; cbn; split; [by rewrite <- app_assoc|]);
    cbn; by rewrite u16_i32.
Qed.

(** An object address survives [addr>>3] and the 32-bit member exactly
    when it is 8-byte aligned and below 32 GiB. *)
Theorem compressed_round_trip addr :
  0 <= addr -> 8 * compressed addr = addr <-> addr mod 8 = 0 /\ addr < 2 ^ 35.
Proof.
  intros Hpos. unfold compressed. rewrite Z.shiftr_div_pow2 by lia. change (2 ^ 3) with 8.
  unfold wrapu. change (2 ^ 35) with (8 * 2 ^ 32). split; intros Heq.
  - pose proof (Z.mod_pos_bound (addr / 8) (2 ^ 32) ltac:(lia)). split; [|lia].
    rewrite <- Heq, Z.mul_comm. by apply Z.mod_mul.
  - destruct Heq as [Hm Hb]. rewrite Z.mod_small; [|split; [apply Z.div_pos; lia|apply Z.div_lt_upper_bound; lia]].
    pose proof (Z.div_mod addr 8). lia.
Qed.
End Props.

(** ** Witnesses *)

(** Environment 0 is shared, 1 is the thread's; objects 1, 2 and 3 have
    tags, object 4 has none; the stack holds 57005. *)
Definition p_thread : thread (list event) := set_local_env (Some 1) (new_thread []).
Definition p_process : process unit vm :=
  {| p_sink := tt;
     p_jvm := {| vm_envs := 2; vm_tags := {[(1, 1%positive) := 10; (1, 2%positive) := 11; (1, 3%positive) := -1]} |};
     jvmti_env := [0]; global_tag := 12; new_called := true;
     clock_reads := 0; rand_calls := 0; tag_reads := 0 |}.
Definition p_clock (n : nat) : Z * Z := (Z.of_nat n, 0).
Definition p_rand (n : nat) : Z := 57005.
Definition p_stack (n : nat) : option Z := Some 57005.

Lemma p_ready : env_ready p_thread p_process 1 0.
Proof. split; [done|done|]. apply (bool_decide_unpack _). vm_compute. exact I. Qed.

Definition log_of {A} (r : option (A * (thread (list event) * process unit vm))) : option (list event) :=
  t_sink ∘ fst ∘ snd <$> r.

Lemma null_reference_records_garbage_witness :
  log_of (addContainerRecordMap16 p_clock p_stack None (Some 1%positive) (Some 2%positive) (Some 3%positive)
            1 5 6 p_thread p_process)
  = Some [Added mapRecord (Build_MapRecord false (Build_ContainerRecord false 10 57005 5 6 0 1) 4294967295 11)] /\
  exists r, br_ref_addr (mp_br (is_64bit := false) r) = 57005.
Proof.
  split; [vm_compute; reflexivity|].
  destruct (null_reference_records_garbage p_clock p_stack p_thread p_process 1 0 1 2 3 1 5 6 57005)
    as (th' & pr' & r & _ & _ & Hr).
  - exact p_ready.
  - reflexivity.
  - vm_compute. split; reflexivity.
  - vm_compute. discriminate.
  - vm_compute. discriminate.
  - reflexivity.
  - discriminate.
  - exists r. rewrite Hr. vm_compute. reflexivity.
Defined.

Lemma untagged_holder_not_tagged_witness :
  exists th' pr' r,
    addTagPutFieldRecord p_clock p_stack (Some 4%positive) (Some 1%positive) 20 2 3 p_thread p_process
    = Some (tt, (th', pr')) /\ t_sink th' = [Added putFieldRecoreder r] /\
    pf_holder_addr r = 4294967295 /\ global_tag pr' = 12.
Proof.
  apply (untagged_holder_not_tagged p_clock p_stack p_thread p_process 1 0 4 1 20 2 3).
  - exact p_ready.
  - vm_compute. split; reflexivity.
  - vm_compute. reflexivity.
  - vm_compute. reflexivity.
Defined.

Lemma early_look_hides_object_witness :
  exists pr1, get_tag p_stack (Some 4%positive) p_thread p_process = Some (-1, (p_thread, pr1)) /\
    let pr2 := set_new_called true (set_jvm (SetTag 0 4%positive 12 (p_jvm pr1)) pr1) in
    exists th' pr', addTagUseRecord p_clock p_stack 1 (Some 4%positive) 30 2 p_thread pr2 = Some (tt, (th', pr')) /\
      t_sink th' = [].
Proof.
  apply (early_look_hides_object p_clock p_stack p_thread p_process 1 0 4 12 1 30 2).
  - exact p_ready.
  - discriminate.
  - vm_compute. reflexivity.
  - vm_compute. reflexivity.
Defined.

Lemma line_info_returns line cls (th : thread (list event)) (pr : process unit vm) :
  exec p_clock p_rand p_stack 1 (ContainerLineInfoRecord_call line cls) th pr <> None.
Proof.
  unfold exec, addContainerLineInfoRecord, mbind, M_bind, gets.
  by destruct (negb (enable th) || negb (is_sampled_container th)).
Qed.

Lemma container_records_pair_with_lines_witness :
  exists th1 pr1 th2 pr2,
    exec p_clock p_rand p_stack 1 (ContainerRecordList4_call (Some 1%positive) 3 4 5) p_thread p_process
    = Some (tt, (th1, pr1)) /\
    exec p_clock p_rand p_stack 1 (ContainerLineInfoRecord_call 8 9) th1 pr1 = Some (tt, (th2, pr2)) /\
    (t_sink th2 = [] \/
     exists r l, t_sink th2 = [] ++ [Added listAndSetRecord r; Added containerLineInfoRecorder l]).
Proof.
  destruct (exec p_clock p_rand p_stack 1 (ContainerRecordList4_call (Some 1%positive) 3 4 5)
              p_thread p_process) as [[[] [th1 pr1]]|] eqn:H1; [|vm_compute in H1; discriminate].
  destruct (exec p_clock p_rand p_stack 1 (ContainerLineInfoRecord_call 8 9) th1 pr1)
    as [[[] [th2 pr2]]|] eqn:H2; [|exfalso; by eapply line_info_returns].
  exists th1, pr1, th2, pr2. split; [reflexivity|]. split; [exact H2|].
  exact (container_records_pair_with_lines p_clock p_rand p_stack 1
           (ContainerRecordList4_call (Some 1%positive) 3 4 5) listAndSetRecord 8 9
           p_thread th1 th2 p_process pr1 pr2 eq_refl H1 H2).
Defined.

(** A table that holds 65536 strings. *)
Definition full_table : gmap string Z := list_to_map ((fun i => (dec i, i)) <$> seqZ 0 65536).

Lemma full_table_size : size full_table = Z.to_nat 65536.
Proof.
  unfold full_table. rewrite map_size_list_to_map.
  - by rewrite length_fmap, length_seqZ.
  - rewrite <- list_fmap_compose. apply NoDup_fmap_2; [|apply NoDup_seqZ]. apply dec_inj.
Qed.

Lemma full_table_fresh : full_table !! "x" = None.
Proof.
  apply not_elem_of_list_to_map_1. rewrite <- list_fmap_compose, list_elem_of_fmap.
  intros (i & Hi & _). simpl in Hi. pose proof (dec_chars i) as Hc. rewrite <- Hi in Hc. done.
Qed.

Lemma string_id_wraps_witness :
  exists th' pr' s r,
    addFieldValueRecordJstring p_clock 80 "x" 1 2 3 true (set_stringMap full_table p_thread) p_process
    = Some (tt, (th', pr')) /\
    t_sink th' = [AddedString (stringFieldValueRecord true) s; Added (stringFieldValueRecord true) r] /\
    st_string_id r = 0.
Proof.
  apply (string_id_wraps p_clock (set_stringMap full_table p_thread) p_process 80 "x" 1 2 3 true).
  - exact full_table_fresh.
  - change (stringMap (set_stringMap full_table p_thread)) with full_table.
    rewrite full_table_size. vm_compute. reflexivity.
Defined.

Lemma compressed_round_trip_witness :
  8 * compressed 34359738360 = 34359738360 /\ 34359738360 mod 8 = 0 /\ 34359738360 < 2 ^ 35.
Proof.
  split; [vm_compute; reflexivity|].
  apply (proj1 (compressed_round_trip 34359738360 ltac:(lia))). vm_compute. reflexivity.
Defined.
