(* ===== verification/NativeLog.v ===== *)
(** * What the entry points write: files refine logs

    A simulation lemma relates any two [Sink]s under the same handlers.  It
    is instantiated with the recorders over the file system on one side and
    a plain log of events on the other: whatever a thread calls, its files
    hold the log its calls denote. *)

From S2P Require Import Prelude Layout Records FileSys Recorder FsUtil TraceNames Native NativeSpec.

(** ** Simulation of two sinks *)

(** Equal up to the sink. *)
Definition threads_agree {L1 L2} (th1 : thread L1) (th2 : thread L2) : Prop :=
  th2 = {| t_sink := t_sink th2; stringMap := stringMap th1; is_right_after := is_right_after th1;
           enable := enable th1; is_sampled_container := is_sampled_container th1;
           enablePrintNEW := enablePrintNEW th1; local_jvmti_env := local_jvmti_env th1 |}.

Definition processes_agree {W1 W2 J} (pr1 : process W1 J) (pr2 : process W2 J) : Prop :=
  pr2 = {| p_sink := p_sink pr2; p_jvm := p_jvm pr1; jvmti_env := jvmti_env pr1;
           global_tag := global_tag pr1; new_called := new_called pr1;
           clock_reads := clock_reads pr1; rand_calls := rand_calls pr1; tag_reads := tag_reads pr1 |}.

Lemma processes_agree_sink {W1 W2 J} (pr1 : process W1 J) (pr2 : process W2 J) w1 w2 :
  processes_agree pr1 pr2 -> processes_agree (set_p_sink w1 pr1) (set_p_sink w2 pr2).
Proof. destruct pr1, pr2. unfold processes_agree. simpl. intros [= -> -> -> -> -> -> ->]. done. Qed.

Section Sim.
Context {L1 W1 L2 W2 J : Type} `{S1 : Sink L1 W1} `{S2 : Sink L2 W2} `{JVMTI J}.
Variables (clock : nat -> Z * Z) (rand : nat -> Z) (stack : nat -> option Z) (freq : Z).
Variable sim : L1 -> W1 -> L2 -> W2 -> Prop.

(** Both sinks take the record, and stay related. *)
Definition both {A1 A2 B1 B2} (o1 : option (A1 * B1)) (o2 : option (A2 * B2))
    (R : A1 -> B1 -> A2 -> B2 -> Prop) : Prop :=
  exists a1 b1 a2 b2, o1 = Some (a1, b1) /\ o2 = Some (a2, b2) /\ R a1 b1 a2 b2.

Hypothesis sim_add : forall id r l1 w1 l2 w2, sim l1 w1 l2 w2 ->
  both (sink_add id r l1 w1) (sink_add id r l2 w2) sim.
Hypothesis sim_addString : forall id s l1 w1 l2 w2, sim l1 w1 l2 w2 ->
  both (sink_addString id s l1 w1) (sink_addString id s l2 w2) sim.

(** States that differ in their sinks only. *)
Definition same_state (th1 : thread L1) (pr1 : process W1 J) (th2 : thread L2) (pr2 : process W2 J) : Prop :=
  sim (t_sink th1) (p_sink pr1) (t_sink th2) (p_sink pr2) /\ threads_agree th1 th2 /\ processes_agree pr1 pr2.

Definition msim {A} (m1 : M L1 W1 J A) (m2 : M L2 W2 J A) : Prop :=
  forall th1 pr1 th2 pr2, same_state th1 pr1 th2 pr2 ->
  match m1 th1 pr1, m2 th2 pr2 with
  | Some (a1, (th1', pr1')), Some (a2, (th2', pr2')) => a1 = a2 /\ same_state th1' pr1' th2' pr2'
  | None, None => True
  | _, _ => False
  end.

Lemma msim_ret {A} (a : A) : msim (mret a) (mret a).
Proof. intros th1 pr1 th2 pr2 Hs. done. Qed.

Lemma msim_bind {A B} (m1 : M L1 W1 J A) m2 (f1 : A -> M L1 W1 J B) f2 :
  msim m1 m2 -> (forall a, msim (f1 a) (f2 a)) -> msim (m1 ≫= f1) (m2 ≫= f2).
Proof.
  intros Hm Hf th1 pr1 th2 pr2 Hs. specialize (Hm _ _ _ _ Hs).
  unfold mbind, M_bind.
  destruct (m1 th1 pr1) as [[a1 [th1' pr1']]|], (m2 th2 pr2) as [[a2 [th2' pr2']]|]; try done.
  destruct Hm as [-> Hs']. by apply Hf.
Qed.

Lemma msim_state {A} (m1 : M L1 W1 J A) m2 :
  (forall l1 w1 l2 w2 sm ra en sc pn le j es gt nc cr rr tr, sim l1 w1 l2 w2 ->
    let th1 := {| t_sink := l1; stringMap := sm; is_right_after := ra; enable := en;
                  is_sampled_container := sc; enablePrintNEW := pn; local_jvmti_env := le |} in
    let th2 := {| t_sink := l2; stringMap := sm; is_right_after := ra; enable := en;
                  is_sampled_container := sc; enablePrintNEW := pn; local_jvmti_env := le |} in
    let pr1 := {| p_sink := w1; p_jvm := j; jvmti_env := es; global_tag := gt; new_called := nc;
                  clock_reads := cr; rand_calls := rr; tag_reads := tr |} in
    let pr2 := {| p_sink := w2; p_jvm := j; jvmti_env := es; global_tag := gt; new_called := nc;
                  clock_reads := cr; rand_calls := rr; tag_reads := tr |} in
    match m1 th1 pr1, m2 th2 pr2 with
    | Some (a1, (th1', pr1')), Some (a2, (th2', pr2')) => a1 = a2 /\ same_state th1' pr1' th2' pr2'
    | None, None => True
    | _, _ => False
    end) -> msim m1 m2.
Proof.
  intros Hm [] [] [] [] (Hsim & Hth & Hpr). unfold threads_agree, processes_agree in *. simpl in *.
  injection Hth as -> -> -> -> -> ->. injection Hpr as -> -> -> -> -> -> ->. by apply Hm.
Qed.

Ltac state_op := apply msim_state; intros; simpl; repeat case_match; simplify_eq; try done.

Lemma msim_now : msim (now clock) (now clock).
Proof. state_op. Qed.
Lemma msim_rand : msim (rand_ rand) (rand_ rand).
Proof. state_op. Qed.
Lemma msim_uninitialised : msim (uninitialised stack) (uninitialised stack).
Proof. state_op. Qed.
Lemma msim_next_tag : msim next_tag next_tag.
Proof. state_op. Qed.
Lemma msim_local_env : msim local_env local_env.
Proof. unfold local_env. apply msim_state. intros. cbn. by destruct le. Qed.
Lemma msim_global_env : msim global_env global_env.
Proof. unfold global_env. apply msim_state. intros. cbn. by destruct es. Qed.
Lemma msim_env_GetTag e o v : msim (env_GetTag e o v) (env_GetTag e o v).
Proof. destruct o; state_op. Qed.
Lemma msim_require {A} (o : option A) : msim (require o) (require o).
Proof. destruct o; state_op. Qed.
Lemma msim_env_SetTag e o t : msim (env_SetTag e o t) (env_SetTag e o t).
Proof. destruct o; state_op. Qed.
Lemma msim_init_jvmti : msim init_jvmti init_jvmti.
Proof.
  apply msim_state. intros. unfold init_jvmti. generalize (JVMTI_BUCKET_SIZE + 1)%nat. intros n.
  unfold mbind, M_bind, pgets, gets, pmodify. simpl.
  unfold jvmti_valid. simpl. destruct (bool_decide (es <> [])); simpl.
  - destruct le; simpl; [done|]. destruct (GetEnv j). done.
  - destruct (get_envs n j) as [es' j']. destruct le; simpl; [done|]. destruct (GetEnv j'). done.
Qed.

Lemma msim_add id r : msim (add id r) (add id r).
Proof.
  apply msim_state. intros. unfold add. simpl.
  destruct (sim_add id r l1 w1 l2 w2) as (l1' & w1' & l2' & w2' & -> & -> & Hs); done.
Qed.
Lemma msim_addString id s : msim (addString id s) (addString id s).
Proof.
  apply msim_state. intros. unfold addString. simpl.
  destruct (sim_addString id s l1 w1 l2 w2) as (l1' & w1' & l2' & w2' & -> & -> & Hs); done.
Qed.

Create HintDb msim.
#[local] Hint Resolve msim_ret msim_now msim_rand msim_uninitialised msim_next_tag msim_local_env
  msim_global_env msim_env_GetTag msim_require msim_env_SetTag msim_init_jvmti msim_add msim_addString : msim.

(** One step of the relation; a step on plain fields is computed. *)
Ltac msim_step :=
  lazymatch goal with
  | |- forall _, _ => intros ?
  | |- msim (_ ≫= _) (_ ≫= _) => apply msim_bind
  | |- msim (if ?b then _ else _) _ => destruct b
  | |- msim (match ?b with _ => _ end) _ => destruct b
  | |- msim _ _ => first [solve [auto with msim] | solve [state_op]]
  end.

Lemma msim_get_tag o : msim (get_tag stack o) (get_tag stack o).
Proof. unfold get_tag. repeat msim_step. Qed.
Lemma msim_set_tag o t : msim (set_tag o t) (set_tag o t).
Proof. unfold set_tag. repeat msim_step. Qed.
#[local] Hint Resolve msim_get_tag msim_set_tag : msim.

Lemma msim_holder_tag o : msim (holder_tag stack o) (holder_tag stack o).
Proof. unfold holder_tag. repeat msim_step. Qed.
Lemma msim_container_op {A} (a : A) o f1 f2 :
  (forall t, msim (f1 t) (f2 t)) -> msim (container_op stack a o f1) (container_op stack a o f2).
Proof. intros Hf. unfold container_op. repeat (auto with msim; msim_step). Qed.
#[local] Hint Resolve msim_holder_tag : msim.

Ltac unfold_call :=
  unfold discard, addPutFieldRecord, addNewRecord, addConstructRecord, addAASTORERecord, addUseRecord,
    addFreeRecord, addFieldValueRecordJint, addFieldValueRecordJlong, addFieldValueRecordJfloat,
    addFieldValueRecordJdouble, addFieldValueRecordJstring, addStaticFieldValueRecordJint,
    addStaticFieldValueRecordJlong, addStaticFieldValueRecordJfloat, addStaticFieldValueRecordJdouble,
    addStaticFieldValueRecordJstring, addContainerRecordList15, addContainerRecordList6,
    addContainerRecordList4, addContainerRecordListI5, addContainerRecordList14,
    addContainerRecordList5, addContainerRecordMap15, addContainerRecordMap4,
    addContainerRecordMap5, addContainerRecordMap16, addContainerLineInfoRecord,
    decreaseContainerFilterFlag, unsetIsRightAfter, enableRecord, disableRecord, enablePrintNew,
    disablePrintNew, getPrintNew, addTagNewRecord, addTagConstructRecord, addTagPutFieldRecord,
    addTagAASTORERecord, addTagUseRecord.

Lemma exec_sim c : msim (exec clock rand stack freq c) (exec clock rand stack freq c).
Proof. destruct c; unfold exec; unfold_call; repeat (apply msim_container_op || msim_step). Qed.

Lemma exec_all_sim cs : msim (exec_all clock rand stack freq cs) (exec_all clock rand stack freq cs).
Proof.
  induction cs as [|c cs IH]; simpl; [apply msim_ret|].
  apply msim_bind; [apply exec_sim|done].
Qed.
End Sim.

(** ** The log of a thread *)

(** The records and the strings of one recorder, in order. *)
Definition record_in (id : recorder_id) (e : event) : option (record_of id) :=
  match e with
  | Added id' r => match decide (id' = id) with left E => Some (eq_rect id' record_of r id E) | right _ => None end
  | AddedString _ _ => None
  end.

Definition string_in (id : recorder_id) (e : event) : option string :=
  match e with
  | AddedString id' s => if decide (id' = id) then Some s else None
  | Added _ _ => None
  end.

Definition records_in (id : recorder_id) (log : list event) : list (record_of id) := omap (record_in id) log.
Definition strings_in (id : recorder_id) (log : list event) : list string := omap (string_in id) log.

Lemma record_in_eq id r : record_in id (Added id r) = Some r.
Proof.
  unfold record_in. destruct (decide (id = id)) as [E|]; [|done].
  by rewrite (proof_irrel E eq_refl).
Qed.

Lemma record_in_ne id id' r : id' <> id -> record_in id (Added id' r) = None.
Proof. intros Hne. unfold record_in. by destruct (decide (id' = id)). Qed.

(** ** The recorders of a thread *)

Definition recorders : Type := forall id, Recorder (record_of id).

Definition rec_update (id : recorder_id) (rc : Recorder (record_of id)) (l : recorders) : recorders :=
  fun id' => match decide (id = id') with
             | left E => eq_rect id (fun i => Recorder (record_of i)) rc id' E
             | right _ => l id'
             end.

Lemma rec_update_eq id rc l : rec_update id rc l id = rc.
Proof.
  unfold rec_update. destruct (decide (id = id)) as [E|]; [|done].
  by rewrite (proof_irrel E eq_refl).
Qed.

Lemma rec_update_ne id id' rc l : id <> id' -> rec_update id rc l id' = l id'.
Proof. intros Hne. unfold rec_update. by destruct (decide (id = id')). Qed.

(** All recorders, in the order of their declarations. *)
Definition digits : list (bool * bool) := [(false, true); (true, true); (false, false); (true, false)].

Definition all_ids : list recorder_id :=
  [putFieldRecoreder; newRecoreder; constructRecoreder; aaStoreRecoreder; useRecorder; freeRecorder;
   listAndSetRecord; mapRecord; containerLineInfoRecorder;
   fieldValueRecord false false true; fieldValueRecord false true true;
   fieldValueRecord true false true; fieldValueRecord true true true;
   fieldValueRecord false false false; fieldValueRecord false true false;
   fieldValueRecord true false false; fieldValueRecord true true false;
   stringFieldValueRecord false; stringFieldValueRecord true;
   staticFieldValueRecord false false true; staticFieldValueRecord false true true;
   staticFieldValueRecord true false true; staticFieldValueRecord true true true;
   staticFieldValueRecord false false false; staticFieldValueRecord false true false;
   staticFieldValueRecord true false false; staticFieldValueRecord true true false;
   staticStringFieldValueRecord false; staticStringFieldValueRecord true].

Lemma all_ids_complete id : id ∈ all_ids.
Proof.
  destruct id as [| | | | | | | | |[] [] []|[]|[] [] []|[]];
    apply (bool_decide_unpack _); vm_compute; exact I.
Qed.

Lemma all_ids_nodup : NoDup all_ids.
Proof. apply (bool_decide_unpack _). vm_compute. exact I. Qed.

Definition id_prefix (id : recorder_id) : string := rec_prefix (record_of id).

Lemma id_prefix_inj id id' : id_prefix id = id_prefix id' -> id = id'.
Proof.
  intros Heq.
  assert (forallb (fun i => forallb (fun j =>
    implb (String.eqb (id_prefix i) (id_prefix j)) (bool_decide (i = j))) all_ids) all_ids = true)
    as Hall by (vm_compute; reflexivity).
  rewrite forallb_forall in Hall. specialize (Hall id). rewrite <- list_elem_of_In in Hall.
  specialize (Hall (all_ids_complete id)). rewrite forallb_forall in Hall. specialize (Hall id').
  rewrite <- list_elem_of_In in Hall. specialize (Hall (all_ids_complete id')).
  rewrite Heq, String.eqb_refl in Hall. by apply bool_decide_eq_true in Hall.
Qed.

Lemma id_prefix_trace id : id_prefix id ∈ trace_prefixes.
Proof.
  assert (Forall (fun i => id_prefix i ∈ trace_prefixes) all_ids) as Hall.
  { apply (bool_decide_unpack _). vm_compute. exact I. }
  rewrite Forall_forall in Hall. apply Hall, all_ids_complete.
Qed.

(** *** Different recorders, and different threads, have different files *)

Definition id_data (tid pid : Z) (id : recorder_id) : string := data_path (R := record_of id) tid pid.
Definition id_string (tid pid : Z) (id : recorder_id) : string := string_path (R := record_of id) tid pid.

(** Both names of a recorder are its prefix, a dash and something. *)
Definition name_with (pid : Z) (id : recorder_id) (rest : string) : string :=
  trace_name pid (id_prefix id) rest.

Lemma name_with_inj pid id id' r r' : name_with pid id r = name_with pid id' r' -> id = id' /\ r = r'.
Proof.
  intros Heq. apply trace_name_inj in Heq as [Hp ->]; [|apply id_prefix_trace..].
  by apply id_prefix_inj in Hp.
Qed.

Lemma id_data_with tid pid id : id_data tid pid id = name_with pid id (dec tid +:+ "-" +:+ dec pid).
Proof. done. Qed.

Lemma id_string_with tid pid id :
  id_string tid pid id = name_with pid id ("string-" +:+ dec tid +:+ "-" +:+ dec pid).
Proof. done. Qed.

(** The files a thread may create. *)
Definition thread_files (tid pid : Z) : gset string :=
  list_to_set (id_data tid pid <$> all_ids) ∪ list_to_set (id_string tid pid <$> all_ids).

Lemma elem_of_thread_files tid pid p :
  p ∈ thread_files tid pid <-> exists id, p = id_data tid pid id \/ p = id_string tid pid id.
Proof.
  unfold thread_files. rewrite elem_of_union, !elem_of_list_to_set, !list_elem_of_fmap.
  pose proof all_ids_complete. naive_solver.
Qed.

Lemma thread_files_disjoint tid tid' pid : tid <> tid' -> thread_files tid pid ## thread_files tid' pid.
Proof.
  intros Hne p Hp Hp'. rewrite elem_of_thread_files in Hp, Hp'.
  destruct Hp as (id & Hp), Hp' as (id' & Hp').
  rewrite !id_data_with, !id_string_with in Hp, Hp'.
  destruct Hp as [->| ->], Hp' as [Hp'|Hp']; apply name_with_inj in Hp' as [_ Hp'].
  - by apply tid_suffix_inj in Hp'.
  - by symmetry in Hp'; apply string_suffix_ne in Hp'.
  - by apply string_suffix_ne in Hp'.
  - apply string_app_inj_l, tid_suffix_inj in Hp'. done.
Qed.

(** ** Files against logs *)

Section Files.
Variables (csv_output : bool) (padding : forall id, record_of id -> list bytes).

#[local] Instance file_sink : Sink recorders fs := {
  sink_add id r l w :=
    '(rc, w) ← Recorder_add csv_output (padding id) r (l id) w; Some (rec_update id rc l, w);
  sink_addString id s l w :=
    let '(rc, w) := Recorder.addString s (l id) w in Some (rec_update id rc l, w);
}.

(** The constructors of the thread-local recorders. *)
Definition new_recorders (tid pid : Z) : recorders := fun id => Recorder_new LIMIT tid pid.

(** Their destructors, in reverse order of construction. *)
Definition delete_recorders (l : recorders) (w : fs) : option fs :=
  foldM (fun w id => Recorder_delete csv_output (padding id) (l id) w) w (reverse all_ids).

(** The bytes of the records of one recorder. *)
Definition data_bytes (id : recorder_id) (log : list event) : bytes :=
  concat (out_bytes csv_output (padding id) <$> records_in id log).

Definition string_bytes (id : recorder_id) (log : list event) : bytes :=
  concat (str_bytes <$> strings_in id log).

(** The recorders of a thread stand for its log; since [w0] only the
    thread's own files were touched. *)
Record file_log (tid pid : Z) (w0 : fs) (l : recorders) (w : fs) (log : list event) {W} (u : W) : Prop := {
  fl_rep id : recorder_rep csv_output (padding id) w (l id) (records_in id log) (strings_in id log);
  fl_tid id : _tid (l id) = tid;
  fl_pid id : _pid (l id) = pid;
  fl_touch : only_touches (thread_files tid pid) {[data_dir pid]} w0 w;
}.

Lemma thread_files_not_dir tid pid : data_dir pid ∉ thread_files tid pid.
Proof.
  rewrite elem_of_thread_files. intros (id & [Heq|Heq]); symmetry in Heq; by apply path_not_dir in Heq.
Qed.

Lemma only_touches_mono ps ps' ds ds' w w' :
  ps ⊆ ps' -> ds ⊆ ds' -> only_touches ps ds w w' -> only_touches ps' ds' w w'.
Proof. intros Hp Hd (H1 & H2 & H3). split_and!; [|done|set_solver]. intros q Hq. apply H1. set_solver. Qed.

Lemma records_in_app id log log' : records_in id (log ++ log') = records_in id log ++ records_in id log'.
Proof. apply omap_app. Qed.
Lemma strings_in_app id log log' : strings_in id (log ++ log') = strings_in id log ++ strings_in id log'.
Proof. apply omap_app. Qed.

(** One more event. *)
Lemma records_in_snoc id id' r log :
  records_in id (log ++ [Added id' r]) = records_in id log ++ option_list (record_in id (Added id' r)).
Proof. by rewrite records_in_app. Qed.

Lemma records_in_snoc_string id id' s log :
  records_in id (log ++ [AddedString id' s]) = records_in id log.
Proof. rewrite records_in_app. apply app_nil_r. Qed.

Lemma strings_in_snoc id id' s log :
  strings_in id (log ++ [AddedString id' s]) = strings_in id log ++ if decide (id' = id) then [s] else [].
Proof.
  rewrite strings_in_app. f_equal. cbn [strings_in omap list_omap string_in]. unfold strings_in. simpl.
  by case_decide.
Qed.

Lemma strings_in_snoc_record id id' r log :
  strings_in id (log ++ [Added id' r]) = strings_in id log.
Proof. rewrite strings_in_app. apply app_nil_r. Qed.

(** A step that touches files of one recorder leaves the others alone. *)
Lemma rep_frame_other tid pid id id' w w' (l : recorders) log p :
  p = id_data tid pid id \/ p = id_string tid pid id -> id <> id' ->
  _tid (l id') = tid -> _pid (l id') = pid ->
  only_touches {[p]} {[data_dir pid]} w w' ->
  recorder_rep csv_output (padding id') w (l id') (records_in id' log) (strings_in id' log) ->
  recorder_rep csv_output (padding id') w' (l id') (records_in id' log) (strings_in id' log).
Proof.
  intros Hp Hne Htid Hpid Ht Hrep.
  assert (forall q, q = id_data tid pid id' \/ q = id_string tid pid id' -> q <> p /\ q <> data_dir pid) as Hq.
  { intros q Hq. split.
    - intros ->. rewrite !id_data_with, !id_string_with in *.
      destruct Hp as [->| ->], Hq as [Hq|Hq]; apply name_with_inj in Hq as [? _]; congruence.
    - intros ->. destruct Hq as [Hq|Hq]; symmetry in Hq; by apply path_not_dir in Hq. }
  assert (data_dir pid <> p) as Hdir
    by (destruct Hp as [->| ->]; intros Heq; symmetry in Heq; by apply path_not_dir in Heq).
  destruct (Hq (id_data tid pid id')) as [Hd1 Hd2]; [auto|].
  destruct (Hq (id_string tid pid id')) as [Hs1 Hs2]; [auto|].
  eapply recorder_rep_frame; [exact Ht|..]; rewrite ?Htid, ?Hpid, ?not_elem_of_singleton; done.
Qed.

Lemma file_log_add tid pid w0 id r l w log {W} (u : W) :
  file_log tid pid w0 l w log u ->
  both (sink_add id r l w) (sink_add id r log u) (fun l w log u => file_log tid pid w0 l w log u).
Proof.
  intros [Hrep Htid Hpid Ht].
  destruct (Recorder_add_spec csv_output (padding id) _ _ _ _ r (Hrep id))
    as (rc & w' & Heq & Hrc & Htid' & Hpid' & Ht').
  rewrite Htid in *. rewrite Hpid in *.
  exists (rec_update id rc l), w', (log ++ [Added id r]), u.
  split; [simpl; by rewrite Heq|]. split; [done|].
  assert (forall id', id <> id' -> rec_update id rc l id' = l id') as Hne
    by (intros; by apply rec_update_ne).
  split.
  - intros id'. rewrite records_in_snoc, strings_in_snoc_record.
    destruct (decide (id = id')) as [<-|Hid].
    + rewrite rec_update_eq. by rewrite record_in_eq.
    + rewrite Hne by done. rewrite record_in_ne by done. simpl. rewrite app_nil_r.
      apply (rep_frame_other tid pid id id' w w' l log (id_data tid pid id)); auto.
  - intros id'. destruct (decide (id = id')) as [<-|Hid]; [by rewrite rec_update_eq|by rewrite Hne].
  - intros id'. destruct (decide (id = id')) as [<-|Hid]; [by rewrite rec_update_eq|by rewrite Hne].
  - trans w; [done|]. eapply only_touches_mono; [|reflexivity|exact Ht'].
    apply singleton_subseteq_l, elem_of_thread_files. eauto.
Qed.

Lemma file_log_addString tid pid w0 id s l w log {W} (u : W) :
  file_log tid pid w0 l w log u ->
  both (sink_addString id s l w) (sink_addString id s log u)
    (fun l w log u => file_log tid pid w0 l w log u).
Proof.
  intros [Hrep Htid Hpid Ht].
  pose proof (addString_spec csv_output (padding id) _ _ _ _ s (Hrep id)) as Hspec.
  destruct (Recorder.addString s (l id) w) as [rc w'] eqn:Heq.
  destruct Hspec as (Hrc & Htid' & Hpid' & Ht').
  rewrite Htid in *. rewrite Hpid in *.
  exists (rec_update id rc l), w', (log ++ [AddedString id s]), u.
  split; [simpl; by rewrite Heq|]. split; [done|].
  assert (forall id', id <> id' -> rec_update id rc l id' = l id') as Hne
    by (intros; by apply rec_update_ne).
  split.
  - intros id'. rewrite records_in_snoc_string, strings_in_snoc.
    destruct (decide (id = id')) as [<-|Hid].
    + by rewrite rec_update_eq.
    + rewrite Hne by done. rewrite app_nil_r. apply (rep_frame_other tid pid id id' w w' l log (id_string tid pid id)); auto.
  - intros id'. destruct (decide (id = id')) as [<-|Hid]; [by rewrite rec_update_eq|by rewrite Hne].
  - intros id'. destruct (decide (id = id')) as [<-|Hid]; [by rewrite rec_update_eq|by rewrite Hne].
  - trans w; [done|]. eapply only_touches_mono; [|reflexivity|exact Ht'].
    apply singleton_subseteq_l, elem_of_thread_files. eauto.
Qed.

(** *** The end of a thread *)

Definition data_files (tid pid : Z) (ids : list recorder_id) : gset string :=
  list_to_set (id_data tid pid <$> ids).

Lemma elem_of_data_files tid pid ids p : p ∈ data_files tid pid ids <-> exists id, p = id_data tid pid id /\ id ∈ ids.
Proof. unfold data_files. rewrite elem_of_list_to_set, list_elem_of_fmap. naive_solver. Qed.

Lemma data_files_thread tid pid ids : data_files tid pid ids ⊆ thread_files tid pid.
Proof.
  intros p. rewrite elem_of_data_files, elem_of_thread_files. intros (id & -> & _). by exists id; left.
Qed.

Lemma delete_some tid pid (l : recorders) log ids w :
  NoDup ids -> (forall id, _tid (l id) = tid) -> (forall id, _pid (l id) = pid) ->
  (forall id, id ∈ ids ->
     recorder_rep csv_output (padding id) w (l id) (records_in id log) (strings_in id log)) ->
  exists w', foldM (fun w id => Recorder_delete csv_output (padding id) (l id) w) w ids = Some w' /\
    (forall id, id ∈ ids -> records_in id log <> [] ->
       files w' !! id_data tid pid id = Some (data_bytes id log)) /\
    only_touches (data_files tid pid ids) {[data_dir pid]} w w'.
Proof.
  intros Hnd Htid Hpid. revert w. induction Hnd as [|id ids Hid Hnd IH]; intros w Hrep.
  { exists w. split; [done|]. split; [by intros id ?%not_elem_of_nil|done]. }
  destruct (Recorder_delete_spec csv_output (padding id) w (l id) _ _ (Hrep id ltac:(left)))
    as (w1 & Heq & Hf & Ht). rewrite Htid, Hpid in *.
  cbn [foldM]. rewrite Heq. cbn [mbind option_bind].
  destruct (IH w1) as (w' & -> & Hf' & Ht').
  { intros id' Hin. apply (rep_frame_other tid pid id id' w w1 l log (id_data tid pid id)); auto.
    - by intros <-.
    - apply Hrep. by right. }
  exists w'. split; [done|]. split.
  - intros id' [->|Hin]%elem_of_cons Hne; [|by apply Hf'].
    destruct Ht' as [Ht' _]. rewrite Ht'; [by apply Hf|].
    rewrite elem_of_data_files. intros (id' & Hid' & Hin).
    rewrite !id_data_with in Hid'. apply name_with_inj in Hid' as [-> _]. done.
  - trans w1; (eapply only_touches_mono; [|reflexivity|eassumption]);
      intros p; rewrite ?elem_of_singleton, !elem_of_data_files.
    + intros ->. exists id. split; [done|left].
    + intros (id' & -> & Hin). exists id'. split; [done|by right].
Qed.

Lemma delete_recorders_spec tid pid w0 l w log {W} (u : W) :
  file_log tid pid w0 l w log u ->
  exists w', delete_recorders l w = Some w' /\
    (forall id, records_in id log <> [] -> files w' !! id_data tid pid id = Some (data_bytes id log)) /\
    (forall id, string_bytes id log <> [] ->
       files w' !! id_string tid pid id = Some (string_bytes id log)) /\
    only_touches (thread_files tid pid) {[data_dir pid]} w w'.
Proof.
  intros [Hrep Htid Hpid Ht].
  destruct (delete_some tid pid l log (reverse all_ids) w) as (w' & Heq & Hf & Ht'); auto.
  { rewrite reverse_Permutation. apply all_ids_nodup. }
  exists w'. split; [done|]. split; [|split].
  - intros id. apply Hf. rewrite elem_of_reverse. apply all_ids_complete.
  - intros id Hne. destruct Ht' as [Ht' _]. rewrite Ht'.
    + pose proof (rep_slog _ _ _ _ _ _ (Hrep id)) as Hs. rewrite Htid, Hpid in Hs.
      destruct (fstrout (l id)); simpl in Hs; [apply Hs|].
      by unfold string_bytes in Hne; rewrite Hs in Hne.
    + rewrite elem_of_data_files. intros (id' & Hid & _).
      rewrite id_data_with, id_string_with in Hid. apply name_with_inj in Hid as [_ Hid].
      by apply string_suffix_ne in Hid.
  - eapply only_touches_mono; [apply data_files_thread|reflexivity|done].
Qed.

(** *** The beginning of a thread, and what other threads do *)

Definition thread_names_free (w : fs) (tid pid : Z) : Prop :=
  forall id, names_free (R := record_of id) w tid pid.

Lemma file_log_new tid pid w {W} (u : W) :
  thread_names_free w tid pid -> file_log tid pid w (new_recorders tid pid) w [] u.
Proof.
  intros Hn. split; try done. intros id. apply Recorder_new_rep; [done|apply Hn].
Qed.

Lemma file_log_restart tid pid w0 l w log {W} (u : W) {W'} (u' : W') :
  file_log tid pid w0 l w log u -> file_log tid pid w l w log u'.
Proof. intros [Hrep Htid Hpid Ht]. by split. Qed.

(** The names of another thread, or the thread's own, after [tid] worked. *)
Lemma other_names tid tid' pid w w' id :
  tid <> tid' -> only_touches (thread_files tid pid) {[data_dir pid]} w w' ->
  id_data tid' pid id ∉ thread_files tid pid /\ id_string tid' pid id ∉ thread_files tid pid /\
  id_data tid' pid id <> data_dir pid /\ id_string tid' pid id <> data_dir pid.
Proof.
  intros Hne _. pose proof (thread_files_disjoint tid tid' pid Hne) as Hd.
  split_and!; try apply path_not_dir;
    (intros Hin; apply (Hd _ Hin), elem_of_thread_files; eauto).
Qed.

Lemma file_log_other tid tid' pid l w w' log {W} (u : W) :
  tid <> tid' -> only_touches (thread_files tid pid) {[data_dir pid]} w w' ->
  file_log tid' pid w l w log u -> file_log tid' pid w' l w' log u.
Proof.
  intros Hne Ht [Hrep Htid Hpid _]. split; try done. intros id.
  destruct (other_names tid tid' pid w w' id Hne Ht) as (H1 & H2 & H3 & H4).
  eapply recorder_rep_frame; [exact Ht|..]; rewrite ?Htid, ?Hpid, ?not_elem_of_singleton; try done.
  apply thread_files_not_dir.
Qed.

Lemma thread_names_free_other tid tid' pid w w' :
  tid <> tid' -> only_touches (thread_files tid pid) {[data_dir pid]} w w' ->
  thread_names_free w tid' pid -> thread_names_free w' tid' pid.
Proof.
  intros Hne Ht Hn id. destruct (Hn id) as [Hn1 Hn2 Hn3].
  destruct (other_names tid tid' pid w w' id Hne Ht) as (H1 & H2 & H3 & H4).
  destruct Ht as (Hf & _ & Hds). split.
  - rewrite Hf; [done|apply thread_files_not_dir].
  - intros Hin%Hds. rewrite elem_of_union, elem_of_singleton in Hin. by destruct Hin.
  - intros Hin%Hds. rewrite elem_of_union, elem_of_singleton in Hin. by destruct Hin.
Qed.
End Files.
