(* ===== verification/Threads.v ===== *)
(** * Threads of a traced process

    Threads start, call entry points of [native/native.cpp] and end, in any
    interleaving of whole calls; what they share is the process state, and
    they reach it through atomic operations (the tag counter), the tool
    interface of the virtual machine and their own files. *)

From S2P Require Import Prelude Layout Records FileSys Recorder FsUtil Native NativeSpec NativeLog.

Inductive action :=
| Start (tid : Z)
| Call (tid : Z) (c : call)
| Exit (tid : Z).

Section System.
Context {L W J : Type} {HSink : Sink L W} {HJ : JVMTI J}.
Variables (clock : nat -> Z * Z) (rand : nat -> Z) (stack : nat -> option Z) (freq : Z).
(** The recorders of a new thread, and what their destructors do. *)
Variables (spawn : Z -> L) (retire : Z -> L -> W -> option W).

Record system := { live : gmap Z (thread L); shared : process W J }.

(** [None]: an action no execution takes (a call of a thread that is not
    there) or undefined behaviour. *)
Definition act (s : system) (a : action) : option system :=
  match a with
  | Start tid =>
      match live s !! tid with
      | Some _ => None
      | None => Some {| live := <[tid := new_thread (spawn tid)]> (live s); shared := shared s |}
      end
  | Call tid c =>
      th ← live s !! tid;
      '(_, (th, pr)) ← exec clock rand stack freq c th (shared s);
      Some {| live := <[tid := th]> (live s); shared := pr |}
  | Exit tid =>
      th ← live s !! tid;
      w ← retire tid (t_sink th) (p_sink (shared s));
      Some {| live := delete tid (live s); shared := set_p_sink w (shared s) |}
  end.

Definition run (s : system) (sched : list action) : option system := foldM act s sched.

Definition initial (w : W) (j : J) : system := {| live := ∅; shared := new_process w j |}.

(** The same as a transition relation. *)
Definition step (s s' : system) : Prop := exists a, act s a = Some s'.
End System.
Arguments system L W J : clear implicits.

Definition started (sched : list action) : list Z :=
  omap (fun a => match a with Start tid => Some tid | _ => None end) sched.

(** The calls of a schedule have arguments in range and, unless the machine
    gives unset variables values, read none. *)
Definition sched_ok (stack : nat -> option Z) (a : action) : Prop :=
  match a with Call _ c => call_ok c /\ call_defined stack c | _ => True end.

(** Which threads a schedule leaves alive; [None] when it uses a thread that
    is not there or starts one that is. *)
Definition alive_step (alive : gset Z) (a : action) : option (gset Z) :=
  match a with
  | Start tid => if decide (tid ∈ alive) then None else Some ({[tid]} ∪ alive)
  | Call tid _ => if decide (tid ∈ alive) then Some alive else None
  | Exit tid => if decide (tid ∈ alive) then Some (alive ∖ {[tid]}) else None
  end.

Definition alive_after (sched : list action) : option (gset Z) := foldM alive_step ∅ sched.

Lemma records_in_ok id l (r : record_of id) : Forall event_ok l -> r ∈ records_in id l -> rec_wf r.
Proof.
  intros Hl. unfold records_in. rewrite list_elem_of_omap. intros (e & He & Hr).
  rewrite Forall_forall in Hl. specialize (Hl e He). destruct e as [id' r'|]; simpl in *; [|done].
  destruct (decide (id' = id)) as [E|]; [|done]. destruct E. simpl in Hr. by simplify_eq.
Qed.

(** ** The system of logs *)

Section Logs.
Context {J : Type} {HJ : JVMTI J} {HL : JVMTILaws J}.
Variables (clock : nat -> Z * Z) (rand : nat -> Z) (stack : nat -> option Z) (freq : Z).

(** Logs of the ended threads. *)
Abbreviation logs := (gmap Z (list event)).
Abbreviation log_system := (system (list event) logs J).

Definition log_act : log_system -> action -> option log_system :=
  act clock rand stack freq (fun _ => []) (fun tid l w => Some (<[tid := l]> w)).
Definition log_run : log_system -> list action -> option log_system :=
  run clock rand stack freq (fun _ => []) (fun tid l w => Some (<[tid := l]> w)).

Definition log_ok (l : list event) (w : logs) : Prop := Forall event_ok l.

Record sys_inv (n : nat) (s : log_system) : Prop := {
  sys_ghost : exists g,
    tags_ok g (p_jvm (shared s)) (global_tag (shared s)) /\
    (forall e, e ∈ jvmti_env (shared s) -> e ∈ g_envs g) /\
    (forall tid th e, live s !! tid = Some th -> local_jvmti_env th = Some e -> e ∈ g_envs g);
  sys_top : 10 <= global_tag (shared s) /\ global_tag (shared s) + Z.of_nat n <= 2 ^ 63 - 1;
  sys_live tid th : live s !! tid = Some th -> Forall event_ok (t_sink th);
  sys_ended tid l : p_sink (shared s) !! tid = Some l -> Forall event_ok l;
}.

(** A call leaves the other threads' part of the shared sink alone. *)
Lemma exec_log_ok n s tid th c :
  sys_inv (S n) s -> live s !! tid = Some th -> call_ok c -> call_defined stack c ->
  exists th' pr', exec clock rand stack freq c th (shared s) = Some (tt, (th', pr')) /\
    sys_inv n {| live := <[tid := th']> (live s); shared := pr' |} /\
    p_sink pr' = p_sink (shared s).
Proof.
  intros [(g & Ht & Hgl & Hloc) Htop Hlive Hend] Hth Hok Hdef.
  set (w0 := p_sink (shared s)).
  assert (K (fun l w => Forall event_ok l /\ w = w0) g (S n) false None th (shared s)) as HK.
  { exists g. split; [done|]. split; [done|]. split; [|done].
    split; try done; [by split; [eapply Hlive|]|by intros; eapply Hloc]. }
  destruct (exec_triple clock rand stack freq (fun l w => Forall event_ok l /\ w = w0)) with (g0 := g) (n := n) (c := c)
    (th := th) (pr := shared s) as ([] & th' & pr' & Heq & HK'); [| |done..|].
  { intros id r l w [Hl ->] Hr. destruct (log_add_ok id r l w0 Hl Hr) as (l' & w' & Ha & Hl').
    simplify_eq/=. eexists _, _. done. }
  { intros id r l w [Hl ->]. destruct (log_addString_ok id r l w0 Hl) as (l' & w' & Ha & Hl').
    simplify_eq/=. eexists _, _. done. }
  exists th', pr'. split; [done|].
  destruct HK' as (g' & [Hg1 Hg2] & _ & [[Hs Hw] Ht' Htop' Hgl' Hl'] & _).
  split; [|done]. split; simpl; [|done| |by rewrite Hw].
  - exists g'. split; [done|]. split; [done|]. intros tid' th'' e.
    rewrite lookup_insert_Some. intros [[_ <-]|[_ Hlk]] He; [by apply Hl'|].
    by eapply Hg1, Hloc.
  - intros tid' th''. rewrite lookup_insert_Some. intros [[_ <-]|[_ Hlk]]; [done|by eapply Hlive].
Qed.

Lemma log_act_ok n s a alive alive' :
  sys_inv (S n) s -> sched_ok stack a -> dom (live s) = alive -> alive_step alive a = Some alive' ->
  exists s', log_act s a = Some s' /\ sys_inv n s' /\ dom (live s') = alive'.
Proof.
  intros Hinv Hok <-. assert (sys_inv n s) as Hinv'.
  { destruct Hinv as [? ? ? ?]. split; try done. lia. }
  destruct a as [tid|tid c|tid]; simpl; case_decide as Hd; try done; intros [= <-].
  - apply not_elem_of_dom in Hd. rewrite Hd. eexists. split; [reflexivity|].
    destruct Hinv' as [(g & Ht & Hgl & Hloc) Htop Hlive Hend]. split; [|simpl; by rewrite dom_insert_L].
    split; simpl; try done.
    + exists g. split; [done|]. split; [done|]. intros tid' th e.
      rewrite lookup_insert_Some. intros [[_ <-]|[_ Hlk]]; [done|by eapply Hloc].
    + intros tid' th. rewrite lookup_insert_Some. intros [[_ <-]|[_ Hlk]]; [constructor|by eapply Hlive].
  - apply elem_of_dom in Hd as [th Hth]. rewrite Hth. simpl.
    destruct Hok as [Hok Hdef].
    destruct (exec_log_ok n s tid th c Hinv Hth Hok Hdef) as (th' & pr' & -> & Hs' & _).
    eexists. split; [reflexivity|]. split; [done|]. simpl. rewrite dom_insert_L.
    apply elem_of_dom_2 in Hth. set_solver.
  - apply elem_of_dom in Hd as [th Hth]. rewrite Hth. simpl.
    eexists. split; [reflexivity|]. split; [|simpl; by rewrite dom_delete_L].
    destruct Hinv' as [(g & Ht & Hgl & Hloc) Htop Hlive Hend]. split; simpl; try done.
    + exists g. split; [done|]. split; [done|]. intros tid' th' e.
      rewrite lookup_delete_Some. intros [_ Hlk]. by eapply Hloc.
    + intros tid' th'. rewrite lookup_delete_Some. intros [_ Hlk]. by eapply Hlive.
    + intros tid' l. rewrite lookup_insert_Some. intros [[_ <-]|[_ Hlk]]; [by eapply Hlive|by eapply Hend].
Qed.

Lemma log_run_from sched n s alive alive' :
  sys_inv (length sched + n) s -> Forall (sched_ok stack) sched -> dom (live s) = alive ->
  foldM alive_step alive sched = Some alive' ->
  exists s', log_run s sched = Some s' /\ sys_inv n s' /\ dom (live s') = alive'.
Proof.
  revert s alive. induction sched as [|a sched IH]; intros s alive Hinv Hok Hdom Hal; simpl in *.
  - simplify_eq. by exists s.
  - apply Forall_cons in Hok as [Ha Hok].
    destruct (alive_step alive a) as [alive1|] eqn:Hst; [|done]. simpl in Hal.
    destruct (log_act_ok _ s a alive alive1 Hinv Ha Hdom Hst) as (s1 & Heq & Hinv1 & Hdom1).
    destruct (IH s1 alive1 Hinv1 Hok Hdom1 Hal) as (s' & Hs' & Hr).
    exists s'. split; [|done]. unfold log_run, run in *. cbn [foldM].
    unfold log_act in Heq. rewrite Heq. done.
Qed.

Lemma sys_inv_initial n j : Z.of_nat n <= 2 ^ 63 - 11 -> sys_inv n (initial ∅ j).
Proof.
  intros Hn. split; simpl; [|lia|done|done].
  exists {| g_envs := ∅; g_owner := ∅ |}. split; [|split].
  - split; simpl; [set_solver|set_solver|]. intros t o Ho. by rewrite lookup_empty in Ho.
  - intros e He. by apply not_elem_of_nil in He.
  - intros tid th e Hlk. by rewrite lookup_empty in Hlk.
Qed.

Lemma log_run_ok sched alive j :
  Forall (sched_ok stack) sched -> alive_after sched = Some alive -> Z.of_nat (length sched) <= 2 ^ 63 - 11 ->
  exists s, log_run (initial ∅ j) sched = Some s /\ sys_inv 0 s /\ dom (live s) = alive.
Proof.
  intros Hok Hal Hlen. apply (log_run_from sched 0 _ ∅); [|done|apply dom_empty_L|done].
  apply sys_inv_initial. lia.
Qed.

(** An environment of the library: the shared ones, or a thread's own. *)
Definition our_env (s : log_system) (e : Z) : Prop :=
  e ∈ jvmti_env (shared s) \/ exists tid th, live s !! tid = Some th /\ local_jvmti_env th = Some e.

(** C6: Whatever the interleaving of the threads, a positive tag names one
    object: if two objects carry the same tag in the shared environment or
    in the caches of any threads, they are the same object. *)
Theorem tag_names_one_object sched alive j s e1 e2 o1 o2 t :
  Forall (sched_ok stack) sched -> alive_after sched = Some alive -> Z.of_nat (length sched) <= 2 ^ 63 - 11 ->
  log_run (initial ∅ j) sched = Some s ->
  our_env s e1 -> our_env s e2 -> 0 < t ->
  GetTag e1 o1 (p_jvm (shared s)) = t -> GetTag e2 o2 (p_jvm (shared s)) = t -> o1 = o2.
Proof.
  intros Hok Hal Hlen Hrun He1 He2 Ht H1 H2.
  destruct (log_run_ok sched alive j Hok Hal Hlen) as (s' & Hrun' & [(g & Htags & Hgl & Hloc) _ _ _] & _).
  rewrite Hrun in Hrun'. injection Hrun' as <-.
  assert (forall e, our_env s e -> e ∈ g_envs g) as Hin.
  { intros e [He|(tid & th & Hlk & He)]; [by apply Hgl|by eapply Hloc]. }
  pose proof (tags_owned _ _ _ Htags e1 o1 (Hin _ He1)) as [Hx|[Hx|Ho1]]; [lia|lia|].
  pose proof (tags_owned _ _ _ Htags e2 o2 (Hin _ He2)) as [Hx|[Hx|Ho2]]; [lia|lia|].
  rewrite H1 in Ho1. rewrite H2 in Ho2. congruence.
Qed.

End Logs.

(** ** Files of the process *)

Section FilesOfProcess.
Context {J : Type} {HJ : JVMTI J} {HL : JVMTILaws J}.
Variables (clock : nat -> Z * Z) (rand : nat -> Z) (stack : nat -> option Z) (freq : Z).
Variables (csv_output : bool) (padding : forall id, record_of id -> list bytes) (pid : Z).

Abbreviation file_system := (system recorders fs J).

(** The traced process: recorders over the file system. *)
Definition file_act : file_system -> action -> option file_system :=
  act (HSink := file_sink csv_output padding) clock rand stack freq
    (fun tid => new_recorders tid pid) (fun _ l w => delete_recorders csv_output padding l w).
Definition file_run : file_system -> list action -> option file_system :=
  run (HSink := file_sink csv_output padding) clock rand stack freq
    (fun tid => new_recorders tid pid) (fun _ l w => delete_recorders csv_output padding l w).

(** The files of an ended thread hold its log. *)
Definition thread_saved (w : fs) (tid : Z) (l : list event) : Prop :=
  forall id,
    (records_in id l <> [] ->
       files w !! id_data tid pid id = Some (data_bytes csv_output padding id l)) /\
    (string_bytes id l <> [] -> files w !! id_string tid pid id = Some (string_bytes id l)).

Lemma thread_saved_other tid tid' w w' l :
  tid <> tid' -> only_touches (thread_files tid pid) {[data_dir pid]} w w' ->
  thread_saved w tid' l -> thread_saved w' tid' l.
Proof.
  intros Hne Ht Hs id. destruct (other_names tid tid' pid w w' id Hne Ht) as (H1 & H2 & _).
  destruct Ht as (Hf & _), (Hs id) as [Hd Hstr]. by rewrite !Hf.
Qed.

(** Corresponding states; [todo] are the threads still to start. *)
Record system_rep (todo : list Z) (sc : file_system) (sl : system (list event) (gmap Z (list event)) J) : Prop := {
  rep_threads tid thl : live sl !! tid = Some thl -> exists thc, live sc !! tid = Some thc /\
    threads_agree thc thl /\
    file_log csv_output padding tid pid (p_sink (shared sc)) (t_sink thc) (p_sink (shared sc)) (t_sink thl) tt;
  rep_dead tid : live sl !! tid = None -> live sc !! tid = None;
  rep_shared : processes_agree (shared sc) (shared sl);
  rep_ended tid l : p_sink (shared sl) !! tid = Some l ->
    live sl !! tid = None /\ thread_saved (p_sink (shared sc)) tid l;
  rep_todo tid : tid ∈ todo -> thread_names_free (p_sink (shared sc)) tid pid /\
    live sl !! tid = None /\ p_sink (shared sl) !! tid = None;
}.

(** What stays true of everything that belongs to other threads when [tid]
    writes. *)
Lemma rep_ended_other todo sc sl tid w' tid' l :
  system_rep todo sc sl -> tid <> tid' ->
  only_touches (thread_files tid pid) {[data_dir pid]} (p_sink (shared sc)) w' ->
  p_sink (shared sl) !! tid' = Some l -> live sl !! tid' = None /\ thread_saved w' tid' l.
Proof.
  intros Hrep Hne Ht Hl. destruct (rep_ended _ _ _ Hrep _ _ Hl) as [Hd Hs].
  split; [done|]. by eapply thread_saved_other.
Qed.

Lemma rep_todo_other todo sc sl tid w' tid' :
  system_rep todo sc sl -> tid <> tid' ->
  only_touches (thread_files tid pid) {[data_dir pid]} (p_sink (shared sc)) w' ->
  tid' ∈ todo -> thread_names_free w' tid' pid /\ live sl !! tid' = None /\ p_sink (shared sl) !! tid' = None.
Proof.
  intros Hrep Hne Ht Hin. destruct (rep_todo _ _ _ Hrep _ Hin) as (Hn & Hd & He).
  split; [|done]. by eapply thread_names_free_other.
Qed.

Lemma rep_threads_other todo sc sl tid w' tid' thl :
  system_rep todo sc sl -> tid <> tid' ->
  only_touches (thread_files tid pid) {[data_dir pid]} (p_sink (shared sc)) w' ->
  live sl !! tid' = Some thl -> exists thc, live sc !! tid' = Some thc /\
    threads_agree thc thl /\ file_log csv_output padding tid' pid w' (t_sink thc) w' (t_sink thl) tt.
Proof.
  intros Hrep Hne Ht Hl. destruct (rep_threads _ _ _ Hrep _ _ Hl) as (thc & Hc & Ha & Hf).
  exists thc. split; [done|]. split; [done|]. by eapply file_log_other.
Qed.

Lemma start_sim todo sc sl tid :
  tid ∉ todo -> system_rep (tid :: todo) sc sl -> live sl !! tid = None ->
  exists sc', file_act sc (Start tid) = Some sc' /\
    system_rep todo sc' {| live := <[tid := new_thread []]> (live sl); shared := shared sl |}.
Proof.
  intros Hnin Hrep Hd. unfold file_act, act. rewrite (rep_dead _ _ _ Hrep tid Hd).
  eexists. split; [reflexivity|].
  destruct (rep_todo _ _ _ Hrep tid ltac:(left)) as (Hnames & _ & Hend).
  destruct Hrep as [Hth Hdead Hsh Hended Htodo]. split; simpl; [| |done| |].
  - intros tid' thl. rewrite lookup_insert_Some. intros [[<- <-]|[Hne Hl]].
    + eexists. rewrite lookup_insert_eq. split; [done|]. split; [done|]. by apply file_log_new.
    + destruct (Hth _ _ Hl) as (thc & Hc & Hr). exists thc. by rewrite lookup_insert_ne.
  - intros tid'. rewrite !lookup_insert_None. intros [Hl Hne]. auto.
  - intros tid' l Hl. destruct (Hended tid' l Hl) as [Hd' Hs]. split; [|done].
    rewrite lookup_insert_ne; [done|]. intros <-. congruence.
  - intros tid' Hin. assert (tid <> tid') as Hne by (by intros <-).
    destruct (Htodo tid' ltac:(by right)) as (? & ? & ?). by rewrite lookup_insert_ne.
Qed.

Lemma call_sim todo sc sl tid c thl thl' prl' :
  system_rep todo sc sl -> live sl !! tid = Some thl ->
  exec clock rand stack freq c thl (shared sl) = Some (tt, (thl', prl')) ->
  p_sink prl' = p_sink (shared sl) ->
  exists sc', file_act sc (Call tid c) = Some sc' /\
    system_rep todo sc' {| live := <[tid := thl']> (live sl); shared := prl' |}.
Proof.
  intros Hrep Hl Hexec Hsink.
  destruct (rep_threads _ _ _ Hrep _ _ Hl) as (thc & Hc & Ha & Hf).
  set (w := p_sink (shared sc)) in *.
  pose proof (exec_sim (S1 := file_sink csv_output padding) clock rand stack freq
    (fun l w' log (u : gmap Z (list event)) => file_log csv_output padding tid pid w l w' log u)
    (fun id r l1 w1 l2 w2 => file_log_add csv_output padding tid pid w id r l1 w1 l2 w2)
    (fun id s l1 w1 l2 w2 => file_log_addString csv_output padding tid pid w id s l1 w1 l2 w2)
    c thc (shared sc) thl (shared sl)) as Hsim.
  rewrite Hexec in Hsim. unfold file_act, act. rewrite Hc. cbn [mbind option_bind].
  specialize (Hsim (conj (file_log_restart _ _ _ _ _ _ _ _ _ _ Hf) (conj Ha (rep_shared _ _ _ Hrep)))).
  destruct (exec clock rand stack freq c thc (shared sc)) as [[u [thc' prc']]|]; [|done].
  destruct Hsim as [_ (Hf' & Ha' & Hp')]. cbn [mbind option_bind].
  eexists. split; [reflexivity|].
  pose proof (fl_touch _ _ _ _ _ _ _ _ _ Hf') as Ht.
  assert (forall tid', live sl !! tid' = None -> tid <> tid') as Hother by (intros tid' Hd <-; congruence).
  split; simpl; [| |done| |]; rewrite ?Hsink.
  - intros tid' thl0. rewrite lookup_insert_Some. intros [[<- <-]|[Hne Hl']].
    + exists thc'. rewrite lookup_insert_eq. split; [done|]. split; [done|]. by eapply file_log_restart.
    + rewrite lookup_insert_ne by done. by eapply rep_threads_other.
  - intros tid'. rewrite !lookup_insert_None. intros [Hd Hne]. split; [|done]. by apply (rep_dead _ _ _ Hrep).
  - intros tid' l He. assert (live sl !! tid' = None) as Hd by (by eapply rep_ended).
    rewrite lookup_insert_ne by auto. eapply rep_ended_other; eauto.
  - intros tid' Hin. destruct (rep_todo _ _ _ Hrep tid' Hin) as (_ & Hd & _).
    rewrite lookup_insert_ne by auto. eapply rep_todo_other; eauto.
Qed.

Lemma exit_sim todo sc sl tid thl :
  system_rep todo sc sl -> live sl !! tid = Some thl ->
  exists sc', file_act sc (Exit tid) = Some sc' /\
    system_rep todo sc' {| live := delete tid (live sl);
                           shared := set_p_sink (<[tid := t_sink thl]> (p_sink (shared sl))) (shared sl) |}.
Proof.
  intros Hrep Hl. destruct (rep_threads _ _ _ Hrep _ _ Hl) as (thc & Hc & Ha & Hf).
  destruct (delete_recorders_spec _ _ _ _ _ _ _ _ _ Hf) as (w' & Heq & Hdata & Hstr & Ht).
  unfold file_act, act. rewrite Hc. cbn [mbind option_bind]. rewrite Heq. cbn [mbind option_bind].
  eexists. split; [reflexivity|].
  assert (forall tid', live sl !! tid' = None -> tid <> tid') as Hother by (intros tid' Hd <-; congruence).
  split; simpl.
  - intros tid' thl0. rewrite lookup_delete_Some. intros [Hne Hl'].
    rewrite lookup_delete_ne by done. by eapply rep_threads_other.
  - intros tid'. rewrite !lookup_delete_None. intros [->|Hd]; [by left|right]. by apply (rep_dead _ _ _ Hrep).
  - apply processes_agree_sink, (rep_shared _ _ _ Hrep).
  - intros tid' l. rewrite lookup_insert_Some. intros [[<- <-]|[Hne He]].
    + split; [by rewrite lookup_delete_eq|]. intros id. split; [apply Hdata|apply Hstr].
    + destruct (rep_ended_other _ _ _ tid w' tid' l Hrep Hne Ht He) as [Hd Hs].
      by rewrite lookup_delete_ne.
  - intros tid' Hin. destruct (rep_todo _ _ _ Hrep tid' Hin) as (_ & Hd & _).
    destruct (rep_todo_other _ _ _ tid w' tid' Hrep) as (H1 & H2 & H3); auto.
    by rewrite lookup_delete_ne, lookup_insert_ne by auto.
Qed.

Lemma act_sim n a sched sc sl alive' :
  NoDup (started (a :: sched)) -> system_rep (started (a :: sched)) sc sl ->
  sys_inv (S n) sl -> sched_ok stack a -> alive_step (dom (live sl)) a = Some alive' ->
  exists sc' sl', file_act sc a = Some sc' /\ log_act clock rand stack freq sl a = Some sl' /\
    system_rep (started sched) sc' sl' /\ sys_inv n sl' /\ dom (live sl') = alive'.
Proof.
  intros Hnd Hrep Hinv Hok Hal.
  destruct (log_act_ok clock rand stack freq n sl a _ alive' Hinv Hok eq_refl Hal)
    as (sl' & Hact & Hinv' & Hdom).
  enough (exists sc', file_act sc a = Some sc' /\ system_rep (started sched) sc' sl')
    as (sc' & Hc & Hr) by (exists sc', sl'; done).
  destruct a as [tid|tid c|tid]; simpl in Hact, Hal; case_decide as Hd; try done.
  - apply not_elem_of_dom in Hd. rewrite Hd in Hact. injection Hact as <-.
    cbn in Hnd, Hrep. apply NoDup_cons in Hnd as [Hnin _]. by apply start_sim.
  - apply elem_of_dom in Hd as [thl Hl]. rewrite Hl in Hact. cbn [mbind option_bind] in Hact.
    destruct Hok as [Hok Hdef].
    destruct (exec_log_ok clock rand stack freq n sl tid thl c Hinv Hl Hok Hdef)
      as (thl' & prl' & Hexec & _ & Hsink).
    rewrite Hexec in Hact. injection Hact as <-. by eapply call_sim.
  - apply elem_of_dom in Hd as [thl Hl]. rewrite Hl in Hact. injection Hact as <-. by apply exit_sim.
Qed.

Lemma run_sim sched n sc sl alive' :
  NoDup (started sched) -> system_rep (started sched) sc sl ->
  sys_inv (length sched + n) sl -> Forall (sched_ok stack) sched ->
  foldM alive_step (dom (live sl)) sched = Some alive' ->
  exists sc' sl', file_run sc sched = Some sc' /\ log_run clock rand stack freq sl sched = Some sl' /\
    system_rep [] sc' sl'.
Proof.
  revert sc sl. induction sched as [|a sched IH]; intros sc sl Hnd Hrep Hinv Hok Hal.
  { by exists sc, sl. }
  apply Forall_cons in Hok as [Ha Hok]. cbn [foldM] in Hal.
  destruct (alive_step (dom (live sl)) a) as [alive1|] eqn:Hst; [|done]. cbn [mbind option_bind] in Hal.
  destruct (act_sim (length sched + n) a sched sc sl alive1) as (sc1 & sl1 & Hc & Hl & Hrep1 & Hinv1 & Hdom);
    [done..|]. subst alive1.
  assert (NoDup (started sched)) as Hnd' by (destruct a; [by apply NoDup_cons in Hnd as [_ ?]|done|done]).
  destruct (IH sc1 sl1 Hnd' Hrep1 Hinv1 Hok Hal) as (sc' & sl' & Hc' & Hl' & Hrep').
  exists sc', sl'. split; [|split; [|done]].
  - unfold file_run, run in *. cbn [foldM]. unfold file_act in Hc. by rewrite Hc.
  - unfold log_run, run in *. cbn [foldM]. unfold log_act in Hl. by rewrite Hl.
Qed.

(** C2: The traced process implements its logs.  For every interleaving of
    starts, calls and exits of threads with different ids, the process with
    its recorders, buffers and files runs to the end, and for each thread
    that exited, each of its record files holds exactly the records, in
    order, that the calls of that thread denote, and each of its string
    files the strings. *)
Theorem process_files_are_logs sched alive j w :
  Forall (sched_ok stack) sched -> alive_after sched = Some alive -> Z.of_nat (length sched) <= 2 ^ 63 - 11 ->
  NoDup (started sched) -> (forall tid, tid ∈ started sched -> thread_names_free w tid pid) ->
  exists sc sl, file_run (initial w j) sched = Some sc /\
    log_run clock rand stack freq (initial ∅ j) sched = Some sl /\
    forall tid l, p_sink (shared sl) !! tid = Some l -> thread_saved (p_sink (shared sc)) tid l.
Proof.
  intros Hok Hal Hlen Hnd Hnames.
  destruct (run_sim sched 0 (initial w j) (initial ∅ j) alive) as (sc & sl & Hc & Hl & Hrep); try done.
  - split; simpl; try done.
    intros tid Hin. split; [by apply Hnames|]. done.
  - apply sys_inv_initial. lia.
  - exists sc, sl. split; [done|]. split; [done|]. intros tid l Hlk. by apply (rep_ended _ _ _ Hrep).
Qed.
End FilesOfProcess.

(** ** Witnesses *)

Section Witness.
Definition w_clock (n : nat) : Z * Z := (Z.of_nat n, 7).
Definition w_zero (n : nat) : Z := 0.
(** Every read of an unset variable is undefined. *)
Definition w_unset (n : nat) : option Z := None.

(** Thread 7 allocates an object, thread 8 uses it; both exit. *)
Definition w_sched : list action :=
  [Start 7; Start 8; Call 7 (TagNewRecord_call (Some 5%positive) 3 10 2 16);
   Call 8 (TagUseRecord_call 1 (Some 5%positive) 11 2);
   Call 8 (FieldValueRecordJstring_call 80 "a" 11 2 4 true); Exit 8; Exit 7].

Lemma w_sched_calls tid c : Call tid c ∈ w_sched -> call_ok c /\ no_null_reference c.
Proof.
  assert (Forall (fun a => match a with Call _ c => call_ok c /\ no_null_reference c | _ => True end) w_sched)
    as Hall by (unfold w_sched; rewrite !Forall_cons, Forall_nil; cbn; unfold in_s; split_and!;
      first [exact I|lia|by eexists]).
  rewrite Forall_forall in Hall. apply Hall.
Qed.

Lemma w_sched_ok : Forall (sched_ok w_unset) w_sched.
Proof.
  apply Forall_forall. intros [|tid c|] Hin; try done.
  destruct (w_sched_calls tid c Hin) as [Hc Hn]. split; [done|by right].
Qed.

Definition w_padding (id : recorder_id) (r : record_of id) : list bytes := zero_padding r.

Lemma process_files_are_logs_witness :
  exists sc, file_run w_clock w_zero w_unset 1 false w_padding 5 (initial empty_fs no_vm) w_sched = Some sc /\
    files (p_sink (shared sc)) !! id_data 8 5 useRecorder
    = Some [1;0;11;0;2;0;0;0; 10;0;0;0;0;0;0;0; 7;202;154;59;0;0;0;0] /\
    files (p_sink (shared sc)) !! id_string 8 5 (stringFieldValueRecord true) = Some (str_bytes ("0,a" +:+ nl)).
Proof.
  destruct (process_files_are_logs w_clock w_zero w_unset 1 false w_padding 5 w_sched ∅ no_vm empty_fs)
    as (sc & sl & Hc & Hl & Hs).
  - exact w_sched_ok.
  - vm_compute. reflexivity.
  - vm_compute. discriminate.
  - apply (bool_decide_unpack _). vm_compute. exact I.
  - intros tid _ id. apply names_free_empty.
  - exists sc. split; [exact Hc|].
    assert ((fun s => p_sink (shared s) !! 8) <$>
            log_run w_clock w_zero w_unset 1 (initial ∅ no_vm) w_sched
            = Some (Some [Added useRecorder (Build_UseRecord false 1 11 2 10 1000000007);
                          AddedString (stringFieldValueRecord true) ("0,a" +:+ nl);
                          Added (stringFieldValueRecord true)
                            (Build_StringFieldValueRecord false true 11 2 10 2000000007 4 0)])) as Hlog
      by (vm_compute; reflexivity).
    rewrite Hl in Hlog. cbn [fmap option_fmap option_map] in Hlog. injection Hlog as Hlog.
    destruct (Hs 8 _ Hlog useRecorder) as [Hd _].
    destruct (Hs 8 _ Hlog (stringFieldValueRecord true)) as [_ Hstr].
    split; [rewrite Hd by (vm_compute; discriminate)|rewrite Hstr by (vm_compute; discriminate)];
      vm_compute; reflexivity.
Defined.


(** The object as the shared environment and as thread 8's cache have it. *)
Definition w_running : list action := take 4 w_sched.
Definition w_state : system (list event) (gmap Z (list event)) vm :=
  default (initial ∅ no_vm) (log_run w_clock w_zero w_unset 1 (initial ∅ no_vm) w_running).

Lemma tag_names_one_object_witness :
  GetTag 0 5%positive (p_jvm (shared w_state)) = 10 /\
  GetTag 1026 5%positive (p_jvm (shared w_state)) = 10 /\ 5%positive = 5%positive.
Proof.
  split; [vm_compute; reflexivity|]. split; [vm_compute; reflexivity|].
  apply (tag_names_one_object w_clock w_zero w_unset 1 w_running {[7; 8]} no_vm w_state 0 1026 5 5 10).
  - apply Forall_take, w_sched_ok.
  - vm_compute. reflexivity.
  - vm_compute. discriminate.
  - vm_compute. reflexivity.
  - left. apply (bool_decide_unpack _). vm_compute. exact I.
  - right. destruct (live w_state !! 8) as [th|] eqn:Hth; [|vm_compute in Hth; discriminate].
    exists 8, th. split; [exact Hth|].
    assert ((live w_state !! 8) ≫= local_jvmti_env = Some 1026) as He by (vm_compute; reflexivity).
    rewrite Hth in He. exact He.
  - lia.
  - vm_compute. reflexivity.
  - vm_compute. reflexivity.
Defined.
End Witness.
