(* ===== verification/SqlVarint.v ===== *)
(** * Variable-length integers of the SQLite file format

    [sqlite/sqlite3.c] (util.c): [sqlite3PutVarint], [sqlite3GetVarint],
    [sqlite3GetVarint32] and [sqlite3VarintLen], which code the rowids,
    header sizes and serial types of every row [csv2db] inserts.

    A pointer into memory is the list of bytes from there on: reading past the
    list is [None].  A routine that writes returns the bytes written, one that
    reads the number of bytes used and the value. *)

From S2P Require Import Prelude Bits.

(** ** Encoding *)

(** The loop [do{ buf[n++] = (u8)((v & 0x7f) | 0x80); v >>= 7; }while( v!=0 );]
    with [k] more rounds allowed. *)
Fixpoint varint_digits (k : nat) (v : Z) : bytes :=
  let b := u8 (Z.lor (Z.land v 0x7f) 0x80) in
  match k with
  | O => [b]
  | S k => let v := Z.shiftr v 7 in b :: if decide (v = 0) then [] else varint_digits k v
  end.

(** The loop [for(i=7; i>=0; i--)] of the nine-byte form; the digits of lower
    weight are written first, at higher addresses. *)
Fixpoint nine_digits (i : nat) (v : Z) : bytes :=
  match i with
  | O => []
  | S i => nine_digits i (Z.shiftr v 7) ++ [u8 (Z.lor (Z.land v 0x7f) 0x80)]
  end.

Definition putVarint64 (v : Z) : bytes :=
  if decide (Z.land v (shl64 0xff000000 32) <> 0) then
    nine_digits 8 (Z.shiftr v 8) ++ [u8 v]
  else
    match varint_digits 9 v with
    | b :: buf => reverse (Z.land b 0x7f :: buf)
    | [] => []
    end.

Definition sqlite3PutVarint (v : Z) : bytes :=
  if decide (v <= 0x7f) then [u8 (Z.land v 0x7f)]
  else if decide (v <= 0x3fff) then
    [u8 (Z.lor (Z.land (Z.shiftr v 7) 0x7f) 0x80); u8 (Z.land v 0x7f)]
  else putVarint64 v.

(** ** Decoding *)

Definition SLOT_2_0 : Z := 0x001fc07f.

Definition SLOT_4_2_0 : Z := 0xf01fc07f.

(** The last statement of the long forms: [ *v = ((u64)s)<<32 | a ]. *)
Definition join64 (s a : Z) : Z := Z.lor (shl64 s 32) a.

(** The forms of six and more bytes, from [/* 2:save off p0<<21 ... */] on:
    [a], [b], [s] as they are there, [p] from the sixth byte on. *)
Definition getVarint_wide (a b s p4 : Z) (p : bytes) : option (Z * Z) :=
  let s := Z.lor (shl32 s 7) b in
  p5 ← p !! 0%nat;
  let b := Z.lor (shl32 b 14) p5 in
  if decide (Z.land b 0x80 = 0) then
    let a := Z.land a SLOT_2_0 in
    let a := Z.lor (shl32 a 7) b in
    Some (6, join64 (Z.shiftr s 18) a)
  else
  p6 ← p !! 1%nat;
  let a := Z.lor (shl32 a 14) p6 in
  if decide (Z.land a 0x80 = 0) then
    let a := Z.land a SLOT_4_2_0 in
    let b := Z.land b SLOT_2_0 in
    let b := shl32 b 7 in
    let a := Z.lor a b in
    Some (7, join64 (Z.shiftr s 11) a)
  else
  let a := Z.land a SLOT_2_0 in
  p7 ← p !! 2%nat;
  let b := Z.lor (shl32 b 14) p7 in
  if decide (Z.land b 0x80 = 0) then
    let b := Z.land b SLOT_4_2_0 in
    let a := Z.lor (shl32 a 7) b in
    Some (8, join64 (Z.shiftr s 4) a)
  else
  p8 ← p !! 3%nat;
  let a := Z.lor (shl32 a 15) p8 in
  let b := Z.land b SLOT_2_0 in
  let a := Z.lor a (shl32 b 8) in
  let s := shl32 s 4 in
  let b := Z.shiftr (Z.land p4 0x7f) 3 in
  Some (9, join64 (Z.lor s b) a).

Definition sqlite3GetVarint (p : bytes) : option (Z * Z) :=
  p0 ← p !! 0%nat;
  if decide (0 <= wraps 8 p0) then Some (1, p0) else
  p1 ← p !! 1%nat;
  if decide (0 <= wraps 8 p1) then Some (2, Z.lor (shl32 (Z.land p0 0x7f) 7) p1) else
  let a := shl32 p0 14 in
  let b := p1 in
  p2 ← p !! 2%nat;
  let a := Z.lor a p2 in
  if decide (Z.land a 0x80 = 0) then
    let a := Z.land a SLOT_2_0 in
    let b := Z.land b 0x7f in
    let b := shl32 b 7 in
    Some (3, Z.lor a b)
  else
  let a := Z.land a SLOT_2_0 in
  let b := shl32 b 14 in
  p3 ← p !! 3%nat;
  let b := Z.lor b p3 in
  if decide (Z.land b 0x80 = 0) then
    let b := Z.land b SLOT_2_0 in
    let a := shl32 a 7 in
    Some (4, Z.lor a b)
  else
  let b := Z.land b SLOT_2_0 in
  let s := a in
  p4 ← p !! 4%nat;
  let a := Z.lor (shl32 a 14) p4 in
  if decide (Z.land a 0x80 = 0) then
    let b := shl32 b 7 in
    let a := Z.lor a b in
    Some (5, join64 (Z.shiftr s 18) a)
  else
  getVarint_wide a b s p4 (drop 5 p).

Definition SQLITE_MAX_U32 : Z := 2 ^ 32 - 1.

(** [sqlite3GetVarint32]; the one-byte case is in the macro around it. *)
Definition sqlite3GetVarint32 (p : bytes) : option (Z * Z) :=
  a ← p !! 0%nat;
  b ← p !! 1%nat;
  if decide (Z.land b 0x80 = 0) then
    Some (2, Z.lor (shl32 (Z.land a 0x7f) 7) b)
  else
  p2 ← p !! 2%nat;
  let a := Z.lor (shl32 a 14) p2 in
  if decide (Z.land a 0x80 = 0) then
    let a := Z.land a (Z.lor (Z.shiftl 0x7f 14) 0x7f) in
    let b := shl32 (Z.land b 0x7f) 7 in
    Some (3, Z.lor a b)
  else
  '(n, v64) ← sqlite3GetVarint p;
  if decide (Z.land v64 SQLITE_MAX_U32 <> v64) then Some (n, 0xffffffff)
  else Some (n, u32 v64).

(** The macro [getVarint32]. *)
Definition getVarint32 (p : bytes) : option (Z * Z) :=
  a ← p !! 0%nat;
  if decide (a < 0x80) then Some (1, a) else sqlite3GetVarint32 p.

(** [for(i=1; (v >>= 7)!=0; i++)]; a 64-bit value is 0 after ten shifts. *)
Fixpoint varint_len_from (fuel : nat) (i v : Z) : Z :=
  let v := Z.shiftr v 7 in
  if decide (v = 0) then i
  else match fuel with O => i | S fuel => varint_len_from fuel (i + 1) v end.

Definition sqlite3VarintLen (v : Z) : Z := varint_len_from 9 1 v.

(** ** The format *)

(** The value of the format's key: seven bits a byte, high byte first, a
    flag bit set on all but the last; a ninth byte counts in full. *)
Fixpoint varint_from (k : nat) (n acc : Z) (p : bytes) : option (Z * Z) :=
  match p with
  | [] => None
  | b :: p =>
      match k with
      | O => Some (n + 1, acc * 256 + b)
      | S k => if decide (b < 128) then Some (n + 1, acc * 128 + b)
               else varint_from k (n + 1) (acc * 128 + (b - 128)) p
      end
  end.

Definition varint (p : bytes) : option (Z * Z) := varint_from 8 0 0 p.

(** ** Masks as arithmetic *)

Lemma land_SLOT_2_0 h m l :
  0 <= m < 128 -> 0 <= l < 128 ->
  Z.land (h * 2 ^ 14 + m * 2 ^ 7 + l) SLOT_2_0 = (h mod 128) * 2 ^ 14 + l.
Proof.
  intros. change SLOT_2_0 with (127 * 2 ^ 14 + 127). rewrite <- Z.add_assoc.
  rewrite land_split by lia. rewrite !land_127. f_equal. Z.to_euclidean_division_equations. lia.
Qed.

Lemma land_SLOT_4_2_0 g m' h m l :
  0 <= m' < 128 -> 0 <= h < 128 -> 0 <= m < 128 -> 0 <= l < 128 ->
  Z.land (g * 2 ^ 28 + m' * 2 ^ 21 + h * 2 ^ 14 + m * 2 ^ 7 + l) SLOT_4_2_0
  = (g mod 16) * 2 ^ 28 + h * 2 ^ 14 + l.
Proof.
  intros. change SLOT_4_2_0 with ((15 * 2 ^ 14 + 127) * 2 ^ 14 + 127).
  replace (g * 2 ^ 28 + m' * 2 ^ 21 + h * 2 ^ 14 + m * 2 ^ 7 + l)
    with ((g * 2 ^ 14 + (m' * 2 ^ 7 + h)) * 2 ^ 14 + (m * 2 ^ 7 + l)) by lia.
  rewrite !land_split by lia. rewrite !land_127. change 15 with (2 ^ 4 - 1). rewrite land_ones_mod by lia.
  Z.to_euclidean_division_equations. lia.
Qed.

(** Digits at even places joined to digits at odd places. *)
Lemma lor_mix k x2 x1 x0 y1 y0 :
  0 <= k -> 0 <= x0 < 2 ^ k -> 0 <= y0 < 128 -> 0 <= x1 < 128 -> 0 <= y1 < 128 ->
  Z.lor (x2 * 2 ^ (k + 21) + x1 * 2 ^ (k + 7) + x0) (y1 * 2 ^ (k + 14) + y0 * 2 ^ k)
  = x2 * 2 ^ (k + 21) + y1 * 2 ^ (k + 14) + x1 * 2 ^ (k + 7) + y0 * 2 ^ k + x0.
Proof.
  intros Hk Hx0 Hy0 Hx1 Hy1. rewrite !Z.pow_add_r by lia.
  replace (x2 * (2 ^ k * 2 ^ 21) + x1 * (2 ^ k * 2 ^ 7) + x0)
    with (((x2 * 2 ^ 7 + 0) * 2 ^ 14 + (x1 * 2 ^ 7 + 0)) * 2 ^ k + x0) by lia.
  replace (y1 * (2 ^ k * 2 ^ 14) + y0 * 2 ^ k)
    with (((0 * 2 ^ 7 + y1) * 2 ^ 14 + (0 * 2 ^ 7 + y0)) * 2 ^ k + 0) by lia.
  rewrite !lor_parts by lia. rewrite !Z.lor_0_r, !Z.lor_0_l. lia.
Qed.

(** The words the decoder builds, for bytes [f * 128 + d] with flag [f]. *)
Definition flag_ok (f : Z) : Prop := f = 0 \/ f = 1.

Lemma flag_test a f d :
  flag_ok f -> 0 <= d < 128 -> a mod 256 = f * 128 + d -> Z.land a 0x80 = 0 <-> f = 0.
Proof. intros [-> | ->] Hd Ha; rewrite land_128; case_decide; lia. Qed.

Lemma signed_test f d : flag_ok f -> 0 <= d < 128 -> 0 <= wraps 8 (f * 128 + d) <-> f = 0.
Proof.
  intros Hf Hd. unfold wraps. change (2 ^ (8 - 1)) with 128. change (2 ^ 8) with 256.
  destruct Hf as [-> | ->]; Z.to_euclidean_division_equations; lia.
Qed.

Lemma join_1 c f d :
  0 <= c < 256 -> flag_ok f -> 0 <= d < 128 ->
  Z.lor (shl32 c 14) (f * 128 + d) = c * 2 ^ 14 + f * 2 ^ 7 + d.
Proof. intros Hc [-> | ->] Hd; rewrite lor_shl32 by lia; rewrite Z.mod_small; lia. Qed.

Lemma join_2 c e f d :
  0 <= c < 128 -> 0 <= e < 128 -> flag_ok f -> 0 <= d < 128 ->
  Z.lor (shl32 (c * 2 ^ 14 + e) 14) (f * 128 + d) = (c mod 16) * 2 ^ 28 + e * 2 ^ 14 + f * 2 ^ 7 + d.
Proof.
  intros Hc He [-> | ->] Hd; rewrite lor_shl32 by lia; Z.to_euclidean_division_equations; lia.
Qed.

Lemma join_3 g x y f d :
  0 <= x < 128 -> 0 <= y < 128 -> flag_ok f -> 0 <= d < 128 ->
  Z.lor (shl32 ((g * 2 ^ 14 + x) * 2 ^ 14 + 1 * 2 ^ 7 + y) 14) (f * 128 + d)
  = (x mod 16) * 2 ^ 28 + 1 * 2 ^ 21 + y * 2 ^ 14 + f * 2 ^ 7 + d.
Proof.
  intros Hx Hy [-> | ->] Hd; rewrite lor_shl32 by lia; Z.to_euclidean_division_equations; lia.
Qed.

Lemma join64_sum s a : 0 <= s < 2 ^ 32 -> 0 <= a < 2 ^ 32 -> join64 s a = s * 2 ^ 32 + a.
Proof.
  intros Hs Ha. unfold join64. rewrite shl64_mul by lia. rewrite Z.mod_small by lia.
  by apply lor_split.
Qed.

Lemma shl32_small x n : 0 <= n -> 0 <= x * 2 ^ n < 2 ^ 32 -> shl32 x n = x * 2 ^ n.
Proof. intros. rewrite shl32_mul by done. by apply Z.mod_small. Qed.

Lemma byte_digits b : byte_ok b -> exists f d, b = f * 128 + d /\ flag_ok f /\ 0 <= d < 128.
Proof.
  intros Hb. unfold byte_ok in Hb. exists (b / 128), (b mod 128).
  unfold flag_ok. Z.to_euclidean_division_equations. lia.
Qed.

(** Splits the next byte of the input into its flag and its seven bits. *)
Ltac next_byte H p q f d :=
  destruct p as [|q p]; [done|];
  apply Forall_cons in H as [Hq H];
  destruct (byte_digits q Hq) as (f & d & -> & Hf & Hd); clear Hq.

(** Both decoders stop at a byte whose flag is clear. *)
Ltac stops := rewrite decide_True by (by eapply flag_test; [left|..]; try mods).

Lemma some_pair (a b a' b' : Z) : a = a' -> b = b' -> Some (a, b) = Some (a', b').
Proof. by intros -> ->. Qed.

Lemma varint_from_step k n acc f d p :
  0 <= d < 128 -> flag_ok f ->
  varint_from (S k) n acc (f * 128 + d :: p)
  = if decide (f = 0) then Some (n + 1, acc * 128 + d) else varint_from k (n + 1) (acc * 128 + d) p.
Proof.
  intros Hd [-> | ->]; cbn [varint_from]; case_decide; try lia; case_decide; try lia;
    [apply some_pair; lia|f_equal; lia].
Qed.

Lemma varint_from_last n acc f d p :
  varint_from 0 n acc (f * 128 + d :: p) = Some (n + 1, acc * 256 + f * 128 + d).
Proof. cbn [varint_from]. apply some_pair; lia. Qed.

Lemma decide_iff {A} (P Q : Prop) `{Decision P, Decision Q} (x y : A) :
  P <-> Q -> (if decide P then x else y) = (if decide Q then x else y).
Proof. intros. by apply decide_ext. Qed.

Lemma high_digit d : 0 <= d < 128 -> (1 * 128 + d) mod 128 = d.
Proof. intros. rewrite Z.add_comm, Z_mod_plus_full. by apply Z.mod_small. Qed.

Ltac flagmod := unfold flag_ok in *; mods.

Lemma lor_mix7 a b x2 x1 x0 y1 y0 :
  0 <= x0 < 128 -> 0 <= y0 < 128 -> 0 <= x1 < 128 -> 0 <= y1 < 128 ->
  a = x2 * 2 ^ 28 + x1 * 2 ^ 14 + x0 -> b = y1 * 2 ^ 21 + y0 * 2 ^ 7 ->
  Z.lor a b = x2 * 2 ^ 28 + y1 * 2 ^ 21 + x1 * 2 ^ 14 + y0 * 2 ^ 7 + x0.
Proof. intros ? ? ? ? -> ->. by apply (lor_mix 7). Qed.

Ltac test_flag f d Hf Hd :=
  match goal with
  | |- context [if decide (Z.land ?a 0x80 = 0) then _ else _] =>
      rewrite (decide_iff _ _ _ _ (flag_test a f d Hf Hd ltac:(flagmod)))
  end.

Lemma nine_bytes d0 d1 d2 d3 d4 d5 d6 d7 f8 d8 :
  0 <= d0 < 128 -> 0 <= d1 < 128 -> 0 <= d2 < 128 -> 0 <= d3 < 128 -> 0 <= d4 < 128 ->
  0 <= d5 < 128 -> 0 <= d6 < 128 -> 0 <= d7 < 128 -> flag_ok f8 -> 0 <= d8 < 128 ->
  join64 (Z.lor (shl32 (0 * 2 ^ 28 + d0 * 2 ^ 21 + d1 * 2 ^ 14 + d2 * 2 ^ 7 + d3) 4)
                (Z.shiftr (Z.land (1 * 128 + d4) 0x7f) 3))
    (Z.lor (Z.lor (shl32 (d4 * 2 ^ 14 + d6) 15) (f8 * 128 + d8))
           (shl32 (Z.land ((d3 mod 16) * 2 ^ 28 + 1 * 2 ^ 21 + d5 * 2 ^ 14 + 1 * 2 ^ 7 + d7) SLOT_2_0) 8))
  = ((((d0 * 2 ^ 28 + d1 * 2 ^ 21 + d2 * 2 ^ 14 + d3 * 2 ^ 7 + d4) * 128 + d5) * 128 + d6) * 128 + d7)
    * 256 + f8 * 128 + d8.
Proof.
  intros Hd0 Hd1 Hd2 Hd3 Hd4 Hd5 Hd6 Hd7 Hf8 Hd8.
  assert (0 <= f8 * 128 + d8 < 256) by (destruct Hf8; lia).
  rewrite land_127, high_digit, shr_div by lia. rewrite lor_shl32 by mods.
  rewrite (lor_shl32 _ 15) by lia.
  replace ((d3 mod 16) * 2 ^ 28 + 1 * 2 ^ 21 + d5 * 2 ^ 14 + 1 * 2 ^ 7 + d7)
    with (((d3 mod 16) * 2 ^ 14 + 1 * 2 ^ 7 + d5) * 2 ^ 14 + 1 * 2 ^ 7 + d7) by lia.
  rewrite land_SLOT_2_0 by lia.
  replace (((d3 mod 16) * 2 ^ 14 + 1 * 2 ^ 7 + d5) mod 128) with d5 by mods.
  rewrite (shl32_small _ 8) by lia.
  replace (((d4 * 2 ^ 14 + d6) * 2 ^ 15) mod 2 ^ 32 + (f8 * 128 + d8))
    with ((d4 mod 8) * 2 ^ (8 + 21) + d6 * 2 ^ (8 + 7) + (f8 * 128 + d8)) by mods.
  replace ((d5 * 2 ^ 14 + d7) * 2 ^ 8) with (d5 * 2 ^ (8 + 14) + d7 * 2 ^ 8) by lia.
  rewrite lor_mix by lia. rewrite join64_sum by mods. mods.
Qed.

(** The forms of six to nine bytes: the decoder has read [d0] to [d4]. *)
Lemma getVarint_wide_varint d0 d1 d2 d3 d4 p :
  0 <= d0 < 128 -> 0 <= d1 < 128 -> 0 <= d2 < 128 -> 0 <= d3 < 128 -> 0 <= d4 < 128 -> bytes_ok p ->
  getVarint_wide ((d0 mod 16) * 2 ^ 28 + d2 * 2 ^ 14 + 1 * 2 ^ 7 + d4) (d1 * 2 ^ 14 + d3)
    (d0 * 2 ^ 14 + d2) (1 * 128 + d4) p
  = varint_from 3 5 (d0 * 2 ^ 28 + d1 * 2 ^ 21 + d2 * 2 ^ 14 + d3 * 2 ^ 7 + d4) p.
Proof.
  intros Hd0 Hd1 Hd2 Hd3 Hd4 H. unfold getVarint_wide.
  rewrite (shl32_small _ 7) by lia. rewrite (Z.lor_comm _ (d1 * 2 ^ 14 + d3)).
  rewrite (lor_mix7 _ _ 0 d1 d3 d0 d2) by lia. cbn zeta.
  next_byte H p q5 f5 d5. rename Hf into Hf5, Hd into Hd5.
  cbn [mbind option_bind list_lookup lookup]. rewrite varint_from_step by done.
  rewrite join_2 by (done || lia). test_flag f5 d5 Hf5 Hd5.
  replace ((d0 mod 16) * 2 ^ 28 + d2 * 2 ^ 14 + 1 * 2 ^ 7 + d4)
    with (((d0 mod 16) * 2 ^ 14 + d2) * 2 ^ 14 + 1 * 2 ^ 7 + d4) by lia.
  rewrite (land_SLOT_2_0 _ 1 d4) by lia.
  replace (((d0 mod 16) * 2 ^ 14 + d2) mod 128) with d2 by mods.
  case_decide; subst.
  { apply some_pair; [lia|]. rewrite shl32_small, Z.lor_comm by lia.
    rewrite (lor_mix7 _ _ (d1 mod 16) d3 d5 d2 d4) by lia. rewrite shr_div, join64_sum by mods. mods. }
  destruct Hf5 as [?| ->]; [done|].
  next_byte H p q6 f6 d6. rename Hf into Hf6, Hd into Hd6.
  cbn [mbind option_bind list_lookup lookup]. rewrite varint_from_step by done.
  rewrite join_3 by (done || lia). test_flag f6 d6 Hf6 Hd6.
  replace ((d1 mod 16) * 2 ^ 28 + d3 * 2 ^ 14 + 1 * 2 ^ 7 + d5)
    with (((d1 mod 16) * 2 ^ 14 + d3) * 2 ^ 14 + 1 * 2 ^ 7 + d5) by lia.
  rewrite (land_SLOT_2_0 _ 1 d5) by lia.
  replace (((d1 mod 16) * 2 ^ 14 + d3) mod 128) with d3 by mods.
  case_decide; subst.
  { apply some_pair; [lia|]. rewrite land_SLOT_4_2_0 by lia. rewrite shl32_small by lia.
    rewrite (lor_mix7 _ _ (d2 mod 16) d4 d6 d3 d5) by mods. rewrite shr_div, join64_sum by mods. mods. }
  destruct Hf6 as [?| ->]; [done|].
  replace ((d2 mod 16) * 2 ^ 28 + 1 * 2 ^ 21 + d4 * 2 ^ 14 + 1 * 2 ^ 7 + d6)
    with (((d2 mod 16) * 2 ^ 14 + 1 * 2 ^ 7 + d4) * 2 ^ 14 + 1 * 2 ^ 7 + d6) by lia.
  rewrite (land_SLOT_2_0 _ 1 d6) by lia.
  replace (((d2 mod 16) * 2 ^ 14 + 1 * 2 ^ 7 + d4) mod 128) with d4 by mods.
  next_byte H p q7 f7 d7. rename Hf into Hf7, Hd into Hd7.
  cbn [mbind option_bind list_lookup lookup]. rewrite varint_from_step by done.
  rewrite join_3 by (done || lia). test_flag f7 d7 Hf7 Hd7.
  case_decide; subst.
  { apply some_pair; [lia|]. rewrite land_SLOT_4_2_0 by lia. rewrite shl32_small, Z.lor_comm by lia.
    rewrite (lor_mix7 _ _ (d3 mod 16) d5 d7 d4 d6) by mods. rewrite shr_div, join64_sum by mods. mods. }
  destruct Hf7 as [?| ->]; [done|].
  next_byte H p q8 f8 d8. rename Hf into Hf8, Hd into Hd8.
  cbn [mbind option_bind list_lookup lookup]. rewrite varint_from_last.
  rewrite <- (nine_bytes d0 d1 d2 d3 d4 d5 d6 d7 f8 d8) by done. by apply some_pair; [lia|].
Qed.

(** The unrolled decoder reads the format. *)
Lemma sqlite3GetVarint_varint p : bytes_ok p -> sqlite3GetVarint p = varint p.
Proof.
  intros H. unfold varint.
  next_byte H p q0 f0 d0. rename Hf into Hf0, Hd into Hd0. unfold sqlite3GetVarint.
  cbn [mbind option_bind list_lookup lookup]. rewrite varint_from_step by done.
  rewrite (decide_iff _ _ _ _ (signed_test f0 d0 Hf0 Hd0)).
  case_decide; subst; [apply some_pair; lia|]. destruct Hf0 as [?| ->]; [done|].
  next_byte H p q1 f1 d1. rename Hf into Hf1, Hd into Hd1.
  cbn [mbind option_bind list_lookup lookup]. rewrite varint_from_step by done.
  rewrite (decide_iff _ _ _ _ (signed_test f1 d1 Hf1 Hd1)).
  case_decide; subst.
  { rewrite land_127, lor_shl32 by lia. apply some_pair; mods. }
  destruct Hf1 as [?| ->]; [done|].
  next_byte H p q2 f2 d2. rename Hf into Hf2, Hd into Hd2.
  cbn [mbind option_bind list_lookup lookup]. rewrite varint_from_step by done.
  rewrite join_1 by (done || lia). test_flag f2 d2 Hf2 Hd2.
  rewrite land_SLOT_2_0 by (destruct Hf2; lia). rewrite high_digit by done.
  case_decide; subst.
  { rewrite land_127, high_digit by lia. rewrite shl32_small by lia. apply some_pair; [lia|].
    rewrite (lor_mix7 _ _ 0 d0 d2 0 d1) by lia. lia. }
  destruct Hf2 as [?| ->]; [done|].
  next_byte H p q3 f3 d3. rename Hf into Hf3, Hd into Hd3.
  cbn [mbind option_bind list_lookup lookup]. rewrite varint_from_step by done.
  rewrite join_1 by (done || lia). test_flag f3 d3 Hf3 Hd3.
  rewrite land_SLOT_2_0 by (destruct Hf3; lia). rewrite high_digit by done.
  case_decide; subst.
  { apply some_pair; [lia|]. rewrite shl32_small by lia. rewrite Z.lor_comm.
    rewrite (lor_mix7 _ _ 0 d1 d3 d0 d2) by lia. lia. }
  destruct Hf3 as [?| ->]; [done|].
  next_byte H p q4 f4 d4. rename Hf into Hf4, Hd into Hd4.
  cbn [mbind option_bind list_lookup lookup]. rewrite varint_from_step by done.
  rewrite join_2 by (done || lia). test_flag f4 d4 Hf4 Hd4.
  case_decide; subst.
  { apply some_pair; [lia|]. rewrite (shl32_small _ 7) by lia. 
    rewrite (lor_mix7 _ _ (d0 mod 16) d2 d4 d1 d3) by lia. rewrite shr_div, join64_sum by mods. mods. }
  destruct Hf4 as [?| ->]; [done|].
  cbn [drop]. rewrite getVarint_wide_varint by done. f_equal; lia.
Qed.

(** ** What the encoder writes *)

Lemma flagged_byte v : u8 (Z.lor (Z.land v 0x7f) 0x80) = 1 * 128 + v mod 128.
Proof.
  rewrite land_127, Z.lor_comm. change 0x80 with (1 * 2 ^ 7). rewrite lor_split by mods.
  apply wrapu_id. unfold in_u. mods.
Qed.

Lemma shiftr_7 v : Z.shiftr v 7 = v / 128.
Proof. by rewrite shr_div. Qed.

(** Reading [i] flagged digits back. *)
Lemma varint_from_digits i v k n acc rest :
  (i <= k)%nat ->
  varint_from k n acc (nine_digits i v ++ rest)
  = varint_from (k - i) (n + Z.of_nat i) (acc * 128 ^ Z.of_nat i + v mod 128 ^ Z.of_nat i) rest.
Proof.
  revert v k rest. induction i as [|i IH]; intros v k rest Hk.
  { cbn [nine_digits app]. replace (k - 0)%nat with k by lia. f_equal; [lia|].
    change (Z.of_nat 0) with 0. rewrite Z.pow_0_r, Z.mod_1_r. lia. }
  cbn [nine_digits]. rewrite <- app_assoc, flagged_byte, shiftr_7, IH by lia. cbn [app].
  replace (k - i)%nat with (S (k - S i)) by lia.
  rewrite varint_from_step by (mods || by right). rewrite decide_False by lia.
  rewrite Nat2Z.inj_succ, Z.pow_succ_r by lia. f_equal; [lia|].
  rewrite (Z.rem_mul_r v 128) by lia. lia.
Qed.

Lemma length_nine_digits i v : length (nine_digits i v) = i.
Proof. revert v. induction i as [|i IH]; intros v; [done|]. cbn [nine_digits]. rewrite length_app, IH. simpl. lia. Qed.

(** Number of digits after the last one. *)
Definition varint_high (v : Z) : nat := Z.to_nat (Z.log2 v / 7).

Lemma varint_high_step v : 128 <= v -> varint_high v = S (varint_high (v / 128)).
Proof.
  intros Hv. unfold varint_high. rewrite <- shiftr_7, Z.log2_shiftr by lia.
  assert (7 <= Z.log2 v) by (apply Z.log2_le_pow2; lia).
  rewrite Z.max_r by lia. rewrite <- Z2Nat.inj_succ by mods. f_equal. mods.
Qed.

Lemma varint_high_0 v : v < 128 -> varint_high v = O.
Proof.
  intros Hv. unfold varint_high. destruct (decide (v <= 0)); [by rewrite Z.log2_nonpos|].
  assert (Z.log2 v < 7) by (apply Z.log2_lt_pow2; lia). pose proof (Z.log2_nonneg v).
  by rewrite Z.div_small.
Qed.

Lemma varint_high_bound v k : v < 2 ^ (7 * (Z.of_nat k + 1)) -> (varint_high v <= k)%nat.
Proof.
  intros Hv. unfold varint_high. destruct (decide (v <= 0)); [by rewrite Z.log2_nonpos by done; apply Nat.le_0_l|].
  assert (Z.log2 v < 7 * (Z.of_nat k + 1)) by (apply Z.log2_lt_pow2; lia). pose proof (Z.log2_nonneg v).
  apply Nat2Z.inj_le. rewrite Z2Nat.id by mods. mods.
Qed.

Lemma varint_high_pow v : 0 <= v -> v < 128 ^ (Z.of_nat (varint_high v) + 1).
Proof.
  intros Hv. unfold varint_high. destruct (decide (v = 0)) as [->|]; [done|].
  pose proof (Z.log2_nonneg v). rewrite Z2Nat.id by mods. change 128 with (2 ^ 7).
  rewrite <- Z.pow_mul_r by mods. apply Z.log2_lt_pow2; [lia|]. mods.
Qed.

Lemma varint_digits_spec k v :
  0 <= v -> (varint_high v <= k)%nat ->
  varint_digits k v = reverse (nine_digits (S (varint_high v)) v).
Proof.
  revert v. induction k as [|k IH]; intros v Hv Hk; cbn [varint_digits nine_digits]; rewrite flagged_byte, reverse_snoc.
  - by replace (varint_high v) with O by lia.
  - f_equal. rewrite shiftr_7. case_decide as Hz.
    + rewrite varint_high_0 by mods. done.
    + destruct (decide (v < 128)); [rewrite Z.div_small in Hz by lia; done|].
      rewrite varint_high_step in * by lia. apply IH; [mods|lia].
Qed.

(** The short form: flagged digits, then one without the flag. *)
Definition short_form (v : Z) : bytes := nine_digits (varint_high v) (v / 128) ++ [v mod 128].

Lemma top_byte_test v : in_u 64 v -> Z.land v (shl64 0xff000000 32) <> 0 <-> 2 ^ 56 <= v.
Proof.
  intros Hv. unfold in_u in Hv. change (shl64 0xff000000 32) with (255 * 2 ^ 56 + 0).
  replace v with (v / 2 ^ 56 * 2 ^ 56 + v mod 2 ^ 56) at 1 by mods.
  rewrite land_split by mods. rewrite Z.land_0_r, Z.add_0_r. change 255 with (2 ^ 8 - 1).
  rewrite land_ones_mod, Z.mod_small by mods. mods.
Qed.

Lemma putVarint64_short v : 0 <= v < 2 ^ 56 -> putVarint64 v = short_form v.
Proof.
  intros Hv. unfold putVarint64. rewrite decide_False by (rewrite top_byte_test; unfold in_u; lia).
  rewrite varint_digits_spec by (try apply (varint_high_bound v 9); lia).
  cbn [nine_digits]. rewrite reverse_snoc, flagged_byte, shiftr_7, land_127, high_digit by mods.
  rewrite reverse_cons, reverse_involutive. done.
Qed.

Lemma sqlite3PutVarint_short v : 0 <= v < 2 ^ 56 -> sqlite3PutVarint v = short_form v.
Proof.
  intros Hv. unfold sqlite3PutVarint. case_decide; [|case_decide; [|by apply putVarint64_short]].
  - unfold short_form. rewrite varint_high_0, land_127 by lia. cbn [nine_digits app].
    f_equal. apply wrapu_id. unfold in_u. mods.
  - unfold short_form. rewrite varint_high_step, varint_high_0 by mods. cbn [nine_digits app].
    rewrite !flagged_byte, shiftr_7, land_127. f_equal. f_equal. apply wrapu_id. unfold in_u. mods.
Qed.

Lemma sqlite3PutVarint_long v :
  2 ^ 56 <= v < 2 ^ 64 -> sqlite3PutVarint v = nine_digits 8 (v / 256) ++ [v mod 256].
Proof.
  intros Hv. unfold sqlite3PutVarint. rewrite !decide_False by lia. unfold putVarint64.
  rewrite decide_True by (apply top_byte_test; unfold in_u; lia). by rewrite shr_div by lia.
Qed.

(** Number of bytes of the encoding. *)
Definition varint_bytes (v : Z) : Z := if decide (v < 2 ^ 56) then Z.of_nat (varint_high v) + 1 else 9.

Lemma length_sqlite3PutVarint v : in_u 64 v -> Z.of_nat (length (sqlite3PutVarint v)) = varint_bytes v.
Proof.
  intros [Hv1 Hv2]. unfold varint_bytes. case_decide.
  - rewrite sqlite3PutVarint_short by lia. unfold short_form. rewrite length_app, length_nine_digits. simpl. lia.
  - rewrite sqlite3PutVarint_long by lia. by rewrite length_app, length_nine_digits.
Qed.

Lemma varint_PutVarint v rest : in_u 64 v -> varint (sqlite3PutVarint v ++ rest) = Some (varint_bytes v, v).
Proof.
  intros [Hv1 Hv2]. unfold varint, varint_bytes. case_decide.
  - rewrite sqlite3PutVarint_short by lia. unfold short_form.
    assert (varint_high v <= 7)%nat by (apply varint_high_bound; lia).
    rewrite <- app_assoc, varint_from_digits by lia. cbn [app].
    replace (8 - varint_high v)%nat with (S (7 - varint_high v)) by lia.
    cbn [varint_from]. rewrite decide_True by mods. apply some_pair; [lia|].
    pose proof (varint_high_pow v Hv1) as Hp. rewrite Z.pow_add_r in Hp by lia.
    rewrite Z.mod_small by mods. mods.
  - rewrite sqlite3PutVarint_long by lia. rewrite <- app_assoc, varint_from_digits by lia. cbn [app].
    change (8 - 8)%nat with O. cbn [varint_from]. apply some_pair; [lia|].
    change (128 ^ Z.of_nat 8) with (2 ^ 56). rewrite Z.mod_small by mods. mods.
Qed.

Lemma nine_digits_ok i v : bytes_ok (nine_digits i v).
Proof.
  revert v. induction i as [|i IH]; intros v; [constructor|]. cbn [nine_digits].
  apply bytes_ok_app. split; [apply IH|]. rewrite flagged_byte. repeat constructor; mods.
Qed.

Lemma sqlite3PutVarint_ok v : in_u 64 v -> bytes_ok (sqlite3PutVarint v).
Proof.
  intros [Hv1 Hv2]. destruct (decide (v < 2 ^ 56)).
  - rewrite sqlite3PutVarint_short by lia. apply bytes_ok_app. split; [apply nine_digits_ok|].
    repeat constructor; mods.
  - rewrite sqlite3PutVarint_long by lia. apply bytes_ok_app. split; [apply nine_digits_ok|].
    repeat constructor; mods.
Qed.

Lemma varint_from_range k n acc p m v :
  0 <= acc -> bytes_ok p -> varint_from k n acc p = Some (m, v) -> 0 <= v.
Proof.
  revert n acc p. induction k as [|k IH]; intros n acc [|b p] Hacc Hp; cbn [varint_from]; try done;
    apply Forall_cons in Hp as [[Hb1 Hb2] Hp].
  - intros [= <- <-]. lia.
  - case_decide; [intros [= <- <-]; lia|]. apply IH; [lia|done].
Qed.

(** The 32-bit decoder: the same bytes, the value cut off at the largest
    32-bit integer. *)
Lemma getVarint32_varint p :
  bytes_ok p -> getVarint32 p = ('(n, v) ← varint p; Some (n, Z.min v 0xffffffff)).
Proof.
  intros Hp. pose proof (sqlite3GetVarint_varint p Hp) as Hwide.
  assert (forall m v, varint p = Some (m, v) -> 0 <= v) as Hpos by (intros; by eapply varint_from_range).
  unfold getVarint32, sqlite3GetVarint32. rewrite Hwide. clear Hwide.
  assert (forall x, x = varint p ->
    ('(n, v64) ← x; if decide (Z.land v64 SQLITE_MAX_U32 <> v64) then Some (n, 0xffffffff) else Some (n, u32 v64))
    = ('(n, v) ← varint p; Some (n, Z.min v 0xffffffff))) as Hrest.
  { intros x ->. destruct (varint p) as [[n v]|]; [|done]. cbn [mbind option_bind].
    pose proof (Hpos n v eq_refl) as E. unfold SQLITE_MAX_U32. rewrite land_ones_mod by lia. unfold wrapu.
    case_decide; apply some_pair; mods. }
  unfold varint in *. rewrite (Hrest _ eq_refl). clear Hrest Hpos. revert Hp. intros H.
  next_byte H p q0 f0 d0. rename Hf into Hf0, Hd into Hd0.
  cbn [mbind option_bind list_lookup lookup]. rewrite varint_from_step by done.
  case_decide as E; [destruct Hf0 as [-> | ->]; [|lia]; rewrite decide_True by done; apply some_pair; lia|].
  destruct Hf0 as [-> | ->]; [lia|]. rewrite decide_False by lia.
  next_byte H p q1 f1 d1. rename Hf into Hf1, Hd into Hd1.
  cbn [mbind option_bind list_lookup lookup]. rewrite varint_from_step by done.
  test_flag f1 d1 Hf1 Hd1. case_decide; subst.
  { rewrite land_127, lor_shl32 by lia. apply some_pair; mods. }
  destruct Hf1 as [?| ->]; [done|].
  next_byte H p q2 f2 d2. rename Hf into Hf2, Hd into Hd2.
  cbn [mbind option_bind list_lookup lookup]. rewrite varint_from_step by done.
  rewrite join_1 by (done || lia). test_flag f2 d2 Hf2 Hd2. case_decide; subst; [|done].
  change (Z.lor (Z.shiftl 127 14) 127) with SLOT_2_0.
  rewrite land_SLOT_2_0, high_digit, land_127, high_digit, shl32_small by lia.
  rewrite (lor_mix7 _ _ 0 d0 d2 0 d1) by lia. apply some_pair; lia.
Qed.

Lemma varint_len_from_spec fuel i v :
  0 <= v -> (varint_high v <= fuel)%nat -> varint_len_from fuel i v = i + Z.of_nat (varint_high v).
Proof.
  revert i v. induction fuel as [|fuel IH]; intros i v Hv Hf; cbn [varint_len_from]; rewrite shiftr_7.
  - replace (varint_high v) with O by lia. case_decide; lia.
  - case_decide as Hz; [rewrite varint_high_0 by mods; lia|].
    destruct (decide (v < 128)); [rewrite Z.div_small in Hz by lia; done|].
    rewrite varint_high_step in * by lia. rewrite IH by (try mods; lia). lia.
Qed.

Lemma getVarint32_PutVarint v rest :
  in_u 32 v -> bytes_ok rest ->
  getVarint32 (sqlite3PutVarint v ++ rest) = Some (Z.of_nat (length (sqlite3PutVarint v)), v).
Proof.
  intros Hv Hrest. assert (in_u 64 v) as Hv64 by (unfold in_u in *; lia).
  rewrite getVarint32_varint by (apply bytes_ok_app; split; [by apply sqlite3PutVarint_ok|done]).
  rewrite varint_PutVarint, length_sqlite3PutVarint by done. cbn [mbind option_bind].
  apply some_pair; [done|]. unfold in_u in Hv. lia.
Qed.

Lemma sqlite3VarintLen_PutVarint v :
  0 <= v < 2 ^ 63 -> sqlite3VarintLen v = Z.of_nat (length (sqlite3PutVarint v)).
Proof.
  intros Hv. rewrite length_sqlite3PutVarint by (unfold in_u; lia).
  unfold sqlite3VarintLen. rewrite varint_len_from_spec by (try apply (varint_high_bound v 9); lia).
  unfold varint_bytes. case_decide; [lia|].
  assert (56 <= Z.log2 v) by (apply Z.log2_le_pow2; lia). unfold varint_high.
  assert (Z.log2 v < 63) by (apply Z.log2_lt_pow2; lia). rewrite Z2Nat.id by mods. mods.
Qed.

(** ** Properties *)

(** C36: The decoders read back what the encoder wrote, whatever follows it:
    the number of bytes written and the value, which the 32-bit decoder
    replaces by 2^32 - 1 when it does not fit. *)
Theorem varint_round_trip v rest :
  in_u 64 v -> bytes_ok rest ->
  let p := sqlite3PutVarint v in
  (1 <= length p <= 9)%nat /\
  sqlite3GetVarint (p ++ rest) = Some (Z.of_nat (length p), v) /\
  getVarint32 (p ++ rest) = Some (Z.of_nat (length p), Z.min v 0xffffffff).
Proof.
  intros Hv Hrest p. assert (bytes_ok (p ++ rest)) as Hok.
  { apply bytes_ok_app. by split; [apply sqlite3PutVarint_ok|]. }
  pose proof (length_sqlite3PutVarint v Hv) as Hlen. fold p in Hlen.
  rewrite sqlite3GetVarint_varint, getVarint32_varint by done.
  assert (varint (p ++ rest) = Some (varint_bytes v, v)) as -> by (by apply varint_PutVarint).
  rewrite Hlen. split; [|done].
  unfold varint_bytes in Hlen. case_decide; [|lia].
  assert (varint_high v <= 7)%nat by (apply varint_high_bound; lia). lia.
Qed.

Lemma varint_round_trip_witness :
  sqlite3GetVarint (sqlite3PutVarint 0xfedcba9876543210 ++ [1; 2])
  = Some (Z.of_nat (length (sqlite3PutVarint 0xfedcba9876543210)), 0xfedcba9876543210).
Proof.
  apply (varint_round_trip 0xfedcba9876543210 [1; 2]).
  - apply (bool_decide_unpack _). vm_compute. exact I.
  - by repeat (constructor; [done|]).
Defined.

(** The unrolled decoder computes the value of the file format's key (up
    to eight groups of seven bits, high group first, then a byte in full) on
    every input, and reads past the end of exactly the inputs that stop in
    the middle of an integer. *)
Theorem unrolled_varint_is_format p : bytes_ok p -> sqlite3GetVarint p = varint p.
Proof. apply sqlite3GetVarint_varint. Qed.

Lemma unrolled_varint_is_format_witness : sqlite3GetVarint [0x81; 0x80; 0x05] = Some (3, 16389).
Proof. rewrite (unrolled_varint_is_format [0x81; 0x80; 0x05]); [by vm_compute|by repeat (constructor; [done|])]. Defined.

(** [sqlite3VarintLen] is the length of the encoding, except for values
    with the top bit set: those take nine bytes, for which it answers ten. *)
Theorem sqlite3VarintLen_spec v :
  in_u 64 v ->
  sqlite3VarintLen v = Z.of_nat (length (sqlite3PutVarint v)) + (if decide (2 ^ 63 <= v) then 1 else 0).
Proof.
  intros [Hv1 Hv2]. case_decide; [|rewrite sqlite3VarintLen_PutVarint by lia; lia].
  rewrite length_sqlite3PutVarint by (unfold in_u; lia). unfold varint_bytes. rewrite decide_False by lia.
  unfold sqlite3VarintLen. rewrite varint_len_from_spec by (try apply (varint_high_bound v 9); lia).
  assert (63 <= Z.log2 v) by (apply Z.log2_le_pow2; lia).
  assert (Z.log2 v < 64) by (apply Z.log2_lt_pow2; lia). unfold varint_high. rewrite Z2Nat.id by mods. mods.
Qed.

Lemma sqlite3VarintLen_spec_witness : sqlite3VarintLen (2 ^ 63) = 10.
Proof. rewrite (sqlite3VarintLen_spec (2 ^ 63)); [by vm_compute|apply (bool_decide_unpack _); vm_compute; exact I]. Defined.
