(* ===== verification/SqlRecord.v ===== *)
(** * Records of the SQLite file format

    [sqlite/sqlite3.c] (vdbe.c, vdbeaux.c): the opcode [OP_MakeRecord], which
    turns the registers of an [INSERT] into the record that is stored, and
    [sqlite3VdbeRecordUnpack] with [sqlite3VdbeSerialGet], which read one back.
    Every row [csv2db] inserts goes through the first.

    The column affinity has been applied to the registers, and allocation
    succeeds.  A floating-point value is the 64-bit pattern of the double. *)

From S2P Require Import Prelude Bits SqlVarint.

(** ** Values

    The register contents [Mem] distinguishes by its flags: [MEM_Null] (with
    [MEM_Zero] for an unchanged column), [MEM_Int], [MEM_IntReal] (an integer
    in a REAL column), [MEM_Real], [MEM_Str], [MEM_Blob], and a blob with
    [MEM_Zero] whose tail of [nZero] zero bytes is not materialised. *)
Inductive Mem :=
| MNull
| MNoChange
| MInt (i : Z)
| MIntReal (i : Z)
| MReal (r : Z)
| MStr (z : bytes)
| MBlob (z : bytes)
| MZeroBlob (z : bytes) (nZero : Z).

(** The 53-bit significand of [m], whose leading bit is bit [e]. *)
Definition significand (m e : Z) : Z :=
  if decide (e <= 52) then m * 2 ^ (52 - e)
  else
    let s := e - 52 in
    let q := m / 2 ^ s in
    let r := m mod 2 ^ s in
    if decide (2 ^ (s - 1) < r \/ (r = 2 ^ (s - 1) /\ q mod 2 = 1)) then q + 1 else q.

(** [(double)i]: the nearest double, ties to the even significand. *)
Definition double_of_int (i : Z) : Z :=
  if decide (i = 0) then 0 else
  let m := Z.abs i in
  let e := Z.log2 m in
  (if decide (i < 0) then 2 ^ 63 else 0) + (e + 1023) * 2 ^ 52 + (significand m e - 2 ^ 52).

Definition EXP754 : Z := Z.shiftl 0x7ff 52.

Definition MAN754 : Z := Z.shiftl 1 52 - 1.

Definition IsNaN (x : Z) : bool :=
  bool_decide (Z.land x EXP754 = EXP754) && bool_decide (Z.land x MAN754 <> 0).

Definition sqlite3SmallTypeSizes : list Z :=
  [ 0;  1;  2;  3;  4;  6;  8;  8;  0;  0;
    0;  0;  0;  0;  1;  1;  2;  2;  3;  3;
    4;  4;  5;  5;  6;  6;  7;  7;  8;  8;
    9;  9; 10; 10; 11; 11; 12; 12; 13; 13;
   14; 14; 15; 15; 16; 16; 17; 17; 18; 18;
   19; 19; 20; 20; 21; 21; 22; 22; 23; 23;
   24; 24; 25; 25; 26; 26; 27; 27; 28; 28;
   29; 29; 30; 30; 31; 31; 32; 32; 33; 33;
   34; 34; 35; 35; 36; 36; 37; 37; 38; 38;
   39; 39; 40; 40; 41; 41; 42; 42; 43; 43;
   44; 44; 45; 45; 46; 46; 47; 47; 48; 48;
   49; 49; 50; 50; 51; 51; 52; 52; 53; 53;
   54; 54; 55; 55; 56; 56; 57; 57].

Definition sqlite3VdbeSerialTypeLen (serial_type : Z) : Z :=
  if decide (128 <= serial_type) then u32 (serial_type - 12) / 2
  else default 0 (sqlite3SmallTypeSizes !! Z.to_nat serial_type).

(** ** [OP_MakeRecord] *)

(** The totals of the first loop. *)
Record totals := { nHdr : Z; nData : Z; nZero : Z }.

Definition add_totals (h d z : Z) (st : totals) : totals :=
  {| nHdr := nHdr st + h; nData := nData st + d; nZero := nZero st + z |}.

(** Body of the loop for [MEM_Int] and [MEM_IntReal]: the width, or the large
    [MEM_IntReal] turned into a double. *)
Definition int_type (minWriteFileFormat : Z) (intreal : bool) (i : Z) (st : totals) : Mem * Z * totals :=
  let m := if intreal then MIntReal i else MInt i in
  let uu := if decide (i < 0) then Z.lnot i else i in
  if decide (uu <= 127) then
    if decide (Z.land i 1 = i /\ 4 <= minWriteFileFormat) then (m, 8 + u32 uu, add_totals 1 0 0 st)
    else (m, 1, add_totals 1 1 0 st)
  else if decide (uu <= 32767) then (m, 2, add_totals 1 2 0 st)
  else if decide (uu <= 8388607) then (m, 3, add_totals 1 3 0 st)
  else if decide (uu <= 2147483647) then (m, 4, add_totals 1 4 0 st)
  else if decide (uu <= 140737488355327) then (m, 5, add_totals 1 6 0 st)
  else if intreal then (MReal (double_of_int i), 7, add_totals 1 8 0 st)
  else (m, 6, add_totals 1 8 0 st).

(** Body of the loop for [MEM_Str] and [MEM_Blob] without [MEM_Zero]. *)
Definition text_type (str : bool) (z : bytes) : Z :=
  u32 (u32 (Z.of_nat (length z)) * 2 + 12 + (if str then 1 else 0)).

(** The body of the first loop: the field as it will be written, its
    [uTemp] and the totals. *)
Definition field_type (minWriteFileFormat : Z) (pRec : Mem) (st : totals) : Mem * Z * totals :=
  match pRec with
  | MNull => (pRec, 0, add_totals 1 0 0 st)
  | MNoChange => (pRec, 10, add_totals 1 0 0 st)
  | MInt i => int_type minWriteFileFormat false i st
  | MIntReal i => int_type minWriteFileFormat true i st
  | MReal _ => (pRec, 7, add_totals 1 8 0 st)
  | MStr z =>
      let t := text_type true z in (pRec, t, add_totals (sqlite3VarintLen t) (Z.of_nat (length z)) 0 st)
  | MBlob z =>
      let t := text_type false z in (pRec, t, add_totals (sqlite3VarintLen t) (Z.of_nat (length z)) 0 st)
  | MZeroBlob z n =>
      let t := u32 (text_type false z + n * 2) in
      let len := Z.of_nat (length z) in
      if decide (nData st <> 0) then
        (MBlob (z ++ replicate (Z.to_nat n) 0), t, add_totals (sqlite3VarintLen t) (len + n) 0 st)
      else (pRec, t, add_totals (sqlite3VarintLen t) len n st)
  end.

(** The loop runs from the last field to the first. *)
Fixpoint field_types (minWriteFileFormat : Z) (recs : list Mem) : list (Mem * Z) * totals :=
  match recs with
  | [] => ([], {| nHdr := 0; nData := 0; nZero := 0 |})
  | pRec :: recs =>
      let '(fields, st) := field_types minWriteFileFormat recs in
      let '(m, t, st) := field_type minWriteFileFormat pRec st in
      ((m, t) :: fields, st)
  end.

(** The size of the header with its own size in front. *)
Definition header_size (nHdr : Z) : Z :=
  if decide (nHdr <= 126) then nHdr + 1
  else
    let nVarint := sqlite3VarintLen nHdr in
    let nHdr := nHdr + nVarint in
    if decide (nVarint < sqlite3VarintLen nHdr) then nHdr + 1 else nHdr.

(** A store to the output buffer; one outside it is an error. *)
Definition store (off : Z) (bs buf : bytes) : option bytes :=
  if decide (0 <= off /\ off + Z.of_nat (length bs) <= Z.of_nat (length buf))
  then Some (take (Z.to_nat off) buf ++ bs ++ drop (Z.to_nat off + length bs) buf) else None.

(** The loop [while(1){ zPayload[--i] = (u8)(v&0xFF); ... v >>= 8; }]. *)
Fixpoint put_bytes (i : nat) (v : Z) : bytes :=
  match i with
  | O => []
  | S i => put_bytes i (Z.shiftr v 8) ++ [u8 (Z.land v 0xFF)]
  end.

(** [pRec->z] with [pRec->n]. *)
Definition mem_z (m : Mem) : bytes :=
  match m with MStr z | MBlob z | MZeroBlob z _ => z | _ => [] end.

(** The 64 bits of [pRec->u.r] or [pRec->u.i]. *)
Definition mem_u (m : Mem) : Z :=
  match m with MReal r => r | MInt i | MIntReal i => u64 i | _ => 0 end.

(** The body of the second loop; [zHdr] and [zPayload] are offsets. *)
Definition write_field (f : Mem * Z) (st : bytes * Z * Z) : option (bytes * Z * Z) :=
  let '(m, serial_type) := f in
  let '(buf, zHdr, zPayload) := st in
  if decide (serial_type <= 7) then
    buf ← store zHdr [serial_type] buf;
    if decide (serial_type = 0) then Some (buf, zHdr + 1, zPayload)
    else
      let len := default 0 (sqlite3SmallTypeSizes !! Z.to_nat serial_type) in
      buf ← store zPayload (put_bytes (Z.to_nat len) (mem_u m)) buf;
      Some (buf, zHdr + 1, zPayload + len)
  else if decide (serial_type < 0x80) then
    buf ← store zHdr [serial_type] buf;
    if decide (14 <= serial_type /\ (0 < length (mem_z m))%nat) then
      buf ← store zPayload (mem_z m) buf;
      Some (buf, zHdr + 1, zPayload + Z.of_nat (length (mem_z m)))
    else Some (buf, zHdr + 1, zPayload)
  else
    let h := sqlite3PutVarint serial_type in
    buf ← store zHdr h buf;
    let zHdr := zHdr + Z.of_nat (length h) in
    if decide (length (mem_z m) <> O) then
      buf ← store zPayload (mem_z m) buf;
      Some (buf, zHdr, zPayload + Z.of_nat (length (mem_z m)))
    else Some (buf, zHdr, zPayload).

Fixpoint write_fields (fields : list (Mem * Z)) (st : bytes * Z * Z) : option (bytes * Z * Z) :=
  match fields with
  | [] => Some st
  | f :: fields => st ← write_field f st; write_fields fields st
  end.

(** The output register: a blob with a tail of zeros, or an error. *)
Inductive made :=
| Made (z : bytes) (tail : Z)
| TooBig.

(** [limit] is [db->aLimit[SQLITE_LIMIT_LENGTH]], [szMalloc] the size of the
    buffer the output register has already, [stale] what the buffer holds. *)
Definition OP_MakeRecord (minWriteFileFormat limit szMalloc : Z) (stale : nat -> Z) (recs : list Mem)
    : option made :=
  let '(fields, st) := field_types minWriteFileFormat recs in
  let hdr := header_size (nHdr st) in
  let nByte := hdr + nData st in
  if decide (szMalloc < nByte + nZero st /\ limit < nByte + nZero st) then Some TooBig
  else
    let z := stale <$> seq 0 (Z.to_nat nByte) in
    let h := if decide (hdr < 0x80) then [hdr] else sqlite3PutVarint hdr in
    z ← store 0 h z;
    '(z, _, _) ← write_fields fields (z, Z.of_nat (length h), hdr);
    Some (Made z (nZero st)).

(** ** Reading a record *)

Definition i8 (b : Z) : Z := wraps 8 b.

Definition ONE_BYTE_INT (x : bytes) : option Z := x0 ← x !! 0%nat; Some (i8 x0).

Definition TWO_BYTE_INT (x : bytes) : option Z :=
  x0 ← x !! 0%nat; x1 ← x !! 1%nat; Some (Z.lor (256 * i8 x0) x1).

Definition THREE_BYTE_INT (x : bytes) : option Z :=
  x0 ← x !! 0%nat; x1 ← x !! 1%nat; x2 ← x !! 2%nat;
  Some (Z.lor (Z.lor (65536 * i8 x0) (Z.shiftl x1 8)) x2).

Definition FOUR_BYTE_UINT (x : bytes) : option Z :=
  x0 ← x !! 0%nat; x1 ← x !! 1%nat; x2 ← x !! 2%nat; x3 ← x !! 3%nat;
  Some (Z.lor (Z.lor (Z.lor (shl32 x0 24) (Z.shiftl x1 16)) (Z.shiftl x2 8)) x3).

Definition FOUR_BYTE_INT (x : bytes) : option Z :=
  x0 ← x !! 0%nat; x1 ← x !! 1%nat; x2 ← x !! 2%nat; x3 ← x !! 3%nat;
  Some (Z.lor (Z.lor (Z.lor (16777216 * i8 x0) (Z.shiftl x1 16)) (Z.shiftl x2 8)) x3).

Definition serialGet (buf : bytes) (serial_type : Z) : option Mem :=
  x ← FOUR_BYTE_UINT buf;
  y ← FOUR_BYTE_UINT (drop 4 buf);
  let x := u64 (shl64 x 32 + y) in
  if decide (serial_type = 6) then Some (MInt (i64 x))
  else Some (if IsNaN x then MNull else MReal x).

(** A string or blob points into [buf]. *)
Definition sqlite3VdbeSerialGet (buf : bytes) (serial_type : Z) : option Mem :=
  if decide (serial_type = 10) then Some MNoChange
  else if decide (serial_type = 11 \/ serial_type = 0) then Some MNull
  else if decide (serial_type = 1) then i ← ONE_BYTE_INT buf; Some (MInt i)
  else if decide (serial_type = 2) then i ← TWO_BYTE_INT buf; Some (MInt i)
  else if decide (serial_type = 3) then i ← THREE_BYTE_INT buf; Some (MInt i)
  else if decide (serial_type = 4) then i ← FOUR_BYTE_INT buf; Some (MInt i)
  else if decide (serial_type = 5) then
    y ← FOUR_BYTE_UINT (drop 2 buf);
    x ← TWO_BYTE_INT buf;
    Some (MInt (y + Z.shiftl 1 32 * x))
  else if decide (serial_type = 6 \/ serial_type = 7) then serialGet buf serial_type
  else if decide (serial_type = 8 \/ serial_type = 9) then Some (MInt (serial_type - 8))
  else
    let z := take (Z.to_nat ((serial_type - 12) / 2)) buf in
    Some (if decide (Z.land serial_type 1 = 1) then MStr z else MBlob z).

(** The loop of [sqlite3VdbeRecordUnpack], with [nField] more fields wanted. *)
Fixpoint unpack_loop (nField : nat) (aKey : bytes) (szHdr idx d : Z) (out : list Mem) : option (list Mem * Z) :=
  match nField with
  | O => Some (out, d)
  | S nField =>
      if decide (idx < szHdr /\ d <= Z.of_nat (length aKey)) then
        '(n, serial_type) ← getVarint32 (drop (Z.to_nat idx) aKey);
        m ← sqlite3VdbeSerialGet (drop (Z.to_nat d) aKey) serial_type;
        unpack_loop nField aKey szHdr (u32 (idx + n)) (u32 (d + sqlite3VdbeSerialTypeLen serial_type)) (out ++ [m])
      else Some (out, d)
  end.

(** The fields of the record [aKey]; [nField] is [p->nField], at least 1. *)
Definition sqlite3VdbeRecordUnpack (nField : nat) (aKey : bytes) : option (list Mem) :=
  '(idx, szHdr) ← getVarint32 aKey;
  '(out, d) ← unpack_loop nField aKey szHdr idx szHdr [];
  Some (if decide (Z.of_nat (length aKey) < d) then
          match reverse out with
          | [] => out
          | _ :: rest => reverse (MNull :: rest)
          end
        else out).

(** ** Big-endian integers *)

Lemma put_byte v : u8 (Z.land v 0xFF) = v mod 256.
Proof. change 0xFF with (2 ^ 8 - 1). rewrite land_ones_mod by lia. apply wrapu_id. unfold in_u. mods. Qed.

Lemma put_bytes_S i v : put_bytes (S i) v = put_bytes i (v / 256) ++ [v mod 256].
Proof. cbn [put_bytes]. by rewrite put_byte, shr_div by lia. Qed.

Lemma length_put_bytes i v : length (put_bytes i v) = i.
Proof. revert v. induction i as [|i IH]; intros v; [done|]. rewrite put_bytes_S, length_app, IH. simpl. lia. Qed.

Lemma put_bytes_ok i v : bytes_ok (put_bytes i v).
Proof.
  revert v. induction i as [|i IH]; intros v; [constructor|]. rewrite put_bytes_S.
  apply bytes_ok_app. split; [apply IH|]. repeat constructor; mods.
Qed.

(** Four bytes joined, the first one possibly signed. *)
Lemma join_bytes4 h x1 x2 x3 :
  byte_ok x1 -> byte_ok x2 -> byte_ok x3 ->
  Z.lor (Z.lor (Z.lor (h * 2 ^ 24) (Z.shiftl x1 16)) (Z.shiftl x2 8)) x3
  = h * 2 ^ 24 + x1 * 2 ^ 16 + x2 * 2 ^ 8 + x3.
Proof.
  unfold byte_ok. intros H1 H2 H3. rewrite !Z.shiftl_mul_pow2 by lia.
  rewrite (lor_disjoint 24 (h * 2 ^ 24)) by mods.
  rewrite (lor_disjoint 16 (h * 2 ^ 24 + _)) by mods. by rewrite (lor_disjoint 8) by mods.
Qed.

Lemma FOUR_BYTE_UINT_sum x0 x1 x2 x3 x :
  byte_ok x0 -> byte_ok x1 -> byte_ok x2 -> byte_ok x3 ->
  FOUR_BYTE_UINT (x0 :: x1 :: x2 :: x3 :: x) = Some (x0 * 2 ^ 24 + x1 * 2 ^ 16 + x2 * 2 ^ 8 + x3).
Proof.
  intros H0 H1 H2 H3. cbn. f_equal. rewrite shl32_small by (unfold byte_ok in *; lia). by apply join_bytes4.
Qed.

Lemma FOUR_BYTE_INT_sum x0 x1 x2 x3 x :
  byte_ok x1 -> byte_ok x2 -> byte_ok x3 ->
  FOUR_BYTE_INT (x0 :: x1 :: x2 :: x3 :: x) = Some (i8 x0 * 2 ^ 24 + x1 * 2 ^ 16 + x2 * 2 ^ 8 + x3).
Proof.
  intros H1 H2 H3. cbn [FOUR_BYTE_INT mbind option_bind lookup list_lookup]. f_equal.
  rewrite (Z.mul_comm 16777216). change 16777216 with (2 ^ 24). by apply join_bytes4.
Qed.

Lemma THREE_BYTE_INT_sum x0 x1 x2 x :
  byte_ok x1 -> byte_ok x2 ->
  THREE_BYTE_INT (x0 :: x1 :: x2 :: x) = Some (i8 x0 * 2 ^ 16 + x1 * 2 ^ 8 + x2).
Proof.
  unfold byte_ok. intros H1 H2. cbn [THREE_BYTE_INT mbind option_bind lookup list_lookup]. f_equal.
  rewrite Z.shiftl_mul_pow2 by lia. rewrite (lor_disjoint 16 (65536 * _)) by mods.
  rewrite (lor_disjoint 8) by mods. lia.
Qed.

Lemma TWO_BYTE_INT_sum x0 x1 x :
  byte_ok x1 -> TWO_BYTE_INT (x0 :: x1 :: x) = Some (i8 x0 * 2 ^ 8 + x1).
Proof.
  unfold byte_ok. intros H1. cbn [TWO_BYTE_INT mbind option_bind lookup list_lookup]. f_equal.
  rewrite (lor_disjoint 8) by mods. lia.
Qed.

Lemma mod_byte_ok v : byte_ok (v mod 256).
Proof. unfold byte_ok. mods. Qed.
#[local] Hint Resolve mod_byte_ok : core.

(** The integer range of each serial type. *)
Definition type_bits (t : Z) : Z :=
  if decide (t = 1) then 8 else if decide (t = 2) then 16 else if decide (t = 3) then 24
  else if decide (t = 4) then 32 else if decide (t = 5) then 48 else 64.

Definition type_size (t : Z) : nat := Z.to_nat (default 0 (sqlite3SmallTypeSizes !! Z.to_nat t)).

Lemma SerialGet_int t i rest :
  1 <= t <= 6 -> in_s (type_bits t) i ->
  sqlite3VdbeSerialGet (put_bytes (type_size t) (u64 i) ++ rest) t = Some (MInt i).
Proof.
  intros Ht Hi. unfold wrapu.
  assert (t = 1 \/ t = 2 \/ t = 3 \/ t = 4 \/ t = 5 \/ t = 6) as [-> |[-> |[-> |[-> |[-> | ->]]]]] by lia;
    match goal with |- context [type_size ?t] => let n := eval vm_compute in (type_size t) in change (type_size t) with n end;
    rewrite !put_bytes_S, <- ?app_assoc; cbn [put_bytes app]; unfold in_s in Hi;
    match type of Hi with context [type_bits ?t] => let n := eval vm_compute in (type_bits t) in change (type_bits t) with n in Hi end;
    unfold sqlite3VdbeSerialGet; rewrite ?decide_False by lia; rewrite decide_True by lia.
  - cbn. f_equal. f_equal. unfold i8, wraps. mods.
  - rewrite TWO_BYTE_INT_sum by done. cbn [mbind option_bind]. f_equal. f_equal. unfold i8, wraps. mods.
  - rewrite THREE_BYTE_INT_sum by done. cbn [mbind option_bind]. f_equal. f_equal. unfold i8, wraps. mods.
  - rewrite FOUR_BYTE_INT_sum by done. cbn [mbind option_bind]. f_equal. f_equal. unfold i8, wraps. mods.
  - cbn [drop]. rewrite FOUR_BYTE_UINT_sum, TWO_BYTE_INT_sum by done. cbn [mbind option_bind]. f_equal. f_equal.
    rewrite Z.shiftl_mul_pow2 by lia. unfold i8, wraps. mods.
  - unfold serialGet. cbn [drop]. rewrite !FOUR_BYTE_UINT_sum by done. cbn [mbind option_bind].
    rewrite decide_True by done. f_equal. f_equal. rewrite shl64_mul by lia. unfold wrapu, wraps. mods.
Qed.

Lemma SerialGet_real r rest :
  in_u 64 r -> IsNaN r = false ->
  sqlite3VdbeSerialGet (put_bytes (type_size 7) r ++ rest) 7 = Some (MReal r).
Proof.
  intros Hr Hn. change (type_size 7) with 8%nat.
  rewrite !put_bytes_S, <- ?app_assoc; cbn [put_bytes app].
  unfold sqlite3VdbeSerialGet; rewrite ?decide_False by lia; rewrite decide_True by lia.
  unfold serialGet. cbn [drop]. rewrite !FOUR_BYTE_UINT_sum by done. cbn [mbind option_bind].
  rewrite decide_False by done. rewrite shl64_mul by lia.
  assert (forall x, x = r -> Some (if IsNaN x then MNull else MReal x) = Some (MReal r)) as Hx
    by (by intros ? ->; rewrite Hn).
  apply Hx. unfold in_u in Hr. unfold wrapu. mods.
Qed.

(** ** Fields *)

(** What a record keeps of a register. *)
Definition stored (m : Mem) : Mem :=
  match m with
  | MIntReal i => if decide (- 2 ^ 47 <= i < 2 ^ 47) then MInt i else MReal (double_of_int i)
  | MZeroBlob z n => MBlob (z ++ replicate (Z.to_nat n) 0)
  | m => m
  end.

Definition text_ok (z : bytes) (n : Z) : Prop :=
  bytes_ok z /\ 0 <= n /\ Z.of_nat (length z) + n < 2 ^ 30.

(** Registers as the engine keeps them: 64-bit integers, doubles that are not
    NaN, and text within [SQLITE_MAX_LENGTH] (below 2^30). *)
Definition mem_ok (m : Mem) : Prop :=
  match m with
  | MNull | MNoChange => True
  | MInt i | MIntReal i => in_s 64 i
  | MReal r => in_u 64 r /\ IsNaN r = false
  | MStr z | MBlob z => text_ok z 0
  | MZeroBlob z n => text_ok z n
  end.

(** The bytes the second loop writes to the payload, and the zeros that the
    record leaves out at its end. *)
Definition payload (f : Mem * Z) : bytes :=
  if decide (f.2 <= 7) then put_bytes (type_size f.2) (mem_u f.1) else mem_z f.1.

Definition zero_tail (m : Mem) : Z := match m with MZeroBlob _ n => n | _ => 0 end.

Definition full_payload (f : Mem * Z) : bytes :=
  payload f ++ replicate (Z.to_nat (zero_tail f.1)) 0.

(** A field that decodes to [m]. *)
Record field_ok (m : Mem) (f : Mem * Z) : Prop := {
  fo_type : in_u 32 f.2;
  fo_get rest : sqlite3VdbeSerialGet (full_payload f ++ rest) f.2 = Some m;
  fo_len : sqlite3VdbeSerialTypeLen f.2 = Z.of_nat (length (full_payload f));
  fo_small : 8 <= f.2 < 14 -> mem_z f.1 = [];
  fo_bytes : bytes_ok (full_payload f);
  fo_tail : 0 <= zero_tail f.1
}.

Lemma land_split0 x m k n : 0 <= k -> 0 <= n -> m = 2 ^ n - 1 -> Z.land x (Z.shiftl m k) = (x / 2 ^ k) mod 2 ^ n * 2 ^ k.
Proof.
  intros Hk Hn ->. rewrite Z.shiftl_mul_pow2 by done.
  replace x with (x / 2 ^ k * 2 ^ k + x mod 2 ^ k) at 1
    by (rewrite Z.mul_comm; symmetry; apply Z.div_mod; lia).
  rewrite <- (Z.add_0_r ((2 ^ n - 1) * 2 ^ k)), land_split by (try apply Z.mod_pos_bound; lia).
  rewrite Z.land_0_r, land_ones_mod by done. lia.
Qed.

Lemma IsNaN_exponent x : (x / 2 ^ 52) mod 2 ^ 11 <> 2047 -> IsNaN x = false.
Proof.
  intros H. unfold IsNaN, EXP754. rewrite (land_split0 x _ 52 11) by (try done; lia).
  rewrite bool_decide_eq_false_2; [done|]. rewrite Z.shiftl_mul_pow2 by lia. lia.
Qed.

(** The significand [double_of_int] takes. *)
Lemma significand_range m e :
  0 <= e -> 2 ^ e <= m < 2 ^ (e + 1) ->
  2 ^ 52 <= significand m e <= 2 ^ 53.
Proof.
  intros He Hm. unfold significand. case_decide as Hs.
  - replace (2 ^ 52) with (2 ^ e * 2 ^ (52 - e)) by (rewrite <- Z.pow_add_r by lia; f_equal; lia).
    replace (2 ^ 53) with (2 ^ (e + 1) * 2 ^ (52 - e)) by (rewrite <- Z.pow_add_r by lia; f_equal; lia).
    assert (0 < 2 ^ (52 - e)) by (apply Z.pow_pos_nonneg; lia). nia.
  - cbn zeta. set (s := e - 52). assert (0 < 2 ^ s) by (apply Z.pow_pos_nonneg; lia).
    assert (2 ^ 52 <= m / 2 ^ s < 2 ^ 53) as Hq.
    { split.
      - apply Z.div_le_lower_bound; [done|]. rewrite <- Z.pow_add_r by lia. replace (s + 52) with e by lia. lia.
      - apply Z.div_lt_upper_bound; [done|]. rewrite <- Z.pow_add_r by lia. replace (s + 53) with (e + 1) by lia. lia. }
    case_decide; lia.
Qed.

Lemma double_of_int_ok i : in_s 64 i -> in_u 64 (double_of_int i) /\ IsNaN (double_of_int i) = false.
Proof.
  intros Hi. unfold double_of_int. case_decide as Hz; [by split; [vm_compute|]|].
  assert (0 < Z.abs i <= 2 ^ 63) as Hm by (unfold in_s in Hi; lia).
  pose proof (Z.log2_nonneg (Z.abs i)). pose proof (Z.log2_spec (Z.abs i) ltac:(lia)) as Hlog.
  assert (Z.log2 (Z.abs i) <= 63) as He by (apply (Z.log2_le_mono _ (2 ^ 63)); lia).
  pose proof (significand_range (Z.abs i) (Z.log2 (Z.abs i)) ltac:(done)) as Hq.
  rewrite Z.add_1_r in Hq. specialize (Hq Hlog). cbn zeta.
  set (q := significand _ _) in *. clearbody q. set (e := Z.log2 (Z.abs i)) in *. clearbody e. split.
  - unfold in_u. case_decide; lia.
  - apply IsNaN_exponent. case_decide; mods.
Qed.

Lemma sqlite3VdbeSerialTypeLen_text t : 12 <= t < 2 ^ 32 -> sqlite3VdbeSerialTypeLen t = (t - 12) / 2.
Proof.
  intros Ht. unfold sqlite3VdbeSerialTypeLen. case_decide.
  { rewrite wrapu_id by (unfold in_u; lia). done. }
  assert (Forall (fun n => default 0 (sqlite3SmallTypeSizes !! n) = (Z.of_nat n - 12) / 2) (seq 12 116)) as Hall
    by (apply (bool_decide_unpack _); vm_compute; exact I).
  rewrite Forall_forall in Hall. rewrite Hall by (apply elem_of_seq; lia). by rewrite Z2Nat.id by lia.
Qed.

Lemma SerialGet_text (str : bool) z rest t :
  t = Z.of_nat (length z) * 2 + 12 + (if str then 1 else 0) ->
  sqlite3VdbeSerialGet (z ++ rest) t = Some (if str then MStr z else MBlob z).
Proof.
  intros ->. unfold sqlite3VdbeSerialGet. rewrite !decide_False by (destruct str; lia).
  set (k := (_ + _ - 12) / 2). replace (Z.to_nat k) with (length z) by (unfold k; destruct str; mods).
  rewrite take_app_length.
  rewrite land_1.
  destruct str; [rewrite decide_True by mods|rewrite decide_False by mods]; done.
Qed.

Lemma text_type_small str z n : text_ok z n ->
  text_type str z = Z.of_nat (length z) * 2 + 12 + (if str then 1 else 0).
Proof.
  intros (_ & Hn & Hl). unfold text_type. rewrite (wrapu_id 32 (Z.of_nat _)) by (unfold in_u; lia).
  apply wrapu_id. unfold in_u. destruct str; lia.
Qed.

(** A text field: [f] writes [z] and leaves [n] zeros out. *)
Lemma text_field_ok (str : bool) z n m t :
  text_ok z n -> mem_z m = z -> zero_tail m = n ->
  t = (Z.of_nat (length z) + n) * 2 + 12 + (if str then 1 else 0) ->
  field_ok (let w := z ++ replicate (Z.to_nat n) 0 in if str then MStr w else MBlob w) (m, t) /\
  payload (m, t) = z.
Proof.
  intros (Hz & Hn & Hl) Hm Ht Htype.
  assert (payload (m, t) = z) as Hpay.
  { unfold payload. cbn [fst snd]. rewrite decide_False by (destruct str; lia). done. }
  assert (full_payload (m, t) = z ++ replicate (Z.to_nat n) 0) as Hfull.
  { unfold full_payload. rewrite Hpay. cbn [fst]. by rewrite Ht. }
  assert (Z.of_nat (length (z ++ replicate (Z.to_nat n) 0)) = Z.of_nat (length z) + n) as Hlen
    by (rewrite length_app, length_replicate; lia).
  split; [|done]. split; rewrite ?Hfull; cbn [fst snd].
  - unfold in_u. destruct str; lia.
  - intros rest. rewrite (SerialGet_text str) by (rewrite Hlen; exact Htype). by destruct str.
  - rewrite sqlite3VdbeSerialTypeLen_text by (destruct str; lia). rewrite Hlen. destruct str; mods.
  - intros Hs. apply nil_length_inv. rewrite Hm. destruct str; lia.
  - apply bytes_ok_app. split; [done|]. apply Forall_replicate. by unfold byte_ok.
  - lia.
Qed.

(** A fixed-width field. *)
Lemma int_field_ok m i t :
  mem_u m = u64 i -> zero_tail m = 0 -> 1 <= t <= 6 -> in_s (type_bits t) i ->
  field_ok (MInt i) (m, t) /\ Z.of_nat (length (payload (m, t))) = default 0 (sqlite3SmallTypeSizes !! Z.to_nat t).
Proof.
  intros Hu Hz Ht Hi.
  assert (full_payload (m, t) = put_bytes (type_size t) (u64 i)) as Hfull.
  { unfold full_payload, payload. cbn [fst snd]. rewrite decide_True by lia. by rewrite Hz, Hu, app_nil_r. }
  assert (payload (m, t) = put_bytes (type_size t) (u64 i)) as Hpay.
  { unfold payload. cbn [fst snd]. rewrite decide_True by lia. by rewrite Hu. }
  assert (Z.of_nat (type_size t) = default 0 (sqlite3SmallTypeSizes !! Z.to_nat t)) as Hs.
  { assert (t = 1 \/ t = 2 \/ t = 3 \/ t = 4 \/ t = 5 \/ t = 6) as [-> |[-> |[-> |[-> |[-> | ->]]]]] by lia; done. }
  split; [|rewrite Hpay, length_put_bytes; done].
  split; rewrite ?Hfull; cbn [fst snd].
  - unfold in_u. lia.
  - intros rest. by apply SerialGet_int.
  - unfold sqlite3VdbeSerialTypeLen. rewrite decide_False by lia. by rewrite length_put_bytes.
  - lia.
  - apply put_bytes_ok.
  - lia.
Qed.

Lemma real_field_ok r :
  in_u 64 r -> IsNaN r = false -> field_ok (MReal r) (MReal r, 7) /\ length (payload (MReal r, 7)) = 8%nat.
Proof.
  intros Hr Hn. unfold payload. cbn [fst snd]. rewrite decide_True, length_put_bytes by lia. split; [|done].
  split; unfold full_payload, payload; cbn [fst snd mem_u zero_tail]; rewrite ?decide_True by lia;
    change (replicate (Z.to_nat 0) 0) with (@nil Z); rewrite ?app_nil_r; cbn [fst snd].
  - unfold in_u. lia.
  - intros rest. by apply SerialGet_real.
  - by rewrite length_put_bytes.
  - lia.
  - apply put_bytes_ok.
  - lia.
Qed.

(** A field without payload. *)
Lemma empty_field_ok m m' t :
  mem_z m' = [] -> zero_tail m' = 0 -> t = 0 \/ 8 <= t <= 10 -> sqlite3VdbeSerialGet [] t = Some m ->
  field_ok m (m', t) /\ payload (m', t) = [].
Proof.
  intros Hz Ht Hrange Hget.
  assert (payload (m', t) = []) as Hpay.
  { unfold payload. cbn [fst snd]. destruct Hrange as [-> |]; [done|]. by rewrite decide_False by lia. }
  assert (full_payload (m', t) = []) as Hfull by (unfold full_payload; rewrite Hpay; cbn [fst]; by rewrite Ht).
  split; [|done]. split; rewrite ?Hfull; cbn [fst snd].
  - unfold in_u. lia.
  - intros rest. rewrite <- Hget. assert (t = 0 \/ t = 8 \/ t = 9 \/ t = 10) as [-> |[-> |[-> | ->]]] by lia; done.
  - assert (t = 0 \/ t = 8 \/ t = 9 \/ t = 10) as [-> |[-> |[-> | ->]]] by lia; done.
  - done.
  - constructor.
  - lia.
Qed.

(** ** The first loop *)

(** One step: the field decodes to what is stored, and the totals count the
    bytes that will be written. *)
Record step_ok (m : Mem) (st : totals) (f : Mem * Z) (st' : totals) : Prop := {
  so_field : field_ok m f;
  so_hdr : nHdr st' = nHdr st + Z.of_nat (length (sqlite3PutVarint f.2));
  so_data : nData st' = nData st + Z.of_nat (length (payload f));
  so_zero : nZero st' = nZero st + zero_tail f.1;
  so_tail : zero_tail f.1 = 0 \/ nData st = 0
}.

Lemma length_PutVarint_1 t : t <= 0x7f -> length (sqlite3PutVarint t) = 1%nat.
Proof. intros. unfold sqlite3PutVarint. by rewrite decide_True by done. Qed.

Lemma int_step_ok m i t k st :
  mem_u m = u64 i -> zero_tail m = 0 -> 1 <= t <= 6 -> in_s (type_bits t) i ->
  k = default 0 (sqlite3SmallTypeSizes !! Z.to_nat t) ->
  step_ok (MInt i) st (m, t) (add_totals 1 k 0 st).
Proof.
  intros Hu Hz Ht Hi ->. destruct (int_field_ok m i t Hu Hz Ht Hi) as [Hf Hl].
  split; cbn [fst snd add_totals nHdr nData nZero]; [done| | | |by left].
  - rewrite length_PutVarint_1; lia.
  - by rewrite Hl.
  - lia.
Qed.

Lemma empty_step_ok m m' t st :
  mem_z m' = [] -> zero_tail m' = 0 -> t = 0 \/ 8 <= t <= 10 -> sqlite3VdbeSerialGet [] t = Some m ->
  step_ok m st (m', t) (add_totals 1 0 0 st).
Proof.
  intros Hz Ht Hr Hg. destruct (empty_field_ok m m' t Hz Ht Hr Hg) as [Hf Hl].
  split; cbn [fst snd add_totals nHdr nData nZero]; [done| | | |by left].
  - rewrite length_PutVarint_1; lia.
  - by rewrite Hl.
  - lia.
Qed.

Lemma real_step_ok r st :
  in_u 64 r -> IsNaN r = false -> step_ok (MReal r) st (MReal r, 7) (add_totals 1 8 0 st).
Proof.
  intros Hr Hn. destruct (real_field_ok r Hr Hn) as [Hf Hl].
  split; cbn [fst snd add_totals nHdr nData nZero]; [done| | | |by left].
  - by rewrite length_PutVarint_1.
  - by rewrite Hl.
  - cbn [zero_tail]. lia.
Qed.

Lemma text_step_ok (str : bool) z n m t st :
  text_ok z n -> mem_z m = z -> zero_tail m = n ->
  t = (Z.of_nat (length z) + n) * 2 + 12 + (if str then 1 else 0) -> n = 0 \/ nData st = 0 ->
  step_ok (let w := z ++ replicate (Z.to_nat n) 0 in if str then MStr w else MBlob w) st (m, t)
    (add_totals (sqlite3VarintLen t) (Z.of_nat (length z)) n st).
Proof.
  intros Hz Hm Hn Ht Htail. destruct (text_field_ok str z n m t Hz Hm Hn Ht) as [Hf Hl].
  split; cbn [fst snd add_totals nHdr nData nZero]; [done| | | |by rewrite Hn].
  - rewrite sqlite3VarintLen_PutVarint; [done|]. destruct Hz as (_ & ? & ?). destruct str; lia.
  - by rewrite Hl.
  - by rewrite Hn.
Qed.

Lemma lnot_range i : (if decide (i < 0) then Z.lnot i else i) = if decide (i < 0) then - i - 1 else i.
Proof. case_decide; [|done]. unfold Z.lnot. lia. Qed.

Lemma int_type_ok ff intreal i st :
  in_s 64 i ->
  let '(m, t, st') := int_type ff intreal i st in
  step_ok (stored (if intreal then MIntReal i else MInt i)) st (m, t) st'.
Proof.
  intros Hi. unfold int_type. cbn zeta. rewrite lnot_range, land_1.
  assert (forall b, - 2 ^ (b - 1) <= i < 2 ^ (b - 1) -> b <= 48 ->
            stored (if intreal then MIntReal i else MInt i) = MInt i) as Hsmall.
  { intros b Hb Hb48. destruct intreal; [|done]. cbn [stored].
    assert (2 ^ (b - 1) <= 2 ^ 47) by (destruct (decide (b < 1)); [rewrite Z.pow_neg_r by lia; lia|apply Z.pow_le_mono_r; lia]).
    by rewrite decide_True by lia. }
  assert (mem_u (if intreal then MIntReal i else MInt i) = u64 i) as Hu by (by destruct intreal).
  assert (zero_tail (if intreal then MIntReal i else MInt i) = 0) as Hz by (by destruct intreal).
  assert (forall t k b, b = type_bits t -> 1 <= t <= 5 -> - 2 ^ (b - 1) <= i < 2 ^ (b - 1) -> b <= 48 ->
            k = default 0 (sqlite3SmallTypeSizes !! Z.to_nat t) ->
            step_ok (stored (if intreal then MIntReal i else MInt i)) st
              ((if intreal then MIntReal i else MInt i), t) (add_totals 1 k 0 st)) as Hstep.
  { intros t k b -> Ht Hb Hb48 Hk. rewrite (Hsmall _ Hb Hb48). apply int_step_ok; [done|done|lia|done|done]. }
  destruct (decide (_ <= 127)) as [H1|H1].
  { destruct (decide (_ /\ _)) as [[Hbit _]|_].
    - rewrite (Hsmall 8) by (case_decide; lia). assert (i = 0 \/ i = 1) as Hi01 by mods.
      apply empty_step_ok; [by destruct intreal|done| |]; destruct Hi01 as [-> | ->]; first [done|by vm_compute|right; by vm_compute].
    - apply (Hstep 1 1 8); try done; case_decide; lia. }
  destruct (decide (_ <= 32767)); [apply (Hstep 2 2 16); try done; case_decide; lia|].
  destruct (decide (_ <= 8388607)); [apply (Hstep 3 3 24); try done; case_decide; lia|].
  destruct (decide (_ <= 2147483647)); [apply (Hstep 4 4 32); try done; case_decide; lia|].
  destruct (decide (_ <= 140737488355327)); [apply (Hstep 5 6 48); try done; case_decide; lia|].
  destruct intreal.
  - cbn [stored]. rewrite decide_False by (case_decide; lia). by apply real_step_ok; apply double_of_int_ok.
  - by apply int_step_ok.
Qed.

Lemma field_type_ok ff r st :
  mem_ok r -> let '(m, t, st') := field_type ff r st in step_ok (stored r) st (m, t) st'.
Proof.
  destruct r as [| |i|i|r|z|z|z n]; intros Hr; cbn [field_type].
  - apply empty_step_ok; by try left.
  - apply empty_step_ok; [done|done|right; lia|done].
  - by apply (int_type_ok ff false).
  - by apply (int_type_ok ff true).
  - destruct Hr. by apply real_step_ok.
  - pose proof (text_step_ok true z 0 (MStr z) (text_type true z) st) as Ht. cbn zeta in *.
    change (replicate (Z.to_nat 0) 0) with (@nil Z) in Ht. rewrite app_nil_r in Ht.
    apply Ht; try done; [|by left]. rewrite (text_type_small _ _ 0) by done. lia.
  - pose proof (text_step_ok false z 0 (MBlob z) (text_type false z) st) as Ht. cbn zeta in *.
    change (replicate (Z.to_nat 0) 0) with (@nil Z) in Ht. rewrite app_nil_r in Ht.
    apply Ht; try done; [|by left]. rewrite (text_type_small _ _ 0) by done. lia.
  - assert (u32 (text_type false z + n * 2) = (Z.of_nat (length z) + n) * 2 + 12 + 0) as Ht.
    { rewrite (text_type_small _ _ n) by done. destruct Hr as (_ & ? & ?). rewrite wrapu_id; [lia|unfold in_u; lia]. }
    cbn zeta. rewrite Ht. destruct (decide (nData st <> 0)) as [Hd|Hd].
    + assert (text_ok (z ++ replicate (Z.to_nat n) 0) 0) as Hw.
      { destruct Hr as (Hz & Hn & Hl). split; [|split; [lia|rewrite length_app, length_replicate; lia]].
        apply bytes_ok_app. split; [done|]. apply Forall_replicate. by unfold byte_ok. }
      pose proof (text_step_ok false _ 0 (MBlob (z ++ replicate (Z.to_nat n) 0))
        ((Z.of_nat (length z) + n) * 2 + 12 + 0) st Hw) as Hs. cbn zeta in Hs. cbn [stored].
      change (replicate (Z.to_nat 0) 0) with (@nil Z) in Hs. rewrite app_nil_r in Hs.
      destruct Hr as (_ & Hn & _). rewrite length_app, length_replicate in Hs.
      replace (Z.of_nat (length z + Z.to_nat n)) with (Z.of_nat (length z) + n) in Hs by lia.
      apply Hs; try done; [lia|by left].
    + by apply (text_step_ok false z n); [..|right; lia].
Qed.

(** ** The whole record *)

Definition header (fs : list (Mem * Z)) : bytes := concat ((fun f => sqlite3PutVarint f.2) <$> fs).

Definition data (fs : list (Mem * Z)) : bytes := concat (payload <$> fs).

Definition full_data (fs : list (Mem * Z)) : bytes := concat (full_payload <$> fs).

Definition fields_ok (recs : list Mem) (fs : list (Mem * Z)) : Prop :=
  Forall2 (fun r f => field_ok (stored r) f) recs fs.

Lemma field_types_ok ff recs :
  Forall mem_ok recs ->
  let '(fs, st) := field_types ff recs in
  fields_ok recs fs /\ nHdr st = Z.of_nat (length (header fs)) /\ nData st = Z.of_nat (length (data fs)) /\
  0 <= nZero st /\ data fs ++ replicate (Z.to_nat (nZero st)) 0 = full_data fs.
Proof.
  induction 1 as [|r recs Hr _ IH]; cbn [field_types].
  { split; [constructor|]. done. }
  destruct (field_types ff recs) as [fs st]. destruct IH as (Hf & Hh & Hd & Hz & Hfull).
  pose proof (field_type_ok ff r st Hr) as Hs. destruct (field_type ff r st) as [[m t] st'].
  destruct Hs as [Hfo Hhdr Hdata Hzero Htail]. pose proof (fo_tail _ _ Hfo) as Ht0. cbn [fst snd] in *.
  unfold header, data, full_data in *. rewrite !fmap_cons. cbn [concat fst snd]. rewrite !length_app.
  split; [by constructor|]. split; [lia|]. split; [lia|]. split; [lia|].
  rewrite <- Hfull, Hzero. unfold full_payload. cbn [fst snd].
  destruct Htail as [Htail|Hnil].
  - rewrite Htail, Z.add_0_r. change (replicate (Z.to_nat 0) 0) with (@nil Z). by rewrite app_nil_r, app_assoc.
  - assert (concat (payload <$> fs) = []) as -> by (apply nil_length_inv; lia).
    rewrite app_nil_r. cbn [app]. rewrite <- app_assoc. f_equal. rewrite <- replicate_add. f_equal. lia.
Qed.

Lemma store_at off a g c bs :
  off = Z.of_nat (length a) -> length g = length bs ->
  store off bs (a ++ g ++ c) = Some (a ++ bs ++ c).
Proof.
  intros -> Hg. unfold store. rewrite !length_app. rewrite decide_True by lia. rewrite Nat2Z.id.
  rewrite take_app_length. rewrite <- Hg, drop_app. rewrite drop_ge by lia.
  replace (length a + length g - length a)%nat with (length g) by lia. by rewrite drop_app_length.
Qed.

Lemma PutVarint_small t : 0 <= t <= 0x7f -> sqlite3PutVarint t = [t].
Proof.
  intros Ht. unfold sqlite3PutVarint. rewrite decide_True by lia. rewrite land_127. f_equal.
  rewrite Z.mod_small by lia. apply wrapu_id. unfold in_u. lia.
Qed.

(** The two stores of a field: its type at [zHdr], its bytes at [zPayload]. *)
Lemma write_field_ok m f hw g1 r1 pw g2 r2 h p :
  field_ok m f -> length g1 = length (sqlite3PutVarint f.2) -> length g2 = length (payload f) ->
  h = Z.of_nat (length hw) -> p = Z.of_nat (length (hw ++ g1 ++ r1 ++ pw)) ->
  write_field f (hw ++ g1 ++ r1 ++ pw ++ g2 ++ r2, h, p)
  = Some (hw ++ sqlite3PutVarint f.2 ++ r1 ++ pw ++ payload f ++ r2,
          h + Z.of_nat (length g1), p + Z.of_nat (length g2)).
Proof.
  intros Hf Hg1 Hg2 Hh Hp. destruct (fo_type _ _ Hf) as [Ht0 Ht1]. destruct f as [m' t]. cbn [fst snd] in *.
  unfold write_field. set (hd := sqlite3PutVarint t) in *.
  assert (store h hd (hw ++ g1 ++ r1 ++ pw ++ g2 ++ r2) = Some (hw ++ hd ++ r1 ++ pw ++ g2 ++ r2)) as Hs1
    by (by apply store_at).
  assert (store p (payload (m', t)) (hw ++ hd ++ r1 ++ pw ++ g2 ++ r2)
          = Some (hw ++ hd ++ r1 ++ pw ++ payload (m', t) ++ r2)) as Hs2.
  { pose proof (store_at p (hw ++ hd ++ r1 ++ pw) g2 r2 (payload (m', t))) as Hs.
    rewrite <- !app_assoc in Hs. apply Hs; [|done]. rewrite Hp, !length_app. lia. }
  assert (length (payload (m', t)) = O -> hw ++ hd ++ r1 ++ pw ++ g2 ++ r2
          = hw ++ hd ++ r1 ++ pw ++ payload (m', t) ++ r2) as Hnil.
  { intros Hl. rewrite Hl in Hg2. apply nil_length_inv in Hl, Hg2. by rewrite Hl, Hg2. }
  assert (0 <= t <= 0x7f -> hd = [t]) as Hhd by (apply PutVarint_small).
  case_decide as H7; [|case_decide as H128].
  - rewrite Hhd in * by lia. rewrite Hs1. cbn [mbind option_bind]. rewrite Hg1.
    case_decide as Hz.
    + subst t. assert (length (payload (m', 0)) = O) as Hl by done. rewrite Hg2, (Hnil Hl), Hl. do 2 f_equal. lia.
    + assert (payload (m', t) = put_bytes (type_size t) (mem_u m')) as Hpay
        by (unfold payload; by rewrite decide_True by done).
      fold (type_size t). rewrite Hpay in Hs2, Hg2. rewrite Hs2, Hpay. cbn [mbind option_bind].
      rewrite Hg2, length_put_bytes. unfold type_size. rewrite Z2Nat.id; [done|].
      assert (t = 1 \/ t = 2 \/ t = 3 \/ t = 4 \/ t = 5 \/ t = 6 \/ t = 7)
        as [-> |[-> |[-> |[-> |[-> |[-> | ->]]]]]] by lia; by vm_compute.
  - assert (payload (m', t) = mem_z m') as Hpay by (unfold payload; by rewrite decide_False by done).
    rewrite Hhd in * by lia. rewrite Hs1. cbn [mbind option_bind]. rewrite Hg1, Hg2, Hpay in *.
    case_decide as H14; [by rewrite Hs2|].
    assert (length (mem_z m') = O) as Hl.
    { destruct (decide (t < 14)); [|lia].
      pose proof (fo_small _ _ Hf) as Hsm. cbn [fst snd] in Hsm. by rewrite Hsm by lia. }
    rewrite (Hnil Hl), Hl. do 2 f_equal. lia.
  - assert (payload (m', t) = mem_z m') as Hpay by (unfold payload; by rewrite decide_False by done).
    rewrite Hs1. cbn [mbind option_bind]. rewrite Hg1, Hg2, Hpay in *.
    case_decide as Hl; [by rewrite Hs2|]. rewrite (Hnil Hl), Hl. do 2 f_equal. lia.
Qed.

Lemma split_length {A} (l : list A) n : (n <= length l)%nat -> exists a b, l = a ++ b /\ length a = n.
Proof. intros. exists (take n l), (drop n l). rewrite take_drop, length_take. split; [done|lia]. Qed.

Lemma write_fields_ok recs fs : fields_ok recs fs -> forall hw g1 pw g2 h p,
  length g1 = length (header fs) -> length g2 = length (data fs) ->
  h = Z.of_nat (length hw) -> p = Z.of_nat (length (hw ++ g1 ++ pw)) ->
  exists h' p', write_fields fs (hw ++ g1 ++ pw ++ g2, h, p) = Some (hw ++ header fs ++ pw ++ data fs, h', p') /\
    h' = h + Z.of_nat (length (header fs)) /\ p' = p + Z.of_nat (length (data fs)).
Proof.
  induction 1 as [|r f recs fs Hf _ IH]; intros hw g1 pw g2 h p Hg1 Hg2 Hh Hp.
  - apply nil_length_inv in Hg1, Hg2. subst. exists (Z.of_nat (length hw)), (Z.of_nat (length (hw ++ [] ++ pw))). split; [done|]. cbn. lia.
  - unfold header, data in *. rewrite fmap_cons in Hg1, Hg2. cbn [concat] in Hg1, Hg2.
    rewrite length_app in Hg1, Hg2.
    destruct (split_length g1 (length (sqlite3PutVarint f.2)) ltac:(lia)) as (a1 & b1 & -> & Ha1).
    destruct (split_length g2 (length (payload f)) ltac:(lia)) as (a2 & b2 & -> & Ha2).
    rewrite length_app in Hg1, Hg2. cbn [write_fields].
    pose proof (write_field_ok _ f hw a1 b1 pw a2 b2 h p Hf Ha1 Ha2 Hh) as Hw.
    rewrite <- !app_assoc in *. rewrite Hw by done. cbn [mbind option_bind].
    destruct (IH (hw ++ sqlite3PutVarint f.2) b1 (pw ++ payload f) b2
                (h + Z.of_nat (length a1)) (p + Z.of_nat (length a2))) as (h' & p' & Heq & Hh' & Hp');
      [lia|lia|rewrite length_app; lia|rewrite Hp, !length_app; lia|].
    rewrite <- !app_assoc in Heq. exists h', p'. rewrite Heq. rewrite !fmap_cons. cbn [concat].
    rewrite <- !app_assoc, !length_app. split; [done|]. lia.
Qed.

(** [sqlite3VarintLen] by intervals. *)
Lemma VarintLen_cases v :
  0 <= v < 2 ^ 35 ->
  sqlite3VarintLen v = if decide (v < 2 ^ 7) then 1 else if decide (v < 2 ^ 14) then 2
                       else if decide (v < 2 ^ 21) then 3 else if decide (v < 2 ^ 28) then 4 else 5.
Proof.
  intros Hv. unfold sqlite3VarintLen.
  rewrite varint_len_from_spec by (try apply (varint_high_bound v 9); lia).
  case_decide; [rewrite varint_high_0 by lia; lia|]. rewrite varint_high_step by lia.
  case_decide; [rewrite varint_high_0 by mods; lia|]. rewrite varint_high_step by mods.
  case_decide; [rewrite varint_high_0 by mods; lia|]. rewrite varint_high_step by mods.
  case_decide; [rewrite varint_high_0 by mods; lia|]. rewrite varint_high_step by mods.
  rewrite varint_high_0 by mods. lia.
Qed.

Lemma varint_len_from_ge fuel i v : i <= varint_len_from fuel i v.
Proof.
  revert i v. induction fuel as [|fuel IH]; intros i v; cbn [varint_len_from]; case_decide; try lia.
  specialize (IH (i + 1) (Z.shiftr v 7)). lia.
Qed.

Lemma header_size_ge n : n <= header_size n.
Proof.
  unfold header_size, sqlite3VarintLen. pose proof (varint_len_from_ge 9 1 n).
  case_decide; [lia|]. cbn zeta. case_decide; lia.
Qed.

(** The header size counts its own encoding. *)
Lemma header_size_ok n :
  0 <= n < 2 ^ 31 ->
  n < header_size n < 2 ^ 32 /\ header_size n = n + Z.of_nat (length (sqlite3PutVarint (header_size n))).
Proof.
  intros Hn. unfold header_size. rewrite (VarintLen_cases n) by lia.
  case_decide; [rewrite <- sqlite3VarintLen_PutVarint, VarintLen_cases by lia; rewrite decide_True by lia; lia|].
  cbn zeta. rewrite (VarintLen_cases (n + _)) by (repeat case_decide; lia).
  rewrite <- sqlite3VarintLen_PutVarint by (repeat case_decide; lia).
  rewrite VarintLen_cases by (repeat case_decide; lia). repeat case_decide; lia.
Qed.

Lemma header_byte n :
  0 <= n -> (if decide (n < 0x80) then [n] else sqlite3PutVarint n) = sqlite3PutVarint n.
Proof. intros. case_decide; [|done]. by rewrite PutVarint_small by lia. Qed.

Lemma full_data_ok recs fs : fields_ok recs fs -> bytes_ok (full_data fs) /\ bytes_ok (header fs).
Proof.
  unfold full_data, header.
  induction 1 as [|r f recs fs Hf _ [IH1 IH2]]; [by split; constructor|]. rewrite !fmap_cons. cbn [concat].
  split; apply bytes_ok_app; split; try done; [apply Hf|].
  apply sqlite3PutVarint_ok. destruct (fo_type _ _ Hf). unfold in_u. lia.
Qed.

Lemma drop_add_app {A} (l : list A) i n a b :
  drop i l = a ++ b -> n = length a -> drop (i + n) l = b.
Proof. intros Hd ->. rewrite <- drop_drop, Hd. apply drop_app_length. Qed.

Lemma unpack_loop_ok aKey szHdr recs fs :
  fields_ok recs fs -> Z.of_nat (length aKey) < 2 ^ 31 -> szHdr <= Z.of_nat (length aKey) ->
  forall nField idx d out rest,
  (length fs <= nField)%nat -> 0 <= idx -> 0 <= d ->
  drop (Z.to_nat idx) aKey = header fs ++ rest -> bytes_ok rest ->
  idx + Z.of_nat (length (header fs)) = szHdr ->
  drop (Z.to_nat d) aKey = full_data fs ->
  d + Z.of_nat (length (full_data fs)) = Z.of_nat (length aKey) ->
  unpack_loop nField aKey szHdr idx d out = Some (out ++ (stored <$> recs), Z.of_nat (length aKey)).
Proof.
  intros Hfs Hkey Hsz. induction Hfs as [|r f recs fs Hf Hfs IH];
    intros nField idx d out rest HnF Hidx Hd0 Hh Hrest Hi Hd Hl.
  { cbn in *. rewrite app_nil_r, Z.add_0_r in *. subst d.
    destruct nField; cbn [unpack_loop]; [done|]. by rewrite decide_False by lia. }
  destruct nField as [|nField]; [cbn in HnF; lia|]. cbn [unpack_loop].
  pose proof (full_data_ok _ _ Hfs) as [Hok1 Hok2]. pose proof (fo_type _ _ Hf) as Ht.
  unfold header, full_data in *. rewrite fmap_cons in Hh, Hi, Hd, Hl. cbn [concat] in Hh, Hi, Hd, Hl.
  rewrite length_app in Hi, Hl. rewrite <- app_assoc in Hh.
  assert (1 <= length (sqlite3PutVarint f.2))%nat as Hpos.
  { apply Nat2Z.inj_le. rewrite length_sqlite3PutVarint by (unfold in_u in *; lia).
    unfold varint_bytes. case_decide; lia. }
  rewrite decide_True by lia. rewrite Hh, getVarint32_PutVarint by (done || by apply bytes_ok_app).
  cbn [mbind option_bind]. rewrite Hd, (fo_get _ _ Hf). cbn [mbind option_bind].
  rewrite (fo_len _ _ Hf). rewrite !wrapu_id by (unfold in_u; lia).
  rewrite (IH nField _ _ _ rest); [by rewrite fmap_cons, <- app_assoc|cbn in HnF; lia|lia|lia| |done|lia| |lia].
  - rewrite Z2Nat.inj_add, Nat2Z.id by lia. by eapply drop_add_app.
  - rewrite Z2Nat.inj_add, Nat2Z.id by lia. by eapply drop_add_app.
Qed.

Lemma RecordUnpack_ok recs fs hs nField :
  fields_ok recs fs -> (length recs <= nField)%nat ->
  hs = Z.of_nat (length (sqlite3PutVarint hs)) + Z.of_nat (length (header fs)) -> 
  hs + Z.of_nat (length (full_data fs)) < 2 ^ 31 ->
  sqlite3VdbeRecordUnpack nField (sqlite3PutVarint hs ++ header fs ++ full_data fs) = Some (stored <$> recs).
Proof.
  intros Hfs HnF Hhs Hsize. destruct (full_data_ok _ _ Hfs) as [Hok1 Hok2].
  pose proof (Forall2_length _ _ _ Hfs) as Hlen.
  set (aKey := _ ++ header fs ++ full_data fs).
  assert (Z.of_nat (length aKey) = hs + Z.of_nat (length (full_data fs))) as Hkey
    by (unfold aKey; rewrite !length_app; lia).
  assert (getVarint32 aKey = Some (Z.of_nat (length (sqlite3PutVarint hs)), hs)) as Hget
    by (apply getVarint32_PutVarint; [unfold in_u; lia|by apply bytes_ok_app]).
  unfold sqlite3VdbeRecordUnpack. rewrite Hget. cbn [mbind option_bind].
  rewrite (unpack_loop_ok aKey hs recs fs Hfs ltac:(lia) ltac:(lia) nField _ _ [] (full_data fs)); try done; try lia.
  - cbn [mbind option_bind app]. by rewrite decide_False by lia.
  - unfold aKey. by rewrite Nat2Z.id, drop_app_length.
  - unfold aKey. replace (Z.to_nat hs) with (length (sqlite3PutVarint hs ++ header fs)) by (rewrite length_app; lia).
    by rewrite app_assoc, drop_app_length.
Qed.

(** Size of the record of [recs], with the zeros left out of its blob. *)
Definition record_size (ff : Z) (recs : list Mem) : Z :=
  let st := (field_types ff recs).2 in header_size (nHdr st) + nData st + nZero st.

(** The bytes of a record: the size of the header, the types and the data of the fields. *)
Definition record_bytes (ff : Z) (recs : list Mem) : bytes :=
  let '(fs, st) := field_types ff recs in sqlite3PutVarint (header_size (nHdr st)) ++ header fs ++ full_data fs.

Lemma OP_MakeRecord_bytes ff limit szMalloc stale recs :
  Forall mem_ok recs -> limit < 2 ^ 31 -> szMalloc < 2 ^ 31 ->
  match OP_MakeRecord ff limit szMalloc stale recs with
  | Some (Made z tail) =>
      z ++ replicate (Z.to_nat tail) 0 = record_bytes ff recs /\
      0 <= tail /\ Z.of_nat (length z) + tail = record_size ff recs /\ record_size ff recs <= Z.max limit szMalloc
  | Some TooBig => limit < record_size ff recs
  | None => False
  end.
Proof.
  intros Hok Hlimit Hmalloc. unfold OP_MakeRecord, record_size, record_bytes.
  pose proof (field_types_ok ff recs Hok) as Hft. destruct (field_types ff recs) as [fs st].
  destruct Hft as (Hfs & Hh & Hd & Hz & Hfull). cbn [snd].
  case_decide as Hbig; [lia|].
  assert (header_size (nHdr st) + nData st + nZero st <= Z.max limit szMalloc) as Hsize by lia. clear Hbig.
  pose proof (header_size_ge (nHdr st)) as Hge.
  destruct (header_size_ok (nHdr st)) as [Hhs Hhl]; [lia|]. set (hs := header_size (nHdr st)) in *.
  rewrite header_byte by lia. destruct (full_data_ok _ _ Hfs) as [Hok1 Hok2].
  destruct (split_length (stale <$> seq 0 (Z.to_nat (hs + nData st))) (length (sqlite3PutVarint hs)))
    as (a & b & Hz0 & Ha); [rewrite length_fmap, length_seq; lia|].
  apply (f_equal length) in Hz0 as Hlz. rewrite length_fmap, length_seq, length_app in Hlz.
  destruct (split_length b (length (header fs))) as (g1 & g2 & -> & Hg1); [lia|].
  rewrite length_app in Hlz. rewrite Hz0. pose proof (store_at 0 [] a (g1 ++ g2) (sqlite3PutVarint hs)) as Hst.
  cbn [app] in Hst. rewrite Hst by done. cbn [mbind option_bind].
  destruct (write_fields_ok _ _ Hfs (sqlite3PutVarint hs) g1 [] g2 (Z.of_nat (length (sqlite3PutVarint hs))) hs)
    as (h' & p' & Hw & _ & _); [done|lia|done|rewrite !length_app; cbn; lia|].
  cbn [app] in Hw. rewrite Hw. cbn [mbind option_bind].
  split; [by rewrite <- !app_assoc, Hfull|]. rewrite !length_app. lia.
Qed.

(** The fields of a record of less than 2^31 bytes. *)
Lemma record_bytes_fields ff recs : Forall mem_ok recs -> record_size ff recs < 2 ^ 31 ->
  exists fs hs, field_types ff recs = (fs, (field_types ff recs).2) /\ fields_ok recs fs /\
    record_bytes ff recs = sqlite3PutVarint hs ++ header fs ++ full_data fs /\
    hs = Z.of_nat (length (sqlite3PutVarint hs)) + Z.of_nat (length (header fs)) /\
    hs + Z.of_nat (length (full_data fs)) < 2 ^ 31.
Proof.
  intros Hok Hsize. unfold record_size, record_bytes in *. pose proof (field_types_ok ff recs Hok) as Hft.
  destruct (field_types ff recs) as [fs st]. destruct Hft as (Hfs & Hh & Hd & Hz & Hfull). cbn [snd] in *.
  pose proof (header_size_ge (nHdr st)). destruct (header_size_ok (nHdr st)) as [Hhs Hhl]; [lia|].
  exists fs, (header_size (nHdr st)). do 3 (split; [done|]). split; [lia|].
  rewrite <- Hfull, length_app, length_replicate. lia.
Qed.

(** C11: A record is read back as the values it was made of.  Unless it
    exceeds the length limit, [OP_MakeRecord] writes every byte of its buffer
    and none outside it, and [sqlite3VdbeRecordUnpack] of the result (with
    its tail of zeros) yields every register as it is stored: unchanged, but
    for a wide integer in a REAL column, which becomes the nearest double, and
    a zero-filled blob, which comes back materialised. *)
Theorem record_fields_round_trip ff limit szMalloc stale recs nField :
  Forall mem_ok recs -> (length recs <= nField)%nat -> limit < 2 ^ 31 -> szMalloc < 2 ^ 31 ->
  match OP_MakeRecord ff limit szMalloc stale recs with
  | Some (Made z tail) =>
      Z.of_nat (length z) + tail = record_size ff recs /\
      sqlite3VdbeRecordUnpack nField (z ++ replicate (Z.to_nat tail) 0) = Some (stored <$> recs)
  | Some TooBig => limit < record_size ff recs
  | None => False
  end.
Proof.
  intros Hok HnF Hlimit Hmalloc. pose proof (OP_MakeRecord_bytes ff limit szMalloc stale recs Hok Hlimit Hmalloc) as H.
  destruct (OP_MakeRecord _ _ _ _ _) as [[z tail|]|]; [|done|done]. destruct H as (-> & _ & Hlen & Hsize).
  split; [done|]. destruct (record_bytes_fields ff recs Hok ltac:(lia)) as (fs & hs & _ & Hfs & -> & Hhs & Hl).
  by apply RecordUnpack_ok.
Qed.

Definition sample_registers : list Mem :=
  [MInt 1; MInt (-129); MNull; MStr [104; 105]; MIntReal (2 ^ 60 + 1); MZeroBlob [7] 3].

Lemma record_fields_round_trip_witness :
  match OP_MakeRecord 4 1000 0 (fun _ => 0xAA) sample_registers with
  | Some (Made z tail) =>
      sqlite3VdbeRecordUnpack 6 (z ++ replicate (Z.to_nat tail) 0)
      = Some [MInt 1; MInt (-129); MNull; MStr [104; 105]; MReal (double_of_int (2 ^ 60 + 1)); MBlob [7; 0; 0; 0]]
  | _ => False
  end.
Proof.
  assert (Forall mem_ok sample_registers) as Hok.
  { unfold sample_registers. repeat (constructor; [try done|]); try constructor; try done;
      unfold in_s, byte_ok; repeat constructor; by vm_compute. }
  pose proof (record_fields_round_trip 4 1000 0 (fun _ => 0xAA) sample_registers 6 Hok
    ltac:(apply (bool_decide_unpack _); vm_compute; exact I) ltac:(lia) ltac:(lia)) as H.
  revert H. vm_compute. intros [_ H]. exact H.
Defined.
