(* ===== verification/SqlBitvec.v ===== *)
(** * Sparse bit vectors

    [sqlite/sqlite3.c] (bitvec.c), which the pager keeps its page sets in: a
    [Bitvec] is a bitmap when it is small, a hash table with linear probing
    while it is sparse, and an array of 62 smaller vectors after that.

    Allocation succeeds.  [i] is 0-based once the code has done [i--]. *)

From S2P Require Import Prelude Bits.

#[local] Set Warnings "-register-all".

Definition BITVEC_SZ : Z := 512.

(** A pointer has 8 bytes. *)
Definition BITVEC_USIZE : Z := (BITVEC_SZ - 3 * 4) / 8 * 8.

Definition BITVEC_SZELEM : Z := 8.

Definition BITVEC_NELEM : Z := BITVEC_USIZE / 1.

Definition BITVEC_NBIT : Z := BITVEC_NELEM * BITVEC_SZELEM.

Definition BITVEC_NINT : Z := BITVEC_USIZE / 4.

Definition BITVEC_MXHASH : Z := BITVEC_NINT / 2.

Definition BITVEC_HASH (X : Z) : Z := (X * 1) mod BITVEC_NINT.

Definition BITVEC_NPTR : Z := BITVEC_USIZE / 8.

(** The union remembers which member was written last, and zeroed memory is
    an empty table in each of them. *)
Inductive bv_union (B : Type) :=
| uZero
| uBitmap (a : list Z)
| uHash (a : list Z)
| uSub (a : list (option B)).
Arguments uZero {B}.
Arguments uBitmap {B} a.
Arguments uHash {B} a.
Arguments uSub {B} a.

Inductive Bitvec := mkBitvec {
  iSize : Z;
  nSet : Z;
  iDivisor : Z;
  u : bv_union Bitvec
}.

Definition aBitmap (x : bv_union Bitvec) : list Z :=
  match x with
  | uZero => replicate (Z.to_nat BITVEC_NELEM) 0
  | uBitmap a => a
  | _ => []
  end.

Definition aHash (x : bv_union Bitvec) : list Z :=
  match x with
  | uZero => replicate (Z.to_nat BITVEC_NINT) 0
  | uHash a => a
  | _ => []
  end.

Definition apSub (x : bv_union Bitvec) : list (option Bitvec) :=
  match x with
  | uZero => replicate (Z.to_nat BITVEC_NPTR) None
  | uSub a => a
  | _ => []
  end.

Definition sqlite3BitvecCreate (size : Z) : Bitvec :=
  {| iSize := size; nSet := 0; iDivisor := 0; u := uZero |}.

(** ** Testing a bit *)

(** [while( p->u.aHash[h] )] in [sqlite3BitvecTestNotNull]; [None] when the
    loop is not over after [fuel] rounds or leaves the array. *)
Fixpoint hash_test (fuel : nat) (t : list Z) (i h : Z) : option bool :=
  match fuel with
  | O => None
  | S fuel =>
      x ← t !! Z.to_nat h;
      if decide (x = 0) then Some false
      else if decide (x = i) then Some true
      else hash_test fuel t i ((h + 1) mod BITVEC_NINT)
  end.

Definition bitmap_test (a : list Z) (i : Z) : option bool :=
  b ← a !! Z.to_nat (i / BITVEC_SZELEM);
  Some (bool_decide (Z.land b (Z.shiftl 1 (Z.land i (BITVEC_SZELEM - 1))) <> 0)).

(** One round of [while( p->iDivisor )] or what follows the loop. *)
Fixpoint test_from (fuel : nat) (p : Bitvec) (i : Z) : option bool :=
  if decide (iDivisor p <> 0) then
    match fuel with
    | O => None
    | S fuel =>
        sub ← apSub (u p) !! Z.to_nat (i / iDivisor p);
        match sub with
        | None => Some false
        | Some q => test_from fuel q (i mod iDivisor p)
        end
    end
  else if decide (iSize p <= BITVEC_NBIT) then bitmap_test (aBitmap (u p)) i
  else hash_test (Z.to_nat BITVEC_NINT) (aHash (u p)) (i + 1) (BITVEC_HASH i).

(** A vector of 2^32 bits is at most five levels deep. *)
Definition DEPTH : nat := 9.

Definition sqlite3BitvecTestNotNull (p : Bitvec) (i : Z) : option bool :=
  let i := u32 (i - 1) in
  if decide (iSize p <= i) then Some false else test_from DEPTH p i.

Definition sqlite3BitvecTest (p : option Bitvec) (i : Z) : option bool :=
  match p with
  | None => Some false
  | Some p => sqlite3BitvecTestNotNull p i
  end.

(** ** Setting a bit *)

(** The loop [do{ if( p->u.aHash[h]==i ) return SQLITE_OK; h++; ... }while(
    p->u.aHash[h] )]: [None] in the inner option when [i] is there already,
    else the first free slot. *)
Fixpoint hash_probe (fuel : nat) (t : list Z) (i h : Z) : option (option Z) :=
  match fuel with
  | O => None
  | S fuel =>
      x ← t !! Z.to_nat h;
      if decide (x = i) then Some None
      else
        let h := h + 1 in
        let h := if decide (BITVEC_NINT <= h) then 0 else h in
        y ← t !! Z.to_nat h;
        if decide (y = 0) then Some (Some h) else hash_probe fuel t i h
  end.

Definition with_hash (n : Z) (t : list Z) (p : Bitvec) : Bitvec :=
  {| iSize := iSize p; nSet := n; iDivisor := iDivisor p; u := uHash t |}.

(** The table emptied to become an array of vectors. *)
Definition divide (p : Bitvec) : Bitvec :=
  {| iSize := iSize p; nSet := nSet p; iDivisor := (iSize p + BITVEC_NPTR - 1) / BITVEC_NPTR;
     u := uSub (replicate (Z.to_nat BITVEC_NPTR) None) |}.

Definition with_sub (bin : nat) (q p : Bitvec) : Bitvec :=
  {| iSize := iSize p; nSet := nSet p; iDivisor := iDivisor p;
     u := uSub (<[bin := Some q]> (apSub (u p))) |}.

Definition with_bitmap (k : nat) (b : Z) (p : Bitvec) : Bitvec :=
  {| iSize := iSize p; nSet := nSet p; iDivisor := iDivisor p;
     u := uBitmap (<[k := b]> (aBitmap (u p))) |}.

(** [sqlite3BitvecSet] after [i--].  Its loop goes down into the vector [i]
    belongs to; a table that is too full is divided and filled again. *)
Fixpoint set_from (fuel : nat) (p : Bitvec) (i : Z) : option Bitvec :=
  match fuel with
  | O => None
  | S fuel =>
      if decide (BITVEC_NBIT < iSize p /\ iDivisor p <> 0) then
        let bin := Z.to_nat (i / iDivisor p) in
        sub ← apSub (u p) !! bin;
        let q := default (sqlite3BitvecCreate (iDivisor p)) sub in
        q ← set_from fuel q (i mod iDivisor p);
        Some (with_sub bin q p)
      else if decide (iSize p <= BITVEC_NBIT) then
        let k := Z.to_nat (i / BITVEC_SZELEM) in
        b ← aBitmap (u p) !! k;
        Some (with_bitmap k (u8 (Z.lor b (Z.shiftl 1 (Z.land i (BITVEC_SZELEM - 1))))) p)
      else
        let t := aHash (u p) in
        let h := BITVEC_HASH i in
        let i := i + 1 in
        x ← t !! Z.to_nat h;
        let bitvec_set_end h := Some (with_hash (nSet p + 1) (<[Z.to_nat h := i]> t) p) in
        let bitvec_set_rehash h :=
          if decide (BITVEC_MXHASH <= nSet p) then
            p ← set_from fuel (divide p) (i - 1);
            foldM (fun p v => if decide (v <> 0) then set_from fuel p (v - 1) else Some p) p t
          else bitvec_set_end h in
        if decide (x = 0) then
          if decide (nSet p < BITVEC_NINT - 1) then bitvec_set_end h else bitvec_set_rehash h
        else
          slot ← hash_probe (Z.to_nat BITVEC_NINT) t i h;
          match slot with
          | None => Some p
          | Some h => bitvec_set_rehash h
          end
  end.

(** The asserts [i>0] and [i<=p->iSize] fail as [None]. *)
Definition sqlite3BitvecSet (p : option Bitvec) (i : Z) : option (option Bitvec) :=
  match p with
  | None => Some None
  | Some p => if decide (0 < i <= iSize p) then q ← set_from DEPTH p (i - 1); Some (Some q) else None
  end.

(** ** Clearing a bit *)

(** [while( p->u.aHash[h] ){ h++; ... }]: the first free slot. *)
Fixpoint hash_free (fuel : nat) (t : list Z) (h : Z) : option Z :=
  match fuel with
  | O => None
  | S fuel =>
      x ← t !! Z.to_nat h;
      if decide (x = 0) then Some h
      else
        let h := h + 1 in
        hash_free fuel t (if decide (BITVEC_NINT <= h) then 0 else h)
  end.

(** The table filled again with all values but [i]. *)
Fixpoint hash_refill (aiValues : list Z) (i n : Z) (t : list Z) : option (Z * list Z) :=
  match aiValues with
  | [] => Some (n, t)
  | v :: aiValues =>
      if decide (v <> 0 /\ v <> i) then
        h ← hash_free (Z.to_nat BITVEC_NINT) t (BITVEC_HASH (v - 1));
        hash_refill aiValues i (n + 1) (<[Z.to_nat h := v]> t)
      else hash_refill aiValues i n t
  end.

Fixpoint clear_from (fuel : nat) (p : Bitvec) (i : Z) : option Bitvec :=
  if decide (iDivisor p <> 0) then
    match fuel with
    | O => None
    | S fuel =>
        let bin := Z.to_nat (i / iDivisor p) in
        sub ← apSub (u p) !! bin;
        match sub with
        | None => Some p
        | Some q => q ← clear_from fuel q (i mod iDivisor p); Some (with_sub bin q p)
        end
    end
  else if decide (iSize p <= BITVEC_NBIT) then
    let k := Z.to_nat (i / BITVEC_SZELEM) in
    b ← aBitmap (u p) !! k;
    Some (with_bitmap k (u8 (Z.land b (Z.lnot (Z.shiftl 1 (Z.land i (BITVEC_SZELEM - 1)))))) p)
  else
    '(n, t) ← hash_refill (aHash (u p)) (i + 1) 0 (replicate (Z.to_nat BITVEC_NINT) 0);
    Some (with_hash n t p).

Definition sqlite3BitvecClear (p : option Bitvec) (i : Z) : option (option Bitvec) :=
  match p with
  | None => Some None
  | Some p => if decide (0 < i) then q ← clear_from DEPTH p (i - 1); Some (Some q) else None
  end.

Definition sqlite3BitvecSize (p : Bitvec) : Z := iSize p.

(** ** Linear probing *)

Definition slot (t : list Z) (h : Z) : Z := default 0 (t !! Z.to_nat h).

Definition next (h : Z) : Z := (h + 1) mod BITVEC_NINT.

(** The slot [d] steps after [h], and the contents of the [d] slots from
    [h] on. *)
Fixpoint adv (h : Z) (d : nat) : Z :=
  match d with O => h | S d => adv (next h) d end.

Fixpoint seg (t : list Z) (h : Z) (d : nat) : list Z :=
  match d with O => [] | S d => slot t h :: seg t (next h) d end.

(** The first free slot is [d] steps after [h]. *)
Definition free_at (t : list Z) (h : Z) (d : nat) : Prop := slot t (adv h d) = 0 /\ 0 ∉ seg t h d.

Definition in_table (h : Z) : Prop := 0 <= h < BITVEC_NINT.

Definition table (t : list Z) : Prop := length t = Z.to_nat BITVEC_NINT.

Lemma in_table_next h : in_table (next h).
Proof. by apply Z.mod_pos_bound. Qed.

Lemma in_table_hash i : in_table (BITVEC_HASH i).
Proof. by apply Z.mod_pos_bound. Qed.
#[local] Hint Resolve in_table_next in_table_hash : core.

Lemma in_table_adv h d : in_table h -> in_table (adv h d).
Proof. revert h. induction d as [|d IH]; intros h Hh; [done|]. by apply IH. Qed.
#[local] Hint Resolve in_table_adv : core.

Lemma next_wrap h : in_table h -> (if decide (BITVEC_NINT <= h + 1) then 0 else h + 1) = next h.
Proof.
  unfold in_table, next. change BITVEC_NINT with 124. intros Hh. case_decide; mods.
Qed.

Lemma slot_lookup t h : table t -> in_table h -> t !! Z.to_nat h = Some (slot t h).
Proof.
  unfold table, in_table, slot. intros Ht Hh.
  destruct (lookup_lt_is_Some_2 t (Z.to_nat h)) as [x Hx]; [lia|]. by rewrite Hx.
Qed.

Lemma elem_slot t v : table t -> v ∈ t <-> exists h, in_table h /\ slot t h = v.
Proof.
  intros Ht. split.
  - intros [k Hk]%list_elem_of_lookup. exists (Z.of_nat k). pose proof (lookup_lt_Some _ _ _ Hk).
    unfold table, in_table in *. split; [lia|]. unfold slot. by rewrite Nat2Z.id, Hk.
  - intros (h & Hh & <-). eapply list_elem_of_lookup_2. by apply slot_lookup.
Qed.

Lemma seg_in t h d v : table t -> in_table h -> v ∈ seg t h d -> v ∈ t.
Proof.
  intros Ht. revert h. induction d as [|d IH]; intros h Hh Hv; cbn [seg] in Hv; [by apply elem_of_nil in Hv|].
  apply elem_of_cons in Hv as [->|Hv]; [apply elem_slot; eauto|eauto].
Qed.

Lemma seg_adv t h d k : (k < d)%nat -> slot t (adv h k) ∈ seg t h d.
Proof.
  revert h k. induction d as [|d IH]; intros h [|k] Hk; [lia|lia| |]; cbn [seg adv].
  - by left.
  - right. apply IH. lia.
Qed.

Lemma seg_adv_inv t h d v : v ∈ seg t h d -> exists k, (k < d)%nat /\ slot t (adv h k) = v.
Proof.
  revert h. induction d as [|d IH]; intros h Hv; cbn [seg] in Hv; [by apply elem_of_nil in Hv|].
  apply elem_of_cons in Hv as [->|Hv]; [exists O; split; [lia|done]|].
  destruct (IH _ Hv) as (k & Hk & Hs). exists (S k). split; [lia|done].
Qed.

Lemma adv_mod h d : in_table h -> adv h d = (h + Z.of_nat d) mod BITVEC_NINT.
Proof.
  revert h. induction d as [|d IH]; intros h Hh; cbn [adv].
  - rewrite Z.add_0_r. symmetry. by apply Z.mod_small.
  - rewrite IH by done. unfold next. rewrite Zplus_mod_idemp_l. f_equal. lia.
Qed.

Lemma free_exists t h : table t -> in_table h -> 0 ∈ t ->
  exists d, (d < Z.to_nat BITVEC_NINT)%nat /\ free_at t h d.
Proof.
  intros Ht Hh Hz. apply (elem_slot t 0 Ht) in Hz as (z & Hz & Hs).
  assert (exists d, (d < Z.to_nat BITVEC_NINT)%nat /\ slot t (adv h d) = 0) as (d & Hd & Hfree).
  { exists (Z.to_nat ((z - h) mod BITVEC_NINT)). unfold in_table in *. change BITVEC_NINT with 124 in *.
    split; [mods|]. rewrite adv_mod by done. change BITVEC_NINT with 124. rewrite <- Hs. f_equal. rewrite Z2Nat.id by mods. mods. }
  clear z Hz Hs. induction (lt_wf d) as [d _ IH].
  destruct (decide (0 ∈ seg t h d)) as [Hin|]; [|by exists d].
  apply seg_adv_inv in Hin as (k & Hk & Hs). apply (IH k); [done|lia|done].
Qed.

Lemma hash_test_spec t i h d fuel : table t -> in_table h -> i <> 0 -> free_at t h d -> (d < fuel)%nat ->
  hash_test fuel t i h = Some (bool_decide (i ∈ seg t h d)).
Proof.
  intros Ht Hh Hi. revert h fuel Hh. induction d as [|d IH]; intros h [|fuel] Hh [Hf Hz] Hfuel; try lia;
    cbn [hash_test]; rewrite slot_lookup by done; cbn [mbind option_bind seg adv] in *.
  - by rewrite decide_True by done.
  - rewrite decide_False by (intros E; apply Hz; rewrite <- E; left).
    case_decide as Hs.
    + rewrite bool_decide_eq_true_2; [done|]. rewrite <- Hs. by left.
    + fold (next h). rewrite IH; [|done|split; [done|by intros ?; apply Hz; right]|lia].
      f_equal. apply bool_decide_ext. rewrite elem_of_cons. split; [by right|intros [->|]; done].
Qed.

Lemma hash_free_spec t h d fuel : table t -> in_table h -> free_at t h d -> (d < fuel)%nat ->
  hash_free fuel t h = Some (adv h d).
Proof.
  intros Ht. revert h fuel. induction d as [|d IH]; intros h [|fuel] Hh [Hf Hz] Hfuel; try lia;
    cbn [hash_free]; rewrite slot_lookup by done; cbn [mbind option_bind seg adv] in *.
  - by rewrite decide_True by done.
  - rewrite decide_False by (intros E; apply Hz; rewrite <- E; left). cbn zeta. rewrite next_wrap by done.
    apply IH; [done|split; [done|by intros ?; apply Hz; right]|lia].
Qed.

Lemma hash_probe_spec t i h d fuel : table t -> in_table h -> free_at t h (S d) -> (d < fuel)%nat ->
  hash_probe fuel t i h = Some (if decide (i ∈ seg t h (S d)) then None else Some (adv h (S d))).
Proof.
  intros Ht. revert h fuel. induction d as [|d IH]; intros h [|fuel] Hh [Hf Hz] Hfuel; try lia;
    cbn [hash_probe]; rewrite (slot_lookup t h) by done; cbn [mbind option_bind]; cbn [seg adv] in Hf, Hz |- *.
  - case_decide as Hs; [by rewrite decide_True by (rewrite Hs; left)|].
    cbn zeta. rewrite next_wrap, slot_lookup by done. cbn [mbind option_bind].
    rewrite Hf, decide_True by done. rewrite decide_False; [done|]. rewrite list_elem_of_singleton. congruence.
  - case_decide as Hs; [by rewrite decide_True by (rewrite Hs; left)|].
    cbn zeta. rewrite next_wrap, slot_lookup by done. cbn [mbind option_bind].
    rewrite decide_False by (intros E; apply Hz; right; rewrite <- E; left).
    rewrite IH; [|done|split; [done|by intros ?; apply Hz; right]|lia]. cbn [seg adv].
    f_equal. apply decide_ext. rewrite (elem_of_cons _ i (slot t h)). split; [by right|intros [->|]; done].
Qed.

(** Every value can be reached from its hash without crossing a free slot. *)
Definition reachable (t : list Z) : Prop :=
  forall v, v ∈ t -> v <> 0 ->
  exists d, slot t (adv (BITVEC_HASH (v - 1)) d) = v /\ 0 ∉ seg t (BITVEC_HASH (v - 1)) d.

Definition used (t : list Z) : nat := length (filter (fun v => v <> 0) t).

Lemma elem_of_seg t v d : table t -> reachable t -> v <> 0 ->
  free_at t (BITVEC_HASH (v - 1)) d -> v ∈ seg t (BITVEC_HASH (v - 1)) d <-> v ∈ t.
Proof.
  intros Ht Hr Hv [Hf Hz]. split; [by apply seg_in|]. intros Hin.
  destruct (Hr v Hin Hv) as (d' & Hs & Hz').
  destruct (decide (d' < d)%nat) as [Hlt|Hge].
  { pose proof (seg_adv t (BITVEC_HASH (v - 1)) d d' Hlt) as Hx. by rewrite Hs in Hx. }
  exfalso.
  destruct (decide (d' = d)) as [->|]; [congruence|]. apply Hz'. rewrite <- Hf. apply seg_adv. lia.
Qed.

Lemma slot_insert t h h' v : table t -> in_table h -> in_table h' ->
  slot (<[Z.to_nat h := v]> t) h' = if decide (h' = h) then v else slot t h'.
Proof.
  unfold table, in_table, slot. intros Ht Hh Hh'. case_decide as E.
  - subst h'. rewrite list_lookup_insert_eq by lia. done.
  - rewrite list_lookup_insert_ne by lia. done.
Qed.

Lemma table_insert t k v : table t -> table (<[k := v]> t).
Proof. unfold table. by rewrite length_insert. Qed.

Lemma seg_mono t t' h d : in_table h -> (forall h', in_table h' -> slot t h' <> 0 -> slot t' h' <> 0) ->
  0 ∉ seg t h d -> 0 ∉ seg t' h d.
Proof.
  intros Hh Hm Hz. intros (k & Hk & Hs)%seg_adv_inv. apply (Hm (adv h k)); [auto| |done].
  intros E. apply Hz. rewrite <- E. by apply seg_adv.
Qed.

Section Insert.
Context (t : list Z) (v h : Z).
Hypotheses (Ht : table t) (Hh : in_table h) (Hv : v <> 0) (Hfree : slot t h = 0).

Lemma slot_insert_mono h' : in_table h' -> slot t h' <> 0 -> slot (<[Z.to_nat h := v]> t) h' <> 0.
Proof. intros Hh' Hs. rewrite slot_insert by done. by case_decide. Qed.

Lemma elem_insert w : w <> 0 -> w ∈ <[Z.to_nat h := v]> t <-> w = v \/ w ∈ t.
Proof.
  intros Hw. rewrite !elem_slot by (done || by apply table_insert). split.
  - intros (h' & Hh' & Hs). rewrite slot_insert in Hs by done. case_decide; [by left|right; eauto].
  - intros [-> | (h' & Hh' & Hs)].
    + exists h. split; [done|]. rewrite slot_insert by done. by rewrite decide_True.
    + exists h'. split; [done|]. rewrite slot_insert by done. rewrite decide_False; [done|]. congruence.
Qed.

Lemma reachable_insert d :
  reachable t -> h = adv (BITVEC_HASH (v - 1)) d -> 0 ∉ seg t (BITVEC_HASH (v - 1)) d ->
  reachable (<[Z.to_nat h := v]> t).
Proof.
  intros Hr Hd Hz w Hw Hw0. apply elem_insert in Hw as [->|Hw]; [| |done].
  - exists d. rewrite <- Hd, slot_insert, decide_True by done. split; [done|].
    by eapply seg_mono; [auto|apply slot_insert_mono|].
  - destruct (Hr w Hw Hw0) as (d' & Hs & Hz'). exists d'. split.
    + rewrite slot_insert by auto. rewrite decide_False; [done|]. congruence.
    + by eapply seg_mono; [auto|apply slot_insert_mono|].
Qed.

Lemma used_insert : used (<[Z.to_nat h := v]> t) = S (used t).
Proof.
  pose proof (slot_lookup t h Ht Hh) as Hl. rewrite Hfree in Hl.
  pose proof (lookup_lt_Some _ _ _ Hl) as Hlt.
  unfold used. rewrite insert_take_drop by done. rewrite <- (take_drop_middle _ _ _ Hl) at 3.
  rewrite !filter_app, !length_app. rewrite filter_cons_True by done. rewrite filter_cons_False by (intros E; by apply E).
  simpl. lia.
Qed.
End Insert.

Lemma free_slot_left t : table t -> (used t < Z.to_nat BITVEC_NINT)%nat -> 0 ∈ t.
Proof.
  unfold table, used. intros Ht Hu. destruct (decide (0 ∈ t)) as [|Hn]; [done|]. exfalso.
  assert (filter (fun v : Z => v <> 0) t = t) as E; [|rewrite E in Hu; lia].
  clear Ht Hu. induction t as [|x t IH]; [done|]. rewrite filter_cons_True.
  - f_equal. apply IH. intros ?. apply Hn. by right.
  - intros ->. apply Hn. left.
Qed.

(** The table in its three operations. *)
Record hash_ok (t : list Z) : Prop := {
  ho_table : table t;
  ho_reach : reachable t;
  ho_free : (used t < Z.to_nat BITVEC_NINT)%nat
}.

Lemma hash_free_at t h : hash_ok t -> in_table h ->
  exists d, (d < Z.to_nat BITVEC_NINT)%nat /\ free_at t h d.
Proof. intros [Ht _ Hf] Hh. apply free_exists; [done|done|]. by apply free_slot_left. Qed.

Lemma hash_test_ok t i : hash_ok t -> i <> 0 ->
  hash_test (Z.to_nat BITVEC_NINT) t i (BITVEC_HASH (i - 1)) = Some (bool_decide (i ∈ t)).
Proof.
  intros Hok Hi. destruct (hash_free_at t (BITVEC_HASH (i - 1)) Hok) as (d & Hd & Hf); [auto|].
  destruct Hok as [Ht Hr _]. rewrite (hash_test_spec _ _ _ d) by auto. f_equal. apply bool_decide_ext.
  by apply elem_of_seg.
Qed.

(** Adding a value at the first free slot. *)
Lemma hash_add_ok t v d : hash_ok t -> v <> 0 -> free_at t (BITVEC_HASH (v - 1)) d ->
  (S (used t) < Z.to_nat BITVEC_NINT)%nat ->
  let t' := <[Z.to_nat (adv (BITVEC_HASH (v - 1)) d) := v]> t in
  hash_ok t' /\ used t' = S (used t) /\ forall w, w <> 0 -> w ∈ t' <-> w = v \/ w ∈ t.
Proof.
  intros [Ht Hr Hu] Hv [Hf Hz] Hlt t'. pose proof (used_insert t v _ Ht (in_table_adv _ d (in_table_hash (v - 1))) Hv Hf) as Hu'.
  split; [|split; [done|]].
  - split; [by apply table_insert|by eapply reachable_insert; auto|]. unfold t'. by rewrite Hu'.
  - intros w Hw. apply elem_insert; auto.
Qed.

Lemma hash_empty : hash_ok (replicate (Z.to_nat BITVEC_NINT) 0) /\ used (replicate (Z.to_nat BITVEC_NINT) 0) = O.
Proof.
  assert (used (replicate (Z.to_nat BITVEC_NINT) 0) = O) as Hu by done.
  split; [|done]. split; [done| |rewrite Hu; by vm_compute; lia].
  intros v Hv Hv0. exfalso. apply Hv0. by apply elem_of_replicate in Hv as [-> _].
Qed.

(** Filling a table again with the values that differ from [i]. *)
Lemma hash_refill_ok vs i : forall n t,
  hash_ok t -> n = Z.of_nat (used t) -> (used t + used vs < Z.to_nat BITVEC_NINT)%nat ->
  exists t', hash_refill vs i n t = Some (Z.of_nat (used t'), t') /\ hash_ok t' /\
    (used t' <= used t + used vs)%nat /\
    forall w, w <> 0 -> w ∈ t' <-> (w ∈ vs /\ w <> i) \/ w ∈ t.
Proof.
  induction vs as [|v vs IH]; intros n t Hok -> Hu; cbn [hash_refill].
  { exists t. split; [done|]. split; [done|]. split; [lia|]. intros w Hw. rewrite elem_of_nil. naive_solver. }
  unfold used in Hu at 2. destruct (decide (v <> 0)) as [Hv|Hv].
  - rewrite filter_cons_True in Hu by done. cbn [length] in Hu. fold (used vs) in Hu.
    destruct (decide (v <> i)) as [Hi|Hi]; [rewrite decide_True by done|rewrite decide_False by naive_solver].
    + destruct (hash_free_at t (BITVEC_HASH (v - 1)) Hok) as (d & Hd & Hf); [auto|].
      rewrite (hash_free_spec _ _ d) by (auto; apply Hok). cbn [mbind option_bind].
      destruct (hash_add_ok t v d Hok Hv Hf) as (Hok' & Hu' & Hin); [lia|].
      destruct (IH (Z.of_nat (used t) + 1) _ Hok') as (t' & -> & Ht' & Hut & Hin'); [lia|lia|].
      exists t'. split; [done|]. split; [done|]. split.
      { rewrite Hu' in Hut. unfold used at 3. rewrite filter_cons_True by done. cbn [length]. fold (used vs). lia. }
      intros w Hw. rewrite Hin', Hin, elem_of_cons by done. naive_solver.
    + apply dec_stable in Hi. destruct (IH (Z.of_nat (used t)) t Hok) as (t' & -> & Ht' & Hut & Hin'); [lia|lia|].
      exists t'. split; [done|]. split; [done|]. split.
      { unfold used at 3. rewrite filter_cons_True by done. cbn [length]. fold (used vs). lia. }
      intros w Hw. rewrite Hin', elem_of_cons by done. naive_solver.
  - apply dec_stable in Hv. subst v. rewrite filter_cons_False in Hu by (intros E; by apply E). fold (used vs) in Hu.
    rewrite decide_False by naive_solver.
    destruct (IH (Z.of_nat (used t)) t Hok) as (t' & -> & Ht' & Hut & Hin'); [lia|lia|].
    exists t'. split; [done|]. split; [done|]. split.
    { unfold used at 3. rewrite filter_cons_False by (intros E; by apply E). fold (used vs). lia. }
    intros w Hw. rewrite Hin', elem_of_cons by done. naive_solver.
Qed.

(** ** Bitmaps *)

Definition bitmap_has (a : list Z) (i : Z) : bool := Z.testbit (default 0 (a !! Z.to_nat (i / 8))) (i mod 8).

Lemma bit_of i : Z.shiftl 1 (Z.land i (BITVEC_SZELEM - 1)) = 2 ^ (i mod 8).
Proof.
  change (BITVEC_SZELEM - 1) with (2 ^ 3 - 1). rewrite land_ones_mod by lia.
  rewrite Z.shiftl_mul_pow2 by mods. apply Z.mul_1_l.
Qed.

Definition bitmap_ok (a : list Z) : Prop := length a = Z.to_nat BITVEC_NELEM.

Lemma bitmap_lookup a i : bitmap_ok a -> 0 <= i < BITVEC_NBIT -> exists b, a !! Z.to_nat (i / BITVEC_SZELEM) = Some b.
Proof.
  unfold bitmap_ok. change BITVEC_NELEM with 496. change BITVEC_NBIT with 3968. change BITVEC_SZELEM with 8.
  intros Ha Hi. destruct (lookup_lt_is_Some_2 a (Z.to_nat (i / 8))) as [b Hb]; [mods|by exists b].
Qed.

Lemma bitmap_test_ok a i : bitmap_ok a -> 0 <= i < BITVEC_NBIT -> bitmap_test a i = Some (bitmap_has a i).
Proof.
  intros Ha Hi. destruct (bitmap_lookup a i Ha Hi) as [b Hb].
  unfold bitmap_test, bitmap_has. change (i / 8) with (i / BITVEC_SZELEM). rewrite Hb, bit_of. cbn [mbind option_bind default].
  f_equal. apply eq_true_iff_eq. rewrite bool_decide_eq_true, land_bit_ne0; [done|mods].
Qed.

Lemma testbit_u8 z j : 0 <= j < 8 -> Z.testbit (u8 z) j = Z.testbit z j.
Proof. intros. unfold wrapu. apply Z.mod_pow2_bits_low. lia. Qed.

(** Changing one bit of a bitmap. *)
Lemma bitmap_insert a i b b' j :
  a !! Z.to_nat (i / BITVEC_SZELEM) = Some b -> 0 <= i -> 0 <= j ->
  bitmap_has (<[Z.to_nat (i / BITVEC_SZELEM) := b']> a) j
  = if decide (i / 8 = j / 8) then Z.testbit b' (j mod 8) else bitmap_has a j.
Proof.
  change BITVEC_SZELEM with 8. intros Hb Hi Hj. unfold bitmap_has. case_decide as E.
  - rewrite <- E, list_lookup_insert_eq by (by eapply lookup_lt_Some). done.
  - rewrite list_lookup_insert_ne; [done|]. mods.
Qed.

Lemma bitmap_set_bit a i b j : a !! Z.to_nat (i / BITVEC_SZELEM) = Some b -> 0 <= i -> 0 <= j ->
  bitmap_has (<[Z.to_nat (i / BITVEC_SZELEM) := u8 (Z.lor b (Z.shiftl 1 (Z.land i (BITVEC_SZELEM - 1))))]> a) j
  = bool_decide (j = i) || bitmap_has a j.
Proof.
  intros Hb Hi Hj. rewrite (bitmap_insert _ _ _ _ _ Hb), bit_of by done. case_decide as E.
  - rewrite testbit_u8, Z.lor_spec, Z.pow2_bits_eqb by mods.
    unfold bitmap_has. rewrite <- E. change (i / 8) with (i / BITVEC_SZELEM). rewrite Hb. cbn [default].
    destruct (Z.eqb_spec (i mod 8) (j mod 8)) as [Em|Em].
    + rewrite bool_decide_eq_true_2 by mods. by rewrite orb_true_r.
    + rewrite bool_decide_eq_false_2 by congruence. by rewrite orb_false_r.
  - rewrite bool_decide_eq_false_2 by congruence. done.
Qed.

Lemma bitmap_clear_bit a i b j : a !! Z.to_nat (i / BITVEC_SZELEM) = Some b -> 0 <= i -> 0 <= j ->
  bitmap_has (<[Z.to_nat (i / BITVEC_SZELEM) := u8 (Z.land b (Z.lnot (Z.shiftl 1 (Z.land i (BITVEC_SZELEM - 1)))))]> a) j
  = negb (bool_decide (j = i)) && bitmap_has a j.
Proof.
  intros Hb Hi Hj. rewrite (bitmap_insert _ _ _ _ _ Hb), bit_of by done. case_decide as E.
  - rewrite testbit_u8, Z.land_spec, Z.lnot_spec, Z.pow2_bits_eqb by mods.
    unfold bitmap_has. rewrite <- E. change (i / 8) with (i / BITVEC_SZELEM). rewrite Hb. cbn [default].
    destruct (Z.eqb_spec (i mod 8) (j mod 8)) as [Em|Em].
    + rewrite bool_decide_eq_true_2 by mods. by rewrite andb_false_r.
    + rewrite bool_decide_eq_false_2 by congruence. by rewrite andb_true_r.
  - rewrite bool_decide_eq_false_2 by congruence. done.
Qed.

(** ** Vectors *)

Definition ceil_div (n : Z) : Z := (n + BITVEC_NPTR - 1) / BITVEC_NPTR.

(** A vector of at most [k] levels below the top. *)
Fixpoint wf (k : nat) (p : Bitvec) : Prop :=
  0 <= iSize p /\
  ((iSize p <= BITVEC_NBIT /\ iDivisor p = 0 /\ bitmap_ok (aBitmap (u p)))
   \/ (BITVEC_NBIT < iSize p <= BITVEC_NBIT * BITVEC_NPTR ^ Z.of_nat k /\ iDivisor p = 0 /\
       hash_ok (aHash (u p)) /\ nSet p = Z.of_nat (used (aHash (u p))) /\
       forall v, v ∈ aHash (u p) -> 0 <= v <= iSize p)
   \/ match k with
      | O => False
      | S k =>
          BITVEC_NBIT < iSize p <= BITVEC_NBIT * BITVEC_NPTR ^ Z.of_nat (S k) /\
          iDivisor p = ceil_div (iSize p) /\ length (apSub (u p)) = Z.to_nat BITVEC_NPTR /\
          forall b q, apSub (u p) !! b = Some (Some q) -> iSize q = iDivisor p /\ wf k q
      end).

(** The bits of a vector. *)
Fixpoint has (k : nat) (p : Bitvec) (i : Z) : bool :=
  if decide (iDivisor p <> 0) then
    match k with
    | O => false
    | S k =>
        match apSub (u p) !! Z.to_nat (i / iDivisor p) with
        | Some (Some q) => has k q (i mod iDivisor p)
        | _ => false
        end
    end
  else if decide (iSize p <= BITVEC_NBIT) then bitmap_has (aBitmap (u p)) i
  else bool_decide (i + 1 ∈ aHash (u p)).

Lemma ceil_div_range n i : BITVEC_NBIT < n -> 0 <= i < n ->
  0 < ceil_div n < n /\ 0 <= i / ceil_div n < BITVEC_NPTR /\ 0 <= i mod ceil_div n < ceil_div n.
Proof.
  unfold ceil_div. change BITVEC_NPTR with 62. change BITVEC_NBIT with 3968. intros Hn Hi.
  assert (0 < (n + 62 - 1) / 62 < n) as Hd by mods.
  assert (n <= 62 * ((n + 62 - 1) / 62)) as Hc by mods.
  split; [done|]. split; [|apply Z.mod_pos_bound; lia].
  split; [apply Z.div_pos; lia|apply Z.div_lt_upper_bound; lia].
Qed.

Lemma ceil_div_level n k : n <= BITVEC_NBIT * BITVEC_NPTR ^ Z.of_nat (S k) ->
  ceil_div n <= BITVEC_NBIT * BITVEC_NPTR ^ Z.of_nat k.
Proof.
  rewrite Nat2Z.inj_succ, Z.pow_succ_r by lia. unfold ceil_div. change BITVEC_NPTR with 62.
  change BITVEC_NBIT with 3968. intros Hn. generalize dependent (62 ^ Z.of_nat k). intros z Hn. mods.
Qed.

Lemma sub_lookup p i : BITVEC_NBIT < iSize p -> iDivisor p = ceil_div (iSize p) ->
  length (apSub (u p)) = Z.to_nat BITVEC_NPTR -> 0 <= i < iSize p ->
  iDivisor p <> 0 /\ 0 <= i mod iDivisor p < iDivisor p /\ exists sub, apSub (u p) !! Z.to_nat (i / iDivisor p) = Some sub.
Proof.
  intros Hn Hd Hl Hi. destruct (ceil_div_range _ i Hn Hi) as (Hc & Hb & Hm). rewrite Hd.
  split; [lia|]. split; [done|]. apply lookup_lt_is_Some_2. rewrite Hl. lia.
Qed.

Lemma test_from_has k fuel p i : wf k p -> (k <= fuel)%nat -> 0 <= i < iSize p ->
  test_from fuel p i = Some (has k p i).
Proof.
  revert fuel p i. induction k as [|k IH]; intros fuel p i [Hs0 Hwf] Hfuel Hi;
    destruct Hwf as [(Hsz & Hd & Hb)|[(Hsz & Hd & Hh & _ & _)|Hsub]].
  1, 4: destruct fuel; cbn [test_from has]; rewrite Hd, !(decide_False (P := 0 <> 0)), !decide_True by lia;
    apply bitmap_test_ok; [done|lia|done|lia].
  1, 3: destruct fuel; cbn [test_from has]; rewrite Hd, !(decide_False (P := 0 <> 0)), !decide_False by lia;
    replace (BITVEC_HASH i) with (BITVEC_HASH (i + 1 - 1)) by (f_equal; lia); apply hash_test_ok; (done || lia).
  - done.
  - destruct Hsub as (Hsz & Hd & Hl & Hq). destruct fuel as [|fuel]; [lia|]. cbn [test_from has].
    destruct (sub_lookup p i ltac:(lia) Hd Hl Hi) as (Hd0 & Hm & sub & Hsub).
    rewrite !decide_True by done. rewrite Hsub. cbn [mbind option_bind].
    destruct sub as [q|]; [|done]. destruct (Hq _ _ Hsub) as [Hqs Hqw]. apply IH; [done|lia|lia].
Qed.

Lemma wf_create k n : 0 <= n <= BITVEC_NBIT * BITVEC_NPTR ^ Z.of_nat k -> wf k (sqlite3BitvecCreate n).
Proof.
  intros Hn. destruct hash_empty as [Hok Hu].
  assert (0 <= iSize (sqlite3BitvecCreate n) /\
    ((n <= BITVEC_NBIT /\ 0 = 0 /\ bitmap_ok (aBitmap uZero)) \/
     (BITVEC_NBIT < n <= BITVEC_NBIT * BITVEC_NPTR ^ Z.of_nat k /\ 0 = 0 /\ hash_ok (aHash uZero) /\
      0 = Z.of_nat (used (aHash uZero)) /\ forall v, v ∈ aHash uZero -> 0 <= v <= n))) as [Hs [Hw|Hw]].
  { split; [apply Hn|]. destruct (decide (n <= BITVEC_NBIT)); [left; by repeat split|right].
    split; [lia|]. split; [done|]. split; [done|]. split; [by vm_compute|].
    intros v Hv. cbn [aHash] in Hv. apply elem_of_replicate in Hv as [-> _]. lia. }
  - destruct k; (split; [done|by left]).
  - destruct k; (split; [done|right; by left]).
Qed.

Lemma has_create k n j : 0 <= j -> has k (sqlite3BitvecCreate n) j = false.
Proof.
  intros Hj. assert (bitmap_has (aBitmap uZero) j = false) as Hb.
  { unfold bitmap_has. cbn [aBitmap]. destruct (_ !! _) as [b|] eqn:E; cbn [default]; [|apply Z.testbit_0_l].
    apply lookup_replicate in E as [-> _]. apply Z.testbit_0_l. }
  assert (bool_decide (j + 1 ∈ aHash uZero) = false) as Hh.
  { apply bool_decide_eq_false_2. cbn [aHash]. intros [E _]%elem_of_replicate. lia. }
  destruct k; cbn [has sqlite3BitvecCreate iDivisor iSize u]; repeat case_decide; done.
Qed.

Definition set_spec (k : nat) (p : Bitvec) (i : Z) (r : option Bitvec) : Prop :=
  exists p', r = Some p' /\ wf k p' /\ iSize p' = iSize p /\
    forall j, 0 <= j < iSize p -> has k p' j = bool_decide (j = i) || has k p j.

Lemma set_bitmap k fuel p i : wf k p -> iSize p <= BITVEC_NBIT -> 0 <= i < iSize p ->
  set_spec k p i (set_from (S fuel) p i).
Proof.
  intros Hw Hsz Hi.
  assert (0 <= iSize p /\ iDivisor p = 0 /\ bitmap_ok (aBitmap (u p))) as (Hs0 & Hd & Hb).
  { destruct k; destruct Hw as [Hs [Hw|[Hw|Hw]]]; try done; try (exfalso; lia); naive_solver. }
  destruct (bitmap_lookup _ i Hb) as [b Hl]; [lia|].
  cbn [set_from]. rewrite decide_False by naive_solver. rewrite decide_True by done. rewrite Hl. cbn [mbind option_bind].
  eexists. split; [done|]. set (b' := u8 _). 
  assert (bitmap_ok (<[Z.to_nat (i / BITVEC_SZELEM) := b']> (aBitmap (u p)))) as Hb'
    by (unfold bitmap_ok; by rewrite length_insert).
  split; [destruct k; (split; [done|left; cbn; naive_solver])|]. split; [done|].
  intros j Hj. assert (has k p j = bitmap_has (aBitmap (u p)) j) as ->.
  { destruct k; cbn [has]; rewrite Hd, decide_False, decide_True by (done || by intros []); done. }
  rewrite <- (bitmap_set_bit _ _ _ _ Hl) by lia.
  destruct k; cbn [has with_bitmap iDivisor iSize u aBitmap];
    rewrite Hd, decide_False, decide_True by (done || by intros []); done.
Qed.

(** *** A divided vector *)

Definition divided (k : nat) (p : Bitvec) : Prop := wf (S k) p /\ iDivisor p <> 0.

Lemma divided_inv k p : divided k p ->
  0 <= iSize p /\ BITVEC_NBIT < iSize p <= BITVEC_NBIT * BITVEC_NPTR ^ Z.of_nat (S k) /\
  iDivisor p = ceil_div (iSize p) /\ length (apSub (u p)) = Z.to_nat BITVEC_NPTR /\
  forall b q, apSub (u p) !! b = Some (Some q) -> iSize q = iDivisor p /\ wf k q.
Proof. intros [[Hs [Hw|[Hw|Hw]]] Hd]; [exfalso; naive_solver|exfalso; naive_solver|done]. Qed.

(** Replacing the part that [i] is in. *)
Lemma with_sub_spec k p i q' f :
  divided k p -> 0 <= i < iSize p -> wf k q' -> iSize q' = iDivisor p ->
  (forall j, 0 <= j < iDivisor p ->
     has k q' j = f (bool_decide (j = i mod iDivisor p))
       (match apSub (u p) !! Z.to_nat (i / iDivisor p) with Some (Some q) => has k q j | _ => false end)) ->
  (forall b, f false b = b) ->
  let p' := with_sub (Z.to_nat (i / iDivisor p)) q' p in
  divided k p' /\ forall j, 0 <= j < iSize p -> has (S k) p' j = f (bool_decide (j = i)) (has (S k) p j).
Proof.
  intros Hdiv Hi Hq' Hs' Hhas Hf p'. destruct (divided_inv _ _ Hdiv) as (Hs & Hn & Hd & Hl & Hq).
  destruct (sub_lookup p i ltac:(lia) Hd Hl Hi) as (Hd0 & Hm & sub & Hsub).
  split.
  - split; [|done]. cbn [wf p' with_sub iSize iDivisor u apSub]. split; [done|]. right. right.
    split; [done|]. split; [done|]. split; [by rewrite length_insert|].
    intros b q Hb. apply list_lookup_insert_Some in Hb as [(_ & [= <-] & _)|[_ Hb]]; [done|]. by eapply Hq.
  - intros j Hj. cbn [has p' with_sub iSize iDivisor u apSub]. rewrite !decide_True by done.
    destruct (sub_lookup p j ltac:(lia) Hd Hl Hj) as (_ & Hmj & _).
    destruct (ceil_div_range (iSize p) i ltac:(lia) Hi) as (_ & Hbi & _). destruct (ceil_div_range (iSize p) j ltac:(lia) Hj) as (_ & Hbj & _).
    rewrite <- Hd in Hbi, Hbj.
    destruct (decide (j / iDivisor p = i / iDivisor p)) as [E|E].
    + rewrite E, list_lookup_insert_eq by (by eapply lookup_lt_Some). rewrite Hhas, Hsub by done.
      f_equal. apply bool_decide_ext. split; [|congruence].
      pose proof (Z.div_mod j _ Hd0) as Hj'. pose proof (Z.div_mod i _ Hd0) as Hi'.
      intros Em. rewrite E, Em in Hj'. congruence.
    + rewrite list_lookup_insert_ne by (intros E'; apply E; apply Z2Nat.inj in E'; lia).
      rewrite bool_decide_eq_false_2 by congruence. by rewrite Hf.
Qed.

Section Divided.
Context (k : nat).
Hypothesis IH : forall fuel p i, wf k p -> (2 * k + 1 <= fuel)%nat -> 0 <= i < iSize p ->
  set_spec k p i (set_from fuel p i).

Lemma set_divided fuel p i : divided k p -> (2 * k + 2 <= fuel)%nat -> 0 <= i < iSize p ->
  exists p', set_from fuel p i = Some p' /\ divided k p' /\ iSize p' = iSize p /\
    forall j, 0 <= j < iSize p -> has (S k) p' j = bool_decide (j = i) || has (S k) p j.
Proof.
  intros Hdiv Hfuel Hi. destruct (divided_inv _ _ Hdiv) as (Hs & Hn & Hd & Hl & Hq).
  destruct (sub_lookup p i ltac:(lia) Hd Hl Hi) as (Hd0 & Hm & sub & Hsub).
  destruct fuel as [|fuel]; [lia|]. cbn [set_from]. rewrite decide_True by (split; [lia|done]).
  rewrite Hsub. cbn [mbind option_bind]. set (q := default (sqlite3BitvecCreate (iDivisor p)) sub).
  assert (wf k q /\ iSize q = iDivisor p) as [Hqw Hqs].
  { unfold q. destruct sub as [q0|]; [destruct (Hq _ _ Hsub); done|]. split; [|done]. apply wf_create.
    rewrite Hd. destruct (ceil_div_range (iSize p) i ltac:(lia) Hi). split; [lia|]. apply ceil_div_level. apply Hn. }
  destruct (IH fuel q (i mod iDivisor p) Hqw) as (q' & -> & Hq'w & Hq's & Hhas); [lia|by rewrite Hqs|].
  cbn [mbind option_bind]. eexists. split; [done|].
  destruct (with_sub_spec k p i q' orb Hdiv Hi Hq'w) as [Hdiv' Hhas']; [by rewrite Hq's| |done|done].
  intros j Hj. rewrite Hhas, Hsub by (by rewrite Hqs). unfold q. f_equal. destruct sub as [q0|]; [done|].
  cbn [default]. apply has_create. lia.
Qed.

(** Filling a divided vector with the values of the old table. *)
Lemma refill_divided fuel vs : (2 * k + 2 <= fuel)%nat -> forall p, divided k p ->
  (forall v, v ∈ vs -> 0 <= v <= iSize p) ->
  exists p', foldM (fun p v => if decide (v <> 0) then set_from fuel p (v - 1) else Some p) p vs = Some p' /\
    divided k p' /\ iSize p' = iSize p /\
    forall j, 0 <= j < iSize p -> has (S k) p' j = bool_decide (j + 1 ∈ vs) || has (S k) p j.
Proof.
  intros Hfuel. induction vs as [|v vs IHvs]; intros p Hdiv Hvs; cbn [foldM].
  { exists p. split; [done|]. split; [done|]. split; [done|]. intros j Hj.
    rewrite bool_decide_eq_false_2 by (by intros ?%elem_of_nil). done. }
  assert (exists p1, (if decide (v <> 0) then set_from fuel p (v - 1) else Some p) = Some p1 /\
    divided k p1 /\ iSize p1 = iSize p /\
    forall j, 0 <= j < iSize p -> has (S k) p1 j = bool_decide (j + 1 = v) || has (S k) p j) as (p1 & -> & H1 & Hs1 & Hh1).
  { assert (0 <= v <= iSize p) by (apply Hvs; left). case_decide.
    - destruct (set_divided fuel p (v - 1) Hdiv Hfuel) as (p1 & -> & H1 & Hs1 & Hh1); [lia|].
      exists p1. split; [done|]. split; [done|]. split; [done|]. intros j Hj. rewrite Hh1 by done.
      f_equal. apply bool_decide_ext. lia.
    - exists p. split; [done|]. split; [done|]. split; [done|]. intros j Hj.
      rewrite bool_decide_eq_false_2 by lia. done. }
  cbn [mbind option_bind]. destruct (IHvs p1 H1) as (p' & -> & H' & Hs' & Hh').
  { intros w Hw. rewrite Hs1. apply Hvs. by right. }
  exists p'. split; [done|]. split; [done|]. split; [by rewrite Hs'|]. intros j Hj.
  rewrite Hh', Hh1, orb_assoc by lia. f_equal. destruct (decide (j + 1 = v)) as [->|].
  - rewrite (bool_decide_eq_true_2 (v = v)), orb_true_r by done. rewrite bool_decide_eq_true_2; [done|]. left.
  - rewrite (bool_decide_eq_false_2 (j + 1 = v)), orb_false_r by done. apply bool_decide_ext.
    rewrite elem_of_cons. naive_solver.
Qed.
End Divided.

(** *** A table *)

Definition tabled (k : nat) (p : Bitvec) : Prop :=
  BITVEC_NBIT < iSize p <= BITVEC_NBIT * BITVEC_NPTR ^ Z.of_nat k /\ iDivisor p = 0 /\
  hash_ok (aHash (u p)) /\ nSet p = Z.of_nat (used (aHash (u p))) /\
  forall v, v ∈ aHash (u p) -> 0 <= v <= iSize p.

Lemma NBIT_pos : 0 < BITVEC_NBIT.
Proof. done. Qed.

Lemma tabled_wf k p : tabled k p -> wf k p.
Proof.
  intros Ht. assert (0 <= iSize p) by (destruct Ht as [[H _] _]; pose proof NBIT_pos; lia).
  destruct k; (split; [done|right; by left]).
Qed.

Lemma has_tabled k p j : tabled k p -> has k p j = bool_decide (j + 1 ∈ aHash (u p)).
Proof.
  intros ([Hs _] & Hd & _). destruct k; cbn [has]; rewrite Hd, decide_False, decide_False by (lia || by intros []); done.
Qed.

Lemma tabled_with_hash k p t n : tabled k p -> hash_ok t -> n = Z.of_nat (used t) ->
  (forall v, v ∈ t -> 0 <= v <= iSize p) -> tabled k (with_hash n t p).
Proof. intros (Hs & Hd & _) Ht Hn Hv. split; [done|]. split; [done|]. split; [done|]. done. Qed.

Lemma divide_divided k p : tabled (S k) p -> divided k (divide p).
Proof.
  intros ([Hs1 Hs2] & Hd & _). assert (0 <= iSize p) by (pose proof NBIT_pos; lia).
  pose proof NBIT_pos. destruct (ceil_div_range (iSize p) 0 Hs1) as [Hc _]; [lia|].
  split; [|change (iDivisor (divide p)) with (ceil_div (iSize p)); lia]. cbn [wf divide iSize iDivisor u apSub].
  split; [done|]. right. right. split; [done|]. split; [done|]. split; [by rewrite length_replicate|].
  intros b q [E _]%lookup_replicate. done.
Qed.

Lemma has_divide k p j : has (S k) (divide p) j = false \/ iDivisor (divide p) = 0.
Proof.
  destruct (decide (iDivisor (divide p) = 0)) as [|Hd]; [by right|left]. cbn [has]. rewrite decide_True by done.
  cbn [divide u apSub]. destruct (replicate _ _ !! _) as [[q|]|] eqn:E; try done. by apply lookup_replicate in E as [? _].
Qed.

(** A value stored at the first free slot. *)
Lemma bitvec_set_end_ok k p i d :
  tabled k p -> 0 <= i < iSize p -> free_at (aHash (u p)) (BITVEC_HASH i) d ->
  (S (used (aHash (u p))) < Z.to_nat BITVEC_NINT)%nat ->
  set_spec k p i (Some (with_hash (nSet p + 1) (<[Z.to_nat (adv (BITVEC_HASH i) d) := i + 1]> (aHash (u p))) p)).
Proof.
  intros Ht Hi Hf Hlt. pose proof Ht as (Hs & Hd & Hok & Hn & Hv). replace i with (i + 1 - 1) in Hf by lia.
  destruct (hash_add_ok _ (i + 1) d Hok ltac:(lia) Hf Hlt) as (Hok' & Hu' & Hin).
  replace (i + 1 - 1) with i in Hok', Hu', Hin by lia. set (t' := <[_ := _]> _) in *.
  assert (tabled k (with_hash (nSet p + 1) t' p)) as Ht'.
  { apply tabled_with_hash; [done|done|lia|]. intros v Hv'. destruct (decide (v = 0)) as [->|Hv0]; [lia|].
    apply Hin in Hv' as [->|Hv']; [lia|auto|done]. }
  eexists. split; [done|]. split; [by apply tabled_wf|]. split; [done|]. intros j Hj.
  rewrite !has_tabled by done. cbn [with_hash u aHash]. rewrite <- bool_decide_or. apply bool_decide_ext.
  rewrite Hin by lia. split; (intros [?|?]; [left; lia|by right]).
Qed.

(** The table divided and filled again. *)
Lemma bitvec_set_rehash_ok k fuel p i :
  (forall fuel p i, wf k p -> (2 * k + 1 <= fuel)%nat -> 0 <= i < iSize p -> set_spec k p i (set_from fuel p i)) ->
  tabled (S k) p -> 0 <= i < iSize p -> (2 * k + 2 <= fuel)%nat ->
  set_spec (S k) p i
    (p' ← set_from fuel (divide p) (i + 1 - 1);
     foldM (fun p v => if decide (v <> 0) then set_from fuel p (v - 1) else Some p) p' (aHash (u p))).
Proof.
  intros IH Ht Hi Hfuel. pose proof (divide_divided k p Ht) as Hdiv. replace (i + 1 - 1) with i by lia.
  destruct (set_divided k IH fuel (divide p) i Hdiv Hfuel Hi) as (p1 & -> & H1 & Hs1 & Hh1).
  cbn [mbind option_bind]. pose proof Ht as (_ & _ & _ & _ & Hv).
  destruct (refill_divided k IH fuel (aHash (u p)) Hfuel p1 H1) as (p' & -> & H' & Hs' & Hh').
  { intros v Hin. rewrite Hs1. by apply Hv. }
  exists p'. split; [done|]. split; [apply H'|]. split; [rewrite Hs'; exact Hs1|]. intros j Hj.
  rewrite Hh' by (rewrite Hs1; exact Hj). rewrite Hh1 by exact Hj. rewrite (has_tabled (S k) p) by done.
  destruct (has_divide k p j) as [->|E]; [|by destruct Hdiv]. rewrite orb_false_r. apply orb_comm.
Qed.

Lemma NBIT_first_level p : ~ tabled 0 p.
Proof. intros ([H1 H2] & _). revert H1 H2. change (BITVEC_NBIT * _) with BITVEC_NBIT. lia. Qed.

Lemma set_from_ok k : forall fuel p i, wf k p -> (2 * k + 1 <= fuel)%nat -> 0 <= i < iSize p ->
  set_spec k p i (set_from fuel p i).
Proof.
  induction k as [|k IH]; intros fuel p i Hw Hfuel Hi; (destruct fuel as [|fuel]; [lia|]);
    (destruct (decide (iSize p <= BITVEC_NBIT)) as [Hsz|Hsz]; [by apply set_bitmap|]).
  - exfalso. destruct Hw as [_ [Hw|[Hw|Hw]]]; [naive_solver|by eapply NBIT_first_level|done].
  - assert (tabled (S k) p \/ divided k p) as [Ht|Hdiv].
    { pose proof Hw as [_ [Hb|[Ht|Hs]]]; [naive_solver|by left|right; split; [done|]].
      destruct Hs as (Hs & -> & _). destruct (ceil_div_range (iSize p) i); lia. }
    + pose proof Ht as (Hs & Hd & Hok & Hn & _). cbn [set_from].
      rewrite decide_False by naive_solver. rewrite decide_False by done.
      destruct (hash_free_at _ (BITVEC_HASH i) Hok) as (d & Hdlt & Hf); [auto|].
      rewrite slot_lookup by (auto; apply Hok). cbn [mbind option_bind]. cbn zeta.
      pose proof (fun H => bitvec_set_end_ok (S k) p i d Ht Hi Hf H) as Hend.
      pose proof (bitvec_set_rehash_ok k fuel p i IH Ht Hi ltac:(lia)) as Hre.
      pose proof (ho_free _ Hok) as Hfree. change BITVEC_NINT with 124 in *. change BITVEC_MXHASH with 62.
      case_decide as Hz.
      * assert (d = O) as -> by (destruct d; [done|exfalso; apply Hf; cbn [seg]; rewrite Hz; left]).
        cbn [adv] in Hend. case_decide; [apply Hend; lia|]. case_decide; [done|lia].
      * destruct d as [|d]; [by destruct Hf|].
        rewrite (hash_probe_spec _ _ _ d) by (auto; try apply Hok; lia). cbn [mbind option_bind].
        replace (seg (aHash (u p)) (BITVEC_HASH i) (S d)) with (seg (aHash (u p)) (BITVEC_HASH (i + 1 - 1)) (S d))
          by (do 2 f_equal; lia).
        case_decide as Hin.
        { apply elem_of_seg in Hin; [|apply Hok|apply Hok|lia|by replace (i + 1 - 1) with i by lia].
          exists p. split; [done|]. split; [done|]. split; [done|]. intros j Hj. rewrite (has_tabled (S k) p) by done.
          destruct (decide (j = i)) as [->|]; [|by rewrite (bool_decide_eq_false_2 (j = i))].
          by rewrite !bool_decide_eq_true_2. }
        case_decide; [done|]. apply Hend. lia.
    + destruct (set_divided k IH (S fuel) p i Hdiv) as (p' & -> & H' & Hs' & Hh'); [lia|done|].
      exists p'. split; [done|]. split; [apply H'|]. done.
Qed.

(** Clearing a bit of a vector that is not divided. *)
Definition clear_spec (k : nat) (p : Bitvec) (i : Z) (r : option Bitvec) : Prop :=
  exists p', r = Some p' /\ wf k p' /\ iSize p' = iSize p /\
    forall j, 0 <= j < iSize p -> has k p' j = negb (bool_decide (j = i)) && has k p j.

Lemma clear_bitmap k p i : wf k p -> iDivisor p = 0 -> iSize p <= BITVEC_NBIT -> 0 <= i < iSize p ->
  clear_spec k p i (clear_from 0 p i).
Proof.
  intros Hw Hd Hsz Hi. cbn [clear_from]. rewrite Hd, decide_False by (by intros []). rewrite decide_True by done.
  assert (bitmap_ok (aBitmap (u p))) as Hb.
  { destruct k; destruct Hw as [Hs [Hw|[Hw|Hw]]]; try done; try (exfalso; lia); naive_solver. }
  destruct (bitmap_lookup _ i Hb) as [b Hl]; [lia|]. rewrite Hl. cbn [mbind option_bind].
  eexists. split; [done|]. set (b' := u8 _).
  assert (bitmap_ok (<[Z.to_nat (i / BITVEC_SZELEM) := b']> (aBitmap (u p)))) as Hb'
    by (unfold bitmap_ok; by rewrite length_insert).
  split; [destruct k; (split; [cbn; lia|left; cbn; naive_solver])|]. split; [done|].
  intros j Hj. assert (has k p j = bitmap_has (aBitmap (u p)) j) as ->.
  { destruct k; cbn [has]; rewrite Hd, decide_False, decide_True by (done || by intros []); done. }
  rewrite <- (bitmap_clear_bit _ _ _ _ Hl) by lia.
  destruct k; cbn [has with_bitmap iDivisor iSize u aBitmap];
    rewrite Hd, decide_False, decide_True by (done || by intros []); done.
Qed.

Lemma clear_table k p i : tabled k p -> 0 <= i < iSize p -> clear_spec k p i (clear_from 0 p i).
Proof.
  intros Ht Hi. pose proof Ht as ([Hs _] & Hd & Hok & _ & Hv). cbn [clear_from].
  rewrite Hd, decide_False by (by intros []). rewrite decide_False by lia. destruct hash_empty as [He Hu0].
  destruct (hash_refill_ok (aHash (u p)) (i + 1) 0 _ He) as (t' & -> & Hok' & _ & Hin).
  { by rewrite Hu0. } { rewrite Hu0. apply Hok. }
  cbn [mbind option_bind]. eexists. split; [done|].
  assert (forall w, w <> 0 -> w ∈ t' <-> w ∈ aHash (u p) /\ w <> i + 1) as Hin'.
  { intros w Hw0. rewrite Hin by done. rewrite elem_of_replicate. naive_solver. }
  assert (tabled k (with_hash (Z.of_nat (used t')) t' p)) as Ht'.
  { apply tabled_with_hash; [done|done|done|]. intros v Hv'. destruct (decide (v = 0)) as [->|]; [lia|].
    apply Hin' in Hv' as [? _]; auto. }
  split; [by apply tabled_wf|]. split; [done|]. intros j Hj. rewrite !has_tabled by done. cbn [with_hash u aHash].
  rewrite <- bool_decide_not, <- bool_decide_and. apply bool_decide_ext. rewrite Hin' by lia.
  split; intros [? ?]; split; (done || lia).
Qed.

Lemma clear_flat k fuel p i : wf k p -> iDivisor p = 0 -> 0 <= i < iSize p ->
  clear_spec k p i (clear_from fuel p i).
Proof.
  intros Hw Hd Hi. assert (clear_from fuel p i = clear_from 0 p i) as ->.
  { destruct fuel; cbn [clear_from]; rewrite Hd; by rewrite !(decide_False (P := 0 <> 0)) by (by intros []). }
  destruct (decide (iSize p <= BITVEC_NBIT)); [by apply clear_bitmap|]. apply clear_table; [|done].
  destruct k; destruct Hw as [Hs [Hw|[Hw|Hw]]]; try done; try (exfalso; lia).
  destruct Hw as (Hn & Hd' & _). destruct (ceil_div_range (iSize p) i); lia.
Qed.

Lemma clear_from_ok k : forall fuel p i, wf k p -> (k <= fuel)%nat -> 0 <= i < iSize p ->
  clear_spec k p i (clear_from fuel p i).
Proof.
  induction k as [|k IH]; intros fuel p i Hw Hfuel Hi.
  { apply clear_flat; [done| |done]. destruct Hw as [_ [Hw|[Hw|Hw]]]; naive_solver. }
  destruct (decide (iDivisor p = 0)) as [Hd0|Hd0]; [by apply clear_flat|].
  assert (divided k p) as Hdiv by done. destruct (divided_inv _ _ Hdiv) as (Hs & Hn & Hd & Hl & Hq).
  destruct (sub_lookup p i ltac:(lia) Hd Hl Hi) as (_ & Hm & sub & Hsub).
  destruct fuel as [|fuel]; [lia|]. cbn [clear_from]. rewrite decide_True by done. rewrite Hsub. cbn [mbind option_bind].
  destruct sub as [q|].
  - destruct (Hq _ _ Hsub) as [Hqs Hqw].
    destruct (IH fuel q (i mod iDivisor p) Hqw) as (q' & -> & Hq'w & Hq's & Hhas); [lia|by rewrite Hqs|].
    cbn [mbind option_bind]. eexists. split; [done|].
    destruct (with_sub_spec k p i q' (fun b c => negb b && c) Hdiv Hi Hq'w) as [Hdiv' Hhas']; [by rewrite Hq's| |done|].
    + intros j Hj. rewrite Hsub. apply Hhas. by rewrite Hqs.
    + split; [apply Hdiv'|]. done.
  - exists p. split; [done|]. split; [done|]. split; [done|]. intros j Hj.
    destruct (decide (j = i)) as [->|]; [|by rewrite bool_decide_eq_false_2].
    cbn [has]. rewrite decide_True by done. rewrite Hsub. by rewrite andb_false_r.
Qed.

(** ** The set a vector implements *)

Inductive bv_op := SetBit (i : Z) | ClearBit (i : Z).

Definition run_op (p : option Bitvec) (o : bv_op) : option (option Bitvec) :=
  match o with SetBit i => sqlite3BitvecSet p i | ClearBit i => sqlite3BitvecClear p i end.

Definition spec_op (s : gset Z) (o : bv_op) : gset Z :=
  match o with SetBit i => {[i]} ∪ s | ClearBit i => s ∖ {[i]} end.

Definition op_bit (o : bv_op) : Z := match o with SetBit i | ClearBit i => i end.

(** A vector of [n] bits that holds the set [s] of 1-based bits. *)
Record implements (p : Bitvec) (n : Z) (s : gset Z) : Prop := {
  im_wf : wf 4 p;
  im_size : iSize p = n;
  im_has j : 0 <= j < n -> has 4 p j = bool_decide (j + 1 ∈ s);
  im_range i : i ∈ s -> 1 <= i <= n
}.

Lemma implements_create n : in_u 32 n -> implements (sqlite3BitvecCreate n) n ∅.
Proof.
  intros Hn. unfold in_u in Hn. split; [|done| |intros i Hi; set_solver].
  - apply wf_create. change (BITVEC_NBIT * BITVEC_NPTR ^ Z.of_nat 4) with 58632501248. lia.
  - intros j Hj. by rewrite has_create by lia.
Qed.

Lemma implements_op p n s o : implements p n s -> 1 <= op_bit o <= n ->
  exists p', run_op (Some p) o = Some (Some p') /\ implements p' n (spec_op s o).
Proof.
  intros [Hw Hs Hh Hr] Ho. destruct o as [i|i]; cbn [run_op spec_op op_bit] in *.
  - unfold sqlite3BitvecSet. rewrite decide_True by lia.
    destruct (set_from_ok 4 DEPTH p (i - 1) Hw) as (p' & -> & Hw' & Hs' & Hh'); [vm_compute; lia|lia|].
    exists p'. split; [done|]. split; [done|by rewrite Hs'| |].
    + intros j Hj. rewrite Hh', Hh, <- bool_decide_or by lia. apply bool_decide_ext.
      rewrite elem_of_union, elem_of_singleton. split; (intros [?|?]; [left; lia|by right]).
    + intros j. rewrite elem_of_union, elem_of_singleton. intros [->|]; auto.
  - unfold sqlite3BitvecClear. rewrite decide_True by lia.
    destruct (clear_from_ok 4 DEPTH p (i - 1) Hw) as (p' & -> & Hw' & Hs' & Hh'); [vm_compute; lia|lia|].
    exists p'. split; [done|]. split; [done|by rewrite Hs'| |].
    + intros j Hj. rewrite Hh', Hh, <- bool_decide_not, <- bool_decide_and by lia. apply bool_decide_ext.
      rewrite elem_of_difference, elem_of_singleton. split; intros [? ?]; split; (done || lia).
    + intros j [Hj _]%elem_of_difference. auto.
Qed.

Lemma implements_test p n s i : implements p n s -> in_u 32 n -> in_u 32 i ->
  sqlite3BitvecTest (Some p) i = Some (bool_decide (i ∈ s)).
Proof.
  intros [Hw Hs Hh Hr] Hn Hi. unfold sqlite3BitvecTest, sqlite3BitvecTestNotNull. rewrite Hs.
  unfold in_u in *. destruct (decide (i = 0)) as [->|Hi0].
  { change (u32 (0 - 1)) with (2 ^ 32 - 1). rewrite decide_True by lia. f_equal.
    symmetry. apply bool_decide_eq_false_2. intros ?%Hr. lia. }
  rewrite wrapu_id by (unfold in_u; lia). case_decide.
  - f_equal. symmetry. apply bool_decide_eq_false_2. intros ?%Hr. lia.
  - rewrite (test_from_has 4) by (done || lia || vm_compute; lia). rewrite Hh by lia. do 2 f_equal. apply bool_decide_ext.
    by replace (i - 1 + 1) with i by lia.
Qed.

(** C25: A bit vector of any size is a set.  From a new vector, any sequence
    of sets and clears of bits in range succeeds (every loop over the hash
    table ends, and the recursion is no deeper than the fuel), and then a
    test of any 32-bit index answers whether it is in the set the same
    sequence makes, through all three representations and the passages
    between them. *)
Theorem bitvec_is_a_set n ops :
  in_u 32 n -> Forall (fun o => 1 <= op_bit o <= n) ops ->
  exists p, foldM run_op (Some (sqlite3BitvecCreate n)) ops = Some (Some p) /\ sqlite3BitvecSize p = n /\
    forall i, in_u 32 i -> sqlite3BitvecTest (Some p) i = Some (bool_decide (i ∈ foldl spec_op ∅ ops)).
Proof.
  intros Hn Hops. pose proof (implements_create n Hn) as Him. revert Him.
  generalize (sqlite3BitvecCreate n), (∅ : gset Z). induction Hops as [|o ops Ho _ IH]; intros p s Him; cbn [foldM foldl].
  - exists p. split; [done|]. split; [apply Him|]. intros i Hi. by eapply implements_test.
  - destruct (implements_op p n s o Him Ho) as (p' & -> & Him'). cbn [mbind option_bind]. by apply IH.
Qed.

(** 200 bits, spread so that the table is divided, and one cleared. *)
Definition sample_ops : list bv_op :=
  ((fun k => SetBit ((Z.of_nat k * 124) mod 100000 + 1)) <$> seq 0 200) ++ [ClearBit 249].

Lemma bitvec_is_a_set_witness :
  exists p, foldM run_op (Some (sqlite3BitvecCreate 100000)) sample_ops = Some (Some p) /\
    iDivisor p = 1613 /\ sqlite3BitvecTest (Some p) 125 = Some true /\ sqlite3BitvecTest (Some p) 249 = Some false.
Proof.
  destruct (bitvec_is_a_set 100000 sample_ops) as (p & Hp & _ & Ht).
  - apply (bool_decide_unpack _). vm_compute. exact I.
  - apply (bool_decide_unpack _). vm_compute. exact I.
  - exists p. split; [exact Hp|]. split.
    + revert Hp. vm_compute. intros [= <-]. reflexivity.
    + rewrite !Ht by (apply (bool_decide_unpack _); vm_compute; exact I). split; vm_compute; reflexivity.
Defined.
