(* ===== verification/SqlText.v ===== *)
(** * Characters of SQL text

    [sqlite/sqlite3.c] (global.c, util.c): the character tables and the
    case-insensitive comparisons that identifiers, keywords and hash keys go
    through.

    A C string is the list of its bytes before the terminating NUL. *)

From S2P Require Import Prelude Bits.

(** ** Tables *)

Definition sqlite3UpperToLower : list Z :=
  [ 0; 1; 2; 3; 4; 5; 6; 7; 8; 9; 10; 11; 12; 13; 14; 15; 16; 17;
    18; 19; 20; 21; 22; 23; 24; 25; 26; 27; 28; 29; 30; 31; 32; 33; 34; 35;
    36; 37; 38; 39; 40; 41; 42; 43; 44; 45; 46; 47; 48; 49; 50; 51; 52; 53;
    54; 55; 56; 57; 58; 59; 60; 61; 62; 63; 64; 97; 98; 99; 100; 101; 102; 103;
    104; 105; 106; 107; 108; 109; 110; 111; 112; 113; 114; 115; 116; 117; 118; 119; 120; 121;
    122; 91; 92; 93; 94; 95; 96; 97; 98; 99; 100; 101; 102; 103; 104; 105; 106; 107;
    108; 109; 110; 111; 112; 113; 114; 115; 116; 117; 118; 119; 120; 121; 122; 123; 124; 125;
    126; 127; 128; 129; 130; 131; 132; 133; 134; 135; 136; 137; 138; 139; 140; 141; 142; 143;
    144; 145; 146; 147; 148; 149; 150; 151; 152; 153; 154; 155; 156; 157; 158; 159; 160; 161;
    162; 163; 164; 165; 166; 167; 168; 169; 170; 171; 172; 173; 174; 175; 176; 177; 178; 179;
    180; 181; 182; 183; 184; 185; 186; 187; 188; 189; 190; 191; 192; 193; 194; 195; 196; 197;
    198; 199; 200; 201; 202; 203; 204; 205; 206; 207; 208; 209; 210; 211; 212; 213; 214; 215;
    216; 217; 218; 219; 220; 221; 222; 223; 224; 225; 226; 227; 228; 229; 230; 231; 232; 233;
    234; 235; 236; 237; 238; 239; 240; 241; 242; 243; 244; 245; 246; 247; 248; 249; 250; 251;
    252; 253; 254; 255 ].

Definition sqlite3CtypeMap : list Z :=
  [ 0; 0; 0; 0; 0; 0; 0; 0; 0; 1; 1; 1; 1; 1; 0; 0;
    0; 0; 0; 0; 0; 0; 0; 0; 0; 0; 0; 0; 0; 0; 0; 0;
    1; 0; 128; 0; 64; 0; 0; 128; 0; 0; 0; 0; 0; 0; 0; 0;
    12; 12; 12; 12; 12; 12; 12; 12; 12; 12; 0; 0; 0; 0; 0; 0;
    0; 10; 10; 10; 10; 10; 10; 2; 2; 2; 2; 2; 2; 2; 2; 2;
    2; 2; 2; 2; 2; 2; 2; 2; 2; 2; 2; 128; 0; 0; 0; 64;
    128; 42; 42; 42; 42; 42; 42; 34; 34; 34; 34; 34; 34; 34; 34; 34;
    34; 34; 34; 34; 34; 34; 34; 34; 34; 34; 34; 0; 0; 0; 0; 0;
    64; 64; 64; 64; 64; 64; 64; 64; 64; 64; 64; 64; 64; 64; 64; 64;
    64; 64; 64; 64; 64; 64; 64; 64; 64; 64; 64; 64; 64; 64; 64; 64;
    64; 64; 64; 64; 64; 64; 64; 64; 64; 64; 64; 64; 64; 64; 64; 64;
    64; 64; 64; 64; 64; 64; 64; 64; 64; 64; 64; 64; 64; 64; 64; 64;
    64; 64; 64; 64; 64; 64; 64; 64; 64; 64; 64; 64; 64; 64; 64; 64;
    64; 64; 64; 64; 64; 64; 64; 64; 64; 64; 64; 64; 64; 64; 64; 64;
    64; 64; 64; 64; 64; 64; 64; 64; 64; 64; 64; 64; 64; 64; 64; 64;
    64; 64; 64; 64; 64; 64; 64; 64; 64; 64; 64; 64; 64; 64; 64; 64 ].

Definition UpperToLower (c : Z) : Z := default 0 (sqlite3UpperToLower !! Z.to_nat c).

(** [sqlite3CtypeMap[(unsigned char)(x)]&bit]. *)
Definition ctype (bit x : Z) : bool :=
  bool_decide (Z.land (default 0 (sqlite3CtypeMap !! Z.to_nat (u8 x))) bit <> 0).

Definition sqlite3Toupper (x : Z) : Z :=
  Z.land x (Z.lnot (Z.land (default 0 (sqlite3CtypeMap !! Z.to_nat (u8 x))) 0x20)).

Definition sqlite3Isspace (x : Z) : bool := ctype 0x01 x.

Definition sqlite3Isalnum (x : Z) : bool := ctype 0x06 x.

Definition sqlite3Isalpha (x : Z) : bool := ctype 0x02 x.

Definition sqlite3Isdigit (x : Z) : bool := ctype 0x04 x.

Definition sqlite3Isxdigit (x : Z) : bool := ctype 0x08 x.

Definition sqlite3Tolower (x : Z) : Z := UpperToLower (u8 x).

Definition sqlite3Isquote (x : Z) : bool := ctype 0x80 x.

(** ** Comparisons *)

(** [*p] for a pointer into a string; the NUL is read as 0. *)
Definition peek (z : bytes) : Z := match z with c :: _ => c | [] => 0 end.

(** The loop [for(;;)] of [sqlite3StrICmp]; it ends at the latest at a NUL. *)
Fixpoint sqlite3StrICmp (a b : bytes) : Z :=
  match a, b with
  | c :: a, x :: b =>
      if decide (c = x) then sqlite3StrICmp a b
      else
        let d := UpperToLower c - UpperToLower x in
        if decide (d <> 0) then d else sqlite3StrICmp a b
  | _, _ => UpperToLower (peek a) - UpperToLower (peek b)
  end.

Definition sqlite3_stricmp (zLeft zRight : option bytes) : Z :=
  match zLeft, zRight with
  | None, Some _ => -1
  | None, None => 0
  | Some _, None => 1
  | Some zLeft, Some zRight => sqlite3StrICmp zLeft zRight
  end.

(** [N] as the loop test finds it: [N-- > 0] leaves [N - 1]. *)
Fixpoint strnicmp_loop (a b : bytes) (N : Z) : Z :=
  let stop := if decide (N - 1 < 0) then 0 else UpperToLower (peek a) - UpperToLower (peek b) in
  match a with
  | c :: a =>
      if decide (0 < N /\ c <> 0 /\ UpperToLower c = UpperToLower (peek b)) then strnicmp_loop a (tail b) (N - 1)
      else stop
  | [] => stop
  end.

Definition sqlite3_strnicmp (zLeft zRight : option bytes) (N : Z) : Z :=
  match zLeft, zRight with
  | None, Some _ => -1
  | None, None => 0
  | Some _, None => 1
  | Some zLeft, Some zRight => strnicmp_loop zLeft zRight N
  end.

Definition sqlite3StrIHash (z : option bytes) : Z :=
  match z with
  | None => 0
  | Some z => fold_left (fun h c => u8 (h + UpperToLower c)) z 0
  end.

(** ** Folding *)

(** A character of a string is a byte other than NUL. *)
Definition char_ok (c : Z) : Prop := 0 < c < 256.

Definition str_ok (z : bytes) : Prop := Forall char_ok z.

Definition fold_case (z : bytes) : bytes := UpperToLower <$> z.

Lemma bytes_forall (P : Z -> Prop) :
  Forall P (Z.of_nat <$> seq 0 256) -> forall c, 0 <= c < 256 -> P c.
Proof.
  intros Hall c Hc. rewrite Forall_forall in Hall. apply Hall.
  apply list_elem_of_fmap. exists (Z.to_nat c). split; [lia|]. apply elem_of_seq. lia.
Qed.

(** The fold is the ASCII one. *)
Lemma UpperToLower_ascii c : 0 <= c < 256 -> UpperToLower c = if decide (65 <= c <= 90) then c + 32 else c.
Proof. revert c. apply bytes_forall. apply (bool_decide_unpack _). vm_compute. exact I. Qed.

Lemma UpperToLower_0 c : 0 <= c < 256 -> UpperToLower c = 0 <-> c = 0.
Proof. intros Hc. rewrite UpperToLower_ascii by done. case_decide; lia. Qed.

Lemma UpperToLower_range c : 0 <= c < 256 -> 0 <= UpperToLower c < 256.
Proof. intros Hc. rewrite UpperToLower_ascii by done. case_decide; lia. Qed.

(** The flags of [toupper] mark the lower-case letters. *)
Lemma sqlite3Toupper_ascii c : 0 <= c < 256 -> sqlite3Toupper c = if decide (97 <= c <= 122) then c - 32 else c.
Proof. revert c. apply bytes_forall. apply (bool_decide_unpack _). vm_compute. exact I. Qed.

Lemma sqlite3StrICmp_0 a b : str_ok a -> str_ok b -> sqlite3StrICmp a b = 0 <-> fold_case a = fold_case b.
Proof.
  unfold str_ok, char_ok. intros Ha. revert b. induction Ha as [|c a Hc Ha IH]; intros b Hb; destruct Hb as [|x b Hx Hb];
    cbn [sqlite3StrICmp peek]; unfold fold_case; rewrite ?fmap_cons, ?fmap_nil.
  - done.
  - split; [|done]. pose proof (UpperToLower_0 x ltac:(lia)). change (UpperToLower 0) with 0. lia.
  - split; [|done]. pose proof (UpperToLower_0 c ltac:(lia)). change (UpperToLower 0) with 0. lia.
  - case_decide as E; [|case_decide as Ed].
    + subst. rewrite IH by done. unfold fold_case. split; [by intros ->|by intros [= ->]].
    + split; [done|]. intros [= E1 _]. lia.
    + rewrite IH by done. unfold fold_case. split; [intros ->; f_equal; lia|by intros [= _ ->]].
Qed.

Lemma sqlite3StrIHash_fold a b : fold_case a = fold_case b -> sqlite3StrIHash (Some a) = sqlite3StrIHash (Some b).
Proof.
  intros E. unfold sqlite3StrIHash. generalize 0. revert b E.
  induction a as [|c a IH]; intros [|x b] E h; try done. cbn [fold_left]. injection E as E1 E2. rewrite E1. by apply IH.
Qed.

(** With enough characters asked for, [strnicmp] is [stricmp]. *)
Lemma strnicmp_stricmp a b N : str_ok a -> str_ok b -> Z.of_nat (length a) < N -> Z.of_nat (length b) < N ->
  (strnicmp_loop a b N = 0 <-> sqlite3StrICmp a b = 0).
Proof.
  intros Ha. revert b N. induction Ha as [|c a Hc Ha IH]; intros b N Hb Hla Hlb; destruct Hb as [|x b Hx Hb];
    cbn [strnicmp_loop sqlite3StrICmp peek tail length] in *; unfold char_ok in *; try (rewrite decide_False by lia; done).
  - rewrite (decide_False (P := 0 < N /\ _)).
    + by rewrite decide_False by lia.
    + intros (_ & _ & E). pose proof (UpperToLower_0 c ltac:(lia)). assert (UpperToLower 0 = 0) by done. lia.
  - destruct (decide (UpperToLower c = UpperToLower x)) as [E|E].
    + rewrite decide_True by (split; [lia|split; [lia|done]]). rewrite IH by (done || lia).
      case_decide; [done|]. by rewrite decide_False by lia.
    + rewrite (decide_False (P := 0 < N /\ _)) by (intros (_ & _ & ?); done). rewrite decide_False by lia.
      case_decide as E'; [by subst|]. by rewrite decide_True by lia.
Qed.
