(* ===== verification/SqlHash.v ===== *)
(** * Hash tables with string keys

    [sqlite/sqlite3.c] (hash.c), the table SQLite finds tables, functions and
    collations in.  All elements are on one doubly linked list; the elements of
    a bucket are neighbours on it, the bucket has a pointer to the first of
    them and their number.

    Elements live in a store indexed by location: following an invalid
    pointer, or breaking one of the asserts, is [None].  Every allocation may
    fail; its outcome is an argument. *)

From S2P Require Import Prelude SqlText.

Abbreviation loc := positive.

(** [data] is a pointer, 0 for [NULL]. *)
Record HashElem := { next : option loc; prev : option loc; data : Z; pKey : bytes }.

Record bucket := { b_count : Z; chain : option loc }.

Record Hash := { htsize : Z; count : Z; first : option loc; ht : option (list bucket) }.

Abbreviation heap := (gmap loc HashElem).

Abbreviation state := (Hash * heap)%type.

Definition sqlite3HashInit : Hash := {| htsize := 0; count := 0; first := None; ht := None |}.

Definition set_next (n : option loc) (e : HashElem) : HashElem :=
  {| next := n; prev := prev e; data := data e; pKey := pKey e |}.

Definition set_prev (p : option loc) (e : HashElem) : HashElem :=
  {| next := next e; prev := p; data := data e; pKey := pKey e |}.

(** A field assignment [x->f = v]. *)
Definition assign (x : loc) (f : HashElem -> HashElem) (m : heap) : option heap :=
  e ← m !! x; Some (<[x := f e]> m).

(** The loop of [sqlite3HashClear] that frees every element. *)
Fixpoint free_all (fuel : nat) (elem : option loc) (m : heap) : option heap :=
  match elem with
  | None => Some m
  | Some x =>
      match fuel with
      | O => None
      | S fuel => e ← m !! x; free_all fuel (next e) (delete x m)
      end
  end.

Definition sqlite3HashClear (st : state) : option state :=
  let '(pH, m) := st in
  m ← free_all (size m) (first pH) m;
  Some (sqlite3HashInit, m).

Definition strHash (z : bytes) : Z :=
  fold_left (fun h c => u32 (u32 (h + UpperToLower c) * 0x9e3779b1)) z 0.

(** ** Insertion into the list *)

(** The second half of [insertElement]: [x] goes before [pHead], or to the
    front of the list. *)
Definition link (pHead : option loc) (x : loc) (first : option loc) (m : heap) : option (option loc * heap) :=
  match pHead with
  | Some y =>
      head ← m !! y;
      m ← assign x (set_next (Some y)) m;
      m ← assign x (set_prev (prev head)) m;
      '(first, m) ← match prev head with
                    | Some z => m ← assign z (set_next (Some x)) m; Some (first, m)
                    | None => Some (Some x, m)
                    end;
      m ← assign y (set_prev (Some x)) m;
      Some (first, m)
  | None =>
      m ← assign x (set_next first) m;
      m ← match first with Some f => assign f (set_prev (Some x)) m | None => Some m end;
      m ← assign x (set_prev None) m;
      Some (Some x, m)
  end.

(** [pEntry] is the number of the bucket, if there is one. *)
Definition insertElement (pEntry : option Z) (x : loc) (st : state) : option state :=
  let '(pH, m) := st in
  '(pHead, t) ← match pEntry with
                | None => Some (None, ht pH)
                | Some h =>
                    bs ← ht pH;
                    b ← bs !! Z.to_nat h;
                    Some (if decide (b_count b <> 0) then chain b else None,
                          Some (<[Z.to_nat h := {| b_count := u32 (b_count b + 1); chain := Some x |}]> bs))
                end;
  '(f, m) ← link pHead x (first pH) m;
  Some ({| htsize := htsize pH; count := count pH; first := f; ht := t |}, m).

(** ** Resizing *)

Definition SQLITE_MALLOC_SOFT_LIMIT : Z := 1024.

(** [sizeof(struct _ht)]. *)
Definition SIZEOF_HT : Z := 16.

(** The loop of [rehash] over the old list. *)
Fixpoint reinsert (fuel : nat) (elem : option loc) (st : state) : option state :=
  match elem with
  | None => Some st
  | Some x =>
      match fuel with
      | O => None
      | S fuel =>
          e ← st.2 !! x;
          let h := strHash (pKey e) mod htsize st.1 in
          st ← insertElement (Some h) x st;
          reinsert fuel (next e) st
      end
  end.

(** [alloc n] is the usable size of a block allocated for [n] bytes, [None]
    when there is no memory. *)
Definition rehash (alloc : Z -> option Z) (new_size : Z) (st : state) : option (bool * state) :=
  let '(pH, m) := st in
  let new_size := if decide (SQLITE_MALLOC_SOFT_LIMIT < new_size * SIZEOF_HT)
                  then SQLITE_MALLOC_SOFT_LIMIT / SIZEOF_HT else new_size in
  if decide (new_size = htsize pH) then Some (false, st)
  else match alloc (new_size * SIZEOF_HT) with
       | None => Some (false, st)
       | Some sz =>
           let new_size := sz / SIZEOF_HT in
           let new_ht := replicate (Z.to_nat new_size) {| b_count := 0; chain := None |} in
           st ← reinsert (size m) (first pH)
                  ({| htsize := new_size; count := count pH; first := None; ht := Some new_ht |}, m);
           Some (true, st)
       end.

(** ** Search *)

(** The loop [while( count )]. *)
Fixpoint search (count : nat) (elem : option loc) (key : bytes) (m : heap) : option (option loc) :=
  match count with
  | O => Some None
  | S count =>
      x ← elem;
      e ← m !! x;
      if decide (sqlite3StrICmp (pKey e) key = 0) then Some (Some x) else search count (next e) key m
  end.

(** The element and the hash; no element stands for [&nullElement]. *)
Definition findElementWithHash (st : state) (key : bytes) : option (option loc * Z) :=
  let '(pH, m) := st in
  '(elem, n, h) ← match ht pH with
                  | Some bs =>
                      let h := strHash key mod htsize pH in
                      b ← bs !! Z.to_nat h;
                      Some (chain b, b_count b, h)
                  | None => Some (first pH, count pH, 0)
                  end;
  r ← search (Z.to_nat n) elem key m;
  Some (r, h).

Definition data_at (m : heap) (elem : option loc) : option Z :=
  match elem with None => Some 0 | Some x => e ← m !! x; Some (data e) end.

Definition sqlite3HashFind (st : state) (key : bytes) : option Z :=
  '(elem, _) ← findElementWithHash st key;
  data_at st.2 elem.

(** ** Removal *)

(** The part on [pH->ht]: [x], with successor [nx], leaves bucket [h]. *)
Definition leave_bucket (x : loc) (nx : option loc) (h : Z) (t : option (list bucket)) : option (option (list bucket)) :=
  match t with
  | Some bs =>
      b ← bs !! Z.to_nat h;
      let c := if decide (chain b = Some x) then nx else chain b in
      if decide (0 < b_count b) then Some (Some (<[Z.to_nat h := {| b_count := b_count b - 1; chain := c |}]> bs))
      else None
  | None => Some None
  end.

Definition removeElementGivenHash (x : loc) (h : Z) (st : state) : option state :=
  let '(pH, m) := st in
  e ← m !! x;
  '(f, m) ← match prev e with
            | Some p => m ← assign p (set_next (next e)) m; Some (first pH, m)
            | None => Some (next e, m)
            end;
  m ← match next e with Some n => assign n (set_prev (prev e)) m | None => Some m end;
  t ← leave_bucket x (next e) h (ht pH);
  let m := delete x m in
  let pH := {| htsize := htsize pH; count := u32 (count pH - 1); first := f; ht := t |} in
  if decide (count pH = 0) then
    if decide (first pH = None) then sqlite3HashClear (pH, m) else None
  else Some (pH, m).

(** ** Insertion *)

(** The outcomes of the two allocations of an insertion. *)
Record memory_outcome := { elem_ok : bool; ht_alloc : Z -> option Z }.

Definition set_entry (d : Z) (key : bytes) (e : HashElem) : HashElem :=
  {| next := next e; prev := prev e; data := d; pKey := key |}.

(** The old data, or 0; the new data when there is no memory. *)
Definition sqlite3HashInsert (mem : memory_outcome) (key : bytes) (d : Z) (st : state) : option (Z * state) :=
  '(elem, h) ← findElementWithHash st key;
  old ← data_at st.2 elem;
  if decide (old <> 0) then
    x ← elem;
    if decide (d = 0) then st ← removeElementGivenHash x h st; Some (old, st)
    else m ← assign x (set_entry d key) st.2; Some (old, (st.1, m))
  else if decide (d = 0) then Some (0, st)
  else if negb (elem_ok mem) then Some (d, st)
  else
    let '(pH, m) := st in
    let x := fresh (dom m) in
    let m := <[x := {| next := None; prev := None; data := d; pKey := key |}]> m in
    let pH := {| htsize := htsize pH; count := u32 (count pH + 1); first := first pH; ht := ht pH |} in
    '(resized, st) ← (if decide (10 <= count pH /\ u32 (2 * htsize pH) < count pH)
                      then rehash (ht_alloc mem) (u32 (count pH * 2)) (pH, m) else Some (false, (pH, m)));
    let h := if resized : bool then strHash key mod htsize st.1 else h in
    st ← insertElement (match ht st.1 with Some _ => Some h | None => None end) x st;
    Some (0, st).

(** ** The list as a heap *)

(** An element of the list: where it is, its key and its data. *)
Definition entry : Type := loc * bytes * Z.

Definition e_loc (e : entry) : loc := e.1.1.

Definition e_key (e : entry) : bytes := e.1.2.

Definition e_data (e : entry) : Z := e.2.

Definition hd_loc (L : list entry) (n : option loc) : option loc :=
  match L with e :: _ => Some (e_loc e) | [] => n end.

Fixpoint last_loc (p : option loc) (L : list entry) : option loc :=
  match L with [] => p | e :: L => last_loc (Some (e_loc e)) L end.

Definition elem_of_entry (p n : option loc) (e : entry) : HashElem :=
  {| next := n; prev := p; data := e_data e; pKey := e_key e |}.

(** The heap of a list whose neighbours are [p] and [n]. *)
Fixpoint heap_of (p : option loc) (L : list entry) (n : option loc) : heap :=
  match L with
  | [] => ∅
  | e :: L => <[e_loc e := elem_of_entry p (hd_loc L n) e]> (heap_of (Some (e_loc e)) L n)
  end.

Definition locs (L : list entry) : list loc := e_loc <$> L.

Lemma dom_heap_of p L n : dom (heap_of p L n) = list_to_set (locs L).
Proof. revert p. induction L as [|e L IH]; intros p; cbn [heap_of locs]; [set_solver|]. rewrite dom_insert_L, IH. done. Qed.

Lemma heap_of_None p L n x : x ∉ locs L -> heap_of p L n !! x = None.
Proof. intros Hx. apply not_elem_of_dom. rewrite dom_heap_of. set_solver. Qed.

Lemma hd_loc_app L1 L2 n : hd_loc (L1 ++ L2) n = hd_loc L1 (hd_loc L2 n).
Proof. by destruct L1. Qed.

Lemma heap_of_app p L1 L2 n : NoDup (locs (L1 ++ L2)) ->
  heap_of p (L1 ++ L2) n = heap_of p L1 (hd_loc L2 n) ∪ heap_of (last_loc p L1) L2 n.
Proof.
  revert p. induction L1 as [|e L1 IH]; intros p Hnd; cbn [heap_of app last_loc]; [by rewrite (left_id_L ∅ _)|].
  apply NoDup_cons in Hnd as [_ Hnd]. rewrite IH, hd_loc_app, insert_union_l by done. done.
Qed.

Lemma heap_of_snoc p L z n : NoDup (locs (L ++ [z])) ->
  heap_of p (L ++ [z]) n = <[e_loc z := elem_of_entry (last_loc p L) n z]> (heap_of p L (Some (e_loc z))).
Proof.
  intros Hnd. rewrite heap_of_app by done. cbn [heap_of hd_loc]. rewrite insert_empty.
  rewrite map_union_comm; [by rewrite insert_union_singleton_l|].
  apply map_disjoint_singleton_r. apply heap_of_None. unfold locs in *. rewrite fmap_app in Hnd.
  apply NoDup_app in Hnd as (_ & Hd & _). intros Hin. apply (Hd _ Hin). left.
Qed.

(** Looking up an entry with its neighbours. *)
Lemma heap_of_middle p L1 e L2 n : NoDup (locs (L1 ++ e :: L2)) ->
  heap_of p (L1 ++ e :: L2) n !! e_loc e = Some (elem_of_entry (last_loc p L1) (hd_loc L2 n) e).
Proof.
  intros Hnd. rewrite heap_of_app by done. cbn [heap_of].
  rewrite lookup_union_r; [by rewrite lookup_insert_eq|].
  apply heap_of_None. unfold locs in *. rewrite fmap_app in Hnd.
  apply NoDup_app in Hnd as (_ & Hd & _). intros Hin. apply (Hd _ Hin). left.
Qed.

(** The list [A ++ x :: B] made from [A ++ B] and a cell for [x], given the
    heap of the rest [F]. *)
Definition frame_ok (L : list entry) (F : heap) : Prop := forall x, x ∈ locs L -> F !! x = None.

Lemma assign_eq x f (m : heap) e m' : m !! x = Some e -> m' = <[x := f e]> m -> assign x f m = Some m'.
Proof. intros H ->. unfold assign. by rewrite H. Qed.

Lemma heap_of_ext_last p L z n n' : NoDup (locs (L ++ [z])) ->
  <[e_loc z := elem_of_entry (last_loc p L) n' z]> (heap_of p (L ++ [z]) n) = heap_of p (L ++ [z]) n'.
Proof. intros Hnd. by rewrite !heap_of_snoc, insert_insert_eq by done. Qed.

Lemma heap_of_ext_head p p' e L n :
  <[e_loc e := elem_of_entry p' (hd_loc L n) e]> (heap_of p (e :: L) n) = heap_of p' (e :: L) n.
Proof. cbn [heap_of]. by rewrite insert_insert_eq. Qed.

Lemma locs_app A B : locs (A ++ B) = locs A ++ locs B.
Proof. apply fmap_app. Qed.

#[export] Instance locs_perm : Proper ((≡ₚ) ==> (≡ₚ)) locs.
Proof. intros L L' H. unfold locs. by rewrite H. Qed.

(** The assignments of [link], with the pointers they follow. *)
Lemma link_middle (m : heap) x y z c yc zc f : x <> y -> z <> x -> z <> y ->
  m !! x = Some c -> m !! y = Some yc -> prev yc = Some z -> m !! z = Some zc ->
  link (Some y) x f m
  = Some (f, <[y := set_prev (Some x) yc]> (<[z := set_next (Some x) zc]>
               (<[x := {| next := Some y; prev := Some z; data := data c; pKey := pKey c |}]> m))).
Proof. intros ??? Hx Hy Hp Hz. unfold link, assign. rewrite Hy, Hx. cbn [mbind option_bind]. simplify_map_eq. by rewrite insert_insert_eq. Qed.

Lemma link_first (m : heap) x y c yc f : x <> y ->
  m !! x = Some c -> m !! y = Some yc -> prev yc = None ->
  link (Some y) x f m
  = Some (Some x, <[y := set_prev (Some x) yc]>
                    (<[x := {| next := Some y; prev := None; data := data c; pKey := pKey c |}]> m)).
Proof. intros ? Hx Hy Hp. unfold link, assign. rewrite Hy, Hx. cbn [mbind option_bind]. simplify_map_eq. by rewrite insert_insert_eq. Qed.

Lemma link_front (m : heap) x y c yc : x <> y ->
  m !! x = Some c -> m !! y = Some yc -> prev yc = None -> link None x (Some y) m = link (Some y) x (Some y) m.
Proof.
  intros ? Hx Hy Hp. rewrite (link_first m x y c yc) by done. unfold link, assign. rewrite Hx. simplify_map_eq.
  do 2 f_equal. rewrite insert_insert_ne by done. by rewrite insert_insert_eq.
Qed.

Lemma union_delete (h F : heap) x : is_Some (h !! x) -> h ∪ F = h ∪ delete x F.
Proof.
  intros [v Hv]. apply map_eq. intros w. rewrite !lookup_union. destruct (decide (w = x)) as [->|].
  - rewrite Hv. by destruct (F !! x), (delete x F !! x).
  - by rewrite lookup_delete_ne.
Qed.

(** [x] goes before [y]. *)
Lemma link_before A y B x c F :
  NoDup (locs (A ++ y :: B)) -> x ∉ locs (A ++ y :: B) -> F !! x = Some c ->
  link (Some (e_loc y)) x (hd_loc (A ++ y :: B) None) (heap_of None (A ++ y :: B) None ∪ F)
  = Some (hd_loc (A ++ (x, pKey c, data c) :: y :: B) None,
          heap_of None (A ++ (x, pKey c, data c) :: y :: B) None ∪ delete x F).
Proof.
  intros Hnd Hx HFx. set (xe := (x, pKey c, data c)).
  assert (Hnd' : NoDup (locs (A ++ xe :: y :: B))).
  { rewrite locs_app in *. cbn. rewrite <- Permutation_middle. by apply NoDup_cons. }
  pose proof (heap_of_None None _ None x Hx) as Hmx.
  pose proof (heap_of_middle None A y B None Hnd) as Hmy.
  pose proof Hnd as Hnd0. rewrite locs_app in Hnd, Hx. cbn in Hnd, Hx.
  apply NoDup_app in Hnd as (HndA & Hdis & HndB).
  assert (Hxy : x <> e_loc y) by set_solver.
  assert (HmFx : (heap_of None (A ++ y :: B) None ∪ F) !! x = Some c) by by rewrite lookup_union_r.
  pose proof (lookup_union_Some_l _ F _ _ Hmy) as HmFy.
  pose proof (heap_of_ext_head (last_loc None A) (Some x) y B None) as Ey.
  destruct A as [|z A _] using rev_ind.
  - rewrite (link_first _ _ _ _ _ _ Hxy HmFx HmFy) by done. do 2 f_equal.
    rewrite !insert_union_l, insert_insert_ne by done. cbn [app]. setoid_rewrite Ey.
    apply union_delete, lookup_insert_is_Some'. by left.
  - assert (Hyz : e_loc z <> e_loc y) by (intros E; apply (Hdis (e_loc z)); rewrite ?locs_app, ?E; set_solver).
    assert (Hxz : e_loc z <> x) by (rewrite locs_app in Hx; set_solver).
    assert (HhA : forall n w, w ∉ locs (A ++ [z]) -> heap_of None (A ++ [z]) n !! w = None) by (intros; by apply heap_of_None).
    assert (Hmz : (heap_of None ((A ++ [z]) ++ y :: B) None ∪ F) !! e_loc z
                  = Some (elem_of_entry (last_loc None A) (Some (e_loc y)) z)).
    { apply lookup_union_Some_l. rewrite <- app_assoc in *. by apply heap_of_middle. }
    assert (Hlast : last_loc None (A ++ [z]) = Some (e_loc z)).
    { clear. revert z. generalize (@None loc). induction A as [|a A IH]; intros p z; [done|]. cbn. apply IH. }
    rewrite Hlast in *.
    rewrite (link_middle _ _ _ (e_loc z) _ _ _ _ Hxy Hxz Hyz HmFx HmFy (eq_refl _) Hmz). do 2 f_equal; [by destruct A|].
    rewrite (heap_of_app None (A ++ [z]) (y :: B)), (heap_of_app None (A ++ [z]) (xe :: y :: B)), Hlast by done. cbn [hd_loc]. change (e_loc xe) with x.
    rewrite <- (heap_of_ext_last None A z (Some (e_loc y)) (Some x)) by done.
    rewrite <- (union_delete _ F x). 2: { apply lookup_union_is_Some. right. apply lookup_insert_is_Some'. by left. }
    rewrite !insert_union_l. f_equal. rewrite <- !insert_union_l.
    rewrite (insert_union_r _ _ x) by (apply HhA; set_solver). rewrite !(insert_union_l _ _ (e_loc z)).
    rewrite insert_union_r by (rewrite lookup_insert_ne by done; apply HhA; set_solver).
    f_equal. rewrite insert_insert_ne by done. change (set_prev (Some x) (elem_of_entry (Some (e_loc z)) (hd_loc B None) y)) with (elem_of_entry (Some x) (hd_loc B None) y). by rewrite Ey.
Qed.

(** [x] goes to the front. *)
Lemma link_none L x c F :
  NoDup (locs L) -> x ∉ locs L -> F !! x = Some c ->
  link None x (hd_loc L None) (heap_of None L None ∪ F)
  = Some (hd_loc ((x, pKey c, data c) :: L) None,
          heap_of None ((x, pKey c, data c) :: L) None ∪ delete x F).
Proof.
  intros Hnd Hx HFx. destruct L as [|y B].
  - cbn. unfold link, assign. rewrite (left_id_L ∅ _). simplify_map_eq. do 2 f_equal.
    rewrite insert_insert_eq, <- insert_union_l, (left_id_L ∅ _). apply map_eq. intros w.
    destruct (decide (w = x)) as [->|]; [by simplify_map_eq|]. by rewrite !lookup_insert_ne, lookup_delete_ne by done.
  - assert (Hxy : x <> e_loc y) by (cbn in Hx; set_solver).
    pose proof (link_before [] y B x c F Hnd Hx HFx) as Hl. cbn [app] in Hl. rewrite <- Hl. clear Hl.
    pose proof (heap_of_middle None [] y B None Hnd) as Hmy. cbn [app last_loc] in Hmy.
    cbn [hd_loc]. apply (link_front _ _ _ c (elem_of_entry None (hd_loc B None) y) Hxy); [|by apply lookup_union_Some_l|done].
    rewrite lookup_union_r; [done|]. by apply heap_of_None.
Qed.

Lemma last_loc_snoc p A z : last_loc p (A ++ [z]) = Some (e_loc z).
Proof. revert p. induction A as [|a A IH]; intros p; [done|]. cbn. apply IH. Qed.

(** The neighbours of a removed element become neighbours. *)
Lemma unlink_next A x B : NoDup (locs (A ++ x :: B)) ->
  (match last_loc None A with
   | Some p => m ← assign p (set_next (hd_loc B None)) (heap_of None (A ++ x :: B) None);
               Some (hd_loc (A ++ x :: B) None, m)
   | None => Some (hd_loc B None, heap_of None (A ++ x :: B) None)
   end) = Some (hd_loc (A ++ B) None, heap_of None A (hd_loc B None) ∪ heap_of (last_loc None A) (x :: B) None).
Proof.
  intros Hnd. destruct A as [|z A _] using rev_ind; [cbn [last_loc app heap_of]; by rewrite (left_id_L ∅ _)|].
  assert (HndA : NoDup (locs (A ++ [z]))) by (rewrite locs_app in Hnd; apply NoDup_app in Hnd; tauto).
  pose proof Hnd as Hz. rewrite <- app_assoc in Hz. apply (heap_of_middle None A z (x :: B) None) in Hz.
  change (A ++ z :: x :: B) with (A ++ [z] ++ x :: B) in Hz. rewrite (app_assoc A [z] (x :: B)) in Hz. rewrite (heap_of_app _ (A ++ [z])) in * by done. rewrite last_loc_snoc in *.
  rewrite (assign_eq _ _ _ _ _ Hz (eq_refl _)). cbn [mbind option_bind]. f_equal. f_equal; [by destruct A|].
  rewrite insert_union_l. f_equal. by apply (heap_of_ext_last None A z (hd_loc (x :: B) None)).
Qed.

Lemma unlink_prev A x B : NoDup (locs (A ++ x :: B)) ->
  let m := heap_of None A (hd_loc B None) ∪ heap_of (last_loc None A) (x :: B) None in
  exists m', match hd_loc B None with Some n => assign n (set_prev (last_loc None A)) m | None => Some m end = Some m'
             /\ delete (e_loc x) m' = heap_of None (A ++ B) None.
Proof.
  intros Hnd m. pose proof Hnd as Hnd0. rewrite locs_app in Hnd. cbn in Hnd. apply NoDup_app in Hnd as (HndA & Hdis & HndB).
  apply NoDup_cons in HndB as [HxB HndB].
  assert (HndAB : NoDup (locs (A ++ B))).
  { rewrite locs_app. apply NoDup_app. split; [done|]. split; [|done]. intros w Hw Hw'. apply (Hdis w Hw). by right. }
  assert (HxA : forall n, heap_of None A n !! e_loc x = None).
  { intros n. apply heap_of_None. intros Hin. apply (Hdis _ Hin). left. }
  destruct B as [|b B]; cbn [hd_loc] in *.
  - exists m. split; [done|]. subst m. cbn [heap_of]. rewrite delete_union, (delete_id (heap_of None A None)) by done.
    by rewrite delete_insert_id, (right_id_L ∅ _), app_nil_r by done.
  - exists (<[e_loc b := elem_of_entry (last_loc None A) (hd_loc B None) b]> m).
    assert (Hbx : e_loc b <> e_loc x) by (cbn in HxB; set_solver).
    assert (HbA : heap_of None A (Some (e_loc b)) !! e_loc b = None).
    { apply heap_of_None. intros Hin. apply (Hdis _ Hin). right. left. }
    split.
    + refine (assign_eq _ _ _ (elem_of_entry (Some (e_loc x)) (hd_loc B None) b) _ _ (eq_refl _)).
      subst m. rewrite lookup_union_r by done. cbn [heap_of]. rewrite lookup_insert_ne by done. by rewrite lookup_insert_eq.
    + subst m. rewrite delete_insert_ne by done. rewrite delete_union, (delete_id (heap_of None A _)) by done.
      rewrite insert_union_r, heap_of_app by done. f_equal. cbn [heap_of]. rewrite delete_insert_id.
      * by rewrite insert_insert_eq.
      * rewrite lookup_insert_ne by done. apply heap_of_None. set_solver.
Qed.

(** ** The buckets *)

Section Buckets.
  Context (sz : Z).

Definition slot (e : entry) : Z := strHash (e_key e) mod sz.

(** The elements of bucket [h] are neighbours; the chain starts with the first
    one and means nothing when there is none. *)
Definition bucket_ok (L : list entry) (h : Z) (b : bucket) : Prop :=
  exists A g B, L = A ++ g ++ B /\ Forall (fun e => slot e <> h) A /\ Forall (fun e => slot e = h) g
                /\ Forall (fun e => slot e <> h) B
                /\ b_count b = Z.of_nat (length g) /\ (g <> [] -> chain b = hd_loc g None).

Definition buckets_ok (L : list entry) (bs : list bucket) : Prop :=
  0 < sz /\ Z.of_nat (length bs) = sz /\ forall i b, bs !! i = Some b -> bucket_ok L (Z.of_nat i) b.

Lemma bucket_insert L1 L2 x h b : bucket_ok (L1 ++ L2) h b -> slot x <> h ->
  L1 = [] \/ (exists y L, L2 = y :: L /\ slot y <> h) -> bucket_ok (L1 ++ x :: L2) h b.
Proof.
  intros (A & g & B & E & HA & Hg & HB & Hc & Hch) Hx Hpos.
  destruct Hpos as [->|(y & L & -> & Hy)].
  { exists (x :: A), g, B. cbn in *. rewrite E. split; [done|]. split; [by constructor|]. done. }
  apply app_eq_app in E as (k & [[-> E]|[-> E]]).
  - symmetry in E. apply app_eq_app in E as (k2 & [[-> ->]|[-> E]]).
    + exists A, g, (k2 ++ x :: y :: L). rewrite <- !app_assoc. split; [done|]. split; [done|]. split; [done|].
      apply Forall_app in HB as [HB1 HB2]. split; [|done]. apply Forall_app. split; [done|]. by constructor.
    + destruct k2 as [|y' k2].
      * exists A, k, (x :: B). rewrite app_nil_r in *. cbn in E. subst. rewrite <- app_assoc. split; [done|]. split; [done|]. split; [done|].
        split; [by constructor|]. done.
      * injection E as <- ->. apply Forall_app in Hg as [_ Hg]. apply Forall_cons in Hg as [Hg _]. done.
  - exists (L1 ++ x :: k), g, B. rewrite E, <- app_assoc. split; [done|]. split; [|done].
    apply Forall_app in HA as [HA1 HA2]. apply Forall_app. split; [done|]. by constructor.
Qed.

(** The place of [x] in the list: before its bucket, if that has elements. *)
Lemma buckets_insert L bs x : buckets_ok L bs -> Z.of_nat (length L) + 1 < 2 ^ 32 ->
  exists b L1 L2, bs !! Z.to_nat (slot x) = Some b /\ L = L1 ++ L2
    /\ (if decide (b_count b <> 0) then chain b else None) = (if decide (b_count b <> 0) then hd_loc L2 None else None)
    /\ (b_count b = 0 -> L1 = []) /\ (b_count b <> 0 -> L2 <> [])
    /\ buckets_ok (L1 ++ x :: L2)
         (<[Z.to_nat (slot x) := {| b_count := u32 (b_count b + 1); chain := Some (e_loc x) |}]> bs).
Proof.
  intros (Hsz & Hlen & Hbs) Hcnt.
  assert (Hs : 0 <= slot x < sz) by (apply Z.mod_pos_bound; lia).
  destruct (lookup_lt_is_Some_2 bs (Z.to_nat (slot x))) as [b Hb]; [lia|].
  pose proof (Hbs _ _ Hb) as Hok. rewrite Z2Nat.id in Hok by lia.
  destruct Hok as (A & g & B & -> & HA & Hg & HB & Hc & Hch).
  assert (Hcase : exists L1 L2, A ++ g ++ B = L1 ++ L2 /\ (g = [] /\ L1 = [] \/ g <> [] /\ L1 = A /\ L2 = g ++ B)).
  { destruct g; [exists [], (A ++ [] ++ B); auto|]. eexists A, (_ ++ B). split; [done|]. right. done. }
  destruct Hcase as (L1 & L2 & E & Hcase). exists b, L1, L2. split; [done|]. split; [done|].
  assert (u32 (b_count b + 1) = b_count b + 1) as ->.
  { apply wrapu_id. rewrite !length_app in Hcnt. unfold in_u. lia. }
  assert (Hg0 : b_count b = 0 <-> g = []) by (rewrite Hc; destruct g; cbn; split; (done || lia)).
  split.
  { case_decide as Hz; [|done]. destruct Hcase as [[-> _]|(Hne & -> & ->)]; [tauto|]. rewrite Hch by done. by destruct g. }
  split; [intros Hz; destruct Hcase as [[_ ?]|[? _]]; tauto|].
  split; [intros Hz; destruct Hcase as [[? _]|(Hne & _ & ->)]; [tauto|by destruct g]|].
  split; [done|]. split; [by rewrite length_insert|].
  intros i b' Hi. apply list_lookup_insert_Some in Hi as [(<- & <- & _)|[Hne Hi]].
  - rewrite Z2Nat.id by lia. destruct Hcase as [(-> & ->)|(Hne & -> & ->)].
    + exists [], [x], (A ++ B). cbn in *. rewrite <- E. split; [done|]. split; [constructor|]. split; [by repeat constructor|].
      split; [by apply Forall_app|]. rewrite Hc. done.
    + exists A, (x :: g), B. split; [done|]. split; [done|]. split; [by constructor|]. split; [done|]. cbn [length b_count]. rewrite Hc. split; [lia|done].
  - apply Hbs in Hi. rewrite E in Hi. assert (Z.of_nat i <> slot x) by (intros E'; apply Hne; lia).
    apply bucket_insert; [done|done|]. destruct Hcase as [(_ & ->)|(Hneg & -> & ->)]; [by left|right].
    destruct g as [|y g]; [done|]. apply Forall_cons in Hg as [Hy _]. exists y, (g ++ B). split; [done|]. congruence.
Qed.

Lemma Forall_keep (P : entry -> Prop) x L : Forall P L -> Forall P (filter (fun e : entry => e <> x) L).
Proof.
  intros H. induction H as [|e L He H IH]; [constructor|]. rewrite filter_cons. case_decide; [by constructor|done].
Qed.

(** An element is removed. *)
Lemma buckets_remove L bs x b n : buckets_ok L bs -> NoDup (locs L) -> x ∈ L ->
  bs !! Z.to_nat (slot x) = Some b ->
  (forall L1 L2, L = L1 ++ x :: L2 -> n = hd_loc L2 None) ->
  0 < b_count b /\
  buckets_ok (filter (fun e : entry => e <> x) L)
    (<[Z.to_nat (slot x) := {| b_count := b_count b - 1;
                               chain := if decide (chain b = Some (e_loc x)) then n else chain b |}]> bs).
Proof.
  intros (Hsz & Hlen & Hbs) Hnd Hx Hb Hn.
  assert (Hs : 0 <= slot x < sz) by (apply Z.mod_pos_bound; lia).
  pose proof (Hbs _ _ Hb) as Hok. rewrite Z2Nat.id in Hok by lia.
  destruct Hok as (A & g & B & -> & HA & Hg & HB & Hc & Hch).
  assert (Hxg : x ∈ g).
  { rewrite !elem_of_app in Hx. rewrite Forall_forall in HA, HB. destruct Hx as [Hx|[Hx|Hx]]; [by apply HA in Hx|done|by apply HB in Hx]. }
  apply list_elem_of_split in Hxg as (g1 & g2 & ->).
  assert (HndL : NoDup (A ++ (g1 ++ x :: g2) ++ B)) by (by eapply NoDup_fmap_1).
  assert (Hfil : forall K : list entry, x ∉ K -> filter (fun e : entry => e <> x) K = K).
  { intros K HK. induction K as [|e K IH]; [done|]. rewrite filter_cons, decide_True by set_solver. f_equal. apply IH. set_solver. }
  assert (Hother : forall K : list entry, Forall (fun e => slot e <> slot x) K -> x ∉ K).
  { intros K HK Hin. rewrite Forall_forall in HK. by apply HK in Hin. }
  split; [rewrite Hc, length_app; cbn; lia|]. split; [done|]. split; [by rewrite length_insert|].
  intros i b' Hi. apply list_lookup_insert_Some in Hi as [(<- & <- & _)|[Hne Hi]].
  - rewrite Z2Nat.id by lia. exists A, (g1 ++ g2), B.
    rewrite !filter_app, filter_cons, decide_False by (intros ?; done).
    assert (x ∉ g1 /\ x ∉ g2) as [Hg1 Hg2].
    { apply NoDup_app in HndL as (_ & _ & HndL). apply NoDup_app in HndL as (HndL & _ & _).
      rewrite <- Permutation_middle in HndL. apply NoDup_cons in HndL as [HndL _]. set_solver. }
    rewrite !Hfil by auto. split; [done|]. split; [done|].
    apply Forall_app in Hg as [HFg1 HFg2]. apply Forall_cons in HFg2 as [_ HFg2].
    split; [by apply Forall_app|]. split; [done|]. cbn [b_count chain]. rewrite Hc, !length_app. cbn [length].
    split; [lia|]. intros Hne. rewrite Hch by (by destruct g1). destruct g1 as [|e g1].
    + cbn [app hd_loc]. rewrite decide_True by done. rewrite (Hn A (g2 ++ B)) by by rewrite <- app_assoc. by destruct g2.
    + cbn [app hd_loc]. rewrite decide_False; [done|]. intros E.
      assert (e <> x) by set_solver. rewrite !locs_app in Hnd. apply NoDup_app in Hnd as (_ & _ & Hnd).
      cbn in Hnd. injection E as E. apply NoDup_cons in Hnd as [Hnd _]. apply Hnd. rewrite E. set_solver.
  - apply Hbs in Hi as (A' & g' & B' & E' & HA' & Hg' & HB' & Hc' & Hch'). rewrite E'.
    assert (Z.of_nat i <> slot x) by (intros E''; apply Hne; lia).
    exists (filter (fun e : entry => e <> x) A'), g', (filter (fun e : entry => e <> x) B').
    rewrite !filter_app. rewrite (Hfil g') by (intros Hin; rewrite Forall_forall in Hg'; apply Hg' in Hin; congruence).
    split; [done|]. split; [by apply Forall_keep|]. split; [done|]. split; [by apply Forall_keep|]. done.
Qed.

End Buckets.

(** ** Inserting *)

Definition table_ok (sz : Z) (L : list entry) (t : option (list bucket)) : Prop :=
  match t with None => sz = 0 | Some bs => buckets_ok sz L bs end.

Definition slot_of (sz : Z) (t : option (list bucket)) (key : bytes) : option Z :=
  match t with Some _ => Some (strHash key mod sz) | None => None end.

(** The state whose list is [L]; [F] is the rest of the heap. *)
Definition hash_at (sz n : Z) (t : option (list bucket)) (L : list entry) (F : heap) : state :=
  ({| htsize := sz; count := n; first := hd_loc L None; ht := t |}, heap_of None L None ∪ F).

Lemma insertElement_ok sz n t L F x c : NoDup (locs L) -> x ∉ locs L -> F !! x = Some c ->
  table_ok sz L t -> Z.of_nat (length L) + 1 < 2 ^ 32 ->
  exists L1 L2 t', L = L1 ++ L2
    /\ insertElement (slot_of sz t (pKey c)) x (hash_at sz n t L F)
       = Some (hash_at sz n t' (L1 ++ (x, pKey c, data c) :: L2) (delete x F))
    /\ table_ok sz (L1 ++ (x, pKey c, data c) :: L2) t' /\ (t' = None <-> t = None).
Proof.
  intros Hnd Hx Hc Ht Hlen. unfold insertElement, hash_at, slot_of, table_ok in *. cbn [first ht htsize count].
  destruct t as [bs|].
  - destruct (buckets_insert sz L bs (x, pKey c, data c) Ht Hlen) as (b & L1 & L2 & Hb & -> & Ehd & HL1 & HL2 & Hbs').
    unfold slot in Hb, Hbs'. cbn [e_key e_loc fst snd] in Hb, Hbs'.
    exists L1, L2. eexists (Some _). split; [done|].
    cbn [mbind option_bind]. rewrite Hb. cbn [mbind option_bind]. rewrite Ehd.
    split; [|split; [exact Hbs'|done]].
    destruct (decide (b_count b <> 0)) as [Hb0|Hb0].
    + destruct L2 as [|y L2]; [by destruct (HL2 Hb0)|]. cbn [hd_loc]. rewrite (link_before L1 y L2 x c) by done. done.
    + rewrite (HL1 (dec_stable Hb0)) in *. cbn [app] in *. rewrite (link_none L2 x c) by done. done.
  - exists [], L, None. split; [done|]. cbn [mbind option_bind app]. rewrite (link_none L x c) by done. done.
Qed.

(** The forward links of the elements [R]. *)
Fixpoint chained (m : heap) (R : list entry) : Prop :=
  match R with
  | [] => True
  | e :: R => (exists p, m !! e_loc e = Some (elem_of_entry p (hd_loc R None) e)) /\ chained m R
  end.

Lemma chained_app m A B : chained m (A ++ B) -> chained m B.
Proof. induction A as [|e A IH]; [done|]. cbn. intros [_ H]. by apply IH. Qed.

Lemma chained_heap L p F : NoDup (locs L) -> chained (heap_of p L None ∪ F) L.
Proof.
  assert (forall m A, m = heap_of p (A ++ L) None ∪ F -> NoDup (locs (A ++ L)) -> chained m L) as H.
  { induction L as [|e L IH]; intros m A -> Hnd; [done|]. split.
    - eexists. by apply lookup_union_Some_l, heap_of_middle.
    - apply (IH _ (A ++ [e])); by rewrite <- app_assoc. }
  intros. by apply (H _ []).
Qed.

Lemma chained_ext m m' R : chained m R -> (forall x, x ∈ locs R -> m' !! x = m !! x) -> chained m' R.
Proof.
  induction R as [|e R IH]; [done|]. cbn. intros [[p Hp] Hm] Heq. split; [exists p; rewrite Heq; [done|set_solver]|].
  apply IH; [done|]. intros. apply Heq. set_solver.
Qed.

(** [reinsert] moves the elements [R], still linked in the frame, to the new
    list. *)
Lemma reinsert_ok sz n bs R : forall fuel P F,
  (length R <= fuel)%nat -> NoDup (locs (R ++ P)) -> chained F R -> buckets_ok sz P bs ->
  frame_ok P F -> Z.of_nat (length (R ++ P)) + 1 < 2 ^ 32 ->
  exists L' bs' F', reinsert fuel (hd_loc R None) (hash_at sz n (Some bs) P F) = Some (hash_at sz n (Some bs') L' F')
    /\ L' ≡ₚ R ++ P /\ buckets_ok sz L' bs' /\ forall x, F' !! x = if decide (x ∈ locs R) then None else F !! x.
Proof.
  revert bs. induction R as [|e R IH]; intros bs fuel P F Hfuel Hnd Hch Hbs HF Hlen.
  - exists P, bs, F. split; [by destruct fuel|]. split; [done|]. split; [done|]. intros x. by rewrite decide_False by apply not_elem_of_nil.
  - destruct fuel as [|fuel]; [cbn in Hfuel; lia|]. cbn in Hfuel, Hnd. destruct Hch as [[p Hp] Hch].
    apply NoDup_cons in Hnd as [He Hnd]. fold (locs (R ++ P)) in He, Hnd. rewrite locs_app in He, Hnd.
    assert (HeP : e_loc e ∉ locs P) by set_solver. apply NoDup_app in Hnd as (HndR & Hdis & HndP).
    assert (Hlp : Z.of_nat (length P) + 1 < 2 ^ 32) by (rewrite length_app in Hlen; lia).
    destruct (insertElement_ok sz n (Some bs) P F (e_loc e) _ HndP HeP Hp Hbs Hlp) as (L1 & L2 & t' & -> & Hins & Ht' & Hsome).
    destruct t' as [bs'|]; [|by discriminate (proj1 Hsome eq_refl)].
    cbn [reinsert hd_loc hash_at snd fst htsize].
    rewrite lookup_union_r by by apply heap_of_None. rewrite Hp. cbn [mbind option_bind elem_of_entry pKey next].
    cbn [slot_of elem_of_entry pKey data] in Hins. cbn [elem_of_entry pKey data] in Ht'.
    rewrite Hins. cbn [mbind option_bind].
    replace (e_loc e, e_key e, e_data e) with e in * by by destruct e as [[? ?] ?].
    destruct (IH bs' fuel (L1 ++ e :: L2) (delete (e_loc e) F)) as (L' & bs'' & F' & Hre & Hperm & Hbs'' & HF').
    + lia.
    + rewrite <- (Permutation_middle L1 L2 e), locs_app. cbn. apply NoDup_app. split; [done|]. split; [set_solver|].
      by apply NoDup_cons.
    + apply (chained_ext F); [done|]. intros x Hx. apply lookup_delete_ne. set_solver.
    + done.
    + intros x. rewrite !locs_app. cbn. intros Hx. apply lookup_delete_None. destruct (decide (e_loc e = x)); [by left|right].
      apply HF. rewrite locs_app. set_solver.
    + rewrite !length_app in Hlen |- *. cbn [length] in *. lia.
    + exists L', bs'', F'. split; [done|]. split; [rewrite Hperm; rewrite <- (Permutation_middle L1 L2 e); by rewrite <- Permutation_middle|].
      split; [done|]. intros x. rewrite HF'. cbn [locs fmap list_fmap]. fold (locs R).
      destruct (decide (x = e_loc e)) as [->|Hne].
      * rewrite (decide_True (P := e_loc e ∈ e_loc e :: _)) by set_solver. rewrite lookup_delete_eq. by case_decide.
      * rewrite lookup_delete_ne by done. destruct (decide (x ∈ locs R)); [by rewrite decide_True by set_solver|].
        by rewrite decide_False by set_solver.
Qed.

(** What [malloc] promises: at least the size asked for, at most what an
    [int] counts. *)
Definition alloc_ok (alloc : Z -> option Z) : Prop := forall n sz, 0 < n -> alloc n = Some sz -> n <= sz < 2 ^ 31.

Lemma size_heap_of p L n : NoDup (locs L) -> size (heap_of p L n) = length L.
Proof.
  intros Hnd. rewrite <- (size_dom (heap_of p L n)), dom_heap_of, size_list_to_set by done. apply length_fmap.
Qed.

(** Resizing a table while a new element, outside the list, is being added. *)
Lemma rehash_ok alloc new_size sz n t L x c :
  alloc_ok alloc -> 0 < new_size -> NoDup (locs (L)) -> x ∉ locs L -> table_ok sz L t ->
  Z.of_nat (length L) + 1 < 2 ^ 32 ->
  exists r sz' t' L', rehash alloc new_size (hash_at sz n t L {[x := c]}) = Some (r, hash_at sz' n t' L' {[x := c]})
    /\ L' ≡ₚ L /\ table_ok sz' L' t' /\ (r = false -> sz' = sz /\ t' = t) /\ (r = true -> t' <> None).
Proof.
  intros Halloc Hns Hnd Hx Ht Hlen. unfold rehash. cbn [hash_at htsize count first ht].
  set (ns := if decide (SQLITE_MALLOC_SOFT_LIMIT < new_size * SIZEOF_HT) then SQLITE_MALLOC_SOFT_LIMIT / SIZEOF_HT else new_size).
  assert (Hns' : 0 < ns).
  { subst ns. case_decide; [by vm_compute|done]. }
  assert (Hfail : exists r sz' t' L', Some (false, hash_at sz n t L {[x := c]}) = Some (r, hash_at sz' n t' L' {[x := c]})
    /\ L' ≡ₚ L /\ table_ok sz' L' t' /\ (r = false -> sz' = sz /\ t' = t) /\ (r = true -> t' <> None)).
  { by exists false, sz, t, L. }
  case_decide; [done|]. destruct (alloc (ns * SIZEOF_HT)) as [s|] eqn:Ea; [|done]. clear Hfail.
  apply Halloc in Ea; [|unfold SIZEOF_HT; lia].
  assert (Hs : 0 < s / SIZEOF_HT) by (apply Z.div_str_pos; unfold SIZEOF_HT in *; lia).
  set (F := heap_of None L None ∪ {[x := c]}).
  destruct (reinsert_ok (s / SIZEOF_HT) n (replicate (Z.to_nat (s / SIZEOF_HT)) {| b_count := 0; chain := None |})
              L (size F) [] F) as (L' & bs' & F' & Hre & Hperm & Hbs' & HF').
  - unfold F. rewrite map_size_disj_union, size_heap_of; [lia|done|].
    apply map_disjoint_singleton_r_2. by apply heap_of_None.
  - by rewrite app_nil_r.
  - by apply chained_heap.
  - split; [done|]. split; [rewrite length_replicate; lia|]. intros i b Hi. apply lookup_replicate in Hi as [-> _].
    exists [], [], []. done.
  - intros y Hy. by apply not_elem_of_nil in Hy.
  - by rewrite app_nil_r.
  - assert (F' = {[x := c]}) as ->.
    { apply map_eq. intros y. rewrite HF'. unfold F. case_decide as Hy.
      - symmetry. apply lookup_singleton_ne. congruence.
      - rewrite lookup_union_r; [done|]. by apply heap_of_None. }
    exists true, (s / SIZEOF_HT), (Some bs'), L'. rewrite app_nil_r in Hperm.
    unfold hash_at in Hre at 1. cbn [hd_loc heap_of] in Hre. rewrite (left_id_L ∅ _) in Hre. rewrite Hre. done.
Qed.

(** ** Searching *)

Fixpoint find_key (key : bytes) (L : list entry) : option entry :=
  match L with
  | [] => None
  | e :: L => if decide (fold_case (e_key e) = fold_case key) then Some e else find_key key L
  end.

Definition entry_ok (e : entry) : Prop := str_ok (e_key e) /\ e_data e <> 0.

Lemma find_key_Some key L e : find_key key L = Some e -> e ∈ L /\ fold_case (e_key e) = fold_case key.
Proof. induction L as [|e' L IH]; [done|]. cbn. case_decide; [intros [= ->]; split; [left|done]|]. intros H'. apply IH in H'. set_solver. Qed.

Lemma find_key_app key A B : Forall (fun e => fold_case (e_key e) <> fold_case key) A -> find_key key (A ++ B) = find_key key B.
Proof. induction 1 as [|e A He HA IH]; [done|]. cbn. by rewrite decide_False. Qed.

Lemma find_key_app_l key A B : Forall (fun e => fold_case (e_key e) <> fold_case key) B -> find_key key (A ++ B) = find_key key A.
Proof.
  intros HB. induction A as [|e A IH]; cbn; [|by rewrite IH].
  rewrite <- (app_nil_r B). by rewrite find_key_app.
Qed.

Lemma search_ok key m g B : str_ok key -> Forall entry_ok g -> chained m (g ++ B) ->
  search (length g) (hd_loc (g ++ B) None) key m = Some (e_loc <$> find_key key g).
Proof.
  intros Hk. induction g as [|e g IH]; intros Hg Hch; [done|]. cbn [length app hd_loc search find_key].
  apply Forall_cons in Hg as [[He _] Hg]. destruct Hch as [[p Hp] Hch].
  cbn [mbind option_bind]. rewrite Hp. cbn [elem_of_entry pKey next mbind option_bind].
  pose proof (sqlite3StrICmp_0 (e_key e) key He Hk) as Hcmp.
  destruct (decide (fold_case (e_key e) = fold_case key)); [by rewrite decide_True by tauto|].
  rewrite decide_False by tauto. by apply IH.
Qed.

(** Equal keys have equal hashes. *)
Lemma strHash_fold a b : fold_case a = fold_case b -> strHash a = strHash b.
Proof.
  intros E. unfold strHash. generalize 0. revert b E.
  induction a as [|c a IH]; intros [|x b] E h; try done. cbn [fold_left]. injection E as E1 E2. rewrite E1. by apply IH.
Qed.

Lemma find_ok sz n t L F key : NoDup (locs L) -> Forall entry_ok L -> str_ok key -> n = Z.of_nat (length L) ->
  table_ok sz L t ->
  findElementWithHash (hash_at sz n t L F) key = Some (e_loc <$> find_key key L, default 0 (slot_of sz t key)).
Proof.
  intros Hnd HL Hk -> Ht. pose proof (chained_heap L None F Hnd) as Hch.
  unfold findElementWithHash, hash_at, slot_of, table_ok in *. cbn [ht htsize first count].
  destruct t as [bs|]; cbn [mbind option_bind default].
  - destruct Ht as (Hsz & Hlen & Hbs). set (h := strHash key mod sz).
    assert (Hh : 0 <= h < sz) by (apply Z.mod_pos_bound; lia).
    destruct (lookup_lt_is_Some_2 bs (Z.to_nat h)) as [b Hb]; [lia|].
    pose proof (Hbs _ _ Hb) as (A & g & B & -> & HA & Hg & HB & Hc & Hchain).
    rewrite Z2Nat.id in HA, HB, Hg by lia. rewrite Hb. cbn [mbind option_bind]. rewrite Hc, Nat2Z.id.
    assert (Hother : forall K, Forall (fun e => slot sz e <> h) K -> Forall (fun e => fold_case (e_key e) <> fold_case key) K).
    { intros K HK. apply (list.Forall_impl _ _ _ HK). intros e He Ef. apply He. unfold slot, h. by rewrite (strHash_fold _ _ Ef). }
    rewrite find_key_app, find_key_app_l by auto.
    assert (search (length g) (chain b) key (heap_of None (A ++ g ++ B) None ∪ F) = Some (e_loc <$> find_key key g)) as ->; [|done].
    destruct g as [|e g]; [done|]. rewrite Hchain by done. apply (search_ok key _ (e :: g) B Hk).
    + rewrite !Forall_app in HL. tauto.
    + by apply (chained_app _ A).
  - rewrite Nat2Z.id. rewrite <- (app_nil_r L) in Hch.
    pose proof (search_ok key _ L [] Hk HL Hch) as Hs. rewrite app_nil_r in Hs. by rewrite Hs.
Qed.

(** ** The contents *)

(** The map the table stands for; keys are folded. *)
Definition contents (L : list entry) : gmap bytes Z := list_to_map ((fun e => (fold_case (e_key e), e_data e)) <$> L).

Definition keys (L : list entry) : list bytes := (fun e => fold_case (e_key e)) <$> L.

#[export] Instance keys_perm : Proper ((≡ₚ) ==> (≡ₚ)) keys.
Proof. intros L L' H. unfold keys. by rewrite H. Qed.

Lemma contents_lookup L key : contents L !! fold_case key = e_data <$> find_key key L.
Proof.
  unfold contents. induction L as [|e L IH]; [done|]. cbn. case_decide as E; [by rewrite E, lookup_insert_eq|].
  by rewrite lookup_insert_ne by done.
Qed.

Lemma contents_perm L L' : NoDup (keys L) -> L ≡ₚ L' -> contents L = contents L'.
Proof.
  intros Hnd Hp. apply list_to_map_proper; [|by apply fmap_Permutation].
  rewrite <- list_fmap_compose. done.
Qed.

Lemma contents_cons e L : contents (e :: L) = <[fold_case (e_key e) := e_data e]> (contents L).
Proof. done. Qed.

(** The list [L] is what the structure holds. *)
Definition hash_ok (L : list entry) (st : state) : Prop :=
  NoDup (locs L) /\ NoDup (keys L) /\ Forall entry_ok L
  /\ exists sz t, st = hash_at sz (Z.of_nat (length L)) t L ∅ /\ table_ok sz L t.

Lemma hash_ok_init : hash_ok [] (sqlite3HashInit, ∅).
Proof. split; [constructor|]. split; [constructor|]. split; [constructor|]. by exists 0, None. Qed.

Lemma filter_middle x A B : NoDup (locs (A ++ x :: B)) -> filter (fun e : entry => e <> x) (A ++ x :: B) = A ++ B.
Proof.
  intros Hnd. apply NoDup_fmap_1 in Hnd. rewrite filter_app, filter_cons, decide_False by (intros ?; done).
  rewrite <- Permutation_middle in Hnd. apply NoDup_cons in Hnd as [Hx _].
  assert (forall K : list entry, x ∉ K -> filter (fun e : entry => e <> x) K = K) as Hf.
  { intros K HK. induction K as [|e K IH]; [done|]. rewrite filter_cons, decide_True by set_solver. f_equal. apply IH. set_solver. }
  rewrite !Hf by set_solver. done.
Qed.

Lemma split_unique (e : entry) A B L1 L2 : NoDup (A ++ e :: B) -> A ++ e :: B = L1 ++ e :: L2 -> B = L2.
Proof.
  intros Hnd E. pose proof Hnd as Hnd2. rewrite E in Hnd2.
  apply NoDup_app in Hnd as (_ & H1 & _), Hnd2 as (_ & H2 & _).
  apply not_elem_of_app_cons_inv_l in E as (_ & _ & E); [done| |]; intros Hin; [apply (H2 _ Hin)|apply (H1 _ Hin)]; left.
Qed.

Lemma leave_bucket_ok sz t A e B : NoDup (locs (A ++ e :: B)) -> table_ok sz (A ++ e :: B) t ->
  exists t', leave_bucket (e_loc e) (hd_loc B None) (default 0 (slot_of sz t (e_key e))) t = Some t' /\ table_ok sz (A ++ B) t'.
Proof.
  intros Hnd Ht. destruct t as [bs|]; [|by exists None]. cbn [slot_of from_option leave_bucket]. pose proof Ht as (Hsz & Hlb & _).
  assert (Hs : 0 <= slot sz e < sz) by (apply Z.mod_pos_bound; lia).
  destruct (lookup_lt_is_Some_2 bs (Z.to_nat (slot sz e))) as [b Hb]; [lia|]. pose proof Hb as Hb'. unfold slot in Hb.
  unfold id. rewrite Hb. cbn [mbind option_bind].
  destruct (buckets_remove sz (A ++ e :: B) bs e b (hd_loc B None)) as [Hpos Hbs']; [done|done|set_solver|done| |].
  - intros L1 L2 E. f_equal. apply NoDup_fmap_1 in Hnd. by apply (split_unique e A B L1 L2).
  - rewrite decide_True by done. eexists. split; [done|]. by rewrite filter_middle in Hbs'.
Qed.

Lemma remove_ok sz t A e B : let L := A ++ e :: B in
  NoDup (locs L) -> NoDup (keys L) -> Forall entry_ok L -> table_ok sz L t -> Z.of_nat (length L) < 2 ^ 32 ->
  exists st', removeElementGivenHash (e_loc e) (default 0 (slot_of sz t (e_key e))) (hash_at sz (Z.of_nat (length L)) t L ∅)
              = Some st' /\ hash_ok (A ++ B) st'.
Proof.
  intros L Hnd Hkeys HL Ht Hlen. unfold removeElementGivenHash, hash_at. cbn [htsize count first ht].
  pose proof (heap_of_middle None A e B None Hnd) as Hmid. fold L in Hmid. rewrite (right_id_L ∅ _), Hmid. cbn [mbind option_bind elem_of_entry prev next].
  pose proof (unlink_next A e B Hnd) as Hn. fold L in Hn.
  destruct (unlink_prev A e B Hnd) as (m' & Hm' & Hdel).
  destruct (leave_bucket_ok sz t A e B Hnd Ht) as (t' & Et' & Ht').
  cbn [mbind option_bind] in Hn. rewrite Hn. cbn [mbind option_bind]. rewrite Hm'. cbn [mbind option_bind].
  rewrite Et'. cbn [mbind option_bind]. rewrite Hdel.
  assert (Hcount : u32 (Z.of_nat (length L) - 1) = Z.of_nat (length (A ++ B))).
  { unfold L. rewrite !length_app. cbn [length]. rewrite wrapu_id; [lia|]. unfold in_u, L in *. rewrite !length_app in *. cbn [length] in *. lia. }
  assert (Hnd' : NoDup (locs (A ++ B)) /\ NoDup (keys (A ++ B)) /\ Forall entry_ok (A ++ B)).
  { unfold L in *. rewrite <- Permutation_middle in Hnd, Hkeys, HL. apply NoDup_cons in Hnd as [_ ?].
    apply NoDup_cons in Hkeys as [_ ?]. apply Forall_cons in HL as [_ ?]. done. }
  rewrite Hcount. case_decide as Hz.
  - assert (A ++ B = []) as -> by (apply length_zero_iff_nil; lia). rewrite decide_True by done.
    exists (sqlite3HashInit, ∅). split; [done|apply hash_ok_init].
  - eexists. split; [done|]. destruct Hnd' as (? & ? & ?). split; [done|]. split; [done|]. split; [done|].
    exists sz, t'. split; [|done]. unfold hash_at. by rewrite (right_id_L ∅ _).
Qed.

(** ** Updating *)

Lemma heap_of_update p A e e' B n : e_loc e' = e_loc e -> NoDup (locs (A ++ e :: B)) ->
  <[e_loc e := elem_of_entry (last_loc p A) (hd_loc B n) e']> (heap_of p (A ++ e :: B) n) = heap_of p (A ++ e' :: B) n.
Proof.
  intros El Hnd. assert (Hnd' : NoDup (locs (A ++ e' :: B))) by (rewrite locs_app in *; cbn in *; by rewrite El).
  rewrite !heap_of_app by done. cbn [heap_of hd_loc]. rewrite El.
  rewrite insert_union_r; [by rewrite insert_insert_eq|].
  apply heap_of_None. rewrite locs_app in Hnd. apply NoDup_app in Hnd as (_ & Hdis & _). intros Hin. apply (Hdis _ Hin). left.
Qed.

Lemma buckets_update sz A e e' B bs : e_loc e' = e_loc e -> slot sz e' = slot sz e -> NoDup (A ++ e :: B) ->
  buckets_ok sz (A ++ e :: B) bs -> buckets_ok sz (A ++ e' :: B) bs.
Proof.
  intros El Es Hnd (Hsz & Hlen & Hbs). split; [done|]. split; [done|]. intros i b Hi.
  apply Hbs in Hi as (A0 & g & B0 & E & HA & Hg & HB & Hc & Hch).
  set (f := fun y : entry => if decide (y = e) then e' else y).
  assert (Hf : forall y, slot sz (f y) = slot sz y /\ e_loc (f y) = e_loc y).
  { intros y. unfold f. case_decide; [by subst|done]. }
  assert (HfL : A ++ e' :: B = f <$> (A ++ e :: B)).
  { rewrite fmap_app, fmap_cons. unfold f at 2. rewrite decide_True by done.
    assert (forall K : list entry, e ∉ K -> f <$> K = K) as Hid.
    { intros K HK. induction K as [|y K IH]; [done|]. rewrite fmap_cons. unfold f at 1. rewrite decide_False by set_solver.
      f_equal. apply IH. set_solver. }
    rewrite <- Permutation_middle in Hnd. apply NoDup_cons in Hnd as [He _]. rewrite !Hid by set_solver. done. }
  exists (f <$> A0), (f <$> g), (f <$> B0). rewrite HfL, E, !fmap_app. split; [done|].
  rewrite !Forall_fmap. assert (forall K (P : Z -> Prop), Forall (fun y => P (slot sz y)) K -> Forall ((fun y => P (slot sz y)) ∘ f) K) as HF.
  { intros K P HK. apply (list.Forall_impl _ _ _ HK). intros y Hy. cbn. by rewrite (proj1 (Hf y)). }
  split; [by apply (HF _ (fun s => s <> _))|]. split; [by apply (HF _ (fun s => s = _))|]. split; [by apply (HF _ (fun s => s <> _))|].
  rewrite length_fmap. split; [done|]. intros Hne. destruct g as [|y g]; [done|]. rewrite Hch by done. cbn. f_equal. symmetry. apply Hf.
Qed.

Lemma update_ok sz t A e B key d : let L := A ++ e :: B in
  NoDup (locs L) -> NoDup (keys L) -> Forall entry_ok L -> table_ok sz L t ->
  fold_case (e_key e) = fold_case key -> str_ok key -> d <> 0 ->
  let e' := (e_loc e, key, d) in
  exists m, assign (e_loc e) (set_entry d key) (heap_of None L None ∪ ∅) = Some m
    /\ hash_ok (A ++ e' :: B) ((hash_at sz (Z.of_nat (length L)) t L ∅).1, m).
Proof.
  intros L Hnd Hkeys HL Ht Hkey Hk Hd e'.
  pose proof (heap_of_middle None A e B None Hnd) as Hmid. fold L in Hmid. rewrite (right_id_L ∅ _).
  eexists. split; [by apply (assign_eq _ _ _ _ _ Hmid)|].
  change (set_entry d key (elem_of_entry (last_loc None A) (hd_loc B None) e))
    with (elem_of_entry (last_loc None A) (hd_loc B None) e').
  pose proof (heap_of_update None A e e' B None eq_refl Hnd) as Hu. fold L in Hu. rewrite Hu. clear Hu.
  unfold L, hash_ok in *. split; [by rewrite locs_app in *|].
  split; [unfold keys in *; rewrite fmap_app in *; cbn in *; by rewrite Hkey in Hkeys|].
  split; [rewrite Forall_app, Forall_cons in *; unfold entry_ok at 2; cbn; tauto|].
  exists sz, t. unfold hash_at. rewrite !(right_id_L ∅ _), !length_app. split; [by destruct A|].
  destruct t as [bs|]; [|done]. apply (buckets_update sz A e e' B bs); [done| |by apply NoDup_fmap_1 in Hnd|done].
  unfold slot. cbn. by rewrite (strHash_fold _ _ Hkey).
Qed.

(** A new element. *)
Lemma extend_ok mem key d sz t L : let m := heap_of None L None ∪ ∅ in
  let x := fresh (dom m) in
  let c := {| next := None; prev := None; data := d; pKey := key |} in
  NoDup (locs L) -> NoDup (keys L) -> Forall entry_ok L -> table_ok sz L t -> find_key key L = None ->
  alloc_ok (ht_alloc mem) -> str_ok key -> d <> 0 -> Z.of_nat (length L) + 1 < 2 ^ 31 ->
  let pH := {| htsize := sz; count := u32 (Z.of_nat (length L) + 1); first := hd_loc L None; ht := t |} in
  exists L' st', (
    '(resized, st) ← (if decide (10 <= count pH /\ u32 (2 * htsize pH) < count pH)
                      then rehash (ht_alloc mem) (u32 (count pH * 2)) (pH, <[x := c]> m) else Some (false, (pH, <[x := c]> m)));
    let h := if resized : bool then strHash key mod htsize st.1 else default 0 (slot_of sz t key) in
    st ← insertElement (match ht st.1 with Some _ => Some h | None => None end) x st;
    Some (0, st)) = Some (0, st')
    /\ hash_ok L' st' /\ contents L' = <[fold_case key := d]> (contents L).
Proof.
  intros m x c Hnd Hkeys HL Ht Hfind Halloc Hk Hd Hlen. cbn zeta. cbn [count htsize].
  assert (Hx : x ∉ locs L).
  { pose proof (is_fresh (dom m)) as Hf. unfold m in Hf at 2. rewrite (right_id_L ∅ _), dom_heap_of in Hf. fold x in Hf. set_solver. }
  assert (Hm : <[x := c]> m = heap_of None L None ∪ {[x := c]}).
  { unfold m. rewrite insert_union_r by by apply heap_of_None. done. }
  set (n := u32 (Z.of_nat (length L) + 1)).
  assert (Hn : n = Z.of_nat (length L) + 1) by (apply wrapu_id; unfold in_u; lia).
  rewrite Hm. change (_, heap_of None L None ∪ {[x := c]}) with (hash_at sz n t L {[x := c]}).
  match goal with |- context [(if decide ?C then ?a else ?b) ≫= _] => set (res := if decide C then a else b) end.
  assert (Hre : exists r sz' t' L', res = Some (r, hash_at sz' n t' L' {[x := c]})
    /\ L' ≡ₚ L /\ table_ok sz' L' t' /\ (r = false -> sz' = sz /\ t' = t) /\ (r = true -> t' <> None)).
  { unfold res. case_decide as Hc; [|by exists false, sz, t, L]. apply rehash_ok; try done; [|lia].
    rewrite wrapu_id; unfold in_u; lia. }
  destruct Hre as (r & sz' & t' & L' & -> & Hperm & Ht' & Hf & Htr). cbn [mbind option_bind hash_at fst ht htsize].
  match goal with |- context [insertElement ?o x _] => assert (o = slot_of sz' t' key) as -> end.
  { destruct t'; [|done]. destruct r; [done|]. by destruct (Hf eq_refl) as [-> <-]. }
  destruct (insertElement_ok sz' n t' L' {[x := c]} x c) as (L1 & L2 & t'' & -> & Hins & Ht'' & _).
  - by rewrite Hperm.
  - by rewrite Hperm.
  - apply lookup_singleton_eq.
  - done.
  - rewrite Hperm. lia.
  - cbn [c pKey data] in Hins, Ht''. unfold hash_at in Hins at 1. fold (hash_at sz' n t' (L1 ++ L2) {[x := c]}) in Hins.
    rewrite Hins. rewrite delete_singleton_eq.
    set (e := (x, key, d)) in *. exists (L1 ++ e :: L2). eexists. split; [done|].
    assert (Hp : L1 ++ e :: L2 ≡ₚ e :: L) by by rewrite <- Permutation_middle, Hperm.
    assert (Hkeys' : NoDup (keys (e :: L))).
    { cbn. apply NoDup_cons. split; [|done]. intros Hin. apply list_elem_of_fmap in Hin as (e0 & E & He0).
      assert (contents L !! fold_case key = None) as Hnone by by rewrite contents_lookup, Hfind.
      apply not_elem_of_list_to_map in Hnone. apply Hnone. rewrite <- list_fmap_compose. apply list_elem_of_fmap. by exists e0. }
    split; [|by rewrite (contents_perm _ (e :: L)) by (by rewrite ?Hp)].
    split; [rewrite Hp; cbn; by apply NoDup_cons|]. split; [by rewrite Hp|]. split; [rewrite Hp; by constructor|].
    exists sz', t''. split; [|done]. f_equal. rewrite Hn, Hp. cbn. lia.
Qed.

(** ** The table and the map *)

(** The map of an insertion, on folded keys: what is returned, and the map
    after it. *)
Definition map_insert_result (mem : memory_outcome) (key : bytes) (d : Z) (M : gmap bytes Z) : Z * gmap bytes Z :=
  match M !! fold_case key with
  | Some old => (old, if decide (d = 0) then delete (fold_case key) M else <[fold_case key := d]> M)
  | None => if decide (d = 0) then (0, M) else if elem_ok mem then (0, <[fold_case key := d]> M) else (d, M)
  end.

Lemma contents_middle A e B : NoDup (keys (A ++ e :: B)) ->
  contents (A ++ e :: B) = <[fold_case (e_key e) := e_data e]> (contents (A ++ B))
  /\ contents (A ++ B) !! fold_case (e_key e) = None.
Proof.
  intros Hnd. split.
  - by rewrite (contents_perm (A ++ e :: B) (e :: (A ++ B))) by (done || by rewrite Permutation_middle).
  - rewrite <- Permutation_middle in Hnd. apply NoDup_cons in Hnd as [He _].
    apply not_elem_of_list_to_map. by rewrite <- list_fmap_compose.
Qed.

Lemma insert_ok mem key d L st : hash_ok L st -> alloc_ok (ht_alloc mem) -> str_ok key -> Z.of_nat (length L) + 1 < 2 ^ 31 ->
  exists L' st', sqlite3HashInsert mem key d st = Some ((map_insert_result mem key d (contents L)).1, st')
    /\ hash_ok L' st' /\ contents L' = (map_insert_result mem key d (contents L)).2.
Proof.
  intros Hok Halloc Hk Hlen. pose proof Hok as (Hnd & Hkeys & HL & sz & t & -> & Ht).
  unfold sqlite3HashInsert, map_insert_result. rewrite contents_lookup.
  rewrite (find_ok sz _ t L ∅ key) by done. cbn [mbind option_bind].
  destruct (find_key key L) as [e|] eqn:Ef; cbn [fmap option_fmap option_map data_at mbind option_bind].
  - apply find_key_Some in Ef as [He Ekey]. apply list_elem_of_split in He as (A & B & ->).
    pose proof (heap_of_middle None A e B None Hnd) as Hmid. cbn [hash_at snd]. rewrite (right_id_L ∅ _), Hmid.
    destruct (contents_middle A e B Hkeys) as [Ec Ecn]. rewrite Ekey in Ec, Ecn.
    assert (e_data e <> 0) by (rewrite Forall_app, Forall_cons in HL; apply HL).
    cbn [mbind option_bind elem_of_entry data]. rewrite decide_True by done. destruct (decide (d = 0)) as [->|Hd].
    + destruct (remove_ok sz t A e B Hnd Hkeys HL Ht) as (st' & Hrm & Hok'); [lia|].
      assert (slot_of sz t (e_key e) = slot_of sz t key) as Eslot.
      { unfold slot_of. by rewrite (strHash_fold _ _ Ekey). }
      rewrite Eslot in Hrm. rewrite Hrm.
      exists (A ++ B), st'. split; [done|]. split; [done|]. rewrite Ec. cbn. by rewrite delete_insert_id.
    + destruct (update_ok sz t A e B key d) as (m & Hm & Hok'); try done.
      rewrite (right_id_L ∅ _) in Hm. rewrite Hm. exists (A ++ (e_loc e, key, d) :: B). eexists. split; [done|]. split; [done|].
      destruct Hok' as (_ & Hkeys' & _). rewrite Ec. cbn. rewrite insert_insert_eq.
      apply (contents_middle A (e_loc e, key, d) B Hkeys').
  - rewrite decide_False by (intros H; by apply H). destruct (decide (d = 0)); [by eexists L, _|].
    destruct (elem_ok mem); cbn [negb]; [|by eexists L, _].
    exact (extend_ok mem key d sz t L Hnd Hkeys HL Ht Ef Halloc Hk n Hlen).
Qed.

(** Lookups. *)
Lemma lookup_ok key L st : hash_ok L st -> str_ok key ->
  sqlite3HashFind st key = Some (default 0 (contents L !! fold_case key)).
Proof.
  intros (Hnd & Hkeys & HL & sz & t & -> & Ht) Hk. unfold sqlite3HashFind. rewrite (find_ok sz _ t L ∅ key) by done.
  cbn [mbind option_bind]. rewrite contents_lookup. destruct (find_key key L) as [e|] eqn:Ef; [|done].
  apply find_key_Some in Ef as [He _]. apply list_elem_of_split in He as (A & B & ->). cbn [fmap option_fmap option_map data_at hash_at snd].
  rewrite (right_id_L ∅ _). by rewrite heap_of_middle.
Qed.

(** Clearing frees every element. *)
Lemma free_all_ok p L fuel : (length L <= fuel)%nat -> NoDup (locs L) ->
  free_all fuel (hd_loc L None) (heap_of p L None) = Some ∅.
Proof.
  revert p fuel. induction L as [|e L IH]; intros p fuel Hf Hnd; [by destruct fuel|].
  destruct fuel as [|fuel]; [cbn in Hf; lia|]. apply NoDup_cons in Hnd as [He Hnd]. cbn [heap_of hd_loc free_all].
  rewrite lookup_insert_eq. cbn [mbind option_bind elem_of_entry next].
  rewrite delete_insert_id by by apply heap_of_None. apply IH; [cbn in Hf; lia|done].
Qed.

Lemma clear_ok L st : hash_ok L st -> sqlite3HashClear st = Some (sqlite3HashInit, ∅).
Proof.
  intros (Hnd & _ & _ & sz & t & -> & _). unfold sqlite3HashClear, hash_at. rewrite (right_id_L ∅ _). cbn [first].
  by rewrite free_all_ok by (rewrite ?size_heap_of; done).
Qed.

(** An insertion with its memory outcome; [NULL] removes. *)
Definition op : Type := memory_outcome * bytes * Z.

Definition op_ok (o : op) : Prop := alloc_ok (ht_alloc o.1.1) /\ str_ok o.1.2.

Fixpoint run (ops : list op) (st : state) : option (list Z * state) :=
  match ops with
  | [] => Some ([], st)
  | (mem, key, d) :: ops => '(r, st) ← sqlite3HashInsert mem key d st; '(rs, st) ← run ops st; Some (r :: rs, st)
  end.

Fixpoint run_map (ops : list op) (M : gmap bytes Z) : list Z * gmap bytes Z :=
  match ops with
  | [] => ([], M)
  | (mem, key, d) :: ops =>
      let '(r, M) := map_insert_result mem key d M in
      let '(rs, M) := run_map ops M in (r :: rs, M)
  end.

Lemma size_map_insert_result mem key d M : (size (map_insert_result mem key d M).2 <= S (size M))%nat.
Proof.
  assert (forall M' : gmap bytes Z, (size (<[fold_case key := d]> M') <= S (size M'))%nat) as Hins.
  { intros M'. rewrite map_size_insert. destruct (M' !! _); cbn; lia. }
  unfold map_insert_result. destruct (M !! _) as [old|] eqn:E; case_decide; cbn; auto; [|by destruct (elem_ok mem); cbn; auto].
  rewrite map_size_delete, E. cbn. lia.
Qed.

Lemma size_contents L : NoDup (keys L) -> size (contents L) = length L.
Proof.
  intros Hnd. induction L as [|e L IH]; [done|]. unfold keys in Hnd. rewrite fmap_cons in Hnd. apply NoDup_cons in Hnd as [He Hnd].
  rewrite contents_cons, map_size_insert_None; [cbn; by rewrite IH|].
  apply not_elem_of_list_to_map. by rewrite <- list_fmap_compose.
Qed.

Lemma run_ok ops : forall L st, hash_ok L st -> Forall op_ok ops -> Z.of_nat (length L + length ops) < 2 ^ 31 ->
  exists L' st', run ops st = Some ((run_map ops (contents L)).1, st')
    /\ hash_ok L' st' /\ contents L' = (run_map ops (contents L)).2.
Proof.
  induction ops as [|[[mem key] d] ops IH]; intros L st Hok Hops Hlen; [by exists L, st|].
  apply Forall_cons in Hops as [[Halloc Hk] Hops]. cbn [fst snd] in *. cbn [length] in Hlen.
  destruct (insert_ok mem key d L st Hok Halloc Hk) as (L1 & st1 & Hins & Hok1 & Hc1); [lia|].
  pose proof (size_map_insert_result mem key d (contents L)) as Hsize.
  rewrite <- Hc1, !size_contents in Hsize by apply Hok || apply Hok1.
  cbn [run run_map]. rewrite Hins. cbn [mbind option_bind].
  destruct (map_insert_result mem key d (contents L)) as [r M]. cbn [fst snd] in *. subst M.
  destruct (IH L1 st1 Hok1 Hops) as (L2 & st2 & Hrun & Hok2 & Hc2); [lia|]. rewrite Hrun. cbn [mbind option_bind].
  destruct (run_map ops (contents L1)) as [rs M]. by exists L2, st2.
Qed.

(** C26: A hash table is a map on the case-folded keys: every sequence of
    insertions, replacements and removals, whatever allocations fail, follows
    valid pointers only and returns what the map does; the structure then
    counts and finds the keys of the map, its heap has one cell for each of
    them, and clearing it leaves no cell. *)
Theorem hash_is_a_map ops : Forall op_ok ops -> Z.of_nat (length ops) < 2 ^ 31 ->
  exists pH m M, run ops (sqlite3HashInit, ∅) = Some ((run_map ops ∅).1, (pH, m)) /\ M = (run_map ops ∅).2
    /\ (forall key, str_ok key -> sqlite3HashFind (pH, m) key = Some (default 0 (M !! fold_case key)))
    /\ count pH = Z.of_nat (size M) /\ size m = size M
    /\ sqlite3HashClear (pH, m) = Some (sqlite3HashInit, ∅).
Proof.
  intros Hops Hlen. destruct (run_ok ops [] _ hash_ok_init Hops Hlen) as (L & [pH m] & Hrun & Hok & Hc).
  exists pH, m, (contents L). split; [done|]. split; [done|].
  split; [intros key Hk; by apply lookup_ok|]. pose proof (clear_ok L _ Hok) as Hclear.
  destruct Hok as (Hnd & Hkeys & _ & sz & t & [= -> ->] & _). rewrite size_contents by done. cbn [count].
  split; [done|]. split; [|done]. by rewrite (right_id_L ∅ _), size_heap_of.
Qed.

(** Two spellings of one key, a removal, and a failed allocation. *)
Lemma hash_is_a_map_witness :
  let ok := {| elem_ok := true; ht_alloc := fun n => if decide (n < 2 ^ 20) then Some n else None |} in
  let full := {| elem_ok := false; ht_alloc := fun _ => None |} in
  let ops := [(ok, [84; 49], 7); (ok, [116; 49], 8); (full, [117], 9); (ok, [84; 50], 5); (ok, [116; 50], 0)] in
  (run_map ops ∅).1 = [0; 7; 9; 0; 5] /\
  exists pH m M, run ops (sqlite3HashInit, ∅) = Some ((run_map ops ∅).1, (pH, m)) /\ M = (run_map ops ∅).2
    /\ (forall key, str_ok key -> sqlite3HashFind (pH, m) key = Some (default 0 (M !! fold_case key)))
    /\ count pH = Z.of_nat (size M) /\ size m = size M
    /\ sqlite3HashClear (pH, m) = Some (sqlite3HashInit, ∅).
Proof.
  intros ok full ops. split; [by vm_compute|]. apply hash_is_a_map; [|by vm_compute].
  assert (alloc_ok (ht_alloc ok)) by (intros n sz ?; cbn; case_decide; [intros [= ->]; lia|done]).
  assert (alloc_ok (ht_alloc full)) by (intros ??? [=]).
  repeat (apply Forall_cons; split; [split; [done|by repeat constructor]|]). constructor.
Defined.

(** Fifteen keys: the table gets buckets on the way. *)
Example hash_resized :
  let ok := {| elem_ok := true; ht_alloc := fun n => Some n |} in
  (pH ← (st ← run ((fun n : nat => (ok, [65 + Z.of_nat n], 1 + Z.of_nat n)) <$> seq 0 15) (sqlite3HashInit, ∅); Some st.2.1);
   Some (htsize pH, count pH)) = Some (20, 15).
Proof. by vm_compute. Qed.
