(* ===== verification/SqlRowSet.v ===== *)
(** * Sets of rowids

    [sqlite/sqlite3.c] (rowset.c), the set of rows a [DELETE], an [UPDATE] or
    an [OR] visits.  A RowSet is used in one of two ways: insert everything and
    then extract in order, or insert in batches and test for membership.

    The entries have one owner, so a list linked by [pRight] is the list of its
    values and a tree is a term.  A [NULL] that the code would follow, an array
    bound it would break and a broken assert are [None]. *)

From Stdlib Require Import Sorted.
From S2P Require Import Prelude.

Inductive tree :=
  | Null
  | Entry (pLeft : tree) (v : Z) (pRight : tree).

(** [pEntry] is the list from [pEntry] to [pLast]; [pForest] has the [pLeft]
    of each element of the forest list; [pChunk] counts the chunks. *)
Record RowSet := {
  pChunk : nat; pEntry : list Z; pForest : list tree; nFresh : Z; rsFlags : Z; iBatch : Z }.

Definition ROWSET_ALLOCATION_SIZE : Z := 1024.

(** [sizeof(struct RowSetEntry)] and [sizeof(RowSet)]. *)
Definition SIZEOF_ENTRY : Z := 24.
Definition SIZEOF_ROWSET : Z := 56.

Definition ROWSET_ENTRY_PER_CHUNK : Z := (ROWSET_ALLOCATION_SIZE - 8) / SIZEOF_ENTRY.

Definition ROWSET_SORTED : Z := 1.
Definition ROWSET_NEXT : Z := 2.

Definition has_flag (p : RowSet) (f : Z) : bool := bool_decide (Z.land (rsFlags p) f <> 0).

(** [N] is the size of the block allocated for the object. *)
Definition sqlite3RowSetInit (N : Z) : RowSet :=
  {| pChunk := 0; pEntry := []; pForest := [];
     nFresh := u16 ((N - SIZEOF_ROWSET) / SIZEOF_ENTRY); rsFlags := ROWSET_SORTED; iBatch := 0 |}.

Definition sqlite3RowSetClear (p : RowSet) : RowSet :=
  {| pChunk := 0; pEntry := []; pForest := []; nFresh := 0; rsFlags := ROWSET_SORTED; iBatch := iBatch p |}.

(** The state with a new entry taken out of its chunks, if there is memory. *)
Definition rowSetEntryAlloc (mem : bool) (p : RowSet) : option RowSet :=
  let take n c := {| pChunk := c; pEntry := pEntry p; pForest := pForest p; nFresh := n - 1;
                     rsFlags := rsFlags p; iBatch := iBatch p |} in
  if decide (nFresh p = 0) then if mem then Some (take ROWSET_ENTRY_PER_CHUNK (S (pChunk p))) else None
  else Some (take (nFresh p) (pChunk p)).

Definition sqlite3RowSetInsert (mem : bool) (p : RowSet) (rowid : Z) : option RowSet :=
  if has_flag p ROWSET_NEXT then None
  else match rowSetEntryAlloc mem p with
       | None => Some p
       | Some p =>
           let flags := match last (pEntry p) with
                        | Some v => if decide (rowid <= v) then Z.land (rsFlags p) (Z.lnot ROWSET_SORTED) else rsFlags p
                        | None => rsFlags p
                        end in
           Some {| pChunk := pChunk p; pEntry := pEntry p ++ [rowid]; pForest := pForest p; nFresh := nFresh p;
                   rsFlags := flags; iBatch := iBatch p |}
       end.

(** ** Sorting *)

(** The assert on each list. *)
Definition head_ordered (l : list Z) : bool :=
  match l with a :: a' :: _ => bool_decide (a <= a') | _ => true end.

Fixpoint rowSetEntryMerge (pA : list Z) : list Z -> option (list Z) :=
  fix merge_b (pB : list Z) : option (list Z) :=
    match pA, pB with
    | a :: pA', b :: pB' =>
        if head_ordered pA && head_ordered pB then
          if decide (a <= b) then
            rest ← match pA' with [] => Some pB | _ => rowSetEntryMerge pA' pB end;
            Some (if decide (a < b) then a :: rest else rest)
          else
            rest ← match pB' with [] => Some pA | _ => merge_b pB' end;
            Some (b :: rest)
        else None
    | _, _ => None
    end.

Definition N_BUCKETS : nat := 40.

(** The loop over the array, from an index on: [pIn] is merged with the
    occupied elements and put in the first empty one. *)
Fixpoint put_bucket (aBucket : list (list Z)) (pIn : list Z) : option (list (list Z)) :=
  match aBucket with
  | [] => None
  | [] :: rest => Some (pIn :: rest)
  | b :: rest => pIn ← rowSetEntryMerge b pIn; rest ← put_bucket rest pIn; Some ([] :: rest)
  end.

(** The last loop. *)
Fixpoint merge_buckets (pIn : list Z) (aBucket : list (list Z)) : option (list Z) :=
  match aBucket with
  | [] => Some pIn
  | [] :: rest => merge_buckets pIn rest
  | b :: rest =>
      pIn ← match pIn with [] => Some b | _ => rowSetEntryMerge pIn b end;
      merge_buckets pIn rest
  end.

Definition rowSetEntrySort (pIn : list Z) : option (list Z) :=
  aBucket ← foldM (fun aBucket v => put_bucket aBucket [v]) (replicate N_BUCKETS []) pIn;
  merge_buckets (default [] (head aBucket)) (tail aBucket).

(** ** Trees *)

(** The list the tree becomes, first to last. *)
Fixpoint rowSetTreeToList (pIn : tree) : option (list Z) :=
  match pIn with
  | Null => None
  | Entry l v r =>
      first ← match l with Null => Some [v] | _ => l ← rowSetTreeToList l; Some (l ++ [v]) end;
      match r with Null => Some first | _ => r ← rowSetTreeToList r; Some (first ++ r) end
  end.

(** The tree and what is left of the list. *)
Fixpoint rowSetNDeepTree (iDepth : nat) (pList : list Z) : tree * list Z :=
  match pList with
  | [] => (Null, [])
  | v :: pList' =>
      match iDepth with
      | S (S _ as d) =>
          let '(pLeft, pList) := rowSetNDeepTree d pList in
          match pList with
          | [] => (pLeft, [])
          | v :: pList => let '(pRight, pList) := rowSetNDeepTree d pList in (Entry pLeft v pRight, pList)
          end
      | _ => (Entry Null v Null, pList')
      end
  end.

(** The loop [for(iDepth=1; pList; iDepth++)]. *)
Fixpoint grow_tree (fuel : nat) (p : tree) (iDepth : nat) (pList : list Z) : option tree :=
  match pList with
  | [] => Some p
  | v :: pList =>
      match fuel with
      | O => None
      | S fuel => let '(pRight, pList) := rowSetNDeepTree iDepth pList in grow_tree fuel (Entry p v pRight) (S iDepth) pList
      end
  end.

Definition rowSetListToTree (pList : list Z) : option tree :=
  match pList with
  | [] => None
  | v :: rest => grow_tree (length rest) (Entry Null v Null) 1 rest
  end.

(** ** Extraction and tests *)

(** The value extracted, [None] for an empty set. *)
Definition sqlite3RowSetNext (p : RowSet) : option (option Z * RowSet) :=
  if decide (pForest p = []) then
    p ← (if has_flag p ROWSET_NEXT then Some p
         else l ← (if has_flag p ROWSET_SORTED then Some (pEntry p) else rowSetEntrySort (pEntry p));
              Some {| pChunk := pChunk p; pEntry := l; pForest := pForest p; nFresh := nFresh p;
                      rsFlags := Z.lor (rsFlags p) (Z.lor ROWSET_SORTED ROWSET_NEXT); iBatch := iBatch p |});
    match pEntry p with
    | [] => Some (None, p)
    | v :: rest =>
        let p := {| pChunk := pChunk p; pEntry := rest; pForest := pForest p; nFresh := nFresh p;
                    rsFlags := rsFlags p; iBatch := iBatch p |} in
        Some (Some v, match rest with [] => sqlite3RowSetClear p | _ => p end)
    end
  else None.

(** The loop that puts the sorted list [p] in the forest: the forest, and the
    list when no tree was empty. *)
Fixpoint forest_add (pForest : list tree) (p : list Z) : option (list tree * option (list Z)) :=
  match pForest with
  | [] => Some ([], Some p)
  | Null :: rest => t ← rowSetListToTree p; Some (t :: rest, None)
  | t :: rest =>
      pAux ← rowSetTreeToList t;
      p ← rowSetEntryMerge pAux p;
      '(rest, r) ← forest_add rest p;
      Some (Null :: rest, r)
  end.

Definition with_forest (p : RowSet) (f : list tree) : RowSet :=
  {| pChunk := pChunk p; pEntry := pEntry p; pForest := f; nFresh := nFresh p; rsFlags := rsFlags p; iBatch := iBatch p |}.

(** The branch [if( iBatch!=pRowSet->iBatch )]. *)
Definition new_batch (mem : bool) (p : RowSet) (batch : Z) : option RowSet :=
  p ← match pEntry p with
      | [] => Some p
      | _ =>
          l ← (if has_flag p ROWSET_SORTED then Some (pEntry p) else rowSetEntrySort (pEntry p));
          '(f, r) ← forest_add (pForest p) l;
          p ← match r with
              | None => Some (with_forest p f)
              | Some l => match rowSetEntryAlloc mem (with_forest p f) with
                          | Some p => t ← rowSetListToTree l; Some (with_forest p (f ++ [t]))
                          | None => Some (with_forest p f)
                          end
              end;
          Some {| pChunk := pChunk p; pEntry := []; pForest := pForest p; nFresh := nFresh p;
                  rsFlags := Z.lor (rsFlags p) ROWSET_SORTED; iBatch := iBatch p |}
      end;
  Some {| pChunk := pChunk p; pEntry := pEntry p; pForest := pForest p; nFresh := nFresh p;
          rsFlags := rsFlags p; iBatch := batch |}.

Fixpoint tree_test (p : tree) (iRowid : Z) : bool :=
  match p with
  | Null => false
  | Entry l v r => if decide (v < iRowid) then tree_test r iRowid
                   else if decide (iRowid < v) then tree_test l iRowid else true
  end.

Definition sqlite3RowSetTest (mem : bool) (p : RowSet) (batch iRowid : Z) : option (bool * RowSet) :=
  if has_flag p ROWSET_NEXT then None
  else
    p ← (if decide (batch <> iBatch p) then new_batch mem p batch else Some p);
    Some (existsb (fun t => tree_test t iRowid) (pForest p), p).

(** ** Sorting is correct *)

Definition increasing (l : list Z) : Prop := StronglySorted Z.lt l.

(** The elements of [l] are those of [s]. *)
Definition same_elements (l l' : list Z) : Prop := forall x, x ∈ l <-> x ∈ l'.

Lemma increasing_cons a l : increasing (a :: l) <-> (forall x, x ∈ l -> a < x) /\ increasing l.
Proof.
  unfold increasing. split.
  - intros H. apply StronglySorted_inv in H as [H1 H2]. rewrite Forall_forall in H2. done.
  - intros [H1 H2]. constructor; [done|]. by apply Forall_forall.
Qed.

Lemma increasing_head_ordered l : increasing l -> head_ordered l.
Proof.
  destruct l as [|a [|a' l]]; try done. rewrite increasing_cons. intros [H _]. cbn. apply bool_decide_pack.
  pose proof (H a' ltac:(left)). lia.
Qed.

(** Two increasing lists are merged into the increasing list of their
    elements. *)
Lemma merge_ok pA : forall pB, increasing pA -> increasing pB -> pA <> [] -> pB <> [] ->
  exists l, rowSetEntryMerge pA pB = Some l /\ increasing l /\ l <> [] /\ forall x, x ∈ l <-> x ∈ pA \/ x ∈ pB.
Proof.
  induction pA as [|a pA IHA]; [done|]. intros pB HA. induction pB as [|b pB IHB]; [done|]. intros HB _ _.
  pose proof (increasing_head_ordered _ HA) as HhA. pose proof (increasing_head_ordered _ HB) as HhB.
  pose proof HA as HA0. pose proof HB as HB0. apply increasing_cons in HA as [HaA HA]. apply increasing_cons in HB as [HbB HB].
  assert (head_ordered (a :: pA) && head_ordered (b :: pB) = true) as Hh by (apply andb_true_iff; split; by apply Is_true_true_1).
  cbn [rowSetEntryMerge]. rewrite Hh.
  destruct (decide (a <= b)) as [Hab|Hab].
  - assert (exists l, (match pA with [] => Some (b :: pB) | _ => rowSetEntryMerge pA (b :: pB) end) = Some l
      /\ increasing l /\ l <> [] /\ forall x, x ∈ l <-> x ∈ pA \/ x ∈ b :: pB) as (l & -> & Hl & Hne & Hel).
    { destruct pA as [|a' pA]; [exists (b :: pB); set_solver|]. by apply IHA. }
    cbn [mbind option_bind]. case_decide.
    + exists (a :: l). split; [done|]. split; [|set_solver]. apply increasing_cons. split; [|done].
      intros x Hx. apply Hel in Hx as [Hx|Hx]; [by apply HaA|]. apply elem_of_cons in Hx as [->|Hx]; [done|]. apply HbB in Hx. lia.
    + assert (a = b) as -> by lia. exists l. split; [done|]. split; [done|]. split; [done|]. set_solver.
  - assert (exists l, (match pB with [] => Some (a :: pA) | _ => rowSetEntryMerge (a :: pA) pB end) = Some l
      /\ increasing l /\ l <> [] /\ forall x, x ∈ l <-> x ∈ a :: pA \/ x ∈ pB) as (l & El & Hl & Hne & Hel).
    { destruct pB as [|b' pB]; [exists (a :: pA); set_solver|]. by apply IHB. }
    cbn [rowSetEntryMerge] in El. rewrite El. cbn [mbind option_bind]. exists (b :: l). split; [done|]. split; [|set_solver].
    apply increasing_cons. split; [|done]. intros x Hx. apply Hel in Hx as [Hx|Hx]; [|by apply HbB].
    apply elem_of_cons in Hx as [->|Hx]; [lia|]. apply HaA in Hx. lia.
Qed.

(** Element [i] of the array is empty or a list made of [2^i] entries: [n] is
    the number of entries in the array, in binary. *)
Fixpoint buckets_hold (aBucket : list (list Z)) (n : nat) : Prop :=
  match aBucket with
  | [] => n = 0%nat
  | b :: rest => increasing b /\ exists m, buckets_hold rest m /\ n = (2 * m + if decide (b = []) then 0 else 1)%nat
  end.

Lemma put_bucket_ok aBucket : forall n pIn, buckets_hold aBucket n -> increasing pIn -> pIn <> [] ->
  (n + 1 < 2 ^ length aBucket)%nat ->
  exists aBucket', put_bucket aBucket pIn = Some aBucket' /\ buckets_hold aBucket' (n + 1)
    /\ length aBucket' = length aBucket /\ forall x, x ∈ concat aBucket' <-> x ∈ concat aBucket \/ x ∈ pIn.
Proof.
  induction aBucket as [|b rest IH]; intros n pIn Hb HpIn Hne Hn.
  - cbn in *. lia.
  - destruct Hb as (Hinc & m & Hm & ->). cbn [length] in Hn. rewrite Nat.pow_succ_r' in Hn. destruct b as [|b0 b].
    + cbn [put_bucket]. eexists. split; [done|]. cbn [buckets_hold concat length].
      split; [split; [done|]; exists m; split; [done|]; rewrite decide_True by done; rewrite decide_False by done; lia|].
      split; [done|]. set_solver.
    + cbn [put_bucket]. destruct (merge_ok (b0 :: b) pIn) as (l & -> & Hl & Hlne & Hel); [done..|]. cbn [mbind option_bind].
      rewrite decide_False in Hn |- * by done.
      destruct (IH m l Hm Hl Hlne) as (rest' & -> & Hrest & Hlen & Hel'); [lia|]. cbn [mbind option_bind].
      eexists. split; [done|]. cbn [buckets_hold length]. split.
      * split; [constructor|]. exists (m + 1)%nat. split; [done|]. rewrite decide_True by done. lia.
      * split; [by rewrite Hlen|]. intros x. cbn [concat]. rewrite !elem_of_app, Hel', Hel. set_solver.
Qed.

Lemma merge_buckets_ok aBucket : forall n pIn, buckets_hold aBucket n -> increasing pIn ->
  exists l, merge_buckets pIn aBucket = Some l /\ increasing l /\ forall x, x ∈ l <-> x ∈ pIn \/ x ∈ concat aBucket.
Proof.
  induction aBucket as [|b rest IH]; intros n pIn Hb HpIn; [exists pIn; set_solver|].
  destruct Hb as (Hinc & m & Hm & _). destruct b as [|b0 b]; cbn [merge_buckets concat app]; [by apply (IH m)|].
  assert (exists l, (match pIn with [] => Some (b0 :: b) | _ => rowSetEntryMerge pIn (b0 :: b) end) = Some l
      /\ increasing l /\ forall x, x ∈ l <-> x ∈ pIn \/ x ∈ b0 :: b) as (l & -> & Hl & Hel).
  { destruct pIn as [|p0 pIn]; [exists (b0 :: b); set_solver|].
    destruct (merge_ok (p0 :: pIn) (b0 :: b)) as (l & -> & ? & _ & ?); [done..|]. by exists l. }
  cbn [mbind option_bind]. destruct (IH m l Hm Hl) as (l' & -> & Hl' & Hel'). exists l'. split; [done|]. split; [done|].
  intros x. rewrite Hel', Hel. set_solver.
Qed.

(** A list of fewer than [2^40] entries is sorted. *)
Lemma sort_ok pIn : Z.of_nat (length pIn) < 2 ^ 40 ->
  exists l, rowSetEntrySort pIn = Some l /\ increasing l /\ same_elements l pIn.
Proof.
  intros Hlen. unfold rowSetEntrySort.
  assert (H0 : forall k, buckets_hold (replicate k []) 0) by (induction k; cbn; [done|split; [constructor|by exists 0%nat]]).
  assert (E0 : forall k, concat (replicate k ([] : list Z)) = []) by (by induction k).
  assert (Hfold : forall l aBucket n, buckets_hold aBucket n -> (n + length l < 2 ^ length aBucket)%nat ->
    exists aBucket', foldM (fun aBucket v => put_bucket aBucket [v]) aBucket l = Some aBucket'
      /\ (exists n', buckets_hold aBucket' n') /\ length aBucket' = length aBucket
      /\ forall x, x ∈ concat aBucket' <-> x ∈ concat aBucket \/ x ∈ l).
  { induction l as [|v l IH]; intros aBucket n Hb Hn; cbn [foldM].
    - exists aBucket. split; [done|]. split; [by exists n|]. set_solver.
    - cbn [length] in Hn. destruct (put_bucket_ok aBucket n [v] Hb) as (b1 & -> & Hb1 & Hl1 & He1); [by repeat constructor|done|lia|].
      cbn [mbind option_bind]. destruct (IH b1 (n + 1)%nat Hb1) as (b2 & -> & Hb2 & Hl2 & He2); [rewrite Hl1; lia|].
      exists b2. split; [done|]. split; [done|]. split; [congruence|]. intros x. rewrite He2, He1. set_solver. }
  destruct (Hfold pIn (replicate N_BUCKETS []) 0%nat (H0 _)) as (b & -> & [n Hb] & Hl & Hel).
  { rewrite length_replicate. apply Nat2Z.inj_lt. rewrite Nat2Z.inj_pow. unfold N_BUCKETS. lia. }
  cbn [mbind option_bind]. rewrite length_replicate in Hl. destruct b as [|b0 b]; [done|]. cbn [head default tail].
  destruct Hb as (Hinc & m & Hm & _). destruct (merge_buckets_ok b m b0 Hm Hinc) as (l & Em & Hl' & Hel').
  exists l. split; [done|]. split; [done|]. intros x. rewrite Hel'. rewrite E0 in Hel. cbn [concat] in Hel.
  specialize (Hel x). rewrite elem_of_app in Hel. set_solver.
Qed.

(** ** Trees hold lists *)

Fixpoint inorder (t : tree) : list Z :=
  match t with Null => [] | Entry l v r => inorder l ++ v :: inorder r end.

Fixpoint height (t : tree) : nat :=
  match t with Null => 0 | Entry l _ r => S (Nat.max (height l) (height r)) end.

Lemma tree_to_list_ok t : t <> Null -> rowSetTreeToList t = Some (inorder t).
Proof.
  induction t as [|l IHl v r IHr]; [done|]. intros _. cbn [rowSetTreeToList inorder].
  assert (match l with Null => Some [v] | _ => l ← rowSetTreeToList l; Some (l ++ [v]) end = Some (inorder l ++ [v])) as ->.
  { destruct l; [done|]. by rewrite IHl. }
  cbn [mbind option_bind]. destruct r; [done|]. rewrite IHr by done. cbn [mbind option_bind]. by rewrite <- app_assoc.
Qed.

Lemma NDeepTree_ok d : forall L t L', rowSetNDeepTree (S d) L = (t, L') ->
  L = inorder t ++ L' /\ (height t <= S d)%nat /\ (L' <> [] -> S (length (inorder t)) = (2 ^ S d)%nat).
Proof.
  induction d as [|d IH]; intros [|v L] t L' E.
  1, 3: injection E as <- <-; cbn; split; [done|]; split; [lia|done].
  { injection E as <- <-. cbn. split; [done|]. split; [lia|done]. }
  change (rowSetNDeepTree (S (S d)) (v :: L)) with
    (let '(pLeft, pList) := rowSetNDeepTree (S d) (v :: L) in
     match pList with
     | [] => (pLeft, [])
     | v :: pList => let '(pRight, pList) := rowSetNDeepTree (S d) pList in (Entry pLeft v pRight, pList)
     end) in E.
  destruct (rowSetNDeepTree (S d) (v :: L)) as [l [|v' L1]] eqn:El; apply IH in El as (El & Hl & Hfull).
  - injection E as <- <-. split; [done|]. split; [lia|done].
  - destruct (rowSetNDeepTree (S d) L1) as [r L2] eqn:Er. apply IH in Er as (Er & Hr & Hfull2). injection E as <- <-.
    cbn [inorder height]. rewrite El, <- app_assoc, Er. split; [done|]. split; [lia|]. intros Hne.
    specialize (Hfull ltac:(done)). specialize (Hfull2 Hne). rewrite length_app. cbn [length].
    rewrite (Nat.pow_succ_r' 2 (S d)). lia.
Qed.

(** The tree before iteration [d] is full. *)
Lemma grow_tree_ok fuel : forall p d L, (length L <= fuel)%nat -> (1 <= d)%nat -> p <> Null ->
  (height p <= d)%nat -> (2 ^ (d - 1) <= length (inorder p))%nat -> (L <> [] -> S (length (inorder p)) = (2 ^ d)%nat) ->
  exists t, grow_tree fuel p d L = Some t /\ inorder t = inorder p ++ L /\ t <> Null
    /\ (2 ^ (height t - 1) <= length (inorder t))%nat.
Proof.
  induction fuel as [|fuel IH]; intros p d [|v L] Hf Hd Hp Hh Hlen Hfull; cbn [grow_tree length] in *; try lia.
  1, 2: exists p; rewrite app_nil_r; split; [done|]; split; [done|]; split; [done|];
    transitivity (2 ^ (d - 1))%nat; [apply Nat.pow_le_mono_r; lia|done].
  specialize (Hfull ltac:(done)). destruct d as [|d]; [lia|].
  destruct (rowSetNDeepTree (S d) L) as [r L'] eqn:Er. apply NDeepTree_ok in Er as (-> & Hr & Hrfull).
  destruct (IH (Entry p v r) (S (S d)) L') as (t & -> & Ht & Hne & Hlent).
  - rewrite length_app in Hf. lia.
  - lia.
  - done.
  - cbn [height]. lia.
  - cbn [inorder]. rewrite length_app. cbn [length]. replace (S (S d) - 1)%nat with (S d) by lia. lia.
  - intros HL'. specialize (Hrfull HL'). cbn [inorder]. rewrite length_app. cbn [length]. rewrite (Nat.pow_succ_r' 2 (S d)). lia.
  - exists t. split; [done|]. split; [|done]. rewrite Ht. cbn [inorder]. by rewrite <- app_assoc.
Qed.

Lemma list_to_tree_ok L : L <> [] ->
  exists t, rowSetListToTree L = Some t /\ inorder t = L /\ t <> Null /\ (2 ^ (height t - 1) <= length L)%nat.
Proof.
  destruct L as [|v L]; [done|]. intros _. unfold rowSetListToTree.
  destruct (grow_tree_ok (length L) (Entry Null v Null) 1 L) as (t & -> & Ht & Hne & Hh); cbn; auto with lia; try done.
  exists t. rewrite Ht in *. done.
Qed.

Lemma tree_test_ok t x : increasing (inorder t) -> tree_test t x = true <-> x ∈ inorder t.
Proof.
  induction t as [|l IHl v r IHr]; cbn [tree_test inorder]; [intros _; split; [done|by intros ?%not_elem_of_nil]|].
  intros Hinc. assert (Hl : increasing (inorder l) /\ (forall y, y ∈ inorder l -> y < v) /\ increasing (v :: inorder r)).
  { revert Hinc. generalize (inorder l) as L. induction L as [|a L IH]; cbn [app].
    - intros H. split; [constructor|]. split; [by intros ??%not_elem_of_nil|done].
    - rewrite !increasing_cons. intros [Ha Hi]. destruct (IH Hi) as (H1 & H2 & H3). rewrite increasing_cons in H3.
      split; [split; [|done]; intros; apply Ha; set_solver|]. split; [|done].
      intros y Hy. apply elem_of_cons in Hy as [->|Hy]; [apply Ha; set_solver|by apply H2]. }
  destruct Hl as (Hil & Hlt & Hir). apply increasing_cons in Hir as [Hgt Hir]. rewrite elem_of_app, elem_of_cons.
  case_decide as H1; [|case_decide as H2].
  - rewrite IHr by done. split; [tauto|]. intros [Hx|[Hx|Hx]]; [apply Hlt in Hx; lia|lia|done].
  - rewrite IHl by done. split; [tauto|]. intros [Hx|[Hx|Hx]]; [done|lia|apply Hgt in Hx; lia].
  - assert (x = v) by lia. tauto.
Qed.

(** ** The set *)

(** What a RowSet stands for: the rowids tests see, those of the batch being
    inserted, and the batch number of the last test. *)
Record rowids := { seen : gset Z; pending : gset Z; batch : Z }.

Inductive rs_op :=
  | RsInsert (rowid : Z)
  | RsTest (iBatch rowid : Z).

(** A test with another batch number than the last one first lets the pending
    rowids be seen. *)
Definition rs_spec (o : rs_op) (s : rowids) : option bool * rowids :=
  match o with
  | RsInsert x => (None, {| seen := seen s; pending := {[x]} ∪ pending s; batch := batch s |})
  | RsTest b x =>
      let s := if decide (b <> batch s) then {| seen := seen s ∪ pending s; pending := ∅; batch := b |} else s in
      (Some (bool_decide (x ∈ seen s)), s)
  end.

Definition rs_step (o : rs_op) (p : RowSet) : option (option bool * RowSet) :=
  match o with
  | RsInsert x => p ← sqlite3RowSetInsert true p x; Some (None, p)
  | RsTest b x => '(r, p) ← sqlite3RowSetTest true p b x; Some (Some r, p)
  end.

Definition tree_ok (t : tree) : Prop := increasing (inorder t) /\ (t <> Null -> (2 ^ (height t - 1) <= length (inorder t))%nat).

Definition forest_elements (f : list tree) : list Z := concat (inorder <$> f).

(** [n] bounds the number of entries of the current batch. *)
Record rowset_ok (n : nat) (s : rowids) (p : RowSet) : Prop := {
  ok_forest : Forall tree_ok (pForest p);
  ok_seen : forall x, x ∈ seen s <-> x ∈ forest_elements (pForest p);
  ok_pending : forall x, x ∈ pending s <-> x ∈ pEntry p;
  ok_batch : batch s = iBatch p;
  ok_flags : rsFlags p = 0 \/ rsFlags p = 1 /\ increasing (pEntry p);
  ok_len : (length (pEntry p) <= n)%nat }.

Lemma init_ok N : rowset_ok 0 {| seen := ∅; pending := ∅; batch := 0 |} (sqlite3RowSetInit N).
Proof. split; cbn; try done; [set_solver|set_solver|]. right. split; [done|constructor]. Qed.

Lemma alloc_true p : exists p', rowSetEntryAlloc true p = Some p' /\ pEntry p' = pEntry p /\ pForest p' = pForest p
  /\ rsFlags p' = rsFlags p /\ iBatch p' = iBatch p.
Proof. unfold rowSetEntryAlloc. case_decide; eexists; split; done. Qed.

Lemma increasing_snoc l x : increasing l -> (forall y, last l = Some y -> y < x) -> increasing (l ++ [x]).
Proof.
  induction l as [|a l IH]; intros Hl Hx; [repeat constructor|]. apply increasing_cons in Hl as [Ha Hl].
  cbn [app]. apply increasing_cons. split.
  - intros y Hy. apply elem_of_app in Hy as [Hy|Hy]; [by apply Ha|]. apply list_elem_of_singleton in Hy as ->.
    destruct l as [|b l]; [by apply Hx|]. destruct (last (b :: l)) as [z|] eqn:Ez; [|by apply last_None in Ez].
    transitivity z; [apply Ha; by apply last_Some_elem_of|]. apply Hx. by cbn in *.
  - apply IH; [done|]. intros y Hy. apply Hx. destruct l; [done|]. done.
Qed.

Lemma insert_step n s p x : rowset_ok n s p ->
  exists p', sqlite3RowSetInsert true p x = Some p'
    /\ rowset_ok (S n) {| seen := seen s; pending := {[x]} ∪ pending s; batch := batch s |} p'.
Proof.
  intros [Hf Hs Hp Hb Hfl Hlen]. unfold sqlite3RowSetInsert.
  assert (has_flag p ROWSET_NEXT = false) as -> by (unfold has_flag; by destruct Hfl as [->|[-> _]]).
  destruct (alloc_true p) as (p' & -> & Ee & Ef & Er & Eb). eexists. split; [done|]. split; cbn; rewrite ?Ee, ?Ef, ?Er, ?Eb; try done.
  - set_solver.
  - destruct Hfl as [->|[-> Hinc]]; [left; destruct (last _); [|done]; by case_decide|].
    destruct (last (pEntry p)) as [v|] eqn:El.
    + case_decide as Hx; [by left|]. right. split; [done|]. apply increasing_snoc; [done|]. rewrite El. intros y [= ->]. lia.
    + right. split; [done|]. apply increasing_snoc; [done|]. by rewrite El.
  - rewrite length_app. cbn. lia.
Qed.

(** The list is put in the forest. *)
Lemma forest_add_ok f : forall l, Forall tree_ok f -> increasing l -> l <> [] ->
  exists f' r, forest_add f l = Some (f', r) /\ Forall tree_ok f'
    /\ match r with None => True | Some l' => increasing l' /\ l' <> [] end
    /\ forall x, x ∈ forest_elements f' \/ x ∈ default [] r <-> x ∈ forest_elements f \/ x ∈ l.
Proof.
  induction f as [|t f IH]; intros l Hf Hl Hne; [exists [], (Some l); cbn; done|].
  apply Forall_cons in Hf as [[Ht Hht] Hf]. cbn [forest_add]. destruct t as [|tl v tr].
  - destruct (list_to_tree_ok l Hne) as (t & -> & Hin & Htn & Hh). cbn [mbind option_bind].
    exists (t :: f), None. split; [done|]. split; [|split; [done|]].
    + apply Forall_cons. split; [|done]. split; rewrite Hin; done.
    + intros x. unfold forest_elements. cbn. rewrite Hin. set_solver.
  - set (t := Entry tl v tr) in *. rewrite tree_to_list_ok by done. cbn [mbind option_bind].
    destruct (merge_ok (inorder t) l Ht Hl) as (l1 & -> & Hl1 & Hne1 & Hel1); [intros E; by apply app_eq_nil in E as [_ E]|done|].
    cbn [mbind option_bind]. destruct (IH l1 Hf Hl1 Hne1) as (f' & r & -> & Hf' & Hr & Hel). cbn [mbind option_bind].
    exists (Null :: f'), r. split; [done|]. split; [|split; [done|]].
    + apply Forall_cons. split; [|done]. split; [constructor|done].
    + intros x. unfold forest_elements in *. cbn [fmap list_fmap concat inorder app]. rewrite Hel, Hel1. set_solver.
Qed.

Lemma new_batch_ok n s p b : rowset_ok n s p -> Z.of_nat n < 2 ^ 40 ->
  exists p', new_batch true p b = Some p'
    /\ rowset_ok n {| seen := seen s ∪ pending s; pending := ∅; batch := b |} p'.
Proof.
  intros [Hf Hs Hp Hb Hfl Hlen] Hn. unfold new_batch. destruct (pEntry p) as [|x0 l0] eqn:Ep.
  - eexists. split; [done|]. split; cbn; rewrite ?Ep; try done; set_solver.
  - rewrite <- Ep in *. assert (Hne : pEntry p <> []) by by rewrite Ep. clear Ep x0 l0.
    assert (exists l, (if has_flag p ROWSET_SORTED then Some (pEntry p) else rowSetEntrySort (pEntry p)) = Some l
      /\ increasing l /\ same_elements l (pEntry p)) as (l & -> & Hl & Hel).
    { unfold has_flag. destruct Hfl as [->|[-> Hinc]]; [|by exists (pEntry p)]. apply sort_ok. lia. }
    assert (Hlne : l <> []).
    { intros ->. destruct (pEntry p) as [|x l]; [done|]. specialize (Hel x). set_solver. }
    cbn [mbind option_bind]. destruct (forest_add_ok (pForest p) l Hf Hl Hlne) as (f & r & -> & Hf' & Hr & Helf).
    cbn [mbind option_bind].
    assert (exists p', (match r with
              | None => Some (with_forest p f)
              | Some l => match rowSetEntryAlloc true (with_forest p f) with
                          | Some p => t ← rowSetListToTree l; Some (with_forest p (f ++ [t]))
                          | None => Some (with_forest p f)
                          end
              end) = Some p' /\ Forall tree_ok (pForest p') /\ rsFlags p' = rsFlags p
        /\ forall x, x ∈ forest_elements (pForest p') <-> x ∈ forest_elements f \/ x ∈ default [] r) as (p' & -> & Hfp & Hflp & Help).
    { destruct r as [l'|]; [|exists (with_forest p f); split; [done|]; split; [done|]; split; [done|]; cbn; set_solver].
      destruct Hr as [Hr1 Hr2]. destruct (alloc_true (with_forest p f)) as (p1 & -> & _ & _ & Er & _).
      destruct (list_to_tree_ok l' Hr2) as (t & -> & Hin & Htn & Hh). cbn [mbind option_bind]. eexists. split; [done|].
      cbn [pForest with_forest rsFlags]. split; [apply Forall_app; split; [done|]; apply Forall_singleton; split; rewrite Hin; done|].
      split; [done|]. intros x. unfold forest_elements. rewrite fmap_app, concat_app. cbn. rewrite Hin, app_nil_r. set_solver. }
    cbn [mbind option_bind]. eexists. split; [done|]. split; cbn; try done.
    + intros x. rewrite Help, Helf, elem_of_union, Hs, Hp. specialize (Hel x). tauto.
    + set_solver.
    + right. split; [destruct Hfl as [Hfl|[Hfl _]]; by rewrite Hflp, Hfl|constructor].
    + lia.
Qed.

Lemma forest_test f x : Forall tree_ok f -> existsb (fun t => tree_test t x) f = bool_decide (x ∈ forest_elements f).
Proof.
  induction 1 as [|t f [Ht _] Hf IH]; [by rewrite bool_decide_eq_false_2 by apply not_elem_of_nil|].
  cbn [existsb]. rewrite IH. apply (tree_test_ok t x) in Ht. apply eq_bool_prop_intro.
  rewrite orb_True, !bool_decide_spec, Is_true_true, Ht. unfold forest_elements. cbn. by rewrite elem_of_app.
Qed.

Lemma rs_step_ok n o s p : rowset_ok n s p -> Z.of_nat n < 2 ^ 40 ->
  exists p', rs_step o p = Some ((rs_spec o s).1, p') /\ rowset_ok (S n) (rs_spec o s).2 p'.
Proof.
  intros Hok Hn. destruct o as [x|b x]; cbn [rs_step rs_spec fst snd].
  - destruct (insert_step n s p x Hok) as (p' & -> & Hok'). by exists p'.
  - unfold sqlite3RowSetTest.
    assert (has_flag p ROWSET_NEXT = false) as -> by (unfold has_flag; by destruct (ok_flags _ _ _ Hok) as [->|[-> _]]).
    assert (exists p', (if decide (b <> iBatch p) then new_batch true p b else Some p) = Some p'
      /\ rowset_ok n (if decide (b <> batch s) then {| seen := seen s ∪ pending s; pending := ∅; batch := b |} else s) p')
      as (p' & -> & Hok').
    { rewrite (ok_batch _ _ _ Hok). case_decide; [by apply new_batch_ok|by exists p]. }
    cbn [mbind option_bind]. exists p'. set (s' := if decide (b <> batch s) then _ else _) in *.
    rewrite forest_test by apply Hok'. split.
    + do 4 f_equal. apply bool_decide_ext. symmetry. apply Hok'.
    + destruct Hok' as [????? Hlen]. split; try done. lia.
Qed.

Fixpoint rs_run (ops : list rs_op) (p : RowSet) : option (list (option bool) * RowSet) :=
  match ops with
  | [] => Some ([], p)
  | o :: ops => '(r, p) ← rs_step o p; '(rs, p) ← rs_run ops p; Some (r :: rs, p)
  end.

Fixpoint rs_run_spec (ops : list rs_op) (s : rowids) : list (option bool) * rowids :=
  match ops with
  | [] => ([], s)
  | o :: ops => let '(r, s) := rs_spec o s in let '(rs, s) := rs_run_spec ops s in (r :: rs, s)
  end.

Lemma rs_run_ok ops : forall n s p, rowset_ok n s p -> Z.of_nat (n + length ops) < 2 ^ 40 ->
  exists p', rs_run ops p = Some ((rs_run_spec ops s).1, p') /\ rowset_ok (n + length ops) (rs_run_spec ops s).2 p'.
Proof.
  induction ops as [|o ops IH]; intros n s p Hok Hn; cbn [rs_run rs_run_spec length] in *.
  - exists p. rewrite Nat.add_0_r. done.
  - destruct (rs_step_ok n o s p Hok) as (p1 & -> & Hok1); [lia|]. cbn [mbind option_bind].
    destruct (rs_spec o s) as [r s1]. cbn [fst snd] in *. destruct (IH (S n) s1 p1 Hok1) as (p2 & -> & Hok2); [lia|].
    cbn [mbind option_bind]. destruct (rs_run_spec ops s1) as [rs s2]. exists p2. split; [done|].
    by replace (n + S (length ops))%nat with (S n + length ops)%nat by lia.
Qed.

(** C27: Tests see exactly the rowids inserted before the batch number last
    changed, for every sequence of insertions and tests; no tree of the forest is deeper
    than one more than the logarithm of the number of its entries. *)
Theorem rowset_tests_batches N ops : Z.of_nat (length ops) < 2 ^ 40 ->
  exists p, rs_run ops (sqlite3RowSetInit N)
            = Some ((rs_run_spec ops {| seen := ∅; pending := ∅; batch := 0 |}).1, p)
    /\ Forall (fun t => t = Null \/ (height t <= S (Nat.log2 (length (inorder t))))%nat) (pForest p).
Proof.
  intros Hn. destruct (rs_run_ok ops 0 _ _ (init_ok N) Hn) as (p & -> & Hok). exists p. split; [done|].
  apply (list.Forall_impl _ _ _ (ok_forest _ _ _ Hok)). intros t [_ Ht]. destruct (decide (height t = 0%nat)) as [E|E].
  - left. by destruct t.
  - right. destruct t; [done|]. specialize (Ht ltac:(done)).
    apply Nat.log2_le_mono in Ht. rewrite Nat.log2_pow2 in Ht by lia. lia.
Qed.

Lemma rowset_tests_batches_witness :
  let ops := [RsInsert 5; RsInsert 3; RsTest 0 5; RsTest 1 5; RsInsert 9; RsTest 1 9; RsTest 2 9; RsTest 2 3; RsTest 2 4] in
  (rs_run_spec ops {| seen := ∅; pending := ∅; batch := 0 |}).1
  = [None; None; Some false; Some true; None; Some false; Some true; Some true; Some false] /\
  exists p, rs_run ops (sqlite3RowSetInit 512)
            = Some ((rs_run_spec ops {| seen := ∅; pending := ∅; batch := 0 |}).1, p)
    /\ Forall (fun t => t = Null \/ (height t <= S (Nat.log2 (length (inorder t))))%nat) (pForest p).
Proof. intros ops. split; [by vm_compute|]. apply rowset_tests_batches. by vm_compute. Defined.

(** ** Extraction *)

Definition insert_all (xs : list Z) (p : RowSet) : option RowSet := foldM (sqlite3RowSetInsert true) p xs.

(** [sqlite3RowSetNext] called until it returns 0. *)
Fixpoint drain (fuel : nat) (p : RowSet) : option (list Z) :=
  match fuel with
  | O => None
  | S fuel =>
      '(r, p) ← sqlite3RowSetNext p;
      match r with None => Some [] | Some v => vs ← drain fuel p; Some (v :: vs) end
  end.

Lemma drain_ok l : forall fuel p, (length l < fuel)%nat -> pForest p = [] -> pEntry p = l -> rsFlags p = 3 ->
  drain fuel p = Some l.
Proof.
  induction l as [|v l IH]; intros [|fuel] p Hf Hfo Hl Hfl; cbn [length] in Hf; try lia; cbn [drain]; unfold sqlite3RowSetNext;
    (assert (has_flag p ROWSET_NEXT = true) as -> by (unfold has_flag; by rewrite Hfl));
    rewrite decide_True by done; cbn [mbind option_bind]; rewrite Hl; cbn [mbind option_bind]; [done|].
  destruct l as [|v' l].
  - destruct fuel as [|fuel]; [cbn in Hf; lia|]. done.
  - rewrite IH; [done|lia|done..].
Qed.

Lemma increasing_NoDup l : increasing l -> NoDup l.
Proof.
  induction l as [|a l IH]; intros Hl; [constructor|]. apply increasing_cons in Hl as [Ha Hl]. apply NoDup_cons.
  split; [|by apply IH]. intros Hin. apply Ha in Hin. lia.
Qed.

(** Draining a RowSet gives the rowids inserted, each once and in increasing
    order, and then ends. *)
Theorem rowset_extracts_sorted N xs : Z.of_nat (length xs) < 2 ^ 40 ->
  exists p l, insert_all xs (sqlite3RowSetInit N) = Some p /\ drain (S (length xs)) p = Some l
    /\ StronglySorted Z.lt l /\ forall x, x ∈ l <-> x ∈ xs.
Proof.
  intros Hn.
  assert (H : forall ys n s p, rowset_ok n s p -> exists p' s', insert_all ys p = Some p' /\ rowset_ok (n + length ys) s' p'
             /\ pEntry p' = pEntry p ++ ys /\ pForest p' = pForest p).
  { induction ys as [|y ys IH]; intros n s p Hok; cbn [length].
    - exists p, s. rewrite app_nil_r, Nat.add_0_r. done.
    - destruct (insert_step n s p y Hok) as (p1 & E1 & Hok1). unfold insert_all. cbn [foldM]. rewrite E1. cbn [mbind option_bind].
      assert (pEntry p1 = pEntry p ++ [y] /\ pForest p1 = pForest p) as [Ee Ef].
      { revert E1. unfold sqlite3RowSetInsert. destruct (has_flag _ _); [done|].
        destruct (alloc_true p) as (p' & -> & He & Hf & _). intros [= <-]. cbn. by rewrite He. }
      destruct (IH _ _ _ Hok1) as (p2 & s2 & E2 & Hok2 & Ee2 & Ef2). exists p2, s2. split; [done|].
      replace (n + S (length ys))%nat with (S n + length ys)%nat by lia. split; [done|].
      rewrite Ee2, Ef2, Ee, Ef, <- app_assoc. done. }
  destruct (H xs 0%nat _ _ (init_ok N)) as (p & s & E & Hok & Ee & Ef). clear H. cbn in Ee, Ef. exists p.
  assert (Hs : exists l, (if has_flag p ROWSET_SORTED then Some (pEntry p) else rowSetEntrySort (pEntry p)) = Some l
      /\ increasing l /\ same_elements l xs).
  { rewrite <- Ee. unfold has_flag. destruct (ok_flags _ _ _ Hok) as [->|[-> Hinc]]; [|by exists (pEntry p)].
    apply sort_ok. rewrite Ee. done. }
  destruct Hs as (l & Hsort & Hl & Hel). exists l. split; [done|]. split; [|done].
  set (q := {| pChunk := pChunk p; pEntry := l; pForest := []; nFresh := nFresh p; rsFlags := 3; iBatch := iBatch p |}).
  assert (Hq : sqlite3RowSetNext p = sqlite3RowSetNext q).
  { unfold sqlite3RowSetNext. rewrite Ef. cbn [pForest q]. rewrite !decide_True by done.
    assert (has_flag p ROWSET_NEXT = false) as -> by (unfold has_flag; by destruct (ok_flags _ _ _ Hok) as [->|[-> _]]).
    rewrite Hsort. cbn [mbind option_bind]. do 2 f_equal.
    by destruct (ok_flags _ _ _ Hok) as [->|[-> _]]. }
  rewrite <- (drain_ok l (S (length xs)) q); [cbn [drain]; by rewrite Hq| |done..].
  apply increasing_NoDup in Hl. apply Nat.lt_succ_r, submseteq_length, NoDup_submseteq; [done|]. intros x. apply Hel.
Qed.

(** The list of the witness is not sorted and has a duplicate. *)
Lemma rowset_extracts_sorted_witness :
  (p ← insert_all [7; -2; 7; 30; 1] (sqlite3RowSetInit 512); drain 6 p) = Some [-2; 1; 7; 30] /\
  exists p l, insert_all [7; -2; 7; 30; 1] (sqlite3RowSetInit 512) = Some p /\ drain (S (length [7; -2; 7; 30; 1])) p = Some l
    /\ StronglySorted Z.lt l /\ forall x, x ∈ l <-> x ∈ [7; -2; 7; 30; 1].
Proof. split; [by vm_compute|]. apply rowset_extracts_sorted. by vm_compute. Defined.
