(* ===== verification/SqlInt.v ===== *)
(** * Integers and their text

    [sqlite/sqlite3.c] (util.c): 64-bit arithmetic that reports overflow, the
    conversions between integers and text, hexadecimal literals, and
    the logarithmic estimates of the query planner.

    The library is compiled by gcc, for which several routines use the
    compiler's builtins; the code for other compilers is modelled beside
    them, with the suffix [_portable].  A C string is the list of its bytes before
    the NUL. *)

From S2P Require Import Prelude Bits SqlText.

Definition LARGEST_INT64 : Z := Z.lor 0xffffffff (Z.shiftl 0x7fffffff 32).
Definition SMALLEST_INT64 : Z := (-1) - LARGEST_INT64.

(** ** Arithmetic *)

(** A result code, and the new value of [*pA]. *)
Abbreviation checked := (bool * Z)%type.

(** [__builtin_add_overflow(a, b, &r)] and the like: whether the exact result
    [x] does not fit, and the result modulo 2^64. *)
Definition builtin_overflow (x : Z) : checked := (negb (bool_decide (in_s 64 x)), i64 x).

Definition sqlite3AddInt64 (pA iB : Z) : checked := builtin_overflow (pA + iB).
Definition sqlite3SubInt64 (pA iB : Z) : checked := builtin_overflow (pA - iB).
Definition sqlite3MulInt64 (pA iB : Z) : checked := builtin_overflow (pA * iB).

Definition sqlite3AddInt64_portable (iA iB : Z) : checked :=
  if decide (0 <= iB) then
    if decide (0 < iA /\ LARGEST_INT64 - iA < iB) then (true, iA) else (false, iA + iB)
  else
    if decide (iA < 0 /\ - (iA + LARGEST_INT64) > iB + 1) then (true, iA) else (false, iA + iB).

Definition sqlite3SubInt64_portable (iA iB : Z) : checked :=
  if decide (iB = SMALLEST_INT64) then
    if decide (0 <= iA) then (true, iA) else (false, iA - iB)
  else sqlite3AddInt64_portable iA (- iB).

(** The divisions truncate. *)
Definition sqlite3MulInt64_portable (iA iB : Z) : checked :=
  let overflow :=
    if decide (0 < iB) then
      if decide (iA > Z.quot LARGEST_INT64 iB) then true
      else bool_decide (iA < Z.quot SMALLEST_INT64 iB)
    else if decide (iB < 0) then
      if decide (0 < iA) then bool_decide (iB < Z.quot SMALLEST_INT64 iA)
      else if decide (iA < 0) then
        if decide (iB = SMALLEST_INT64) then true
        else if decide (iA = SMALLEST_INT64) then true
        else bool_decide (- iA > Z.quot LARGEST_INT64 (- iB))
      else false
    else false in
  if overflow then (true, iA) else (false, iA * iB).

Definition sqlite3AbsInt32 (x : Z) : Z :=
  if decide (0 <= x) then x else if decide (x = i32 0x80000000) then 0x7fffffff else - x.

(** ** Decimal text *)

Fixpoint skip (f : Z -> bool) (z : bytes) : bytes :=
  match z with c :: z' => if f c then skip f z' else z | [] => [] end.

Definition is_zero (c : Z) : bool := bool_decide (c = 48).
Definition is_digit (c : Z) : bool := bool_decide (48 <= c <= 57).

(** The loop over the digits: the number, how many there are, what follows. *)
Fixpoint read_digits (z : bytes) (u : Z) (i : nat) : Z * nat * bytes :=
  match z with
  | c :: z' => if is_digit c then read_digits z' (u64 (u64 (u * 10) + c - 48)) (S i) else (u, i, z)
  | [] => (u, i, [])
  end.

Definition pow63 : list Z := [57; 50; 50; 51; 51; 55; 50; 48; 51; 54; 56; 53; 52; 55; 55; 53; 56; 48].

(** The loop over the first 18 digits, and the last digit. *)
Fixpoint compare_digits (zNum pow : list Z) : Z :=
  match pow with
  | [] => 0
  | d :: pow => let c := (peek zNum - d) * 10 in if decide (c = 0) then compare_digits (tail zNum) pow else c
  end.

Definition compare2pow63 (zNum : list Z) : Z :=
  let c := compare_digits zNum pow63 in
  if decide (c = 0) then peek (drop 18 zNum) - 56 else c.

Definition sign_of (z : bytes) : bool * bytes :=
  match z with
  | c :: z' => if decide (c = 45) then (true, z') else if decide (c = 43) then (false, z') else (false, z)
  | [] => (false, [])
  end.

(** [sqlite3Atoi64] on the characters from [zNum] to [zEnd]: the number and the code. *)
Definition Atoi64_chars (zNum : bytes) (nonNum : bool) : Z * Z :=
  let '(neg, zStart) := sign_of (skip sqlite3Isspace zNum) in
  let zNum := skip is_zero zStart in
  let '(u, i, rest) := read_digits zNum 0 0 in
  let limit := if neg : bool then SMALLEST_INT64 else LARGEST_INT64 in
  let num := if decide (u > LARGEST_INT64) then limit else if neg then - u else u in
  let rc := if decide (i = 0%nat /\ length zStart = length zNum) then -1
            else if nonNum then 1
            else if existsb (fun c => negb (sqlite3Isspace c)) rest then 1 else 0 in
  if decide (i < 19)%nat then (num, rc)
  else
    let c := if decide (19 < i)%nat then 1 else compare2pow63 zNum in
    if decide (c < 0) then (num, rc)
    else (limit, if decide (c > 0) then 2 else if neg then rc else 3).

Definition SQLITE_UTF8 : Z := 1.
Definition SQLITE_UTF16LE : Z := 2.
Definition SQLITE_UTF16BE : Z := 3.

(** The characters of UTF-16 text before the first one with a high byte. *)
Fixpoint low_bytes (enc : Z) (z : bytes) : bytes * bool :=
  match z with
  | b0 :: b1 :: z =>
      let '(lo, hi) := if decide (enc = SQLITE_UTF16LE) then (b0, b1) else (b1, b0) in
      if decide (hi = 0) then let '(l, nonNum) := low_bytes enc z in (lo :: l, nonNum) else ([], true)
  | _ => ([], false)
  end.

(** [z] are the [length] bytes from [zNum] on. *)
Definition sqlite3Atoi64 (z : bytes) (enc : Z) : Z * Z :=
  if decide (enc = SQLITE_UTF8) then Atoi64_chars z false
  else let '(l, nonNum) := low_bytes enc z in Atoi64_chars l nonNum.

(** The loop that fills [zTemp] from index [i] down; an index below 0 is
    outside of it. *)
Fixpoint fill_digits (fuel : nat) (i x : Z) (text : bytes) : option (Z * bytes) :=
  match fuel with
  | O => None
  | S fuel =>
      if decide (i < 0) then None
      else
        let text := (x mod 10 + 48) :: text in
        if decide (x / 10 = 0) then Some (i, text) else fill_digits fuel (i - 1) (x / 10) text
  end.

(** The text and its length. *)
Definition sqlite3Int64ToText (v : Z) : option (bytes * Z) :=
  let x := if decide (v < 0) then if decide (v = SMALLEST_INT64) then Z.shiftl 1 63 else u64 (- v) else u64 v in
  '(i, text) ← fill_digits 21 20 x [];
  if decide (v < 0) then
    if decide (i - 1 < 0) then None else Some (45 :: text, 21 - (i - 1))
  else Some (text, 21 - i).

(** ** Other conversions *)

(** The assert is that [h] is a hexadecimal digit. *)
Definition sqlite3HexToInt (h : Z) : Z :=
  u8 (Z.land (h + 9 * Z.land 1 (Z.shiftr h 6)) 0xf).

(** A loop over hexadecimal digits that keeps [w] bits: the number, and what is left. *)
Fixpoint read_hex (w : Z) (limit : nat) (z : bytes) (u : Z) : Z * bytes :=
  match limit, z with
  | S limit, c :: z' =>
      if sqlite3Isxdigit c then read_hex w limit z' (wrapu w (wrapu w (u * 16) + sqlite3HexToInt c)) else (u, z)
  | _, _ => (u, z)
  end.

Definition is_x (c : Z) : bool := bool_decide (c = 120 \/ c = 88).

(** Characters accepted by [strspn(z, "+- \n\t0123456789")]. *)
Definition in_number (c : Z) : bool := bool_decide (c = 43 \/ c = 45 \/ c = 32 \/ c = 10 \/ c = 9) || is_digit c.

Definition sqlite3DecOrHexToI64 (z : bytes) : Z * Z :=
  if decide (peek z = 48 /\ is_x (peek (tail z))) then
    let z := skip is_zero (tail (tail z)) in
    let '(u, rest) := read_hex 64 (length z) z 0 in
    (i64 u, if decide (16 < length z - length rest)%nat then 2 else if decide (rest <> []) then 1 else 0)
  else
    let n := (length z - length (skip in_number z))%nat in
    let n := if decide (drop n z <> []) then S n else n in
    sqlite3Atoi64 (take n z) SQLITE_UTF8.

(** [None] is "not a 32-bit integer". *)
Definition GetInt32_dec (neg : bool) (zNum : bytes) : option Z :=
  if negb (sqlite3Isdigit (peek zNum)) then None
  else
    let zNum := skip is_zero zNum in
    let '(v, i, _) := read_digits (take 11 zNum) 0 0 in
    if decide (10 < i)%nat then None
    else if decide (v - (if neg then 1 else 0) > 2147483647) then None
    else Some (if neg then - v else v).

Definition sqlite3GetInt32 (zNum : bytes) : option Z :=
  match zNum with
  | c :: z =>
      if decide (c = 45) then GetInt32_dec true z
      else if decide (c = 43) then GetInt32_dec false z
      else if decide (c = 48 /\ is_x (peek z) /\ sqlite3Isxdigit (peek (tail z))) then
        let '(u, rest) := read_hex 32 8 (skip is_zero (tail z)) 0 in
        if decide (Z.land u 0x80000000 = 0 /\ sqlite3Isxdigit (peek rest) = false) then Some (i32 u) else None
      else GetInt32_dec false zNum
  | [] => GetInt32_dec false []
  end.

Definition sqlite3Atoi (z : bytes) : Z := default 0 (sqlite3GetInt32 z).

(** The loop: the number, how many digits, what follows; [None] when it is too large. *)
Fixpoint read_u32 (z : bytes) (v : Z) (i : nat) : option (Z * nat * bytes) :=
  match z with
  | c :: z' =>
      if sqlite3Isdigit c then
        let v := u64 (v * 10 + c - 48) in
        if decide (v > 4294967296) then None else read_u32 z' v (S i)
      else Some (v, i, z)
  | [] => Some (v, i, [])
  end.

Definition sqlite3GetUInt32 (z : bytes) : bool * Z :=
  match read_u32 z 0 0 with
  | None => (false, 0)
  | Some (v, i, rest) => if decide (i = 0%nat \/ rest <> []) then (false, 0) else (true, u32 v)
  end.

(** The bytes the digits stand for, with the NUL after them. *)
Fixpoint hex_pairs (z : bytes) : bytes :=
  match z with
  | a :: b :: z => Z.lor (u8 (Z.shiftl (sqlite3HexToInt a) 4)) (sqlite3HexToInt b) :: hex_pairs z
  | _ => []
  end.

Definition sqlite3HexToBlob (z : bytes) : bytes := hex_pairs z ++ [0].

(** ** Estimates *)

(** [x[]] of [sqlite3LogEstAdd]. *)
Definition log_add : list Z :=
  [10; 10; 9; 9; 8; 8; 7; 7; 7; 6; 6; 6; 5; 5; 5; 4; 4; 4; 4; 3; 3; 3; 3; 3; 3; 2; 2; 2; 2; 2; 2; 2].

Definition sqlite3LogEstAdd (a b : Z) : option Z :=
  if decide (b <= a) then
    if decide (b + 49 < a) then Some a
    else if decide (b + 31 < a) then Some (wraps 16 (a + 1))
    else y ← log_add !! Z.to_nat (a - b); Some (wraps 16 (a + y))
  else
    if decide (a + 49 < b) then Some b
    else if decide (a + 31 < b) then Some (wraps 16 (b + 1))
    else y ← log_add !! Z.to_nat (b - a); Some (wraps 16 (b + y)).

Definition log_a : list Z := [0; 2; 3; 5; 6; 7; 8; 9].

(** The loop on small numbers. *)
Definition log_small (x y : Z) : Z * Z :=
  if decide (x < 4) then (Z.shiftl (Z.shiftl x 1) 1, y - 20) else (Z.shiftl x 1, y - 10).

Definition log_entry (x y : Z) : option Z := a ← log_a !! Z.to_nat (Z.land x 7); Some (a + y - 10).

Definition sqlite3LogEst (x : Z) : option Z :=
  if decide (x < 8) then
    if decide (x < 2) then Some 0 else let '(x, y) := log_small x 40 in log_entry x y
  else
    let i := 60 - (63 - Z.log2 x) in
    log_entry (Z.shiftr x i) (40 + i * 10).

(** One of the two loops [while( x>top ){ y += dy; x >>= k; }]. *)
Fixpoint log_loop (fuel : nat) (top dy k x y : Z) : option (Z * Z) :=
  if decide (top < x) then
    match fuel with O => None | S fuel => log_loop fuel top dy k (Z.shiftr x k) (y + dy) end
  else Some (x, y).

Definition sqlite3LogEst_portable (x : Z) : option Z :=
  if decide (x < 8) then
    if decide (x < 2) then Some 0 else let '(x, y) := log_small x 40 in log_entry x y
  else
    '(x, y) ← log_loop 64 255 40 4 x 40;
    '(x, y) ← log_loop 64 15 10 1 x y;
    log_entry x y.

Definition sqlite3LogEstToInt (x : Z) : Z :=
  let n := u64 (Z.rem x 10) in
  let x := Z.quot x 10 in
  let n := if decide (5 <= n) then n - 2 else if decide (1 <= n) then n - 1 else n in
  if decide (x > 60) then LARGEST_INT64
  else if decide (3 <= x) then shl64 (n + 8) (x - 3) else Z.shiftr (u64 (n + 8)) (3 - x).

(** ** Arithmetic *)

Lemma LARGEST_eq : LARGEST_INT64 = 2 ^ 63 - 1.
Proof. reflexivity. Qed.

Lemma SMALLEST_eq : SMALLEST_INT64 = - 2 ^ 63.
Proof. reflexivity. Qed.

(** What a routine with overflow detection promises, for the exact result [x]. *)
Definition detects (x : Z) (r : checked) : Prop := (r.1 = true <-> ~ in_s 64 x) /\ (r.1 = false -> r.2 = x).

Lemma builtin_detects x : detects x (builtin_overflow x).
Proof.
  unfold detects, builtin_overflow. cbn [fst snd]. split.
  - rewrite negb_true_iff, bool_decide_eq_false. done.
  - intros H. apply negb_false_iff, bool_decide_eq_true in H. by apply wraps_id.
Qed.

Lemma detects_fst x r r' : detects x r -> detects x r' -> r.1 = r'.1 /\ (r.1 = false -> r.2 = r'.2).
Proof.
  intros [H1 H2] [H1' H2']. assert (r.1 = r'.1) as E.
  { destruct r.1, r'.1; try done; [symmetry; apply H1', H1; done|apply H1, H1'; done]. }
  split; [done|]. intros E'. rewrite H2, H2'; congruence.
Qed.

Ltac int64 := unfold in_s in *; rewrite ?LARGEST_eq, ?SMALLEST_eq in *; change (64 - 1) with 63 in *.

Lemma add_portable_detects a b : in_s 64 a -> in_s 64 b -> detects (a + b) (sqlite3AddInt64_portable a b).
Proof.
  intros Ha Hb. unfold sqlite3AddInt64_portable, detects. int64. case_decide; case_decide; cbn; split; try done; split; (done || lia).
Qed.

Lemma sub_portable_detects a b : in_s 64 a -> in_s 64 b -> detects (a - b) (sqlite3SubInt64_portable a b).
Proof.
  intros Ha Hb. unfold sqlite3SubInt64_portable. case_decide as E.
  - subst. int64. unfold detects. case_decide; cbn; split; try done; int64; split; (done || lia).
  - rewrite <- Z.add_opp_r. apply add_portable_detects; [done|]. int64. lia.
Qed.

Lemma quot_le_mul k n x : 0 < k -> 0 <= n -> (x <= Z.quot n k <-> x * k <= n).
Proof. intros Hk Hn. rewrite Z.quot_div_nonneg by lia. split; intros; [pose proof (Z.mul_div_le n k); nia|apply Z.div_le_lower_bound; lia]. Qed.

(** For a negative numerator the truncated quotient is the least integer whose product is not below it. *)
Lemma quot_ge_mul k n x : 0 < k -> n <= 0 -> (Z.quot n k <= x <-> n <= x * k).
Proof.
  intros Hk Hn. replace n with (- (- n)) by lia. rewrite Z.quot_opp_l by lia.
  pose proof (quot_le_mul k (- n) (- x) Hk ltac:(lia)). lia.
Qed.

Lemma mul_portable_detects a b : in_s 64 a -> in_s 64 b -> detects (a * b) (sqlite3MulInt64_portable a b).
Proof.
  intros Ha Hb. unfold sqlite3MulInt64_portable.
  set (o := if decide (0 < b) then _ else _).
  assert (Ho : o = true <-> ~ in_s 64 (a * b)).
  { unfold o. clear o. int64. case_decide as H1; [|case_decide as H2].
    - pose proof (quot_le_mul b (2 ^ 63 - 1) a H1 ltac:(lia)). pose proof (quot_ge_mul b (- 2 ^ 63) a H1 ltac:(lia)).
      case_decide; [split; [lia|done]|]. rewrite bool_decide_eq_true. lia.
    - case_decide as H3; [|case_decide as H4].
      + pose proof (quot_ge_mul a (- 2 ^ 63) b H3 ltac:(lia)). rewrite bool_decide_eq_true. nia.
      + case_decide; [split; [nia|done]|]. case_decide; [split; [nia|done]|].
        pose proof (quot_le_mul (- b) (2 ^ 63 - 1) (- a) ltac:(lia) ltac:(lia)). rewrite bool_decide_eq_true. nia.
      + split; [done|]. assert (a = 0) as -> by lia. lia.
    - assert (b = 0) as -> by lia. split; [done|]. lia. }
  unfold detects. destruct o; cbn; split; try done.
Qed.

(** The code for other compilers reports the same overflows as the builtins gcc
    is given, and without one they store the same exact result. *)
Theorem int64_arith_portable a b : in_s 64 a -> in_s 64 b ->
  let agree (r r' : checked) x := r.1 = r'.1 /\ (r.1 = true <-> ~ in_s 64 x) /\ (r.1 = false -> r.2 = x /\ r'.2 = x) in
  agree (sqlite3AddInt64 a b) (sqlite3AddInt64_portable a b) (a + b) /\
  agree (sqlite3SubInt64 a b) (sqlite3SubInt64_portable a b) (a - b) /\
  agree (sqlite3MulInt64 a b) (sqlite3MulInt64_portable a b) (a * b).
Proof.
  intros Ha Hb agree.
  assert (H : forall x r, detects x r -> agree (builtin_overflow x) r x).
  { intros x r Hr. pose proof (builtin_detects x) as Hx. destruct (detects_fst _ _ _ Hx Hr) as [E E2]. unfold agree.
    split; [done|]. split; [apply Hx|]. intros Hf. pose proof (E2 Hf) as E3. destruct Hx as [_ Hx]. rewrite <- E3. rewrite Hx by done. done. }
  split; [by apply H, add_portable_detects|]. split; [by apply H, sub_portable_detects|by apply H, mul_portable_detects].
Qed.

Lemma int64_arith_portable_witness :
  let agree (r r' : checked) x := r.1 = r'.1 /\ (r.1 = true <-> ~ in_s 64 x) /\ (r.1 = false -> r.2 = x /\ r'.2 = x) in
  (sqlite3MulInt64_portable (2 ^ 62) (- 2)).1 = false /\ (sqlite3MulInt64_portable (2 ^ 62) 2).1 = true /\
  agree (sqlite3AddInt64 (2 ^ 62) (- 2)) (sqlite3AddInt64_portable (2 ^ 62) (- 2)) (2 ^ 62 + - 2) /\
  agree (sqlite3SubInt64 (2 ^ 62) (- 2)) (sqlite3SubInt64_portable (2 ^ 62) (- 2)) (2 ^ 62 - - 2) /\
  agree (sqlite3MulInt64 (2 ^ 62) (- 2)) (sqlite3MulInt64_portable (2 ^ 62) (- 2)) (2 ^ 62 * - 2).
Proof. intros agree. split; [by vm_compute|]. split; [by vm_compute|]. apply int64_arith_portable; vm_compute; split; congruence. Defined.

Lemma AbsInt32_range x : in_s 32 x -> 0 <= sqlite3AbsInt32 x <= 2147483647 /\ (x <> - 2 ^ 31 -> sqlite3AbsInt32 x = Z.abs x).
Proof. unfold in_s, sqlite3AbsInt32. change (i32 0x80000000) with (- 2 ^ 31). intros Hx. repeat case_decide; lia. Qed.

(** ** Estimates *)

Lemma log_entry_range x y : 0 <= x -> is_Some (log_entry x y).
Proof.
  intros Hx. unfold log_entry. change 7 with (2 ^ 3 - 1). rewrite land_ones_mod by lia.
  pose proof (Z.mod_pos_bound x (2 ^ 3) ltac:(lia)).
  destruct (lookup_lt_is_Some_2 log_a (Z.to_nat (x mod 2 ^ 3))) as [a ->]; [cbn; lia|]. by eexists.
Qed.

(** The position of the leading bits is unique. *)
Lemma log_loop_ok fuel top dy k x0 : 0 < k -> 0 < top -> forall i x y, 0 <= i -> x = Z.shiftr x0 i -> 0 < x < 2 ^ (k * Z.of_nat fuel) ->
  exists j, log_loop fuel top dy k x y = Some (Z.shiftr x0 (i + k * j), y + dy * j) /\ 0 <= j
    /\ Z.shiftr x0 (i + k * j) <= top /\ (0 < j -> top < Z.shiftr x0 (i + k * (j - 1))).
Proof.
  intros Hk Htop. induction fuel as [|fuel IH]; intros i x y Hi -> Hx; cbn [log_loop].
  - change (2 ^ (k * Z.of_nat 0)) with (2 ^ (k * 0)) in Hx. rewrite Z.mul_0_r in Hx. lia.
  - case_decide as Ht.
    + rewrite Z.shiftr_shiftr by lia. destruct (decide (Z.shiftr x0 (i + k) = 0)) as [E|E].
      * rewrite E. exists 1. rewrite !Z.mul_1_r. rewrite E. destruct fuel; cbn; rewrite decide_False by lia; (split; [done|]; split; [lia|]; split; [lia|]);
          intros _; rewrite Z.sub_diag, Z.mul_0_r, Z.add_0_r; done.
      * destruct (IH (i + k) (Z.shiftr x0 (i + k)) (y + dy)) as (j & -> & Hj & Hle & Hgt); [lia|done| |].
        { pose proof (Z.shiftr_nonneg x0 (i + k)). pose proof (Z.shiftr_nonneg x0 i).
          split; [lia|]. rewrite <- Z.shiftr_shiftr by lia. rewrite Z.shiftr_div_pow2 by lia.
          apply Z.div_lt_upper_bound; [lia|]. rewrite <- Z.pow_add_r by lia. replace (k + k * Z.of_nat fuel) with (k * Z.of_nat (S fuel)) by lia. lia. }
        exists (j + 1). replace (i + k * (j + 1)) with (i + k + k * j) by ring. split; [do 2 f_equal; ring|]. split; [lia|]. split; [done|].
        intros _. replace (i + k * (j + 1 - 1)) with (i + k * j) by ring. destruct (decide (j = 0)) as [->|]; [by rewrite Z.mul_0_r, Z.add_0_r|].
        replace (i + k * j) with (i + k + k * (j - 1)) by ring. apply Hgt. lia.
    + exists 0. rewrite Z.mul_0_r, Z.add_0_r, Z.mul_0_r, Z.add_0_r. split; [done|]. lia.
Qed.

(** The builtin and the loops estimate the same. *)
Lemma LogEst_portable x : 0 <= x < 2 ^ 64 -> sqlite3LogEst x = sqlite3LogEst_portable x.
Proof.
  intros Hx. unfold sqlite3LogEst, sqlite3LogEst_portable. destruct (decide (x < 8)); [done|].
  destruct (log_loop_ok 64 255 40 4 x ltac:(lia) ltac:(lia) 0 x 40) as (j & -> & Hj & Hle & Hgt);
    [lia|by rewrite Z.shiftr_0_r|change (4 * Z.of_nat 64) with 256; lia|]. cbn [mbind option_bind].
  rewrite Z.add_0_l in *.
  assert (H8 : 8 <= Z.shiftr x (4 * j)).
  { destruct (decide (j = 0)) as [->|]; [rewrite Z.shiftr_0_r; lia|]. specialize (Hgt ltac:(lia)).
    replace (4 * j) with (4 * (j - 1) + 4) by ring. rewrite <- Z.shiftr_shiftr by lia. rewrite (Z.shiftr_div_pow2 _ 4) by lia.
    change (2 ^ 4) with 16. revert Hgt. generalize (Z.shiftr x (4 * (j - 1))). intros. mods. }
  destruct (log_loop_ok 64 15 10 1 x ltac:(lia) ltac:(lia) (4 * j) (Z.shiftr x (4 * j)) (40 + 40 * j)) as (j' & -> & Hj' & Hle' & Hgt');
    [lia|done|change (1 * Z.of_nat 64) with 64; lia|]. cbn [mbind option_bind].
  set (i := 4 * j + 1 * j') in *.
  assert (H8' : 8 <= Z.shiftr x i).
  { destruct (decide (j' = 0)) as [E|]; [unfold i; rewrite E, Z.mul_0_r, Z.add_0_r; done|]. specialize (Hgt' ltac:(lia)).
    replace (4 * j + 1 * (j' - 1)) with (i - 1) in Hgt' by (unfold i; ring).
    replace i with (i - 1 + 1) by ring. rewrite <- Z.shiftr_shiftr by lia. rewrite (Z.shiftr_div_pow2 _ 1) by lia. change (2 ^ 1) with 2.
    revert Hgt'. generalize (Z.shiftr x (i - 1)). intros. mods. }
  assert (Hi : 60 - (63 - Z.log2 x) = i).
  { assert (Z.log2 (Z.shiftr x i) = 3) as Hl by (apply Z.log2_unique; lia). rewrite Z.log2_shiftr in Hl by lia. lia. }
  rewrite Hi. f_equal. unfold i. ring.
Qed.

(** ** Text *)

(** The value of digits. *)
Definition dec_value (ds : bytes) : Z := fold_left (fun v c => v * 10 + (c - 48)) ds 0.

Definition digits (ds : bytes) : Prop := Forall (fun c => 48 <= c <= 57) ds.

Lemma dec_value_snoc ds c : dec_value (ds ++ [c]) = dec_value ds * 10 + (c - 48).
Proof. unfold dec_value. by rewrite fold_left_app. Qed.

Lemma dec_value_acc ds v : fold_left (fun v c => v * 10 + (c - 48)) ds v = v * 10 ^ Z.of_nat (length ds) + dec_value ds.
Proof.
  revert v. induction ds as [|c ds IH] using rev_ind; intros v; [unfold dec_value; cbn; lia|].
  rewrite fold_left_app, dec_value_snoc, length_app. cbn [fold_left length]. rewrite IH.
  rewrite Nat2Z.inj_add, Z.pow_add_r by lia. change (10 ^ Z.of_nat 1) with 10. ring.
Qed.

Lemma dec_value_cons c ds : dec_value (c :: ds) = (c - 48) * 10 ^ Z.of_nat (length ds) + dec_value ds.
Proof. unfold dec_value. cbn [fold_left]. rewrite dec_value_acc. done. Qed.

Lemma dec_value_range ds : digits ds -> 0 <= dec_value ds < 10 ^ Z.of_nat (length ds).
Proof.
  induction ds as [|c ds IH] using rev_ind; intros Hd; [done|]. apply Forall_app in Hd as [Hd Hc].
  rewrite Forall_singleton in Hc. specialize (IH Hd). rewrite dec_value_snoc, length_app. cbn [length].
  rewrite Nat2Z.inj_add, Z.pow_add_r by lia. change (10 ^ Z.of_nat 1) with 10. lia.
Qed.

(** Text is digits followed by something that is not one. *)
Fixpoint take_digits (z : bytes) : bytes :=
  match z with c :: z => if is_digit c then c :: take_digits z else [] | [] => [] end.

Lemma take_digits_digits z : digits (take_digits z).
Proof. induction z as [|c z IH]; [constructor|]. cbn. destruct (is_digit c) eqn:E; [|constructor]. apply bool_decide_eq_true in E. by constructor. Qed.

Lemma take_digits_split z : z = take_digits z ++ drop (length (take_digits z)) z.
Proof. induction z as [|c z IH]; [done|]. cbn. destruct (is_digit c); [cbn; by rewrite <- IH|done]. Qed.

Lemma take_digits_app ds z : digits ds -> take_digits (ds ++ z) = ds ++ take_digits z.
Proof.
  induction 1 as [|c ds Hc Hd IH]; [done|]. cbn. unfold is_digit at 1. rewrite bool_decide_eq_true_2 by done. by rewrite IH.
Qed.

(** What the loop reads, the sum being kept modulo 2^64. *)
Lemma read_digits_ok z u i : read_digits z u i
  = (fold_left (fun v c => u64 (u64 (v * 10) + c - 48)) (take_digits z) u, (i + length (take_digits z))%nat,
     drop (length (take_digits z)) z).
Proof.
  revert u i. induction z as [|c z IH]; intros u i; cbn; [by rewrite Nat.add_0_r|].
  destruct (is_digit c); [|cbn; by rewrite Nat.add_0_r]. rewrite IH. cbn. do 2 f_equal. lia.
Qed.

Lemma fold_u64 ds u : fold_left (fun v c => u64 (u64 (v * 10) + c - 48)) ds (u64 u)
  = u64 (fold_left (fun v c => v * 10 + (c - 48)) ds u).
Proof.
  revert u. induction ds as [|c ds IH]; intros u; [done|]. cbn [fold_left]. rewrite <- IH. f_equal.
  unfold wrapu. rewrite Zmult_mod_idemp_l. replace ((u * 10) mod 2 ^ 64 + c - 48) with ((u * 10) mod 2 ^ 64 + (c - 48)) by lia.
  by rewrite Zplus_mod_idemp_l.
Qed.

Lemma read_digits_value z : read_digits z 0 0
  = (u64 (dec_value (take_digits z)), length (take_digits z), drop (length (take_digits z)) z).
Proof. rewrite read_digits_ok. by rewrite (fold_u64 _ 0 : _ = u64 (dec_value _)). Qed.

(** Leading zeros count for nothing. *)
Lemma skip_zeros_value z : dec_value (take_digits (skip is_zero z)) = dec_value (take_digits z).
Proof.
  induction z as [|c z IH]; [done|]. cbn [skip]. destruct (is_zero c) eqn:E; [|done]. apply bool_decide_eq_true in E as ->.
  rewrite IH. cbn [take_digits]. change (is_digit 48) with true. cbn iota. by rewrite dec_value_cons.
Qed.

Lemma skip_zeros_head z : match skip is_zero z with c :: _ => c <> 48 | [] => True end.
Proof. induction z as [|c z IH]; [done|]. cbn. destruct (is_zero c) eqn:E; [done|]. by apply bool_decide_eq_false in E. Qed.

(** Digits that do not start with 0. *)
Lemma dec_value_lower c ds : digits (c :: ds) -> c <> 48 -> 10 ^ Z.of_nat (length ds) <= dec_value (c :: ds).
Proof.
  intros Hd Hc. apply Forall_cons in Hd as [Hc' Hd]. pose proof (dec_value_range ds Hd). rewrite dec_value_cons.
  assert (0 < 10 ^ Z.of_nat (length ds)) by (apply Z.pow_pos_nonneg; lia). nia.
Qed.

(** The comparison of digits is that of their values. *)
Lemma compare_digits_ok ps : forall ds, digits ps -> digits ds -> length ds = length ps ->
  Z.sgn (compare_digits ds ps) = Z.sgn (dec_value ds - dec_value ps).
Proof.
  induction ps as [|p ps IH]; intros [|d ds] Hp Hd Hlen; try done. injection Hlen as Hlen.
  apply Forall_cons in Hp as [Hp0 Hp]. apply Forall_cons in Hd as [Hd0 Hd]. cbn [compare_digits peek tail].
  rewrite !dec_value_cons, Hlen.
  pose proof (dec_value_range ds Hd) as H1. pose proof (dec_value_range ps Hp) as H2. rewrite Hlen in H1.
  set (w := 10 ^ Z.of_nat (length ps)) in *. case_decide as E.
  - assert (d = p) as -> by lia. rewrite IH by done. f_equal. lia.
  - destruct (Z.lt_total d p) as [Hlt|[?|Hlt]]; [|lia|].
    + rewrite !Z.sgn_neg by nia. done.
    + rewrite !Z.sgn_pos by nia. done.
Qed.

Lemma compare_digits_prefix ps : forall z, (length ps <= length z)%nat -> compare_digits z ps = compare_digits (take (length ps) z) ps.
Proof.
  induction ps as [|p ps IH]; intros [|c z] Hl; cbn in *; try done; try lia. by rewrite IH by lia.
Qed.

(** 19 digits against 2^63. *)
Lemma compare2pow63_ok z ds : take_digits z = ds -> length ds = 19%nat ->
  Z.sgn (compare2pow63 z) = Z.sgn (dec_value ds - 2 ^ 63).
Proof.
  intros Hds Hlen. pose proof (take_digits_split z) as Hz. rewrite Hds in Hz.
  pose proof (take_digits_digits z) as Hdig. rewrite Hds in Hdig.
  destruct (exists_last (l := ds)) as (hd & c & ->); [by destruct ds|]. rewrite length_app in Hlen. cbn in Hlen.
  assert (Hhd : length hd = 18%nat) by lia. apply Forall_app in Hdig as [Hh Hc]. rewrite Forall_singleton in Hc.
  unfold compare2pow63. rewrite Hz, <- app_assoc. rewrite compare_digits_prefix by (rewrite length_app; cbn; lia).
  change (length pow63) with 18%nat. rewrite take_app_length' by done. rewrite drop_app_length' by done. cbn [app peek].
  assert (Hp : digits pow63) by (repeat constructor; lia).
  pose proof (compare_digits_ok pow63 hd Hp Hh Hhd) as Hs. change (dec_value pow63) with 922337203685477580 in Hs.
  rewrite dec_value_snoc. change (2 ^ 63) with (922337203685477580 * 10 + 8).
  case_decide as E.
  - rewrite E in Hs. cbn in Hs. f_equal. lia.
  - rewrite Hs. destruct (Z.lt_total (dec_value hd) 922337203685477580) as [Hlt|[He|Hgt]].
    + rewrite !Z.sgn_neg by lia. done.
    + rewrite He, Z.sub_diag in Hs. by destruct E; apply Z.sgn_null_iff.
    + rewrite !Z.sgn_pos by lia. done.
Qed.

(** ** [sqlite3Atoi64] *)

(** The specification: the digits after blanks and a sign, as an exact
    integer; the number stored is the nearest in range. *)
Definition number_of (z : bytes) : bool * bytes * bytes :=
  let '(neg, z) := sign_of (skip sqlite3Isspace z) in
  (neg, take_digits z, drop (length (take_digits z)) z).

Definition exact_value (neg : bool) (ds : bytes) : Z := if neg then - dec_value ds else dec_value ds.

Definition clamp64 (v : Z) : Z := Z.max (- 2 ^ 63) (Z.min (2 ^ 63 - 1) v).

Definition atoi64_code (neg : bool) (ds rest : bytes) (nonNum : bool) : Z :=
  let v := exact_value neg ds in
  if decide (v = 2 ^ 63) then 3
  else if decide (in_s 64 v) then
    if decide (ds = []) then -1
    else if nonNum || existsb (fun c => negb (sqlite3Isspace c)) rest then 1 else 0
  else 2.

Lemma skip_zeros_drop z : exists k, z = replicate k 48 ++ skip is_zero z /\
  take_digits z = replicate k 48 ++ take_digits (skip is_zero z) /\
  drop (length (take_digits z)) z = drop (length (take_digits (skip is_zero z))) (skip is_zero z).
Proof.
  induction z as [|c z (k & Hz & Ht & Hd)]; [by exists 0%nat|]. cbn [skip]. destruct (is_zero c) eqn:E; [|by exists 0%nat].
  apply bool_decide_eq_true in E as ->. exists (S k). cbn [replicate app take_digits]. change (is_digit 48) with true. cbn iota.
  split; [by f_equal|]. split; [by f_equal|]. cbn [length drop]. done.
Qed.

(** The number and the code, for every text: exact in range, the nearest
    bound outside, with the overflow codes 2 and 3 exactly then. *)
Lemma Atoi64_correct z nonNum :
  let '(neg, ds, rest) := number_of z in
  Atoi64_chars z nonNum = (clamp64 (exact_value neg ds), atoi64_code neg ds rest nonNum).
Proof.
  unfold number_of, Atoi64_chars. destruct (sign_of (skip sqlite3Isspace z)) as [neg zs].
  destruct (skip_zeros_drop zs) as (k & Hzs & Hds & Hrest). rewrite read_digits_value. rewrite Hrest.
  set (z1 := skip is_zero zs) in *. set (ds1 := take_digits z1) in *. set (rest := drop (length ds1) z1).
  assert (Hval : dec_value (take_digits zs) = dec_value ds1) by (symmetry; apply skip_zeros_value).
  assert (Hdig : digits ds1) by apply take_digits_digits.
  pose proof (dec_value_range ds1 Hdig) as Hrange.
  assert (Hnone : (length ds1 = 0%nat /\ length zs = length z1) <-> take_digits zs = []).
  { rewrite Hds. rewrite Hzs at 1. rewrite length_app, length_replicate. split.
    - intros [H1 H2]. assert (k = 0%nat) as -> by lia. by apply length_zero_iff_nil in H1.
    - intros H. apply app_eq_nil in H as [H1 H2]. apply (f_equal length) in H1, H2. rewrite length_replicate in H1. cbn in H1, H2. lia. }
  set (rc := if decide (length ds1 = 0%nat /\ length zs = length z1) then -1 else _).
  assert (Hlead : (19 < length ds1)%nat -> 10 ^ 19 <= dec_value ds1).
  { intros Hl. pose proof (skip_zeros_head zs) as Hh. fold z1 in Hh. destruct z1 as [|c z2]; [cbn in Hl; lia|]. unfold ds1 in *. cbn [take_digits] in *.
    destruct (is_digit c); [|cbn in Hl; lia]. cbn [length] in Hl.
    transitivity (10 ^ Z.of_nat (length (take_digits z2))); [apply Z.pow_le_mono_r; lia|]. by apply dec_value_lower. }
  unfold atoi64_code, exact_value, clamp64. rewrite Hval.
  assert (Hrc : forall v, v <> 2 ^ 63 -> in_s 64 v -> (if decide (v = 2 ^ 63) then 3
     else if decide (in_s 64 v) then if decide (take_digits zs = []) then -1
          else if nonNum || existsb (fun c => negb (sqlite3Isspace c)) rest then 1 else 0 else 2) = rc).
  { intros v Hv1 Hv2. rewrite decide_False, decide_True by done. unfold rc. destruct (decide (take_digits zs = [])) as [E|E].
    - by rewrite decide_True by tauto.
    - rewrite decide_False by tauto. by destruct nonNum. }
  assert (Hempty : take_digits zs = [] -> dec_value ds1 = 0) by (intros E; rewrite <- Hval, E; done).
  rewrite LARGEST_eq, SMALLEST_eq. destruct (decide (length ds1 < 19)%nat) as [Hl|Hl].
  { assert (dec_value ds1 < 10 ^ 18) by (eapply Z.lt_le_trans; [apply Hrange|apply Z.pow_le_mono_r; lia]).
    assert (u64 (dec_value ds1) = dec_value ds1) as -> by (apply wrapu_id; unfold in_u; lia).
    rewrite decide_False by lia. f_equal; [destruct neg; lia|]. symmetry. apply Hrc; [destruct neg; lia|unfold in_s; destruct neg; lia]. }
  assert (Hc : Z.sgn (if decide (19 < length ds1)%nat then 1 else compare2pow63 z1) = Z.sgn (dec_value ds1 - 2 ^ 63)).
  { destruct (decide (19 < length ds1)%nat) as [Hl2|Hl2]; [specialize (Hlead Hl2); by rewrite !Z.sgn_pos by lia|]. apply compare2pow63_ok; [done|]. lia. }
  set (c := if decide (19 < length ds1)%nat then 1 else compare2pow63 z1) in *.
  destruct (decide (c < 0)) as [Hneg|Hpos].
  - assert (dec_value ds1 < 2 ^ 63) by (rewrite Z.sgn_neg in Hc by done; symmetry in Hc; apply Z.sgn_neg_iff in Hc; lia).
    assert (u64 (dec_value ds1) = dec_value ds1) as -> by (apply wrapu_id; unfold in_u; lia).
    rewrite decide_False by lia. f_equal; [destruct neg; lia|]. symmetry. apply Hrc; [destruct neg; lia|unfold in_s; destruct neg; lia].
  - destruct (decide (c > 0)) as [Hgt|Hgt].
    + assert (2 ^ 63 < dec_value ds1) by (rewrite Z.sgn_pos in Hc by lia; symmetry in Hc; apply Z.sgn_pos_iff in Hc; lia).
      f_equal; [destruct neg; lia|]. rewrite !decide_False; [done|unfold in_s; destruct neg; lia|destruct neg; lia].
    + assert (c = 0) as E by lia. rewrite E in Hc. symmetry in Hc. apply Z.sgn_null_iff in Hc.
      assert (dec_value ds1 = 2 ^ 63) as Ev by lia. rewrite Ev. destruct neg; [|done]. f_equal. symmetry. apply Hrc; done.
Qed.

(** ** Text and back *)

Lemma fill_digits_ok fuel : forall i x text, 0 <= x < 10 ^ Z.of_nat fuel -> Z.of_nat fuel <= i + 1 -> (0 < fuel)%nat ->
  exists ds, fill_digits fuel i x text = Some (i + 1 - Z.of_nat (length ds), ds ++ text) /\ digits ds /\ dec_value ds = x
    /\ ds <> [] /\ (length ds = 1%nat \/ 10 ^ (Z.of_nat (length ds) - 1) <= x).
Proof.
  induction fuel as [|fuel IH]; intros i x text Hx Hi Hf; [lia|]. cbn [fill_digits]. rewrite decide_False by lia.
  case_decide as E.
  - exists [x mod 10 + 48]. cbn [length app]. split; [do 2 f_equal; lia|]. split; [constructor; [|constructor]; mods|].
    split; [unfold dec_value; cbn; mods|]. split; [done|]. by left.
  - destruct fuel as [|fuel]; [change (10 ^ Z.of_nat 1) with 10 in Hx; mods|].
    destruct (IH (i - 1) (x / 10) (x mod 10 + 48 :: text)) as (ds & -> & Hd & Hv & Hne & Hl).
    + rewrite Nat2Z.inj_succ, Z.pow_succ_r in Hx by lia. split; [mods|apply Z.div_lt_upper_bound; lia].
    + lia.
    + lia.
    + exists (ds ++ [x mod 10 + 48]). rewrite length_app. cbn [length]. rewrite <- app_assoc. split; [do 2 f_equal; lia|].
      split; [apply Forall_app; split; [done|]; constructor; [mods|constructor]|].
      rewrite dec_value_snoc, Hv. split; [mods|]. split; [by destruct ds|].
      right. replace (Z.of_nat (length ds + 1) - 1) with (Z.of_nat (length ds)) by lia.
      destruct Hl as [->|Hl]; [change (10 ^ Z.of_nat 1) with 10; mods|].
      replace (Z.of_nat (length ds)) with (Z.succ (Z.of_nat (length ds) - 1)) by lia.
      rewrite Z.pow_succ_r by (destruct ds; cbn; (done || lia)). mods.
Qed.

Lemma take_digits_all ds : digits ds -> take_digits ds = ds.
Proof. intros Hd. rewrite <- (app_nil_r ds) at 1. rewrite take_digits_app by done. cbn. apply app_nil_r. Qed.

Lemma is_digit_not_space c : 48 <= c <= 57 -> sqlite3Isspace c = false.
Proof.
  intros Hc. assert (c ∈ seqZ 48 10) as Hin by (apply elem_of_seqZ; lia). clear Hc. revert c Hin. apply Forall_forall.
  apply (bool_decide_unpack _). vm_compute. exact I.
Qed.

(** C38: Every 64-bit integer is printed in at most 20 characters, inside the
    buffer, and read back without error. *)
Theorem int64_text_round_trip v : in_s 64 v ->
  exists text, sqlite3Int64ToText v = Some (text, Z.of_nat (length text)) /\ (length text <= 20)%nat
    /\ sqlite3Atoi64 text SQLITE_UTF8 = (v, 0).
Proof.
  intros Hv. unfold sqlite3Int64ToText.
  assert (Hx : (if decide (v < 0) then if decide (v = SMALLEST_INT64) then Z.shiftl 1 63 else u64 (- v) else u64 v) = Z.abs v).
  { int64. case_decide; [case_decide; [subst; done|]|]; rewrite wrapu_id; unfold in_u; lia. }
  rewrite Hx. destruct (fill_digits_ok 21 20 (Z.abs v) []) as (ds & -> & Hd & Hval & Hne & Hl); [int64; lia|lia|lia|].
  rewrite app_nil_r. cbn [mbind option_bind].
  assert (Hl19 : (length ds <= 19)%nat).
  { destruct Hl as [->|Hl]; [lia|]. destruct (decide (length ds <= 19)%nat); [done|]. exfalso.
    assert (10 ^ 19 <= 10 ^ (Z.of_nat (length ds) - 1)) by (apply Z.pow_le_mono_r; lia). int64. lia. }
  destruct ds as [|d ds]; [done|]. apply Forall_cons in Hd as [Hd0 Hd].
  assert (Hread : forall neg, exact_value neg (d :: ds) = v ->
    (clamp64 (exact_value neg (d :: ds)), atoi64_code neg (d :: ds) [] false) = (v, 0)).
  { intros neg E. unfold atoi64_code, clamp64. rewrite E. rewrite decide_False by (int64; lia). rewrite decide_True by done.
    rewrite decide_False by done. f_equal. int64. lia. }
  case_decide as Hn.
  - rewrite decide_False by (cbn [length] in *; lia). exists (45 :: d :: ds). split; [do 2 f_equal; cbn [length]; lia|].
    split; [cbn [length] in *; lia|]. unfold sqlite3Atoi64. rewrite decide_True by done.
    pose proof (Atoi64_correct (45 :: d :: ds) false) as Hs. unfold number_of in Hs.
    change (skip sqlite3Isspace (45 :: d :: ds)) with (45 :: d :: ds) in Hs. cbn [sign_of] in Hs. rewrite decide_True in Hs by done.
    rewrite take_digits_all, drop_all in Hs by by constructor. rewrite Hs. apply Hread. unfold exact_value. lia.
  - exists (d :: ds). split; [do 2 f_equal; cbn [length]; lia|]. split; [cbn [length] in *; lia|].
    unfold sqlite3Atoi64. rewrite decide_True by done.
    pose proof (Atoi64_correct (d :: ds) false) as Hs. unfold number_of in Hs. cbn [skip] in Hs.
    rewrite is_digit_not_space in Hs by done. cbn [sign_of] in Hs. rewrite !decide_False in Hs by lia.
    rewrite take_digits_all, drop_all in Hs by by constructor. rewrite Hs. apply Hread. unfold exact_value. lia.
Qed.

(** *** What a numeral is

    Blanks, perhaps a sign, decimal digits and whatever follows, as character
    codes: a text has one such reading.  It says nothing of how the routine
    goes over the bytes. *)

Inductive sign := No_sign | Plus | Minus.

Definition sign_text (s : sign) : list Z := match s with No_sign => [] | Plus => [43] | Minus => [45] end.

Definition blank (c : Z) : Prop := c = 32 \/ 9 <= c <= 13.

Definition decimal (c : Z) : Prop := 48 <= c <= 57.

Record numeral := { n_blanks : list Z; n_sign : sign; n_digits : list Z; n_rest : list Z }.

Definition numeral_text (n : numeral) : list Z :=
  n_blanks n ++ sign_text (n_sign n) ++ n_digits n ++ n_rest n.

Definition numeral_ok (n : numeral) : Prop :=
  Forall blank (n_blanks n) /\ Forall decimal (n_digits n) /\
  match n_rest n with
  | [] => True
  | c :: _ => ~ decimal c /\ (n_digits n = [] -> n_sign n = No_sign -> ~ blank c /\ c <> 43 /\ c <> 45)
  end.

Definition numeral_value (n : numeral) : Z :=
  match n_sign n with Minus => - dec_value (n_digits n) | _ => dec_value (n_digits n) end.

Definition numeral_code (n : numeral) : Z :=
  if decide (numeral_value n = 2 ^ 63) then 3
  else if decide (numeral_value n < - 2 ^ 63 \/ 2 ^ 63 < numeral_value n) then 2
  else if decide (n_digits n = []) then -1
  else if decide (Forall blank (n_rest n)) then 0 else 1.

(** The bytes of a text in each encoding: UTF-8 text is read byte by byte,
    UTF-16 text in units of two bytes, an odd last byte being ignored. *)
Inductive encoded : Z -> list Z -> bytes -> Prop :=
| utf8_text cs : encoded 1 cs cs
| utf16le_text cs odd : (length odd <= 1)%nat -> encoded 2 cs (concat ((fun c => [c mod 256; c / 256]) <$> cs) ++ odd)
| utf16be_text cs odd : (length odd <= 1)%nat -> encoded 3 cs (concat ((fun c => [c / 256; c mod 256]) <$> cs) ++ odd).

#[export] Instance sign_eq_dec : EqDecision sign.
Proof. solve_decision. Defined.
#[export] Instance blank_dec c : Decision (blank c).
Proof. unfold blank. apply _. Defined.
#[export] Instance decimal_dec c : Decision (decimal c).
Proof. unfold decimal. apply _. Defined.

Lemma isspace_blank c : 0 <= c < 256 -> sqlite3Isspace c = bool_decide (blank c).
Proof.
  intros Hc. assert (c ∈ seqZ 0 256) as Hin by (apply elem_of_seqZ; lia). clear Hc. revert c Hin. apply Forall_forall.
  apply (bool_decide_unpack _). vm_compute. exact I.
Qed.

Lemma skip_blanks ws z : Forall blank ws -> bytes_ok (ws ++ z) ->
  match z with [] => True | c :: _ => ~ blank c end -> skip sqlite3Isspace (ws ++ z) = z.
Proof.
  intros Hws Hb Hz. apply Forall_app in Hb as [Hb Hbz]. induction Hws as [|c ws Hc _ IH]; cbn [app skip].
  - destruct z as [|c z]; [done|]. apply Forall_cons in Hbz as [Hc _]. cbn [skip].
    by rewrite isspace_blank, bool_decide_eq_false_2 by done.
  - apply Forall_cons in Hb as [Hb1 Hb]. rewrite isspace_blank, bool_decide_eq_true_2 by done. by apply IH.
Qed.

(** A text has the sign, digits and rest of its reading. *)
Lemma number_of_numeral n : numeral_ok n -> bytes_ok (numeral_text n) ->
  number_of (numeral_text n) = (bool_decide (n_sign n = Minus), n_digits n, n_rest n).
Proof.
  destruct n as [ws sg ds rest]. unfold numeral_ok, numeral_text. cbn [n_blanks n_sign n_digits n_rest].
  intros (Hws & Hds & Hrest) Hb. unfold number_of.
  assert (Htake : take_digits (ds ++ rest) = ds).
  { rewrite take_digits_app by done. destruct rest as [|c rest]; cbn; [apply app_nil_r|].
    unfold is_digit. rewrite bool_decide_eq_false_2 by (by destruct Hrest). apply app_nil_r. }
  assert (Hfirst : match ds ++ rest with [] => True
                   | c :: _ => sg = No_sign -> ~ blank c /\ c <> 43 /\ c <> 45 end).
  { destruct ds as [|d ds]; cbn [app].
    - destruct rest as [|c rest]; [done|]. intros ->. by apply Hrest.
    - apply Forall_cons in Hds as [Hd _]. unfold blank, decimal in *. lia. }
  rewrite skip_blanks; [|done|done|].
  - destruct sg; cbn [sign_text app].
    + destruct (ds ++ rest) as [|c z] eqn:E; [|destruct Hfirst as (_ & H1 & H2); [done|]]; cbn [sign_of].
      * apply app_eq_nil in E as [-> ->]. done.
      * rewrite !decide_False by done. rewrite Htake, <- E, drop_app_length. done.
    + cbn [sign_of]. rewrite decide_False, decide_True by done. by rewrite Htake, drop_app_length.
    + cbn [sign_of]. rewrite decide_True by done. by rewrite Htake, drop_app_length.
  - destruct sg; cbn [sign_text app]; [|unfold blank; lia|unfold blank; lia].
    destruct (ds ++ rest); [done|]. by apply Hfirst.
Qed.

(** The units of UTF-16 text before the first one above 255. *)
Fixpoint upto_high (cs : list Z) : bytes * bool :=
  match cs with
  | c :: cs => if decide (c < 256) then let '(l, high) := upto_high cs in (c :: l, high) else ([], true)
  | [] => ([], false)
  end.

Lemma upto_high_app p cs : Forall (fun c => c < 256) p ->
  upto_high (p ++ cs) = (p ++ (upto_high cs).1, (upto_high cs).2).
Proof.
  induction 1 as [|c p Hc _ IH]; cbn [app upto_high]; [by destruct (upto_high cs)|].
  rewrite decide_True by done. by rewrite IH.
Qed.

Lemma upto_high_blank cs :
  (upto_high cs).2 || existsb (fun c => negb (bool_decide (blank c))) (upto_high cs).1
  = negb (bool_decide (Forall blank cs)).
Proof.
  induction cs as [|c cs IH]; [done|]. cbn [upto_high]. case_decide as Hc.
  - destruct (upto_high cs) as [l high]. cbn [fst snd existsb] in *.
    destruct (decide (blank c)) as [Hb|Hb].
    + rewrite (bool_decide_eq_true_2 (blank c)) by done. cbn [negb orb]. rewrite IH. f_equal.
      apply bool_decide_ext. rewrite Forall_cons. tauto.
    + rewrite (bool_decide_eq_false_2 (blank c)), bool_decide_eq_false_2 by (done || (rewrite Forall_cons; tauto)).
      by rewrite orb_true_r.
  - cbn. rewrite bool_decide_eq_false_2; [done|]. rewrite Forall_cons. unfold blank. lia.
Qed.

Lemma low_bytes_le cs odd : (length odd <= 1)%nat ->
  bytes_ok (concat ((fun c => [c mod 256; c / 256]) <$> cs) ++ odd) ->
  low_bytes SQLITE_UTF16LE (concat ((fun c => [c mod 256; c / 256]) <$> cs) ++ odd) = upto_high cs
  /\ Forall (fun c => 0 <= c) cs.
Proof.
  intros Ho. induction cs as [|c cs IH]; [by destruct odd as [|? []]; cbn in Ho; try lia|].
  cbn [fmap list_fmap concat app low_bytes upto_high]. intros Hb.
  apply Forall_cons in Hb as [_ Hb]. apply Forall_cons in Hb as [Hhi Hb]. destruct (IH Hb) as [-> Hp].
  split; [|constructor; [unfold byte_ok in Hhi; mods|done]].
  rewrite (decide_True (P := SQLITE_UTF16LE = SQLITE_UTF16LE)) by done.
  destruct (decide (c < 256)) as [Hc|Hc].
  - rewrite decide_True by (unfold byte_ok in Hhi; mods). destruct (upto_high cs). f_equal. f_equal.
    unfold byte_ok in Hhi. mods.
  - by rewrite decide_False by (unfold byte_ok in Hhi; mods).
Qed.

Lemma low_bytes_be cs odd : (length odd <= 1)%nat ->
  bytes_ok (concat ((fun c => [c / 256; c mod 256]) <$> cs) ++ odd) ->
  low_bytes SQLITE_UTF16BE (concat ((fun c => [c / 256; c mod 256]) <$> cs) ++ odd) = upto_high cs
  /\ Forall (fun c => 0 <= c) cs.
Proof.
  intros Ho. induction cs as [|c cs IH]; [by destruct odd as [|? []]; cbn in Ho; try lia|].
  cbn [fmap list_fmap concat app low_bytes upto_high]. intros Hb.
  apply Forall_cons in Hb as [Hhi Hb]. apply Forall_cons in Hb as [_ Hb]. destruct (IH Hb) as [-> Hp].
  split; [|constructor; [unfold byte_ok in Hhi; mods|done]].
  rewrite (decide_False (P := SQLITE_UTF16BE = SQLITE_UTF16LE)) by done.
  destruct (decide (c < 256)) as [Hc|Hc].
  - rewrite decide_True by (unfold byte_ok in Hhi; mods). destruct (upto_high cs). f_equal. f_equal.
    unfold byte_ok in Hhi. mods.
  - by rewrite decide_False by (unfold byte_ok in Hhi; mods).
Qed.

Lemma upto_high_bytes cs : Forall (fun c => 0 <= c) cs -> bytes_ok (upto_high cs).1.
Proof.
  induction 1 as [|c cs Hc _ IH]; [constructor|]. cbn [upto_high]. case_decide; [|constructor].
  destruct (upto_high cs). constructor; [by unfold byte_ok|done].
Qed.

Lemma existsb_isspace z : bytes_ok z ->
  existsb (fun c => negb (sqlite3Isspace c)) z = existsb (fun c => negb (bool_decide (blank c))) z.
Proof. induction 1 as [|c z Hc _ IH]; [done|]. cbn [existsb]. by rewrite IH, isspace_blank. Qed.

(** The characters looked at give the number and the code of the reading. *)
Lemma Atoi64_chars_numeral n : numeral_ok n -> Forall (fun c => 0 <= c) (numeral_text n) ->
  let '(l, high) := upto_high (numeral_text n) in
  Atoi64_chars l high = (clamp64 (numeral_value n), numeral_code n).
Proof.
  destruct n as [ws sg ds rest]. intros (Hws & Hds & Hrest) Hpos. cbn [n_blanks n_sign n_digits n_rest] in *.
  unfold numeral_text in *. cbn [n_blanks n_sign n_digits n_rest] in *.
  pose proof (upto_high_bytes _ Hpos) as Hbytes. pose proof (upto_high_blank rest) as Hblank.
  rewrite !app_assoc in Hbytes |- *. rewrite upto_high_app in Hbytes |- *; cycle 1.
  1,2: rewrite !Forall_app; split_and!; [eapply Forall_impl; [exact Hws|unfold blank; lia]
         |destruct sg; repeat constructor; lia|eapply Forall_impl; [exact Hds|unfold decimal; lia]].
  cbn [fst] in Hbytes. rewrite <- !app_assoc in *.
  set (n' := {| n_blanks := ws; n_sign := sg; n_digits := ds; n_rest := (upto_high rest).1 |}).
  assert (numeral_ok n') as Hok.
  { split_and!; [done|done|]. cbn [n_rest n_digits n_sign n']. destruct rest as [|c rest]; [done|].
    cbn [upto_high]. case_decide; [|done]. by destruct (upto_high rest). }
  pose proof (Atoi64_correct (numeral_text n') (upto_high rest).2) as Hs.
  rewrite (number_of_numeral n' Hok Hbytes) in Hs.
  change (numeral_text n') with (ws ++ sign_text sg ++ ds ++ (upto_high rest).1) in Hs.
  rewrite Hs. cbn [n_sign n_digits n_rest n'].
  assert (exact_value (bool_decide (sg = Minus)) ds
          = numeral_value {| n_blanks := ws; n_sign := sg; n_digits := ds; n_rest := rest |}) as Hv by (by destruct sg).
  rewrite Hv. f_equal. unfold atoi64_code, numeral_code. rewrite Hv. cbn [n_digits n_rest].
  set (v := numeral_value _). destruct (decide (v = 2 ^ 63)) as [H63|H63]; [reflexivity|].
  assert (in_s 64 v <-> ~ (v < - 2 ^ 63 \/ 2 ^ 63 < v)) as Hr by (unfold in_s; change (64 - 1) with 63; lia).
  destruct (decide (in_s 64 v)) as [Hin|Hin]; [rewrite (decide_False (P := _ \/ _)) by tauto
    |rewrite (decide_True (P := _ \/ _)) by (unfold in_s in Hin; change (64 - 1) with 63 in Hin; lia); done].
  destruct (decide (ds = [])); [reflexivity|]. apply Forall_app in Hbytes as [_ Hbytes]. apply Forall_app in Hbytes as [_ Hbytes].
  apply Forall_app in Hbytes as [_ Hbytes]. rewrite existsb_isspace by done. rewrite Hblank.
  destruct (decide (Forall blank rest)); [by rewrite bool_decide_eq_true_2|by rewrite bool_decide_eq_false_2].
Qed.

(** A reading exists. *)
Lemma span_exists (P : Z -> Prop) `{!forall c, Decision (P c)} cs :
  exists l r, cs = l ++ r /\ Forall P l /\ match r with [] => True | c :: _ => ~ P c end.
Proof.
  induction cs as [|c cs (l & r & -> & Hl & Hr)]; [by exists [], []|].
  destruct (decide (P c)); [exists (c :: l), r|exists [], (c :: l ++ r)]; split_and!; (done || by constructor).
Qed.

Lemma numeral_exists cs : exists n, numeral_ok n /\ numeral_text n = cs.
Proof.
  destruct (span_exists blank cs) as (ws & z & -> & Hws & Hz).
  assert (exists sg z', z = sign_text sg ++ z' /\
            (sg = No_sign -> match z' with [] => True | c :: _ => ~ blank c /\ c <> 43 /\ c <> 45 end)) as (sg & z' & -> & Hsg).
  { destruct z as [|c z]; [by exists No_sign, []|].
    destruct (decide (c = 43)) as [->|]; [by exists Plus, z|].
    destruct (decide (c = 45)) as [->|]; [by exists Minus, z|]. by exists No_sign, (c :: z). }
  unfold decimal. destruct (span_exists (fun c => 48 <= c <= 57) z') as (ds & r & -> & Hds & Hr).
  exists {| n_blanks := ws; n_sign := sg; n_digits := ds; n_rest := r |}. split; [|done].
  split_and!; [done|done|]. cbn [n_rest n_digits n_sign]. destruct r as [|c r]; [done|]. split; [done|].
  intros -> ->. by apply Hsg.
Qed.

Lemma encoded_exists enc z : bytes_ok z -> enc ∈ [SQLITE_UTF8; SQLITE_UTF16LE; SQLITE_UTF16BE] ->
  exists cs, encoded enc cs z.
Proof.
  intros Hz Henc.
  assert (forall f : Z -> bytes, (forall b0 b1, byte_ok b0 -> byte_ok b1 -> exists c, f c = [b0; b1]) ->
            exists (cs : list Z) odd, z = concat (f <$> cs) ++ odd /\ (length odd <= 1)%nat) as Hpairs.
  { intros f Hf. remember (length z) as k eqn:Hk. assert (length z <= k)%nat as Hle by lia. clear Hk.
    revert z Hz Hle. induction k as [|k IH]; intros [|b0 [|b1 z]] Hz Hle; cbn in Hle; try lia;
      try (exists [], []; split; [done|cbn; lia]); try (exists [], [b0]; split; [done|cbn; lia]).
    apply Forall_cons in Hz as [H0 Hz]. apply Forall_cons in Hz as [H1 Hz].
    destruct (Hf b0 b1 H0 H1) as [c Hc]. destruct (IH z Hz) as (cs & odd & -> & Ho); [lia|].
    exists (c :: cs), odd. split; [|done]. cbn. by rewrite Hc. }
  unfold SQLITE_UTF8, SQLITE_UTF16LE, SQLITE_UTF16BE in Henc. apply list_elem_of_In in Henc as [<-|[<-|[<-|[]]]].
  - exists z. constructor.
  - destruct (Hpairs (fun c => [c mod 256; c / 256])) as (cs & odd & -> & Ho).
    { intros b0 b1 H0 H1. exists (b1 * 256 + b0). unfold byte_ok in *. do 2 f_equal; [mods|]. f_equal. mods. }
    exists cs. by constructor.
  - destruct (Hpairs (fun c => [c / 256; c mod 256])) as (cs & odd & -> & Ho).
    { intros b0 b1 H0 H1. exists (b0 * 256 + b1). unfold byte_ok in *. do 2 f_equal; [mods|]. f_equal. mods. }
    exists cs. by constructor.
Qed.

(** C37: Any text in any of the three encodings can be read as blanks, an
    optional sign, digits and a rest, and then the number stored is the exact
    value of the signed digits, or the nearest 64-bit integer; the code tells
    whether it is 2^63, is outside the range, has no digits, or is followed
    by something other than blanks. *)
Theorem sqlite3Atoi64_clamps enc z :
  bytes_ok z -> enc ∈ [SQLITE_UTF8; SQLITE_UTF16LE; SQLITE_UTF16BE] ->
  (exists n, numeral_ok n /\ encoded enc (numeral_text n) z) /\
  (forall n, numeral_ok n -> encoded enc (numeral_text n) z ->
     sqlite3Atoi64 z enc = (Z.max (- 2 ^ 63) (Z.min (2 ^ 63 - 1) (numeral_value n)), numeral_code n)).
Proof.
  intros Hz Henc. split.
  - destruct (encoded_exists enc z Hz Henc) as [cs Hcs]. destruct (numeral_exists cs) as (n & Hok & <-). by exists n.
  - intros n Hok Hn. fold (clamp64 (numeral_value n)). pose proof (Atoi64_chars_numeral n Hok) as Hs.
    unfold sqlite3Atoi64. inversion Hn as [cs Hcs|cs odd Ho Hcs|cs odd Ho Hcs]; subst.
    + rewrite decide_True by done. specialize (Hs ltac:(eapply Forall_impl; [exact Hz|unfold byte_ok; lia])).
      pose proof (upto_high_app (numeral_text n) [] ltac:(eapply Forall_impl; [exact Hz|unfold byte_ok; lia])) as He.
      cbn [upto_high fst snd] in He. rewrite !app_nil_r in He. by rewrite He in Hs.
    + rewrite decide_False by done. destruct (low_bytes_le _ _ Ho Hz) as [Hl Hp]. specialize (Hs Hp).
      unfold SQLITE_UTF16LE in Hl. rewrite Hl. by destruct (upto_high (numeral_text n)).
    + rewrite decide_False by done. destruct (low_bytes_be _ _ Ho Hz) as [Hl Hp]. specialize (Hs Hp).
      unfold SQLITE_UTF16BE in Hl. rewrite Hl. by destruct (upto_high (numeral_text n)).
Qed.

(** [" +17"] and ["-9223372036854775809x"] in UTF-8, ["-12"] in UTF-16LE and
    ["+12"] followed by U+0161 in UTF-16BE. *)
Lemma sqlite3Atoi64_clamps_witness :
  sqlite3Atoi64 [32; 43; 49; 55] 1 = (17, 0) /\
  sqlite3Atoi64 (45 :: pow63 ++ [57; 120]) 1 = (- 2 ^ 63, 2) /\
  sqlite3Atoi64 [45; 0; 49; 0; 50; 0] 2 = (-12, 0) /\
  sqlite3Atoi64 [0; 43; 0; 49; 0; 50; 1; 97; 0] 3 = (12, 1).
Proof.
  assert (Hex : forall enc z n, bytes_ok z -> enc ∈ [1; 2; 3] -> numeral_ok n -> encoded enc (numeral_text n) z ->
    sqlite3Atoi64 z enc = (Z.max (- 2 ^ 63) (Z.min (2 ^ 63 - 1) (numeral_value n)), numeral_code n)).
  { intros enc z n Hz Henc. apply (sqlite3Atoi64_clamps enc z Hz Henc). }
  assert (Hok : forall enc z n, bool_decide (bytes_ok z) && bool_decide (enc ∈ [1; 2; 3])
      && bool_decide (Forall blank (n_blanks n)) && bool_decide (Forall decimal (n_digits n)) = true ->
    match n_rest n with [] => True | c :: _ => ~ decimal c /\ (n_digits n = [] -> n_sign n = No_sign -> ~ blank c /\ c <> 43 /\ c <> 45) end ->
    encoded enc (numeral_text n) z ->
    sqlite3Atoi64 z enc = (Z.max (- 2 ^ 63) (Z.min (2 ^ 63 - 1) (numeral_value n)), numeral_code n)).
  { intros enc z n Hb Hr He. rewrite !andb_true_iff, !bool_decide_eq_true in Hb. destruct Hb as [[[??]?]?].
    apply Hex; [done|done|split_and!; done|done]. }
  split; [|split; [|split]].
  - rewrite (Hok 1 _ {| n_blanks := [32]; n_sign := Plus; n_digits := [49; 55]; n_rest := [] |});
      [reflexivity|reflexivity|exact I|apply utf8_text].
  - rewrite (Hok 1 _ {| n_blanks := []; n_sign := Minus; n_digits := pow63 ++ [57]; n_rest := [120] |});
      [reflexivity|reflexivity|cbn; split; [unfold decimal; lia|intros E; discriminate E]|apply utf8_text].
  - rewrite (Hok 2 _ {| n_blanks := []; n_sign := Minus; n_digits := [49; 50]; n_rest := [] |});
      [reflexivity|reflexivity|exact I|]. apply (utf16le_text [45; 49; 50] []). cbn. lia.
  - rewrite (Hok 3 _ {| n_blanks := []; n_sign := Plus; n_digits := [49; 50]; n_rest := [353] |});
      [reflexivity|reflexivity|cbn; split; [unfold decimal; lia|intros E; discriminate E]|].
    apply (utf16be_text [43; 49; 50; 353] [0]). cbn. lia.
Defined.

(** [" -00012x"], and 2^63 as UTF-16. *)
Example atoi64_text : sqlite3Atoi64 [32; 45; 48; 48; 49; 50; 120] SQLITE_UTF8 = (-12, 1).
Proof. reflexivity. Qed.

Example atoi64_2_63 :
  sqlite3Atoi64 (concat ((fun c => [c; 0]) <$> (pow63 ++ [56]))) SQLITE_UTF16LE = (2 ^ 63 - 1, 3).
Proof. reflexivity. Qed.

Lemma int64_text_round_trip_witness :
  exists text, sqlite3Int64ToText (- 2 ^ 63) = Some (text, Z.of_nat (length text)) /\ (length text <= 20)%nat
    /\ sqlite3Atoi64 text SQLITE_UTF8 = (- 2 ^ 63, 0).
Proof. apply int64_text_round_trip. vm_compute. split; congruence. Defined.

(** ** 32-bit integers *)

Lemma HexToInt_range h : 0 <= sqlite3HexToInt h < 16.
Proof.
  unfold sqlite3HexToInt. change 0xf with (2 ^ 4 - 1). rewrite land_ones_mod by lia.
  pose proof (Z.mod_pos_bound (h + 9 * Z.land 1 (Z.shiftr h 6)) (2 ^ 4) ltac:(lia)). rewrite wrapu_id by (unfold in_u; lia). lia.
Qed.

(** The hexadecimal digits. *)
Lemma HexToInt_digit :
  sqlite3HexToInt <$> [48; 49; 50; 51; 52; 53; 54; 55; 56; 57; 97; 98; 99; 100; 101; 102; 65; 66; 67; 68; 69; 70]
  = [0; 1; 2; 3; 4; 5; 6; 7; 8; 9; 10; 11; 12; 13; 14; 15; 10; 11; 12; 13; 14; 15].
Proof. reflexivity. Qed.

Lemma read_hex_range w limit z u : 0 <= w -> in_u w u -> in_u w (read_hex w limit z u).1.
Proof.
  intros Hw. revert z u. induction limit as [|limit IH]; intros [|c z] u Hu; try done. cbn [read_hex].
  destruct (sqlite3Isxdigit c); [|done]. apply IH. by apply wrapu_range.
Qed.

(** What is accepted as a 32-bit integer is one. *)
Lemma GetInt32_range z v : sqlite3GetInt32 z = Some v -> in_s 32 v.
Proof.
  assert (Hdec : forall neg z v, GetInt32_dec neg z = Some v -> in_s 32 v).
  { intros neg z' v'. unfold GetInt32_dec. destruct (negb _); [done|]. rewrite read_digits_value.
    set (ds := take_digits _). assert (Hd : digits ds) by apply take_digits_digits. pose proof (dec_value_range ds Hd) as Hr.
    case_decide as Hl; [done|]. assert (dec_value ds < 10 ^ 10) by (eapply Z.lt_le_trans; [apply Hr|apply Z.pow_le_mono_r; lia]).
    rewrite wrapu_id by (unfold in_u; lia). case_decide; [done|]. intros [= <-]. unfold in_s. change (2 ^ (32 - 1)) with 2147483648. destruct neg; lia. }
  unfold sqlite3GetInt32. destruct z as [|c z]; [apply Hdec|]. repeat (case_decide; [apply Hdec|]). case_decide; [|apply Hdec].
  pose proof (read_hex_range 32 8 (skip is_zero (tail z)) 0 ltac:(lia) ltac:(done)) as Hu.
  destruct (read_hex 32 8 (skip is_zero (tail z)) 0) as [u rest]. case_decide as Hb; [|done]. intros [= <-]. by apply wraps_range.
Qed.

(** The limit of [sqlite3GetUInt32] is one too high: 2^32 is accepted, as 0. *)
Lemma GetUInt32_accepts_2_32 : sqlite3GetUInt32 [52; 50; 57; 52; 57; 54; 55; 50; 57; 54] = (true, 0).
Proof. reflexivity. Qed.

(** Without a digit or sign the code is -1. *)
Lemma DecOrHexToI64_no_digits : sqlite3DecOrHexToI64 [97; 98; 99] = (0, -1).
Proof. reflexivity. Qed.
