(* ===== verification/SqlUtf.v ===== *)
(** * Text encodings

    [sqlite/sqlite3.c] (utf.c): reading and writing characters in UTF-8 and
    UTF-16, the translation of a string between the encodings, byte-order
    marks and lengths.

    A character is a [u32]; input is whatever bytes there are, well formed or
    not.  Where the text is a C string, it is the list of its bytes before the NUL
    and the end of the list is read as 0. *)

From S2P Require Import Prelude Bits SqlText SqlInt.

Definition sqlite3Utf8Trans1 : list Z := seqZ 0 32 ++ seqZ 0 16 ++ seqZ 0 8 ++ [0; 1; 2; 3; 0; 1; 0; 0].

Definition Trans1 (c : Z) : Z := default 0 (sqlite3Utf8Trans1 !! Z.to_nat (c - 0xc0)).

(** ** Writing *)

Definition WRITE_UTF8 (c : Z) : bytes :=
  if decide (c < 0x80) then [u8 (Z.land c 0xFF)]
  else if decide (c < 0x800) then
    [u8 (0xC0 + u8 (Z.land (Z.shiftr c 6) 0x1F)); u8 (0x80 + u8 (Z.land c 0x3F))]
  else if decide (c < 0x10000) then
    [u8 (0xE0 + u8 (Z.land (Z.shiftr c 12) 0x0F)); u8 (0x80 + u8 (Z.land (Z.shiftr c 6) 0x3F));
     u8 (0x80 + u8 (Z.land c 0x3F))]
  else
    [u8 (0xF0 + u8 (Z.land (Z.shiftr c 18) 0x07)); u8 (0x80 + u8 (Z.land (Z.shiftr c 12) 0x3F));
     u8 (0x80 + u8 (Z.land (Z.shiftr c 6) 0x3F)); u8 (0x80 + u8 (Z.land c 0x3F))].

Definition WRITE_UTF16LE (c : Z) : bytes :=
  if decide (c <= 0xFFFF) then [u8 (Z.land c 0x00FF); u8 (Z.land (Z.shiftr c 8) 0x00FF)]
  else
    [u8 (Z.land (Z.shiftr c 10) 0x003F + Z.land (Z.shiftr (c - 0x10000) 10) 0x00C0);
     u8 (0x00D8 + Z.land (Z.shiftr (c - 0x10000) 18) 0x03);
     u8 (Z.land c 0x00FF); u8 (0x00DC + Z.land (Z.shiftr c 8) 0x03)].

Definition WRITE_UTF16BE (c : Z) : bytes :=
  if decide (c <= 0xFFFF) then [u8 (Z.land (Z.shiftr c 8) 0x00FF); u8 (Z.land c 0x00FF)]
  else
    [u8 (0x00D8 + Z.land (Z.shiftr (c - 0x10000) 18) 0x03);
     u8 (Z.land (Z.shiftr c 10) 0x003F + Z.land (Z.shiftr (c - 0x10000) 10) 0x00C0);
     u8 (0x00DC + Z.land (Z.shiftr c 8) 0x03); u8 (Z.land c 0x00FF)].

(** ** Reading *)

(** The bytes [10xxxxxx] that follow are added to [c]. *)
Fixpoint continue_utf8 (c : Z) (z : bytes) : Z * bytes :=
  match z with
  | b :: z' => if decide (Z.land b 0xc0 = 0x80) then continue_utf8 (u32 (shl32 c 6 + Z.land 0x3f b)) z' else (c, z)
  | [] => (c, [])
  end.

(** The test on a character of several bytes. *)
Definition invalid_utf8 (c : Z) : bool :=
  bool_decide (c < 0x80 \/ Z.land c 0xFFFFF800 = 0xD800 \/ Z.land c 0xFFFFFFFE = 0xFFFE).

(** [READ_UTF8(zIn, zTerm, c)] of the bytes between the pointers, and
    [sqlite3Utf8Read] of a C string: the character and the rest. *)
Definition sqlite3Utf8Read (z : bytes) : Z * bytes :=
  match z with
  | [] => (0, [])
  | c :: z =>
      if decide (0xc0 <= c) then
        let '(c, z) := continue_utf8 (Trans1 c) z in
        (if invalid_utf8 c then 0xFFFD else c, z)
      else (c, z)
  end.

(** The macro [Utf8Read]. *)
Definition Utf8Read (z : bytes) : Z * bytes :=
  match z with
  | c :: z' => if decide (c < 0x80) then (c, z') else sqlite3Utf8Read z
  | [] => (0, [])
  end.

(** [SQLITE_SKIP_UTF8]. *)
Definition SKIP_UTF8 (z : bytes) : bytes :=
  match z with
  | c :: z => if decide (0xc0 <= c) then (continue_utf8 0 z).2 else z
  | [] => []
  end.

(** A 16-bit character after another one: the pair. *)
Definition join_surrogates (c c2 : Z) : Z :=
  u32 (Z.land c2 0x03FF + Z.shiftl (Z.land c 0x003F) 10 + Z.shiftl (Z.land c 0x03C0 + 0x0040) 10).

(** The body of the loops from UTF-16, [z] being at least two bytes. *)
Definition read_utf16 (enc : Z) (z : bytes) : option (Z * bytes) :=
  let unit a b := if decide (enc = SQLITE_UTF16LE) then a + Z.shiftl b 8 else Z.shiftl a 8 + b in
  match z with
  | a :: b :: z =>
      let c := unit a b in
      if decide (0xd800 <= c < 0xe000) then
        match z with
        | [] => Some (c, [])
        | a2 :: b2 :: z => Some (join_surrogates c (unit a2 b2), z)
        | [_] => None
        end
      else Some (c, z)
  | _ => None
  end.

(** ** Translation *)

(** A loop [while( zIn<zTerm )] over a reader and a writer; [None] when a
    read goes past [zTerm]. *)
Fixpoint translate (fuel : nat) (read : bytes -> option (Z * bytes)) (write : Z -> bytes) (zIn : bytes) : option bytes :=
  match zIn with
  | [] => Some []
  | _ =>
      match fuel with
      | O => None
      | S fuel => '(c, zIn) ← read zIn; z ← translate fuel read write zIn; Some (write c ++ z)
      end
  end.

Fixpoint swap_bytes (z : bytes) : bytes :=
  match z with a :: b :: z => b :: a :: swap_bytes z | _ => z end.

Definition even_part (z : bytes) : bytes := take (2 * (length z / 2)) z.

(** [sqlite3VdbeMemTranslate] on the string of a value, when memory is
    available: the size [len] allocated (0 when the string is changed in place), the new string,
    and its terminator. *)
Definition sqlite3VdbeMemTranslate (z : bytes) (enc desiredEnc : Z) : option (Z * bytes * bytes) :=
  if decide (enc <> SQLITE_UTF8 /\ desiredEnc <> SQLITE_UTF8) then Some (0, swap_bytes z, [])
  else if decide (enc = SQLITE_UTF8) then
    let write := if decide (desiredEnc = SQLITE_UTF16LE) then WRITE_UTF16LE else WRITE_UTF16BE in
    out ← translate (length z) (fun z => Some (sqlite3Utf8Read z)) write z;
    Some (2 * Z.of_nat (length z) + 2, out, [0; 0])
  else
    let z := even_part z in
    out ← translate (length z) (read_utf16 enc) WRITE_UTF8 z;
    Some (2 * Z.of_nat (length z) + 1, out, [0]).

(** The string and its encoding after a byte-order mark is taken off. *)
Definition sqlite3VdbeMemHandleBom (z : bytes) (enc : Z) : bytes * Z :=
  match z with
  | b1 :: b2 :: z' =>
      if decide (b1 = 0xFE /\ b2 = 0xFF) then (z', SQLITE_UTF16BE)
      else if decide (b1 = 0xFF /\ b2 = 0xFE) then (z', SQLITE_UTF16LE)
      else (z, enc)
  | _ => (z, enc)
  end.

(** ** Lengths *)

(** The loop of [sqlite3Utf8CharLen] over a C string of which [n] bytes are left before [zTerm]. *)
Fixpoint char_len_loop (fuel : nat) (z : bytes) (n : Z) : option Z :=
  match z with
  | [] => Some 0
  | _ =>
      if decide (0 < n) then
        match fuel with
        | O => None
        | S fuel => let z' := SKIP_UTF8 z in r ← char_len_loop fuel z' (n - Z.of_nat (length z - length z')); Some (r + 1)
        end
      else Some 0
  end.

(** Without a limit the end of the address space is [zTerm]. *)
Definition sqlite3Utf8CharLen (z : bytes) (nByte : Z) : option Z :=
  char_len_loop (length z) z (if decide (0 <= nByte) then nByte else 2 ^ 64).

(** ** Characters *)

(** A mask of [k] bits from bit [n] on. *)
Lemma land_field x k n : 0 <= k -> 0 <= n -> Z.land x (Z.shiftl (Z.ones k) n) = (x / 2 ^ n) mod 2 ^ k * 2 ^ n.
Proof.
  intros Hk Hn. rewrite <- Z.shiftr_div_pow2, <- Z.land_ones, <- Z.shiftl_mul_pow2 by lia.
  apply Z.bits_inj'. intros i Hi. rewrite Z.land_spec, !Z.shiftl_spec by lia.
  destruct (decide (n <= i)).
  - rewrite Z.land_spec, Z.shiftr_spec by lia. do 2 f_equal. lia.
  - rewrite !(Z.testbit_neg_r _ (i - n)) by lia. by rewrite andb_false_r.
Qed.

Lemma land_0x3F x : Z.land x 0x3F = x mod 64.
Proof. by apply (land_ones_mod x 6). Qed.

Lemma land_0xFF x : Z.land x 0xFF = x mod 256.
Proof. by apply (land_ones_mod x 8). Qed.

Lemma land_0xC0 x : Z.land x 0xC0 = x / 64 mod 4 * 64.
Proof. by apply (land_field x 2 6). Qed.

Lemma invalid_utf8_spec c : 0 <= c < 2 ^ 32 -> invalid_utf8 c = true <-> c < 0x80 \/ 0xD800 <= c < 0xE000 \/ c = 0xFFFE \/ c = 0xFFFF.
Proof.
  intros Hc. unfold invalid_utf8. rewrite bool_decide_eq_true.
  assert (E1 : Z.land c 0xFFFFF800 = c / 2048 mod 2 ^ 21 * 2048) by by apply (land_field c 21 11).
  assert (E2 : Z.land c 0xFFFFFFFE = c / 2 mod 2 ^ 31 * 2) by by apply (land_field c 31 1).
  rewrite E1, E2, !Z.mod_small by mods. mods.
Qed.

Definition char32 (c : Z) : Prop := 0 <= c < 0x110000.

(** A Unicode scalar value: a code point that is not a surrogate. *)
Definition scalar (c : Z) : Prop := char32 c /\ ~ 0xD800 <= c < 0xE000.

(** What the UTF-8 decoder makes of a scalar value: the noncharacters U+FFFE
    and U+FFFF become U+FFFD, the replacement character. *)
Definition replaced (c : Z) : Z := if decide (c = 0xFFFE \/ c = 0xFFFF) then 0xFFFD else c.

Definition continuation (b : Z) : bool := bool_decide (Z.land b 0xc0 = 0x80).

(** The first byte is not a continuation byte. *)
Definition starts_char (z : bytes) : Prop := match z with b :: _ => continuation b = false | [] => True end.

Lemma continue_stop c z : starts_char z -> continue_utf8 c z = (c, z).
Proof. destruct z as [|b z]; [done|]. cbn. intros Hb. apply bool_decide_eq_false in Hb. by rewrite decide_False. Qed.

Lemma continue_step c x z : 0 <= x < 64 -> 0 <= c < 2 ^ 26 -> continue_utf8 c (u8 (0x80 + u8 x) :: z) = continue_utf8 (c * 64 + x) z.
Proof.
  intros Hx Hc. assert (u8 (0x80 + u8 x) = 128 + x) as -> by (unfold wrapu; change (2 ^ 8) with 256; mods).
  cbn [continue_utf8]. rewrite land_0xC0. rewrite decide_True by mods. f_equal.
  rewrite shl32_mul by lia. rewrite Z.land_comm, land_0x3F. unfold wrapu. change (2 ^ 32) with 4294967296. change (2 ^ 6) with 64. mods.
Qed.



Lemma Forall_seqZ_dec (P : Z -> Prop) a n : Forall P (seqZ a n) -> forall y, a <= y < a + n -> P y.
Proof. intros H y Hy. rewrite Forall_forall in H. apply H. apply elem_of_seqZ. lia. Qed.

Lemma Trans1_C0 y : 0 <= y < 32 -> Trans1 (0xC0 + y) = y.
Proof. revert y. apply (Forall_seqZ_dec _ 0 32). apply (bool_decide_unpack _). vm_compute. exact I. Qed.

Lemma Trans1_E0 y : 0 <= y < 16 -> Trans1 (0xE0 + y) = y.
Proof. revert y. apply (Forall_seqZ_dec _ 0 16). apply (bool_decide_unpack _). vm_compute. exact I. Qed.

Lemma Trans1_F0 y : 0 <= y < 8 -> Trans1 (0xF0 + y) = y.
Proof. revert y. apply (Forall_seqZ_dec _ 0 8). apply (bool_decide_unpack _). vm_compute. exact I. Qed.

Lemma Trans1_range c : 0 <= Trans1 c < 32.
Proof.
  unfold Trans1. destruct (sqlite3Utf8Trans1 !! _) as [y|] eqn:E; [|cbn; lia]. cbn. apply list_elem_of_lookup_2 in E.
  revert y E. apply Forall_forall. apply (bool_decide_unpack _). vm_compute. exact I.
Qed.

(** A field of a character, shifted out. *)
Lemma field c n k : 0 <= n -> 0 <= k -> Z.land (Z.shiftr c n) (2 ^ k - 1) = c / 2 ^ n mod 2 ^ k.
Proof. intros. rewrite land_ones_mod by done. by rewrite Z.shiftr_div_pow2. Qed.

(** What is written as UTF-8 is read back, with the noncharacters replaced. *)
Lemma utf8_char_round_trip c rest : scalar c -> starts_char rest ->
  sqlite3Utf8Read (WRITE_UTF8 c ++ rest) = (replaced c, rest).
Proof.
  unfold scalar, char32, replaced. intros [Hc Hsur] Hrest. unfold WRITE_UTF8.
  assert (F3F : forall n, 0 <= n -> Z.land (Z.shiftr c n) 0x3F = c / 2 ^ n mod 64) by (intros; by apply (field c n 6)).
  assert (Hfin : forall lo, 0x80 <= lo -> lo <= c -> (let '(c', z) := continue_utf8 c rest in (if invalid_utf8 c' then 65533 else c', z))
    = (if decide (c = 0xFFFE \/ c = 0xFFFF) then 0xFFFD else c, rest)).
  { intros lo Hlo Hle. rewrite continue_stop by done. f_equal. pose proof (invalid_utf8_spec c ltac:(lia)) as Hi.
    destruct (invalid_utf8 c); case_decide; try done; [|exfalso; assert (false = true) by (apply Hi; lia); done].
    exfalso. assert (true = true) as Ht by done. apply Hi in Ht. lia. }
  destruct (decide (c < 0x80)) as [H1|H1]; [|destruct (decide (c < 0x800)) as [H2|H2]; [|destruct (decide (c < 0x10000)) as [H3|H3]]];
    cbn [app sqlite3Utf8Read].
  - rewrite land_0xFF. assert (u8 (c mod 256) = c) as -> by (unfold wrapu; change (2 ^ 8) with 256; mods).
    rewrite decide_False by lia. by rewrite decide_False by lia.
  - assert (Z.land (Z.shiftr c 6) 0x1F = c / 64 mod 32) as -> by by apply (field c 6 5).
    assert (u8 (0xC0 + u8 (c / 64 mod 32)) = 0xC0 + c / 64) as -> by (unfold wrapu; change (2 ^ 8) with 256; mods).
    rewrite decide_True by mods. rewrite Trans1_C0 by mods. rewrite land_0x3F. rewrite continue_step by mods.
    replace (c / 64 * 64 + c mod 64) with c by mods. apply (Hfin 0x80); lia.
  - assert (Z.land (Z.shiftr c 12) 0x0F = c / 4096 mod 16) as -> by by apply (field c 12 4).
    assert (u8 (0xE0 + u8 (c / 4096 mod 16)) = 0xE0 + c / 4096) as -> by (unfold wrapu; change (2 ^ 8) with 256; mods).
    rewrite decide_True by mods. rewrite Trans1_E0 by mods. rewrite F3F, land_0x3F by lia. change (2 ^ 6) with 64.
    rewrite !continue_step by mods.
    replace ((c / 4096 * 64 + c / 64 mod 64) * 64 + c mod 64) with c by mods. apply (Hfin 0x800); lia.
  - assert (Z.land (Z.shiftr c 18) 0x07 = c / 262144 mod 8) as -> by by apply (field c 18 3).
    assert (u8 (0xF0 + u8 (c / 262144 mod 8)) = 0xF0 + c / 262144) as -> by (unfold wrapu; change (2 ^ 8) with 256; mods).
    rewrite decide_True by mods. rewrite Trans1_F0 by mods. rewrite !F3F, land_0x3F by lia. change (2 ^ 6) with 64. change (2 ^ 12) with 4096.
    rewrite !continue_step by mods.
    replace (((c / 262144 * 64 + c / 4096 mod 64) * 64 + c / 64 mod 64) * 64 + c mod 64) with c by mods. apply (Hfin 0x10000); lia.
Qed.

(** ** The translation fits its buffer *)

Lemma continue_bound z : forall c c' z', bytes_ok z -> continue_utf8 c z = (c', z') ->
  exists n, length z = (n + length z')%nat /\ bytes_ok z' /\ (n = 0%nat -> c' = c)
    /\ (n = 1%nat -> 0 <= c < 32 -> 0 <= c' < 2048).
Proof.
  induction z as [|b z IH]; intros c c' z' Hz E; cbn [continue_utf8] in E.
  - injection E as <- <-. exists 0%nat. split; [done|]. split; [done|]. split; [done|]. intros [=].
  - case_decide as Hb; [|injection E as <- <-; exists 0%nat; split; [done|]; split; [done|]; split; [done|]; intros [=]].
    apply Forall_cons in Hz as [Hb0 Hz]. apply IH in E as (n & Hl & Hz' & H0 & H1); [|done].
    exists (S n). split; [cbn; lia|]. split; [done|]. split; [done|]. intros [= ->] Hc. rewrite H0 by done.
    rewrite shl32_mul, Z.land_comm, land_0x3F by lia. unfold wrapu. change (2 ^ 32) with 4294967296. change (2 ^ 6) with 64. mods.
Qed.

Lemma read_utf8_bound z : bytes_ok z -> z <> [] -> exists c z', sqlite3Utf8Read z = (c, z') /\ bytes_ok z'
  /\ exists k, length z = (k + length z')%nat /\ (0 < k)%nat /\ ((k <= 2)%nat -> 0 <= c <= 0xFFFF).
Proof.
  intros Hz Hne. destruct z as [|b z]; [done|]. apply Forall_cons in Hz as [Hb Hz]. cbn [sqlite3Utf8Read]. case_decide as Hc.
  - destruct (continue_utf8 (Trans1 b) z) as [c z'] eqn:E. apply continue_bound in E as (n & Hl & Hz' & H0 & H1); [|done].
    pose proof (Trans1_range b) as Ht. eexists _, z'. split; [done|]. split; [done|]. exists (S n). split; [cbn; lia|]. split; [lia|].
    intros Hn. destruct (invalid_utf8 c); [lia|]. destruct (decide (n = 0%nat)); [rewrite H0 by done; lia|]. specialize (H1 ltac:(lia) Ht). lia.
  - exists b, z. split; [done|]. split; [done|]. exists 1%nat. split; [done|]. split; [lia|]. unfold byte_ok in Hb. lia.
Qed.

Lemma length_WRITE_UTF16 c : (c <= 0xFFFF -> length (WRITE_UTF16LE c) = 2%nat /\ length (WRITE_UTF16BE c) = 2%nat)
  /\ (length (WRITE_UTF16LE c) <= 4)%nat /\ (length (WRITE_UTF16BE c) <= 4)%nat.
Proof. unfold WRITE_UTF16LE, WRITE_UTF16BE. case_decide; cbn; split; (done || lia). Qed.

Lemma length_WRITE_UTF8 c : (c < 0x10000 -> (length (WRITE_UTF8 c) <= 3)%nat) /\ (length (WRITE_UTF8 c) <= 4)%nat.
Proof. unfold WRITE_UTF8. repeat case_decide; cbn; lia. Qed.

Lemma read_utf16_bound enc z n : length z = (2 * n)%nat -> bytes_ok z -> z <> [] -> exists c z', read_utf16 enc z = Some (c, z')
  /\ bytes_ok z' /\ exists k m, (length z = k + length z')%nat /\ (length z' = 2 * m)%nat /\ (0 < k)%nat /\ (length (WRITE_UTF8 c) <= 2 * k)%nat.
Proof.
  intros Hlen Hz Hne. destruct z as [|a [|b z]]; [done|cbn in Hlen; lia|]. cbn [length] in Hlen.
  apply Forall_cons in Hz as [Ha Hz]. apply Forall_cons in Hz as [Hb Hz]. unfold byte_ok in Ha, Hb. cbn [read_utf16].
  set (c := if decide (enc = SQLITE_UTF16LE) then a + Z.shiftl b 8 else Z.shiftl a 8 + b).
  assert (Hc : 0 <= c < 0x10000) by (unfold c; rewrite !Z.shiftl_mul_pow2 by lia; case_decide; lia).
  destruct (length_WRITE_UTF8 c) as [H3 _]. case_decide as Hs.
  - destruct z as [|a2 [|b2 z]]; [|cbn in Hlen; lia|].
    + exists c, []. split; [done|]. split; [constructor|]. exists 2%nat, 0%nat. cbn [length]. lia.
    + apply Forall_cons in Hz as [_ Hz]. apply Forall_cons in Hz as [_ Hz]. eexists _, z. split; [done|]. split; [done|].
      exists 4%nat, (n - 2)%nat. cbn [length] in *. destruct (length_WRITE_UTF8 (join_surrogates c (if decide (enc = SQLITE_UTF16LE) then a2 + Z.shiftl b2 8 else Z.shiftl a2 8 + b2))) as [_ H4]. lia.
  - exists c, z. split; [done|]. split; [done|]. exists 2%nat, (n - 1)%nat. cbn [length]. lia.
Qed.

Lemma translate_bound (P : bytes -> Prop) read write :
  (forall z, P z -> z <> [] -> exists c z' k, read z = Some (c, z') /\ P z' /\ length z = (k + length z')%nat /\ (0 < k)%nat
     /\ (length (write c) <= 2 * k)%nat) ->
  forall fuel z, P z -> (length z <= fuel)%nat -> exists out, translate fuel read write z = Some out /\ (length out <= 2 * length z)%nat.
Proof.
  intros Hread. induction fuel as [|fuel IH]; intros z Hz Hf; (destruct z as [|b z]; [by exists []|]); [cbn in Hf; lia|].
  destruct (Hread (b :: z) Hz) as (c & z' & k & Hr & Hz' & Hl & Hk & Hw); [done|]. cbn [translate]. rewrite Hr. cbn [mbind option_bind].
  destruct (IH z' Hz') as (out & -> & Hout); [cbn [length] in *; lia|]. cbn [mbind option_bind]. eexists. split; [done|]. rewrite length_app. lia.
Qed.

Lemma length_even_part z : exists n, length (even_part z) = (2 * n)%nat /\ (length (even_part z) <= length z)%nat.
Proof.
  exists (length z / 2)%nat. unfold even_part. rewrite length_take.
  pose proof (Nat.Div0.mul_div_le (length z) 2). lia.
Qed.

Lemma length_swap_bytes n : forall z, (length z <= n)%nat -> length (swap_bytes z) = length z.
Proof.
  induction n as [|n IH]; intros [|a [|b z]] Hl; cbn in *; try done; try lia. rewrite IH by lia. done.
Qed.

(** Whatever bytes a string has, its translation and the terminator fit the memory
    allocated for them, and no byte after the string is read. *)
Theorem translation_fits z enc desiredEnc :
  bytes_ok z -> enc <> desiredEnc ->
  enc ∈ [SQLITE_UTF8; SQLITE_UTF16LE; SQLITE_UTF16BE] -> desiredEnc ∈ [SQLITE_UTF8; SQLITE_UTF16LE; SQLITE_UTF16BE] ->
  exists len out term, sqlite3VdbeMemTranslate z enc desiredEnc = Some (len, out, term) /\
    (if decide (enc = SQLITE_UTF8 \/ desiredEnc = SQLITE_UTF8)
     then length term = (if decide (desiredEnc = SQLITE_UTF8) then 1 else 2)%nat /\ Z.of_nat (length out + length term) <= len
     else length out = length z).
Proof.
  intros Hz Hne Henc Hdes. unfold sqlite3VdbeMemTranslate. destruct (decide (enc = SQLITE_UTF8)) as [->|He].
  - rewrite decide_False by tauto.
    set (write := if decide (desiredEnc = SQLITE_UTF16LE) then _ else _).
    destruct (translate_bound bytes_ok (fun z => Some (sqlite3Utf8Read z)) write) with (fuel := length z) (z := z) as (out & -> & Hout);
      [|done|done|].
    + intros y Hy Hne'. destruct (read_utf8_bound y Hy Hne') as (c & z' & -> & Hz' & k & Hl & Hk & Hc). exists c, z', k.
      split; [done|]. split; [done|]. split; [done|]. split; [done|]. destruct (length_WRITE_UTF16 c) as (H2 & H4 & H4').
      assert (length (write c) <= 4)%nat by (unfold write; by case_decide).
      destruct (decide (k <= 2)%nat) as [Hk2|]; [|lia]. specialize (Hc Hk2). destruct (H2 ltac:(lia)) as [E1 E2].
      assert (length (write c) = 2)%nat by (unfold write; by case_decide). lia.
    + cbn [mbind option_bind]. eexists _, out, _. split; [done|]. rewrite decide_True by tauto. rewrite decide_False by done.
      split; [done|]. rewrite Nat2Z.inj_add. cbn [length]. lia.
  - destruct (decide (desiredEnc = SQLITE_UTF8)) as [->|Hd].
    + rewrite decide_False by tauto. destruct (length_even_part z) as (n & Hn & Hle).
      assert (Hze : bytes_ok (even_part z)) by (by apply Forall_take).
      destruct (translate_bound (fun z => bytes_ok z /\ exists n, length z = (2 * n)%nat) (read_utf16 enc) WRITE_UTF8)
        with (fuel := length (even_part z)) (z := even_part z) as (out & -> & Hout); [|split; [done|by exists n]|done|].
      * intros y [Hy [k0 Hk0]] Hne'. destruct (read_utf16_bound enc y k0 Hk0 Hy Hne') as (c & z' & Hr & Hz' & k & m & Hl & Hm & Hk & Hw).
        exists c, z', k. split; [done|]. split; [split; [done|by exists m]|]. done.
      * cbn [mbind option_bind]. eexists _, out, _. split; [done|]. rewrite decide_True by tauto. split; [done|].
        rewrite Nat2Z.inj_add. cbn [length]. lia.
    + rewrite decide_True by done. eexists _, _, _. split; [done|]. rewrite decide_False by tauto. by apply (length_swap_bytes (length z)).
Qed.

(** An overlong sequence, a lone lead byte, and half a surrogate pair. *)
Lemma translation_fits_witness :
  exists len out term, sqlite3VdbeMemTranslate [0xDF; 0x80; 0xBF; 0xC3; 65] SQLITE_UTF8 SQLITE_UTF16LE = Some (len, out, term) /\
    (if decide (SQLITE_UTF8 = SQLITE_UTF8 \/ SQLITE_UTF16LE = SQLITE_UTF8)
     then length term = (if decide (SQLITE_UTF16LE = SQLITE_UTF8) then 1 else 2)%nat /\ Z.of_nat (length out + length term) <= len
     else length out = length [0xDF; 0x80; 0xBF; 0xC3; 65]).
Proof. apply translation_fits; [repeat constructor; vm_compute; congruence|discriminate|set_solver|set_solver]. Defined.

(** ** Text survives translation *)

Definition utf8 (cs : list Z) : bytes := concat (WRITE_UTF8 <$> cs).

Definition utf16 (enc : Z) (cs : list Z) : bytes :=
  concat ((if decide (enc = SQLITE_UTF16LE) then WRITE_UTF16LE else WRITE_UTF16BE) <$> cs).

Lemma WRITE_UTF8_starts c : char32 c -> exists b rest, WRITE_UTF8 c = b :: rest /\ continuation b = false.
Proof.
  unfold char32, WRITE_UTF8, continuation. intros Hc.
  assert (H : forall y, 0 <= y < 32 -> Z.land (u8 (0xC0 + u8 y)) 0xc0 <> 0x80).
  { intros y Hy. assert (u8 (0xC0 + u8 y) = 0xC0 + y) as -> by (unfold wrapu; change (2 ^ 8) with 256; mods). rewrite land_0xC0. mods. }
  assert (F : forall n k, 0 <= n -> 0 <= k -> Z.land (Z.shiftr c n) (2 ^ k - 1) = c / 2 ^ n mod 2 ^ k) by (intros; by apply field).
  repeat case_decide; eexists _, _; (split; [reflexivity|]); apply bool_decide_eq_false.
  - rewrite land_0xFF, land_0xC0. unfold wrapu. change (2 ^ 8) with 256. mods.
  - pose proof (F 6 5 ltac:(lia) ltac:(lia)) as E. change (2 ^ 5 - 1) with 0x1F in E. rewrite E. apply H. change (2 ^ 5) with 32. mods.
  - pose proof (F 12 4 ltac:(lia) ltac:(lia)) as E. change (2 ^ 4 - 1) with 0x0F in E. rewrite E.
    change (0xE0 + u8 (c / 2 ^ 12 mod 2 ^ 4)) with (0xE0 + u8 (c / 2 ^ 12 mod 2 ^ 4)).
    replace (0xE0 + u8 (c / 2 ^ 12 mod 2 ^ 4)) with (0xC0 + u8 (0x20 - 0x10 + c / 2 ^ 12 mod 2 ^ 4 + 0x10)).
    2: { unfold wrapu. change (2 ^ 8) with 256. change (2 ^ 4) with 16. mods. }
    unfold wrapu. change (2 ^ 8) with 256. change (2 ^ 4) with 16. rewrite land_0xC0. mods.
  - pose proof (F 18 3 ltac:(lia) ltac:(lia)) as E. change (2 ^ 3 - 1) with 0x07 in E. rewrite E.
    unfold wrapu. change (2 ^ 8) with 256. change (2 ^ 3) with 8. rewrite land_0xC0. mods.
Qed.

Lemma utf8_starts cs : Forall char32 cs -> starts_char (utf8 cs).
Proof.
  intros [|c cs' Hc _]; [done|]. unfold utf8. rewrite fmap_cons. cbn [concat].
  destruct (WRITE_UTF8_starts c Hc) as (b & rest & -> & Hb). done.
Qed.

(** A character written as UTF-16 is read back from the front. *)
Lemma utf16_char_round_trip enc c rest : enc = SQLITE_UTF16LE \/ enc = SQLITE_UTF16BE -> scalar c ->
  read_utf16 enc ((if decide (enc = SQLITE_UTF16LE) then WRITE_UTF16LE else WRITE_UTF16BE) c ++ rest) = Some (c, rest).
Proof.
  unfold scalar, char32. intros Henc (Hc & Hs). set (d := c - 0x10000).
  set (u1 := 0xD800 + d / 1024 mod 1024). set (u2 := 0xDC00 + c mod 1024).
  assert (Hj : 0x10000 <= c -> join_surrogates u1 u2 = c).
  { intros H. unfold join_surrogates.
    assert (Z.land u2 0x03FF = u2 mod 1024) as -> by by apply (land_ones_mod _ 10).
    rewrite land_0x3F. assert (Z.land u1 0x03C0 = u1 / 64 mod 16 * 64) as -> by by apply (land_field _ 4 6).
    rewrite !Z.shiftl_mul_pow2 by lia. change (2 ^ 10) with 1024. unfold wrapu. change (2 ^ 32) with 4294967296. unfold u1, u2, d. mods. }
  assert (E1 : forall n, 0 <= n -> Z.land (Z.shiftr d n) 0xC0 = d / 2 ^ (n + 6) mod 4 * 64).
  { intros. rewrite land_0xC0, Z.shiftr_div_pow2, Z.div_div, Z.pow_add_r by lia. done. }
  assert (E2 : forall x n, 0 <= n -> Z.land (Z.shiftr x n) 0x03 = x / 2 ^ n mod 4) by (intros; by apply (field _ _ 2)).
  assert (Hb0 : u8 (Z.land (Z.shiftr c 10) 0x003F + Z.land (Z.shiftr d 10) 0x00C0) = u1 mod 256).
  { rewrite E1 by lia. assert (Z.land (Z.shiftr c 10) 0x003F = c / 1024 mod 64) as -> by by apply (field c 10 6).
    change (2 ^ (10 + 6)) with 65536. unfold wrapu. change (2 ^ 8) with 256. unfold u1, d. mods. }
  assert (Hb1 : u8 (0x00D8 + Z.land (Z.shiftr d 18) 0x03) = u1 / 256).
  { rewrite E2 by lia. change (2 ^ 18) with 262144. unfold wrapu. change (2 ^ 8) with 256. unfold u1, d. mods. }
  assert (Hb2 : u8 (Z.land c 0x00FF) = u2 mod 256).
  { rewrite land_0xFF. unfold wrapu. change (2 ^ 8) with 256. unfold u2. mods. }
  assert (Hb3 : u8 (0x00DC + Z.land (Z.shiftr c 8) 0x03) = u2 / 256).
  { rewrite E2 by lia. unfold wrapu. change (2 ^ 8) with 256. unfold u2. mods. }
  assert (Hlo : c <= 0xFFFF -> u8 (Z.land (Z.shiftr c 8) 0x00FF) = c / 256).
  { intros H. assert (Z.land (Z.shiftr c 8) 0xFF = c / 256 mod 256) as -> by by apply (field c 8 8).
    unfold wrapu. change (2 ^ 8) with 256. mods. }
  assert (Hc2 : u8 (Z.land c 0x00FF) = c mod 256) by (rewrite land_0xFF; unfold wrapu; change (2 ^ 8) with 256; mods).
  assert (Hu1 : 0xd800 <= u1 < 0xe000) by (unfold u1; mods).
  destruct Henc as [-> | ->]; [rewrite decide_True by done|rewrite decide_False by done];
    unfold WRITE_UTF16LE, WRITE_UTF16BE; fold d; (destruct (decide (c <= 0xFFFF)) as [Hle|Hle]).
  - rewrite Hlo, Hc2 by done. cbn [app read_utf16]. rewrite !(decide_True (P := SQLITE_UTF16LE = SQLITE_UTF16LE)) by done. rewrite Z.shiftl_mul_pow2 by lia. change (2 ^ 8) with 256.
    replace (c mod 256 + c / 256 * 256) with c by mods. by rewrite decide_False by lia.
  - rewrite Hb0, Hb1, Hb2, Hb3. cbn [app read_utf16]. rewrite !(decide_True (P := SQLITE_UTF16LE = SQLITE_UTF16LE)) by done. rewrite !Z.shiftl_mul_pow2 by lia. change (2 ^ 8) with 256.
    replace (u1 mod 256 + u1 / 256 * 256) with u1 by mods. replace (u2 mod 256 + u2 / 256 * 256) with u2 by mods.
    rewrite decide_True by done. rewrite Hj by lia. done.
  - rewrite Hlo, Hc2 by done. cbn [app read_utf16]. rewrite !(decide_False (P := SQLITE_UTF16BE = SQLITE_UTF16LE)) by done. rewrite Z.shiftl_mul_pow2 by lia. change (2 ^ 8) with 256.
    replace (c / 256 * 256 + c mod 256) with c by mods. by rewrite decide_False by lia.
  - rewrite Hb0, Hb1, Hb2, Hb3. cbn [app read_utf16]. rewrite !(decide_False (P := SQLITE_UTF16BE = SQLITE_UTF16LE)) by done.
    rewrite !Z.shiftl_mul_pow2 by lia. change (2 ^ 8) with 256.
    replace (u1 / 256 * 256 + u1 mod 256) with u1 by mods. replace (u2 / 256 * 256 + u2 mod 256) with u2 by mods.
    rewrite decide_True by done. rewrite Hj by lia. done.
Qed.

(** A reader that makes [g c] of the encoding of a character [c]. *)
Lemma translate_chars read write enc_of (g : Z -> Z) (cs : list Z) :
  (forall c rest cs', cs = rest ++ c :: cs' ->
     enc_of c <> [] /\ read (enc_of c ++ concat (enc_of <$> cs')) = Some (g c, concat (enc_of <$> cs'))) ->
  forall fuel, (length (concat (enc_of <$> cs)) <= fuel)%nat ->
  translate fuel read write (concat (enc_of <$> cs)) = Some (concat (write <$> (g <$> cs))).
Proof.
  induction cs as [|c cs IH]; intros Hr fuel Hf; [by destruct fuel|]. rewrite !fmap_cons in *. cbn [concat] in *.
  destruct (Hr c [] cs eq_refl) as [Hne Hread]. rewrite length_app in Hf.
  destruct fuel as [|fuel]; [destruct (enc_of c); [done|cbn in Hf; lia]|].
  destruct (enc_of c ++ concat (enc_of <$> cs)) as [|b z] eqn:E; [by apply app_eq_nil in E as [? _]|].
  cbn [translate]. rewrite Hread. cbn [mbind option_bind]. rewrite IH; [done| |].
  - intros c' rest cs' ->. by apply (Hr c' (c :: rest) cs').
  - destruct (enc_of c); [done|]. cbn in Hf. lia.
Qed.

Lemma swap_WRITE c z : swap_bytes (WRITE_UTF16LE c ++ z) = WRITE_UTF16BE c ++ swap_bytes z
  /\ swap_bytes (WRITE_UTF16BE c ++ z) = WRITE_UTF16LE c ++ swap_bytes z.
Proof. unfold WRITE_UTF16LE, WRITE_UTF16BE. by case_decide. Qed.

Lemma swap_utf16 cs : swap_bytes (utf16 SQLITE_UTF16LE cs) = utf16 SQLITE_UTF16BE cs
  /\ swap_bytes (utf16 SQLITE_UTF16BE cs) = utf16 SQLITE_UTF16LE cs.
Proof.
  unfold utf16. rewrite (decide_True (P := SQLITE_UTF16LE = SQLITE_UTF16LE)), (decide_False (P := SQLITE_UTF16BE = SQLITE_UTF16LE)) by done.
  induction cs as [|c cs [IH1 IH2]]; [done|]. rewrite !fmap_cons. cbn [concat].
  destruct (swap_WRITE c (concat (WRITE_UTF16LE <$> cs))) as [-> _]. destruct (swap_WRITE c (concat (WRITE_UTF16BE <$> cs))) as [_ ->].
  by rewrite IH1, IH2.
Qed.

Lemma even_part_utf16 enc cs : even_part (utf16 enc cs) = utf16 enc cs.
Proof.
  assert (exists n, length (utf16 enc cs) = (2 * n)%nat) as [n Hn].
  { unfold utf16. induction cs as [|c cs [n IH]]; [by exists 0%nat|]. rewrite fmap_cons. cbn [concat]. rewrite length_app, IH.
    unfold WRITE_UTF16LE, WRITE_UTF16BE. repeat case_decide; cbn [length]; [exists (S n)|exists (S (S n))|exists (S n)|exists (S (S n))]; lia. }
  unfold even_part. rewrite Hn. replace (2 * n)%nat with (n * 2)%nat by lia. rewrite Nat.div_mul by lia. apply firstn_all2. lia.
Qed.

(** *** The encoding forms of Unicode

    The text of characters [cs] in each encoding, by arithmetic: it refers to
    none of the routines above. *)

Definition utf8_form (c : Z) : bytes :=
  if decide (c < 128) then [c]
  else if decide (c < 2048) then [192 + c / 64; 128 + c mod 64]
  else if decide (c < 65536) then [224 + c / 4096; 128 + c / 64 mod 64; 128 + c mod 64]
  else [240 + c / 262144; 128 + c / 4096 mod 64; 128 + c / 64 mod 64; 128 + c mod 64].

(** The 16-bit units: one, or a high and a low surrogate. *)
Definition utf16_units (c : Z) : list Z :=
  if decide (c < 65536) then [c] else [0xD800 + (c - 65536) / 1024; 0xDC00 + (c - 65536) mod 1024].

Inductive text_in : Z -> list Z -> bytes -> Prop :=
| text_utf8 cs : text_in SQLITE_UTF8 cs (c ← cs; utf8_form c)
| text_utf16le cs : text_in SQLITE_UTF16LE cs (u ← (c ← cs; utf16_units c); [u mod 256; u / 256])
| text_utf16be cs : text_in SQLITE_UTF16BE cs (u ← (c ← cs; utf16_units c); [u / 256; u mod 256]).

Lemma WRITE_UTF8_form c : scalar c -> WRITE_UTF8 c = utf8_form c.
Proof.
  unfold scalar, char32. intros [Hc _]. unfold WRITE_UTF8, utf8_form.
  assert (F : forall n k, 0 <= n -> 0 <= k -> Z.land (Z.shiftr c n) (2 ^ k - 1) = c / 2 ^ n mod 2 ^ k) by (intros; by apply field).
  assert (F3F : forall n, 0 <= n -> Z.land (Z.shiftr c n) 0x3F = c / 2 ^ n mod 64) by (intros; by apply (field c n 6)).
  pose proof (F 6 5 ltac:(lia) ltac:(lia)) as E1. change (2 ^ 5 - 1) with 0x1F in E1.
  pose proof (F 12 4 ltac:(lia) ltac:(lia)) as E2. change (2 ^ 4 - 1) with 0x0F in E2.
  pose proof (F 18 3 ltac:(lia) ltac:(lia)) as E3. change (2 ^ 3 - 1) with 0x07 in E3.
  repeat case_decide; rewrite ?E1, ?E2, ?E3, ?F3F, ?land_0x3F, ?land_0xFF by lia; unfold wrapu;
    change (2 ^ 8) with 256; change (2 ^ 6) with 64; change (2 ^ 12) with 4096; change (2 ^ 18) with 262144;
    change (2 ^ 5) with 32; change (2 ^ 4) with 16; change (2 ^ 3) with 8; repeat (apply (f_equal2 cons); [mods|]); reflexivity.
Qed.

Lemma WRITE_UTF16_form c : scalar c ->
  WRITE_UTF16LE c = (u ← utf16_units c; [u mod 256; u / 256]) /\
  WRITE_UTF16BE c = (u ← utf16_units c; [u / 256; u mod 256]).
Proof.
  unfold scalar, char32. intros [Hc _]. unfold WRITE_UTF16LE, WRITE_UTF16BE, utf16_units.
  assert (E8 : Z.land (Z.shiftr c 8) 0x00FF = c / 256 mod 256) by by apply (field c 8 8).
  assert (E10 : Z.land (Z.shiftr c 10) 0x003F = c / 1024 mod 64) by by apply (field c 10 6).
  assert (Ed10 : Z.land (Z.shiftr (c - 0x10000) 10) 0x00C0 = (c - 0x10000) / 65536 mod 4 * 64)
    by (rewrite land_0xC0, Z.shiftr_div_pow2, Z.div_div by lia; done).
  assert (Ed18 : Z.land (Z.shiftr (c - 0x10000) 18) 0x03 = (c - 0x10000) / 262144 mod 4) by by apply (field _ 18 2).
  assert (E83 : Z.land (Z.shiftr c 8) 0x03 = c / 256 mod 4) by by apply (field c 8 2).
  rewrite E8, E10, Ed10, Ed18, E83, land_0xFF. unfold wrapu. change (2 ^ 8) with 256.
  destruct (decide (c <= 0xFFFF)), (decide (c < 65536)); try lia; cbn [mbind list_bind app];
    split; repeat (apply (f_equal2 cons); [mods|]); reflexivity.
Qed.

Lemma text_in_utf8 cs z : Forall scalar cs -> text_in SQLITE_UTF8 cs z <-> z = utf8 cs.
Proof.
  intros Hcs. assert (utf8 cs = (c ← cs; utf8_form c)) as ->.
  { unfold utf8. induction Hcs as [|c cs Hc _ IH]; [done|]. rewrite fmap_cons. cbn [concat mbind list_bind].
    by rewrite IH, WRITE_UTF8_form. }
  split; [by inversion 1|intros ->; constructor].
Qed.

Lemma text_in_utf16 enc cs z : enc = SQLITE_UTF16LE \/ enc = SQLITE_UTF16BE -> Forall scalar cs ->
  text_in enc cs z <-> z = utf16 enc cs.
Proof.
  intros Henc Hcs. assert (forall e, utf16 e cs = (u ← (c ← cs; utf16_units c);
    if decide (e = SQLITE_UTF16LE) then [u mod 256; u / 256] else [u / 256; u mod 256])) as Hform.
  { intros e. unfold utf16. induction Hcs as [|c cs Hc _ IH]; [done|]. rewrite fmap_cons. cbn [concat mbind list_bind].
    fold (mbind (M := list) utf16_units cs). rewrite IH, bind_app. f_equal.
    destruct (WRITE_UTF16_form c Hc) as [E1 E2]. by case_decide. }
  rewrite Hform. destruct Henc as [-> | ->]; (split; [by inversion 1|intros ->; constructor]).
Qed.

(** C32: Text is the same text in every encoding.  A text of Unicode scalar
    values, translated from any of the three encodings to another, becomes
    its encoding in the second, so that translating back gives the original
    bytes; except that reading UTF-8 turns each of the noncharacters U+FFFE
    and U+FFFF into U+FFFD. *)
Theorem translation_keeps_text cs enc desiredEnc z z' : Forall scalar cs -> enc <> desiredEnc ->
  text_in enc cs z -> text_in desiredEnc (if decide (enc = SQLITE_UTF8) then replaced <$> cs else cs) z' ->
  exists len term, sqlite3VdbeMemTranslate z enc desiredEnc = Some (len, z', term).
Proof.
  intros Hcs Hne Hz Hz'.
  assert (Henc : forall e l y, text_in e l y -> e = SQLITE_UTF8 \/ e = SQLITE_UTF16LE \/ e = SQLITE_UTF16BE)
    by (intros e l y []; tauto).
  pose proof (Henc _ _ _ Hz) as H1. pose proof (Henc _ _ _ Hz') as H2. clear Henc.
  unfold sqlite3VdbeMemTranslate. destruct (decide (enc = SQLITE_UTF8)) as [->|He].
  - assert (H2' : desiredEnc = SQLITE_UTF16LE \/ desiredEnc = SQLITE_UTF16BE) by (destruct H2 as [H2|H2]; [congruence|exact H2]).
    apply text_in_utf8 in Hz as ->; [|done]. apply text_in_utf16 in Hz' as ->; [|done|].
    2: { apply Forall_fmap. eapply list.Forall_impl; [exact Hcs|]. intros c [Hc Hs]. unfold scalar, char32, replaced in *. cbn.
         case_decide; lia. }
    rewrite decide_False by tauto. unfold utf8.
    rewrite (translate_chars _ _ _ replaced); [by eexists _, _| |done].
    intros c l cs' ->. apply Forall_app in Hcs as [_ Hcs]. apply Forall_cons in Hcs as [Hc Hcs].
    destruct (WRITE_UTF8_starts c) as (b & r & E & _); [apply Hc|]. split; [by rewrite E|].
    rewrite utf8_char_round_trip; [done|done|].
    apply (utf8_starts cs'). apply (list.Forall_impl _ _ _ Hcs). by intros ? [].
  - assert (H1' : enc = SQLITE_UTF16LE \/ enc = SQLITE_UTF16BE) by tauto.
    apply text_in_utf16 in Hz as ->; [|done|done]. destruct (decide (desiredEnc = SQLITE_UTF8)) as [->|Hd].
    + apply text_in_utf8 in Hz' as ->; [|done]. rewrite decide_False by tauto. rewrite even_part_utf16. unfold utf16.
      rewrite (translate_chars _ _ _ id); [by rewrite list_fmap_id; eexists _, _| |done].
      intros c l cs' ->. apply Forall_app in Hcs as [_ Hcs]. apply Forall_cons in Hcs as [Hc Hcs].
      split; [|by apply utf16_char_round_trip]. unfold WRITE_UTF16LE, WRITE_UTF16BE. by repeat case_decide.
    + assert (H2' : desiredEnc = SQLITE_UTF16LE \/ desiredEnc = SQLITE_UTF16BE) by tauto.
      apply text_in_utf16 in Hz' as ->; [|done|done].
      rewrite decide_True by done. destruct (swap_utf16 cs) as [Hs1 Hs2]. eexists _, _.
      destruct H1' as [-> | ->], H2' as [-> | ->]; try done; by rewrite ?Hs1, ?Hs2.
Qed.

(** Characters of one to four bytes and a noncharacter, from UTF-8; a pair of
    surrogates and a noncharacter, from UTF-16BE. *)
Lemma translation_keeps_text_witness :
  (exists len term, sqlite3VdbeMemTranslate [65; 0xC3; 0xA9; 0xE2; 0x82; 0xAC; 0xF0; 0x9F; 0x98; 0x80; 0xEF; 0xBF; 0xBE] SQLITE_UTF8 SQLITE_UTF16LE
    = Some (len, [65; 0; 0xE9; 0; 0xAC; 0x20; 0x3D; 0xD8; 0x00; 0xDE; 0xFD; 0xFF], term)) /\
  (exists len term, sqlite3VdbeMemTranslate [0xD8; 0x3D; 0xDE; 0x00; 0xFF; 0xFE] SQLITE_UTF16BE SQLITE_UTF8
    = Some (len, [0xF0; 0x9F; 0x98; 0x80; 0xEF; 0xBF; 0xBE], term)).
Proof.
  split.
  - apply (translation_keeps_text [65; 0xE9; 0x20AC; 0x1F600; 0xFFFE] SQLITE_UTF8 SQLITE_UTF16LE).
    + apply (bool_decide_unpack _); vm_compute; exact I.
    + discriminate.
    + exact (text_utf8 [65; 0xE9; 0x20AC; 0x1F600; 0xFFFE]).
    + exact (text_utf16le [65; 0xE9; 0x20AC; 0x1F600; 0xFFFD]).
  - apply (translation_keeps_text [0x1F600; 0xFFFE] SQLITE_UTF16BE SQLITE_UTF8).
    + apply (bool_decide_unpack _); vm_compute; exact I.
    + discriminate.
    + exact (text_utf16be [0x1F600; 0xFFFE]).
    + exact (text_utf8 [0x1F600; 0xFFFE]).
Defined.
