(* ===== verification/SqlLike.v ===== *)
(** * LIKE and GLOB

    [sqlite/sqlite3.c] (func.c): the matcher of the LIKE and GLOB operators.  It
    works on UTF-8 text, searches for the character after a star before it tries to
    match there, and gives up altogether when a later star cannot match
    ([SQLITE_NOWILDCARDMATCH]).

    The specification is the relation [like] between the characters of a pattern
    and those of a string. *)

From S2P Require Import Prelude Bits SqlText SqlInt SqlUtf.

Record compareInfo := { matchAll : Z; matchOne : Z; matchSet : Z; noCase : bool }.

Definition globInfo : compareInfo := {| matchAll := 42; matchOne := 63; matchSet := 91; noCase := false |}.
Definition likeInfoNorm : compareInfo := {| matchAll := 37; matchOne := 95; matchSet := 0; noCase := true |}.
Definition likeInfoAlt : compareInfo := {| matchAll := 37; matchOne := 95; matchSet := 0; noCase := false |}.

Inductive match_result := SQLITE_MATCH | SQLITE_NOMATCH | SQLITE_NOWILDCARDMATCH.

#[export] Instance match_result_eq_dec : EqDecision match_result.
Proof. solve_decision. Defined.

Section Compare.
Context (pInfo : compareInfo) (matchOther : Z).

(** The loop over the stars and question marks after a star: [None] inside when
    the string is too short, or the first other character, the pattern
    before and after it, and the string. *)
Fixpoint skip_stars (fuel : nat) (zPattern zString : bytes) : option (option (Z * bytes * bytes * bytes)) :=
  match fuel with
  | O => None
  | S fuel =>
      let '(c, zPattern') := Utf8Read zPattern in
      if decide (c = matchAll pInfo \/ (c = matchOne pInfo /\ matchOne pInfo <> 0)) then
        if decide (c = matchOne pInfo) then
          let '(x, zString) := sqlite3Utf8Read zString in
          if decide (x = 0) then Some None else skip_stars fuel zPattern' zString
        else skip_stars fuel zPattern' zString
      else Some (Some (c, zPattern, zPattern', zString))
  end.

(** The loop [while( c2 && c2!=']' )] of a set. *)
Fixpoint set_loop (fuel : nat) (c c2 prior_c : Z) (seen : bool) (zPattern : bytes) : option (Z * bool * bytes) :=
  match fuel with
  | O => None
  | S fuel =>
      if decide (c2 <> 0 /\ c2 <> 93) then
        if decide (c2 = 45 /\ peek zPattern <> 93 /\ peek zPattern <> 0 /\ 0 < prior_c) then
          let '(c2, zPattern) := sqlite3Utf8Read zPattern in
          let seen := if decide (prior_c <= c <= c2) then true else seen in
          let '(c2, zPattern) := sqlite3Utf8Read zPattern in
          set_loop fuel c c2 0 seen zPattern
        else
          let seen := if decide (c = c2) then true else seen in
          let prior_c := c2 in
          let '(c2, zPattern) := sqlite3Utf8Read zPattern in
          set_loop fuel c c2 prior_c seen zPattern
      else Some (c2, seen, zPattern)
  end.

(** A set, after its bracket, against the character [c]: the pattern after the
    set, if [c] is matched. *)
Definition match_set (c : Z) (zPattern : bytes) : option (option bytes) :=
  let '(c2, zPattern) := sqlite3Utf8Read zPattern in
  let '(invert, c2, zPattern) :=
    if decide (c2 = 94) then let '(c2, zPattern) := sqlite3Utf8Read zPattern in (true, c2, zPattern)
    else (false, c2, zPattern) in
  let '(seen, c2, zPattern) :=
    if decide (c2 = 93) then let '(c2, zPattern) := sqlite3Utf8Read zPattern in (bool_decide (c = 93), c2, zPattern)
    else (false, c2, zPattern) in
  '(c2, seen, zPattern) ← set_loop (S (S (length zPattern))) c c2 0 seen zPattern;
  Some (if decide (c2 = 0 \/ xorb seen invert = false) then None else Some zPattern).

(** The searches for a place where the rest of the pattern, [rec], matches:
    after a byte of [zStop], after the character [c], or at a character. *)
Section Search.
Context (rec : bytes -> option match_result).

Fixpoint search_stop (zStop : list Z) (zString : bytes) : option match_result :=
  match zString with
  | [] => Some SQLITE_NOWILDCARDMATCH
  | b :: zString =>
      if decide (b ∈ zStop) then
        bMatch ← rec zString;
        if decide (bMatch <> SQLITE_NOMATCH) then Some bMatch else search_stop zStop zString
      else search_stop zStop zString
  end.

Fixpoint search_char (fuel : nat) (c : Z) (zString : bytes) : option match_result :=
  match fuel with
  | O => None
  | S fuel =>
      let '(c2, zString) := Utf8Read zString in
      if decide (c2 = 0) then Some SQLITE_NOWILDCARDMATCH
      else if decide (c2 <> c) then search_char fuel c zString
      else
        bMatch ← rec zString;
        if decide (bMatch <> SQLITE_NOMATCH) then Some bMatch else search_char fuel c zString
  end.

Fixpoint search_set (fuel : nat) (zString : bytes) : option match_result :=
  match zString with
  | [] => Some SQLITE_NOWILDCARDMATCH
  | _ =>
      match fuel with
      | O => None
      | S fuel =>
          bMatch ← rec zString;
          if decide (bMatch <> SQLITE_NOMATCH) then Some bMatch else search_set fuel (SKIP_UTF8 zString)
      end
  end.
End Search.

Definition search (rec : bytes -> option match_result) (c : Z) (zString : bytes) : option match_result :=
  if decide (c < 0x80) then
    search_stop rec (if noCase pInfo then [sqlite3Toupper c; sqlite3Tolower c] else [c]) zString
  else search_char rec (S (length zString)) c zString.

(** Does the character [c2] of the string match [c], [escaped] or not? *)
Definition char_matches (escaped : bool) (c c2 : Z) : bool :=
  if decide (c = c2) then true
  else if noCase pInfo && bool_decide (sqlite3Tolower c = sqlite3Tolower c2 /\ c < 0x80 /\ c2 < 0x80) then true
  else bool_decide (c = matchOne pInfo /\ escaped = false /\ c2 <> 0).

(** The pattern [&zPattern[-1]] starts at the bracket, which the assert says is one
    byte; a broken assert is [None].  [zEscaped] equals [zPattern] exactly in the turn of the loop that reads an
    escape. *)
Fixpoint patternCompare (fuel : nat) (zPattern zString : bytes) : option match_result :=
  match fuel with
  | O => None
  | S fuel =>
      let compare_char escaped c zPattern :=
        let '(c2, zString) := Utf8Read zString in
        if char_matches escaped c c2 then patternCompare fuel zPattern zString else Some SQLITE_NOMATCH in
      let '(c, zPattern) := Utf8Read zPattern in
      if decide (c = 0) then Some (if decide (zString = []) then SQLITE_MATCH else SQLITE_NOMATCH)
      else if decide (c = matchAll pInfo) then
        r ← skip_stars fuel zPattern zString;
        match r with
        | None => Some SQLITE_NOWILDCARDMATCH
        | Some (c, zBefore, zPattern, zString) =>
            if decide (c = 0) then Some SQLITE_MATCH
            else if decide (c = matchOther) then
              if decide (matchSet pInfo = 0) then
                let '(c, zPattern) := sqlite3Utf8Read zPattern in
                if decide (c = 0) then Some SQLITE_NOWILDCARDMATCH
                else search (patternCompare fuel zPattern) c zString
              else if decide (matchOther < 0x80) then
                search_set (patternCompare fuel zBefore) (length zString) zString
              else None
            else search (patternCompare fuel zPattern) c zString
        end
      else if decide (c = matchOther) then
        if decide (matchSet pInfo = 0) then
          let '(c, zPattern) := sqlite3Utf8Read zPattern in
          if decide (c = 0) then Some SQLITE_NOMATCH else compare_char true c zPattern
        else
          let '(c, zString) := sqlite3Utf8Read zString in
          if decide (c = 0) then Some SQLITE_NOMATCH
          else
            r ← match_set c zPattern;
            match r with
            | None => Some SQLITE_NOMATCH
            | Some zPattern => patternCompare fuel zPattern zString
            end
      else compare_char false c zPattern
  end.
End Compare.

(** Enough turns: each one reads a character of the pattern. *)
Definition pattern_compare (pInfo : compareInfo) (matchOther : Z) (zPattern zString : bytes) : option match_result :=
  patternCompare pInfo matchOther (S (length zPattern)) zPattern zString.

(** 0 for a match, and not 0 otherwise; the pointers may be null. *)
Definition match_code (r : match_result) : Z :=
  match r with SQLITE_MATCH => 0 | SQLITE_NOMATCH => 1 | SQLITE_NOWILDCARDMATCH => 2 end.

Definition sqlite3_strglob (zGlobPattern zString : option bytes) : option Z :=
  match zString, zGlobPattern with
  | None, p => Some (if p then 1 else 0)
  | Some _, None => Some 1
  | Some s, Some p => r ← pattern_compare globInfo 91 p s; Some (match_code r)
  end.

Definition sqlite3_strlike (zPattern zStr : option bytes) (esc : Z) : option Z :=
  match zStr, zPattern with
  | None, p => Some (if p then 1 else 0)
  | Some _, None => Some 1
  | Some s, Some p => r ← pattern_compare likeInfoNorm esc p s; Some (match_code r)
  end.

(** [likeFunc] on text values: an error, or the truth value.  [limit] is the limit on
    the length of patterns, [zEsc] the third argument if there is one. *)
Definition likeFunc (pInfo : compareInfo) (limit : Z) (zB zA : bytes) (zEsc : option bytes) : option (string + bool) :=
  if decide (limit < Z.of_nat (length zB)) then Some (inl "LIKE or GLOB pattern too complex")
  else
    match zEsc with
    | None => r ← pattern_compare pInfo (matchSet pInfo) zB zA; Some (inr (bool_decide (r = SQLITE_MATCH)))
    | Some zEsc =>
        n ← sqlite3Utf8CharLen zEsc (-1);
        if decide (n <> 1) then Some (inl "ESCAPE expression must be a single character")
        else
          let '(escape, _) := sqlite3Utf8Read zEsc in
          let pInfo := {| matchAll := if decide (escape = matchAll pInfo) then 0 else matchAll pInfo;
                          matchOne := if decide (escape = matchOne pInfo) then 0 else matchOne pInfo;
                          matchSet := matchSet pInfo; noCase := noCase pInfo |} in
          r ← pattern_compare pInfo escape zB zA; Some (inr (bool_decide (r = SQLITE_MATCH)))
    end.

(** ** Characters of a string *)

Fixpoint chars_from (fuel : nat) (z : bytes) : list Z :=
  match z, fuel with
  | [], _ | _, O => []
  | _, S fuel => let '(c, z') := sqlite3Utf8Read z in c :: chars_from fuel z'
  end.

(** The characters [sqlite3Utf8Read] finds, whether or not the bytes are well formed. *)
Definition utf8_chars (z : bytes) : list Z := chars_from (length z) z.

Lemma continue_rest z : forall c c', (continue_utf8 c z).2 = (continue_utf8 c' z).2.
Proof. induction z as [|b z IH]; intros c c'; cbn [continue_utf8]; [done|]. case_decide; [apply IH|done]. Qed.

Lemma continue_split z : forall c, exists l, z = l ++ (continue_utf8 c z).2 /\ Forall (fun b => Z.land b 0xc0 = 0x80) l.
Proof.
  induction z as [|b z IH]; intros c; cbn [continue_utf8]; [by exists []|].
  case_decide as E; [|by exists []]. destruct (IH (u32 (shl32 c 6 + Z.land 0x3f b))) as (l & E1 & Hl).
  exists (b :: l). split; [cbn [app]; by f_equal|by constructor].
Qed.

Lemma continuation_high b : 0 < b < 256 -> Z.land b 0xc0 = 0x80 -> 0x80 <= b.
Proof. intros Hb. rewrite land_0xC0. intros E. Z.to_euclidean_division_equations; lia. Qed.

(** One character: the bytes it takes, which are at least 128 unless it is ASCII. *)
Lemma read_char b z : str_ok (b :: z) -> exists c l z',
  sqlite3Utf8Read (b :: z) = (c, z') /\ Utf8Read (b :: z) = (c, z') /\ SKIP_UTF8 (b :: z) = z' /\
  b :: z = l ++ z' /\ (length z' <= length z)%nat /\ str_ok z' /\
  (c < 0x80 -> l = [c]) /\ (0x80 <= c -> Forall (fun b => 0x80 <= b) l) /\ 0 < c.
Proof.
  unfold str_ok. intros Hok. pose proof Hok as [Hb Hz]%Forall_cons. unfold char_ok in Hb.
  unfold Utf8Read. cbn [sqlite3Utf8Read SKIP_UTF8].
  destruct (decide (0xc0 <= b)) as [Hc|Hc].
  - destruct (continue_split z (Trans1 b)) as (l & E & Hl).
    rewrite (continue_rest z 0 (Trans1 b)).
    destruct (continue_utf8 (Trans1 b) z) as [c z'] eqn:Ec. cbn [snd] in *.
    exists (if invalid_utf8 c then 0xFFFD else c), (b :: l), z'.
    assert (Hc' : 0x80 <= (if invalid_utf8 c then 0xFFFD else c)).
    { destruct (invalid_utf8 c) eqn:Ei; [lia|]. unfold invalid_utf8 in Ei.
      apply bool_decide_eq_false in Ei. lia. }
    rewrite decide_False by lia. subst z.
    apply Forall_app in Hz as [Hl' Hz'].
    split; [done|]. split; [done|]. split; [done|]. split; [done|].
    split; [rewrite length_app; lia|]. split; [done|]. split; [lia|]. split; [|lia].
    intros _. constructor; [lia|]. rewrite Forall_forall in Hl, Hl'. apply Forall_forall. intros x Hx.
    apply continuation_high; [apply Hl'|apply Hl]; done.
  - exists b, [b], z. split; [done|]. split; [by case_decide|]. split; [done|]. split; [done|]. split; [lia|].
    split; [done|]. split; [done|]. split; [|lia]. intros ?. by constructor.
Qed.

Lemma chars_from_enough n : forall f z, str_ok z -> (length z <= n)%nat -> (length z <= f)%nat ->
  chars_from f z = chars_from n z.
Proof.
  induction n as [|n IH]; intros f [|b z] Hz Hn Hf; cbn [length] in *; try (destruct f; done || lia).
  destruct f as [|f]; [lia|]. destruct (read_char b z Hz) as (c & l & z' & E & _ & _ & _ & Hl & Hz' & _).
  unfold chars_from; fold chars_from. rewrite E. f_equal. apply IH; [done|lia|lia].
Qed.

Lemma utf8_chars_read z : str_ok z -> z <> [] -> forall c z', sqlite3Utf8Read z = (c, z') ->
  utf8_chars z = c :: utf8_chars z'.
Proof.
  destruct z as [|b z]; [done|]. intros Hz _ c z' E.
  destruct (read_char b z Hz) as (c1 & l & z1 & E1 & _ & _ & _ & Hl & Hz' & _). rewrite E in E1. injection E1 as <- <-.
  unfold utf8_chars at 1. cbn [length]. unfold chars_from; fold chars_from. rewrite E. f_equal.
  apply chars_from_enough; [done|lia|lia].
Qed.

(** The characters with one read ahead; 0 is the end. *)
Definition ahead (c : Z) (z : bytes) : list Z := if decide (c = 0) then [] else c :: utf8_chars z.

Lemma ahead_cons c z : c <> 0 -> ahead c z = c :: utf8_chars z.
Proof. intros. unfold ahead. by rewrite decide_False. Qed.

(** What a read gives: the characters, and their end. *)
Lemma read_ahead z : str_ok z -> exists c z',
  sqlite3Utf8Read z = (c, z') /\ Utf8Read z = (c, z') /\ utf8_chars z = ahead c z' /\ str_ok z' /\ 0 <= c /\
  (length z' <= length z)%nat /\ (c <> 0 -> (length z' < length z)%nat).
Proof.
  intros Hz. destruct z as [|b z].
  - exists 0, []. by repeat split.
  - destruct (read_char b z Hz) as (c & l & z' & E & E' & _ & _ & Hl & Hz' & _ & _ & Hc).
    exists c, z'. split; [done|]. split; [done|]. cbn [length].
    split; [|split; [done|lia]]. unfold ahead. rewrite decide_False by lia. by apply utf8_chars_read.
Qed.

Lemma utf8_chars_nil z : str_ok z -> utf8_chars z = [] <-> z = [].
Proof.
  intros Hz. split; [|by intros ->]. destruct z as [|b z]; [done|].
  destruct (read_char b z Hz) as (c & l & z' & E & _). by rewrite (utf8_chars_read _ Hz ltac:(done) _ _ E).
Qed.

Lemma peek_ahead z : str_ok z -> forall x, 0 <= x < 0x80 -> peek z = x <-> (sqlite3Utf8Read z).1 = x.
Proof.
  intros Hz x Hx. destruct z as [|b z]; [done|].
  destruct (read_char b z Hz) as (c & l & z' & E & _ & _ & El & _ & _ & Hs & Hl & Hc). rewrite E. cbn [fst peek].
  destruct (decide (c < 0x80)) as [H|H].
  - rewrite (Hs H) in El. by injection El as -> _.
  - specialize (Hl ltac:(lia)). destruct l as [|b' l].
    + cbn [app] in El. apply (f_equal length) in El. cbn [length] in El. exfalso.
      destruct (read_char b z Hz) as (c2 & l2 & z2 & E2 & _ & _ & _ & Hlen & _). rewrite E in E2. injection E2 as <- <-. lia.
    + injection El as <- _. apply Forall_cons in Hl as [Hl _]. lia.
Qed.

(** The length of a C string in characters. *)
Lemma char_len_all fuel : forall z n, str_ok z -> (length z <= fuel)%nat -> Z.of_nat (length z) <= n ->
  char_len_loop fuel z n = Some (Z.of_nat (length (utf8_chars z))).
Proof.
  induction fuel as [|fuel IH]; intros [|b z] n Hz Hf Hn; cbn [length] in *; try done; try lia.
  destruct (read_char b z Hz) as (c & l & z' & E & _ & Es & _ & Hl & Hz' & _).
  rewrite (utf8_chars_read _ Hz ltac:(done) _ _ E). cbn [char_len_loop]. rewrite decide_True by lia.
  rewrite Es. cbn [length]. rewrite IH; [|done|lia|lia]. cbn [mbind option_bind]. f_equal. lia.
Qed.

Lemma CharLen_chars z : str_ok z -> Z.of_nat (length z) <= 2 ^ 64 ->
  sqlite3Utf8CharLen z (-1) = Some (Z.of_nat (length (utf8_chars z))).
Proof. intros. unfold sqlite3Utf8CharLen. rewrite decide_False by lia. by apply char_len_all. Qed.

(** ** Sets *)

(** The ranges of a set after its opening and the pattern after it, if it is closed.  [prior] is a
    character a range can start at: not one that ended a range. *)
Fixpoint parse_items (prior : option Z) (p : list Z) : option (list (Z * Z) * list Z) :=
  match p with
  | [] => None
  | c :: p1 =>
      if decide (c = 93) then Some ([], p1)
      else
        match prior, p1 with
        | Some lo, hi :: p2 =>
            if decide (c = 45 /\ hi <> 93) then '(l, rest) ← parse_items None p2; Some ((lo, hi) :: l, rest)
            else '(l, rest) ← parse_items (Some c) p1; Some ((c, c) :: l, rest)
        | _, _ => '(l, rest) ← parse_items (Some c) p1; Some ((c, c) :: l, rest)
        end
  end.

(** A caret inverts the set; a bracket in the first place belongs to it. *)
Definition parse_set (p : list Z) : option (bool * list (Z * Z) * list Z) :=
  let '(invert, p) := match p with c :: p1 => if decide (c = 94) then (true, p1) else (false, p) | [] => (false, p) end in
  let '(first, p) := match p with c :: p1 => if decide (c = 93) then ([(c, c)], p1) else ([], p) | [] => ([], p) end in
  '(l, rest) ← parse_items None p;
  Some (invert, first ++ l, rest).

Definition in_items (x : Z) (l : list (Z * Z)) : bool := existsb (fun '(lo, hi) => bool_decide (lo <= x <= hi)) l.

Definition prior_of (prior_c : Z) : option Z := if decide (prior_c = 0) then None else Some prior_c.

(** The turns of the loop: one for each character left, and one for the end. *)
Definition left_to_read (c : Z) (z : bytes) : nat := if decide (c = 0) then 0 else S (length z).

Lemma left_to_read_ahead c z f : (length z < f)%nat -> (c <> 0 -> (S (length z) < f)%nat) -> (left_to_read c z < f)%nat.
Proof. unfold left_to_read. case_decide; lia. Qed.

(** What the loop gives for the items [p] still to come: the last character read, the flag and the
    pattern, against [seen] and [z] before. *)
Definition set_result (c : Z) (seen : bool) (z : bytes) (p : option (list (Z * Z) * list Z))
    (o : option (Z * bool * bytes)) : Prop :=
  exists c2' seen' z', o = Some (c2', seen', z') /\ str_ok z' /\ (length z' <= length z)%nat /\
  match p with
  | None => c2' = 0
  | Some (l, rest) => c2' = 93 /\ seen' = seen || in_items c l /\ rest = utf8_chars z'
  end.

Lemma set_result_item c seen seen4 z z4 it p o :
  set_result c seen4 z4 p o -> seen4 = seen || in_items c [it] -> (length z4 <= length z)%nat ->
  set_result c seen z ('(l, rest) ← p; Some (it :: l, rest)) o.
Proof.
  intros (c2' & seen' & z' & E & Hz' & Hl' & Hm) Es Hl4. exists c2', seen', z'.
  split; [done|]. split; [done|]. split; [lia|]. destruct p as [[l rest]|]; cbn [mbind option_bind]; [|done].
  destruct Hm as (-> & -> & ->). split; [done|]. split; [|done]. rewrite Es. unfold in_items. cbn [existsb].
  rewrite orb_false_r. by rewrite orb_assoc.
Qed.

Lemma seen_item c lo hi seen : (if decide (lo <= c <= hi) then true else seen) = seen || in_items c [(lo, hi)].
Proof.
  unfold in_items. cbn [existsb]. rewrite orb_false_r. case_decide.
  - rewrite bool_decide_eq_true_2 by lia. by rewrite orb_true_r.
  - rewrite bool_decide_eq_false_2 by lia. by rewrite orb_false_r.
Qed.

Lemma seen_single c c2 seen : (if decide (c = c2) then true else seen) = seen || in_items c [(c2, c2)].
Proof. rewrite <- seen_item. repeat case_decide; done || lia. Qed.

Lemma set_loop_ok fuel : forall c c2 prior_c seen z,
  str_ok z -> (left_to_read c2 z < fuel)%nat -> 0 <= c2 -> 0 <= prior_c ->
  set_result c seen z (parse_items (prior_of prior_c) (ahead c2 z)) (set_loop fuel c c2 prior_c seen z).
Proof.
  induction fuel as [|fuel IH]; intros c c2 prior_c seen z Hz Hf Hc2 Hp; [lia|]. cbn [set_loop].
  destruct (decide (c2 <> 0 /\ c2 <> 93)) as [[H0 H93]|H0].
  2: { exists c2, seen, z. split; [done|]. split; [done|]. split; [done|]. unfold ahead.
       destruct (decide (c2 = 0)) as [->|]; [done|]. assert (c2 = 93) as -> by lia. cbn. by destruct seen. }
  unfold left_to_read in Hf. rewrite decide_False in Hf by done.
  assert (Hstop : (peek z <> 93 /\ peek z <> 0) <-> ((sqlite3Utf8Read z).1 <> 93 /\ (sqlite3Utf8Read z).1 <> 0)).
  { pose proof (peek_ahead z Hz 93 ltac:(lia)). pose proof (peek_ahead z Hz 0 ltac:(lia)). tauto. }
  destruct (read_ahead z Hz) as (c3 & z3 & E3 & _ & Hch & Hz3 & Hc3 & Hl3 & Hl3').
  rewrite E3 in Hstop. cbn [fst] in Hstop. rewrite ahead_cons, Hch by done. cbn [parse_items].
  rewrite (decide_False (P := c2 = 93)) by done.
  destruct (decide (c2 = 45 /\ peek z <> 93 /\ peek z <> 0 /\ 0 < prior_c)) as [(E45 & Hp1 & Hp2 & Hpr)|Hno].
  - destruct (proj1 Hstop (conj Hp1 Hp2)) as [Hn93 Hn0]. specialize (Hl3' Hn0). rewrite E3.
    unfold prior_of at 1. rewrite (decide_False (P := prior_c = 0)) by lia.
    rewrite ahead_cons, (decide_True (P := c2 = 45 /\ c3 <> 93)) by done.
    destruct (read_ahead z3 Hz3) as (c4 & z4 & E4 & _ & Hch4 & Hz4 & Hc4 & Hl4 & Hl4'). rewrite E4, Hch4.
    apply (set_result_item _ _ _ _ z4) with (2 := seen_item _ _ _ _); [|lia].
    apply (IH c c4 0); [done| |done|lia]. apply left_to_read_ahead; lia.
  - rewrite E3. assert (left_to_read c3 z3 < fuel)%nat as Hleft by (apply left_to_read_ahead; lia).
    pose proof (IH c c3 c2 (if decide (c = c2) then true else seen) z3 Hz3 Hleft Hc3 Hc2) as Hr.
    apply (set_result_item _ seen _ z _ (c2, c2) _ _) in Hr; [|apply seen_single|lia].
    unfold prior_of in Hr at 1. rewrite (decide_False (P := c2 = 0)) in Hr by done. revert Hr.
    destruct (prior_of prior_c) as [lo|] eqn:Ep; [|done].
    destruct (ahead c3 z3) as [|hi p2] eqn:Ea; [done|]. rewrite (decide_False (P := c2 = 45 /\ hi <> 93)); [done|].
    intros [-> Hhi]. apply Hno. unfold ahead in Ea. destruct (decide (c3 = 0)); [done|]. injection Ea as -> _.
    assert (peek z <> 93 /\ peek z <> 0) as [??] by (by apply Hstop). unfold prior_of in Ep.
    destruct (decide (prior_c = 0)); [done|]. split; [done|]. split; [done|]. split; [done|lia].
Qed.

Definition in_set (x : Z) (s : bool * list (Z * Z)) : bool := xorb s.1 (in_items x s.2).

(** [match_set] is [parse_set]. *)
Lemma match_set_ok c z : str_ok z -> exists o, match_set c z = Some o /\
  match parse_set (utf8_chars z) with
  | None => o = None
  | Some (invert, l, rest) =>
      if in_set c (invert, l) then exists z', o = Some z' /\ str_ok z' /\ (length z' <= length z)%nat /\ utf8_chars z' = rest
      else o = None
  end.
Proof.
  intros Hz. unfold match_set, parse_set.
  destruct (read_ahead z Hz) as (c1 & z1 & E1 & _ & Hch1 & Hz1 & Hc1 & Hl1 & _). rewrite E1, Hch1.
  assert (exists invert c2 z2,
    (if decide (c1 = 94) then let '(c2, zPattern) := sqlite3Utf8Read z1 in (true, c2, zPattern) else (false, c1, z1)) = (invert, c2, z2)
    /\ match ahead c1 z1 with c :: p1 => if decide (c = 94) then (true, p1) else (false, ahead c1 z1) | [] => (false, ahead c1 z1) end = (invert, ahead c2 z2)
    /\ str_ok z2 /\ 0 <= c2 /\ (length z2 <= length z)%nat) as (invert & c2 & z2 & -> & E2 & Hz2 & Hc2 & Hl2).
  { destruct (decide (c1 = 94)) as [->|Hn].
    - destruct (read_ahead z1 Hz1) as (c2 & z2 & Er & _ & Hch & Hz2 & Hc2 & Hl2 & _). rewrite Er.
      exists true, c2, z2. rewrite ahead_cons, (decide_True (P := 94 = 94)), Hch by done. repeat split; (done || lia).
    - exists false, c1, z1. split; [done|]. split; [|done]. unfold ahead. destruct (decide (c1 = 0)); [done|]. by rewrite decide_False. }
  rewrite E2.
  assert (exists first seen c3 z3,
    (if decide (c2 = 93) then let '(c3, zPattern) := sqlite3Utf8Read z2 in (bool_decide (c = 93), c3, zPattern) else (false, c2, z2)) = (seen, c3, z3)
    /\ match ahead c2 z2 with c :: p1 => if decide (c = 93) then ([(c, c)], p1) else ([], ahead c2 z2) | [] => ([], ahead c2 z2) end = (first, ahead c3 z3)
    /\ seen = in_items c first
    /\ str_ok z3 /\ 0 <= c3 /\ (length z3 <= length z)%nat) as (first & seen & c3 & z3 & -> & E3 & Hseen & Hz3 & Hc3 & Hl3).
  { destruct (decide (c2 = 93)) as [->|Hn].
    - destruct (read_ahead z2 Hz2) as (c3 & z3 & Er & _ & Hch & Hz3 & Hc3 & Hl3 & _). rewrite Er.
      exists [(93, 93)], (bool_decide (c = 93)), c3, z3. rewrite ahead_cons, (decide_True (P := 93 = 93)), Hch by done.
      split; [done|]. split; [done|]. split; [unfold in_items; cbn [existsb]; rewrite orb_false_r; apply bool_decide_ext; lia|]. repeat split; (done || lia).
    - exists [], false, c2, z2. split; [done|]. split; [|done]. unfold ahead. destruct (decide (c2 = 0)); [done|]. by rewrite decide_False. }
  rewrite E3.
  destruct (set_loop_ok (S (S (length z3))) c c3 0 seen z3 Hz3) as (c4 & seen4 & z4 & -> & Hz4 & Hl4 & Hm);
    [apply left_to_read_ahead; lia|done|lia|].
  cbn [mbind option_bind]. eexists. split; [done|]. change (prior_of 0) with (@None Z) in Hm.
  destruct (parse_items None (ahead c3 z3)) as [[l rest]|]; cbn [mbind option_bind]; [|by rewrite Hm].
  destruct Hm as (-> & -> & ->).
  assert (xorb (seen || in_items c l) invert = in_set c (invert, first ++ l)) as ->.
  { unfold in_set. cbn [fst snd]. unfold in_items at 2. rewrite existsb_app. fold (in_items c first) (in_items c l).
    rewrite Hseen. apply xorb_comm. }
  destruct (in_set c (invert, first ++ l)).
  - exists z4. rewrite decide_False by naive_solver. repeat split; (done || lia).
  - by rewrite decide_True by auto.
Qed.

(** ** The specification *)

Section Spec.
Context (pInfo : compareInfo) (matchOther : Z).

Definition same_char (c x : Z) : Prop :=
  c = x \/ (noCase pInfo = true /\ c < 0x80 /\ x < 0x80 /\ sqlite3Tolower c = sqlite3Tolower x).

(** The characters of a pattern against those of a string. *)
Inductive like : list Z -> list Z -> Prop :=
  | like_end : like [] []
  | like_all p s1 s2 : like p s2 -> like (matchAll pInfo :: p) (s1 ++ s2)
  | like_one p x s : like p s -> like (matchOne pInfo :: p) (x :: s)
  | like_escaped c p x s : matchSet pInfo = 0 -> same_char c x -> like p s -> like (matchOther :: c :: p) (x :: s)
  | like_set p invert l rest x s :
      matchSet pInfo <> 0 -> parse_set p = Some (invert, l, rest) -> in_set x (invert, l) = true ->
      like rest s -> like (matchOther :: p) (x :: s)
  | like_char c p x s :
      c <> matchAll pInfo -> c <> matchOne pInfo -> c <> matchOther -> same_char c x -> like p s -> like (c :: p) (x :: s).

(** No character has two roles; 0 stands for a role no character has. *)
Definition roles_distinct : Prop :=
  (matchAll pInfo <> 0 -> matchAll pInfo <> matchOne pInfo /\ matchAll pInfo <> matchOther) /\
  (matchOne pInfo <> 0 -> matchOne pInfo <> matchOther).

Hypothesis Hroles : roles_distinct.

(** A pattern that matches at some place of the string up to its end. *)
Definition anywhere (p s : list Z) : Prop := exists s', s' `suffix_of` s /\ like p s'.

(** A pattern that takes one character, with [Q], and goes on as [p']. *)
Definition takes_one (p : list Z) (Q : Z -> Prop) (p' : list Z) : Prop :=
  forall s, like p s <-> exists x s', s = x :: s' /\ Q x /\ like p' s'.

Lemma like_all_iff p s : matchAll pInfo <> 0 -> like (matchAll pInfo :: p) s <-> anywhere p s.
Proof.
  intros HA. destruct Hroles as [H1 H2]. specialize (H1 HA). split.
  - inversion 1; subst; try (exfalso; lia). exists s2. split; [by exists s1|done].
  - intros (s2 & [s1 ->] & Hl). by constructor.
Qed.

Lemma one_takes p : matchOne pInfo <> 0 -> takes_one (matchOne pInfo :: p) (fun _ => True) p.
Proof.
  intros HO s. destruct Hroles as [H1 H2]. specialize (H2 HO). split.
  - inversion 1; subst; try (exfalso; lia). by eexists _, _.
  - intros (x & s' & -> & _ & Hl). by constructor.
Qed.

Lemma escaped_takes c p : matchOther <> 0 -> matchSet pInfo = 0 -> takes_one (matchOther :: c :: p) (same_char c) p.
Proof.
  intros HX HS s. destruct Hroles as [H1 H2]. split.
  - inversion 1; subst; try (exfalso; lia). by eexists _, _.
  - intros (x & s' & -> & Hs & Hl). by constructor.
Qed.

Lemma escape_at_end s : matchOther <> 0 -> matchSet pInfo = 0 -> ~ like [matchOther] s.
Proof. intros HX HS H. destruct Hroles as [H1 H2]. inversion H; subst; lia. Qed.

Lemma set_takes p invert l rest : matchOther <> 0 -> matchSet pInfo <> 0 -> parse_set p = Some (invert, l, rest) ->
  takes_one (matchOther :: p) (fun x => in_set x (invert, l) = true) rest.
Proof.
  intros HX HS Hp s. destruct Hroles as [H1 H2]. split.
  - inversion 1; subst; try (exfalso; lia). rewrite Hp in *. simplify_eq. by eexists _, _.
  - intros (x & s' & -> & Hs & Hl). by eapply like_set.
Qed.

Lemma set_open p s : matchOther <> 0 -> matchSet pInfo <> 0 -> parse_set p = None -> ~ like (matchOther :: p) s.
Proof. intros HX HS Hp H. destruct Hroles as [H1 H2]. inversion H; subst; try lia. by rewrite Hp in *. Qed.

Lemma char_takes c p : c <> matchAll pInfo -> c <> matchOne pInfo -> c <> matchOther -> takes_one (c :: p) (same_char c) p.
Proof.
  intros HA HO HX s. split.
  - inversion 1; subst; try done. by eexists _, _.
  - intros (x & s' & -> & Hs & Hl). by constructor.
Qed.

(** ** What the results say *)

Definition sound (r : match_result) (p s : list Z) : Prop :=
  match r with
  | SQLITE_MATCH => like p s
  | SQLITE_NOMATCH => ~ like p s
  | SQLITE_NOWILDCARDMATCH => ~ anywhere p s
  end.

Definition searched (r : match_result) (p s : list Z) : Prop :=
  match r with
  | SQLITE_MATCH => anywhere p s
  | SQLITE_NOMATCH => False
  | SQLITE_NOWILDCARDMATCH => ~ anywhere p s
  end.

Lemma anywhere_cons p x s : anywhere p (x :: s) <-> like p (x :: s) \/ anywhere p s.
Proof.
  split.
  - intros (s' & [l E] & Hl). destruct l as [|y l]; cbn [app] in E.
    + left. by subst.
    + injection E as -> ->. right. exists s'. split; [by exists l|done].
  - intros [H|(s' & Hs & H)]; [by exists (x :: s)|]. exists s'. split; [by apply suffix_cons_r|done].
Qed.

Lemma anywhere_nil p : anywhere p [] <-> like p [].
Proof. split; [intros (s' & Hs & H); by apply suffix_nil_inv in Hs as ->|by exists []]. Qed.

Lemma anywhere_like p s : like p s -> anywhere p s.
Proof. by exists s. Qed.

Lemma takes_one_nil p Q p' : takes_one p Q p' -> ~ like p [].
Proof. intros H (x & s & ? & _)%H. done. Qed.

Lemma takes_one_cons p Q p' x s : takes_one p Q p' -> like p (x :: s) <-> Q x /\ like p' s.
Proof. intros H. rewrite (H (x :: s)). split; [intros (? & ? & [= -> ->] & ?); done|intros []; by exists x, s]. Qed.

Lemma takes_one_anywhere p Q p' x s : takes_one p Q p' -> anywhere p (x :: s) -> anywhere p' s.
Proof.
  intros H. revert x. induction s as [|y s IH]; intros x [Hl|Ha]%anywhere_cons.
  - apply (takes_one_cons _ _ _ _ _ H) in Hl as [_ Hl]. by apply anywhere_like.
  - apply anywhere_nil in Ha. by destruct (takes_one_nil _ _ _ H).
  - apply (takes_one_cons _ _ _ _ _ H) in Hl as [_ Hl]. by apply anywhere_like.
  - apply anywhere_cons. right. by apply (IH y).
Qed.

Lemma sound_nil p Q p' : takes_one p Q p' -> sound SQLITE_NOMATCH p [].
Proof. apply takes_one_nil. Qed.

Lemma sound_no p Q p' x s : takes_one p Q p' -> ~ Q x -> sound SQLITE_NOMATCH p (x :: s).
Proof. intros H Hx [? _]%(takes_one_cons _ _ _ _ _ H). done. Qed.

Lemma sound_yes p Q p' x s r : takes_one p Q p' -> Q x -> sound r p' s -> sound r p (x :: s).
Proof.
  intros H Hx. destruct r; cbn [sound].
  - intros Hl. by apply (takes_one_cons _ _ _ _ _ H).
  - intros Hn [_ Hl]%(takes_one_cons _ _ _ _ _ H). done.
  - intros Hn Ha. by apply Hn, (takes_one_anywhere _ _ _ _ _ H Ha).
Qed.

Lemma searched_retry p x s r : ~ like p (x :: s) -> searched r p s -> searched r p (x :: s).
Proof. intros Hn. destruct r; cbn [searched]; rewrite ?anywhere_cons; naive_solver. Qed.

Lemma searched_found p x s r : r <> SQLITE_NOMATCH -> sound r p (x :: s) -> searched r p (x :: s).
Proof. destruct r; cbn [sound searched]; [|done|done]. intros _. apply anywhere_like. Qed.

Lemma all_anywhere p s : matchAll pInfo <> 0 -> anywhere (matchAll pInfo :: p) s <-> anywhere p s.
Proof.
  intros HA. split.
  - intros (s1 & H1 & (s2 & H2 & Hl)%like_all_iff); [|done]. exists s2. split; [by trans s1|done].
  - intros H. apply anywhere_like. by apply like_all_iff.
Qed.

Lemma one_anywhere p x s : matchOne pInfo <> 0 -> anywhere (matchOne pInfo :: p) (x :: s) <-> anywhere p s.
Proof.
  intros HO. pose proof (one_takes p HO) as Ht. split; [apply (takes_one_anywhere _ _ _ _ _ Ht)|].
  revert x. induction s as [|y s IH]; intros x Ha.
  - apply anywhere_like. apply (takes_one_cons _ _ _ _ _ Ht). split; [done|]. by apply anywhere_nil.
  - apply anywhere_cons. apply anywhere_cons in Ha as [Hl|Ha].
    + left. by apply (takes_one_cons _ _ _ _ _ Ht).
    + right. by apply IH.
Qed.

(** ** The searches *)

(** The rest of the pattern is matched by [rec]. *)
Definition decides (rec : bytes -> option match_result) (p : list Z) : Prop :=
  forall s, str_ok s -> exists r, rec s = Some r /\ sound r p (utf8_chars s).

Lemma search_stop_high rec zStop l z : Forall (fun b => b < 0x80) zStop -> Forall (fun b => 0x80 <= b) l ->
  search_stop rec zStop (l ++ z) = search_stop rec zStop z.
Proof.
  intros Hs. induction 1 as [|b l Hb Hl IH]; [done|]. cbn [app search_stop]. rewrite decide_False; [done|].
  intros Hin. rewrite Forall_forall in Hs. specialize (Hs _ Hin). lia.
Qed.

Lemma search_stop_ok rec p p' Q zStop n : takes_one p Q p' -> decides rec p' ->
  Forall (fun b => b < 0x80) zStop -> (forall x, 0 < x -> x ∈ zStop <-> Q x) ->
  forall s, str_ok s -> (length s <= n)%nat -> exists r, search_stop rec zStop s = Some r /\ searched r p (utf8_chars s).
Proof.
  intros Hp Hrec Hs HQ. induction n as [|n IH]; intros [|b s] Hok Hn; cbn [length] in *; try lia.
  - eexists. split; [done|]. intros Ha%anywhere_nil. by destruct (takes_one_nil _ _ _ Hp).
  - eexists. split; [done|]. intros Ha%anywhere_nil. by destruct (takes_one_nil _ _ _ Hp).
  - destruct (read_char b s Hok) as (c & l & z' & E & _ & _ & El & Hl & Hz' & Hlow & Hhigh & Hc).
    rewrite (utf8_chars_read _ Hok ltac:(done) _ _ E), El.
    destruct (IH z' Hz' ltac:(lia)) as (r & Er & Hr).
    destruct (decide (c < 0x80)) as [Hlt|Hge].
    + rewrite (Hlow Hlt). cbn [app search_stop]. destruct (decide (c ∈ zStop)) as [Hin|Hout].
      * destruct (Hrec z' Hz') as (r1 & -> & Hr1). cbn [mbind option_bind]. apply HQ in Hin; [|done].
        pose proof (sound_yes _ _ _ _ _ _ Hp Hin Hr1) as Hr2. case_decide as Hd.
        -- exists r1. split; [done|]. by apply searched_found.
        -- exists r. split; [done|]. apply searched_retry; [|done]. by destruct r1; try (destruct Hd; done).
      * exists r. split; [done|]. apply searched_retry; [|done]. intros [Hq _]%(takes_one_cons _ _ _ _ _ Hp).
        apply Hout. by apply HQ.
    + rewrite search_stop_high by (done || apply Hhigh; lia). exists r. split; [done|]. apply searched_retry; [|done].
      intros [Hq _]%(takes_one_cons _ _ _ _ _ Hp). apply HQ in Hq; [|done].
      rewrite Forall_forall in Hs. specialize (Hs _ Hq). lia.
Qed.

Lemma search_char_ok rec p p' c n : takes_one p (eq c) p' -> decides rec p' ->
  forall s, str_ok s -> (length s < n)%nat -> exists r, search_char rec n c s = Some r /\ searched r p (utf8_chars s).
Proof.
  intros Hp Hrec. induction n as [|n IH]; intros [|b s] Hok Hn; cbn [length search_char] in *; try lia.
  - eexists. split; [done|]. intros Ha%anywhere_nil. by destruct (takes_one_nil _ _ _ Hp).
  - destruct (read_char b s Hok) as (c2 & l & z' & E & E' & _ & _ & Hl & Hz' & _ & _ & Hc).
    rewrite (utf8_chars_read _ Hok ltac:(done) _ _ E), E'. rewrite decide_False by lia.
    destruct (IH z' Hz' ltac:(lia)) as (r & Er & Hr). destruct (decide (c2 <> c)) as [Hne|Heq].
    + exists r. split; [done|]. apply searched_retry; [|done]. intros [? _]%(takes_one_cons _ _ _ _ _ Hp). lia.
    + destruct (Hrec z' Hz') as (r1 & -> & Hr1). cbn [mbind option_bind].
      pose proof (sound_yes _ _ _ c2 _ _ Hp ltac:(lia) Hr1) as Hr2. case_decide as Hd.
      * exists r1. split; [done|]. by apply searched_found.
      * exists r. split; [done|]. apply searched_retry; [|done]. by destruct r1; try (destruct Hd; done).
Qed.

Lemma search_set_ok rec p n : ~ like p [] -> decides rec p ->
  forall s, str_ok s -> (length s <= n)%nat -> exists r, search_set rec n s = Some r /\ searched r p (utf8_chars s).
Proof.
  intros Hp Hrec. induction n as [|n IH]; intros [|b s] Hok Hn; cbn [length search_set] in *; try lia.
  - eexists. split; [done|]. by intros Ha%anywhere_nil.
  - eexists. split; [done|]. by intros Ha%anywhere_nil.
  - destruct (read_char b s Hok) as (c2 & l & z' & E & _ & Es & _ & Hl & Hz' & _).
    destruct (Hrec _ Hok) as (r1 & -> & Hr1). cbn [mbind option_bind]. rewrite Es.
    rewrite (utf8_chars_read _ Hok ltac:(done) _ _ E) in Hr1 |- *.
    destruct (IH z' Hz' ltac:(lia)) as (r & Er & Hr). case_decide as Hd.
    + exists r1. split; [done|]. by apply searched_found.
    + exists r. split; [done|]. apply searched_retry; [|done]. by destruct r1; try (destruct Hd; done).
Qed.

Lemma stop_chars c x : 0 < c < 0x80 -> 0 < x ->
  x ∈ (if noCase pInfo then [sqlite3Toupper c; sqlite3Tolower c] else [c]) <-> same_char c x.
Proof.
  intros Hc Hx. unfold same_char. destruct (noCase pInfo).
  - rewrite elem_of_cons, list_elem_of_singleton. unfold sqlite3Tolower, wrapu. change (2 ^ 8) with 256.
    rewrite (Z.mod_small c) by lia. rewrite sqlite3Toupper_ascii, UpperToLower_ascii by lia.
    destruct (decide (x < 0x80)) as [H|H].
    + rewrite (Z.mod_small x), (UpperToLower_ascii x) by lia. repeat case_decide; lia.
    + repeat case_decide; lia.
  - rewrite list_elem_of_singleton. naive_solver.
Qed.

Lemma search_literal_ok rec p p' c s : 0 < c -> takes_one p (same_char c) p' -> decides rec p' -> str_ok s ->
  exists r, search pInfo rec c s = Some r /\ searched r p (utf8_chars s).
Proof.
  intros Hc Hp Hrec Hs. unfold search. case_decide as Hlt.
  - apply (search_stop_ok rec p p' (same_char c) _ (length s)); [done|done| | |done|lia].
    + destruct (noCase pInfo); [|by repeat constructor].
      unfold sqlite3Tolower, wrapu. change (2 ^ 8) with 256. rewrite (Z.mod_small c) by lia.
      rewrite sqlite3Toupper_ascii, UpperToLower_ascii by lia. repeat constructor; case_decide; lia.
    + intros x Hx. by apply stop_chars.
  - apply (search_char_ok rec p p' c); [|done|done|lia]. intros s'. rewrite (Hp s').
    assert (forall x, same_char c x <-> c = x) as E by (unfold same_char; intros; lia).
    by setoid_rewrite E.
Qed.

(** ** The matcher *)

Lemma char_matches_ok escaped c x : 0 < c -> 0 < x ->
  char_matches pInfo escaped c x = true <-> same_char c x \/ (c = matchOne pInfo /\ escaped = false).
Proof.
  intros Hc Hx. unfold char_matches, same_char. case_decide as E; [by split; auto|].
  destruct (noCase pInfo && bool_decide _) eqn:Ef.
  - apply andb_true_iff in Ef as [? Ef%bool_decide_eq_true]. naive_solver.
  - rewrite bool_decide_eq_true. apply andb_false_iff in Ef as [Ef|Ef%bool_decide_eq_false];
      [rewrite Ef|]; naive_solver lia.
Qed.

Lemma char_matches_end escaped c : 0 < c -> char_matches pInfo escaped c 0 = false.
Proof.
  intros Hc. unfold char_matches. rewrite decide_False by lia.
  rewrite (bool_decide_eq_false_2 (c = matchOne pInfo /\ _)) by naive_solver.
  rewrite bool_decide_eq_false_2; [by rewrite andb_false_r|]. intros (E & Hlt & _).
  unfold sqlite3Tolower, wrapu in E. change (2 ^ 8) with 256 in E. rewrite Z.mod_small in E by lia.
  change (UpperToLower (0 mod 256)) with 0 in E. assert (c = 0); [|lia]. by apply UpperToLower_0; [lia|].
Qed.

(** The stars and question marks after a star. *)
Lemma skip_stars_ok fuel : forall z s, str_ok z -> str_ok s -> (length z < fuel)%nat -> matchAll pInfo <> 0 ->
  exists o, skip_stars pInfo fuel z s = Some o /\
  match o with
  | None => ~ anywhere (utf8_chars z) (utf8_chars s)
  | Some (c, zb, z', s') =>
      (anywhere (utf8_chars z) (utf8_chars s) <-> anywhere (utf8_chars zb) (utf8_chars s')) /\
      utf8_chars zb = ahead c z' /\ str_ok zb /\ str_ok z' /\ str_ok s' /\ 0 <= c /\
      c <> matchAll pInfo /\ (c <> 0 -> c <> matchOne pInfo) /\ (length zb <= length z)%nat /\ (c <> 0 -> (length z' < length z)%nat)
  end.
Proof.
  induction fuel as [|fuel IH]; intros z s Hz Hs Hf HA; [lia|]. cbn [skip_stars].
  destruct (read_ahead z Hz) as (c & z1 & Er & -> & Hch & Hz1 & Hc & Hl & Hl1). case_decide as Hw.
  - assert (Hc0 : c <> 0) by (destruct Hw as [->|[-> ?]]; done). specialize (Hl1 Hc0).
    rewrite ahead_cons in Hch by done. rewrite Hch.
    destruct (decide (c = matchOne pInfo)) as [->|Hn].
    + destruct s as [|b s].
      * eexists. split; [done|]. intros Ha%anywhere_nil. by destruct (takes_one_nil _ _ _ (one_takes (utf8_chars z1) Hc0)).
      * destruct (read_char b s Hs) as (x & l & s1 & E & _ & _ & _ & Hls & Hs1 & _ & _ & Hx).
        rewrite E, (utf8_chars_read _ Hs ltac:(done) _ _ E), decide_False by lia.
        destruct (IH z1 s1 Hz1 Hs1 ltac:(lia) HA) as (o & -> & Ho). exists o. split; [done|].
        destruct o as [[[[c' zb] z'] s']|]; [|by rewrite (one_anywhere _ x _ Hc0)].
      rewrite (one_anywhere _ x _ Hc0).
        destruct Ho as (? & ? & ? & ? & ? & ? & ? & ? & ? & ?). repeat split; try done; try (intros; lia); naive_solver lia.
    + assert (c = matchAll pInfo) as -> by tauto.
      destruct (IH z1 s Hz1 Hs ltac:(lia) HA) as (o & -> & Ho). exists o. split; [done|].
      destruct o as [[[[c' zb] z'] s']|]; [|by rewrite (all_anywhere _ _ HA)].
      rewrite (all_anywhere _ _ HA).
      destruct Ho as (? & ? & ? & ? & ? & ? & ? & ? & ? & ?). repeat split; try done; try (intros; lia); naive_solver lia.
  - eexists. split; [done|]. split; [done|]. split; [done|]. split; [done|]. split; [done|]. split; [done|].
    split; [done|]. split; [tauto|]. split; [|by split].
    intros ? ->. apply Hw. by right.
Qed.

Lemma star_sound p p' s s' r : matchAll pInfo <> 0 -> (anywhere p s <-> anywhere p' s') -> searched r p' s' ->
  sound r (matchAll pInfo :: p) s.
Proof.
  intros HA E. destruct r; cbn [searched sound]; [|done|].
  - intros H. apply like_all_iff; [done|]. by apply E.
  - intros H Ha. apply H, E. by apply all_anywhere.
Qed.

(** A set ends where the rest of the pattern begins. *)
Hypothesis Hset : matchSet pInfo <> 0 -> matchOther <> 0 /\ matchOther < 0x80.

Let compare := patternCompare pInfo matchOther.

(** One character of the pattern against one of the string. *)
Lemma compare_char_ok fuel escaped c p z s :
  0 < c -> takes_one p (fun x => same_char c x \/ (c = matchOne pInfo /\ escaped = false)) (utf8_chars z) ->
  decides (compare fuel z) (utf8_chars z) -> str_ok s ->
  exists r, (let '(c2, zString) := Utf8Read s in
             if char_matches pInfo escaped c c2 then compare fuel z zString else Some SQLITE_NOMATCH) = Some r /\
    sound r p (utf8_chars s).
Proof.
  intros Hc Hp Hrec Hs. destruct s as [|b s].
  - cbn [Utf8Read]. rewrite char_matches_end by done. eexists. split; [done|]. by apply (sound_nil _ _ _ Hp).
  - destruct (read_char b s Hs) as (x & l & s1 & E & -> & _ & _ & _ & Hs1 & _ & _ & Hx).
    rewrite (utf8_chars_read _ Hs ltac:(done) _ _ E).
    pose proof (char_matches_ok escaped c x Hc Hx) as Hm. destruct (char_matches pInfo escaped c x).
    + destruct (Hrec s1 Hs1) as (r & -> & Hr). exists r. split; [done|].
      apply (sound_yes _ _ _ _ _ _ Hp); [by apply Hm|done].
    + eexists. split; [done|]. apply (sound_no _ _ _ _ _ Hp). by intros Hq%Hm.
Qed.

(** The pattern after a star. *)
Lemma after_star_ok fuel n p c zb z s :
  (forall z', str_ok z' -> (length z' <= n)%nat -> decides (compare fuel z') (utf8_chars z')) ->
  utf8_chars zb = ahead c z -> str_ok zb -> str_ok z -> str_ok s -> (length zb <= n)%nat -> (length z <= n)%nat ->
  0 < c -> c <> matchAll pInfo -> c <> matchOne pInfo -> p = utf8_chars zb ->
  exists r,
    (if decide (c = matchOther) then
       if decide (matchSet pInfo = 0) then
         let '(c, zPattern) := sqlite3Utf8Read z in
         if decide (c = 0) then Some SQLITE_NOWILDCARDMATCH else search pInfo (compare fuel zPattern) c s
       else if decide (matchOther < 0x80) then search_set (compare fuel zb) (length s) s
       else None
     else search pInfo (compare fuel z) c s) = Some r /\ searched r p (utf8_chars s).
Proof.
  intros Hrec Hzb Hokb Hz Hs Hlb Hl Hc HA HO ->. rewrite ahead_cons in Hzb by lia.
  destruct (decide (c = matchOther)) as [->|HX].
  - destruct (decide (matchSet pInfo = 0)) as [HS|HS].
    + destruct (read_ahead z Hz) as (c & z1 & -> & _ & Hch & Hz1 & Hc1 & Hl1 & _). rewrite Hzb, Hch.
      destruct (decide (c = 0)) as [->|Hn].
      * eexists. split; [done|]. intros (s' & _ & H). by apply (escape_at_end s'); [lia| |].
      * rewrite ahead_cons by done. apply (search_literal_ok _ _ (utf8_chars z1)); [lia| | |done].
        -- apply escaped_takes; [lia|done].
        -- apply Hrec; [done|lia].
    + rewrite decide_True by (by apply Hset). apply search_set_ok; [|by apply Hrec|done|done].
      rewrite Hzb. inversion 1; lia.
  - rewrite Hzb. apply (search_literal_ok _ _ (utf8_chars z)); [done|by apply char_takes|by apply Hrec|done].
Qed.

(** A star. *)
Lemma compare_star_ok fuel z s : str_ok z -> str_ok s -> (length z < fuel)%nat -> matchAll pInfo <> 0 ->
  (forall z', str_ok z' -> (length z' <= length z)%nat -> decides (compare fuel z') (utf8_chars z')) ->
  exists r,
    (o ← skip_stars pInfo fuel z s;
     match o with
     | None => Some SQLITE_NOWILDCARDMATCH
     | Some (c, zBefore, zPattern, zString) =>
         if decide (c = 0) then Some SQLITE_MATCH
         else if decide (c = matchOther) then
           if decide (matchSet pInfo = 0) then
             let '(c, zPattern) := sqlite3Utf8Read zPattern in
             if decide (c = 0) then Some SQLITE_NOWILDCARDMATCH else search pInfo (compare fuel zPattern) c zString
           else if decide (matchOther < 0x80) then search_set (compare fuel zBefore) (length zString) zString
           else None
         else search pInfo (compare fuel zPattern) c zString
     end) = Some r /\ sound r (matchAll pInfo :: utf8_chars z) (utf8_chars s).
Proof.
  intros Hz Hs Hf Hn0 Hrec. destruct (skip_stars_ok fuel z s Hz Hs ltac:(lia) Hn0) as (o & -> & Ho).
  cbn [mbind option_bind]. destruct o as [[[[c' zb] z'] s']|].
  2: { eexists. split; [done|]. cbn [sound]. by rewrite all_anywhere. }
  destruct Ho as (Ea & Hzb & Hokb & Hz' & Hs' & Hc' & HA' & HO' & Hlb & Hl').
  destruct (decide (c' = 0)) as [->|Hn'].
  { eexists. split; [done|]. apply (star_sound _ [] _ [] _ Hn0); [|by apply anywhere_like; constructor].
    rewrite Ea, Hzb. change (ahead 0 z') with (@nil Z). split; [by exists []; split; [done|constructor]|].
    intros _. exists []. split; [apply suffix_nil|constructor]. }
  destruct (after_star_ok fuel (length z) (utf8_chars zb) c' zb z' s') as (r & -> & Hr); try done; try lia.
  exists r. split; [done|]. by apply (star_sound _ (utf8_chars zb) _ (utf8_chars s')).
Qed.

(** A set. *)
Lemma compare_set_ok fuel z s : str_ok z -> str_ok s -> matchOther <> matchAll pInfo -> matchOther <> 0 -> matchSet pInfo <> 0 ->
  (forall z', str_ok z' -> (length z' <= length z)%nat -> decides (compare fuel z') (utf8_chars z')) ->
  exists r,
    (let '(c, zString) := sqlite3Utf8Read s in
     if decide (c = 0) then Some SQLITE_NOMATCH
     else
       o ← match_set c z;
       match o with None => Some SQLITE_NOMATCH | Some zPattern => compare fuel zPattern zString end) = Some r /\
    sound r (matchOther :: utf8_chars z) (utf8_chars s).
Proof.
  intros Hz Hs HA HX HS Hrec. destruct s as [|b s].
  { eexists. split; [done|]. cbn [sound]. intros H. inversion H; lia. }
  destruct (read_char b s Hs) as (x & l & s1 & E & _ & _ & _ & _ & Hs1 & _ & _ & Hx).
  rewrite E, (utf8_chars_read _ Hs ltac:(done) _ _ E), decide_False by lia.
  destruct (match_set_ok x z Hz) as (o & -> & Ho). cbn [mbind option_bind].
  destruct (parse_set (utf8_chars z)) as [[[invert l'] rest]|] eqn:Ep.
  - pose proof (set_takes _ _ _ _ HX HS Ep) as Ht. destruct (in_set x (invert, l')) eqn:Ei.
    + destruct Ho as (z2 & -> & Hz2 & Hl2 & <-).
      destruct (Hrec z2 Hz2 Hl2 s1 Hs1) as (r & -> & Hr). exists r. split; [done|].
      by apply (sound_yes _ _ _ _ _ _ Ht).
    + subst o. eexists. split; [done|]. apply (sound_no _ _ _ _ _ Ht). congruence.
  - subst o. eexists. split; [done|]. by apply set_open.
Qed.

Lemma compare_ok fuel : forall z, str_ok z -> (length z < fuel)%nat -> decides (compare fuel z) (utf8_chars z).
Proof.
  induction fuel as [|fuel IH]; intros z Hz Hf s Hs; [lia|]. unfold compare. cbn [patternCompare]. fold compare.
  destruct (read_ahead z Hz) as (c & z1 & _ & -> & Hch & Hz1 & Hc & _ & Hl). rewrite Hch.
  destruct (decide (c = 0)) as [->|Hn0].
  { eexists. split; [done|]. change (ahead 0 z1) with (@nil Z). destruct (decide (s = [])) as [->|Hn]; cbn [sound].
    - constructor.
    - intros H. inversion H. by apply Hn, utf8_chars_nil. }
  specialize (Hl Hn0). rewrite ahead_cons by done.
  assert (Hrec : forall z', str_ok z' -> (length z' <= length z1)%nat -> decides (compare fuel z') (utf8_chars z'))
    by (intros z' Hz' Hl'; apply IH; [done|lia]).
  destruct (decide (c = matchAll pInfo)) as [->|HA]; [apply compare_star_ok; (done || lia)|].
  destruct (decide (c = matchOther)) as [->|HX].
  - destruct (decide (matchSet pInfo = 0)) as [HS|HS]; [|by apply compare_set_ok].
    destruct (read_ahead z1 Hz1) as (c1 & z2 & -> & _ & Hch1 & Hz2 & Hc1 & Hl1 & _). rewrite Hch1.
    destruct (decide (c1 = 0)) as [->|Hn1]; [eexists; split; [done|by apply escape_at_end]|].
    rewrite ahead_cons by done. apply compare_char_ok; [lia| |by apply Hrec|done].
    intros s0. rewrite (escaped_takes c1 (utf8_chars z2) Hn0 HS s0).
    split; intros (x & s' & -> & ? & ?); exists x, s'; naive_solver.
  - apply compare_char_ok; [lia| |by apply Hrec|done].
    destruct (decide (c = matchOne pInfo)) as [->|HO]; intros s0.
    + rewrite (one_takes (utf8_chars z1) Hn0 s0). split; intros (x & s' & -> & ? & ?); exists x, s'; naive_solver.
    + rewrite (char_takes c (utf8_chars z1) HA HO HX s0). split; intros (x & s' & -> & ? & ?); exists x, s'; naive_solver.
Qed.

Lemma pattern_compare_ok zPattern zString : str_ok zPattern -> str_ok zString -> exists r,
  pattern_compare pInfo matchOther zPattern zString = Some r /\ sound r (utf8_chars zPattern) (utf8_chars zString).
Proof. intros Hp Hs. apply (compare_ok (S (length zPattern))); [done|lia|done]. Qed.
End Spec.

(** ** The operators *)

Lemma sound_match pInfo matchOther r p s : sound pInfo matchOther r p s ->
  bool_decide (r = SQLITE_MATCH) = true <-> like pInfo matchOther p s.
Proof.
  rewrite bool_decide_eq_true. destruct r; cbn [sound]; [done| |].
  - split; [done|]. intros Hl. done.
  - split; [done|]. intros Hl%anywhere_like. done.
Qed.

Lemma match_operator pInfo matchOther zB zA : roles_distinct pInfo matchOther ->
  (matchSet pInfo <> 0 -> matchOther <> 0 /\ matchOther < 0x80) -> str_ok zB -> str_ok zA -> exists r,
  pattern_compare pInfo matchOther zB zA = Some r /\
  (bool_decide (r = SQLITE_MATCH) = true <-> like pInfo matchOther (utf8_chars zB) (utf8_chars zA)).
Proof.
  intros Hr Hs HB HA. destruct (pattern_compare_ok pInfo matchOther Hr Hs zB zA HB HA) as (r & E & Hso).
  exists r. split; [done|]. by apply sound_match.
Qed.

(** The roles once the escape character has been taken out of them. *)
Definition like_roles (pInfo : compareInfo) (escape : Z) : compareInfo :=
  {| matchAll := if decide (escape = matchAll pInfo) then 0 else matchAll pInfo;
     matchOne := if decide (escape = matchOne pInfo) then 0 else matchOne pInfo;
     matchSet := matchSet pInfo; noCase := noCase pInfo |}.

(** The operators the library registers with [likeFunc]: GLOB has no third argument. *)
Definition operator_of (pInfo : compareInfo) (zEsc : option bytes) : Prop :=
  (pInfo = globInfo /\ zEsc = None) \/ pInfo = likeInfoNorm \/ pInfo = likeInfoAlt.

Definition truth_of (P : Prop) (o : string + bool) : Prop := exists v, o = inr v /\ (v = true <-> P).

Definition operator_spec (pInfo : compareInfo) (limit : Z) (zB zA : bytes) (zEsc : option bytes) (o : string + bool) : Prop :=
  if decide (limit < Z.of_nat (length zB)) then o = inl "LIKE or GLOB pattern too complex"
  else match utf8_chars <$> zEsc with
       | None => truth_of (like pInfo (matchSet pInfo) (utf8_chars zB) (utf8_chars zA)) o
       | Some [escape] => truth_of (like (like_roles pInfo escape) escape (utf8_chars zB) (utf8_chars zA)) o
       | Some _ => o = inl "ESCAPE expression must be a single character"
       end.

(** C28: [likeFunc] refuses a pattern over the limit and an escape that is not one
    character; otherwise it terminates and answers whether the characters of the
    string are [like] those of the pattern, with a wildcard that is the escape
    character losing its meaning: the searches that skip ahead and the early
    [SQLITE_NOWILDCARDMATCH] lose no match, also in text that is not
    well-formed UTF-8. *)
Theorem like_operator_is_like pInfo limit zB zA zEsc :
  operator_of pInfo zEsc -> str_ok zB -> str_ok zA -> Z.of_nat (length (default [] zEsc)) <= 2 ^ 64 ->
  str_ok (default [] zEsc) ->
  exists o, likeFunc pInfo limit zB zA zEsc = Some o /\ operator_spec pInfo limit zB zA zEsc o.
Proof.
  intros Hop HB HA Hl HE. unfold likeFunc, operator_spec. case_decide as Hlim; [by eexists|].
  destruct zEsc as [zEsc|]; cbn [default from_option id fmap option_fmap option_map] in *.
  - rewrite CharLen_chars by done. cbn [mbind option_bind].
    destruct (utf8_chars zEsc) as [|escape [|? ?]] eqn:Ec;
      [rewrite decide_True by (cbn [length]; lia); by eexists| |
       rewrite decide_True by (cbn [length]; lia); by eexists].
    rewrite decide_False by (cbn [length]; lia).
    destruct (read_ahead zEsc HE) as (c & z' & -> & _ & Hch & _ & Hc & _). rewrite Ec in Hch.
    unfold ahead in Hch. destruct (decide (c = 0)) as [|Hn]; [done|]. injection Hch as <- _. fold (like_roles pInfo escape).
    destruct (match_operator (like_roles pInfo escape) escape zB zA) as (r & -> & Hr); [| |done|done|].
    + unfold roles_distinct, like_roles. cbn [matchAll matchOne]. repeat case_decide; try lia;
        destruct Hop as [[_ ?]|[->| ->]]; cbn in *; try done; lia.
    + unfold like_roles. cbn [matchSet]. intros Hs. by destruct Hop as [[_ ?]|[->| ->]].
    + eexists. split; [done|]. by eexists.
  - destruct (match_operator pInfo (matchSet pInfo) zB zA) as (r & -> & Hr); [| |done|done|].
    + destruct Hop as [[-> _]|[->| ->]]; unfold roles_distinct; cbn; lia.
    + destruct Hop as [[-> _]|[->| ->]]; cbn; lia.
    + eexists. split; [done|]. by eexists.
Qed.

(** The pattern [a%\_B] with the escape [\], on a string with a two-byte character. *)
Lemma like_operator_is_like_witness :
  likeFunc likeInfoNorm 50000 [97; 37; 92; 95; 66] [65; 195; 169; 95; 95; 98] (Some [92]) = Some (inr true) /\
  like (like_roles likeInfoNorm 92) 92 [97; 37; 92; 95; 66] [65; 233; 95; 95; 98].
Proof.
  split; [vm_compute; reflexivity|].
  destruct (like_operator_is_like likeInfoNorm 50000 [97; 37; 92; 95; 66] [65; 195; 169; 95; 95; 98] (Some [92]))
    as (o & E & H).
  - right. by left.
  - apply (bool_decide_unpack _). vm_compute. exact I.
  - apply (bool_decide_unpack _). vm_compute. exact I.
  - apply (bool_decide_unpack _). vm_compute. exact I.
  - apply (bool_decide_unpack _). vm_compute. exact I.
  - assert (o = inr true) as -> by (enough (Some o = Some (inr true)) by congruence; rewrite <- E; vm_compute; reflexivity).
    unfold operator_spec in H. rewrite decide_False in H by (cbn [length]; lia).
    destruct H as (v & E' & Hv). injection E' as <-. apply Hv. reflexivity.
Defined.

Lemma match_code_0 r : match_code r = 0 <-> bool_decide (r = SQLITE_MATCH) = true.
Proof. rewrite bool_decide_eq_true. by destruct r. Qed.

Lemma strglob_like zGlobPattern zString : str_ok zGlobPattern -> str_ok zString -> exists n,
  sqlite3_strglob (Some zGlobPattern) (Some zString) = Some n /\
  (n = 0 <-> like globInfo 91 (utf8_chars zGlobPattern) (utf8_chars zString)).
Proof.
  intros Hp Hs. destruct (match_operator globInfo 91 zGlobPattern zString) as (r & E & Hr);
    [unfold roles_distinct; cbn; lia|cbn; lia|done|done|].
  exists (match_code r). cbn [sqlite3_strglob]. rewrite E. split; [done|]. by rewrite match_code_0.
Qed.

Lemma strlike_like zPattern zStr esc : esc <> 37 -> esc <> 95 -> str_ok zPattern -> str_ok zStr -> exists n,
  sqlite3_strlike (Some zPattern) (Some zStr) esc = Some n /\
  (n = 0 <-> like likeInfoNorm esc (utf8_chars zPattern) (utf8_chars zStr)).
Proof.
  intros H1 H2 Hp Hs. destruct (match_operator likeInfoNorm esc zPattern zStr) as (r & E & Hr);
    [unfold roles_distinct; cbn; lia|cbn; lia|done|done|].
  exists (match_code r). cbn [sqlite3_strlike]. rewrite E. split; [done|]. by rewrite match_code_0.
Qed.

Example glob_set : sqlite3_strglob (Some [42; 91; 94; 97; 45; 99; 93; 63]) (Some [98; 100; 101]) = Some 0.
Proof. vm_compute. reflexivity. Qed.

Example glob_open_set : sqlite3_strglob (Some [42; 91; 97]) (Some [97; 97]) = Some 2.
Proof. vm_compute. reflexivity. Qed.
