(* ===== verification/SqlKeyword.v ===== *)
(** * Keywords of SQL

    [sqlite/sqlite3.c] (keywordhash.h): the recognition of keywords through a
    perfect hash and overlapping texts, against the list of keywords.

    A text in memory is the list of its bytes; reading past it, or past a table, is
    [None]. *)

From S2P Require Import Prelude SqlText.

(** ** Tables *)

Definition TK_ID : Z := 59.

Definition zKWText : bytes := str_bytes (
  "REINDEXEDESCAPEACHECKEYBEFOREIGNOREGEXPLAINSTEADDATABASELECTABLEFTHENDEF" +:+
  "ERRABLELSEXCLUDELETEMPORARYISNULLSAVEPOINTERSECTIESNOTNULLIKEXCEPTRANSAC" +:+
  "TIONATURALTERAISEXCLUSIVEXISTSCONSTRAINTOFFSETRIGGERANGENERATEDETACHAVIN" +:+
  "GLOBEGINNEREFERENCESUNIQUERYWITHOUTERELEASEATTACHBETWEENOTHINGROUPSCASCA" +:+
  "DEFAULTCASECOLLATECREATECURRENT_DATEIMMEDIATEJOINSERTMATCHPLANALYZEPRAGM" +:+
  "ATERIALIZEDEFERREDISTINCTUPDATEVALUESVIRTUALWAYSWHENWHERECURSIVEABORTAFT" +:+
  "ERENAMEANDROPARTITIONAUTOINCREMENTCASTCOLUMNCOMMITCONFLICTCROSSCURRENT_T" +:+
  "IMESTAMPRECEDINGFAILASTFILTEREPLACEFIRSTFOLLOWINGFROMFULLIMITIFORDERESTR" +:+
  "ICTOTHERSOVERETURNINGRIGHTROLLBACKROWSUNBOUNDEDUNIONUSINGVACUUMVIEWINDOW" +:+
  "BYINITIALLYPRIMARY").

Definition aKWHash : list Z :=
  [84; 92; 134; 82; 105; 29; 0; 0; 94; 0; 85; 72; 0;
    53; 35; 86; 15; 0; 42; 97; 54; 89; 135; 19; 0; 0;
    140; 0; 40; 129; 0; 22; 107; 0; 9; 0; 0; 123; 80;
    0; 78; 6; 0; 65; 103; 147; 0; 136; 115; 0; 0; 48;
    0; 90; 24; 0; 17; 0; 27; 70; 23; 26; 5; 60; 142;
    110; 122; 0; 73; 91; 71; 145; 61; 120; 74; 0; 49; 0;
    11; 41; 0; 113; 0; 0; 0; 109; 10; 111; 116; 125; 14;
    50; 124; 0; 100; 0; 18; 121; 144; 56; 130; 139; 88; 83;
    37; 30; 126; 0; 0; 108; 51; 131; 128; 0; 34; 0; 0;
    132; 0; 98; 38; 39; 0; 20; 45; 117; 93 ].

Definition aKWNext : list Z :=
  [0; 0; 0; 0; 0; 4; 0; 43; 0; 0; 106; 114; 0;
    0; 0; 2; 0; 0; 143; 0; 0; 0; 13; 0; 0; 0;
    0; 141; 0; 0; 119; 52; 0; 0; 137; 12; 0; 0; 62;
    0; 138; 0; 133; 0; 0; 36; 0; 0; 28; 77; 0; 0;
    0; 0; 59; 0; 47; 0; 0; 0; 0; 0; 0; 0; 0;
    0; 0; 69; 0; 0; 0; 0; 0; 146; 3; 0; 58; 0;
    1; 75; 0; 0; 0; 31; 0; 0; 0; 0; 0; 127; 0;
    104; 0; 64; 66; 63; 0; 0; 0; 0; 0; 46; 0; 16;
    8; 0; 0; 0; 0; 0; 0; 0; 0; 0; 0; 81; 101;
    0; 112; 21; 7; 67; 0; 79; 96; 118; 0; 0; 68; 0;
    0; 99; 44; 0; 55; 0; 76; 0; 95; 32; 33; 57; 25;
    0; 102; 0; 0; 87 ].

Definition aKWLen : list Z :=
  [0; 7; 7; 5; 4; 6; 4; 5; 3; 6; 7; 3; 6;
    6; 7; 7; 3; 8; 2; 6; 5; 4; 4; 3; 10; 4;
    7; 6; 9; 4; 2; 6; 5; 9; 9; 4; 7; 3; 2;
    4; 4; 6; 11; 6; 2; 7; 5; 5; 9; 6; 10; 4;
    6; 2; 3; 7; 5; 9; 6; 6; 4; 5; 5; 10; 6;
    5; 7; 4; 5; 7; 6; 7; 7; 6; 5; 7; 3; 7;
    4; 7; 6; 12; 9; 4; 6; 5; 4; 7; 6; 12; 8;
    8; 2; 6; 6; 7; 6; 4; 5; 9; 5; 5; 6; 3;
    4; 9; 13; 2; 2; 4; 6; 6; 8; 5; 17; 12; 7;
    9; 4; 4; 6; 7; 5; 9; 4; 4; 5; 2; 5; 8;
    6; 4; 9; 5; 8; 4; 3; 9; 5; 5; 6; 4; 6;
    2; 2; 9; 3; 7 ].

Definition aKWOffset : list Z :=
  [0; 0; 2; 2; 8; 9; 14; 16; 20; 23; 25; 25; 29;
    33; 36; 41; 46; 48; 53; 54; 59; 62; 65; 67; 69; 78;
    81; 86; 90; 90; 94; 99; 101; 105; 111; 119; 123; 123; 123;
    126; 129; 132; 137; 142; 146; 147; 152; 156; 160; 168; 174; 181;
    184; 184; 187; 189; 195; 198; 206; 211; 216; 219; 222; 226; 236;
    239; 244; 244; 248; 252; 259; 265; 271; 277; 277; 283; 284; 288;
    295; 299; 306; 312; 324; 333; 335; 341; 346; 348; 355; 359; 370;
    377; 378; 385; 391; 397; 402; 408; 412; 415; 424; 429; 433; 439;
    441; 444; 453; 455; 457; 466; 470; 476; 482; 490; 495; 495; 495;
    511; 520; 523; 527; 532; 539; 544; 553; 557; 560; 565; 567; 571;
    579; 585; 588; 597; 602; 610; 610; 614; 623; 628; 633; 639; 642;
    645; 648; 650; 655; 659 ].

(** The values of the [TK_] macros the table names. *)
Definition aKWCode : list Z :=
  [0; 98; 116; 161; 39; 58; 41; 124; 67; 33; 132; 62; 63;
    47; 2; 65; 163; 38; 24; 138; 16; 118; 159; 11; 131; 160;
    91; 128; 21; 21; 43; 50; 82; 13; 137; 94; 51; 19; 66;
    121; 47; 136; 6; 28; 115; 118; 162; 71; 9; 20; 119; 151;
    69; 68; 130; 77; 89; 95; 40; 147; 47; 5; 118; 125; 123;
    3; 26; 81; 118; 14; 32; 48; 152; 92; 146; 35; 31; 120;
    157; 113; 17; 100; 8; 143; 127; 46; 4; 30; 70; 97; 7;
    140; 45; 129; 139; 80; 96; 158; 149; 72; 27; 29; 99; 44;
    133; 87; 126; 15; 49; 36; 60; 10; 37; 118; 100; 100; 85;
    88; 42; 84; 166; 73; 83; 86; 142; 118; 148; 18; 145; 74;
    93; 165; 150; 118; 12; 76; 75; 90; 134; 144; 78; 79; 164;
    61; 34; 64; 135; 122 ].

(** ** Keywords *)

(** [charMap]. *)
Definition charMap (x : Z) : Z := UpperToLower (u8 x).

(** [z[j]&~0x20] of a [char]. *)
Definition up (c : Z) : Z := Z.land (wraps 8 c) (Z.lnot 0x20).

(** The loop [while( j<n && ... )], with [k] characters left; has it reached [n]? *)
Fixpoint kw_loop (k : nat) (z zKW : bytes) : option bool :=
  match k with
  | O => Some true
  | S k =>
      c ← head z; d ← head zKW;
      if decide (up c = d) then kw_loop k (tail z) (tail zKW) else Some false
  end.

(** Is [z[0..n-1]] the [i]-th keyword? *)
Definition kw_equal (z : bytes) (n : nat) (i : Z) : option bool :=
  len ← aKWLen !! Z.to_nat i;
  if decide (len <> Z.of_nat n) then Some false
  else
    off ← aKWOffset !! Z.to_nat i;
    let zKW := drop (Z.to_nat off) zKWText in
    z0 ← z !! 0%nat; k0 ← zKW !! 0%nat;
    if decide (up z0 <> k0) then Some false
    else
      z1 ← z !! 1%nat; k1 ← zKW !! 1%nat;
      if decide (up z1 <> k1) then Some false
      else kw_loop (n - 2) (drop 2 z) (drop 2 zKW).

(** The loop along the collision chain. *)
Fixpoint kw_chain (fuel : nat) (z : bytes) (n : nat) (i pType : Z) : option Z :=
  if decide (0 < i) then
    match fuel with
    | O => None
    | S fuel =>
        b ← kw_equal z n i;
        if b : bool then aKWCode !! Z.to_nat i
        else next ← aKWNext !! Z.to_nat i; kw_chain fuel z n next pType
    end
  else Some pType.

Definition kw_hash (z0 zlast : Z) (n : nat) : Z :=
  Z.lxor (Z.lxor (charMap z0 * 4) (charMap zlast * 3)) (Z.of_nat n) mod 127.

(** The type of the token, [pType] unless it is a keyword. *)
Definition keywordCode (z : bytes) (n : nat) (pType : Z) : option Z :=
  if decide (n < 2)%nat then None
  else
    z0 ← z !! 0%nat; zlast ← z !! (n - 1)%nat;
    i ← aKWHash !! Z.to_nat (kw_hash z0 zlast n);
    kw_chain (length aKWNext) z n i pType.

Definition sqlite3KeywordCode (z : bytes) (n : nat) : option Z :=
  if decide (2 <= n)%nat then keywordCode z n TK_ID else Some TK_ID.

Definition SQLITE_N_KEYWORD : Z := 147.

(** The name and its length, if there is such a keyword. *)
Definition sqlite3_keyword_name (i : Z) : option (option (bytes * Z)) :=
  if decide (i < 0 \/ SQLITE_N_KEYWORD <= i) then Some None
  else
    off ← aKWOffset !! Z.to_nat (i + 1); len ← aKWLen !! Z.to_nat (i + 1);
    Some (Some (drop (Z.to_nat off) zKWText, len)).

Definition sqlite3_keyword_check (zName : bytes) (nName : nat) : option bool :=
  t ← sqlite3KeywordCode zName nName; Some (negb (bool_decide (t = TK_ID))).

(** ** Keywords: the list *)

(** The keywords and their codes. *)
Definition keywords : list (string * Z) :=
  [("REINDEX", 98); ("INDEXED", 116); ("INDEX", 161); ("DESC", 39); ("ESCAPE", 58);
   ("EACH", 41); ("CHECK", 124); ("KEY", 67); ("BEFORE", 33); ("FOREIGN", 132);
   ("FOR", 62); ("IGNORE", 63); ("REGEXP", 47); ("EXPLAIN", 2); ("INSTEAD", 65);
   ("ADD", 163); ("DATABASE", 38); ("AS", 24); ("SELECT", 138); ("TABLE", 16);
   ("LEFT", 118); ("THEN", 159); ("END", 11); ("DEFERRABLE", 131); ("ELSE", 160);
   ("EXCLUDE", 91); ("DELETE", 128); ("TEMPORARY", 21); ("TEMP", 21); ("OR", 43);
   ("ISNULL", 50); ("NULLS", 82); ("SAVEPOINT", 13); ("INTERSECT", 137); ("TIES", 94);
   ("NOTNULL", 51); ("NOT", 19); ("NO", 66); ("NULL", 121); ("LIKE", 47);
   ("EXCEPT", 136); ("TRANSACTION", 6); ("ACTION", 28); ("ON", 115); ("NATURAL", 118);
   ("ALTER", 162); ("RAISE", 71); ("EXCLUSIVE", 9); ("EXISTS", 20); ("CONSTRAINT", 119);
   ("INTO", 151); ("OFFSET", 69); ("OF", 68); ("SET", 130); ("TRIGGER", 77);
   ("RANGE", 89); ("GENERATED", 95); ("DETACH", 40); ("HAVING", 147); ("GLOB", 47);
   ("BEGIN", 5); ("INNER", 118); ("REFERENCES", 125); ("UNIQUE", 123); ("QUERY", 3);
   ("WITHOUT", 26); ("WITH", 81); ("OUTER", 118); ("RELEASE", 14); ("ATTACH", 32);
   ("BETWEEN", 48); ("NOTHING", 152); ("GROUPS", 92); ("GROUP", 146); ("CASCADE", 35);
   ("ASC", 31); ("DEFAULT", 120); ("CASE", 157); ("COLLATE", 113); ("CREATE", 17);
   ("CURRENT_DATE", 100); ("IMMEDIATE", 8); ("JOIN", 143); ("INSERT", 127); ("MATCH", 46);
   ("PLAN", 4); ("ANALYZE", 30); ("PRAGMA", 70); ("MATERIALIZED", 97); ("DEFERRED", 7);
   ("DISTINCT", 140); ("IS", 45); ("UPDATE", 129); ("VALUES", 139); ("VIRTUAL", 80);
   ("ALWAYS", 96); ("WHEN", 158); ("WHERE", 149); ("RECURSIVE", 72); ("ABORT", 27);
   ("AFTER", 29); ("RENAME", 99); ("AND", 44); ("DROP", 133); ("PARTITION", 87);
   ("AUTOINCREMENT", 126); ("TO", 15); ("IN", 49); ("CAST", 36); ("COLUMN", 60);
   ("COMMIT", 10); ("CONFLICT", 37); ("CROSS", 118); ("CURRENT_TIMESTAMP", 100); ("CURRENT_TIME", 100);
   ("CURRENT", 85); ("PRECEDING", 88); ("FAIL", 42); ("LAST", 84); ("FILTER", 166);
   ("REPLACE", 73); ("FIRST", 83); ("FOLLOWING", 86); ("FROM", 142); ("FULL", 118);
   ("LIMIT", 148); ("IF", 18); ("ORDER", 145); ("RESTRICT", 74); ("OTHERS", 93);
   ("OVER", 165); ("RETURNING", 150); ("RIGHT", 118); ("ROLLBACK", 12); ("ROWS", 76);
   ("ROW", 75); ("UNBOUNDED", 90); ("UNION", 134); ("USING", 144); ("VACUUM", 78);
   ("VIEW", 79); ("WINDOW", 164); ("DO", 61); ("BY", 34); ("INITIALLY", 64);
   ("ALL", 135); ("PRIMARY", 122)].

(** The code of a word, whatever its case. *)
Definition keyword_of (w : bytes) : Z :=
  match list_find (fun k => fold_case (str_bytes k.1) = fold_case w) keywords with
  | Some (_, (_, code)) => code
  | None => TK_ID
  end.

(** The characters keywords are made of. *)
Definition kw_char (c : Z) : Prop := 65 <= c <= 90 \/ 97 <= c <= 122 \/ c = 95.

#[export] Instance kw_char_dec c : Decision (kw_char c).
Proof. unfold kw_char. apply _. Defined.

Definition to_upper (c : Z) : Z := if decide (97 <= c <= 122) then c - 32 else c.

Lemma up_kw c : kw_char c -> up c = to_upper c.
Proof.
  intros Hc. apply (bytes_forall (fun c => kw_char c -> up c = to_upper c)); [|unfold kw_char in Hc; lia|done].
  apply (bool_decide_unpack _). vm_compute. exact I.
Qed.

Lemma fold_kw c d : kw_char d -> 0 < c < 256 -> UpperToLower c = UpperToLower d -> kw_char c /\ up c = up d.
Proof.
  intros Hd Hc. rewrite !UpperToLower_ascii by (unfold kw_char in Hd; lia). intros E.
  assert (Hk : kw_char c) by (unfold kw_char in *; repeat case_decide; lia). split; [done|].
  rewrite !up_kw by done. unfold kw_char, to_upper in *. repeat case_decide; lia.
Qed.

Lemma up_fold c d : kw_char c -> kw_char d -> up c = d -> UpperToLower c = UpperToLower d.
Proof.
  intros Hc Hd. rewrite up_kw by done. unfold to_upper. rewrite !UpperToLower_ascii by (unfold kw_char in *; lia).
  unfold kw_char in *. repeat case_decide; lia.
Qed.

(** [i]-th keyword of the tables. *)
Definition kw_text (i : Z) : bytes :=
  take (Z.to_nat (default 0 (aKWLen !! Z.to_nat i))) (drop (Z.to_nat (default 0 (aKWOffset !! Z.to_nat i))) zKWText).

(** What the proof needs of the tables, all computed: the texts are the keywords, in upper case, inside the table. *)
Definition entry_ok (k : nat) (e : string * Z) : Prop :=
  let i := Z.of_nat (S k) in
  kw_text i = str_bytes e.1 /\ aKWCode !! S k = Some e.2 /\
  aKWLen !! S k = Some (Z.of_nat (length (str_bytes e.1))) /\ is_Some (aKWOffset !! S k) /\
  (2 <= length (str_bytes e.1))%nat /\
  Forall (fun c => kw_char c /\ up c = c) (str_bytes e.1).

#[export] Instance entry_ok_dec k e : Decision (entry_ok k e).
Proof. unfold entry_ok. apply _. Defined.

Lemma entries_ok : forall k e, keywords !! k = Some e -> entry_ok k e.
Proof.
  assert (H : Forall (fun ke => entry_ok ke.1 ke.2) (zip (seq 0 147) keywords)).
  { apply (bool_decide_unpack _). vm_compute. exact I. }
  intros k e E. rewrite Forall_forall in H. apply (H (k, e)). apply list_elem_of_lookup_2 with k.
  rewrite lookup_zip_with, E. cbn [mbind option_bind]. rewrite lookup_seq_lt; [done|].
  apply lookup_lt_Some in E. exact E.
Qed.

Lemma kw_char_byte c : kw_char c -> 0 < c < 256.
Proof. unfold kw_char. lia. Qed.

(** ** Keywords: the lookup *)

Lemma kw_loop_ok k : forall z K, (k <= length z)%nat -> (k <= length K)%nat -> Forall kw_char (take k z) ->
  Forall (fun c => kw_char c /\ up c = c) (take k K) ->
  kw_loop k z K = Some (bool_decide (fold_case (take k K) = fold_case (take k z))).
Proof.
  induction k as [|k IH]; intros [|c z] [|d K] Hz HK Hw Hu; cbn [length] in *; try lia; try done.
  cbn [take] in *. apply Forall_cons in Hw as [Hc Hw]. apply Forall_cons in Hu as [[Hd Hd'] Hu].
  cbn [kw_loop head tail mbind option_bind]. unfold fold_case. rewrite !fmap_cons. case_decide as E.
  - rewrite (IH z K) by (done || lia). f_equal. apply bool_decide_ext. unfold fold_case.
    rewrite (up_fold c d) by done. split; [by intros ->|by intros [= ->]].
  - rewrite bool_decide_eq_false_2; [done|]. intros [= E' _]. apply E. rewrite <- Hd'.
    apply fold_kw; [done|by apply kw_char_byte|done].
Qed.

(** The two tests in front of the loop are its first two turns. *)
Lemma kw_tests_loop z K n : (2 <= n)%nat -> (2 <= length z)%nat -> (2 <= length K)%nat ->
  (z0 ← z !! 0%nat; k0 ← K !! 0%nat;
   if decide (up z0 <> k0) then Some false
   else z1 ← z !! 1%nat; k1 ← K !! 1%nat;
        if decide (up z1 <> k1) then Some false else kw_loop (n - 2) (drop 2 z) (drop 2 K)) = kw_loop n z K.
Proof.
  intros Hn Hz HK. destruct n as [|[|n]]; [lia|lia|]. destruct z as [|a [|b z]]; cbn [length] in *; [lia|lia|].
  destruct K as [|c [|d K]]; cbn [length] in *; [lia|lia|]. cbn. rewrite Nat.sub_0_r, !drop_0.
  destruct (decide (up a = c)) as [E|E]; [rewrite decide_False by auto|by rewrite decide_True by auto].
  destruct (decide (up b = d)) as [E'|E']; [by rewrite decide_False by auto|by rewrite decide_True by auto].
Qed.

Lemma kw_equal_ok w rest k e : Forall kw_char w -> keywords !! k = Some e ->
  kw_equal (w ++ rest) (length w) (Z.of_nat (S k)) = Some (bool_decide (fold_case (str_bytes e.1) = fold_case w)).
Proof.
  intros Hw He. destruct (entries_ok k e He) as (Ht & _ & Hl & [off Ho] & H2 & Hu). unfold kw_equal.
  rewrite Nat2Z.id, Hl. cbn [mbind option_bind]. case_decide as En.
  - rewrite bool_decide_eq_false_2; [done|]. intros E. apply (f_equal length) in E. unfold fold_case in E.
    rewrite !length_fmap in E. lia.
  - assert (En' : length (str_bytes e.1) = length w) by lia. rewrite Ho. cbn [mbind option_bind].
    unfold kw_text in Ht. rewrite Nat2Z.id, Hl, Ho in Ht. cbn [default from_option id] in Ht. unfold id in Ht. rewrite Nat2Z.id in Ht.
    set (K := drop (Z.to_nat off) zKWText) in *.
    assert (HK : (length (str_bytes e.1) <= length K)%nat).
    { apply (f_equal length) in Ht. rewrite length_take in Ht. lia. }
    rewrite kw_tests_loop by (rewrite ?length_app; lia).
    rewrite kw_loop_ok; [by rewrite take_app_length, <- En', Ht|rewrite length_app; lia|lia|by rewrite take_app_length|].
    by rewrite <- En', Ht.
Qed.

Lemma kw_equal_out z n i : 148 <= i -> kw_equal z n i = None.
Proof.
  intros Hi. unfold kw_equal. rewrite (lookup_ge_None_2 aKWLen); [done|]. change (length aKWLen) with 148%nat. lia.
Qed.

Lemma kw_chain_ext fuel z z' n t : (forall i, 0 < i -> kw_equal z n i = kw_equal z' n i) -> forall i,
  kw_chain fuel z n i t = kw_chain fuel z' n i t.
Proof.
  intros H. induction fuel as [|fuel IH]; intros i; cbn [kw_chain]; [done|]. case_decide as Hi; [|done].
  rewrite (H i Hi). destruct (kw_equal z' n i) as [[]|]; cbn [mbind option_bind]; [done| |done].
  destruct (aKWNext !! Z.to_nat i); cbn [mbind option_bind]; [apply IH|done].
Qed.

(** Every chain ends. *)
Fixpoint chain_ends (fuel : nat) (i : Z) : bool :=
  if decide (0 < i) then
    match fuel, aKWNext !! Z.to_nat i with
    | S fuel, Some next => bool_decide (i < 148) && chain_ends fuel next
    | _, _ => false
    end
  else true.

Lemma chains_end h : 0 <= h < 127 -> exists i, aKWHash !! Z.to_nat h = Some i /\ chain_ends 148 i = true.
Proof.
  intros Hh. assert (H : Forall (fun i => chain_ends 148 i = true) aKWHash).
  { apply (bool_decide_unpack _). vm_compute. exact I. }
  destruct (lookup_lt_is_Some_2 aKWHash (Z.to_nat h)) as [i E]; [change (length aKWHash) with 127%nat; lia|].
  exists i. split; [done|]. rewrite Forall_forall in H. apply H. by apply list_elem_of_lookup_2 in E.
Qed.

Lemma kw_chain_no fuel z n t : (forall i, 0 < i < 148 -> kw_equal z n i = Some false) -> forall i,
  chain_ends fuel i = true -> kw_chain fuel z n i t = Some t.
Proof.
  intros H. induction fuel as [|fuel IH]; intros i; cbn [kw_chain chain_ends]; (case_decide as Hi; [|done]); [done|].
  destruct (aKWNext !! Z.to_nat i) as [next|]; [|done]. intros [Hlt%bool_decide_eq_true He]%andb_true_iff.
  rewrite (H i) by lia. cbn [mbind option_bind]. by apply IH.
Qed.

(** The tables find every keyword. *)
Lemma keywords_found : forall k e, keywords !! k = Some e ->
  keywordCode (str_bytes e.1) (length (str_bytes e.1)) TK_ID = Some e.2.
Proof.
  assert (H : Forall (fun e => keywordCode (str_bytes e.1) (length (str_bytes e.1)) TK_ID = Some e.2) keywords).
  { apply (bool_decide_unpack _). vm_compute. exact I. }
  intros k e E. rewrite Forall_forall in H. apply H. by apply list_elem_of_lookup_2 in E.
Qed.

Lemma kw_hash_range z0 zl n : 0 <= kw_hash z0 zl n < 127.
Proof. unfold kw_hash. apply Z.mod_pos_bound. lia. Qed.

Lemma keyword_index i : 0 < i < 148 -> exists k e, i = Z.of_nat (S k) /\ keywords !! k = Some e.
Proof.
  intros Hi. destruct (lookup_lt_is_Some_2 keywords (Z.to_nat (i - 1))) as [e E];
    [change (length keywords) with 147%nat; lia|]. exists (Z.to_nat (i - 1)), e. split; [lia|done].
Qed.

(** The first and the last character, which the hash is made of. *)
Lemma ends_of (w rest : bytes) : (1 <= length w)%nat -> exists a b,
  (w ++ rest) !! 0%nat = Some a /\ (w ++ rest) !! (length w - 1)%nat = Some b /\
  w !! 0%nat = Some a /\ w !! (length w - 1)%nat = Some b.
Proof.
  intros Hl. destruct (lookup_lt_is_Some_2 w 0) as [a Ha]; [lia|].
  destruct (lookup_lt_is_Some_2 w (length w - 1)) as [b Hb]; [lia|].
  exists a, b. by rewrite !lookup_app_l by lia.
Qed.

Lemma charMap_kw c : kw_char c -> charMap c = UpperToLower c.
Proof. intros Hc. unfold charMap, wrapu. change (2 ^ 8) with 256. rewrite Z.mod_small; [done|unfold kw_char in Hc; lia]. Qed.

Lemma keywordCode_ok w rest : Forall kw_char w -> (2 <= length w)%nat ->
  keywordCode (w ++ rest) (length w) TK_ID = Some (keyword_of w).
Proof.
  intros Hw Hl. unfold keyword_of.
  destruct (ends_of w rest ltac:(lia)) as (a & b & Ea & Eb & Ea' & Eb').
  pose proof (chains_end _ (kw_hash_range a b (length w))) as (i & Ei & Hend).
  destruct (list_find _ keywords) as [[k [name code]]|] eqn:Ef.
  - apply list_find_Some in Ef as (Hk & Hf & _). cbn [fst] in Hf.
    pose proof (keywords_found _ _ Hk) as Hcode. cbn [fst snd] in Hcode.
    destruct (entries_ok _ _ Hk) as (_ & _ & _ & _ & H2 & Hu). cbn [fst] in *.
    assert (Hname : Forall kw_char (str_bytes name)) by (eapply list.Forall_impl; [exact Hu|by intros ? []]).
    assert (Hlen : length (str_bytes name) = length w).
    { apply (f_equal length) in Hf. unfold fold_case in Hf. by rewrite !length_fmap in Hf. }
    rewrite <- Hcode. unfold keywordCode. rewrite !decide_False by lia. rewrite Hlen, Ea, Eb. cbn [mbind option_bind].
    assert (Hsame : forall j x, w !! j = Some x -> exists y, str_bytes name !! j = Some y /\ charMap y = charMap x).
    { intros j x Hj. destruct (lookup_lt_is_Some_2 (str_bytes name) j) as [y Hy];
        [rewrite Hlen; by apply lookup_lt_Some in Hj|]. exists y. split; [done|].
      rewrite !charMap_kw by (by eapply Forall_lookup_1; [|done]). apply (f_equal (lookup j)) in Hf.
      unfold fold_case in Hf. rewrite !list_lookup_fmap, Hj, Hy in Hf. by injection Hf. }
    destruct (Hsame _ _ Ea') as (a2 & -> & Ha2). destruct (Hsame _ _ Eb') as (b2 & -> & Hb2). cbn [mbind option_bind].
    unfold kw_hash at 2. rewrite Ha2, Hb2. fold (kw_hash a b (length w)). rewrite Ei. cbn [mbind option_bind].
    apply kw_chain_ext. intros j Hj. destruct (decide (j < 148)) as [Hlt|Hge]; [|by rewrite !kw_equal_out by lia].
    destruct (keyword_index j) as (k' & e' & -> & He'); [lia|]. rewrite kw_equal_ok with (e := e') by done.
    pose proof (kw_equal_ok (str_bytes name) [] k' e' Hname He') as E. rewrite app_nil_r, Hlen in E.
    by rewrite E, Hf.
  - unfold keywordCode. rewrite decide_False by lia. rewrite Ea, Eb. cbn [mbind option_bind]. rewrite Ei. cbn [mbind option_bind].
    apply kw_chain_no; [|done]. intros j Hj. destruct (keyword_index j Hj) as (k' & e' & -> & He').
    rewrite kw_equal_ok with (e := e') by done. f_equal. apply bool_decide_eq_false_2. intros E.
    apply list_find_None in Ef. rewrite Forall_forall in Ef. apply (Ef e'); [by apply list_elem_of_lookup_2 in He'|done].
Qed.

(** ** The interface to the keywords *)

(** [sqlite3_keyword_name] enumerates the list. *)
Lemma keyword_name_ok i e : keywords !! i = Some e ->
  exists z, sqlite3_keyword_name (Z.of_nat i) = Some (Some (z, Z.of_nat (length (str_bytes e.1)))) /\
  take (length (str_bytes e.1)) z = str_bytes e.1.
Proof.
  intros He. destruct (entries_ok i e He) as (Ht & _ & Hl & [off Ho] & _).
  assert (i < 147)%nat by (change 147%nat with (length keywords); by apply lookup_lt_Some in He).
  unfold sqlite3_keyword_name, SQLITE_N_KEYWORD. rewrite decide_False by lia.
  replace (Z.to_nat (Z.of_nat i + 1)) with (S i) by lia. rewrite Ho, Hl. cbn [mbind option_bind].
  eexists. split; [done|]. unfold kw_text in Ht. rewrite Nat2Z.id, Hl, Ho in Ht. cbn [default from_option] in Ht.
  unfold id in Ht. by rewrite Nat2Z.id in Ht.
Qed.

(** The comparison masks one bit, so a DEL passes for the underscore of
    [CURRENT_DATE] when the text does not come from the tokenizer. *)
Example keyword_check_del :
  sqlite3_keyword_check (str_bytes "CURRENT" ++ [127] ++ str_bytes "DATE") 12 = Some true.
Proof. vm_compute. reflexivity. Qed.
