(* ===== verification/SqlToken.v ===== *)
(** * Tokens of SQL text

    [sqlite/sqlite3.c] (tokenize.c): [sqlite3GetToken], which finds the next token
    of a statement, and what it makes of the statements [csv2db] prepares.

    A text in memory is the list of its bytes with the terminating NUL; reading past
    that is [None]. *)

From S2P Require Import Prelude Csv2db SqlText SqlKeyword.

(** ** Tables *)

Definition TK_SEMI : Z := 1.
Definition TK_LP : Z := 22.
Definition TK_RP : Z := 23.
Definition TK_COMMA : Z := 25.
Definition TK_NE : Z := 52.
Definition TK_EQ : Z := 53.
Definition TK_GT : Z := 54.
Definition TK_LE : Z := 55.
Definition TK_LT : Z := 56.
Definition TK_GE : Z := 57.
Definition TK_BITAND : Z := 102.
Definition TK_BITOR : Z := 103.
Definition TK_LSHIFT : Z := 104.
Definition TK_RSHIFT : Z := 105.
Definition TK_PLUS : Z := 106.
Definition TK_MINUS : Z := 107.
Definition TK_STAR : Z := 108.
Definition TK_SLASH : Z := 109.
Definition TK_REM : Z := 110.
Definition TK_CONCAT : Z := 111.
Definition TK_PTR : Z := 112.
Definition TK_BITNOT : Z := 114.
Definition TK_STRING : Z := 117.
Definition TK_DOT : Z := 141.
Definition TK_FLOAT : Z := 153.
Definition TK_BLOB : Z := 154.
Definition TK_INTEGER : Z := 155.
Definition TK_VARIABLE : Z := 156.
Definition TK_SPACE : Z := 183.
Definition TK_ILLEGAL : Z := 184.

Definition aiClass : list Z :=
  [29; 28; 28; 28; 28; 28; 28; 28; 28; 7; 7; 28; 7; 7; 28; 28;
    28; 28; 28; 28; 28; 28; 28; 28; 28; 28; 28; 28; 28; 28; 28; 28;
    7; 15; 8; 5; 4; 22; 24; 8; 17; 18; 21; 20; 23; 11; 26; 16;
    3; 3; 3; 3; 3; 3; 3; 3; 3; 3; 5; 19; 12; 14; 13; 6;
    5; 1; 1; 1; 1; 1; 1; 1; 1; 1; 1; 1; 1; 1; 1; 1;
    1; 1; 1; 1; 1; 1; 1; 1; 0; 2; 2; 9; 28; 28; 28; 2;
    8; 1; 1; 1; 1; 1; 1; 1; 1; 1; 1; 1; 1; 1; 1; 1;
    1; 1; 1; 1; 1; 1; 1; 1; 0; 2; 2; 28; 10; 28; 25; 28;
    27; 27; 27; 27; 27; 27; 27; 27; 27; 27; 27; 27; 27; 27; 27; 27;
    27; 27; 27; 27; 27; 27; 27; 27; 27; 27; 27; 27; 27; 27; 27; 27;
    27; 27; 27; 27; 27; 27; 27; 27; 27; 27; 27; 27; 27; 27; 27; 27;
    27; 27; 27; 27; 27; 27; 27; 27; 27; 27; 27; 27; 27; 27; 27; 27;
    27; 27; 27; 27; 27; 27; 27; 27; 27; 27; 27; 27; 27; 27; 27; 27;
    27; 27; 27; 27; 27; 27; 27; 27; 27; 27; 27; 27; 27; 27; 27; 27;
    27; 27; 27; 27; 27; 27; 27; 27; 27; 27; 27; 27; 27; 27; 27; 30;
    27; 27; 27; 27; 27; 27; 27; 27; 27; 27; 27; 27; 27; 27; 27; 27 ].


(** ** Scanning *)

Definition IdChar (c : Z) : bool := ctype 0x46 c.

Definition aiClass_of (c : Z) : Z := default 0 (aiClass !! Z.to_nat c).

(** [for(; f(z[i]); i++){}], [m] being the memory from [z[i]] on. *)
Fixpoint scan (f : Z -> bool) (m : bytes) (i : nat) : option nat :=
  match m with
  | c :: m => if f c then scan f m (S i) else Some i
  | [] => None
  end.

Definition scan_from (f : Z -> bool) (z : bytes) (i : nat) : option nat := scan f (drop i z) i.

(** [c && c!=d]. *)
Definition before (d c : Z) : bool := bool_decide (c <> 0 /\ c <> d).

(** The loops of comments, strings, [...] identifiers: the index and the last character. *)
Fixpoint comment_loop (m : bytes) (i : nat) (c : Z) : option (nat * Z) :=
  match m with
  | x :: m =>
      if decide (c = 42 /\ x = 47) then Some (i, c)
      else if decide (x = 0) then Some (i, 0) else comment_loop m (S i) x
  | [] => None
  end.

Fixpoint quote_loop (delim : Z) (m : bytes) (i : nat) : option (nat * Z) :=
  match m with
  | c :: m =>
      if decide (c = 0) then Some (i, 0)
      else if decide (c = delim) then
        match m with
        | d :: m => if decide (d = delim) then quote_loop delim m (S (S i)) else Some (i, c)
        | [] => None
        end
      else quote_loop delim m (S i)
  | [] => None
  end.

Fixpoint bracket_loop (m : bytes) (i : nat) (c : Z) : option (nat * Z) :=
  if decide (c = 93) then Some (i, c)
  else match m with
       | x :: m => if decide (x = 0) then Some (i, 0) else bracket_loop m (S i) x
       | [] => None
       end.

(** The suffix [(...)] of a variable. *)
Fixpoint tcl_loop (m : bytes) (i : nat) : option (nat * Z) :=
  match m with
  | c :: m => if decide (c <> 0 /\ sqlite3Isspace c = false /\ c <> 41) then tcl_loop m (S i) else Some (i, c)
  | [] => None
  end.

(** The loop of a variable: the end, the number of identifier characters and
    whether the suffix is not closed. *)
Fixpoint var_loop (m : bytes) (i n : nat) : option (nat * nat * bool) :=
  match m with
  | c :: m =>
      if decide (c = 0) then Some (i, n, false)
      else if IdChar c then var_loop m (S i) (S n)
      else if decide (c = 40 /\ (0 < n)%nat) then
        '(i, c) ← tcl_loop m (S i);
        Some (if decide (c = 41) then (S i, n, false) else (i, n, true))
      else if decide (c = 58) then
        match m with
        | d :: m => if decide (d = 58) then var_loop m (S (S i)) n else Some (i, n, false)
        | [] => None
        end
      else Some (i, n, false)
  | [] => None
  end.

(** ** Tokens with several characters: length and type *)

Abbreviation token := (option (nat * Z)).

(** [while( IdChar(z[i]) ){ i++; }] at the end of the function. *)
Definition token_id (z : bytes) (i : nat) : token := i ← scan_from IdChar z i; Some (i, TK_ID).

Definition token_minus (z : bytes) : token :=
  c ← z !! 1%nat;
  if decide (c = 45) then i ← scan_from (before 10) z 2; Some (i, TK_SPACE)
  else if decide (c = 62) then c ← z !! 2%nat; Some (if decide (c = 62) then 3%nat else 2%nat, TK_PTR)
  else Some (1%nat, TK_MINUS).

Definition token_slash (z : bytes) : token :=
  c1 ← z !! 1%nat;
  if decide (c1 <> 42) then Some (1%nat, TK_SLASH)
  else
    c ← z !! 2%nat;
    if decide (c = 0) then Some (1%nat, TK_SLASH)
    else '(i, c) ← comment_loop (drop 3 z) 3 c; Some (if decide (c <> 0) then S i else i, TK_SPACE).

Definition token_lt (z : bytes) : token :=
  c ← z !! 1%nat;
  Some (if decide (c = 61) then (2%nat, TK_LE)
        else if decide (c = 62) then (2%nat, TK_NE)
        else if decide (c = 60) then (2%nat, TK_LSHIFT)
        else (1%nat, TK_LT)).

Definition token_gt (z : bytes) : token :=
  c ← z !! 1%nat;
  Some (if decide (c = 61) then (2%nat, TK_GE) else if decide (c = 62) then (2%nat, TK_RSHIFT) else (1%nat, TK_GT)).

(** [!] and [|], which need a second character. *)
Definition token_two (z : bytes) (second one two : Z) : token :=
  c ← z !! 1%nat; Some (if decide (c <> second) then (1%nat, one) else (2%nat, two)).

Definition token_quote (z : bytes) (delim : Z) : token :=
  '(i, c) ← quote_loop delim (drop 1 z) 1;
  Some (if decide (c = 39) then (S i, TK_STRING) else if decide (c <> 0) then (S i, TK_ID) else (i, TK_ILLEGAL)).

Definition is_hex_literal (z : bytes) : option bool :=
  z0 ← z !! 0%nat;
  if decide (z0 <> 48) then Some false
  else
    z1 ← z !! 1%nat;
    if decide (z1 <> 120 /\ z1 <> 88) then Some false else z2 ← z !! 2%nat; Some (sqlite3Isxdigit z2).

Definition has_exponent (z : bytes) (i : nat) : option bool :=
  c ← z !! i;
  if decide (c <> 101 /\ c <> 69) then Some false
  else
    c1 ← z !! (i + 1)%nat;
    if sqlite3Isdigit c1 then Some true
    else if decide (c1 <> 43 /\ c1 <> 45) then Some false
    else c2 ← z !! (i + 2)%nat; Some (sqlite3Isdigit c2).

Definition token_number (z : bytes) : token :=
  hex ← is_hex_literal z;
  if hex : bool then i ← scan_from sqlite3Isxdigit z 3; Some (i, TK_INTEGER)
  else
    i ← scan_from sqlite3Isdigit z 0;
    c ← z !! i;
    '(i, t) ← (if decide (c = 46) then i ← scan_from sqlite3Isdigit z (S i); Some (i, TK_FLOAT)
               else Some (i, TK_INTEGER));
    e ← has_exponent z i;
    '(i, t) ← (if e : bool then i ← scan_from sqlite3Isdigit z (i + 2); Some (i, TK_FLOAT) else Some (i, t));
    j ← scan_from IdChar z i;
    Some (j, if decide (j = i) then t else TK_ILLEGAL).

Definition token_bracket (z : bytes) (c : Z) : token :=
  '(i, c) ← bracket_loop (drop 1 z) 1 c; Some (i, if decide (c = 93) then TK_ID else TK_ILLEGAL).

Definition token_variable (z : bytes) : token :=
  '(i, n, bad) ← var_loop (drop 1 z) 1 0;
  Some (i, if decide (bad = true \/ n = 0%nat) then TK_ILLEGAL else TK_VARIABLE).

Definition CC_KYWD : Z := 2.

Definition keyword_char (c : Z) : bool := bool_decide (aiClass_of c <= CC_KYWD).

Definition token_keyword (z : bytes) : token :=
  c ← z !! 1%nat;
  if decide (CC_KYWD < aiClass_of c) then token_id z 1
  else
    i ← scan_from keyword_char z 2;
    c ← z !! i;
    if IdChar c then token_id z (S i)
    else t ← keywordCode z i TK_ID; Some (i, t).

Definition token_blob (z : bytes) : token :=
  i ← scan_from sqlite3Isxdigit z 2;
  c ← z !! i;
  '(i, t) ← (if decide (c <> 39 \/ Nat.odd i = true) then
               i ← scan_from (before 39) z i; Some (i, TK_ILLEGAL)
             else Some (i, TK_BLOB));
  c ← z !! i;
  Some (if decide (c <> 0) then S i else i, t).

Definition sqlite3GetToken (z : bytes) : token :=
  z0 ← z !! 0%nat;
  match aiClass_of z0 with
  | 7 => i ← scan_from sqlite3Isspace z 1; Some (i, TK_SPACE)
  | 11 => token_minus z
  | 17 => Some (1%nat, TK_LP)
  | 18 => Some (1%nat, TK_RP)
  | 19 => Some (1%nat, TK_SEMI)
  | 20 => Some (1%nat, TK_PLUS)
  | 21 => Some (1%nat, TK_STAR)
  | 16 => token_slash z
  | 22 => Some (1%nat, TK_REM)
  | 14 => c ← z !! 1%nat; Some (if decide (c = 61) then 2%nat else 1%nat, TK_EQ)
  | 12 => token_lt z
  | 13 => token_gt z
  | 15 => token_two z 61 TK_ILLEGAL TK_NE
  | 10 => token_two z 124 TK_BITOR TK_CONCAT
  | 23 => Some (1%nat, TK_COMMA)
  | 24 => Some (1%nat, TK_BITAND)
  | 25 => Some (1%nat, TK_BITNOT)
  | 8 => token_quote z z0
  | 26 => c ← z !! 1%nat; if sqlite3Isdigit c then token_number z else Some (1%nat, TK_DOT)
  | 3 => token_number z
  | 9 => token_bracket z z0
  | 6 => i ← scan_from sqlite3Isdigit z 1; Some (i, TK_VARIABLE)
  | 4 | 5 => token_variable z
  | 1 => token_keyword z
  | 0 => c ← z !! 1%nat; if decide (c = 39) then token_blob z else token_id z 1
  | 2 | 27 => token_id z 1
  | 30 =>
      c1 ← z !! 1%nat;
      if decide (c1 <> 0xbb) then token_id z 1
      else c2 ← z !! 2%nat; if decide (c2 = 0xbf) then Some (3%nat, TK_SPACE) else token_id z 1
  | 29 => Some (0%nat, TK_ILLEGAL)
  | _ => Some (1%nat, TK_ILLEGAL)
  end.

(** ** Tokens: inside the text *)

(** The text in memory. *)
Definition in_memory (z : bytes) : bytes := z ++ [0].

Lemma before_0 d : before d 0 = false.
Proof. apply bool_decide_eq_false_2. naive_solver. Qed.

Lemma at_nul z i : str_ok z -> (i <= length z)%nat ->
  exists c, in_memory z !! i = Some c /\ (c <> 0 -> (i < length z)%nat) /\ 0 <= c < 256.
Proof.
  intros Hz Hi. unfold in_memory. destruct (decide (i < length z)%nat) as [Hlt|Hge].
  - destruct (lookup_lt_is_Some_2 z i Hlt) as [c E]. exists c. rewrite lookup_app_l by done.
    split; [done|]. split; [done|]. apply (Forall_lookup_1 _ _ _ _ Hz) in E. unfold char_ok in E. lia.
  - exists 0. assert (i = length z) as -> by lia. rewrite lookup_app_r, Nat.sub_diag by done. by repeat split.
Qed.

Lemma drop_memory z i : (i <= length z)%nat -> drop i (in_memory z) = in_memory (drop i z).
Proof. intros. unfold in_memory. by rewrite drop_app_le by lia. Qed.

Lemma str_ok_drop z i : str_ok z -> str_ok (drop i z).
Proof. apply Forall_drop. Qed.

(** The end of a loop that started at [i] with the text [s] left. *)
Definition ends_in (i : nat) (s : bytes) (j : nat) : Prop := (i <= j)%nat /\ (j <= i + length s)%nat.

Lemma scan_ends f s : f 0 = false -> forall i, exists j, scan f (in_memory s) i = Some j /\ ends_in i s j.
Proof.
  intros Hf. unfold ends_in, in_memory. induction s as [|c s IH]; intros i; cbn [app scan length].
  - exists i. rewrite Hf. split; [done|lia].
  - destruct (f c); [|exists i; split; [done|lia]]. destruct (IH (S i)) as (j & -> & H). exists j. split; [done|lia].
Qed.

Lemma comment_ends s : str_ok s -> forall i c, c <> 0 -> exists j c', comment_loop (in_memory s) i c = Some (j, c') /\
  ends_in i s j /\ (c' <> 0 -> (j < i + length s)%nat).
Proof.
  unfold ends_in, in_memory. induction 1 as [|x s Hx Hs IH]; intros i c Hc; cbn [app comment_loop length].
  - exists i, 0. rewrite decide_False by lia. rewrite decide_True by done. split; [done|]. split; [lia|done].
  - unfold char_ok in Hx. case_decide as E; [exists i, c; split; [done|lia]|]. rewrite decide_False by lia.
    destruct (IH (S i) x ltac:(lia)) as (j & c' & -> & H1 & H2). exists j, c'. split; [done|]. split; [lia|].
    intros Hc'. specialize (H2 Hc'). lia.
Qed.

Lemma quote_ends delim n : delim <> 0 -> forall s, (length s <= n)%nat -> str_ok s -> forall i, exists j c',
  quote_loop delim (in_memory s) i = Some (j, c') /\ ends_in i s j /\ (c' <> 0 -> (j < i + length s)%nat).
Proof.
  intros Hd. unfold ends_in, in_memory. induction n as [|n IH]; intros [|c s] Hn Hs i; cbn [length] in *; try lia;
    cbn [app quote_loop]; try (exists i, 0; split; [done|]; split; [lia|done]).
  apply Forall_cons in Hs as [Hc Hs]. unfold char_ok in Hc. rewrite decide_False by lia. case_decide as E.
  - destruct s as [|d s]; cbn [app].
    + exists i, c. rewrite decide_False by lia. split; [done|]. cbn [length]. lia.
    + case_decide as E2; [|exists i, c; split; [done|]; lia]. apply Forall_cons in Hs as [_ Hs]. cbn [length] in *.
      destruct (IH s ltac:(lia) Hs (S (S i))) as (j & c' & -> & H1 & H2). exists j, c'. split; [done|]. split; [lia|].
      intros Hc'. specialize (H2 Hc'). lia.
  - destruct (IH s ltac:(lia) Hs (S i)) as (j & c' & -> & H1 & H2). exists j, c'. split; [done|]. split; [lia|].
    intros Hc'. specialize (H2 Hc'). lia.
Qed.

Lemma bracket_ends s : str_ok s -> forall i c, exists j c', bracket_loop (in_memory s) i c = Some (j, c') /\ ends_in i s j.
Proof.
  unfold ends_in, in_memory. induction 1 as [|x s Hx Hs IH]; intros i c; cbn [app bracket_loop length].
  - case_decide; [exists i, c|exists i, 0]; (split; [done|lia]).
  - unfold char_ok in Hx. case_decide; [exists i, c; split; [done|lia]|]. rewrite decide_False by lia.
    destruct (IH (S i) x) as (j & c' & -> & Hj). exists j, c'. split; [done|lia].
Qed.

Lemma tcl_ends s : str_ok s -> forall i, exists j c', tcl_loop (in_memory s) i = Some (j, c') /\
  ends_in i s j /\ (c' <> 0 -> (j < i + length s)%nat).
Proof.
  unfold ends_in, in_memory. induction 1 as [|x s Hx Hs IH]; intros i; cbn [app tcl_loop length].
  - exists i, 0. rewrite decide_False by naive_solver. split; [done|]. split; [lia|done].
  - case_decide; [|exists i, x; split; [done|lia]].
    destruct (IH (S i)) as (j & c' & -> & Hj & H'). exists j, c'. split; [done|]. split; [lia|].
    intros Hc'. specialize (H' Hc'). lia.
Qed.

Lemma var_ends n : forall s, (length s <= n)%nat -> str_ok s -> forall i k, exists j k' bad,
  var_loop (in_memory s) i k = Some (j, k', bad) /\ ends_in i s j.
Proof.
  unfold ends_in, in_memory. induction n as [|n IH]; intros [|c s] Hn Hs i k; cbn [length] in *; try lia;
    cbn [app var_loop]; try (exists i, k, false; split; [done|lia]).
  apply Forall_cons in Hs as [Hc Hs]. unfold char_ok in Hc. rewrite decide_False by lia.
  destruct (IdChar c).
  { destruct (IH s ltac:(lia) Hs (S i) (S k)) as (j & k' & bad & -> & Hj). exists j, k', bad. split; [done|lia]. }
  case_decide as E1.
  { destruct (tcl_ends s Hs (S i)) as (j & c' & Ht & H & H'). unfold in_memory in Ht. rewrite Ht. cbn [mbind option_bind].
    case_decide as E2; [subst c'; specialize (H' ltac:(lia))|]; (eexists _, _, _; split; [done|unfold ends_in in *; lia]). }
  case_decide; [|exists i, k, false; split; [done|lia]].
  destruct s as [|d s]; cbn [app]; [exists i, k, false; rewrite decide_False by lia; split; [done|]; cbn [length]; lia|].
  case_decide; [|exists i, k, false; split; [done|]; lia]. apply Forall_cons in Hs as [_ Hs]. cbn [length] in *.
  destruct (IH s ltac:(lia) Hs (S (S i)) k) as (j & k' & bad & -> & Hj). exists j, k', bad. split; [done|lia].
Qed.

Lemma scan_from_ends f z i : f 0 = false -> (i <= length z)%nat -> exists j,
  scan_from f (in_memory z) i = Some j /\ (i <= j <= length z)%nat.
Proof.
  intros Hf Hi. unfold scan_from. rewrite drop_memory by done.
  destruct (scan_ends f (drop i z) Hf i) as (j & -> & H). exists j. split; [done|].
  unfold ends_in in H. rewrite length_drop in H. lia.
Qed.

(** A token of at least one byte that ends inside the text. *)
Definition token_ok (z : bytes) (r : token) : Prop := exists n t, r = Some (n, t) /\ (0 < n <= length z)%nat.

Lemma token_id_ok z i : (0 < i <= length z)%nat -> token_ok z (token_id (in_memory z) i).
Proof.
  intros Hi. unfold token_id. destruct (scan_from_ends IdChar z i eq_refl ltac:(lia)) as (j & -> & H).
  cbn [mbind option_bind]. exists j, TK_ID. split; [done|lia].
Qed.

(** Reads the character at a place that is known to be inside. *)
Ltac read_at z Hz i :=
  let c := fresh "c" in let H1 := fresh in let H2 := fresh in
  destruct (at_nul z i Hz) as (c & -> & H1 & H2); [lia|]; cbn [mbind option_bind].

(** Ends a case with the token at hand. *)
Ltac token_done := by (eexists _, _; split; [reflexivity|repeat case_decide; lia]).

Lemma token_minus_ok z : str_ok z -> (0 < length z)%nat -> token_ok z (token_minus (in_memory z)).
Proof.
  intros Hz Hl. unfold token_minus. read_at z Hz 1%nat. case_decide; [|case_decide].
  - destruct (scan_from_ends (before 10) z 2 (before_0 10)) as (j & -> & Hj); [lia|]. cbn [mbind option_bind]. token_done.
  - read_at z Hz 2%nat. token_done.
  - token_done.
Qed.

Lemma token_slash_ok z : str_ok z -> (0 < length z)%nat -> token_ok z (token_slash (in_memory z)).
Proof.
  intros Hz Hl. unfold token_slash. read_at z Hz 1%nat. case_decide; [token_done|]. read_at z Hz 2%nat.
  case_decide; [token_done|]. rewrite drop_memory by lia.
  destruct (comment_ends (drop 3 z) (str_ok_drop z 3 Hz) 3 c0) as (j & c' & -> & Hj & Hj'); [done|].
  unfold ends_in in *. rewrite length_drop in *. cbn [mbind option_bind]. case_decide; [|token_done].
  specialize (Hj' ltac:(done)). token_done.
Qed.

Lemma token_quote_ok z delim : str_ok z -> (0 < length z)%nat -> delim <> 0 -> token_ok z (token_quote (in_memory z) delim).
Proof.
  intros Hz Hl Hd. unfold token_quote. rewrite drop_memory by lia.
  destruct (quote_ends delim _ Hd (drop 1 z) (le_n _) (str_ok_drop z 1 Hz) 1) as (j & c' & -> & Hj & Hj').
  unfold ends_in in *. rewrite length_drop in *. cbn [mbind option_bind].
  case_decide; [|case_decide; [|token_done]]; specialize (Hj' ltac:(lia)); token_done.
Qed.

Lemma hex_literal_ok z : str_ok z -> (0 < length z)%nat -> exists b, is_hex_literal (in_memory z) = Some b /\
  (b = true -> (3 <= length z)%nat).
Proof.
  intros Hz Hl. unfold is_hex_literal. read_at z Hz 0%nat. case_decide; [by exists false|]. read_at z Hz 1%nat.
  case_decide; [by exists false|]. read_at z Hz 2%nat. eexists. split; [done|]. intros Hx.
  assert (c1 <> 0) by (intros ->; done). lia.
Qed.

Lemma exponent_ok z i : str_ok z -> (i <= length z)%nat -> exists b, has_exponent (in_memory z) i = Some b /\
  (b = true -> (i + 2 <= length z)%nat).
Proof.
  intros Hz Hi. unfold has_exponent. read_at z Hz i. case_decide; [by exists false|]. read_at z Hz (i + 1)%nat.
  destruct (sqlite3Isdigit c0) eqn:Ed.
  - exists true. split; [done|]. intros _. assert (c0 <> 0) by (intros ->; done). lia.
  - case_decide; [by exists false|]. read_at z Hz (i + 2)%nat. eexists. split; [done|]. lia.
Qed.

Lemma token_number_ok z c : str_ok z -> head z = Some c -> sqlite3Isdigit c = true \/ c = 46 ->
  token_ok z (token_number (in_memory z)).
Proof.
  intros Hz Hc Hd. destruct z as [|c0 z]; [done|]. injection Hc as ->. set (w := c :: z) in *.
  assert (Hl : (0 < length w)%nat) by (cbn; lia). unfold token_number.
  destruct (hex_literal_ok w Hz Hl) as ([] & -> & Hhex); cbn [mbind option_bind].
  { specialize (Hhex eq_refl). destruct (scan_from_ends sqlite3Isxdigit w 3 eq_refl Hhex) as (j & -> & Hj).
    cbn [mbind option_bind]. token_done. }
  destruct (scan_from_ends sqlite3Isdigit w 0 eq_refl ltac:(lia)) as (i & Ei & Hi). rewrite Ei. cbn [mbind option_bind].
  destruct (at_nul w i Hz) as (x & Ex & Hx & _); [lia|]. rewrite Ex. cbn [mbind option_bind].
  assert (exists i1 t, (if decide (x = 46) then i ← scan_from sqlite3Isdigit (in_memory w) (S i); Some (i, TK_FLOAT)
            else Some (i, TK_INTEGER)) = Some (i1, t) /\ (0 < i1 <= length w)%nat) as (i1 & t & -> & Hi1).
  { case_decide as E46.
    - specialize (Hx ltac:(lia)). destruct (scan_from_ends sqlite3Isdigit w (S i) eq_refl ltac:(lia)) as (j & -> & Hj).
      cbn [mbind option_bind]. eexists _, _. split; [done|lia].
    - eexists _, _. split; [done|]. split; [|lia]. destruct (decide (i = 0%nat)) as [->|]; [exfalso|lia].
      cbn in Ex. injection Ex as <-. destruct Hd as [Hd|]; [|done]. unfold scan_from in Ei. cbn in Ei.
      rewrite Hd in Ei. destruct (scan_ends sqlite3Isdigit z eq_refl 1) as (j & Ej & Hj). unfold in_memory in Ej.
      rewrite Ej in Ei. injection Ei as ->. unfold ends_in in Hj. lia. }
  cbn [mbind option_bind].
  destruct (exponent_ok w i1 Hz ltac:(lia)) as (b & -> & Hb). cbn [mbind option_bind].
  assert (exists i2 t2, (if b then i ← scan_from sqlite3Isdigit (in_memory w) (i1 + 2); Some (i, TK_FLOAT) else Some (i1, t))
            = Some (i2, t2) /\ (0 < i2 <= length w)%nat) as (i2 & t2 & -> & Hi2).
  { destruct b; [|by eexists _, _]. specialize (Hb eq_refl).
    destruct (scan_from_ends sqlite3Isdigit w (i1 + 2) eq_refl Hb) as (j & -> & Hj).
    cbn [mbind option_bind]. eexists _, _. split; [done|lia]. }
  cbn [mbind option_bind]. destruct (scan_from_ends IdChar w i2 eq_refl ltac:(lia)) as (j & -> & Hj).
  cbn [mbind option_bind]. token_done.
Qed.

Lemma scan_taken f m : forall i j, scan f m i = Some j -> (i <= j)%nat /\ Forall (fun c => f c = true) (take (j - i) m).
Proof.
  induction m as [|c m IH]; intros i j; cbn [scan]; [done|]. destruct (f c) eqn:Ef.
  - intros [Hle Hall]%IH. split; [lia|]. replace (j - i)%nat with (S (j - S i)) by lia. by constructor.
  - intros [= ->]. by rewrite Nat.sub_diag.
Qed.

Lemma keyword_char_kw c : 0 <= c < 256 -> keyword_char c = true <-> kw_char c.
Proof. revert c. apply bytes_forall. apply (bool_decide_unpack _). vm_compute. exact I. Qed.

(** What [keywordCode] is given: characters of keywords only. *)
Lemma keyword_run z i : str_ok z -> (2 <= length z)%nat -> keyword_char (default 0 (z !! 0%nat)) = true ->
  keyword_char (default 0 (z !! 1%nat)) = true -> scan_from keyword_char (in_memory z) 2 = Some i -> (i <= length z)%nat ->
  Forall kw_char (take i z) /\ (2 <= i)%nat.
Proof.
  intros Hz Hl H0 H1 Hs Hi. apply scan_taken in Hs as [Hle Hall]. split; [|done].
  rewrite drop_memory in Hall by done. unfold in_memory in Hall. rewrite take_app_le in Hall by (rewrite length_drop; lia).
  destruct z as [|a [|b z]]; cbn [length] in *; [lia|lia|]. destruct i as [|[|i]]; [lia|lia|].
  cbn [default lookup list_lookup from_option id drop take] in *. unfold id in *. replace (S (S i) - 2)%nat with i in Hall by lia.
  apply Forall_cons in Hz as [Ha Hz]. apply Forall_cons in Hz as [Hb Hz]. unfold char_ok in *.
  constructor; [apply keyword_char_kw; [lia|done]|]. constructor; [apply keyword_char_kw; [lia|done]|].
  rewrite ?drop_0 in Hall. apply (Forall_take _ i) in Hz. rewrite Forall_forall in Hz, Hall. apply Forall_forall.
  intros c Hc. apply keyword_char_kw; [|by apply Hall]. specialize (Hz _ Hc). lia.
Qed.

Lemma token_keyword_ok z : str_ok z -> (0 < length z)%nat -> keyword_char (default 0 (z !! 0%nat)) = true ->
  token_ok z (token_keyword (in_memory z)).
Proof.
  intros Hz Hl H0k. unfold token_keyword. destruct (at_nul z 1 Hz) as (c & Ec & H1 & H2); [lia|].
  rewrite Ec. cbn [mbind option_bind]. case_decide as Ek; [apply token_id_ok; lia|].
  assert (Hl2 : (2 <= length z)%nat).
  { assert (c <> 0); [|lia]. intros ->. apply Ek. vm_compute. done. }
  destruct (scan_from_ends keyword_char z 2 eq_refl Hl2) as (i & Ei & Hi). rewrite Ei. cbn [mbind option_bind].
  read_at z Hz i. destruct (IdChar c0) eqn:Eid.
  - assert (c0 <> 0) by (intros ->; done). apply token_id_ok. lia.
  - unfold in_memory in Ec. rewrite lookup_app_l in Ec by lia.
    destruct (keyword_run z i Hz Hl2 H0k) as [Hw Hi2]; [rewrite Ec; apply bool_decide_eq_true, Z.nlt_ge; exact Ek|done|lia|].
    pose proof (keywordCode_ok (take i z) (drop i z ++ [0]) Hw) as Hk. rewrite length_take_le, app_assoc, take_drop in Hk by lia.
    unfold in_memory. rewrite (Hk Hi2). cbn [mbind option_bind]. token_done.
Qed.

Lemma token_blob_ok z : str_ok z -> (2 <= length z)%nat -> token_ok z (token_blob (in_memory z)).
Proof.
  intros Hz Hl. unfold token_blob.
  destruct (scan_from_ends sqlite3Isxdigit z 2 eq_refl Hl) as (i & -> & Hi). cbn [mbind option_bind]. read_at z Hz i.
  assert (exists j t, (if decide (c <> 39 \/ Nat.odd i = true) then
      i ← scan_from (before 39) (in_memory z) i; Some (i, TK_ILLEGAL) else Some (i, TK_BLOB)) = Some (j, t) /\
      (0 < j <= length z)%nat) as (j & t & -> & Hj).
  { case_decide; [|eexists _, _; split; [done|lia]].
    destruct (scan_from_ends (before 39) z i (before_0 39) ltac:(lia)) as (j & -> & Hj). cbn [mbind option_bind].
    eexists _, _. split; [done|lia]. }
  cbn [mbind option_bind]. read_at z Hz j. token_done.
Qed.

Lemma class_of_byte c : 0 <= c < 256 ->
  (aiClass_of c = 29 <-> c = 0) /\ (aiClass_of c = 3 -> sqlite3Isdigit c = true) /\ (aiClass_of c = 26 -> c = 46) /\
  (aiClass_of c = 1 -> keyword_char c = true) /\ 0 <= aiClass_of c <= 30.
Proof. revert c. apply bytes_forall. apply (bool_decide_unpack _). vm_compute. exact I. Qed.

Lemma token_scan_ok f z t : f 0 = false -> (0 < length z)%nat -> token_ok z (i ← scan_from f (in_memory z) 1; Some (i, t)).
Proof.
  intros Hf Hl. destruct (scan_from_ends f z 1 Hf ltac:(lia)) as (j & -> & Hj). cbn [mbind option_bind]. token_done.
Qed.

Lemma token_variable_ok z : str_ok z -> (0 < length z)%nat -> token_ok z (token_variable (in_memory z)).
Proof.
  intros Hz Hl. unfold token_variable. rewrite drop_memory by lia.
  destruct (var_ends _ (drop 1 z) (le_n _) (str_ok_drop z 1 Hz) 1 0) as (j & k & bad & -> & Hj).
  unfold ends_in in Hj. rewrite length_drop in Hj. cbn [mbind option_bind]. token_done.
Qed.

Lemma token_bracket_ok z c : str_ok z -> (0 < length z)%nat -> token_ok z (token_bracket (in_memory z) c).
Proof.
  intros Hz Hl. unfold token_bracket. rewrite drop_memory by lia.
  destruct (bracket_ends (drop 1 z) (str_ok_drop z 1 Hz) 1 c) as (j & c' & -> & Hj).
  unfold ends_in in Hj. rewrite length_drop in Hj. cbn [mbind option_bind]. token_done.
Qed.

(** The operators of one or two characters: a second one that is not NUL is in the text. *)
Lemma token_operator_ok z (f : Z -> nat * Z) : str_ok z -> (0 < length z)%nat ->
  (forall c, (0 < (f c).1)%nat /\ ((f c).1 <= 2)%nat /\ (c = 0 -> (f c).1 = 1%nat)) ->
  token_ok z (c ← in_memory z !! 1%nat; Some (f c)).
Proof.
  intros Hz Hl Hf. read_at z Hz 1%nat. destruct (Hf c) as (? & ? & Hc). destruct (f c) as [n t]. cbn [fst] in *.
  exists n, t. split; [done|]. destruct (decide (c = 0)) as [->|]; [specialize (Hc eq_refl)|]; lia.
Qed.

Lemma get_token_ok z : str_ok z -> z <> [] -> token_ok z (sqlite3GetToken (in_memory z)).
Proof.
  intros Hz Hne. destruct z as [|c z]; [done|]. set (w := c :: z) in *.
  assert (Hl : (0 < length w)%nat) by (cbn; lia). assert (Hc : char_ok c) by (by apply Forall_cons in Hz as [? _]).
  unfold char_ok in Hc. unfold sqlite3GetToken. change (in_memory w !! 0%nat) with (Some c). cbn [mbind option_bind].
  destruct (class_of_byte c ltac:(lia)) as (H29 & H3 & H26 & H1 & Hr).
  assert (aiClass_of c <> 29) by naive_solver lia. remember (aiClass_of c) as k eqn:Ek.
  assert (k = 0 \/ k = 1 \/ k = 2 \/ k = 3 \/ k = 4 \/ k = 5 \/ k = 6 \/ k = 7 \/ k = 8 \/ k = 9 \/ k = 10 \/ k = 11 \/ k = 12 \/
    k = 13 \/ k = 14 \/ k = 15 \/ k = 16 \/ k = 17 \/ k = 18 \/ k = 19 \/ k = 20 \/ k = 21 \/ k = 22 \/ k = 23 \/ k = 24 \/
    k = 25 \/ k = 26 \/ k = 27 \/ k = 28 \/ k = 30) as Hk by lia.
  destruct_or! Hk; subst k; rewrite Hk; try token_done; try (apply token_id_ok; lia).
  - read_at w Hz 1%nat. case_decide; [apply token_blob_ok; [done|lia]|apply token_id_ok; lia].
  - apply token_keyword_ok; [done|done|]. by apply H1.
  - by apply (token_number_ok w c); auto.
  - by apply token_variable_ok.
  - by apply token_variable_ok.
  - by apply token_scan_ok.
  - by apply token_scan_ok.
  - apply token_quote_ok; [done|done|lia].
  - by apply token_bracket_ok.
  - apply (token_operator_ok w (fun c => if decide (c <> 124) then (1%nat, TK_BITOR) else (2%nat, TK_CONCAT))); [done|done|].
    intros x. case_decide; cbn; lia.
  - by apply token_minus_ok.
  - apply (token_operator_ok w (fun c => if decide (c = 61) then (2%nat, TK_LE) else if decide (c = 62) then (2%nat, TK_NE)
      else if decide (c = 60) then (2%nat, TK_LSHIFT) else (1%nat, TK_LT))); [done|done|].
    intros x. repeat case_decide; cbn; lia.
  - apply (token_operator_ok w (fun c => if decide (c = 61) then (2%nat, TK_GE) else if decide (c = 62) then (2%nat, TK_RSHIFT)
      else (1%nat, TK_GT))); [done|done|]. intros x. repeat case_decide; cbn; lia.
  - apply (token_operator_ok w (fun c => (if decide (c = 61) then 2%nat else 1%nat, TK_EQ))); [done|done|].
    intros x. cbn. case_decide; lia.
  - apply (token_operator_ok w (fun c => if decide (c <> 61) then (1%nat, TK_ILLEGAL) else (2%nat, TK_NE))); [done|done|].
    intros x. case_decide; cbn; lia.
  - by apply token_slash_ok.
  - read_at w Hz 1%nat. destruct (sqlite3Isdigit c0); [|token_done].
    apply (token_number_ok w c); [done|done|]. right. by apply H26.
  - read_at w Hz 1%nat. case_decide; [apply token_id_ok; lia|]. read_at w Hz 2%nat.
    case_decide; [token_done|apply token_id_ok; lia].
Qed.

(** ** The tokens of a text *)

(** Token after token until the NUL, as [sqlite3RunParser] asks for them. *)
Fixpoint tokens (fuel : nat) (z : bytes) : option (list (bytes * Z)) :=
  match z, fuel with
  | [], _ => Some []
  | _, O => None
  | _, S fuel =>
      '(n, t) ← sqlite3GetToken (in_memory z);
      l ← tokens fuel (drop n z);
      Some ((take n z, t) :: l)
  end.

Lemma tokens_ok fuel : forall z, str_ok z -> (length z <= fuel)%nat ->
  exists l, tokens fuel z = Some l /\ concat l.*1 = z /\ Forall (fun p => p.1 <> []) l.
Proof.
  induction fuel as [|fuel IH]; intros [|c z] Hz Hf; cbn [length] in *; try lia; try by eexists.
  destruct (get_token_ok _ Hz ltac:(done)) as (n & t & En & Hn). cbn [tokens]. rewrite En. cbn [mbind option_bind].
  destruct (IH (drop n (c :: z))) as (l & -> & Hc & Hall);
    [by apply str_ok_drop|rewrite length_drop; cbn [length] in *; lia|]. cbn [mbind option_bind].
  eexists. split; [done|]. split.
  - rewrite fmap_cons. cbn [fst concat]. rewrite Hc. apply take_drop.
  - constructor; [|done]. cbn [fst]. intros E. apply (f_equal length) in E. rewrite length_take in E. cbn [length] in *. lia.
Qed.

(** C30: [sqlite3GetToken], asked again and again as the parser does, splits every C
    string into non-empty tokens that put together are the string: it makes progress,
    terminates, and neither it nor the keyword tables are read out of
    bounds, the text never past its NUL. *)
Theorem tokens_partition_text z : str_ok z ->
  exists l, tokens (length z) z = Some l /\ concat l.*1 = z /\ Forall (fun p => p.1 <> []) l.
Proof. intros Hz. by apply tokens_ok. Qed.

Lemma tokens_partition_text_witness : exists l,
  tokens 13 (str_bytes "a>=.5e+--'x'%" ) = Some l /\ concat l.*1 = str_bytes "a>=.5e+--'x'%" /\ Forall (fun p => p.1 <> []) l.
Proof. apply (tokens_partition_text (str_bytes "a>=.5e+--'x'%")). apply (bool_decide_unpack _). vm_compute. exact I. Defined.

(** ** Words *)

(** What an identifier starts with; the first byte of a byte-order mark is
    left out. *)
Definition word_start (c : Z) : Prop := kw_char c \/ (128 <= c < 256 /\ c <> 239).

#[export] Instance word_start_dec c : Decision (word_start c).
Proof. unfold word_start. apply _. Defined.

Definition word_ok (w : bytes) : Prop :=
  match w with c :: _ => word_start c | [] => False end /\ Forall (fun c => char_ok c /\ IdChar c = true) w.

#[export] Instance word_ok_dec w : Decision (word_ok w).
Proof. destruct w; unfold word_ok, char_ok; apply _. Defined.

Lemma word_class c : 0 <= c < 256 -> word_start c ->
  aiClass_of c = 0 \/ aiClass_of c = 1 \/ aiClass_of c = 2 \/ aiClass_of c = 27.
Proof. revert c. apply (bytes_forall (fun c => word_start c -> _)). apply (bool_decide_unpack _). vm_compute. exact I. Qed.

Lemma kw_char_class c : 0 <= c < 256 -> kw_char c -> aiClass_of c <= 2 /\ IdChar c = true.
Proof. revert c. apply (bytes_forall (fun c => kw_char c -> _)). apply (bool_decide_unpack _). vm_compute. exact I. Qed.

Lemma scan_run f w d m : Forall (fun c => f c = true) w -> f d = false -> forall i, scan f (w ++ d :: m) i = Some (i + length w)%nat.
Proof.
  intros Hw Hd. induction Hw as [|c w Hc Hw IH]; intros i; cbn [app scan length].
  - rewrite Hd. f_equal. lia.
  - rewrite Hc, IH. f_equal. lia.
Qed.

Lemma token_id_word w d m i : Forall (fun c => IdChar c = true) w -> IdChar d = false -> (i <= length w)%nat ->
  token_id (w ++ d :: m) i = Some (length w, TK_ID).
Proof.
  intros Hw Hd Hi. unfold token_id, scan_from. rewrite drop_app_le by done.
  rewrite scan_run by (done || by apply Forall_drop). cbn [mbind option_bind]. rewrite length_drop. do 2 f_equal. lia.
Qed.

(** No keyword has a character that is not of keywords, less than two, or an
    initial of class [CC_X] or [CC_KYWD]. *)
Lemma keyword_of_other w : Forall char_ok w ->
  ~ Forall kw_char w \/ (length w < 2)%nat \/ match w with c :: _ => aiClass_of c <> 1 | [] => True end ->
  keyword_of w = TK_ID.
Proof.
  intros Hw Hno. unfold keyword_of. destruct (list_find _ keywords) as [[k [name code]]|] eqn:Ef; [exfalso|done].
  apply list_find_Some in Ef as (Hk & Hf & _). cbn [fst] in Hf.
  assert (H1 : Forall (fun e : string * Z => aiClass_of (default 0 (head (str_bytes e.1))) = 1 /\ aiClass_of (default 0 (head (str_bytes e.1)) + 32) = 1) keywords).
  { apply (bool_decide_unpack _). vm_compute. exact I. }
  destruct (entries_ok _ _ Hk) as (_ & _ & _ & _ & H2 & Hu). cbn [fst] in *.
  assert (Hlen : length w = length (str_bytes name)).
  { apply (f_equal length) in Hf. unfold fold_case in Hf. by rewrite !length_fmap in Hf. }
  assert (Hall : forall j c, w !! j = Some c -> exists d, str_bytes name !! j = Some d /\ kw_char d /\ kw_char c /\ up d = d /\ up c = d).
  { intros j c Hj. destruct (lookup_lt_is_Some_2 (str_bytes name) j) as [d Hd];
      [rewrite <- Hlen; by apply lookup_lt_Some in Hj|]. exists d. split; [done|].
    pose proof (Forall_lookup_1 _ _ _ _ Hu Hd) as [Hkd Hud]. split; [done|].
    pose proof (Forall_lookup_1 _ _ _ _ Hw Hj) as Hc. unfold char_ok in Hc.
    apply (f_equal (lookup j)) in Hf. unfold fold_case in Hf. rewrite !list_lookup_fmap, Hj, Hd in Hf. injection Hf as Hf.
    destruct (fold_kw c d Hkd Hc) as [Hkc E]; [done|]. split; [done|]. split; [done|congruence]. }
  destruct Hno as [Hno|[Hno|Hno]].
  - apply Hno. apply Forall_lookup. intros j c (d & _ & _ & ? & _)%Hall. done.
  - lia.
  - destruct w as [|c w]; [cbn in Hlen; lia|]. destruct (Hall 0%nat c eq_refl) as (d & Hd & Hkd & Hkc & Hud & Huc).
    rewrite Forall_forall in H1. specialize (H1 _ (list_elem_of_lookup_2 _ _ _ Hk)). cbn [fst] in H1.
    destruct (str_bytes name) as [|d' nm]; [done|]. injection Hd as ->. destruct H1 as [H11 H12]. apply Hno.
    rewrite up_kw in Huc by done. unfold to_upper in Huc. case_decide; subst; [|done].
    replace c with (c - 32 + 32) by lia. done.
Qed.

Lemma word_parts w : word_ok w -> exists c w', w = c :: w' /\ word_start c /\ str_ok w /\ Forall (fun c => IdChar c = true) w.
Proof.
  intros [Hs Hall]. destruct w as [|c w]; [done|]. exists c, w. split; [done|]. split; [done|].
  split; (eapply list.Forall_impl; [exact Hall|by intros ? []]).
Qed.

(** The longest run of characters with a property. *)
Lemma run_of (f : Z -> bool) l : exists r s, l = r ++ s /\ Forall (fun c => f c = true) r /\ match s with x :: _ => f x = false | [] => True end.
Proof.
  induction l as [|c l (r & s & -> & Hr & Hs)]; [by exists [], []|]. destruct (f c) eqn:Ef.
  - exists (c :: r), s. split; [done|]. split; [by constructor|done].
  - by exists [], (c :: r ++ s).
Qed.

(** What follows a word that begins like a keyword. *)
Lemma token_keyword_word w d m : word_ok w -> IdChar d = false -> 0 <= d < 256 ->
  aiClass_of (default 0 (head w)) = 1 -> token_keyword (w ++ d :: m) = Some (length w, keyword_of w).
Proof.
  intros Hw Hd Hdr H1. destruct (word_parts w Hw) as (c & w' & -> & Hs & Hok & Hid). cbn [head default from_option id] in H1. unfold id in H1.
  unfold token_keyword. destruct w' as [|c1 w']; cbn [app lookup list_lookup mbind option_bind].
  - rewrite decide_True.
    + change (c :: d :: m) with ([c] ++ d :: m). rewrite token_id_word by (done || cbn; lia).
      rewrite keyword_of_other; [done|done|]. right. left. cbn. lia.
    + destruct (decide (CC_KYWD < aiClass_of d)); [done|]. exfalso.
      apply not_true_iff_false in Hd. apply Hd. apply kw_char_class; [lia|]. apply keyword_char_kw; [lia|].
      apply bool_decide_eq_true. lia.
  - pose proof Hok as [_ [Hc1 Hw']%Forall_cons]%Forall_cons. unfold char_ok in Hc1.
    destruct (decide (CC_KYWD < aiClass_of c1)) as [Hk|Hk].
    + change (c :: c1 :: w' ++ d :: m) with ((c :: c1 :: w') ++ d :: m). rewrite token_id_word by (done || cbn; lia).
      rewrite keyword_of_other; [done|done|]. left. intros [_ [Hkc _]%Forall_cons]%Forall_cons.
      destruct (kw_char_class c1 ltac:(lia) Hkc) as [Hle _]. unfold CC_KYWD in Hk. lia.
    + destruct (run_of keyword_char w') as (r & s & -> & Hr & Hs').
      assert (Hkw : Forall kw_char (c :: c1 :: r)).
      { apply Forall_cons in Hok as [Hc _]. unfold char_ok in Hc. apply Forall_app in Hw' as [Hr' _].
        constructor; [apply keyword_char_kw; [lia|]; apply bool_decide_eq_true; rewrite H1; done|].
        constructor; [apply keyword_char_kw; [lia|]; apply bool_decide_eq_true; lia|].
        rewrite Forall_forall in Hr, Hr' |- *. intros x Hx. specialize (Hr' x Hx). unfold char_ok in Hr'.
        apply keyword_char_kw; [lia|by apply Hr]. }
      assert (Hscan : forall x m', keyword_char x = false ->
                scan_from keyword_char (c :: c1 :: r ++ x :: m') 2 = Some (length (c :: c1 :: r))).
      { intros x m' Hx. unfold scan_from. cbn [drop]. rewrite ?drop_0. rewrite scan_run by done. done. }
      destruct s as [|x s].
      * rewrite app_nil_r in *. rewrite (Hscan d m).
        -- cbn [mbind option_bind]. change (c :: c1 :: r ++ d :: m) with ((c :: c1 :: r) ++ d :: m).
           rewrite list_lookup_middle by done. cbn [mbind option_bind]. rewrite Hd.
           rewrite keywordCode_ok by (done || cbn; lia). done.
        -- apply not_true_iff_false. intros Hkd. apply keyword_char_kw in Hkd; [|done].
           destruct (kw_char_class d Hdr Hkd) as [_ E]. congruence.
      * rewrite <- app_assoc. cbn [app]. rewrite (Hscan x (s ++ d :: m) Hs'). cbn [mbind option_bind].
        change (c :: c1 :: r ++ x :: s ++ d :: m) with ((c :: c1 :: r) ++ x :: s ++ d :: m).
        rewrite list_lookup_middle by done. cbn [mbind option_bind].
        assert (IdChar x = true) as -> by (by apply (Forall_app _ (c :: c1 :: r) (x :: s)) in Hid as [_ [? _]%Forall_cons]).
        replace ((c :: c1 :: r) ++ x :: s ++ d :: m) with ((c :: c1 :: r ++ x :: s) ++ d :: m)
          by (cbn [app]; by rewrite <- app_assoc).
        rewrite token_id_word; [|done|done|cbn [length]; rewrite length_app; cbn [length]; lia].
        rewrite keyword_of_other; [done|done|]. left. intros Hall. apply Forall_app in Hw' as [_ [Hx _]%Forall_cons].
        unfold char_ok in Hx. change (c :: c1 :: r ++ x :: s) with ((c :: c1 :: r) ++ x :: s) in Hall.
        apply Forall_app in Hall as [_ [Hkx _]%Forall_cons]. apply keyword_char_kw in Hkx; [congruence|lia].
Qed.

(** C29: A word, that is a run of identifier characters that starts with a letter, an
    underscore or a byte of a non-ASCII character, is one token; its type is the
    code of the keyword it is, in any case, and [TK_ID] when it is none.  The
    exception is the [x] of a blob literal. *)
Theorem words_are_keywords_or_ids w d m : word_ok w -> IdChar d = false -> 0 <= d < 256 ->
  ~ (length w = 1%nat /\ aiClass_of (default 0 (head w)) = 0 /\ d = 39) ->
  sqlite3GetToken (w ++ d :: m) = Some (length w, keyword_of w).
Proof.
  intros Hw Hd Hdr Hx. destruct (word_parts w Hw) as (c & w' & -> & Hs & Hok & Hid).
  assert (Hc : char_ok c) by (by apply Forall_cons in Hok as [? _]). unfold char_ok in Hc.
  unfold sqlite3GetToken. change (((c :: w') ++ d :: m) !! 0%nat) with (Some c). cbn [mbind option_bind].
  assert (Hother : aiClass_of c <> 1 -> token_id ((c :: w') ++ d :: m) 1 = Some (length (c :: w'), keyword_of (c :: w'))).
  { intros Hn. rewrite token_id_word by (done || cbn; lia). rewrite keyword_of_other; [done|done|]. by right; right. }
  destruct (word_class c ltac:(lia) Hs) as [E|[E|[E|E]]]; rewrite E.
  - assert (exists c1, ((c :: w') ++ d :: m) !! 1%nat = Some c1 /\ c1 <> 39) as (c1 & -> & Hc1).
    { destruct w' as [|c1 w']; cbn.
      - exists d. split; [done|]. intros ->. by apply Hx.
      - exists c1. split; [done|]. intros ->. apply Forall_cons in Hid as [_ [? _]%Forall_cons]. done. }
    cbn [mbind option_bind]. rewrite decide_False by done. apply Hother. lia.
  - by apply token_keyword_word.
  - apply Hother. lia.
  - apply Hother. lia.
Qed.

Lemma words_are_keywords_or_ids_witness :
  sqlite3GetToken (str_bytes "Timeline" ++ 40 :: [0]) = Some (8%nat, TK_ID) /\
  sqlite3GetToken (str_bytes "vAlueS" ++ 40 :: [0]) = Some (6%nat, 139).
Proof.
  split.
  - apply (words_are_keywords_or_ids (str_bytes "Timeline") 40 [0]).
    + apply (bool_decide_unpack _). vm_compute. exact I.
    + reflexivity.
    + lia.
    + intros [? _]. done.
  - apply (words_are_keywords_or_ids (str_bytes "vAlueS") 40 [0]).
    + apply (bool_decide_unpack _). vm_compute. exact I.
    + reflexivity.
    + lia.
    + intros [? _]. done.
Defined.

(** ** Quoted text *)

(** A text between two quotes, with the quotes in it doubled. *)
Definition quoted (delim : Z) (s : bytes) : bytes :=
  delim :: (s ≫= fun c => if decide (c = delim) then [c; c] else [c]) ++ [delim].

Lemma quote_loop_quoted delim s d m : delim <> 0 -> d <> delim -> str_ok s -> forall i,
  quote_loop delim ((s ≫= fun c => if decide (c = delim) then [c; c] else [c]) ++ delim :: d :: m) i
  = Some ((i + length (s ≫= fun c => if decide (c = delim) then [c; c] else [c]))%nat, delim).
Proof.
  intros Hd Hne. induction 1 as [|c s Hc Hs IH]; intros i; cbn [mbind list_bind app length quote_loop].
  - rewrite decide_False by done. rewrite decide_True by done. rewrite decide_False by done. do 2 f_equal. lia.
  - unfold char_ok in Hc. destruct (decide (c = delim)) as [E|E]; cbn [app length quote_loop].
    + rewrite decide_False by lia. rewrite !decide_True by done. rewrite IH. do 2 f_equal. lia.
    + rewrite decide_False by lia. rewrite decide_False by done. rewrite IH. do 2 f_equal. lia.
Qed.

(** C31: A text without NUL put between quotes, with the quotes in it doubled, is read
    back as one token of exactly that length: a string literal for single quotes, an
    identifier for the others. *)
Theorem quoted_text_is_one_token delim s d m :
  delim = 39 \/ delim = 34 \/ delim = 96 -> d <> delim -> str_ok s ->
  sqlite3GetToken (quoted delim s ++ d :: m) = Some (length (quoted delim s), if decide (delim = 39) then TK_STRING else TK_ID).
Proof.
  intros Hdel Hd Hs. unfold quoted, sqlite3GetToken. cbn [app lookup list_lookup mbind option_bind].
  assert (aiClass_of delim = 8) as -> by (by destruct Hdel as [->|[->| ->]]).
  unfold token_quote. cbn [drop]. rewrite drop_0, <- app_assoc. cbn [app].
  rewrite quote_loop_quoted by (done || lia). cbn [mbind option_bind length]. rewrite length_app. cbn [length].
  case_decide; [|rewrite decide_True by lia]; do 2 f_equal; lia.
Qed.

Lemma quoted_text_is_one_token_witness :
  sqlite3GetToken (quoted 39 (str_bytes "it's") ++ 41 :: [0]) = Some (7%nat, TK_STRING).
Proof.
  apply (quoted_text_is_one_token 39 (str_bytes "it's") 41 [0]); [by left|done|].
  apply (bool_decide_unpack _). vm_compute. exact I.
Defined.

(** ** The statements of [csv2db] *)

Fixpoint after_token (t : Z) (l : list (bytes * Z)) : list (bytes * Z) :=
  match l with
  | [] => []
  | p :: l => if decide (p.2 = t) then l else after_token t l
  end.

Fixpoint until_token (t : Z) (l : list (bytes * Z)) : list (bytes * Z) :=
  match l with
  | [] => []
  | p :: l => if decide (p.2 = t) then [] else p :: until_token t l
  end.

(** The column names and the number of parameters of an [INSERT], as its tokens
    have them; [None] when a token is illegal. *)
Definition insert_tokens (sql : string) : option (list (bytes * Z) * nat) :=
  l ← tokens (length (str_bytes sql)) (str_bytes sql);
  if decide (Forall (fun p => p.2 <> TK_ILLEGAL) l) then
    Some (filter (fun p => p.2 <> TK_SPACE /\ p.2 <> TK_COMMA) (until_token TK_RP (after_token TK_LP l)),
          length (filter (fun p => p.2 = TK_VARIABLE) l))
  else None.

(** The columns and placeholders [Csv2db] finds in the statements of the program are those the
    library's tokenizer finds; no column name is a keyword. *)
Lemma csv2db_statements_lex ld : ld ∈ loaders ->
  let sql := insert_sql (ld_prefix ld) in
  insert_tokens sql = Some ((fun c => (str_bytes c, TK_ID)) <$> insert_columns sql, placeholders sql).
Proof.
  assert (H : Forall (fun ld => insert_tokens (insert_sql (ld_prefix ld)) =
      Some ((fun c => (str_bytes c, TK_ID)) <$> insert_columns (insert_sql (ld_prefix ld)), placeholders (insert_sql (ld_prefix ld)))) loaders).
  { unfold loaders. repeat constructor; vm_compute; reflexivity. }
  intros Hld. rewrite Forall_forall in H. by apply H.
Qed.
