(* ===== verification/SqlCompare.v ===== *)
(** * Comparison of records

    [sqlite/sqlite3.c] (vdbeaux.c): the comparison of a stored record with the values
    of a key, by which every search in an index and every sorter orders its rows:
    [sqlite3VdbeRecordCompareWithSkip] on the bytes of the record, its two fast forms
    for keys that begin with an integer or a string, and [sqlite3MemCompare] on
    values.

    Collations are functions on the bytes of two strings in the encoding of the
    database ([pColl->enc] is [pMem1->enc]).  A read outside the record is
    [None]; the asserts that compare a result with a debugging routine are left out.
    The builds of the repository are for x86-64, where [long double] holds every 64-bit integer. *)

From S2P Require Import Prelude Bits SqlVarint SqlRecord.

(** The default limit on the length of a value or a row. *)
Definition SQLITE_MAX_LENGTH : Z := 1000000000.

(** ** Numbers *)

(** The magnitude of a double in units of [2^-1074]; infinity comes out above
    every finite one. *)
Definition double_mag (x : Z) : Z :=
  let e := (x / 2 ^ 52) mod 2 ^ 11 in
  let m := x mod 2 ^ 52 in
  if decide (e = 0) then m else (2 ^ 52 + m) * 2 ^ (e - 1).

Definition double_scaled (x : Z) : Z := if decide (2 ^ 63 <= x) then - double_mag x else double_mag x.

Definition int_scaled (i : Z) : Z := i * 2 ^ 1074.

(** [x<y] of doubles. *)
Definition double_lt (x y : Z) : bool :=
  negb (IsNaN x) && negb (IsNaN y) && bool_decide (double_scaled x < double_scaled y).

Definition sqlite3IntFloatCompare (i r : Z) : Z :=
  if IsNaN r then 0
  else if decide (int_scaled i < double_scaled r) then -1
  else if decide (double_scaled r < int_scaled i) then 1 else 0.

(** ** Values *)

(** The type of collations: [xCmp] on two strings. *)
Abbreviation CollSeq := (bytes -> bytes -> Z).

Definition is_null (m : Mem) : bool := match m with MNull | MNoChange => true | _ => false end.

Definition mem_i (m : Mem) : option Z := match m with MInt i | MIntReal i => Some i | _ => None end.

Definition mem_r (m : Mem) : option Z := match m with MReal r => Some r | _ => None end.

Definition is_str (m : Mem) : bool := match m with MStr _ => true | _ => false end.

(** [memcmp] of [n] bytes; the sign is what C promises of the result. *)
Fixpoint memcmp (n : nat) (a b : bytes) : option Z :=
  match n with
  | O => Some 0
  | S n =>
      x ← head a; y ← head b;
      if decide (x = y) then memcmp n (tail a) (tail b) else Some (x - y)
  end.

Definition isAllZero (z : bytes) : bool := forallb (fun c => bool_decide (c = 0)) z.

Definition mem_n (m : Mem) : Z := Z.of_nat (length (mem_z m)).

(** The bytes of [pB1] and [pB2]; the second pattern of each pair is a blob with [MEM_Zero]. *)
Definition sqlite3BlobCompare (pB1 pB2 : Mem) : option Z :=
  match pB1, pB2 with
  | MZeroBlob [] z1, MZeroBlob [] z2 => Some (z1 - z2)
  | MZeroBlob [] z1, b => Some (if isAllZero (mem_z b) then z1 - mem_n b else -1)
  | a, MZeroBlob [] z2 => Some (if isAllZero (mem_z a) then mem_n a - z2 else 1)
  | MZeroBlob _ _, _ | _, MZeroBlob _ _ => None
  | a, b =>
      c ← memcmp (length (mem_z a) `min` length (mem_z b)) (mem_z a) (mem_z b);
      Some (if decide (c <> 0) then c else mem_n a - mem_n b)
  end.

Definition compare_ints (i j : Z) : Z := if decide (i < j) then -1 else if decide (j < i) then 1 else 0.

Definition compare_doubles (r s : Z) : Z := if double_lt r s then -1 else if double_lt s r then 1 else 0.

Definition null_bit (m : Mem) : Z := if is_null m then 1 else 0.

Definition sqlite3MemCompare (pMem1 pMem2 : Mem) (pColl : option CollSeq) : option Z :=
  if is_null pMem1 || is_null pMem2 then Some (null_bit pMem2 - null_bit pMem1)
  else
    match mem_i pMem1, mem_r pMem1, mem_i pMem2, mem_r pMem2 with
    | Some i, _, Some j, _ => Some (compare_ints i j)
    | _, Some r, _, Some s => Some (compare_doubles r s)
    | Some i, _, _, Some r => Some (sqlite3IntFloatCompare i r)
    | Some _, _, None, None => Some (-1)
    | _, Some r, Some j, _ => Some (- sqlite3IntFloatCompare j r)
    | _, Some _, None, None => Some (-1)
    | None, None, Some _, _ | None, None, _, Some _ => Some 1
    | None, None, None, None =>
        if is_str pMem1 || is_str pMem2 then
          if is_str pMem1 then
            if is_str pMem2 then
              match pColl with
              | Some xCmp => Some (xCmp (mem_z pMem1) (mem_z pMem2))
              | None => sqlite3BlobCompare pMem1 pMem2
              end
            else Some (-1)
          else Some 1
        else sqlite3BlobCompare pMem1 pMem2
    end.

(** ** Records *)

Definition vdbeRecordDecodeInt (serial_type : Z) (aKey : bytes) : option Z :=
  if decide (serial_type = 0 \/ serial_type = 1) then ONE_BYTE_INT aKey
  else if decide (serial_type = 2) then TWO_BYTE_INT aKey
  else if decide (serial_type = 3) then THREE_BYTE_INT aKey
  else if decide (serial_type = 4) then y ← FOUR_BYTE_UINT aKey; Some (i32 y)
  else if decide (serial_type = 5) then
    y ← FOUR_BYTE_UINT (drop 2 aKey); x ← TWO_BYTE_INT aKey; Some (y + Z.shiftl 1 32 * x)
  else if decide (serial_type = 6) then
    x ← FOUR_BYTE_UINT aKey; y ← FOUR_BYTE_UINT (drop 4 aKey);
    Some (i64 (Z.lor (shl64 x 32) y))
  else Some (serial_type - 8).

(** [mem1.u.r] after [sqlite3VdbeSerialGet] of the type 7. *)
Definition serial_double (buf : bytes) : option Z :=
  x ← FOUR_BYTE_UINT buf; y ← FOUR_BYTE_UINT (drop 4 buf); Some (u64 (shl64 x 32 + y)).

(** The key of a search with the parts of its [KeyInfo] that the comparison uses. *)
Record UnpackedRecord := {
  aMem : list Mem;
  aColl : list (option CollSeq);
  aSortFlags : list Z;
  nAllField : Z;
  default_rc : Z;
  r1 : Z;
  r2 : Z;
  u_i : Z;
  u_z : bytes
}.

(** The result with the flags the comparison leaves in the key. *)
Record compared := { rc : Z; errCode : bool; eqSeen : bool }.

Definition corrupt : compared := {| rc := 0; errCode := true; eqSeen := false |}.

Definition all_equal (p : UnpackedRecord) : compared := {| rc := default_rc p; errCode := false; eqSeen := true |}.

Definition differs (rc : Z) : compared := {| rc := rc; errCode := false; eqSeen := false |}.

Definition KEYINFO_ORDER_DESC : Z := 1.
Definition KEYINFO_ORDER_BIGNULL : Z := 2.

(** [rc] as the sort order of the column has it; [null] is
    [serial_type==0 || (pRhs->flags&MEM_Null)]. *)
Definition sort_rc (sortFlags : Z) (null : bool) (rc : Z) : Z :=
  if decide (sortFlags <> 0) then
    if decide (Z.land sortFlags KEYINFO_ORDER_BIGNULL = 0 \/
               Z.land sortFlags KEYINFO_ORDER_DESC <> (if null then 1 else 0)) then - rc else rc
  else rc.

(** The comparison of a field: [rc] and the serial type, or a corrupt record. *)
Inductive field_cmp := Cmp (rc serial_type : Z) | Corrupt.

Section Compare.
Context (aKey1 : bytes) (pPKey2 : UnpackedRecord).

Definition nKey1 : Z := Z.of_nat (length aKey1).

Definition at_key (i : Z) : bytes := drop (Z.to_nat i) aKey1.

(** The bytes of a string or blob, which are inside the record. *)
Definition compare_bytes (d1 n : Z) (z : bytes) : option Z :=
  let nCmp := Z.min n (Z.of_nat (length z)) in
  rc ← memcmp (Z.to_nat nCmp) (at_key d1) z;
  Some (if decide (rc = 0) then n - Z.of_nat (length z) else rc).

Definition compare_field (pRhs : Mem) (i : nat) (d1 idx1 : Z) : option field_cmp :=
  match pRhs with
  | MInt rhs | MIntReal rhs =>
      serial_type ← head (at_key idx1);
      if decide (10 <= serial_type) then Some (Cmp (if decide (serial_type = 10) then -1 else 1) serial_type)
      else if decide (serial_type = 0) then Some (Cmp (-1) serial_type)
      else if decide (serial_type = 7) then
        r ← serial_double (at_key d1); Some (Cmp (- sqlite3IntFloatCompare rhs r) serial_type)
      else lhs ← vdbeRecordDecodeInt serial_type (at_key d1); Some (Cmp (compare_ints lhs rhs) serial_type)
  | MReal rhs =>
      serial_type ← head (at_key idx1);
      if decide (10 <= serial_type) then Some (Cmp (if decide (serial_type = 10) then -1 else 1) serial_type)
      else if decide (serial_type = 0) then Some (Cmp (-1) serial_type)
      else if decide (serial_type = 7) then
        r ← serial_double (at_key d1); Some (Cmp (compare_doubles r rhs) serial_type)
      else
        mem1 ← sqlite3VdbeSerialGet (at_key d1) serial_type;
        j ← mem_i mem1; Some (Cmp (sqlite3IntFloatCompare j rhs) serial_type)
  | MStr z =>
      '(_, serial_type) ← getVarint32 (at_key idx1);
      if decide (serial_type < 12) then Some (Cmp (-1) serial_type)
      else if decide (Z.land serial_type 1 = 0) then Some (Cmp 1 serial_type)
      else
        let n := (serial_type - 12) / 2 in
        if decide (nKey1 < u32 (d1 + n) \/ nAllField pPKey2 <= Z.of_nat i) then Some Corrupt
        else
          coll ← aColl pPKey2 !! i;
          match coll with
          | Some xCmp => Some (Cmp (xCmp (take (Z.to_nat n) (at_key d1)) z) serial_type)
          | None => rc ← compare_bytes d1 n z; Some (Cmp rc serial_type)
          end
  | MBlob z =>
      '(_, serial_type) ← getVarint32 (at_key idx1);
      if decide (serial_type < 12 \/ Z.land serial_type 1 <> 0) then Some (Cmp (-1) serial_type)
      else
        let nStr := (serial_type - 12) / 2 in
        if decide (nKey1 < u32 (d1 + nStr)) then Some Corrupt
        else rc ← compare_bytes d1 nStr z; Some (Cmp rc serial_type)
  | MZeroBlob z nZero =>
      if decide (z <> []) then None
      else
        '(_, serial_type) ← getVarint32 (at_key idx1);
        if decide (serial_type < 12 \/ Z.land serial_type 1 <> 0) then Some (Cmp (-1) serial_type)
        else
          let nStr := (serial_type - 12) / 2 in
          if decide (nKey1 < u32 (d1 + nStr)) then Some Corrupt
          else Some (Cmp (if isAllZero (take (Z.to_nat nStr) (at_key d1)) then nStr - nZero else 1) serial_type)
  | MNull | MNoChange =>
      serial_type ← head (at_key idx1);
      Some (Cmp (if decide (serial_type <> 0 /\ serial_type <> 10) then 1 else 0) serial_type)
  end.

(** The loop, at the field [i] of the record. *)
Fixpoint compare_loop (rhs : list Mem) (i : nat) (d1 idx1 szHdr1 : Z) : option compared :=
  match rhs with
  | [] => None
  | pRhs :: rest =>
      f ← compare_field pRhs i d1 idx1;
      match f with
      | Corrupt => Some corrupt
      | Cmp rc serial_type =>
          if decide (rc <> 0) then
            sortFlags ← aSortFlags pPKey2 !! i;
            Some (differs (sort_rc sortFlags (bool_decide (serial_type = 0) || is_null pRhs) rc))
          else
            match rest with
            | [] => Some (all_equal pPKey2)
            | _ =>
                let d1 := u32 (d1 + sqlite3VdbeSerialTypeLen serial_type) in
                if decide (nKey1 < d1) then Some (all_equal pPKey2)
                else
                  let idx1 := u32 (idx1 + sqlite3VarintLen serial_type) in
                  if decide (szHdr1 <= idx1) then Some corrupt else compare_loop rest (S i) d1 idx1 szHdr1
            end
      end
  end.

Definition sqlite3VdbeRecordCompareWithSkip (bSkip : bool) : option compared :=
  if bSkip then
    '(n, s1) ← getVarint32 (drop 1 aKey1);
    szHdr1 ← head aKey1;
    let d1 := u32 (szHdr1 + sqlite3VdbeSerialTypeLen s1) in
    if decide (nKey1 < d1) then Some corrupt else compare_loop (tail (aMem pPKey2)) 1 d1 (1 + n) szHdr1
  else
    '(idx1, szHdr1) ← getVarint32 aKey1;
    if decide (nKey1 < szHdr1) then Some corrupt else compare_loop (aMem pPKey2) 0 szHdr1 idx1 szHdr1.

Definition sqlite3VdbeRecordCompare : option compared := sqlite3VdbeRecordCompareWithSkip false.

(** What the fast forms do once the first fields are equal. *)
Definition compare_rest : option compared :=
  if decide (1 < length (aMem pPKey2))%nat then sqlite3VdbeRecordCompareWithSkip true else Some (all_equal pPKey2).

Definition vdbeRecordCompareInt : option compared :=
  k0 ← head aKey1;
  let aKey := at_key (Z.land k0 0x3F) in
  serial_type ← aKey1 !! 1%nat;
  if decide ((1 <= serial_type <= 6) \/ serial_type = 8 \/ serial_type = 9) then
    lhs ← vdbeRecordDecodeInt serial_type aKey;
    if decide (lhs < u_i pPKey2) then Some (differs (r1 pPKey2))
    else if decide (u_i pPKey2 < lhs) then Some (differs (r2 pPKey2))
    else compare_rest
  else sqlite3VdbeRecordCompare.

Definition vdbeRecordCompareString : option compared :=
  k1 ← aKey1 !! 1%nat;
  serial_type ← (if decide (i8 k1 < 0) then '(_, t) ← getVarint32 (drop 1 aKey1); Some (i32 t) else Some (i8 k1));
  if decide (serial_type < 12) then Some (differs (r1 pPKey2))
  else if decide (Z.land serial_type 1 = 0) then Some (differs (r2 pPKey2))
  else
    szHdr ← head aKey1;
    let nStr := (serial_type - 12) / 2 in
    if decide (nKey1 < szHdr + nStr) then Some corrupt
    else
      res ← compare_bytes szHdr nStr (u_z pPKey2);
      if decide (0 < res) then Some (differs (r2 pPKey2))
      else if decide (res < 0) then Some (differs (r1 pPKey2))
      else compare_rest.
End Compare.

(** The function [sqlite3VdbeFindCompare] returns, and the key with what it caches there. *)
Inductive RecordCompare := CompareRecord | CompareInt | CompareString.

Definition with_results (x y : Z) (p : UnpackedRecord) : UnpackedRecord :=
  {| aMem := aMem p; aColl := aColl p; aSortFlags := aSortFlags p; nAllField := nAllField p;
     default_rc := default_rc p; r1 := x; r2 := y; u_i := u_i p; u_z := u_z p |}.

Definition with_i (i : Z) (p : UnpackedRecord) : UnpackedRecord :=
  {| aMem := aMem p; aColl := aColl p; aSortFlags := aSortFlags p; nAllField := nAllField p;
     default_rc := default_rc p; r1 := r1 p; r2 := r2 p; u_i := i; u_z := u_z p |}.

Definition with_z (z : bytes) (p : UnpackedRecord) : UnpackedRecord :=
  {| aMem := aMem p; aColl := aColl p; aSortFlags := aSortFlags p; nAllField := nAllField p;
     default_rc := default_rc p; r1 := r1 p; r2 := r2 p; u_i := u_i p; u_z := z |}.

Definition sqlite3VdbeFindCompare (p : UnpackedRecord) : option (RecordCompare * UnpackedRecord) :=
  if decide (nAllField p <= 13) then
    m ← head (aMem p);
    sortFlags ← head (aSortFlags p);
    if decide (sortFlags <> 0 /\ Z.land sortFlags KEYINFO_ORDER_BIGNULL <> 0) then Some (CompareRecord, p)
    else
      let p := if decide (sortFlags <> 0) then with_results 1 (-1) p else with_results (-1) 1 p in
      match m with
      | MInt i => Some (CompareInt, with_i i p)
      | MStr z =>
          coll ← head (aColl p);
          match coll with None => Some (CompareString, with_z z p) | Some _ => Some (CompareRecord, p) end
      | _ => Some (CompareRecord, p)
      end
  else Some (CompareRecord, p).

Definition run_compare (f : RecordCompare) : bytes -> UnpackedRecord -> option compared :=
  match f with
  | CompareRecord => sqlite3VdbeRecordCompare
  | CompareInt => vdbeRecordCompareInt
  | CompareString => vdbeRecordCompareString
  end.

(** ** What a field is *)

(** A field of a stored record: [field_ok], and NULL has its own types. *)
Definition key_field (m : Mem) (f : Mem * Z) : Prop :=
  field_ok m f /\ (is_null m = true -> f.2 = 0).

(** The value and the type of a field agree, and the bytes at [buf] give it. *)
Definition field_view (m : Mem) (t : Z) (buf : bytes) (n : nat) : Prop :=
  match m with
  | MNull => t = 0
  | MInt j => ((1 <= t <= 6) \/ t = 8 \/ t = 9) /\ vdbeRecordDecodeInt t buf = Some j /\ sqlite3VdbeSerialGet buf t = Some (MInt j)
  | MReal r => t = 7 /\ serial_double buf = Some r
  | MStr z => 12 <= t /\ Z.land t 1 = 1 /\ (t - 12) / 2 = Z.of_nat (length z) /\ z = take n buf /\ n = length z
  | MBlob z => 12 <= t /\ Z.land t 1 = 0 /\ (t - 12) / 2 = Z.of_nat (length z) /\ z = take n buf /\ n = length z
  | _ => False
  end.

Lemma land1_cases t : Z.land t 1 = 0 \/ Z.land t 1 = 1.
Proof. rewrite land_1. mods. Qed.

Lemma FOUR_BYTE_UINT_inv buf x : bytes_ok buf -> FOUR_BYTE_UINT buf = Some x ->
  exists a b c d rest, buf = a :: b :: c :: d :: rest /\ byte_ok a /\ byte_ok b /\ byte_ok c /\ byte_ok d /\
    x = a * 2 ^ 24 + b * 2 ^ 16 + c * 2 ^ 8 + d.
Proof.
  intros Hb E. destruct buf as [|a [|b [|c [|d rest]]]]; try done.
  pose proof Hb as [Ha [Hb1 [Hc [Hd _]%Forall_cons]%Forall_cons]%Forall_cons]%Forall_cons.
  rewrite FOUR_BYTE_UINT_sum in E by done. injection E as <-. by exists a, b, c, d, rest.
Qed.

Lemma decode_int_get t buf j : bytes_ok buf -> sqlite3VdbeSerialGet buf t = Some (MInt j) ->
  ((1 <= t <= 6) \/ t = 8 \/ t = 9) /\ vdbeRecordDecodeInt t buf = Some j.
Proof.
  intros Hb. unfold sqlite3VdbeSerialGet, vdbeRecordDecodeInt.
  destruct (decide (t = 10)); [done|]. destruct (decide (t = 11 \/ t = 0)); [done|].
  destruct (decide (t = 1)) as [->|H1].
  { rewrite decide_True by lia. destruct (ONE_BYTE_INT buf); [|done]. intros [= ->]. split; [lia|done]. }
  rewrite (decide_False (P := t = 0 \/ t = 1)) by lia.
  destruct (decide (t = 2)) as [->|H2]; [destruct (TWO_BYTE_INT buf); [|done]; intros [= ->]; split; [lia|done]|].
  destruct (decide (t = 3)) as [->|H3]; [destruct (THREE_BYTE_INT buf); [|done]; intros [= ->]; split; [lia|done]|].
  destruct (decide (t = 4)) as [->|H4].
  { destruct buf as [|a [|b [|c [|d rest]]]]; try done.
    pose proof Hb as [Ha [Hb1 [Hc [Hd _]%Forall_cons]%Forall_cons]%Forall_cons]%Forall_cons.
    rewrite FOUR_BYTE_INT_sum, FOUR_BYTE_UINT_sum by done. cbn [mbind option_bind]. intros [= <-]. split; [lia|].
    f_equal. unfold byte_ok, i8, wraps in *. mods. }
  destruct (decide (t = 5)) as [->|H5].
  { destruct (FOUR_BYTE_UINT (drop 2 buf)), (TWO_BYTE_INT buf); cbn [mbind option_bind]; try done.
    intros [= <-]. split; [lia|done]. }
  destruct (decide (t = 6 \/ t = 7)) as [H67|H67].
  { unfold serialGet. destruct (FOUR_BYTE_UINT buf) as [x|] eqn:Ex; [|done].
    destruct (FOUR_BYTE_UINT (drop 4 buf)) as [y|] eqn:Ey; [|done]. cbn [mbind option_bind].
    destruct (decide (t = 6)) as [->|]; [|by destruct (IsNaN _)]. intros [= <-]. split; [lia|]. do 2 f_equal.
    apply FOUR_BYTE_UINT_inv in Ex as (? & ? & ? & ? & ? & _ & ? & ? & ? & ? & ->); [|done].
    apply FOUR_BYTE_UINT_inv in Ey as (? & ? & ? & ? & ? & _ & ? & ? & ? & ? & ->); [|by apply Forall_drop].
    unfold byte_ok in *. rewrite shl64_mul by lia. unfold wrapu at 1. rewrite (Z.mod_small (_ * 2 ^ 32)) by lia.
    rewrite (lor_disjoint 32) by mods. symmetry. apply Z.mod_small. lia. }
  destruct (decide (t = 8 \/ t = 9)) as [H89|H89].
  { intros [= <-]. rewrite decide_False by lia. split; [lia|done]. }
  case_decide; done.
Qed.

(** The other values a read can give. *)
Lemma SerialGet_inv t buf m : 0 <= t -> sqlite3VdbeSerialGet buf t = Some m ->
  match m with
  | MReal r => t = 7 /\ serial_double buf = Some r
  | MStr z => 12 <= t /\ Z.land t 1 = 1 /\ z = take (Z.to_nat ((t - 12) / 2)) buf
  | MBlob z => 12 <= t /\ Z.land t 1 = 0 /\ z = take (Z.to_nat ((t - 12) / 2)) buf
  | MIntReal _ | MZeroBlob _ _ => False
  | _ => True
  end.
Proof.
  intros Ht. unfold sqlite3VdbeSerialGet.
  destruct (decide (t = 10)); [by intros [= <-]|]. destruct (decide (t = 11 \/ t = 0)); [by intros [= <-]|].
  destruct (decide (t = 1)); [destruct (ONE_BYTE_INT buf); [by intros [= <-]|done]|].
  destruct (decide (t = 2)); [destruct (TWO_BYTE_INT buf); [by intros [= <-]|done]|].
  destruct (decide (t = 3)); [destruct (THREE_BYTE_INT buf); [by intros [= <-]|done]|].
  destruct (decide (t = 4)); [destruct (FOUR_BYTE_INT buf); [by intros [= <-]|done]|].
  destruct (decide (t = 5)).
  { destruct (FOUR_BYTE_UINT (drop 2 buf)), (TWO_BYTE_INT buf); cbn [mbind option_bind]; try done. by intros [= <-]. }
  destruct (decide (t = 6 \/ t = 7)) as [H67|H67].
  { unfold serialGet, serial_double. destruct (FOUR_BYTE_UINT buf) as [x|]; [|done].
    destruct (FOUR_BYTE_UINT (drop 4 buf)) as [y|]; [|done]. cbn [mbind option_bind].
    destruct (decide (t = 6)); [by intros [= <-]|]. destruct (IsNaN _); intros [= <-]; [done|]. split; [lia|done]. }
  destruct (decide (t = 8 \/ t = 9)); [by intros [= <-]|].
  destruct (land1_cases t) as [E|E]; rewrite E; [rewrite decide_False by lia|rewrite decide_True by lia];
    intros [= <-]; repeat split; (done || lia).
Qed.

Lemma field_view_ok m f rest : key_field m f -> m <> MNoChange -> bytes_ok rest ->
  field_view m f.2 (full_payload f ++ rest) (length (full_payload f)).
Proof.
  intros [Hf Hnull] Hnc Hrest. pose proof (fo_get _ _ Hf rest) as Hg. pose proof (fo_len _ _ Hf) as Hlen.
  pose proof (fo_type _ _ Hf) as Ht. unfold in_u in Ht.
  assert (Hbuf : bytes_ok (full_payload f ++ rest)) by (apply bytes_ok_app; split; [apply Hf|done]).
  pose proof (SerialGet_inv _ _ _ (proj1 Ht) Hg) as Hinv.
  destruct m as [| |j|j|r|z|z|z k]; try done; [by apply Hnull| | |].
  - destruct (decode_int_get _ _ _ Hbuf Hg) as [? ?]. done.
  - destruct Hinv as (H12 & Hl & Hz). rewrite sqlite3VdbeSerialTypeLen_text in Hlen by lia.
    rewrite Hlen, Nat2Z.id, take_app_length in Hz. subst z. cbn [field_view]. rewrite take_app_length. done.
  - destruct Hinv as (H12 & Hl & Hz). rewrite sqlite3VdbeSerialTypeLen_text in Hlen by lia.
    rewrite Hlen, Nat2Z.id, take_app_length in Hz. subst z. cbn [field_view]. rewrite take_app_length. done.
Qed.

(** ** The first byte of a type *)

Lemma type_byte t rest : in_u 32 t -> bytes_ok rest -> exists b,
  head (sqlite3PutVarint t ++ rest) = Some b /\ (t < 128 -> b = t) /\ (128 <= t -> 128 <= b).
Proof.
  intros Ht Hrest. pose proof (getVarint32_PutVarint t rest Ht Hrest) as Hg. unfold in_u in Ht.
  unfold getVarint32 in Hg. destruct (sqlite3PutVarint t ++ rest) as [|b l] eqn:E; [done|]. exists b. split; [done|].
  cbn [lookup list_lookup mbind option_bind] in Hg. destruct (decide (b < 128)) as [Hb|Hb].
  - injection Hg as _ ->. split; [done|lia].
  - split; [|lia]. intros Hlt. rewrite PutVarint_small in E by lia. by injection E as -> _.
Qed.

(** ** Comparing bytes *)

Lemma memcmp_prefix n : forall a b c, (n <= length a)%nat -> memcmp n (a ++ c) b = memcmp n a b.
Proof.
  induction n as [|n IH]; intros [|x a] b c Hn; cbn [length] in *; try done; [lia|]. cbn [memcmp app head tail mbind option_bind].
  destruct (head b) as [y|]; [|done]. cbn [mbind option_bind]. case_decide; [|done]. apply IH. lia.
Qed.

Lemma memcmp_total n : forall a b, (n <= length a)%nat -> (n <= length b)%nat -> is_Some (memcmp n a b).
Proof.
  induction n as [|n IH]; intros [|x a] [|y b] Ha Hb; cbn [length] in *; try lia; try by eexists.
  cbn [memcmp head tail mbind option_bind]. case_decide; [|by eexists]. apply IH; lia.
Qed.

(** [compare_bytes] on the bytes of a field is [sqlite3BlobCompare]. *)
Lemma compare_bytes_ok aKey1 d1 a z rest : at_key aKey1 d1 = a ++ rest ->
  exists rc, compare_bytes aKey1 d1 (Z.of_nat (length a)) z = Some rc /\
  (c ← memcmp (length a `min` length z) a z; Some (if decide (c <> 0) then c else Z.of_nat (length a) - Z.of_nat (length z))) = Some rc.
Proof.
  intros E. unfold compare_bytes. rewrite E. rewrite <- Nat2Z.inj_min, Nat2Z.id, memcmp_prefix by lia.
  destruct (memcmp_total (length a `min` length z) a z) as [c ->]; [lia|lia|]. cbn [mbind option_bind].
  eexists. split; [done|]. f_equal. repeat case_decide; done || lia.
Qed.

(** ** Comparing a field *)

(** A value of a key: a blob of zeros has nothing else. *)
Definition rhs_ok (m : Mem) : Prop := match m with MZeroBlob z _ => z = [] | _ => True end.

(** What the comparison of a field must be. *)
Definition field_result (m pRhs : Mem) (coll : option CollSeq) (t : Z) (o : option field_cmp) : Prop :=
  exists rc t', o = Some (Cmp rc t') /\ sqlite3MemCompare m pRhs coll = Some rc /\ (rc = 0 -> t' = t) /\
  (t' = 0 <-> is_null m = true).

Section Field.
Context (aKey1 : bytes) (p : UnpackedRecord) (m : Mem) (t : Z) (i : nat) (d1 idx1 : Z) (n : nat) (coll : option CollSeq).
Context (b : Z) (d : bytes).
Hypothesis Hview : field_view m t (at_key aKey1 d1) n.
Hypothesis Hhead : head (at_key aKey1 idx1) = Some b.
Hypothesis Hsmall : t < 128 -> b = t.
Hypothesis Hlarge : 128 <= t -> 128 <= b.

Lemma compare_field_null pRhs : is_null pRhs = true -> field_result m pRhs coll t (compare_field aKey1 p pRhs i d1 idx1).
Proof.
  intros Hn. assert (compare_field aKey1 p pRhs i d1 idx1 = Some (Cmp (if decide (b <> 0 /\ b <> 10) then 1 else 0) b)) as ->
    by (destruct pRhs; try done; cbn [compare_field]; by rewrite Hhead).
  exists (1 - null_bit m), b. unfold sqlite3MemCompare. rewrite Hn, orb_true_r. unfold null_bit. rewrite Hn.
  destruct m as [| |j|j|r|z|z|z k]; try done; cbn [field_view is_null] in *.
  - rewrite Hsmall by lia. subst t. done.
  - rewrite Hsmall by lia. rewrite decide_True by lia. repeat split; (done || lia).
  - rewrite Hsmall by lia. rewrite decide_True by lia. repeat split; (done || lia).
  - rewrite decide_True by lia. repeat split; (done || lia).
  - rewrite decide_True by lia. repeat split; (done || lia).
Qed.

Lemma compare_field_int pRhs j : mem_i pRhs = Some j -> field_result m pRhs coll t (compare_field aKey1 p pRhs i d1 idx1).
Proof.
  intros Hj.
  assert (Hcmp : compare_field aKey1 p pRhs i d1 idx1 =
    (serial_type ← head (at_key aKey1 idx1);
      if decide (10 <= serial_type) then Some (Cmp (if decide (serial_type = 10) then -1 else 1) serial_type)
      else if decide (serial_type = 0) then Some (Cmp (-1) serial_type)
      else if decide (serial_type = 7) then
        r ← serial_double (at_key aKey1 d1); Some (Cmp (- sqlite3IntFloatCompare j r) serial_type)
      else lhs ← vdbeRecordDecodeInt serial_type (at_key aKey1 d1); Some (Cmp (compare_ints lhs j) serial_type)))
    by (destruct pRhs; simplify_eq/=; done).
  assert (Hnn : is_null pRhs = false) by (by destruct pRhs). assert (Hnr : mem_r pRhs = None) by (by destruct pRhs).
  rewrite Hcmp, Hhead. cbn [mbind option_bind]. unfold field_result, sqlite3MemCompare. rewrite Hnn, orb_false_r, Hj, Hnr. clear Hcmp.
  destruct m as [| |k|k|r|z|z|z k]; try done; cbn [field_view is_null mem_i mem_r] in *.
  - rewrite Hsmall by lia. subst t. eexists _, _. split; [done|]. unfold null_bit. rewrite Hnn. done.
  - rewrite Hsmall by lia. destruct Hview as (Ht & Hd & _). rewrite !decide_False, Hd by lia.
    eexists _, _. split; [done|]. split; [done|]. split; [done|lia].
  - rewrite Hsmall by lia. destruct Hview as (-> & Hd). rewrite !decide_False, decide_True, Hd by lia.
    eexists _, _. split; [done|]. split; [done|]. split; [done|lia].
  - rewrite decide_True, decide_False by lia. eexists _, _. split; [done|]. split; [done|]. split; [done|lia].
  - rewrite decide_True, decide_False by lia. eexists _, _. split; [done|]. split; [done|]. split; [done|lia].
Qed.

Lemma compare_field_real s : field_result m (MReal s) coll t (compare_field aKey1 p (MReal s) i d1 idx1).
Proof.
  cbn [compare_field]. rewrite Hhead. cbn [mbind option_bind]. unfold field_result, sqlite3MemCompare.
  destruct m as [| |k|k|r|z|z|z k]; try done; cbn [field_view is_null mem_i mem_r orb] in *.
  - rewrite Hsmall by lia. subst t. eexists _, _. split; [done|]. done.
  - rewrite Hsmall by lia. destruct Hview as (Ht & _ & Hg). rewrite !decide_False, Hg by lia.
    eexists _, _. split; [done|]. split; [done|]. split; [done|lia].
  - rewrite Hsmall by lia. destruct Hview as (-> & Hd). rewrite !decide_False, decide_True, Hd by lia.
    eexists _, _. split; [done|]. split; [done|]. split; [done|lia].
  - rewrite decide_True, decide_False by lia. eexists _, _. split; [done|]. split; [done|]. split; [done|lia].
  - rewrite decide_True, decide_False by lia. eexists _, _. split; [done|]. split; [done|]. split; [done|lia].
Qed.

(** Texts read the whole type, and their bytes are inside the record. *)
Hypothesis Htype : exists k, getVarint32 (at_key aKey1 idx1) = Some (k, t).
Hypothesis Hsize : 0 <= d1 /\ d1 + Z.of_nat n <= nKey1 aKey1 < 2 ^ 31.

Lemma text_bytes z : z = take n (at_key aKey1 d1) -> at_key aKey1 d1 = z ++ drop n (at_key aKey1 d1).
Proof using Type. intros ->. by rewrite take_drop. Qed.

Lemma text_inside (z : bytes) : n = length z -> ~ nKey1 aKey1 < u32 (d1 + Z.of_nat (length z)).
Proof using Hsize. intros Hn. rewrite <- Hn. rewrite wrapu_id by (unfold in_u; lia). lia. Qed.

Lemma compare_field_str z : Z.of_nat i < nAllField p -> aColl p !! i = Some coll ->
  field_result m (MStr z) coll t (compare_field aKey1 p (MStr z) i d1 idx1).
Proof.
  intros Hi Hcoll. cbn [compare_field]. destruct Htype as [k ->]. cbn [mbind option_bind].
  unfold field_result, sqlite3MemCompare.
  destruct m as [| |j|j|r|w|w|w l]; try done; cbn [field_view is_null mem_i mem_r orb is_str mem_z] in *.
  - rewrite decide_True by lia. eexists _, _. split; [done|]. by subst t.
  - rewrite decide_True by lia. eexists _, _. split; [done|]. split; [done|]. split; [done|lia].
  - rewrite decide_True by lia. eexists _, _. split; [done|]. split; [done|]. split; [done|lia].
  - destruct Hview as (H12 & Hl & Hlen & Hw & Hn). rewrite decide_False by lia. rewrite decide_False by lia.
    rewrite Hlen. rewrite decide_False by (intros [Hx|]; [by apply (text_inside w)|lia]).
    rewrite Hcoll, Nat2Z.id, <- Hn, <- Hw. cbn [mbind option_bind]. destruct coll as [xCmp|].
    + eexists _, _. split; [done|]. split; [done|]. split; [done|lia].
    + rewrite Hn. destruct (compare_bytes_ok aKey1 d1 w z _ (text_bytes w Hw)) as (rc & -> & Hrc). cbn [mbind option_bind].
      exists rc, t. split; [done|]. cbn [sqlite3BlobCompare mem_z]. unfold mem_n. cbn [mem_z].
      split; [exact Hrc|]. split; [done|lia].
  - destruct Hview as (H12 & Hl & _). rewrite decide_False by lia. rewrite decide_True by lia.
    eexists _, _. split; [done|]. split; [done|]. split; [done|lia].
Qed.

Lemma compare_field_blob z : field_result m (MBlob z) coll t (compare_field aKey1 p (MBlob z) i d1 idx1).
Proof.
  cbn [compare_field]. destruct Htype as [k ->]. cbn [mbind option_bind]. unfold field_result, sqlite3MemCompare.
  destruct m as [| |j|j|r|w|w|w l]; try done; cbn [field_view is_null mem_i mem_r orb is_str mem_z] in *.
  - rewrite decide_True by lia. eexists _, _. split; [done|]. by subst t.
  - rewrite decide_True by lia. eexists _, _. split; [done|]. split; [done|]. split; [done|lia].
  - rewrite decide_True by lia. eexists _, _. split; [done|]. split; [done|]. split; [done|lia].
  - rewrite decide_True by lia. eexists _, _. split; [done|]. split; [done|]. split; [done|lia].
  - destruct Hview as (H12 & Hl & Hlen & Hw & Hn). rewrite decide_False by lia. rewrite Hlen.
    rewrite decide_False by (by apply text_inside).
    destruct (compare_bytes_ok aKey1 d1 w z _ (text_bytes w Hw)) as (rc & -> & Hrc). cbn [mbind option_bind].
    exists rc, t. split; [done|]. cbn [sqlite3BlobCompare mem_z]. unfold mem_n. cbn [mem_z].
    split; [exact Hrc|]. split; [done|lia].
Qed.

Lemma compare_field_zero k : field_result m (MZeroBlob [] k) coll t (compare_field aKey1 p (MZeroBlob [] k) i d1 idx1).
Proof.
  cbn [compare_field]. destruct Htype as [k' ->]. cbn [mbind option_bind]. unfold field_result, sqlite3MemCompare.
  rewrite decide_False by auto.
  destruct m as [| |j|j|r|w|w|w l]; try done; cbn [field_view is_null mem_i mem_r orb is_str mem_z] in *.
  - rewrite decide_True by lia. eexists _, _. split; [done|]. by subst t.
  - rewrite decide_True by lia. eexists _, _. split; [done|]. split; [done|]. split; [done|lia].
  - rewrite decide_True by lia. eexists _, _. split; [done|]. split; [done|]. split; [done|lia].
  - rewrite decide_True by lia. eexists _, _. split; [done|]. split; [done|]. split; [done|lia].
  - destruct Hview as (H12 & Hl & Hlen & Hw & Hn). rewrite decide_False by lia. rewrite Hlen.
    rewrite decide_False by (by apply text_inside). rewrite Nat2Z.id, <- Hn, <- Hw.
    eexists _, _. split; [done|]. cbn [sqlite3BlobCompare mem_z]. unfold mem_n. cbn [mem_z]. rewrite <- Hn.
    split; [done|]. split; [done|lia].
Qed.

Lemma compare_field_ok pRhs : rhs_ok pRhs -> Z.of_nat i < nAllField p -> aColl p !! i = Some coll ->
  field_result m pRhs coll t (compare_field aKey1 p pRhs i d1 idx1).
Proof.
  intros Hr Hi Hcoll. destruct pRhs as [| |j|j|r|w|w|w l]; try (by apply compare_field_null).
  - by apply (compare_field_int _ j).
  - by apply (compare_field_int _ j).
  - apply compare_field_real.
  - by apply compare_field_str.
  - apply compare_field_blob.
  - cbn [rhs_ok] in Hr. subst w. apply compare_field_zero.
Qed.
End Field.

(** ** The order of records *)

(** The first difference between the values of a record and those of a key, as the columns
    sort it; 0 when there is none among the fields both have. *)
Fixpoint first_difference (cols : list (option CollSeq * Z)) (ms rhs : list Mem) : option Z :=
  match cols, ms, rhs with
  | (coll, sortFlags) :: cols, m :: ms, r :: rhs =>
      rc ← sqlite3MemCompare m r coll;
      if decide (rc <> 0) then Some (sort_rc sortFlags (is_null m || is_null r) rc)
      else first_difference cols ms rhs
  | _, _, _ => Some 0
  end.

(** The result of a comparison with the difference [d]; [enough] says that the record has
    all the fields of the key. *)
Definition outcome (p : UnpackedRecord) (d : Z) (enough : bool) : compared :=
  if decide (d <> 0) then differs d else if enough then all_equal p else corrupt.

Lemma sort_rc_ne0 f null rc : rc <> 0 -> sort_rc f null rc <> 0.
Proof. unfold sort_rc. repeat case_decide; lia. Qed.

Definition key_fields (ms : list Mem) (fs : list (Mem * Z)) : Prop := Forall2 key_field ms fs.

Definition no_marker (m : Mem) : Prop := m <> MNoChange.

Lemma key_fields_bytes ms fs : key_fields ms fs -> bytes_ok (full_data fs) /\ bytes_ok (header fs).
Proof.
  unfold full_data, header. induction 1 as [|m f ms fs [Hf _] _ [IH1 IH2]]; [by split; constructor|].
  rewrite !fmap_cons. cbn [concat]. split; apply bytes_ok_app; split; try done; [apply Hf|].
  apply sqlite3PutVarint_ok. destruct (fo_type _ _ Hf). unfold in_u. lia.
Qed.

Lemma full_data_cons f fs : full_data (f :: fs) = full_payload f ++ full_data fs.
Proof. done. Qed.

Lemma header_cons f fs : header (f :: fs) = sqlite3PutVarint f.2 ++ header fs.
Proof. done. Qed.

Section Loop.
Context (aKey1 : bytes) (p : UnpackedRecord) (szHdr1 : Z).
Hypothesis Hkey : nKey1 aKey1 < 2 ^ 31.
Hypothesis Hsz : szHdr1 <= nKey1 aKey1.

(** The loop stands at the field whose header and data begin at [idx1] and [d1]. *)
Record stands_at (fs : list (Mem * Z)) (d1 idx1 : Z) : Prop := {
  sa_pos : 0 <= idx1 /\ 0 <= d1;
  sa_data : at_key aKey1 d1 = full_data fs;
  sa_header : exists rest, at_key aKey1 idx1 = header fs ++ rest /\ bytes_ok rest;
  sa_end : idx1 + Z.of_nat (length (header fs)) = szHdr1;
  sa_len : d1 + Z.of_nat (length (full_data fs)) = nKey1 aKey1
}.

(** The columns from [i] on. *)
Definition columns_at (cols : list (option CollSeq * Z)) (i : nat) (rhs : list Mem) : Prop :=
  drop i (aColl p) = cols.*1 /\ drop i (aSortFlags p) = cols.*2 /\ (length rhs <= length cols)%nat /\
  Z.of_nat (i + length rhs) <= nAllField p.

Lemma columns_cons c cols i r rhs : columns_at (c :: cols) i (r :: rhs) ->
  aColl p !! i = Some c.1 /\ aSortFlags p !! i = Some c.2 /\ Z.of_nat i < nAllField p /\ columns_at cols (S i) rhs.
Proof.
  intros (H1 & H2 & Hl & Hn). cbn [fmap list_fmap length] in H1, H2, Hl, Hn.
  split; [by rewrite <- (Nat.add_0_r i), <- lookup_drop, H1|].
  split; [by rewrite <- (Nat.add_0_r i), <- lookup_drop, H2|]. split; [lia|].
  split; [|split; [|split; [lia|lia]]].
  - rewrite <- Nat.add_1_r, <- drop_drop, H1. done.
  - rewrite <- Nat.add_1_r, <- drop_drop, H2. done.
Qed.

(** The step to the next field. *)
Lemma stands_next m f ms fs d1 idx1 : key_field m f -> key_fields ms fs -> stands_at (f :: fs) d1 idx1 ->
  u32 (d1 + sqlite3VdbeSerialTypeLen f.2) = d1 + Z.of_nat (length (full_payload f)) /\
  u32 (idx1 + sqlite3VarintLen f.2) = idx1 + Z.of_nat (length (sqlite3PutVarint f.2)) /\
  (szHdr1 <= idx1 + Z.of_nat (length (sqlite3PutVarint f.2)) <-> fs = []) /\
  stands_at fs (d1 + Z.of_nat (length (full_payload f))) (idx1 + Z.of_nat (length (sqlite3PutVarint f.2))).
Proof.
  intros [Hf _] Hfs [[Hi Hd] Hdata (rest & Hh & Hrest) Hend Hlen].
  rewrite full_data_cons in Hdata, Hlen. rewrite header_cons in Hh, Hend. rewrite length_app in Hlen, Hend.
  pose proof (fo_type _ _ Hf) as Ht. unfold in_u in Ht. rewrite <- app_assoc in Hh.
  rewrite (fo_len _ _ Hf), sqlite3VarintLen_PutVarint by lia. rewrite !wrapu_id by (unfold in_u; lia).
  split; [done|]. split; [done|]. split.
  - destruct Hfs as [|m' f' ms' fs' [Hf' _] _].
    + change (header []) with (@nil Z) in Hend. cbn [length] in Hend. split; [done|lia].
    + split; [|done]. rewrite header_cons, length_app in Hend.
      assert (0 < length (sqlite3PutVarint f'.2))%nat; [|lia].
      pose proof (fo_type _ _ Hf') as Ht'. unfold in_u in Ht'.
      pose proof (length_sqlite3PutVarint f'.2 ltac:(unfold in_u; lia)) as Hl. unfold varint_bytes in Hl.
      case_decide; lia.
  - split; [lia| | |lia|lia].
    + unfold at_key in *. rewrite Z2Nat.inj_add, Nat2Z.id by lia. by eapply drop_add_app.
    + exists rest. split; [|done]. unfold at_key in *. rewrite Z2Nat.inj_add, Nat2Z.id by lia. by eapply drop_add_app.
Qed.

(** The field the loop stands at. *)
Lemma field_here m f ms fs d1 idx1 i pRhs coll : key_field m f -> no_marker m -> key_fields ms fs ->
  stands_at (f :: fs) d1 idx1 -> rhs_ok pRhs -> Z.of_nat i < nAllField p -> aColl p !! i = Some coll ->
  field_result m pRhs coll f.2 (compare_field aKey1 p pRhs i d1 idx1).
Proof.
  intros Hf Hm Hfs [[Hi Hd] Hdata (rest & Hh & Hrest) Hend Hlen] Hr Hn Hcoll.
  destruct (key_fields_bytes _ _ Hfs) as [Hb1 Hb2]. rewrite full_data_cons in Hdata, Hlen. rewrite header_cons, <- app_assoc in Hh.
  assert (Hb : bytes_ok (header fs ++ rest)) by (by apply bytes_ok_app).
  pose proof (fo_type _ _ (proj1 Hf)) as Ht. destruct (type_byte f.2 _ Ht Hb) as (b & Hhead & Hs & Hlg).
  rewrite <- Hh in Hhead.
  apply (compare_field_ok aKey1 p m f.2 i d1 idx1 (length (full_payload f)) coll b); try done.
  - rewrite Hdata. by apply field_view_ok.
  - rewrite Hh, getVarint32_PutVarint by done. by eexists.
  - rewrite length_app in Hlen. lia.
Qed.

Lemma compare_loop_ok rhs : forall ms fs cols i d1 idx1,
  rhs <> [] -> ms <> [] -> key_fields ms fs -> Forall no_marker ms -> Forall rhs_ok rhs ->
  stands_at fs d1 idx1 -> columns_at cols i rhs ->
  exists d, first_difference cols ms rhs = Some d /\
    compare_loop aKey1 p rhs i d1 idx1 szHdr1 = Some (outcome p d (bool_decide (length rhs <= length ms)%nat)).
Proof.
  induction rhs as [|r rhs IH]; intros ms fs cols i d1 idx1 Hrne Hmne Hfs Hms Hrs Hat Hcols; [done|].
  destruct Hfs as [|m f ms fs Hf Hfs]; [done|]. apply Forall_cons in Hms as [Hm Hms]. apply Forall_cons in Hrs as [Hr Hrs].
  destruct cols as [|[coll flags] cols]; [by destruct Hcols as (_ & _ & Hl & _); cbn in Hl; lia|].
  destruct (columns_cons _ _ _ _ _ Hcols) as (Hcoll & Hflags & Hi & Hcols'). cbn [fst snd] in *.
  destruct (field_here m f ms fs d1 idx1 i r coll Hf Hm Hfs Hat Hr Hi Hcoll) as (rc & t & Ecmp & Emem & Hrc & Ht).
  cbn [compare_loop first_difference]. rewrite Ecmp, Emem. cbn [mbind option_bind].
  destruct (decide (rc <> 0)) as [Hne|He].
  { rewrite Hflags. cbn [mbind option_bind]. eexists. split; [done|]. unfold outcome.
    rewrite decide_True by (by apply sort_rc_ne0). do 4 f_equal.
    apply eq_iff_eq_true. by rewrite bool_decide_eq_true. }
  assert (rc = 0) as -> by lia. rewrite (Hrc eq_refl).
  destruct (stands_next m f ms fs d1 idx1 Hf Hfs Hat) as (-> & -> & Hend & Hat').
  destruct rhs as [|r' rhs].
  { exists 0. split; [by destruct cols as [|[]], ms|]. unfold outcome. rewrite decide_False by lia.
    rewrite bool_decide_eq_true_2 by (cbn [length]; lia). done. }
  rewrite decide_False by (pose proof (sa_len _ _ _ Hat'); lia).
  destruct Hfs as [|m' f' ms fs Hf' Hfs'].
  - rewrite decide_True by (by apply Hend). exists 0. split; [by destruct cols as [|[]]|].
    unfold outcome. rewrite decide_False by lia. rewrite bool_decide_eq_false_2 by (cbn [length]; lia). done.
  - rewrite decide_False by (intros E%Hend; done).
    destruct (IH (m' :: ms) (f' :: fs) cols (S i) _ _ ltac:(done) ltac:(done) ltac:(by constructor) Hms Hrs Hat' Hcols')
      as (d & Ed & ->).
    exists d. split; [done|]. do 2 f_equal. apply bool_decide_ext. cbn [length]. lia.
Qed.
End Loop.

(** ** Whole records *)

Lemma null_type_0 ff recs : Forall (fun m => m <> MNoChange) recs ->
  Forall2 (fun m f => is_null (stored m) = true -> f.2 = 0) recs (field_types ff recs).1.
Proof.
  induction 1 as [|r recs Hr _ IH]; cbn [field_types]; [constructor|].
  destruct (field_types ff recs) as [fs st]. cbn [fst] in IH.
  destruct (field_type ff r st) as [[m t] st'] eqn:E. constructor; [|done].
  destruct r; cbn [stored is_null field_type] in *; try done; [by injection E as _ <-|by case_decide].
Qed.

(** A record of the registers [recs], and a key it can be compared with. *)
Record comparable (cols : list (option CollSeq * Z)) (recs : list Mem) (p : UnpackedRecord) : Prop := {
  cm_recs : Forall mem_ok recs;
  cm_marker : Forall (fun m => m <> MNoChange) recs;
  cm_record : recs <> [];
  cm_key : aMem p <> [];
  cm_zero : Forall rhs_ok (aMem p);
  cm_columns : columns_at p cols 0 (aMem p)
}.

(** The layout of the record. *)
Record layout (key : bytes) (ms : list Mem) (fs : list (Mem * Z)) (hs : Z) : Prop := {
  ly_fields : key_fields ms fs;
  ly_marker : Forall no_marker ms;
  ly_key : key = sqlite3PutVarint hs ++ header fs ++ full_data fs;
  ly_header : hs = Z.of_nat (length (sqlite3PutVarint hs)) + Z.of_nat (length (header fs));
  ly_size : hs + Z.of_nat (length (full_data fs)) < 2 ^ 31
}.

Lemma stored_marker m : m <> MNoChange -> stored m <> MNoChange.
Proof. destruct m; cbn [stored]; try done. by case_decide. Qed.

Lemma record_layout ff cols recs p : comparable cols recs p -> record_size ff recs < 2 ^ 31 ->
  exists fs hs, layout (record_bytes ff recs) (stored <$> recs) fs hs.
Proof.
  intros [Hok Hm _ _ _ _] Hsize.
  destruct (record_bytes_fields ff recs Hok Hsize) as (fs & hs & Eft & Hfs & Hk & Hhs & Hl).
  exists fs, hs. split; [|by apply Forall_fmap, (list.Forall_impl _ _ _ Hm stored_marker)|done|done|done].
  pose proof (null_type_0 ff recs Hm) as Hn. rewrite Eft in Hn. cbn [fst] in Hn. clear Eft Hk Hhs Hl Hsize Hok Hm.
  unfold key_fields, fields_ok in *. induction Hfs as [|r f recs fs Hf _ IH]; [constructor|].
  apply Forall2_cons in Hn as [Hn1 Hn2]. constructor; [by split|by apply IH].
Qed.

Section Layout.
Context (key : bytes) (ms : list Mem) (fs : list (Mem * Z)) (hs : Z).
Hypothesis Hly : layout key ms fs hs.

Lemma layout_size : nKey1 key = hs + Z.of_nat (length (full_data fs)).
Proof. unfold nKey1. rewrite (ly_key _ _ _ _ Hly), !length_app. pose proof (ly_header _ _ _ _ Hly). lia. Qed.

Lemma layout_hs : 0 <= hs <= nKey1 key /\ nKey1 key < 2 ^ 31.
Proof. rewrite layout_size. pose proof (ly_header _ _ _ _ Hly). pose proof (ly_size _ _ _ _ Hly). lia. Qed.

Lemma layout_varint : getVarint32 key = Some (Z.of_nat (length (sqlite3PutVarint hs)), hs).
Proof.
  pose proof layout_hs. destruct (key_fields_bytes _ _ (ly_fields _ _ _ _ Hly)).
  rewrite (ly_key _ _ _ _ Hly). apply getVarint32_PutVarint; [unfold in_u; lia|by apply bytes_ok_app].
Qed.

Lemma layout_stands : stands_at key hs fs hs (Z.of_nat (length (sqlite3PutVarint hs))).
Proof.
  pose proof layout_hs. pose proof layout_size. pose proof (ly_header _ _ _ _ Hly) as Hh.
  destruct (key_fields_bytes _ _ (ly_fields _ _ _ _ Hly)). split; [lia| |exists (full_data fs)|lia|lia].
  - unfold at_key. rewrite (ly_key _ _ _ _ Hly), app_assoc. apply drop_app_length'. rewrite length_app. lia.
  - split; [|done]. unfold at_key. rewrite (ly_key _ _ _ _ Hly). apply drop_app_length'. lia.
Qed.

Lemma RecordCompare_loop p : sqlite3VdbeRecordCompare key p =
  compare_loop key p (aMem p) 0 hs (Z.of_nat (length (sqlite3PutVarint hs))) hs.
Proof.
  unfold sqlite3VdbeRecordCompare, sqlite3VdbeRecordCompareWithSkip. rewrite layout_varint. cbn [mbind option_bind].
  rewrite decide_False; [done|]. pose proof layout_hs. lia.
Qed.

Lemma RecordCompare_ok p cols : ms <> [] -> aMem p <> [] -> Forall rhs_ok (aMem p) -> columns_at p cols 0 (aMem p) ->
  exists d, first_difference cols ms (aMem p) = Some d /\
    sqlite3VdbeRecordCompare key p = Some (outcome p d (bool_decide (length (aMem p) <= length ms)%nat)).
Proof.
  intros. rewrite RecordCompare_loop. pose proof layout_hs.
  apply (compare_loop_ok key p hs ltac:(lia) ltac:(lia) _ ms fs cols); try done; apply layout_stands || apply Hly.
Qed.
End Layout.

(** ** The fast forms *)

(** Two results a search takes the same way: what is used of [rc] is its sign. *)
Definition same_result (c c' : compared) : Prop :=
  Z.sgn (rc c) = Z.sgn (rc c') /\ errCode c = errCode c' /\ eqSeen c = eqSeen c'.

Lemma same_refl c : same_result c c.
Proof. done. Qed.

(** The results [sqlite3VdbeFindCompare] caches for a first column sorted by [flags]. *)
Definition results_for (flags : Z) (p : UnpackedRecord) : Prop :=
  (flags = 0 /\ r1 p = -1 /\ r2 p = 1) \/
  (flags <> 0 /\ Z.land flags KEYINFO_ORDER_BIGNULL = 0 /\ r1 p = 1 /\ r2 p = -1).

Lemma results_less flags p null x : results_for flags p -> x < 0 -> same_result (differs (r1 p)) (differs (sort_rc flags null x)).
Proof.
  intros Hr Hx. unfold same_result, differs, sort_rc. cbn [rc errCode eqSeen]. split; [|done].
  destruct Hr as [(-> & -> & _)|(Hne & Hb & -> & _)].
  - rewrite decide_False by lia. lia.
  - rewrite decide_True by done. rewrite decide_True by (by left). lia.
Qed.

Lemma results_greater flags p null x : results_for flags p -> 0 < x -> same_result (differs (r2 p)) (differs (sort_rc flags null x)).
Proof.
  intros Hr Hx. unfold same_result, differs, sort_rc. cbn [rc errCode eqSeen]. split; [|done].
  destruct Hr as [(-> & _ & ->)|(Hne & Hb & _ & ->)].
  - rewrite decide_False by lia. lia.
  - rewrite decide_True by done. rewrite decide_True by (by left). lia.
Qed.

Section Fast.
Context (key : bytes) (m : Mem) (ms : list Mem) (f : Mem * Z) (fs : list (Mem * Z)) (hs : Z).
Context (p : UnpackedRecord) (r : Mem) (rhs : list Mem) (coll : option CollSeq) (flags : Z) (cols : list (option CollSeq * Z)).
Hypothesis Hly : layout key (m :: ms) (f :: fs) hs.
Hypothesis Hhs : hs < 128.
Hypothesis Hmem : aMem p = r :: rhs.
Hypothesis Hrhs : Forall rhs_ok (aMem p).
Hypothesis Hcols : columns_at p ((coll, flags) :: cols) 0 (aMem p).
Hypothesis Hmany : (length (aMem p) <= length (m :: ms))%nat.
Hypothesis Hres : results_for flags p.

Lemma fast_field : exists c t, compare_field key p r 0 hs 1 = Some (Cmp c t) /\ sqlite3MemCompare m r coll = Some c /\
  (c = 0 -> t = f.2) /\ (t = 0 <-> is_null m = true).
Proof using Hly Hhs Hmem Hcols Hrhs.
  clear Hmany Hres. destruct (layout_hs _ _ _ _ Hly) as [Hk1 Hk2]. pose proof (layout_stands _ _ _ _ Hly) as Hat.
  rewrite PutVarint_small in Hat by lia.
  pose proof (ly_fields _ _ _ _ Hly) as Hf. pose proof (ly_marker _ _ _ _ Hly) as Hm. apply Forall2_cons in Hf as [Hf Hfs].
  apply Forall_cons in Hm as [Hm _]. rewrite Hmem in Hcols, Hrhs. apply Forall_cons in Hrhs as [Hr _].
  destruct (columns_cons _ _ _ _ _ _ Hcols) as (Hc & _ & Hn & _).
  apply (field_here key p hs Hk2 m f ms fs hs 1 0 r coll); done.
Qed.

Lemma fast_general : sqlite3VdbeRecordCompare key p = compare_loop key p (r :: rhs) 0 hs 1 hs.
Proof using Hly Hhs Hmem.
  clear Hmany Hres. pose proof (layout_hs _ _ _ _ Hly). rewrite (RecordCompare_loop _ _ _ _ Hly), Hmem, PutVarint_small by lia. done.
Qed.

Lemma fast_differs c t : compare_field key p r 0 hs 1 = Some (Cmp c t) -> c <> 0 ->
  exists null, sqlite3VdbeRecordCompare key p = Some (differs (sort_rc flags null c)).
Proof using Hly Hhs Hmem Hcols.
  clear Hmany Hres. intros E Hc. rewrite fast_general. cbn [compare_loop]. rewrite E. cbn [mbind option_bind].
  rewrite decide_True by done. rewrite Hmem in Hcols. destruct (columns_cons _ _ _ _ _ _ Hcols) as (_ & -> & _). by eexists.
Qed.

(** Once the first fields are equal, the fast forms go on as the general one does. *)
Lemma fast_rest t : compare_field key p r 0 hs 1 = Some (Cmp 0 t) -> t = f.2 ->
  compare_rest key p = sqlite3VdbeRecordCompare key p.
Proof using Hly Hhs Hmem Hmany.
  intros E ->. rewrite fast_general. cbn [compare_loop]. rewrite E. cbn [mbind option_bind].
  rewrite decide_False by lia. unfold compare_rest. rewrite Hmem.
  destruct rhs as [|r' rhs']; [done|]. rewrite decide_True by (cbn [length]; lia).
  destruct (layout_hs _ _ _ _ Hly) as [Hk1 Hk2]. pose proof (layout_stands _ _ _ _ Hly) as Hat.
  pose proof (ly_fields _ _ _ _ Hly) as Hf. apply Forall2_cons in Hf as [Hf Hfs].
  rewrite PutVarint_small in Hat by lia. change (Z.of_nat (length [hs])) with 1 in Hat.
  destruct (stands_next key hs Hk2 (proj2 Hk1) m f ms fs hs 1 Hf Hfs Hat) as (E1 & E2 & Hend & Hat').
  unfold sqlite3VdbeRecordCompareWithSkip. rewrite Hmem. cbn [tail].
  destruct (sa_header _ _ _ _ _ Hat) as (rest & Hh & Hrest). change (drop 1 key) with (at_key key 1).
  rewrite Hh, header_cons, <- app_assoc. destruct (key_fields_bytes _ _ Hfs).
  rewrite getVarint32_PutVarint by (apply (proj1 Hf) || by apply bytes_ok_app). cbn [mbind option_bind].
  assert (head key = Some hs) as -> by (rewrite (ly_key _ _ _ _ Hly), PutVarint_small by lia; done).
  cbn [mbind option_bind]. rewrite E1, E2.
  assert (~ nKey1 key < hs + Z.of_nat (length (full_payload f))) as Hn
    by (pose proof (sa_len _ _ _ _ _ Hat'); lia).
  rewrite !(decide_False (P := nKey1 key < _)) by exact Hn. rewrite decide_False; [done|].
  rewrite Hend. intros ->. apply Forall2_nil_inv_r in Hfs as ->. rewrite Hmem in Hmany. cbn in Hmany. lia.
Qed.
End Fast.

Section Forms.
Context (key : bytes) (m : Mem) (ms : list Mem) (f : Mem * Z) (fs : list (Mem * Z)) (hs : Z).
Context (p : UnpackedRecord) (r : Mem) (rhs : list Mem) (coll : option CollSeq) (flags : Z) (cols : list (option CollSeq * Z)).
Hypothesis Hly : layout key (m :: ms) (f :: fs) hs.
Hypothesis Hmem : aMem p = r :: rhs.
Hypothesis Hrhs : Forall rhs_ok (aMem p).
Hypothesis Hcols : columns_at p ((coll, flags) :: cols) 0 (aMem p).
Hypothesis Hmany : (length (aMem p) <= length (m :: ms))%nat.
Hypothesis Hres : results_for flags p.

(** Both ends of the fast forms: the first fields differ, or they are equal. *)
Lemma forms_agree c t : hs < 128 -> compare_field key p r 0 hs 1 = Some (Cmp c t) -> (c = 0 -> t = f.2) ->
  exists c1 c2, (if decide (c < 0) then Some (differs (r1 p)) else if decide (0 < c) then Some (differs (r2 p)) else compare_rest key p) = Some c1 /\
    sqlite3VdbeRecordCompare key p = Some c2 /\ same_result c1 c2.
Proof using All.
  intros Hhs E Ht. destruct (decide (c = 0)) as [->|Hc].
  - rewrite !decide_False by lia.
    erewrite fast_rest; try done; [|by apply Ht].
    destruct (RecordCompare_ok _ _ _ _ Hly p ((coll, flags) :: cols)) as (d & _ & ->); try done; [by rewrite Hmem|].
    eexists _, _. done.
  - destruct (fast_differs key m ms f fs hs p r rhs coll flags cols Hly Hhs Hmem Hcols c t E Hc) as [null ->].
    destruct (decide (c < 0)).
    + eexists _, _. do 2 (split; [done|]). by apply results_less.
    + rewrite decide_True by lia. eexists _, _. do 2 (split; [done|]). apply results_greater; [done|lia].
Qed.

(** The first two bytes of the record, and the data behind its header. *)
Lemma form_bytes : hs < 128 -> exists b, head key = Some hs /\ key !! 1%nat = Some b /\
  (f.2 < 128 -> b = f.2) /\ (128 <= f.2 -> 128 <= b < 256) /\
  (exists n, getVarint32 (drop 1 key) = Some (n, f.2)) /\
  at_key key hs = full_payload f ++ full_data fs /\ bytes_ok (full_data fs) /\
  hs + Z.of_nat (length (full_payload f)) <= nKey1 key.
Proof using Hly.
  clear Hmany Hres. intros Hhs. pose proof (layout_hs _ _ _ _ Hly) as Hk. pose proof (layout_stands _ _ _ _ Hly) as Hat.
  pose proof (ly_fields _ _ _ _ Hly) as Hf. apply Forall2_cons in Hf as [Hf Hfs].
  destruct (key_fields_bytes _ _ Hfs) as [Hb1 Hb2]. pose proof (ly_key _ _ _ _ Hly) as Hkey.
  rewrite PutVarint_small in Hkey, Hat by lia. rewrite header_cons, <- app_assoc in Hkey.
  assert (Hb : bytes_ok (header fs ++ full_data (f :: fs))).
  { rewrite full_data_cons. apply bytes_ok_app. split; [done|]. apply bytes_ok_app. split; [apply (proj1 Hf)|done]. }
  pose proof (fo_type _ _ (proj1 Hf)) as Ht. destruct (type_byte f.2 _ Ht Hb) as (b & Hhead & Hs & Hlg).
  exists b. pose proof (sa_data _ _ _ _ _ Hat) as Hd. pose proof (sa_len _ _ _ _ _ Hat) as Hl.
  rewrite full_data_cons, ?length_app in *. rewrite Hkey in Hd, Hl |- *. cbn [app drop head lookup list_lookup] in *.
  rewrite drop_0, getVarint32_PutVarint by done. split; [done|]. split; [by rewrite head_lookup in Hhead|]. split; [done|].
  split; [|split; [by eexists|split; [done|split; [done|lia]]]].
  intros H128. specialize (Hlg H128). split; [done|].
  assert (bytes_ok (sqlite3PutVarint f.2)) as Hok by (apply sqlite3PutVarint_ok; unfold in_u in *; lia).
  destruct (sqlite3PutVarint f.2) as [|x l] eqn:E; cbn [app head] in Hhead.
  - exfalso. pose proof (length_sqlite3PutVarint f.2 ltac:(unfold in_u in *; lia)) as Hlen. rewrite E in Hlen.
    unfold varint_bytes in Hlen. cbn [length] in Hlen. case_decide; lia.
  - injection Hhead as ->. apply Forall_cons in Hok as [Hx _]. unfold byte_ok in Hx. lia.
Qed.

(** The integer form.  A header of up to 63 bytes is what 13 fields allow when the first type is one byte. *)
Lemma int_form j : hs < 128 -> (f.2 < 128 -> hs <= 63) -> r = MInt j -> u_i p = j ->
  exists c1 c2, vdbeRecordCompareInt key p = Some c1 /\ sqlite3VdbeRecordCompare key p = Some c2 /\ same_result c1 c2.
Proof using All.
  intros Hhs H63 Hr Hu. destruct (form_bytes Hhs) as (b & Hk0 & Hk1 & Hs & Hlg & _ & Hd & Hok & _).
  unfold vdbeRecordCompareInt. rewrite Hk0. cbn [mbind option_bind]. rewrite Hk1. cbn [mbind option_bind].
  destruct (decide _) as [Hint|Hint].
  2: { destruct (RecordCompare_ok _ _ _ _ Hly p ((coll, flags) :: cols)) as (d & _ & ->); try done; [by rewrite Hmem|].
    eexists _, _. done. }
  assert (Ht : f.2 < 128) by lia. specialize (Hs Ht). specialize (H63 Ht). subst b.
  assert (Z.land hs 0x3F = hs) as ->.
  { pose proof (layout_hs _ _ _ _ Hly). change 0x3F with (Z.ones 6). rewrite Z.land_ones by lia. apply Z.mod_small. lia. }
  destruct (fast_field key m ms f fs hs p r rhs coll flags cols Hly Hhs Hmem Hrhs Hcols) as (c & t & Ec & Em & Htc & _).
  destruct (forms_agree c t Hhs Ec Htc) as (c1 & c2 & E1 & E2 & Hsame). exists c1, c2. split; [|done]. rewrite <- E1. clear E1.
  pose proof (ly_fields _ _ _ _ Hly) as Hf. pose proof (ly_marker _ _ _ _ Hly) as Hm. apply Forall2_cons in Hf as [Hf _].
  apply Forall_cons in Hm as [Hm _]. pose proof (field_view_ok _ _ _ Hf Hm Hok) as Hview. rewrite <- Hd in Hview.
  destruct m as [| |k|k|x|z|z|z k]; try (exfalso; cbn [field_view] in Hview; lia).
  destruct Hview as (_ & -> & _). cbn [mbind option_bind]. rewrite Hu. subst r. cbn in Em. injection Em as <-.
  unfold compare_ints. repeat case_decide; done || lia.
Qed.

(** The string form, for types that fit an [int]. *)
Lemma string_form z : hs < 128 -> f.2 < 2 ^ 31 -> coll = None -> r = MStr z -> u_z p = z ->
  exists c1 c2, vdbeRecordCompareString key p = Some c1 /\ sqlite3VdbeRecordCompare key p = Some c2 /\ same_result c1 c2.
Proof using All.
  intros Hhs H31 Hcoll Hr Hu. destruct (form_bytes Hhs) as (b & Hk0 & Hk1 & Hs & Hlg & [n Hg] & Hd & Hok & Hsize).
  pose proof (ly_fields _ _ _ _ Hly) as Hf. pose proof (ly_marker _ _ _ _ Hly) as Hm. apply Forall2_cons in Hf as [Hf _].
  apply Forall_cons in Hm as [Hm _]. pose proof (field_view_ok _ _ _ Hf Hm Hok) as Hview. rewrite <- Hd in Hview.
  pose proof (fo_type _ _ (proj1 Hf)) as Ht. unfold in_u in Ht.
  unfold vdbeRecordCompareString. rewrite Hk1. cbn [mbind option_bind].
  assert ((if decide (i8 b < 0) then '(_, t) ← getVarint32 (drop 1 key); Some (i32 t) else Some (i8 b)) = Some f.2) as ->.
  { rewrite Hg. cbn [mbind option_bind]. destruct (decide (f.2 < 128)) as [H|H].
    - rewrite (Hs H). rewrite decide_False; unfold i8, wraps; [f_equal; mods|mods].
    - assert (128 <= b < 256) by lia. rewrite decide_True by (unfold i8, wraps; mods). f_equal. unfold i32, wraps. mods. }
  cbn [mbind option_bind].
  destruct (fast_field key m ms f fs hs p r rhs coll flags cols Hly Hhs Hmem Hrhs Hcols) as (c & t & Ec & Em & Htc & _).
  destruct (forms_agree c t Hhs Ec Htc) as (c1 & c2 & E1 & E2 & Hsame). exists c1, c2. split; [|done]. rewrite <- E1. clear E1.
  subst r coll. destruct m as [| |k|k|x|w|w|w k]; cbn [field_view] in Hview; try done.
  - rewrite decide_True by lia. cbn in Em. by injection Em as <-.
  - rewrite decide_True by lia. cbn in Em. by injection Em as <-.
  - rewrite decide_True by lia. cbn in Em. by injection Em as <-.
  - destruct Hview as (H12 & Hl & Hlen & Hw & Hn). rewrite decide_False, decide_False, Hk0 by lia. cbn [mbind option_bind].
    rewrite Hlen, decide_False by lia. rewrite Hu.
    destruct (compare_bytes_ok key hs w z (drop (length w) (at_key key hs))) as (rc & -> & Hrc).
    { rewrite <- Hn. by apply text_bytes. }
    cbn [mbind option_bind]. unfold sqlite3MemCompare in Em. cbn in Em. unfold mem_n in Em. cbn [mem_z] in Em.
    rewrite Hrc in Em. injection Em as ->. repeat case_decide; done || lia.
  - destruct Hview as (H12 & Hl & _). rewrite decide_False, decide_True by lia. cbn in Em. by injection Em as <-.
Qed.
End Forms.

(** ** The choice of a form *)

Lemma varint_5 v : in_u 32 v -> (length (sqlite3PutVarint v) <= 5)%nat.
Proof.
  intros Hv. unfold in_u in Hv. apply Nat2Z.inj_le. rewrite <- sqlite3VarintLen_PutVarint by lia.
  rewrite VarintLen_cases by lia. repeat case_decide; lia.
Qed.

Lemma header_length ms fs : key_fields ms fs -> (length (header fs) <= 5 * length ms)%nat.
Proof.
  induction 1 as [|m f ms fs [Hf _] _ IH]; [done|]. rewrite header_cons, length_app. cbn [length].
  pose proof (varint_5 f.2 (fo_type _ _ Hf)). lia.
Qed.

(** The header of a record of up to 13 fields. *)
Lemma small_header key m ms f fs hs : layout key (m :: ms) (f :: fs) hs -> (length (m :: ms) <= 13)%nat ->
  hs < 128 /\ (f.2 < 128 -> hs <= 63).
Proof.
  intros Hly Hn. pose proof (layout_hs _ _ _ _ Hly) as Hk. pose proof (ly_header _ _ _ _ Hly) as Hh.
  pose proof (ly_fields _ _ _ _ Hly) as Hf. apply Forall2_cons in Hf as [[Hf _] Hfs].
  pose proof (header_length _ _ Hfs) as Hl. pose proof (fo_type _ _ Hf) as Ht. pose proof (varint_5 _ Ht) as H5.
  pose proof (varint_5 hs ltac:(unfold in_u; lia)) as Hs5. cbn [length] in Hn.
  rewrite header_cons, length_app in Hh. assert (hs < 128) by lia. split; [done|]. intros Hlt. unfold in_u in Ht.
  rewrite (PutVarint_small hs), (PutVarint_small f.2) in Hh by lia. cbn [length] in Hh. lia.
Qed.

(** The first type of a record within the length limit. *)
Lemma type_31 key m ms f fs hs : layout key (m :: ms) (f :: fs) hs -> nKey1 key <= SQLITE_MAX_LENGTH -> f.2 < 2 ^ 31.
Proof.
  intros Hly Hk. pose proof (layout_size _ _ _ _ Hly) as Hs. pose proof (layout_hs _ _ _ _ Hly).
  pose proof (ly_fields _ _ _ _ Hly) as Hf. apply Forall2_cons in Hf as [[Hf _] _].
  rewrite full_data_cons, length_app in Hs. pose proof (fo_type _ _ Hf) as Ht. pose proof (fo_len _ _ Hf) as Hl.
  unfold in_u in Ht. unfold SQLITE_MAX_LENGTH in Hk. destruct (decide (f.2 < 12)); [lia|].
  rewrite sqlite3VdbeSerialTypeLen_text in Hl by lia. mods.
Qed.

(** What is cached for a form. *)
Definition form_for (g : RecordCompare) (p : UnpackedRecord) (r : Mem) (coll : option CollSeq) (flags : Z) : Prop :=
  match g with
  | CompareRecord => True
  | CompareInt => r = MInt (u_i p) /\ nAllField p <= 13 /\ results_for flags p
  | CompareString => r = MStr (u_z p) /\ nAllField p <= 13 /\ coll = None /\ results_for flags p
  end.

(** The key after [sqlite3VdbeFindCompare] is the same key for the general form. *)
Definition same_key (p p' : UnpackedRecord) : Prop :=
  aMem p' = aMem p /\ aColl p' = aColl p /\ aSortFlags p' = aSortFlags p /\ nAllField p' = nAllField p /\
  forall key, sqlite3VdbeRecordCompare key p' = sqlite3VdbeRecordCompare key p.

Lemma FindCompare_cases p r rhs coll flags cols :
  aMem p = r :: rhs -> columns_at p ((coll, flags) :: cols) 0 (aMem p) ->
  exists g p', sqlite3VdbeFindCompare p = Some (g, p') /\ same_key p p' /\ form_for g p' r coll flags.
Proof.
  intros Hmem Hcols. rewrite Hmem in Hcols. destruct (columns_cons _ _ _ _ _ _ Hcols) as (Hc & Hf & _ & _).
  unfold sqlite3VdbeFindCompare. rewrite Hmem, (head_lookup (aSortFlags p)), Hf. cbn [head mbind option_bind fst snd].
  destruct (decide (nAllField p <= 13)) as [H13|]; [|by exists CompareRecord, p].
  destruct (decide (flags <> 0 /\ _)) as [|Hb]; [by exists CompareRecord, p|].
  set (p1 := if decide (flags <> 0) then _ else _).
  assert (Hp1 : same_key p p1 /\ results_for flags p1).
  { subst p1. destruct (decide (flags <> 0)) as [Hne|He]; (split; [done|]); [right|left; split; [lia|done]].
    split; [done|]. split; [|done]. destruct (decide (Z.land flags KEYINFO_ORDER_BIGNULL = 0)); [done|by destruct Hb]. }
  clearbody p1. destruct Hp1 as [Hsame Hres]. pose proof Hsame as (_ & Hc1 & _ & Hn & _).
  destruct r as [| |j|j|x|z|z|z k]; try (by exists CompareRecord, p1).
  - exists CompareInt, (with_i j p1). split; [done|]. split; [done|]. split; [done|]. split; [cbn; lia|done].
  - rewrite Hc1, head_lookup, Hc. destruct coll as [xCmp|]; cbn [mbind option_bind]; [by exists CompareRecord, p1|].
    exists CompareString, (with_z z p1). split; [done|]. split; [done|]. split; [done|]. split; [cbn; lia|done].
Qed.

(** C13: The fast comparisons give the result of the general one.  For a record with at
    least the fields of the key, whichever of the three functions
    [sqlite3VdbeFindCompare] returns answers with the sign and the flags that the general
    comparison has. *)
Theorem fast_compares_agree ff limit szMalloc stale recs cols p z tail :
  comparable cols recs p -> (length (aMem p) <= length recs)%nat -> Z.of_nat (length recs) <= nAllField p ->
  limit <= SQLITE_MAX_LENGTH -> szMalloc <= SQLITE_MAX_LENGTH ->
  OP_MakeRecord ff limit szMalloc stale recs = Some (Made z tail) ->
  exists g p' c c', sqlite3VdbeFindCompare p = Some (g, p') /\
    run_compare g (z ++ replicate (Z.to_nat tail) 0) p' = Some c /\
    sqlite3VdbeRecordCompare (z ++ replicate (Z.to_nat tail) 0) p = Some c' /\ same_result c c'.
Proof.
  intros Hc Hmany Hrecs Hlimit Hmalloc E. unfold SQLITE_MAX_LENGTH in Hlimit, Hmalloc.
  pose proof (OP_MakeRecord_bytes ff limit szMalloc stale recs (cm_recs _ _ _ Hc) ltac:(lia) ltac:(lia)) as H.
  rewrite E in H. destruct H as (Ebytes & Htail & Hlen & Hsize).
  destruct (record_layout ff _ _ _ Hc ltac:(lia)) as (fs & hs & Hly). rewrite <- Ebytes in Hly.
  assert (Hkey : nKey1 (z ++ replicate (Z.to_nat tail) 0) <= SQLITE_MAX_LENGTH).
  { unfold SQLITE_MAX_LENGTH, nKey1. rewrite length_app, length_replicate. lia. }
  set (key := z ++ _) in *. clearbody key. clear Ebytes Hlen Hsize E.
  destruct Hc as [_ _ Hr Hk Hz Hcol]. destruct (aMem p) as [|r rhs] eqn:Hmem; [done|].
  destruct cols as [|[coll flags] cols]; [by destruct Hcol as (_ & _ & Hl & _); cbn in Hl; lia|].
  rewrite <- Hmem in Hcol, Hz.
  destruct (FindCompare_cases p r rhs coll flags cols Hmem Hcol) as (g & p' & -> & (Em & Ec & Ef & En & Egen) & Hform).
  exists g, p'. rewrite <- (length_fmap stored recs) in Hmany, Hrecs. 
  destruct (stored <$> recs) as [|m ms] eqn:Ems; [by destruct recs|].
  pose proof (Forall2_length _ _ _ (ly_fields _ _ _ _ Hly)) as Hlf. destruct fs as [|f fs]; [done|].
  assert (Hcol' : columns_at p' ((coll, flags) :: cols) 0 (aMem p')) by (unfold columns_at; by rewrite Ec, Ef, En, Em).
  assert (Hz' : Forall rhs_ok (aMem p')) by (by rewrite Em). rewrite Hmem in Em.
  assert (Hmany' : (length (aMem p') <= length (m :: ms))%nat) by (by rewrite Em).
  rewrite <- Egen. clear Egen. destruct g; cbn [run_compare form_for] in *.
  - destruct (RecordCompare_ok key (m :: ms) (f :: fs) hs Hly p' ((coll, flags) :: cols)) as (d & _ & ->); try done; [by rewrite Em|].
    by eexists _, _.
  - destruct Hform as (-> & H13 & Hres). destruct (small_header _ _ _ _ _ _ Hly ltac:(lia)) as [Hhs H63].
    destruct (int_form key m ms f fs hs p' _ rhs coll flags cols Hly Em Hz' Hcol' Hmany' Hres _ Hhs H63 eq_refl eq_refl) as (c & c' & ?).
    by exists c, c'.
  - destruct Hform as (-> & H13 & -> & Hres). destruct (small_header _ _ _ _ _ _ Hly ltac:(lia)) as [Hhs H63].
    destruct (string_form key m ms f fs hs p' _ rhs None flags cols Hly Em Hz' Hcol' Hmany' Hres _ Hhs (type_31 _ _ _ _ _ _ Hly Hkey) eq_refl eq_refl eq_refl) as (c & c' & ?).
    by exists c, c'.
Qed.

(** ** The order of values *)

(** A value as the order sees it: a number in units of [2^-1074], a blob with its zeros. *)
Inductive value := VNull | VNumber (n : Z) | VText (z : bytes) | VBlob (z : bytes).

Definition value_of (m : Mem) : value :=
  match m with
  | MNull | MNoChange => VNull
  | MInt i | MIntReal i => VNumber (int_scaled i)
  | MReal r => VNumber (double_scaled r)
  | MStr z => VText z
  | MBlob z => VBlob z
  | MZeroBlob z k => VBlob (z ++ replicate (Z.to_nat k) 0)
  end.

(** A value of a register: no NaN, and a zero-filled blob is nothing but zeros. *)
Definition value_ok (m : Mem) : Prop :=
  match m with
  | MReal r => IsNaN r = false
  | MStr z | MBlob z => bytes_ok z
  | MZeroBlob z k => z = [] /\ 0 <= k
  | _ => True
  end.

(** The lexicographic order of bytes. *)
Fixpoint lexi (a b : bytes) : Z :=
  match a, b with
  | [], [] => 0
  | [], _ => -1
  | _, [] => 1
  | x :: a, y :: b => if decide (x = y) then lexi a b else Z.sgn (x - y)
  end.

Definition text_order (coll : option CollSeq) (a b : bytes) : Z :=
  match coll with Some xCmp => xCmp a b | None => lexi a b end.

Definition class (v : value) : Z := match v with VNull => 0 | VNumber _ => 1 | VText _ => 2 | VBlob _ => 3 end.

Definition value_order (coll : option CollSeq) (v w : value) : Z :=
  match v, w with
  | VNumber x, VNumber y => x - y
  | VText a, VText b => text_order coll a b
  | VBlob a, VBlob b => lexi a b
  | _, _ => class v - class w
  end.

(** What a collation must be: a total preorder given by the sign. *)
Record ordering (f : bytes -> bytes -> Z) : Prop := {
  ord_sym a b : Z.sgn (f a b) = - Z.sgn (f b a);
  ord_trans a b c : f a b <= 0 -> f b c <= 0 -> f a c <= 0
}.

Definition collation_ok (coll : option CollSeq) : Prop := match coll with Some xCmp => ordering xCmp | None => True end.

Lemma lexi_ordering : ordering lexi.
Proof.
  split.
  - induction a as [|x a IH]; intros [|y b]; try done. cbn [lexi].
    destruct (decide (x = y)) as [->|Hne]; [by rewrite decide_True by done|]. rewrite decide_False by congruence. lia.
  - induction a as [|x a IH]; intros [|y b] [|z c]; cbn [lexi]; try lia.
    destruct (decide (x = y)) as [->|H1], (decide (y = z)) as [->|H2].
    + apply IH.
    + lia.
    + rewrite decide_False by done. lia.
    + intros. rewrite decide_False by lia. lia.
Qed.

Lemma lexi_sgn a : forall b, Z.sgn (lexi a b) = lexi a b.
Proof. induction a as [|x a IH]; intros [|y b]; try done. cbn [lexi]. case_decide; [done|lia]. Qed.

Lemma text_ordering coll : collation_ok coll -> ordering (text_order coll).
Proof. destruct coll; [done|intros _; apply lexi_ordering]. Qed.

(** [memcmp] of the common length, then the lengths. *)
Lemma memcmp_lexi a : forall b, exists c, memcmp (length a `min` length b) a b = Some c /\
  Z.sgn (if decide (c <> 0) then c else Z.of_nat (length a) - Z.of_nat (length b)) = lexi a b.
Proof.
  induction a as [|x a IH]; intros [|y b].
  - by exists 0.
  - exists 0. split; [done|]. rewrite decide_False by lia. cbn [length lexi]. lia.
  - exists 0. split; [done|]. rewrite decide_False by lia. cbn [length lexi]. lia.
  - cbn [length Nat.min memcmp head tail lexi]. cbn [mbind option_bind]. destruct (decide (x = y)) as [->|Hne].
    + destruct (IH b) as (c & -> & Hc). exists c. split; [done|]. rewrite <- Hc. case_decide; [done|]. f_equal. lia.
    + exists (x - y). split; [done|]. by rewrite decide_True by lia.
Qed.

(** Zeros against bytes. *)
Lemma zeros_lexi k : forall b, bytes_ok b ->
  lexi (replicate k 0) b = if isAllZero b then Z.sgn (Z.of_nat k - Z.of_nat (length b)) else -1.
Proof.
  induction k as [|k IH]; intros [|y b] Hb; try done.
  - cbn [replicate lexi length]. destruct (isAllZero (y :: b)); lia.
  - apply Forall_cons in Hb as [Hy Hb]. unfold byte_ok in Hy. specialize (IH b Hb).
    cbn [replicate lexi isAllZero forallb length] in *. unfold isAllZero in IH.
    destruct (decide (0 = y)) as [<-|Hne]; cbn [andb].
    + rewrite bool_decide_eq_true_2, IH by done. cbn [andb]. destruct (forallb _ b); [f_equal; lia|done].
    + rewrite bool_decide_eq_false_2 by done. cbn [andb]. lia.
Qed.

Lemma int_scaled_order i j : Z.sgn (compare_ints i j) = Z.sgn (int_scaled i - int_scaled j).
Proof.
  unfold int_scaled. rewrite <- Z.mul_sub_distr_r, Z.sgn_mul, (Z.sgn_pos (2 ^ 1074)), Z.mul_1_r by (by vm_compute).
  unfold compare_ints. repeat case_decide; lia.
Qed.

Lemma doubles_order r s : IsNaN r = false -> IsNaN s = false ->
  Z.sgn (compare_doubles r s) = Z.sgn (double_scaled r - double_scaled s).
Proof.
  intros Hr Hs. unfold compare_doubles, double_lt. rewrite Hr, Hs. cbn [negb andb].
  destruct (bool_decide_reflect (double_scaled r < double_scaled s)); [lia|].
  destruct (bool_decide_reflect (double_scaled s < double_scaled r)); lia.
Qed.

Lemma int_double_order i r : IsNaN r = false ->
  Z.sgn (sqlite3IntFloatCompare i r) = Z.sgn (int_scaled i - double_scaled r).
Proof. intros Hr. unfold sqlite3IntFloatCompare. rewrite Hr. generalize (int_scaled i). intros. repeat case_decide; lia. Qed.

(** The bytes a text or blob stands for. *)
Definition content (m : Mem) : bytes :=
  match value_of m with VText z | VBlob z => z | _ => [] end.

Lemma BlobCompare_order a b : value_ok a -> value_ok b -> 2 <= class (value_of a) -> 2 <= class (value_of b) ->
  exists rc, sqlite3BlobCompare a b = Some rc /\ Z.sgn rc = lexi (content a) (content b).
Proof.
  assert (Hbytes : forall x y, exists rc,
    (c ← memcmp (length x `min` length y) x y; Some (if decide (c <> 0) then c else Z.of_nat (length x) - Z.of_nat (length y))) = Some rc /\
    Z.sgn rc = lexi x y).
  { intros x y. destruct (memcmp_lexi x y) as (c & -> & Hc). by eexists. }
  assert (Hzero : forall n y, 0 <= n -> bytes_ok y ->
    Z.sgn (if isAllZero y then n - Z.of_nat (length y) else -1) = lexi (replicate (Z.to_nat n) 0) y).
  { intros n y Hn Hy. rewrite zeros_lexi, Z2Nat.id by done. by destruct (isAllZero y). }
  assert (Hzero' : forall n y, 0 <= n -> bytes_ok y ->
    Z.sgn (if isAllZero y then Z.of_nat (length y) - n else 1) = lexi y (replicate (Z.to_nat n) 0)).
  { intros n y Hn Hy. pose proof (ord_sym _ lexi_ordering (replicate (Z.to_nat n) 0) y) as Hs. specialize (Hzero n y Hn Hy).
    assert (lexi y (replicate (Z.to_nat n) 0) = Z.sgn (lexi y (replicate (Z.to_nat n) 0))) as -> by (symmetry; apply lexi_sgn).
    rewrite <- Hzero in Hs. destruct (isAllZero y); lia. }
  destruct a as [| | | | |z|z|z k], b as [| | | | |w|w|w l]; try (cbn; lia); intros Ha Hb _ _; cbn [value_ok] in Ha, Hb;
    try destruct Ha as [-> Hk]; try destruct Hb as [-> Hl]; cbn [sqlite3BlobCompare content value_of app mem_z]; unfold mem_n; cbn [mem_z];
    try apply Hbytes; eexists; (split; [done|]); auto.
  rewrite zeros_lexi by (apply Forall_replicate; unfold byte_ok; lia).
  assert (isAllZero (replicate (Z.to_nat l) 0) = true) as ->.
  { clear. unfold isAllZero. induction (Z.to_nat l) as [|n IH]; [done|]. cbn [replicate forallb]. by rewrite IH. }
  rewrite length_replicate. lia.
Qed.

Lemma value_class_sgn coll v w : class v <> class w -> value_order coll v w = class v - class w.
Proof. by destruct v, w. Qed.

#[local] Opaque int_scaled double_scaled.

Lemma numbers_order coll a b : value_ok a -> value_ok b -> class (value_of a) = 1 -> class (value_of b) = 1 ->
  exists rc, sqlite3MemCompare a b coll = Some rc /\ Z.sgn rc = Z.sgn (value_order coll (value_of a) (value_of b)).
Proof.
  intros Ha Hb. destruct a as [| |i|i|r|z|z|z k], b as [| |j|j|s|w|w|w l]; try done; intros _ _;
    (eexists; split; [reflexivity|]); cbn [value_of value_order];
    first [apply int_scaled_order | by apply doubles_order | by apply int_double_order | idtac];
    (rewrite Z.sgn_opp, int_double_order by done; lia).
Qed.

Lemma texts_order coll a b : value_ok a -> value_ok b -> 2 <= class (value_of a) -> class (value_of a) = class (value_of b) ->
  exists rc, sqlite3MemCompare a b coll = Some rc /\ Z.sgn rc = Z.sgn (value_order coll (value_of a) (value_of b)).
Proof.
  intros Ha Hb H1 H2. destruct (BlobCompare_order a b Ha Hb H1 ltac:(lia)) as (rc & E & Hs).
  destruct a as [| |i|i|r|z|z|z k], b as [| |j|j|s|w|w|w l]; try done; try (cbn in H1; lia);
    try (exists rc; split; [exact E|]; rewrite Hs; symmetry; apply lexi_sgn).
  destruct coll as [xCmp|]; [by exists (xCmp z w)|]. exists rc. split; [exact E|]. rewrite Hs. symmetry. apply lexi_sgn.
Qed.

(** [sqlite3MemCompare] has the sign of the order of values. *)
Lemma MemCompare_order coll a b : value_ok a -> value_ok b ->
  exists rc, sqlite3MemCompare a b coll = Some rc /\ Z.sgn rc = Z.sgn (value_order coll (value_of a) (value_of b)).
Proof.
  intros Ha Hb. destruct (decide (class (value_of a) = class (value_of b))) as [E|E].
  - destruct (decide (class (value_of a) = 1)); [by apply numbers_order; [..|congruence]|].
    destruct (decide (2 <= class (value_of a))); [by apply texts_order|].
    destruct a, b; cbn in E, n, n0; try lia; by exists 0.
  - rewrite value_class_sgn by done.
    destruct a, b; try done; eexists; (split; [reflexivity|done]).
Qed.

Lemma value_ordering coll v w x : collation_ok coll ->
  Z.sgn (value_order coll v w) = - Z.sgn (value_order coll w v) /\
  (value_order coll v w <= 0 -> value_order coll w x <= 0 -> value_order coll v x <= 0).
Proof.
  intros Hc. pose proof (text_ordering coll Hc) as [Hts Htt]. pose proof lexi_ordering as [Hls Hlt]. split.
  - destruct v, w; cbn [value_order class]; try done; lia.
  - destruct v, w; cbn [value_order class]; try lia; destruct x; cbn [value_order class]; try lia; [apply Htt|apply Hlt].
Qed.

(** C14: The comparison of values is a total preorder.  [sqlite3MemCompare] answers for
    any two values, swapping them negates the sign and the relation is transitive, with
    integers compared to doubles exactly and zero-filled blobs to materialised ones,
    when the collation is such an order of strings. *)
Theorem values_totally_ordered coll a b c : collation_ok coll -> value_ok a -> value_ok b -> value_ok c ->
  exists ab ba bc ac,
    sqlite3MemCompare a b coll = Some ab /\ sqlite3MemCompare b a coll = Some ba /\
    sqlite3MemCompare b c coll = Some bc /\ sqlite3MemCompare a c coll = Some ac /\
    Z.sgn ab = - Z.sgn ba /\ (ab <= 0 -> bc <= 0 -> ac <= 0).
Proof.
  intros Hcoll Ha Hb Hc.
  destruct (MemCompare_order coll a b Ha Hb) as (ab & Eab & Hab), (MemCompare_order coll b a Hb Ha) as (ba & Eba & Hba),
    (MemCompare_order coll b c Hb Hc) as (bc & Ebc & Hbc), (MemCompare_order coll a c Ha Hc) as (ac & Eac & Hac).
  destruct (value_ordering coll (value_of a) (value_of b) (value_of c) Hcoll) as [Hsym Htrans].
  exists ab, ba, bc, ac. do 4 (split; [done|]). split; [congruence|]. lia.
Qed.

(** *** The order of records

    What the sort order of a column means, by values: NULL is below every
    other value, or above every other one in a column where it counts as the
    biggest, and a descending column reverses the whole order. *)

Record sort_column := { collation : option CollSeq; descending : bool; nulls_biggest : bool }.

(** The column as the key describes it. *)
Definition key_column (k : sort_column) : option CollSeq * Z :=
  (collation k, (if descending k then 1 else 0) + (if nulls_biggest k then 2 else 0)).

(** Negative when a row with [v] in the column comes before one with [w],
    positive when it comes after. *)
Definition column_order (k : sort_column) (v w : value) : Z :=
  match v, w with
  | VNull, VNull => 0
  | VNull, _ => if Bool.eqb (descending k) (nulls_biggest k) then -1 else 1
  | _, VNull => if Bool.eqb (descending k) (nulls_biggest k) then 1 else -1
  | _, _ => if descending k then - value_order (collation k) v w else value_order (collation k) v w
  end.

(** Rows compare as the first column that tells them apart does, among those both have. *)
Fixpoint row_order (ks : list sort_column) (vs ws : list value) : Z :=
  match ks, vs, ws with
  | k :: ks, v :: vs, w :: ws =>
      if decide (column_order k v w = 0) then row_order ks vs ws else column_order k v w
  | _, _, _ => 0
  end.

Ltac null_cases m r E :=
  destruct m, r; intros; try discriminate; cbn in E |- *; try (injection E as <-);
  repeat split; (reflexivity || discriminate).

Lemma sort_rc_column_order k m r rc : value_ok m -> value_ok r ->
  sqlite3MemCompare m r (collation k) = Some rc ->
  Z.sgn (if decide (rc <> 0) then sort_rc (key_column k).2 (is_null m || is_null r) rc else 0)
  = Z.sgn (column_order k (value_of m) (value_of r)).
Proof.
  intros Hm Hr E. destruct (MemCompare_order (collation k) m r Hm Hr) as (rc' & E' & Hs).
  rewrite E in E'. injection E' as <-.
  assert (is_null m = true -> is_null r = false -> rc = -1 /\ value_of m = VNull /\ value_of r <> VNull) as H1
    by (null_cases m r E).
  assert (is_null m = false -> is_null r = true -> rc = 1 /\ value_of m <> VNull /\ value_of r = VNull) as H2
    by (null_cases m r E).
  assert (is_null m = true -> is_null r = true -> rc = 0 /\ value_of m = VNull /\ value_of r = VNull) as H3
    by (null_cases m r E).
  assert (is_null m = false -> is_null r = false -> value_of m <> VNull /\ value_of r <> VNull) as H4
    by (null_cases m r E).
  destruct k as [coll desc big]. unfold key_column, column_order, sort_rc in *.
  cbn [collation descending nulls_biggest snd] in *. clear E.
  destruct (is_null m) eqn:Em, (is_null r) eqn:Er; cbn [orb].
  - destruct (H3 eq_refl eq_refl) as (-> & -> & ->). done.
  - destruct (H1 eq_refl eq_refl) as (-> & -> & Hw). destruct (value_of r), desc, big; done.
  - destruct (H2 eq_refl eq_refl) as (-> & Hv & ->). destruct (value_of m), desc, big; done.
  - destruct (H4 eq_refl eq_refl) as (Hv & Hw). set (o := value_order coll (value_of m) (value_of r)) in *.
    assert (Z.sgn (if decide (rc <> 0) then (if desc then - rc else rc) else 0) = Z.sgn (if desc then - o else o)) as Hg
      by (case_decide; destruct desc; lia).
    destruct (value_of m), (value_of r); try done; rewrite <- Hg; destruct desc, big; done.
Qed.

Lemma first_difference_row_order ks : forall ms rs d, Forall value_ok ms -> Forall value_ok rs ->
  first_difference (key_column <$> ks) ms rs = Some d -> Z.sgn d = Z.sgn (row_order ks (value_of <$> ms) (value_of <$> rs)).
Proof.
  induction ks as [|k ks IH]; intros [|m ms] [|r rs] d Hm Hr; cbn [fmap list_fmap first_difference row_order];
    try (intros [= <-]; done). apply Forall_cons in Hm as [Hm Hms]. apply Forall_cons in Hr as [Hr Hrs].
  change (key_column k) with (collation k, (key_column k).2). cbn iota.
  destruct (sqlite3MemCompare m r (collation k)) as [rc|] eqn:E; [|done]. cbn [mbind option_bind].
  pose proof (sort_rc_column_order k m r rc Hm Hr E) as Hs.
  destruct (decide (rc <> 0)) as [Hne|He].
  - intros [= <-]. pose proof (sort_rc_ne0 (key_column k).2 (is_null m || is_null r) rc Hne).
    rewrite (decide_False (P := column_order _ _ _ = 0)) by lia. exact Hs.
  - intros Hd. change (Z.sgn 0) with 0 in Hs. rewrite decide_True by lia. by apply IH.
Qed.

Lemma stored_value_ok m : mem_ok m -> value_ok (stored m).
Proof.
  destruct m; cbn [mem_ok stored value_ok]; try done; try (by intros []).
  - intros Hi. case_decide; [done|]. by apply double_of_int_ok.
  - intros (Hz & Hn & _). apply bytes_ok_app. split; [done|]. apply Forall_replicate. unfold byte_ok. lia.
Qed.

(** C12: Stored records are ordered by their values.  For a record that
    [OP_MakeRecord] built and a key over the same columns, the comparison of
    the record's bytes with the key finishes without reporting corruption,
    with the sign of the order of the rows: the first column that tells them
    apart decides, by its collation, reversed when it is descending, NULL
    below every other value or above when it counts as the biggest.  When no
    column of the key does, and the record has at least the fields of the
    key, the answer is the key's default result and [eqSeen] is set. *)
Theorem record_compare_orders_values ff limit szMalloc stale recs ks p z tail :
  comparable (key_column <$> ks) recs p -> Forall value_ok (aMem p) ->
  limit < 2 ^ 31 -> szMalloc < 2 ^ 31 ->
  OP_MakeRecord ff limit szMalloc stale recs = Some (Made z tail) ->
  let order := row_order ks (value_of <$> (stored <$> recs)) (value_of <$> aMem p) in
  order <> 0 \/ (length (aMem p) <= length recs)%nat ->
  exists c, sqlite3VdbeRecordCompare (z ++ replicate (Z.to_nat tail) 0) p = Some c /\ errCode c = false /\
    (order <> 0 -> Z.sgn (rc c) = Z.sgn order /\ eqSeen c = false) /\
    (order = 0 -> rc c = default_rc p /\ eqSeen c = true).
Proof.
  intros Hc Hval Hlimit Hmalloc E order Henough.
  pose proof (OP_MakeRecord_bytes ff limit szMalloc stale recs (cm_recs _ _ _ Hc) Hlimit Hmalloc) as H.
  rewrite E in H. destruct H as (-> & _ & _ & Hsize). destruct (record_layout ff _ _ _ Hc ltac:(lia)) as (fs & hs & Hly).
  destruct Hc as [Hok _ Hr Hk Hz Hcol].
  destruct (RecordCompare_ok _ _ fs hs Hly p _ ltac:(by destruct recs) Hk Hz Hcol) as (d & Hd & ->).
  assert (Z.sgn d = Z.sgn order) as Hs.
  { apply first_difference_row_order; [|done|done]. apply Forall_fmap. eapply list.Forall_impl; [exact Hok|].
    intros m. apply stored_value_ok. }
  rewrite length_fmap. eexists. split; [done|]. unfold outcome. destruct (decide (d <> 0)) as [Hne|He].
  - split; [done|]. split; [done|]. lia.
  - rewrite bool_decide_eq_true_2 by (destruct Henough; [lia|done]). split; [done|]. split; [lia|done].
Qed.

(** The fields of the record run out while all are equal: the record counts
    as corrupt, although the comment of the routine promises [default_rc]
    then. *)
Lemma short_record_is_corrupt key ms fs hs p cols : layout key ms fs hs ->
  ms <> [] -> Forall rhs_ok (aMem p) -> columns_at p cols 0 (aMem p) -> (length ms < length (aMem p))%nat ->
  first_difference cols ms (aMem p) = Some 0 -> sqlite3VdbeRecordCompare key p = Some corrupt.
Proof.
  intros Hly Hms Hz Hc Hl E. destruct (RecordCompare_ok key ms fs hs Hly p cols Hms) as (d & Ed & ->); try done.
  { intros Hn. rewrite Hn in Hl. cbn in Hl. lia. }
  rewrite E in Ed. injection Ed as <-. unfold outcome. by rewrite decide_False, bool_decide_eq_false_2 by lia.
Qed.

(** ** Samples *)

(** An index row of [(5, 'hi', rowid 7)], and the key [(5, 'ho')] with a descending second column. *)
Definition sample_row : list Mem := [MInt 5; MStr [104; 105]; MInt 7].

Definition sample_sort : list sort_column :=
  [ {| collation := None; descending := false; nulls_biggest := false |};
    {| collation := None; descending := true; nulls_biggest := false |};
    {| collation := None; descending := false; nulls_biggest := false |} ].

Definition sample_columns : list (option CollSeq * Z) := key_column <$> sample_sort.

Definition sample_key (r : Mem) : UnpackedRecord :=
  {| aMem := [r; MStr [104; 111]]; aColl := sample_columns.*1; aSortFlags := sample_columns.*2; nAllField := 3;
     default_rc := 0; r1 := 0; r2 := 0; u_i := 0; u_z := [] |}.

Lemma sample_comparable r : rhs_ok r -> comparable sample_columns sample_row (sample_key r).
Proof.
  split; try done.
  - repeat (constructor; [unfold mem_ok, text_ok, in_s, bytes_ok, byte_ok; repeat split; repeat constructor; by vm_compute|]).
    constructor.
  - by repeat constructor.
  - by repeat constructor.
  - repeat split; cbn; lia.
Qed.

(** The row comes after the key [(5, 'ho')], for the second column is descending. *)
Lemma record_compare_orders_values_witness : exists z tail c,
  OP_MakeRecord 4 1000 0 (fun _ => 0xAA) sample_row = Some (Made z tail) /\
  sqlite3VdbeRecordCompare (z ++ replicate (Z.to_nat tail) 0) (sample_key (MInt 5)) = Some c /\
  0 < rc c /\ errCode c = false /\ eqSeen c = false.
Proof.
  destruct (OP_MakeRecord 4 1000 0 (fun _ => 0xAA) sample_row) as [[z tail|]|] eqn:E;
    [|by vm_compute in E|by vm_compute in E].
  assert (row_order sample_sort (value_of <$> (stored <$> sample_row)) (value_of <$> aMem (sample_key (MInt 5))) = 1) as Ho
    by (vm_compute; reflexivity).
  destruct (record_compare_orders_values 4 1000 0 (fun _ => 0xAA) sample_row sample_sort (sample_key (MInt 5)) z tail)
    as (c & Hcmp & He & Hne & _); [exact (sample_comparable (MInt 5) I)| |lia|lia|exact E|left; lia|].
  - apply Forall_cons. split; [done|]. apply Forall_singleton. repeat (constructor; [unfold byte_ok; lia|]). constructor.
  - exists z, tail, c. rewrite Ho in Hne. destruct (Hne ltac:(lia)) as [Hsg Hq]. split; [done|]. split; [done|].
    split; [|done]. by apply Z.sgn_pos_iff.
Defined.

Lemma fast_compares_agree_witness : exists z tail p' c c',
  OP_MakeRecord 4 1000 0 (fun _ => 0xAA) sample_row = Some (Made z tail) /\
  sqlite3VdbeFindCompare (sample_key (MInt 9)) = Some (CompareInt, p') /\
  vdbeRecordCompareInt (z ++ replicate (Z.to_nat tail) 0) p' = Some c /\
  sqlite3VdbeRecordCompare (z ++ replicate (Z.to_nat tail) 0) (sample_key (MInt 9)) = Some c' /\ same_result c c'.
Proof.
  destruct (OP_MakeRecord 4 1000 0 (fun _ => 0xAA) sample_row) as [[z tail|]|] eqn:E;
    [|by vm_compute in E|by vm_compute in E].
  destruct (fast_compares_agree 4 1000 0 (fun _ => 0xAA) sample_row sample_columns (sample_key (MInt 9)) z tail
    (sample_comparable (MInt 9) I) ltac:(cbn; lia) ltac:(cbn; lia) ltac:(unfold SQLITE_MAX_LENGTH; lia)
    ltac:(unfold SQLITE_MAX_LENGTH; lia) E) as (g & p' & c & c' & Hg & Hc & Hc' & Hs).
  exists z, tail, p', c, c'. split; [done|]. vm_compute in Hg. injection Hg as <- <-. done.
Defined.

(** [2^53 + 1], the double [2^53] below it, and a string. *)
Lemma values_totally_ordered_witness : exists ab ba bc ac,
  sqlite3MemCompare (MReal (double_of_int (2 ^ 53))) (MInt (2 ^ 53 + 1)) None = Some ab /\
  sqlite3MemCompare (MInt (2 ^ 53 + 1)) (MReal (double_of_int (2 ^ 53))) None = Some ba /\
  sqlite3MemCompare (MInt (2 ^ 53 + 1)) (MStr [104]) None = Some bc /\
  sqlite3MemCompare (MReal (double_of_int (2 ^ 53))) (MStr [104]) None = Some ac /\
  Z.sgn ab = - Z.sgn ba /\ (ab <= 0 -> bc <= 0 -> ac <= 0).
Proof.
  apply (values_totally_ordered None (MReal (double_of_int (2 ^ 53))) (MInt (2 ^ 53 + 1)) (MStr [104])); [done| |done|].
  - by vm_compute.
  - constructor; [unfold byte_ok; lia|constructor].
Defined.
