(* ===== verification/SqlLock.v ===== *)
(** * Locks on the database file

    [sqlite/sqlite3.c] (os_unix.c, os.h): the five levels of [unixLock], [unixUnlock]
    and [unixClose] on top of the advisory locks of POSIX, which belong to processes,
    replace each other byte by byte, and all vanish when the process closes any descriptor
    of the file.

    A call is a [prog]: what it does between two system calls is a function, and the
    answers of the system calls are its arguments.  It works on the [unixFile] of the
    connection and on the [unixInodeInfo] the connections of a process share, under the
    mutex of the latter.  A broken assert is [Broken].  Allocation succeeds, [fstat]
    too; the file is not opened by way of the "unix-excl" VFS in the theorems. *)

From S2P Require Import Prelude.

(** ** System calls *)

Inductive ltype := F_RDLCK | F_WRLCK.

#[export] Instance ltype_eq_dec : EqDecision ltype.
Proof. solve_decision. Defined.

(** [struct flock] from the beginning of the file; the type of [F_UNLCK] is [None], and
    the length 0 reaches to the end of the file. *)
Record flock := { l_type : option ltype; l_start : Z; l_len : Z }.

Definition covers (fl : flock) (b : Z) : Prop := l_start fl <= b /\ (l_len fl = 0 \/ b < l_start fl + l_len fl).

#[export] Instance covers_dec fl b : Decision (covers fl b).
Proof. unfold covers. apply _. Defined.

(** A program between system calls: [fcntl] with [F_SETLK] answers [None] or an errno,
    with [F_GETLK] an errno or whether another process is in the way. *)
Inductive prog (A : Type) :=
| Ret (a : A)
| Broken
| SetLk (fl : flock) (k : option Z -> prog A)
| GetLk (fl : flock) (k : Z + bool -> prog A)
| Close (fd : Z) (k : prog A).
Arguments Ret {A}.
Arguments Broken {A}.
Arguments SetLk {A}.
Arguments GetLk {A}.
Arguments Close {A}.

Fixpoint prog_then {A B} (f : A -> prog B) (p : prog A) : prog B :=
  match p with
  | Ret a => f a
  | Broken => Broken
  | SetLk fl k => SetLk fl (fun r => prog_then f (k r))
  | GetLk fl k => GetLk fl (fun r => prog_then f (k r))
  | Close fd k => Close fd (prog_then f k)
  end.

#[export] Instance prog_ret : MRet prog := fun A a => Ret a.
#[export] Instance prog_bind : MBind prog := fun A B f p => prog_then f p.

Definition assert_ (P : Prop) `{Decision P} : prog unit := if decide P then Ret tt else Broken.

(** ** Constants *)

Definition SQLITE_OK : Z := 0.
Definition SQLITE_PERM : Z := 3.
Definition SQLITE_BUSY : Z := 5.
Definition SQLITE_IOERR : Z := 10.
Definition SQLITE_IOERR_UNLOCK : Z := Z.lor SQLITE_IOERR (Z.shiftl 8 8).
Definition SQLITE_IOERR_RDLOCK : Z := Z.lor SQLITE_IOERR (Z.shiftl 9 8).
Definition SQLITE_IOERR_CHECKRESERVEDLOCK : Z := Z.lor SQLITE_IOERR (Z.shiftl 14 8).
Definition SQLITE_IOERR_LOCK : Z := Z.lor SQLITE_IOERR (Z.shiftl 15 8).

Definition NO_LOCK : Z := 0.
Definition SHARED_LOCK : Z := 1.
Definition RESERVED_LOCK : Z := 2.
Definition PENDING_LOCK : Z := 3.
Definition EXCLUSIVE_LOCK : Z := 4.

Definition PENDING_BYTE : Z := 0x40000000.
Definition RESERVED_BYTE : Z := PENDING_BYTE + 1.
Definition SHARED_FIRST : Z := PENDING_BYTE + 2.
Definition SHARED_SIZE : Z := 510.

(** EACCES, EAGAIN, ETIMEDOUT, EBUSY, EINTR, ENOLCK and EPERM of Linux. *)
Definition sqliteErrorFromPosixError (posixError sqliteIOErr : Z) : Z :=
  if decide (posixError ∈ [13; 11; 110; 16; 4; 37]) then SQLITE_BUSY
  else if decide (posixError = 1) then SQLITE_PERM
  else sqliteIOErr.

(** ** State *)

Record UnixUnusedFd := { u_fd : Z; u_flags : Z }.

(** [excl] is [(ctrlFlags & (UNIXFILE_EXCL|UNIXFILE_RDONLY))==UNIXFILE_EXCL]. *)
Record unixFile := {
  h : Z;
  eFileLock : Z;
  excl : bool;
  lastErrno : Z;
  pPreallocatedUnused : option UnixUnusedFd
}.

Record unixInodeInfo := {
  nShared : Z;
  nLock : Z;
  i_eFileLock : Z;
  bProcessLock : bool;
  pUnused : list UnixUnusedFd;
  nRef : Z
}.

Definition with_lock (e : Z) (f : unixFile) : unixFile :=
  {| h := h f; eFileLock := e; excl := excl f; lastErrno := lastErrno f; pPreallocatedUnused := pPreallocatedUnused f |}.

Definition storeLastErrno (e : Z) (f : unixFile) : unixFile :=
  {| h := h f; eFileLock := eFileLock f; excl := excl f; lastErrno := e; pPreallocatedUnused := pPreallocatedUnused f |}.

Definition with_counts (s l : Z) (i : unixInodeInfo) : unixInodeInfo :=
  {| nShared := s; nLock := l; i_eFileLock := i_eFileLock i; bProcessLock := bProcessLock i;
     pUnused := pUnused i; nRef := nRef i |}.

Definition with_ilock (e : Z) (i : unixInodeInfo) : unixInodeInfo :=
  {| nShared := nShared i; nLock := nLock i; i_eFileLock := e; bProcessLock := bProcessLock i;
     pUnused := pUnused i; nRef := nRef i |}.

Definition with_bProcessLock (i : unixInodeInfo) : unixInodeInfo :=
  {| nShared := nShared i; nLock := nLock i + 1; i_eFileLock := i_eFileLock i; bProcessLock := true;
     pUnused := pUnused i; nRef := nRef i |}.

Definition with_unused (u : list UnixUnusedFd) (i : unixInodeInfo) : unixInodeInfo :=
  {| nShared := nShared i; nLock := nLock i; i_eFileLock := i_eFileLock i; bProcessLock := bProcessLock i;
     pUnused := u; nRef := nRef i |}.

Definition with_nRef (n : Z) (i : unixInodeInfo) : unixInodeInfo :=
  {| nShared := nShared i; nLock := nLock i; i_eFileLock := i_eFileLock i; bProcessLock := bProcessLock i;
     pUnused := pUnused i; nRef := n |}.

(** What a call returns: its code and the two structures. *)
Abbreviation outcome_of A := (A * unixFile * unixInodeInfo)%type.

(** ** Locking *)

Definition unixFileLock (pFile : unixFile) (pInode : unixInodeInfo) (pLock : flock) : prog (option Z * unixInodeInfo) :=
  if excl pFile then
    if bProcessLock pInode then Ret (None, pInode)
    else
      _ ← assert_ (nLock pInode = 0);
      SetLk {| l_type := Some F_WRLCK; l_start := SHARED_FIRST; l_len := SHARED_SIZE |} (fun r =>
        match r with None => Ret (None, with_bProcessLock pInode) | Some e => Ret (Some e, pInode) end)
  else SetLk pLock (fun r => Ret (r, pInode)).

(** The lock on the pending byte, before SHARED and before EXCLUSIVE from RESERVED;
    [Some] is the exit [goto end_lock]. *)
Definition lock_pending (pFile : unixFile) (pInode : unixInodeInfo) (e : Z) : prog (outcome_of (option Z)) :=
  if decide (e = SHARED_LOCK \/ (e = EXCLUSIVE_LOCK /\ eFileLock pFile = RESERVED_LOCK)) then
    '(r, pInode) ← unixFileLock pFile pInode
      {| l_type := Some (if decide (e = SHARED_LOCK) then F_RDLCK else F_WRLCK); l_start := PENDING_BYTE; l_len := 1 |};
    match r with
    | Some tErrno =>
        let rc := sqliteErrorFromPosixError tErrno SQLITE_IOERR_LOCK in
        Ret (Some rc, if decide (rc <> SQLITE_BUSY) then storeLastErrno tErrno pFile else pFile, pInode)
    | None =>
        if decide (e = EXCLUSIVE_LOCK) then Ret (None, with_lock PENDING_LOCK pFile, with_ilock PENDING_LOCK pInode)
        else Ret (None, pFile, pInode)
    end
  else Ret (None, pFile, pInode).

(** The read lock on the shared range, and the end of the lock on the pending byte. *)
Definition lock_shared (pFile : unixFile) (pInode : unixInodeInfo) : prog (outcome_of Z) :=
  _ ← assert_ (nShared pInode = 0);
  _ ← assert_ (i_eFileLock pInode = 0);
  '(r, pInode) ← unixFileLock pFile pInode {| l_type := Some F_RDLCK; l_start := SHARED_FIRST; l_len := SHARED_SIZE |};
  let '(rc, tErrno) := match r with
                       | Some e => (sqliteErrorFromPosixError e SQLITE_IOERR_LOCK, e)
                       | None => (SQLITE_OK, 0)
                       end in
  '(r, pInode) ← unixFileLock pFile pInode {| l_type := None; l_start := PENDING_BYTE; l_len := 1 |};
  let '(rc, tErrno) := match r with
                       | Some e => if decide (rc = SQLITE_OK) then (SQLITE_IOERR_UNLOCK, e) else (rc, tErrno)
                       | None => (rc, tErrno)
                       end in
  if decide (rc <> SQLITE_OK) then
    Ret (rc, if decide (rc <> SQLITE_BUSY) then storeLastErrno tErrno pFile else pFile, pInode)
  else Ret (SQLITE_OK, with_lock SHARED_LOCK pFile, with_counts 1 (nLock pInode + 1) pInode).

(** The write lock for RESERVED or EXCLUSIVE. *)
Definition lock_write (pFile : unixFile) (pInode : unixInodeInfo) (e : Z) : prog (outcome_of Z) :=
  _ ← assert_ (eFileLock pFile <> 0);
  _ ← assert_ (e = RESERVED_LOCK \/ e = EXCLUSIVE_LOCK);
  '(r, pInode) ← unixFileLock pFile pInode
    (if decide (e = RESERVED_LOCK) then {| l_type := Some F_WRLCK; l_start := RESERVED_BYTE; l_len := 1 |}
     else {| l_type := Some F_WRLCK; l_start := SHARED_FIRST; l_len := SHARED_SIZE |});
  match r with
  | Some tErrno =>
      let rc := sqliteErrorFromPosixError tErrno SQLITE_IOERR_LOCK in
      Ret (rc, if decide (rc <> SQLITE_BUSY) then storeLastErrno tErrno pFile else pFile, pInode)
  | None => Ret (SQLITE_OK, pFile, pInode)
  end.

(** What the asserts at the beginning of [unixLock] demand of its caller. *)
Definition lock_request_ok (held e : Z) : Prop :=
  (held <> NO_LOCK \/ e = SHARED_LOCK) /\ e <> PENDING_LOCK /\ (e <> RESERVED_LOCK \/ held = SHARED_LOCK).

#[export] Instance lock_request_ok_dec held e : Decision (lock_request_ok held e).
Proof. unfold lock_request_ok. apply _. Defined.

Definition unixLock (pFile : unixFile) (pInode : unixInodeInfo) (e : Z) : prog (outcome_of Z) :=
  if decide (e <= eFileLock pFile) then Ret (SQLITE_OK, pFile, pInode)
  else
    _ ← assert_ (lock_request_ok (eFileLock pFile) e);
    if decide (eFileLock pFile <> i_eFileLock pInode /\ (PENDING_LOCK <= i_eFileLock pInode \/ SHARED_LOCK < e))
    then Ret (SQLITE_BUSY, pFile, pInode)
    else if decide (e = SHARED_LOCK /\ (i_eFileLock pInode = SHARED_LOCK \/ i_eFileLock pInode = RESERVED_LOCK)) then
      _ ← assert_ (eFileLock pFile = 0);
      _ ← assert_ (0 < nShared pInode);
      Ret (SQLITE_OK, with_lock SHARED_LOCK pFile, with_counts (nShared pInode + 1) (nLock pInode + 1) pInode)
    else
      '(exit, pFile, pInode) ← lock_pending pFile pInode e;
      match exit with
      | Some rc => Ret (rc, pFile, pInode)
      | None =>
          '(rc, pFile, pInode) ←
            (if decide (e = SHARED_LOCK) then lock_shared pFile pInode
             else if decide (e = EXCLUSIVE_LOCK /\ 1 < nShared pInode) then Ret (SQLITE_BUSY, pFile, pInode)
             else lock_write pFile pInode e);
          if decide (rc = SQLITE_OK) then Ret (rc, with_lock e pFile, with_ilock e pInode)
          else Ret (rc, pFile, pInode)
      end.

(** [unixCheckReservedLock]: the code and [*pResOut]. *)
Definition unixCheckReservedLock (pFile : unixFile) (pInode : unixInodeInfo) : prog (outcome_of (Z * bool)) :=
  _ ← assert_ (eFileLock pFile <= SHARED_LOCK);
  let reserved := bool_decide (SHARED_LOCK < i_eFileLock pInode) in
  if negb reserved && negb (bProcessLock pInode) then
    GetLk {| l_type := Some F_WRLCK; l_start := RESERVED_BYTE; l_len := 1 |} (fun r =>
      match r with
      | inl e => Ret ((SQLITE_IOERR_CHECKRESERVEDLOCK, false), storeLastErrno e pFile, pInode)
      | inr found => Ret ((SQLITE_OK, found), pFile, pInode)
      end)
  else Ret ((SQLITE_OK, reserved), pFile, pInode).

(** ** Unlocking and closing *)

Fixpoint close_fds (fds : list UnixUnusedFd) : prog unit :=
  match fds with
  | [] => Ret tt
  | p :: fds => Close (u_fd p) (close_fds fds)
  end.

Definition closePendingFds (pInode : unixInodeInfo) : prog unixInodeInfo :=
  _ ← close_fds (pUnused pInode); Ret (with_unused [] pInode).

(** The part of [posixUnlock] for a lock above SHARED; [Some] is [goto end_unlock]. *)
Definition unlock_write (pFile : unixFile) (pInode : unixInodeInfo) (e : Z) : prog (outcome_of (option Z)) :=
  _ ← assert_ (i_eFileLock pInode = eFileLock pFile);
  '(r, pInode) ← (if decide (e = SHARED_LOCK) then
                    unixFileLock pFile pInode {| l_type := Some F_RDLCK; l_start := SHARED_FIRST; l_len := SHARED_SIZE |}
                  else Ret (None, pInode));
  match r with
  | Some errno => Ret (Some SQLITE_IOERR_RDLOCK, storeLastErrno errno pFile, pInode)
  | None =>
      '(r, pInode) ← unixFileLock pFile pInode {| l_type := None; l_start := PENDING_BYTE; l_len := 2 |};
      match r with
      | None => Ret (None, pFile, with_ilock SHARED_LOCK pInode)
      | Some errno => Ret (Some SQLITE_IOERR_UNLOCK, storeLastErrno errno pFile, pInode)
      end
  end.

(** The part for the level NO_LOCK. *)
Definition unlock_shared (pFile : unixFile) (pInode : unixInodeInfo) : prog (outcome_of Z) :=
  let pInode := with_counts (nShared pInode - 1) (nLock pInode) pInode in
  '(rc, pFile, pInode) ←
    (if decide (nShared pInode = 0) then
       '(r, pInode) ← unixFileLock pFile pInode {| l_type := None; l_start := 0; l_len := 0 |};
       match r with
       | None => Ret (SQLITE_OK, pFile, with_ilock NO_LOCK pInode)
       | Some errno => Ret (SQLITE_IOERR_UNLOCK, with_lock NO_LOCK (storeLastErrno errno pFile), with_ilock NO_LOCK pInode)
       end
     else Ret (SQLITE_OK, pFile, pInode));
  let pInode := with_counts (nShared pInode) (nLock pInode - 1) pInode in
  _ ← assert_ (0 <= nLock pInode);
  pInode ← (if decide (nLock pInode = 0) then closePendingFds pInode else Ret pInode);
  Ret (rc, pFile, pInode).

Definition posixUnlock (pFile : unixFile) (pInode : unixInodeInfo) (e : Z) : prog (outcome_of Z) :=
  _ ← assert_ (e <= SHARED_LOCK);
  if decide (eFileLock pFile <= e) then Ret (SQLITE_OK, pFile, pInode)
  else
    _ ← assert_ (nShared pInode <> 0);
    '(exit, pFile, pInode) ←
      (if decide (SHARED_LOCK < eFileLock pFile) then unlock_write pFile pInode e else Ret (None, pFile, pInode));
    match exit with
    | Some rc => Ret (rc, pFile, pInode)
    | None =>
        '(rc, pFile, pInode) ←
          (if decide (e = NO_LOCK) then unlock_shared pFile pInode else Ret (SQLITE_OK, pFile, pInode));
        Ret (rc, if decide (rc = SQLITE_OK) then with_lock e pFile else pFile, pInode)
    end.

Definition unixUnlock := posixUnlock.

(** [setPendingFd]: the descriptor is kept for later. *)
Definition setPendingFd (pFile : unixFile) (pInode : unixInodeInfo) : prog (unixFile * unixInodeInfo) :=
  match pPreallocatedUnused pFile with
  | None => Broken
  | Some p =>
      Ret ({| h := -1; eFileLock := eFileLock pFile; excl := excl pFile; lastErrno := lastErrno pFile;
              pPreallocatedUnused := None |}, with_unused (p :: pUnused pInode) pInode)
  end.

(** [releaseInodeInfo]: [None] once the inode is freed. *)
Definition releaseInodeInfo (pInode : unixInodeInfo) : prog (option unixInodeInfo) :=
  let pInode := with_nRef (nRef pInode - 1) pInode in
  if decide (nRef pInode = 0) then _ ← closePendingFds pInode; Ret None else Ret (Some pInode).

Definition closeUnixFile (pFile : unixFile) : prog unit :=
  if decide (0 <= h pFile) then Close (h pFile) (Ret tt) else Ret tt.

(** [unixClose] up to the point where it leaves the mutex of the inode, and the rest. *)
Definition unixClose_locked (pFile : unixFile) (pInode : unixInodeInfo) : prog (unixFile * unixInodeInfo) :=
  '(_, pFile, pInode) ← unixUnlock pFile pInode NO_LOCK;
  _ ← assert_ (0 < nLock pInode \/ bProcessLock pInode = false);
  if decide (nLock pInode <> 0) then setPendingFd pFile pInode else Ret (pFile, pInode).

Definition unixClose_rest (pFile : unixFile) (pInode : unixInodeInfo) : prog (option unixInodeInfo) :=
  i ← releaseInodeInfo pInode;
  _ ← closeUnixFile pFile;
  Ret i.

(** ** Opening *)

(** [findReusableFd]: the first unused descriptor with these flags, and the others. *)
Fixpoint find_unused (flags : Z) (fds : list UnixUnusedFd) : option (UnixUnusedFd * list UnixUnusedFd) :=
  match fds with
  | [] => None
  | p :: fds =>
      if decide (u_flags p = flags) then Some (p, fds)
      else '(q, rest) ← find_unused flags fds; Some (q, p :: rest)
  end.

Definition SQLITE_OPEN_READONLY : Z := 1.
Definition SQLITE_OPEN_READWRITE : Z := 2.

(** The inode is the one [stat] finds for the path, if it is in [inodeList]. *)
Definition findReusableFd (flags : Z) (pInode : option unixInodeInfo) : option UnixUnusedFd * option unixInodeInfo :=
  match pInode with
  | None => (None, None)
  | Some i =>
      match find_unused (Z.land flags (Z.lor SQLITE_OPEN_READONLY SQLITE_OPEN_READWRITE)) (pUnused i) with
      | Some (p, rest) => (Some p, Some (with_unused rest i))
      | None => (None, Some i)
      end
  end.

Definition findInodeInfo (pInode : option unixInodeInfo) : unixInodeInfo :=
  match pInode with
  | None => {| nShared := 0; nLock := 0; i_eFileLock := 0; bProcessLock := false; pUnused := []; nRef := 1 |}
  | Some i => with_nRef (nRef i + 1) i
  end.

(** A file with locks by the default VFS. *)
Definition fillInUnixFile (fd : Z) (p : option UnixUnusedFd) (pInode : option unixInodeInfo) : unixFile * unixInodeInfo :=
  ({| h := fd; eFileLock := NO_LOCK; excl := false; lastErrno := 0; pPreallocatedUnused := p |}, findInodeInfo pInode).

(** [unixOpen] for a database file: the descriptor comes from [findReusableFd] or from
    [opened], what [open] gives with the flags it succeeded for. *)
Definition unixOpen_fd (flags : Z) (opened : Z * Z) (pInode : option unixInodeInfo) : Z * Z * option unixInodeInfo :=
  match findReusableFd flags pInode with
  | (Some pUnused, pInode) => (u_fd pUnused, flags, pInode)
  | (None, pInode) => (opened, pInode)
  end.

Definition unixOpen (flags : Z) (opened : Z * Z) (pInode : option unixInodeInfo) : unixFile * unixInodeInfo :=
  let '(fd, flags, pInode) := unixOpen_fd flags opened pInode in
  fillInUnixFile fd
    (Some {| u_fd := fd; u_flags := Z.land flags (Z.lor SQLITE_OPEN_READONLY SQLITE_OPEN_READWRITE) |}) pInode.

(** ** What a process holds *)

(** The locks of a process on the pending byte, the reserved byte and the shared range. *)
Record own := { pend : option ltype; resv : option ltype; shrd : option ltype }.

Definition own_none : own := {| pend := None; resv := None; shrd := None |}.

Definition put (fl : flock) (b : Z) (o : option ltype) : option ltype := if decide (covers fl b) then l_type fl else o.

Definition own_set (fl : flock) (s : own) : own :=
  {| pend := put fl PENDING_BYTE (pend s); resv := put fl RESERVED_BYTE (resv s); shrd := put fl SHARED_FIRST (shrd s) |}.

(** The range is all of the shared range or none of it. *)
Definition uniform (fl : flock) : Prop :=
  forall b, SHARED_FIRST <= b < SHARED_FIRST + SHARED_SIZE -> covers fl b <-> covers fl SHARED_FIRST.

(** POSIX: releasing bytes a process holds no lock on succeeds. *)
Definition can_fail (fl : flock) (s : own) : Prop :=
  l_type fl = None -> l_start fl = PENDING_BYTE -> 0 < l_len fl <= 2 -> pend s <> None \/ resv s <> None.

(** Every run of [p] from the locks [s] breaks no assert, changes its locks only as [G]
    says and ends in [Q]. *)
Fixpoint wp {A} (G : own -> own -> Prop) (p : prog A) (s : own) (Q : A -> own -> Prop) : Prop :=
  match p with
  | Ret a => Q a s
  | Broken => False
  | SetLk fl k =>
      uniform fl /\ (G s (own_set fl s) /\ wp G (k None) (own_set fl s) Q) /\
      (forall e, can_fail fl s -> wp G (k (Some e)) s Q)
  | GetLk fl k => forall r, wp G (k r) s Q
  | Close fd k => G s own_none /\ wp G k own_none Q
  end.

Lemma wp_bind {A B} G (p : prog A) (f : A -> prog B) s Q :
  wp G p s (fun a s => wp G (f a) s Q) -> wp G (p ≫= f) s Q.
Proof.
  change (p ≫= f) with (prog_then f p). revert s.
  induction p as [a| |fl k IH|fl k IH|fd k IH]; intros s; cbn [wp prog_then]; try done.
  - intros (Hu & [Hg Hs] & Hf). split; [done|]. split; [split; [done|by apply IH]|]. intros e He. by apply IH, Hf.
  - intros H r. by apply IH, H.
  - intros [Hg H]. split; [done|by apply IH].
Qed.

Lemma wp_mono {A} G (p : prog A) s (Q R : A -> own -> Prop) :
  (forall a s, Q a s -> R a s) -> wp G p s Q -> wp G p s R.
Proof.
  intros HQ. revert s. induction p as [a| |fl k IH|fl k IH|fd k IH]; intros s; cbn [wp]; try done.
  - apply HQ.
  - intros (Hu & [Hg Hs] & Hf). split; [done|]. split; [split; [done|by apply IH]|]. intros e He. by apply IH, Hf.
  - intros H r. by apply IH, H.
  - intros [Hg H]. split; [done|by apply IH].
Qed.

Lemma wp_assert {B} G P `{Decision P} (k : unit -> prog B) s Q : P -> wp G (k tt) s Q -> wp G (assert_ P ≫= k) s Q.
Proof. intros HP Hk. unfold assert_. by rewrite decide_True. Qed.

(** [unixFileLock] of the default VFS is [fcntl]. *)
Lemma wp_unixFileLock {B} G f i fl (k : option Z * unixInodeInfo -> prog B) s Q : excl f = false ->
  uniform fl -> G s (own_set fl s) -> wp G (k (None, i)) (own_set fl s) Q ->
  (forall e, can_fail fl s -> wp G (k (Some e, i)) s Q) -> wp G (unixFileLock f i fl ≫= k) s Q.
Proof. intros Hx Hu Hg Hs Hf. unfold unixFileLock. rewrite Hx. by split. Qed.

Lemma uniform_shared t : uniform {| l_type := t; l_start := SHARED_FIRST; l_len := SHARED_SIZE |}.
Proof. intros b Hb. unfold covers. cbn. unfold SHARED_SIZE in *. lia. Qed.

Lemma uniform_low t start n : 0 < n -> start + n <= SHARED_FIRST -> uniform {| l_type := t; l_start := start; l_len := n |}.
Proof. intros Hn Hs b Hb. unfold covers. cbn. lia. Qed.

Lemma uniform_all t : uniform {| l_type := t; l_start := 0; l_len := 0 |}.
Proof. intros b Hb. unfold covers, SHARED_FIRST, SHARED_SIZE, PENDING_BYTE in *. cbn. lia. Qed.

Lemma own_set_shared t s :
  own_set {| l_type := t; l_start := SHARED_FIRST; l_len := SHARED_SIZE |} s = {| pend := pend s; resv := resv s; shrd := t |}.
Proof. done. Qed.

Lemma own_set_pending t s :
  own_set {| l_type := t; l_start := PENDING_BYTE; l_len := 1 |} s = {| pend := t; resv := resv s; shrd := shrd s |}.
Proof. done. Qed.

Lemma own_set_reserved t s :
  own_set {| l_type := t; l_start := RESERVED_BYTE; l_len := 1 |} s = {| pend := pend s; resv := t; shrd := shrd s |}.
Proof. done. Qed.

Lemma own_set_both t s :
  own_set {| l_type := t; l_start := PENDING_BYTE; l_len := 2 |} s = {| pend := t; resv := t; shrd := shrd s |}.
Proof. done. Qed.

Lemma own_set_all t s :
  own_set {| l_type := t; l_start := 0; l_len := 0 |} s = {| pend := t; resv := t; shrd := t |}.
Proof. done. Qed.

(** ** Invariants of one process *)

(** The system locks that stand for the level of the inode.  Locks a failed release
    leaves behind below SHARED are harmless. *)
Definition inode_locks (e : Z) (s : own) : Prop :=
  (e = NO_LOCK /\ pend s <> Some F_WRLCK /\ resv s = None) \/
  (e = SHARED_LOCK /\ s = {| pend := None; resv := None; shrd := Some F_RDLCK |}) \/
  (e = RESERVED_LOCK /\ s = {| pend := None; resv := Some F_WRLCK; shrd := Some F_RDLCK |}) \/
  (e = PENDING_LOCK /\ s = {| pend := Some F_WRLCK; resv := Some F_WRLCK; shrd := Some F_RDLCK |}) \/
  (e = EXCLUSIVE_LOCK /\ (s = {| pend := None; resv := None; shrd := Some F_WRLCK |} \/
     (pend s = Some F_WRLCK /\ resv s = Some F_WRLCK /\ shrd s <> None))).

(** The counts and the level of the inode, when [n] connections of the process have a lock.  A
    connection that could not give up its lock before it was closed stays counted. *)
Record inode_ok (i : unixInodeInfo) (n : Z) : Prop := {
  io_level : NO_LOCK <= i_eFileLock i <= EXCLUSIVE_LOCK;
  io_plain : bProcessLock i = false;
  io_count : 0 <= n <= nShared i;
  io_lock : nLock i = nShared i;
  io_zero : nShared i = 0 <-> i_eFileLock i = NO_LOCK;
  io_excl : i_eFileLock i = EXCLUSIVE_LOCK -> nShared i = 1
}.

(** A level of a connection next to the level [e] of its inode. *)
Definition level_ok (l e : Z) : Prop := NO_LOCK <= l /\ (l <= SHARED_LOCK \/ l = e) /\ l <= e.

(** The system locks behind the level of a connection that is at rest. *)
Definition lock_covered (l : Z) (s : own) : Prop :=
  (SHARED_LOCK <= l -> shrd s <> None) /\
  (l = RESERVED_LOCK \/ l = PENDING_LOCK -> resv s = Some F_WRLCK) /\
  (l = PENDING_LOCK -> pend s = Some F_WRLCK) /\
  (l = EXCLUSIVE_LOCK -> shrd s = Some F_WRLCK \/ (shrd s = Some F_RDLCK /\ pend s = Some F_WRLCK)).

Lemma inode_locks_cover l e s : level_ok l e -> inode_locks e s -> lock_covered l s.
Proof.
  unfold level_ok, lock_covered, inode_locks, NO_LOCK, SHARED_LOCK, RESERVED_LOCK, PENDING_LOCK, EXCLUSIVE_LOCK.
  destruct s as [[[]|] [[]|] [[]|]]; cbn; intros Hl He; intuition (congruence || lia).
Qed.

(** ** Calls *)

(** Levels as numbers. *)
Ltac levels :=
  unfold level_ok, lock_covered, inode_locks, lock_request_ok, NO_LOCK, SHARED_LOCK, RESERVED_LOCK, PENDING_LOCK, EXCLUSIVE_LOCK in *.


Section Calls.
(** [O l]: another connection of the process, at rest, has the level [l]; [n] of them have a lock. *)
Context (O : Z -> Prop) (n : Z).

(** The connection [f] of a call next to the others. *)
Record conn_ok (f : unixFile) (i : unixInodeInfo) : Prop := {
  co_plain : excl f = false;
  co_level : level_ok (eFileLock f) (i_eFileLock i);
  co_inode : inode_ok i (n + (if decide (SHARED_LOCK <= eFileLock f) then 1 else 0));
  co_n : 0 <= n;
  co_owner : SHARED_LOCK < i_eFileLock i -> eFileLock f = i_eFileLock i \/ O (i_eFileLock i) \/
    n + (if decide (SHARED_LOCK <= eFileLock f) then 1 else 0) + 1 <= nShared i;
  co_others l : O l -> level_ok l (i_eFileLock i) /\ (SHARED_LOCK <= l -> 0 < n) /\
    (SHARED_LOCK < eFileLock f -> l <= SHARED_LOCK)
}.

(** How a call may change the locks of the process, where [e] is the level of the inode
    before the call. *)
Definition guarantee (e : Z) (s s' : own) : Prop :=
  (forall l, O l -> lock_covered l s') /\
  (shrd s = None -> shrd s' <> None -> pend s = Some F_RDLCK) /\
  (pend s' = Some F_WRLCK -> pend s = Some F_WRLCK \/ e <> EXCLUSIVE_LOCK).

(** What a call leaves. *)
Definition call_post (f : unixFile) (i : unixInodeInfo) (f' : unixFile) (i' : unixInodeInfo) (s' : own) : Prop :=
  conn_ok f' i' /\ inode_locks (i_eFileLock i') s' /\
  (i_eFileLock i' = EXCLUSIVE_LOCK -> i_eFileLock i = EXCLUSIVE_LOCK \/ shrd s' = Some F_WRLCK) /\
  h f' = h f /\ pPreallocatedUnused f' = pPreallocatedUnused f /\ nRef i' = nRef i /\
  (pUnused i' = pUnused i \/ pUnused i' = []).

Lemma others_free l f i : conn_ok f i -> n <= 0 -> O l -> l = NO_LOCK.
Proof. intros H Hn Ho. destruct (co_others _ _ H l Ho) as ((? & _) & Hl & _). levels. lia. Qed.

Lemma free_covered l s : l = NO_LOCK -> lock_covered l s.
Proof. levels. lia. Qed.

(** A step that takes nothing from the others. *)
Lemma guarantee_free e s s' f i : conn_ok f i -> n <= 0 ->
  (shrd s = None -> shrd s' <> None -> pend s = Some F_RDLCK) ->
  (pend s' = Some F_WRLCK -> pend s = Some F_WRLCK \/ e <> EXCLUSIVE_LOCK) -> guarantee e s s'.
Proof. intros H Hn H1 H2. split; [|done]. intros l Ho. by apply free_covered, (others_free l f i). Qed.

Lemma guarantee_shared e s s' : (forall l, O l -> l <= SHARED_LOCK) -> shrd s' <> None ->
  (shrd s = None -> shrd s' <> None -> pend s = Some F_RDLCK) ->
  (pend s' = Some F_WRLCK -> pend s = Some F_WRLCK \/ e <> EXCLUSIVE_LOCK) -> guarantee e s s'.
Proof. intros Hl Hs H1 H2. split; [|done]. intros l Ho. specialize (Hl l Ho). levels. repeat split; (done || lia). Qed.

Lemma level_none f i : conn_ok f i -> eFileLock f = NO_LOCK -> i_eFileLock i = NO_LOCK -> nShared i = 0 /\ n <= 0.
Proof.
  intros [_ _ [_ _ Hc _ Hz _] _ _ _] Hf Hi. apply Hz in Hi. rewrite Hf in Hc. rewrite decide_False in Hc by (levels; lia). lia.
Qed.

Lemma conn_errno e f i : conn_ok f i -> conn_ok (storeLastErrno e f) i.
Proof. by intros []. Qed.

Lemma post_same f i s : conn_ok f i -> inode_locks (i_eFileLock i) s -> call_post f i f i s.
Proof. intros Hc Hs. split; [done|]. split; [done|]. split; [by left|]. auto. Qed.

(** An exit that stores the errno or not. *)
Lemma post_errno (b : Prop) `{Decision b} e f i f' i' s : call_post f i f' i' s ->
  call_post f i (if decide b then storeLastErrno e f' else f') i' s.
Proof. intros (H1 & H2). case_decide; [|done]. split; [by apply conn_errno|done]. Qed.

(** A connection without a lock takes its first one on the inode. *)
Lemma conn_shared f i : conn_ok f i -> eFileLock f = NO_LOCK -> i_eFileLock i = NO_LOCK ->
  conn_ok (with_lock SHARED_LOCK f) (with_ilock SHARED_LOCK (with_counts 1 (nLock i + 1) i)).
Proof.
  intros H Hf Hi. destruct (level_none f i H Hf Hi) as [H0 Hn]. pose proof H as [Hx _ [_ Hp _ Hl _ _] Hn0 _ _].
  split; cbn; try done.
  - levels. lia.
  - split; cbn; [levels; lia|done|rewrite decide_True by lia; lia|lia|levels; lia|levels; lia].
  - intros l Ho. pose proof (others_free l f i H Hn Ho). levels. lia.
Qed.

(** A connection above the others raises its level and that of the inode. *)
Lemma conn_raise e f i : conn_ok f i -> SHARED_LOCK <= eFileLock f -> eFileLock f = i_eFileLock i ->
  i_eFileLock i <= e <= EXCLUSIVE_LOCK -> (e = EXCLUSIVE_LOCK -> nShared i <= 1) ->
  conn_ok (with_lock e f) (with_ilock e i).
Proof.
  intros [Hx Hlv [Hr Hp Hc Hl Hz He] Hn _ Ho] Hf Hfi Hle H1. rewrite decide_True in Hc by done. split; cbn; try done.
  - levels. lia.
  - split; cbn; [levels; lia|done|rewrite decide_True by lia; lia|done|levels; lia|intros ->; specialize (H1 eq_refl); lia].
  - intros _. by left.
  - intros l Hol. destruct (Ho l Hol) as ((Hl0 & Hl1 & Hl2) & Hl3 & Hl4). levels.
    destruct (decide (eFileLock f <= 1)); [lia|]. specialize (Hl4 ltac:(lia)). lia.
Qed.

Ltac osimpl :=
  rewrite ?own_set_shared, ?own_set_pending, ?own_set_reserved, ?own_set_both, ?own_set_all; cbn [pend resv shrd].

(** The end of [unixLock]: on success both structures get the level. *)
Definition lock_post (e : Z) (f : unixFile) (i : unixInodeInfo) (r : outcome_of Z) (s' : own) : Prop :=
  let '(rc, f', i') := r in
  (rc = SQLITE_OK -> call_post f i (with_lock e f') (with_ilock e i') s') /\ (rc <> SQLITE_OK -> call_post f i f' i' s').

Lemma error_code e c : c <> SQLITE_OK -> sqliteErrorFromPosixError e c <> SQLITE_OK.
Proof. unfold sqliteErrorFromPosixError. intros. repeat case_decide; done. Qed.

Lemma lock_post_error e f i rc f' i' s' : rc <> SQLITE_OK -> call_post f i f' i' s' -> lock_post e f i (rc, f', i') s'.
Proof. by split. Qed.

Lemma lock_post_ok e f i f' i' s' : call_post f i (with_lock e f') (with_ilock e i') s' ->
  lock_post e f i (SQLITE_OK, f', i') s'.
Proof. by split. Qed.

(** The shared range is locked under a read lock of the pending byte. *)
Lemma wp_lock_shared f i (s : own) : conn_ok f i -> eFileLock f = NO_LOCK -> i_eFileLock i = NO_LOCK ->
  pend s = Some F_RDLCK -> resv s = None ->
  wp (guarantee (i_eFileLock i)) (lock_shared f i) s (lock_post SHARED_LOCK f i).
Proof.
  intros H Hf Hi Hp Hr. destruct (level_none f i H Hf Hi) as [H0 Hn].
  assert (Hg : forall s1 s', pend s' <> Some F_WRLCK -> (shrd s1 = None -> shrd s' <> None -> pend s1 = Some F_RDLCK) ->
    guarantee (i_eFileLock i) s1 s') by (intros; by apply (guarantee_free _ _ _ f i)).
  assert (Hfail : forall rc e' s', rc <> SQLITE_OK -> pend s' <> Some F_WRLCK -> resv s' = None ->
    lock_post SHARED_LOCK f i (rc, if decide (rc <> SQLITE_BUSY) then storeLastErrno e' f else f, i) s').
  { intros rc e' s' Hrc Hp' Hr'. apply lock_post_error; [done|]. apply post_errno, post_same; [done|]. by left. }
  unfold lock_shared. apply wp_assert; [done|]. apply wp_assert; [by rewrite Hi|].
  apply wp_unixFileLock; [apply H|apply uniform_shared|osimpl; apply Hg; [cbn; congruence|done]| |].
  - osimpl. apply wp_unixFileLock; [apply H|by apply uniform_low|osimpl; by apply Hg| |].
    + osimpl. cbn. apply lock_post_ok. rewrite Hr. split; [exact (conn_shared f i H Hf Hi)|].
      split; [right; by left|]. split; [done|]. auto.
    + intros e _. cbn. apply (Hfail SQLITE_IOERR_UNLOCK); cbn; [done|congruence|done].
  - intros e _. pose proof (error_code e SQLITE_IOERR_LOCK ltac:(done)) as Hrc.
    apply wp_unixFileLock; [apply H|by apply uniform_low|osimpl; apply Hg; cbn; congruence| |].
    + osimpl. cbn zeta. rewrite decide_True by done. by apply Hfail.
    + intros e' _. cbn zeta. rewrite decide_False by done. rewrite decide_True by done.
      apply Hfail; [done|congruence|done].
Qed.

(** The last step to RESERVED or EXCLUSIVE. *)
Lemma wp_lock_write f i e (s : own) : conn_ok f i -> SHARED_LOCK <= eFileLock f -> eFileLock f = i_eFileLock i ->
  inode_locks (i_eFileLock i) s -> i_eFileLock i < e ->
  (e = RESERVED_LOCK \/ (e = EXCLUSIVE_LOCK /\ nShared i <= 1 /\ i_eFileLock i <> RESERVED_LOCK)) ->
  forall e0, e0 <> EXCLUSIVE_LOCK ->
  wp (guarantee e0) (lock_write f i e) s (lock_post e f i).
Proof.
  intros H Hf Hfi Hs Hlt He e0 He0. unfold lock_write. apply wp_assert; [levels; lia|]. apply wp_assert; [tauto|].
  assert (Hfail : forall e', lock_post e f i (let rc := sqliteErrorFromPosixError e' SQLITE_IOERR_LOCK in
     (rc, if decide (rc <> SQLITE_BUSY) then storeLastErrno e' f else f, i)) s).
  { intros e'. apply lock_post_error; [by apply error_code|]. by apply post_errno, post_same. }
  destruct He as [->|(-> & H1 & H2)].
  - assert (Hi : i_eFileLock i = SHARED_LOCK) by (levels; lia).
    assert (s = {| pend := None; resv := None; shrd := Some F_RDLCK |}) as ->.
    { rewrite Hi in Hs. levels. intuition (congruence || lia). }
    rewrite decide_True by done. apply wp_unixFileLock; [apply H|by apply uniform_low| | |intros; apply Hfail].
    + osimpl. apply guarantee_shared; cbn; try done. intros l Ho.
      destruct (co_others _ _ H l Ho) as ((? & ? & ?) & _). rewrite Hi in *. levels. lia.
    + osimpl. cbn. apply lock_post_ok. split; [apply conn_raise; try done; levels; lia|].
      split; [right; right; by left|]. split; [done|]. auto.
  - assert (n <= 0).
    { destruct (co_inode _ _ H) as [_ _ Hc _ _ _]. rewrite decide_True in Hc by done. lia. }
    rewrite decide_False by done. apply wp_unixFileLock; [apply H|apply uniform_shared| | |intros; apply Hfail].
    + osimpl. apply (guarantee_free _ _ _ f i); try done; cbn; [|auto].
      intros Hn. levels. intuition (subst; cbn in *; congruence || lia).
    + osimpl. cbn. apply lock_post_ok. split; [apply conn_raise; try done; levels; lia|].
      split; [|split; [by right|auto]]. right. right. right. right. split; [done|]. cbn [with_ilock i_eFileLock].
      levels. destruct Hs as [(? & ?)|[(? & ->)|[(? & _)|[(? & ->)|(? & _)]]]]; try lia; cbn; [by left|right; done].
Qed.

(** The end of [unixLock] after its last step. *)
Lemma wp_lock_end e e0 f i (p : prog (outcome_of Z)) s : wp (guarantee e0) p s (lock_post e f i) ->
  wp (guarantee e0) ('(rc, f', i') ← p; if decide (rc = SQLITE_OK) then Ret (rc, with_lock e f', with_ilock e i') else Ret (rc, f', i'))
    s (fun '(_, f', i') s' => call_post f i f' i' s').
Proof.
  intros H. apply wp_bind. revert H. apply wp_mono. intros [[rc f'] i'] s' [H1 H2].
  destruct (decide (rc = SQLITE_OK)); cbn [wp]; auto.
Qed.

(** EXCLUSIVE above a level between SHARED and PENDING. *)
Lemma wp_lock_exclusive f i s : conn_ok f i -> inode_locks (i_eFileLock i) s ->
  SHARED_LOCK <= eFileLock f < EXCLUSIVE_LOCK -> eFileLock f = i_eFileLock i -> i_eFileLock i <> RESERVED_LOCK ->
  forall e0, e0 <> EXCLUSIVE_LOCK ->
  wp (guarantee e0)
    (if decide (EXCLUSIVE_LOCK = EXCLUSIVE_LOCK /\ 1 < nShared i) then Ret (SQLITE_BUSY, f, i) else lock_write f i EXCLUSIVE_LOCK)
    s (lock_post EXCLUSIVE_LOCK f i).
Proof.
  intros H Hs Hf Hfi Hr e0 He0. destruct (decide _) as [|H1].
  - apply lock_post_error; [done|]. by apply post_same.
  - apply wp_lock_write; try done; [lia|levels; lia|]. right. split; [done|]. split; [lia|done].
Qed.

Lemma post_pending f i f' i' s : eFileLock f = RESERVED_LOCK -> i_eFileLock i = RESERVED_LOCK ->
  call_post (with_lock PENDING_LOCK f) (with_ilock PENDING_LOCK i) f' i' s -> call_post f i f' i' s.
Proof.
  intros Hf Hi (H1 & H2 & H3 & H4). split; [done|]. split; [done|]. split; [|done].
  intros E. destruct (H3 E) as [E'|]; [done|by right].
Qed.

Lemma lock_post_pending e f i r s : eFileLock f = RESERVED_LOCK -> i_eFileLock i = RESERVED_LOCK ->
  lock_post e (with_lock PENDING_LOCK f) (with_ilock PENDING_LOCK i) r s -> lock_post e f i r s.
Proof. destruct r as [[rc f'] i']. intros Hf Hi [H1 H2]. split; intros; apply post_pending; auto. Qed.

(** [unixLock] on behalf of a connection. *)
Lemma wp_unixLock f i s e : conn_ok f i -> inode_locks (i_eFileLock i) s -> lock_request_ok (eFileLock f) e ->
  NO_LOCK <= e <= EXCLUSIVE_LOCK ->
  wp (guarantee (i_eFileLock i)) (unixLock f i e) s (fun '(_, f', i') s' => call_post f i f' i' s').
Proof.
  intros H Hs Hreq He. unfold unixLock. destruct (decide (e <= eFileLock f)); [by apply post_same|].
  apply wp_assert; [done|]. destruct (decide (eFileLock f <> i_eFileLock i /\ _)) as [|Hne]; [by apply post_same|].
  pose proof (co_level _ _ H) as Hlv. pose proof (co_inode _ _ H) as Hi.
  destruct (decide (e = SHARED_LOCK /\ _)) as [[-> Hsh]|Hsh].
  { assert (Hf : eFileLock f = NO_LOCK) by (levels; lia).
    apply wp_assert; [done|]. apply wp_assert; [destruct Hi; levels; lia|]. cbn [wp].
    split; [|split; [done|split; [auto|auto]]]. destruct H as [Hx _ _ Hn Hw Ho]. destruct Hi as [Hr Hp Hc Hl Hz Hex].
    rewrite Hf in Hc. rewrite decide_False in Hc by (levels; lia).
    split; cbn; [done|levels; lia| |done| |].
    - split; cbn; [done|done|rewrite decide_True by lia; lia|lia|levels; lia|levels; lia].
    - intros Hgt. destruct (Hw Hgt) as [E|[E|E]]; [levels; lia|by right; left|].
      rewrite Hf in E. rewrite decide_False in E by (levels; lia). rewrite decide_True by lia. lia.
    - intros l Hol. destruct (Ho l Hol) as (H1 & H2 & _). split; [done|]. split; [done|]. levels. lia. }
  destruct (decide (e = SHARED_LOCK)) as [->|HeS].
  - assert (Hf : eFileLock f = NO_LOCK) by (levels; lia). assert (Hil : i_eFileLock i = NO_LOCK) by (levels; lia).
    destruct (level_none f i H Hf Hil) as [H0 Hn]. unfold lock_pending. rewrite decide_True by (by left).
    rewrite decide_True by done.
    assert (pend s <> Some F_WRLCK /\ resv s = None) as [Hp Hr] by (rewrite Hil in Hs; levels; intuition lia).
    apply wp_bind. apply wp_unixFileLock; [apply H|by apply uniform_low| | |].
    + osimpl. by apply (guarantee_free _ _ _ f i).
    + osimpl. cbn [wp]. rewrite decide_False by done. cbn [wp].
      apply wp_lock_end. by apply wp_lock_shared.
    + intros e' _. cbn [wp]. apply post_errno. by apply post_same.
  - assert (Hfi : eFileLock f = i_eFileLock i) by (levels; lia).
    assert (Hf1 : SHARED_LOCK <= eFileLock f) by (levels; lia).
    unfold lock_pending. destruct (decide (e = SHARED_LOCK \/ (e = EXCLUSIVE_LOCK /\ eFileLock f = RESERVED_LOCK))) as [[?|[-> Hf]]|Hnp]; [done| |].
    + rewrite (decide_False (P := EXCLUSIVE_LOCK = SHARED_LOCK)) by done.
      assert (Hil : i_eFileLock i = RESERVED_LOCK) by congruence.
      assert (s = {| pend := None; resv := Some F_WRLCK; shrd := Some F_RDLCK |}) as ->.
      { rewrite Hil in Hs. levels. intuition (congruence || lia). }
      assert (Hgo : guarantee (i_eFileLock i) {| pend := None; resv := Some F_WRLCK; shrd := Some F_RDLCK |}
        {| pend := Some F_WRLCK; resv := Some F_WRLCK; shrd := Some F_RDLCK |}).
      { apply guarantee_shared; cbn; try done; [|rewrite Hil; by right].
        intros l Ho. destruct (co_others _ _ H l Ho) as (_ & _ & Hl). apply Hl. rewrite Hf. done. }
      apply wp_bind. apply wp_unixFileLock; [apply H|by apply uniform_low|by osimpl| |].
      * osimpl. cbn [wp]. rewrite decide_True by done. cbn [wp]. apply wp_lock_end.
        eapply wp_mono; [intros r s'; apply (lock_post_pending _ f i r s' Hf Hil)|].
        apply wp_lock_exclusive; cbn; try done; [|right; right; right; by left|by rewrite Hil].
        apply conn_raise; try done. rewrite Hil. done.
      * intros e' _. cbn [wp]. apply post_errno. by apply post_same.
    + cbn [wp mbind prog_bind prog_then].
      apply wp_lock_end. assert (Hie : i_eFileLock i <> EXCLUSIVE_LOCK) by (levels; lia).
      destruct (decide (e = EXCLUSIVE_LOCK)) as [->|HeX].
      * apply wp_lock_exclusive; try done; [levels; lia|]. rewrite <- Hfi. intros E. apply Hnp. by right.
      * assert (e = RESERVED_LOCK) as -> by (destruct Hreq as (_ & ? & _); levels; lia).
        rewrite decide_False by (intros [? _]; done). apply wp_lock_write; try done; [levels; lia|by left].
Qed.
(** *** Unlocking *)

Lemma others_shared f i : conn_ok f i -> SHARED_LOCK < eFileLock f -> forall l, O l -> l <= SHARED_LOCK.
Proof. intros H Hf l Ho. by apply (co_others _ _ H l Ho). Qed.

(** After the first part of an unlock: the locks above SHARED are gone. *)
Definition write_post (e : Z) (f : unixFile) (i : unixInodeInfo) (r : outcome_of (option Z)) (s' : own) : Prop :=
  let '(exit, f', i') := r in
  match exit with
  | Some rc => rc <> SQLITE_OK /\ call_post f i f' i' s'
  | None => f' = f /\ i' = with_ilock SHARED_LOCK i /\ pend s' = None /\ resv s' = None /\ shrd s' <> None /\
      (e = SHARED_LOCK -> shrd s' = Some F_RDLCK) /\ (shrd s' = Some F_RDLCK \/ nShared i = 1)
  end.

Lemma wp_unlock_low f i s0 s e : conn_ok f i -> inode_locks (i_eFileLock i) s0 -> SHARED_LOCK < eFileLock f ->
  s = (if decide (e = SHARED_LOCK) then {| pend := pend s0; resv := resv s0; shrd := Some F_RDLCK |} else s0) ->
  wp (guarantee (i_eFileLock i))
    ('(r, pInode) ← unixFileLock f i {| l_type := None; l_start := PENDING_BYTE; l_len := 2 |};
     match r with
     | None => Ret (None, f, with_ilock SHARED_LOCK pInode)
     | Some errno => Ret (Some SQLITE_IOERR_UNLOCK, storeLastErrno errno f, pInode)
     end) s (write_post e f i).
Proof.
  intros H Hs Hf ->. pose proof (others_shared f i H Hf) as Ho. pose proof (co_level _ _ H) as Hlv.
  pose proof (co_inode _ _ H) as [_ _ _ _ _ Hex].
  assert (Hfi : i_eFileLock i = eFileLock f) by (levels; lia).
  assert (Hsh : shrd (if decide (e = SHARED_LOCK) then {| pend := pend s0; resv := resv s0; shrd := Some F_RDLCK |} else s0) <> None).
  { case_decide; [done|]. levels. intuition (subst; cbn in *; congruence || lia). }
  apply wp_unixFileLock; [apply H|by apply uniform_low| | |].
  - osimpl. by apply guarantee_shared.
  - osimpl. cbn [wp write_post pend resv shrd]. do 4 (split; [done|]).
    levels. destruct (decide (e = 1)); cbn; [split; [done|]; split; [done|by left]|].
    split; [intros E; intuition (subst; cbn in *; congruence || lia)|]. split; [done|].
    destruct Hs as [(? & _)|[(? & _)|[(? & ->)|[(? & ->)|(? & Hs)]]]]; try lia; by left.
  - intros errno Hfail. cbn [wp write_post]. split; [done|].
    split; [by apply conn_errno|]. split; [|split; [by left|auto]].
    specialize (Hfail eq_refl eq_refl ltac:(cbn; lia)). levels.
    destruct (decide (e = 1)); [|done]. cbn in *.
    destruct Hs as [(? & _)|[(? & _)|[(? & ->)|[(? & ->)|(? & [->|(? & ? & ?)])]]]]; try lia; cbn in *.
    + right; right; by left.
    + right; right; right; by left.
    + by destruct Hfail.
    + right; right; right; right. split; [done|]. by right.
Qed.

Lemma wp_unlock_write f i s e : conn_ok f i -> inode_locks (i_eFileLock i) s -> SHARED_LOCK < eFileLock f ->
  wp (guarantee (i_eFileLock i)) (unlock_write f i e) s (write_post e f i).
Proof.
  intros H Hs Hf. pose proof (co_level _ _ H) as Hlv.
  assert (Hfi : i_eFileLock i = eFileLock f) by (levels; lia).
  unfold unlock_write. apply wp_assert; [done|].
  pose proof (wp_unlock_low f i s _ e H Hs Hf eq_refl) as Hlow. destruct (decide (e = SHARED_LOCK)) as [->|He]; [|exact Hlow].
  apply wp_unixFileLock; [apply H|apply uniform_shared| | |].
  - osimpl. apply guarantee_shared; cbn; [by apply (others_shared f i)|done| |by left].
    intros Hn. levels. intuition (subst; cbn in *; congruence || lia).
  - osimpl. exact Hlow.
  - intros errno _. cbn [wp write_post]. split; [done|]. split; [by apply conn_errno|]. split; [done|]. split; [by left|auto].
Qed.

(** The descriptors kept for later are closed when nobody has a lock. *)
Lemma wp_close_fds e fds s f i : conn_ok f i -> n <= 0 ->
  wp (guarantee e) (close_fds fds) s (fun _ s' => s' = s \/ s' = own_none).
Proof.
  intros H Hn. revert s. induction fds as [|p fds IH]; intros s; cbn [close_fds wp]; [by left|].
  split; [by apply (guarantee_free _ _ _ f i)|]. eapply wp_mono; [|apply IH]. intros _ s' [-> | ->]; by right.
Qed.
(** The connection [f] gives up its lock on the inode [i], which was [i0] before the
    first part. *)
Definition lowered (f : unixFile) (i0 i : unixInodeInfo) (s : own) : Prop :=
  (i = i0 /\ eFileLock f <= SHARED_LOCK /\ inode_locks (i_eFileLock i0) s) \/
  (i = with_ilock SHARED_LOCK i0 /\ SHARED_LOCK < eFileLock f /\ pend s = None /\ resv s = None /\ shrd s <> None /\
   (shrd s = Some F_RDLCK \/ nShared i0 = 1)).

(** The process has no lock left. *)
Definition inode_free (i : unixInodeInfo) : unixInodeInfo :=
  with_unused [] (with_counts 0 0 (with_ilock NO_LOCK i)).

Lemma post_free f i0 f' i s : conn_ok f i0 -> n <= 0 -> excl f' = false -> h f' = h f ->
  pPreallocatedUnused f' = pPreallocatedUnused f -> nRef i = nRef i0 -> bProcessLock i = false ->
  pend s <> Some F_WRLCK -> resv s = None -> call_post f i0 (with_lock NO_LOCK f') (inode_free i) s.
Proof.
  intros H Hn Hx Hh Hp Hr Hb Hs1 Hs2. pose proof (co_n _ _ H).
  split; [|split; [by left|split; [done|auto]]].
  split; cbn; try done; [levels; lia|split; cbn; try done; rewrite ?decide_False by (levels; lia); levels; lia|].
  intros l Ho. pose proof (others_free l f i0 H Hn Ho). levels. lia.
Qed.

Lemma wp_unlock_last f i0 i s e : conn_ok f i0 -> lowered f i0 i s -> SHARED_LOCK <= eFileLock f -> nShared i0 = 1 ->
  wp (guarantee e) (unlock_shared f i) s (fun '(rc, f', i') s' =>
    (rc = SQLITE_OK \/ eFileLock f' = NO_LOCK) /\ call_post f i0 (with_lock NO_LOCK f') i' s').
Proof.
  intros H Hl Hf H1. pose proof (co_inode _ _ H) as [_ Hp Hc Hlk _ _]. rewrite decide_True in Hc by done.
  assert (Hn : n <= 0) by lia.
  assert (Hs : pend s <> Some F_WRLCK /\ resv s = None /\ nShared i = 1 /\ nLock i = 1 /\ bProcessLock i = false /\ nRef i = nRef i0).
  { destruct Hl as [(-> & Hle & Hs)|(-> & _ & -> & -> & _)]; [|cbn; repeat split; (done || lia)].
    assert (i_eFileLock i0 = SHARED_LOCK) as E.
    { pose proof (co_level _ _ H). pose proof (co_n _ _ H). destruct (decide (SHARED_LOCK < i_eFileLock i0)) as [Hgt|]; [|levels; lia].
      destruct (co_owner _ _ H Hgt) as [?|[Ho|Ho]]; [levels; lia| |rewrite decide_True in Ho by done; lia].
      pose proof (others_free _ f i0 H Hn Ho). levels. lia. }
    rewrite E in Hs. levels. destruct Hs as [(? & _)|[(_ & ->)|[(? & _)|[(? & _)|(? & _)]]]]; try lia. cbn.
    repeat split; (done || lia). }
  destruct Hs as (Hs1 & Hs2 & Hi1 & Hi2 & Hi3 & Hi4).
  assert (Hend : forall rc f' i' s', (rc = SQLITE_OK \/ eFileLock f' = NO_LOCK) -> excl f' = false -> h f' = h f ->
    pPreallocatedUnused f' = pPreallocatedUnused f -> i' = with_ilock NO_LOCK (with_counts 0 (nLock i) i) ->
    pend s' <> Some F_WRLCK -> resv s' = None ->
    wp (guarantee e) (let i' := with_counts (nShared i') (nLock i' - 1) i' in
       _ ← assert_ (0 <= nLock i'); i' ← (if decide (nLock i' = 0) then closePendingFds i' else Ret i'); Ret (rc, f', i'))
      s' (fun '(rc, f', i') s' => (rc = SQLITE_OK \/ eFileLock f' = NO_LOCK) /\ call_post f i0 (with_lock NO_LOCK f') i' s')).
  { intros rc f' i' s' Hrc Hx Hh Hpp -> Hp1 Hp2. cbn zeta. apply wp_assert; [cbn; lia|].
    rewrite decide_True by (cbn; lia). apply wp_bind. unfold closePendingFds. apply wp_bind.
    refine (wp_mono _ _ _ _ _ _ (wp_close_fds _ _ _ f i0 H Hn)). intros _ s2 Hs'. cbn [wp]. split; [done|].
    cbn [with_ilock with_counts nShared nLock]. rewrite Hi2.
    apply (post_free f i0 f' (with_counts 0 0 i) s2); try done; destruct Hs' as [-> | ->]; done. }
  unfold unlock_shared. cbn zeta. rewrite decide_True by (cbn; lia).
  apply wp_bind. apply wp_unixFileLock; [apply H|apply uniform_all| | |].
  - osimpl. by apply (guarantee_free _ _ _ f i0).
  - osimpl. apply Hend; try done; [by left|apply H|]. by rewrite Hi1.
  - intros errno _. apply Hend; try done; [by right|apply H|]. by rewrite Hi1.
Qed.

Lemma wp_unlock_shared f i0 i s e : conn_ok f i0 -> lowered f i0 i s -> SHARED_LOCK <= eFileLock f ->
  wp (guarantee e) (unlock_shared f i) s (fun '(rc, f', i') s' =>
    (rc = SQLITE_OK \/ eFileLock f' = NO_LOCK) /\ call_post f i0 (with_lock NO_LOCK f') i' s').
Proof.
  intros H Hl Hf. destruct (decide (nShared i0 = 1)) as [H1|H1]; [by apply wp_unlock_last|].
  pose proof H as [Hx Hlv [Hr Hp Hc Hlk Hz Hex] Hn Hw Ho]. rewrite decide_True in * by done.
  assert (Hi : nShared i = nShared i0 /\ nLock i = nShared i0) by (destruct Hl as [(-> & _)|(-> & _)]; done).
  unfold unlock_shared. cbn zeta. rewrite decide_False by (cbn; lia).
  apply wp_bind. cbn [wp]. apply wp_assert; [cbn; lia|]. apply wp_bind.
  rewrite decide_False by (cbn; lia). cbn [wp]. split; [by left|].
  split; [|destruct Hl as [(-> & Hle & Hs)|(-> & Hgt & Hs1 & Hs2 & Hs3 & Hs4)]; cbn].
  - split; cbn; try done.
    + destruct Hl as [(-> & _)|(-> & _)]; levels; cbn; lia.
    + split; cbn; destruct Hl as [(-> & _)|(-> & _)]; cbn; try done; rewrite ?decide_False by (levels; lia); levels; try lia.
    + intros Hgt. destruct Hl as [(-> & Hle & _)|(-> & _)]; [|levels; cbn in Hgt; lia]. cbn in Hgt.
      destruct (Hw Hgt) as [E|[E|E]]; [levels; lia|by right; left|]. right; right. rewrite decide_False by (levels; lia). lia.
    + intros l Hol. destruct (Ho l Hol) as (Hl1 & Hl2 & Hl3). destruct Hl as [(-> & _)|(-> & Hgt & _)].
      * split; [done|]. split; [done|]. levels. lia.
      * specialize (Hl3 Hgt). cbn. levels. lia.
  - split; [done|]. split; [by left|auto].
  - destruct Hs4 as [Hs4|]; [|done]. split; [right; left; split; [done|]; destruct s; cbn in *; congruence|].
    split; [done|auto].
Qed.

Lemma wp_posixUnlock f i s e : conn_ok f i -> inode_locks (i_eFileLock i) s -> e = NO_LOCK \/ e = SHARED_LOCK ->
  wp (guarantee (i_eFileLock i)) (posixUnlock f i e) s (fun '(_, f', i') s' => call_post f i f' i' s').
Proof.
  intros H Hs He. unfold posixUnlock. apply wp_assert; [levels; lia|].
  destruct (decide (eFileLock f <= e)); [by apply post_same|].
  pose proof (co_level _ _ H) as Hlv. pose proof (co_inode _ _ H) as [_ _ _ _ Hz _].
  apply wp_assert; [levels; lia|].
  assert (Hrest : forall i1 s1, lowered f i i1 s1 -> (e = SHARED_LOCK -> SHARED_LOCK < eFileLock f /\ shrd s1 = Some F_RDLCK) ->
    wp (guarantee (i_eFileLock i))
      ('(rc, pFile, pInode) ← (if decide (e = NO_LOCK) then unlock_shared f i1 else Ret (SQLITE_OK, f, i1));
       Ret (rc, if decide (rc = SQLITE_OK) then with_lock e pFile else pFile, pInode)) s1
      (fun '(_, f', i') s' => call_post f i f' i' s')).
  { intros i1 s1 Hl Hsh. apply wp_bind. destruct He as [-> | ->].
    - rewrite decide_True by done. eapply wp_mono; [|apply (wp_unlock_shared f i i1 s1); [done|done|levels; lia]].
      intros [[rc f'] i'] s' [Hrc Hpost]. cbn [wp]. case_decide; [done|]. destruct Hrc as [|Hno]; [done|].
      destruct f' as [h' e' x' l' p']. cbn in Hno. by subst e'.
    - rewrite decide_False by done. cbn [wp]. rewrite decide_True by done. specialize (Hsh eq_refl) as [Hgt Hsh].
      destruct Hl as [(-> & ? & _)|(-> & _ & Hs1 & Hs2 & Hs3 & Hs4)]; [lia|].
      destruct H as [Hx _ [Hr Hp Hc Hlk _ Hex] Hn Hw Ho]. rewrite decide_True in Hc by lia.
      split; [|split; [right; left; split; [done|destruct s1; cbn in *; congruence]|split; [done|auto]]].
      split; cbn; try done; [levels; lia|split; cbn; try done; rewrite ?decide_True by done; levels; lia|].
      intros l Hol. destruct (Ho l Hol) as (Hl1 & Hl2 & Hl3). specialize (Hl3 Hgt). levels. lia. }
  apply wp_bind. destruct (decide (SHARED_LOCK < eFileLock f)) as [Hgt|Hle].
  - eapply wp_mono; [|by apply wp_unlock_write]. intros [[[rc|] f'] i'] s'; cbn [write_post].
    + by intros [_ Hpost].
    + intros (-> & -> & Hp & Hr & Hsh & Hsh1 & Hsh2). apply Hrest; [right; done|]. intros ->. auto.
  - cbn [wp]. apply Hrest; [left; split; [done|split; [lia|done]]|]. intros ->. lia.
Qed.
End Calls.
