(* ===== verification/SqlLockWorld.v ===== *)
(** * Locks under interleaving

    [sqlite/sqlite3.c] (os_unix.c): processes with connections to one database file,
    whose calls of [SqlLock] interleave at every system call.  The mutex of an inode lets one call of
    a process run at a time; [unixClose] leaves it before it closes the descriptor. *)

From S2P Require Import Prelude SqlLock.

(** ** The operating system *)

Definition conflict (t : ltype) (o : option ltype) : Prop :=
  match o with None => False | Some u => t = F_WRLCK \/ u = F_WRLCK end.

#[export] Instance conflict_dec t o : Decision (conflict t o).
Proof. destruct o; apply _. Defined.

(** The record locks on a file: the lock of a process on a byte, [fcntl] with [F_SETLK]
    ([None] when another process is in the way), with [F_GETLK], and [close]. *)
Class PosixLocks (L : Type) := {
  no_locks : L;
  held : L -> Z -> Z -> option ltype;
  setlk : L -> Z -> flock -> option L;
  getlk : L -> Z -> flock -> bool;
  close_fd : L -> Z -> L
}.

Class PosixLaws (L : Type) `{PosixLocks L} := {
  held_none p b : held no_locks p b = None;
  held_setlk l p fl l' q b : setlk l p fl = Some l' ->
    held l' q b = if decide (q = p /\ covers fl b) then l_type fl else held l q b;
  setlk_free l p fl l' t q b : setlk l p fl = Some l' -> l_type fl = Some t -> q <> p -> covers fl b ->
    ~ conflict t (held l q b);
  setlk_total l p fl : (forall t q b, l_type fl = Some t -> q <> p -> covers fl b -> ~ conflict t (held l q b)) ->
    is_Some (setlk l p fl);
  getlk_conflict l p fl t : l_type fl = Some t ->
    getlk l p fl = true <-> exists q b, q <> p /\ covers fl b /\ conflict t (held l q b);
  held_close l p q b : held (close_fd l p) q b = if decide (q = p) then None else held l q b
}.

(** ** Processes *)

Inductive request := ReqLock (e : Z) | ReqUnlock (e : Z) | ReqCheckReserved.

(** What the asserts of the routines demand of their callers. *)
Definition request_ok (r : request) (held : Z) : Prop :=
  match r with
  | ReqLock e => NO_LOCK <= e <= EXCLUSIVE_LOCK /\ lock_request_ok held e
  | ReqUnlock e => e = NO_LOCK \/ e = SHARED_LOCK
  | ReqCheckReserved => held <= SHARED_LOCK
  end.

Definition request_prog (r : request) (f : unixFile) (i : unixInodeInfo) : prog (outcome_of Z) :=
  match r with
  | ReqLock e => unixLock f i e
  | ReqUnlock e => unixUnlock f i e
  | ReqCheckReserved => '((rc, _), f, i) ← unixCheckReservedLock f i; Ret (rc, f, i)
  end.

(** The call that holds the mutex of the inode. *)
Inductive call :=
| Request (c : Z) (p : prog (outcome_of Z))
| CloseLocked (c : Z) (p : prog (unixFile * unixInodeInfo))
| CloseRest (c : Z) (p : prog (option unixInodeInfo)).

(** The connections of a process by name, those between the two parts of [unixClose], the
    inode once there is one, and the call that runs. *)
Record process := {
  files : gmap Z unixFile;
  closing : gmap Z unixFile;
  inode : option unixInodeInfo;
  run : option call
}.

Definition new_process : process := {| files := ∅; closing := ∅; inode := None; run := None |}.

Definition with_run (r : option call) (pr : process) : process :=
  {| files := files pr; closing := closing pr; inode := inode pr; run := r |}.

Section World.
Context {L : Type} `{PosixLaws L}.

(** One system call of a program of the process [p].  It can fail for reasons of its own,
    but not to release bytes on which nothing is held. *)
Inductive prog_step {A} (p : Z) : L -> prog A -> L -> prog A -> Prop :=
| ps_set l l' fl k : setlk l p fl = Some l' -> prog_step p l (SetLk fl k) l' (k None)
| ps_fail l fl k e :
    (l_type fl = None -> l_len fl <> 0 -> exists b, covers fl b /\ held l p b <> None) ->
    prog_step p l (SetLk fl k) l (k (Some e))
| ps_get l fl k : prog_step p l (GetLk fl k) l (k (inr (getlk l p fl)))
| ps_get_fail l fl k e : prog_step p l (GetLk fl k) l (k (inl e))
| ps_close l fd k : prog_step p l (Close fd k) (close_fd l p) k.

Inductive call_step (p : Z) (l l' : L) : call -> call -> Prop :=
| cs_request c a b : prog_step p l a l' b -> call_step p l l' (Request c a) (Request c b)
| cs_locked c a b : prog_step p l a l' b -> call_step p l l' (CloseLocked c a) (CloseLocked c b)
| cs_rest c a b : prog_step p l a l' b -> call_step p l l' (CloseRest c a) (CloseRest c b).

(** A call that is over writes its results back. *)
Inductive commit (pr : process) : call -> process -> Prop :=
| cm_request c rc f i :
    commit pr (Request c (Ret (rc, f, i)))
      {| files := <[c := f]> (files pr); closing := closing pr; inode := Some i; run := None |}
| cm_locked c f i :
    commit pr (CloseLocked c (Ret (f, i)))
      {| files := delete c (files pr); closing := <[c := f]> (closing pr); inode := Some i; run := None |}
| cm_rest c oi :
    commit pr (CloseRest c (Ret oi))
      {| files := files pr; closing := delete c (closing pr); inode := oi; run := None |}.

(** A process begins a call.  With [serial] none begins between the parts of a close; opening
    and closing always exclude each other. *)
Inductive begin (serial : bool) (pr : process) : process -> Prop :=
| bg_open c flags fd flags' f i : files pr !! c = None -> closing pr = ∅ -> 0 <= fd ->
    unixOpen flags (fd, flags') (inode pr) = (f, i) ->
    begin serial pr {| files := <[c := f]> (files pr); closing := ∅; inode := Some i; run := None |}
| bg_request c r f i : files pr !! c = Some f -> inode pr = Some i -> request_ok r (eFileLock f) ->
    (serial = true -> closing pr = ∅) -> begin serial pr (with_run (Some (Request c (request_prog r f i))) pr)
| bg_close c f i : files pr !! c = Some f -> inode pr = Some i -> closing pr = ∅ ->
    begin serial pr (with_run (Some (CloseLocked c (unixClose_locked f i))) pr)
| bg_close_rest c f i : closing pr !! c = Some f -> inode pr = Some i ->
    begin serial pr (with_run (Some (CloseRest c (unixClose_rest f i))) pr).

Record world := { os : L; procs : Z -> process }.

Definition set_proc (p : Z) (pr : process) (w : world) : world :=
  {| os := os w; procs := fun q => if decide (q = p) then pr else procs w q |}.

Definition new_world : world := {| os := no_locks; procs := fun _ => new_process |}.

Inductive step (serial : bool) : world -> world -> Prop :=
| st_begin w p pr : run (procs w p) = None -> begin serial (procs w p) pr -> step serial w (set_proc p pr w)
| st_call w p c c' l : run (procs w p) = Some c -> call_step p (os w) l c c' ->
    step serial w (set_proc p (with_run (Some c') (procs w p)) {| os := l; procs := procs w |})
| st_commit w p c pr : run (procs w p) = Some c -> commit (procs w p) c pr -> step serial w (set_proc p pr w).

Definition reachable (serial : bool) : world -> Prop := rtc (step serial) new_world.

(** The connection [c] of the process [p] is not in a call and has the level [e]. *)
Definition call_of (pr : process) : option Z :=
  match run pr with Some (Request c _) | Some (CloseLocked c _) => Some c | _ => None end.

Definition at_rest (w : world) (p c e : Z) : Prop :=
  call_of (procs w p) <> Some c /\ exists f, files (procs w p) !! c = Some f /\ eFileLock f = e.
End World.

(** ** Counting *)

Definition has_lock (kv : Z * unixFile) : Prop := SHARED_LOCK <= eFileLock kv.2.

#[export] Instance has_lock_dec kv : Decision (has_lock kv).
Proof. unfold has_lock. apply _. Defined.

(** The connections with a lock. *)
Definition nlocked (fs : gmap Z unixFile) : Z := Z.of_nat (size (filter has_lock fs)).

Definition lock_bit (f : unixFile) : Z := if decide (SHARED_LOCK <= eFileLock f) then 1 else 0.

Lemma nlocked_insert_new c f fs : fs !! c = None -> nlocked (<[c := f]> fs) = nlocked fs + lock_bit f.
Proof.
  intros Hc. unfold nlocked, lock_bit. rewrite map_filter_insert. destruct (decide (SHARED_LOCK <= eFileLock f)) as [Hf|Hf].
  - rewrite decide_True by done. rewrite map_size_insert_None; [lia|]. apply map_lookup_filter_None. by left.
  - rewrite decide_False by done. rewrite delete_id by done. lia.
Qed.

Lemma nlocked_delete c f fs : fs !! c = Some f -> nlocked fs = nlocked (delete c fs) + lock_bit f.
Proof. intros Hc. rewrite <- (insert_delete_id fs c f Hc) at 1. apply nlocked_insert_new, lookup_delete_eq. Qed.

Lemma nlocked_insert c f fs : nlocked (<[c := f]> fs) = nlocked (delete c fs) + lock_bit f.
Proof. rewrite <- insert_delete_eq. apply nlocked_insert_new, lookup_delete_eq. Qed.

Lemma nlocked_pos c f fs : fs !! c = Some f -> SHARED_LOCK <= eFileLock f -> 0 < nlocked fs.
Proof.
  intros Hc Hf. rewrite (nlocked_delete c f fs Hc). unfold lock_bit. rewrite decide_True by done. unfold nlocked. lia.
Qed.

Lemma nlocked_nonneg fs : 0 <= nlocked fs.
Proof. unfold nlocked. lia. Qed.

(** ** The state of a process *)

(** The levels of the connections but [c]. *)
Definition others (fs : gmap Z unixFile) (c : option Z) (l : Z) : Prop :=
  exists d g, c <> Some d /\ fs !! d = Some g /\ eFileLock g = l.

Record shared_ok (pr : process) (i : unixInodeInfo) : Prop := {
  so_file c f : files pr !! c = Some f -> excl f = false /\ level_ok (eFileLock f) (i_eFileLock i) /\
    is_Some (pPreallocatedUnused f);
  so_inode : inode_ok i (nlocked (files pr));
  so_unique c d f g : files pr !! c = Some f -> files pr !! d = Some g -> SHARED_LOCK < eFileLock f ->
    SHARED_LOCK < eFileLock g -> c = d;
  so_owner : SHARED_LOCK < i_eFileLock i ->
    (exists c f, files pr !! c = Some f /\ eFileLock f = i_eFileLock i) \/ nlocked (files pr) + 1 <= nShared i;
  so_nRef : nRef i = Z.of_nat (size (files pr)) + Z.of_nat (size (closing pr));
  so_closing c f : closing pr !! c = Some f -> (h f < 0 /\ pUnused i <> []) \/ nLock i = 0;
  so_single : (size (closing pr) <= 1)%nat
}.

(** Connections and inode of a process fit. *)
Definition static_ok (pr : process) : Prop :=
  match inode pr with None => files pr = ∅ /\ closing pr = ∅ | Some i => shared_ok pr i end.

Lemma others_count fs c l : others fs (Some c) l -> SHARED_LOCK <= l -> 0 < nlocked (delete c fs).
Proof.
  intros (d & g & Hd & Hg & <-) Hl. apply (nlocked_pos d g); [|done]. by rewrite lookup_delete_ne by congruence.
Qed.

(** A connection as a call sees it. *)
Lemma conn_of pr i c f : shared_ok pr i -> files pr !! c = Some f ->
  conn_ok (others (files pr) (Some c)) (nlocked (delete c (files pr))) f i.
Proof.
  intros H Hc. destruct (so_file _ _ H c f Hc) as (Hx & Hlv & _). pose proof (so_inode _ _ H) as Hi.
  rewrite (nlocked_delete c f _ Hc) in Hi. fold (lock_bit f). split; [done|done|done|apply nlocked_nonneg| |].
  - fold (lock_bit f). intros Hgt. destruct (so_owner _ _ H Hgt) as [(d & g & Hd & Hg)|Ho].
    + destruct (decide (d = c)) as [->|Hne]; [left; congruence|]. right; left. exists d, g. split; [congruence|done].
    + right; right. rewrite (nlocked_delete c f _ Hc) in Ho. lia.
  - intros l Hl. split; [|split; [by apply others_count|]]; destruct Hl as (d & g & Hd & Hg & <-).
    + apply (so_file _ _ H d g Hg).
    + intros Hf. destruct (decide (eFileLock g <= SHARED_LOCK)); [done|]. destruct Hd. f_equal. symmetry. apply (so_unique _ _ H d c g f); (done || lia).
Qed.

(** What a call returned is written back. *)
Lemma shared_of pr i c f f' i' : shared_ok pr i -> files pr !! c = Some f -> closing pr = ∅ ->
  conn_ok (others (files pr) (Some c)) (nlocked (delete c (files pr))) f' i' -> is_Some (pPreallocatedUnused f') -> nRef i' = nRef i ->
  shared_ok {| files := <[c := f']> (files pr); closing := closing pr; inode := Some i'; run := None |} i'.
Proof.
  intros H Hc Hcl [Hx Hlv Hi _ Hw Ho] Hp Hr. fold (lock_bit f') in Hi, Hw.
  assert (Hoth : forall d g, d <> c -> files pr !! d = Some g -> others (files pr) (Some c) (eFileLock g)) by (intros d g Hne Hd; exists d, g; split; [congruence|done]).
  split; cbn [files closing].
  - intros d g Hd. destruct (decide (d = c)) as [->|Hne].
    + rewrite lookup_insert_eq in Hd. injection Hd as <-. done.
    + rewrite lookup_insert_ne in Hd by done. destruct (so_file _ _ H d g Hd) as (? & _ & ?).
      split; [done|]. split; [|done]. by apply Ho, (Hoth d).
  - by rewrite nlocked_insert.
  - intros d e g k Hd He Hg Hk. destruct (decide (d = c)) as [->|Hdc], (decide (e = c)) as [->|Hec]; [done| | |].
    + rewrite lookup_insert_eq in Hd. injection Hd as <-. rewrite lookup_insert_ne in He by done.
      destruct (Ho _ (Hoth e k Hec He)) as (_ & _ & Hle). specialize (Hle Hg). lia.
    + rewrite lookup_insert_eq in He. injection He as <-. rewrite lookup_insert_ne in Hd by done.
      destruct (Ho _ (Hoth d g Hdc Hd)) as (_ & _ & Hle). specialize (Hle Hk). lia.
    + rewrite lookup_insert_ne in Hd, He by done. by apply (so_unique _ _ H d e g k).
  - intros Hgt. destruct (Hw Hgt) as [E|[(d & g & Hd & Hg & E)|E]].
    + left. exists c, f'. by rewrite lookup_insert_eq.
    + left. exists d, g. by rewrite lookup_insert_ne by congruence.
    + right. rewrite nlocked_insert. lia.
  - rewrite Hr, (so_nRef _ _ H). rewrite map_size_insert_Some; [done|by rewrite Hc].
  - intros d g Hd. by rewrite Hcl in Hd.
  - rewrite Hcl, map_size_empty. lia.
Qed.

(** The fields of an inode the locks depend on. *)
Definition same_locks (i i' : unixInodeInfo) : Prop :=
  nShared i' = nShared i /\ nLock i' = nLock i /\ i_eFileLock i' = i_eFileLock i /\ bProcessLock i' = bProcessLock i /\
  nRef i' = nRef i.

(** A connection that is closed no longer counts, even if it could not give up its lock. *)
Lemma shared_closed pr i c f f1 i1 f' i' : shared_ok pr i -> files pr !! c = Some f -> closing pr = ∅ ->
  conn_ok (others (files pr) (Some c)) (nlocked (delete c (files pr))) f1 i1 -> nRef i1 = nRef i -> same_locks i1 i' ->
  (h f' < 0 /\ pUnused i' <> []) \/ nLock i' = 0 ->
  shared_ok {| files := delete c (files pr); closing := <[c := f']> (closing pr); inode := Some i'; run := None |} i'.
Proof.
  intros H Hc Hcl [_ _ Hi _ Hw Ho] Hr (E1 & E2 & E3 & E4 & E5) Hf'. fold (lock_bit f1) in Hi, Hw.
  assert (0 <= lock_bit f1) by (unfold lock_bit; case_decide; lia).
  split; cbn [files closing].
  - intros d g [Hne Hd]%lookup_delete_Some. destruct (so_file _ _ H d g Hd) as (? & _ & ?).
    split; [done|]. split; [|done]. rewrite E3. apply Ho. exists d, g. split; [congruence|done].
  - destruct Hi as [? ? ? ? ? ?]. split; rewrite ?E1, ?E2, ?E3, ?E4; try done.
    pose proof (nlocked_nonneg (delete c (files pr))). lia.
  - intros d e g k [_ Hd]%lookup_delete_Some [_ He]%lookup_delete_Some. by apply (so_unique _ _ H d e g k).
  - rewrite E1, E3. intros Hgt. destruct (Hw Hgt) as [E|[(d & g & Hd & Hg & E)|E]].
    + right. unfold lock_bit in Hi. rewrite decide_True in Hi by (unfold SHARED_LOCK in *; lia).
      destruct Hi as [_ _ Hcount _ _ _]. lia.
    + left. exists d, g. by rewrite lookup_delete_ne by congruence.
    + right. lia.
  - rewrite E5, Hr, (so_nRef _ _ H), Hcl, insert_empty, map_size_singleton, map_size_empty, map_size_delete_Some by (by rewrite Hc).
    assert (size (files pr) <> 0%nat) by (intros E%map_size_empty_inv; by rewrite E in Hc). lia.
  - intros d g Hd. rewrite Hcl, insert_empty in Hd. by apply lookup_singleton_Some in Hd as [_ <-].
  - rewrite Hcl, insert_empty, map_size_singleton. done.
Qed.

(** ** Closing *)

Section Close.
Context (O : Z -> Prop) (n : Z).

Lemma wp_close_locked f i s : conn_ok O n f i -> inode_locks (i_eFileLock i) s -> is_Some (pPreallocatedUnused f) ->
  wp (guarantee O (i_eFileLock i)) (unixClose_locked f i) s (fun '(f', i') s' =>
    exists f1 i1, call_post O n f i f1 i1 s' /\ same_locks i1 i' /\ ((h f' < 0 /\ pUnused i' <> []) \/ nLock i' = 0)).
Proof.
  intros H Hs [p Hp]. unfold unixClose_locked, unixUnlock. apply wp_bind.
  eapply wp_mono; [|apply wp_posixUnlock; [done|done|by left]]. intros [[rc f1] i1] s' Hpost.
  pose proof Hpost as (Hc & _ & _ & _ & Hp1 & _). apply wp_assert; [right; by destruct (co_inode _ _ _ _ Hc)|].
  destruct (decide (nLock i1 <> 0)) as [Hl|Hl].
  - unfold setPendingFd. rewrite Hp1, Hp. cbn [wp]. exists f1, i1. split; [done|]. split; [done|]. by left.
  - cbn [wp]. exists f1, i1. split; [done|]. split; [done|]. right. lia.
Qed.

(** Descriptors are closed where no connection has a lock. *)
Lemma wp_close_free e fds s : (forall l, O l -> l = NO_LOCK) ->
  wp (guarantee O e) (close_fds fds) s (fun _ s' => (fds = [] /\ s' = s) \/ s' = own_none).
Proof.
  intros HO. assert (Hg : forall s, guarantee O e s own_none).
  { intros s0. split; [|done]. intros l Hl. by apply free_covered, HO. }
  revert s. induction fds as [|p fds IH]; intros s; cbn [close_fds wp]; [by left|]. split; [done|].
  refine (wp_mono _ _ _ _ _ _ (IH own_none)). intros _ s' [[_ ->] | ->]; by right.
Qed.

Lemma wp_close_fd e f s : (forall l, O l -> l = NO_LOCK) ->
  wp (guarantee O e) (closeUnixFile f) s (fun _ s' => (h f < 0 /\ s' = s) \/ s' = own_none).
Proof.
  intros HO. unfold closeUnixFile. case_decide; cbn [wp]; [|left; split; [lia|done]]. split; [|by right].
  split; [|done]. intros l Hl. by apply free_covered, HO.
Qed.
End Close.

Lemma others_none fs c : fs = ∅ -> forall l, others fs c l -> l = NO_LOCK.
Proof. intros -> l (d & g & _ & Hg & _). done. Qed.

(** Without locks on the inode every connection is without one. *)
Lemma others_unlocked pr i c : shared_ok pr i -> nLock i = 0 -> forall l, others (files pr) c l -> l = NO_LOCK.
Proof.
  intros H Hl l (d & g & _ & Hg & <-). destruct (so_file _ _ H d g Hg) as (_ & Hlv & _).
  pose proof (so_inode _ _ H) as [_ _ _ Hn Hz _]. rewrite Hl in Hn. symmetry in Hn. apply Hz in Hn.
  unfold level_ok, NO_LOCK in *. lia.
Qed.

Lemma unlocked_level pr i : shared_ok pr i -> nLock i = 0 -> i_eFileLock i = NO_LOCK.
Proof. intros H Hl. pose proof (so_inode _ _ H) as [_ _ _ Hn Hz _]. apply Hz. lia. Qed.

Lemma none_free : inode_locks NO_LOCK own_none.
Proof. by left. Qed.

Definition level_of (oi : option unixInodeInfo) : Z := match oi with None => NO_LOCK | Some i => i_eFileLock i end.

(** What the second part of a close leaves. *)
Definition rest_post (pr : process) (i : unixInodeInfo) (oi : option unixInodeInfo) (s' : own) : Prop :=
  inode_locks (level_of oi) s' /\
  match oi with
  | None => files pr = ∅
  | Some i' => i' = with_nRef (nRef i - 1) i /\ nRef i <> 1
  end.

Lemma wp_close_rest pr i c f s : shared_ok pr i -> closing pr !! c = Some f -> inode_locks (i_eFileLock i) s ->
  wp (guarantee (others (files pr) None) (i_eFileLock i)) (unixClose_rest f i) s (rest_post pr i).
Proof.
  intros H Hc Hs. pose proof (so_nRef _ _ H) as Hr. pose proof (so_single _ _ H) as H1.
  assert (size (closing pr) = 1%nat) as E1.
  { destruct (size (closing pr)) as [|[|]] eqn:E; [|done|lia]. apply map_size_empty_inv in E. by rewrite E in Hc. }
  rewrite E1 in Hr. pose proof (so_closing _ _ H c f Hc) as Hf.
  unfold unixClose_rest, releaseInodeInfo. cbn zeta. apply wp_bind.
  destruct (decide (nRef (with_nRef (nRef i - 1) i) = 0)) as [H0|H0]; cbn [with_nRef nRef] in H0.
  - assert (files pr = ∅) as Hfs by (apply map_size_empty_inv; lia).
    pose proof (others_none _ None Hfs) as HO. apply wp_bind. unfold closePendingFds. apply wp_bind.
    refine (wp_mono _ _ _ _ _ _ (wp_close_free _ _ _ _ HO)). intros _ s1 Hs1. cbn [wp]. apply wp_bind.
    refine (wp_mono _ _ _ _ _ _ (wp_close_fd _ _ f _ HO)). intros _ s2 Hs2. cbn [wp]. split; [|done].
    cbn [level_of]. destruct Hs2 as [[Hh ->] | ->]; [|apply none_free]. destruct Hs1 as [[Hu ->] | ->]; [|apply none_free].
    destruct Hf as [[_ Hu']|Hl]; [by cbn in Hu|]. by rewrite (unlocked_level _ _ H Hl) in Hs.
  - cbn [wp]. apply wp_bind. unfold closeUnixFile. case_decide as Hh; cbn [wp].
    + destruct Hf as [[? _]|Hl]; [lia|]. pose proof (others_unlocked _ _ None H Hl) as HO. split.
      * split; [|done]. intros l Hol. by apply free_covered, HO.
      * split; [|split; [done|lia]]. cbn. rewrite (unlocked_level _ _ H Hl). apply none_free.
    + split; [done|]. split; [done|lia].
Qed.

(** ** The invariant of a process *)

Definition covered (pr : process) (s : own) : Prop :=
  forall l, others (files pr) (call_of pr) l -> lock_covered l s.

Definition run_ok (pr : process) (s : own) : Prop :=
  match run pr with
  | None => inode_locks (level_of (inode pr)) s
  | Some (Request c p) => closing pr = ∅ /\ exists f i, files pr !! c = Some f /\ inode pr = Some i /\
      wp (guarantee (others (files pr) (Some c)) (i_eFileLock i)) p s (fun '(_, f', i') s' =>
        call_post (others (files pr) (Some c)) (nlocked (delete c (files pr))) f i f' i' s')
  | Some (CloseLocked c p) => closing pr = ∅ /\ exists f i, files pr !! c = Some f /\ inode pr = Some i /\
      wp (guarantee (others (files pr) (Some c)) (i_eFileLock i)) p s (fun '(f', i') s' => exists f1 i1,
        call_post (others (files pr) (Some c)) (nlocked (delete c (files pr))) f i f1 i1 s' /\ same_locks i1 i' /\
        ((h f' < 0 /\ pUnused i' <> []) \/ nLock i' = 0))
  | Some (CloseRest c p) => exists f i, closing pr !! c = Some f /\ inode pr = Some i /\
      wp (guarantee (others (files pr) None) (i_eFileLock i)) p s (rest_post pr i)
  end.

Definition proc_ok (pr : process) (s : own) : Prop := static_ok pr /\ covered pr s /\ run_ok pr s.

(** At rest the locks of all connections are covered. *)
Lemma rest_covered pr s : static_ok pr -> run pr = None -> inode_locks (level_of (inode pr)) s -> covered pr s.
Proof.
  intros H Hr Hs l (d & g & _ & Hg & <-). unfold static_ok in H. destruct (inode pr) as [i|] eqn:Ei.
  - apply (inode_locks_cover _ (i_eFileLock i)); [apply (so_file _ _ H d g Hg)|done].
  - destruct H as [H _]. by rewrite H in Hg.
Qed.

(** [shared_ok] looks at the connections only. *)
Lemma shared_files pr pr' i : files pr' = files pr -> closing pr' = closing pr -> shared_ok pr i -> shared_ok pr' i.
Proof. intros E1 E2 []. split; rewrite ?E1, ?E2; done. Qed.

Lemma request_wp r f i s O n : conn_ok O n f i -> inode_locks (i_eFileLock i) s -> request_ok r (eFileLock f) ->
  wp (guarantee O (i_eFileLock i)) (request_prog r f i) s (fun '(_, f', i') s' => call_post O n f i f' i' s').
Proof.
  intros H Hs Hr. destruct r as [e|e|]; cbn [request_prog request_ok] in *.
  - destruct Hr. by apply wp_unixLock.
  - by apply wp_posixUnlock.
  - unfold unixCheckReservedLock. apply wp_bind. apply wp_assert; [done|]. case_match; cbn [wp]; [|by apply post_same].
    intros [e|b]; cbn [wp]; [|by apply post_same]. split; [by apply conn_errno|]. split; [done|]. split; [by left|auto].
Qed.

Lemma find_unused_rest flags fds p rest : find_unused flags fds = Some (p, rest) -> fds <> [].
Proof. by destruct fds. Qed.

(** A new connection has no lock and changes nothing of the others'. *)
Lemma open_ok pr c flags opened f i : static_ok pr -> files pr !! c = None -> closing pr = ∅ ->
  unixOpen flags opened (inode pr) = (f, i) ->
  shared_ok {| files := <[c := f]> (files pr); closing := ∅; inode := Some i; run := None |} i /\
  i_eFileLock i = level_of (inode pr).
Proof.
  intros H Hc Hcl E. unfold unixOpen, unixOpen_fd, fillInUnixFile in E.
  assert (Hf : excl f = false /\ eFileLock f = NO_LOCK /\ is_Some (pPreallocatedUnused f)).
  { destruct (findReusableFd flags (inode pr)) as [[p|] oi]; [|destruct opened]; by injection E as <- _. }
  destruct Hf as (Hx & Hl & Hp).
  assert (Hn : nlocked (<[c := f]> (files pr)) = nlocked (files pr)).
  { rewrite nlocked_insert_new by done. unfold lock_bit. rewrite Hl. rewrite decide_False by (levels; lia). lia. }
  unfold static_ok in H. destruct (inode pr) as [i0|] eqn:Ei.
  - assert (Hi : same_locks (with_nRef (nRef i0 + 1) i0) i).
    { cbn in E. destruct (find_unused _ (pUnused i0)) as [[p rest]|]; [|destruct opened]; by injection E as _ <-. }
    destruct Hi as (E1 & E2 & E3 & E4 & E5). cbn [with_nRef nShared nLock i_eFileLock bProcessLock nRef] in *.
    split; [|done]. split; cbn [files closing].
    + intros d g Hd. destruct (decide (d = c)) as [->|Hne].
      * rewrite lookup_insert_eq in Hd. injection Hd as <-. split; [done|]. split; [|done]. rewrite Hl, E3.
        destruct (so_inode _ _ H) as [? _ _ _ _ _]. unfold level_ok, NO_LOCK, SHARED_LOCK, EXCLUSIVE_LOCK in *. lia.
      * rewrite lookup_insert_ne in Hd by done. rewrite E3. by apply (so_file _ _ H d g).
    + rewrite Hn. destruct (so_inode _ _ H) as [? ? ? ? ? ?]. split; rewrite ?E1, ?E2, ?E3, ?E4; done.
    + assert (Hgt : forall g, SHARED_LOCK < eFileLock g -> g <> f) by (intros g Hg ->; rewrite Hl in Hg; done).
      intros d e g k Hd He Hg Hk. specialize (Hgt _ Hg) as Hg'. specialize (Hgt _ Hk) as Hk'.
      apply lookup_insert_Some in Hd as [[_ ?]|[_ Hd]]; [congruence|].
      apply lookup_insert_Some in He as [[_ ?]|[_ He]]; [congruence|]. by apply (so_unique _ _ H d e g k).
    + rewrite E1, E3, Hn. intros Hgt. destruct (so_owner _ _ H Hgt) as [(d & g & Hd & Hg)|]; [|by right].
      left. exists d, g. rewrite lookup_insert_ne; [done|]. intros <-. congruence.
    + rewrite E5, (so_nRef _ _ H), Hcl, map_size_insert_None by done. lia.
    + done.
    + rewrite map_size_empty. lia.
  - destruct H as [Hfs _]. destruct opened; injection E as _ <-. split; [|done].
    assert (Hone : forall d g, <[c := f]> (files pr) !! d = Some g -> g = f).
    { intros d g Hd. rewrite Hfs, insert_empty in Hd. by apply lookup_singleton_Some in Hd as [_ <-]. }
    assert (H0 : nlocked (files pr) = 0) by (by rewrite Hfs).
    split; cbn [files closing findInodeInfo nShared nLock i_eFileLock bProcessLock nRef pUnused].
    + intros d g ->%Hone. rewrite Hl. split; [done|]. split; [levels; lia|done].
    + rewrite Hn, H0. split; cbn; levels; (done || lia).
    + intros d e g k ->%Hone. rewrite Hl. levels. lia.
    + done.
    + rewrite Hfs, insert_empty, map_size_singleton, map_size_empty. done.
    + done.
    + rewrite map_size_empty. lia.
Qed.

Lemma static_run r pr : static_ok pr -> static_ok (with_run r pr).
Proof. unfold static_ok. cbn. destruct (inode pr); [by apply shared_files|done]. Qed.

Lemma begin_ok pr pr' s : proc_ok pr s -> run pr = None -> begin true pr pr' -> proc_ok pr' s.
Proof.
  intros (Hst & Hcov & Hrun) Hr Hb. unfold run_ok in Hrun. rewrite Hr in Hrun.
  assert (Hall : forall c, covered (with_run c pr) s).
  { intros c l (d & g & _ & Hg & E). apply Hcov. exists d, g. unfold call_of. by rewrite Hr. }
  destruct Hb as [c flags fd flags' f i Hc Hcl Hfd E|c r f i Hc Hi Hok Hser|c f i Hc Hi Hcl|c f i Hc Hi].
  - destruct (open_ok _ _ _ _ _ _ Hst Hc Hcl E) as [Hs' El].
    assert (inode_locks (level_of (Some i)) s) as Hl by (cbn; by rewrite El).
    split; [done|]. split; [by apply rest_covered|done].
  - split; [by apply static_run|]. split; [done|]. unfold static_ok in Hst. rewrite Hi in Hst, Hrun.
    split; [by apply Hser|]. exists f, i. split; [done|]. split; [done|]. apply request_wp; [exact (conn_of pr i c f Hst Hc)|done|done].
  - split; [by apply static_run|]. split; [done|]. unfold static_ok in Hst. rewrite Hi in Hst, Hrun.
    split; [done|]. exists f, i. split; [done|]. split; [done|].
    apply wp_close_locked; [exact (conn_of pr i c f Hst Hc)|done|]. by apply (so_file _ _ Hst c f).
  - split; [by apply static_run|]. split; [done|]. unfold static_ok in Hst. rewrite Hi in Hst, Hrun.
    exists f, i. split; [done|]. split; [done|]. exact (wp_close_rest pr i c f s Hst Hc Hrun).
Qed.

(** The level EXCLUSIVE is new to an inode only with the write lock. *)
Definition level_kept (pr pr' : process) (s : own) : Prop :=
  level_of (inode pr') = EXCLUSIVE_LOCK -> level_of (inode pr) = EXCLUSIVE_LOCK \/ shrd s = Some F_WRLCK.

Lemma begin_level pr pr' s : static_ok pr -> begin true pr pr' -> level_kept pr pr' s.
Proof.
  intros Hst Hb E. left. destruct Hb as [c flags fd flags' f i Hc Hcl Hfd Eo|c r f i Hc Hi Hok Hser|c f i Hc Hi Hcl|c f i Hc Hi];
    try exact E. destruct (open_ok _ _ _ _ _ _ Hst Hc Hcl Eo) as [_ El]. cbn in E. congruence.
Qed.

Lemma commit_ok pr c pr' s : proc_ok pr s -> run pr = Some c -> commit pr c pr' -> proc_ok pr' s /\ level_kept pr pr' s.
Proof.
  intros (Hst & Hcov & Hrun) Hr Hc. unfold run_ok in Hrun. rewrite Hr in Hrun. unfold static_ok in Hst.
  destruct Hc as [c rc f' i'|c f' i'|c oi].
  - destruct Hrun as (Hcl & f & i & Hf & Hi & Hco & Hl & Hx & _ & Hp & Href & _). rewrite Hi in Hst.
    assert (Hs' : shared_ok {| files := <[c := f']> (files pr); closing := closing pr; inode := Some i'; run := None |} i').
    { apply (shared_of pr i c f); try done. rewrite Hp. by apply (so_file _ _ Hst c f). }
    split; [|unfold level_kept; by rewrite Hi]. split; [done|]. split; [by apply rest_covered|done].
  - destruct Hrun as (Hcl & f & i & Hf & Hi & f1 & i1 & (Hco & Hl & Hx & _ & Hp & Href & _) & Hsame & Hh). rewrite Hi in Hst.
    pose proof Hsame as (_ & _ & El & _).
    assert (Hs' : shared_ok {| files := delete c (files pr); closing := <[c := f']> (closing pr); inode := Some i'; run := None |} i')
      by (by apply (shared_closed pr i c f f1 i1)).
    assert (inode_locks (level_of (Some i')) s) as Hl' by (cbn; by rewrite El).
    split; [|unfold level_kept; rewrite Hi; cbn; by rewrite El]. split; [done|]. split; [by apply rest_covered|done].
  - destruct Hrun as (f & i & Hf & Hi & Hl & Hoi). rewrite Hi in Hst.
    pose proof (so_single _ _ Hst) as H1. pose proof (so_nRef _ _ Hst) as Hn.
    assert (Hd : size (closing pr) = 1%nat /\ delete c (closing pr) = ∅).
    { assert (size (delete c (closing pr)) = pred (size (closing pr))) as E by (by rewrite map_size_delete_Some by (by rewrite Hf)).
      assert (size (closing pr) <> 0%nat) by (intros E0%map_size_empty_inv; by rewrite E0 in Hf).
      split; [lia|]. apply map_size_empty_inv. lia. }
    destruct Hd as [Hsz Hd].
    assert (Hst' : static_ok {| files := files pr; closing := delete c (closing pr); inode := oi; run := None |}).
    { unfold static_ok. cbn [inode files closing]. destruct oi as [i'|]; [|done]. destruct Hoi as [-> Hne].
      destruct Hst as [H2 [] H4 H5 H6 H7 _]. split; cbn [files closing with_nRef nShared nLock i_eFileLock nRef pUnused]; try done.
      - rewrite Hd, map_size_empty. lia.
      - by rewrite Hd.
      - rewrite Hd, map_size_empty. lia. }
    split; [|unfold level_kept; rewrite Hi; cbn [inode]; destruct oi as [i'|]; [destruct Hoi as [-> _]; by left|done]].
    split; [done|]. split; [by apply rest_covered|done].
Qed.

(** ** The invariant of the world *)

Section Safety.
Context {L : Type} `{PosixLaws L}.

(** The summary [s] of what the process [p] holds. *)
Record holds (l : L) (p : Z) (s : own) : Prop := {
  ho_pend : held l p PENDING_BYTE = pend s;
  ho_resv : held l p RESERVED_BYTE = resv s;
  ho_shrd b : SHARED_FIRST <= b < SHARED_FIRST + SHARED_SIZE -> held l p b = shrd s
}.

(** No two processes hold locks that exclude each other. *)
Definition compatible (l : L) : Prop := forall p q b t, p <> q -> held l p b = Some t -> ~ conflict t (held l q b).

(** Nobody reads while a process that had EXCLUSIVE has begun to give it up. *)
Definition claim (pr : process) (s : own) : Prop :=
  level_of (inode pr) = EXCLUSIVE_LOCK /\ pend s = Some F_WRLCK /\ shrd s = Some F_RDLCK.

Record world_ok (w : @world L) (owns : Z -> own) : Prop := {
  wo_proc p : proc_ok (procs w p) (owns p);
  wo_holds p : holds (os w) p (owns p);
  wo_compatible : compatible (os w);
  wo_claim p q : claim (procs w p) (owns p) -> p <> q -> shrd (owns q) = None
}.

Lemma holds_set l p fl l' s : holds l p s -> uniform fl -> setlk l p fl = Some l' -> holds l' p (own_set fl s).
Proof.
  intros [H1 H2 H3] Hu E. split; cbn [own_set pend resv shrd]; unfold put.
  - rewrite (held_setlk _ _ _ _ _ _ E). destruct (decide (covers fl PENDING_BYTE)); [by rewrite decide_True|].
    rewrite decide_False by (by intros [_ ?]). done.
  - rewrite (held_setlk _ _ _ _ _ _ E). destruct (decide (covers fl RESERVED_BYTE)); [by rewrite decide_True|].
    rewrite decide_False by (by intros [_ ?]). done.
  - intros b Hb. rewrite (held_setlk _ _ _ _ _ _ E). specialize (Hu b Hb). destruct (decide (covers fl SHARED_FIRST)).
    + by rewrite decide_True by (split; [done|by apply Hu]).
    + rewrite decide_False by (intros [_ ?]; by apply Hu in H4). by apply H3.
Qed.

Lemma holds_close l p s : holds l p s -> holds (close_fd l p) p own_none.
Proof. intros _. split; intros; rewrite held_close; by rewrite decide_True. Qed.

Lemma compatible_set l p fl l' : compatible l -> setlk l p fl = Some l' -> compatible l'.
Proof.
  intros Hc E q r b t Hqr. rewrite !(held_setlk _ _ _ _ _ _ E).
  destruct (decide (q = p /\ covers fl b)) as [[-> Hb]|Hq].
  - rewrite decide_False by (intros [-> _]; done). intros Ht. by apply (setlk_free _ _ _ _ _ _ _ E Ht).
  - destruct (decide (r = p /\ covers fl b)) as [[-> Hb]|Hr]; [|by apply Hc].
    intros Ht Hcf. destruct (l_type fl) as [u|] eqn:Eu; [|done].
    apply (setlk_free _ _ _ _ u q b E Eu); [done|done|]. rewrite Ht. cbn in *. tauto.
Qed.

Lemma compatible_close l p : compatible l -> compatible (close_fd l p).
Proof.
  intros Hc q r b t Hqr. rewrite !held_close. repeat case_decide; [done|done|by intros _ ?|by apply Hc].
Qed.

(** A system call keeps what the program of the process will do right. *)
Lemma prog_step_wp {A} p l (a : prog A) l' b G s Q : prog_step p l a l' b -> holds l p s -> compatible l -> wp G a s Q ->
  exists s', holds l' p s' /\ compatible l' /\ (s' = s \/ G s s') /\ wp G b s' Q /\
    forall q c, q <> p -> held l' q c = held l q c.
Proof.
  intros Hstep Hs Hc Hwp. destruct Hstep as [l l' fl k E|l fl k e Hf|l fl k|l fl k e|l fd k]; cbn [wp] in Hwp.
  - destruct Hwp as (Hu & [Hg Hk] & _). exists (own_set fl s).
    split; [by apply (holds_set l)|]. split; [by apply (compatible_set l p fl)|]. split; [by right|]. split; [done|].
    intros q c Hq. rewrite (held_setlk _ _ _ _ _ _ E). by rewrite decide_False by (intros [? _]; done).
  - destruct Hwp as (_ & _ & Hk). exists s. do 2 (split; [done|]). split; [by left|]. split; [|done]. apply Hk.
    intros Ht Hst Hlen. destruct (Hf Ht ltac:(lia)) as (b & [Hb1 Hb2] & Hb).
    destruct (decide (b = PENDING_BYTE)) as [->|]; [left; by rewrite (ho_pend _ _ _ Hs) in Hb|].
    right. rewrite <- (ho_resv _ _ _ Hs). replace RESERVED_BYTE with b; [done|]. unfold RESERVED_BYTE. lia.
  - exists s. split; [done|]. split; [done|]. split; [by left|]. split; [apply Hwp|done].
  - exists s. split; [done|]. split; [done|]. split; [by left|]. split; [apply Hwp|done].
  - destruct Hwp as [Hg Hk]. exists own_none. split; [by apply (holds_close l p s)|]. split; [by apply compatible_close|].
    split; [by right|]. split; [done|]. intros q c Hq. rewrite held_close. by rewrite decide_False.
Qed.

(** A system call of the process that runs [c]. *)
Lemma call_step_ok p l l' c c' pr s : call_step p l l' c c' -> run pr = Some c -> holds l p s -> compatible l -> proc_ok pr s ->
  exists s', holds l' p s' /\ compatible l' /\ proc_ok (with_run (Some c') pr) s' /\
    (s' = s \/ exists O, guarantee O (level_of (inode pr)) s s') /\ forall q b, q <> p -> held l' q b = held l q b.
Proof.
  intros Hstep Hr Hs Hc (Hst & Hcov & Hrun). unfold run_ok in Hrun. rewrite Hr in Hrun.
  assert (Hcov' : forall d s', call_of (with_run (Some c') pr) = d -> call_of pr = d ->
    s' = s \/ guarantee (others (files pr) d) (level_of (inode pr)) s s' -> covered (with_run (Some c') pr) s').
  { intros d s' E1 E2 [-> | [Hg _]] o Ho; unfold covered in *; rewrite E1 in Ho; [by apply Hcov; rewrite E2|by apply Hg]. }
  destruct Hstep as [d a b Hp|d a b Hp|d a b Hp].
  - destruct Hrun as (Hcl & f & i & Hf & Hi & Hwp).
    destruct (prog_step_wp _ _ _ _ _ _ _ _ Hp Hs Hc Hwp) as (s' & Hs' & Hc' & Hg & Hwp' & Hq).
    exists s'. split; [done|]. split; [done|]. rewrite Hi in *. cbn [level_of] in *. split; [|split; [destruct Hg; eauto|done]].
    split; [by apply static_run|]. split; [by apply (Hcov' (Some d)); [done|unfold call_of; by rewrite Hr|]|].
    split; [done|]. by exists f, i.
  - destruct Hrun as (Hcl & f & i & Hf & Hi & Hwp).
    destruct (prog_step_wp _ _ _ _ _ _ _ _ Hp Hs Hc Hwp) as (s' & Hs' & Hc' & Hg & Hwp' & Hq).
    exists s'. split; [done|]. split; [done|]. rewrite Hi in *. cbn [level_of] in *. split; [|split; [destruct Hg; eauto|done]].
    split; [by apply static_run|]. split; [by apply (Hcov' (Some d)); [done|unfold call_of; by rewrite Hr|]|].
    split; [done|]. by exists f, i.
  - destruct Hrun as (f & i & Hf & Hi & Hwp).
    destruct (prog_step_wp _ _ _ _ _ _ _ _ Hp Hs Hc Hwp) as (s' & Hs' & Hc' & Hg & Hwp' & Hq).
    exists s'. split; [done|]. split; [done|]. rewrite Hi in *. cbn [level_of] in *. split; [|split; [destruct Hg; eauto|done]].
    split; [by apply static_run|]. split; [by apply (Hcov' None); [done|unfold call_of; by rewrite Hr|]|].
    by exists f, i.
Qed.

Lemma shared_byte : SHARED_FIRST <= SHARED_FIRST < SHARED_FIRST + SHARED_SIZE.
Proof. unfold SHARED_SIZE. lia. Qed.

(** Locks of two processes on the shared range. *)
Lemma shared_exclusive w owns p q : world_ok w owns -> p <> q -> shrd (owns p) = Some F_WRLCK -> shrd (owns q) = None.
Proof.
  intros Hw Hpq Hp. pose proof (wo_compatible _ _ Hw p q SHARED_FIRST F_WRLCK Hpq) as Hc.
  rewrite (ho_shrd _ _ _ (wo_holds _ _ Hw p)), (ho_shrd _ _ _ (wo_holds _ _ Hw q)) in Hc by apply shared_byte.
  destruct (shrd (owns q)); [|done]. destruct (Hc Hp). by left.
Qed.

Lemma pending_exclusive w owns p q : world_ok w owns -> p <> q -> pend (owns p) = Some F_WRLCK -> pend (owns q) = None.
Proof.
  intros Hw Hpq Hp. pose proof (wo_compatible _ _ Hw p q PENDING_BYTE F_WRLCK Hpq) as Hc.
  rewrite (ho_pend _ _ _ (wo_holds _ _ Hw p)), (ho_pend _ _ _ (wo_holds _ _ Hw q)) in Hc.
  destruct (pend (owns q)); [|done]. destruct (Hc Hp). by left.
Qed.

Lemma reserved_exclusive w owns p q : world_ok w owns -> p <> q -> resv (owns p) = Some F_WRLCK -> resv (owns q) = None.
Proof.
  intros Hw Hpq Hp. pose proof (wo_compatible _ _ Hw p q RESERVED_BYTE F_WRLCK Hpq) as Hc.
  rewrite (ho_resv _ _ _ (wo_holds _ _ Hw p)), (ho_resv _ _ _ (wo_holds _ _ Hw q)) in Hc.
  destruct (resv (owns q)); [|done]. destruct (Hc Hp). by left.
Qed.

Definition set_own (p : Z) (s : own) (owns : Z -> own) (q : Z) : own := if decide (q = p) then s else owns q.

(** A call begins or is written back: the locks stay. *)
Lemma world_same w owns p pr : world_ok w owns -> proc_ok pr (owns p) -> level_kept (procs w p) pr (owns p) ->
  world_ok (set_proc p pr w) owns.
Proof.
  intros Hw Hpr Hk. split; cbn [set_proc os procs].
  - intros q. destruct (decide (q = p)) as [->|]; [done|apply Hw].
  - apply Hw.
  - apply Hw.
  - intros q r Hcl Hqr. destruct (decide (q = p)) as [->|]; [|by apply (wo_claim _ _ Hw q)].
    destruct Hcl as (Hl & Hp & Hs). destruct (Hk Hl) as [Hl'|Hx]; [|congruence].
    by apply (wo_claim _ _ Hw p).
Qed.

Lemma world_call w owns p c c' l : world_ok w owns -> run (procs w p) = Some c -> call_step p (os w) l c c' ->
  exists owns', world_ok (set_proc p (with_run (Some c') (procs w p)) {| os := l; procs := procs w |}) owns'.
Proof.
  intros Hw Hr Hstep.
  destruct (call_step_ok p _ _ _ _ _ (owns p) Hstep Hr (wo_holds _ _ Hw p) (wo_compatible _ _ Hw) (wo_proc _ _ Hw p))
    as (s' & Hs' & Hc' & Hpr & Hg & Hq).
  exists (set_own p s' owns). split; cbn [set_proc os procs]; unfold set_own.
  - intros q. destruct (decide (q = p)) as [->|]; [done|apply Hw].
  - intros q. destruct (decide (q = p)) as [->|]; [done|].
    destruct (wo_holds _ _ Hw q) as [H1 H2 H3]. split; intros; rewrite Hq by done; auto.
  - done.
  - intros q r Hcl Hqr. destruct (decide (q = p)) as [->|Hqp].
    + rewrite decide_False by done. destruct Hcl as (Hl & Hp & Hsh). cbn [with_run inode] in Hl.
      destruct Hg as [-> |(O & _ & Hg2 & Hg3)]; [by apply (wo_claim _ _ Hw p)|].
      destruct (Hg3 Hp) as [Hp0|]; [|done]. destruct (shrd (owns p)) as [[]|] eqn:E.
      * by apply (wo_claim _ _ Hw p).
      * by apply (shared_exclusive w owns p).
      * specialize (Hg2 eq_refl ltac:(congruence)). congruence.
    + destruct (decide (r = p)) as [->|]; [|by apply (wo_claim _ _ Hw q)].
      pose proof (wo_claim _ _ Hw q p Hcl Hqr) as Hnone.
      destruct Hg as [-> |(O & _ & Hg2 & _)]; [done|]. destruct (shrd s') eqn:E; [|done].
      specialize (Hg2 Hnone ltac:(congruence)). destruct Hcl as (_ & Hp & _).
      pose proof (pending_exclusive w owns q p Hw Hqr Hp). congruence.
Qed.

Lemma step_ok w w' owns : world_ok w owns -> step true w w' -> exists owns', world_ok w' owns'.
Proof.
  intros Hw Hs. destruct Hs as [w p pr Hr Hb|w p c c' l Hr Hc|w p c pr Hr Hc].
  - exists owns. pose proof (wo_proc _ _ Hw p) as Hp. apply world_same; [done|by apply (begin_ok (procs w p))|].
    by apply begin_level; [apply Hp|].
  - by apply (world_call w owns p c).
  - exists owns. destruct (commit_ok _ _ _ _ (wo_proc _ _ Hw p) Hr Hc). by apply world_same.
Qed.

Lemma new_world_ok : world_ok new_world (fun _ => own_none).
Proof.
  split; cbn.
  - intros p. split; [done|]. split; [|apply none_free]. by intros l (d & g & _ & Hg & _).
  - intros p. split; intros; apply held_none.
  - intros p q b t _ Hp. by rewrite held_none in Hp.
  - intros p q (Hl & _). done.
Qed.

Lemma reachable_ok w : reachable true w -> exists owns, world_ok w owns.
Proof.
  unfold reachable. assert (exists owns, world_ok (new_world (L := L)) owns) as Hn by (eexists; apply new_world_ok).
  revert Hn. generalize (new_world (L := L)). intros w0 Hn Hr. induction Hr as [|w0 w1 w2 Hstep _ IH]; [done|].
  destruct Hn as [owns Ho]. apply IH. by apply (step_ok w0 w1 owns).
Qed.

(** What covers the lock of a connection at rest. *)
Lemma rest_lock w owns p c e : world_ok w owns -> at_rest w p c e -> exists i, inode (procs w p) = Some i /\
  shared_ok (procs w p) i /\ level_ok e (i_eFileLock i) /\ lock_covered e (owns p).
Proof.
  intros Hw (Hc & f & Hf & <-). destruct (wo_proc _ _ Hw p) as (Hst & Hcov & _). unfold static_ok in Hst.
  destruct (inode (procs w p)) as [i|]; [|destruct Hst as [E _]; by rewrite E in Hf].
  exists i. split; [done|]. split; [done|]. split; [by apply (so_file _ _ Hst c f)|]. apply Hcov. by exists c, f.
Qed.

(** Two connections of one process. *)
Lemma same_process w owns p c d e e' : world_ok w owns -> at_rest w p c e -> at_rest w p d e' -> c <> d ->
  RESERVED_LOCK <= e -> e' <= SHARED_LOCK /\ (e = EXCLUSIVE_LOCK -> e' = NO_LOCK).
Proof.
  intros Hw Hc Hd Hne He. destruct (rest_lock _ _ _ _ _ Hw Hc) as (i & Hi & Hs & Hl & _).
  destruct (rest_lock _ _ _ _ _ Hw Hd) as (i' & Hi' & _ & Hl' & _). rewrite Hi in Hi'. injection Hi' as <-.
  destruct Hc as (_ & f & Hf & Ef), Hd as (_ & g & Hg & Eg).
  assert (Hle : e' <= SHARED_LOCK).
  { destruct (decide (e' <= SHARED_LOCK)); [done|]. destruct Hne. apply (so_unique _ _ Hs c d f g); [done|done|levels; lia|lia]. }
  split; [done|]. intros ->. destruct (decide (SHARED_LOCK <= e')) as [Hsh|]; [exfalso|levels; lia].
  pose proof (so_inode _ _ Hs) as [_ _ Hcount _ _ Hx].
  rewrite (nlocked_delete c f _ Hf) in Hcount. unfold lock_bit in Hcount. rewrite decide_True in Hcount by (levels; lia).
  assert (0 < nlocked (delete c (files (procs w p)))) by (apply (nlocked_pos d g); [by rewrite lookup_delete_ne|lia]).
  rewrite Hx in Hcount by (levels; lia). lia.
Qed.

Lemma exclusive_alone w owns p c q d e : world_ok w owns -> at_rest w p c EXCLUSIVE_LOCK -> at_rest w q d e ->
  (p, c) <> (q, d) -> e = NO_LOCK.
Proof.
  intros Hw Hc Hd Hne. destruct (decide (p = q)) as [->|Hpq].
  { by apply (same_process w owns q c d EXCLUSIVE_LOCK e Hw Hc Hd); [congruence| |]. }
  destruct (rest_lock _ _ _ _ _ Hw Hc) as (i & Hi & Hs & Hl & _ & _ & _ & Hcov).
  destruct (rest_lock _ _ _ _ _ Hw Hd) as (i' & Hi' & Hs' & Hl' & Hsh & _).
  destruct (decide (SHARED_LOCK <= e)) as [He|]; [exfalso|levels; lia]. apply (Hsh He).
  destruct (Hcov eq_refl) as [Hx|[Hx Hp]].
  - by apply (shared_exclusive w owns p).
  - apply (wo_claim _ _ Hw p); [|done]. split; [|done]. rewrite Hi. cbn. levels. lia.
Qed.

Lemma writer_alone w owns p c q d e e' : world_ok w owns -> at_rest w p c e -> at_rest w q d e' ->
  RESERVED_LOCK <= e -> RESERVED_LOCK <= e' -> (p, c) = (q, d).
Proof.
  intros Hw Hc Hd He He'. destruct (decide ((p, c) = (q, d))) as [|Hne]; [done|exfalso].
  destruct (decide (e = EXCLUSIVE_LOCK)) as [->|Hx].
  { pose proof (exclusive_alone w owns p c q d e' Hw Hc Hd Hne). levels. lia. }
  destruct (decide (e' = EXCLUSIVE_LOCK)) as [->|Hx'].
  { pose proof (exclusive_alone w owns q d p c e Hw Hd Hc ltac:(congruence)). levels. lia. }
  destruct (decide (p = q)) as [->|Hpq].
  { destruct (same_process w owns q c d e e' Hw Hc Hd) as [Hle _]; [congruence|done|]. levels. lia. }
  destruct (rest_lock _ _ _ _ _ Hw Hc) as (i & _ & Hs & Hl & _ & Hr & _).
  destruct (rest_lock _ _ _ _ _ Hw Hd) as (i' & _ & Hs' & Hl' & _ & Hr' & _).
  pose proof (so_inode _ _ Hs) as [Hi _ _ _ _ _]. pose proof (so_inode _ _ Hs') as [Hi' _ _ _ _ _].
  pose proof (reserved_exclusive w owns p q Hw Hpq) as Hex. rewrite Hr, Hr' in Hex by (levels; lia). by specialize (Hex eq_refl).
Qed.

(** C15: EXCLUSIVE excludes every other lock.  However the calls of any number of
    processes with any number of connections interleave between system calls, and
    whichever system calls fail, while a connection that is not in a call has the
    level EXCLUSIVE no other connection that is not in a call has a lock; provided no call
    of a process begins between the two parts of a close. *)
Theorem exclusive_lock_excludes w p c q d e :
  reachable true w -> at_rest w p c EXCLUSIVE_LOCK -> at_rest w q d e -> (p, c) <> (q, d) -> e = NO_LOCK.
Proof. intros [owns Hw]%reachable_ok. by apply (exclusive_alone w owns). Qed.

(** C16: There is one writer.  In the same runs, two connections that are not in a call
    and both have at least the level RESERVED are the same. *)
Theorem one_connection_reserves w p c q d e e' :
  reachable true w -> at_rest w p c e -> at_rest w q d e' -> RESERVED_LOCK <= e -> RESERVED_LOCK <= e' -> (p, c) = (q, d).
Proof. intros [owns Hw]%reachable_ok. by apply (writer_alone w owns). Qed.

(** No assert is broken and no null descriptor is used. *)
Definition not_broken {A} (a : prog A) : Prop := match a with Broken => False | _ => True end.

Lemma calls_not_broken w p : reachable true w ->
  match run (procs w p) with
  | None => True
  | Some (Request _ a) => not_broken a
  | Some (CloseLocked _ a) => not_broken a
  | Some (CloseRest _ a) => not_broken a
  end.
Proof.
  intros [owns Hw]%reachable_ok. destruct (wo_proc _ _ Hw p) as (_ & _ & Hr). unfold run_ok in Hr.
  destruct (run (procs w p)) as [[c a|c a|c a]|]; [|..|done].
  - destruct Hr as (_ & f & i & _ & _ & Hwp). by destruct a.
  - destruct Hr as (_ & f & i & _ & _ & Hwp). by destruct a.
  - destruct Hr as (f & i & _ & _ & Hwp). by destruct a.
Qed.
End Safety.

(** A writer that is not in a call is seen by [unixCheckReservedLock] of every other process. *)
Lemma writer_is_seen {L : Type} `{PosixLaws L} w p c q e : reachable true w -> at_rest w p c e ->
  e = RESERVED_LOCK \/ e = PENDING_LOCK -> q <> p ->
  getlk (os w) q {| l_type := Some F_WRLCK; l_start := RESERVED_BYTE; l_len := 1 |} = true.
Proof.
  intros [owns Hw]%reachable_ok Hc He Hq. destruct (rest_lock w owns p c e Hw Hc) as (i & _ & _ & _ & _ & Hr & _).
  eapply getlk_conflict; [reflexivity|]. exists p, RESERVED_BYTE. split; [done|]. split; [unfold covers; cbn; lia|].
  rewrite (ho_resv _ _ _ (wo_holds _ _ Hw p)), (Hr He). by left.
Qed.

(** ** An implementation of record locks *)

(** The requests that were granted, the last one first. *)
Definition granted : Type := list (Z * flock).

Fixpoint held_by (l : granted) (p b : Z) : option ltype :=
  match l with
  | [] => None
  | (q, fl) :: l => if decide (q = p /\ covers fl b) then l_type fl else held_by l p b
  end.

(** Where a lock can begin or end. *)
Definition borders (l : granted) : list Z := l ≫= (fun x => [l_start x.2; l_start x.2 + l_len x.2]).

Definition in_the_way (l : granted) (p : Z) (fl : flock) (t : ltype) : bool :=
  existsb (fun x => existsb (fun b =>
    bool_decide (x.1 <> p) && bool_decide (covers fl b) && bool_decide (conflict t (held_by l x.1 b)))
    (l_start fl :: borders l)) l.

Definition wants (l : granted) (p : Z) (fl : flock) : bool :=
  match l_type fl with Some t => in_the_way l p fl t | None => false end.

#[export] Instance granted_locks : PosixLocks granted := {|
  no_locks := [];
  held := held_by;
  setlk l p fl := if wants l p fl then None else Some ((p, fl) :: l);
  getlk := wants;
  close_fd l p := filter (fun x => x.1 <> p) l
|}.

(** Between two borders nothing changes. *)
Lemma border_below l st b : st <= b -> exists b', b' ∈ st :: borders l /\ st <= b' <= b /\
  forall c q, b' <= c <= b -> held_by l q c = held_by l q b.
Proof.
  intros Hst. induction l as [|[q fl] l (b1 & Hin & Hb & Hsame)].
  { exists st. split; [by constructor|]. split; [lia|done]. }
  assert (Hsub : forall x, x ∈ st :: borders l -> x ∈ st :: borders ((q, fl) :: l)).
  { intros x Hx. cbn. rewrite !elem_of_cons in *. tauto. }
  assert (Hpick : forall x, x = b1 \/ x = l_start fl \/ x = l_start fl + l_len fl -> b1 <= x <= b ->
    (forall c, x <= c <= b -> covers fl c <-> covers fl b) ->
    exists b', b' ∈ st :: borders ((q, fl) :: l) /\ st <= b' <= b /\
      forall c p, b' <= c <= b -> held_by ((q, fl) :: l) p c = held_by ((q, fl) :: l) p b).
  { intros x Hx Hxb Hcov. exists x. split.
    - destruct Hx as [-> |[-> | ->]]; [by apply Hsub| |]; cbn; rewrite !elem_of_cons; tauto.
    - split; [lia|]. intros c p Hc. cbn [held_by]. specialize (Hcov c Hc). specialize (Hsame c p ltac:(lia)).
      destruct (decide (q = p /\ covers fl c)) as [H1|H1], (decide (q = p /\ covers fl b)) as [H2|H2]; tauto. }
  unfold covers in Hpick.
  destruct (decide (b1 <= l_start fl <= b)) as [H1|H1], (decide (b1 <= l_start fl + l_len fl <= b)) as [H2|H2].
  - destruct (decide (l_start fl <= l_start fl + l_len fl)).
    + apply (Hpick (l_start fl + l_len fl)); [tauto|done|]. intros; lia.
    + apply (Hpick (l_start fl)); [tauto|done|]. intros; lia.
  - apply (Hpick (l_start fl)); [tauto|done|]. intros; lia.
  - apply (Hpick (l_start fl + l_len fl)); [tauto|done|]. intros; lia.
  - apply (Hpick b1); [tauto|lia|]. intros; lia.
Qed.

Lemma held_by_in l p b t : held_by l p b = Some t -> exists fl, (p, fl) ∈ l.
Proof.
  induction l as [|[q fl] l IH]; [done|]. cbn [held_by]. case_decide as Hq.
  - intros _. exists fl. destruct Hq as [-> _]. by constructor.
  - intros (fl' & Hin)%IH. exists fl'. by constructor.
Qed.

Lemma in_the_way_spec l p fl t : in_the_way l p fl t = true <->
  exists q b, q <> p /\ covers fl b /\ conflict t (held_by l q b).
Proof.
  unfold in_the_way. rewrite existsb_exists. split.
  - intros ([q fl'] & _ & Hb). rewrite existsb_exists in Hb. destruct Hb as (b & _ & Hb).
    apply andb_true_iff in Hb as [[H1%bool_decide_eq_true H2%bool_decide_eq_true]%andb_true_iff H3%bool_decide_eq_true].
    by exists q, b.
  - intros (q & b & Hq & Hc & Hcf). assert (exists u, held_by l q b = Some u) as [u Hu] by (destruct (held_by l q b); [eauto|done]).
    destruct (held_by_in _ _ _ _ Hu) as [fl' Hin]. exists (q, fl'). split; [by apply list_elem_of_In|].
    rewrite existsb_exists. destruct (border_below l (l_start fl) b (proj1 Hc)) as (b' & Hb' & Hle & Hsame).
    exists b'. split; [by apply list_elem_of_In|]. cbn [fst]. rewrite (Hsame b' q) by lia.
    rewrite !bool_decide_eq_true_2; [done|done| |done]. unfold covers in *. lia.
Qed.

#[export] Instance granted_laws : PosixLaws granted.
Proof.
  split; cbn.
  - done.
  - intros l p fl l' q b. destruct (wants l p fl); [done|]. intros [= <-]. cbn [held_by]. repeat case_decide; (done || naive_solver).
  - intros l p fl l' t q b E Ht Hq Hc Hcf. unfold wants in E. rewrite Ht in E.
    assert (in_the_way l p fl t = true) as Hw by (apply in_the_way_spec; eauto). by rewrite Hw in E.
  - intros l p fl Hfree. unfold wants. destruct (l_type fl) as [t|]; [|by eexists].
    destruct (in_the_way l p fl t) eqn:E; [|by eexists]. apply in_the_way_spec in E as (q & b & Hq & Hc & Hcf).
    by destruct (Hfree t q b).
  - intros l p fl t Ht. unfold wants. rewrite Ht. apply in_the_way_spec.
  - intros l p q b. induction l as [|[r fl] l IH]; [by case_decide|]. rewrite filter_cons. cbn [fst held_by].
    repeat case_decide; cbn [held_by]; repeat case_decide; (done || naive_solver).
Qed.

(** ** Runs *)

Section Play.
Context {L : Type} `{PosixLaws L}.

(** The next system call; a lock that is refused answers EAGAIN. *)
Definition next {A} (p : Z) (l : L) (a : prog A) : option (L * prog A) :=
  match a with
  | SetLk fl k =>
      match setlk l p fl with
      | Some l' => Some (l', k None)
      | None => if decide (l_type fl = None) then None else Some (l, k (Some 11))
      end
  | GetLk fl k => Some (l, k (inr (getlk l p fl)))
  | Close fd k => Some (close_fd l p, k)
  | Ret _ | Broken => None
  end.

Lemma next_step {A} p l (a : prog A) l' b : next p l a = Some (l', b) -> prog_step p l a l' b.
Proof.
  destruct a as [a| |fl k|fl k|fd k]; cbn; try done.
  - destruct (setlk l p fl) as [l1|] eqn:E; [intros [= <- <-]; by constructor|].
    case_decide; [done|]. intros [= <- <-]. constructor. done.
  - intros [= <- <-]. constructor.
  - intros [= <- <-]. constructor.
Qed.

Definition next_call (p : Z) (l : L) (c : call) : option (L * call) :=
  match c with
  | Request d a => '(l, b) ← next p l a; Some (l, Request d b)
  | CloseLocked d a => '(l, b) ← next p l a; Some (l, CloseLocked d b)
  | CloseRest d a => '(l, b) ← next p l a; Some (l, CloseRest d b)
  end.

Lemma next_call_step p l c l' c' : next_call p l c = Some (l', c') -> call_step p l l' c c'.
Proof.
  destruct c as [d a|d a|d a]; cbn; (destruct (next p l a) as [[l1 b]|] eqn:E; cbn; [|done]); intros [= <- <-];
    constructor; by apply next_step.
Qed.

Definition finished (pr : process) (c : call) : option process :=
  match c with
  | Request c (Ret (rc, f, i)) =>
      Some {| files := <[c := f]> (files pr); closing := closing pr; inode := Some i; run := None |}
  | CloseLocked c (Ret (f, i)) =>
      Some {| files := delete c (files pr); closing := <[c := f]> (closing pr); inode := Some i; run := None |}
  | CloseRest c (Ret oi) => Some {| files := files pr; closing := delete c (closing pr); inode := oi; run := None |}
  | _ => None
  end.

Lemma finished_commit pr c pr' : finished pr c = Some pr' -> commit pr c pr'.
Proof. destruct c as [d [[[rc f] i]| | | |]|d [[f i]| | | |]|d [oi| | | |]]; cbn; try done; intros [= <-]; constructor. Qed.

(** A process goes on with its call to the end. *)
Fixpoint finish (fuel : nat) (p : Z) (w : world) : option world :=
  match run (procs w p) with
  | None => Some w
  | Some c =>
      match fuel with
      | O => None
      | S fuel =>
          match finished (procs w p) c with
          | Some pr => finish fuel p (set_proc p pr w)
          | None =>
              '(l, c') ← next_call p (os w) c;
              finish fuel p (set_proc p (with_run (Some c') (procs w p)) {| os := l; procs := procs w |})
          end
      end
  end.

Lemma finish_steps serial fuel p : forall w w', finish fuel p w = Some w' -> rtc (step serial) w w'.
Proof.
  induction fuel as [|fuel IH]; intros w w'; cbn [finish]; destruct (run (procs w p)) as [c|] eqn:Er.
  - done.
  - by intros [= <-].
  - destruct (finished (procs w p) c) as [pr|] eqn:Ef.
    + intros Hw. eapply rtc_l; [by apply (st_commit _ w p c pr Er), finished_commit|]. by apply IH.
    + destruct (next_call p (os w) c) as [[l c']|] eqn:En; cbn [mbind option_bind]; [|done].
      intros Hw. eapply rtc_l; [by apply (st_call _ w p c c' l Er), next_call_step|]. by apply IH.
  - intros [= <-]. constructor.
Qed.

Inductive action := Open (p c flags fd : Z) | Call (p c : Z) (r : request) | CloseFirst (p c : Z) | CloseSecond (p c : Z).

Definition actor (a : action) : Z := match a with Open p _ _ _ | Call p _ _ | CloseFirst p _ | CloseSecond p _ => p end.

#[local] Instance request_ok_dec r e : Decision (request_ok r e).
Proof. destruct r; cbn [request_ok]; apply _. Defined.

Definition start (serial : bool) (pr : process) (a : action) : option process :=
  match a with
  | Open _ c flags fd =>
      if decide (files pr !! c = None /\ closing pr = ∅ /\ 0 <= fd) then
        let '(f, i) := unixOpen flags (fd, flags) (inode pr) in
        Some {| files := <[c := f]> (files pr); closing := ∅; inode := Some i; run := None |}
      else None
  | Call _ c r =>
      f ← files pr !! c; i ← inode pr;
      if decide (request_ok r (eFileLock f) /\ (serial = true -> closing pr = ∅))
      then Some (with_run (Some (Request c (request_prog r f i))) pr) else None
  | CloseFirst _ c =>
      f ← files pr !! c; i ← inode pr;
      if decide (closing pr = ∅) then Some (with_run (Some (CloseLocked c (unixClose_locked f i))) pr) else None
  | CloseSecond _ c =>
      f ← closing pr !! c; i ← inode pr; Some (with_run (Some (CloseRest c (unixClose_rest f i))) pr)
  end.

Lemma start_begin serial pr a pr' : start serial pr a = Some pr' -> begin serial pr pr'.
Proof.
  destruct a as [p c flags fd|p c r|p c|p c]; cbn.
  - case_decide as Hd; [|done]. destruct Hd as (? & ? & ?). destruct (unixOpen flags (fd, flags) (inode pr)) as [f i] eqn:E. intros [= <-]. by apply (bg_open _ _ c flags fd flags).
  - destruct (files pr !! c) as [f|] eqn:Ef; cbn; [|done]. destruct (inode pr) as [i|] eqn:Ei; cbn; [|done].
    case_decide as Hd; [|done]. destruct Hd. intros [= <-]. by apply bg_request.
  - destruct (files pr !! c) as [f|] eqn:Ef; cbn; [|done]. destruct (inode pr) as [i|] eqn:Ei; cbn; [|done].
    case_decide; [|done]. intros [= <-]. by apply bg_close.
  - destruct (closing pr !! c) as [f|] eqn:Ef; cbn; [|done]. destruct (inode pr) as [i|] eqn:Ei; cbn; [|done].
    intros [= <-]. by apply bg_close_rest.
Qed.

(** Calls one after the other, each to its end. *)
Fixpoint play (fuel : nat) (serial : bool) (acts : list action) (w : world) : option world :=
  match acts with
  | [] => Some w
  | a :: acts =>
      match run (procs w (actor a)) with
      | Some _ => None
      | None => pr ← start serial (procs w (actor a)) a; w ← finish fuel (actor a) (set_proc (actor a) pr w); play fuel serial acts w
      end
  end.

Lemma play_steps fuel serial acts : forall w w', play fuel serial acts w = Some w' -> rtc (step serial) w w'.
Proof.
  induction acts as [|a acts IH]; intros w w'; cbn [play]; [by intros [= <-]|].
  destruct (run (procs w (actor a))) eqn:Er; [done|]. destruct (start serial (procs w (actor a)) a) as [pr|] eqn:Es; [|done].
  cbn [mbind option_bind]. destruct (finish fuel (actor a) (set_proc (actor a) pr w)) as [w1|] eqn:Ef; [|done].
  cbn [mbind option_bind]. intros Hw. eapply rtc_l; [exact (st_begin _ w (actor a) pr Er (start_begin _ _ _ _ Es))|].
  etrans; [exact (finish_steps serial fuel (actor a) _ _ Ef)|]. exact (IH _ _ Hw).
Qed.

(** The level of a connection that is not in a call. *)
Definition level_at (w : @world L) (p c : Z) : option Z :=
  if decide (call_of (procs w p) = Some c) then None else eFileLock <$> files (procs w p) !! c.

Lemma level_at_rest w p c e : level_at w p c = Some e -> at_rest w p c e.
Proof.
  unfold level_at. case_decide; [done|]. intros Hl. apply fmap_Some in Hl as (f & Hf & ->). by split; [|exists f].
Qed.
End Play.

(** The levels after the calls [acts]. *)
Definition levels_after (serial : bool) (acts : list action) (ask : list (Z * Z)) : option (list (option Z)) :=
  w ← play (L := granted) 50 serial acts new_world; Some ((fun pc => level_at w pc.1 pc.2) <$> ask).

Lemma levels_reached serial acts p c q d e e' : levels_after serial acts [(p, c); (q, d)] = Some [Some e; Some e'] ->
  exists w : world (L := granted), reachable serial w /\ at_rest w p c e /\ at_rest w q d e'.
Proof.
  unfold levels_after. destruct (play 50 serial acts new_world) as [w|] eqn:E; [|done]. cbn [mbind option_bind fmap list_fmap fst snd]. intros [= H1 H2].
  exists w. split; [exact (play_steps 50 serial acts _ _ E)|]. split; by apply level_at_rest.
Qed.

(** A reader and a writer: the writer waits in PENDING until the reader is gone. *)
Definition sample_calls : list action :=
  [Open 1 1 6 3; Open 2 1 6 3; Call 1 1 (ReqLock SHARED_LOCK); Call 2 1 (ReqLock SHARED_LOCK);
   Call 1 1 (ReqLock RESERVED_LOCK); Call 2 1 (ReqLock RESERVED_LOCK); Call 1 1 (ReqLock EXCLUSIVE_LOCK);
   Call 2 1 (ReqUnlock NO_LOCK); Call 2 1 (ReqLock SHARED_LOCK); Call 1 1 (ReqLock EXCLUSIVE_LOCK);
   Call 2 1 (ReqLock SHARED_LOCK)].

Lemma exclusive_lock_excludes_witness : exists (w : world (L := granted)) e,
  reachable true w /\ at_rest w 1 1 EXCLUSIVE_LOCK /\ at_rest w 2 1 e /\ e = NO_LOCK.
Proof.
  destruct (levels_reached true sample_calls 1 1 2 1 4 0 ltac:(by vm_compute)) as (w & Hw & Hc & Hd).
  exists w, 0. do 3 (split; [done|]). by apply (exclusive_lock_excludes w 1 1 2 1 0 Hw Hc Hd).
Defined.

Lemma one_connection_reserves_witness : exists (w : world (L := granted)) e,
  reachable true w /\ at_rest w 1 1 e /\ RESERVED_LOCK <= e /\ (1, 1) = (1, 1).
Proof.
  destruct (levels_reached true (take 7 sample_calls) 1 1 2 1 3 1 ltac:(by vm_compute)) as (w & Hw & Hc & Hd).
  exists w, 3. do 2 (split; [done|]). split; [done|].
  by apply (one_connection_reserves w 1 1 1 1 3 3 Hw Hc Hc).
Defined.

(** [unixClose] leaves the mutex of the inode before it closes the descriptor.  A connection of
    the same process that takes its locks in between loses them, and another process
    gets EXCLUSIVE beside it. *)
Definition race_calls : list action :=
  [Open 1 1 6 3; Open 1 2 6 4; Open 2 1 6 3; CloseFirst 1 1;
   Call 1 2 (ReqLock SHARED_LOCK); Call 1 2 (ReqLock RESERVED_LOCK); Call 1 2 (ReqLock EXCLUSIVE_LOCK);
   CloseSecond 1 1;
   Call 2 1 (ReqLock SHARED_LOCK); Call 2 1 (ReqLock RESERVED_LOCK); Call 2 1 (ReqLock EXCLUSIVE_LOCK)].

Lemma close_drops_other_locks : exists w : world (L := granted),
  reachable false w /\ at_rest w 1 2 EXCLUSIVE_LOCK /\ at_rest w 2 1 EXCLUSIVE_LOCK.
Proof. apply (levels_reached false race_calls). by vm_compute. Qed.
