(* ===== verification/SqlBytes.v ===== *)
(** * Buffers of bytes

    [sqlite/sqlite3.c]: the macros and routines by which SQLite reads and writes pages
    ([get2byte], [put2byte] of btreeInt.h, [sqlite3Get4byte], [sqlite3Put4byte] of util.c) and the
    functions of the C library they are mixed with.  A buffer is the list of its bytes, an address in it a
    [Z]; an access that is not inside is [None].  [rd] and [upd] are the same without the test. *)

From S2P Require Import Prelude Bits.

(** ** Accesses *)

Definition ld (data : bytes) (i : Z) : option Z := if decide (0 <= i) then data !! Z.to_nat i else None.

Definition upd (data : bytes) (i : Z) (bs : bytes) : bytes :=
  take (Z.to_nat i) data ++ bs ++ drop (Z.to_nat i + length bs) data.

Definition sub (data : bytes) (i n : Z) : bytes := take (Z.to_nat n) (drop (Z.to_nat i) data).

Definition inside (data : bytes) (i n : Z) : Prop := 0 <= i /\ 0 <= n /\ i + n <= Z.of_nat (length data).

#[export] Instance inside_dec data i n : Decision (inside data i n).
Proof. unfold inside. apply _. Defined.

Definition st (data : bytes) (i : Z) (bs : bytes) : option bytes :=
  if decide (inside data i (Z.of_nat (length bs))) then Some (upd data i bs) else None.

(** What [memcpy] and [memmove] read. *)
Definition slice (data : bytes) (i n : Z) : option bytes :=
  if decide (inside data i n) then Some (sub data i n) else None.

Definition memmove_buf (data : bytes) (dst src n : Z) : option bytes := bs ← slice data src n; st data dst bs.

Definition memset (data : bytes) (i v n : Z) : option bytes :=
  if decide (0 <= n) then st data i (replicate (Z.to_nat n) (u8 v)) else None.

Definition get2byte (data : bytes) (i : Z) : option Z :=
  a ← ld data i; b ← ld data (i + 1); Some (Z.lor (Z.shiftl a 8) b).

Definition put2byte (data : bytes) (i v : Z) : option bytes := st data i [u8 (Z.shiftr v 8); u8 v].

Definition get2byteNotZero (data : bytes) (i : Z) : option Z :=
  x ← get2byte data i; Some (Z.land (x - 1) 0xffff + 1).

Definition sqlite3Get4byte (data : bytes) (i : Z) : option Z :=
  a ← ld data i; b ← ld data (i + 1); c ← ld data (i + 2); d ← ld data (i + 3);
  Some (Z.lor (Z.lor (Z.lor (u32 (Z.shiftl a 24)) (Z.shiftl b 16)) (Z.shiftl c 8)) d).

Definition sqlite3Put4byte (data : bytes) (i v : Z) : option bytes :=
  st data i [u8 (Z.shiftr v 24); u8 (Z.shiftr v 16); u8 (Z.shiftr v 8); u8 v].

(** ** Reading and writing *)

Definition rd (data : bytes) (i : Z) : Z := default 0 (ld data i).

Definition rd2 (data : bytes) (i : Z) : Z := 256 * rd data i + rd data (i + 1).

Abbreviation len data := (Z.of_nat (length data)).

Lemma ld_rd data i : 0 <= i < len data -> ld data i = Some (rd data i).
Proof.
  intros H. unfold rd, ld. rewrite decide_True by lia.
  destruct (lookup_lt_is_Some_2 data (Z.to_nat i)) as [b ->]; [lia|done].
Qed.

Lemma rd_range data i : bytes_ok data -> 0 <= rd data i < 256.
Proof.
  intros H. unfold rd, ld. case_decide; cbn; [|lia]. destruct (data !! Z.to_nat i) as [b|] eqn:E; cbn; [|lia].
  by apply (Forall_lookup_1 byte_ok data (Z.to_nat i) b).
Qed.

Lemma rd2_range data i : bytes_ok data -> 0 <= rd2 data i < 65536.
Proof. intros H. pose proof (rd_range data i H). pose proof (rd_range data (i + 1) H). unfold rd2. lia. Qed.

Lemma rd2_zero data i : bytes_ok data -> rd2 data i = 0 <-> rd data i = 0 /\ rd data (i + 1) = 0.
Proof. intros H. pose proof (rd_range data i H). pose proof (rd_range data (i + 1) H). unfold rd2. lia. Qed.

Lemma get2byte_rd data i : bytes_ok data -> 0 <= i -> i + 2 <= len data -> get2byte data i = Some (rd2 data i).
Proof.
  intros Hb H1 H2. unfold get2byte. rewrite !ld_rd by lia. cbn [mbind option_bind]. f_equal.
  pose proof (rd_range data (i + 1) Hb). unfold rd2.
  rewrite Z.shiftl_mul_pow2 by lia. rewrite lor_split by (change (2 ^ 8) with 256; lia).
  change (2 ^ 8) with 256. lia.
Qed.

Lemma get2byteNotZero_rd data i : bytes_ok data -> 0 <= i -> i + 2 <= len data ->
  get2byteNotZero data i = Some (if decide (rd2 data i = 0) then 65536 else rd2 data i).
Proof.
  intros Hb H1 H2. unfold get2byteNotZero. rewrite get2byte_rd by done. cbn [mbind option_bind]. f_equal.
  pose proof (rd2_range data i Hb). change 0xffff with (2 ^ 16 - 1). rewrite land_ones_mod by lia. change (2 ^ 16) with 65536.
  case_decide as E; [by rewrite E|]. rewrite Z.mod_small by lia. lia.
Qed.

Lemma slice_sub data i n : 0 <= i -> 0 <= n -> i + n <= len data -> slice data i n = Some (sub data i n).
Proof. intros. unfold slice. by rewrite decide_True. Qed.

Lemma st_upd data i bs : 0 <= i -> i + len bs <= len data -> st data i bs = Some (upd data i bs).
Proof. intros. unfold st. rewrite decide_True; [done|]. unfold inside. lia. Qed.

Lemma length_upd data i bs : 0 <= i -> i + len bs <= len data -> length (upd data i bs) = length data.
Proof. intros. unfold upd. rewrite !length_app, length_take, length_drop. lia. Qed.

Lemma length_sub data i n : 0 <= i -> 0 <= n -> i + n <= len data -> len (sub data i n) = n.
Proof. intros. unfold sub. rewrite length_take, length_drop. lia. Qed.

Lemma bytes_ok_upd data i bs : bytes_ok data -> bytes_ok bs -> bytes_ok (upd data i bs).
Proof. intros. unfold upd. apply bytes_ok_app. split; [by apply Forall_take|]. apply bytes_ok_app. split; [done|by apply Forall_drop]. Qed.

Lemma bytes_ok_sub data i n : bytes_ok data -> bytes_ok (sub data i n).
Proof. intros. unfold sub. by apply Forall_take, Forall_drop. Qed.

Lemma rd_upd data i bs j : 0 <= i -> i + len bs <= len data ->
  rd (upd data i bs) j = if decide (i <= j < i + len bs) then rd bs (j - i) else rd data j.
Proof.
  intros H1 H2. unfold rd, ld, upd. destruct (decide (0 <= j)) as [Hj|Hj].
  2: { rewrite decide_False by lia. done. }
  destruct (decide (i <= j < i + len bs)) as [H|H].
  - f_equal. rewrite decide_True by lia. rewrite lookup_app_r by (rewrite length_take; lia).
    rewrite length_take, lookup_app_l by lia. f_equal. lia.
  - f_equal. destruct (decide (j < i)).
    + rewrite lookup_app_l by (rewrite length_take; lia). by rewrite lookup_take_lt by lia.
    + rewrite lookup_app_r by (rewrite length_take; lia). rewrite length_take, lookup_app_r by lia.
      rewrite lookup_drop. f_equal. lia.
Qed.

Lemma rd_sub data i n j : 0 <= i -> rd (sub data i n) j = if decide (0 <= j < n) then rd data (i + j) else 0.
Proof.
  intros Hi. unfold rd, ld, sub. destruct (decide (0 <= j < n)) as [H|H].
  - rewrite !decide_True by lia. rewrite lookup_take_lt by lia. rewrite lookup_drop. f_equal. f_equal. lia.
  - case_decide; [|done]. rewrite lookup_take_ge by lia. done.
Qed.

(** Two buffers of the same length with the same bytes are equal. *)
Lemma bytes_ext a b : length a = length b -> (forall j, 0 <= j < len a -> rd a j = rd b j) -> a = b.
Proof.
  intros Hl H. apply list_eq_same_length with (n := length a); [done|done|].
  intros i x y Hi Hx Hy. specialize (H (Z.of_nat i) ltac:(lia)). unfold rd, ld in H.
  rewrite !decide_True in H by lia. rewrite !Nat2Z.id, Hx, Hy in H. done.
Qed.

Lemma sub_eq d1 i1 d2 i2 n : 0 <= i1 -> i1 + n <= len d1 -> 0 <= i2 -> i2 + n <= len d2 ->
  (forall j, 0 <= j < n -> rd d1 (i1 + j) = rd d2 (i2 + j)) -> sub d1 i1 n = sub d2 i2 n.
Proof.
  intros H1 H2 H3 H4 H. destruct (decide (0 <= n)).
  2: { unfold sub. by replace (Z.to_nat n) with O by lia. }
  apply bytes_ext. { apply Nat2Z.inj. by rewrite !length_sub by lia. }
  intros j Hj. rewrite length_sub in Hj by lia. rewrite !rd_sub by lia. rewrite !decide_True by lia. by apply H.
Qed.

Lemma sub_all data : sub data 0 (len data) = data.
Proof. unfold sub. rewrite Nat2Z.id. cbn. apply take_ge. done. Qed.

Lemma sub_is data i c : 0 <= i -> i + len c <= len data ->
  (forall j, 0 <= j < len c -> rd data (i + j) = rd c j) -> sub data i (len c) = c.
Proof.
  intros H1 H2 H. rewrite <- (sub_all c) at 2. apply sub_eq; [lia..|]. intros j Hj. rewrite H by lia. f_equal.
Qed.

Lemma rd_of_sub data i c j : 0 <= i -> sub data i (len c) = c -> 0 <= j < len c -> rd data (i + j) = rd c j.
Proof. intros Hi E Hj. rewrite <- E. rewrite rd_sub by lia. by rewrite decide_True by lia. Qed.

(** ** Two-byte integers *)

(** The two bytes of [v]. *)
Definition two (v : Z) : bytes := [u8 (Z.shiftr v 8); u8 v].

Lemma two_ok v : bytes_ok (two v).
Proof. unfold two, byte_ok, wrapu. repeat constructor; apply Z.mod_pos_bound; lia. Qed.

Lemma len_two v : len (two v) = 2.
Proof. done. Qed.

Lemma put2byte_upd data i v : 0 <= i -> i + 2 <= len data -> put2byte data i v = Some (upd data i (two v)).
Proof. intros. apply (st_upd data i (two v)); rewrite ?len_two; lia. Qed.

Lemma rd2_two v : rd2 (two v) 0 = v mod 65536.
Proof.
  change (256 * u8 (Z.shiftr v 8) + u8 v = v mod 65536). unfold wrapu. change (2 ^ 8) with 256.
  rewrite Z.shiftr_div_pow2 by lia. change (2 ^ 8) with 256. Z.to_euclidean_division_equations. lia.
Qed.

Lemma rd2_upd_two data i v : 0 <= i -> i + 2 <= len data -> rd2 (upd data i (two v)) i = v mod 65536.
Proof.
  intros. unfold rd2. rewrite !rd_upd by (rewrite ?len_two; lia).
  rewrite !decide_True by (rewrite ?len_two; lia). rewrite <- rd2_two. unfold rd2. do 3 f_equal; lia.
Qed.

Lemma rd2_upd data i bs j : 0 <= i -> i + len bs <= len data -> j + 2 <= i \/ i + len bs <= j ->
  rd2 (upd data i bs) j = rd2 data j.
Proof. intros. unfold rd2. rewrite !rd_upd by lia. rewrite !decide_False by lia. done. Qed.

Lemma rd2_ext d1 i1 d2 i2 : rd d1 i1 = rd d2 i2 -> rd d1 (i1 + 1) = rd d2 (i2 + 1) -> rd2 d1 i1 = rd2 d2 i2.
Proof. unfold rd2. by intros -> ->. Qed.

Lemma rd_replicate n v j : 0 <= j < Z.of_nat n -> rd (replicate n v) j = v.
Proof. intros. unfold rd, ld. rewrite decide_True by lia. by rewrite lookup_replicate_2 by lia. Qed.

Lemma bytes_ok_replicate n v : bytes_ok (replicate n (u8 v)).
Proof. apply Forall_replicate. unfold byte_ok, wrapu. apply Z.mod_pos_bound. lia. Qed.

Lemma u8_small x : 0 <= x < 256 -> u8 x = x.
Proof. intros. apply wrapu_id. unfold in_u. change (2 ^ 8) with 256. done. Qed.

Lemma u16_small x : 0 <= x < 65536 -> u16 x = x.
Proof. intros. apply wrapu_id. unfold in_u. change (2 ^ 16) with 65536. done. Qed.

Lemma byte_1 x : 0 <= x < 256 -> bytes_ok [x].
Proof. intros H. unfold bytes_ok. apply Forall_cons. split; [exact H|by apply Forall_nil]. Qed.

(** ** Four-byte integers *)

Definition rd4 (data : bytes) (i : Z) : Z := 65536 * rd2 data i + rd2 data (i + 2).

(** The four bytes of [v]. *)
Definition four (v : Z) : bytes := [u8 (Z.shiftr v 24); u8 (Z.shiftr v 16); u8 (Z.shiftr v 8); u8 v].

Lemma four_ok v : bytes_ok (four v).
Proof. unfold four, byte_ok, wrapu. repeat constructor; apply Z.mod_pos_bound; lia. Qed.

Lemma len_four v : len (four v) = 4.
Proof. done. Qed.

Lemma rd4_range data i : bytes_ok data -> 0 <= rd4 data i < 4294967296.
Proof. intros H. pose proof (rd2_range data i H). pose proof (rd2_range data (i + 2) H). unfold rd4. lia. Qed.

Lemma get4byte_rd4 data i : bytes_ok data -> 0 <= i -> i + 4 <= len data -> sqlite3Get4byte data i = Some (rd4 data i).
Proof.
  intros Hb H1 H2. unfold sqlite3Get4byte. rewrite !ld_rd by lia. cbn [mbind option_bind]. f_equal.
  pose proof (rd_range data i Hb). pose proof (rd_range data (i + 1) Hb). pose proof (rd_range data (i + 2) Hb). pose proof (rd_range data (i + 3) Hb).
  rewrite !Z.shiftl_mul_pow2 by lia. change (2 ^ 24) with 16777216. change (2 ^ 16) with 65536. change (2 ^ 8) with 256.
  rewrite wrapu_id by (unfold in_u; change (2 ^ 32) with 4294967296; lia).
  assert (Hd : forall k a l, 0 <= k -> (2 ^ k | a) -> 0 <= l < 2 ^ k -> Z.lor a l = a + l).
  { intros k a l Hk Ha Hl. apply (lor_disjoint k); [done|by apply Z.mod_divide; [lia|]|done]. }
  rewrite (Hd 24) with (a := rd data i * 16777216); [|lia|exists (rd data i); done|change (2 ^ 24) with 16777216; lia].
  rewrite (Hd 16) with (a := rd data i * 16777216 + rd data (i + 1) * 65536); [|lia|exists (rd data i * 256 + rd data (i + 1)); change (2 ^ 16) with 65536; lia|change (2 ^ 16) with 65536; lia].
  rewrite (Hd 8); [|lia|exists (rd data i * 65536 + rd data (i + 1) * 256 + rd data (i + 2)); change (2 ^ 8) with 256; lia|change (2 ^ 8) with 256; lia].
  unfold rd4, rd2. replace (i + 2 + 1) with (i + 3) by lia. lia.
Qed.

Lemma put4byte_upd data i v : 0 <= i -> i + 4 <= len data -> sqlite3Put4byte data i v = Some (upd data i (four v)).
Proof. intros. apply (st_upd data i (four v)); rewrite ?len_four; lia. Qed.

Lemma rd4_four v : rd4 (four v) 0 = v mod 4294967296.
Proof.
  change (65536 * (256 * u8 (Z.shiftr v 24) + u8 (Z.shiftr v 16)) + (256 * u8 (Z.shiftr v 8) + u8 v) = v mod 4294967296).
  unfold wrapu. change (2 ^ 8) with 256. rewrite !Z.shiftr_div_pow2 by lia. change (2 ^ 24) with 16777216. change (2 ^ 16) with 65536. change (2 ^ 8) with 256.
  Z.to_euclidean_division_equations. lia.
Qed.

Lemma rd4_ext d1 i1 d2 i2 : (forall j, 0 <= j < 4 -> rd d1 (i1 + j) = rd d2 (i2 + j)) -> rd4 d1 i1 = rd4 d2 i2.
Proof.
  intros H. unfold rd4, rd2. pose proof (H 0 ltac:(lia)) as H0. pose proof (H 1 ltac:(lia)) as H1. pose proof (H 2 ltac:(lia)) as H2.
  pose proof (H 3 ltac:(lia)) as H3. rewrite !Z.add_0_r in H0. rewrite H0, H1, H2.
  replace (i1 + 2 + 1) with (i1 + 3) by lia. replace (i2 + 2 + 1) with (i2 + 3) by lia. by rewrite H3.
Qed.

(** Four bytes of another buffer are put in. *)
Lemma rd4_upd_at data i bs : 0 <= i -> i + len bs <= len data -> len bs = 4 -> rd4 (upd data i bs) i = rd4 bs 0.
Proof. intros. apply rd4_ext. intros j Hj. rewrite rd_upd by lia. rewrite decide_True by lia. f_equal. lia. Qed.

Lemma rd4_upd_four data i v : 0 <= i -> i + 4 <= len data -> 0 <= v < 4294967296 -> rd4 (upd data i (four v)) i = v.
Proof. intros. rewrite rd4_upd_at by (rewrite ?len_four; lia). rewrite rd4_four. by apply Z.mod_small. Qed.

Lemma rd4_upd data i bs j : 0 <= i -> i + len bs <= len data -> j + 4 <= i \/ i + len bs <= j -> rd4 (upd data i bs) j = rd4 data j.
Proof. intros. apply rd4_ext. intros k Hk. rewrite rd_upd by lia. by rewrite decide_False by lia. Qed.

Lemma rd4_sub data i j n : 0 <= i -> 0 <= j -> j + 4 <= n -> rd4 (sub data i n) j = rd4 data (i + j).
Proof. intros. apply rd4_ext. intros k Hk. rewrite rd_sub by lia. rewrite decide_True by lia. f_equal. lia. Qed.
