(* ===== verification/SqlCell.v ===== *)
(** * Cells of a B-tree page

    [sqlite/sqlite3.c] (btree.c, btreeInt.h): what a page in memory knows of itself ([MemPage]), the four
    formats of a cell, their sizes and their fields.

    A pointer to a cell is the bytes from there on; reading past them is [None].
    Databases with auto-vacuum, whose pages need pointer-map entries, are not modelled. *)

From S2P Require Import Prelude Bits SqlVarint SqlBytes.

(** ** Databases and pages *)

Definition BTS_FAST_SECURE : Z := 0x000c.

Record BtShared := {
  pageSize : Z;
  usableSize : Z;
  btsFlags : Z;
  bt_maxLocal : Z;
  bt_minLocal : Z;
  maxLeaf : Z;
  minLeaf : Z;
  bt_max1bytePayload : Z
}.

(** The limits [lockBtree] computes once it has read the sizes. *)
Definition lockBtree (page usable flags : Z) : BtShared :=
  let maxLocal := u16 ((usable - 12) * 64 / 255 - 23) in
  {| pageSize := page; usableSize := usable; btsFlags := flags;
     bt_maxLocal := maxLocal;
     bt_minLocal := u16 ((usable - 12) * 32 / 255 - 23);
     maxLeaf := u16 (usable - 35);
     minLeaf := u16 ((usable - 12) * 32 / 255 - 23);
     bt_max1bytePayload := if decide (127 < maxLocal) then 127 else u8 maxLocal |}.

(** The methods [xCellSize] and [xParseCell] point to. *)
Inductive cell_size := cellSizePtr | cellSizePtrIdxLeaf | cellSizePtrNoPayload | cellSizePtrTableLeaf.
Inductive parse_cell := btreeParseCellPtr | btreeParseCellPtrIndex | btreeParseCellPtrNoPayload.

(** [apOvfl] and [aiOvfl] are one list, the length of which is [nOverflow]. *)
Record MemPage := {
  pBt : BtShared;
  aData : bytes;
  hdrOffset : Z;
  isInit : bool;
  leaf : bool;
  intKey : bool;
  intKeyLeaf : bool;
  childPtrSize : Z;
  max1bytePayload : Z;
  maxLocal : Z;
  minLocal : Z;
  xCellSize : cell_size;
  xParseCell : parse_cell;
  cellOffset : Z;
  maskPage : Z;
  nFree : Z;
  nCell : Z;
  apOvfl : list (Z * bytes)
}.

Record CellInfo := { nKey : Z; pPayload : option bytes; nPayload : Z; nLocal : Z; nSize : Z }.

(** ** The size of a cell *)

(** [do{ nSize = (nSize<<7) | ( *++pIter & 0x7f); }while( *pIter>=0x80 && pIter<pEnd )] with
    [k] bytes left to [pEnd]: the number and how far [pIter] is. *)
Fixpoint payload_loop (k : nat) (n used : Z) (p : bytes) : option (Z * Z) :=
  match k with
  | O => Some (n, used)
  | S k =>
      b ← p !! 1%nat;
      let n := Z.lor (shl32 n 7) (Z.land b 0x7f) in
      if decide (0x80 <= b) then payload_loop k n (used + 1) (tail p) else Some (n, used + 1)
  end.

(** The number of bytes of payload, and the bytes it takes. *)
Definition payload_size (p : bytes) : option (Z * Z) :=
  b ← p !! 0%nat;
  '(n, used) ← (if decide (0x80 <= b) then payload_loop 8 (Z.land b 0x7f) 0 p else Some (b, 0));
  Some (n, used + 1).

(** [while( ( *pIter++)&0x80 && pIter<pEnd )] with [k] more bytes before [pEnd]. *)
Fixpoint skip_to_end (k : nat) (used : Z) (p : bytes) : option Z :=
  b ← p !! 0%nat;
  match k with
  | O => Some (used + 1)
  | S k => if decide (Z.land b 0x80 <> 0) then skip_to_end k (used + 1) (tail p) else Some (used + 1)
  end.

(** The eight conditions [( *pIter++)&0x80], and the last [pIter++]. *)
Fixpoint skip_key (k : nat) (used : Z) (p : bytes) : option Z :=
  match k with
  | O => Some (used + 1)
  | S k =>
      b ← p !! 0%nat;
      if decide (Z.land b 0x80 <> 0) then skip_key k (used + 1) (tail p) else Some (used + 1)
  end.

(** How much of [n] bytes of payload stays on the page. *)
Definition local_size (pPage : MemPage) (n : Z) : Z :=
  let s := minLocal pPage + u32 (n - minLocal pPage) mod (usableSize (pBt pPage) - 4) in
  if decide (maxLocal pPage < s) then minLocal pPage else s.

(** The end of the size routines: [n] bytes of payload after [used] bytes of header. *)
Definition spilled_size (pPage : MemPage) (n used : Z) : Z := u16 (local_size pPage n + (4 + u16 used)).

Definition cellSize_leaf (pPage : MemPage) (n used : Z) : Z :=
  if decide (n <= maxLocal pPage) then
    let nSize := u32 (n + used) in u16 (if decide (nSize < 4) then 4 else nSize)
  else spilled_size pPage n used.

Definition cellSize_of (pPage : MemPage) (pCell : bytes) : option Z :=
  match xCellSize pPage with
  | cellSizePtr =>
      '(n, used) ← payload_size (drop 4 pCell);
      if decide (n <= maxLocal pPage) then
        let nSize := u32 (n + (4 + used)) in
        if decide (4 < nSize) then Some (u16 nSize) else None
      else Some (spilled_size pPage n (4 + used))
  | cellSizePtrIdxLeaf => '(n, used) ← payload_size pCell; Some (cellSize_leaf pPage n used)
  | cellSizePtrNoPayload => used ← skip_to_end 8 0 (drop 4 pCell); Some (u16 (4 + used))
  | cellSizePtrTableLeaf =>
      '(n, used) ← payload_size pCell;
      k ← skip_key 8 0 (drop (Z.to_nat used) pCell);
      Some (cellSize_leaf pPage n (used + k))
  end.

(** ** The fields of a cell *)

(** [btreeParseCellAdjustSizeForOverflow], the payload [off] bytes into the cell. *)
Definition btreeParseCellAdjustSizeForOverflow (pPage : MemPage) (off : Z) (key n : Z) (payload : bytes) : CellInfo :=
  let surplus := minLocal pPage + u32 (n - minLocal pPage) mod (usableSize (pBt pPage) - 4) in
  let nLocal := u16 (if decide (surplus <= maxLocal pPage) then surplus else minLocal pPage) in
  {| nKey := key; pPayload := Some payload; nPayload := n; nLocal := nLocal; nSize := u16 (u16 (off + nLocal) + 4) |}.

(** The end of [btreeParseCellPtr] and [btreeParseCellPtrIndex]. *)
Definition parse_payload (pPage : MemPage) (pCell : bytes) (off key n : Z) : CellInfo :=
  let payload := drop (Z.to_nat off) pCell in
  if decide (n <= maxLocal pPage) then
    let nSize := u16 (n + u16 off) in
    {| nKey := key; pPayload := Some payload; nPayload := n; nLocal := u16 n;
       nSize := if decide (nSize < 4) then 4 else nSize |}
  else btreeParseCellAdjustSizeForOverflow pPage off key n payload.

(** [iKey = (iKey<<7) ^ c ^ x]. *)
Definition key_step (iKey c x : Z) : Z := Z.lxor (Z.lxor (shl64 iKey 7) c) x.

(** The inner blocks of the unrolled loop, from the fifth byte on: [k] of them. *)
Fixpoint key_rest (k : nat) (iKey used : Z) (p : bytes) : option (Z * Z) :=
  x ← p !! 0%nat;
  match k with
  | O => Some (Z.lxor (Z.lxor (shl64 iKey 8) 0x8000) x, used + 1)
  | S k =>
      let iKey := key_step iKey 0x4000 x in
      if decide (0x80 <= x) then key_rest k iKey (used + 1) (tail p) else Some (iKey, used + 1)
  end.

(** The rowid, as an unsigned integer, and the bytes it takes. *)
Definition parse_key (p : bytes) : option (Z * Z) :=
  iKey ← p !! 0%nat;
  if decide (0x80 <= iKey) then
    x ← p !! 1%nat;
    let iKey := Z.lxor (shl64 iKey 7) x in
    if decide (0x80 <= x) then
      x ← p !! 2%nat;
      let iKey := Z.lxor (shl64 iKey 7) x in
      if decide (0x80 <= x) then
        x ← p !! 3%nat;
        let iKey := key_step iKey 0x10204000 x in
        if decide (0x80 <= x) then key_rest 4 iKey 4 (drop 4 p) else Some (iKey, 4)
      else Some (Z.lxor iKey 0x204000, 3)
    else Some (Z.lxor iKey 0x4000, 2)
  else Some (iKey, 1).

Definition parseCell_of (pPage : MemPage) (pCell : bytes) : option CellInfo :=
  match xParseCell pPage with
  | btreeParseCellPtrNoPayload =>
      if negb (leaf pPage) && bool_decide (childPtrSize pPage = 4) then
        '(n, key) ← sqlite3GetVarint (drop 4 pCell);
        Some {| nKey := i64 key; pPayload := None; nPayload := 0; nLocal := 0; nSize := u16 (4 + n) |}
      else None
  | btreeParseCellPtr =>
      if intKeyLeaf pPage && bool_decide (childPtrSize pPage = 0) then
        '(n, used) ← payload_size pCell;
        '(iKey, k) ← parse_key (drop (Z.to_nat used) pCell);
        Some (parse_payload pPage pCell (used + k) (i64 iKey) n)
      else None
  | btreeParseCellPtrIndex =>
      if intKeyLeaf pPage then None
      else
        '(n, used) ← payload_size (drop (Z.to_nat (childPtrSize pPage)) pCell);
        Some (parse_payload pPage pCell (childPtrSize pPage + used) n n)
  end.

(** ** Kinds of pages *)

Definition SQLITE_CORRUPT : Z := 11.

Definition PTF_INTKEY : Z := 0x01.
Definition PTF_ZERODATA : Z := 0x02.
Definition PTF_LEAFDATA : Z := 0x04.
Definition PTF_LEAF : Z := 0x08.

(** What the branches of [decodeFlags] store. *)
Definition set_kind (lf ik ikl : bool) (maxL minL : Z) (size : cell_size) (parse : parse_cell) (pPage : MemPage) : MemPage :=
  {| pBt := pBt pPage; aData := aData pPage; hdrOffset := hdrOffset pPage; isInit := isInit pPage;
     leaf := lf; intKey := ik; intKeyLeaf := ikl; childPtrSize := if lf then 0 else 4;
     max1bytePayload := bt_max1bytePayload (pBt pPage); maxLocal := maxL; minLocal := minL;
     xCellSize := size; xParseCell := parse; cellOffset := cellOffset pPage; maskPage := maskPage pPage;
     nFree := nFree pPage; nCell := nCell pPage; apOvfl := apOvfl pPage |}.

Definition decodeFlags (pPage : MemPage) (flagByte : Z) : Z * MemPage :=
  let bt := pBt pPage in
  if decide (Z.lor PTF_ZERODATA PTF_LEAF <= flagByte) then
    if decide (flagByte = Z.lor (Z.lor PTF_LEAFDATA PTF_INTKEY) PTF_LEAF) then
      (0, set_kind true true true (maxLeaf bt) (minLeaf bt) cellSizePtrTableLeaf btreeParseCellPtr pPage)
    else if decide (flagByte = Z.lor PTF_ZERODATA PTF_LEAF) then
      (0, set_kind true false false (bt_maxLocal bt) (bt_minLocal bt) cellSizePtrIdxLeaf btreeParseCellPtrIndex pPage)
    else
      (SQLITE_CORRUPT, set_kind true false false (maxLocal pPage) (minLocal pPage) cellSizePtrIdxLeaf btreeParseCellPtrIndex pPage)
  else
    if decide (flagByte = PTF_ZERODATA) then
      (0, set_kind false false false (bt_maxLocal bt) (bt_minLocal bt) cellSizePtr btreeParseCellPtrIndex pPage)
    else if decide (flagByte = Z.lor PTF_LEAFDATA PTF_INTKEY) then
      (0, set_kind false true false (maxLeaf bt) (minLeaf bt) cellSizePtrNoPayload btreeParseCellPtrNoPayload pPage)
    else
      (SQLITE_CORRUPT, set_kind false false false (maxLocal pPage) (minLocal pPage) cellSizePtr btreeParseCellPtrIndex pPage).
