(* ===== verification/SqlCellProps.v ===== *)
(** * Sizes and fields of cells

    The routines of [SqlCell] that measure a cell and those that take it apart agree, and the unrolled
    loop for rowids reads variable-length integers. *)

From S2P Require Import Prelude Bits SqlVarint SqlBytes SqlCell.

(** ** The rowid *)

Lemma land_low a d k : 0 <= k -> 0 <= d < 2 ^ k -> Z.land (Z.shiftl a k) d = 0.
Proof.
  intros Hk Hd. apply Z.bits_inj'. intros n Hn. rewrite Z.land_spec, Z.bits_0. destruct (decide (n < k)).
  - by rewrite Z.shiftl_spec_low.
  - rewrite <- (Z.mod_small d (2 ^ k)) by done. rewrite Z.mod_pow2_bits_high by lia. apply andb_false_r.
Qed.

Lemma lxor_low a d k : 0 <= k -> 0 <= d < 2 ^ k -> Z.lxor (Z.shiftl a k) d = a * 2 ^ k + d.
Proof. intros Hk Hd. rewrite <- Z.add_nocarry_lxor by (by apply land_low). by rewrite Z.shiftl_mul_pow2. Qed.

Lemma lxor_bound a b k : 0 <= k -> 0 <= a < 2 ^ k -> 0 <= b < 2 ^ k -> 0 <= Z.lxor a b < 2 ^ k.
Proof.
  intros Hk Ha Hb. rewrite <- (Z.mod_small a (2 ^ k)), <- (Z.mod_small b (2 ^ k)) by done.
  assert (Z.lxor (a mod 2 ^ k) (b mod 2 ^ k) = Z.lxor a b mod 2 ^ k) as ->; [|apply Z.mod_pos_bound; lia].
  apply Z.bits_inj'. intros n Hn. rewrite Z.lxor_spec. destruct (decide (n < k)).
  - by rewrite !Z.mod_pow2_bits_low, Z.lxor_spec by lia.
  - by rewrite !Z.mod_pow2_bits_high by lia.
Qed.

Lemma flag_xor x : 128 <= x < 256 -> x = Z.lxor 0x80 (x - 128).
Proof.
  intros H. pose proof (lxor_low 1 (x - 128) 7 ltac:(lia) ltac:(change (2 ^ 7) with 128; lia)) as E.
  change (Z.shiftl 1 7) with 128 in E. rewrite E. change (2 ^ 7) with 128. lia.
Qed.

(** The unrolled loop keeps the flag [f] of the bytes before it in its variable, [iKey = T ^ f], and
    takes it out with the constant of the next step. *)
Lemma shl_flagged T f n : 0 <= n -> 0 <= T < 2 ^ (64 - n) -> 0 <= f < 2 ^ (64 - n) -> n <= 64 ->
  shl64 (Z.lxor T f) n = Z.lxor (Z.shiftl T n) (Z.shiftl f n).
Proof.
  intros Hn HT Hf H64. unfold shl64. rewrite wrapu_id; [apply Z.shiftl_lxor|].
  pose proof (lxor_bound T f (64 - n) ltac:(lia) HT Hf). unfold in_u. rewrite Z.shiftl_mul_pow2 by lia.
  replace (2 ^ 64) with (2 ^ (64 - n) * 2 ^ n) by (rewrite <- Z.pow_add_r by lia; f_equal; lia). nia.
Qed.

(** The exclusive or with [a] twice. *)
Lemma lxor_twice a b : Z.lxor a (Z.lxor a b) = b.
Proof. by rewrite <- Z.lxor_assoc, Z.lxor_nilpotent, Z.lxor_0_l. Qed.

Lemma xor_out t a x : Z.lxor (Z.lxor (Z.lxor t a) a) x = Z.lxor t x.
Proof. by rewrite (Z.lxor_assoc t a a), Z.lxor_nilpotent, Z.lxor_0_r. Qed.

(** A byte with its flag. *)
Lemma key_next T x : 128 <= x < 256 -> Z.lxor (Z.shiftl T 7) x = Z.lxor (T * 128 + (x - 128)) 0x80.
Proof.
  intros H. rewrite (flag_xor x H) at 1. rewrite (Z.lxor_comm 0x80), <- Z.lxor_assoc.
  rewrite lxor_low by (change (2 ^ 7) with 128; lia). done.
Qed.

Lemma key_last T x : 0 <= x < 128 -> Z.lxor (Z.shiftl T 7) x = T * 128 + x.
Proof. intros H. rewrite lxor_low by (change (2 ^ 7) with 128; lia). done. Qed.

Lemma key_step_flag T x : 0 <= T < 2 ^ 57 -> key_step (Z.lxor T 0x80) 0x4000 x = Z.lxor (Z.shiftl T 7) x.
Proof. intros HT. unfold key_step. rewrite shl_flagged by (done || lia). change (Z.shiftl 0x80 7) with 0x4000. apply xor_out. Qed.

Lemma key_rest_spec k : forall T n p, bytes_ok p -> (k <= 4)%nat -> 0 <= T < 2 ^ (56 - 7 * Z.of_nat k) ->
  key_rest k (Z.lxor T 0x80) n p = (fun '(n, v) => (v, n)) <$> varint_from k n T p.
Proof.
  induction k as [|k IH]; intros T n p Hp Hk HT; destruct p as [|x p]; cbn [key_rest varint_from]; try done;
    apply Forall_cons in Hp as [Hx Hp]; unfold byte_ok in Hx; change ((x :: p) !! 0%nat) with (Some x); cbn [mbind option_bind].
  - rewrite shl_flagged by (done || lia). change (Z.shiftl 0x80 8) with 0x8000. rewrite xor_out, lxor_low by (change (2 ^ 8) with 256; lia).
    done.
  - assert (HT57 : 0 <= T < 2 ^ 57) by (pose proof (Z.pow_le_mono_r 2 (56 - 7 * Z.of_nat (S k)) 57 ltac:(lia) ltac:(lia)); lia).
    rewrite key_step_flag by done. destruct (decide (0x80 <= x)) as [H|H].
    + rewrite key_next, (decide_False (P := x < 128)) by lia. cbn [tail]. apply IH; [done|lia|].
      replace (56 - 7 * Z.of_nat k) with (56 - 7 * Z.of_nat (S k) + 7) by lia. rewrite Z.pow_add_r by lia. change (2 ^ 7) with 128. lia.
    + rewrite key_last, (decide_True (P := x < 128)) by lia. done.
Qed.

Lemma xor_out_last t a x : Z.lxor (Z.lxor (Z.lxor t a) x) a = Z.lxor t x.
Proof. rewrite (Z.lxor_comm _ a). rewrite (Z.lxor_comm t a), Z.lxor_assoc. apply lxor_twice. Qed.

Lemma key_next_flags T a x : 128 <= x < 256 -> Z.lxor (Z.lxor (Z.shiftl T 7) a) x = Z.lxor (T * 128 + (x - 128)) (Z.lxor a 0x80).
Proof.
  intros H. rewrite Z.lxor_assoc, (Z.lxor_comm a), <- Z.lxor_assoc, key_next by done.
  by rewrite Z.lxor_assoc, (Z.lxor_comm 0x80).
Qed.

Lemma parse_key_varint p : bytes_ok p -> parse_key p = (fun '(n, v) => (v, n)) <$> varint p.
Proof.
  intros Hp. unfold parse_key, varint.
  destruct p as [|x0 p]; [done|]. apply Forall_cons in Hp as [H0 Hp]. unfold byte_ok in H0. cbn [varint_from].
  change ((x0 :: p) !! 0%nat) with (Some x0). cbn [mbind option_bind].
  destruct (decide (0x80 <= x0)) as [F0|F0]; [|by rewrite decide_True by lia]. rewrite (decide_False (P := x0 < 128)) by lia.
  destruct p as [|x1 p]; [done|]. apply Forall_cons in Hp as [H1 Hp]. unfold byte_ok in H1. cbn [varint_from].
  change ((x0 :: x1 :: p) !! 1%nat) with (Some x1). cbn [mbind option_bind]. set (T0 := 0 * 128 + (x0 - 128)). assert (R0 : 0 <= T0 < 128) by (unfold T0; lia).
  assert (E0 : x0 = Z.lxor T0 0x80) by (unfold T0; rewrite Z.lxor_comm; replace (0 * 128 + (x0 - 128)) with (x0 - 128) by lia; apply flag_xor; lia).
  assert (S0 : shl64 x0 7 = Z.lxor (Z.shiftl T0 7) 0x4000).
  { rewrite E0. clear E0. clearbody T0. rewrite shl_flagged by lia. done. }
  rewrite S0. clear S0 E0.
  destruct (decide (0x80 <= x1)) as [F1|F1].
  2: { rewrite (decide_True (P := x1 < 128)) by lia. by rewrite xor_out_last, key_last by lia. }
  rewrite (decide_False (P := x1 < 128)) by lia. rewrite key_next_flags by lia. change (Z.lxor 0x4000 0x80) with 0x4080.
  destruct p as [|x2 p]; [done|]. apply Forall_cons in Hp as [H2 Hp]. unfold byte_ok in H2. cbn [varint_from].
  change ((_ :: _ :: x2 :: p) !! 2%nat) with (Some x2). cbn [mbind option_bind]. set (T1 := T0 * 128 + (x1 - 128)).
  rewrite shl_flagged by (unfold T1, T0; lia). change (Z.shiftl 0x4080 7) with 0x204000.
  destruct (decide (0x80 <= x2)) as [F2|F2].
  2: { rewrite (decide_True (P := x2 < 128)) by lia. by rewrite xor_out_last, key_last by lia. }
  rewrite (decide_False (P := x2 < 128)) by lia. rewrite key_next_flags by lia. change (Z.lxor 0x204000 0x80) with 0x204080.
  destruct p as [|x3 p]; [done|]. apply Forall_cons in Hp as [H3 Hp]. unfold byte_ok in H3. cbn [varint_from].
  change ((_ :: _ :: _ :: x3 :: p) !! 3%nat) with (Some x3). cbn [mbind option_bind]. set (T2 := T1 * 128 + (x2 - 128)).
  unfold key_step. rewrite shl_flagged by (unfold T2, T1, T0; lia). change (Z.shiftl 0x204080 7) with 0x10204000. rewrite xor_out.
  destruct (decide (0x80 <= x3)) as [F3|F3].
  2: { rewrite (decide_True (P := x3 < 128)) by lia. by rewrite key_last by lia. }
  rewrite (decide_False (P := x3 < 128)) by lia. rewrite key_next by lia. cbn [drop].
  apply (key_rest_spec 4); [done|lia|]. unfold T2, T1, T0. change (2 ^ (56 - 7 * Z.of_nat 4)) with (2 ^ 28). lia.
Qed.

(** ** The sizes *)

Lemma flag_bit x : byte_ok x -> (Z.land x 0x80 <> 0) <-> ~ (x < 128).
Proof. unfold byte_ok. intros H. rewrite land_128, Z.mod_small by lia. case_decide; lia. Qed.

(** The first [n] bytes of a variable-length integer, without the value. *)
Lemma skip_to_end_varint k : forall n acc p m v, bytes_ok p -> varint_from k n acc p = Some (m, v) -> skip_to_end k n p = Some m.
Proof.
  induction k as [|k IH]; intros n acc p m v Hp; destruct p as [|x p]; cbn [varint_from skip_to_end]; try done;
    change ((x :: p) !! 0%nat) with (Some x); cbn [mbind option_bind]; [by intros [= <- _]|].
  apply Forall_cons in Hp as [Hx Hp]. pose proof (flag_bit x Hx). case_decide; [rewrite decide_False by tauto; by intros [= <- _]|].
  rewrite decide_True by tauto. cbn [tail]. by apply IH.
Qed.

Lemma skip_key_varint k : forall n acc p m v, bytes_ok p -> varint_from k n acc p = Some (m, v) -> skip_key k n p = Some m.
Proof.
  induction k as [|k IH]; intros n acc p m v Hp; destruct p as [|x p]; cbn [varint_from skip_key]; try done;
    [by intros [= <- _]|].
  change ((x :: p) !! 0%nat) with (Some x); cbn [mbind option_bind].
  apply Forall_cons in Hp as [Hx Hp]. pose proof (flag_bit x Hx). case_decide; [rewrite decide_False by tauto; by intros [= <- _]|].
  rewrite decide_True by tauto. cbn [tail]. by apply IH.
Qed.

(** ** The size of a cell and its fields *)

(** The limits are those [lockBtree] computes for a usable size it accepts. *)
Definition limits_ok (bt : BtShared) : Prop := exists page us flags, bt = lockBtree page us flags /\ 480 <= us <= 65536.

Lemma limits_bounds bt : limits_ok bt ->
  480 <= usableSize bt <= 65536 /\ 30 <= bt_minLocal bt <= bt_maxLocal bt /\ bt_maxLocal bt <= usableSize bt - 35 /\
  maxLeaf bt = usableSize bt - 35 /\ minLeaf bt = bt_minLocal bt.
Proof.
  intros (page & us & flags & -> & Hu). cbn [lockBtree usableSize bt_minLocal bt_maxLocal maxLeaf minLeaf].
  rewrite !u16_small by (Z.to_euclidean_division_equations; lia). Z.to_euclidean_division_equations. lia.
Qed.

Lemma payload_loop_range k : forall n u p m v, 0 <= n < 2 ^ 32 -> payload_loop k n u p = Some (v, m) -> 0 <= v < 2 ^ 32 /\ u <= m <= u + Z.of_nat k.
Proof.
  induction k as [|k IH]; intros n u p m v Hn; cbn [payload_loop]; [intros [= <- <-]; lia|].
  destruct (p !! 1%nat) as [b|]; cbn [mbind option_bind]; [|done].
  assert (Hr : 0 <= Z.lor (shl32 n 7) (Z.land b 0x7f) < 2 ^ 32).
  { change 0x7f with 127. rewrite land_127, lor_shl32 by (try (change (2 ^ 7) with 128; apply Z.mod_pos_bound); lia).
    change (2 ^ 7) with 128. change (2 ^ 32) with 4294967296. Z.to_euclidean_division_equations. lia. }
  case_decide; [|intros [= <- <-]; lia]. intros Hr2%IH; [lia|done].
Qed.

Lemma payload_size_range p n u : bytes_ok p -> payload_size p = Some (n, u) -> 0 <= n < 2 ^ 32 /\ 1 <= u <= 9.
Proof.
  intros Hp. unfold payload_size. destruct (p !! 0%nat) as [b|] eqn:E; cbn [mbind option_bind]; [|done].
  assert (Hb : byte_ok b) by (by apply (Forall_lookup_1 byte_ok p 0%nat)). unfold byte_ok in Hb.
  case_decide; [|intros [= <- <-]; lia]. destruct (payload_loop _ _ _ _) as [[v m]|] eqn:El; cbn [mbind option_bind]; [|done].
  intros [= <- <-]. apply payload_loop_range in El; [lia|]. change 0x7f with 127. rewrite land_127. Z.to_euclidean_division_equations. lia.
Qed.

(** What stays on the page is between the limits, and less than the whole. *)
Lemma local_bounds P n : 4 < usableSize (pBt P) <= 65536 -> 0 <= minLocal P <= maxLocal P -> maxLocal P < n < 2 ^ 32 ->
  minLocal P <= local_size P n <= maxLocal P.
Proof. intros Hu Hm Hn. unfold local_size. pose proof (Z.mod_pos_bound (u32 (n - minLocal P)) (usableSize (pBt P) - 4) ltac:(lia)). case_decide; lia. Qed.

Lemma u16_add_inner a b : u16 (u16 a + b) = u16 (a + b).
Proof. unfold wrapu. by rewrite Z.add_mod_idemp_l. Qed.

(** Both ways to the size, for the [n] bytes of payload after [off] bytes. *)
Lemma parse_payload_size P c off key n : 4 < usableSize (pBt P) <= 65536 -> 0 <= minLocal P <= maxLocal P -> maxLocal P <= usableSize (pBt P) - 35 ->
  0 <= n < 2 ^ 32 -> 1 <= off <= 18 ->
  let info := parse_payload P c off key n in
  nSize info = cellSize_leaf P n off /\ 4 <= nSize info <= usableSize (pBt P) - 13 /\ nLocal info <= maxLocal P /\ nLocal info <= nPayload info /\
  nPayload info = n /\ nKey info = key /\ pPayload info = Some (drop (Z.to_nat off) c) /\
  (nLocal info = n <-> n <= maxLocal P) /\ (n <= maxLocal P -> nSize info = Z.max 4 (off + n)) /\ (maxLocal P < n -> nSize info = off + nLocal info + 4).
Proof.
  intros Hu Hm Hx Hn Ho. unfold parse_payload, cellSize_leaf. rewrite (u16_small off) by lia. destruct (decide (n <= maxLocal P)) as [Hs|Hs]; cbn [nSize nLocal nPayload nKey pPayload].
  - rewrite (u16_small (n + off)), (u16_small n), (wrapu_id 32 (n + off)) by (unfold in_u; change (2 ^ 32) with 4294967296; lia).
    case_decide; rewrite u16_small by lia; repeat split; lia.
  - pose proof (local_bounds P n ltac:(lia) ltac:(lia) ltac:(lia)) as Hl. unfold spilled_size, btreeParseCellAdjustSizeForOverflow. cbn [nSize nLocal nPayload nKey pPayload].
    assert (El : (if decide (minLocal P + u32 (n - minLocal P) mod (usableSize (pBt P) - 4) <= maxLocal P)
                  then minLocal P + u32 (n - minLocal P) mod (usableSize (pBt P) - 4) else minLocal P) = local_size P n).
    { unfold local_size. repeat case_decide; lia. }
    rewrite El. rewrite (u16_small (local_size P n)), (u16_small off) by lia. rewrite (u16_small (off + local_size P n)) by lia. rewrite !u16_small by lia.
    repeat split; lia.
Qed.

Lemma varint_from_count k : forall n acc p m v, varint_from k n acc p = Some (m, v) -> n + 1 <= m <= n + 1 + Z.of_nat k.
Proof.
  induction k as [|k IH]; intros n acc p m v; destruct p as [|x p]; cbn [varint_from]; try done; [intros [= <- _]; lia|].
  case_decide; [intros [= <- _]; lia|]. intros H0%IH. lia.
Qed.

(** What [decodeFlags] says of a page it accepts. *)
Lemma decode_kinds P f : decodeFlags P f = (0, P) ->
  (xCellSize P = cellSizePtrTableLeaf /\ xParseCell P = btreeParseCellPtr /\ intKeyLeaf P = true /\ childPtrSize P = 0 /\
     maxLocal P = maxLeaf (pBt P) /\ minLocal P = minLeaf (pBt P)) \/
  (xCellSize P = cellSizePtrNoPayload /\ xParseCell P = btreeParseCellPtrNoPayload /\ leaf P = false /\ childPtrSize P = 4) \/
  (xParseCell P = btreeParseCellPtrIndex /\ intKeyLeaf P = false /\ maxLocal P = bt_maxLocal (pBt P) /\ minLocal P = bt_minLocal (pBt P) /\
     (xCellSize P = cellSizePtrIdxLeaf /\ childPtrSize P = 0 \/ xCellSize P = cellSizePtr /\ childPtrSize P = 4)).
Proof.
  unfold decodeFlags. intros H. repeat case_decide; try discriminate H; injection H as H; rewrite <- H; cbn; tauto.
Qed.

Lemma key_loop p k v : bytes_ok p -> parse_key p = Some (v, k) -> skip_key 8 0 p = Some k /\ 1 <= k <= 9.
Proof.
  intros Hp. rewrite parse_key_varint by done. destruct (varint p) as [[n w]|] eqn:E; cbn [fmap option_fmap option_map]; [|done].
  intros [= <- <-]. split; [by apply (skip_key_varint 8 0 0 p n w)|]. apply varint_from_count in E. lia.
Qed.

(** What a cell measures and what it says of itself. *)
Lemma parsed_size P f p info : limits_ok (pBt P) -> decodeFlags P f = (0, P) -> bytes_ok p -> parseCell_of P p = Some info ->
  cellSize_of P p = Some (nSize info) /\ 4 <= nSize info <= usableSize (pBt P) - 13 /\
  nLocal info <= nPayload info /\ (pPayload info <> None -> nLocal info = nPayload info <-> nPayload info <= maxLocal P).
Proof.
  intros Hlim Hk Hp. pose proof (limits_bounds _ Hlim) as (L1 & L2 & L3 & L4 & L5). unfold parseCell_of, cellSize_of.
  destruct (decode_kinds P f Hk) as [(-> & -> & -> & -> & M1 & M2)|[(-> & -> & -> & ->)|(-> & -> & M1 & M2 & Hc)]].
  - rewrite bool_decide_eq_true_2 by done. cbn [andb]. destruct (payload_size p) as [[n used]|] eqn:E; cbn [mbind option_bind]; [|done].
    pose proof (payload_size_range p n used Hp E) as [N1 N2].
    destruct (parse_key _) as [[iKey k]|] eqn:Ek; cbn [mbind option_bind]; [|done]. intros [= <-].
    destruct (key_loop _ _ _ (Forall_drop _ _ _ Hp) Ek) as [-> K]. cbn [mbind option_bind].
    destruct (parse_payload_size P p (used + k) (i64 iKey) n) as (A1 & A2 & _ & A4 & A5 & _ & _ & A8 & _); [lia|lia|lia|done|lia|].
    rewrite A1, A5 in *. tauto.
  - rewrite bool_decide_eq_true_2 by done. cbn [negb andb]. destruct (sqlite3GetVarint (drop 4 p)) as [[n key]|] eqn:E; cbn [mbind option_bind]; [|done].
    intros [= <-]. cbn [nSize nLocal nPayload pPayload]. rewrite sqlite3GetVarint_varint in E by (by apply Forall_drop).
    pose proof (varint_from_count _ _ _ _ _ _ E). rewrite (skip_to_end_varint 8 0 0 _ n key (Forall_drop _ _ _ Hp) E). cbn [mbind option_bind].
    rewrite u16_small by lia. repeat split; (done || lia).
  - destruct (payload_size (drop (Z.to_nat (childPtrSize P)) p)) as [[n used]|] eqn:E; cbn [mbind option_bind]; [|done].
    pose proof (payload_size_range _ n used (Forall_drop _ _ _ Hp) E) as [N1 N2]. intros [= <-].
    destruct (parse_payload_size P p (childPtrSize P + used) n n) as (A1 & A2 & _ & A4 & A5 & _ & _ & A8 & _); [lia|lia|lia|done|lia|].
    assert (Hs : cellSize_of P p = Some (cellSize_leaf P n (childPtrSize P + used))).
    { unfold cellSize_of. destruct Hc as [[-> Hz]|[-> Hz]]; rewrite Hz in *; change (Z.to_nat 0) with 0%nat in E; change (Z.to_nat 4) with 4%nat in E.
      - rewrite drop_0 in E. by rewrite E.
      - rewrite E. cbn [mbind option_bind]. unfold cellSize_leaf. case_decide; [|done].
        rewrite (wrapu_id 32) by (unfold in_u; change (2 ^ 32) with 4294967296; lia). rewrite decide_True, decide_False by lia. done. }
    unfold cellSize_of in Hs. rewrite Hs. rewrite A1, A5 in *. tauto.
Qed.

(** C24: The routine by which a page measures a cell ([xCellSize]) and the one that takes it apart ([xParseCell])
    agree on the size of every cell, on the four kinds of pages; the size is at least four bytes, the least
    [freeSpace] can take back, and leaves a page room for the cell's pointer and header; what stays of the
    payload is all of it exactly when it is within the limit of the page. *)
Theorem cell_size_is_parsed P f p info : limits_ok (pBt P) -> decodeFlags P f = (0, P) -> bytes_ok p -> parseCell_of P p = Some info ->
  cellSize_of P p = Some (nSize info) /\ 4 <= nSize info <= usableSize (pBt P) - 13 /\
  nLocal info <= nPayload info /\ (pPayload info <> None -> nLocal info = nPayload info <-> nPayload info <= maxLocal P).
Proof. apply parsed_size. Qed.

(** The unrolled loop by which [btreeParseCellPtr] reads a rowid, with its flags taken out by
    exclusive or, reads what the file format says: the value and the length of a variable-length
    integer of up to nine bytes. *)
Theorem unrolled_key_is_varint p : bytes_ok p -> parse_key p = (fun '(n, v) => (v, n)) <$> varint p.
Proof. apply parse_key_varint. Qed.

(** ** Examples *)

(** A page of 512 bytes that holds cells of the kind [f] says. *)
Definition page_of_kind (f : Z) : MemPage :=
  snd (decodeFlags {| pBt := lockBtree 512 512 0; aData := []; hdrOffset := 0; isInit := false; leaf := false; intKey := false; intKeyLeaf := false;
     childPtrSize := 0; max1bytePayload := 0; maxLocal := 0; minLocal := 0; xCellSize := cellSizePtr; xParseCell := btreeParseCellPtr;
     cellOffset := 0; maskPage := 0; nFree := 0; nCell := 0; apOvfl := [] |} f).

(** A cell of a table with a two-byte length and a two-byte rowid: of 1000 bytes of data, 492 stay. *)
Definition long_cell : bytes := [0x87; 0x68; 0x81; 0x00] ++ replicate 500 7.

Lemma long_cell_ok : bytes_ok long_cell.
Proof. apply (bool_decide_unpack _). vm_compute. exact I. Qed.

Lemma cell_size_is_parsed_witness : exists info, parseCell_of (page_of_kind 13) long_cell = Some info /\ nPayload info = 1000 /\ nKey info = 128 /\
  cellSize_of (page_of_kind 13) long_cell = Some (nSize info) /\ nLocal info <= nPayload info.
Proof.
  assert (E : exists info, parseCell_of (page_of_kind 13) long_cell = Some info) by (vm_compute; eauto).
  destruct E as [info E]. exists info. split; [exact E|].
  assert (Hlim : limits_ok (pBt (page_of_kind 13))) by (exists 512, 512, 0; split; [reflexivity|lia]).
  destruct (cell_size_is_parsed (page_of_kind 13) 13 long_cell info Hlim eq_refl long_cell_ok E) as (H1 & H2 & H3 & H4).
  pose proof (f_equal (fmap nPayload) E) as E1. pose proof (f_equal (fmap nKey) E) as E2. vm_compute in E1, E2.
  injection E1 as E1. injection E2 as E2. auto.
Defined.

Lemma unrolled_key_is_varint_witness : parse_key [0xff; 0xff; 0xff; 0xff; 0xff; 0xff; 0xff; 0xff; 0xfe] = Some (2 ^ 64 - 2, 9).
Proof.
  rewrite (unrolled_key_is_varint [0xff; 0xff; 0xff; 0xff; 0xff; 0xff; 0xff; 0xff; 0xfe]); [vm_compute; reflexivity|].
  apply (bool_decide_unpack _). vm_compute. exact I.
Defined.

(** The loop that reads the length of the payload takes it modulo [2 ^ 32]; [getVarint32], which it
    stands for, answers the largest number. *)
Lemma payload_length_wraps : payload_size [0x90; 0x80; 0x80; 0x80; 0x05] = Some (5, 5) /\ getVarint32 [0x90; 0x80; 0x80; 0x80; 0x05] = Some (5, 2 ^ 32 - 1).
Proof. split; vm_compute; reflexivity. Qed.
