(* ===== verification/SqlPage.v ===== *)
(** * The space of a B-tree page

    [sqlite/sqlite3.c] (btree.c): a page holds cells of different sizes, a list of the offsets of its cells in
    the order of their keys, and, between the cells, a list of free blocks threaded through the page itself.
    The routines here insert and remove cells, search, join and compact the free blocks, and check a page
    that was read from disk.

    A routine returns its code with the page, or [None] when it leaves the page or a broken assert is met.
    Loops along the free blocks have as much fuel as the page has bytes. *)

From S2P Require Import Prelude Bits SqlBytes SqlCell.

(** ** Assignments to the fields of a page *)

Definition set_aData (d : bytes) (p : MemPage) : MemPage :=
  {| pBt := pBt p; aData := d; hdrOffset := hdrOffset p; isInit := isInit p; leaf := leaf p; intKey := intKey p;
     intKeyLeaf := intKeyLeaf p; childPtrSize := childPtrSize p; max1bytePayload := max1bytePayload p;
     maxLocal := maxLocal p; minLocal := minLocal p; xCellSize := xCellSize p; xParseCell := xParseCell p;
     cellOffset := cellOffset p; maskPage := maskPage p; nFree := nFree p; nCell := nCell p; apOvfl := apOvfl p |}.

Definition set_nFree (n : Z) (p : MemPage) : MemPage :=
  {| pBt := pBt p; aData := aData p; hdrOffset := hdrOffset p; isInit := isInit p; leaf := leaf p; intKey := intKey p;
     intKeyLeaf := intKeyLeaf p; childPtrSize := childPtrSize p; max1bytePayload := max1bytePayload p;
     maxLocal := maxLocal p; minLocal := minLocal p; xCellSize := xCellSize p; xParseCell := xParseCell p;
     cellOffset := cellOffset p; maskPage := maskPage p; nFree := n; nCell := nCell p; apOvfl := apOvfl p |}.

Definition set_nCell (n : Z) (p : MemPage) : MemPage :=
  {| pBt := pBt p; aData := aData p; hdrOffset := hdrOffset p; isInit := isInit p; leaf := leaf p; intKey := intKey p;
     intKeyLeaf := intKeyLeaf p; childPtrSize := childPtrSize p; max1bytePayload := max1bytePayload p;
     maxLocal := maxLocal p; minLocal := minLocal p; xCellSize := xCellSize p; xParseCell := xParseCell p;
     cellOffset := cellOffset p; maskPage := maskPage p; nFree := nFree p; nCell := n; apOvfl := apOvfl p |}.

(** [cellOffset], [maskPage], [nOverflow] and [isInit], which [btreeInitPage] and [zeroPage] set together. *)
Definition set_geometry (first : Z) (ini : bool) (p : MemPage) : MemPage :=
  {| pBt := pBt p; aData := aData p; hdrOffset := hdrOffset p; isInit := ini; leaf := leaf p; intKey := intKey p;
     intKeyLeaf := intKeyLeaf p; childPtrSize := childPtrSize p; max1bytePayload := max1bytePayload p;
     maxLocal := maxLocal p; minLocal := minLocal p; xCellSize := xCellSize p; xParseCell := xParseCell p;
     cellOffset := first; maskPage := u16 (pageSize (pBt p) - 1); nFree := nFree p; nCell := nCell p; apOvfl := [] |}.

Definition add_overflow (i : Z) (c : bytes) (p : MemPage) : MemPage :=
  {| pBt := pBt p; aData := aData p; hdrOffset := hdrOffset p; isInit := isInit p; leaf := leaf p; intKey := intKey p;
     intKeyLeaf := intKeyLeaf p; childPtrSize := childPtrSize p; max1bytePayload := max1bytePayload p;
     maxLocal := maxLocal p; minLocal := minLocal p; xCellSize := xCellSize p; xParseCell := xParseCell p;
     cellOffset := cellOffset p; maskPage := maskPage p; nFree := nFree p; nCell := nCell p;
     apOvfl := apOvfl p ++ [(i, c)] |}.

Definition SQLITE_OK : Z := 0.

Definition usable (pPage : MemPage) : Z := usableSize (pBt pPage).

(** What an [assert] lets through. *)
Definition check (P : Prop) `{Decision P} : option unit := if decide P then Some tt else None.

(** ** Pages read from disk *)

(** [findCell]: the address of the [i]-th cell. *)
Definition findCell (pPage : MemPage) (i : Z) : option Z :=
  pc ← get2byte (aData pPage) (cellOffset pPage + 2 * i); Some (Z.land (maskPage pPage) pc).

Definition MX_CELL (bt : BtShared) : Z := (pageSize bt - 8) / 6.

(** The body of the loop of [btreeCellSizeCheck]. *)
Fixpoint cell_checks (pPage : MemPage) (iCellFirst iCellLast : Z) (k : nat) (i : Z) : option Z :=
  match k with
  | O => Some SQLITE_OK
  | S k =>
      pc ← get2byte (aData pPage) (cellOffset pPage + i * 2);
      if decide (pc < iCellFirst \/ iCellLast < pc) then Some SQLITE_CORRUPT
      else
        sz ← cellSize_of pPage (drop (Z.to_nat pc) (aData pPage));
        if decide (usable pPage < pc + sz) then Some SQLITE_CORRUPT
        else cell_checks pPage iCellFirst iCellLast k (i + 1)
  end.

Definition btreeCellSizeCheck (pPage : MemPage) : option Z :=
  let iCellFirst := cellOffset pPage + 2 * nCell pPage in
  let iCellLast := usable pPage - 4 in
  let iCellLast := if leaf pPage then iCellLast else iCellLast - 1 in
  cell_checks pPage iCellFirst iCellLast (Z.to_nat (nCell pPage)) 0.

(** [cell_ck] is the flag [SQLITE_CellSizeCk] of the connection. *)
Definition btreeInitPage (cell_ck : bool) (pPage : MemPage) : option (Z * MemPage) :=
  _ ← check (isInit pPage = false);
  let data := aData pPage in
  let hdr := hdrOffset pPage in
  flag ← ld data hdr;
  let '(rc, pPage) := decodeFlags pPage flag in
  if decide (rc <> SQLITE_OK) then Some (SQLITE_CORRUPT, pPage)
  else
    n ← get2byte data (hdr + 3);
    let pPage := set_nCell n (set_geometry (hdr + 8 + childPtrSize pPage) (isInit pPage) pPage) in
    if decide (MX_CELL (pBt pPage) < n) then Some (SQLITE_CORRUPT, pPage)
    else
      let pPage := set_geometry (cellOffset pPage) true (set_nFree (-1) pPage) in
      if cell_ck then rc ← btreeCellSizeCheck pPage; Some (rc, pPage) else Some (SQLITE_OK, pPage).

(** The loop of [btreeComputeFreeSpace]: the total with the last [next], [pc] and [size], or [None]
    inside for a block off the end of the page. *)
Fixpoint free_blocks (fuel : nat) (data : bytes) (iCellLast nFree pc : Z) : option (option (Z * Z * Z * Z)) :=
  match fuel with
  | O => None
  | S fuel =>
      if decide (iCellLast < pc) then Some None
      else
        next ← get2byte data pc;
        size ← get2byte data (pc + 2);
        let nFree := nFree + size in
        if decide (next <= pc + size + 3) then Some (Some (nFree, next, pc, size))
        else free_blocks fuel data iCellLast nFree next
  end.

Definition btreeComputeFreeSpace (pPage : MemPage) : option (Z * MemPage) :=
  _ ← check (isInit pPage = true /\ nFree pPage < 0);
  let usableSize := usable pPage in
  let hdr := hdrOffset pPage in
  let data := aData pPage in
  top ← get2byteNotZero data (hdr + 5);
  let iCellFirst := hdr + 8 + childPtrSize pPage + 2 * nCell pPage in
  pc ← get2byte data (hdr + 1);
  frag ← ld data (hdr + 7);
  let nFree := frag + top in
  nFree ← (if decide (0 < pc) then
             if decide (pc < top) then Some None
             else
               r ← free_blocks (length data) data (usableSize - 4) nFree pc;
               Some (match r with
                     | None => None
                     | Some (nFree, next, pc, size) =>
                         if decide (0 < next) then None
                         else if decide (usableSize < pc + size) then None
                         else Some nFree
                     end)
           else Some (Some nFree));
  Some (match nFree with
        | None => (SQLITE_CORRUPT, pPage)
        | Some nFree =>
            if decide (usableSize < nFree \/ nFree < iCellFirst) then (SQLITE_CORRUPT, pPage)
            else (SQLITE_OK, set_nFree (u16 (nFree - iCellFirst)) pPage)
        end).

(** ** An empty page *)

Definition zeroPage (pPage : MemPage) (flags : Z) : option MemPage :=
  let bt := pBt pPage in
  let hdr := hdrOffset pPage in
  data ← (if decide (Z.land (btsFlags bt) BTS_FAST_SECURE <> 0)
          then memset (aData pPage) hdr 0 (usableSize bt - hdr) else Some (aData pPage));
  data ← st data hdr [u8 flags];
  let first := hdr + (if decide (Z.land flags PTF_LEAF = 0) then 12 else 8) in
  data ← memset data (hdr + 1) 0 4;
  data ← st data (hdr + 7) [0];
  data ← put2byte data (hdr + 5) (usableSize bt);
  let pPage := set_nFree (u16 (usableSize bt - first)) (set_aData data pPage) in
  let '(_, pPage) := decodeFlags pPage flags in
  Some (set_nCell 0 (set_geometry first true pPage)).

(** ** Finding space *)

(** The loop of [pageFindSlot] and what follows it: the slot, [*pRc] and the page. *)
Fixpoint find_slot (fuel : nat) (hdr nByte maxPC : Z) (aData : bytes) (iAddr pc : Z) : option (option Z * Z * bytes) :=
  match fuel with
  | O => None
  | S fuel =>
      if decide (pc <= maxPC) then
        size ← get2byte aData (pc + 2);
        let x := size - nByte in
        if decide (0 <= x) then
          if decide (x < 4) then
            f ← ld aData (hdr + 7);
            if decide (57 < f) then Some (None, SQLITE_OK, aData)
            else
              aData ← memmove_buf aData iAddr pc 2;
              f ← ld aData (hdr + 7);
              aData ← st aData (hdr + 7) [u8 (f + u8 x)];
              Some (Some pc, SQLITE_OK, aData)
          else if decide (maxPC < x + pc) then Some (None, SQLITE_CORRUPT, aData)
          else aData ← put2byte aData (pc + 2) x; Some (Some (pc + x), SQLITE_OK, aData)
        else
          next ← get2byte aData pc;
          if decide (next <= pc) then Some (None, if decide (next <> 0) then SQLITE_CORRUPT else SQLITE_OK, aData)
          else find_slot fuel hdr nByte maxPC aData pc next
      else Some (None, if decide (maxPC + nByte - 4 < pc) then SQLITE_CORRUPT else SQLITE_OK, aData)
  end.

Definition pageFindSlot (pPg : MemPage) (nByte : Z) : option (option Z * Z * bytes) :=
  let hdr := hdrOffset pPg in
  pc ← get2byte (aData pPg) (hdr + 1);
  _ ← check (0 < pc);
  find_slot (length (aData pPg)) hdr nByte (usable pPg - nByte) (aData pPg) (hdr + 1) pc.

(** The loop that moves the pointers to cells before the free blocks. *)
Fixpoint shift_pointers (k : nat) (pAddr iFree sz iFree2 sz2 : Z) (data : bytes) : option bytes :=
  match k with
  | O => Some data
  | S k =>
      pc ← get2byte data pAddr;
      data ← (if decide (pc < iFree) then put2byte data pAddr (pc + sz)
              else if decide (pc < iFree2) then put2byte data pAddr (pc + sz2)
              else Some data);
      shift_pointers k (pAddr + 2) iFree sz iFree2 sz2 data
  end.

(** The block of [defragmentPage] for one or two free blocks: the code, [cbrk] and the page.
    [iFree] and [iFree2] have been read. *)
Definition defragment_two (pPage : MemPage) (iFree iFree2 : Z) : option (Z * Z * bytes) :=
  let data := aData pPage in
  sz ← get2byte data (iFree + 2);
  top ← get2byte data (hdrOffset pPage + 5);
  if decide (iFree <= top) then Some (SQLITE_CORRUPT, 0, data)
  else
    r ← (if decide (iFree2 <> 0) then
           if decide (iFree2 < iFree + sz) then Some None
           else
             sz2 ← get2byte data (iFree2 + 2);
             if decide (usable pPage < iFree2 + sz2) then Some None
             else data ← memmove_buf data (iFree + sz + sz2) (iFree + sz) (iFree2 - (iFree + sz)); Some (Some (sz + sz2, sz2, data))
         else if decide (usable pPage < iFree + sz) then Some None
         else Some (Some (sz, 0, data)));
    match r with
    | None => Some (SQLITE_CORRUPT, 0, data)
    | Some (sz, sz2, data) =>
        let cbrk := top + sz in
        _ ← check (cbrk + (iFree - top) <= usable pPage);
        data ← memmove_buf data cbrk top (iFree - top);
        data ← shift_pointers (Z.to_nat (nCell pPage)) (cellOffset pPage) iFree sz iFree2 sz2 data;
        Some (SQLITE_OK, cbrk, data)
    end.

(** The loop that packs the cells of [src] at the end of the page, from cell [i] on. *)
Fixpoint pack_cells (pPage : MemPage) (src : bytes) (iCellStart : Z) (k : nat) (i cbrk : Z) (data : bytes) : option (Z * Z * bytes) :=
  match k with
  | O => Some (SQLITE_OK, cbrk, data)
  | S k =>
      let pAddr := cellOffset pPage + i * 2 in
      pc ← get2byte data pAddr;
      if decide (usable pPage - 4 < pc) then Some (SQLITE_CORRUPT, cbrk, data)
      else
        size ← cellSize_of pPage (drop (Z.to_nat pc) src);
        let cbrk := cbrk - size in
        if decide (cbrk < iCellStart \/ usable pPage < pc + size) then Some (SQLITE_CORRUPT, cbrk, data)
        else
          data ← put2byte data pAddr cbrk;
          bs ← slice src pc size;
          data ← st data cbrk bs;
          pack_cells pPage src iCellStart k (i + 1) cbrk data
  end.

(** From [defragment_out] on. *)
Definition defragment_out (pPage : MemPage) (cbrk : Z) (data : bytes) : option (Z * MemPage) :=
  let hdr := hdrOffset pPage in
  let iCellFirst := cellOffset pPage + 2 * nCell pPage in
  _ ← check (0 <= nFree pPage);
  f ← ld data (hdr + 7);
  if decide (f + cbrk - iCellFirst <> nFree pPage) then Some (SQLITE_CORRUPT, set_aData data pPage)
  else
    _ ← check (iCellFirst <= cbrk);
    data ← put2byte data (hdr + 5) cbrk;
    data ← st data (hdr + 1) [0; 0];
    data ← memset data iCellFirst 0 (cbrk - iCellFirst);
    Some (SQLITE_OK, set_aData data pPage).

(** The general case; [temp] holds a copy of the usable part. *)
Definition defragment_all (pPage : MemPage) : option (Z * MemPage) :=
  let data := aData pPage in
  let hdr := hdrOffset pPage in
  iCellStart ← get2byte data (hdr + 5);
  '(rc, cbrk, data) ←
    (if decide (0 < nCell pPage) then
       src ← slice data 0 (usable pPage);
       pack_cells pPage src iCellStart (Z.to_nat (nCell pPage)) 0 (usable pPage) data
     else Some (SQLITE_OK, usable pPage, data));
  if decide (rc <> SQLITE_OK) then Some (rc, set_aData data pPage)
  else data ← st data (hdr + 7) [0]; defragment_out pPage cbrk data.

Definition defragmentPage (pPage : MemPage) (nMaxFrag : Z) : option (Z * MemPage) :=
  let data := aData pPage in
  let hdr := hdrOffset pPage in
  f ← ld data (hdr + 7);
  if decide (f <= nMaxFrag) then
    iFree ← get2byte data (hdr + 1);
    if decide (usable pPage - 4 < iFree) then Some (SQLITE_CORRUPT, pPage)
    else if decide (iFree <> 0) then
      iFree2 ← get2byte data iFree;
      if decide (usable pPage - 4 < iFree2) then Some (SQLITE_CORRUPT, pPage)
      else
        third ← (if decide (iFree2 = 0) then Some false
                 else a ← ld data iFree2; b ← ld data (iFree2 + 1); Some (bool_decide (~ (a = 0 /\ b = 0))));
        if third : bool then defragment_all pPage
        else
          '(rc, cbrk, data) ← defragment_two pPage iFree iFree2;
          if decide (rc <> SQLITE_OK) then Some (rc, set_aData data pPage)
          else defragment_out pPage cbrk data
    else defragment_all pPage
  else defragment_all pPage.

(** The code, [*pIdx] and the page. *)
Definition allocateSpace (pPage : MemPage) (nByte : Z) : option (Z * Z * MemPage) :=
  let hdr := hdrOffset pPage in
  let data := aData pPage in
  _ ← check (0 <= nByte /\ nByte <= nFree pPage /\ apOvfl pPage = [] /\ nByte < usable pPage - 8);
  let gap := cellOffset pPage + 2 * nCell pPage in
  _ ← check (gap <= 65536);
  top ← get2byte data (hdr + 5);
  if decide (top < gap /\ ~ (top = 0 /\ usable pPage = 65536)) then Some (SQLITE_CORRUPT, 0, pPage)
  else if decide (gap <= top /\ usable pPage < top) then Some (SQLITE_CORRUPT, 0, pPage)
  else
    let top := if decide (top < gap) then 65536 else top in
    a ← ld data (hdr + 2);
    b ← ld data (hdr + 1);
    '(slot, rc, data) ← (if decide ((a <> 0 \/ b <> 0) /\ gap + 2 <= top) then pageFindSlot pPage nByte
                         else Some (None, SQLITE_OK, data));
    let pPage := set_aData data pPage in
    match slot with
    | Some g2 =>
        _ ← check (g2 + nByte <= usable pPage);
        Some (if decide (g2 <= gap) then SQLITE_CORRUPT else SQLITE_OK, g2, pPage)
    | None =>
        if decide (rc <> SQLITE_OK) then Some (rc, 0, pPage)
        else
          '(rc, top, pPage) ←
            (if decide (top < gap + 2 + nByte) then
               '(rc, pPage) ← defragmentPage pPage (Z.min 4 (nFree pPage - (2 + nByte)));
               if decide (rc <> SQLITE_OK) then Some (rc, 0, pPage)
               else
                 top ← get2byteNotZero (aData pPage) (hdr + 5);
                 _ ← check (gap + 2 + nByte <= top);
                 Some (SQLITE_OK, top, pPage)
             else Some (SQLITE_OK, top, pPage));
          if decide (rc <> SQLITE_OK) then Some (rc, 0, pPage)
          else
            let top := top - nByte in
            data ← put2byte (aData pPage) (hdr + 5) top;
            _ ← check (top + nByte <= usable pPage);
            Some (SQLITE_OK, top, set_aData data pPage)
    end.

(** ** Giving space back *)

(** The search for the place of [iStart] in the list: [iPtr] and [iFreeBlk], or [None] inside for a
    list that does not ascend. *)
Fixpoint find_place (fuel : nat) (data : bytes) (iStart iPtr : Z) : option (option (Z * Z)) :=
  match fuel with
  | O => None
  | S fuel =>
      iFreeBlk ← get2byte data iPtr;
      if decide (iFreeBlk < iStart) then
        if decide (iFreeBlk <= iPtr) then Some (if decide (iFreeBlk = 0) then Some (iPtr, iFreeBlk) else None)
        else find_place fuel data iStart iFreeBlk
      else Some (Some (iPtr, iFreeBlk))
  end.

(** The joining with the free block after the space: [iSize], [iEnd], [iFreeBlk] and [nFrag]. *)
Definition join_next (usableSize : Z) (data : bytes) (iStart iSize iFreeBlk : Z) : option (option (Z * Z * Z * Z)) :=
  let iEnd := iStart + iSize in
  if decide (iFreeBlk <> 0 /\ iFreeBlk <= iEnd + 3) then
    let nFrag := u8 (iFreeBlk - iEnd) in
    if decide (iFreeBlk < iEnd) then Some None
    else
      n ← get2byte data (iFreeBlk + 2);
      let iEnd := iFreeBlk + n in
      if decide (usableSize < iEnd) then Some None
      else next ← get2byte data iFreeBlk; Some (Some (u16 (iEnd - iStart), iEnd, next, nFrag))
  else Some (Some (iSize, iEnd, iFreeBlk, 0)).

(** The joining with the free block before it: [iStart], [iSize] and [nFrag]. *)
Definition join_prev (hdr : Z) (data : bytes) (iStart iSize iEnd iPtr nFrag : Z) : option (option (Z * Z * Z)) :=
  if decide (hdr + 1 < iPtr) then
    n ← get2byte data (iPtr + 2);
    let iPtrEnd := iPtr + n in
    if decide (iStart <= iPtrEnd + 3) then
      if decide (iStart < iPtrEnd) then Some None
      else Some (Some (iPtr, u16 (iEnd - iPtr), u8 (nFrag + (iStart - iPtrEnd))))
    else Some (Some (iStart, iSize, nFrag))
  else Some (Some (iStart, iSize, nFrag)).

(** What is done before the block is written: [iStart], [iSize], [iEnd], [iPtr], [iFreeBlk] and the page;
    [None] inside is an exit with [SQLITE_CORRUPT]. *)
Definition free_prepare (pPage : MemPage) (iStart iSize : Z) : option (option (Z * Z * Z * Z * Z * bytes)) :=
  let data := aData pPage in
  let hdr := hdrOffset pPage in
  let iPtr := hdr + 1 in
  a ← ld data (iPtr + 1);
  b ← ld data iPtr;
  if decide (a = 0 /\ b = 0) then Some (Some (iStart, iSize, iStart + iSize, iPtr, 0, data))
  else
    r ← find_place (length data) data iStart iPtr;
    match r with
    | None => Some None
    | Some (iPtr, iFreeBlk) =>
        if decide (usable pPage - 4 < iFreeBlk) then Some None
        else
          r ← join_next (usable pPage) data iStart iSize iFreeBlk;
          match r with
          | None => Some None
          | Some (iSize, iEnd, iFreeBlk, nFrag) =>
              r ← join_prev hdr data iStart iSize iEnd iPtr nFrag;
              match r with
              | None => Some None
              | Some (iStart, iSize, nFrag) =>
                  f ← ld data (hdr + 7);
                  if decide (f < nFrag) then Some None
                  else data ← st data (hdr + 7) [u8 (f - nFrag)]; Some (Some (iStart, iSize, iEnd, iPtr, iFreeBlk, data))
              end
          end
    end.

Definition freeSpace (pPage : MemPage) (iStart iSize : Z) : option (Z * MemPage) :=
  let hdr := hdrOffset pPage in
  let iOrigSize := iSize in
  _ ← check (4 <= iSize);
  r ← free_prepare pPage iStart iSize;
  match r with
  | None => Some (SQLITE_CORRUPT, pPage)
  | Some (iStart, iSize, iEnd, iPtr, iFreeBlk, data) =>
      x ← get2byte data (hdr + 5);
      data ← (if decide (Z.land (btsFlags (pBt pPage)) BTS_FAST_SECURE <> 0) then memset data iStart 0 iSize else Some data);
      if decide (iStart <= x) then
        if decide (iStart < x \/ iPtr <> hdr + 1) then Some (SQLITE_CORRUPT, set_aData data pPage)
        else
          data ← put2byte data (hdr + 1) iFreeBlk;
          data ← put2byte data (hdr + 5) iEnd;
          Some (SQLITE_OK, set_nFree (nFree pPage + iOrigSize) (set_aData data pPage))
      else
        data ← put2byte data iPtr iStart;
        data ← put2byte data iStart iFreeBlk;
        data ← put2byte data (iStart + 2) iSize;
        Some (SQLITE_OK, set_nFree (nFree pPage + iOrigSize) (set_aData data pPage))
  end.

(** ** Cells *)

Definition dropCell (pPage : MemPage) (idx sz : Z) (rc : Z) : option (Z * MemPage) :=
  if decide (rc <> SQLITE_OK) then Some (rc, pPage)
  else
    _ ← check (0 <= idx < nCell pPage /\ 0 <= nFree pPage);
    let ptr := cellOffset pPage + 2 * idx in
    let hdr := hdrOffset pPage in
    pc ← get2byte (aData pPage) ptr;
    if decide (usable pPage < u32 (pc + sz)) then Some (SQLITE_CORRUPT, pPage)
    else
      '(rc, pPage) ← freeSpace pPage pc (u16 sz);
      if decide (rc <> SQLITE_OK) then Some (rc, pPage)
      else
        let pPage := set_nCell (nCell pPage - 1) pPage in
        let data := aData pPage in
        if decide (nCell pPage = 0) then
          data ← memset data (hdr + 1) 0 4;
          data ← st data (hdr + 7) [0];
          data ← put2byte data (hdr + 5) (usable pPage);
          Some (SQLITE_OK, set_nFree (usable pPage - hdr - childPtrSize pPage - 8) (set_aData data pPage))
        else
          data ← memmove_buf data ptr (ptr + 2) (2 * (nCell pPage - idx));
          data ← put2byte data (hdr + 3) (nCell pPage);
          Some (SQLITE_OK, set_nFree (nFree pPage + 2) (set_aData data pPage)).

(** The cell goes to the overflow slots of the page. *)
Definition overflow_cell (pPage : MemPage) (i : Z) (pCell : bytes) : option (Z * MemPage) :=
  let j := length (apOvfl pPage) in
  _ ← check (j < 3)%nat;
  _ ← check (match last (apOvfl pPage) with None => true | Some (k, _) => bool_decide (i = k + 1) end = true);
  Some (SQLITE_OK, add_overflow i pCell pPage).

(** The offset [idx] of a cell that was stored becomes the [i]-th pointer. *)
Definition add_pointer (pPage : MemPage) (i idx : Z) (data : bytes) : option (Z * MemPage) :=
  let hdr := hdrOffset pPage in
  let pIns := cellOffset pPage + i * 2 in
  data ← memmove_buf data (pIns + 2) pIns (2 * (nCell pPage - i));
  data ← put2byte data pIns idx;
  b ← ld data (hdr + 4);
  data ← st data (hdr + 4) [u8 (b + 1)];
  data ← (if decide (u8 (b + 1) = 0) then a ← ld data (hdr + 3); st data (hdr + 3) [u8 (a + 1)] else Some data);
  Some (SQLITE_OK, set_nCell (nCell pPage + 1) (set_aData data pPage)).

(** [rc_write] is the result of [sqlite3PagerWrite]. *)
Definition insertCellFast (pPage : MemPage) (i : Z) (pCell : bytes) (sz rc_write : Z) : option (Z * MemPage) :=
  _ ← check (0 <= i <= nCell pPage + Z.of_nat (length (apOvfl pPage)) /\ 0 <= nFree pPage /\ apOvfl pPage = []);
  if decide (nFree pPage < sz + 2) then overflow_cell pPage i pCell
  else if decide (rc_write <> SQLITE_OK) then Some (rc_write, pPage)
  else
    '(rc, idx, pPage) ← allocateSpace pPage sz;
    if decide (rc <> SQLITE_OK) then Some (rc, pPage)
    else
      _ ← check (0 <= idx /\ idx + sz <= usable pPage);
      let pPage := set_nFree (nFree pPage - u16 (2 + sz)) pPage in
      bs ← slice pCell 0 sz;
      data ← st (aData pPage) idx bs;
      add_pointer pPage i idx data.

(** [pTemp] is whether there is a buffer for the cell; the page number of the child replaces the first four bytes. *)
Definition insertCell (pPage : MemPage) (i : Z) (pCell : bytes) (sz : Z) (pTemp : bool) (iChild rc_write : Z) : option (Z * MemPage) :=
  _ ← check (0 <= i <= nCell pPage + Z.of_nat (length (apOvfl pPage)) /\ 0 <= nFree pPage /\ 0 < iChild);
  if decide (apOvfl pPage <> [] \/ nFree pPage < sz + 2) then
    pCell ← (if pTemp then slice pCell 0 sz else Some pCell);
    pCell ← sqlite3Put4byte pCell 0 iChild;
    overflow_cell pPage i pCell
  else if decide (rc_write <> SQLITE_OK) then Some (rc_write, pPage)
  else
    '(rc, idx, pPage) ← allocateSpace pPage sz;
    if decide (rc <> SQLITE_OK) then Some (rc, pPage)
    else
      _ ← check (0 <= idx /\ idx + sz <= usable pPage);
      let pPage := set_nFree (nFree pPage - u16 (2 + sz)) pPage in
      bs ← slice pCell 4 (sz - 4);
      data ← st (aData pPage) (idx + 4) bs;
      data ← sqlite3Put4byte data idx iChild;
      add_pointer pPage i idx data.
