(* ===== verification/SqlPageSpace.v ===== *)
(** * Extents and free blocks

    Lemmas for the model of [SqlPage]: sets of disjoint extents of a page, the chain of its free blocks, and what
    the routines that search and change the chain do to both. *)

From S2P Require Import Prelude Bits SqlBytes SqlCell SqlPage.

(** ** Extents

    An extent is a start and a size.  [cov l b] counts the extents of [l] that contain the byte [b]: extents
    are disjoint when no count exceeds 1. *)

Definition ind (e : Z * Z) (b : Z) : Z := if decide (e.1 <= b < e.1 + e.2) then 1 else 0.

Fixpoint cov (l : list (Z * Z)) (b : Z) : Z := match l with [] => 0 | e :: l => ind e b + cov l b end.

Fixpoint total (l : list (Z * Z)) : Z := match l with [] => 0 | e :: l => e.2 + total l end.

Lemma ind_range e b : 0 <= ind e b <= 1.
Proof. unfold ind. case_decide; lia. Qed.

Lemma ind_in a n b : a <= b < a + n -> ind (a, n) b = 1.
Proof. intros. unfold ind. by rewrite decide_True. Qed.

Lemma ind_out a n b : ~ (a <= b < a + n) -> ind (a, n) b = 0.
Proof. intros. unfold ind. by rewrite decide_False. Qed.

Lemma cov_nonneg l b : 0 <= cov l b.
Proof. induction l as [|e l IH]; cbn; [done|]. pose proof (ind_range e b). lia. Qed.

Lemma cov_app l1 l2 b : cov (l1 ++ l2) b = cov l1 b + cov l2 b.
Proof. induction l1 as [|e l1 IH]; cbn; lia. Qed.

Lemma total_app l1 l2 : total (l1 ++ l2) = total l1 + total l2.
Proof. induction l1 as [|e l1 IH]; cbn; lia. Qed.

#[export] Instance cov_perm : Proper ((≡ₚ) ==> (=) ==> (=)) cov.
Proof. intros l1 l2 H b ? <-. induction H; cbn; lia. Qed.

#[export] Instance total_perm : Proper ((≡ₚ) ==> (=)) total.
Proof. intros l1 l2 H. induction H; cbn; lia. Qed.

Lemma cov_in l e b : e ∈ l -> ind e b <= cov l b.
Proof.
  intros H. induction H as [e l|e f l _ IH]; cbn; [pose proof (cov_nonneg l b); lia|].
  pose proof (ind_range f b). lia.
Qed.

Lemma cov_pos l b : 0 < cov l b -> exists e, e ∈ l /\ e.1 <= b < e.1 + e.2.
Proof.
  induction l as [|e l IH]; cbn; [lia|]. intros H. unfold ind in H. case_decide as Hd.
  - exists e. split; [apply list_elem_of_here|done].
  - destruct IH as (f & Hf & ?); [lia|]. exists f. split; [by apply list_elem_of_further|done].
Qed.

(** Extents inside [a, b) that are disjoint are not larger together. *)
Fixpoint sum_range (f : Z -> Z) (a : Z) (n : nat) : Z :=
  match n with O => 0 | S n => f (a + Z.of_nat n) + sum_range f a n end.

Lemma sum_range_ind s m a n : 0 <= m -> sum_range (ind (s, m)) a n = Z.max 0 (Z.min (s + m) (a + Z.of_nat n) - Z.max s a).
Proof.
  intros Hm. induction n as [|n IH]; cbn [sum_range]; [lia|]. rewrite IH. unfold ind. cbn [fst snd].
  case_decide; lia.
Qed.

Lemma sum_range_add f g h a n : (forall x, h x = f x + g x) -> sum_range h a n = sum_range f a n + sum_range g a n.
Proof. intros H. induction n as [|n IH]; cbn; [done|]. rewrite IH, H. lia. Qed.

Lemma sum_range_le1 f a n : (forall x, f x <= 1) -> sum_range f a n <= Z.of_nat n.
Proof. intros H. induction n as [|n IH]; cbn [sum_range]; [done|]. specialize (H (a + Z.of_nat n)). lia. Qed.

Definition within (a b : Z) (l : list (Z * Z)) : Prop := Forall (fun e => a <= e.1 /\ 0 <= e.2 /\ e.1 + e.2 <= b) l.

Lemma total_within l a b : a <= b -> within a b l -> (forall x, cov l x <= 1) -> total l <= b - a.
Proof.
  intros Hab Hl Hc. assert (total l = sum_range (cov l) a (Z.to_nat (b - a))) as ->.
  - clear Hc. induction Hl as [|[s m] l (H1 & H2 & H3) _ IH]; cbn [total fst snd] in *.
    { by induction (Z.to_nat (b - a)). }
    rewrite IH, (sum_range_add (ind (s, m)) (cov l) (cov ((s, m) :: l))) by done. rewrite sum_range_ind by done. lia.
  - pose proof (sum_range_le1 (cov l) a (Z.to_nat (b - a)) Hc). lia.
Qed.

(** Between two extents at most three bytes apart no other one of four bytes fits. *)
Lemma cov_between E a m s n x : (forall y, ind (a, m) y + ind (s, n) y + cov E y <= 1) -> 1 <= m -> 1 <= n ->
  Forall (fun e => 4 <= e.2) E -> a + m <= x < s -> s <= a + m + 3 -> cov E x = 0.
Proof.
  intros H Hm Hn HE Hx Hs. destruct (decide (0 < cov E x)) as [Hp|]; [|pose proof (cov_nonneg E x); lia].
  apply cov_pos in Hp as ([s' n'] & He & Hi). cbn [fst snd] in Hi.
  rewrite Forall_forall in HE. specialize (HE _ He). cbn [snd] in HE.
  assert (Hd : s' <= a + m - 1 < s' + n' \/ s' <= s < s' + n') by lia. destruct Hd as [Hd|Hd].
  - specialize (H (a + m - 1)). rewrite (ind_in a m) in H by lia.
    pose proof (cov_in E (s', n') (a + m - 1) He) as Hc. rewrite ind_in in Hc by done. pose proof (ind_range (s, n) (a + m - 1)). lia.
  - specialize (H s). rewrite (ind_in s n) in H by lia.
    pose proof (cov_in E (s', n') s He) as Hc. rewrite ind_in in Hc by done. pose proof (ind_range (a, m) s). lia.
Qed.

(** They can be joined. *)
Lemma cov_join E a m s n : (forall y, ind (a, m) y + ind (s, n) y + cov E y <= 1) -> 1 <= m -> 1 <= n ->
  Forall (fun e => 4 <= e.2) E -> a + m <= s <= a + m + 3 -> forall y, ind (a, s + n - a) y + cov E y <= 1.
Proof.
  intros H Hm Hn HE Hs y. pose proof (cov_between E a m s n y H Hm Hn HE) as Hb. specialize (H y).
  unfold ind in *. cbn [fst snd] in *. repeat case_decide; lia.
Qed.

(** ** The chain of free blocks

    [seg U D p lo l q lo']: from the address [p] of a pointer the blocks [l] follow, the last of which (or [p]) is [q],
    each at least four bytes after the one before it and inside the first [U] bytes. *)

Fixpoint seg (U : Z) (D : bytes) (p lo : Z) (l : list (Z * Z)) (q lo' : Z) : Prop :=
  match l with
  | [] => q = p /\ lo' = lo
  | e :: l => rd2 D p = e.1 /\ lo <= e.1 /\ rd2 D (e.1 + 2) = e.2 /\ 4 <= e.2 /\ e.1 + e.2 <= U /\
              seg U D e.1 (e.1 + e.2 + 4) l q lo'
  end.

Definition chain (U : Z) (D : bytes) (p lo : Z) (l : list (Z * Z)) : Prop :=
  exists q lo', seg U D p lo l q lo' /\ rd2 D q = 0.

Lemma seg_app U D l1 : forall p lo l2 q lo', seg U D p lo (l1 ++ l2) q lo' <->
  exists m lom, seg U D p lo l1 m lom /\ seg U D m lom l2 q lo'.
Proof.
  induction l1 as [|e l1 IH]; intros p lo l2 q lo'; cbn [app seg].
  - split; [eauto 10|]. by intros (m & lom & [-> ->] & H).
  - rewrite IH. split.
    + intros (? & ? & ? & ? & ? & m & lom & ? & ?). exists m, lom. auto 10.
    + intros (m & lom & (? & ? & ? & ? & ? & ?) & ?). repeat (split; [done|]). eauto.
Qed.

Lemma chain_app U D p lo l1 l2 : chain U D p lo (l1 ++ l2) <->
  exists m lom, seg U D p lo l1 m lom /\ chain U D m lom l2.
Proof.
  unfold chain. split.
  - intros (q & lo' & H & Hz). apply seg_app in H as (m & lom & H1 & H2). eauto 10.
  - intros (m & lom & H1 & q & lo' & H2 & Hz). exists q, lo'. split; [|done]. apply seg_app. eauto.
Qed.

Lemma chain_nil U D p lo : chain U D p lo [] <-> rd2 D p = 0.
Proof. unfold chain. cbn. split; [by intros (q & lo' & [-> _] & H)|eauto]. Qed.

Lemma chain_cons U D p lo e l : chain U D p lo (e :: l) <->
  rd2 D p = e.1 /\ lo <= e.1 /\ rd2 D (e.1 + 2) = e.2 /\ 4 <= e.2 /\ e.1 + e.2 <= U /\ chain U D e.1 (e.1 + e.2 + 4) l.
Proof.
  unfold chain. cbn [seg]. split.
  - intros (q & lo' & (? & ? & ? & ? & ? & ?) & ?). eauto 10.
  - intros (? & ? & ? & ? & ? & q & lo' & ? & ?). exists q, lo'. auto 10.
Qed.

(** What a chain reads: the pointer and the first four bytes of each block. *)
Definition header_byte (l : list (Z * Z)) (j : Z) : Prop := exists e, e ∈ l /\ e.1 <= j < e.1 + 4.

Lemma header_byte_cons e l j : header_byte (e :: l) j <-> e.1 <= j < e.1 + 4 \/ header_byte l j.
Proof.
  unfold header_byte. split.
  - intros (f & Hf & Hj). apply elem_of_cons in Hf as [->|Hf]; eauto.
  - intros [Hj|(f & Hf & Hj)]; [exists e|exists f]; (split; [|done]); apply elem_of_cons; auto.
Qed.

Lemma seg_frame U D D' l : forall p lo q lo', seg U D p lo l q lo' ->
  (l <> [] -> rd2 D' p = rd2 D p) ->
  (forall e, e ∈ l -> rd2 D' (e.1 + 2) = rd2 D (e.1 + 2) /\ (e.1 <> q -> rd2 D' e.1 = rd2 D e.1)) ->
  seg U D' p lo l q lo'.
Proof.
  induction l as [|e l IH]; intros p lo q lo' H Hp He; cbn [seg] in *; [done|].
  destruct H as (H1 & H2 & H3 & H4 & H5 & H6).
  destruct (He e (list_elem_of_here _ _)) as [He2 He1].
  rewrite Hp, He2 by done. repeat (split; [done|]). apply IH; [done| |].
  - intros Hl. apply He1. destruct l as [|e2 l]; [done|]. cbn [seg] in H6. destruct H6 as (_ & Hlo & _ & H4' & _ & H6).
    assert (Hq : forall l p lo, seg U D p lo l q lo' -> p + 4 <= lo -> p <= q).
    { clear. induction l as [|e l IH]; intros p lo H Hlo; cbn [seg] in H; [lia|].
      destruct H as (_ & ? & _ & ? & _ & H). apply IH in H; lia. }
    apply Hq in H6; lia.
  - intros f Hf. apply He. by apply list_elem_of_further.
Qed.

(** The pointer to the first block may move, too. *)
Lemma chain_frame U D D' p p' lo l : chain U D p lo l -> rd2 D' p' = rd2 D p ->
  (forall e, e ∈ l -> rd2 D' e.1 = rd2 D e.1 /\ rd2 D' (e.1 + 2) = rd2 D (e.1 + 2)) -> chain U D' p' lo l.
Proof.
  revert p p' lo. induction l as [|e l IH]; intros p p' lo H Hp He.
  - apply chain_nil. apply chain_nil in H. congruence.
  - apply chain_cons in H as (H1 & H2 & H3 & H4 & H5 & H6).
    destruct (He e (list_elem_of_here _ _)) as [He1 He2].
    apply chain_cons. rewrite Hp, He2. repeat (split; [done|]). apply (IH e.1); [done|done|].
    intros f Hf. apply He. by apply list_elem_of_further.
Qed.

(** The blocks lie in ascending order. *)
Lemma seg_bounds U D l : forall p lo q lo', seg U D p lo l q lo' -> lo <= lo' /\
  (forall e, e ∈ l -> lo <= e.1 /\ 4 <= e.2 /\ e.1 + e.2 <= U /\ e.1 + e.2 + 4 <= lo') /\
  (l = [] /\ q = p /\ lo' = lo \/ exists l0 n, l = l0 ++ [(q, n)] /\ lo' = q + n + 4 /\ lo <= q).
Proof.
  induction l as [|e l IH]; intros p lo q lo' H; cbn [seg] in H.
  - destruct H as [-> ->]. split; [done|]. split; [|by left]. intros e He. by apply elem_of_nil in He.
  - destruct H as (H1 & H2 & H3 & H4 & H5 & H6). destruct (IH _ _ _ _ H6) as (Hlo & Hl & Hq).
    split; [lia|]. split.
    + intros f Hf. apply elem_of_cons in Hf as [->|Hf]; [lia|]. specialize (Hl f Hf). lia.
    + right. destruct Hq as [(-> & -> & ->)|(l0 & n & -> & -> & Hq)].
      * exists [], e.2. destruct e. cbn in *. split; [done|]. lia.
      * exists (e :: l0), n. split; [done|]. lia.
Qed.

Lemma chain_bounds U D p lo l : chain U D p lo l -> forall e, e ∈ l -> lo <= e.1 /\ 4 <= e.2 /\ e.1 + e.2 <= U.
Proof. intros (q & lo' & H & _) e He. apply seg_bounds in H as (_ & H & _). specialize (H e He). lia. Qed.

Lemma chain_lower U D p lo lo2 l : chain U D p lo l -> lo2 <= lo -> chain U D p lo2 l.
Proof.
  destruct l as [|e l]; [by rewrite !chain_nil|]. rewrite !chain_cons. intros (H1 & H2 & H3) H. split; [done|]. split; [lia|done].
Qed.

Lemma chain_length U D p lo l : chain U D p lo l -> 0 <= lo -> Z.of_nat (length l) <= Z.max 0 (U - lo).
Proof.
  revert p lo. induction l as [|e l IH]; intros p lo H Hlo; cbn [length]; [lia|].
  apply chain_cons in H as (H1 & H2 & H3 & H4 & H5 & H6). apply IH in H6; lia.
Qed.

(** ** Finding a slot *)

(** What is left of the blocks [fs] of a page once [g, n) is taken and [x] bytes are lost: the chain from [p]. *)
Record slot_taken (hdr U : Z) (p lo : Z) (D : bytes) (fs : list (Z * Z)) (g n : Z) (D' : bytes) (fs' : list (Z * Z)) (x : Z) : Prop := {
  tk_chain : chain U D' p lo fs';
  tk_ok : bytes_ok D';
  tk_len : length D' = length D;
  tk_low : lo <= g;
  tk_high : g + n <= U;
  tk_cov b : cov fs' b + ind (g, n) b <= cov fs b;
  tk_total : total fs = total fs' + n + x;
  tk_frag : rd D' (hdr + 7) = rd D (hdr + 7) + x;
  tk_x : 0 <= x;
  tk_60 : rd D (hdr + 7) <= 60 -> rd D' (hdr + 7) <= 60;
  tk_same j : j <> hdr + 7 -> ~ (p <= j < p + 2) -> ~ header_byte fs j -> rd D' j = rd D j
}.


Lemma rd_upd_1 D i x : 0 <= i < len D -> rd (upd D i [x]) i = x.
Proof. intros. rewrite rd_upd by (cbn [length]; lia). rewrite decide_True by (cbn [length]; lia). by rewrite Z.sub_diag. Qed.

Lemma find_slot_spec hdr U n fs : forall fuel D p lo, 0 <= hdr -> 4 <= n -> chain U D p lo fs -> fs <> [] ->
  bytes_ok D -> U <= len D -> 0 <= p -> p + 2 <= lo -> p = hdr + 1 \/ hdr + 8 <= p -> hdr + 8 <= lo -> (length fs <= fuel)%nat ->
  exists slot D', find_slot fuel hdr n (U - n) D p (rd2 D p) = Some (slot, SQLITE_OK, D') /\
    match slot with None => D' = D | Some g => exists fs' x, slot_taken hdr U p lo D fs g n D' fs' x end.
Proof.
  induction fs as [|[s m] l IH]; intros fuel D p lo Hh Hn Hc Hne Hok Hlen Hp Hlo Hpp Hhl Hf; [done|].
  apply chain_cons in Hc as (H1 & H2 & H3 & H4 & H5 & Hc). cbn [fst snd] in *.
  destruct fuel as [|fuel]; [cbn in Hf; lia|]. cbn [find_slot]. rewrite H1.
  destruct (decide (s <= U - n)) as [Hs|Hs].
  2: { eexists None, D. split; [|done]. rewrite decide_False by lia. done. }
  rewrite (get2byte_rd D (s + 2)) by (done || lia). cbn [mbind option_bind]. rewrite H3.
  pose proof (chain_bounds _ _ _ _ _ Hc) as Hb.
  destruct (decide (0 <= m - n)) as [Hx|Hx].
  - destruct (decide (m - n < 4)) as [Hx4|Hx4].
    + rewrite (ld_rd D (hdr + 7)) by lia. cbn [mbind option_bind].
      case_decide; [by eexists None, D|].
      pose proof (length_sub D s 2 ltac:(lia) ltac:(lia) ltac:(lia)) as Hls.
      unfold memmove_buf. rewrite slice_sub by lia. cbn [mbind option_bind]. rewrite st_upd by lia. cbn [mbind option_bind].
      set (D1 := upd D p (sub D s 2)). assert (Hl1 : length D1 = length D) by (apply length_upd; lia).
      assert (Hok1 : bytes_ok D1) by (apply bytes_ok_upd; [done|by apply bytes_ok_sub]).
      rewrite (ld_rd D1) by lia. cbn [mbind option_bind].
      assert (Hf7 : rd D1 (hdr + 7) = rd D (hdr + 7)).
      { unfold D1. rewrite rd_upd by lia. rewrite decide_False by lia. done. }
      rewrite Hf7, (u8_small (m - n)) by lia. pose proof (rd_range D (hdr + 7) Hok). rewrite u8_small by lia.
      rewrite st_upd by (cbn [length]; lia). cbn [mbind option_bind].
      set (D2 := upd D1 (hdr + 7) [rd D (hdr + 7) + (m - n)]).
      assert (Hrd : forall j, j <> hdr + 7 -> rd D2 j = if decide (p <= j < p + 2) then rd D (s + (j - p)) else rd D j).
      { intros j Hj. unfold D2. rewrite rd_upd by (cbn [length]; lia). rewrite decide_False by (cbn [length]; lia).
        unfold D1. rewrite rd_upd by lia. rewrite Hls. case_decide; [|done]. rewrite rd_sub by lia. by rewrite decide_True by lia. }
      eexists (Some s), D2. split; [done|]. exists l, (m - n). split.
      * apply (chain_lower _ _ _ (s + m + 4)); [|lia]. apply (chain_frame U D D2 s p); [done| |].
        -- unfold rd2. rewrite !Hrd by lia. rewrite !decide_True by lia. f_equal; f_equal; try f_equal; lia.
        -- intros e He. specialize (Hb e He). unfold rd2. rewrite !Hrd by lia. by rewrite !decide_False by lia.
      * apply bytes_ok_upd; [done|]. apply byte_1. lia.
      * unfold D2. by rewrite length_upd by (cbn [length]; lia).
      * lia.
      * lia.
      * intros b. cbn [cov]. pose proof (ind_range (s, m) b). unfold ind in *. cbn [fst snd] in *. repeat case_decide; lia.
      * cbn [total snd]. lia.
      * unfold D2. by rewrite rd_upd_1 by lia.
      * lia.
      * intros _. unfold D2. rewrite rd_upd_1 by lia. lia.
      * intros j Hj Hjp _. rewrite Hrd by done. by rewrite decide_False.
    + rewrite decide_False by lia. rewrite put2byte_upd by lia. cbn [mbind option_bind].
      set (D2 := upd D (s + 2) (two (m - n))).
      assert (Hrd : forall j, ~ (s + 2 <= j < s + 4) -> rd D2 j = rd D j).
      { intros j Hj. unfold D2. rewrite rd_upd by (rewrite ?len_two; lia). rewrite decide_False by (rewrite len_two; lia). done. }
      pose proof (rd2_range D (s + 2) Hok) as Hm.
      eexists (Some _), D2. split; [done|]. exists ((s, m - n) :: l), 0. split.
      * apply chain_cons. cbn [fst snd]. split; [unfold rd2; rewrite !Hrd by lia; exact H1|]. split; [done|].
        split. { unfold D2. rewrite rd2_upd_two by lia. rewrite Z.mod_small by lia. done. }
        split; [lia|]. split; [lia|]. apply (chain_lower _ _ _ (s + m + 4)); [|lia].
        apply (chain_frame U D D2 s s); [done| |].
        -- unfold rd2. by rewrite !Hrd by lia.
        -- intros e He. specialize (Hb e He). unfold rd2. by rewrite !Hrd by lia.
      * apply bytes_ok_upd; [done|apply two_ok].
      * unfold D2. by rewrite length_upd by (rewrite ?len_two; lia).
      * lia.
      * lia.
      * intros b. cbn [cov]. unfold ind. cbn [fst snd]. repeat case_decide; lia.
      * cbn [total snd]. lia.
      * unfold D2. rewrite rd_upd by (rewrite ?len_two; lia). rewrite decide_False by (rewrite len_two; lia). lia.
      * lia.
      * rewrite Hrd by lia. lia.
      * intros j _ _ Hj. apply Hrd. intros ?. apply Hj. apply header_byte_cons. left. cbn. lia.
  - rewrite (get2byte_rd D s) by (done || lia). cbn [mbind option_bind].
    destruct l as [|e l].
    { apply chain_nil in Hc. rewrite Hc. rewrite decide_True by lia. by eexists None, D. }
    assert (Hnext : rd2 D s > s).
    { apply chain_cons in Hc as (E1 & E2 & _). lia. }
    rewrite decide_False by lia.
    destruct (IH fuel D s (s + m + 4)) as (slot & D' & E & Hr); [done|done|done|done|done|done|lia|lia|lia|lia|cbn in *; lia|].
    rewrite E. eexists slot, D'. split; [done|]. destruct slot as [g|]; [|done].
    destruct Hr as (fs' & x & [Hc' Hok' Hl' Hg1 Hg2 Hcov Htot Hfr Hx0 H60 Hsame]).
    exists ((s, m) :: fs'), x.
    assert (Hin : forall j, j <> hdr + 7 -> ~ (s <= j < s + 2) -> j < s + m + 4 -> rd D' j = rd D j).
    { intros j Hj1 Hj2 Hj3. apply Hsame; [done|done|]. intros (f & Hf' & Hj). specialize (Hb f Hf'). lia. }
    split; try done.
    + apply chain_cons. cbn [fst snd]. unfold rd2 at 1 2. rewrite !Hin by lia. auto 10.
    + lia.
    + intros b. specialize (Hcov b). cbn [cov] in *. lia.
    + cbn [total snd] in *. lia.
    + intros j Hj1 Hj2 Hj3. apply Hsame; [done| |].
      * intros ?. apply Hj3. apply header_byte_cons. left. cbn. lia.
      * intros ?. apply Hj3. apply header_byte_cons. by right.
Qed.
