(* ===== verification/SqlPageFree.v ===== *)
(** * Giving space back to a page

    [freeSpace] of [SqlPage] on a page whose space is in order: the block is joined with the free blocks next to it and the
    space stays in order. *)

From S2P Require Import Prelude Bits SqlBytes SqlCell SqlPage SqlPageSpace.

(** ** Giving space back *)

Lemma find_place_spec U a fs : forall fuel D p lo, chain U D p lo fs -> bytes_ok D -> U <= len D -> p + 2 <= len D ->
  0 <= p -> p + 2 <= lo -> 0 < a -> (length fs < fuel)%nat ->
  exists l1 l2 q lo', fs = l1 ++ l2 /\ seg U D p lo l1 q lo' /\ chain U D q lo' l2 /\
    (forall e, e ∈ l1 -> e.1 < a) /\ (forall e, e ∈ l2 -> a <= e.1) /\
    find_place fuel D a p = Some (Some (q, rd2 D q)).
Proof.
  induction fs as [|e l IH]; intros fuel D p lo Hc Hok Hlen Hpl Hp Hlo Ha Hf; (destruct fuel as [|fuel]; [cbn in Hf; lia|]); cbn [find_place];
    rewrite get2byte_rd by (done || lia); cbn [mbind option_bind].
  - exists [], [], p, lo. split; [done|]. split; [done|]. split; [done|].
    split; [by intros e ?%elem_of_nil|]. split; [by intros e ?%elem_of_nil|].
    apply chain_nil in Hc. rewrite Hc. rewrite !decide_True by (done || lia). done.
  - pose proof Hc as Hc0. apply chain_cons in Hc as (H1 & H2 & H3 & H4 & H5 & Hc). rewrite H1.
    destruct (decide (e.1 < a)) as [Hlt|Hge].
    + rewrite decide_False by lia.
      destruct (IH fuel D e.1 (e.1 + e.2 + 4)) as (l1 & l2 & q & lo' & -> & Hs & Hc2 & Hl1 & Hl2 & E); [done|done|done|lia|lia|lia|done|cbn in Hf; lia|].
      exists (e :: l1), l2, q, lo'. split; [done|]. split; [cbn [seg]; auto 10|]. split; [done|]. split; [|by split].
      intros f Hff. apply elem_of_cons in Hff as [->|Hff]; [done|by apply Hl1].
    + exists [], (e :: l), p, lo. split; [done|]. split; [done|]. split; [done|].
      split; [by intros f ?%elem_of_nil|]. split; [|by rewrite H1].
      intros f Hff. apply elem_of_cons in Hff as [->|Hff]; [lia|].
      pose proof (chain_bounds _ _ _ _ _ Hc f Hff). lia.
Qed.

Definition sizes_ok (l : list (Z * Z)) : Prop := Forall (fun e => 4 <= e.2) l.

Lemma sizes_app l1 l2 : sizes_ok (l1 ++ l2) <-> sizes_ok l1 /\ sizes_ok l2.
Proof. apply Forall_app. Qed.

Lemma chain_sizes U D p lo l : chain U D p lo l -> sizes_ok l.
Proof. intros H. apply Forall_forall. intros e He. apply (chain_bounds _ _ _ _ _ H) in He. lia. Qed.

Lemma seg_sizes U D p lo l q lo' : seg U D p lo l q lo' -> sizes_ok l.
Proof. intros H. apply Forall_forall. intros e He. apply seg_bounds in H as (_ & H & _). apply H in He. lia. Qed.

(** Extents that do not overlap lie apart. *)
Lemma apart a m s n E : (forall y, ind (a, m) y + ind (s, n) y + cov E y <= 1) -> 1 <= m -> 1 <= n -> a + m <= s \/ s + n <= a.
Proof.
  intros H Hm Hn. destruct (decide (a <= s)).
  - left. specialize (H s). rewrite (ind_in s n) in H by lia. pose proof (cov_nonneg E s).
    destruct (decide (s < a + m)); [|lia]. rewrite (ind_in a m) in H by lia. lia.
  - right. specialize (H a). rewrite (ind_in a m) in H by lia. pose proof (cov_nonneg E a).
    destruct (decide (a < s + n)); [|lia]. rewrite (ind_in s n) in H by lia. lia.
Qed.

Lemma join_next_spec U D q lo l2 a m E : chain U D q lo l2 -> bytes_ok D -> U <= len D -> U <= 65536 -> 0 < a -> 4 <= m -> a + m <= U ->
  (forall e, e ∈ l2 -> a <= e.1) -> (forall y, ind (a, m) y + cov l2 y + cov E y <= 1) -> sizes_ok E ->
  exists n next fr l2' r, join_next U D a m (rd2 D q) = Some (Some (n, a + n, next, fr)) /\
    m <= n /\ a + n <= U /\ rd2 D r = next /\ chain U D r (a + n + 4) l2' /\
    (forall y, ind (a, n) y + cov l2' y + cov E y <= 1) /\ n + total l2' = m + total l2 + fr /\ 0 <= fr <= 3 /\
    (forall e, e ∈ l2' -> e ∈ l2).
Proof.
  intros Hc Hok Hlen HU Ha Hm Ham Hl2 Hcov HE. unfold join_next. destruct l2 as [|[s k] l].
  { apply chain_nil in Hc. rewrite Hc, decide_False by lia. exists m, 0, 0, [], q. rewrite chain_nil. repeat (split; [done || lia|]). done. }
  apply chain_cons in Hc as (H1 & H2 & H3 & H4 & H5 & Hc). cbn [fst snd] in *. rewrite H1.
  pose proof (Hl2 _ (list_elem_of_here _ _)) as Has. cbn [fst] in Has.
  assert (Hcov' : forall y, ind (a, m) y + ind (s, k) y + cov (l ++ E) y <= 1).
  { intros y. specialize (Hcov y). rewrite cov_app. cbn [cov] in Hcov. lia. }
  assert (Hap : a + m <= s) by (destruct (apart a m s k (l ++ E) Hcov'); lia).
  destruct (decide (s <= a + m + 3)) as [Hs|Hs].
  - rewrite decide_True by lia. rewrite decide_False by lia. rewrite (get2byte_rd D (s + 2)) by (done || lia). cbn [mbind option_bind].
    rewrite H3. rewrite decide_False by lia. rewrite (get2byte_rd D s) by (done || lia). cbn [mbind option_bind].
    rewrite u16_small by lia. rewrite u8_small by lia.
    exists (s + k - a), (rd2 D s), (s - (a + m)), l, s.
    replace (a + (s + k - a)) with (s + k) by lia. split; [done|]. split; [lia|]. split; [lia|]. split; [done|]. split; [done|].
    split; [|split; [cbn [total snd]; lia|split; [lia|intros e He; by apply list_elem_of_further]]].
    intros y. pose proof (cov_join (l ++ E) a m s k Hcov' ltac:(lia) ltac:(lia)) as HJ. rewrite <- Z.add_assoc, <- cov_app.
    apply HJ; [|lia]. apply sizes_app. split; [by apply (chain_sizes _ _ _ _ _ Hc)|done].
  - rewrite decide_False by lia. exists m, s, 0, ((s, k) :: l), q. split; [done|]. split; [done|]. split; [done|]. split; [done|].
    split; [|split; [done|split; [lia|split; [lia|done]]]]. apply chain_cons. cbn [fst snd]. repeat (split; [done || lia|]). done.
Qed.

Lemma join_prev_spec U D hdr lo l1 q lo' a n fr E : seg U D (hdr + 1) lo l1 q lo' -> bytes_ok D -> U <= len D -> U <= 65536 ->
  hdr + 1 < lo -> 0 <= hdr -> 4 <= n -> a + n <= U -> 0 <= fr <= 3 ->
  (forall e, e ∈ l1 -> e.1 < a) -> (forall y, ind (a, n) y + cov l1 y + cov E y <= 1) -> sizes_ok E ->
  exists s k fr' l1' q' lo1, join_prev hdr D a n (a + n) q fr = Some (Some (s, k, fr')) /\
    s <= a /\ s + k = a + n /\ seg U D (hdr + 1) lo l1' q' lo1 /\ (forall y, ind (s, k) y + cov l1' y + cov E y <= 1) /\
    k + total l1' = n + total l1 + (fr' - fr) /\ fr <= fr' <= 6 /\
    (s = a /\ q' = q /\ l1' = l1 /\ (l1 = [] \/ lo1 <= s) \/ q = s /\ rd2 D q' = s /\ lo1 <= s /\ lo <= s).
Proof.
  intros Hs Hok Hlen HU Hh Hh0 Hn Han Hfr Hl1 Hcov HE. unfold join_prev.
  pose proof (seg_bounds _ _ _ _ _ _ _ Hs) as (Hlo & Hb & [(-> & -> & ->)|(l0 & k & -> & -> & Hq)]).
  { rewrite decide_False by lia. exists a, n, fr, [], (hdr + 1), lo. repeat (split; [done || lia|]). left. auto. }
  rewrite decide_True by lia.
  pose proof Hs as Hs0. apply seg_app in Hs as (p' & lo0 & Hs & Hlast). cbn [seg] in Hlast. destruct Hlast as (H1 & H2 & H3 & H4 & H5 & _ & _).
  cbn [fst snd] in *.
  assert (Hin : (q, k) ∈ l0 ++ [(q, k)]) by (apply elem_of_app; right; apply list_elem_of_here).
  pose proof (Hl1 _ Hin) as Hqa. cbn [fst] in Hqa.
  assert (Hcov' : forall y, ind (q, k) y + ind (a, n) y + cov (l0 ++ E) y <= 1).
  { intros y. specialize (Hcov y). rewrite !cov_app in *. cbn [cov] in Hcov. lia. }
  assert (Hap : q + k <= a) by (destruct (apart q k a n (l0 ++ E) Hcov'); lia).
  rewrite (get2byte_rd D (q + 2)) by (done || lia). cbn [mbind option_bind]. rewrite H3.
  destruct (decide (a <= q + k + 3)) as [Hs3|Hs3].
  - rewrite decide_False by lia. rewrite u16_small by lia. rewrite u8_small by lia.
    exists q, (a + n - q), (fr + (a - (q + k))), l0, p', lo0. split; [done|]. split; [lia|]. split; [lia|]. split; [done|].
    split; [|split; [rewrite total_app; cbn [total snd]; lia|split; [lia|right; auto]]].
    intros y. pose proof (cov_join (l0 ++ E) q k a n Hcov' ltac:(lia) ltac:(lia)) as HJ. rewrite <- Z.add_assoc, <- cov_app.
    apply HJ; [|lia]. apply sizes_app. split; [|done]. apply seg_sizes in Hs0. apply sizes_app in Hs0. apply Hs0.
  - exists a, n, fr, (l0 ++ [(q, k)]), q, (q + k + 4). split; [done|]. split; [done|]. split; [done|]. split; [done|]. split; [done|].
    split; [lia|]. split; [lia|]. left. split; [done|]. split; [done|]. split; [done|]. right. lia.
Qed.

Lemma in_within a b l e : within a b l -> e ∈ l -> a <= e.1 /\ 0 <= e.2 /\ e.1 + e.2 <= b.
Proof. intros H He. by apply (proj1 (Forall_forall _ _) H). Qed.

Lemma in_sizes l e : sizes_ok l -> e ∈ l -> 4 <= e.2.
Proof. intros H He. by apply (proj1 (Forall_forall _ _) H). Qed.

Lemma rd_upd_two D i v j : 0 <= i -> i + 2 <= len D -> ~ (i <= j < i + 2) -> rd (upd D i (two v)) j = rd D j.
Proof. intros. rewrite rd_upd by (rewrite ?len_two; lia). rewrite len_two. by rewrite decide_False. Qed.

Lemma seg_before U D l p lo q lo' e : seg U D p lo l q lo' -> e ∈ l -> e.1 = q \/ e.1 + e.2 + 4 <= q.
Proof.
  intros H He. pose proof (seg_bounds _ _ _ _ _ _ _ H) as (_ & _ & [(-> & _)|(l0 & n & -> & _ & _)]).
  { by apply elem_of_nil in He. }
  apply elem_of_app in He as [He|He]; [|left; apply elem_of_cons in He as [->|He%elem_of_nil]; done].
  right. apply seg_app in H as (p' & lo0 & H & Hl). apply seg_bounds in H as (_ & H & _). specialize (H e He).
  cbn [seg fst] in Hl. lia.
Qed.

(** What [free_prepare] finds: the joined block [s, k), the blocks [l1] before it with the last pointer at [q], and
    the blocks [l2] after it. *)
Record prepared (hdr U : Z) (D : bytes) (E : list (Z * Z)) (a m top s k iPtr next : Z) (D1 : bytes)
    (l1 : list (Z * Z)) (q lo1 : Z) (l2 : list (Z * Z)) : Prop := {
  pr_in : s <= a /\ a + m <= s + k <= U /\ top <= s;
  pr_seg : seg U D (hdr + 1) (top + 1) l1 q lo1;
  pr_l2 : exists r, rd2 D r = next /\ chain U D r (s + k + 4) l2;
  pr_cov y : ind (s, k) y + cov l1 y + cov l2 y + cov E y <= 1;
  pr_frag : rd D1 (hdr + 7) = U - top - total E - k - total l1 - total l2;
  pr_less : rd D1 (hdr + 7) <= rd D (hdr + 7);
  pr_same j : j <> hdr + 7 -> rd D1 j = rd D j;
  pr_ok : bytes_ok D1;
  pr_len : length D1 = length D;
  pr_place : iPtr = q /\ s = a /\ (l1 = [] \/ lo1 <= s) \/ iPtr = s /\ rd2 D q = s /\ lo1 <= s /\ top < s
}.

Section Free.
Context (P : MemPage) (E fs : list (Z * Z)) (a m top : Z).

#[local] Abbreviation hdr := (hdrOffset P).
#[local] Abbreviation U := (usable P).
#[local] Abbreviation D := (aData P).

(** [E] are the other cells of the page, [a, m) the one that is freed. *)
Hypothesis Hhdr : 0 <= hdr.
Hypothesis HU : U <= 65536.
Hypothesis Hok : bytes_ok D.
Hypothesis Hlen : U <= len D.
Hypothesis Htop : hdr + 8 <= top.
Hypothesis Hchain : chain U D (hdr + 1) (top + 1) fs.
Hypothesis Ha : top <= a /\ a + m <= U.
Hypothesis Hm : 4 <= m.
Hypothesis HE : within top U E.
Hypothesis HE4 : sizes_ok E.
Hypothesis Hcov : forall y, ind (a, m) y + cov fs y + cov E y <= 1.
Hypothesis Hfrag : rd D (hdr + 7) = U - top - total E - m - total fs.

Lemma blocks_within l1 l2 s k q lo1 r lo2 : seg U D (hdr + 1) (top + 1) l1 q lo1 -> chain U D r lo2 l2 -> top <= lo2 -> top <= s ->
  4 <= k -> s + k <= U -> within top U (E ++ (s, k) :: l1 ++ l2).
Proof using HE.
  intros H1 H2 Hlo Hs Hk Hsk. apply Forall_app. split; [exact HE|]. apply Forall_cons. split; [cbn; lia|].
  apply Forall_app. split; apply Forall_forall; intros e He.
  - apply seg_bounds in H1 as (_ & H1 & _). specialize (H1 e He). lia.
  - pose proof (chain_bounds _ _ _ _ _ H2 e He). lia.
Qed.

Lemma free_prepare_spec : exists s k iPtr next D1 l1 q lo1 l2,
  free_prepare P a m = Some (Some (s, k, s + k, iPtr, next, D1)) /\ prepared hdr U D E a m top s k iPtr next D1 l1 q lo1 l2.
Proof using Type*.
  unfold free_prepare. rewrite !ld_rd by lia. cbn [mbind option_bind].
  pose proof (rd2_zero D (hdr + 1) Hok) as Hz. destruct fs as [|e l] eqn:Efs.
  { apply chain_nil in Hchain as Hc. rewrite decide_True by (apply Hz in Hc as [? ?]; done).
    exists a, m, (hdr + 1), 0, D, [], (hdr + 1), (top + 1), []. split; [done|].
    split; try done; try lia.
    - exists (hdr + 1). by rewrite chain_nil.
    - intros y. specialize (Hcov y). cbn [cov] in *. lia.
    - cbn [total] in *. lia.
    - left. auto. }
  rewrite <- Efs in *. rewrite decide_False.
  2: { intros [Hz1 Hz2]. rewrite Efs in Hchain. apply chain_cons in Hchain as (H1 & H2 & _).
       assert (rd2 D (hdr + 1) = 0) by (apply Hz; done). lia. }
  destruct (find_place_spec U a fs (length D) D (hdr + 1) (top + 1)) as (l1 & l2 & q & lo' & Hl & Hseg & Hc2 & Hl1 & Hl2 & Ef);
    [done|done|done|lia|lia|lia|lia| |].
  { pose proof (chain_length _ _ _ _ _ Hchain ltac:(lia)) as Hcl. rewrite Efs in Hcl at 1. cbn [length] in Hcl. rewrite Efs. cbn [length]. lia. }
  rewrite Ef. cbn [mbind option_bind].
  pose proof (chain_sizes _ _ _ _ _ Hc2) as Hz2. pose proof (seg_sizes _ _ _ _ _ _ _ Hseg) as Hz1.
  assert (rd2 D q <= U - 4) as Hq4.
  { destruct l2 as [|f l2]; [apply chain_nil in Hc2; lia|]. apply chain_cons in Hc2 as (? & ? & ? & ? & ? & _). lia. }
  rewrite decide_False by lia.
  destruct (join_next_spec U D q lo' l2 a m (l1 ++ E)) as (n & next & fr & l2' & r & Ej & Hn1 & Hn2 & Hr & Hc2' & Hcov2 & Ht2 & Hfr & Hsub);
    [done|done|done|done|lia|done|lia|done| |by apply sizes_app|].
  { intros y. specialize (Hcov y). rewrite Hl, cov_app in Hcov. rewrite cov_app. lia. }
  rewrite Ej. cbn [mbind option_bind].
  destruct (join_prev_spec U D hdr (top + 1) l1 q lo' a n fr (l2' ++ E)) as (s & k & fr' & l1' & q' & lo1 & Ep & Hs & Hsk & Hseg' & Hcov3 & Ht3 & Hfr' & Hpl);
    [done|done|done|done|lia|done|lia|lia|done|done| | |].
  { intros y. specialize (Hcov2 y). rewrite cov_app in *. lia. }
  { apply sizes_app. split; [by apply (chain_sizes _ _ _ _ _ Hc2')|done]. }
  rewrite Ep. cbn [mbind option_bind].
  assert (Hts : top <= s) by (destruct Hpl as [(-> & _)|(-> & _ & _ & ?)]; lia).
  assert (Hcov4 : forall y, ind (s, k) y + cov l1' y + cov l2' y + cov E y <= 1).
  { intros y. specialize (Hcov3 y). rewrite cov_app in Hcov3. lia. }
  assert (Hsum : total E + (k + (total l1' + total l2')) <= U - top).
  { rewrite <- total_app. change (k + total (l1' ++ l2')) with (total ((s, k) :: l1' ++ l2')). rewrite <- total_app.
    apply total_within; [lia|apply (blocks_within l1' l2' s k q' lo1 r (a + n + 4)); try done; lia|].
    intros y. specialize (Hcov4 y). rewrite cov_app. cbn [cov]. rewrite cov_app. lia. }
  assert (Ht : total fs = total l1 + total l2) by (by rewrite Hl, total_app).
  cbn [mbind option_bind]. pose proof (rd_range D (hdr + 7) Hok). rewrite decide_False by lia.
  rewrite u8_small by lia. rewrite st_upd by (cbn [length]; lia). cbn [mbind option_bind].
  eexists s, k, _, next, _, l1', q', lo1, l2'. rewrite Hsk. split; [done|].
  split; try done.
  - lia.
  - exists r. split; [done|]. by rewrite Hsk.
  - rewrite rd_upd_1 by lia. lia.
  - rewrite rd_upd_1 by lia. lia.
  - intros j Hj. rewrite rd_upd by (cbn [length]; lia). rewrite decide_False by (cbn [length]; lia). done.
  - apply bytes_ok_upd; [done|]. apply byte_1. lia.
  - by rewrite length_upd by (cbn [length]; lia).
  - destruct Hpl as [(-> & -> & -> & Hd)|(-> & ? & ? & ?)].
    + left. split; [done|]. split; [done|]. done.
    + right. repeat (split; [done|]). lia.
Qed.

(** The space of the page after the block was given back. *)
Record freed (D' : bytes) (fs' : list (Z * Z)) (top' : Z) : Prop := {
  fr_chain : chain U D' (hdr + 1) (top' + 1) fs';
  fr_top : rd2 D' (hdr + 5) = top' mod 65536;
  fr_ge : top <= top' <= U;
  fr_cov y : cov E y + cov fs' y <= 1;
  fr_within : within top' U E;
  fr_frag : rd D' (hdr + 7) = U - top' - total E - total fs';
  fr_less : rd D' (hdr + 7) <= rd D (hdr + 7);
  fr_ok : bytes_ok D';
  fr_len : length D' = length D;
  fr_same j : (j < top /\ ~ (hdr + 1 <= j < hdr + 3) /\ ~ (hdr + 5 <= j < hdr + 8)) \/ 0 < cov E j -> rd D' j = rd D j
}.

Hypothesis Htop2 : rd2 D (hdr + 5) = top.

Lemma cov_E_range j : 0 < cov E j -> top <= j.
Proof using HE. intros H. apply cov_pos in H as (e & He & Hj). pose proof (in_within _ _ _ _ HE He). lia. Qed.

(** Zeroes in the block, if the database is to be secure. *)
Lemma erase_spec s k D1 : 0 <= s -> 0 <= k -> s + k <= len D1 -> bytes_ok D1 ->
  exists D2, (if decide (Z.land (btsFlags (pBt P)) BTS_FAST_SECURE <> 0) then memset D1 s 0 k else Some D1) = Some D2 /\
    bytes_ok D2 /\ length D2 = length D1 /\ (forall j, ~ (s <= j < s + k) -> rd D2 j = rd D1 j).
Proof using Type.
  intros Hs Hk Hsk Hok1. case_decide; [|by exists D1]. unfold memset. rewrite decide_True by done.
  assert (Hlr : len (replicate (Z.to_nat k) (u8 0)) = k) by (rewrite length_replicate; lia).
  rewrite st_upd by lia. eexists. split; [done|]. split; [by apply bytes_ok_upd, bytes_ok_replicate|].
  split; [by apply length_upd; lia|]. intros j Hj. rewrite rd_upd by lia. by rewrite decide_False by lia.
Qed.

Section Write.
Context (s k iPtr next : Z) (D1 D2 : bytes) (l1 : list (Z * Z)) (q lo1 : Z) (l2 : list (Z * Z)).
Hypothesis Hp : prepared hdr U D E a m top s k iPtr next D1 l1 q lo1 l2.
Lemma block_range : 8 <= s /\ 4 <= k /\ s + k <= U /\ top <= s /\ 0 <= next < 65536.
Proof using Hp Hhdr Htop Hm HU Hlen Hok.
  destruct Hp as [(H1 & H2 & H3) _ (r & <- & _) _ _ _ _ _ _ _]. pose proof (rd2_range D r Hok). lia.
Qed.

Hypothesis Hok2 : bytes_ok D2.
Hypothesis Hlen2 : length D2 = length D1.
Hypothesis Hrd2 : forall j, ~ (s <= j < s + k) -> rd D2 j = rd D1 j.

Lemma free_at_top : s = top ->
  freed (upd (upd D2 (hdr + 1) (two next)) (hdr + 5) (two (s + k))) l2 (s + k) /\ iPtr = hdr + 1.
Proof using Type*.
  intros Hs. pose proof block_range as (R1 & R2 & R3 & R4 & R5).
  destruct Hp as [Hin Hseg (r & Hr & Hc2) Hcv Hfr Hless Hsame Hok1 Hl1 Hpl].
  destruct Hpl as [(-> & -> & Hl)|(_ & _ & _ & ?)]; [|lia].
  assert (l1 = []) as -> by (destruct Hl as [?|?]; [done|apply seg_bounds in Hseg; lia]).
  destruct Hseg as [-> ->]. split; [|done].
  set (D4 := upd (upd D2 (hdr + 1) (two next)) (hdr + 5) (two (a + k))).
  assert (Hl4 : len (upd D2 (hdr + 1) (two next)) = len D) by (rewrite length_upd by (rewrite ?len_two; lia); lia).
  assert (Hrd : forall j, ~ (hdr + 1 <= j < hdr + 3) -> ~ (hdr + 5 <= j < hdr + 7) -> ~ (a <= j < a + k) -> rd D4 j = rd D1 j).
  { intros j Hj1 Hj2 Hj3. unfold D4. rewrite !rd_upd by (rewrite ?len_two; lia). rewrite !len_two. rewrite !decide_False by lia. by apply Hrd2. }
  split.
  - apply (chain_lower _ _ _ (a + k + 4)); [|lia]. apply (chain_frame U D D4 r); [done| |].
    + unfold D4. rewrite rd2_upd by (rewrite ?len_two; lia). rewrite rd2_upd_two by lia. rewrite Z.mod_small by lia. done.
    + intros e He. pose proof (chain_bounds _ _ _ _ _ Hc2 e He). unfold rd2. rewrite !Hrd by lia. by rewrite !Hsame by lia.
  - unfold D4. rewrite rd2_upd_two by lia. done.
  - lia.
  - intros y. specialize (Hcv y). cbn [cov] in Hcv. pose proof (ind_range (a, k) y). lia.
  - apply Forall_forall. intros e He. pose proof (in_within _ _ _ _ HE He). pose proof (in_sizes _ _ HE4 He). split; [|lia].
    destruct (decide (e.1 < a + k)); [|lia]. specialize (Hcv e.1). rewrite (ind_in a k) in Hcv by lia.
    pose proof (cov_in E e e.1 He) as Hce. destruct e as [e1 e2]. cbn [fst snd] in *. rewrite ind_in in Hce by lia.
    cbn [cov] in Hcv. pose proof (cov_nonneg l2 e1). lia.
  - rewrite Hrd by lia. cbn [total] in Hfr. lia.
  - rewrite Hrd by lia. lia.
  - repeat apply bytes_ok_upd; try done; apply two_ok.
  - unfold D4. rewrite length_upd by (rewrite ?len_two; lia). lia.
  - intros j Hj. assert (Hja : ~ (a <= j < a + k)).
    { intros Hj'. destruct Hj as [Hj|Hj]; [lia|]. specialize (Hcv j). rewrite (ind_in a k) in Hcv by lia.
      pose proof (cov_nonneg l2 j). cbn [cov] in Hcv. lia. }
    assert (Hjh : ~ (hdr + 1 <= j < hdr + 3) /\ ~ (hdr + 5 <= j < hdr + 8)).
    { destruct Hj as [Hj|Hj]; [tauto|]. apply cov_E_range in Hj. lia. }
    rewrite Hrd by lia. apply Hsame. lia.
Qed.

Lemma free_in_chain : top < s ->
  freed (upd (upd (upd D2 iPtr (two s)) s (two next)) (s + 2) (two k)) (l1 ++ (s, k) :: l2) top.
Proof using Type*.
  intros Hs. pose proof block_range as (R1 & R2 & R3 & R4 & R5).
  destruct Hp as [Hin Hseg (r & Hr & Hc2) Hcv Hfr Hless Hsame Hok1 Hl1 Hpl].
  pose proof (seg_bounds _ _ _ _ _ _ _ Hseg) as (Hlo1 & Hb1 & Hq).
  assert (Hq2 : lo1 <= s /\ 0 <= q /\ q + 2 <= s /\ (l1 = [] /\ q = hdr + 1 \/ top < q /\ exists n, (q, n) ∈ l1)).
  { destruct Hq as [(Hnil & Hqq & Hlo)|(l0 & n & Hl & -> & Hqq)].
    - rewrite Hlo, Hqq. split; [lia|]. split; [lia|]. split; [lia|]. by left.
    - assert (Hin' : (q, n) ∈ l1) by (rewrite Hl; apply elem_of_app; right; apply list_elem_of_here).
      specialize (Hb1 _ Hin'). cbn [fst snd] in Hb1.
      assert (q + n + 4 <= s) by (destruct Hpl as [(_ & _ & [Hnil|?])|(_ & _ & ? & _)]; [by rewrite Hnil in Hin'; apply elem_of_nil in Hin'|done|done]).
      split; [lia|]. split; [lia|]. split; [lia|]. right. split; [lia|]. by exists n. }
  destruct Hq2 as (Hlos & Hq0 & Hqs & Hqc).
  set (D3 := upd D2 iPtr (two s)). set (D4 := upd D3 s (two next)). set (D5 := upd D4 (s + 2) (two k)).
  assert (Hip : 0 <= iPtr /\ iPtr + 2 <= s + 2) by (destruct Hpl as [(-> & _)|(-> & _)]; lia).
  assert (Hl3 : len D3 = len D) by (unfold D3; rewrite length_upd by (rewrite ?len_two; lia); lia).
  assert (Hl4 : len D4 = len D) by (unfold D4; rewrite length_upd by (rewrite ?len_two; lia); lia).
  assert (Hw : forall j, ~ (iPtr <= j < iPtr + 2) -> ~ (s <= j < s + 4) -> rd D5 j = rd D2 j).
  { intros j Hj1 Hj2. unfold D5. rewrite rd_upd_two by lia. unfold D4. rewrite rd_upd_two by lia.
    unfold D3. by rewrite rd_upd_two by lia. }
  assert (Hrd : forall j, j <> hdr + 7 -> ~ (q <= j < q + 2) -> ~ (s <= j < s + k) -> rd D5 j = rd D j).
  { intros j Hj1 Hj2 Hj3. assert (~ (iPtr <= j < iPtr + 2)) by (destruct Hpl as [(-> & _)|(-> & _)]; lia).
    rewrite Hw by lia. rewrite Hrd2 by lia. by apply Hsame. }
  assert (Hr2 : forall j, j + 2 <= hdr + 7 \/ hdr + 8 <= j -> j + 2 <= q \/ q + 2 <= j -> j + 2 <= s \/ s + k <= j -> rd2 D5 j = rd2 D j).
  { intros j Hj1 Hj2 Hj3. unfold rd2. by rewrite !Hrd by lia. }
  assert (Hq5 : rd2 D5 q = s).
  { unfold D5. rewrite rd2_upd by (rewrite ?len_two; lia). unfold D4. rewrite rd2_upd by (rewrite ?len_two; lia). destruct Hpl as [(-> & -> & _)|(-> & Hqs' & _)].
    - unfold D3. rewrite rd2_upd_two by lia. rewrite Z.mod_small by lia. done.
    - unfold D3. rewrite rd2_upd by (rewrite ?len_two; lia). unfold rd2. rewrite !Hrd2 by lia.
      rewrite !Hsame by (destruct Hqc as [(_ & ->)|(? & _)]; lia). exact Hqs'. }
  split.
  - apply chain_app. exists q, lo1. split.
    + apply (seg_frame U D); [done| |].
      * intros Hne. destruct Hqc as [(? & _)|(? & _)]; [done|]. apply Hr2; lia.
      * intros e He. specialize (Hb1 e He). destruct (seg_before _ _ _ _ _ _ _ e Hseg He) as [Heq|Hlt].
        -- split; [apply Hr2; lia|done].
        -- split; [|intros _]; apply Hr2; lia.
    + apply chain_cons. cbn [fst snd]. split; [done|]. split; [done|].
      split. { unfold D5. rewrite rd2_upd_two by lia. rewrite Z.mod_small by lia. done. }
      split; [done|]. split; [done|]. apply (chain_frame U D D5 r); [done| |].
      * unfold D5. rewrite rd2_upd by (rewrite ?len_two; lia). unfold D4. rewrite rd2_upd_two by lia. rewrite Z.mod_small by lia. done.
      * intros e He. pose proof (chain_bounds _ _ _ _ _ Hc2 e He). split; apply Hr2; lia.
  - rewrite Hr2 by (destruct Hqc as [(_ & ->)|(? & _)]; lia). rewrite Htop2, Z.mod_small by lia. done.
  - lia.
  - intros y. specialize (Hcv y). rewrite cov_app. cbn [cov]. lia.
  - exact HE.
  - rewrite total_app. cbn [total snd]. transitivity (rd D1 (hdr + 7)); [|lia].
    assert (~ (iPtr <= hdr + 7 < iPtr + 2)) by (destruct Hpl as [(-> & _)|(-> & _)]; [destruct Hqc as [(_ & ->)|(? & _)]|]; lia).
    rewrite Hw by lia. by rewrite Hrd2 by lia.
  - transitivity (rd D1 (hdr + 7)); [|done].
    assert (~ (iPtr <= hdr + 7 < iPtr + 2)) by (destruct Hpl as [(-> & _)|(-> & _)]; [destruct Hqc as [(_ & ->)|(? & _)]|]; lia).
    rewrite Hw by lia. rewrite Hrd2 by lia. done.
  - repeat apply bytes_ok_upd; try done; apply two_ok.
  - unfold D5. rewrite length_upd by (rewrite ?len_two; lia). lia.
  - intros j Hj. assert (Hjs : ~ (s <= j < s + k)).
    { intros Hj'. destruct Hj as [Hj|Hj]; [lia|]. specialize (Hcv j). rewrite (ind_in s k) in Hcv by lia.
      pose proof (cov_nonneg l2 j). pose proof (cov_nonneg l1 j). lia. }
    apply Hrd; [| |done].
    + destruct Hj as [Hj|Hj]; [lia|]. apply cov_E_range in Hj. lia.
    + intros Hjq. destruct Hqc as [(_ & ->)|(Hq' & n & Hn)].
      { destruct Hj as [Hj|Hj]; [lia|]. apply cov_E_range in Hj. lia. }
      destruct Hj as [Hj|Hj]; [lia|]. pose proof (cov_in l1 (q, n) j Hn) as Hc. specialize (Hb1 _ Hn). cbn [fst snd] in Hb1.
      rewrite ind_in in Hc by lia. specialize (Hcv j). pose proof (ind_range (s, k) j). pose proof (cov_nonneg l2 j). lia.
Qed.
End Write.

Lemma freeSpace_spec : exists D' fs' top',
  freeSpace P a m = Some (SQLITE_OK, set_nFree (nFree P + m) (set_aData D' P)) /\ freed D' fs' top'.
Proof using Type*.
  destruct free_prepare_spec as (s & k & iPtr & next & D1 & l1 & q & lo1 & l2 & E1 & Hp).
  unfold freeSpace. unfold check. rewrite decide_True by done. cbn [mbind option_bind]. rewrite E1. cbn [mbind option_bind].
  pose proof (block_range s k iPtr next D1 l1 q lo1 l2 Hp) as (R1 & R2 & R3 & R4 & R5).
  pose proof (pr_ok _ _ _ _ _ _ _ _ _ _ _ _ _ _ _ _ Hp) as Hok1. pose proof (pr_len _ _ _ _ _ _ _ _ _ _ _ _ _ _ _ _ Hp) as Hl1.
  rewrite get2byte_rd by (done || lia). cbn [mbind option_bind].
  assert (rd2 D1 (hdr + 5) = top) as ->.
  { rewrite <- Htop2. unfold rd2. by rewrite !(pr_same _ _ _ _ _ _ _ _ _ _ _ _ _ _ _ _ Hp) by lia. }
  destruct (erase_spec s k D1) as (D2 & -> & Hok2 & Hl2 & Hrd2); [lia|lia|lia|done|]. cbn [mbind option_bind].
  destruct (decide (s = top)) as [Hs|Hs].
  - destruct (free_at_top s k iPtr next D1 D2 l1 q lo1 l2 Hp Hok2 Hl2 Hrd2 Hs) as [Hf Hi].
    rewrite decide_True by lia. rewrite decide_False by lia.
    assert (Hl4 : len (upd D2 (hdr + 1) (two next)) = len D) by (rewrite length_upd by (rewrite ?len_two; lia); lia).
    rewrite put2byte_upd by lia. cbn [mbind option_bind]. rewrite put2byte_upd by lia. eauto 10.
  - pose proof (free_in_chain s k iPtr next D1 D2 l1 q lo1 l2 Hp Hok2 Hl2 Hrd2 ltac:(lia)) as Hf.
    rewrite decide_False by lia.
    assert (Hip : 0 <= iPtr /\ iPtr + 2 <= s + 2).
    { destruct Hp as [_ Hseg _ _ _ _ _ _ _ [(-> & _ & Hd)|(-> & _)]]; [|lia].
      pose proof (seg_bounds _ _ _ _ _ _ _ Hseg) as (_ & _ & [(_ & -> & _)|(l0 & n & -> & -> & ?)]); [lia|].
      destruct Hd as [Hd|Hd]; [by destruct l0|]. apply seg_sizes in Hseg. apply sizes_app in Hseg as [_ Hz].
      apply Forall_cons in Hz as [Hz _]. cbn in Hz. lia. }
    assert (Hl3 : len (upd D2 iPtr (two s)) = len D) by (rewrite length_upd by (rewrite ?len_two; lia); lia).
    assert (Hl4 : len (upd (upd D2 iPtr (two s)) s (two next)) = len D) by (rewrite length_upd by (rewrite ?len_two; lia); lia).
    rewrite put2byte_upd by lia. cbn [mbind option_bind]. rewrite put2byte_upd by lia. cbn [mbind option_bind].
    rewrite put2byte_upd by lia. eauto 10.
Qed.
End Free.
