(* ===== verification/SqlPageOk.v ===== *)
(** * Pages in order

    The invariant of a page of [SqlPage] and the compaction of its cells. *)

From S2P Require Import Prelude Bits SqlVarint SqlBytes SqlCell SqlPage SqlPageSpace SqlPageFree.

(** ** The size of a cell depends on the cell only *)

Lemma lookup_prefix (c r : bytes) i b : c !! i = Some b -> (c ++ r) !! i = Some b.
Proof. apply lookup_app_l_Some. Qed.

Lemma tail_prefix (c r : bytes) b : c !! 0%nat = Some b -> tail (c ++ r) = tail c ++ r.
Proof. by destruct c. Qed.

Lemma payload_loop_prefix r k : forall n used c v, payload_loop k n used c = Some v -> c <> [] -> payload_loop k n used (c ++ r) = Some v.
Proof.
  induction k as [|k IH]; intros n used c v; cbn [payload_loop]; [done|]. intros H Hne.
  destruct (c !! 1%nat) as [b|] eqn:E; cbn [mbind option_bind] in H; [|done].
  rewrite (lookup_prefix c r _ b E). cbn [mbind option_bind]. destruct c as [|x c]; [done|]. cbn [app tail] in *.
  case_decide; [|done]. apply IH; [done|]. by destruct c.
Qed.

Lemma payload_size_prefix c r v : payload_size c = Some v -> payload_size (c ++ r) = Some v.
Proof.
  unfold payload_size. intros H. destruct (c !! 0%nat) as [b|] eqn:E; cbn [mbind option_bind] in H; [|done].
  rewrite (lookup_prefix c r _ b E). cbn [mbind option_bind]. case_decide; [|done].
  destruct (payload_loop _ _ _ c) as [w|] eqn:El; cbn [mbind option_bind] in H; [|done].
  rewrite (payload_loop_prefix r _ _ _ _ _ El); [done|]. by destruct c.
Qed.

Lemma skip_to_end_prefix r k : forall used c v, skip_to_end k used c = Some v -> skip_to_end k used (c ++ r) = Some v.
Proof.
  induction k as [|k IH]; intros used c v; cbn [skip_to_end]; intros H;
    (destruct (c !! 0%nat) as [b|] eqn:E; cbn [mbind option_bind] in H; [|done]); rewrite (lookup_prefix c r _ b E); cbn [mbind option_bind]; [done|].
  case_decide; [|done]. rewrite (tail_prefix c r b E). by apply IH.
Qed.

Lemma skip_key_prefix r k : forall used c v, skip_key k used c = Some v -> skip_key k used (c ++ r) = Some v.
Proof.
  induction k as [|k IH]; intros used c v; cbn [skip_key]; intros H; [done|].
  destruct (c !! 0%nat) as [b|] eqn:E; cbn [mbind option_bind] in H; [|done]. rewrite (lookup_prefix c r _ b E). cbn [mbind option_bind].
  case_decide; [|done]. rewrite (tail_prefix c r b E). by apply IH.
Qed.

(** The first [k] bytes can be dropped before or after something is appended, unless nothing is left. *)
Lemma drop_prefix (c r : bytes) k b i : drop k c !! i = Some b -> drop k (c ++ r) = drop k c ++ r.
Proof. intros H. apply drop_app_le. apply lookup_lt_Some in H. rewrite length_drop in H. lia. Qed.

Lemma skip_head k used c v : skip_to_end k used c = Some v -> exists b, c !! 0%nat = Some b.
Proof. destruct k; cbn [skip_to_end]; destruct (c !! 0%nat) as [b|]; [eauto|done|eauto|done]. Qed.

Lemma cellSize_prefix P c r n : cellSize_of P c = Some n -> cellSize_of P (c ++ r) = Some n.
Proof.
  unfold cellSize_of. destruct (xCellSize P).
  - destruct (payload_size (drop 4 c)) as [[m u]|] eqn:E; cbn [mbind option_bind]; [|done]. intros H.
    assert (exists b, drop 4 c !! 0%nat = Some b) as [b Hb].
    { unfold payload_size in E. destruct (drop 4 c !! 0%nat) as [b|]; [eauto|done]. }
    rewrite (drop_prefix _ _ _ _ _ Hb), (payload_size_prefix _ _ _ E). done.
  - destruct (payload_size c) as [[m u]|] eqn:E; cbn [mbind option_bind]; [|done]. by rewrite (payload_size_prefix _ _ _ E).
  - destruct (skip_to_end 8 0 (drop 4 c)) as [m|] eqn:E; cbn [mbind option_bind]; [|done]. intros H.
    destruct (skip_head _ _ _ _ E) as [b Hb]. rewrite (drop_prefix _ _ _ _ _ Hb), (skip_to_end_prefix _ _ _ _ _ E). done.
  - destruct (payload_size c) as [[m u]|] eqn:E; cbn [mbind option_bind]; [|done]. rewrite (payload_size_prefix _ _ _ E). cbn [mbind option_bind].
    destruct (skip_key 8 0 (drop (Z.to_nat u) c)) as [k|] eqn:Ek; cbn [mbind option_bind]; [|done]. intros H.
    assert (exists b, drop (Z.to_nat u) c !! 0%nat = Some b) as [b Hb].
    { cbn [skip_key] in Ek. destruct (drop (Z.to_nat u) c !! 0%nat) as [b|]; [eauto|done]. }
    rewrite (drop_prefix _ _ _ _ _ Hb), (skip_key_prefix _ _ _ _ _ Ek). done.
Qed.

(** A cell somewhere in a buffer has its size. *)
Lemma cellSize_at P D pc c : 0 <= pc -> pc + len c <= len D -> sub D pc (len c) = c -> cellSize_of P c = Some (len c) ->
  cellSize_of P (drop (Z.to_nat pc) D) = Some (len c).
Proof.
  intros H1 H2 E Hc. rewrite <- (take_drop (length c) (drop (Z.to_nat pc) D)). unfold sub in E. rewrite Nat2Z.id in E. rewrite E.
  by apply cellSize_prefix.
Qed.

(** ** The invariant

    [cs] are the cells in the order of their pointers, with their offsets, [fs] the free blocks, [top] the start of the cell content
    area, [X] extents that are taken but hold no cell yet. *)

Definition ext (c : Z * bytes) : Z * Z := (c.1, len c.2).

Abbreviation exts cs := (ext <$> (cs : list (Z * bytes))).

Record page_ok (P : MemPage) (X : list (Z * Z)) (cs : list (Z * bytes)) (fs : list (Z * Z)) (top : Z) : Prop := {
  pk_hdr : hdrOffset P = 0 \/ hdrOffset P = 100;
  pk_child : childPtrSize P = 0 \/ childPtrSize P = 4;
  pk_offset : cellOffset P = hdrOffset P + 8 + childPtrSize P;
  pk_usable : 480 <= usable P <= 65536;
  pk_len : usable P <= len (aData P) <= 65536;
  pk_ok : bytes_ok (aData P);
  pk_kind : decodeFlags P (rd (aData P) (hdrOffset P)) = (SQLITE_OK, P);
  pk_n : nCell P = Z.of_nat (length cs);
  pk_count : rd2 (aData P) (hdrOffset P + 3) = nCell P;
  pk_top : rd2 (aData P) (hdrOffset P + 5) = top mod 65536;
  pk_gap : cellOffset P + 2 * nCell P <= top <= usable P;
  pk_ptr i c : cs !! i = Some c -> rd2 (aData P) (cellOffset P + 2 * Z.of_nat i) = c.1;
  pk_cell c : c ∈ cs -> top <= c.1 /\ c.1 + len c.2 <= usable P /\ 4 <= len c.2 /\
                sub (aData P) c.1 (len c.2) = c.2 /\ cellSize_of P c.2 = Some (len c.2);
  pk_chain : chain (usable P) (aData P) (hdrOffset P + 1) (top + 1) fs;
  pk_cov y : cov X y + cov (exts cs) y + cov fs y <= 1;
  pk_frag : rd (aData P) (hdrOffset P + 7) = usable P - top - total X - total (exts cs) - total fs;
  pk_60 : rd (aData P) (hdrOffset P + 7) <= 60;
  pk_empty : cs = [] -> X = [] -> top = usable P;
  pk_free : nFree P = usable P - (cellOffset P + 2 * nCell P) - total (exts cs);
  pk_ovfl : apOvfl P = [];
  pk_init : isInit P = true;
  pk_mask : maskPage P = u16 (pageSize (pBt P) - 1);
  pk_page : len (aData P) = pageSize (pBt P) /\ exists k, 9 <= k <= 16 /\ pageSize (pBt P) = 2 ^ k
}.

Lemma exts_in (cs : list (Z * bytes)) e : e ∈ exts cs -> exists c, c ∈ cs /\ e = ext c.
Proof. intros H. apply list_elem_of_fmap in H as (c & -> & Hc). eauto. Qed.

Lemma cell_sizes P X cs fs top : page_ok P X cs fs top -> sizes_ok (exts cs).
Proof. intros H. apply Forall_forall. intros e (c & Hc & ->)%exts_in. apply (pk_cell _ _ _ _ _ H) in Hc. cbn. lia. Qed.

Lemma cells_within P X cs fs top : page_ok P X cs fs top -> within top (usable P) (exts cs).
Proof. intros H. apply Forall_forall. intros e (c & Hc & ->)%exts_in. apply (pk_cell _ _ _ _ _ H) in Hc. cbn. lia. Qed.

Lemma in_exts (c : Z * bytes) (cs : list (Z * bytes)) : c ∈ cs -> ext c ∈ exts cs.
Proof. intros H. apply list_elem_of_fmap. eauto. Qed.

Lemma cov_cell (c : Z * bytes) cs j : c ∈ cs -> c.1 <= j < c.1 + len c.2 -> 0 < cov (exts cs) j.
Proof.
  intros Hc Hj. pose proof (cov_in (exts cs) (ext c) j (in_exts c cs Hc)) as H. unfold ext in H at 1.
  rewrite ind_in in H by done. lia.
Qed.

(** The kind of a page does not depend on its space. *)
Lemma decode_aData d P f : decodeFlags (set_aData d P) f = (fst (decodeFlags P f), set_aData d (snd (decodeFlags P f))).
Proof. unfold decodeFlags. by repeat case_decide. Qed.

Lemma decode_nFree n P f : decodeFlags (set_nFree n P) f = (fst (decodeFlags P f), set_nFree n (snd (decodeFlags P f))).
Proof. unfold decodeFlags. by repeat case_decide. Qed.

Lemma decode_nCell n P f : decodeFlags (set_nCell n P) f = (fst (decodeFlags P f), set_nCell n (snd (decodeFlags P f))).
Proof. unfold decodeFlags. by repeat case_decide. Qed.

(** The bytes that make up the header without the space, the pointers and the cells. *)
Definition kept_byte (P : MemPage) (cs : list (Z * bytes)) (top j : Z) : Prop :=
  (j < top /\ ~ (hdrOffset P + 1 <= j < hdrOffset P + 3) /\ ~ (hdrOffset P + 5 <= j < hdrOffset P + 8)) \/ 0 < cov (exts cs) j.

Lemma kept_cells P X cs fs top D' c : page_ok P X cs fs top -> length D' = length (aData P) ->
  (forall j, kept_byte P cs top j -> rd D' j = rd (aData P) j) -> c ∈ cs -> sub D' c.1 (len c.2) = c.2.
Proof.
  intros H Hl Hs Hc. pose proof (pk_cell _ _ _ _ _ H c Hc) as (H1 & H2 & H3 & H4 & _).
  pose proof (pk_gap _ _ _ _ _ H). pose proof (pk_offset _ _ _ _ _ H). pose proof (pk_hdr _ _ _ _ _ H). pose proof (pk_child _ _ _ _ _ H).
  pose proof (pk_len _ _ _ _ _ H). pose proof (pk_n _ _ _ _ _ H).
  apply sub_is; [lia|lia|]. intros j Hj. rewrite Hs; [|right; apply (cov_cell c); [done|lia]].
  by apply rd_of_sub; [lia|done|lia].
Qed.

(** The bytes of the space change, the cells stay where they are. *)
Lemma page_update P X cs fs top D' X' fs' top' : page_ok P X cs fs top -> length D' = length (aData P) -> bytes_ok D' ->
  (forall j, kept_byte P cs top j -> rd D' j = rd (aData P) j) ->
  chain (usable P) D' (hdrOffset P + 1) (top' + 1) fs' -> rd2 D' (hdrOffset P + 5) = top' mod 65536 ->
  cellOffset P + 2 * nCell P <= top' <= usable P -> within top' (usable P) (exts cs) ->
  (forall y, cov X' y + cov (exts cs) y + cov fs' y <= 1) ->
  rd D' (hdrOffset P + 7) = usable P - top' - total X' - total (exts cs) - total fs' -> rd D' (hdrOffset P + 7) <= 60 ->
  (cs = [] -> X' = [] -> top' = usable P) -> page_ok (set_aData D' P) X' cs fs' top'.
Proof.
  intros H Hl Hok Hs Hc Ht Hg Hw Hcov Hf H60 He.
  pose proof (pk_gap _ _ _ _ _ H). pose proof (pk_offset _ _ _ _ _ H). pose proof (pk_hdr _ _ _ _ _ H). pose proof (pk_child _ _ _ _ _ H).
  pose proof (pk_n _ _ _ _ _ H).
  assert (Hlow : forall j, j < top -> j = hdrOffset P \/ j = hdrOffset P + 3 \/ j = hdrOffset P + 4 \/ hdrOffset P + 8 <= j -> rd D' j = rd (aData P) j).
  { intros j Hj1 Hj2. apply Hs. left. lia. }
  split; cbn [set_aData hdrOffset childPtrSize cellOffset aData nCell nFree apOvfl isInit maskPage pBt]; try done.
  - by apply (pk_usable _ _ _ _ _ H).
  - rewrite Hl. by apply (pk_len _ _ _ _ _ H).
  - rewrite Hlow by lia. by rewrite decode_aData, (pk_kind _ _ _ _ _ H).
  - rewrite <- (pk_count _ _ _ _ _ H). apply rd2_ext; apply Hlow; lia.
  - intros i c Hi. rewrite <- (pk_ptr _ _ _ _ _ H i c Hi). apply lookup_lt_Some in Hi. apply rd2_ext; apply Hlow; lia.
  - intros c Hc'. pose proof (pk_cell _ _ _ _ _ H c Hc') as (H1' & H2' & H3' & H4' & H5').
    split; [|split; [done|split; [done|split; [by apply (kept_cells P X cs fs top)|done]]]].
    pose proof (in_within _ _ _ (ext c) Hw (in_exts c cs Hc')) as Hw'. cbn in Hw'. lia.
  - by apply (pk_free _ _ _ _ _ H).
  - by apply (pk_ovfl _ _ _ _ _ H).
  - by apply (pk_init _ _ _ _ _ H).
  - by apply (pk_mask _ _ _ _ _ H).
  - rewrite Hl. by apply (pk_page _ _ _ _ _ H).
Qed.

(** ** Compaction

    The cells are packed downwards from [b]. *)

Fixpoint place (b : Z) (cs : list (Z * bytes)) : list (Z * bytes) :=
  match cs with [] => [] | c :: cs => (b - len c.2, c.2) :: place (b - len c.2) cs end.

Lemma place_length cs : forall b, length (place b cs) = length cs.
Proof. induction cs as [|c cs IH]; intros b; cbn; [done|by rewrite IH]. Qed.

Lemma place_contents cs : forall b, (place b cs).*2 = cs.*2.
Proof. induction cs as [|c cs IH]; intros b; cbn; [done|by rewrite IH]. Qed.

Lemma total_cons (c : Z * bytes) cs : total (exts (c :: cs)) = len c.2 + total (exts cs).
Proof. done. Qed.

Lemma cov_cons (c : Z * bytes) cs y : cov (exts (c :: cs)) y = ind (c.1, len c.2) y + cov (exts cs) y.
Proof. done. Qed.

Lemma place_total cs : forall b, total (exts (place b cs)) = total (exts cs).
Proof. induction cs as [|c cs IH]; intros b; cbn [place]; [done|]. by rewrite !total_cons, IH. Qed.

Lemma total_nonneg (cs : list (Z * bytes)) : 0 <= total (exts cs).
Proof. induction cs as [|c cs IH]; [done|]. rewrite total_cons. lia. Qed.

Lemma place_cov cs : forall b y, cov (exts (place b cs)) y = ind (b - total (exts cs), total (exts cs)) y.
Proof.
  induction cs as [|c cs IH]; intros b y.
  - cbn. rewrite ind_out by lia. done.
  - cbn [place]. rewrite cov_cons, total_cons, IH. cbn [fst snd]. pose proof (total_nonneg cs).
    unfold ind. cbn [fst snd]. repeat case_decide; lia.
Qed.

Lemma place_range cs : forall b c, c ∈ place b cs -> b - total (exts cs) <= c.1 /\ c.1 + len c.2 <= b.
Proof.
  induction cs as [|x cs IH]; intros b c Hc; cbn [place] in Hc; [by apply elem_of_nil in Hc|].
  rewrite total_cons. pose proof (total_nonneg cs).
  apply elem_of_cons in Hc as [->|Hc]; cbn [fst snd]; [lia|]. apply IH in Hc. lia.
Qed.

Section Pack.
Context (P : MemPage) (src : bytes) (start : Z).
Hypothesis Hsok : bytes_ok src.

#[local] Abbreviation U := (usable P).
#[local] Abbreviation co := (cellOffset P).

(** What is known of the cells that are still to be moved. *)
Definition movable (c : Z * bytes) : Prop :=
  0 <= c.1 /\ c.1 + len c.2 <= U /\ 4 <= len c.2 /\ sub src c.1 (len c.2) = c.2 /\ cellSize_of P c.2 = Some (len c.2).

Lemma pack_cells_spec cs : forall i cbrk data, bytes_ok data -> U <= len data -> U <= 65536 -> len src = U -> 0 <= i -> 0 <= co ->
  (forall k c, cs !! k = Some c -> rd2 data (co + 2 * (i + Z.of_nat k)) = c.1) -> Forall movable cs ->
  total (exts cs) <= cbrk - start -> cbrk <= U -> co + 2 * (i + Z.of_nat (length cs)) <= start ->
  exists data', pack_cells P src start (length cs) i cbrk data = Some (SQLITE_OK, cbrk - total (exts cs), data') /\
    bytes_ok data' /\ length data' = length data /\
    (forall k c, place cbrk cs !! k = Some c -> rd2 data' (co + 2 * (i + Z.of_nat k)) = c.1) /\
    (forall c, c ∈ place cbrk cs -> sub data' c.1 (len c.2) = c.2) /\
    (forall j, ~ (co + 2 * i <= j < co + 2 * (i + Z.of_nat (length cs))) -> ~ (cbrk - total (exts cs) <= j < cbrk) -> rd data' j = rd data j).
Proof.
  induction cs as [|[pc c] cs IH]; intros i cbrk data Hok Hlen HU Hsrc Hi Hco Hptr Hmov Htot Hcb Hst.
  { exists data. change (total (exts [])) with 0. cbn [length pack_cells place]. rewrite Z.sub_0_r. repeat (split; [done|]).
    split; [|done]. intros d Hd. by apply elem_of_nil in Hd. }
  apply Forall_cons in Hmov as [(M1 & M2 & M3 & M4 & M5) Hmov]. cbn [fst snd] in *.
  rewrite total_cons in *. cbn [snd] in *. pose proof (total_nonneg cs) as Hnn. cbn [length pack_cells].
  pose proof (Hptr O (pc, c) eq_refl) as Hp0. cbn [fst] in Hp0. cbn [length] in Hst.
  rewrite get2byte_rd by (done || lia). cbn [mbind option_bind].
  replace (co + i * 2) with (co + 2 * (i + Z.of_nat 0)) by lia. rewrite Hp0.
  rewrite decide_False by lia. rewrite (cellSize_at P src pc c) by (done || lia). cbn [mbind option_bind].
  rewrite decide_False by lia. rewrite put2byte_upd by lia. cbn [mbind option_bind].
  rewrite slice_sub by lia. cbn [mbind option_bind]. rewrite M4.
  set (d1 := upd data (co + 2 * (i + Z.of_nat 0)) (two (cbrk - len c))).
  assert (Hl1 : length d1 = length data) by (unfold d1; apply length_upd; rewrite ?len_two; lia).
  rewrite st_upd by lia. cbn [mbind option_bind]. set (d2 := upd d1 (cbrk - len c) c).
  assert (Hl2 : length d2 = length data) by (unfold d2; rewrite length_upd by lia; done).
  assert (Hcok : bytes_ok c).
  { rewrite <- M4. by apply bytes_ok_sub. }
  assert (Hok2 : bytes_ok d2) by (apply bytes_ok_upd; [apply bytes_ok_upd; [done|apply two_ok]|done]).
  assert (Hrd : forall j, ~ (co + 2 * i <= j < co + 2 * i + 2) -> ~ (cbrk - len c <= j < cbrk) -> rd d2 j = rd data j).
  { intros j Hj1 Hj2. unfold d2. rewrite rd_upd by lia. rewrite decide_False by lia. unfold d1. by rewrite rd_upd_two by lia. }
  destruct (IH (i + 1) (cbrk - len c) d2) as (d' & E & Hok' & Hl' & Hp' & Hc' & Hs'); try done; try lia.
  { intros k x Hk. rewrite <- (Hptr (S k) x) by done. pose proof (lookup_lt_Some _ _ _ Hk).
    rewrite Nat2Z.inj_succ. replace (i + 1 + Z.of_nat k) with (i + Z.succ (Z.of_nat k)) by lia. unfold rd2. by rewrite !Hrd by lia. }
  rewrite E. exists d'. split; [do 3 f_equal; lia|]. split; [done|]. split; [congruence|].
  assert (Hs0 : forall j, ~ (co + 2 * (i + 1) <= j < co + 2 * (i + 1 + Z.of_nat (length cs))) ->
                  ~ (cbrk - len c - total (exts cs) <= j < cbrk - len c) -> rd d' j = rd d2 j) by done.
  split; [|split].
  - intros [|k] x Hk; cbn [place lookup list_lookup] in Hk.
    + injection Hk as <-. cbn [fst]. transitivity (rd2 d2 (co + 2 * (i + Z.of_nat 0))).
      { unfold rd2. by rewrite !Hs0 by lia. }
      unfold d2. rewrite rd2_upd by lia. unfold d1. rewrite rd2_upd_two by lia. rewrite Z.mod_small by lia. done.
    + rewrite <- (Hp' k x Hk). f_equal. lia.
  - intros x Hx. cbn [place] in Hx. apply elem_of_cons in Hx as [->|Hx]; cbn [fst snd]; [|by apply Hc'].
    apply sub_is; [lia|lia|]. intros j Hj. rewrite Hs0 by lia. unfold d2. rewrite rd_upd by lia. rewrite decide_True by lia. f_equal. lia.
  - intros j Hj1 Hj2. cbn [length] in *. rewrite Hs0 by lia. apply Hrd; lia.
Qed.
End Pack.

Lemma total_contents cs : forall cs', cs'.*2 = cs.*2 -> total (exts cs') = total (exts cs).
Proof.
  induction cs as [|c cs IH]; intros [|c' cs'] H; try done. cbn [fmap list_fmap] in H. injection H as H1 H2.
  rewrite !total_cons, H1, (IH cs') by done. done.
Qed.

Lemma length_contents (cs cs' : list (Z * bytes)) : cs'.*2 = cs.*2 -> length cs' = length cs.
Proof. intros H. by rewrite <- (length_fmap snd cs'), H, length_fmap. Qed.

Lemma content_in (cs cs' : list (Z * bytes)) c : cs'.*2 = cs.*2 -> c ∈ cs' -> exists c0, c0 ∈ cs /\ c0.2 = c.2.
Proof.
  intros H Hc. assert (Hin : c.2 ∈ cs.*2) by (rewrite <- H; apply list_elem_of_fmap; eauto).
  apply list_elem_of_fmap in Hin as (c0 & E & Hc0). eauto.
Qed.

Lemma page_bounds P X cs fs top : page_ok P X cs fs top ->
  0 <= hdrOffset P /\ hdrOffset P + 8 <= cellOffset P /\ 0 <= nCell P /\ cellOffset P + 2 * nCell P <= top /\ top <= usable P /\
  usable P <= 65536 /\ usable P <= len (aData P) /\ nCell P = Z.of_nat (length cs).
Proof. intros [[?|?] [?|?] ? ? ? _ _ ? _ _ ? _ _ _ _ _ _ _ _ _ _ _]; lia. Qed.

(** The page [data] with the cells at other places passes the last part of [defragmentPage]. *)
Lemma defragment_out_spec P cs fs top data cs' cbrk : page_ok P [] cs fs top -> bytes_ok data -> length data = length (aData P) ->
  (forall j, j = hdrOffset P \/ j = hdrOffset P + 3 \/ j = hdrOffset P + 4 -> rd data j = rd (aData P) j) ->
  cs'.*2 = cs.*2 -> (forall i c, cs' !! i = Some c -> rd2 data (cellOffset P + 2 * Z.of_nat i) = c.1) ->
  (forall c, c ∈ cs' -> cbrk <= c.1 /\ c.1 + len c.2 <= usable P /\ sub data c.1 (len c.2) = c.2) ->
  (forall y, cov (exts cs') y <= 1) -> rd data (hdrOffset P + 7) + cbrk = usable P - total (exts cs) ->
  rd data (hdrOffset P + 7) <= 60 -> (cs = [] -> cbrk = usable P) -> cellOffset P + 2 * nCell P <= cbrk <= usable P ->
  exists D', defragment_out P cbrk data = Some (SQLITE_OK, set_aData D' P) /\ page_ok (set_aData D' P) [] cs' [] cbrk.
Proof.
  intros H Hok Hl Hh Hcs Hptr Hcell Hcov Hf H60 Hemp Hcb.
  pose proof (page_bounds _ _ _ _ _ H) as (B1 & B2 & B3 & B4 & B5 & B6 & B7 & B8).
  pose proof (length_contents _ _ Hcs) as Hlen. pose proof (total_contents _ _ Hcs) as Htot.
  pose proof (pk_free _ _ _ _ _ H) as Hfree. pose proof (rd_range data (hdrOffset P + 7) Hok) as Hr.
  unfold defragment_out, check. rewrite decide_True by lia. cbn [mbind option_bind].
  rewrite ld_rd by lia. cbn [mbind option_bind]. rewrite decide_False by lia. rewrite decide_True by lia. cbn [mbind option_bind].
  rewrite put2byte_upd by lia. cbn [mbind option_bind]. set (d1 := upd data (hdrOffset P + 5) (two cbrk)).
  assert (Hl1 : len d1 = len (aData P)) by (unfold d1; rewrite length_upd by (rewrite ?len_two; lia); lia).
  rewrite st_upd by (cbn [length]; lia). cbn [mbind option_bind]. set (d2 := upd d1 (hdrOffset P + 1) [0; 0]).
  assert (Hl2 : len d2 = len (aData P)) by (unfold d2; rewrite length_upd by (cbn [length]; lia); lia).
  set (gap := cellOffset P + 2 * nCell P). unfold memset. rewrite decide_True by lia.
  assert (Hlr : len (replicate (Z.to_nat (cbrk - gap)) (u8 0)) = cbrk - gap) by (rewrite length_replicate; lia).
  rewrite st_upd by lia. cbn [mbind option_bind]. set (D' := upd d2 gap _).
  assert (Hrd : forall j, ~ (hdrOffset P + 1 <= j < hdrOffset P + 3) -> ~ (hdrOffset P + 5 <= j < hdrOffset P + 7) -> ~ (gap <= j < cbrk) -> rd D' j = rd data j).
  { intros j Hj1 Hj2 Hj3. unfold D'. rewrite rd_upd by lia. rewrite decide_False by lia. unfold d2. rewrite rd_upd by (cbn [length]; lia).
    rewrite decide_False by (cbn [length]; lia). unfold d1. by rewrite rd_upd_two by lia. }
  eexists D'. split; [done|].
  assert (Hz : rd2 D' (hdrOffset P + 1) = 0).
  { unfold D'. rewrite rd2_upd by lia. unfold d2, rd2. rewrite !rd_upd by (cbn [length]; lia). rewrite !decide_True by (cbn [length]; lia).
    rewrite Z.sub_diag. replace (hdrOffset P + 1 + 1 - (hdrOffset P + 1)) with 1 by lia. done. }
  split; cbn [set_aData hdrOffset childPtrSize cellOffset aData nCell nFree apOvfl isInit maskPage pBt].
  - by apply (pk_hdr _ _ _ _ _ H).
  - by apply (pk_child _ _ _ _ _ H).
  - by apply (pk_offset _ _ _ _ _ H).
  - by apply (pk_usable _ _ _ _ _ H).
  - unfold D'. rewrite length_upd by lia. pose proof (pk_len _ _ _ _ _ H). change (usable (set_aData _ P)) with (usable P). lia.
  - repeat apply bytes_ok_upd; try done; [apply two_ok|by repeat (apply Forall_cons; split; [done|])|apply bytes_ok_replicate].
  - rewrite Hrd, Hh by lia. by rewrite decode_aData, (pk_kind _ _ _ _ _ H).
  - lia.
  - rewrite <- (pk_count _ _ _ _ _ H). apply rd2_ext; rewrite Hrd, Hh by lia; done.
  - unfold D'. rewrite rd2_upd by lia. unfold d2. rewrite rd2_upd by (cbn [length]; lia). unfold d1. rewrite rd2_upd_two by lia. done.
  - done.
  - intros i c Hi. rewrite <- (Hptr i c Hi). apply lookup_lt_Some in Hi. unfold rd2. by rewrite !Hrd by lia.
  - intros c Hc. destruct (Hcell c Hc) as (C1 & C2 & C3). destruct (content_in _ _ c Hcs Hc) as (c0 & Hc0 & E0).
    pose proof (pk_cell _ _ _ _ _ H c0 Hc0) as (_ & _ & C4 & _ & C5). rewrite E0 in C4, C5.
    split; [done|]. split; [done|]. split; [done|]. split; [|done].
    unfold D' at 1. apply sub_is; [lia|fold D'; unfold D'; rewrite length_upd by lia; lia|]. intros j Hj.
    fold D'. rewrite Hrd by lia. by apply rd_of_sub; [lia|done|].
  - change (usable (set_aData _ P)) with (usable P). by apply chain_nil.
  - intros y. specialize (Hcov y). cbn [cov]. lia.
  - rewrite Hrd by lia. change (usable (set_aData _ P)) with (usable P). cbn [total]. lia.
  - by rewrite Hrd by lia.
  - intros -> _. apply Hemp. apply nil_length_inv. by rewrite <- Hlen.
  - change (usable (set_aData _ P)) with (usable P). rewrite Htot. done.
  - by apply (pk_ovfl _ _ _ _ _ H).
  - by apply (pk_init _ _ _ _ _ H).
  - by apply (pk_mask _ _ _ _ _ H).
  - unfold D'. rewrite length_upd by lia. rewrite Hl2. by apply (pk_page _ _ _ _ _ H).
Qed.

Lemma total_cells P X cs fs top : page_ok P X cs fs top -> total (exts cs) <= usable P - top.
Proof.
  intros H. pose proof (page_bounds _ _ _ _ _ H) as (B1 & B2 & B3 & B4 & B5 & B6 & B7 & B8).
  apply total_within; [lia|by apply (cells_within _ _ _ _ _ H)|].
  intros y. pose proof (pk_cov _ _ _ _ _ H y). pose proof (cov_nonneg X y). pose proof (cov_nonneg fs y). lia.
Qed.

Lemma top_read P X cs fs top : page_ok P X cs fs top -> top < 65536 -> rd2 (aData P) (hdrOffset P + 5) = top.
Proof.
  intros H Ht. pose proof (page_bounds _ _ _ _ _ H) as (B1 & B2 & B3 & B4 & B5 & B6 & B7 & B8).
  rewrite (pk_top _ _ _ _ _ H), Z.mod_small by lia. done.
Qed.

Lemma top_cells P X cs fs top c : page_ok P X cs fs top -> c ∈ cs -> top <= usable P - 4.
Proof. intros H Hc. apply (pk_cell _ _ _ _ _ H) in Hc. lia. Qed.

Lemma defragment_all_spec P cs fs top : page_ok P [] cs fs top ->
  exists D' cs', defragment_all P = Some (SQLITE_OK, set_aData D' P) /\ cs'.*2 = cs.*2 /\
    page_ok (set_aData D' P) [] cs' [] (usable P - total (exts cs)).
Proof.
  intros H. pose proof (page_bounds _ _ _ _ _ H) as (B1 & B2 & B3 & B4 & B5 & B6 & B7 & B8).
  pose proof (total_cells _ _ _ _ _ H) as Htot. pose proof (total_nonneg cs) as Hnn.
  pose proof (pk_ok _ _ _ _ _ H) as Hok. set (D := aData P) in *. set (U := usable P) in *.
  assert (exists data, (if decide (0 < nCell P) then
      src ← slice D 0 U; pack_cells P src (rd2 D (hdrOffset P + 5)) (Z.to_nat (nCell P)) 0 U D
     else Some (SQLITE_OK, U, D)) = Some (SQLITE_OK, U - total (exts cs), data) /\ bytes_ok data /\ length data = length D /\
     (forall k c, place U cs !! k = Some c -> rd2 data (cellOffset P + 2 * Z.of_nat k) = c.1) /\
     (forall c, c ∈ place U cs -> sub data c.1 (len c.2) = c.2) /\
     (forall j, j < cellOffset P -> rd data j = rd D j)) as (data & E & Hok' & Hl & Hptr & Hcell & Hsame).
  { destruct (decide (0 < nCell P)) as [Hn|Hn].
    2: { assert (cs = []) as -> by (apply nil_length_inv; lia). exists D. change (total (exts [])) with 0.
         rewrite Z.sub_0_r. repeat (split; [done|]). split; [|done]. intros c Hc. by apply elem_of_nil in Hc. }
    assert (Ht4 : top <= U - 4).
    { destruct cs as [|c cs'] eqn:Ecs; [cbn in B8; lia|]. apply (top_cells _ _ _ _ _ c H). apply list_elem_of_here. }
    rewrite slice_sub by lia. cbn [mbind option_bind]. unfold D at 2. rewrite (top_read _ _ _ _ _ H) by lia.
    rewrite B8, Nat2Z.id.
    destruct (pack_cells_spec P (sub D 0 U) top ltac:(by apply bytes_ok_sub) cs 0 U D) as (data & E & Hok' & Hl & Hptr & Hcell & Hsame);
      try done; try lia.
    - rewrite length_sub by lia. done.
    - intros k c Hk. rewrite <- (pk_ptr _ _ _ _ _ H k c Hk). done.
    - apply Forall_forall. intros c Hc. pose proof (pk_cell _ _ _ _ _ H c Hc) as (C1 & C2 & C3 & C4 & C5).
      split; [lia|]. split; [done|]. split; [done|]. split; [|done].
      apply sub_is; [lia|rewrite length_sub by lia; done|]. intros j Hj. rewrite rd_sub by lia. rewrite decide_True by (fold U in C2; lia). rewrite Z.add_0_l.
      by apply rd_of_sub; [lia|done|].
    - exists data. split; [done|]. split; [done|]. split; [done|]. split; [done|]. split; [done|].
      intros j Hj. apply Hsame; lia. }
  unfold defragment_all. fold D U. rewrite get2byte_rd by (done || lia). cbn [mbind option_bind]. rewrite E. cbn [mbind option_bind].
  rewrite decide_False by lia. rewrite st_upd by (cbn [length]; lia). cbn [mbind option_bind].
  set (d1 := upd data (hdrOffset P + 7) [0]).
  assert (Hl1 : length d1 = length data) by (unfold d1; apply length_upd; cbn [length]; lia).
  assert (Hrd : forall j, j <> hdrOffset P + 7 -> rd d1 j = rd data j).
  { intros j Hj. unfold d1. rewrite rd_upd by (cbn [length]; lia). by rewrite decide_False by (cbn [length]; lia). }
  assert (H7 : rd d1 (hdrOffset P + 7) = 0) by (unfold d1; by rewrite rd_upd_1 by lia).
  destruct (defragment_out_spec P cs fs top d1 (place U cs) (U - total (exts cs)) H) as (D' & E' & Hp').
  - apply bytes_ok_upd; [done|]. by apply byte_1.
  - rewrite Hl1, Hl. done.
  - intros j Hj. rewrite Hrd, Hsame by lia. done.
  - apply place_contents.
  - intros i c Hi. rewrite <- (Hptr i c Hi). apply lookup_lt_Some in Hi. rewrite place_length in Hi. unfold rd2. by rewrite !Hrd by lia.
  - intros c Hc. pose proof (place_range cs U c Hc). split; [lia|]. split; [fold U; lia|].
    rewrite <- (Hcell c Hc) at 2. apply sub_eq; [lia| |lia| |]; rewrite ?Hl1, ?Hl; [fold D in B7; lia..|].
    intros j Hj. apply Hrd. lia.
  - intros y. rewrite place_cov. apply ind_range.
  - lia.
  - lia.
  - intros ->. change (total (exts [])) with 0. lia.
  - lia.
  - exists D', (place U cs). split; [done|]. split; [apply place_contents|done].
Qed.

(** *** One or two free blocks

    Cells before the first free block move by the size of both, cells between them by the size of the second.  A second block that
    does not exist is one of size 0 after the first. *)

Definition moved (f1 sz f2 sz2 : Z) (c : Z * bytes) : Z * bytes :=
  (if decide (c.1 < f1) then c.1 + sz else if decide (c.1 < f2) then c.1 + sz2 else c.1, c.2).

Lemma shift_pointers_spec f1 sz f2 sz2 cs : forall p data, bytes_ok data -> 0 <= p -> p + 2 * Z.of_nat (length cs) <= len data ->
  (forall k c, cs !! k = Some c -> rd2 data (p + 2 * Z.of_nat k) = c.1) ->
  (forall c, c ∈ cs -> 0 <= (moved f1 sz f2 sz2 c).1 < 65536) ->
  exists data', shift_pointers (length cs) p f1 sz f2 sz2 data = Some data' /\ bytes_ok data' /\ length data' = length data /\
    (forall k c, cs !! k = Some c -> rd2 data' (p + 2 * Z.of_nat k) = (moved f1 sz f2 sz2 c).1) /\
    (forall j, ~ (p <= j < p + 2 * Z.of_nat (length cs)) -> rd data' j = rd data j).
Proof.
  induction cs as [|c cs IH]; intros p data Hok Hp Hlen Hptr Hm; cbn [length shift_pointers].
  { exists data. done. }
  cbn [length] in Hlen. pose proof (Hptr O c eq_refl) as H0. rewrite Z.mul_0_r, Z.add_0_r in H0.
  rewrite get2byte_rd by (done || lia). cbn [mbind option_bind]. rewrite H0.
  assert (exists d1, (if decide (c.1 < f1) then put2byte data p (c.1 + sz)
                      else if decide (c.1 < f2) then put2byte data p (c.1 + sz2) else Some data) = Some d1 /\
          bytes_ok d1 /\ length d1 = length data /\ rd2 d1 p = (moved f1 sz f2 sz2 c).1 /\
          (forall j, ~ (p <= j < p + 2) -> rd d1 j = rd data j)) as (d1 & -> & Hok1 & Hl1 & Hr1 & Hs1).
  { pose proof (Hm c (list_elem_of_here _ _)) as Hmc. unfold moved in *. cbn [fst] in *.
    destruct (decide (c.1 < f1)); [|destruct (decide (c.1 < f2))]; [| |by exists data];
      rewrite put2byte_upd by lia; (eexists; split; [done|]);
      (split; [apply bytes_ok_upd; [done|apply two_ok]|]); (split; [by apply length_upd; rewrite ?len_two; lia|]);
      (split; [rewrite rd2_upd_two by lia; by rewrite Z.mod_small|]); intros j Hj; by apply rd_upd_two; lia. }
  cbn [mbind option_bind]. destruct (IH (p + 2) d1) as (d2 & -> & Hok2 & Hl2 & Hr2 & Hs2); [done|lia|lia| | |].
  { intros k x Hk. rewrite <- (Hptr (S k) x) by done. rewrite Nat2Z.inj_succ.
    replace (p + 2 * Z.succ (Z.of_nat k)) with (p + 2 + 2 * Z.of_nat k) by lia. unfold rd2. by rewrite !Hs1 by lia. }
  { intros x Hx. apply Hm. by apply list_elem_of_further. }
  exists d2. split; [done|]. split; [done|]. split; [congruence|]. split.
  - intros [|k] x Hk; cbn in Hk.
    + injection Hk as <-. rewrite Z.mul_0_r, Z.add_0_r, <- Hr1. unfold rd2. by rewrite !Hs2 by lia.
    + rewrite <- (Hr2 k x Hk). f_equal. lia.
  - intros j Hj. rewrite Hs2, Hs1 by lia. done.
Qed.

Section Two.
Context (P : MemPage) (cs : list (Z * bytes)) (fs : list (Z * Z)) (top f1 n1 i2 f2 n2 : Z).

#[local] Abbreviation hdr := (hdrOffset P).
#[local] Abbreviation U := (usable P).
#[local] Abbreviation D := (aData P).

Hypothesis H : page_ok P [] cs fs top.

(** [i2] is the second block of the list, or 0. *)
Hypothesis Hfs : fs = [(f1, n1)] /\ i2 = 0 /\ f2 = f1 + n1 /\ n2 = 0 \/ fs = [(f1, n1); (f2, n2)] /\ i2 = f2.

Lemma two_blocks : top < f1 /\ 4 <= n1 /\ f1 + n1 <= f2 /\ 0 <= n2 /\ f2 + n2 <= U /\ rd2 D (f1 + 2) = n1 /\ total fs = n1 + n2 /\
  (i2 <> 0 -> rd2 D (i2 + 2) = n2 /\ i2 = f2 /\ 4 <= n2) /\ (i2 = 0 -> n2 = 0 /\ f2 = f1 + n1) /\ rd2 D (hdr + 1) = f1 /\ rd2 D f1 = i2 /\
  (i2 <> 0 -> rd2 D i2 = 0).
Proof using H Hfs.
  pose proof (pk_chain _ _ _ _ _ H) as Hc. pose proof (page_bounds _ _ _ _ _ H) as (B1 & B2 & B3 & B4 & B5 & B6 & B7 & B8).
  destruct Hfs as [(E & -> & -> & ->)|(E & ->)]; rewrite E in *; apply chain_cons in Hc as (C1 & C2 & C3 & C4 & C5 & Hc); cbn [fst snd] in *.
  - apply chain_nil in Hc. cbn [total snd]. repeat split; lia.
  - apply chain_cons in Hc as (E1 & E2 & E3 & E4 & E5 & Hc). cbn [fst snd] in *. apply chain_nil in Hc. cbn [total snd]. repeat split; lia.
Qed.

(** Every cell lies before, between or after the blocks. *)
Lemma cell_region c : c ∈ cs -> top <= c.1 /\ c.1 + len c.2 <= f1 \/ f1 + n1 <= c.1 /\ c.1 + len c.2 <= f2 \/ f2 + n2 <= c.1.
Proof using H Hfs.
  intros Hc. pose proof two_blocks as (T1 & T2 & T3 & T4 & T5 & _). pose proof (pk_cell _ _ _ _ _ H c Hc) as (C1 & _ & C3 & _).
  assert (Hcv : forall e, e ∈ fs -> 1 <= e.2 -> c.1 + len c.2 <= e.1 \/ e.1 + e.2 <= c.1).
  { intros e He Hn. apply (apart c.1 (len c.2) e.1 e.2 []); [|lia|lia]. intros y. pose proof (pk_cov _ _ _ _ _ H y) as Hy.
    pose proof (cov_in (exts cs) (ext c) y (in_exts c cs Hc)) as Hcy. pose proof (cov_in fs e y He) as Hey. destruct e as [e1 e2].
    unfold ext in Hcy at 1. cbn [fst snd cov] in *. lia. }
  destruct Hfs as [(E & -> & -> & ->)|(E & ->)]; rewrite E in Hcv.
  - destruct (Hcv (f1, n1)) as [?|?]; [apply list_elem_of_here|cbn; lia|cbn in *; lia|cbn in *; lia].
  - pose proof (pk_chain _ _ _ _ _ H) as Hch. rewrite E in Hch. apply chain_bounds with (e := (f2, n2)) in Hch.
    2: { apply list_elem_of_further, list_elem_of_here. }
    destruct (Hcv (f1, n1)) as [?|?]; [apply list_elem_of_here|cbn; lia|cbn in *; lia|].
    destruct (Hcv (f2, n2)) as [?|?]; [apply list_elem_of_further, list_elem_of_here|cbn in *; lia|cbn in *; lia|cbn in *; lia].
Qed.

Abbreviation mv c := (moved f1 (n1 + n2) i2 n2 c).

Lemma moved_region c : c ∈ cs ->
  top <= c.1 /\ c.1 + len c.2 <= f1 /\ (mv c).1 = c.1 + (n1 + n2) \/
  f1 + n1 <= c.1 /\ c.1 + len c.2 <= f2 /\ (mv c).1 = c.1 + n2 \/ f2 + n2 <= c.1 /\ (mv c).1 = c.1.
Proof using H Hfs.
  intros Hc. pose proof two_blocks as (T1 & T2 & T3 & T4 & T5 & _ & _ & T6 & T7 & _).
  pose proof (cell_region c Hc) as Hr. pose proof (pk_cell _ _ _ _ _ H c Hc) as (_ & _ & C3 & _). unfold moved. cbn [fst].
  destruct (decide (i2 = 0)) as [E|E].
  - destruct (T7 E) as [-> ->]. repeat case_decide; lia.
  - destruct (T6 E) as (_ & -> & _). repeat case_decide; lia.
Qed.

(** Where the byte at [y] came from. *)
Definition origin (y : Z) : Z :=
  if decide (top + (n1 + n2) <= y < f1 + (n1 + n2)) then y - (n1 + n2)
  else if decide (f1 + n1 + n2 <= y < f2 + n2) then y - n2
  else if decide (f2 + n2 <= y) then y else -1.

Lemma moved_ind c y : c ∈ cs -> ind ((mv c).1, len c.2) y = ind (c.1, len c.2) (origin y).
Proof using H Hfs.
  intros Hc. pose proof two_blocks as (T1 & T2 & T3 & T4 & T5 & _). pose proof (page_bounds _ _ _ _ _ H) as (B1 & B2 & B3 & B4 & B5 & B6 & B7 & B8).
  pose proof (moved_region c Hc) as Hr. unfold ind, origin. cbn [fst snd]. repeat case_decide; lia.
Qed.

Lemma moved_cov y : cov (exts ((fun c => mv c) <$> cs)) y = cov (exts cs) (origin y).
Proof using H Hfs.
  assert (Hall : Forall (fun c => c ∈ cs) cs) by (by apply Forall_forall).
  revert Hall. generalize cs at 2 3 4. intros l Hl. induction Hl as [|c l Hc Hl IH]; [done|].
  rewrite fmap_cons, !cov_cons, IH. f_equal. exact (moved_ind c y Hc).
Qed.

Lemma defragment_two_spec : exists data, defragment_two P f1 i2 = Some (SQLITE_OK, top + (n1 + n2), data) /\
  bytes_ok data /\ length data = length D /\
  (forall i c, cs !! i = Some c -> rd2 data (cellOffset P + 2 * Z.of_nat i) = (mv c).1) /\
  (forall j, j < cellOffset P -> rd data j = rd D j) /\
  (forall c, c ∈ cs -> sub data (mv c).1 (len c.2) = c.2).
Proof using H Hfs.
  pose proof two_blocks as (T1 & T2 & T3 & T4 & T5 & T6 & T7 & T8 & T9 & _). pose proof (pk_ok _ _ _ _ _ H) as Hok.
  pose proof (page_bounds _ _ _ _ _ H) as (B1 & B2 & B3 & B4 & B5 & B6 & B7 & B8).
  unfold defragment_two. rewrite (get2byte_rd D (f1 + 2)) by (done || lia). cbn [mbind option_bind].
  rewrite (get2byte_rd D (hdr + 5)) by (done || lia). cbn [mbind option_bind].
  rewrite T6, (top_read _ _ _ _ _ H) by lia. rewrite decide_False by lia.
  assert (exists d1, (if decide (i2 <> 0) then
      if decide (i2 < f1 + n1) then Some None
      else sz2 ← get2byte D (i2 + 2);
        if decide (U < i2 + sz2) then Some None
        else data ← memmove_buf D (f1 + n1 + sz2) (f1 + n1) (i2 - (f1 + n1)); Some (Some (n1 + sz2, sz2, data))
    else if decide (U < f1 + n1) then Some None else Some (Some (n1, 0, D))) = Some (Some (n1 + n2, n2, d1)) /\
    bytes_ok d1 /\ length d1 = length D /\
    (forall j, rd d1 j = if decide (f1 + n1 + n2 <= j < f2 + n2) then rd D (j - n2) else rd D j)) as (d1 & -> & Hok1 & Hl1 & Hrd1).
  { destruct (decide (i2 = 0)) as [E|E].
    - destruct (T9 E) as [-> ->]. rewrite !decide_False by lia. exists D. rewrite Z.add_0_r. split; [done|]. split; [done|]. split; [done|].
      intros j. by rewrite decide_False by lia.
    - destruct (T8 E) as (E2 & Ei & En). rewrite decide_True by done. rewrite decide_False by lia.
      rewrite (get2byte_rd D (i2 + 2)) by (done || lia). cbn [mbind option_bind]. rewrite E2. rewrite decide_False by lia.
      unfold memmove_buf. rewrite slice_sub by lia. cbn [mbind option_bind].
      pose proof (length_sub D (f1 + n1) (i2 - (f1 + n1)) ltac:(lia) ltac:(lia) ltac:(lia)) as Hls.
      rewrite st_upd by lia. cbn [mbind option_bind]. eexists. split; [done|].
      split; [apply bytes_ok_upd; [done|by apply bytes_ok_sub]|]. split; [apply length_upd; lia|].
      intros j. rewrite rd_upd by lia. rewrite Hls.
      destruct (decide (f1 + n1 + n2 <= j < f2 + n2)); [rewrite decide_True by lia|by rewrite decide_False by lia].
      rewrite rd_sub by lia. rewrite decide_True by lia. f_equal. lia. }
  cbn [mbind option_bind]. unfold check. rewrite decide_True by lia. cbn [mbind option_bind].
  unfold memmove_buf. rewrite slice_sub by lia. cbn [mbind option_bind].
  pose proof (length_sub d1 top (f1 - top) ltac:(lia) ltac:(lia) ltac:(lia)) as Hls.
  rewrite st_upd by lia. cbn [mbind option_bind]. set (d2 := upd d1 _ _).
  assert (Hl2 : length d2 = length D) by (unfold d2; rewrite length_upd by lia; done).
  assert (Hrd2 : forall j, rd d2 j = if decide (top + (n1 + n2) <= j < f1 + (n1 + n2)) then rd D (j - (n1 + n2)) else rd d1 j).
  { intros j. unfold d2. rewrite rd_upd by lia. rewrite Hls. destruct (decide (top + (n1 + n2) <= j < f1 + (n1 + n2))).
    - rewrite decide_True by lia. rewrite rd_sub by lia. rewrite decide_True by lia. rewrite Hrd1, decide_False by lia. f_equal. lia.
    - by rewrite decide_False by lia. }
  destruct (shift_pointers_spec f1 (n1 + n2) i2 n2 cs (cellOffset P) d2) as (d3 & E3 & Hok3 & Hl3 & Hp3 & Hs3).
  { apply bytes_ok_upd; [done|by apply bytes_ok_sub]. }
  { lia. }
  { lia. }
  { intros k c Hk. rewrite <- (pk_ptr _ _ _ _ _ H k c Hk). apply lookup_lt_Some in Hk.
    apply rd2_ext; rewrite Hrd2, decide_False by lia; rewrite Hrd1, decide_False by lia; done. }
  { intros c Hc. pose proof (moved_region c Hc). pose proof (pk_cell _ _ _ _ _ H c Hc). lia. }
  rewrite B8, Nat2Z.id, E3. cbn [mbind option_bind]. exists d3. split; [done|]. split; [done|]. split; [congruence|]. split; [done|]. split.
  - intros j Hj. rewrite Hs3, Hrd2 by lia. rewrite decide_False by lia. rewrite Hrd1, decide_False by lia. done.
  - intros c Hc. pose proof (pk_cell _ _ _ _ _ H c Hc) as (C1 & C2 & C3 & C4 & C5). pose proof (moved_region c Hc) as Hr.
    apply sub_is; [lia|lia|]. intros j Hj. rewrite Hs3, Hrd2 by lia. rewrite <- (rd_of_sub D c.1 c.2 j) by (done || lia).
    destruct Hr as [(R1 & R2 & ->)|[(R1 & R2 & ->)|(R1 & ->)]].
    + rewrite decide_True by lia. f_equal. lia.
    + rewrite decide_False by lia. rewrite Hrd1, decide_True by lia. f_equal. lia.
    + rewrite decide_False by lia. rewrite Hrd1, decide_False by lia. done.
Qed.

Lemma defragment_fast : exists D' cs',
  ('(rc, cbrk, data) ← defragment_two P f1 i2;
   if decide (rc <> SQLITE_OK) then Some (rc, set_aData data P) else defragment_out P cbrk data) = Some (SQLITE_OK, set_aData D' P) /\
  cs'.*2 = cs.*2 /\ page_ok (set_aData D' P) [] cs' [] (top + (n1 + n2)) /\ rd D' (hdr + 7) = rd D (hdr + 7).
Proof using H Hfs.
  pose proof two_blocks as (T1 & T2 & T3 & T4 & T5 & T6 & T7 & _). destruct defragment_two_spec as (data & -> & Hok & Hl & Hptr & Hlow & Hcell).
  pose proof (page_bounds _ _ _ _ _ H) as (B1 & B2 & B3 & B4 & B5 & B6 & B7 & B8).
  cbn [mbind option_bind]. rewrite decide_False by lia. set (cs' := (fun c => mv c) <$> cs).
  assert (Hcs : cs'.*2 = cs.*2).
  { unfold cs'. rewrite <- list_fmap_compose. by apply list_fmap_ext. }
  pose proof (pk_frag _ _ _ _ _ H) as Hfr. cbn [total] in Hfr.
  assert (H7 : rd data (hdr + 7) = rd D (hdr + 7)) by (apply Hlow; lia).
  destruct (defragment_out_spec P cs fs top data cs' (top + (n1 + n2)) H Hok Hl) as (D' & E & Hp).
  - intros j Hj. apply Hlow. lia.
  - done.
  - intros i c Hi. unfold cs' in Hi. rewrite list_lookup_fmap in Hi. destruct (cs !! i) as [x|] eqn:Ex; [|done]. injection Hi as <-. by apply Hptr.
  - intros c Hc. unfold cs' in Hc. apply list_elem_of_fmap in Hc as (x & -> & Hx). pose proof (moved_region x Hx).
    pose proof (pk_cell _ _ _ _ _ H x Hx) as (C1 & C2 & C3 & _). change (snd (mv x)) with (snd x). split; [lia|]. split; [lia|]. by apply Hcell.
  - intros y. unfold cs'. rewrite moved_cov. pose proof (pk_cov _ _ _ _ _ H (origin y)) as Hy. pose proof (cov_nonneg fs (origin y)). cbn [cov] in Hy. lia.
  - lia.
  - rewrite H7. by apply (pk_60 _ _ _ _ _ H).
  - intros E. pose proof (pk_empty _ _ _ _ _ H E eq_refl). lia.
  - lia.
  - exists D', cs'. split; [done|]. split; [done|]. split; [done|].
    pose proof (pk_frag _ _ _ _ _ Hp) as Hfr'. cbn [set_aData aData hdrOffset total] in Hfr'. change (usable (set_aData D' P)) with U in Hfr'.
    rewrite (total_contents cs cs' Hcs) in Hfr'. lia.
Qed.
End Two.

(** *** The whole routine *)

(** After compaction there are no free blocks, and at most [nMaxFrag] lost bytes. *)
Lemma defragmentPage_spec P cs fs top m : page_ok P [] cs fs top -> 0 <= m ->
  exists D' cs' top', defragmentPage P m = Some (SQLITE_OK, set_aData D' P) /\ cs'.*2 = cs.*2 /\
    page_ok (set_aData D' P) [] cs' [] top' /\ rd D' (hdrOffset P + 7) <= m.
Proof.
  intros H Hm. pose proof (page_bounds _ _ _ _ _ H) as (B1 & B2 & B3 & B4 & B5 & B6 & B7 & B8). pose proof (pk_ok _ _ _ _ _ H) as Hok.
  assert (Hall : exists D' cs' top', defragment_all P = Some (SQLITE_OK, set_aData D' P) /\ cs'.*2 = cs.*2 /\
    page_ok (set_aData D' P) [] cs' [] top' /\ rd D' (hdrOffset P + 7) <= m).
  { destruct (defragment_all_spec P cs fs top H) as (D' & cs' & E & Hcs & Hp). exists D', cs', (usable P - total (exts cs)).
    split; [done|]. split; [done|]. split; [done|]. pose proof (pk_frag _ _ _ _ _ Hp) as Hf. cbn [set_aData aData hdrOffset total] in Hf.
    change (usable (set_aData D' P)) with (usable P) in Hf. rewrite (total_contents cs cs' Hcs) in Hf. lia. }
  unfold defragmentPage. rewrite ld_rd by lia. cbn [mbind option_bind]. case_decide as Hf; [|done].
  rewrite (get2byte_rd (aData P) (hdrOffset P + 1)) by (done || lia). cbn [mbind option_bind].
  pose proof (pk_chain _ _ _ _ _ H) as Hc. destruct fs as [|[f1 n1] fs].
  { apply chain_nil in Hc as Hz. rewrite Hz. rewrite !decide_False by lia. done. }
  apply chain_cons in Hc as (C1 & C2 & C3 & C4 & C5 & Hc). cbn [fst snd] in *. rewrite C1. rewrite decide_False by lia. rewrite decide_True by lia.
  rewrite (get2byte_rd (aData P) f1) by (done || lia). cbn [mbind option_bind].
  destruct fs as [|[f2 n2] fs].
  { apply chain_nil in Hc as Hz. rewrite Hz. rewrite decide_False by lia. rewrite decide_True by done. cbn [mbind option_bind].
    destruct (defragment_fast P cs _ top f1 n1 0 (f1 + n1) 0 H) as (D' & cs' & E & Hcs & Hp & H7); [by left|].
    rewrite E. exists D', cs', (top + (n1 + 0)). rewrite H7. done. }
  apply chain_cons in Hc as (E1 & E2 & E3 & E4 & E5 & Hc). cbn [fst snd] in *. rewrite E1. rewrite decide_False by lia. rewrite decide_False by lia.
  rewrite !ld_rd by lia. cbn [mbind option_bind]. pose proof (rd2_zero (aData P) f2 Hok) as Hz.
  case_bool_decide as Hd; [done|]. destruct fs as [|[f3 n3] fs].
  - destruct (defragment_fast P cs _ top f1 n1 f2 f2 n2 H) as (D' & cs' & E & Hcs & Hp & H7); [by right|].
    rewrite E. exists D', cs', (top + (n1 + n2)). rewrite H7. done.
  - apply chain_cons in Hc as (F1 & F2 & _). cbn [fst snd] in *. exfalso. apply Hz in Hd. lia.
Qed.
