(* ===== verification/SqlPageCells.v ===== *)
(** * Cells of a page in order

    On a page in order ([SqlPageOk]) space for a cell that fits is found, and inserting and removing cells of
    the page is inserting and removing elements of the list of their contents. *)

From S2P Require Import Prelude Bits SqlVarint SqlBytes SqlCell SqlPage SqlPageSpace SqlPageFree SqlPageOk.

(** ** Finding space *)

Lemma set_aData_same P : set_aData (aData P) P = P.
Proof. by destruct P. Qed.

Lemma allocate_slot P cs fs top n g D' fs' x : page_ok P [] cs fs top -> 4 <= n ->
  slot_taken (hdrOffset P) (usable P) (hdrOffset P + 1) (top + 1) (aData P) fs g n D' fs' x ->
  page_ok (set_aData D' P) [(g, n)] cs fs' top.
Proof.
  intros H Hn [Hc Hok Hl Hlow Hhigh Hcov Htot Hfr Hx H60 Hs].
  pose proof (page_bounds _ _ _ _ _ H) as (B1 & B2 & B3 & B4 & B5 & B6 & B7 & B8).
  pose proof (chain_bounds _ _ _ _ _ (pk_chain _ _ _ _ _ H)) as Hb. pose proof (pk_frag _ _ _ _ _ H) as Hf. cbn [total] in Hf.
  apply (page_update P [] cs fs top); try done.
  - intros j Hj. apply Hs.
    + destruct Hj as [Hj|Hj]; [lia|]. apply (cov_E_range P _ top (cells_within _ _ _ _ _ H)) in Hj. lia.
    + destruct Hj as [Hj|Hj]; [lia|]. apply (cov_E_range P _ top (cells_within _ _ _ _ _ H)) in Hj. lia.
    + intros (e & He & Hje). specialize (Hb e He). destruct Hj as [Hj|Hj]; [lia|]. pose proof (pk_cov _ _ _ _ _ H j) as Hcv.
      pose proof (cov_in fs e j He) as Hc1. destruct e as [e1 e2]. cbn [fst snd] in *. rewrite ind_in in Hc1 by lia. cbn [cov] in Hcv. lia.
  - rewrite <- (pk_top _ _ _ _ _ H). unfold rd2. rewrite !Hs; try done; try lia; intros (e & He & Hj); specialize (Hb e He); lia.
  - by apply (cells_within _ _ _ _ _ H).
  - intros y. specialize (Hcov y). pose proof (pk_cov _ _ _ _ _ H y) as Hcv. cbn [cov] in *. lia.
  - cbn [total snd]. lia.
  - apply H60. by apply (pk_60 _ _ _ _ _ H).
Qed.

(** The cell content area grows downwards. *)
Lemma allocate_gap P cs fs top n : page_ok P [] cs fs top -> 4 <= n -> cellOffset P + 2 * nCell P + 2 + n <= top ->
  page_ok (set_aData (upd (aData P) (hdrOffset P + 5) (two (top - n))) P) [(top - n, n)] cs fs (top - n).
Proof.
  intros H Hn Hg. pose proof (page_bounds _ _ _ _ _ H) as (B1 & B2 & B3 & B4 & B5 & B6 & B7 & B8).
  pose proof (chain_bounds _ _ _ _ _ (pk_chain _ _ _ _ _ H)) as Hb. pose proof (pk_frag _ _ _ _ _ H) as Hf. cbn [total] in Hf.
  assert (Hrd : forall j, ~ (hdrOffset P + 5 <= j < hdrOffset P + 7) -> rd (upd (aData P) (hdrOffset P + 5) (two (top - n))) j = rd (aData P) j).
  { intros j Hj. apply rd_upd_two; lia. }
  pose proof (cells_within _ _ _ _ _ H) as Hw.
  apply (page_update P [] cs fs top); try done.
  - apply length_upd; rewrite ?len_two; lia.
  - apply bytes_ok_upd; [by apply (pk_ok _ _ _ _ _ H)|apply two_ok].
  - intros j Hj. apply Hrd. destruct Hj as [Hj|Hj]; [lia|]. apply (cov_E_range P _ top Hw) in Hj. lia.
  - apply (chain_lower _ _ _ (top + 1)); [|lia]. apply (chain_frame _ _ _ _ _ _ _ (pk_chain _ _ _ _ _ H)).
    + unfold rd2. by rewrite !Hrd by lia.
    + intros e He. specialize (Hb e He). unfold rd2. by rewrite !Hrd by lia.
  - rewrite rd2_upd_two by lia. done.
  - lia.
  - apply Forall_forall. intros e He. pose proof (in_within _ _ _ _ Hw He). lia.
  - intros y. pose proof (pk_cov _ _ _ _ _ H y) as Hcv. cbn [cov] in *.
    destruct (decide (y < top)) as [Hy|Hy].
    + assert (cov (exts cs) y = 0) as ->.
      { pose proof (cov_nonneg (exts cs) y). destruct (decide (0 < cov (exts cs) y)) as [Hp|]; [|lia]. apply (cov_E_range P _ top Hw) in Hp. lia. }
      assert (cov fs y = 0) as ->.
      { pose proof (cov_nonneg fs y). destruct (decide (0 < cov fs y)) as [Hp|]; [|lia]. apply cov_pos in Hp as (e & He & Hj). specialize (Hb e He). lia. }
      pose proof (ind_range (top - n, n) y). lia.
    + rewrite ind_out by lia. lia.
  - rewrite Hrd by lia. cbn [total snd]. lia.
  - rewrite Hrd by lia. by apply (pk_60 _ _ _ _ _ H).
Qed.

Lemma allocateSpace_spec P cs fs top n : page_ok P [] cs fs top -> 4 <= n -> n + 2 <= nFree P ->
  exists g D' cs' fs' top', allocateSpace P n = Some (SQLITE_OK, g, set_aData D' P) /\ cs'.*2 = cs.*2 /\
    page_ok (set_aData D' P) [(g, n)] cs' fs' top' /\ cellOffset P + 2 * nCell P + 2 <= top' /\ top' <= g /\ g + n <= usable P.
Proof.
  intros H Hn Hfree. pose proof (page_bounds _ _ _ _ _ H) as (B1 & B2 & B3 & B4 & B5 & B6 & B7 & B8).
  pose proof (pk_free _ _ _ _ _ H) as Hnf. pose proof (total_nonneg cs) as Hnn. pose proof (pk_ok _ _ _ _ _ H) as Hok.
  unfold allocateSpace, check. rewrite (decide_True (P := 0 <= n /\ n <= nFree P /\ apOvfl P = [] /\ n < usable P - 8)).
  2: { pose proof (pk_ovfl _ _ _ _ _ H). repeat split; (done || lia). }
  cbn [mbind option_bind]. rewrite decide_True by lia. cbn [mbind option_bind].
  rewrite (get2byte_rd (aData P) (hdrOffset P + 5)) by (done || lia). cbn [mbind option_bind].
  set (gap := cellOffset P + 2 * nCell P) in *. set (v := rd2 (aData P) (hdrOffset P + 5)).
  assert (Hv : ~ (v < gap /\ ~ (v = 0 /\ usable P = 65536)) /\ ~ (gap <= v /\ usable P < v) /\ (if decide (v < gap) then 65536 else v) = top).
  { unfold v. rewrite (pk_top _ _ _ _ _ H). destruct (decide (top = 65536)) as [->|Hne].
    - change (65536 mod 65536) with 0. split; [lia|]. split; [lia|]. by rewrite decide_True by lia.
    - rewrite Z.mod_small by lia. split; [lia|]. split; [lia|]. by rewrite decide_False by lia. }
  destruct Hv as (Hv1 & Hv2 & ->). rewrite decide_False by done. rewrite decide_False by done.
  rewrite !ld_rd by lia. cbn [mbind option_bind].
  (* without a slot *)
  assert (Hrest : exists g D' cs' fs' top',
    ('(rc, top, pPage) ←
       (if decide (top < gap + 2 + n) then
          '(rc, pPage) ← defragmentPage P (Z.min 4 (nFree P - (2 + n)));
          if decide (rc <> SQLITE_OK) then Some (rc, 0, pPage)
          else top ← get2byteNotZero (aData pPage) (hdrOffset P + 5);
            _ ← (if decide (gap + 2 + n <= top) then Some tt else None); Some (SQLITE_OK, top, pPage)
        else Some (SQLITE_OK, top, P));
     if decide (rc <> SQLITE_OK) then Some (rc, 0, pPage)
     else
       data ← put2byte (aData pPage) (hdrOffset P + 5) (top - n);
       _ ← (if decide (top - n + n <= usable pPage) then Some tt else None);
       Some (SQLITE_OK, top - n, set_aData data pPage)) = Some (SQLITE_OK, g, set_aData D' P) /\
    cs'.*2 = cs.*2 /\ page_ok (set_aData D' P) [(g, n)] cs' fs' top' /\ gap + 2 <= top' /\ top' <= g /\ g + n <= usable P).
  { destruct (decide (top < gap + 2 + n)) as [Hlt|Hge].
    - destruct (defragmentPage_spec P cs fs top (Z.min 4 (nFree P - (2 + n))) H) as (D1 & cs' & top1 & E & Hcs & Hp & H7); [lia|].
      rewrite E. cbn [mbind option_bind]. rewrite decide_False by lia.
      pose proof (page_bounds _ _ _ _ _ Hp) as (C1 & C2 & C3 & C4 & C5 & C6 & C7 & C8).
      pose proof (pk_frag _ _ _ _ _ Hp) as Hf. pose proof (pk_top _ _ _ _ _ Hp) as Ht1. pose proof (pk_ok _ _ _ _ _ Hp) as Hok1.
      rewrite (total_contents _ _ Hcs) in Hf. cbn [set_aData aData hdrOffset cellOffset nCell total] in *.
      change (usable (set_aData D1 P)) with (usable P) in *.
      rewrite get2byteNotZero_rd by (done || lia). rewrite Ht1. cbn [mbind option_bind].
      assert ((if decide (top1 mod 65536 = 0) then 65536 else top1 mod 65536) = top1) as ->.
      { destruct (decide (top1 = 65536)) as [->|]; [done|]. rewrite Z.mod_small by lia. by rewrite decide_False by lia. }
      rewrite decide_True by lia. cbn [mbind option_bind]. rewrite decide_False by lia.
      change (aData (set_aData D1 P)) with D1. rewrite put2byte_upd by lia. cbn [mbind option_bind]. rewrite decide_True by (change (usable (set_aData D1 P)) with (usable P); lia).
      cbn [mbind option_bind]. eexists (top1 - n), _, cs', [], (top1 - n). split; [done|]. split; [done|].
      split; [|lia]. apply (allocate_gap (set_aData D1 P) cs' [] top1); [done|done|cbn; lia].
    - cbn [mbind option_bind]. rewrite decide_False by lia. rewrite put2byte_upd by lia. cbn [mbind option_bind].
      rewrite decide_True by lia. cbn [mbind option_bind]. eexists (top - n), _, cs, fs, (top - n). split; [done|]. split; [done|].
      split; [|lia]. apply allocate_gap; [done|done|lia]. }
  pose proof (rd2_zero (aData P) (hdrOffset P + 1) Hok) as Hz. replace (hdrOffset P + 1 + 1) with (hdrOffset P + 2) in Hz by lia.
  destruct (decide ((rd (aData P) (hdrOffset P + 2) <> 0 \/ rd (aData P) (hdrOffset P + 1) <> 0) /\ gap + 2 <= top)) as [Hs|Hs].
  2: { cbn [mbind option_bind]. rewrite decide_False by lia. rewrite set_aData_same. exact Hrest. }
  unfold pageFindSlot, check. rewrite (get2byte_rd (aData P) (hdrOffset P + 1)) by (done || lia). cbn [mbind option_bind].
  pose proof (rd2_range (aData P) (hdrOffset P + 1) Hok). rewrite decide_True by lia. cbn [mbind option_bind].
  pose proof (pk_chain _ _ _ _ _ H) as Hc.
  destruct (find_slot_spec (hdrOffset P) (usable P) n fs (length (aData P)) (aData P) (hdrOffset P + 1) (top + 1)) as (slot & D' & E & Hr);
    try done; try lia.
  { intros ->. apply chain_nil in Hc. lia. }
  { pose proof (chain_length _ _ _ _ _ Hc ltac:(lia)). lia. }
  rewrite E. cbn [mbind option_bind]. destruct slot as [g|].
  - destruct Hr as (fs' & x & Ht). pose proof (tk_low _ _ _ _ _ _ _ _ _ _ _ Ht). pose proof (tk_high _ _ _ _ _ _ _ _ _ _ _ Ht).
    rewrite (decide_True (P := g + n <= usable (set_aData D' P))) by (change (usable (set_aData D' P)) with (usable P); lia).
    cbn [mbind option_bind]. rewrite (decide_False (P := g <= gap)) by lia.
    eexists g, D', cs, fs', top. split; [done|]. split; [done|]. split; [by apply (allocate_slot P cs fs top n g D' fs' x)|lia].
  - rewrite Hr. rewrite decide_False by lia. rewrite set_aData_same. exact Hrest.
Qed.

(** ** Inserting *)

(** A cell as the page takes it: at least four bytes, as many as the size routine of the page says. *)
Definition valid_cell (P : MemPage) (c : bytes) : Prop := 4 <= len c /\ bytes_ok c /\ cellSize_of P c = Some (len c).

Lemma exts_app (l1 l2 : list (Z * bytes)) : exts (l1 ++ l2) = exts l1 ++ exts l2.
Proof. apply fmap_app. Qed.

Lemma cov_middle (l1 l2 : list (Z * bytes)) c y : cov (exts (l1 ++ c :: l2)) y = ind (c.1, len c.2) y + cov (exts (l1 ++ l2)) y.
Proof. rewrite !exts_app, !cov_app, cov_cons. lia. Qed.

Lemma total_middle (l1 l2 : list (Z * bytes)) c : total (exts (l1 ++ c :: l2)) = len c.2 + total (exts (l1 ++ l2)).
Proof. rewrite !exts_app, !total_app, total_cons. lia. Qed.

(** [data] is the page with a cell stored in the extent that was taken. *)
Lemma add_pointer_spec P l1 l2 fs top g c data nf : page_ok P [(g, len c)] (l1 ++ l2) fs top -> valid_cell P c ->
  cellOffset P + 2 * nCell P + 2 <= top -> top <= g -> g + len c <= usable P ->
  bytes_ok data -> length data = length (aData P) -> (forall j, ~ (g <= j < g + len c) -> rd data j = rd (aData P) j) ->
  sub data g (len c) = c -> nf = nFree P - (2 + len c) ->
  exists P', add_pointer (set_nFree nf P) (Z.of_nat (length l1)) g data = Some (SQLITE_OK, P') /\
    page_ok P' [] (l1 ++ (g, c) :: l2) fs top.
Proof.
  intros H (V1 & V2 & V3) Hg1 Hg2 Hg3 Hok Hl Hs Hc Hnf.
  pose proof (page_bounds _ _ _ _ _ H) as (B1 & B2 & B3 & B4 & B5 & B6 & B7 & B8). rewrite length_app in B8.
  set (i := Z.of_nat (length l1)) in *. set (co := cellOffset P) in *. set (hdr := hdrOffset P) in *. set (D := aData P) in *.
  unfold add_pointer. change (cellOffset (set_nFree nf P)) with co. change (nCell (set_nFree nf P)) with (nCell P). change (hdrOffset (set_nFree nf P)) with hdr.
  assert (Hi : 0 <= i <= nCell P) by lia.
  unfold memmove_buf. rewrite slice_sub by lia. cbn [mbind option_bind].
  pose proof (length_sub data (co + i * 2) (2 * (nCell P - i)) ltac:(lia) ltac:(lia) ltac:(lia)) as Hls.
  rewrite st_upd by lia. cbn [mbind option_bind]. set (d1 := upd data _ _).
  assert (Hl1 : len d1 = len D) by (unfold d1; rewrite length_upd by lia; lia).
  rewrite put2byte_upd by lia. cbn [mbind option_bind]. set (d2 := upd d1 _ _).
  assert (Hl2 : len d2 = len D) by (unfold d2; rewrite length_upd by (rewrite ?len_two; lia); lia).
  assert (Hrd2 : forall j, rd d2 j = if decide (co + i * 2 <= j < co + i * 2 + 2) then rd (two g) (j - (co + i * 2))
     else if decide (co + i * 2 + 2 <= j < co + 2 * nCell P + 2) then rd data (j - 2) else rd data j).
  { intros j. unfold d2. rewrite rd_upd by (rewrite ?len_two; lia). rewrite len_two.
    destruct (decide (co + i * 2 <= j < co + i * 2 + 2)); [done|]. unfold d1. rewrite rd_upd by lia. rewrite Hls.
    destruct (decide (co + i * 2 + 2 <= j < co + 2 * nCell P + 2)); [rewrite decide_True by lia|by rewrite decide_False by lia].
    rewrite rd_sub by lia. rewrite decide_True by lia. f_equal. lia. }
  assert (Hok2 : bytes_ok d2) by (apply bytes_ok_upd; [apply bytes_ok_upd; [done|by apply bytes_ok_sub]|apply two_ok]).
  rewrite (ld_rd d2) by lia. cbn [mbind option_bind]. pose proof (pk_count _ _ _ _ _ H) as Hcount. fold hdr D in Hcount.
  assert (Hh3 : rd d2 (hdr + 3) = rd D (hdr + 3)) by (rewrite Hrd2, !decide_False by lia; apply Hs; lia).
  assert (Hh4 : rd d2 (hdr + 4) = rd D (hdr + 4)) by (rewrite Hrd2, !decide_False by lia; apply Hs; lia).
  pose proof (rd_range d2 (hdr + 3) Hok2) as R3. pose proof (rd_range d2 (hdr + 4) Hok2) as R4.
  assert (exists d4, (data0 ← st d2 (hdr + 4) [u8 (rd d2 (hdr + 4) + 1)];
             data1 ← (if decide (u8 (rd d2 (hdr + 4) + 1) = 0) then a ← ld data0 (hdr + 3); st data0 (hdr + 3) [u8 (a + 1)] else Some data0);
             Some (SQLITE_OK, set_nCell (nCell P + 1) (set_aData data1 (set_nFree nf P)))) =
            Some (SQLITE_OK, set_nCell (nCell P + 1) (set_aData d4 (set_nFree nf P))) /\
      bytes_ok d4 /\ len d4 = len D /\ rd2 d4 (hdr + 3) = nCell P + 1 /\ (forall j, j < hdr + 3 \/ hdr + 5 <= j -> rd d4 j = rd d2 j))
    as (d4 & -> & Hok4 & Hl4 & Hc4 & Hs4).
  { rewrite st_upd by (cbn [length]; lia). cbn [mbind option_bind]. set (v := u8 (rd d2 (hdr + 4) + 1)). set (d3 := upd d2 (hdr + 4) [v]).
    assert (Hl3 : len d3 = len D) by (unfold d3; rewrite length_upd by (cbn [length]; lia); lia).
    assert (Hv : 0 <= v < 256) by (unfold v, wrapu; apply Z.mod_pos_bound; lia).
    assert (Hok3 : bytes_ok d3) by (apply bytes_ok_upd; [done|by apply byte_1]).
    assert (Hrd3 : forall j, rd d3 j = if decide (j = hdr + 4) then v else rd d2 j).
    { intros j. unfold d3. case_decide as Hj; [subst j; apply rd_upd_1; lia|].
      rewrite rd_upd by (cbn [length]; lia). by rewrite decide_False by (cbn [length]; lia). }
    assert (Hsum : rd2 D (hdr + 3) = 256 * rd D (hdr + 3) + rd D (hdr + 4)) by (unfold rd2; do 2 f_equal; lia).
    destruct (decide (v = 0)) as [Hv0|Hv0].
    - assert (Hr4 : rd d2 (hdr + 4) = 255) by (unfold v, wrapu in Hv0; change (2 ^ 8) with 256 in Hv0; Z.to_euclidean_division_equations; lia).
      rewrite ld_rd by lia. cbn [mbind option_bind]. rewrite Hrd3, decide_False by lia. rewrite u8_small by lia.
      rewrite st_upd by (cbn [length]; lia). cbn [mbind option_bind]. eexists. split; [done|].
      split; [apply bytes_ok_upd; [done|apply byte_1; lia]|]. split; [rewrite length_upd by (cbn [length]; lia); done|]. split.
      + unfold rd2. rewrite rd_upd_1 by lia. rewrite rd_upd by (cbn [length]; lia). rewrite decide_False by (cbn [length]; lia).
        rewrite Hrd3, decide_True by lia. lia.
      + intros j Hj. rewrite rd_upd by (cbn [length]; lia). rewrite decide_False by (cbn [length]; lia). rewrite Hrd3. by rewrite decide_False by lia.
    - exists d3. split; [done|]. split; [done|]. split; [done|]. split.
      + assert (v = rd d2 (hdr + 4) + 1) as Ev.
        { unfold v, wrapu in *. change (2 ^ 8) with 256 in *. Z.to_euclidean_division_equations. lia. }
        unfold rd2. rewrite !Hrd3. rewrite decide_False, decide_True by lia. lia.
      + intros j Hj. rewrite Hrd3. by rewrite decide_False by lia. }
  eexists. split; [done|].
  assert (Hlow : forall j, hdr + 5 <= j < hdr + 8 \/ j < hdr + 3 -> rd d4 j = rd D j).
  { intros j Hj. rewrite Hs4, Hrd2 by lia. rewrite !decide_False by lia. apply Hs. lia. }
  assert (Hhigh : forall j, top <= j -> rd d4 j = rd data j).
  { intros j Hj. rewrite Hs4, Hrd2 by lia. by rewrite !decide_False by lia. }
  assert (Hdis : forall y, g <= y < g + len c -> cov (exts (l1 ++ l2)) y = 0 /\ cov fs y = 0).
  { intros y Hy. pose proof (pk_cov _ _ _ _ _ H y) as Hcv. cbn [cov] in Hcv. rewrite (ind_in g (len c)) in Hcv by lia.
    pose proof (cov_nonneg (exts (l1 ++ l2)) y). pose proof (cov_nonneg fs y). lia. }
  split; cbn [set_aData set_nCell set_nFree hdrOffset childPtrSize cellOffset aData nCell nFree apOvfl isInit maskPage pBt];
    change (usable (set_nCell (nCell P + 1) (set_aData d4 (set_nFree nf P)))) with (usable P); fold co hdr D.
  - by apply (pk_hdr _ _ _ _ _ H).
  - by apply (pk_child _ _ _ _ _ H).
  - by apply (pk_offset _ _ _ _ _ H).
  - by apply (pk_usable _ _ _ _ _ H).
  - rewrite Hl4. by apply (pk_len _ _ _ _ _ H).
  - done.
  - rewrite Hlow by lia. rewrite decode_nCell, decode_aData, decode_nFree. unfold D, hdr. by rewrite (pk_kind _ _ _ _ _ H).
  - rewrite length_app. cbn [length]. lia.
  - done.
  - rewrite <- (pk_top _ _ _ _ _ H). apply rd2_ext; apply Hlow; fold hdr; lia.
  - lia.
  - intros k x Hk. pose proof (lookup_lt_Some _ _ _ Hk) as Hkl. rewrite length_app in Hkl. cbn [length] in Hkl.
    assert (E2 : rd2 d4 (co + 2 * Z.of_nat k) = rd2 d2 (co + 2 * Z.of_nat k)) by (apply rd2_ext; apply Hs4; lia). rewrite E2. clear E2.
    destruct (decide (k < length l1)%nat) as [Hkl1|Hkl1]; [|destruct (decide (k = length l1)) as [->|Hne]].
    + rewrite lookup_app_l in Hk by done. rewrite <- (pk_ptr _ _ _ _ _ H k x) by (by rewrite lookup_app_l). fold co D.
      apply rd2_ext; rewrite Hrd2, !decide_False by lia; apply Hs; lia.
    + rewrite list_lookup_middle in Hk by done. injection Hk as <-. cbn [fst]. fold i. unfold d2. replace (co + 2 * i) with (co + i * 2) by lia.
      rewrite rd2_upd_two by lia. rewrite Z.mod_small by lia. done.
    + rewrite lookup_app_r in Hk by lia. replace (k - length l1)%nat with (S (k - length l1 - 1)) in Hk by lia. cbn in Hk.
      rewrite <- (pk_ptr _ _ _ _ _ H (k - 1)%nat x). 2: { rewrite lookup_app_r by lia. rewrite <- Hk. f_equal. lia. }
      fold co D. apply rd2_ext; rewrite Hrd2, decide_False, decide_True by lia; rewrite Hs by lia; f_equal; lia.
  - intros x Hx. apply elem_of_app in Hx. rewrite elem_of_cons in Hx.
    assert (Hx' : x = (g, c) \/ x ∈ l1 ++ l2) by (rewrite elem_of_app; tauto). clear Hx. destruct Hx' as [->|Hx]; cbn [fst snd].
    + split; [done|]. split; [done|]. split; [done|]. split; [|done]. apply sub_is; [lia|lia|].
      intros j Hj. rewrite Hhigh by lia. by apply rd_of_sub; [lia|done|].
    + pose proof (pk_cell _ _ _ _ _ H x Hx) as (C1 & C2 & C3 & C4 & C5). split; [done|]. split; [done|]. split; [done|]. split; [|done].
      apply sub_is; [lia|lia|]. intros j Hj. rewrite Hhigh by lia. rewrite Hs.
      * by apply rd_of_sub; [lia|done|].
      * intros Hy. destruct (Hdis _ Hy) as [Hz _]. pose proof (cov_cell x _ (x.1 + j) Hx ltac:(lia)). lia.
  - apply (chain_frame _ D d4 (hdr + 1)); [by apply (pk_chain _ _ _ _ _ H)|apply rd2_ext; apply Hlow; lia|].
    intros e He. pose proof (chain_bounds _ _ _ _ _ (pk_chain _ _ _ _ _ H) e He).
    assert (Hin : forall j, e.1 <= j < e.1 + 4 -> rd d4 j = rd D j).
    { intros j Hj. rewrite Hhigh by lia. apply Hs. intros Hy. destruct (Hdis _ Hy) as [_ Hz]. pose proof (cov_in fs e j He) as Hce.
      destruct e as [e1 e2]. cbn [fst snd] in *. rewrite ind_in in Hce by lia. lia. }
    split; apply rd2_ext; apply Hin; lia.
  - intros y. rewrite cov_middle. pose proof (pk_cov _ _ _ _ _ H y) as Hcv. cbn [cov fst snd] in *. lia.
  - rewrite Hlow by lia. rewrite total_middle. pose proof (pk_frag _ _ _ _ _ H) as Hf. fold D hdr in Hf. cbn [total fst snd] in *. lia.
  - rewrite Hlow by lia. by apply (pk_60 _ _ _ _ _ H).
  - intros E. by destruct l1.
  - rewrite total_middle. pose proof (pk_free _ _ _ _ _ H) as Hf. fold co in Hf. cbn [snd]. lia.
  - by apply (pk_ovfl _ _ _ _ _ H).
  - by apply (pk_init _ _ _ _ _ H).
  - by apply (pk_mask _ _ _ _ _ H).
  - rewrite Hl4. by apply (pk_page _ _ _ _ _ H).
Qed.

Lemma sub_upd D i c : 0 <= i -> i + len c <= len D -> sub (upd D i c) i (len c) = c.
Proof.
  intros H1 H2. apply sub_is; [lia|rewrite length_upd by lia; lia|]. intros j Hj. rewrite rd_upd by lia. rewrite decide_True by lia. f_equal. lia.
Qed.

Lemma cell_room P cs fs top c : page_ok P [] cs fs top -> valid_cell P c -> len c + 2 <= nFree P -> 0 <= 2 + len c < 65536.
Proof.
  intros H (V & _) Hf. pose proof (page_bounds _ _ _ _ _ H) as (B1 & B2 & B3 & B4 & B5 & B6 & B7 & B8).
  pose proof (pk_free _ _ _ _ _ H). pose proof (total_nonneg cs). lia.
Qed.

(** The part both routines share: the bytes [data] hold the cell [c] at the space found. *)
Lemma insert_at P cs fs top i c : page_ok P [] cs fs top -> valid_cell P c -> len c + 2 <= nFree P -> (i <= length cs)%nat ->
  exists g D1, allocateSpace P (len c) = Some (SQLITE_OK, g, set_aData D1 P) /\ 0 <= g /\ g + len c <= usable P /\ usable P <= len D1 /\ bytes_ok D1 /\
    forall data, bytes_ok data -> length data = length D1 -> (forall j, ~ (g <= j < g + len c) -> rd data j = rd D1 j) -> sub data g (len c) = c ->
    exists P' cs' fs' top', add_pointer (set_nFree (nFree P - u16 (2 + len c)) (set_aData D1 P)) (Z.of_nat i) g data = Some (SQLITE_OK, P') /\
      page_ok P' [] cs' fs' top' /\ cs'.*2 = take i cs.*2 ++ c :: drop i cs.*2.
Proof.
  intros H V Hf Hi. destruct (allocateSpace_spec P cs fs top (len c) H) as (g & D1 & cs1 & fs1 & top1 & E & Hcs & Hp & Hg1 & Hg2 & Hg3);
    [apply V|lia|]. exists g, D1. pose proof (page_bounds _ _ _ _ _ Hp) as (C1 & C2 & C3 & C4 & C5 & C6 & C7 & C8).
  split; [done|]. split; [lia|]. split; [done|]. split; [done|]. split; [apply (pk_ok _ _ _ _ _ Hp)|].
  intros data Hok Hl Hs Hc. pose proof (length_contents _ _ Hcs) as Hlen. rewrite (u16_small (2 + len c)) by (by apply (cell_room P cs fs top)).
  rewrite <- (take_drop i cs1) in Hp.
  destruct (add_pointer_spec (set_aData D1 P) (take i cs1) (drop i cs1) fs1 top1 g c data _ Hp V Hg1 Hg2 Hg3 Hok Hl Hs Hc eq_refl) as (P' & E' & Hp').
  rewrite length_take in E'. replace (i `min` length cs1)%nat with i in E' by lia.
  exists P', (take i cs1 ++ (g, c) :: drop i cs1), fs1, top1. split; [done|]. split; [done|].
  by rewrite fmap_app, fmap_cons, fmap_take, fmap_drop, Hcs.
Qed.

Lemma insertCellFast_spec P cs fs top i c : page_ok P [] cs fs top -> valid_cell P c -> len c + 2 <= nFree P -> (i <= length cs)%nat ->
  exists P' cs' fs' top', insertCellFast P (Z.of_nat i) c (len c) SQLITE_OK = Some (SQLITE_OK, P') /\
    page_ok P' [] cs' fs' top' /\ cs'.*2 = take i cs.*2 ++ c :: drop i cs.*2.
Proof.
  intros H V Hf Hi. pose proof (page_bounds _ _ _ _ _ H) as (B1 & B2 & B3 & B4 & B5 & B6 & B7 & B8).
  pose proof (cell_room P cs fs top c H V Hf) as Hroom.
  destruct (insert_at P cs fs top i c H V Hf Hi) as (g & D1 & E & G1 & G2 & G3 & Hok1 & Hdata). unfold insertCellFast, check.
  rewrite (pk_ovfl _ _ _ _ _ H). cbn [length].
  rewrite (decide_True (P := 0 <= Z.of_nat i <= nCell P + Z.of_nat 0 /\ 0 <= nFree P /\ [] = [])) by (repeat split; (done || lia)).
  cbn [mbind option_bind]. rewrite decide_False by lia.
  rewrite decide_False by lia. rewrite E. cbn [mbind option_bind]. rewrite decide_False by lia.
  rewrite decide_True by (split; [done|exact G2]). cbn [mbind option_bind]. rewrite slice_sub by lia. cbn [mbind option_bind]. rewrite sub_all.
  change (aData (set_nFree _ (set_aData D1 P))) with D1. rewrite st_upd by lia. cbn [mbind option_bind].
  destruct V as (V1 & V2 & V3). destruct (Hdata (upd D1 g c)) as (P' & cs' & fs' & top' & Ha & Hp & Hcs).
  - by apply bytes_ok_upd.
  - apply length_upd; lia.
  - intros j Hj. rewrite rd_upd by lia. by rewrite decide_False by lia.
  - apply sub_upd; lia.
  - exists P', cs', fs', top'. split; [exact Ha|]. done.
Qed.

(** The page number of a child, as it is stored in a cell. *)
Definition with_child (iChild : Z) (c : bytes) : bytes := four iChild ++ drop 4 c.

Lemma interior_sizes P : decodeFlags P (rd (aData P) (hdrOffset P)) = (SQLITE_OK, P) -> childPtrSize P = 4 ->
  xCellSize P = cellSizePtr \/ xCellSize P = cellSizePtrNoPayload.
Proof.
  intros H Hc. unfold decodeFlags in H. repeat case_decide; injection H as H; try done; rewrite <- H in Hc |- *; cbn in Hc |- *; auto; done.
Qed.

Lemma with_child_valid P iChild c : decodeFlags P (rd (aData P) (hdrOffset P)) = (SQLITE_OK, P) -> childPtrSize P = 4 ->
  valid_cell P c -> valid_cell P (with_child iChild c) /\ length (with_child iChild c) = length c.
Proof.
  intros Hk Hc (V1 & V2 & V3). assert (Hl : length (with_child iChild c) = length c).
  { unfold with_child. rewrite length_app, length_drop. cbn [length four]. lia. }
  split; [|done]. split; [lia|]. split; [apply bytes_ok_app; split; [apply four_ok|by apply Forall_drop]|].
  rewrite Hl, <- V3. assert (Hd : drop 4 (with_child iChild c) = drop 4 c) by done.
  unfold cellSize_of. destruct (interior_sizes P Hk Hc) as [-> | ->]; by rewrite Hd.
Qed.

Lemma insertCell_spec P cs fs top i c pTemp iChild : page_ok P [] cs fs top -> childPtrSize P = 4 -> valid_cell P c -> 0 < iChild ->
  len c + 2 <= nFree P -> (i <= length cs)%nat ->
  exists P' cs' fs' top', insertCell P (Z.of_nat i) c (len c) pTemp iChild SQLITE_OK = Some (SQLITE_OK, P') /\
    page_ok P' [] cs' fs' top' /\ cs'.*2 = take i cs.*2 ++ with_child iChild c :: drop i cs.*2.
Proof.
  intros H Hch V Hic Hf Hi. pose proof (page_bounds _ _ _ _ _ H) as (B1 & B2 & B3 & B4 & B5 & B6 & B7 & B8).
  destruct (with_child_valid P iChild c (pk_kind _ _ _ _ _ H) Hch V) as [V' Hlc].
  pose proof (cell_room P cs fs top c H V Hf) as Hroom. destruct V as (V1 & V2 & V3).
  destruct (insert_at P cs fs top i (with_child iChild c) H V') as (g & D1 & E & G1 & G2 & G3 & Hok1 & Hdata); [lia|done|].
  rewrite Hlc in *. unfold insertCell, check. rewrite (pk_ovfl _ _ _ _ _ H). cbn [length].
  rewrite (decide_True (P := 0 <= Z.of_nat i <= nCell P + Z.of_nat 0 /\ 0 <= nFree P /\ 0 < iChild)) by lia.
  cbn [mbind option_bind]. rewrite decide_False by (intros [?|?]; [done|lia]).
  rewrite decide_False by lia. rewrite E. cbn [mbind option_bind]. rewrite decide_False by lia.
  rewrite decide_True by (split; [done|exact G2]). cbn [mbind option_bind]. rewrite slice_sub by lia. cbn [mbind option_bind].
  change (aData (set_nFree _ (set_aData D1 P))) with D1.
  assert (Hls : len (sub c 4 (len c - 4)) = len c - 4) by (apply length_sub; lia).
  rewrite st_upd by lia. cbn [mbind option_bind]. unfold sqlite3Put4byte. change [u8 (Z.shiftr iChild 24); u8 (Z.shiftr iChild 16); u8 (Z.shiftr iChild 8); u8 iChild] with (four iChild).
  set (d1 := upd D1 (g + 4) (sub c 4 (len c - 4))). assert (Hl1 : length d1 = length D1) by (apply length_upd; lia).
  assert (Hlf : len (four iChild) = 4) by done.
  rewrite st_upd by lia. cbn [mbind option_bind].
  assert (Hrd : forall j, rd (upd d1 g (four iChild)) j = if decide (g <= j < g + len c) then rd (with_child iChild c) (j - g) else rd D1 j).
  { intros j. rewrite rd_upd by lia. rewrite Hlf. assert (Hw : with_child iChild c = upd c 0 (four iChild)) by done. rewrite Hw, rd_upd, Hlf by lia.
    destruct (decide (g <= j < g + 4)).
    - rewrite (decide_True (P := g <= j < g + len c)) by lia. rewrite decide_True by lia. f_equal. lia.
    - unfold d1. rewrite rd_upd, Hls by lia. replace (g + 4 + (len c - 4)) with (g + len c) by lia.
      destruct (decide (g <= j < g + len c)); [|by rewrite decide_False by lia]. rewrite decide_True by lia. rewrite (decide_False (P := 0 <= j - g < 0 + 4)) by lia.
      rewrite rd_sub by lia. rewrite decide_True by lia. f_equal. lia. }
  destruct (Hdata (upd d1 g (four iChild))) as (P' & cs' & fs' & top' & Ha & Hp & Hcs).
  - repeat apply bytes_ok_upd; [done|by apply bytes_ok_sub|apply four_ok].
  - rewrite length_upd by lia. done.
  - intros j Hj. rewrite Hrd. by rewrite decide_False.
  - rewrite <- Hlc. apply sub_is; [lia|rewrite length_upd by lia; lia|]. intros j Hj. rewrite Hrd, decide_True by lia. f_equal. lia.
  - exists P', cs', fs', top'. split; [exact Ha|]. done.
Qed.

(** A cell that does not fit goes to the overflow slots; the page stays as it is. *)
Lemma insert_overflow P cs fs top i c rc : page_ok P [] cs fs top -> nFree P < len c + 2 -> (i <= length cs)%nat ->
  insertCellFast P (Z.of_nat i) c (len c) rc = Some (SQLITE_OK, add_overflow (Z.of_nat i) c P).
Proof.
  intros H Hf Hi. pose proof (page_bounds _ _ _ _ _ H) as (B1 & B2 & B3 & B4 & B5 & B6 & B7 & B8).
  pose proof (total_cells _ _ _ _ _ H). pose proof (pk_free _ _ _ _ _ H). unfold insertCellFast, check. rewrite (pk_ovfl _ _ _ _ _ H). cbn [length].
  rewrite (decide_True (P := 0 <= Z.of_nat i <= nCell P + Z.of_nat 0 /\ 0 <= nFree P /\ [] = [])) by (repeat split; (done || lia)).
  cbn [mbind option_bind]. rewrite decide_True by lia. unfold overflow_cell, check. by rewrite (pk_ovfl _ _ _ _ _ H).
Qed.

(** ** Removing *)

Lemma dropCell_spec P l1 l2 c fs top : page_ok P [] (l1 ++ c :: l2) fs top ->
  exists P' fs' top', dropCell P (Z.of_nat (length l1)) (len c.2) SQLITE_OK = Some (SQLITE_OK, P') /\ page_ok P' [] (l1 ++ l2) fs' top'.
Proof.
  intros H. pose proof (page_bounds _ _ _ _ _ H) as (B1 & B2 & B3 & B4 & B5 & B6 & B7 & B8). rewrite length_app in B8. cbn [length] in B8.
  set (i := Z.of_nat (length l1)) in *. set (co := cellOffset P) in *. set (hdr := hdrOffset P) in *.
  assert (Hin : forall x, x ∈ l1 ++ l2 -> x ∈ l1 ++ c :: l2).
  { intros x. rewrite !elem_of_app, elem_of_cons. tauto. }
  assert (Hc : c ∈ l1 ++ c :: l2) by (rewrite elem_of_app, elem_of_cons; tauto).
  pose proof (pk_cell _ _ _ _ _ H c Hc) as (C1 & C2 & C3 & C4 & C5). pose proof (pk_ok _ _ _ _ _ H) as Hok.
  pose proof (pk_frag _ _ _ _ _ H) as Hf. rewrite total_middle in Hf. cbn [total] in Hf.
  pose proof (pk_free _ _ _ _ _ H) as Hfree. rewrite total_middle in Hfree. pose proof (total_cells _ _ _ _ _ H) as Htc. rewrite total_middle in Htc.
  destruct (freeSpace_spec P (exts (l1 ++ l2)) fs c.1 (len c.2) top) as (D1 & fs1 & top1 & E & Hfr); try done; try lia.
  { by apply (pk_chain _ _ _ _ _ H). }
  { apply Forall_forall. intros e (x & Hx & ->)%exts_in. apply Hin in Hx. apply (pk_cell _ _ _ _ _ H) in Hx. cbn. lia. }
  { apply Forall_forall. intros e (x & Hx & ->)%exts_in. apply Hin in Hx. apply (pk_cell _ _ _ _ _ H) in Hx. cbn. lia. }
  { intros y. pose proof (pk_cov _ _ _ _ _ H y) as Hcv. rewrite cov_middle in Hcv. cbn [cov] in Hcv. lia. }
  { apply (top_read _ _ _ _ _ H). lia. }
  destruct Hfr as [Rc Rt Rg Rcov Rw Rf R60 Rok Rl Rs]. fold hdr in Rc, Rt, Rf, R60, Rs.
  unfold dropCell, check. rewrite decide_False by lia. rewrite decide_True by lia. cbn [mbind option_bind].
  rewrite get2byte_rd by (done || (fold co; lia)). cbn [mbind option_bind].
  assert (Hpc : rd2 (aData P) (cellOffset P + 2 * i) = c.1).
  { apply (pk_ptr _ _ _ _ _ H (length l1) c). by apply list_lookup_middle. }
  rewrite Hpc. assert (Hu : u32 (c.1 + len c.2) = c.1 + len c.2).
  { apply wrapu_id. unfold in_u. change (2 ^ 32) with 4294967296. lia. }
  rewrite Hu, (u16_small (len c.2)) by lia. rewrite decide_False by lia. rewrite E. cbn [mbind option_bind]. rewrite decide_False by lia.
  change (nCell (set_nCell _ _)) with (nCell P - 1). change (aData (set_nCell _ _)) with D1. change (usable (set_nCell _ _)) with (usable P).
  change (childPtrSize (set_nCell _ _)) with (childPtrSize P). change (nFree (set_nCell _ _)) with (nFree P + len c.2). fold hdr co.
  assert (Hlow : forall j, j < top -> ~ (hdr + 1 <= j < hdr + 3) -> ~ (hdr + 5 <= j < hdr + 8) -> rd D1 j = rd (aData P) j).
  { intros j Hj1 Hj2 Hj3. apply Rs. left. lia. }
  assert (Hcells : forall x, x ∈ l1 ++ l2 -> sub D1 x.1 (len x.2) = x.2).
  { intros x Hx. pose proof (pk_cell _ _ _ _ _ H x (Hin x Hx)) as (X1 & X2 & X3 & X4 & X5). apply sub_is; [lia|lia|].
    intros j Hj. rewrite Rs by (right; apply (cov_cell x); [done|lia]). by apply rd_of_sub; [lia|done|]. }
  pose proof (pk_offset _ _ _ _ _ H) as Hoff. fold co hdr in Hoff.
  destruct (decide (nCell P - 1 = 0)) as [Hz|Hz].
  - assert (l1 = [] /\ l2 = []) as [-> ->] by (split; apply nil_length_inv; lia). cbn [app length] in *.
    unfold memset. rewrite decide_True by lia. rewrite st_upd by (rewrite ?length_replicate; lia). cbn [mbind option_bind].
    set (d2 := upd D1 (hdr + 1) _). assert (Hl2 : len d2 = len D1) by (unfold d2; rewrite length_upd by (rewrite ?length_replicate; lia); done).
    rewrite st_upd by (cbn [length]; lia). cbn [mbind option_bind]. set (d3 := upd d2 (hdr + 7) [0]).
    assert (Hl3 : len d3 = len D1) by (unfold d3; rewrite length_upd by (cbn [length]; lia); done).
    rewrite put2byte_upd by lia. cbn [mbind option_bind]. set (D' := upd d3 (hdr + 5) _).
    assert (Hz1 : forall j, hdr + 1 <= j < hdr + 5 -> rd D' j = 0).
    { intros j Hj. unfold D'. rewrite rd_upd_two by lia. unfold d3. rewrite rd_upd by (cbn [length]; lia). rewrite decide_False by (cbn [length]; lia).
      unfold d2. rewrite rd_upd by (rewrite ?length_replicate; lia). rewrite decide_True by (rewrite ?length_replicate; lia). apply (rd_replicate 4). lia. }
    assert (H7 : rd D' (hdr + 7) = 0).
    { unfold D'. rewrite rd_upd_two by lia. unfold d3. apply rd_upd_1. lia. }
    assert (H0 : rd D' hdr = rd (aData P) hdr).
    { unfold D'. rewrite rd_upd_two by lia. unfold d3. rewrite rd_upd by (cbn [length]; lia). rewrite decide_False by (cbn [length]; lia).
      unfold d2. rewrite rd_upd by (rewrite ?length_replicate; lia). rewrite decide_False by (rewrite ?length_replicate; lia). apply Hlow; lia. }
    eexists _, [], (usable P). split; [done|].
    split; cbn [set_aData set_nCell set_nFree hdrOffset childPtrSize cellOffset aData nCell nFree apOvfl isInit maskPage pBt]; fold co hdr;
      change (usable (set_nFree _ _)) with (usable P).
    + by apply (pk_hdr _ _ _ _ _ H).
    + by apply (pk_child _ _ _ _ _ H).
    + done.
    + by apply (pk_usable _ _ _ _ _ H).
    + unfold D'. rewrite length_upd by (rewrite ?len_two; lia). pose proof (pk_len _ _ _ _ _ H). lia.
    + apply bytes_ok_upd; [apply bytes_ok_upd; [apply bytes_ok_upd; [done|apply bytes_ok_replicate]|by apply byte_1]|apply two_ok].
    + rewrite H0. rewrite decode_nFree, decode_aData, decode_nCell, decode_nFree, decode_aData. unfold hdr. by rewrite (pk_kind _ _ _ _ _ H).
    + cbn. lia.
    + rewrite Hz. unfold rd2. rewrite !Hz1 by lia. done.
    + unfold D'. by rewrite rd2_upd_two by lia.
    + lia.
    + intros k x Hk. done.
    + intros x Hx. by apply elem_of_nil in Hx.
    + apply chain_nil. unfold rd2. rewrite !Hz1 by lia. done.
    + intros y. cbn. done.
    + rewrite H7. cbn. lia.
    + rewrite H7. done.
    + done.
    + change (total (exts [])) with 0. lia.
    + by apply (pk_ovfl _ _ _ _ _ H).
    + by apply (pk_init _ _ _ _ _ H).
    + by apply (pk_mask _ _ _ _ _ H).
    + unfold D'. rewrite length_upd by (rewrite ?len_two; lia). rewrite Hl3, Rl. by apply (pk_page _ _ _ _ _ H).
  - unfold memmove_buf. rewrite slice_sub by lia. cbn [mbind option_bind].
    pose proof (length_sub D1 (co + 2 * i + 2) (2 * (nCell P - 1 - i)) ltac:(lia) ltac:(lia) ltac:(lia)) as Hls.
    rewrite st_upd by lia. cbn [mbind option_bind]. set (d2 := upd D1 _ _).
    assert (Hl2 : len d2 = len D1) by (unfold d2; rewrite length_upd by lia; done).
    rewrite put2byte_upd by lia. cbn [mbind option_bind]. set (D' := upd d2 _ _).
    assert (Hrd : forall j, ~ (hdr + 3 <= j < hdr + 5) -> rd D' j = if decide (co + 2 * i <= j < co + 2 * (nCell P - 1)) then rd D1 (j + 2) else rd D1 j).
    { intros j Hj. unfold D'. rewrite rd_upd_two by lia. unfold d2. rewrite rd_upd, Hls by lia. replace (co + 2 * i + 2 * (nCell P - 1 - i)) with (co + 2 * (nCell P - 1)) by lia.
      case_decide; [|done]. rewrite rd_sub by lia. rewrite decide_True by lia. f_equal. lia. }
    assert (Hhigh : forall j, top <= j -> rd D' j = rd D1 j) by (intros j Hj; rewrite Hrd, decide_False by lia; done).
    assert (Hhd : forall j, j < hdr + 3 \/ hdr + 5 <= j < hdr + 8 -> rd D' j = rd D1 j) by (intros j Hj; rewrite Hrd, decide_False by lia; done).
    eexists _, fs1, top1. split; [done|].
    split; cbn [set_aData set_nCell set_nFree hdrOffset childPtrSize cellOffset aData nCell nFree apOvfl isInit maskPage pBt]; fold co hdr;
      change (usable (set_nFree _ _)) with (usable P).
    + by apply (pk_hdr _ _ _ _ _ H).
    + by apply (pk_child _ _ _ _ _ H).
    + done.
    + by apply (pk_usable _ _ _ _ _ H).
    + unfold D'. rewrite length_upd by (rewrite ?len_two; lia). pose proof (pk_len _ _ _ _ _ H). lia.
    + apply bytes_ok_upd; [apply bytes_ok_upd; [done|by apply bytes_ok_sub]|apply two_ok].
    + rewrite Hhd, Hlow by lia. rewrite decode_nFree, decode_aData, decode_nCell, decode_nFree, decode_aData. unfold hdr. by rewrite (pk_kind _ _ _ _ _ H).
    + rewrite length_app. lia.
    + unfold D'. rewrite rd2_upd_two by lia. rewrite Z.mod_small by lia. done.
    + rewrite <- Rt. apply rd2_ext; apply Hhd; lia.
    + lia.
    + intros k x Hk. pose proof (lookup_lt_Some _ _ _ Hk) as Hkl. rewrite length_app in Hkl. destruct (decide (k < length l1)%nat) as [Hkl1|Hkl1].
      * rewrite lookup_app_l in Hk by done. rewrite <- (pk_ptr _ _ _ _ _ H k x) by (by rewrite lookup_app_l). fold co.
        apply rd2_ext; rewrite Hrd, decide_False by lia; apply Hlow; lia.
      * rewrite lookup_app_r in Hk by lia. rewrite <- (pk_ptr _ _ _ _ _ H (S k) x).
        2: { rewrite lookup_app_r by lia. replace (S k - length l1)%nat with (S (k - length l1)) by lia. done. }
        fold co. apply rd2_ext; rewrite Hrd, decide_True by lia; rewrite Hlow by lia; f_equal; lia.
    + intros x Hx. pose proof (pk_cell _ _ _ _ _ H x (Hin x Hx)) as (X1 & X2 & X3 & X4 & X5).
      pose proof (in_within _ _ _ (ext x) Rw (in_exts x _ Hx)) as Hw. cbn [ext fst snd] in Hw.
      split; [lia|]. split; [done|]. split; [done|]. split; [|done].
      rewrite <- (Hcells x Hx) at 2. apply sub_eq; [lia|unfold D'; rewrite length_upd by (rewrite ?len_two; lia); lia|lia|lia|]. intros j Hj. apply Hhigh. lia.
    + apply (chain_frame _ D1 D' (hdr + 1)); [done|apply rd2_ext; apply Hhd; lia|].
      intros e He. pose proof (chain_bounds _ _ _ _ _ Rc e He). split; apply rd2_ext; apply Hhigh; lia.
    + intros y. specialize (Rcov y). cbn [cov]. lia.
    + rewrite Hhd by lia. cbn [total]. lia.
    + rewrite Hhd by lia. pose proof (pk_60 _ _ _ _ _ H) as H6. fold hdr in H6. lia.
    + intros El. apply (f_equal length) in El. rewrite length_app in El. cbn in El. lia.
    + lia.
    + by apply (pk_ovfl _ _ _ _ _ H).
    + by apply (pk_init _ _ _ _ _ H).
    + by apply (pk_mask _ _ _ _ _ H).
    + unfold D'. rewrite length_upd by (rewrite ?len_two; lia). rewrite Hl2, Rl. by apply (pk_page _ _ _ _ _ H).
Qed.
