(* ===== verification/SqlPageInit.v ===== *)
(** * New pages and pages read back

    The routines of [SqlPage] that make a page empty, read its header, check its cells and add up its space,
    on pages in order. *)

From S2P Require Import Prelude Bits SqlVarint SqlBytes SqlCell SqlPage SqlPageSpace SqlPageFree SqlPageOk SqlPageCells.

(** ** Empty pages *)

Lemma decode_geometry a b P f : decodeFlags (set_geometry a b P) f = (fst (decodeFlags P f), set_geometry a b (snd (decodeFlags P f))).
Proof. unfold decodeFlags. by repeat case_decide. Qed.

(** The four values of the flags byte. *)
Definition page_flags (f : Z) : Prop := f = 2 \/ f = 5 \/ f = 10 \/ f = 13.

Lemma page_flags_decode P f : fst (decodeFlags P f) = SQLITE_OK <-> page_flags f.
Proof.
  unfold page_flags. split.
  - unfold decodeFlags. unfold PTF_ZERODATA, PTF_LEAF, PTF_LEAFDATA, PTF_INTKEY. change (Z.lor (Z.lor 4 1) 8) with 13.
    change (Z.lor 2 8) with 10. change (Z.lor 4 1) with 5. repeat case_decide; cbn [fst]; intros E; (discriminate E || lia).
  - intros [->|[->|[->| ->]]]; done.
Qed.

Lemma decode_idem P f : page_flags f -> decodeFlags (snd (decodeFlags P f)) f = (SQLITE_OK, snd (decodeFlags P f)).
Proof. by intros [->|[->|[->| ->]]]. Qed.

(** What the pager and [btreePageFromDbPage] set up for a page of the database [bt]. *)
Record raw_page (P : MemPage) : Prop := {
  rp_hdr : hdrOffset P = 0 \/ hdrOffset P = 100;
  rp_usable : 480 <= usable P <= pageSize (pBt P);
  rp_size : exists k, 9 <= k <= 16 /\ pageSize (pBt P) = 2 ^ k;
  rp_len : len (aData P) = pageSize (pBt P);
  rp_ok : bytes_ok (aData P)
}.

Lemma page_size_range s k : 9 <= k <= 16 -> s = 2 ^ k -> 512 <= s <= 65536.
Proof. intros Hk ->. change 512 with (2 ^ 9). change 65536 with (2 ^ 16). split; apply Z.pow_le_mono_r; lia. Qed.

Lemma zeroPage_spec P flags : raw_page P -> page_flags flags -> exists P', zeroPage P flags = Some P' /\ page_ok P' [] [] [] (usable P) /\
  pBt P' = pBt P /\ hdrOffset P' = hdrOffset P /\ rd (aData P') (hdrOffset P) = flags.
Proof.
  intros [Hh Hu (k & Hk & Hps) Hl Hok] Hf. pose proof (page_size_range _ k Hk Hps) as Hsz. unfold zeroPage.
  set (hdr := hdrOffset P) in *. change (usableSize (pBt P)) with (usable P).
  assert (Hfr : 0 <= flags < 256) by (destruct Hf as [->|[->|[->| ->]]]; lia).
  destruct (erase_spec P hdr (usable P - hdr) (aData P)) as (d0 & -> & Hok0 & Hl0 & _); [lia|lia|lia|done|]. cbn [mbind option_bind].
  rewrite st_upd by (cbn [length]; lia). cbn [mbind option_bind]. rewrite (u8_small flags) by done. set (d1 := upd d0 hdr [flags]).
  assert (Hl1 : len d1 = len (aData P)) by (unfold d1; rewrite length_upd by (cbn [length]; lia); lia).
  unfold memset. rewrite (decide_True (P := 0 <= 4)) by lia. rewrite st_upd by (rewrite ?length_replicate; lia). cbn [mbind option_bind]. set (d2 := upd d1 (hdr + 1) _).
  assert (Hl2 : len d2 = len (aData P)) by (unfold d2; rewrite length_upd by (rewrite ?length_replicate; lia); lia).
  rewrite st_upd by (cbn [length]; lia). cbn [mbind option_bind]. set (d3 := upd d2 (hdr + 7) [0]).
  assert (Hl3 : len d3 = len (aData P)) by (unfold d3; rewrite length_upd by (cbn [length]; lia); lia).
  rewrite put2byte_upd by lia. cbn [mbind option_bind]. set (D' := upd d3 (hdr + 5) (two (usable P))).
  set (Q := set_nFree _ (set_aData D' P)). set (first := hdr + _).
  assert (Hz1 : forall j, hdr + 1 <= j < hdr + 5 -> rd D' j = 0).
  { intros j Hj. unfold D'. rewrite rd_upd_two by lia. unfold d3. rewrite rd_upd by (cbn [length]; lia). rewrite decide_False by (cbn [length]; lia).
    unfold d2. rewrite rd_upd by (rewrite ?length_replicate; lia). rewrite decide_True by (rewrite ?length_replicate; lia). apply (rd_replicate 4). lia. }
  assert (H7 : rd D' (hdr + 7) = 0).
  { unfold D'. rewrite rd_upd_two by lia. unfold d3. apply rd_upd_1. lia. }
  assert (H0 : rd D' hdr = flags).
  { unfold D'. rewrite rd_upd_two by lia. unfold d3. rewrite rd_upd by (cbn [length]; lia). rewrite decide_False by (cbn [length]; lia).
    unfold d2. rewrite rd_upd by (rewrite ?length_replicate; lia). rewrite decide_False by (rewrite ?length_replicate; lia). apply rd_upd_1. lia. }
  rewrite (surjective_pairing (decodeFlags Q flags)). eexists. split; [done|].
  assert (Hq : pBt (snd (decodeFlags Q flags)) = pBt P /\ aData (snd (decodeFlags Q flags)) = D' /\ hdrOffset (snd (decodeFlags Q flags)) = hdr /\
    hdr + 8 + childPtrSize (snd (decodeFlags Q flags)) = first /\ (childPtrSize (snd (decodeFlags Q flags)) = 0 \/ childPtrSize (snd (decodeFlags Q flags)) = 4) /\
    nFree (snd (decodeFlags Q flags)) = u16 (usable P - first)).
  { unfold first. destruct Hf as [->|[->|[->| ->]]]; (split; [done|split; [done|split; [done|split; [first [exact (eq_sym (Z.add_assoc hdr 8 4))|exact (Z.add_0_r (hdr + 8))]|split; [first [by left|by right]|done]]]]]). }
  set (R := snd (decodeFlags Q flags)) in *. destruct Hq as (Q1 & Q2 & Q3 & Q4 & Q5 & Q6).
  assert (HU : usable (set_nCell 0 (set_geometry first true R)) = usable P) by (unfold usable; cbn; by rewrite Q1).
  split; [|split; [exact Q1|split; [exact Q3|change (rd (aData R) hdr = flags); by rewrite Q2]]].
  split; rewrite ?HU; cbn [set_nCell set_geometry hdrOffset childPtrSize cellOffset aData nCell nFree apOvfl isInit maskPage pBt]; rewrite ?Q1, ?Q2, ?Q3.
  - done.
  - done.
  - lia.
  - lia.
  - unfold D'. rewrite length_upd by (rewrite ?len_two; lia). lia.
  - apply bytes_ok_upd; [apply bytes_ok_upd; [apply bytes_ok_upd; [apply bytes_ok_upd; [done|by apply byte_1]|apply bytes_ok_replicate]|by apply byte_1]|apply two_ok].
  - rewrite H0. rewrite decode_nCell, decode_geometry. unfold R. by rewrite decode_idem.
  - done.
  - unfold rd2. rewrite !Hz1 by lia. done.
  - unfold D'. by rewrite rd2_upd_two by lia.
  - lia.
  - intros i c Hi. done.
  - intros c Hc. by apply elem_of_nil in Hc.
  - apply chain_nil. unfold rd2. rewrite !Hz1 by lia. done.
  - intros y. cbn. done.
  - rewrite H7. cbn. lia.
  - by rewrite H7.
  - done.
  - change (total (exts [])) with 0. rewrite Q6, u16_small by lia. lia.
  - done.
  - done.
  - done.
  - unfold D'. rewrite length_upd by (rewrite ?len_two; lia). split; [lia|eauto].
Qed.

(** ** Reading a page back *)

Lemma free_blocks_spec U D l : forall fuel p lo nF, chain U D p lo l -> l <> [] -> bytes_ok D -> U <= len D -> 0 <= lo -> (length l <= fuel)%nat ->
  exists pc size, free_blocks fuel D (U - 4) nF (rd2 D p) = Some (Some (nF + total l, 0, pc, size)) /\ pc + size <= U.
Proof.
  induction l as [|[s n] l IH]; intros fuel p lo nF Hc Hne Hok Hlen Hlo Hf; [done|].
  destruct fuel as [|fuel]; [cbn in Hf; lia|]. apply chain_cons in Hc as (C1 & C2 & C3 & C4 & C5 & Hc). cbn [fst snd] in *.
  cbn [free_blocks]. rewrite C1. rewrite decide_False by lia. rewrite (get2byte_rd D s) by (done || lia). cbn [mbind option_bind].
  rewrite (get2byte_rd D (s + 2)) by (done || lia). cbn [mbind option_bind]. rewrite C3. cbn [total snd].
  destruct l as [|[s2 n2] l].
  - apply chain_nil in Hc as Hz. rewrite Hz. rewrite decide_True by lia. exists s, n. split; [|done]. cbn [total]. do 5 f_equal. lia.
  - pose proof Hc as Hc'. apply chain_cons in Hc as (E1 & E2 & _). cbn [fst snd] in *. rewrite decide_False by lia.
    destruct (IH fuel s (s + n + 4) (nF + n) Hc') as (pc & size & E & Hp); [done|done|done|lia|cbn in *; lia|].
    rewrite E. exists pc, size. split; [|done]. cbn [total snd]. do 5 f_equal. lia.
Qed.

Lemma btreeComputeFreeSpace_spec P cs fs top : page_ok P [] cs fs top ->
  btreeComputeFreeSpace (set_nFree (-1) P) = Some (SQLITE_OK, P).
Proof.
  intros H. pose proof (page_bounds _ _ _ _ _ H) as (B1 & B2 & B3 & B4 & B5 & B6 & B7 & B8). pose proof (pk_ok _ _ _ _ _ H) as Hok.
  pose proof (total_cells _ _ _ _ _ H) as Htc. pose proof (total_nonneg cs) as Hnn. pose proof (pk_offset _ _ _ _ _ H) as Hoff.
  pose proof (pk_free _ _ _ _ _ H) as Hfree. pose proof (pk_frag _ _ _ _ _ H) as Hf. cbn [total] in Hf. pose proof (pk_chain _ _ _ _ _ H) as Hc.
  unfold btreeComputeFreeSpace, check. rewrite decide_True by (split; [exact (pk_init _ _ _ _ _ H)|cbn; lia]). cbn [mbind option_bind].
  change (usable (set_nFree (-1) P)) with (usable P). change (hdrOffset (set_nFree (-1) P)) with (hdrOffset P). change (aData (set_nFree (-1) P)) with (aData P).
  change (childPtrSize (set_nFree (-1) P)) with (childPtrSize P). change (nCell (set_nFree (-1) P)) with (nCell P).
  rewrite get2byteNotZero_rd by (done || lia). cbn [mbind option_bind]. rewrite (pk_top _ _ _ _ _ H).
  assert ((if decide (top mod 65536 = 0) then 65536 else top mod 65536) = top) as ->.
  { destruct (decide (top = 65536)) as [->|]; [done|]. rewrite Z.mod_small by lia. by rewrite decide_False by lia. }
  rewrite get2byte_rd by (done || lia). cbn [mbind option_bind]. rewrite ld_rd by lia. cbn [mbind option_bind].
  set (f := rd (aData P) (hdrOffset P + 7)) in *.
  assert (exists x, (if decide (0 < rd2 (aData P) (hdrOffset P + 1)) then
      if decide (rd2 (aData P) (hdrOffset P + 1) < top) then Some None
      else r ← free_blocks (length (aData P)) (aData P) (usable P - 4) (f + top) (rd2 (aData P) (hdrOffset P + 1));
        Some (match r with
              | None => None
              | Some (nFree, next, pc, size) => if decide (0 < next) then None else if decide (usable P < pc + size) then None else Some nFree
              end)
     else Some (Some (f + top))) = Some (Some x) /\ x = f + top + total fs) as (x & -> & ->).
  { destruct fs as [|[s n] l].
    - apply chain_nil in Hc as Hz. rewrite Hz, decide_False by lia. eexists. split; [done|]. cbn [total]. lia.
    - pose proof Hc as Hc'. apply chain_cons in Hc as (C1 & C2 & _). cbn [fst snd] in *.
      rewrite decide_True by lia. rewrite decide_False by lia.
      destruct (free_blocks_spec (usable P) (aData P) ((s, n) :: l) (length (aData P)) (hdrOffset P + 1) (top + 1) (f + top)) as (pc & size & E & Hp); [done|done|done|done|lia| |].
      { pose proof (chain_length _ _ _ _ _ Hc' ltac:(lia)). lia. }
      rewrite E. cbn [mbind option_bind]. rewrite !decide_False by lia. eauto. }
  cbn [mbind option_bind]. rewrite decide_False by lia. f_equal. f_equal. rewrite u16_small by lia.
  assert (f + top + total fs - (hdrOffset P + 8 + childPtrSize P + 2 * nCell P) = nFree P) as -> by lia. by destruct P.
Qed.

Lemma cell_checks_spec P cs fs top : page_ok P [] cs fs top -> forall l k i, drop i cs = l -> k = length l ->
  cell_checks P (cellOffset P + 2 * nCell P) (if leaf P then usable P - 4 else usable P - 4 - 1) k (Z.of_nat i) = Some SQLITE_OK.
Proof.
  intros H. pose proof (page_bounds _ _ _ _ _ H) as (B1 & B2 & B3 & B4 & B5 & B6 & B7 & B8). pose proof (pk_ok _ _ _ _ _ H) as Hok.
  induction l as [|c l IH]; intros k i Hd ->; [done|]. cbn [length cell_checks].
  assert (Hi : cs !! i = Some c) by (rewrite <- (Nat.add_0_r i), <- lookup_drop, Hd; done).
  pose proof (lookup_lt_Some _ _ _ Hi). pose proof (list_elem_of_lookup_2 _ _ _ Hi) as Hc.
  pose proof (pk_cell _ _ _ _ _ H c Hc) as (C1 & C2 & C3 & C4 & C5).
  rewrite get2byte_rd by (done || lia). cbn [mbind option_bind]. replace (Z.of_nat i * 2) with (2 * Z.of_nat i) by lia. rewrite (pk_ptr _ _ _ _ _ H i c Hi).
  assert (H5 : leaf P = false -> 5 <= len c.2).
  { intros Hlf. assert (xCellSize P = cellSizePtr \/ xCellSize P = cellSizePtrNoPayload) as Hx.
    { apply interior_sizes; [by apply (pk_kind _ _ _ _ _ H)|]. pose proof (pk_kind _ _ _ _ _ H) as Hk. unfold decodeFlags in Hk.
      repeat case_decide; injection Hk as Hk; try done; rewrite <- Hk in Hlf |- *; cbn in Hlf |- *; done. }
    assert (exists b, drop 4 c.2 !! 0%nat = Some b) as [b Hb].
    { unfold cellSize_of in C5. destruct Hx as [E|E]; rewrite E in C5.
      - unfold payload_size in C5. destruct (drop 4 c.2 !! 0%nat); [eauto|done].
      - cbn [skip_to_end] in C5. destruct (drop 4 c.2 !! 0%nat); [eauto|done]. }
    apply lookup_lt_Some in Hb. rewrite length_drop in Hb. lia. }
  rewrite decide_False.
  2: { destruct (leaf P); [lia|]. specialize (H5 eq_refl). lia. }
  rewrite (cellSize_at P (aData P) c.1 c.2) by (done || lia). cbn [mbind option_bind]. rewrite decide_False by lia.
  replace (Z.of_nat i + 1) with (Z.of_nat (S i)) by lia. apply IH; [|done].
  replace (S i) with (i + 1)%nat by lia. rewrite <- drop_drop, Hd. done.
Qed.

Lemma total_min P X cs fs top : page_ok P X cs fs top -> 4 * Z.of_nat (length cs) <= total (exts cs).
Proof.
  intros H. pose proof (cell_sizes _ _ _ _ _ H) as Hz. clear H. induction cs as [|c cs IH]; [done|].
  rewrite total_cons. apply Forall_cons in Hz as [Hz1 Hz2]. specialize (IH Hz2). cbn [length]. unfold ext in Hz1. cbn [snd] in Hz1. lia.
Qed.

(** The page is known from its bytes. *)
Lemma btreeInitPage_spec ck P cs fs top Q : page_ok P [] cs fs top ->
  pBt Q = pBt P -> aData Q = aData P -> hdrOffset Q = hdrOffset P -> isInit Q = false ->
  btreeInitPage ck Q = Some (SQLITE_OK, set_nFree (-1) P).
Proof.
  intros H E1 E2 E3 E4. pose proof (page_bounds _ _ _ _ _ H) as (B1 & B2 & B3 & B4 & B5 & B6 & B7 & B8). pose proof (pk_ok _ _ _ _ _ H) as Hok.
  pose proof (total_cells _ _ _ _ _ H) as Htc. pose proof (total_min _ _ _ _ _ H) as Hmin. destruct (pk_page _ _ _ _ _ H) as [Hpl (k & Hk & Hps)].
  pose proof (pk_kind _ _ _ _ _ H) as Hkind. set (f := rd (aData P) (hdrOffset P)) in *.
  unfold btreeInitPage, check. rewrite decide_True by done. cbn [mbind option_bind]. rewrite E2, E3.
  rewrite (ld_rd (aData P) (hdrOffset P)) by lia. cbn [mbind option_bind]. fold f.
  assert (Hf : page_flags f) by (apply (page_flags_decode P); by rewrite Hkind).
  rewrite (surjective_pairing (decodeFlags Q f)). rewrite (proj2 (page_flags_decode Q f) Hf). rewrite decide_False by lia.
  rewrite (get2byte_rd (aData P)) by (done || lia). cbn [mbind option_bind]. rewrite (pk_count _ _ _ _ _ H).
  assert (Hq : set_geometry (cellOffset P) true (set_nFree (-1) (set_nCell (nCell P) (set_geometry (cellOffset P) (isInit (snd (decodeFlags Q f))) (snd (decodeFlags Q f))))) =
               set_nFree (-1) P /\ childPtrSize (snd (decodeFlags Q f)) = childPtrSize P /\ pBt (snd (decodeFlags Q f)) = pBt P).
  { apply (f_equal snd) in Hkind. cbn [snd] in Hkind.
    pose proof (pk_ovfl _ _ _ _ _ H) as Ho. pose proof (pk_init _ _ _ _ _ H) as Hin. pose proof (pk_mask _ _ _ _ _ H) as Hm.
    clear - E1 E2 E3 Hf Hkind Ho Hin Hm. clearbody f. destruct P, Q. cbn in *. subst.
    destruct Hf as [->|[->|[->| ->]]]; cbn in *; unfold set_kind in Hkind; cbn in Hkind; injection Hkind as <- <- <- <- <- <- <- <- <-; done. }
  destruct Hq as (Hq & Hch & Hbt).
  change (pBt (set_nCell _ _)) with (pBt (snd (decodeFlags Q f))). rewrite Hbt, Hch. pose proof (pk_offset _ _ _ _ _ H) as Hoff. rewrite <- Hoff.
  assert (Hmx : nCell P <= MX_CELL (pBt P)) by (unfold MX_CELL; apply Z.div_le_lower_bound; lia).
  rewrite decide_False by lia. change (cellOffset (set_nCell _ (set_geometry (cellOffset P) _ _))) with (cellOffset P). rewrite Hq.
  destruct ck; [|done]. unfold btreeCellSizeCheck.
  change (cellOffset (set_nFree (-1) P)) with (cellOffset P). change (nCell (set_nFree (-1) P)) with (nCell P).
  change (leaf (set_nFree (-1) P)) with (leaf P). change (usable (set_nFree (-1) P)) with (usable P).
  assert (Hcc : forall a b k i, cell_checks (set_nFree (-1) P) a b k i = cell_checks P a b k i).
  { clear. intros a b k. induction k as [|k IH]; intros i; cbn [cell_checks]; [done|].
    change (aData (set_nFree (-1) P)) with (aData P). change (cellOffset (set_nFree (-1) P)) with (cellOffset P).
    destruct (get2byte _ _) as [pc|]; cbn [mbind option_bind]; [|done]. case_decide; [done|].
    change (cellSize_of (set_nFree (-1) P)) with (cellSize_of P). destruct (cellSize_of P _) as [sz|]; cbn [mbind option_bind]; [|done].
    change (usable (set_nFree (-1) P)) with (usable P). case_decide; [done|apply IH]. }
  rewrite Hcc, B8, Nat2Z.id. rewrite <- B8. pose proof (cell_checks_spec P cs fs top H cs (length cs) O eq_refl eq_refl) as Hchk. change (Z.of_nat 0) with 0 in Hchk. by rewrite Hchk.
Qed.
