(* ===== verification/SqlPageProps.v ===== *)
(** * Pages as lists of cells

    What the routines of [SqlPage] promise together: a page is the list of its cells, from an empty page on,
    through any sequence of insertions and removals, and back from its bytes. *)

From S2P Require Import Prelude Bits SqlVarint SqlBytes SqlCell SqlPage SqlPageSpace SqlPageFree SqlPageOk SqlPageCells SqlPageInit.

(** ** What stays *)

(** The fields that say where the cells of a page are and how they are measured. *)
Definition shape (P : MemPage) : BtShared * Z * Z * Z * (cell_size * Z * Z) :=
  (pBt P, hdrOffset P, cellOffset P, childPtrSize P, (xCellSize P, maxLocal P, minLocal P)).

Lemma cellSize_shape P P' c : shape P' = shape P -> cellSize_of P' c = cellSize_of P c.
Proof.
  unfold shape. intros [= E1 E2 E3 E4 E5 E6 E7].
  unfold cellSize_of, cellSize_leaf, spilled_size, local_size. by rewrite E1, E5, E6, E7.
Qed.

Lemma add_pointer_shape P i g data rc P' : add_pointer P i g data = Some (rc, P') -> shape P' = shape P.
Proof. unfold add_pointer. intros H. by repeat simplify_option_eq. Qed.

Lemma insertCellFast_shape P i c n g D rc rw P' : allocateSpace P n = Some (SQLITE_OK, g, set_aData D P) ->
  insertCellFast P i c n rw = Some (rc, P') -> shape P' = shape P.
Proof.
  unfold insertCellFast. intros E H. rewrite E in H. destruct (check _) as [u|]; [|done]. cbn [mbind option_bind] in H.
  case_decide; [unfold overflow_cell in H; by repeat simplify_option_eq|]. case_decide; [by simplify_eq|].
  cbn [mbind option_bind] in H. case_decide; [by simplify_eq|]. destruct (check _) as [u'|]; [|done]. cbn [mbind option_bind] in H.
  destruct (slice _ _ _) as [bs|]; cbn [mbind option_bind] in H; [|done]. destruct (st _ _ _) as [d|]; cbn [mbind option_bind] in H; [|done].
  by rewrite (add_pointer_shape _ _ _ _ _ _ H).
Qed.

Lemma insertCell_shape P i c n g D tmp ch rc rw P' : allocateSpace P n = Some (SQLITE_OK, g, set_aData D P) ->
  insertCell P i c n tmp ch rw = Some (rc, P') -> shape P' = shape P.
Proof.
  unfold insertCell. intros E H. rewrite E in H. destruct (check _) as [u|]; [|done]. cbn [mbind option_bind] in H.
  destruct (decide (_ \/ _)); [unfold overflow_cell in H; by repeat simplify_option_eq|]. case_decide; [by simplify_eq|].
  cbn [mbind option_bind] in H. case_decide; [by simplify_eq|]. destruct (check _) as [u'|]; [|done]. cbn [mbind option_bind] in H.
  destruct (slice _ _ _) as [bs|]; cbn [mbind option_bind] in H; [|done]. destruct (st _ _ _) as [d|]; cbn [mbind option_bind] in H; [|done].
  destruct (sqlite3Put4byte _ _ _) as [d'|]; cbn [mbind option_bind] in H; [|done].
  by rewrite (add_pointer_shape _ _ _ _ _ _ H).
Qed.

Lemma freeSpace_shape P a n rc P' : freeSpace P a n = Some (rc, P') -> shape P' = shape P.
Proof.
  unfold freeSpace. intros H. destruct (check _) as [u|]; [|done]. cbn [mbind option_bind] in H.
  destruct (free_prepare P a n) as [[[[[[[s z] e] p] f] d]|]|]; cbn [mbind option_bind] in H; [|by simplify_eq|done].
  by repeat (case_match || simplify_option_eq).
Qed.

Lemma dropCell_shape P i n rc0 rc P' : dropCell P i n rc0 = Some (rc, P') -> shape P' = shape P.
Proof.
  unfold dropCell. intros H. case_decide; [by simplify_eq|]. destruct (check _) as [u'|]; [|done]. cbn [mbind option_bind] in H.
  destruct (get2byte _ _) as [pc|]; cbn [mbind option_bind] in H; [|done]. case_decide; [by simplify_eq|].
  destruct (freeSpace P pc (u16 n)) as [[r Q]|] eqn:E; cbn [mbind option_bind] in H; [|done]. apply freeSpace_shape in E.
  rewrite <- E. by repeat (case_match || simplify_option_eq).
Qed.

(** ** A page as the list of its cells *)

Inductive page_op :=
  | Put (i : nat) (c : bytes)
  | PutChild (i : nat) (c : bytes) (pTemp : bool) (iChild : Z)
  | Remove (i : nat).

Definition run {A O} (f : A -> O -> option A) : A -> list O -> option A :=
  fix go a os := match os with [] => Some a | o :: os => a ← f a o; go a os end.

Definition accepted (r : option (Z * MemPage)) : option MemPage := '(rc, p) ← r; if decide (rc = SQLITE_OK) then Some p else None.

(** The calls: a cell is removed as [sqlite3BtreeDelete] does, with the size the page finds. *)
Definition op_page (P : MemPage) (o : page_op) : option MemPage :=
  match o with
  | Put i c => accepted (insertCellFast P (Z.of_nat i) c (len c) SQLITE_OK)
  | PutChild i c pTemp iChild => accepted (insertCell P (Z.of_nat i) c (len c) pTemp iChild SQLITE_OK)
  | Remove i =>
      pc ← findCell P (Z.of_nat i);
      sz ← cellSize_of P (drop (Z.to_nat pc) (aData P));
      accepted (dropCell P (Z.of_nat i) sz SQLITE_OK)
  end.

Definition cells_of (P : MemPage) : option (list bytes) :=
  mapM (fun i => pc ← findCell P i; sz ← cellSize_of P (drop (Z.to_nat pc) (aData P)); slice (aData P) pc sz) (seqZ 0 (nCell P)).

(** The bytes a page with the cells [l] has left: a cell takes two bytes for its pointer. *)
Definition room (P : MemPage) (l : list bytes) : Z := usable P - cellOffset P - foldr (fun c n => len c + 2 + n) 0 l.

#[export] Instance valid_cell_dec P c : Decision (valid_cell P c).
Proof. unfold valid_cell, byte_ok. apply _. Defined.

(** The same calls on the list, for cells that fit. *)
Definition op_list (P : MemPage) (l : list bytes) (o : page_op) : option (list bytes) :=
  match o with
  | Put i c =>
      if decide ((i <= length l)%nat /\ valid_cell P c /\ len c + 2 <= room P l) then Some (take i l ++ c :: drop i l) else None
  | PutChild i c _ iChild =>
      if decide ((i <= length l)%nat /\ valid_cell P c /\ len c + 2 <= room P l /\ childPtrSize P = 4 /\ 0 < iChild)
      then Some (take i l ++ with_child iChild c :: drop i l) else None
  | Remove i => if decide (i < length l)%nat then Some (delete i l) else None
  end.

Lemma valid_shape P P' c : shape P' = shape P -> valid_cell P c -> valid_cell P' c.
Proof. intros E (V1 & V2 & V3). unfold valid_cell. by rewrite (cellSize_shape _ _ _ E). Qed.

Lemma room_shape P P' l : shape P' = shape P -> room P' l = room P l.
Proof. unfold shape, room, usable. by intros [= -> _ -> _ _ _ _]. Qed.

Lemma room_free P cs fs top : page_ok P [] cs fs top -> nFree P = room P cs.*2.
Proof.
  intros H. rewrite (pk_free _ _ _ _ _ H), (pk_n _ _ _ _ _ H). unfold room.
  enough (foldr (fun c n => len c + 2 + n) 0 cs.*2 = total (exts cs) + 2 * Z.of_nat (length cs)) by lia.
  clear H. induction cs as [|c cs IH]; [done|]. rewrite fmap_cons, total_cons. cbn [foldr length]. rewrite IH. lia.
Qed.

Lemma findCell_spec P cs fs top i c : page_ok P [] cs fs top -> cs !! i = Some c -> findCell P (Z.of_nat i) = Some c.1.
Proof.
  intros H Hi. pose proof (page_bounds _ _ _ _ _ H) as (B1 & B2 & B3 & B4 & B5 & B6 & B7 & B8). pose proof (lookup_lt_Some _ _ _ Hi).
  pose proof (pk_cell _ _ _ _ _ H c (list_elem_of_lookup_2 _ _ _ Hi)) as (C1 & C2 & C3 & _).
  destruct (pk_page _ _ _ _ _ H) as [Hpl (k & Hk & Hps)].
  unfold findCell. rewrite get2byte_rd by (by apply (pk_ok _ _ _ _ _ H) || lia). cbn [mbind option_bind]. f_equal.
  rewrite (pk_ptr _ _ _ _ _ H i c Hi), (pk_mask _ _ _ _ _ H). pose proof (page_size_range _ k Hk Hps).
  rewrite u16_small by lia. rewrite Hps, Z.land_comm, land_ones_mod by lia. apply Z.mod_small. lia.
Qed.

Lemma cells_of_spec P cs fs top : page_ok P [] cs fs top -> cells_of P = Some cs.*2.
Proof.
  intros H. unfold cells_of. rewrite (pk_n _ _ _ _ _ H). apply mapM_Some. apply Forall2_same_length_lookup_2.
  { rewrite length_seqZ, length_fmap. lia. }
  intros i x b Hx Hb. apply lookup_seqZ in Hx as [-> Hx]. apply list_lookup_fmap_Some in Hb as (c & -> & Hc). rewrite Z.add_0_l.
  pose proof (page_bounds _ _ _ _ _ H) as (B1 & B2 & B3 & B4 & B5 & B6 & B7 & B8).
  pose proof (pk_cell _ _ _ _ _ H c (list_elem_of_lookup_2 _ _ _ Hc)) as (C1 & C2 & C3 & C4 & C5).
  rewrite (findCell_spec _ _ _ _ _ _ H Hc). cbn [mbind option_bind].
  rewrite (cellSize_at P (aData P) c.1 c.2) by (done || lia). cbn [mbind option_bind]. rewrite slice_sub by lia. by rewrite C4.
Qed.
(** ** Runs *)

(** A page in order whose cells are [l]. *)
Definition holds_cells (P : MemPage) (l : list bytes) : Prop := exists cs fs top, page_ok P [] cs fs top /\ cs.*2 = l.

Lemma op_step P0 P l o l' : shape P = shape P0 -> holds_cells P l -> op_list P0 l o = Some l' ->
  exists P', op_page P o = Some P' /\ holds_cells P' l' /\ shape P' = shape P0.
Proof.
  intros Hs (cs & fs & top & H & <-) Ho. pose proof (room_free _ _ _ _ H) as Hr. rewrite (room_shape P0 P) in Hr by done.
  destruct o as [i c|i c tmp ch|i]; cbn [op_list op_page] in *; (case_decide as Hd; [injection Ho as <-|done]); rewrite length_fmap in Hd.
  - destruct Hd as (Hi & V & Hf). apply (valid_shape P0 P c Hs) in V. rewrite <- Hr in Hf.
    destruct (insertCellFast_spec P cs fs top i c H V Hf Hi) as (P' & cs' & fs' & top' & E & Hp & Hcs).
    destruct (allocateSpace_spec P cs fs top (len c) H) as (g & D & ? & ? & ? & Ea & _); [apply V|lia|].
    exists P'. rewrite E. split; [done|]. split; [exists cs', fs', top'; done|]. by rewrite (insertCellFast_shape _ _ _ _ _ _ _ _ _ Ea E).
  - destruct Hd as (Hi & V & Hf & Hch & Hc0). apply (valid_shape P0 P c Hs) in V. rewrite <- Hr in Hf.
    assert (Hch' : childPtrSize P = 4) by (revert Hs; unfold shape; intros [= _ _ _ -> _ _ _]; done).
    destruct (insertCell_spec P cs fs top i c tmp ch H Hch' V Hc0 Hf Hi) as (P' & cs' & fs' & top' & E & Hp & Hcs).
    destruct (allocateSpace_spec P cs fs top (len c) H) as (g & D & ? & ? & ? & Ea & _); [apply V|lia|].
    exists P'. rewrite E. split; [done|]. split; [exists cs', fs', top'; done|]. by rewrite (insertCell_shape _ _ _ _ _ _ _ _ _ _ _ Ea E).
  - destruct (lookup_lt_is_Some_2 cs i Hd) as [c Hc]. rewrite (findCell_spec _ _ _ _ _ _ H Hc). cbn [mbind option_bind].
    pose proof (page_bounds _ _ _ _ _ H) as (B1 & B2 & B3 & B4 & B5 & B6 & B7 & B8).
    pose proof (pk_cell _ _ _ _ _ H c (list_elem_of_lookup_2 _ _ _ Hc)) as (C1 & C2 & C3 & C4 & C5).
    rewrite (cellSize_at P (aData P) c.1 c.2) by (done || lia). cbn [mbind option_bind].
    apply list_elem_of_split_length in Hc as (l1 & l2 & -> & ->).
    destruct (dropCell_spec P l1 l2 c fs top H) as (P' & fs' & top' & E & Hp). rewrite E. exists P'. split; [done|].
    split; [|by rewrite (dropCell_shape _ _ _ _ _ _ E)].
    exists (l1 ++ l2), fs', top'. split; [done|]. rewrite !fmap_app, fmap_cons. rewrite <- (length_fmap snd l1). by rewrite delete_middle.
Qed.

Lemma run_steps P0 os : forall P l l', shape P = shape P0 -> holds_cells P l -> run (op_list P0) l os = Some l' ->
  exists P', run op_page P os = Some P' /\ holds_cells P' l' /\ shape P' = shape P0.
Proof.
  induction os as [|o os IH]; intros P l l' Hs H Hr; cbn [run] in *; [injection Hr as <-; eauto|].
  destruct (op_list P0 l o) as [l1|] eqn:Eo; cbn [mbind option_bind] in Hr; [|done].
  destruct (op_step P0 P l o l1 Hs H Eo) as (P1 & E & H1 & Hs1). rewrite E. cbn [mbind option_bind]. by apply (IH P1 l1).
Qed.

Lemma new_page R flags : raw_page R -> page_flags flags -> exists P0, zeroPage R flags = Some P0 /\ holds_cells P0 [].
Proof. intros HR Hf. destruct (zeroPage_spec R flags HR Hf) as (P & E & H & _). exists P. split; [done|]. by exists [], [], (usable R). Qed.

(** C18: A page that [zeroPage] made, after any sequence of insertions of cells that fit and removals (by
    [insertCellFast], [insertCell] and [dropCell]), holds exactly the list of cells the same sequence makes of the
    empty list, in its order; each call succeeds, and the free space the page counts is what the cells and
    their pointers leave: no space is lost, however the page is fragmented. *)
Theorem page_is_cell_list R flags os l : raw_page R -> page_flags flags ->
  exists P0, zeroPage R flags = Some P0 /\ (run (op_list P0) [] os = Some l ->
    exists P, run op_page P0 os = Some P /\ cells_of P = Some l /\ nFree P = room P0 l).
Proof.
  intros HR Hf. destruct (new_page R flags HR Hf) as (P0 & E & H). exists P0. split; [done|]. intros Hrun.
  destruct (run_steps P0 os P0 [] l eq_refl H Hrun) as (P & Er & (cs & fs & top & Hp & <-) & Hs). exists P. split; [done|].
  split; [by apply (cells_of_spec P cs fs top)|]. rewrite (room_free _ _ _ _ Hp). by apply room_shape.
Qed.

(** C19: What such a page holds can be read back from its bytes: [btreeInitPage], with or without
    the check of the cells, and [btreeComputeFreeSpace] accept them and restore every field of the page. *)
Theorem page_read_back R flags os l P0 P Q ck : raw_page R -> page_flags flags -> zeroPage R flags = Some P0 ->
  run (op_list P0) [] os = Some l -> run op_page P0 os = Some P ->
  pBt Q = pBt P -> aData Q = aData P -> hdrOffset Q = hdrOffset P -> isInit Q = false ->
  exists Q1, btreeInitPage ck Q = Some (SQLITE_OK, Q1) /\ btreeComputeFreeSpace Q1 = Some (SQLITE_OK, P).
Proof.
  intros HR Hf E Hrun Er E1 E2 E3 E4. destruct (new_page R flags HR Hf) as (P0' & E' & H). rewrite E in E'. injection E' as <-.
  destruct (run_steps P0 os P0 [] l eq_refl H Hrun) as (P' & Er' & (cs & fs & top & Hp & _) & _). rewrite Er in Er'. injection Er' as <-.
  exists (set_nFree (-1) P). split; [by apply (btreeInitPage_spec ck P cs fs top)|by apply (btreeComputeFreeSpace_spec P cs fs top)].
Qed.

(** A cell that does not fit is never written: whatever the page went through, [insertCellFast] returns
    [SQLITE_OK] with the page as it was but for the cell in its overflow slot, before any write to the file. *)
Theorem full_page_overflows R flags os l P0 P i c rc : raw_page R -> page_flags flags -> zeroPage R flags = Some P0 ->
  run (op_list P0) [] os = Some l -> run op_page P0 os = Some P -> (i <= length l)%nat -> room P0 l < len c + 2 ->
  insertCellFast P (Z.of_nat i) c (len c) rc = Some (SQLITE_OK, add_overflow (Z.of_nat i) c P).
Proof.
  intros HR Hf E Hrun Er Hi Hroom. destruct (new_page R flags HR Hf) as (P0' & E' & H). rewrite E in E'. injection E' as <-.
  destruct (run_steps P0 os P0 [] l eq_refl H Hrun) as (P' & Er' & (cs & fs & top & Hp & <-) & Hs). rewrite Er in Er'. injection Er' as <-.
  apply (insert_overflow P cs fs top); [done| |by rewrite length_fmap in Hi]. rewrite (room_free _ _ _ _ Hp). by rewrite (room_shape P0 P).
Qed.

(** ** Examples *)

(** A page of 512 bytes as the pager hands it out. *)
Definition blank (d : bytes) : MemPage :=
  {| pBt := lockBtree 512 512 0; aData := d; hdrOffset := 0; isInit := false; leaf := false; intKey := false; intKeyLeaf := false;
     childPtrSize := 0; max1bytePayload := 0; maxLocal := 0; minLocal := 0; xCellSize := cellSizePtr; xParseCell := btreeParseCellPtr;
     cellOffset := 0; maskPage := 0; nFree := 0; nCell := 0; apOvfl := [] |}.

Definition blank_page : MemPage := blank (replicate 512 0).

(** The row [k] of a table with [n] bytes of data. *)
Definition row (n k : Z) : bytes := [n; k] ++ replicate (Z.to_nat n) k.

(** The last insertion needs the whole page compacted. *)
Definition some_ops : list page_op :=
  [Put 0 (row 60 1); Put 1 (row 70 2); Put 1 (row 80 3); Put 0 (row 90 4); Put 4 (row 100 5); Remove 3; Remove 1; Put 0 (row 62 6); Put 3 (row 100 7)].

Definition some_rows : list bytes := [row 62 6; row 90 4; row 80 3; row 100 7; row 100 5].

Lemma blank_raw : raw_page blank_page.
Proof.
  split; [by left|done|exists 9; done|done|]. apply Forall_replicate. done.
Qed.

Lemma page_is_cell_list_witness : raw_page blank_page /\ page_flags 13 /\ exists P, (P0 ← zeroPage blank_page 13; run op_page P0 some_ops) = Some P /\
  cells_of P = Some some_rows /\ nFree P = 52.
Proof.
  pose proof blank_raw as HR. assert (Hf : page_flags 13) by (unfold page_flags; lia). split; [done|]. split; [done|].
  destruct (page_is_cell_list blank_page 13 some_ops some_rows HR Hf) as (P0 & E & H).
  assert (E0 : zeroPage blank_page 13 = Some (default blank_page (zeroPage blank_page 13))) by (vm_compute; reflexivity).
  pose proof (inj Some _ _ (eq_trans (eq_sym E) E0)) as E2. rewrite E2 in H, E. clear E2 P0. destruct H as (P & Er & Hc & Hn); [vm_compute; reflexivity|].
  exists P. rewrite E. split; [exact Er|]. split; [exact Hc|]. rewrite Hn. vm_compute. reflexivity.
Defined.

Lemma page_read_back_witness : raw_page blank_page /\ exists P Q1, (P0 ← zeroPage blank_page 13; run op_page P0 some_ops) = Some P /\
  btreeInitPage true (blank (aData P)) = Some (SQLITE_OK, Q1) /\ btreeComputeFreeSpace Q1 = Some (SQLITE_OK, P).
Proof.
  pose proof blank_raw as HR. split; [done|]. set (P0 := default blank_page (zeroPage blank_page 13)).
  set (P := default blank_page (run op_page P0 some_ops)).
  assert (E0 : zeroPage blank_page 13 = Some P0) by (vm_compute; reflexivity).
  assert (E1 : run op_page P0 some_ops = Some P) by (vm_compute; reflexivity).
  destruct (page_read_back blank_page 13 some_ops some_rows P0 P (blank (aData P)) true) as (Q1 & H1 & H2);
    try exact HR; try exact E0; try exact E1; try reflexivity; [unfold page_flags; lia|vm_compute; reflexivity..|].
  clearbody P0 P. exists P, Q1. rewrite E0. cbn [mbind option_bind]. split; [exact E1|split; [exact H1|exact H2]].
Defined.

Lemma full_page_overflows_witness : raw_page blank_page /\ exists P, (P0 ← zeroPage blank_page 13; run op_page P0 some_ops) = Some P /\
  insertCellFast P 2 (row 51 8) 53 SQLITE_OK = Some (SQLITE_OK, add_overflow 2 (row 51 8) P).
Proof.
  pose proof blank_raw as HR. split; [done|]. set (P0 := default blank_page (zeroPage blank_page 13)).
  set (P := default blank_page (run op_page P0 some_ops)).
  assert (E0 : zeroPage blank_page 13 = Some P0) by (vm_compute; reflexivity).
  assert (E1 : run op_page P0 some_ops = Some P) by (vm_compute; reflexivity).
  exists P. split; [rewrite E0; cbn [mbind option_bind]; exact E1|].
  apply (full_page_overflows blank_page 13 some_ops some_rows P0 P 2 (row 51 8) SQLITE_OK); try exact HR; try exact E0; try exact E1;
    [unfold page_flags; lia|vm_compute; reflexivity|cbn; lia|vm_compute; reflexivity].
Defined.
