(* ===== verification/SqlFreelist.v ===== *)
(** * The pages of a database and its free list

    [sqlite/sqlite3.c] (btree.c): pages that hold nothing are kept on a list inside the database file.
    Page 1 counts them and names the first trunk page; a trunk page names the next one and up to
    [usableSize/4 - 2] leaves.  [allocateBtreePage] takes a page from the list or appends one to the file,
    [freePage2] gives one back.

    A routine is a function of the pages and of what the pager answers: the codes of the calls that can
    fail are an input ([answers]).  What the pager writes to its journal is not modelled, nor databases with
    auto-vacuum, for which the list is searched. *)

From S2P Require Import Prelude Bits SqlLock SqlBytes SqlCell SqlInt.

(** ** The database *)

Record Db := {
  db_bt : BtShared;
  nPage : Z;                          (* pages in the database, [pBt->nPage] *)
  pages : gmap Z bytes;               (* the content of each page, in the cache or in the file *)
  cache : gset Z;                     (* the pages the pager holds in memory *)
  referenced : gset Z;                (* those to which the caller or a cursor holds a reference *)
  inited : gset Z;                    (* those with [MemPage.isInit] *)
  dbSize : Z;                         (* [Pager.dbSize] *)
  mxPgno : Z;                         (* [Pager.mxPgno] *)
  pHasContent : option (Z * gset Z);  (* size and members of the bit vector *)
  answers : list Z                    (* the codes the next calls of the pager and of malloc return *)
}.

Definition set_pages (m : gmap Z bytes) (s : Db) : Db :=
  {| db_bt := db_bt s; nPage := nPage s; pages := m; cache := cache s; referenced := referenced s; inited := inited s;
     dbSize := dbSize s; mxPgno := mxPgno s; pHasContent := pHasContent s; answers := answers s |}.
Definition set_cache (c : gset Z) (s : Db) : Db :=
  {| db_bt := db_bt s; nPage := nPage s; pages := pages s; cache := c; referenced := referenced s; inited := inited s;
     dbSize := dbSize s; mxPgno := mxPgno s; pHasContent := pHasContent s; answers := answers s |}.
Definition set_inited (c : gset Z) (s : Db) : Db :=
  {| db_bt := db_bt s; nPage := nPage s; pages := pages s; cache := cache s; referenced := referenced s; inited := c;
     dbSize := dbSize s; mxPgno := mxPgno s; pHasContent := pHasContent s; answers := answers s |}.
Definition set_dbSize (n : Z) (s : Db) : Db :=
  {| db_bt := db_bt s; nPage := nPage s; pages := pages s; cache := cache s; referenced := referenced s; inited := inited s;
     dbSize := n; mxPgno := mxPgno s; pHasContent := pHasContent s; answers := answers s |}.
Definition set_nPage (n : Z) (s : Db) : Db :=
  {| db_bt := db_bt s; nPage := n; pages := pages s; cache := cache s; referenced := referenced s; inited := inited s;
     dbSize := dbSize s; mxPgno := mxPgno s; pHasContent := pHasContent s; answers := answers s |}.
Definition set_content (h : option (Z * gset Z)) (s : Db) : Db :=
  {| db_bt := db_bt s; nPage := nPage s; pages := pages s; cache := cache s; referenced := referenced s; inited := inited s;
     dbSize := dbSize s; mxPgno := mxPgno s; pHasContent := h; answers := answers s |}.
Definition set_answers (l : list Z) (s : Db) : Db :=
  {| db_bt := db_bt s; nPage := nPage s; pages := pages s; cache := cache s; referenced := referenced s; inited := inited s;
     dbSize := dbSize s; mxPgno := mxPgno s; pHasContent := pHasContent s; answers := l |}.

(** ** Routines with a result code

    [None] is an access outside a buffer or a broken assert; an error code leaves the pages as they
    are by then. *)

Inductive result (A : Type) := Ok (a : A) | Err (rc : Z).
Arguments Ok {A}.
Arguments Err {A}.

Definition routine (A : Type) : Type := Db -> option (result A * Db).

#[export] Instance routine_ret : MRet routine := fun A a s => Some (Ok a, s).
#[export] Instance routine_bind : MBind routine := fun A B f m s =>
  match m s with
  | None => None
  | Some (Err rc, s) => Some (Err rc, s)
  | Some (Ok a, s) => f a s
  end.

Definition fail {A} (rc : Z) : routine A := fun s => Some (Err rc, s).
Definition gets {A} (f : Db -> A) : routine A := fun s => Some (Ok (f s), s).
Definition update (f : Db -> Db) : routine unit := fun s => Some (Ok tt, f s).
Definition lift {A} (o : option A) : routine A := fun s => a ← o; Some (Ok a, s).
Definition require (P : Prop) `{Decision P} : routine unit := fun s => if decide P then Some (Ok tt, s) else None.

(** What follows [goto], with or without an error. *)
Definition finally {A} (m : routine A) (f : Db -> Db) : routine A := fun s => '(r, s) ← m s; Some (r, f s).

(** The code of the next call that can fail; when the list is at its end, they all succeed. *)
Definition next_answer : routine unit := fun s =>
  match answers s with
  | [] => Some (Ok tt, s)
  | rc :: l => Some (if decide (rc = 0) then Ok tt else Err rc, set_answers l s)
  end.

(** ** The pager *)

Definition SQLITE_FULL : Z := 13.
Definition SQLITE_NOMEM : Z := 7.

Definition zeros (s : Db) : bytes := replicate (Z.to_nat (pageSize (db_bt s))) 0.

Definition page_of (s : Db) (pgno : Z) : bytes := default (zeros s) (pages s !! pgno).

Definition put_page (pgno : Z) (d : bytes) : routine unit := update (fun s => set_pages (<[pgno := d]> (pages s)) s).

(** The page that holds the lock bytes is never used. *)
Definition PENDING_BYTE_PAGE (bt : BtShared) : Z := PENDING_BYTE / pageSize bt + 1.

(** [getPageNormal]; the answer is that of the cache or of the read. *)
Definition sqlite3PagerGet (pgno : Z) (noContent : bool) : routine unit :=
  if decide (pgno = 0) then fail SQLITE_CORRUPT
  else
    hit ← gets (fun s => bool_decide (pgno ∈ cache s));
    if hit && negb noContent then mret tt
    else
      _ ← (if hit : bool then mret tt else next_answer);
      sj ← gets (fun s => PENDING_BYTE_PAGE (db_bt s));
      if decide (pgno = sj) then fail SQLITE_CORRUPT
      else
        size ← gets dbSize;
        _ ← (if bool_decide (size < pgno) || noContent then
               mx ← gets mxPgno;
               if decide (mx < pgno) then
                 _ ← update (fun s => if decide (size < pgno) then set_cache (cache s ∖ {[pgno]}) s else s); fail SQLITE_FULL
               else z ← gets zeros; put_page pgno z
             else mret tt);
        update (fun s => set_cache ({[pgno]} ∪ cache s) s).

(** [sqlite3PagerWrite] extends the file. *)
Definition sqlite3PagerWrite (pgno : Z) : routine unit :=
  _ ← next_answer; update (fun s => set_dbSize (Z.max (dbSize s) pgno) s).

(** ** Pages of the tree *)

Definition get4 (pgno i : Z) : routine Z := d ← gets (fun s => page_of s pgno); lift (sqlite3Get4byte d i).

Definition put4 (pgno i v : Z) : routine unit :=
  d ← gets (fun s => page_of s pgno); d ← lift (sqlite3Put4byte d i v); put_page pgno d.

(** [memcpy(&to[i], &from[j], 4)]. *)
Definition copy4 (to i from j : Z) : routine unit :=
  d ← gets (fun s => page_of s from); bs ← lift (slice d j 4);
  d ← gets (fun s => page_of s to); d ← lift (st d i bs); put_page to d.

Definition btreeGetPage (pgno : Z) (noContent : bool) : routine unit := sqlite3PagerGet pgno noContent.

Definition btreeGetUnusedPage (pgno : Z) (noContent : bool) : routine unit :=
  _ ← btreeGetPage pgno noContent;
  other ← gets (fun s => bool_decide (pgno ∈ referenced s));
  if (other : bool) then fail SQLITE_CORRUPT else update (fun s => set_inited (inited s ∖ {[pgno]}) s).

Definition btreeSetHasContent (pgno : Z) : routine unit :=
  h ← gets pHasContent;
  '(size, l) ← match h with
               | Some h => mret h
               | None => _ ← next_answer; n ← gets nPage; _ ← update (set_content (Some (n, ∅))); mret (n, ∅)
               end;
  if decide (pgno <= size) then _ ← next_answer; update (set_content (Some (size, {[pgno]} ∪ l))) else mret tt.

Definition btreeGetHasContent (pgno : Z) : routine bool :=
  h ← gets pHasContent;
  mret (match h with None => false | Some (size, l) => bool_decide (size < pgno \/ pgno ∈ l) end).

(** ** Taking a page *)

(** The distance of a page to [nearby]. *)
Definition distance (x nearby : Z) : Z := sqlite3AbsInt32 (i32 (u32 (x - nearby))).

(** The loop over the leaves from [i] on, [n] of them. *)
Fixpoint closest_leaf (n : nat) (i nearby closest dist : Z) (aData : bytes) : option Z :=
  match n with
  | O => Some closest
  | S n =>
      x ← sqlite3Get4byte aData (8 + i * 4);
      let d2 := distance x nearby in
      if decide (d2 < dist) then closest_leaf n (i + 1) nearby i d2 aData else closest_leaf n (i + 1) nearby closest dist aData
  end.

(** The branch for a leaf of the trunk page [iTrunk] with [k] leaves. *)
Definition take_leaf (nearby mxPage iTrunk k : Z) : routine Z :=
  d ← gets (fun s => page_of s iTrunk);
  closest ← lift (if decide (0 < nearby) then
                    x ← sqlite3Get4byte d 8; closest_leaf (Z.to_nat (k - 1)) 1 nearby 0 (distance x nearby) d
                  else Some 0);
  iPage ← get4 iTrunk (8 + closest * 4);
  if decide (mxPage < iPage \/ iPage < 2) then fail SQLITE_CORRUPT
  else
    _ ← sqlite3PagerWrite iTrunk;
    _ ← (if decide (closest < k - 1) then copy4 iTrunk (8 + closest * 4) iTrunk (4 + k * 4) else mret tt);
    _ ← put4 iTrunk 4 (k - 1);
    content ← btreeGetHasContent iPage;
    _ ← btreeGetUnusedPage iPage (negb content);
    _ ← sqlite3PagerWrite iPage;
    mret iPage.

(** The page appended to the file. *)
Definition append_page : routine Z :=
  _ ← sqlite3PagerWrite 1;
  n ← gets nPage;
  sj ← gets (fun s => PENDING_BYTE_PAGE (db_bt s));
  let n := u32 (n + 1) in
  let n := if decide (n = sj) then u32 (n + 1) else n in
  _ ← update (set_nPage n);
  _ ← put4 1 28 n;
  _ ← require (n <> sj);
  _ ← btreeGetUnusedPage n true;
  _ ← sqlite3PagerWrite n;
  mret n.

(** The number of the page; [nearby] is a page to be close to, or 0. *)
Definition allocateBtreePage (nearby : Z) : routine Z :=
  mxPage ← gets nPage;
  n ← get4 1 36;
  if decide (mxPage <= n) then fail SQLITE_CORRUPT
  else if decide (0 < n) then
    _ ← sqlite3PagerWrite 1;
    _ ← put4 1 36 (n - 1);
    iTrunk ← get4 1 32;
    if decide (mxPage < iTrunk) then fail SQLITE_CORRUPT
    else
      _ ← btreeGetUnusedPage iTrunk false;
      k ← get4 iTrunk 4;
      us ← gets (fun s => usableSize (db_bt s));
      if decide (k = 0) then
        _ ← sqlite3PagerWrite iTrunk;
        _ ← copy4 1 32 iTrunk 0;
        mret iTrunk
      else if decide (us / 4 - 2 < k) then fail SQLITE_CORRUPT
      else take_leaf nearby mxPage iTrunk k
  else append_page.

(** ** Giving a page back *)

Definition BTS_SECURE_DELETE : Z := 0x0004.

(** The page becomes a leaf of the first trunk page, which has [nLeaf] leaves. *)
Definition free_leaf (iTrunk nLeaf iPage : Z) : routine unit :=
  _ ← sqlite3PagerWrite iTrunk;
  _ ← put4 iTrunk 4 (nLeaf + 1);
  _ ← put4 iTrunk (8 + nLeaf * 4) iPage;
  btreeSetHasContent iPage.

(** The page becomes the first trunk page, before [iTrunk]; [known] is whether it has been looked up. *)
Definition free_trunk (known : bool) (iTrunk iPage : Z) : routine unit :=
  _ ← (if known then mret tt else btreeGetPage iPage false);
  _ ← sqlite3PagerWrite iPage;
  _ ← put4 iPage 0 iTrunk;
  _ ← put4 iPage 4 0;
  put4 1 32 iPage.

(** [freepage_out]: the page that was looked up is to be read again. *)
Definition freepage_out (iPage : Z) (s : Db) : Db :=
  if decide (iPage ∈ cache s) then set_inited (inited s ∖ {[iPage]}) s else s.

(** [given] is whether the caller has the page ([pMemPage]). *)
Definition freePage2 (given : bool) (iPage : Z) : routine unit :=
  n ← gets nPage;
  if decide (iPage < 2 \/ n < iPage) then fail SQLITE_CORRUPT
  else
    known ← gets (fun s => given || bool_decide (iPage ∈ cache s));
    finally
      (_ ← sqlite3PagerWrite 1;
       nFree ← get4 1 36;
       _ ← put4 1 36 (u32 (nFree + 1));
       bt ← gets db_bt;
       known ← (if decide (Z.land (btsFlags bt) BTS_SECURE_DELETE <> 0) then
                  _ ← (if known : bool then mret tt else btreeGetPage iPage false);
                  _ ← sqlite3PagerWrite iPage;
                  z ← gets zeros;
                  _ ← put_page iPage z;
                  mret true
                else mret known);
       if decide (nFree <> 0) then
         iTrunk ← get4 1 32;
         if decide (n < iTrunk) then fail SQLITE_CORRUPT
         else
           _ ← btreeGetPage iTrunk false;
           nLeaf ← get4 iTrunk 4;
           if decide (usableSize bt / 4 - 2 < nLeaf) then fail SQLITE_CORRUPT
           else if decide (nLeaf < usableSize bt / 4 - 8) then free_leaf iTrunk nLeaf iPage
           else free_trunk known iTrunk iPage
       else free_trunk known 0 iPage)
      (freepage_out iPage).
