(* ===== verification/SqlFreelistOk.v ===== *)
(** * The free list in order

    The routines of [SqlFreelist] on databases in order: what taking a page and giving one back do to the list and to
    the pages. *)

From S2P Require Import Prelude Bits SqlLock SqlBytes SqlCell SqlInt SqlFreelist.

(** ** Databases in order *)

(** Every page has its size, and the pager answers nothing but success. *)
Record db_ok (s : Db) : Prop := {
  do_usable : 480 <= usableSize (db_bt s) <= pageSize (db_bt s);
  do_size : pageSize (db_bt s) <= 65536;
  do_len q : len (page_of s q) = pageSize (db_bt s);
  do_bytes q : bytes_ok (page_of s q);
  do_mx : mxPgno s < 4294967295;
  do_answers : answers s = []
}.

(** What no routine on pages changes. *)
Record same_db (s s' : Db) : Prop := {
  sd_bt : db_bt s' = db_bt s;
  sd_ref : referenced s' = referenced s;
  sd_mx : mxPgno s' = mxPgno s
}.

#[export] Instance same_db_refl : Reflexive same_db.
Proof. by intros s. Qed.

#[export] Instance same_db_trans : Transitive same_db.
Proof. intros s1 s2 s3 [E1 E2 E3] [F1 F2 F3]. split; congruence. Qed.

(** How many pages the database has, and its file. *)
Definition sizes (s : Db) : Z * Z := (nPage s, dbSize s).

(** The routine succeeds, and the pages are [f] afterwards. *)
Definition does {A} (m : routine A) (s : Db) (a : A) (n : Z * Z) (f : Z -> bytes) : Prop :=
  exists s', m s = Some (Ok a, s') /\ db_ok s' /\ same_db s s' /\ sizes s' = n /\ forall q, page_of s' q = f q.

Definition set_at (f : Z -> bytes) (p : Z) (d : bytes) : Z -> bytes := fun q => if decide (q = p) then d else f q.

Lemma bind_ok {A B} (m : routine A) (k : A -> routine B) s a s' : m s = Some (Ok a, s') -> (a ← m; k a) s = k a s'.
Proof. intros E. unfold mbind, routine_bind. by rewrite E. Qed.

Lemma does_then {A B} (m : routine A) (k : A -> routine B) s a n f b n' f' : does m s a n f ->
  (forall s', db_ok s' -> same_db s s' -> sizes s' = n -> (forall q, page_of s' q = f q) -> does (k a) s' b n' f') ->
  does (a ← m; k a) s b n' f'.
Proof.
  intros (s1 & E & H1 & H2 & H3 & H4) Hk. destruct (Hk s1 H1 H2 H3 H4) as (s2 & E2 & F1 & F2 & F3).
  exists s2. split; [by rewrite (bind_ok _ _ _ _ _ E)|]. split; [done|]. split; [by transitivity s1|done].
Qed.

Lemma does_gets {A B} (g : Db -> A) (k : A -> routine B) s b n f : does (k (g s)) s b n f -> does (x ← gets g; k x) s b n f.
Proof. intros (s' & E & H). by exists s'. Qed.

Lemma does_lift {A B} (o : option A) (k : A -> routine B) s a b n f : o = Some a -> does (k a) s b n f -> does (x ← lift o; k x) s b n f.
Proof. intros -> (s' & E & H). by exists s'. Qed.

Lemma does_require {B} (P : Prop) `{Decision P} (k : routine B) s b n f : P -> does k s b n f -> does (_ ← require P; k) s b n f.
Proof. intros HP (s' & E & Hs). exists s'. split; [|done]. rewrite <- E. unfold require, mbind, routine_bind. by rewrite decide_True. Qed.

Lemma does_ret {A} (a : A) s : db_ok s -> does (mret a) s a (sizes s) (page_of s).
Proof. intros H. by exists s. Qed.

Lemma does_answer s : db_ok s -> does next_answer s tt (sizes s) (page_of s).
Proof. intros H. exists s. split; [|done]. unfold next_answer. by rewrite (do_answers _ H). Qed.

Lemma does_ext {A} (m : routine A) s a n f g : does m s a n f -> (forall q, f q = g q) -> does m s a n g.
Proof. intros (s' & E & H1 & H2 & H3 & H4) Hg. exists s'. repeat split; try apply H1; try apply H2; try done. intros q. by rewrite H4. Qed.

(** Fields of the database that hold no pages. *)
Lemma does_update (g : Db -> Db) s : db_ok s -> db_ok (g s) -> same_db s (g s) -> (forall q, page_of (g s) q = page_of s q) -> does (update g) s tt (sizes (g s)) (page_of s).
Proof. intros H H1 H2 H3. by exists (g s). Qed.

Lemma page_of_set_pages s m q : page_of (set_pages m s) q = default (zeros s) (m !! q).
Proof. done. Qed.

Lemma page_of_put s p d q : page_of (set_pages (<[p := d]> (pages s)) s) q = set_at (page_of s) p d q.
Proof.
  rewrite page_of_set_pages. unfold set_at, page_of. case_decide; subst; [by rewrite lookup_insert_eq|by rewrite lookup_insert_ne].
Qed.

Lemma len_zeros s : 0 <= pageSize (db_bt s) -> len (zeros s) = pageSize (db_bt s).
Proof. intros. unfold zeros. rewrite length_replicate. lia. Qed.

Lemma zeros_ok s : bytes_ok (zeros s).
Proof. unfold zeros. change 0 with (u8 0). apply bytes_ok_replicate. Qed.

Lemma put_does s p d : db_ok s -> len d = pageSize (db_bt s) -> bytes_ok d -> does (put_page p d) s tt (sizes s) (set_at (page_of s) p d).
Proof.
  intros [] Hl Hb. eexists. split; [reflexivity|]. split; [|split; [done|split; [done|intros q; apply page_of_put]]].
  split; try done; intros q; rewrite page_of_put; unfold set_at; by case_decide.
Qed.

Lemma get4_does s p i : db_ok s -> 0 <= i -> i + 4 <= pageSize (db_bt s) -> does (get4 p i) s (rd4 (page_of s p) i) (sizes s) (page_of s).
Proof.
  intros H H1 H2. apply does_gets. exists s. split; [|done]. unfold lift.
  by rewrite get4byte_rd4 by (try apply (do_bytes _ H); rewrite ?(do_len _ H); lia).
Qed.

Lemma put4_does s p i v : db_ok s -> 0 <= i -> i + 4 <= pageSize (db_bt s) ->
  does (put4 p i v) s tt (sizes s) (set_at (page_of s) p (upd (page_of s p) i (four v))).
Proof.
  intros H H1 H2. pose proof (do_len _ H p) as Hl. apply does_gets. eapply does_lift; [apply put4byte_upd; lia|].
  apply put_does; [done|by rewrite length_upd by (rewrite ?len_four; lia)|apply bytes_ok_upd; [apply (do_bytes _ H)|apply four_ok]].
Qed.

Lemma copy4_does s to i from j : db_ok s -> 0 <= i -> i + 4 <= pageSize (db_bt s) -> 0 <= j -> j + 4 <= pageSize (db_bt s) ->
  does (copy4 to i from j) s tt (sizes s) (set_at (page_of s) to (upd (page_of s to) i (sub (page_of s from) j 4))).
Proof.
  intros H H1 H2 H3 H4. pose proof (do_len _ H to) as Hl. pose proof (do_len _ H from) as Hf.
  pose proof (length_sub (page_of s from) j 4 ltac:(lia) ltac:(lia) ltac:(lia)) as Hs.
  apply does_gets. eapply does_lift; [apply slice_sub; lia|]. apply does_gets. eapply does_lift; [apply st_upd; lia|].
  apply put_does; [done|by rewrite length_upd by lia|apply bytes_ok_upd; [apply (do_bytes _ H)|apply bytes_ok_sub, (do_bytes _ H)]].
Qed.

Lemma write_does s p : db_ok s -> does (sqlite3PagerWrite p) s tt (nPage s, Z.max (dbSize s) p) (page_of s).
Proof.
  intros H. eapply does_then; [by apply does_answer|]. intros s1 H1 _ [= <- <-] Hf. eapply does_ext; [|exact Hf].
  apply (does_update (fun s => set_dbSize (Z.max (dbSize s) p) s)); [done| |done|done]. by destruct H1.
Qed.

(** Pages of the database. *)
Lemma get_does s p : db_ok s -> 1 <= p <= dbSize s -> p <> PENDING_BYTE_PAGE (db_bt s) -> does (btreeGetPage p false) s tt (sizes s) (page_of s).
Proof.
  intros H Hp Hsj. unfold btreeGetPage, sqlite3PagerGet. rewrite decide_False by lia. apply does_gets.
  destruct (bool_decide _); cbn [andb negb]; [by apply does_ret|].
  eapply does_then; [by apply does_answer|]. intros s1 H1 S1 N1 Hf. apply does_gets. rewrite decide_False by (by rewrite (sd_bt _ _ S1)).
  apply does_gets. rewrite bool_decide_eq_false_2 by (injection N1; lia). cbn [orb]. rewrite <- N1.
  eapply does_then; [by apply does_ret|]. intros s2 H2 S2 <- Hf2. apply (does_ext _ _ _ _ (page_of s2)); [|intros q; by rewrite Hf2, Hf].
  apply does_update; [done| |done|done]. by destruct H2.
Qed.

(** Pages whose content is not wanted are handed out as zeros. *)
Lemma get_zeros s p : db_ok s -> 1 <= p <= mxPgno s -> p <> PENDING_BYTE_PAGE (db_bt s) -> does (btreeGetPage p true) s tt (sizes s) (set_at (page_of s) p (zeros s)).
Proof.
  intros H Hp Hsj. unfold btreeGetPage, sqlite3PagerGet. rewrite decide_False by lia. apply does_gets. cbn [negb]. rewrite andb_false_r.
  eapply does_then with (a := tt) (n := sizes s) (f := page_of s); [destruct (bool_decide _); [by apply does_ret|by apply does_answer]|].
  intros s1 H1 S1 N1 Hf. apply does_gets. rewrite decide_False by (by rewrite (sd_bt _ _ S1)).
  apply does_gets. rewrite orb_true_r. eapply does_then with (a := tt) (n := sizes s) (f := set_at (page_of s) p (zeros s)).
  - apply does_gets. rewrite decide_False by (rewrite (sd_mx _ _ S1); lia). apply does_gets. rewrite <- N1.
    eapply does_ext; [apply put_does; [done|apply len_zeros; pose proof (do_usable _ H1); lia|apply zeros_ok]|].
    intros q. unfold set_at, zeros. rewrite (sd_bt _ _ S1). by case_decide.
  - intros s2 H2 S2 N2 Hf2. eapply does_ext; [|exact Hf2]. rewrite <- N2. apply does_update; [done| |done|done]. by destruct H2.
Qed.

Lemma unused_does s p nc f : db_ok s -> does (btreeGetPage p nc) s tt (sizes s) f -> p ∉ referenced s -> does (btreeGetUnusedPage p nc) s tt (sizes s) f.
Proof.
  intros H Hg Hp. eapply does_then; [exact Hg|]. intros s1 H1 S1 <- Hf. apply does_gets.
  rewrite bool_decide_eq_false_2 by (by rewrite (sd_ref _ _ S1)). eapply does_ext; [|exact Hf].
  apply does_update; [done| |done|done]. by destruct H1.
Qed.

Lemma content_does s p : db_ok s -> exists b, does (btreeGetHasContent p) s b (sizes s) (page_of s).
Proof. intros H. eexists. apply does_gets. by apply does_ret. Qed.

Lemma set_content_does s p : db_ok s -> does (btreeSetHasContent p) s tt (sizes s) (page_of s).
Proof.
  intros H. assert (Hc : forall s h, db_ok s -> does (update (set_content h)) s tt (sizes s) (page_of s)).
  { intros s1 h H1. apply (does_update (set_content h)); [done| |done|done]. by destruct H1. }
  assert (Hs : forall s size l, db_ok s ->
    does (if decide (p <= size) then _ ← next_answer; update (set_content (Some (size, {[p]} ∪ l))) else mret tt) s tt (sizes s) (page_of s)).
  { intros s1 size l H1. case_decide; [|by apply does_ret]. eapply does_then; [by apply does_answer|]. intros s2 H2 S2 <- Hf.
    eapply does_ext; [by apply Hc|exact Hf]. }
  apply does_gets. destruct (pHasContent s) as [[size l]|].
  - eapply does_then; [by apply does_ret|]. intros s1 H1 S1 <- Hf. eapply does_ext; [by apply Hs|exact Hf].
  - apply (does_then _ _ _ (nPage s, ∅) (sizes s) (page_of s)).
    + eapply does_then; [by apply does_answer|]. intros s1 H1 S1 N1 Hf. apply does_gets. replace (nPage s1) with (nPage s) by (by injection N1).
      eapply does_then; [by apply Hc|]. intros s2 H2 S2 N2 Hf2. rewrite N1 in N2.
      apply (does_ext _ _ _ _ (page_of s2)); [rewrite <- N2; by apply does_ret|intros q; by rewrite Hf2, Hf].
    + intros s3 H3 S3 <- Hf3. eapply does_ext; [by apply Hs|exact Hf3].
Qed.

(** The routine succeeds with [Q]. *)
Definition runs {A} (m : routine A) (s : Db) (Q : A -> Db -> Prop) : Prop :=
  exists a s', m s = Some (Ok a, s') /\ db_ok s' /\ same_db s s' /\ Q a s'.

Lemma runs_does {A} (m : routine A) s a n f (Q : A -> Db -> Prop) : does m s a n f ->
  (forall s', db_ok s' -> same_db s s' -> sizes s' = n -> (forall q, page_of s' q = f q) -> Q a s') -> runs m s Q.
Proof. intros (s' & E & H1 & H2 & H3 & H4) HQ. exists a, s'. auto. Qed.

Lemma runs_then {A B} (m : routine A) (k : A -> routine B) s a n f Q : does m s a n f ->
  (forall s', db_ok s' -> same_db s s' -> sizes s' = n -> (forall q, page_of s' q = f q) -> runs (k a) s' Q) -> runs (a ← m; k a) s Q.
Proof.
  intros (s1 & E & H1 & H2 & H3 & H4) Hk. destruct (Hk s1 H1 H2 H3 H4) as (b & s2 & E2 & F1 & F2 & F3).
  exists b, s2. split; [by rewrite (bind_ok _ _ _ _ _ E)|]. split; [done|]. split; [by transitivity s1|done].
Qed.

Lemma runs_bind {A B} (m : routine A) (k : A -> routine B) s Q1 Q : runs m s Q1 ->
  (forall a s', db_ok s' -> same_db s s' -> Q1 a s' -> runs (k a) s' Q) -> runs (a ← m; k a) s Q.
Proof.
  intros (a & s1 & E & H1 & H2 & H3) Hk. destruct (Hk a s1 H1 H2 H3) as (b & s2 & E2 & F1 & F2 & F3).
  exists b, s2. split; [by rewrite (bind_ok _ _ _ _ _ E)|]. split; [done|]. split; [by transitivity s1|done].
Qed.

Lemma runs_mono {A} (m : routine A) s (Q Q' : A -> Db -> Prop) : runs m s Q -> (forall a s', same_db s s' -> Q a s' -> Q' a s') -> runs m s Q'.
Proof. intros (a & s' & E & H1 & H2 & H3) H. exists a, s'. auto. Qed.

Lemma runs_gets {A B} (g : Db -> A) (k : A -> routine B) s Q : runs (k (g s)) s Q -> runs (x ← gets g; k x) s Q.
Proof. intros (a & s' & E & H). by exists a, s'. Qed.

Lemma runs_lift {A B} (o : option A) (k : A -> routine B) s a Q : o = Some a -> runs (k a) s Q -> runs (x ← lift o; k x) s Q.
Proof. intros -> (b & s' & E & H). by exists b, s'. Qed.

Lemma runs_require {B} (P : Prop) `{Decision P} (k : routine B) s Q : P -> runs k s Q -> runs (_ ← require P; k) s Q.
Proof. intros HP (b & s' & E & Hs). exists b, s'. split; [|done]. rewrite <- E. unfold require, mbind, routine_bind. by rewrite decide_True. Qed.

Lemma runs_ret {A} (a : A) s (Q : A -> Db -> Prop) : db_ok s -> Q a s -> runs (mret a) s Q.
Proof. intros H HQ. by exists a, s. Qed.

(** ** The free list

    A trunk page with its leaves, from the first trunk page on. *)

Fixpoint trunks (P : Z -> bytes) (us first : Z) (ts : list (Z * list Z)) : Prop :=
  match ts with
  | [] => first = 0
  | (t, ls) :: ts =>
      first = t /\ rd4 (P t) 4 = Z.of_nat (length ls) /\ Z.of_nat (length ls) <= us / 4 - 2 /\
      (forall i x, ls !! i = Some x -> rd4 (P t) (8 + 4 * Z.of_nat i) = x) /\ trunks P us (rd4 (P t) 0) ts
  end.

Definition free_pages (ts : list (Z * list Z)) : list Z := ts ≫= fun '(t, ls) => t :: ls.

Record freelist (s : Db) (ts : list (Z * list Z)) : Prop := {
  fl_trunks : trunks (page_of s) (usableSize (db_bt s)) (rd4 (page_of s 1) 32) ts;
  fl_count : rd4 (page_of s 1) 36 = Z.of_nat (length (free_pages ts));
  fl_nodup : NoDup (free_pages ts);
  fl_range p : p ∈ free_pages ts -> 2 <= p <= nPage s /\ p <> PENDING_BYTE_PAGE (db_bt s) /\ p ∉ referenced s;
  fl_sizes : 1 <= nPage s <= dbSize s /\ nPage s <= mxPgno s
}.

Lemma trunks_ext P P' us ts : forall first, (forall t ls, (t, ls) ∈ ts -> P' t = P t) -> trunks P us first ts -> trunks P' us first ts.
Proof.
  induction ts as [|[t ls] ts IH]; intros first He; cbn [trunks]; [done|]. intros (H1 & H2 & H3 & H4 & H5).
  rewrite (He t ls) by (by left). split; [done|]. split; [done|]. split; [done|]. split; [done|].
  apply IH; [|done]. intros t' ls' Ht. apply (He t' ls'). by right.
Qed.

Lemma free_pages_cons t ls ts : free_pages ((t, ls) :: ts) = t :: ls ++ free_pages ts.
Proof. done. Qed.

Lemma trunk_free t ls ts : (t, ls) ∈ ts -> t ∈ free_pages ts.
Proof. intros H. unfold free_pages. apply list_elem_of_bind. exists (t, ls). split; [by left|done]. Qed.

(** There are fewer free pages than pages. *)
Lemma free_count l n : 1 <= n -> NoDup l -> (forall p : Z, p ∈ l -> 2 <= p <= n) -> Z.of_nat (length l) < n.
Proof.
  intros Hn Hd Hr. assert (H : l ⊆+ seqZ 2 (n - 1)).
  { apply NoDup_submseteq; [done|]. intros p Hp. apply elem_of_seqZ. apply Hr in Hp. lia. }
  apply submseteq_length in H. rewrite length_seqZ in H. lia.
Qed.

(** *** Taking a leaf *)

(** The last leaf takes the place of the [c]-th. *)
Definition swap_out (c : nat) (ls : list Z) : list Z := take (length ls - 1) (<[c := default 0 (last ls)]> ls).

Lemma swap_out_length c ls : length (swap_out c ls) = (length ls - 1)%nat.
Proof. unfold swap_out. rewrite length_take, length_insert. lia. Qed.

Lemma swap_out_perm c ls x : ls !! c = Some x -> ls ≡ₚ x :: swap_out c ls.
Proof.
  intros Hc. destruct (decide (ls = [])) as [->|Hne]; [done|]. destruct (exists_last Hne) as (l & y & ->).
  unfold swap_out. rewrite last_snoc. cbn [default from_option]. rewrite length_app. cbn [length]. replace (length l + 1 - 1)%nat with (length l) by lia.
  apply lookup_lt_Some in Hc as Hl. rewrite length_app in Hl. cbn [length] in Hl.
  destruct (decide (c = length l)) as [->|Hn].
  - rewrite list_lookup_middle in Hc by done. injection Hc as <-.
    rewrite insert_app_r_alt by lia. rewrite Nat.sub_diag. cbn. rewrite take_app_length. by rewrite Permutation_app_comm.
  - rewrite lookup_app_l in Hc by lia. rewrite insert_app_l by lia.
    rewrite take_app_le by (rewrite length_insert; lia). rewrite take_ge by (rewrite length_insert; lia).
    apply list_elem_of_split_length in Hc as (l1 & l2 & -> & ->). rewrite insert_app_r_alt by lia. rewrite Nat.sub_diag. cbn.
    rewrite <- app_assoc. cbn. rewrite <- Permutation_middle. constructor. rewrite app_assoc. rewrite (Permutation_app_comm _ [y]). cbn.
    by rewrite Permutation_middle.
Qed.

Lemma swap_out_lookup c ls i x : (c < length ls)%nat -> swap_out c ls !! i = Some x ->
  (i < length ls - 1)%nat /\ (i = c /\ last ls = Some x \/ i <> c /\ ls !! i = Some x).
Proof.
  intros Hc H. apply lookup_lt_Some in H as Hl. rewrite swap_out_length in Hl. split; [done|].
  unfold swap_out in H. rewrite lookup_take_lt in H by lia. destruct (decide (i = c)) as [->|Hn].
  - left. rewrite list_lookup_insert_eq in H by lia. split; [done|]. destruct ls; [cbn in Hc; lia|]. destruct (last (z :: ls)) eqn:E; [done|].
    by apply last_None in E.
  - right. by rewrite list_lookup_insert_ne in H.
Qed.

Lemma closest_leaf_spec D nearby : bytes_ok D -> forall n i c d, 0 <= c < i -> 8 + (i + Z.of_nat n) * 4 <= len D ->
  exists c', closest_leaf n i nearby c d D = Some c' /\ 0 <= c' < i + Z.of_nat n.
Proof.
  intros Hb. induction n as [|n IH]; intros i c d Hc Hl; cbn [closest_leaf]; [exists c; split; [done|lia]|].
  rewrite get4byte_rd4 by (done || lia). cbn [mbind option_bind].
  case_decide; (destruct (IH (i + 1) i (distance (rd4 D (8 + i * 4)) nearby)) as (c1 & E1 & B1); [lia|lia|]);
    (destruct (IH (i + 1) c d) as (c2 & E2 & B2); [lia|lia|]).
  - exists c1. split; [done|lia].
  - exists c2. split; [done|lia].
Qed.

Lemma sizes_same s s' : sizes s' = sizes s -> nPage s' = nPage s /\ dbSize s' = dbSize s.
Proof. by intros [= -> ->]. Qed.

Lemma sizes_write s p : p <= dbSize s -> (nPage s, Z.max (dbSize s) p) = sizes s.
Proof. intros H. unfold sizes. f_equal. lia. Qed.

(** Facts of the page buffers, for [lia]. *)
Lemma page_facts s q : db_ok s -> 480 <= usableSize (db_bt s) /\ usableSize (db_bt s) <= pageSize (db_bt s) /\ len (page_of s q) = pageSize (db_bt s) /\ pageSize (db_bt s) <= 65536.
Proof. intros H. pose proof (do_usable _ H). pose proof (do_size _ H). pose proof (do_len _ H q). lia. Qed.

Lemma set_at_eq f p d : set_at f p d p = d.
Proof. unfold set_at. by rewrite decide_True. Qed.

Lemma set_at_ne f p d q : q <> p -> set_at f p d q = f q.
Proof. intros. unfold set_at. by rewrite decide_False. Qed.

Lemma take_leaf_spec s nearby t ls : db_ok s -> rd4 (page_of s t) 4 = Z.of_nat (length ls) -> ls <> [] ->
  Z.of_nat (length ls) <= usableSize (db_bt s) / 4 - 2 -> (forall i x, ls !! i = Some x -> rd4 (page_of s t) (8 + 4 * Z.of_nat i) = x) ->
  (forall x, x ∈ ls -> 2 <= x <= nPage s /\ x <> PENDING_BYTE_PAGE (db_bt s) /\ x ∉ referenced s /\ x <> t) ->
  1 <= t <= dbSize s -> nPage s <= dbSize s /\ nPage s <= mxPgno s ->
  runs (take_leaf nearby (nPage s) t (Z.of_nat (length ls))) s (fun x s' => exists c, ls !! c = Some x /\ sizes s' = sizes s /\
    rd4 (page_of s' t) 4 = Z.of_nat (length ls) - 1 /\ rd4 (page_of s' t) 0 = rd4 (page_of s t) 0 /\
    (forall i y, swap_out c ls !! i = Some y -> rd4 (page_of s' t) (8 + 4 * Z.of_nat i) = y) /\
    (forall q, q <> t -> q <> x -> page_of s' q = page_of s q)).
Proof.
  intros H Hk Hne Hmax Hls Hr Ht Hnd. destruct (page_facts s t H) as (F1 & F2 & F3 & F4). set (k := Z.of_nat (length ls)) in *.
  assert (Hk0 : 0 < k) by (destruct ls; [done|cbn [length] in k; lia]). pose proof (do_bytes _ H t) as Hb.
  assert (Hk4 : 8 + 4 * k <= usableSize (db_bt s)) by (Z.to_euclidean_division_equations; lia). unfold take_leaf. apply runs_gets.
  assert (exists c, (if decide (0 < nearby) then x ← sqlite3Get4byte (page_of s t) 8; closest_leaf (Z.to_nat (k - 1)) 1 nearby 0 (distance x nearby) (page_of s t) else Some 0) = Some (Z.of_nat c) /\ (c < length ls)%nat) as (c & Ec & Hc).
  { case_decide; [|exists 0%nat; split; [done|lia]]. rewrite get4byte_rd4 by (done || lia). cbn [mbind option_bind].
    destruct (closest_leaf_spec (page_of s t) nearby Hb (Z.to_nat (k - 1)) 1 0 (distance (rd4 (page_of s t) 8) nearby)) as (c' & E & B); [lia|lia|].
    exists (Z.to_nat c'). rewrite E. split; [f_equal; lia|lia]. }
  eapply runs_lift; [exact Ec|]. clear Ec. destruct (lookup_lt_is_Some_2 ls c Hc) as [x Hx]. pose proof (Hr x (list_elem_of_lookup_2 _ _ _ Hx)) as (R1 & R2 & R3 & R4).
  eapply runs_then; [apply get4_does; [done|lia|lia]|]. intros s1 H1 S1 N1 P1.
  replace (8 + Z.of_nat c * 4) with (8 + 4 * Z.of_nat c) by lia. rewrite (Hls c x Hx). rewrite decide_False by lia.
  eapply runs_then; [by apply write_does|]. intros s2 H2 S2 N2 P2. rewrite sizes_write in N2 by (apply sizes_same in N1; lia).
  set (D := page_of s t) in *. assert (P2t : page_of s2 t = D) by (by rewrite P2, P1).
  pose (D1 := if decide (Z.of_nat c < k - 1) then upd D (8 + 4 * Z.of_nat c) (sub D (4 + k * 4) 4) else D).
  assert (Hl1 : len D1 = len D) by (unfold D1; case_decide; [rewrite length_upd; [done|lia|rewrite length_sub by lia; lia]|done]).
  assert (Hps : pageSize (db_bt s2) = pageSize (db_bt s)) by (by rewrite (sd_bt _ _ S2), (sd_bt _ _ S1)).
  apply (runs_then _ _ _ tt (sizes s2) (set_at (page_of s2) t D1)).
  { unfold D1. case_decide.
    - eapply does_ext; [apply copy4_does; [done|lia..]|]. intros q. by rewrite P2t.
    - eapply does_ext; [by apply does_ret|]. intros q. unfold set_at. case_decide; [by subst|done]. }
  intros s3 H3 S3 N3 P3. assert (P3t : page_of s3 t = D1) by (by rewrite P3, set_at_eq).
  assert (Hps3 : pageSize (db_bt s3) = pageSize (db_bt s)) by (by rewrite (sd_bt _ _ S3)).
  eapply runs_then; [apply put4_does; [done|lia|lia]|]. intros s4 H4 S4 N4 P4.
  destruct (content_does s4 x H4) as [b Hb4]. eapply runs_then; [exact Hb4|]. intros s5 H5 S5 N5 P5.
  assert (S05 : same_db s s5) by (repeat (etransitivity; [eassumption|]); reflexivity).
  assert (N05 : sizes s5 = sizes s) by congruence. destruct (sizes_same _ _ N05) as [NN ND].
  assert (exists d, does (btreeGetUnusedPage x (negb b)) s5 tt (sizes s5) (set_at (page_of s5) x d)) as [d Hd].
  { assert (x ∉ referenced s5) by (by rewrite (sd_ref _ _ S05)). assert (x <> PENDING_BYTE_PAGE (db_bt s5)) by (by rewrite (sd_bt _ _ S05)).
    destruct b; cbn [negb].
    - exists (page_of s5 x). eapply does_ext; [apply unused_does; [done|apply get_does; [done|lia|done]|done]|]. intros q. unfold set_at. by case_decide; subst.
    - exists (zeros s5). apply unused_does; [done|apply get_zeros; [done|rewrite (sd_mx _ _ S05); lia|done]|done]. }
  eapply runs_then; [exact Hd|]. intros s6 H6 S6 N6 P6. eapply runs_then; [by apply write_does|]. intros s7 H7 S7 N7 P7.
  rewrite sizes_write in N7 by (apply sizes_same in N6; lia). apply runs_ret; [done|]. exists c. split; [done|].
  assert (P7t : page_of s7 t = upd D1 4 (four (k - 1))).
  { rewrite P7, P6, set_at_ne by done. by rewrite P5, P4, set_at_eq, P3t. }
  split; [congruence|]. rewrite P7t. assert (Hl4 : len (four (k - 1)) = 4) by done.
  split; [apply rd4_upd_four; lia|]. split.
  { rewrite rd4_upd by lia. unfold D1. case_decide; [|done]. apply rd4_upd; rewrite ?length_sub; lia. }
  split.
  - intros i y Hi. apply swap_out_lookup in Hi as [Hil Hi]; [|done]. rewrite rd4_upd by lia. unfold D1. destruct Hi as [[-> Hlast]|[Hn Hi]].
    + rewrite decide_True by lia. rewrite rd4_upd_at by (rewrite ?length_sub; lia). rewrite rd4_sub by lia.
      rewrite last_lookup in Hlast. apply Hls in Hlast. rewrite <- Hlast. f_equal. lia.
    + rewrite <- (Hls i y Hi). case_decide; [|done]. apply rd4_upd; rewrite ?length_sub; lia.
  - intros q Hq1 Hq2. rewrite P7, P6, set_at_ne by done. rewrite P5, P4, set_at_ne by done. rewrite P3, set_at_ne by done. by rewrite P2, P1.
Qed.

(** The number of the next page of the file. *)
Definition next_page (s : Db) : Z := if decide (nPage s + 1 = PENDING_BYTE_PAGE (db_bt s)) then nPage s + 2 else nPage s + 1.

Lemma next_page_fresh s : nPage s < next_page s /\ next_page s <> PENDING_BYTE_PAGE (db_bt s).
Proof. unfold next_page. case_decide; lia. Qed.

Lemma append_page_spec s : db_ok s -> 1 <= nPage s -> next_page s <= mxPgno s -> next_page s ∉ referenced s ->
  runs append_page s (fun pg s' => pg = next_page s /\ nPage s' = pg /\ pg <= dbSize s' /\ dbSize s <= dbSize s' /\
    page_of s' 1 = upd (page_of s 1) 28 (four pg) /\ (forall q, q <> 1 -> q <> pg -> page_of s' q = page_of s q)).
Proof.
  intros H Hn Hmx Href. destruct (page_facts s 1 H) as (F1 & F2 & F3 & F4). pose proof (do_mx _ H). pose proof (next_page_fresh s) as [L1 L2].
  unfold append_page. eapply runs_then; [by apply write_does|]. intros s1 H1 S1 N1 P1. do 2 apply runs_gets.
  assert (nPage s1 = nPage s) as -> by (by injection N1). rewrite (sd_bt _ _ S1).
  assert (Hpg : (if decide (u32 (nPage s + 1) = PENDING_BYTE_PAGE (db_bt s)) then u32 (u32 (nPage s + 1) + 1) else u32 (nPage s + 1)) = next_page s).
  { unfold next_page in *. rewrite (wrapu_id 32 (nPage s + 1)) by (unfold in_u; change (2 ^ 32) with 4294967296; case_decide; lia).
    case_decide; [|done]. rewrite wrapu_id by (unfold in_u; change (2 ^ 32) with 4294967296; lia). lia. }
  rewrite Hpg. clear Hpg. set (pg := next_page s) in *.
  eapply runs_then; [apply (does_update (set_nPage pg)); [done|by destruct H1|done|done]|]. intros s2 H2 S2 N2 P2.
  assert (S02 : same_db s s2) by (by transitivity s1).
  eapply runs_then; [apply put4_does; [done|lia|rewrite (sd_bt _ _ S02); lia]|]. intros s3 H3 S3 N3 P3.
  apply runs_require; [done|]. assert (S03 : same_db s s3) by (by transitivity s2).
  eapply runs_then; [apply unused_does; [done|apply get_zeros; [done|rewrite (sd_mx _ _ S03); lia|by rewrite (sd_bt _ _ S03)]|by rewrite (sd_ref _ _ S03)]|].
  intros s4 H4 S4 N4 P4. eapply runs_then; [by apply write_does|]. intros s5 H5 S5 N5 P5. apply runs_ret; [done|].
  injection N2 as A2 B2. injection N1 as A1 B1. injection N3 as A3 B3. injection N4 as A4 B4. injection N5 as A5 B5.
  change (nPage (set_nPage pg s1)) with pg in A2. change (dbSize (set_nPage pg s1)) with (dbSize s1) in B2.
  split; [done|]. split; [congruence|]. split; [lia|]. split; [lia|]. split.
  - rewrite P5, P4, set_at_ne by lia. by rewrite P3, set_at_eq, P2, P1.
  - intros q Hq1 Hq2. rewrite P5, P4, set_at_ne by done. by rewrite P3, set_at_ne, P2, P1.
Qed.

(** What taking a page promises: the page came off the list or was appended, nothing else changed but
    page 1's counters and the pages of the list. *)
Record taken (s : Db) (ts : list (Z * list Z)) (pg : Z) (s' : Db) (ts' : list (Z * list Z)) : Prop := {
  tk_list : freelist s' ts';
  tk_page : (ts = [] /\ ts' = [] /\ pg = next_page s /\ nPage s' = pg) \/ (nPage s' = nPage s /\ free_pages ts ≡ₚ pg :: free_pages ts');
  tk_same q : q <> 1 -> q ∉ free_pages ts -> q <> pg -> page_of s' q = page_of s q;
  tk_one j : 0 <= j -> ~ (28 <= j < 40) -> rd (page_of s' 1) j = rd (page_of s 1) j
}.

Lemma freelist_bounds s ts : freelist s ts -> 0 <= Z.of_nat (length (free_pages ts)) < nPage s.
Proof.
  intros H. split; [lia|]. apply free_count; [apply (fl_sizes _ _ H)|apply (fl_nodup _ _ H)|]. intros p Hp. apply (fl_range _ _ H) in Hp. tauto.
Qed.

Lemma one_not_free s ts : freelist s ts -> 1 ∉ free_pages ts.
Proof. intros H Hp. apply (fl_range _ _ H) in Hp. lia. Qed.

(** The pages of the rest of a list. *)
Lemma trunks_same P P' us first t ls ts : NoDup (free_pages ((t, ls) :: ts)) -> (forall q, q ∈ free_pages ts -> P' q = P q) ->
  trunks P us first ts -> trunks P' us first ts.
Proof. intros _ Hs. apply trunks_ext. intros t' ls' Ht. by apply Hs, (trunk_free t' ls'). Qed.

(** A page of the first trunk page, once page 1 counts one page less. *)
Lemma take_from_trunk s s1 nearby t ls ts : db_ok s -> freelist s ((t, ls) :: ts) -> db_ok s1 -> same_db s s1 -> sizes s1 = sizes s ->
  page_of s1 1 = upd (page_of s 1) 36 (four (Z.of_nat (length (free_pages ((t, ls) :: ts))) - 1)) -> (forall q, q <> 1 -> page_of s1 q = page_of s q) ->
  runs (if decide (Z.of_nat (length ls) = 0) then _ ← sqlite3PagerWrite t; _ ← copy4 1 32 t 0; mret t
        else if decide (usableSize (db_bt s) / 4 - 2 < Z.of_nat (length ls)) then fail SQLITE_CORRUPT
        else take_leaf nearby (nPage s) t (Z.of_nat (length ls))) s1
    (fun pg s' => exists ts', taken s ((t, ls) :: ts) pg s' ts').
Proof.
  intros H Hfl H1 S1 N1 P1 Pq. destruct (page_facts s 1 H) as (F1 & F2 & F3 & F4). pose proof (freelist_bounds _ _ Hfl) as Hcnt.
  pose proof (one_not_free _ _ Hfl) as Hone. destruct Hfl as [Htr Hct Hnd Hrg Hsz]. pose proof (do_mx _ H) as Hmx. rewrite free_pages_cons in *.
  set (n := Z.of_nat (length (t :: ls ++ free_pages ts))) in *. assert (Hn : n = 1 + Z.of_nat (length ls) + Z.of_nat (length (free_pages ts))).
  { unfold n. cbn [length]. rewrite length_app. lia. }
  assert (Hl4 : len (four (n - 1)) = 4) by done. cbn [trunks] in Htr. destruct Htr as (T1 & T2 & T3 & T4 & T5).
  assert (Rt : 2 <= t <= nPage s /\ t <> PENDING_BYTE_PAGE (db_bt s) /\ t ∉ referenced s) by (apply Hrg; by left).
  apply NoDup_cons in Hnd as [Hnt Hnd]. apply NoDup_app in Hnd as (Hnd1 & Hnd2 & Hnd3). destruct (sizes_same _ _ N1) as [NN1 ND1].
  assert (C1 : rd4 (page_of s1 1) 36 = n - 1) by (rewrite P1; apply rd4_upd_four; lia).
  destruct (decide (Z.of_nat (length ls) = 0)) as [Hz|Hz].
  - assert (ls = []) as -> by (by apply nil_length_inv; lia). cbn [app length] in *.
    eapply runs_then; [by apply write_does|]. intros s2 H2 S2 N2 P2. rewrite sizes_write, N1 in N2 by lia.
    assert (S02 : same_db s s2) by (by transitivity s1). assert (Hps : pageSize (db_bt s2) = pageSize (db_bt s)) by (by rewrite (sd_bt _ _ S02)).
    eapply runs_then; [apply copy4_does; [done|lia..]|]. intros s3 H3 S3 N3 P3. rewrite N2 in N3. assert (S03 : same_db s s3) by (by transitivity s2).
    apply runs_ret; [done|]. exists ts. assert (P31 : page_of s3 1 = upd (page_of s1 1) 32 (sub (page_of s t) 0 4)).
    { rewrite P3, set_at_eq, !P2. by rewrite (Pq t) by lia. }
    assert (P3q : forall q, q <> 1 -> page_of s3 q = page_of s q) by (intros q Hq; by rewrite P3, set_at_ne, P2, Pq).
    assert (Hls4 : len (sub (page_of s t) 0 4) = 4) by (apply length_sub; rewrite ?(do_len _ H); lia).
    assert (Hl1 : len (page_of s1 1) = pageSize (db_bt s)) by (rewrite P1, length_upd; lia). destruct (sizes_same _ _ N3) as [NN3 ND3].
    split; [split|right|intros q Hq1 Hq2 _; by apply P3q|].
    + rewrite P31, rd4_upd_at, rd4_sub by lia. rewrite Z.add_0_l, (sd_bt _ _ S03). eapply trunks_ext; [|exact T5].
      intros t' ls' Ht'. apply P3q. intros ->. apply Hone. right. by apply (trunk_free 1 ls').
    + rewrite P31, rd4_upd by lia. rewrite C1. lia.
    + done.
    + intros p Hp. rewrite NN3, (sd_bt _ _ S03), (sd_ref _ _ S03). apply Hrg. by right.
    + rewrite (sd_mx _ _ S03). lia.
    + split; [done|]. by rewrite free_pages_cons.
    + intros j Hj Hj2. rewrite P31, rd_upd, decide_False by lia. rewrite P1, rd_upd, decide_False by lia. done.
  - assert (Hne : ls <> []) by (intros ->; done). rewrite decide_False by lia. rewrite <- NN1. eapply runs_mono.
    + apply take_leaf_spec; [done|by rewrite Pq by lia|done|by rewrite (sd_bt _ _ S1)|intros i x Hi; rewrite Pq by lia; by apply T4| |lia|rewrite (sd_mx _ _ S1); lia].
      intros x Hx. rewrite NN1, (sd_bt _ _ S1), (sd_ref _ _ S1). destruct (Hrg x) as (R1 & R2 & R3); [right; apply elem_of_app; by left|].
      split; [done|]. split; [done|]. split; [done|]. intros ->. apply Hnt. apply elem_of_app. by left.
    + intros x s2 S2 (c & Hc & N2 & E4 & E0 & El & Eq). exists ((t, swap_out c ls) :: ts). pose proof (list_elem_of_lookup_2 _ _ _ Hc) as Hx.
      pose proof (swap_out_perm _ _ _ Hc) as Hperm. assert (S02 : same_db s s2) by (by transitivity s1). rewrite N1 in N2.
      destruct (sizes_same _ _ N2) as [NN2 ND2]. destruct (Hrg x) as (R1 & R2 & R3); [right; apply elem_of_app; by left|].
      assert (Hpp : t :: ls ++ free_pages ts ≡ₚ x :: free_pages ((t, swap_out c ls) :: ts)).
      { rewrite free_pages_cons. rewrite Hperm at 1. cbn [app]. apply perm_swap. }
      assert (P21 : page_of s2 1 = page_of s1 1) by (apply Eq; lia).
      split; [split|right|intros q Hq1 Hq2 Hq3|].
      * rewrite P21, P1, rd4_upd, T1 by lia. cbn [trunks]. split; [done|]. rewrite swap_out_length, E4, E0, (sd_bt _ _ S02). split; [lia|]. split; [lia|].
        split; [done|]. rewrite Pq by lia. eapply trunks_ext; [|exact T5]. intros t' ls' Ht'. pose proof (trunk_free _ _ _ Ht') as Htf.
        rewrite Eq; [apply Pq|..]; intros ->; [apply Hone; right; apply elem_of_app; by right|apply Hnt, elem_of_app; by right|by apply (Hnd2 x)].
      * rewrite P21, C1. apply Permutation_length in Hpp. cbn [length] in Hpp. cbn [length] in n. lia.
      * eapply NoDup_cons_1_2 with (x := x). rewrite <- Hpp. apply NoDup_cons. split; [done|]. by apply NoDup_app.
      * intros p Hp. rewrite NN2, (sd_bt _ _ S02), (sd_ref _ _ S02). apply Hrg. rewrite Hpp. by right.
      * rewrite (sd_mx _ _ S02). lia.
      * split; [done|]. by rewrite free_pages_cons.
      * rewrite Eq; [by apply Pq| |done]. intros ->. apply Hq2. rewrite free_pages_cons. by left.
      * intros j Hj1 Hj2. rewrite P21, P1, rd_upd, decide_False by lia. done.
Qed.

Lemma allocate_spec s ts nearby : db_ok s -> freelist s ts -> next_page s <= mxPgno s -> next_page s ∉ referenced s ->
  runs (allocateBtreePage nearby) s (fun pg s' => exists ts', taken s ts pg s' ts').
Proof.
  intros H Hfl Hmx Href. destruct (page_facts s 1 H) as (F1 & F2 & F3 & F4). pose proof (freelist_bounds _ _ Hfl) as Hcnt.
  pose proof Hfl as Hfl'. destruct Hfl' as [Htr Hct Hnd Hrg Hsz]. pose proof (do_mx _ H) as Hmx'. set (us := usableSize (db_bt s)) in *.
  unfold allocateBtreePage. apply runs_gets. eapply runs_then; [apply get4_does; [done|lia|lia]|]. intros s1 H1 S1 N1 P1.
  rewrite Hct. set (n := Z.of_nat (length (free_pages ts))) in *. rewrite decide_False by lia. destruct (sizes_same _ _ N1) as [NN1 ND1].
  destruct ts as [|[t ls] ts].
  - (* the list is empty *)
    rewrite decide_False by (cbn in n; lia). eapply runs_mono.
    + apply append_page_spec; [done|lia|unfold next_page in *; rewrite NN1, (sd_bt _ _ S1), (sd_mx _ _ S1); done|unfold next_page in *; by rewrite NN1, (sd_bt _ _ S1), (sd_ref _ _ S1)].
    + intros pg s2 S2 (E1 & E2 & E3 & E4 & E5 & E6). exists [].
      assert (Hn : next_page s1 = next_page s) by (unfold next_page; by rewrite NN1, (sd_bt _ _ S1)). rewrite Hn in E1.
      assert (Hl4 : len (four pg) = 4) by done. destruct (next_page_fresh s) as [L1 L2].
      split; [split|by left|intros q Hq1 _ Hq2; by rewrite E6, P1|].
      * rewrite E5, rd4_upd, P1 by (rewrite ?P1; lia). exact Htr.
      * rewrite E5, rd4_upd, P1 by (rewrite ?P1; lia). exact Hct.
      * constructor.
      * intros p Hp. by apply elem_of_nil in Hp.
      * rewrite (sd_mx _ _ S2), (sd_mx _ _ S1). lia.
      * intros j Hj Hj2. rewrite E5, rd_upd, decide_False, P1 by (rewrite ?P1; lia). done.
  - assert (Hn0 : 0 < n) by (unfold n; rewrite free_pages_cons; cbn [length]; lia). rewrite decide_True by done.
    cbn [trunks] in Htr. destruct Htr as (T1 & T2 & T3 & T4 & T5).
    assert (Rt : 2 <= t <= nPage s /\ t <> PENDING_BYTE_PAGE (db_bt s) /\ t ∉ referenced s) by (apply Hrg; rewrite free_pages_cons; by left). destruct Rt as (R1 & R2 & R3).
    eapply runs_then; [by apply write_does|]. intros s2 H2 S2 N2 P2. rewrite sizes_write, N1 in N2 by lia.
    assert (S02 : same_db s s2) by (by transitivity s1).
    eapply runs_then; [apply put4_does; [done|lia|rewrite (sd_bt _ _ S02); lia]|]. intros s3 H3 S3 N3 P3. rewrite N2 in N3.
    assert (S03 : same_db s s3) by (by transitivity s2). assert (Hl4 : len (four (n - 1)) = 4) by done.
    assert (P31 : page_of s3 1 = upd (page_of s 1) 36 (four (n - 1))) by (by rewrite P3, set_at_eq, P2, P1).
    assert (P3q : forall q, q <> 1 -> page_of s3 q = page_of s q) by (intros q Hq; by rewrite P3, set_at_ne, P2, P1).
    eapply runs_then; [apply get4_does; [done|lia|rewrite (sd_bt _ _ S03); lia]|]. intros s4 H4 S4 N4 P4. rewrite N3 in N4.
    rewrite P31, rd4_upd, T1 by lia. rewrite decide_False by lia. assert (S04 : same_db s s4) by (by transitivity s3).
    destruct (sizes_same _ _ N4) as [NN4 ND4].
    eapply runs_then; [apply unused_does; [done|apply get_does; [done|lia|by rewrite (sd_bt _ _ S04)]|by rewrite (sd_ref _ _ S04)]|].
    intros s5 H5 S5 N5 P5. rewrite N4 in N5. assert (S05 : same_db s s5) by (by transitivity s4).
    eapply runs_then; [apply get4_does; [done|lia|rewrite (sd_bt _ _ S05); lia]|]. intros s6 H6 S6 N6 P6. rewrite N5 in N6.
    assert (S06 : same_db s s6) by (by transitivity s5). destruct (sizes_same _ _ N6) as [NN6 ND6].
    assert (P6q : forall q, page_of s6 q = page_of s3 q) by (intros q; by rewrite P6, P5, P4).
    rewrite P5, P4, P3q by lia. rewrite T2. apply runs_gets. rewrite (sd_bt _ _ S06). fold us.
    apply (take_from_trunk s s6); [done..|by rewrite P6q, P31|intros q Hq; by rewrite P6q, P3q].
Qed.

(** What giving a page back promises. *)
Record given_back (s : Db) (ts : list (Z * list Z)) (pg : Z) (s' : Db) (ts' : list (Z * list Z)) : Prop := {
  gb_list : freelist s' ts';
  gb_page : free_pages ts' ≡ₚ pg :: free_pages ts;
  gb_n : nPage s' = nPage s;
  gb_same q : q <> 1 -> q ∉ free_pages ts -> q <> pg -> page_of s' q = page_of s q;
  gb_one j : 0 <= j -> ~ (28 <= j < 40) -> rd (page_of s' 1) j = rd (page_of s 1) j
}.

Lemma runs_finally {A} (m : routine A) g s (Q Q' : A -> Db -> Prop) : runs m s Q ->
  (forall a s', db_ok s' -> Q a s' -> db_ok (g s') /\ same_db s' (g s') /\ Q' a (g s')) -> runs (finally m g) s Q'.
Proof.
  intros (a & s1 & E & H1 & H2 & H3) Hg. destruct (Hg a s1 H1 H3) as (G1 & G2 & G3). exists a, (g s1).
  split; [unfold finally; by rewrite E|]. split; [done|]. split; [by transitivity s1|done].
Qed.

Section Free.
Context (s : Db) (ts : list (Z * list Z)) (pg : Z).
Hypothesis H : db_ok s.
Hypothesis Hfl : freelist s ts.
Hypothesis Hpg : 2 <= pg <= nPage s.
Hypothesis Hsj : pg <> PENDING_BYTE_PAGE (db_bt s).
Hypothesis Href : pg ∉ referenced s.
Hypothesis Hnew : pg ∉ free_pages ts.

#[local] Abbreviation n := (Z.of_nat (length (free_pages ts))).

(** The state in which page 1 counts the page already, whatever the page holds. *)
Record counted (s1 : Db) : Prop := {
  ct_ok : db_ok s1;
  ct_same : same_db s s1;
  ct_sizes : sizes s1 = sizes s;
  ct_one : page_of s1 1 = upd (page_of s 1) 36 (four (n + 1));
  ct_other q : q <> 1 -> q <> pg -> page_of s1 q = page_of s q
}.

Lemma free_nodup : NoDup (pg :: free_pages ts).
Proof using Hfl Hnew. apply NoDup_cons. split; [done|apply (fl_nodup _ _ Hfl)]. Qed.

Lemma free_range p : p ∈ pg :: free_pages ts -> 2 <= p <= nPage s /\ p <> PENDING_BYTE_PAGE (db_bt s) /\ p ∉ referenced s.
Proof using Hfl Hpg Hsj Href. intros [->|Hp]%elem_of_cons; [done|by apply (fl_range _ _ Hfl)]. Qed.

Lemma free_trunk_spec s1 known : counted s1 ->
  runs (free_trunk known (rd4 (page_of s 1) 32) pg) s1 (fun _ s' => exists ts', given_back s ts pg s' ts').
Proof using H Hfl Hpg Hsj Href Hnew.
  intros [H1 S1 N1 P1 Pq]. destruct (page_facts s 1 H) as (F1 & F2 & F3 & F4). pose proof (freelist_bounds _ _ Hfl) as Hcnt.
  pose proof (one_not_free _ _ Hfl) as Hone. destruct (fl_sizes _ _ Hfl) as [Z1 Z2]. pose proof (do_mx _ H) as Hmx. destruct (sizes_same _ _ N1) as [NN1 ND1].
  pose proof (rd4_range (page_of s 1) 32 (do_bytes _ H 1)) as Hr. set (first := rd4 (page_of s 1) 32) in *.
  unfold free_trunk. apply (runs_then _ _ _ tt (sizes s) (page_of s1)).
  { rewrite <- N1. destruct known; [by apply does_ret|apply get_does; [done|lia|by rewrite (sd_bt _ _ S1)]]. }
  intros s2 H2 S2 N2 P2. destruct (sizes_same _ _ N2) as [NN2 ND2]. eapply runs_then; [by apply write_does|]. intros s3 H3 S3 N3 P3. rewrite sizes_write, N2 in N3 by lia.
  assert (S03 : same_db s s3) by (transitivity s1; [done|by transitivity s2]).
  eapply runs_then; [apply put4_does; [done|lia|rewrite (sd_bt _ _ S03); lia]|]. intros s4 H4 S4 N4 P4. rewrite N3 in N4. assert (S04 : same_db s s4) by (by transitivity s3).
  eapply runs_then; [apply put4_does; [done|lia|rewrite (sd_bt _ _ S04); lia]|]. intros s5 H5 S5 N5 P5. rewrite N4 in N5. assert (S05 : same_db s s5) by (by transitivity s4).
  eapply runs_does; [apply put4_does; [done|lia|rewrite (sd_bt _ _ S05); lia]|]. intros s6 H6 S6 N6 P6. rewrite N5 in N6. assert (S06 : same_db s s6) by (by transitivity s5).
  destruct (sizes_same _ _ N6) as [NN6 ND6]. exists ((pg, []) :: ts).
  assert (Hl : forall q, len (page_of s3 q) = pageSize (db_bt s)) by (intros q; by rewrite (do_len _ H3), (sd_bt _ _ S03)).
  pose proof (Hl pg) as HlD0. set (D := page_of s3 pg) in *. assert (Pp : page_of s6 pg = upd (upd D 0 (four first)) 4 (four 0)).
  { rewrite P6, set_at_ne by lia. rewrite P5, set_at_eq, P4, set_at_eq. done. }
  assert (Po : page_of s6 1 = upd (page_of s1 1) 32 (four pg)) by (rewrite P6, set_at_eq, P5, set_at_ne, P4, set_at_ne by lia; by rewrite P3, P2).
  assert (Pr : forall q, q <> 1 -> q <> pg -> page_of s6 q = page_of s q).
  { intros q Hq1 Hq2. rewrite P6, set_at_ne, P5, set_at_ne, P4, set_at_ne by done. by rewrite P3, P2, Pq. }
  assert (Hl4 : forall v, len (four v) = 4) by done.
  assert (Hl1 : len (page_of s1 1) = pageSize (db_bt s)) by (rewrite P1, length_upd; rewrite ?Hl4; lia).
  assert (HlD : len (upd D 0 (four first)) = pageSize (db_bt s)) by (rewrite length_upd; rewrite ?Hl4; lia).
  split; [split|done|done|intros q Hq1 Hq2 Hq3; by apply Pr|].
  - rewrite Po, rd4_upd_four by lia. cbn [trunks]. split; [done|]. rewrite Pp, rd4_upd_four by lia. split; [done|].
    split; [rewrite (sd_bt _ _ S06); cbn; Z.to_euclidean_division_equations; lia|]. split; [intros i x Hi; done|].
    rewrite rd4_upd by (rewrite ?Hl4; lia). unfold D in *. rewrite rd4_upd_four by (rewrite ?Hl; lia). rewrite (sd_bt _ _ S06).
    eapply trunks_ext; [|exact (fl_trunks _ _ Hfl)]. intros t' ls' Ht'. pose proof (trunk_free _ _ _ Ht'). apply Pr; intros ->; done.
  - rewrite Po, rd4_upd by (rewrite ?Hl4; lia). rewrite P1, rd4_upd_four by lia. rewrite free_pages_cons. cbn [app length]. lia.
  - exact free_nodup.
  - intros p Hp. rewrite NN6, (sd_bt _ _ S06), (sd_ref _ _ S06). by apply free_range.
  - rewrite (sd_mx _ _ S06). lia.
  - intros j Hj1 Hj2. rewrite Po, rd_upd, Hl4, decide_False by (rewrite ?Hl4; lia). rewrite P1, rd_upd, Hl4, decide_False by (rewrite ?Hl4; lia). done.
Qed.

Lemma free_leaf_spec s1 t ls ts0 : ts = (t, ls) :: ts0 -> counted s1 -> Z.of_nat (length ls) < usableSize (db_bt s) / 4 - 8 ->
  runs (free_leaf t (Z.of_nat (length ls)) pg) s1 (fun _ s' => exists ts', given_back s ts pg s' ts').
Proof using H Hfl Hpg Hsj Href Hnew.
  intros Hts [H1 S1 N1 P1 Pq] Hlim. pose proof Hfl as Hfl'. rewrite Hts in P1, Hfl, Hnew |- *. destruct (page_facts s 1 H) as (F1 & F2 & F3 & F4). pose proof (freelist_bounds _ _ Hfl) as Hcnt.
  pose proof (one_not_free _ _ Hfl) as Hone. destruct (fl_sizes _ _ Hfl) as [Z1 Z2]. pose proof (do_mx _ H) as Hmx. destruct (sizes_same _ _ N1) as [NN1 ND1].
  pose proof (fl_trunks _ _ Hfl) as Htr. cbn [trunks] in Htr. destruct Htr as (T1 & T2 & T3 & T4 & T5).
  destruct (fl_range _ _ Hfl t) as (R1 & R2 & R3); [rewrite free_pages_cons; by left|]. set (k := Z.of_nat (length ls)) in *.
  assert (Htp : t <> pg) by (intros ->; apply Hnew; rewrite free_pages_cons; by left).
  assert (Hk4 : 12 + 4 * k <= usableSize (db_bt s)) by (Z.to_euclidean_division_equations; lia).
  pose proof (fl_nodup _ _ Hfl) as Hnd. rewrite free_pages_cons in Hnd. apply NoDup_cons in Hnd as [Hnt _].
  unfold free_leaf. eapply runs_then; [by apply write_does|]. intros s2 H2 S2 N2 P2. rewrite sizes_write, N1 in N2 by lia. assert (S02 : same_db s s2) by (by transitivity s1).
  eapply runs_then; [apply put4_does; [done|lia|rewrite (sd_bt _ _ S02); lia]|]. intros s3 H3 S3 N3 P3. rewrite N2 in N3. assert (S03 : same_db s s3) by (by transitivity s2).
  eapply runs_then; [apply put4_does; [done|lia|rewrite (sd_bt _ _ S03); lia]|]. intros s4 H4 S4 N4 P4. rewrite N3 in N4. assert (S04 : same_db s s4) by (by transitivity s3).
  eapply runs_does; [by apply set_content_does|]. intros s5 H5 S5 N5 P5. rewrite N4 in N5. assert (S05 : same_db s s5) by (by transitivity s4).
  destruct (sizes_same _ _ N5) as [NN5 ND5]. exists ((t, ls ++ [pg]) :: ts0).
  assert (Hl4 : forall v, len (four v) = 4) by done. pose proof (do_len _ H t) as Hl.
  set (D := page_of s t) in *. assert (Pt : page_of s5 t = upd (upd D 4 (four (k + 1))) (8 + k * 4) (four pg)).
  { rewrite P5, P4, set_at_eq, P3, set_at_eq. rewrite P2, Pq by lia. done. }
  assert (HlD : len (upd D 4 (four (k + 1))) = pageSize (db_bt s)) by (rewrite length_upd; rewrite ?Hl4; lia).
  assert (Pr : forall q, q <> t -> page_of s5 q = page_of s1 q) by (intros q Hq; rewrite P5, P4, set_at_ne, P3, set_at_ne by done; by rewrite P2).
  assert (Hfp : free_pages ((t, ls ++ [pg]) :: ts0) ≡ₚ pg :: free_pages ((t, ls) :: ts0)).
  { rewrite !free_pages_cons. rewrite (Permutation_app_comm ls [pg]). cbn [app]. apply perm_swap. }
  split; [split|done|done| |].
  - rewrite (Pr 1), P1, rd4_upd, T1 by (rewrite ?Hl4; lia). cbn [trunks]. split; [done|]. rewrite Pt. split.
    { rewrite rd4_upd by (rewrite ?Hl4; lia). rewrite rd4_upd_four by lia. rewrite length_app. cbn [length]. lia. }
    split; [rewrite length_app, (sd_bt _ _ S05); cbn [length]; lia|]. split.
    + intros i x Hi. destruct (decide (i = length ls)) as [->|Hn].
      * rewrite list_lookup_middle in Hi by done. injection Hi as <-. replace (8 + 4 * Z.of_nat (length ls)) with (8 + k * 4) by lia. apply rd4_upd_four; lia.
      * pose proof (lookup_lt_Some _ _ _ Hi) as Hil. rewrite length_app in Hil. cbn [length] in Hil. rewrite lookup_app_l in Hi by lia.
        rewrite rd4_upd by (rewrite ?Hl4; lia). rewrite rd4_upd by (rewrite ?Hl4; lia). by apply T4.
    + rewrite rd4_upd by (rewrite ?Hl4; lia). rewrite rd4_upd by (rewrite ?Hl4; lia). rewrite (sd_bt _ _ S05). eapply trunks_ext; [|exact T5].
      intros t' ls' Ht'. pose proof (trunk_free _ _ _ Ht') as Htf. rewrite Pr, Pq; [done|..]; intros ->.
      * apply Hone. rewrite free_pages_cons. right. apply elem_of_app. by right.
      * apply Hnew. rewrite free_pages_cons. right. apply elem_of_app. by right.
      * apply Hnt. apply elem_of_app. by right.
  - rewrite (Pr 1), P1, rd4_upd_four by lia. apply Permutation_length in Hfp. cbn [length] in Hfp. lia.
  - rewrite Hfp, <- Hts. apply NoDup_cons. split; [by rewrite Hts|apply (fl_nodup _ _ Hfl')].
  - intros p Hp. rewrite NN5, (sd_bt _ _ S05), (sd_ref _ _ S05). rewrite Hfp in Hp. apply elem_of_cons in Hp as [->|Hp]; [done|by apply (fl_range _ _ Hfl)].
  - rewrite (sd_mx _ _ S05). lia.
  - intros q Hq1 Hq2 Hq3. rewrite Pr; [by apply Pq|]. intros ->. apply Hq2. rewrite free_pages_cons. by left.
  - intros j Hj1 Hj2. rewrite (Pr 1), P1, rd_upd, Hl4, decide_False by (rewrite ?Hl4; lia). done.
Qed.

Lemma free_spec given : runs (freePage2 given pg) s (fun _ s' => exists ts', given_back s ts pg s' ts').
Proof using H Hfl Hpg Hsj Href Hnew.
  destruct (page_facts s 1 H) as (F1 & F2 & F3 & F4). pose proof (freelist_bounds _ _ Hfl) as Hcnt. destruct (fl_sizes _ _ Hfl) as [Z1 Z2]. pose proof (do_mx _ H) as Hmx.
  unfold freePage2. apply runs_gets. rewrite decide_False by lia. apply runs_gets.
  eapply (runs_finally _ _ _ (fun _ s' => exists ts', given_back s ts pg s' ts')).
  2: { intros _ s' Hs' (ts' & [[L1 L2 L3 L4 L5] G2 G3 G4 G5]). unfold freepage_out. case_decide; [|split; [done|split; [done|exists ts'; split; [by split|done|done|done|done]]]].
       split; [by destruct Hs'|]. split; [done|]. exists ts'. split; [by split|done|done|done|done]. }
  eapply runs_then; [by apply write_does|]. intros s1 H1 S1 N1 P1. rewrite sizes_write in N1 by lia.
  eapply runs_then; [apply get4_does; [done|lia|rewrite (sd_bt _ _ S1); lia]|]. intros s2 H2 S2 N2 P2. rewrite N1 in N2. assert (S02 : same_db s s2) by (by transitivity s1).
  rewrite P1, (fl_count _ _ Hfl). rewrite (wrapu_id 32) by (unfold in_u; change (2 ^ 32) with 4294967296; lia).
  eapply runs_then; [apply put4_does; [done|lia|rewrite (sd_bt _ _ S02); lia]|]. intros s3 H3 S3 N3 P3. rewrite N2 in N3. assert (S03 : same_db s s3) by (by transitivity s2).
  destruct (sizes_same _ _ N3) as [NN3 ND3]. apply runs_gets. rewrite (sd_bt _ _ S03).
  assert (C3 : counted s3).
  { split; [done|done|done|by rewrite P3, set_at_eq, P2, P1|intros q Hq1 Hq2; by rewrite P3, set_at_ne, P2, P1]. }
  eapply (runs_bind _ _ _ (fun _ s4 => counted s4)).
  { case_decide; [|by apply runs_ret].
    apply (runs_then _ _ _ tt (sizes s3) (page_of s3)).
    { destruct (given || _); [by apply does_ret|apply get_does; [done|lia|by rewrite (sd_bt _ _ S03)]]. }
    intros s4 H4 S4 N4 P4. rewrite N3 in N4. eapply runs_then; [by apply write_does|]. intros s5 H5 S5 N5 P5. destruct (sizes_same _ _ N4) as [NN4 ND4]. rewrite sizes_write, N4 in N5 by lia.
    apply runs_gets. assert (S05 : same_db s s5) by (transitivity s3; [done|by transitivity s4]).
    eapply runs_then; [apply put_does; [done|apply len_zeros; rewrite (sd_bt _ _ S05); lia|apply zeros_ok]|]. intros s6 H6 S6 N6 P6. rewrite N5 in N6.
    apply runs_ret; [done|]. split; [done|by transitivity s5|done|rewrite P6, set_at_ne by lia; by rewrite P5, P4, (ct_one _ C3)|].
    intros q Hq1 Hq2. rewrite P6, set_at_ne by done. by rewrite P5, P4, (ct_other _ C3). }
  intros known s4 H4 S34 C4. destruct (ct_same _ C4). destruct (sizes_same _ _ (ct_sizes _ C4)) as [NN4 ND4]. assert (S4 : same_db s s4) by (apply (ct_same _ C4)).
  destruct (decide (n <> 0)) as [Hn|Hn].
  2: { pose proof (fl_trunks _ _ Hfl) as Htr. assert (ts = []) as Hts.
       { destruct ts as [|[t ls] ts0]; [done|]. rewrite free_pages_cons in Hn. cbn [length] in Hn. lia. }
       pose proof (free_trunk_spec s4 known C4) as Hft. rewrite Hts in Htr. cbn [trunks] in Htr. by rewrite Htr in Hft. }
  eapply runs_then; [apply get4_does; [done|lia|rewrite (sd_bt _ _ S4); lia]|]. intros s5 H5 S5 N5 P5.
  assert (C5 : counted s5).
  { split; [done|by transitivity s4|by rewrite N5, (ct_sizes _ C4)|by rewrite P5, (ct_one _ C4)|intros q Hq1 Hq2; by rewrite P5, (ct_other _ C4)]. }
  rewrite (ct_one _ C4), rd4_upd by (rewrite ?len_four; lia). destruct (sizes_same _ _ (ct_sizes _ C5)) as [NN5 ND5]. assert (S05 : same_db s s5) by (apply (ct_same _ C5)).
  assert (exists t ls ts0, ts = (t, ls) :: ts0) as (t & ls & ts0 & Ets) by (clear - Hn; destruct ts as [|[t ls] ts0]; [done|eauto]).
  pose proof (fl_trunks _ _ Hfl) as Htr. rewrite Ets in Htr. cbn [trunks] in Htr. destruct Htr as (T1 & T2 & T3 & T4 & T5).
  destruct (fl_range _ _ Hfl t) as (R1 & R2 & R3); [rewrite Ets, free_pages_cons; by left|].
  assert (Htp : t <> pg) by (intros ->; apply Hnew; rewrite Ets, free_pages_cons; by left).
  rewrite T1, decide_False by lia.
  eapply runs_then; [apply get_does; [done|lia|by rewrite (sd_bt _ _ S05)]|]. intros s6 H6 S6 N6 P6.
  eapply runs_then; [apply get4_does; [done|lia|rewrite (sd_bt _ _ S6), (sd_bt _ _ S05); lia]|]. intros s7 H7 S7 N7 P7.
  assert (C7 : counted s7).
  { split; [done|transitivity s5; [done|by transitivity s6]|by rewrite N7, N6, (ct_sizes _ C5)|by rewrite P7, P6, (ct_one _ C5)|intros q Hq1 Hq2; by rewrite P7, P6, (ct_other _ C5)]. }
  rewrite P6, (ct_other _ C5) by lia. rewrite T2, decide_False by lia. case_decide.
  - by apply (free_leaf_spec s7 t ls ts0).
  - rewrite <- T1. by apply free_trunk_spec.
Qed.

End Free.
