(* ===== verification/SqlFreelistProps.v ===== *)
(** * Pages in use and free pages

    Any sequence of requests to [SqlFreelist] keeps every page of the file either in use or on the list. *)

From S2P Require Import Prelude Bits SqlLock SqlBytes SqlCell SqlFreelist SqlFreelistOk.

(** ** Requests for pages

    The pages of the database but page 1 and the one with the lock bytes. *)

Definition all_pages (s : Db) : list Z := filter (fun p => p <> PENDING_BYTE_PAGE (db_bt s)) (seqZ 2 (nPage s - 1)).

Inductive page_request := Take (nearby : Z) | Give (given : bool) (i : nat).

(** The [i]-th of the [used] pages is given back; [kept] are the pages that were in use all the time. *)
Definition serve (r : page_request) (x : Db * list Z * list Z) : option (Db * list Z * list Z) :=
  let '(s, used, kept) := x in
  match r with
  | Take nearby => match allocateBtreePage nearby s with Some (Ok pg, s') => Some (s', pg :: used, kept) | _ => None end
  | Give given i =>
      pg ← used !! i;
      match freePage2 given pg s with Some (Ok _, s') => Some (s', delete i used, filter (fun q => q <> pg) kept) | _ => None end
  end.

Fixpoint serve_all (rs : list page_request) (x : Db * list Z * list Z) : option (Db * list Z * list Z) :=
  match rs with [] => Some x | r :: rs => x ← serve r x; serve_all rs x end.

(** Pages are given back that are in use: the number of pages in use before each request. *)
Fixpoint requests_ok (n : nat) (rs : list page_request) : Prop :=
  match rs with
  | [] => True
  | Take _ :: rs => requests_ok (S n) rs
  | Give _ i :: rs => (i < n)%nat /\ requests_ok (n - 1) rs
  end.

(** Every page is either in use or free. *)
Record divided (s : Db) (used : list Z) (ts : list (Z * list Z)) : Prop := {
  dv_ok : db_ok s;
  dv_list : freelist s ts;
  dv_all : used ++ free_pages ts ≡ₚ all_pages s;
  dv_ref p : p ∈ referenced s -> p = 1
}.

Lemma all_pages_in s p : p ∈ all_pages s <-> 2 <= p <= nPage s /\ p <> PENDING_BYTE_PAGE (db_bt s).
Proof. unfold all_pages. rewrite list_elem_of_filter, elem_of_seqZ. lia. Qed.

Lemma all_pages_nodup s : NoDup (all_pages s).
Proof. apply NoDup_filter, NoDup_seqZ. Qed.

(** One page, or two with the one that is never used, at the end. *)
Lemma all_pages_next s s' : db_bt s' = db_bt s -> nPage s' = next_page s -> 1 <= nPage s -> all_pages s' ≡ₚ next_page s :: all_pages s.
Proof.
  intros Eb En Hn. destruct (next_page_fresh s) as [L1 L2]. apply NoDup_Permutation; [apply all_pages_nodup| |].
  - apply NoDup_cons. split; [|apply all_pages_nodup]. rewrite all_pages_in. lia.
  - intros p. rewrite elem_of_cons, !all_pages_in, Eb, En. unfold next_page in *. case_decide; lia.
Qed.

Lemma serve_spec r s used kept ts : divided s used ts -> requests_ok (length used) [r] -> nPage s + 2 <= mxPgno s -> kept ⊆ used ->
  exists s' used' kept' ts', serve r (s, used, kept) = Some (s', used', kept') /\ divided s' used' ts' /\ same_db s s' /\ nPage s' <= nPage s + 2 /\
    kept' ⊆ used' /\ (forall rs, requests_ok (length used) (r :: rs) -> requests_ok (length used') rs) /\
    (forall p, p ∈ kept' -> p ∈ kept /\ page_of s' p = page_of s p).
Proof.
  intros [H Hl Ha Hr] Hq Hmx Hk. pose proof (all_pages_nodup s) as Hnd. rewrite <- Ha in Hnd. apply NoDup_app in Hnd as (Hnu & Hud & _).
  assert (Hu : forall p, p ∈ used -> (2 <= p <= nPage s /\ p <> PENDING_BYTE_PAGE (db_bt s)) /\ p ∉ free_pages ts).
  { intros p Hp. split; [|by apply Hud]. apply all_pages_in. rewrite <- Ha. apply elem_of_app. by left. }
  destruct (fl_sizes _ _ Hl) as [Hz Hz2]. destruct (next_page_fresh s) as [L1 L2].
  assert (Hne : next_page s <= nPage s + 2) by (unfold next_page; case_decide; lia).
  destruct r as [nearby|given i]; cbn [serve].
  - destruct (allocate_spec s ts nearby H Hl) as (pg & s' & E & H' & S' & ts' & [K1 K2 K3 K4]); [lia|intros Hp%Hr; lia|].
    rewrite E. exists s', (pg :: used), kept, ts'. split; [done|]. split.
    { split; [done|done| |intros p Hp; apply Hr; by rewrite <- (sd_ref _ _ S')].
      destruct K2 as [(-> & -> & -> & En)|[En Hp]].
      - rewrite (all_pages_next s s') by (try apply (sd_bt _ _ S'); lia). rewrite <- Ha. done.
      - assert (all_pages s' = all_pages s) as -> by (unfold all_pages; by rewrite En, (sd_bt _ _ S')). rewrite <- Ha, Hp. cbn [app].
        by rewrite Permutation_middle. }
    split; [done|]. split; [destruct K2 as [(_ & _ & -> & ->)|[-> _]]; lia|]. split; [set_solver|]. split; [by intros rs Hrs|].
    intros p Hp. split; [done|]. destruct (Hu p (Hk p Hp)) as [[U1 U2] U3]. apply K3; [lia|done|].
    destruct K2 as [(_ & _ & -> & _)|[_ Hpm]]; [lia|]. intros ->. apply U3. rewrite Hpm. by left.
  - cbn [requests_ok] in Hq. destruct Hq as [Hi _]. destruct (lookup_lt_is_Some_2 used i Hi) as [pg Hpg]. rewrite Hpg. cbn [mbind option_bind].
    destruct (Hu pg (list_elem_of_lookup_2 _ _ _ Hpg)) as [[U1 U2] U3].
    destruct (free_spec s ts pg H Hl U1 U2) with (given := given) as (u & s' & E & H' & S' & ts' & [G1 G2 G3 G4 G5]); [intros Hp%Hr; lia|done|].
    rewrite E. exists s', (delete i used), (filter (fun q => q <> pg) kept), ts'. split; [done|].
    pose proof (delete_Permutation used i pg Hpg) as Hdel. pose proof (length_delete used i (mk_is_Some _ _ Hpg)) as Hlen.
    set (used' := delete i used) in *. clearbody used'. split.
    { split; [done|done| |intros p Hp; apply Hr; by rewrite <- (sd_ref _ _ S')].
      assert (all_pages s' = all_pages s) as -> by (unfold all_pages; by rewrite G3, (sd_bt _ _ S')). rewrite <- Ha, Hdel, G2. cbn [app].
      by rewrite Permutation_middle. }
    split; [done|]. split; [lia|]. split.
    { intros p [Hp1 Hp2]%list_elem_of_filter. apply Hk in Hp2. rewrite Hdel in Hp2. set_solver. }
    split; [intros rs [_ Hrs]; by rewrite Hlen|]. intros p [Hp1 Hp2]%list_elem_of_filter. split; [done|].
    destruct (Hu p (Hk p Hp2)) as [[V1 V2] V3]. apply G4; [lia|done|done].
Qed.

Lemma serve_all_spec rs : forall s used kept ts, divided s used ts -> requests_ok (length used) rs -> nPage s + 2 * Z.of_nat (length rs) <= mxPgno s -> kept ⊆ used ->
  exists s' used' kept' ts', serve_all rs (s, used, kept) = Some (s', used', kept') /\ divided s' used' ts' /\ kept' ⊆ used' /\
    (forall p, p ∈ kept' -> p ∈ kept /\ page_of s' p = page_of s p).
Proof.
  induction rs as [|r rs IH]; intros s used kept ts D Hq Hmx Hk; cbn [serve_all].
  - exists s, used, kept, ts. done.
  - cbn [length] in Hmx. destruct (serve_spec r s used kept ts D) as (s1 & u1 & k1 & ts1 & E & D1 & S1 & N1 & K1 & Q1 & P1); [|lia|done|].
    { destruct r; [done|]. cbn [requests_ok] in *. tauto. }
    rewrite E. cbn [mbind option_bind]. destruct (IH s1 u1 k1 ts1 D1 (Q1 rs Hq)) as (s2 & u2 & k2 & ts2 & E2 & D2 & K2 & P2); [rewrite (sd_mx _ _ S1); lia|done|].
    exists s2, u2, k2, ts2. split; [done|]. split; [done|]. split; [done|]. intros p Hp. destruct (P2 p Hp) as [Hp1 ->]. by apply P1.
Qed.

(** C22: The pages of a database are never lost nor handed out twice: after any requests for pages and returns
    of pages in use, the pages in use and those on the free list are together all pages of the file, each
    once; every request succeeds, and a page that was in use all the time still holds what it held. *)
Theorem pages_in_use_or_free s used ts rs : divided s used ts -> requests_ok (length used) rs -> nPage s + 2 * Z.of_nat (length rs) <= mxPgno s ->
  exists s' used' kept ts', serve_all rs (s, used, used) = Some (s', used', kept) /\ freelist s' ts' /\
    NoDup (used' ++ free_pages ts') /\ (forall p, p ∈ used' ++ free_pages ts' <-> 2 <= p <= nPage s' /\ p <> PENDING_BYTE_PAGE (db_bt s')) /\
    kept ⊆ used' /\ (forall p, p ∈ kept -> page_of s' p = page_of s p).
Proof.
  intros D Hq Hmx. destruct (serve_all_spec rs s used used ts D Hq Hmx) as (s' & used' & kept & ts' & E & D' & Hk & Hp); [done|].
  exists s', used', kept, ts'. split; [done|]. split; [apply (dv_list _ _ _ D')|]. pose proof (dv_all _ _ _ D') as Ha.
  split; [rewrite Ha; apply all_pages_nodup|]. split; [intros p; by rewrite Ha, all_pages_in|]. split; [done|]. intros p Hin. by apply Hp.
Qed.

(** A database of one page of 512 bytes. *)
Definition new_db : Db :=
  {| db_bt := lockBtree 512 512 0; nPage := 1; pages := ∅; cache := {[1]}; referenced := {[1]}; inited := ∅; dbSize := 1;
     mxPgno := 0xfffffffe; pHasContent := None; answers := [] |}.

Lemma new_db_divided : divided new_db [] [].
Proof.
  assert (Hp : forall q, page_of new_db q = replicate 512 0) by (intros q; unfold page_of; cbn; by rewrite lookup_empty).
  assert (Hb : bytes_ok (replicate 512 0)) by (apply (bool_decide_unpack _); vm_compute; exact I).
  assert (Hdb : db_ok new_db).
  { split; [cbn; lia|cbn; lia|intros q; by rewrite Hp|intros q; by rewrite Hp|cbn; lia|done]. }
  split; [done| |done|intros p Hin; change (p ∈ ({[1]} : gset Z)) in Hin; set_solver].
  split; rewrite ?Hp; [by vm_compute|by vm_compute|constructor|intros p Hin; by apply elem_of_nil in Hin|cbn; lia].
Qed.

Definition some_requests : list page_request := [Take 0; Take 0; Take 0; Take 0; Give true 1; Give false 1; Give true 0; Take 3; Take 0].

Lemma pages_in_use_or_free_witness : divided new_db [] [] /\ exists s' kept ts', serve_all some_requests (new_db, [], []) = Some (s', [5; 3; 2], kept) /\
  freelist s' ts' /\ NoDup ([5; 3; 2] ++ free_pages ts') /\ nPage s' = 5.
Proof.
  split; [exact new_db_divided|].
  destruct (pages_in_use_or_free new_db [] [] some_requests new_db_divided) as (s' & used' & kept & ts' & E & Hl & Hn & _);
    [cbn; repeat split; lia|cbn; lia|].
  assert (Hc : (fun '(s, used, _) => (nPage s, used)) <$> serve_all some_requests (new_db, [], []) = Some (5, [5; 3; 2])) by (vm_compute; reflexivity).
  rewrite E in Hc. cbn in Hc. injection Hc as Hc1 Hc2. subst used'. exists s', kept, ts'. auto.
Defined.
