(* ===== verification/SqlOverflow.v ===== *)
(** * Payload on overflow pages

    [sqlite/sqlite3.c] (btree.c): what of a cell's payload is more than its page takes is kept on a chain of
    overflow pages, each with the number of the next one and [usableSize - 4] bytes.  [fillInCell]
    writes a cell with its chain, [accessPayload] reads or overwrites any part of the payload and keeps the
    pages it has met, [clearCellOverflow] gives the chain back. *)

From S2P Require Import Prelude Bits SqlVarint SqlBytes SqlCell SqlPage SqlFreelist.

(** ** Writing a cell *)

Record BtreePayload := {
  x_pKey : bytes;        (* the record, for an index *)
  x_nKey : Z;            (* its size, or the rowid *)
  x_pData : bytes;
  x_nData : Z;
  x_nZero : Z
}.

(** The macro [putVarint32] for an [int]. *)
Definition putVarint32 (v : Z) : bytes := if decide (u32 v < 0x80) then [u8 v] else sqlite3PutVarint (u64 v).

(** The payload and its size, the bytes to take it from and their number, and the header after the child's number. *)
Definition cell_header (pPage : MemPage) (pX : BtreePayload) : option (Z * bytes * Z * bytes) :=
  if intKey pPage then
    let nPayload := i32 (x_nData pX + x_nZero pX) in
    _ ← check (intKeyLeaf pPage = true);
    Some (nPayload, x_pData pX, x_nData pX, putVarint32 nPayload ++ sqlite3PutVarint (u64 (x_nKey pX)))
  else
    _ ← check (x_nKey pX <= 0x7fffffff);
    let nPayload := i32 (x_nKey pX) in
    Some (nPayload, x_pKey pX, nPayload, putVarint32 nPayload).

(** A pointer into the cell ([None]) or into the overflow page in hand. *)
Definition pointer : Type := option Z * Z.

(** A write through such a pointer: the buffer of the cell afterwards. *)
Definition write_through (p : pointer) (pCell bs : bytes) : routine bytes :=
  match p.1 with
  | None => lift (st pCell p.2 bs)
  | Some pg => d ← gets (fun s => page_of s pg); d ← lift (st d p.2 bs); _ ← put_page pg d; mret pCell
  end.

(** The page number at [pPrior]. *)
Definition put4_through (p : pointer) (pCell : bytes) (v : Z) : routine bytes :=
  write_through p pCell [u8 (Z.shiftr v 24); u8 (Z.shiftr v 16); u8 (Z.shiftr v 8); u8 v].

(** The next overflow page: its number at [pPrior], and 0 in its first bytes. *)
Definition next_overflow (pgnoOvfl : Z) (pPrior : pointer) (pCell : bytes) : routine (Z * bytes) :=
  pgnoOvfl ← allocateBtreePage pgnoOvfl;
  pCell ← put4_through pPrior pCell pgnoOvfl;
  pCell ← put4_through (Some pgnoOvfl, 0) pCell 0;
  mret (pgnoOvfl, pCell).

(** The loop that writes the payload; each turn writes a byte at least. *)
Fixpoint fill_loop (fuel : nat) (us nPayload : Z) (pSrc : bytes) (nSrc spaceLeft : Z) (pPayload pPrior : pointer)
    (pgnoOvfl : Z) (pCell : bytes) : routine bytes :=
  match fuel with
  | O => lift None
  | S fuel =>
      let n := if decide (spaceLeft < nPayload) then spaceLeft else nPayload in
      '(n, bs) ← lift (if decide (n <= nSrc) then bs ← slice pSrc 0 n; Some (n, bs)
                       else if decide (0 < nSrc) then bs ← slice pSrc 0 nSrc; Some (nSrc, bs)
                       else if decide (0 <= n) then Some (n, replicate (Z.to_nat n) 0) else None);
      pCell ← write_through pPayload pCell bs;
      let nPayload := nPayload - n in
      if decide (nPayload <= 0) then mret pCell
      else
        let pPayload := (pPayload.1, pPayload.2 + n) in
        let pSrc := drop (Z.to_nat n) pSrc in
        let nSrc := nSrc - n in
        let spaceLeft := spaceLeft - n in
        if decide (spaceLeft = 0) then
          '(pgnoOvfl, pCell) ← next_overflow pgnoOvfl pPrior pCell;
          fill_loop fuel us nPayload pSrc nSrc (us - 4) (Some pgnoOvfl, 4) (Some pgnoOvfl, 0) pgnoOvfl pCell
        else fill_loop fuel us nPayload pSrc nSrc spaceLeft pPayload pPrior pgnoOvfl pCell
  end.

(** The bytes at [pCell] and [*pnSize]. *)
Definition fillInCell (pPage : MemPage) (pCell : bytes) (pX : BtreePayload) : routine (bytes * Z) :=
  '(nPayload, pSrc, nSrc, header) ← lift (cell_header pPage pX);
  let nHeader := childPtrSize pPage + len header in
  pCell ← lift (st pCell (childPtrSize pPage) header);
  if decide (nPayload <= maxLocal pPage) then
    let n := nHeader + nPayload in
    let n := if decide (n < 4) then 4 else n in
    _ ← require (nSrc <= nPayload);
    bs ← lift (slice pSrc 0 nSrc);
    pCell ← lift (st pCell nHeader bs);
    pCell ← lift (memset pCell (nHeader + nSrc) 0 (nPayload - nSrc));
    mret (pCell, n)
  else
    let us := usableSize (pBt pPage) in
    let mn := minLocal pPage in
    let n := mn + u32 (nPayload - mn) mod (us - 4) in
    let n := if decide (maxLocal pPage < n) then mn else n in
    pCell ← fill_loop (Z.to_nat nPayload) us nPayload pSrc nSrc n (None, nHeader) (None, nHeader + n) 0 pCell;
    mret (pCell, n + nHeader + 4).

(** ** Reading and overwriting the payload *)

(** The fields of a cursor that points to a cell; [cur_page] is what is known of the page [cur_pgno] but its
    bytes, which are those of the database. *)
Record BtCursor := {
  cur_pgno : Z;
  cur_page : MemPage;
  cur_ix : Z;
  cur_info : option CellInfo;            (* [None] when [info.nSize] is 0 *)
  aOverflow : list (option Z);           (* the cache, with its entries that are set *)
  valid_ovfl : bool                      (* [BTCF_ValidOvfl] *)
}.

Definition with_info (i : CellInfo) (c : BtCursor) : BtCursor :=
  {| cur_pgno := cur_pgno c; cur_page := cur_page c; cur_ix := cur_ix c; cur_info := Some i; aOverflow := aOverflow c; valid_ovfl := valid_ovfl c |}.
Definition with_overflow (l : list (option Z)) (v : bool) (c : BtCursor) : BtCursor :=
  {| cur_pgno := cur_pgno c; cur_page := cur_page c; cur_ix := cur_ix c; cur_info := cur_info c; aOverflow := l; valid_ovfl := v |}.

(** [btreeParseCell]: the cell with the index [ix]. *)
Definition btreeParseCell (pPage : MemPage) (ix : Z) : option CellInfo :=
  pc ← findCell pPage ix; parseCell_of pPage (drop (Z.to_nat pc) (aData pPage)).

Definition getCellInfo (pPage : MemPage) (c : BtCursor) : option (CellInfo * BtCursor) :=
  match cur_info c with
  | Some i => Some (i, c)
  | None => i ← btreeParseCell pPage (cur_ix c); Some (i, with_info i c)
  end.

(** [copyPayload] at [i] in the page [pg]: what is read, or the bytes [w] that are written. *)
Definition copyPayload (pg i n : Z) (w : option bytes) : routine bytes :=
  match w with
  | Some w =>
      _ ← sqlite3PagerWrite pg;
      bs ← lift (slice w 0 n);
      d ← gets (fun s => page_of s pg); d ← lift (st d i bs); _ ← put_page pg d; mret []
  | None => d ← gets (fun s => page_of s pg); lift (slice d i n)
  end.

(** The number of the next page; the page itself is not asked for. *)
Definition getOverflowPage (ovfl : Z) : routine Z := _ ← btreeGetPage ovfl false; get4 ovfl 0.

(** The bytes from the page [nextPage] on, [a] of them from [offset], and the page after it. *)
Definition overflow_part (nextPage offset a : Z) (w : option bytes) : routine (Z * bytes) :=
  _ ← sqlite3PagerGet nextPage false;
  next ← get4 nextPage 0;
  bs ← copyPayload nextPage (offset + 4) a w;
  mret (next, bs).

(** The loop of [accessPayload], with the check after it: the code, what was read, and the cache. *)
Fixpoint access_loop (fuel : nat) (ovflSize nextPage offset amt : Z) (iIdx : nat) (cache : list (option Z)) (out : bytes)
    (w : option bytes) (s : Db) : option (Z * bytes * list (option Z) * Db) :=
  match fuel with
  | O => None
  | S fuel =>
      if decide (nextPage = 0) then Some (if decide (0 < amt) then SQLITE_CORRUPT else SQLITE_OK, out, cache, s)
      else if decide (nPage s < nextPage) then Some (SQLITE_CORRUPT, out, cache, s)
      else
        _ ← check (iIdx < length cache)%nat;
        let cache := <[iIdx := Some nextPage]> cache in
        if decide (ovflSize <= offset) then
          known ← mjoin (cache !! S iIdx);
          if decide (known <> 0) then access_loop fuel ovflSize known (offset - ovflSize) amt (S iIdx) cache out w s
          else
            '(r, s) ← getOverflowPage nextPage s;
            match r with
            | Err rc => Some (rc, out, cache, s)
            | Ok next => access_loop fuel ovflSize next (offset - ovflSize) amt (S iIdx) cache out w s
            end
        else
          let a := if decide (ovflSize < amt + offset) then ovflSize - offset else amt in
          '(r, s) ← overflow_part nextPage offset a w s;
          match r with
          | Err rc => Some (rc, out, cache, s)
          | Ok (next, bs) =>
              let out := out ++ bs in
              if decide (amt - a = 0) then Some (SQLITE_OK, out, cache, s)
              else access_loop fuel ovflSize next 0 (amt - a) (S iIdx) cache out (drop (Z.to_nat a) <$> w) s
          end
  end.

(** The cache for [nOvfl] pages: the code of [sqlite3Realloc] when it is too small. *)
Definition overflow_cache (nOvfl : nat) (old : list (option Z)) : routine (list (option Z)) :=
  l ← (if decide (old = [] \/ (length old < nOvfl)%nat) then
         _ ← next_answer; mret (take (nOvfl * 2) old ++ replicate (nOvfl * 2 - length old) None)
       else mret old);
  mret (replicate nOvfl (Some 0) ++ drop nOvfl l).

(** The part of the payload on the page: what was read, with the offset, the amount and the bytes to write left. *)
Definition access_local (pgno aPayload nLocal offset amt : Z) (w : option bytes) : routine (bytes * Z * Z * option bytes) :=
  if decide (offset < nLocal) then
    let a := if decide (nLocal < amt + offset) then nLocal - offset else amt in
    bs ← copyPayload pgno (aPayload + offset) a w;
    mret (bs, 0, amt - a, drop (Z.to_nat a) <$> w)
  else mret ([], offset - nLocal, amt, w).

(** The code, what was read and the cursor; [w] are the bytes to write when [eOp] is 1.  The loop takes
    [offset + amt] turns at most and one to stop. *)
Definition accessPayload (c : BtCursor) (offset amt : Z) (w : option bytes) (s : Db) : option (Z * bytes * BtCursor * Db) :=
  let pPage := set_aData (page_of s (cur_pgno c)) (cur_page c) in
  let us := usableSize (db_bt s) in
  if decide (nCell pPage <= cur_ix c) then Some (SQLITE_CORRUPT, [], c, s)
  else
    '(info, c) ← getCellInfo pPage c;
    payload ← pPayload info;
    let aPayload := len (aData pPage) - len payload in
    _ ← check (offset + amt <= nPayload info /\ 0 < aPayload);
    if decide (u32 (us - nLocal info) < aPayload) then Some (SQLITE_CORRUPT, [], c, s)
    else
      '(r, s) ← access_local (cur_pgno c) aPayload (nLocal info) offset amt w s;
      match r with
      | Err rc => Some (rc, [], c, s)
      | Ok (out, offset, amt, w) =>
          if decide (0 < amt) then
            let ovflSize := us - 4 in
            nextPage ← sqlite3Get4byte (page_of s (cur_pgno c)) (aPayload + nLocal info);
            '(r, s) ←
              (if valid_ovfl c then
                 known ← mjoin (aOverflow c !! Z.to_nat (offset / ovflSize));
                 Some (Ok (aOverflow c, if decide (known <> 0) then (Z.to_nat (offset / ovflSize), known, offset mod ovflSize) else (0%nat, nextPage, offset)), s)
               else
                 (l ← overflow_cache (Z.to_nat (u32 (u32 (nPayload info - nLocal info + ovflSize) - 1) / ovflSize)) (aOverflow c);
                  mret (l, (0%nat, nextPage, offset))) s);
            match r with
            | Err rc => Some (rc, out, c, s)
            | Ok (l, (iIdx, nextPage, offset)) =>
                '(rc, out, l, s) ← access_loop (Z.to_nat (offset + amt) + 1) ovflSize nextPage offset amt iIdx l out w s;
                Some (rc, out, with_overflow l true c, s)
            end
          else Some (SQLITE_OK, out, c, s)
      end.

(** ** Giving the chain back *)

(** The loop over the [nOvfl] pages. *)
Fixpoint clear_loop (nOvfl : nat) (ovflPgno : Z) : routine unit :=
  match nOvfl with
  | O => mret tt
  | S nOvfl =>
      n ← gets nPage;
      if decide (ovflPgno < 2 \/ n < ovflPgno) then fail SQLITE_CORRUPT
      else
        iNext ← (if decide (nOvfl = O) then mret 0 else getOverflowPage ovflPgno);
        shared ← gets (fun s => bool_decide (ovflPgno ∈ referenced s));
        if (shared : bool) then fail SQLITE_CORRUPT
        else
          known ← gets (fun s => bool_decide (ovflPgno ∈ cache s));
          _ ← freePage2 known ovflPgno;
          clear_loop nOvfl iNext
  end.

(** The cell at [pc] on the page with the bytes [data]. *)
Definition clearCellOverflow (pPage : MemPage) (pc : Z) (info : CellInfo) : routine unit :=
  _ ← require (nLocal info <> nPayload info);
  if decide (len (aData pPage) < pc + nSize info) then fail SQLITE_CORRUPT
  else
    ovflPgno ← lift (sqlite3Get4byte (aData pPage) (pc + nSize info - 4));
    let ovflPageSize := usableSize (pBt pPage) - 4 in
    let nOvfl := u32 (u32 (nPayload info - nLocal info + ovflPageSize) - 1) / ovflPageSize in
    clear_loop (Z.to_nat nOvfl) ovflPgno.

Definition BTREE_CLEAR_CELL (pPage : MemPage) (pc : Z) : routine unit :=
  info ← lift (parseCell_of pPage (drop (Z.to_nat pc) (aData pPage)));
  if decide (nLocal info <> nPayload info) then clearCellOverflow pPage pc info else mret tt.
