(* ===== verification/SqlOverflowOk.v ===== *)
(** * Payload on overflow pages in order

    The routines of [SqlOverflow] on databases in order. *)

From S2P Require Import Prelude Bits SqlVarint SqlBytes SqlCell SqlCellProps SqlPage SqlFreelist SqlFreelistOk SqlOverflow.

(** ** Where the bytes of a payload are *)

(** Each page has the number of the next one in its first bytes. *)
Fixpoint links (P : Z -> bytes) (first : Z) (ps : list Z) : Prop :=
  match ps with [] => first = 0 | p :: ps => first = p /\ links P (rd4 (P p) 0) ps end.

(** The byte [i] of the payload: [L] bytes are at [local], [ov] on each of the pages [ps]. *)
Definition payload_byte (local : Z -> Z) (P : Z -> bytes) (L ov : Z) (ps : list Z) (i : Z) : Z :=
  if decide (i < L) then local i else rd (P (ps !!! Z.to_nat ((i - L) / ov))) (4 + (i - L) mod ov).

Lemma on_page x j ov : 0 <= j -> j * ov <= x < (j + 1) * ov -> x / ov = j /\ x mod ov = x - j * ov.
Proof.
  intros Hj Hx. assert (x / ov = j) as E by (symmetry; apply (Z.div_unique x ov j (x - j * ov)); nia).
  split; [done|]. rewrite Z.mod_eq by nia. nia.
Qed.

Lemma links_ext P P' ps : forall first, (forall p, p ∈ ps -> P' p = P p) -> links P first ps -> links P' first ps.
Proof.
  induction ps as [|p ps IH]; intros first He; cbn [links]; [done|]. intros [H1 H2]. split; [done|].
  rewrite (He p) by (by left). apply IH; [|done]. intros q Hq. apply He. by right.
Qed.

(** Another page at the end. *)
Lemma links_snoc P P' ps p q : forall first, links P first (ps ++ [p]) -> rd4 (P p) 0 = 0 -> (forall r, r ∈ ps -> P' r = P r) -> rd4 (P' p) 0 = q ->
  rd4 (P' q) 0 = 0 -> links P' first (ps ++ [p; q]).
Proof.
  induction ps as [|r ps IH]; intros first; cbn [links app]; intros Hl Hp He Hq Hz.
  - destruct Hl as [Hl _]. by rewrite Hq.
  - destruct Hl as [H1 H2]. split; [done|]. rewrite (He r) by (by left). apply IH; [done|done| |done|done]. intros x Hx. apply He. by right.
Qed.

Lemma links_lookup P ps : forall first i p, links P first ps -> ps !! i = Some p -> rd4 (P p) 0 = default 0 (ps !! S i).
Proof.
  induction ps as [|q ps IH]; intros first i p; [done|]. intros [H1 H2]. destruct i as [|i]; cbn [lookup list_lookup].
  - intros [= <-]. destruct ps; cbn [links] in H2; [done|by destruct H2].
  - intros Hi. by apply (IH _ i p H2).
Qed.

Lemma links_first P ps first : links P first ps -> first = default 0 (ps !! 0%nat).
Proof. destruct ps; cbn; [done|tauto]. Qed.

(** ** Writing the chain *)

Section Fill.
Context (s0 : Db) (ts0 : list (Z * list Z)) (src cell0 : bytes) (hdr L N nSrc0 : Z).
#[local] Abbreviation us := (usableSize (db_bt s0)).
#[local] Abbreviation ov := (usableSize (db_bt s0) - 4).
Hypothesis Hdb : db_ok s0.

Lemma ov_range : 476 <= ov /\ us <= pageSize (db_bt s0).
Proof using Hdb. pose proof (do_usable _ Hdb). lia. Qed.

Hypothesis Hfl : freelist s0 ts0.
Hypothesis Href : forall p, p ∈ referenced s0 -> p <= nPage s0.
Hypothesis HL : 0 < L < N.
Hypothesis HN : N < 2147483648.
Hypothesis Hsrc : 0 <= nSrc0 <= N /\ nSrc0 <= len src /\ bytes_ok src.
Hypothesis Hcell : 0 <= hdr /\ hdr + L + 4 <= len cell0 /\ bytes_ok cell0.

(** The number of pages the payload takes. *)
Definition chain_length : Z := (N - L + ov - 1) / ov.

Hypothesis Hroom : nPage s0 + 2 * chain_length <= mxPgno s0.

(** The byte [i] of the payload as it is given: zeros after the data. *)
Definition given_byte (i : Z) : Z := if decide (i < nSrc0) then rd src i else 0.

(** [w] bytes are written, with the pages [ps]. *)
Record filled (s : Db) (cell : bytes) (ps : list Z) (ts : list (Z * list Z)) (w : Z) : Prop := {
  fi_ok : db_ok s;
  fi_same : same_db s0 s;
  fi_list : freelist s ts;
  fi_nodup : NoDup ps;
  fi_ps p : p ∈ ps -> 2 <= p <= nPage s /\ p <> PENDING_BYTE_PAGE (db_bt s0) /\ p ∉ referenced s0 /\ p ∉ free_pages ts /\ (p ∈ free_pages ts0 \/ nPage s0 < p);
  fi_free p : p ∈ free_pages ts -> p ∈ free_pages ts0;
  fi_all p : p ∈ free_pages ts0 \/ nPage s0 < p <= nPage s -> p <> PENDING_BYTE_PAGE (db_bt s0) -> p ∈ free_pages ts \/ p ∈ ps;
  fi_n : nPage s0 <= nPage s;
  fi_kept q : q <> 1 -> q ∉ free_pages ts0 -> q <= nPage s0 -> page_of s q = page_of s0 q;
  fi_one j : 0 <= j -> ~ (28 <= j < 40) -> rd (page_of s 1) j = rd (page_of s0 1) j;
  fi_room : nPage s + 2 * (chain_length - Z.of_nat (length ps)) <= mxPgno s0;
  fi_cell : length cell = length cell0 /\ bytes_ok cell;
  fi_cell_other j : 0 <= j -> ~ (hdr <= j < hdr + L + 4) -> rd cell j = rd cell0 j;
  fi_links : ps <> [] -> links (page_of s) (rd4 cell (hdr + L)) ps;
  fi_last p : last ps = Some p -> rd4 (page_of s p) 0 = 0;
  fi_bytes i : 0 <= i < w -> payload_byte (fun i => rd cell (hdr + i)) (page_of s) L ov ps i = given_byte i;
  fi_strict : ps <> [] -> L + (Z.of_nat (length ps) - 1) * ov < N;
  fi_w : 0 <= w <= N /\ (ps <> [] -> L + (Z.of_nat (length ps) - 1) * ov <= w) /\ w <= L + Z.of_nat (length ps) * ov
}.

(** The pointer to the next byte of the payload, and the one to the number of the next page. *)
Definition payload_pointer (ps : list Z) (w : Z) : pointer :=
  match last ps with None => (None, hdr + w) | Some p => (Some p, 4 + (w - (L + (Z.of_nat (length ps) - 1) * ov))) end.

Definition prior_pointer (ps : list Z) : pointer := match last ps with None => (None, hdr + L) | Some p => (Some p, 0) end.

(** A write through a pointer to the payload. *)
Lemma write_step s cell ps ts w bs : filled s cell ps ts w -> 0 < len bs -> w + len bs <= N -> w + len bs <= L + Z.of_nat (length ps) * ov ->
  bytes_ok bs -> (forall j, 0 <= j < len bs -> rd bs j = given_byte (w + j)) ->
  runs (write_through (payload_pointer ps w) cell bs) s (fun cell' s' => filled s' cell' ps ts (w + len bs)).
Proof using All.
  intros F Hb HwN HwE Hok Hbs. pose proof ov_range as [O1 O2]. destruct Hcell as (C1 & C2 & C3). destruct (fi_cell _ _ _ _ _ F) as [Hlc Hcb].
  destruct (fi_w _ _ _ _ _ F) as (W1 & W2 & W3). unfold write_through, payload_pointer.
  destruct (last ps) as [p|] eqn:El; cbn [fst snd].
  - (* on the last page *)
    apply last_Some in El as [ps' Eps]. pose proof (fi_nodup _ _ _ _ _ F) as Hnd. rewrite Eps in Hnd. apply NoDup_app in Hnd as (_ & Hnd & _).
    assert (Hp : p ∈ ps) by (rewrite Eps; apply elem_of_app; right; by left). assert (Hne : ps <> []) by (intros E; rewrite E in Eps; by destruct ps').
    destruct (fi_ps _ _ _ _ _ F p Hp) as (R1 & R2 & R3 & R4 & R5). specialize (W2 Hne). set (k := Z.of_nat (length ps)) in *.
    assert (Hk : k = Z.of_nat (length ps') + 1) by (unfold k; rewrite Eps, length_app; cbn [length]; lia).
    assert (Hk0 : 0 <= (k - 1) * ov) by (apply Z.mul_nonneg_nonneg; lia). assert (Hk1 : k * ov = (k - 1) * ov + ov) by ring. pose proof (fi_ok _ _ _ _ _ F) as Hdb1. pose proof (do_len _ Hdb1 p) as Hl. rewrite (sd_bt _ _ (fi_same _ _ _ _ _ F)) in Hl.
    set (o := 4 + (w - (L + (k - 1) * ov))) in *. apply runs_gets. eapply runs_lift; [apply st_upd; lia|].
    eapply runs_then; [apply put_does; [done|rewrite length_upd by lia; apply (do_len _ Hdb1)|apply bytes_ok_upd; [apply (do_bytes _ Hdb1)|done]]|].
    intros s1 H1 S1 N1 P1. apply runs_ret; [done|]. destruct (sizes_same _ _ N1) as [NN ND].
    assert (Pq : forall q, q <> p -> page_of s1 q = page_of s q) by (intros q Hq; by rewrite P1, set_at_ne).
    assert (Pp : page_of s1 p = upd (page_of s p) o bs) by (by rewrite P1, set_at_eq).
    assert (P0 : rd4 (page_of s1 p) 0 = rd4 (page_of s p) 0) by (rewrite Pp; apply rd4_upd; lia).
    destruct F as [G1 G2 G3 G4 G5 G6 G6' G7 G8 G9 G10 G11 G12 G13 G14 G15 G15' G16]. split; try done.
    + by transitivity s.
    + destruct G3 as [T1 T2 T3 T4 T5]. split; rewrite ?(Pq 1), ?(sd_bt _ _ S1), ?(sd_ref _ _ S1), ?(sd_mx _ _ S1), ?NN, ?ND by lia; try done.
      eapply trunks_ext; [|exact T1]. intros t ls Ht. apply Pq. intros ->. apply R4. by apply (trunk_free p ls).
    + by rewrite NN.
    + by rewrite NN.
    + by rewrite NN.
    + intros q Hq1 Hq2 Hq3. rewrite Pq; [by apply G8|]. intros ->. destruct R5; [done|lia].
    + intros j Hj1 Hj2. rewrite (Pq 1) by lia. by apply G9.
    + by rewrite NN.
    + intros _. specialize (G13 Hne). rewrite Eps in G13 |- *. revert G13. generalize (rd4 cell (hdr + L)). clear - Pq P0 Hnd. induction ps' as [|r ps' IH]; intros first; cbn [app links].
      * rewrite P0. done.
      * intros [E1 E2]. split; [done|]. rewrite Pq; [apply IH; [|done]; intros x Hx; apply Hnd; by right|].
        intros ->. apply (Hnd p); [by left|by left].
    + intros q Hq. rewrite Eps, last_snoc in Hq. injection Hq as <-. rewrite P0. apply G14. by rewrite Eps, last_snoc.
    + intros i Hi. unfold payload_byte. destruct (decide (i < L)) as [HiL|HiL].
      * pose proof (G15 i ltac:(lia)) as Gi. unfold payload_byte in Gi. by rewrite decide_True in Gi by done.
      * destruct (decide (i < w)) as [Hiw|Hiw].
        -- rewrite <- (G15 i ltac:(lia)). unfold payload_byte. rewrite decide_False by done. destruct (decide (L + (k - 1) * ov <= i)) as [Hl1|Hl1].
           ++ destruct (on_page (i - L) (k - 1) ov) as [-> ->]; [lia|nia|]. replace (Z.to_nat (k - 1)) with (length ps') by lia.
              rewrite Eps. rewrite list_lookup_total_middle by done. rewrite Pp, rd_upd, decide_False by lia. done.
           ++ assert (Hj : 0 <= (i - L) / ov < k - 1) by (split; [apply Z.div_pos; lia|apply Z.div_lt_upper_bound; nia]).
              rewrite Pq; [done|]. rewrite Eps, lookup_total_app_l by lia. intros E. apply (Hnd p); [rewrite <- E; apply list_elem_of_lookup_total_2; lia|by left].
        -- destruct (on_page (i - L) (k - 1) ov) as [-> ->]; [lia|nia|]. replace (Z.to_nat (k - 1)) with (length ps') by lia.
           rewrite Eps. rewrite list_lookup_total_middle by done. rewrite Pp, rd_upd, decide_True by lia. rewrite Hbs by lia. f_equal. lia.
    + split; [lia|]. split; [intros _; lia|lia].
  - (* in the cell *)
    apply last_None in El. subst ps. cbn [length] in *. exists (upd cell (hdr + w) bs), s.
    split; [unfold lift; by rewrite st_upd by lia|]. split; [apply (fi_ok _ _ _ _ _ F)|]. split; [done|].
    destruct F as [G1 G2 G3 G4 G5 G6 G6' G7 G8 G9 G10 G11 G12 G13 G14 G15 G15' G16]. split; try done.
    + split; [by rewrite length_upd by lia|by apply bytes_ok_upd].
    + intros j Hj1 Hj2. rewrite rd_upd by lia. rewrite decide_False by lia. by apply G12.
    + intros i Hi. unfold payload_byte. rewrite decide_True by lia. rewrite rd_upd by lia. case_decide.
      * rewrite Hbs by lia. f_equal. lia.
      * specialize (G15 i ltac:(lia)). unfold payload_byte in G15. by rewrite decide_True in G15 by lia.
    + split; [lia|]. split; [done|exact HwE].
Qed.

(** The number of the new page [pg], where the page before it has it. *)
Lemma prior_step s cell ps pg : db_ok s -> (forall p, p ∈ ps -> p <> pg) -> length cell = length cell0 -> bytes_ok cell -> 0 <= pg < 4294967296 ->
  runs (put4_through (prior_pointer ps) cell pg) s (fun cell' s' => sizes s' = sizes s /\ length cell' = length cell0 /\ bytes_ok cell' /\
    (forall j, 0 <= j -> ~ (hdr + L <= j < hdr + L + 4) -> rd cell' j = rd cell j) /\ (forall q, last ps <> Some q -> page_of s' q = page_of s q) /\
    (forall p, last ps = Some p -> cell' = cell /\ rd4 (page_of s' p) 0 = pg /\ forall j, 4 <= j -> rd (page_of s' p) j = rd (page_of s p) j) /\
    (ps = [] -> rd4 cell' (hdr + L) = pg)).
Proof using All.
  intros H Hps Hlc Hcb Hpg. destruct Hcell as (C1 & C2 & C3). assert (Hl4 : len (four pg) = 4) by done. pose proof (four_ok pg) as Hok4.
  unfold put4_through, prior_pointer, write_through. change [u8 (Z.shiftr pg 24); u8 (Z.shiftr pg 16); u8 (Z.shiftr pg 8); u8 pg] with (four pg).
  destruct (last ps) as [p|] eqn:El; cbn [fst snd].
  - pose proof (do_len _ H p) as Hl. pose proof (do_usable _ H). apply runs_gets. eapply runs_lift; [apply st_upd; lia|].
    eapply runs_then; [apply put_does; [done|rewrite length_upd by lia; apply (do_len _ H)|apply bytes_ok_upd; [apply (do_bytes _ H)|done]]|].
    intros s1 H1 S1 N1 P1. apply runs_ret; [done|]. repeat (split; [done|]).
    split; [intros q Hq; rewrite P1, set_at_ne; [done|congruence]|]. split; [|intros ->; done].
    intros q [= <-]. split; [done|]. rewrite P1, set_at_eq. split; [apply rd4_upd_four; lia|]. intros j Hj. rewrite rd_upd by lia. by rewrite decide_False by lia.
  - apply last_None in El. subst ps. exists (upd cell (hdr + L) (four pg)), s. split; [unfold lift; by rewrite st_upd by lia|]. split; [done|]. split; [done|].
    split; [done|]. split; [by rewrite length_upd by lia|]. split; [by apply bytes_ok_upd|]. split.
    { intros j Hj1 Hj2. rewrite rd_upd by lia. by rewrite decide_False by lia. }
    split; [done|]. split; [done|]. intros _. apply rd4_upd_four; lia.
Qed.

(** The next page. *)
Lemma overflow_step s cell ps ts w : filled s cell ps ts w -> w = L + Z.of_nat (length ps) * ov -> w < N ->
  runs (next_overflow (default 0 (last ps)) (prior_pointer ps) cell) s
    (fun '(pg, cell') s' => exists ts', filled s' cell' (ps ++ [pg]) ts' w).
Proof using All.
  intros F Hw HwN. pose proof ov_range as [O1 O2]. destruct Hcell as (C1 & C2 & C3). destruct (fi_cell _ _ _ _ _ F) as [Hlc Hcb].
  set (k := Z.of_nat (length ps)) in *. assert (Hkc : k + 1 <= chain_length).
  { unfold chain_length. apply Z.div_le_lower_bound; [lia|]. nia. }
  unfold next_overflow. destruct (next_page_fresh s) as [L1 L2].
  assert (Hne : next_page s <= nPage s + 2) by (unfold next_page; case_decide; lia). pose proof (fi_room _ _ _ _ _ F) as Hrm. fold k in Hrm.
  pose proof (fi_n _ _ _ _ _ F) as Hn0. pose proof (do_mx _ Hdb) as Hmx.
  eapply runs_bind.
  { apply (allocate_spec s ts); [apply (fi_ok _ _ _ _ _ F)|apply (fi_list _ _ _ _ _ F)|rewrite (sd_mx _ _ (fi_same _ _ _ _ _ F)); lia|].
    rewrite (sd_ref _ _ (fi_same _ _ _ _ _ F)). intros Hp%Href. lia. }
  intros pg s1 H1 S1 (ts1 & K). assert (S01 : same_db s0 s1) by (transitivity s; [apply (fi_same _ _ _ _ _ F)|done]).
  (* the page is new *)
  assert (Hpg : 2 <= pg <= nPage s1 /\ pg <> PENDING_BYTE_PAGE (db_bt s0) /\ pg ∉ referenced s0 /\ pg ∉ free_pages ts1 /\ (pg ∈ free_pages ts0 \/ nPage s0 < pg) /\ pg ∉ ps /\
    nPage s <= nPage s1 <= nPage s + 2 /\ nPage s1 <= mxPgno s0 /\ (forall p, p ∈ free_pages ts1 -> p ∈ free_pages ts)).
  { pose proof (fl_sizes _ _ (fi_list _ _ _ _ _ F)) as [Z1 Z2]. pose proof (fl_sizes _ _ (tk_list _ _ _ _ _ K)) as [Z3 Z4]. rewrite (sd_mx _ _ S01) in Z4.
    destruct (tk_page _ _ _ _ _ K) as [(-> & -> & Epg & En)|[En Hp]].
    - rewrite En, Epg. rewrite (sd_bt _ _ (fi_same _ _ _ _ _ F)) in L2. split; [lia|]. split; [done|]. split; [intros Hp%Href; lia|]. split; [apply not_elem_of_nil|]. split; [right; lia|].
      split; [intros Hp; apply (fi_ps _ _ _ _ _ F) in Hp; lia|]. split; [lia|]. split; [lia|]. done.
    - assert (Hin : pg ∈ free_pages ts) by (rewrite Hp; by left). destruct (fl_range _ _ (fi_list _ _ _ _ _ F) pg Hin) as (R1 & R2 & R3).
      rewrite (sd_bt _ _ (fi_same _ _ _ _ _ F)) in R2. rewrite (sd_ref _ _ (fi_same _ _ _ _ _ F)) in R3. rewrite En in *.
      pose proof (fl_nodup _ _ (fi_list _ _ _ _ _ F)) as Hnd. rewrite Hp in Hnd. apply NoDup_cons in Hnd as [Hnd _].
      split; [lia|]. split; [done|]. split; [done|]. split; [done|]. split; [left; by apply (fi_free _ _ _ _ _ F)|].
      split; [intros Hq; apply (fi_ps _ _ _ _ _ F) in Hq; tauto|]. split; [lia|]. split; [lia|]. intros q Hq. rewrite Hp. by right. }
  destruct Hpg as (B1 & B2 & B3 & B4 & B5 & B6 & B7 & B8 & B9).
  assert (Pps : forall p, p ∈ ps -> page_of s1 p = page_of s p).
  { intros p Hp. destruct (fi_ps _ _ _ _ _ F p Hp) as (R1 & _ & _ & R4 & _). apply (tk_same _ _ _ _ _ K); [lia|done|congruence]. }
  eapply runs_bind; [apply prior_step; [done|congruence|done|done|lia]|]. intros cell2 s2 H2 S2 (N2 & Y1 & Y2 & Y3 & Y4 & Y5 & Y6).
  assert (S02 : same_db s0 s2) by (by transitivity s1). pose proof (do_len _ H2 pg) as Hl. rewrite (sd_bt _ _ S02) in Hl. assert (Hl4 : len (four 0) = 4) by done.
  assert (Hlast : forall p, last ps = Some p -> p ∈ ps) by (intros p Hp; by apply last_Some_elem_of in Hp).
  eapply (runs_bind _ _ _ (fun c s' => c = cell2 /\ sizes s' = sizes s2 /\ forall q, page_of s' q = set_at (page_of s2) pg (upd (page_of s2 pg) 0 (four 0)) q)).
  { unfold put4_through, write_through. cbn [fst snd]. apply runs_gets. change [u8 (Z.shiftr 0 24); u8 (Z.shiftr 0 16); u8 (Z.shiftr 0 8); u8 0] with (four 0).
    eapply runs_lift; [apply st_upd; lia|]. eapply runs_then; [apply put_does; [done|rewrite length_upd by lia; apply (do_len _ H2)|apply bytes_ok_upd; [apply (do_bytes _ H2)|apply four_ok]]|].
    intros s3 H3 S3 N3 P3. by apply runs_ret. }
  intros cell3 s3 H3 S3 (-> & N3 & P3). apply runs_ret; [done|]. exists ts1. assert (S03 : same_db s0 s3) by (by transitivity s2).
  rewrite N2 in N3. destruct (sizes_same _ _ N3) as [NN ND].
  assert (Pq : forall q, q <> pg -> last ps <> Some q -> page_of s3 q = page_of s1 q) by (intros q Hq1 Hq2; by rewrite P3, set_at_ne, Y4).
  assert (P0 : rd4 (page_of s3 pg) 0 = 0) by (rewrite P3, set_at_eq; apply rd4_upd_four; lia).
  assert (Hfps : forall p, p ∈ ps -> p <> pg /\ p ∉ free_pages ts1).
  { intros p Hp. split; [congruence|]. intros Hq%B9. apply (fi_ps _ _ _ _ _ F) in Hp. tauto. }
  assert (Prd : forall p j, p ∈ ps -> 4 <= j -> rd (page_of s3 p) j = rd (page_of s p) j).
  { intros p j Hp Hj. rewrite <- (Pps p Hp). rewrite P3, set_at_ne by (apply Hfps; done). destruct (decide (last ps = Some p)) as [E|E]; [|by rewrite Y4].
    destruct (Y5 p E) as (_ & _ & Y). by apply Y. }
  assert (Hone : page_of s3 1 = page_of s1 1).
  { apply Pq; [lia|]. intros Hp%Hlast. apply (fi_ps _ _ _ _ _ F) in Hp. lia. }
  split; try done.
  - destruct (tk_list _ _ _ _ _ K) as [T1 T2 T3 T4 T5]. rewrite (sd_bt _ _ S01) in T1. split; rewrite ?Hone, ?(sd_bt _ _ S03), ?(sd_mx _ _ S03), ?NN, ?ND; try done.
    + eapply trunks_ext; [|exact T1]. intros t ls Ht%trunk_free. apply Pq; [congruence|]. intros Hp%Hlast. apply Hfps in Hp. tauto.
    + intros p Hp. rewrite (sd_ref _ _ S03). rewrite <- (sd_ref _ _ S01), <- (sd_bt _ _ S01). by apply T4.
    + by rewrite (sd_mx _ _ S01) in T5.
  - apply NoDup_app. split; [apply (fi_nodup _ _ _ _ _ F)|]. split; [|apply NoDup_singleton]. intros p Hp Hq. apply list_elem_of_singleton in Hq. congruence.
  - intros p [Hp|Hp]%elem_of_app.
    + destruct (fi_ps _ _ _ _ _ F p Hp) as (R1 & R2 & R3 & R4 & R5). rewrite NN. split; [lia|]. split; [done|]. split; [done|]. split; [by apply Hfps|done].
    + apply list_elem_of_singleton in Hp as ->. by rewrite NN.
  - intros p Hp. by apply (fi_free _ _ _ _ _ F), B9.
  - intros p Hp Hpn. rewrite NN in Hp. enough (p ∈ pg :: free_pages ts1 \/ p ∈ ps) as [[->|?]%elem_of_cons|?];
      [right; apply elem_of_app; right; by left|by left|right; apply elem_of_app; by left|].
    destruct (tk_page _ _ _ _ _ K) as [(-> & -> & Epg & En)|[En Hpm]].
    + destruct (decide (p <= nPage s)) as [Hle|Hle].
      * right. destruct (fi_all _ _ _ _ _ F p) as [Hx|Hx]; [destruct Hp; [by left|right; lia]|done|by apply elem_of_nil in Hx|done].
      * destruct Hp as [Hp|Hp]; [destruct (fi_all _ _ _ _ _ F p) as [Hx|Hx]; [by left|done|by apply elem_of_nil in Hx|by right]|].
        left. rewrite En, Epg in Hp. apply elem_of_cons. left. rewrite Epg. unfold next_page in Hp |- *. rewrite (sd_bt _ _ (fi_same _ _ _ _ _ F)) in *. case_decide; lia.
    + rewrite <- Hpm. apply (fi_all _ _ _ _ _ F); [by rewrite <- En|done].
  - lia.
  - intros q Hq1 Hq2 Hq3. rewrite Pq.
    + rewrite (tk_same _ _ _ _ _ K); [by apply (fi_kept _ _ _ _ _ F)|done| |].
      * intros Hq. by apply Hq2, (fi_free _ _ _ _ _ F).
      * intros ->. destruct B5; [done|lia].
    + intros ->. destruct B5; [done|lia].
    + intros Hp%Hlast. destruct (fi_ps _ _ _ _ _ F q Hp) as (_ & _ & _ & _ & [?|?]); [done|lia].
  - intros j Hj1 Hj2. rewrite Hone, (tk_one _ _ _ _ _ K) by done. by apply (fi_one _ _ _ _ _ F).
  - rewrite NN, length_app. cbn [length]. lia.
  - intros j Hj1 Hj2. rewrite Y3 by lia. by apply (fi_cell_other _ _ _ _ _ F).
  - intros _. destruct (last ps) as [p|] eqn:El.
    + destruct (Y5 p eq_refl) as (-> & Y52 & _). pose proof (fi_last _ _ _ _ _ F p El) as Hp0. apply last_Some in El as [ps' Eps].
      pose proof (fi_nodup _ _ _ _ _ F) as Hnd. rewrite Eps in *. rewrite <- app_assoc. cbn [app]. apply NoDup_app in Hnd as (_ & Hnd & _).
      apply (links_snoc (page_of s)); [apply (fi_links _ _ _ _ _ F); by destruct ps'|done| | |done].
      * intros r Hr. assert (r ∈ ps' ++ [p]) as Hr' by (apply elem_of_app; by left). rewrite P3, set_at_ne by (by apply Hfps). rewrite Y4; [by apply Pps|].
        intros [= ->]. apply (Hnd r Hr). by left.
      * rewrite P3, set_at_ne; [done|]. apply Hfps, elem_of_app. right. by left.
    + apply last_None in El. subst ps. cbn [app links]. by rewrite Y6.
  - intros p Hp. rewrite last_snoc in Hp. by injection Hp as <-.
  - intros i Hi. rewrite <- (fi_bytes _ _ _ _ _ F i Hi). unfold payload_byte. case_decide; [apply Y3; lia|].
    assert (Hj : 0 <= (i - L) / ov < k) by (split; [apply Z.div_pos; lia|apply Z.div_lt_upper_bound; lia]).
    rewrite lookup_total_app_l by lia. pose proof (Z.mod_pos_bound (i - L) ov ltac:(lia)).
    apply Prd; [apply list_elem_of_lookup_total_2; lia|lia].
  - intros _. rewrite length_app. cbn [length]. replace (Z.of_nat (length ps + 1) - 1) with k by lia. lia.
  - split; [apply (fi_w _ _ _ _ _ F)|]. rewrite length_app. cbn [length]. replace (Z.of_nat (length ps + 1)) with (k + 1) by lia. replace (k + 1 - 1) with k by lia.
    split; [intros _; lia|]. rewrite Z.mul_add_distr_r. lia.
Qed.

(** What one turn of the loop writes. *)
Lemma chunk_spec w n0 : 0 <= w -> 0 < n0 <= N - w ->
  exists n bs, (if decide (n0 <= nSrc0 - w) then bs ← slice (drop (Z.to_nat w) src) 0 n0; Some (n0, bs)
                else if decide (0 < nSrc0 - w) then bs ← slice (drop (Z.to_nat w) src) 0 (nSrc0 - w); Some (nSrc0 - w, bs)
                else if decide (0 <= n0) then Some (n0, replicate (Z.to_nat n0) 0) else None) = Some (n, bs) /\
    0 < n <= n0 /\ len bs = n /\ bytes_ok bs /\ forall j, 0 <= j < n -> rd bs j = given_byte (w + j).
Proof using All.
  intros Hw Hn0. destruct Hsrc as (B1 & B2 & B3).
  assert (Hs : forall n, 0 < n -> n <= nSrc0 - w -> slice (drop (Z.to_nat w) src) 0 n = Some (sub (drop (Z.to_nat w) src) 0 n) /\
    len (sub (drop (Z.to_nat w) src) 0 n) = n /\ bytes_ok (sub (drop (Z.to_nat w) src) 0 n) /\ forall j, 0 <= j < n -> rd (sub (drop (Z.to_nat w) src) 0 n) j = given_byte (w + j)).
  { intros n H1 H2. assert (Hl : len (drop (Z.to_nat w) src) = len src - w) by (rewrite length_drop; lia).
    split; [apply slice_sub; lia|]. split; [apply length_sub; lia|]. split; [by apply bytes_ok_sub, Forall_drop|]. intros j Hj. rewrite rd_sub, decide_True by lia.
    unfold given_byte. rewrite decide_True by lia. unfold rd, ld. rewrite !decide_True by lia. rewrite lookup_drop. do 2 f_equal. lia. }
  case_decide as Hc1; [|case_decide as Hc2].
  - destruct (Hs n0) as (E & Hr); [lia|lia|]. rewrite E. exists n0. eexists. split; [done|]. split; [lia|exact Hr].
  - destruct (Hs (nSrc0 - w)) as (E & Hr); [lia|lia|]. rewrite E. exists (nSrc0 - w). eexists. split; [done|]. split; [lia|exact Hr].
  - rewrite decide_True by lia. exists n0. eexists. split; [done|]. split; [lia|]. split; [rewrite length_replicate; lia|]. split; [by apply (bytes_ok_replicate _ 0)|].
    intros j Hj. rewrite (rd_replicate _ 0) by lia. unfold given_byte. by rewrite decide_False by lia.
Qed.

Lemma payload_pointer_add ps w n : ((payload_pointer ps w).1, (payload_pointer ps w).2 + n) = payload_pointer ps (w + n).
Proof using Type. unfold payload_pointer. destruct (last ps); cbn [fst snd]; f_equal; ring. Qed.

Lemma fill_loop_spec fuel : forall s cell ps ts w, filled s cell ps ts w -> w < N -> w < L + Z.of_nat (length ps) * ov -> N - w <= Z.of_nat fuel ->
  runs (fill_loop fuel us (N - w) (drop (Z.to_nat w) src) (nSrc0 - w) (L + Z.of_nat (length ps) * ov - w) (payload_pointer ps w) (prior_pointer ps) (default 0 (last ps)) cell) s
    (fun cell' s' => exists ps' ts', filled s' cell' ps' ts' N).
Proof using All.
  induction fuel as [|fuel IH]; intros s cell ps ts w F HwN HwE Hfu; [lia|]. cbn [fill_loop]. set (E := L + Z.of_nat (length ps) * ov) in *.
  pose proof ov_range as [O1 O2]. destruct (fi_w _ _ _ _ _ F) as ([W1 _] & _ & _).
  set (n0 := if decide (E - w < N - w) then E - w else N - w). assert (Hn0 : 0 < n0 <= N - w /\ n0 <= E - w) by (unfold n0; case_decide; lia). clearbody n0.
  destruct (chunk_spec w n0 W1 (proj1 Hn0)) as (n & bs & Ec & Hn & Hlb & Hbok & Hbs). eapply runs_lift; [exact Ec|]. clear Ec.
  eapply runs_bind; [apply (write_step s cell ps ts w bs); [done|lia|lia|unfold E in *; lia|done|by rewrite Hlb]|].
  intros cell1 s1 H1 S1 F1. rewrite Hlb in F1. case_decide as Hend.
  { assert (w + n = N) as Hwn by lia. rewrite Hwn in F1. apply runs_ret; [done|]. by exists ps, ts. }
  rewrite payload_pointer_add. replace (N - w - n) with (N - (w + n)) by lia. replace (nSrc0 - w - n) with (nSrc0 - (w + n)) by lia.
  replace (E - w - n) with (E - (w + n)) by lia. rewrite drop_drop. replace (Z.to_nat w + Z.to_nat n)%nat with (Z.to_nat (w + n)) by lia.
  case_decide as Hsp.
  - eapply runs_bind; [apply (overflow_step s1 cell1 ps ts (w + n)); [done|unfold E in *; lia|lia]|]. intros [pg cell2] s2 H2 S2 (ts2 & F2).
    assert (Hpp : payload_pointer (ps ++ [pg]) (w + n) = (Some pg, 4)).
    { unfold payload_pointer. rewrite last_snoc, length_app. cbn [length]. f_equal. replace (Z.of_nat (length ps + 1) - 1) with (Z.of_nat (length ps)) by lia. unfold E in *. lia. }
    assert (Hpr : prior_pointer (ps ++ [pg]) = (Some pg, 0)) by (unfold prior_pointer; by rewrite last_snoc).
    assert (Hd : default 0 (last (ps ++ [pg])) = pg) by (by rewrite last_snoc).
    assert (HE : L + Z.of_nat (length (ps ++ [pg])) * ov - (w + n) = ov).
    { rewrite length_app. cbn [length]. replace (Z.of_nat (length ps + 1)) with (Z.of_nat (length ps) + 1) by lia. rewrite Z.mul_add_distr_r. unfold E in *. lia. }
    pose proof (IH s2 cell2 (ps ++ [pg]) ts2 (w + n) F2) as IH'. rewrite Hpp, Hpr, Hd, HE in IH'. apply IH'; lia.
  - apply (IH s1 cell1 ps ts (w + n) F1); lia.
Qed.

End Fill.
