(* ===== verification/SqlOverflowCell.v ===== *)
(** * Cells with their chains

    What [fillInCell] of [SqlOverflow] writes: a header that the routines of [SqlCell] read back, and the payload
    on the page and on the chain. *)

From S2P Require Import Prelude Bits SqlVarint SqlBytes SqlCell SqlCellProps SqlPage SqlFreelist SqlFreelistOk SqlOverflow SqlOverflowOk.

(** ** Lengths of payloads *)

Lemma varint_from_lower k : forall n acc p m v, bytes_ok p -> 0 <= acc -> varint_from k n acc p = Some (m, v) -> acc * 128 <= v.
Proof.
  induction k as [|k IH]; intros n acc [|b p] m v Hp Ha; cbn [varint_from]; try done; apply Forall_cons in Hp as [[Hb1 Hb2] Hp].
  - intros [= _ <-]. lia.
  - case_decide; [intros [= _ <-]; lia|]. intros Hv%IH; [lia|done|lia].
Qed.

Lemma payload_loop_varint k : forall u acc x rest m v, bytes_ok rest -> 0 <= acc -> varint_from k (u + 1) acc rest = Some (m, v) ->
  v < 2 ^ 32 -> m <= 8 -> u + Z.of_nat k = 7 -> payload_loop (S k) acc u (x :: rest) = Some (v, m - 1).
Proof.
  induction k as [|k IH]; intros u acc x [|b rest] m v Hr Ha; cbn [varint_from]; try done; apply Forall_cons in Hr as [[Hb1 Hb2] Hr].
  - intros [= <- _] _ Hm Hu. lia.
  - intros Hv Hv32 Hm Hu. cbn [payload_loop]. change ((x :: b :: rest) !! 1%nat) with (Some b). cbn [mbind option_bind].
    assert (Hacc : acc * 128 + b mod 128 < 2 ^ 32).
    { case_decide; [injection Hv as _ <-; by rewrite Z.mod_small by lia|]. apply varint_from_lower in Hv; [|done|lia].
      replace (b mod 128) with (b - 128) by (Z.to_euclidean_division_equations; lia). lia. }
    change 0x7f with 127. rewrite land_127, lor_shl32 by (try (change (2 ^ 7) with 128; apply Z.mod_pos_bound); lia).
    change (2 ^ 7) with 128. rewrite (Z.mod_small (acc * 128)) by (pose proof (Z.mod_pos_bound b 128); lia).
    case_decide.
    + injection Hv as <- <-. rewrite decide_False by lia. rewrite Z.mod_small by lia. f_equal. f_equal. lia.
    + rewrite decide_True by lia. replace (b mod 128) with (b - 128) by (Z.to_euclidean_division_equations; lia). cbn [tail].
      apply IH; [done|lia|done|done|done|lia].
Qed.

Lemma payload_size_varint p m v : bytes_ok p -> varint p = Some (m, v) -> v < 2 ^ 32 -> m <= 8 -> payload_size p = Some (v, m).
Proof.
  intros Hp Hv H32 Hm. unfold payload_size, varint in *. destruct p as [|b p]; [done|]. apply Forall_cons in Hp as [[Hb1 Hb2] Hp].
  change ((b :: p) !! 0%nat) with (Some b). cbn [mbind option_bind]. cbn [varint_from] in Hv. case_decide.
  - injection Hv as <- <-. by rewrite decide_False by lia.
  - rewrite decide_True by lia. change 0x7f with 127. rewrite land_127.
    replace (b mod 128) with (0 * 128 + (b - 128)) by (Z.to_euclidean_division_equations; lia).
    rewrite (payload_loop_varint 7 0 _ b p m v); [cbn [mbind option_bind]; do 2 f_equal; lia|done|lia|done|done|done|done].
Qed.

Lemma putVarint32_spec v : 0 <= v < 2147483648 -> putVarint32 v = sqlite3PutVarint v /\ varint_bytes v <= 5.
Proof.
  intros Hv. split.
  - unfold putVarint32. rewrite (wrapu_id 32), (wrapu_id 64) by (unfold in_u; change (2 ^ 32) with 4294967296; change (2 ^ 64) with 18446744073709551616; lia).
    case_decide; [|done]. unfold sqlite3PutVarint. rewrite decide_True by lia. change 0x7f with 127. by rewrite land_127, Z.mod_small by lia.
  - unfold varint_bytes. rewrite decide_True by (change (2 ^ 56) with 72057594037927936; lia).
    assert (varint_high v <= 4)%nat by (apply varint_high_bound; change (2 ^ (7 * (Z.of_nat 4 + 1))) with 34359738368; lia). lia.
Qed.

Lemma varint_bytes_range v : 0 <= v -> 1 <= varint_bytes v <= 9.
Proof.
  intros Hv. unfold varint_bytes. case_decide; [|lia].
  assert (varint_high v <= 7)%nat by (apply varint_high_bound; change (2 ^ (7 * (Z.of_nat 7 + 1))) with (2 ^ 56); lia). lia.
Qed.

(** ** Cells with their chains *)

Lemma decode_intKey P f : decodeFlags P f = (0, P) ->
  if intKey P then intKeyLeaf P = true /\ xCellSize P = cellSizePtrTableLeaf /\ xParseCell P = btreeParseCellPtr /\ childPtrSize P = 0 \/ intKeyLeaf P = false
  else xParseCell P = btreeParseCellPtrIndex /\ intKeyLeaf P = false /\ 0 <= childPtrSize P <= 4.
Proof. unfold decodeFlags. intros H. repeat case_decide; try discriminate H; injection H as H; rewrite <- H; cbn; (by left) || (by right) || (split_and!; done || lia). Qed.

(** The payload that is given, and its size: data for a table, a record for an index. *)
Definition payload_source (P : MemPage) (pX : BtreePayload) : bytes := if intKey P then x_pData pX else x_pKey pX.
Definition payload_length (P : MemPage) (pX : BtreePayload) : Z := if intKey P then x_nData pX + x_nZero pX else x_nKey pX.
Definition source_length (P : MemPage) (pX : BtreePayload) : Z := if intKey P then x_nData pX else x_nKey pX.

(** What the callers of [fillInCell] pass. *)
Record payload_ok (P : MemPage) (pX : BtreePayload) : Prop := {
  po_leaf : intKey P = true -> intKeyLeaf P = true;
  po_bytes : bytes_ok (payload_source P pX);
  po_source : 0 <= source_length P pX <= len (payload_source P pX);
  po_zero : intKey P = true -> 0 <= x_nZero pX;
  po_length : payload_length P pX < 2147483648
}.

(** What the header of the cell says, wherever the rest is. *)
Definition header_says (P : MemPage) (pX : BtreePayload) (h : bytes) : Prop :=
  bytes_ok h /\ 1 <= len h <= 14 /\ forall c rest, bytes_ok c -> bytes_ok rest -> drop (Z.to_nat (childPtrSize P)) c = h ++ rest ->
    parseCell_of P c = Some (parse_payload P c (childPtrSize P + len h) (if intKey P then i64 (x_nKey pX) else payload_length P pX) (payload_length P pX)).

Lemma cell_header_spec P f pX : decodeFlags P f = (0, P) -> payload_ok P pX ->
  exists h, cell_header P pX = Some (payload_length P pX, payload_source P pX, source_length P pX, h) /\ header_says P pX h.
Proof.
  intros Hd [P1 P2 P3 P4 P5]. pose proof (decode_intKey P f Hd) as Hk. unfold header_says, cell_header, payload_length, payload_source, source_length in *.
  assert (Hu32 : forall x, 0 <= x < 2147483648 -> in_u 64 x /\ i32 x = x).
  { intros x Hx. split; [unfold in_u; change (2 ^ 64) with 18446744073709551616; lia|]. apply wraps_id; [lia|]. unfold in_s. change (2 ^ (32 - 1)) with 2147483648. lia. }
  destruct (intKey P).
  - destruct Hk as [(K1 & K2 & K3 & K4)|K]; [|by rewrite P1 in K]. specialize (P4 eq_refl).
    destruct (Hu32 (x_nData pX + x_nZero pX)) as [U1 U2]; [lia|]. rewrite U2. unfold check. rewrite decide_True by done. cbn [mbind option_bind].
    destruct (putVarint32_spec (x_nData pX + x_nZero pX)) as [E1 E2]; [lia|]. rewrite E1.
    assert (V : in_u 64 (u64 (x_nKey pX))) by (apply wrapu_range; lia). eexists. split; [done|].
    pose proof (sqlite3PutVarint_ok _ U1) as O1. pose proof (sqlite3PutVarint_ok _ V) as O2. pose proof (varint_bytes_range (u64 (x_nKey pX)) ltac:(unfold in_u in V; lia)) as R2.
    pose proof (varint_bytes_range (x_nData pX + x_nZero pX) ltac:(lia)) as R1. pose proof (length_sqlite3PutVarint _ U1) as L1. pose proof (length_sqlite3PutVarint _ V) as L2.
    split; [apply bytes_ok_app; by split|]. split; [rewrite length_app; lia|]. intros c rest Hc Hr Hdr. rewrite K4 in Hdr |- *. change (Z.to_nat 0) with 0%nat in Hdr. rewrite drop_0 in Hdr.
    unfold parseCell_of. rewrite K3, K1, K4. cbn [andb]. rewrite bool_decide_eq_true_2 by done. rewrite Hdr at 1. rewrite <- app_assoc.
    rewrite (payload_size_varint _ (varint_bytes (x_nData pX + x_nZero pX)) (x_nData pX + x_nZero pX)); [|apply bytes_ok_app; split; [exact O1|apply bytes_ok_app; by split]|by apply varint_PutVarint|change (2 ^ 32) with 4294967296; lia|lia].
    cbn [mbind option_bind]. rewrite Hdr at 1. rewrite <- app_assoc. rewrite drop_app_length' by lia. rewrite parse_key_varint by (apply bytes_ok_app; by split).
    rewrite varint_PutVarint by done. cbn [fmap option_fmap option_map mbind option_bind]. rewrite length_app. rewrite wraps_wrapu by lia. f_equal. f_equal; lia.
  - destruct Hk as (K1 & K2 & K3). destruct (Hu32 (x_nKey pX)) as [U1 U2]; [lia|]. unfold check. rewrite decide_True by lia. cbn [mbind option_bind]. rewrite U2.
    destruct (putVarint32_spec (x_nKey pX)) as [E1 E2]; [lia|]. rewrite E1. eexists. split; [done|].
    pose proof (sqlite3PutVarint_ok _ U1) as O1. pose proof (varint_bytes_range (x_nKey pX) ltac:(lia)) as R1. pose proof (length_sqlite3PutVarint _ U1) as L1.
    split; [done|]. split; [lia|]. intros c rest Hc Hr Hdr. unfold parseCell_of. rewrite K1, K2, Hdr.
    rewrite (payload_size_varint _ (varint_bytes (x_nKey pX)) (x_nKey pX)); [|apply bytes_ok_app; by split|by apply varint_PutVarint|change (2 ^ 32) with 4294967296; lia|lia].
    cbn [mbind option_bind]. by rewrite L1.
Qed.

(** How much of a payload of [n] bytes is in the cell. *)
Definition cell_local (P : MemPage) (n : Z) : Z := if decide (n <= maxLocal P) then n else local_size P n.

(** A cell [c] of [n] bytes with its chain [ps]: the header [h], then the payload. *)
Record cell_written (s0 : Db) (ts0 : list (Z * list Z)) (P : MemPage) (pX : BtreePayload) (c : bytes) (n : Z) (s : Db) (ps : list Z) (ts : list (Z * list Z)) (h : bytes) : Prop := {
  cw_ok : db_ok s;
  cw_same : same_db s0 s;
  cw_list : freelist s ts;
  cw_nodup : NoDup ps;
  cw_ps p : p ∈ ps -> 2 <= p <= nPage s /\ p <> PENDING_BYTE_PAGE (db_bt s0) /\ p ∉ referenced s0 /\ p ∉ free_pages ts /\ (p ∈ free_pages ts0 \/ nPage s0 < p);
  cw_free p : p ∈ free_pages ts -> p ∈ free_pages ts0;
  cw_all p : p ∈ free_pages ts0 \/ nPage s0 < p <= nPage s -> p <> PENDING_BYTE_PAGE (db_bt s0) -> p ∈ free_pages ts \/ p ∈ ps;
  cw_n : nPage s0 <= nPage s;
  cw_kept q : q <> 1 -> q ∉ free_pages ts0 -> q <= nPage s0 -> page_of s q = page_of s0 q;
  cw_one j : 0 <= j -> ~ (28 <= j < 40) -> rd (page_of s 1) j = rd (page_of s0 1) j;
  cw_bytes_ok : bytes_ok c;
  cw_size : n = nSize (parse_payload P c (childPtrSize P + len h) 0 (payload_length P pX)) /\ n <= len c;
  cw_header : header_says P pX h /\ sub c (childPtrSize P) (len h) = h;
  cw_links : ps <> [] -> links (page_of s) (rd4 c (childPtrSize P + len h + cell_local P (payload_length P pX))) ps;
  cw_length : Z.of_nat (length ps) = (payload_length P pX - cell_local P (payload_length P pX) + (usableSize (db_bt s0) - 4) - 1) / (usableSize (db_bt s0) - 4);
  cw_payload i : 0 <= i < payload_length P pX ->
    payload_byte (fun i => rd c (childPtrSize P + len h + i)) (page_of s) (cell_local P (payload_length P pX)) (usableSize (db_bt s0) - 4) ps i =
    given_byte (payload_source P pX) (source_length P pX) i
}.

Lemma parse_payload_local P c off key n : 4 < usableSize (pBt P) <= 65536 -> 0 <= minLocal P <= maxLocal P -> maxLocal P <= usableSize (pBt P) - 35 ->
  0 <= n < 2 ^ 32 -> nLocal (parse_payload P c off key n) = cell_local P n.
Proof.
  intros Hu Hm Hx Hn. unfold parse_payload, cell_local. destruct (decide (n <= maxLocal P)); cbn [nLocal]; [by apply u16_small; lia|].
  pose proof (local_bounds P n ltac:(lia) ltac:(lia) ltac:(lia)) as Hl. unfold btreeParseCellAdjustSizeForOverflow. cbn [nLocal].
  assert (El : (if decide (minLocal P + u32 (n - minLocal P) mod (usableSize (pBt P) - 4) <= maxLocal P)
                then minLocal P + u32 (n - minLocal P) mod (usableSize (pBt P) - 4) else minLocal P) = local_size P n).
  { unfold local_size. repeat case_decide; lia. }
  rewrite El. apply u16_small. lia.
Qed.

Lemma limits_of P f : limits_ok (pBt P) -> decodeFlags P f = (0, P) -> (intKey P = true -> intKeyLeaf P = true) ->
  4 < usableSize (pBt P) <= 65536 /\ 0 < minLocal P <= maxLocal P /\ maxLocal P <= usableSize (pBt P) - 35 /\ 0 <= childPtrSize P <= 4 /\ (intKey P = true -> childPtrSize P = 0).
Proof.
  intros Hl Hd Hi. pose proof (limits_bounds _ Hl) as (L1 & L2 & L3 & L4 & L5). pose proof (decode_intKey P f Hd) as Hk.
  destruct (decode_kinds P f Hd) as [(K1 & K2 & K3 & K4 & M1 & M2)|[(K1 & K2 & K3 & K4)|(K1 & K2 & M1 & M2 & Hc)]].
  - rewrite M1, M2, K4. lia.
  - destruct (intKey P); [|destruct Hk as (Hk & _); congruence]. destruct Hk as [(_ & _ & Hk & _)|Hk]; [congruence|]. rewrite Hi in Hk by done. done.
  - rewrite M1, M2. destruct Hc as [[_ ->]|[_ ->]]; (split; [lia|split; [lia|split; [lia|split; [lia|]]]]); [done|]. intros E. apply Hi in E. congruence.
Qed.

Section Cell.
Context (s0 : Db) (ts0 : list (Z * list Z)) (P : MemPage) (f : Z) (pX : BtreePayload) (pCell : bytes).
Hypothesis Hdb : db_ok s0.
Hypothesis Hfl : freelist s0 ts0.
Hypothesis Href : forall p, p ∈ referenced s0 -> p <= nPage s0.
Hypothesis Hbt : pBt P = db_bt s0.
Hypothesis Hlim : limits_ok (pBt P).
Hypothesis Hkind : decodeFlags P f = (0, P).
Hypothesis HX : payload_ok P pX.
Hypothesis Hbuf : pageSize (pBt P) <= len pCell /\ bytes_ok pCell.
Hypothesis Hroom : nPage s0 + 2 * (payload_length P pX / (usableSize (db_bt s0) - 4) + 1) <= mxPgno s0.

Lemma fillInCell_spec : runs (fillInCell P pCell pX) s0 (fun '(c, n) s => exists ps ts h, cell_written s0 ts0 P pX c n s ps ts h).
Proof using All.
  destruct HX as [P1 P2 P3 P4 P5]. destruct (limits_of P f Hlim Hkind P1) as (M1 & M2 & M3 & M4 & M5). destruct Hbuf as [B1 B2].
  destruct (cell_header_spec P f pX Hkind HX) as (h & Eh & Hh). pose proof Hh as (Hh1 & Hh2 & _). pose proof (do_usable _ Hdb) as Hus. rewrite <- Hbt in Hus.
  assert (HN0 : 0 <= payload_length P pX /\ source_length P pX <= payload_length P pX).
  { unfold payload_length, source_length in *. destruct (intKey P); [specialize (P4 eq_refl)|]; lia. }
  set (N := payload_length P pX) in *. set (src := payload_source P pX) in *. set (nSrc := source_length P pX) in *. set (cp := childPtrSize P) in *.
  assert (Hhl : cp + len h <= 18) by lia. pose proof (parse_payload_size P) as Hpp. assert (exists hdr, hdr = cp + len h) as [hdr Ehdr] by eauto. rewrite <- Ehdr in Hhl.
  unfold fillInCell. eapply runs_lift; [exact Eh|]. cbv beta iota. fold cp. rewrite <- Ehdr. eapply runs_lift; [apply st_upd; lia|]. set (c1 := upd pCell cp h).
  assert (Hl1 : len c1 = len pCell) by (unfold c1; rewrite length_upd by lia; done). assert (Hb1 : bytes_ok c1) by (by apply bytes_ok_upd).
  assert (Hh3 : forall c, length c = length c1 -> (forall j, 0 <= j < hdr -> rd c j = rd c1 j) -> sub c cp (len h) = h).
  { intros c Hc Hs. apply sub_is; [lia|lia|]. intros j Hj. rewrite Hs by lia. unfold c1. rewrite rd_upd by lia. rewrite decide_True by lia. f_equal. lia. }
  case_decide as Hfit.
  - (* everything on the page *)
    apply runs_require; [lia|]. eapply runs_lift; [apply slice_sub; lia|]. pose proof (length_sub src 0 nSrc ltac:(lia) ltac:(lia) ltac:(lia)) as Hls.
    eapply runs_lift; [apply st_upd; lia|]. set (c2 := upd c1 hdr (sub src 0 nSrc)). assert (Hl2 : len c2 = len c1) by (unfold c2; rewrite length_upd by lia; done).
    assert (Hlr : len (replicate (Z.to_nat (N - nSrc)) (u8 0)) = N - nSrc) by (rewrite length_replicate; lia).
    unfold memset. fold c2. destruct (decide (0 <= N - nSrc)) as [_|Hx]; [|lia]. eapply runs_lift; [apply st_upd; lia|]. apply runs_ret; [done|].
    set (c3 := upd c2 (hdr + nSrc) _). assert (Hl3 : len c3 = len c1) by (unfold c3; rewrite length_upd by lia; done).
    exists [], ts0, h. assert (Hloc : cell_local P N = N) by (unfold cell_local; by rewrite decide_True).
    destruct (Hpp c3 hdr 0 N) as (_ & A2 & _ & _ & _ & _ & _ & _ & A9 & _); [lia|lia|lia|lia|lia|].
    split; try done.
    + constructor.
    + intros p Hp. by apply elem_of_nil in Hp.
    + intros p [Hp|Hp] _; [by left|lia].
    + apply bytes_ok_upd; [apply bytes_ok_upd; [done|by apply bytes_ok_sub]|apply bytes_ok_replicate].
    + fold cp N. rewrite <- Ehdr. rewrite A9 by done. split; [case_decide; lia|]. case_decide; lia.
    + split; [done|]. apply Hh3; [lia|]. intros j Hj. unfold c3. rewrite rd_upd by lia. rewrite decide_False by lia. unfold c2. rewrite rd_upd by lia. by rewrite decide_False by lia.
    + fold N. rewrite Hloc, <- Hbt. cbn [length]. rewrite Z.div_small; lia.
    + fold cp N src nSrc. rewrite <- Ehdr. intros i Hi. unfold payload_byte, given_byte. rewrite Hloc, decide_True by lia. unfold c3. rewrite rd_upd by lia. case_decide.
      * rewrite decide_False by lia. change (u8 0) with 0. by rewrite (rd_replicate _ 0) by lia.
      * rewrite decide_True by lia. unfold c2. rewrite rd_upd by lia. rewrite decide_True by lia. rewrite rd_sub by lia. rewrite decide_True by lia. f_equal. lia.
  - (* with a chain *)
    change (if decide (maxLocal P < minLocal P + u32 (N - minLocal P) mod (usableSize (pBt P) - 4)) then minLocal P
            else minLocal P + u32 (N - minLocal P) mod (usableSize (pBt P) - 4)) with (local_size P N).
    pose proof (local_bounds P N ltac:(lia) ltac:(lia) ltac:(lia)) as Hloc. set (L := local_size P N) in *.
    assert (HL : 0 < L < N) by lia. assert (Hov : 476 <= usableSize (db_bt s0) - 4) by (rewrite <- Hbt; lia). set (ov := usableSize (db_bt s0) - 4) in *.
    assert (Hch : chain_length s0 L N <= N / ov + 1).
    { unfold chain_length. fold ov. transitivity ((N + 1 * ov) / ov); [apply Z.div_le_mono; lia|]. rewrite Z.div_add by lia. lia. }
    rewrite Hbt. fold ov.
    assert (F0 : filled s0 ts0 src c1 hdr L N nSrc s0 c1 [] ts0 0).
    { split; try done; try (by apply NoDup_nil_2); [intros p Hp; by apply elem_of_nil in Hp|intros p [Hp|Hp] _; [by left|lia]|cbn [length]; lia|intros i Hi; lia|cbn [length]; split; [lia|split; [done|lia]]]. }
    eapply runs_bind.
    { pose proof (fill_loop_spec s0 ts0 src c1 hdr L N nSrc Hdb Hfl Href HL ltac:(lia) ltac:(split; [lia|split; [lia|done]]) ltac:(split; [lia|split; [lia|done]]) ltac:(lia)
        (Z.to_nat N) s0 c1 [] ts0 0 F0) as Hloop. cbn [length] in Hloop. fold ov in Hloop.
      replace (N - 0) with N in Hloop by lia. replace (nSrc - 0) with nSrc in Hloop by lia. replace (L + Z.of_nat 0 * ov - 0) with L in Hloop by lia.
      change (drop (Z.to_nat 0) src) with src in Hloop. change (default 0 (last [])) with 0 in Hloop. assert (Epp : payload_pointer s0 hdr L [] 0 = (None, hdr)) by (unfold payload_pointer; cbn [last]; by rewrite Z.add_0_r).
      rewrite Epp in Hloop. apply Hloop; lia. }
    intros c s H S (ps & ts & F). apply runs_ret; [done|]. exists ps, ts, h. assert (El : cell_local P N = L) by (unfold cell_local; by rewrite decide_False by lia).
    destruct F as [G1 G2 G3 G4 G5 G6 G6' G7 G8 G9 G10 [G11 G11'] G12 G13 G14 G15 G15' (_ & G16 & G17)].
    assert (Hps : ps <> []) by (intros ->; cbn [length] in G17; lia). specialize (G15' Hps). assert (Hlc : len c = len pCell) by lia.
    destruct (Hpp c hdr 0 N) as (_ & _ & _ & _ & _ & _ & _ & _ & _ & A10); [lia|lia|lia|lia|lia|].
    split; try done; fold cp N; rewrite <- ?Ehdr, ?El; fold ov.
    + rewrite A10, parse_payload_local, El by lia. lia.
    + split; [done|]. apply Hh3; [lia|]. intros j Hj. apply G12; lia.
    + done.
    + apply (Z.div_unique _ _ _ (N - L + ov - 1 - ov * Z.of_nat (length ps))); nia.
    + exact G15.
Qed.
End Cell.
