(* ===== verification/SqlOverflowAccess.v ===== *)
(** * The payload as an array of bytes

    Whatever part of a payload [accessPayload] reads or overwrites, wherever its bytes are, it finds them and changes
    no others; the pages it remembers are those of the chain. *)

From S2P Require Import Prelude Bits SqlVarint SqlBytes SqlCell SqlPage SqlFreelist SqlFreelistOk SqlOverflow SqlOverflowOk.

(** ** Copies *)

(** The bytes of a page after a copy of [n] bytes of [w] to [i], and what was read. *)
Definition copied (w : option bytes) (d : bytes) (i n : Z) : bytes := match w with None => d | Some w => upd d i (sub w 0 n) end.
Definition got (w : option bytes) (d : bytes) (i n : Z) : bytes := match w with None => sub d i n | Some _ => [] end.

Definition to_write (w : option bytes) (n : Z) : Prop := match w with None => True | Some w => bytes_ok w /\ n <= len w end.

Lemma to_write_drop w n a : 0 <= a <= n -> to_write w n -> to_write (drop (Z.to_nat a) <$> w) (n - a).
Proof. destruct w as [w|]; cbn; [|done]. intros Ha [H1 H2]. split; [by apply Forall_drop|]. rewrite length_drop. lia. Qed.

Lemma copied_length w d i n : 0 <= i -> 0 <= n -> i + n <= len d -> to_write w n -> len (copied w d i n) = len d.
Proof. destruct w as [w|]; [|done]. intros H1 H2 H3 [_ H4]. cbn [copied]. rewrite length_upd; [done|done|]. rewrite length_sub; lia. Qed.

Lemma copied_ok w d i n : bytes_ok d -> to_write w n -> bytes_ok (copied w d i n).
Proof. destruct w as [w|]; [|done]. intros H [Hw _]. apply bytes_ok_upd; [done|by apply bytes_ok_sub]. Qed.

Lemma rd_copied w d i n j : 0 <= i -> 0 <= n -> i + n <= len d -> to_write w n ->
  rd (copied w d i n) j = if decide (i <= j < i + n) then match w with None => rd d j | Some w => rd w (j - i) end else rd d j.
Proof.
  destruct w as [w|]; cbn [copied]; [|by case_decide]. intros H1 H2 H3 [_ H4]. assert (Hl : len (sub w 0 n) = n) by (apply length_sub; lia).
  rewrite rd_upd by lia. rewrite Hl. case_decide; [|done]. rewrite rd_sub by lia. by rewrite decide_True by lia.
Qed.

Lemma copy_does s q i n w : db_ok s -> 1 <= q <= dbSize s -> 0 <= i -> 0 <= n -> i + n <= pageSize (db_bt s) -> to_write w n ->
  does (copyPayload q i n w) s (got w (page_of s q) i n) (sizes s) (set_at (page_of s) q (copied w (page_of s q) i n)).
Proof.
  intros H Hq H1 H2 H3 Hw. pose proof (do_len _ H q) as Hl. destruct w as [w|]; cbn [copyPayload got].
  - destruct Hw as [Hw1 Hw2]. assert (Hls : len (sub w 0 n) = n) by (apply length_sub; lia).
    eapply does_then; [by apply write_does|]. intros s1 H1' S1 N1 P1. rewrite Z.max_l in N1 by lia.
    eapply does_lift; [apply slice_sub; lia|]. apply does_gets. rewrite P1. eapply does_lift; [apply st_upd; lia|].
    assert (Hl1 : len (upd (page_of s q) i (sub w 0 n)) = pageSize (db_bt s1)) by (rewrite length_upd by lia; by rewrite (sd_bt _ _ S1)).
    eapply does_then; [apply put_does; [done|done|apply bytes_ok_upd; [apply (do_bytes _ H)|by apply bytes_ok_sub]]|].
    intros s2 H2' S2 N2 P2. rewrite N1 in N2. change (nPage s, dbSize s) with (sizes s) in N2. rewrite <- N2. eapply does_ext; [by apply does_ret|].
    intros r. rewrite P2. unfold set_at. case_decide; [done|apply P1].
  - apply does_gets. exists s. unfold lift. rewrite slice_sub by lia. split; [done|]. split; [done|]. split; [done|]. split; [done|].
    intros r. unfold set_at. cbn [copied]. by case_decide; subst.
Qed.

Lemma sub_seqZ d i n : 0 <= i -> 0 <= n -> i + n <= len d -> sub d i n = rd d <$> seqZ i n.
Proof.
  intros H1 H2 H3. assert (Hl : len (rd d <$> seqZ i n) = n) by (rewrite length_fmap, length_seqZ; lia). rewrite <- Hl at 1. apply sub_is; [lia|lia|].
  intros j Hj. unfold rd at 2, ld. rewrite decide_True by lia. rewrite list_lookup_fmap, lookup_seqZ_lt by lia. cbn. f_equal. lia.
Qed.

Lemma links_same P P' : forall l first, (forall p, p ∈ l -> rd4 (P' p) 0 = rd4 (P p) 0) -> links P first l -> links P' first l.
Proof.
  induction l as [|p l IH]; intros first He; cbn [links]; [done|]. intros [H1 H2]. split; [done|]. rewrite (He p) by (by left).
  apply IH; [|done]. intros q Hq. apply He. by right.
Qed.

(** ** A payload and its chain *)

Section Access.
Context (bt : BtShared) (pgno aPay L N : Z) (ps : list Z).
#[local] Abbreviation ov := (usableSize bt - 4).

(** Where the byte [i] of the payload is. *)
Definition home (i : Z) : Z * Z := if decide (i < L) then (pgno, aPay + i) else (ps !!! Z.to_nat ((i - L) / ov), 4 + (i - L) mod ov).

(** The byte [i]. *)
Definition pay (s : Db) (i : Z) : Z := rd (page_of s (home i).1) (home i).2.

(** The payload of the cell on the page [pgno] has its bytes from [aPay] on and on the pages [ps]. *)
Record chained (s : Db) : Prop := {
  ch_ok : db_ok s;
  ch_bt : db_bt s = bt;
  ch_size : nPage s <= dbSize s;
  ch_pgno : 1 <= pgno <= nPage s;
  ch_ps p : p ∈ ps -> 2 <= p <= nPage s /\ p <> PENDING_BYTE_PAGE bt;
  ch_links : ps <> [] -> links (page_of s) (rd4 (page_of s pgno) (aPay + L)) ps
}.

Hypothesis Hnodup : NoDup ps.
Hypothesis Hpgno : pgno ∉ ps.
Hypothesis Hlen : Z.of_nat (length ps) = (N - L + ov - 1) / ov.
Hypothesis Hsize : 0 <= L <= N /\ N < 2147483648.
Hypothesis Hroom : 1 <= aPay /\ aPay + L <= usableSize bt /\ (L < N -> aPay + L + 4 <= usableSize bt).
Hypothesis Hus : 480 <= usableSize bt <= pageSize bt /\ pageSize bt <= 65536.

(** The byte [i] after the [n] bytes from [pos] on are read, or overwritten with [w]. *)
Definition patched (s : Db) (pos n : Z) (w : option bytes) (i : Z) : Z :=
  if decide (pos <= i < pos + n) then match w with None => pay s i | Some w => rd w (i - pos) end else pay s i.

Definition read_out (s : Db) (pos n : Z) (w : option bytes) : bytes := match w with None => pay s <$> seqZ pos n | Some _ => [] end.

Record accessed (s s' : Db) (pos n : Z) (w : option bytes) : Prop := {
  ac_chained : chained s';
  ac_same : same_db s s';
  ac_sizes : sizes s' = sizes s;
  ac_other q : q <> pgno -> q ∉ ps -> page_of s' q = page_of s q;
  ac_outside j : 0 <= j -> ~ (aPay <= j < aPay + L) -> rd (page_of s' pgno) j = rd (page_of s pgno) j;
  ac_bytes i : 0 <= i < N -> pay s' i = patched s pos n w i
}.

(** The page of a byte that is not on the page of the cell. *)
Lemma on_chain i : L <= i < N -> (Z.to_nat ((i - L) / ov) < length ps)%nat /\ ps !!! Z.to_nat ((i - L) / ov) ∈ ps /\ 0 <= (i - L) mod ov < ov /\
  i - L = (i - L) / ov * ov + (i - L) mod ov /\ 0 <= (i - L) / ov.
Proof using Hlen Hus.
  intros Hi. assert (Hk : 0 <= (i - L) / ov) by (apply Z.div_pos; lia).
  assert (Hk2 : (i - L) / ov + 1 <= Z.of_nat (length ps)).
  { rewrite Hlen. replace ((i - L) / ov + 1) with ((i - L + 1 * ov) / ov) by (rewrite Z.div_add by lia; done). apply Z.div_le_mono; lia. }
  split; [lia|]. split; [apply list_elem_of_lookup_total_2; lia|]. split; [apply Z.mod_pos_bound; lia|]. split; [|done].
  pose proof (Z.div_mod (i - L) ov ltac:(lia)). lia.
Qed.

Lemma home_inj i j : 0 <= i < N -> 0 <= j < N -> home i = home j -> i = j.
Proof using All.
  intros Hi Hj. unfold home. destruct (decide (i < L)) as [Hil|Hil], (decide (j < L)) as [Hjl|Hjl]; intros E; pose proof (f_equal fst E) as E1; pose proof (f_equal snd E) as E2; cbn [fst snd] in E1, E2; [lia| | |].
  - destruct (on_chain j) as (_ & C2 & _); [lia|]. by rewrite <- E1 in C2.
  - destruct (on_chain i) as (_ & C2 & _); [lia|]. by rewrite E1 in C2.
  - destruct (on_chain i) as (I1 & _ & _ & I4 & I5); [lia|]. destruct (on_chain j) as (J1 & _ & _ & J4 & J5); [lia|].
    apply list_lookup_lookup_total_lt in I1, J1. rewrite E1 in I1. pose proof (NoDup_lookup _ _ _ _ Hnodup I1 J1) as E0. assert ((i - L) / ov = (j - L) / ov) as E3 by lia.
    rewrite E3 in I4. lia.
Qed.

(** Bytes of the cell's page, and of the chain's. *)
Lemma home_pgno i : 0 <= i < N -> (home i).1 = pgno -> home i = (pgno, aPay + i) /\ i < L.
Proof using All.
  intros Hi. unfold home. case_decide as HL; [done|]. cbn [fst]. intros E. destruct (on_chain i) as (_ & C2 & _); [lia|]. by rewrite E in C2.
Qed.

Lemma home_ps i : 0 <= i < N -> (home i).1 ∈ ps -> 4 <= (home i).2.
Proof using All.
  intros Hi. unfold home. case_decide as HL; cbn [fst snd]; [done|]. destruct (on_chain i) as (_ & _ & C3 & _); lia.
Qed.

Lemma home_in i : 0 <= i < N -> (home i).1 ∈ pgno :: ps.
Proof using All.
  intros Hi. unfold home. case_decide as HL; cbn [fst]; [by left|]. right. apply on_chain. lia.
Qed.

(** Nothing is written. *)
Lemma accessed_none s s' pos n : chained s -> db_ok s' -> same_db s s' -> sizes s' = sizes s -> (forall q, page_of s' q = page_of s q) -> accessed s s' pos n None.
Proof using All.
  intros C H S E P. destruct (sizes_same _ _ E) as [En Ed]. destruct C as [C1 C2 C3 C4 C5 C6]. split; try done.
  - split; rewrite ?En, ?Ed, ?(sd_bt _ _ S), ?P; try done. intros Hp. apply (links_ext (page_of s)); [by intros p _|by apply C6].
  - intros j _ _. by rewrite P.
  - intros i Hi. unfold patched, pay. rewrite P. by case_decide.
Qed.

Lemma accessed_trans s s1 s2 pos n m w : accessed s s1 pos n w -> accessed s1 s2 (pos + n) m (drop (Z.to_nat n) <$> w) -> 0 <= n -> 0 <= m ->
  accessed s s2 pos (n + m) w.
Proof using All.
  intros [A1 A2 A3 A4 A5 A6] [B1 B2 B3 B4 B5 B6] Hn Hm. split; [done|by transitivity s1|congruence|intros q Hq1 Hq2; by rewrite B4, A4|intros j Hj1 Hj2; by rewrite B5, A5|].
  intros i Hi. rewrite B6 by done. unfold patched at 1. rewrite A6 by done. unfold patched. destruct w as [w|]; cbn [fmap option_fmap option_map]; repeat case_decide; try lia; try done.
  unfold rd, ld. rewrite !decide_True by lia. rewrite lookup_drop. do 2 f_equal. lia.
Qed.

Lemma read_out_app s s1 pos n m w : accessed s s1 pos n w -> 0 <= pos -> 0 <= n -> 0 <= m -> pos + n + m <= N ->
  read_out s pos n w ++ read_out s1 (pos + n) m (drop (Z.to_nat n) <$> w) = read_out s pos (n + m) w.
Proof using All.
  intros A H0 H1 H2 H3. destruct w as [w|]; cbn [read_out fmap option_fmap option_map]; [done|]. rewrite seqZ_app by done. rewrite fmap_app. f_equal.
  apply list_fmap_ext. intros i x Hx. apply list_elem_of_lookup_2, elem_of_seqZ in Hx. rewrite (ac_bytes _ _ _ _ _ A) by lia. unfold patched. by case_decide.
Qed.

(** [n] bytes at [a] of the page [q], which are those of the payload from [pos] on. *)
Lemma accessed_on s s' q a pos n w : chained s -> 0 <= n -> to_write w n -> 0 <= a -> a + n <= pageSize bt -> 0 <= pos -> pos + n <= N ->
  q ∈ pgno :: ps -> (forall i, pos <= i < pos + n -> home i = (q, a + (i - pos))) ->
  db_ok s' -> same_db s s' -> sizes s' = sizes s -> (forall r, page_of s' r = set_at (page_of s) q (copied w (page_of s q) a n) r) ->
  accessed s s' pos n w /\ got w (page_of s q) a n = read_out s pos n w.
Proof using All.
  intros C Hn Hw Ha0 Ha Hp0 Hp Hq Hh H S E P. destruct (sizes_same _ _ E) as [En Ed]. pose proof C as [C1 C2 C3 C4 C5 C6].
  assert (Hl : forall r, len (page_of s r) = pageSize bt) by (intros r; rewrite (do_len _ C1); by rewrite C2).
  (* a byte of a page is the one of the payload that is written, or stays *)
  assert (Hrd : forall r j, (forall i, pos <= i < pos + n -> home i <> (r, j)) -> rd (page_of s' r) j = rd (page_of s r) j).
  { intros r j Hr. rewrite P. unfold set_at. case_decide as Er; [|done]. subst r. rewrite rd_copied by (rewrite ?Hl; done). case_decide; [|done].
    exfalso. apply (Hr (pos + (j - a))); [lia|]. rewrite Hh by lia. f_equal. lia. }
  assert (Hlink : forall p, p ∈ ps -> rd4 (page_of s' p) 0 = rd4 (page_of s p) 0).
  { intros p Hp'. apply rd4_ext. intros j Hj. apply Hrd. intros i Hi Ei. pose proof (home_ps i ltac:(lia)) as H4. rewrite Ei in H4. specialize (H4 Hp'). cbn [snd] in H4. lia. }
  assert (Hout : forall j, 0 <= j -> ~ (aPay <= j < aPay + L) -> rd (page_of s' pgno) j = rd (page_of s pgno) j).
  { intros j Hj1 Hj2. apply Hrd. intros i Hi Ei. destruct (home_pgno i) as [E1 E2]; [lia|by rewrite Ei|]. rewrite Ei in E1. injection E1 as E1. lia. }
  split; [split; try done|].
  - split; rewrite ?En, ?Ed, ?(sd_bt _ _ S); try done. intros Hps. apply (links_same (page_of s)); [done|].
    replace (rd4 (page_of s' pgno) (aPay + L)) with (rd4 (page_of s pgno) (aPay + L)); [by apply C6|]. symmetry. apply rd4_ext. intros j Hj. apply Hout; lia.
  - intros r Hr1 Hr2. rewrite P, set_at_ne; [done|]. intros ->. apply elem_of_cons in Hq as [?|?]; done.
  - intros i Hi. unfold patched. case_decide as Hin.
    + unfold pay. rewrite (Hh i Hin). cbn [fst snd]. rewrite P, set_at_eq, rd_copied by (rewrite ?Hl; done). rewrite decide_True by lia.
      destruct w; [f_equal; lia|done].
    + unfold pay. apply Hrd. intros i' Hi' E'. apply Hin. rewrite (home_inj i i') by (lia || by destruct (home i)). done.
  - destruct w as [w|]; [done|]. cbn [got read_out]. rewrite sub_seqZ by (rewrite ?Hl; done). apply list_eq. intros k.
    rewrite !list_lookup_fmap. destruct (decide (Z.of_nat k < n)) as [Hk|Hk].
    + rewrite !lookup_seqZ_lt by lia. cbn. f_equal. unfold pay. rewrite Hh by lia. cbn [fst snd]. f_equal. lia.
    + by rewrite !lookup_seqZ_ge by lia.
Qed.

Lemma accessed_refl s pos w : chained s -> accessed s s pos 0 w.
Proof using All. intros C. split; try done. intros i Hi. unfold patched. by rewrite decide_False by lia. Qed.

(** A state with the same pages stands for the other. *)
Lemma same_pages s s1 : chained s -> db_ok s1 -> same_db s s1 -> sizes s1 = sizes s -> (forall q, page_of s1 q = page_of s q) ->
  chained s1 /\ (forall pos n w, read_out s1 pos n w = read_out s pos n w) /\ (forall s2 pos n w, accessed s1 s2 pos n w -> accessed s s2 pos n w).
Proof using All.
  intros C H S E P. pose proof (accessed_none s s1 0 0 C H S E P) as A. split; [apply (ac_chained _ _ _ _ _ A)|].
  assert (Hp : forall i, pay s1 i = pay s i) by (intros i; unfold pay; by rewrite P). split.
  - intros pos n [w|]; cbn [read_out]; [done|]. apply list_fmap_ext. intros i x _. apply Hp.
  - intros s2 pos n w [B1 B2 B3 B4 B5 B6]. split; [done|by transitivity s1|congruence|intros q H1 H2; by rewrite B4|intros j H1 H2; by rewrite B5, P|].
    intros i Hi. rewrite B6 by done. unfold patched. by rewrite Hp.
Qed.

Lemma drop_0_fmap (w : option bytes) : drop (Z.to_nat 0) <$> w = w.
Proof using Type. by destruct w. Qed.

(** The part on the page of the cell. *)
Lemma access_local_spec s offset amt w : chained s -> 0 <= offset -> 0 <= amt -> offset + amt <= N -> to_write w amt ->
  exists a o s', access_local pgno aPay L offset amt w s = Some (Ok (read_out s offset a w, o, amt - a, drop (Z.to_nat a) <$> w), s') /\
    accessed s s' offset a w /\ 0 <= a <= amt /\ (0 < amt - a -> 0 <= o /\ L + o = offset + a).
Proof using All.
  intros C H1 H2 H3 Hw. unfold access_local. pose proof C as [C1 C2 C3 C4 C5 C6]. case_decide as HoL.
  - set (a := if decide (L < amt + offset) then L - offset else amt). assert (Ha : 0 <= a <= amt /\ offset + a <= L /\ (a < amt -> offset + a = L)) by (unfold a; case_decide; lia).
    clearbody a. assert (Hwa : to_write w a) by (destruct w as [w|]; [destruct Hw; split; [done|lia]|done]).
    destruct (copy_does s pgno (aPay + offset) a w C1) as (s1 & E & D1 & D2 & D3 & D4); [lia|lia|lia|rewrite C2; lia|done|].
    destruct (accessed_on s s1 pgno (aPay + offset) offset a w C) as [A G]; try done; [lia|lia|lia|lia|by left| |].
    { intros i Hi. unfold home. rewrite decide_True by lia. f_equal. lia. }
    exists a, 0, s1. rewrite (bind_ok _ _ _ _ _ E), G. split; [done|]. split; [done|]. split; [lia|]. lia.
  - exists 0, (offset - L), s. rewrite drop_0_fmap, Z.sub_0_r. split; [by destruct w|]. split; [by apply accessed_refl|]. lia.
Qed.

(** What [aOverflow] may hold. *)
Definition cache_ok (l : list (option Z)) : Prop :=
  (length ps <= length l)%nat /\ forall k p, ps !! k = Some p -> l !! k = Some (Some 0) \/ l !! k = Some (Some p).

Lemma cache_ok_insert l k p : cache_ok l -> ps !! k = Some p -> cache_ok (<[k := Some p]> l).
Proof using Type.
  intros [H1 H2] Hk. split; [by rewrite length_insert|]. intros k' p' Hk'. destruct (decide (k' = k)) as [->|Hn].
  - apply lookup_lt_Some in Hk' as Hl. rewrite list_lookup_insert_eq by lia. right. congruence.
  - rewrite list_lookup_insert_ne by done. by apply H2.
Qed.

Lemma next_on_chain s k p : chained s -> ps !! k = Some p -> rd4 (page_of s p) 0 = default 0 (ps !! S k).
Proof using Type.
  intros C Hk. assert (Hps : ps <> []) by (intros E; by rewrite E in Hk). by apply (links_lookup _ _ _ _ _ (ch_links _ C Hps)).
Qed.

Lemma overflow_part_spec s k p o a w : chained s -> ps !! k = Some p -> 0 <= o -> 0 < a -> o + a <= ov -> L + Z.of_nat k * ov + o + a <= N -> to_write w a ->
  exists s', overflow_part p o a w s = Some (Ok (default 0 (ps !! S k), read_out s (L + Z.of_nat k * ov + o) a w), s') /\ accessed s s' (L + Z.of_nat k * ov + o) a w.
Proof using All.
  intros C Hk Ho Ha Hoa HN Hw. pose proof C as [C1 C2 C3 C4 C5 C6]. destruct (C5 p) as [P1 P2]; [by apply list_elem_of_lookup_2 in Hk|].
  assert (0 <= Z.of_nat k * ov) as Hk0 by (apply Z.mul_nonneg_nonneg; lia). set (pos := L + Z.of_nat k * ov + o) in *.
  assert (Hd : does (overflow_part p o a w) s (default 0 (ps !! S k), got w (page_of s p) (4 + o) a) (sizes s) (set_at (page_of s) p (copied w (page_of s p) (4 + o) a))).
  { unfold overflow_part. eapply does_then; [apply (get_does s p); [done|lia|by rewrite C2]|]. intros s1 H1 S1 N1 Q1.
    destruct (same_pages s s1) as (C' & _ & _); try done. destruct (sizes_same _ _ N1) as [_ Ed]. rewrite <- N1.
    eapply does_then; [apply get4_does; [done|lia|rewrite (ch_bt _ C'); lia]|]. intros s2 H2 S2 N2 Q2. rewrite (next_on_chain s1 k p C' Hk). rewrite <- N2.
    destruct (sizes_same _ _ N2) as [_ Ed2]. eapply does_then.
    { apply copy_does; [done|lia|lia|lia| |exact Hw]. rewrite (sd_bt _ _ S2), (ch_bt _ C'). lia. }
    intros s3 H3 S3 N3 Q3. rewrite Q2, Q1 in Q3. rewrite Q2, Q1. replace (o + 4) with (4 + o) in * by lia. rewrite <- N3.
    eapply does_ext; [by apply does_ret|]. intros r. rewrite Q3. unfold set_at. case_decide; [done|by rewrite Q2, Q1]. }
  destruct Hd as (s' & E & D1 & D2 & D3 & D4). exists s'.
  destruct (accessed_on s s' p (4 + o) pos a w C) as [A G]; try done; [lia|lia|lia|lia|by right; apply list_elem_of_lookup_2 in Hk| |].
  { intros i Hi. unfold home. rewrite decide_False by lia. destruct (on_page (i - L) (Z.of_nat k) ov) as [-> ->]; [lia|unfold pos in Hi; lia|].
    rewrite Nat2Z.id. rewrite (list_lookup_total_correct _ _ _ Hk). f_equal. unfold pos. lia. }
  rewrite E, G. done.
Qed.

Lemma access_loop_spec fuel : forall offset amt k p l out w s, chained s -> cache_ok l -> ps !! k = Some p -> 0 <= offset -> 0 < amt ->
  L + Z.of_nat k * ov + offset + amt <= N -> offset + amt < Z.of_nat fuel -> to_write w amt ->
  exists l' s', access_loop fuel ov p offset amt k l out w s = Some (SQLITE_OK, out ++ read_out s (L + Z.of_nat k * ov + offset) amt w, l', s') /\
    accessed s s' (L + Z.of_nat k * ov + offset) amt w /\ cache_ok l'.
Proof using All.
  induction fuel as [|fuel IH]; intros offset amt k p l out w s C Hl Hk Ho Ha HN Hf Hw; [lia|]. cbn [access_loop].
  pose proof C as [C1 C2 C3 C4 C5 C6]. destruct (C5 p) as [P1 P2]; [by apply list_elem_of_lookup_2 in Hk|]. apply lookup_lt_Some in Hk as Hkl.
  rewrite decide_False by lia. rewrite decide_False by lia. unfold check. destruct (decide (k < length l)%nat) as [_|Hx]; [|destruct Hl; lia]. cbn [mbind option_bind].
  pose proof (cache_ok_insert l k p Hl Hk) as Hl1. set (l1 := <[k := Some p]> l) in *.
  assert (Hnext : ov <= offset \/ amt <> (if decide (ov < amt + offset) then ov - offset else amt) -> exists p', ps !! S k = Some p').
  { intros Hc. apply lookup_lt_is_Some_2. assert (Z.of_nat k + 2 <= Z.of_nat (length ps)); [|lia]. rewrite Hlen. apply Z.div_le_lower_bound; [lia|].
    rewrite Z.mul_add_distr_l. case_decide; lia. }
  assert (HS : L + Z.of_nat (S k) * ov = L + Z.of_nat k * ov + ov) by lia. destruct (decide (ov <= offset)) as [Hskip|Hskip].
  - (* past this page *)
    destruct Hnext as [p' Hk']; [by left|]. assert (Hp' : 2 <= p') by (apply (C5 p'); by apply list_elem_of_lookup_2 in Hk').
    assert (HSk : L + Z.of_nat (S k) * ov + (offset - ov) = L + Z.of_nat k * ov + offset) by lia.
    destruct (proj2 Hl1 (S k) p' Hk') as [->| ->]; cbn [mjoin option_join mbind option_bind].
    + rewrite decide_False by (intros Hx; by apply Hx).
      assert (Hg : does (getOverflowPage p) s p' (sizes s) (page_of s)).
      { unfold getOverflowPage. eapply does_then; [apply (get_does s p); [done|lia|by rewrite C2]|]. intros s1 H1 S1 N1 Q1.
        destruct (same_pages s s1) as (C' & _ & _); try done. pose proof (next_on_chain s1 k p C' Hk) as En. rewrite Hk' in En. cbn in En. rewrite <- En, <- N1.
        eapply does_ext; [apply get4_does; [done|lia|rewrite (ch_bt _ C'); lia]|done]. }
      destruct Hg as (s1 & E1 & D1 & D2 & D3 & D4). rewrite E1. cbn [mbind option_bind].
      destruct (same_pages s s1 C D1 D2 D3 D4) as (C' & R' & A'). destruct (IH (offset - ov) amt (S k) p' l1 out w s1 C' Hl1 Hk') as (l' & s' & E & A & K); [lia|lia|lia|lia|done|].
      rewrite HSk in E, A. exists l', s'. rewrite E, R'. split; [done|]. split; [by apply A'|done].
    + rewrite decide_True by lia. destruct (IH (offset - ov) amt (S k) p' l1 out w s C Hl1 Hk') as (l' & s' & E & A & K); [lia|lia|lia|lia|done|].
      rewrite HSk in E, A. exists l', s'. by rewrite E.
  - (* bytes of this page *)
    set (a := if decide (ov < amt + offset) then ov - offset else amt) in *. assert (Ha' : 0 < a <= amt /\ offset + a <= ov /\ (a < amt -> offset + a = ov)) by (unfold a; case_decide; lia).
    clearbody a. assert (Hwa : to_write w a) by (destruct w as [w|]; [destruct Hw; split; [done|lia]|done]).
    destruct (overflow_part_spec s k p offset a w) as (s1 & E1 & A1); [done|done|lia|lia|lia|lia|done|]. rewrite E1. cbn [mbind option_bind].
    case_decide as Hend.
    + exists l1, s1. assert (a = amt) as -> by lia. done.
    + destruct Hnext as [p' Hk']; [right; lia|]. rewrite Hk'. change (default 0 (Some p')) with p'.
      destruct (IH 0 (amt - a) (S k) p' l1 (out ++ read_out s (L + Z.of_nat k * ov + offset) a w) (drop (Z.to_nat a) <$> w) s1) as (l' & s' & E & A & K);
        [apply (ac_chained _ _ _ _ _ A1)|done|done|lia|lia|lia|lia|apply to_write_drop; [lia|done]|].
      assert (HSk : L + Z.of_nat (S k) * ov + 0 = L + Z.of_nat k * ov + offset + a) by lia. rewrite HSk in E, A. exists l', s'. rewrite E.
      assert (Eamt : a + (amt - a) = amt) by lia. split; [|split; [|done]].
      * rewrite <- app_assoc. rewrite (read_out_app s s1 _ a (amt - a) w A1) by lia. by rewrite Eamt.
      * rewrite <- Eamt. apply (accessed_trans s s1 s'); [done|done|lia|lia].
Qed.

(** A cursor at the cell. *)
Definition info_for (i : CellInfo) : Prop :=
  nPayload i = N /\ nLocal i = L /\ exists pl, pPayload i = Some pl /\ pageSize bt - len pl = aPay.

Record at_cell (c : BtCursor) (s : Db) : Prop := {
  at_pgno : cur_pgno c = pgno;
  at_ix : cur_ix c < nCell (cur_page c);
  at_info : exists i, info_for i /\ match cur_info c with Some i' => i' = i | None => btreeParseCell (set_aData (page_of s pgno) (cur_page c)) (cur_ix c) = Some i end;
  at_cache : valid_ovfl c = true -> cache_ok (aOverflow c)
}.

Lemma overflow_cache_spec s old : db_ok s -> exists l s', overflow_cache (length ps) old s = Some (Ok l, s') /\ cache_ok l /\
  db_ok s' /\ same_db s s' /\ sizes s' = sizes s /\ forall q, page_of s' q = page_of s q.
Proof using Type.
  intros H. assert (Hc : forall l, (length ps <= length l)%nat -> cache_ok (replicate (length ps) (Some 0) ++ drop (length ps) l)).
  { intros l Hl. split; [rewrite length_app, length_replicate; lia|]. intros k p Hk%lookup_lt_Some. left. rewrite lookup_app_l by (rewrite length_replicate; lia). by apply lookup_replicate_2. }
  unfold overflow_cache. case_decide as Hs.
  - destruct (does_answer s H) as (s1 & E & D). eexists _, s1. split; [|split; [apply Hc|exact D]].
    { unfold mbind, routine_bind at 1 2. rewrite E. reflexivity. }
    rewrite length_app, length_take, length_replicate. lia.
  - exists (replicate (length ps) (Some 0) ++ drop (length ps) old), s. split; [done|]. split; [apply Hc; lia|done].
Qed.

Lemma chain_number : u32 (u32 (N - L + ov) - 1) / ov = Z.of_nat (length ps).
Proof using All.
  rewrite (wrapu_id 32 (N - L + ov)) by (unfold in_u; change (2 ^ 32) with 4294967296; lia).
  rewrite wrapu_id by (unfold in_u; change (2 ^ 32) with 4294967296; lia). by rewrite Hlen.
Qed.

Lemma accessPayload_spec c s offset amt w : chained s -> at_cell c s -> 0 <= offset -> 0 <= amt -> offset + amt <= N -> to_write w amt ->
  exists c' s', accessPayload c offset amt w s = Some (SQLITE_OK, read_out s offset amt w, c', s') /\ accessed s s' offset amt w /\ at_cell c' s'.
Proof using All.
  intros C [K1 K2 (i & [I1 [I2 (pl & I3 & I4)]] & Hi) K4] Ho Ha HN Hw. pose proof C as [C1 C2 C3 C4 C5 C6]. unfold accessPayload. rewrite K1, C2.
  cbn zeta. destruct (decide (nCell (set_aData (page_of s pgno) (cur_page c)) <= cur_ix c)) as [Hx|_]; [cbn in Hx; lia|].
  assert (Hgi : exists c1, getCellInfo (set_aData (page_of s pgno) (cur_page c)) c = Some (i, c1) /\ cur_pgno c1 = pgno /\ cur_ix c1 < nCell (cur_page c1) /\
    cur_info c1 = Some i /\ valid_ovfl c1 = valid_ovfl c /\ aOverflow c1 = aOverflow c).
  { unfold getCellInfo. destruct (cur_info c) as [i'|] eqn:Ei; [subst i'; by exists c|]. rewrite Hi. by exists (with_info i c). }
  destruct Hgi as (c1 & -> & G1 & G2 & G3 & G4 & G5). cbn [mbind option_bind]. rewrite I3. cbn [mbind option_bind]. rewrite I1, I2.
  change (aData (set_aData (page_of s pgno) (cur_page c))) with (page_of s pgno). rewrite (do_len _ C1), C2, I4.
  unfold check. destruct (decide (offset + amt <= N /\ 0 < aPay)) as [_|Hx]; [|lia]. cbn [mbind option_bind].
  rewrite (wrapu_id 32) by (unfold in_u; change (2 ^ 32) with 4294967296; lia). destruct (decide (usableSize bt - L < aPay)) as [Hx|_]; [lia|]. rewrite G1.
  assert (Hat : forall l v s', cur_pgno (with_overflow l v c1) = pgno -> (v = true -> cache_ok l) -> at_cell (with_overflow l v c1) s').
  { intros l v s' _ Hv. split; [done|done| |done]. exists i. split; [split; [done|split; [done|by exists pl]]|]. cbn [cur_info with_overflow]. by rewrite G3. }
  assert (Hat1 : forall s', at_cell c1 s').
  { intros s'. split; [done|done| |by rewrite G4, G5]. exists i. split; [split; [done|split; [done|by exists pl]]|]. by rewrite G3. }
  destruct (access_local_spec s offset amt w C Ho Ha HN Hw) as (a & o & s1 & E1 & A1 & Ha1 & Hrest). rewrite E1. cbn [mbind option_bind].
  destruct (decide (0 < amt - a)) as [Hmore|Hmore].
  2: { exists c1, s1. assert (a = amt) as -> by lia. done. }
  destruct (Hrest Hmore) as [Ho1 Ho2]. pose proof (ac_chained _ _ _ _ _ A1) as C'. pose proof C' as [D1 D2 D3 D4 D5 D6].
  assert (Hp0 : exists p0, ps !! 0%nat = Some p0).
  { apply lookup_lt_is_Some_2. assert (1 <= Z.of_nat (length ps)); [|lia]. rewrite Hlen. apply Z.div_le_lower_bound; lia. }
  destruct Hp0 as [p0 Hp0]. assert (Hps : ps <> []) by (intros E; by rewrite E in Hp0).
  rewrite get4byte_rd4; [|apply (do_bytes _ D1)|lia|rewrite (do_len _ D1), D2; lia]. cbn [mbind option_bind].
  pose proof (links_first _ _ _ (D6 Hps)) as Efirst. rewrite Hp0 in Efirst. change (default 0 (Some p0)) with p0 in Efirst. rewrite Efirst.
  (* the page to start with *)
  assert (Hstart : exists l k p o' s2, (if valid_ovfl c1
      then known ← mjoin (aOverflow c1 !! Z.to_nat (o / ov));
           Some (Ok (aOverflow c1, if decide (known <> 0) then (Z.to_nat (o / ov), known, o mod ov) else (0%nat, p0, o)), s1)
      else (l ← overflow_cache (Z.to_nat (u32 (u32 (N - L + ov) - 1) / ov)) (aOverflow c1); mret (l, (0%nat, p0, o))) s1) = Some (Ok (l, (k, p, o')), s2) /\
    cache_ok l /\ ps !! k = Some p /\ 0 <= o' /\ o = Z.of_nat k * ov + o' /\ db_ok s2 /\ same_db s1 s2 /\ sizes s2 = sizes s1 /\ forall q, page_of s2 q = page_of s1 q).
  { destruct (valid_ovfl c1) eqn:Ev.
    - rewrite G5. specialize (K4 (eq_sym G4)). destruct (on_chain (L + o)) as (T1 & _ & T3 & T4 & T5); [lia|].
      replace (L + o - L) with o in * by lia. destruct (lookup_lt_is_Some_2 ps _ T1) as [p Hp].
      destruct (proj2 K4 _ p Hp) as [-> | ->]; cbn [mjoin option_join mbind option_bind].
      + rewrite decide_False by (intros Hx; by apply Hx). exists (aOverflow c), 0%nat, p0, o, s1. split; [done|]. split; [done|]. split; [done|]. split; [done|]. split; [lia|]. done.
      + rewrite decide_True by (apply list_elem_of_lookup_2, D5 in Hp; lia). exists (aOverflow c), (Z.to_nat (o / ov)), p, (o mod ov), s1. split; [done|]. split; [done|]. split; [done|].
        split; [lia|]. split; [lia|]. done.
    - rewrite chain_number, Nat2Z.id. destruct (overflow_cache_spec s1 (aOverflow c1) D1) as (l & s2 & E & Hl & Hs). exists l, 0%nat, p0, o, s2.
      rewrite (bind_ok _ _ _ _ _ E). split; [done|]. split; [done|]. split; [done|]. split; [done|]. split; [lia|]. done. }
  destruct Hstart as (l & k & p & o' & s2 & -> & Hl & Hk & Hop & Eo & Q1 & Q2 & Q3 & Q4). cbn [mbind option_bind].
  destruct (same_pages s1 s2 C' Q1 Q2 Q3 Q4) as (C2' & R2 & A2).
  destruct (access_loop_spec (Z.to_nat (o' + (amt - a)) + 1) o' (amt - a) k p l (read_out s offset a w) (drop (Z.to_nat a) <$> w) s2 C2' Hl Hk Hop Hmore) as (l' & s3 & E3 & A3 & Hl');
    [lia|lia|apply to_write_drop; [lia|done]|].
  rewrite E3. cbn [mbind option_bind]. assert (Epos : L + Z.of_nat k * ov + o' = offset + a) by lia. rewrite Epos in *.
  exists (with_overflow l' true c1), s3. rewrite R2, (read_out_app s s1 offset a (amt - a) w A1) by lia. assert (Eamt : a + (amt - a) = amt) by lia. rewrite Eamt.
  split; [done|]. split; [|by apply Hat]. rewrite <- Eamt. apply (accessed_trans s s1 s3); [done|by apply A2|lia|lia].
Qed.

End Access.
