(* ===== verification/SqlOverflowProps.v ===== *)
(** * Payloads of any size

    A cell of [fillInCell], on a page, is an array of bytes for [accessPayload]; [clearCellOverflow] gives its
    pages back. *)

From S2P Require Import Prelude Bits SqlVarint SqlBytes SqlCell SqlCellProps SqlPage SqlFreelist SqlFreelistOk SqlOverflow SqlOverflowOk SqlOverflowCell SqlOverflowAccess.

(** ** Sequences of accesses *)

Inductive access := ReadAt (offset amt : Z) | WriteAt (offset : Z) (bs : bytes).

(** The code and the bytes of each call. *)
Fixpoint serve_accesses (l : list access) (c : BtCursor) (s : Db) : option (list (Z * bytes) * Db) :=
  match l with
  | [] => Some ([], s)
  | a :: l =>
      '(rc, out, c, s) ← match a with ReadAt offset amt => accessPayload c offset amt None s | WriteAt offset bs => accessPayload c offset (len bs) (Some bs) s end;
      '(rs, s) ← serve_accesses l c s; Some ((rc, out) :: rs, s)
  end.

(** The same on an array of bytes, and the array afterwards. *)
Fixpoint array_accesses (l : list access) (arr : bytes) : list (Z * bytes) * bytes :=
  match l with
  | [] => ([], arr)
  | ReadAt offset amt :: l => let '(rs, r) := array_accesses l arr in ((0, sub arr offset amt) :: rs, r)
  | WriteAt offset bs :: l => let '(rs, r) := array_accesses l (upd arr offset bs) in ((0, []) :: rs, r)
  end.

(** An access inside a payload of [n] bytes. *)
Definition access_in (n : Z) (a : access) : Prop :=
  match a with
  | ReadAt offset amt => 0 <= offset /\ 0 <= amt /\ offset + amt <= n
  | WriteAt offset bs => 0 <= offset /\ offset + len bs <= n /\ bytes_ok bs
  end.

Section Array.
Context (bt : BtShared) (pgno aPay L N : Z) (ps : list Z).
Hypothesis Hnodup : NoDup ps.
Hypothesis Hpgno : pgno ∉ ps.
Hypothesis Hlen : Z.of_nat (length ps) = (N - L + (usableSize bt - 4) - 1) / (usableSize bt - 4).
Hypothesis Hsize : 0 <= L <= N /\ N < 2147483648.
Hypothesis Hroom : 1 <= aPay /\ aPay + L <= usableSize bt /\ (L < N -> aPay + L + 4 <= usableSize bt).
Hypothesis Hus : 480 <= usableSize bt <= pageSize bt /\ pageSize bt <= 65536.

(** What the accesses leave as it is. *)
Record kept_pages (s s' : Db) : Prop := {
  kp_chained : chained bt pgno aPay L ps s';
  kp_same : same_db s s';
  kp_sizes : sizes s' = sizes s;
  kp_other q : q <> pgno -> q ∉ ps -> page_of s' q = page_of s q;
  kp_outside j : 0 <= j -> ~ (aPay <= j < aPay + L) -> rd (page_of s' pgno) j = rd (page_of s pgno) j
}.

Lemma array_spec l : forall c s arr, chained bt pgno aPay L ps s -> at_cell bt pgno aPay L N ps c s -> len arr = N ->
  (forall i, 0 <= i < N -> pay bt pgno aPay L ps s i = rd arr i) -> Forall (access_in N) l ->
  exists s', serve_accesses l c s = Some ((array_accesses l arr).1, s') /\ kept_pages s s' /\
    forall i, 0 <= i < N -> pay bt pgno aPay L ps s' i = rd (array_accesses l arr).2 i.
Proof using All.
  induction l as [|a l IH]; intros c s arr C K Hl Hp Hall; cbn [serve_accesses array_accesses]; [by exists s|].
  apply Forall_cons in Hall as [Ha Hall].
  assert (Hstep : exists offset amt w, match a with ReadAt offset amt => accessPayload c offset amt None s | WriteAt offset bs => accessPayload c offset (len bs) (Some bs) s end
      = accessPayload c offset amt w s /\ 0 <= offset /\ 0 <= amt /\ offset + amt <= N /\ to_write w amt /\
      exists arr', len arr' = N /\ (forall i, 0 <= i < N -> patched bt pgno aPay L ps s offset amt w i = rd arr' i) /\
        array_accesses (a :: l) arr = ((0, read_out bt pgno aPay L ps s offset amt w) :: (array_accesses l arr').1, (array_accesses l arr').2)).
  { destruct a as [offset amt|offset bs]; cbn [access_in] in Ha.
    - exists offset, amt, None. split; [done|]. split; [lia|]. split; [lia|]. split; [lia|]. split; [done|]. exists arr. split; [done|]. split.
      + intros i Hi. unfold patched. rewrite Hp by done. by case_decide.
      + cbn [array_accesses read_out]. destruct (array_accesses l arr) as [rs r]. cbn [fst snd]. do 3 f_equal. rewrite sub_seqZ by lia.
        apply list_fmap_ext. intros k i Hi. apply list_elem_of_lookup_2, elem_of_seqZ in Hi. symmetry. apply Hp. lia.
    - destruct Ha as (A1 & A2 & A3). exists offset, (len bs), (Some bs). split; [done|]. split; [lia|]. split; [lia|]. split; [lia|]. split; [split; [done|lia]|].
      exists (upd arr offset bs). split; [rewrite length_upd; lia|]. split.
      + intros i Hi. unfold patched. rewrite rd_upd by lia. rewrite Hp by done. by case_decide.
      + cbn [array_accesses read_out]. by destruct (array_accesses l (upd arr offset bs)). }
  destruct Hstep as (offset & amt & w & -> & H1 & H2 & H3 & Hw & arr' & Hl' & Hp' & Ea).
  destruct (accessPayload_spec bt pgno aPay L N ps Hnodup Hpgno Hlen Hsize Hroom Hus c s offset amt w C K H1 H2 H3 Hw) as (c' & s1 & E & [A1 A2 A3 A4 A5 A6] & K').
  rewrite E. cbn [mbind option_bind]. destruct (IH c' s1 arr' A1 K' Hl') as (s' & E' & [B1 B2 B3 B4 B5] & B6); [|done|].
  { intros i Hi. rewrite A6 by done. by apply Hp'. }
  rewrite E'. cbn [mbind option_bind]. exists s'. cbn [array_accesses] in Ea. rewrite Ea. cbn [fst snd]. split; [done|]. split; [|done].
  split; [done|by transitivity s1|congruence|intros q Hq1 Hq2; by rewrite B4, A4|intros j Hj1 Hj2; by rewrite B5, A5].
Qed.

End Array.

(** ** Giving the chain back *)

Lemma clear_loop_spec l : forall first s ts, db_ok s -> freelist s ts -> NoDup l -> links (page_of s) first l ->
  (forall p, p ∈ l -> 2 <= p <= nPage s /\ p <> PENDING_BYTE_PAGE (db_bt s) /\ p ∉ referenced s /\ p ∉ free_pages ts) ->
  runs (clear_loop (length l) first) s (fun _ s' => exists ts', freelist s' ts' /\ free_pages ts' ≡ₚ l ++ free_pages ts /\ nPage s' = nPage s /\
    forall q, q <> 1 -> q ∉ free_pages ts -> q ∉ l -> page_of s' q = page_of s q).
Proof.
  induction l as [|p l IH]; intros first s ts H Hfl Hnd Hlk Hps; cbn [length clear_loop].
  - apply runs_ret; [done|]. by exists ts.
  - destruct Hlk as [-> Hlk]. apply NoDup_cons in Hnd as [Hnp Hnd]. destruct (Hps p) as (P1 & P2 & P3 & P4); [by left|]. destruct (fl_sizes _ _ Hfl) as [Z1 Z2].
    pose proof (do_usable _ H) as Hus. apply runs_gets. rewrite decide_False by lia.
    eapply (runs_bind _ _ _ (fun n s1 => sizes s1 = sizes s /\ (forall q, page_of s1 q = page_of s q) /\ links (page_of s) n l)).
    { destruct l as [|p' l]; cbn [length].
      - apply runs_ret; [done|]. done.
      - destruct (get_does s p) as (s1 & E & H1 & S1 & N1 & Q1); [done|lia|done|]. assert (Hd : does (getOverflowPage p) s (rd4 (page_of s p) 0) (sizes s) (page_of s)).
        { unfold getOverflowPage. eapply does_then; [apply (get_does s p); [done|lia|done]|]. intros s2 H2 S2 N2 Q2. rewrite <- N2, <- Q2.
          eapply does_ext; [apply get4_does; [done|lia|rewrite (sd_bt _ _ S2); lia]|done]. }
        eapply runs_does; [exact Hd|]. intros s2 H2 S2 N2 Q2. done. }
    intros n s1 H1 S1 (N1 & Q1 & Hn). destruct (sizes_same _ _ N1) as [En Ed]. apply runs_gets. rewrite bool_decide_eq_false_2 by (by rewrite (sd_ref _ _ S1)). apply runs_gets.
    assert (Hfl1 : freelist s1 ts).
    { destruct Hfl as [T1 T2 T3 T4 T5]. split; rewrite ?Q1, ?(sd_bt _ _ S1), ?(sd_ref _ _ S1), ?(sd_mx _ _ S1), ?En, ?Ed; try done.
      eapply trunks_ext; [|exact T1]. intros t ls _. apply Q1. }
    eapply runs_bind; [apply (free_spec s1 ts p H1 Hfl1); rewrite ?En, ?(sd_bt _ _ S1), ?(sd_ref _ _ S1); done|].
    intros _ s2 H2 S2 (ts2 & [G1 G2 G3 G4 G5]). assert (S02 : same_db s s2) by (by transitivity s1).
    eapply runs_mono; [apply (IH n s2 ts2 H2 G1 Hnd)|].
    + apply (links_ext (page_of s)); [|done]. intros q Hq. destruct (Hps q) as (R1 & R2 & R3 & R4); [by right|]. rewrite G4; [apply Q1|lia|done|congruence].
    + intros q Hq. destruct (Hps q) as (R1 & R2 & R3 & R4); [by right|]. rewrite G3, En, (sd_bt _ _ S02), (sd_ref _ _ S02). split; [done|]. split; [done|]. split; [done|].
      rewrite G2. intros [->|Hx]%elem_of_cons; [done|done].
    + intros _ s3 _ (ts3 & F1 & F2 & F3 & F4). exists ts3. split; [done|]. split; [rewrite F2, G2; cbn [app]; by rewrite Permutation_middle|].
      split; [congruence|]. intros q Hq1 Hq2 Hq3. apply not_elem_of_cons in Hq3 as [Hq3 Hq4]. rewrite F4; [rewrite G4; [apply Q1|done|done|done]|done| |done].
      rewrite G2. intros [->|Hx]%elem_of_cons; done.
Qed.

(** ** A cell on its page *)

(** A database, and a page of it that gets a cell with the payload [pX]. *)
Record fill_ready (s0 : Db) (ts0 : list (Z * list Z)) (pgno : Z) (P : MemPage) (f : Z) (pX : BtreePayload) (pCell : bytes) : Prop := {
  fr_db : db_ok s0;
  fr_list : freelist s0 ts0;
  fr_ref p : p ∈ referenced s0 -> p <= nPage s0;
  fr_pgno : 2 <= pgno /\ pgno ∈ referenced s0;
  fr_bt : pBt P = db_bt s0;
  fr_limits : limits_ok (pBt P);
  fr_kind : decodeFlags P f = (0, P);
  fr_payload : payload_ok P pX;
  fr_buffer : pageSize (pBt P) <= len pCell /\ bytes_ok pCell;
  fr_room : nPage s0 + 2 * (payload_length P pX / (usableSize (db_bt s0) - 4) + 1) <= mxPgno s0
}.

(** The page with the bytes [D] has [k] cells; the [ix]-th is at [pc]. *)
Record cell_on (P : MemPage) (c : bytes) (n : Z) (D : bytes) (k ix pc : Z) : Prop := {
  co_len : len D = pageSize (pBt P);
  co_bytes : bytes_ok D;
  co_ix : 0 <= cellOffset P + 2 * ix /\ ix < k;
  co_find : findCell (set_aData D P) ix = Some pc;
  co_ptr : cellOffset P + 2 * ix + 2 <= pc;
  co_end : pc + n <= usableSize (pBt P);
  co_cell : sub D pc n = take (Z.to_nat n) c
}.

(** The payload that is given, with zeros after it. *)
Definition given_payload (P : MemPage) (pX : BtreePayload) : bytes :=
  take (Z.to_nat (source_length P pX)) (payload_source P pX) ++ replicate (Z.to_nat (payload_length P pX - source_length P pX)) 0.

Definition cursor_on (pgno : Z) (P : MemPage) (k ix : Z) : BtCursor :=
  {| cur_pgno := pgno; cur_page := set_nCell k P; cur_ix := ix; cur_info := None; aOverflow := []; valid_ovfl := false |}.

Definition with_page (pgno : Z) (D : bytes) (s : Db) : Db := set_pages (<[pgno := D]> (pages s)) s.

Lemma given_payload_spec P pX : 0 <= source_length P pX <= len (payload_source P pX) -> source_length P pX <= payload_length P pX ->
  len (given_payload P pX) = payload_length P pX /\
  forall i, 0 <= i < payload_length P pX -> rd (given_payload P pX) i = given_byte (payload_source P pX) (source_length P pX) i.
Proof.
  intros H1 H2. unfold given_payload. assert (Hl : len (take (Z.to_nat (source_length P pX)) (payload_source P pX)) = source_length P pX) by (rewrite length_take; lia).
  split; [rewrite length_app, length_replicate; lia|]. intros i Hi. unfold given_byte, rd, ld. rewrite decide_True by lia. case_decide.
  - rewrite lookup_app_l by lia. rewrite lookup_take_lt by lia. by rewrite decide_True by lia.
  - rewrite lookup_app_r by lia. by rewrite lookup_replicate_2 by lia.
Qed.

Lemma payload_sizes P pX : payload_ok P pX -> 0 <= source_length P pX <= payload_length P pX.
Proof.
  intros [P1 P2 P3 P4 P5]. unfold payload_length, source_length in *. destruct (intKey P); [specialize (P4 eq_refl)|]; lia.
Qed.

(** The header of the cell is found wherever the page keeps it. *)
Lemma parse_at P pX h D pc : header_says P pX h -> bytes_ok D -> 0 <= pc -> 0 <= childPtrSize P -> pc + childPtrSize P + len h <= len D ->
  sub D (pc + childPtrSize P) (len h) = h ->
  parseCell_of (set_aData D P) (drop (Z.to_nat pc) D) = Some (parse_payload P (drop (Z.to_nat pc) D) (childPtrSize P + len h)
    (if intKey P then i64 (x_nKey pX) else payload_length P pX) (payload_length P pX)).
Proof.
  intros (H1 & H2 & H3) Hb Hpc Hcp Hl Hs. change (parseCell_of (set_aData D P)) with (parseCell_of P).
  apply (H3 _ (drop (Z.to_nat (pc + childPtrSize P + len h)) D)); [by apply Forall_drop|by apply Forall_drop|].
  unfold sub in Hs. rewrite drop_drop. replace (Z.to_nat pc + Z.to_nat (childPtrSize P))%nat with (Z.to_nat (pc + childPtrSize P)) by lia.
  rewrite <- (take_drop (Z.to_nat (len h)) (drop (Z.to_nat (pc + childPtrSize P)) D)), Hs, drop_drop. do 2 f_equal. lia.
Qed.

Section OnPage.
Context (s0 : Db) (ts0 : list (Z * list Z)) (pgno : Z) (P : MemPage) (f : Z) (pX : BtreePayload) (pCell : bytes).
Hypothesis HR : fill_ready s0 ts0 pgno P f pX pCell.
Context (c : bytes) (n : Z) (s : Db) (ps : list Z) (ts : list (Z * list Z)) (h : bytes).
Hypothesis HW : cell_written s0 ts0 P pX c n s ps ts h.
Context (D : bytes) (k ix pc : Z).
Hypothesis HC : cell_on P c n D k ix pc.

#[local] Abbreviation N := (payload_length P pX).
#[local] Abbreviation L := (cell_local P (payload_length P pX)).
#[local] Abbreviation aPay := (pc + (childPtrSize P + len h)).
#[local] Abbreviation bt := (db_bt s0).

Lemma on_page_facts : (4 < usableSize (pBt P) <= 65536 /\ 0 < minLocal P <= maxLocal P /\ maxLocal P <= usableSize (pBt P) - 35) /\ 0 <= childPtrSize P <= 4 /\
  1 <= len h <= 14 /\ 0 <= pc /\ 0 <= L <= N /\ N < 2147483648 /\ L <= maxLocal P /\
  n = nSize (parse_payload P c (childPtrSize P + len h) 0 N) /\ n <= len c /\
  (if decide (N <= maxLocal P) then L = N /\ n = 4 `max` (childPtrSize P + len h + N) else L < N /\ n = childPtrSize P + len h + L + 4).
Proof using HR HW HC.
  destruct (fr_payload _ _ _ _ _ _ _ HR) as [P1 P2 P3 P4 P5]. destruct (limits_of P f (fr_limits _ _ _ _ _ _ _ HR) (fr_kind _ _ _ _ _ _ _ HR) P1) as (M1 & M2 & M3 & M4 & M5).
  destruct (cw_header _ _ _ _ _ _ _ _ _ _ HW) as [(_ & Hh & _) _]. destruct (cw_size _ _ _ _ _ _ _ _ _ _ HW) as [Hn1 Hn2].
  pose proof (payload_sizes P pX (fr_payload _ _ _ _ _ _ _ HR)) as HN. destruct (co_ix _ _ _ _ _ _ _ HC) as [X1 X2]. pose proof (co_ptr _ _ _ _ _ _ _ HC) as X3.
  destruct (parse_payload_size P c (childPtrSize P + len h) 0 N) as (_ & _ & _ & _ & _ & _ & _ & _ & A9 & A10); [lia|lia|lia|lia|lia|].
  rewrite parse_payload_local in A10 by lia. rewrite Hn1 in Hn2 |- *. unfold cell_local in *. do 2 (split; [lia|]). split; [lia|]. split; [lia|].
  case_decide as HNm; [specialize (A9 HNm)|specialize (A10 ltac:(lia)); pose proof (local_bounds P N ltac:(lia) ltac:(lia) ltac:(lia)) as Hloc];
    (split; [lia|]); (split; [lia|]); (split; [lia|]); (split; [done|]); (split; [done|]); lia.
Qed.

Lemma cell_bytes j : 0 <= j < n -> rd D (pc + j) = rd c j.
Proof using HC HW HR.
  intros Hj. destruct on_page_facts as (_ & _ & _ & F3 & _ & _ & _ & _ & F8 & _). pose proof (co_cell _ _ _ _ _ _ _ HC) as Hs.
  assert (Hlc : len (take (Z.to_nat n) c) = n) by (rewrite length_take; lia). rewrite <- Hlc in Hs at 1.
  rewrite (rd_of_sub D pc _ j F3 Hs) by lia. unfold rd, ld. rewrite !decide_True by lia. by rewrite lookup_take_lt by lia.
Qed.

Lemma pgno_not_in : pgno ∉ ps /\ pgno ∉ free_pages ts.
Proof using HR HW.
  destruct (fr_pgno _ _ _ _ _ _ _ HR) as [_ Hr]. split.
  - intros Hp%(cw_ps _ _ _ _ _ _ _ _ _ _ HW). tauto.
  - intros Hp%(fl_range _ _ (cw_list _ _ _ _ _ _ _ _ _ _ HW)). rewrite (sd_ref _ _ (cw_same _ _ _ _ _ _ _ _ _ _ HW)) in Hp. tauto.
Qed.

Lemma page_with q : page_of (with_page pgno D s) q = set_at (page_of s) pgno D q.
Proof using Type. apply page_of_put. Qed.

Lemma with_page_ok : db_ok (with_page pgno D s).
Proof using HR HW HC.
  pose proof (cw_ok _ _ _ _ _ _ _ _ _ _ HW) as [O1 O2 O3 O4 O5 O6]. pose proof (fr_bt _ _ _ _ _ _ _ HR) as Hbt.
  split; try done; intros q; rewrite page_with; unfold set_at; case_decide; try done; [|apply (co_bytes _ _ _ _ _ _ _ HC)].
  rewrite (co_len _ _ _ _ _ _ _ HC), Hbt. change (db_bt (with_page pgno D s)) with (db_bt s). by rewrite (sd_bt _ _ (cw_same _ _ _ _ _ _ _ _ _ _ HW)).
Qed.

Lemma with_page_chained : chained bt pgno aPay L ps (with_page pgno D s).
Proof using HR HW HC.
  pose proof on_page_facts as (F0 & F1 & F2 & F3 & F4 & F5 & F6 & F7 & F8 & F9). destruct pgno_not_in as [G1 G2].
  destruct (fl_sizes _ _ (cw_list _ _ _ _ _ _ _ _ _ _ HW)) as [Z1 Z2]. destruct (fr_pgno _ _ _ _ _ _ _ HR) as [R1 R2]. pose proof (fr_ref _ _ _ _ _ _ _ HR pgno R2) as R3.
  pose proof (cw_n _ _ _ _ _ _ _ _ _ _ HW) as Hn. split.
  - exact with_page_ok.
  - apply (sd_bt _ _ (cw_same _ _ _ _ _ _ _ _ _ _ HW)).
  - change (nPage s <= dbSize s). lia.
  - change (1 <= pgno <= nPage s). lia.
  - intros p Hp. change (2 <= p <= nPage s /\ p <> PENDING_BYTE_PAGE bt). by destruct (cw_ps _ _ _ _ _ _ _ _ _ _ HW p Hp) as (Q1 & Q2 & _).
  - intros Hps. apply (links_ext (page_of s)).
    + intros p Hp. rewrite page_with, set_at_ne; [done|congruence].
    + rewrite page_with, set_at_eq. case_decide as HNm.
      * exfalso. pose proof (cw_length _ _ _ _ _ _ _ _ _ _ HW) as Hlen. pose proof (do_usable _ (fr_db _ _ _ _ _ _ _ HR)). destruct F9 as [F9 _]. rewrite F9 in Hlen.
        rewrite Z.div_small in Hlen by lia. by destruct ps.
      * replace (rd4 D (aPay + L)) with (rd4 c (childPtrSize P + len h + L)); [by apply (cw_links _ _ _ _ _ _ _ _ _ _ HW)|].
        apply rd4_ext. intros j Hj. rewrite <- cell_bytes by lia. f_equal. lia.
Qed.

Lemma array_conditions : NoDup ps /\ pgno ∉ ps /\ Z.of_nat (length ps) = (N - L + (usableSize bt - 4) - 1) / (usableSize bt - 4) /\
  (0 <= L <= N /\ N < 2147483648) /\ (1 <= aPay /\ aPay + L <= usableSize bt /\ (L < N -> aPay + L + 4 <= usableSize bt)) /\
  (480 <= usableSize bt <= pageSize bt /\ pageSize bt <= 65536).
Proof using HR HW HC.
  pose proof on_page_facts as (F0 & F1 & F2 & F3 & F4 & F5 & F6 & F7 & F8 & F9). pose proof (co_end _ _ _ _ _ _ _ HC) as He. rewrite (fr_bt _ _ _ _ _ _ _ HR) in He.
  split; [apply (cw_nodup _ _ _ _ _ _ _ _ _ _ HW)|]. split; [apply pgno_not_in|]. split; [apply (cw_length _ _ _ _ _ _ _ _ _ _ HW)|]. split; [lia|].
  split; [case_decide; lia|]. destruct (fr_db _ _ _ _ _ _ _ HR). done.
Qed.

Lemma with_page_payload i : 0 <= i < N -> pay bt pgno aPay L ps (with_page pgno D s) i = rd (given_payload P pX) i.
Proof using HR HW HC.
  intros Hi. pose proof (payload_sizes P pX (fr_payload _ _ _ _ _ _ _ HR)) as HN. destruct (given_payload_spec P pX) as [_ Hg]; [apply (fr_payload _ _ _ _ _ _ _ HR)|lia|].
  rewrite Hg by done. rewrite <- (cw_payload _ _ _ _ _ _ _ _ _ _ HW i Hi). unfold pay, home, payload_byte. case_decide as HiL; cbn [fst snd].
  - pose proof on_page_facts as (F0 & F1 & F2 & F3 & F4 & F5 & F6 & F7 & F8 & F9). rewrite page_with, set_at_eq. rewrite <- cell_bytes by (case_decide; lia). f_equal. lia.
  - rewrite page_with, set_at_ne; [done|]. destruct array_conditions as (A1 & A2 & A3 & A4 & A5 & A6). destruct (on_chain bt L N ps A3 A6 i) as (_ & Hin & _); [lia|]. congruence.
Qed.

(** The cell as its header tells, on a page on which only the payload may have changed. *)
Lemma info_on (D' : bytes) : length D' = length D -> bytes_ok D' -> (forall j, 0 <= j -> ~ (aPay <= j < aPay + L) -> rd D' j = rd D j) ->
  exists info, findCell (set_aData D' P) ix = Some pc /\ btreeParseCell (set_aData D' P) ix = Some info /\ info_for bt aPay L N info /\ nSize info = n.
Proof using HR HW HC.
  intros Hl Hb Hs. pose proof on_page_facts as (F0 & F1 & F2 & F3 & F4 & F5 & F6 & F7 & F8 & F9). destruct array_conditions as (A1 & A2 & A3 & A4 & A5 & A6).
  pose proof (co_len _ _ _ _ _ _ _ HC) as HlD. rewrite (fr_bt _ _ _ _ _ _ _ HR) in HlD. destruct (co_ix _ _ _ _ _ _ _ HC) as [X1 X2]. pose proof (co_ptr _ _ _ _ _ _ _ HC) as X3.
  assert (Hf : findCell (set_aData D' P) ix = Some pc).
  { rewrite <- (co_find _ _ _ _ _ _ _ HC). unfold findCell. cbn [aData set_aData cellOffset]. change (cellOffset (set_aData D' P)) with (cellOffset P). change (cellOffset (set_aData D P)) with (cellOffset P).
    unfold get2byte. rewrite !ld_rd by lia. cbn [mbind option_bind]. rewrite !Hs by lia. done. }
  assert (Hh : sub D' (pc + childPtrSize P) (len h) = h).
  { destruct (cw_header _ _ _ _ _ _ _ _ _ _ HW) as [_ Hh]. apply sub_is; [lia|lia|]. intros j Hj. rewrite Hs by lia. replace (pc + childPtrSize P + j) with (pc + (childPtrSize P + j)) by lia.
    rewrite cell_bytes by (case_decide; lia). exact (rd_of_sub c (childPtrSize P) h j ltac:(lia) Hh Hj). }
  destruct (cw_header _ _ _ _ _ _ _ _ _ _ HW) as [Hsay _]. pose proof (parse_at P pX h D' pc Hsay Hb F3 (proj1 F1) ltac:(lia) Hh) as Hp.
  destruct (parse_payload_size P (drop (Z.to_nat pc) D') (childPtrSize P + len h) (if intKey P then i64 (x_nKey pX) else N) N) as (B1 & _ & _ & _ & B5 & _ & B7 & _);
    [lia|lia|lia|lia|lia|]. destruct (parse_payload_size P c (childPtrSize P + len h) 0 N) as (C1 & _); [lia|lia|lia|lia|lia|].
  eexists. split; [exact Hf|]. split; [unfold btreeParseCell; rewrite Hf; exact Hp|]. split; [|congruence]. split; [done|]. split; [apply parse_payload_local; lia|].
  eexists. split; [exact B7|]. rewrite !length_drop. lia.
Qed.

Lemma cursor_at_cell : at_cell bt pgno aPay L N ps (cursor_on pgno P k ix) (with_page pgno D s).
Proof using HR HW HC.
  destruct (info_on D eq_refl (co_bytes _ _ _ _ _ _ _ HC)) as (info & _ & H2 & H3 & _); [done|]. split; [done|apply (co_ix _ _ _ _ _ _ _ HC)| |done].
  exists info. split; [done|]. cbn [cur_info cursor_on cur_page cur_ix]. by rewrite page_with, set_at_eq.
Qed.

Lemma accesses_spec l : Forall (access_in N) l -> exists s', serve_accesses l (cursor_on pgno P k ix) (with_page pgno D s) = Some ((array_accesses l (given_payload P pX)).1, s') /\
  kept_pages bt pgno aPay L ps (with_page pgno D s) s'.
Proof using HR HW HC.
  intros Hl. destruct array_conditions as (A1 & A2 & A3 & A4 & A5 & A6). pose proof (payload_sizes P pX (fr_payload _ _ _ _ _ _ _ HR)) as HN.
  destruct (given_payload_spec P pX) as [Hg _]; [apply (fr_payload _ _ _ _ _ _ _ HR)|lia|].
  destruct (array_spec bt pgno aPay L N ps A1 A2 A3 A4 A5 A6 l (cursor_on pgno P k ix) (with_page pgno D s) (given_payload P pX) with_page_chained cursor_at_cell Hg with_page_payload Hl)
    as (s' & E & K & _). by exists s'.
Qed.

(** The free list is the one the cell was written with. *)
Lemma kept_freelist s' : kept_pages bt pgno aPay L ps (with_page pgno D s) s' -> freelist s' ts /\ same_db s s' /\ nPage s' = nPage s.
Proof using HR HW HC.
  intros [K1 K2 K3 K4 K5]. destruct pgno_not_in as [G1 G2]. pose proof K1 as [C1 C2 C3 C4 C5 C6]. destruct (sizes_same _ _ K3) as [En Ed].
  assert (Ppg : forall q, q <> pgno -> q ∉ ps -> page_of s' q = page_of s q) by (intros q H1 H2; by rewrite K4, page_with, set_at_ne).
  assert (Es : same_db s s') by (destruct K2 as [E1 E2 E3]; split; [exact E1|exact E2|exact E3]). split; [|done].
  destruct (cw_list _ _ _ _ _ _ _ _ _ _ HW) as [T1 T2 T3 T4 T5]. assert (page_of s' 1 = page_of s 1) as P1.
  { apply Ppg; [destruct (fr_pgno _ _ _ _ _ _ _ HR); lia|]. intros Hp%C5. lia. }
  split; rewrite ?P1, ?(sd_bt _ _ Es), ?(sd_ref _ _ Es), ?(sd_mx _ _ Es), ?En, ?Ed; try done.
  eapply trunks_ext; [|exact T1]. intros t ls Ht%trunk_free. apply Ppg; [congruence|]. intros Hp%(cw_ps _ _ _ _ _ _ _ _ _ _ HW). tauto.
Qed.

(** The pages that were free, or not there, before the cell was written. *)
Lemma clear_spec s' : kept_pages bt pgno aPay L ps (with_page pgno D s) s' ->
  runs (BTREE_CLEAR_CELL (set_aData (page_of s' pgno) P) pc) s' (fun _ s2 => exists ts2, freelist s2 ts2 /\ nPage s2 = nPage s /\
    forall p, 2 <= p <= nPage s2 -> p <> PENDING_BYTE_PAGE bt -> p ∈ free_pages ts2 <-> p ∈ free_pages ts0 \/ nPage s0 < p).
Proof using HR HW HC.
  intros K. destruct (kept_freelist s' K) as (Hfl & Es & En). destruct K as [[C1 C2 C3 C4 C5 C6] K2 K3 K4 K5].
  pose proof on_page_facts as (F0 & F1 & F2 & F3 & F4 & F5 & F6 & F7 & F8 & F9). destruct array_conditions as (A1 & A2 & A3 & A4 & A5 & A6).
  destruct (info_on (page_of s' pgno)) as (info & Hf & Hp & (I1 & I2 & _) & I3).
  { apply Nat2Z.inj. by rewrite (do_len _ C1), C2, (co_len _ _ _ _ _ _ _ HC), (fr_bt _ _ _ _ _ _ _ HR). }
  { apply (do_bytes _ C1). }
  { intros j H1 H2. by rewrite K5, page_with, set_at_eq. }
  unfold btreeParseCell in Hp. rewrite Hf in Hp. unfold BTREE_CLEAR_CELL. eapply runs_lift; [exact Hp|]. rewrite I1, I2.
  assert (Hall : forall p l, 2 <= p <= nPage s -> p <> PENDING_BYTE_PAGE bt -> l ≡ₚ ps ++ free_pages ts -> p ∈ l <-> p ∈ free_pages ts0 \/ nPage s0 < p).
  { intros p l Hp1 Hp2 Hl. rewrite Hl, elem_of_app. split.
    + intros [Hq|Hq]; [|left; by apply (cw_free _ _ _ _ _ _ _ _ _ _ HW)]. by destruct (cw_ps _ _ _ _ _ _ _ _ _ _ HW p Hq) as (_ & _ & _ & _ & Q5).
    + intros Hq. destruct (cw_all _ _ _ _ _ _ _ _ _ _ HW p) as [?|?]; [|done|by right|by left]. destruct Hq; [by left|right; lia]. }
  destruct (decide (L <> N)) as [HLN|HLN].
  2: { apply runs_ret; [done|]. exists ts. split; [done|]. split; [done|]. intros p Hp1 Hp2. apply Hall; [lia|done|].
       assert (ps = []) as ->; [|done]. rewrite Z.div_small in A3 by lia. by destruct ps. }
  case_decide as HNm; [lia|]. destruct F9 as [_ F9].
  assert (Hps : ps <> []).
  { intros E. rewrite E in A3. cbn in A3. assert (1 <= (N - L + (usableSize bt - 4) - 1) / (usableSize bt - 4)) by (apply Z.div_le_lower_bound; lia). lia. }
  unfold clearCellOverflow. apply runs_require; [lia|]. change (aData (set_aData (page_of s' pgno) P)) with (page_of s' pgno). rewrite I3, (do_len _ C1), C2.
  change (pBt (set_aData (page_of s' pgno) P)) with (pBt P). rewrite (fr_bt _ _ _ _ _ _ _ HR). pose proof (co_end _ _ _ _ _ _ _ HC) as He. rewrite (fr_bt _ _ _ _ _ _ _ HR) in He. rewrite decide_False by lia.
  eapply runs_lift; [apply get4byte_rd4; [apply (do_bytes _ C1)|lia|rewrite (do_len _ C1), C2; lia]|].
  rewrite I1, I2. rewrite (chain_number bt pgno aPay L N ps) by done. rewrite Nat2Z.id. replace (pc + n - 4) with (aPay + L) by lia.
  pose proof (cw_same _ _ _ _ _ _ _ _ _ _ HW) as S0. eapply runs_mono; [apply (clear_loop_spec ps _ s' ts C1 Hfl A1 (C6 Hps))|].
  - intros p Hq. destruct (cw_ps _ _ _ _ _ _ _ _ _ _ HW p Hq) as (Q1 & Q2 & Q3 & Q4 & _). rewrite En, C2, (sd_ref _ _ Es), (sd_ref _ _ S0). done.
  - intros _ s2 _ (ts2 & T1 & T2 & T3 & _). exists ts2. split; [done|]. rewrite T3, En. split; [done|]. intros p Hp1 Hp2. by apply Hall.
Qed.

End OnPage.

(** C20: A payload of any size is an array of bytes: after [fillInCell] has written a cell with its chain of overflow pages
    and the cell is on its page, any sequence of reads and writes by [accessPayload], of any parts, gives what an array
    with the given payload (and zeros at its end) would give; no call fails, and what the cursor remembers of the chain
    never leads it to other bytes. *)
Theorem payload_is_byte_array s0 ts0 pgno P f pX pCell : fill_ready s0 ts0 pgno P f pX pCell ->
  exists c n s, fillInCell P pCell pX s0 = Some (Ok (c, n), s) /\ forall D k ix pc l, cell_on P c n D k ix pc -> Forall (access_in (payload_length P pX)) l ->
    exists s', serve_accesses l (cursor_on pgno P k ix) (with_page pgno D s) = Some ((array_accesses l (given_payload P pX)).1, s').
Proof.
  intros HR. pose proof HR as [R1 R2 R3 R4 R5 R6 R7 R8 R9 R10].
  destruct (fillInCell_spec s0 ts0 P f pX pCell R1 R2 R3 R5 R6 R7 R8 R9 R10) as ([c n] & s & E & _ & _ & ps & ts & h & HW).
  exists c, n, s. split; [done|]. intros D k ix pc l HC Hl.
  destruct (accesses_spec s0 ts0 pgno P f pX pCell HR c n s ps ts h HW D k ix pc HC l Hl) as (s' & Es & _). by exists s'.
Qed.

(** C23: No page is lost with a payload: after a cell was written, put on its page and read and overwritten in any way,
    [BTREE_CLEAR_CELL] succeeds, and the free pages are then those that were free before the cell was written, and
    those the file got for it. *)
Theorem overflow_pages_given_back s0 ts0 pgno P f pX pCell : fill_ready s0 ts0 pgno P f pX pCell ->
  exists c n s, fillInCell P pCell pX s0 = Some (Ok (c, n), s) /\ forall D k ix pc l, cell_on P c n D k ix pc -> Forall (access_in (payload_length P pX)) l ->
    exists rs s1 s2 ts2, serve_accesses l (cursor_on pgno P k ix) (with_page pgno D s) = Some (rs, s1) /\
      BTREE_CLEAR_CELL (set_aData (page_of s1 pgno) P) pc s1 = Some (Ok tt, s2) /\ freelist s2 ts2 /\
      forall p, 2 <= p <= nPage s2 -> p <> PENDING_BYTE_PAGE (db_bt s0) -> p ∈ free_pages ts2 <-> p ∈ free_pages ts0 \/ nPage s0 < p.
Proof.
  intros HR. pose proof HR as [R1 R2 R3 R4 R5 R6 R7 R8 R9 R10].
  destruct (fillInCell_spec s0 ts0 P f pX pCell R1 R2 R3 R5 R6 R7 R8 R9 R10) as ([c n] & s & E & _ & _ & ps & ts & h & HW).
  exists c, n, s. split; [done|]. intros D k ix pc l HC Hl.
  destruct (accesses_spec s0 ts0 pgno P f pX pCell HR c n s ps ts h HW D k ix pc HC l Hl) as (s1 & Es & K).
  destruct (clear_spec s0 ts0 pgno P f pX pCell HR c n s ps ts h HW D k ix pc HC s1 K) as ([] & s2 & E2 & _ & _ & ts2 & F1 & _ & F2).
  by exists (array_accesses l (given_payload P pX)).1, s1, s2, ts2.
Qed.

(** ** An example *)

(** A database of three pages of 512 bytes: the second one is the page of a table, the third one is free. *)
Definition small_db : Db :=
  {| db_bt := lockBtree 512 512 0; nPage := 3; pages := {[1 := replicate 35 0 ++ [3; 0; 0; 0; 1] ++ replicate 472 0]}; cache := {[1; 2]}; referenced := {[1; 2]}; inited := {[2]};
     dbSize := 3; mxPgno := 0xfffffffe; pHasContent := None; answers := [] |}.

Definition blank_memory : MemPage :=
  {| pBt := lockBtree 512 512 0; aData := replicate 512 0; hdrOffset := 0; isInit := false; leaf := false; intKey := false; intKeyLeaf := false;
     childPtrSize := 0; max1bytePayload := 0; maxLocal := 0; minLocal := 0; xCellSize := cellSizePtr; xParseCell := btreeParseCellPtr;
     cellOffset := 0; maskPage := 0; nFree := 0; nCell := 0; apOvfl := [] |}.

Definition table_leaf : MemPage := default blank_memory (zeroPage blank_memory 13).

(** 1200 bytes, the last 100 of them zeros, for the row 7. *)
Definition long_row : BtreePayload := {| x_pKey := []; x_nKey := 7; x_pData := u8 <$> seqZ 0 1100; x_nData := 1100; x_nZero := 100 |}.

Definition scratch_space : bytes := replicate 512 0.

Definition long_cell : bytes * Z :=
  match fillInCell table_leaf scratch_space long_row small_db with Some (Ok x, _) => x | _ => ([], 0) end.

Definition page_with_row : bytes :=
  match insertCellFast table_leaf 0 (take (Z.to_nat long_cell.2) long_cell.1) long_cell.2 0 with Some (_, P) => aData P | None => [] end.

Lemma small_db_ready : fill_ready small_db [(3, [])] 2 table_leaf 13 long_row scratch_space.
Proof.
  assert (Hp : forall q, page_of small_db q = (if decide (q = 1) then replicate 35 0 ++ [3; 0; 0; 0; 1] ++ replicate 472 0 else replicate 512 0)).
  { intros q. unfold page_of, small_db, zeros. cbn [pages]. case_decide as Hq; [subst; by rewrite lookup_singleton_eq|by rewrite lookup_singleton_ne]. }
  assert (Hdb : db_ok small_db).
  { split; [cbn; lia|cbn; lia|intros q; rewrite Hp; by case_decide|intros q; rewrite Hp|cbn; lia|done].
    case_decide; apply (bool_decide_unpack _); vm_compute; exact I. }
  split; [done| | | |done|exists 512, 512, 0; split; [done|lia]|vm_compute; reflexivity| |split; [vm_compute; intros Hx; discriminate Hx|apply (bool_decide_unpack _); vm_compute; exact I]|vm_compute; intros Hx; discriminate Hx].
  - split; rewrite ?Hp; [vm_compute; repeat split; try done; intros i x Hx; discriminate Hx|by vm_compute|apply NoDup_singleton| |cbn; lia].
    intros p Hin. apply list_elem_of_singleton in Hin as ->. split; [cbn; lia|]. split; [vm_compute; discriminate|]. apply (bool_decide_unpack (3 ∉ ({[1; 2]} : gset Z))). vm_compute. exact I.
  - intros p Hin. change (p ∈ ({[1; 2]} : gset Z)) in Hin. change (p <= 3). apply elem_of_union in Hin as [Hin|Hin]; apply elem_of_singleton in Hin; lia.
  - split; [lia|]. apply (bool_decide_unpack (2 ∈ ({[1; 2]} : gset Z))). vm_compute. exact I.
  - split; [done| |vm_compute; split; intros Hx; discriminate Hx|intros _; cbn; lia|vm_compute; reflexivity].
    apply (bool_decide_unpack _). vm_compute. exact I.
Qed.

Lemma row_on_page c n s : fillInCell table_leaf scratch_space long_row small_db = Some (Ok (c, n), s) -> cell_on table_leaf c n page_with_row 1 0 (512 - n).
Proof.
  intros E. assert (Hc : long_cell = (c, n)) by (unfold long_cell; rewrite E; reflexivity).
  assert (En : n = long_cell.2) by (rewrite Hc; reflexivity). assert (Ec : c = long_cell.1) by (rewrite Hc; reflexivity). clear E Hc. subst c n.
  split; try (vm_compute; reflexivity); try (vm_compute; intros Hx; discriminate Hx).
  - apply (bool_decide_unpack _). vm_compute. exact I.
  - vm_compute. split; [intros Hx; discriminate Hx|reflexivity].
Qed.

Definition some_accesses : list access := [ReadAt 1098 4; WriteAt 170 [1; 2; 3]; ReadAt 168 6; ReadAt 690 2; WriteAt 1198 [9; 8]; ReadAt 1196 4].

Lemma some_accesses_in : Forall (access_in (payload_length table_leaf long_row)) some_accesses.
Proof.
  assert (E : payload_length table_leaf long_row = 1200) by (vm_compute; reflexivity). rewrite E. unfold some_accesses, bytes_ok.
  repeat (apply Forall_cons; split; [cbn [access_in length]; repeat split; try lia; try (apply (bool_decide_unpack _); vm_compute; exact I)|]). by apply Forall_nil.
Qed.

Lemma payload_is_byte_array_witness : fill_ready small_db [(3, [])] 2 table_leaf 13 long_row scratch_space /\
  exists c n s s', fillInCell table_leaf scratch_space long_row small_db = Some (Ok (c, n), s) /\
    serve_accesses some_accesses (cursor_on 2 table_leaf 1 0) (with_page 2 page_with_row s) =
      Some ([(0, [74; 75; 0; 0]); (0, []); (0, [168; 169; 1; 2; 3; 173]); (0, [178; 179]); (0, []); (0, [0; 0; 9; 8])], s').
Proof.
  split; [exact small_db_ready|]. destruct (payload_is_byte_array small_db [(3, [])] 2 table_leaf 13 long_row scratch_space small_db_ready) as (c & n & s & E & H).
  destruct (H page_with_row 1 0 (512 - n) some_accesses (row_on_page c n s E) some_accesses_in) as [s' Es].
  exists c, n, s, s'. split; [exact E|]. rewrite Es. f_equal.
Defined.

Lemma overflow_pages_given_back_witness : fill_ready small_db [(3, [])] 2 table_leaf 13 long_row scratch_space /\
  exists c n s rs s1 s2 ts2, fillInCell table_leaf scratch_space long_row small_db = Some (Ok (c, n), s) /\
    serve_accesses some_accesses (cursor_on 2 table_leaf 1 0) (with_page 2 page_with_row s) = Some (rs, s1) /\
    BTREE_CLEAR_CELL (set_aData (page_of s1 2) table_leaf) (512 - n) s1 = Some (Ok tt, s2) /\ freelist s2 ts2 /\
    forall p, 2 <= p <= nPage s2 -> p <> PENDING_BYTE_PAGE (db_bt small_db) -> p ∈ free_pages ts2 <-> p ∈ [3] \/ 3 < p.
Proof.
  split; [exact small_db_ready|]. destruct (overflow_pages_given_back small_db [(3, [])] 2 table_leaf 13 long_row scratch_space small_db_ready) as (c & n & s & E & H).
  destruct (H page_with_row 1 0 (512 - n) some_accesses (row_on_page c n s E) some_accesses_in) as (rs & s1 & s2 & ts2 & E1 & E2 & F1 & F2).
  exists c, n, s, rs, s1, s2, ts2. split; [exact E|]. split; [exact E1|]. split; [exact E2|]. split; [exact F1|exact F2].
Defined.
