(* ===== verification/SqlCursor.v ===== *)
(** * Cursors on tables

    [sqlite/sqlite3.c] (btree.c): a cursor walks the B-tree of a table.  It keeps the path from the root to its
    page, what it knows of its cell, and flags; it moves to the first or the last row, to the next or the
    previous one, or to the row with a rowid; its position can be saved, and found again in a tree that has changed.

    A routine is a function of the cursor, the database and the memory of the pages ([MemPage]).  A pointer to
    a page is its number.  Cursors on indexes, whose keys are records, are followed where the routines
    are shared, but are not searched or saved.  The faults that tests inject ([sqlite3FaultSim]) do not happen. *)

From S2P Require Import Prelude Bits SqlVarint SqlBytes SqlCell SqlPage SqlFreelist SqlOverflow.

(** ** The cursor *)

Inductive cursor_state := CURSOR_VALID | CURSOR_INVALID | CURSOR_SKIPNEXT | CURSOR_REQUIRESEEK | CURSOR_FAULT.

#[export] Instance cursor_state_dec : EqDecision cursor_state.
Proof. solve_decision. Defined.

Definition SQLITE_EMPTY : Z := 16.
Definition SQLITE_DONE : Z := 101.
Definition SQLITE_CONSTRAINT_PINNED : Z := 2835.
Definition BTCURSOR_MAX_DEPTH : nat := 20.

Record Cursor := {
  eState : cursor_state;
  skipNext : Z;
  pinned : bool;                (* [BTCF_Pinned] *)
  atLast : bool;                (* [BTCF_AtLast] *)
  validNKey : bool;             (* [BTCF_ValidNKey] *)
  validOvfl : bool;             (* [BTCF_ValidOvfl] *)
  pgnoRoot : Z;
  pKeyInfo : bool;              (* whether it is set *)
  curIntKey : bool;
  pPage : option Z;             (* [None] when [iPage] is -1 *)
  apPage : list (Z * Z);        (* [apPage] with [aiIdx], the parent of the page first; [iPage] is the length *)
  c_ix : Z;
  c_info : option CellInfo;     (* [None] when [info.nSize] is 0 *)
  info_nKey : Z;                (* [info.nKey] *)
  c_nKey : Z;                   (* [nKey], the saved one *)
  c_aOverflow : list (option Z)
}.

Definition set_eState (e : cursor_state) (c : Cursor) : Cursor :=
  {| eState := e; skipNext := skipNext c; pinned := pinned c; atLast := atLast c; validNKey := validNKey c; validOvfl := validOvfl c;
     pgnoRoot := pgnoRoot c; pKeyInfo := pKeyInfo c; curIntKey := curIntKey c; pPage := pPage c; apPage := apPage c; c_ix := c_ix c;
     c_info := c_info c; info_nKey := info_nKey c; c_nKey := c_nKey c; c_aOverflow := c_aOverflow c |}.
Definition set_skipNext (n : Z) (c : Cursor) : Cursor :=
  {| eState := eState c; skipNext := n; pinned := pinned c; atLast := atLast c; validNKey := validNKey c; validOvfl := validOvfl c;
     pgnoRoot := pgnoRoot c; pKeyInfo := pKeyInfo c; curIntKey := curIntKey c; pPage := pPage c; apPage := apPage c; c_ix := c_ix c;
     c_info := c_info c; info_nKey := info_nKey c; c_nKey := c_nKey c; c_aOverflow := c_aOverflow c |}.
(** The flags in the order [AtLast], [ValidNKey], [ValidOvfl]. *)
Definition set_flags (l k o : bool) (c : Cursor) : Cursor :=
  {| eState := eState c; skipNext := skipNext c; pinned := pinned c; atLast := l; validNKey := k; validOvfl := o;
     pgnoRoot := pgnoRoot c; pKeyInfo := pKeyInfo c; curIntKey := curIntKey c; pPage := pPage c; apPage := apPage c; c_ix := c_ix c;
     c_info := c_info c; info_nKey := info_nKey c; c_nKey := c_nKey c; c_aOverflow := c_aOverflow c |}.
Definition set_curIntKey (b : bool) (c : Cursor) : Cursor :=
  {| eState := eState c; skipNext := skipNext c; pinned := pinned c; atLast := atLast c; validNKey := validNKey c; validOvfl := validOvfl c;
     pgnoRoot := pgnoRoot c; pKeyInfo := pKeyInfo c; curIntKey := b; pPage := pPage c; apPage := apPage c; c_ix := c_ix c;
     c_info := c_info c; info_nKey := info_nKey c; c_nKey := c_nKey c; c_aOverflow := c_aOverflow c |}.
(** The path, the page and the index of the cell. *)
Definition set_place (path : list (Z * Z)) (p : option Z) (ix : Z) (c : Cursor) : Cursor :=
  {| eState := eState c; skipNext := skipNext c; pinned := pinned c; atLast := atLast c; validNKey := validNKey c; validOvfl := validOvfl c;
     pgnoRoot := pgnoRoot c; pKeyInfo := pKeyInfo c; curIntKey := curIntKey c; pPage := p; apPage := path; c_ix := ix;
     c_info := c_info c; info_nKey := info_nKey c; c_nKey := c_nKey c; c_aOverflow := c_aOverflow c |}.
Definition set_info (i : option CellInfo) (k : Z) (c : Cursor) : Cursor :=
  {| eState := eState c; skipNext := skipNext c; pinned := pinned c; atLast := atLast c; validNKey := validNKey c; validOvfl := validOvfl c;
     pgnoRoot := pgnoRoot c; pKeyInfo := pKeyInfo c; curIntKey := curIntKey c; pPage := pPage c; apPage := apPage c; c_ix := c_ix c;
     c_info := i; info_nKey := k; c_nKey := c_nKey c; c_aOverflow := c_aOverflow c |}.
Definition set_nKey (k : Z) (c : Cursor) : Cursor :=
  {| eState := eState c; skipNext := skipNext c; pinned := pinned c; atLast := atLast c; validNKey := validNKey c; validOvfl := validOvfl c;
     pgnoRoot := pgnoRoot c; pKeyInfo := pKeyInfo c; curIntKey := curIntKey c; pPage := pPage c; apPage := apPage c; c_ix := c_ix c;
     c_info := c_info c; info_nKey := info_nKey c; c_nKey := k; c_aOverflow := c_aOverflow c |}.
Definition set_aOverflow (l : list (option Z)) (c : Cursor) : Cursor :=
  {| eState := eState c; skipNext := skipNext c; pinned := pinned c; atLast := atLast c; validNKey := validNKey c; validOvfl := validOvfl c;
     pgnoRoot := pgnoRoot c; pKeyInfo := pKeyInfo c; curIntKey := curIntKey c; pPage := pPage c; apPage := apPage c; c_ix := c_ix c;
     c_info := c_info c; info_nKey := info_nKey c; c_nKey := c_nKey c; c_aOverflow := l |}.

Definition set_ix (i : Z) (c : Cursor) : Cursor := set_place (apPage c) (pPage c) i c.
Definition clear_size (c : Cursor) : Cursor := set_info None (info_nKey c) c.

(** [info.nSize = 0] and [curFlags &= ~(BTCF_ValidNKey|BTCF_ValidOvfl)]. *)
Definition forget (c : Cursor) : Cursor := clear_size (set_flags (atLast c) false false c).

(** ** Routines *)

Record State := {
  st_db : Db;
  st_mem : gmap Z MemPage;      (* what the pager keeps with each page it holds *)
  st_cellck : bool;             (* the flag [SQLITE_CellSizeCk] of the connection *)
  st_cur : Cursor
}.

Definition set_cur (c : Cursor) (s : State) : State := {| st_db := st_db s; st_mem := st_mem s; st_cellck := st_cellck s; st_cur := c |}.
Definition set_mem (m : gmap Z MemPage) (s : State) : State := {| st_db := st_db s; st_mem := m; st_cellck := st_cellck s; st_cur := st_cur s |}.
Definition set_db (d : Db) (s : State) : State := {| st_db := d; st_mem := st_mem s; st_cellck := st_cellck s; st_cur := st_cur s |}.

(** A routine returns its code, or its code with what it stores; [None] is an access outside a buffer or a broken
    assert. *)
Definition act (A : Type) : Type := State -> option (A * State).

#[export] Instance act_ret : MRet act := fun A a s => Some (a, s).
#[export] Instance act_bind : MBind act := fun A B f m s => match m s with None => None | Some (a, s) => f a s end.

Definition look {A} (f : State -> A) : act A := fun s => Some (f s, s).
Definition change (f : Cursor -> Cursor) : act unit := fun s => Some (tt, set_cur (f (st_cur s)) s).
Definition try {A} (o : option A) : act A := fun s => a ← o; Some (a, s).
Definition assert (P : Cursor -> Prop) `{forall c, Decision (P c)} : act unit := fun s => if decide (P (st_cur s)) then Some (tt, s) else None.

(** ** Pages *)

(** The memory of a page that the pager has just read: zeros, but for what [btreePageFromDbPage] sets. *)
Definition fresh_page (bt : BtShared) (pgno : Z) : MemPage :=
  {| pBt := bt; aData := []; hdrOffset := if decide (pgno = 1) then 100 else 0; isInit := false; leaf := false; intKey := false;
     intKeyLeaf := false; childPtrSize := 0; max1bytePayload := 0; maxLocal := 0; minLocal := 0; xCellSize := cellSizePtr;
     xParseCell := btreeParseCellPtr; cellOffset := 0; maskPage := 0; nFree := 0; nCell := 0; apOvfl := [] |}.

(** The page with its bytes, which are those of the database. *)
Definition btreePageFromDbPage (pgno : Z) (s : State) : MemPage :=
  set_aData (page_of (st_db s) pgno) (default (fresh_page (db_bt (st_db s)) pgno) (st_mem s !! pgno)).

(** A page the pager did not hold comes with fresh memory. *)
Definition pager_get (pgno : Z) : act Z := fun s =>
  '(r, d) ← sqlite3PagerGet pgno false (st_db s);
  let m := if bool_decide (pgno ∈ cache (st_db s)) then st_mem s else delete pgno (st_mem s) in
  Some (match r with Ok _ => SQLITE_OK | Err rc => rc end, set_mem m (set_db d s)).

Definition set_page (pgno : Z) (P : MemPage) : act unit := fun s => Some (tt, set_mem (<[pgno := P]> (st_mem s)) s).

Definition getAndInitPage (pgno : Z) : act Z :=
  n ← look (fun s => nPage (st_db s));
  if decide (n < pgno) then mret SQLITE_CORRUPT
  else
    rc ← pager_get pgno;
    if decide (rc <> SQLITE_OK) then mret rc
    else
      P ← look (btreePageFromDbPage pgno);
      if isInit P then mret SQLITE_OK
      else
        ck ← look st_cellck;
        '(rc, P) ← try (btreeInitPage ck P);
        _ ← set_page pgno P;
        mret rc.

(** The page of the cursor. *)
Definition page : act MemPage := fun s => pgno ← pPage (st_cur s); Some (btreePageFromDbPage pgno s, s).

(** The child before the cell [i], and the one after all cells. *)
Definition child_at (P : MemPage) (i : Z) : option Z := pc ← findCell P i; sqlite3Get4byte (aData P) pc.
Definition right_child (P : MemPage) : option Z := sqlite3Get4byte (aData P) (hdrOffset P + 8).

(** ** Moves in the tree *)

Definition moveToChild (newPgno : Z) : act Z :=
  _ ← assert (fun c => eState c = CURSOR_VALID /\ pPage c <> None);
  c ← look st_cur;
  if decide (BTCURSOR_MAX_DEPTH - 1 <= length (apPage c))%nat then mret SQLITE_CORRUPT
  else
    p ← try (pPage c);
    _ ← change (fun c => set_place ((p, c_ix c) :: apPage c) (Some newPgno) 0 (forget c));
    rc ← getAndInitPage newPgno;
    P ← page;
    let rc := if decide (rc = SQLITE_OK /\ (nCell P < 1 \/ intKey P <> curIntKey c)) then SQLITE_CORRUPT else rc in
    _ ← (if decide (rc <> SQLITE_OK) then change (fun c' => set_place (apPage c) (Some p) (c_ix c') c') else mret tt);
    mret rc.

Definition moveToParent : act unit :=
  _ ← assert (fun c => eState c = CURSOR_VALID /\ apPage c <> [] /\ pPage c <> None);
  c ← look st_cur;
  match apPage c with
  | [] => mret tt
  | (p, i) :: path => change (fun c => set_place path (Some p) i (forget c))
  end.

(** From [skip_init] on. *)
Definition skip_init (pRoot : Z) : act Z :=
  _ ← change (fun c => forget (set_flags false (validNKey c) (validOvfl c) (set_ix 0 c)));
  P ← page;
  if decide (0 < nCell P) then _ ← change (set_eState CURSOR_VALID); mret SQLITE_OK
  else if leaf P then _ ← change (set_eState CURSOR_INVALID); mret SQLITE_EMPTY
  else if decide (pRoot <> 1) then mret SQLITE_CORRUPT
  else
    subpage ← try (right_child P);
    _ ← change (set_eState CURSOR_VALID);
    moveToChild subpage.

(** The check of the kind of the root page. *)
Definition root_check (pRoot : Z) : act Z :=
  P ← page;
  c ← look st_cur;
  if decide (isInit P = false \/ negb (pKeyInfo c) <> intKey P) then mret SQLITE_CORRUPT else skip_init pRoot.

Definition moveToRoot : act Z :=
  _ ← assert (fun c => (eState c <> CURSOR_REQUIRESEEK /\ eState c <> CURSOR_FAULT) \/ pPage c = None);
  c ← look st_cur;
  match pPage c with
  | Some p =>
      match last (apPage c) with
      | Some (pRoot, _) => _ ← change (fun c => set_place [] (Some pRoot) (c_ix c) c); skip_init pRoot
      | None => root_check p
      end
  | None =>
      if decide (pgnoRoot c = 0) then _ ← change (set_eState CURSOR_INVALID); mret SQLITE_EMPTY
      else if decide (eState c = CURSOR_FAULT) then mret (skipNext c)
      else
        _ ← (if decide (eState c = CURSOR_REQUIRESEEK) then change (set_eState CURSOR_INVALID) else mret tt);
        rc ← getAndInitPage (pgnoRoot c);
        if decide (rc <> SQLITE_OK) then _ ← change (set_eState CURSOR_INVALID); mret rc
        else
          _ ← change (fun c => set_place [] (Some (pgnoRoot c)) (c_ix c) c);
          P ← page;
          _ ← change (set_curIntKey (intKey P));
          root_check (pgnoRoot c)
  end.

Fixpoint to_leftmost (fuel : nat) : act Z :=
  match fuel with
  | O => try None
  | S fuel =>
      P ← page;
      if leaf P then mret SQLITE_OK
      else
        _ ← assert (fun c => c_ix c < nCell P);
        c ← look st_cur;
        pgno ← try (child_at P (c_ix c));
        rc ← moveToChild pgno;
        if decide (rc <> SQLITE_OK) then mret rc else to_leftmost fuel
  end.

(** Every turn makes the path longer. *)
Definition moveToLeftmost : act Z := _ ← assert (fun c => eState c = CURSOR_VALID); to_leftmost BTCURSOR_MAX_DEPTH.

Fixpoint to_rightmost (fuel : nat) : act Z :=
  match fuel with
  | O => try None
  | S fuel =>
      P ← page;
      if leaf P then
        _ ← change (set_ix (u16 (nCell P - 1)));
        _ ← assert (fun c => c_info c = None /\ validNKey c = false);
        mret SQLITE_OK
      else
        pgno ← try (right_child P);
        _ ← change (set_ix (nCell P));
        rc ← moveToChild pgno;
        if decide (rc <> SQLITE_OK) then mret rc else to_rightmost fuel
  end.

Definition moveToRightmost : act Z := _ ← assert (fun c => eState c = CURSOR_VALID); to_rightmost BTCURSOR_MAX_DEPTH.

(** The code with [*pRes]. *)
Definition sqlite3BtreeFirst : act (Z * Z) :=
  rc ← moveToRoot;
  if decide (rc = SQLITE_OK) then rc ← moveToLeftmost; mret (rc, 0)
  else if decide (rc = SQLITE_EMPTY) then mret (SQLITE_OK, 1)
  else mret (rc, 0).

Definition btreeLast : act (Z * Z) :=
  rc ← moveToRoot;
  if decide (rc = SQLITE_OK) then
    _ ← assert (fun c => eState c = CURSOR_VALID);
    rc ← moveToRightmost;
    _ ← change (fun c => set_flags (bool_decide (rc = SQLITE_OK)) (validNKey c) (validOvfl c) c);
    mret (rc, 0)
  else if decide (rc = SQLITE_EMPTY) then mret (SQLITE_OK, 1)
  else mret (rc, 0).

Definition sqlite3BtreeLast : act (Z * Z) :=
  c ← look st_cur;
  if decide (eState c = CURSOR_VALID /\ atLast c = true) then mret (SQLITE_OK, 0) else btreeLast.

(** ** The cell of the cursor *)

Definition getCellInfo : act unit :=
  c ← look st_cur;
  match c_info c with
  | Some _ => mret tt
  | None =>
      P ← page;
      i ← try (btreeParseCell P (c_ix c));
      change (fun c => set_info (Some i) (nKey i) (set_flags (atLast c) true (validOvfl c) c))
  end.

Definition sqlite3BtreeIntegerKey : act Z :=
  _ ← assert (fun c => eState c = CURSOR_VALID /\ curIntKey c = true);
  _ ← getCellInfo;
  look (fun s => info_nKey (st_cur s)).

Definition sqlite3BtreePayloadSize : act Z :=
  _ ← assert (fun c => eState c = CURSOR_VALID);
  _ ← getCellInfo;
  c ← look st_cur;
  i ← try (c_info c);
  mret (nPayload i).

(** The fields [accessPayload] uses, and what it does to them; it parses the cell by [getCellInfo]. *)
Definition payload_cursor (pgno : Z) (P : MemPage) (c : Cursor) : BtCursor :=
  {| cur_pgno := pgno; cur_page := P; cur_ix := c_ix c; cur_info := c_info c; aOverflow := c_aOverflow c; valid_ovfl := validOvfl c |}.

Definition after_payload (b : BtCursor) (c : Cursor) : Cursor :=
  let c := match c_info c, cur_info b with
           | None, Some i => set_info (Some i) (nKey i) (set_flags (atLast c) true (validOvfl c) c)
           | _, _ => c
           end in
  set_aOverflow (aOverflow b) (set_flags (atLast c) (validNKey c) (valid_ovfl b) c).

Definition read_payload (pgno : Z) (P : MemPage) (offset amt : Z) : act (Z * bytes) := fun s =>
  '(rc, out, b, d) ← accessPayload (payload_cursor pgno P (st_cur s)) offset amt None (st_db s);
  Some ((rc, out), set_cur (after_payload b (st_cur s)) (set_db d s)).

(** The bytes with the code. *)
Definition sqlite3BtreePayload (offset amt : Z) : act (Z * bytes) :=
  _ ← assert (fun c => eState c = CURSOR_VALID);
  c ← look st_cur;
  pgno ← try (pPage c);
  P ← page;
  read_payload pgno P offset amt.

(** ** Searching for a rowid *)

(** [while( 0x80 <= *(pCell++) )]: the bytes after the size, or [None] inside at the end of the page. *)
Fixpoint skip_size (p : bytes) : option (option bytes) :=
  match p with
  | [] => None
  | b :: p' => if decide (0x80 <= b) then match p' with [] => Some None | _ => skip_size p' end else Some (Some p')
  end.

(** The key of the cell [idx]; [findCellPastPtr] skips the number of a child. *)
Definition cell_key (P : MemPage) (idx : Z) : option (option Z) :=
  pc ← findCell P idx;
  let p := drop (Z.to_nat (childPtrSize P + pc)) (aData P) in
  r ← (if intKeyLeaf P then skip_size p else Some (Some p));
  match r with
  | None => Some None
  | Some p => '(_, v) ← sqlite3GetVarint p; Some (Some (i64 v))
  end.

(** How the binary search on a page ends: with [idx], [lwr] and [c]. *)
Inductive found := KeyCorrupt | Exact (idx nCellKey : Z) | Between (idx lwr c : Z).

Fixpoint key_search (fuel : nat) (pg : MemPage) (k lwr upr idx : Z) : option found :=
  match fuel with
  | O => None
  | S fuel =>
      r ← cell_key pg idx;
      match r with
      | None => Some KeyCorrupt
      | Some nCellKey =>
          if decide (nCellKey < k) then
            let lwr := idx + 1 in
            if decide (upr < lwr) then Some (Between idx lwr (-1)) else key_search fuel pg k lwr upr (Z.shiftr (lwr + upr) 1)
          else if decide (k < nCellKey) then
            let upr := idx - 1 in
            if decide (upr < lwr) then Some (Between idx lwr 1) else key_search fuel pg k lwr upr (Z.shiftr (lwr + upr) 1)
          else Some (Exact idx nCellKey)
      end
  end.

(** The outer loop: the code with [*pRes]; the interval gets smaller in each turn of the search. *)
Fixpoint moveto_loop (fuel : nat) (k : Z) (biasRight : bool) : act (Z * Z) :=
  match fuel with
  | O => try None
  | S fuel =>
      P ← page;
      if decide (nCell P <= 0 \/ intKey P = false) then try None
      else
        let upr := nCell P - 1 in
        r ← try (key_search (Z.to_nat (nCell P)) P k 0 upr (if biasRight then upr else Z.shiftr upr 1));
        let next_layer (lwr : Z) : act (Z * Z) :=
          chldPg ← try (if decide (nCell P <= lwr) then right_child P else child_at P lwr);
          _ ← change (set_ix (u16 lwr));
          rc ← moveToChild chldPg;
          if decide (rc <> SQLITE_OK) then _ ← change clear_size; mret (rc, 0) else moveto_loop fuel k biasRight in
        match r with
        | KeyCorrupt => mret (SQLITE_CORRUPT, 0)
        | Exact idx nCellKey =>
            _ ← change (set_ix (u16 idx));
            if leaf P then
              _ ← change (fun c => set_info None nCellKey (set_flags (atLast c) true (validOvfl c) c));
              mret (SQLITE_OK, 0)
            else next_layer idx
        | Between idx lwr c =>
            if leaf P then
              _ ← assert (fun c => c_ix c < nCell P);
              _ ← change (fun c => clear_size (set_ix (u16 idx) c));
              _ ← assert (fun c => validOvfl c = false);
              mret (SQLITE_OK, c)
            else next_layer lwr
        end
  end.

(** The search from the root. *)
Definition moveto_search (k : Z) (biasRight : bool) : act (Z * Z) :=
  rc ← moveToRoot;
  if decide (rc = SQLITE_EMPTY) then mret (SQLITE_OK, -1)
  else if decide (rc <> SQLITE_OK) then mret (rc, 0)
  else
    _ ← assert (fun c => eState c = CURSOR_VALID /\ curIntKey c = true);
    moveto_loop BTCURSOR_MAX_DEPTH k biasRight.

(** [next] is [sqlite3BtreeNext]. *)
Definition TableMoveto (next : act Z) (k : Z) (biasRight : bool) : act (Z * Z) :=
  _ ← assert (fun c => pKeyInfo c = false /\ (eState c = CURSOR_VALID -> curIntKey c = true));
  c ← look st_cur;
  if decide (eState c = CURSOR_VALID /\ validNKey c = true) then
    if decide (info_nKey c = k) then mret (SQLITE_OK, 0)
    else if decide (info_nKey c < k /\ atLast c = true) then mret (SQLITE_OK, -1)
    else if decide (info_nKey c < k /\ info_nKey c + 1 = k) then
      rc ← next;
      if decide (rc = SQLITE_OK) then
        _ ← getCellInfo;
        n ← look (fun s => info_nKey (st_cur s));
        if decide (n = k) then mret (SQLITE_OK, 0) else moveto_search k biasRight
      else if decide (rc <> SQLITE_DONE) then mret (rc, 0)
      else moveto_search k biasRight
    else moveto_search k biasRight
  else moveto_search k biasRight.

(** ** Saved positions *)

Definition saveCursorKey : act Z :=
  _ ← assert (fun c => eState c = CURSOR_VALID /\ curIntKey c = true);
  k ← sqlite3BtreeIntegerKey;
  _ ← change (set_nKey k);
  mret SQLITE_OK.

Definition btreeReleaseAllCursorPages : act unit := change (fun c => set_place [] None (c_ix c) c).

Definition saveCursorPosition : act Z :=
  _ ← assert (fun c => eState c = CURSOR_VALID \/ eState c = CURSOR_SKIPNEXT);
  c ← look st_cur;
  if pinned c then mret SQLITE_CONSTRAINT_PINNED
  else
    _ ← change (if decide (eState c = CURSOR_SKIPNEXT) then set_eState CURSOR_VALID else set_skipNext 0);
    rc ← saveCursorKey;
    _ ← (if decide (rc = SQLITE_OK) then _ ← btreeReleaseAllCursorPages; change (set_eState CURSOR_REQUIRESEEK) else mret tt);
    _ ← change (set_flags false false false);
    mret rc.

(** The body of the loop of [saveCursorsOnList] for the cursor. *)
Definition save_on_list : act Z :=
  c ← look st_cur;
  if decide (eState c = CURSOR_VALID \/ eState c = CURSOR_SKIPNEXT) then saveCursorPosition
  else _ ← btreeReleaseAllCursorPages; mret SQLITE_OK.

(** [btreeMoveto] without [pKey] is the search for a rowid. *)
Definition btreeRestoreCursorPosition (next : act Z) : act Z :=
  _ ← assert (fun c => eState c = CURSOR_REQUIRESEEK \/ eState c = CURSOR_FAULT);
  c ← look st_cur;
  if decide (eState c = CURSOR_FAULT) then mret (skipNext c)
  else
    _ ← change (set_eState CURSOR_INVALID);
    '(rc, skip) ← TableMoveto next (c_nKey c) false;
    _ ← (if decide (rc = SQLITE_OK) then
           change (fun c =>
             let c := if decide (skip <> 0) then set_skipNext skip c else c in
             if decide (skipNext c <> 0 /\ eState c = CURSOR_VALID) then set_eState CURSOR_SKIPNEXT c else c)
         else mret tt);
    mret rc.

Definition restoreCursorPosition (next : act Z) : act Z :=
  c ← look st_cur;
  if decide (eState c = CURSOR_REQUIRESEEK \/ eState c = CURSOR_FAULT) then btreeRestoreCursorPosition next else mret SQLITE_OK.

(** ** The next row *)

(** The loop up the tree: whether the cursor is on a parent with a cell left. *)
Fixpoint climb_next (fuel : nat) : act bool :=
  match fuel with
  | O => try None
  | S fuel =>
      c ← look st_cur;
      match apPage c with
      | [] => _ ← change (set_eState CURSOR_INVALID); mret false
      | _ =>
          _ ← moveToParent;
          P ← page;
          c ← look st_cur;
          if decide (nCell P <= c_ix c) then climb_next fuel else mret true
      end
  end.

(** From the page of the cursor on. *)
Definition next_cell (next : act Z) : act Z :=
  P ← page;
  _ ← change (fun c => set_ix (u16 (c_ix c + 1)) c);
  c ← look st_cur;
  if negb (isInit P) then mret SQLITE_CORRUPT
  else if decide (nCell P <= c_ix c) then
    if leaf P then
      more ← climb_next (S (length (apPage c)));
      if (more : bool) then P ← page; if intKey P then next else mret SQLITE_OK else mret SQLITE_DONE
    else
      pgno ← try (right_child P);
      rc ← moveToChild pgno;
      if decide (rc <> SQLITE_OK) then mret rc else moveToLeftmost
  else if leaf P then mret SQLITE_OK
  else moveToLeftmost.

Definition btreeNext (next : act Z) : act Z :=
  c ← look st_cur;
  if decide (eState c <> CURSOR_VALID) then
    _ ← assert (fun c => validOvfl c = false);
    rc ← restoreCursorPosition next;
    if decide (rc <> SQLITE_OK) then mret rc
    else
      c ← look st_cur;
      if decide (eState c = CURSOR_INVALID) then mret SQLITE_DONE
      else if decide (eState c = CURSOR_SKIPNEXT) then
        _ ← change (set_eState CURSOR_VALID);
        if decide (0 < skipNext c) then mret SQLITE_OK else next_cell next
      else next_cell next
  else next_cell next.

(** It calls itself from the cell of a parent: then it moves down, and returns. *)
Fixpoint next_fuel (fuel : nat) : act Z :=
  match fuel with
  | O => try None
  | S fuel =>
      _ ← change forget;
      c ← look st_cur;
      if decide (eState c <> CURSOR_VALID) then btreeNext (next_fuel fuel)
      else
        P ← page;
        _ ← change (fun c => set_ix (u16 (c_ix c + 1)) c);
        c ← look st_cur;
        if decide (nCell P <= c_ix c) then
          _ ← change (fun c => set_ix (u16 (c_ix c - 1)) c);
          btreeNext (next_fuel fuel)
        else if leaf P then mret SQLITE_OK
        else moveToLeftmost
  end.

Definition sqlite3BtreeNext : act Z := next_fuel 2.

(** ** The previous row *)

Fixpoint climb_previous (fuel : nat) : act bool :=
  match fuel with
  | O => try None
  | S fuel =>
      c ← look st_cur;
      if decide (c_ix c = 0) then
        match apPage c with
        | [] => _ ← change (set_eState CURSOR_INVALID); mret false
        | _ => _ ← moveToParent; climb_previous fuel
        end
      else mret true
  end.

Definition previous_cell (previous : act Z) : act Z :=
  P ← page;
  c ← look st_cur;
  if isInit P then
    if leaf P then
      more ← climb_previous (S (length (apPage c)));
      if (more : bool) then
        _ ← assert (fun c => c_info c = None /\ validOvfl c = false);
        _ ← change (fun c => set_ix (u16 (c_ix c - 1)) c);
        P ← page;
        if intKey P && negb (leaf P) then previous else mret SQLITE_OK
      else mret SQLITE_DONE
    else
      pgno ← try (child_at P (c_ix c));
      rc ← moveToChild pgno;
      if decide (rc <> SQLITE_OK) then mret rc else moveToRightmost
  else try None.

Definition btreePrevious (previous : act Z) : act Z :=
  _ ← assert (fun c => atLast c = false /\ validOvfl c = false /\ validNKey c = false /\ c_info c = None);
  c ← look st_cur;
  if decide (eState c <> CURSOR_VALID) then
    rc ← restoreCursorPosition sqlite3BtreeNext;
    if decide (rc <> SQLITE_OK) then mret rc
    else
      c ← look st_cur;
      if decide (eState c = CURSOR_INVALID) then mret SQLITE_DONE
      else if decide (eState c = CURSOR_SKIPNEXT) then
        _ ← change (set_eState CURSOR_VALID);
        if decide (skipNext c < 0) then mret SQLITE_OK else previous_cell previous
      else previous_cell previous
  else previous_cell previous.

Fixpoint previous_fuel (fuel : nat) : act Z :=
  match fuel with
  | O => try None
  | S fuel =>
      _ ← change (fun c => clear_size (set_flags false false false c));
      c ← look st_cur;
      if decide (eState c <> CURSOR_VALID \/ c_ix c = 0) then btreePrevious (previous_fuel fuel)
      else
        P ← page;
        if leaf P then _ ← change (fun c => set_ix (u16 (c_ix c - 1)) c); mret SQLITE_OK
        else btreePrevious (previous_fuel fuel)
  end.

Definition sqlite3BtreePrevious : act Z := previous_fuel 2.

(** ** The entry points that seek *)

Definition sqlite3BtreeTableMoveto (k : Z) (biasRight : bool) : act (Z * Z) := TableMoveto sqlite3BtreeNext k biasRight.

Definition sqlite3BtreeCursorHasMoved (c : Cursor) : bool := bool_decide (eState c <> CURSOR_VALID).

(** The code with [*pDifferentRow]. *)
Definition sqlite3BtreeCursorRestore : act (Z * Z) :=
  _ ← assert (fun c => eState c <> CURSOR_VALID);
  rc ← restoreCursorPosition sqlite3BtreeNext;
  if decide (rc <> SQLITE_OK) then mret (rc, 1)
  else c ← look st_cur; mret (SQLITE_OK, if decide (eState c <> CURSOR_VALID) then 1 else 0).

(** ** Opening a cursor *)

(** For reading: [wrFlag] is 0.  What the memory of the cursor held before stays where nothing is stored. *)
Definition btreeCursor (iTable : Z) (key : bool) : act Z :=
  if decide (iTable < 1) then mret SQLITE_CORRUPT
  else
    n ← look (fun s => nPage (st_db s));
    let iTable := if decide (iTable <= 1 /\ n = 0) then 0 else iTable in
    _ ← change (fun c =>
      {| eState := CURSOR_INVALID; skipNext := skipNext c; pinned := false; atLast := false; validNKey := false; validOvfl := false;
         pgnoRoot := iTable; pKeyInfo := key; curIntKey := curIntKey c; pPage := None; apPage := []; c_ix := c_ix c;
         c_info := c_info c; info_nKey := info_nKey c; c_nKey := c_nKey c; c_aOverflow := c_aOverflow c |});
    mret SQLITE_OK.

Definition sqlite3BtreeEof (c : Cursor) : bool := bool_decide (eState c <> CURSOR_VALID).

Definition sqlite3BtreeClearCursor : act unit := change (set_eState CURSOR_INVALID).
