(* ===== verification/SqlCursorTree.v ===== *)
(** * The trees of tables

    The rows of a table as a tree of pages, and what the routines of [SqlCursor] read on a page of such a tree. *)

From S2P Require Import Prelude Bits SqlVarint SqlBytes SqlCell SqlCellProps SqlPage SqlPageOk SqlPageInit SqlPageProps SqlFreelist SqlFreelistOk.
From S2P Require Import SqlOverflow SqlOverflowOk SqlOverflowCell SqlOverflowAccess SqlCursor.

(** ** Trees *)

(** A row is a rowid and its data. *)
Abbreviation table_row := (prod Z bytes).

(** A page with rows, or one with keys between its children. *)
Inductive tree := Leaf (p : Z) (rows : list table_row) | Node (p : Z) (kids : list tree) (keys : list Z).

Definition root (t : tree) : Z := match t with Leaf p _ | Node p _ _ => p end.
Definition kids_of (t : tree) : list tree := match t with Leaf _ _ => [] | Node _ kids _ => kids end.
Definition filled (t : tree) : Prop := match t with Leaf _ rows => rows <> [] | Node _ _ keys => keys <> [] end.

(** The rows in the order of the tree. *)
Fixpoint flat (t : tree) : list table_row := match t with Leaf _ rows => rows | Node _ kids _ => kids ≫= flat end.

(** The keys separate the children. *)
Definition separates (kids : list tree) (keys : list Z) : Prop := forall i k j u r,
  keys !! i = Some k -> kids !! j = Some u -> r ∈ flat u -> (j <= i)%nat /\ r.1 <= k \/ (i < j)%nat /\ k < r.1.

Definition row_header (r : table_row) : bytes := putVarint32 (len r.2) ++ sqlite3PutVarint (u64 r.1).
Definition child_cell (u : tree) (k : Z) : bytes := four (root u) ++ sqlite3PutVarint (u64 k).
Definition hdr_of (p : Z) : Z := if decide (p = 1) then 100 else 0.

(** ** Keys in cells *)

Lemma key_read k rest : in_s 64 k -> bytes_ok rest -> exists n, sqlite3GetVarint (sqlite3PutVarint (u64 k) ++ rest) = Some (n, u64 k) /\ i64 (u64 k) = k.
Proof.
  intros Hk Hr. assert (V : in_u 64 (u64 k)) by (apply wrapu_range; lia). pose proof (sqlite3PutVarint_ok _ V).
  rewrite sqlite3GetVarint_varint by (apply bytes_ok_app; by split). rewrite varint_PutVarint by done. eexists. split; [done|]. rewrite wraps_wrapu by lia. by apply wraps_id.
Qed.

Lemma skip_size_from k : forall n acc p m v, varint_from k n acc p = Some (m, v) -> m - n <= Z.of_nat k -> drop (Z.to_nat (m - n)) p <> [] ->
  skip_size p = Some (Some (drop (Z.to_nat (m - n)) p)).
Proof.
  induction k as [|k IH]; intros n acc [|b p] m v; cbn [varint_from skip_size]; try done.
  - intros [= <- _]. lia.
  - case_decide as Hb.
    + intros [= <- _] _ _. rewrite decide_False by lia. by replace (Z.to_nat (n + 1 - n)) with 1%nat by lia.
    + intros Hv Hm Hd. rewrite decide_True by lia. pose proof (varint_from_count _ _ _ _ _ _ Hv).
      replace (Z.to_nat (m - n)) with (S (Z.to_nat (m - (n + 1)))) in * by lia. cbn [drop] in *.
      destruct p as [|b' p]; [by destruct k|]. by apply (IH _ _ _ _ _ Hv); [lia|].
Qed.

Lemma skip_header n rest : 0 <= n < 2147483648 -> rest <> [] -> skip_size (putVarint32 n ++ rest) = Some (Some rest).
Proof.
  intros Hn Hr. destruct (putVarint32_spec n Hn) as [-> Hb]. assert (V : in_u 64 n) by (unfold in_u; change (2 ^ 64) with 18446744073709551616; lia).
  pose proof (length_sqlite3PutVarint n V) as Hl. pose proof (varint_PutVarint n rest V) as Hv. unfold varint in Hv.
  pose proof (varint_bytes_range n ltac:(lia)). assert (Hd : drop (Z.to_nat (varint_bytes n - 0)) (sqlite3PutVarint n ++ rest) = rest) by (apply drop_app_length'; lia).
  rewrite (skip_size_from _ _ _ _ _ _ Hv), Hd; [done|lia|by rewrite Hd].
Qed.

Lemma PutVarint_nonempty v : in_u 64 v -> sqlite3PutVarint v <> [].
Proof. intros V E. pose proof (length_sqlite3PutVarint v V) as Hl. pose proof (varint_bytes_range v ltac:(unfold in_u in V; lia)). rewrite E in Hl. cbn in Hl. lia. Qed.

Section Table.
Context (bt : BtShared) (np : Z) (D : Z -> bytes).
Hypothesis Hlim : limits_ok bt.

(** The cell [c] of the row [r] on the page [p], with the overflow pages [ps]. *)
Record row_on (p : Z) (P : MemPage) (c : bytes) (r : table_row) (ps : list Z) : Prop := {
  ro_key : in_s 64 r.1;
  ro_data : bytes_ok r.2 /\ len r.2 < 2147483648;
  ro_header : exists rest, c = row_header r ++ rest;
  ro_nodup : NoDup ps /\ p ∉ ps;
  ro_length : Z.of_nat (length ps) = (len r.2 - cell_local P (len r.2) + (usableSize bt - 4) - 1) / (usableSize bt - 4);
  ro_ps q : q ∈ ps -> 2 <= q <= np /\ q <> PENDING_BYTE_PAGE bt;
  ro_links : ps <> [] -> links D (rd4 c (len (row_header r) + cell_local P (len r.2))) ps;
  ro_bytes i : 0 <= i < len r.2 ->
    payload_byte (fun i => rd c (len (row_header r) + i)) D (cell_local P (len r.2)) (usableSize bt - 4) ps i = rd r.2 i
}.

(** The page [p] of a table, with the cells [l]; [P] is what is known of it in memory. *)
Record table_page (p : Z) (P : MemPage) (lf : bool) (l : list bytes) : Prop := {
  tp_cells : holds_cells P l;
  tp_bt : pBt P = bt;
  tp_data : aData P = D p;
  tp_hdr : hdrOffset P = hdr_of p;
  tp_int : intKey P = true;
  tp_leaf : leaf P = lf;
  tp_range : 1 <= p <= np /\ p <> PENDING_BYTE_PAGE bt
}.

(** The tree is no higher than [h]. *)
Fixpoint tree_ok (h : nat) (t : tree) : Prop :=
  match t with
  | Leaf p rows => exists P l, table_page p P true l /\ Forall2 (fun c r => exists ps, row_on p P c r ps) l rows
  | Node p kids keys =>
      match h with
      | O => False
      | S h =>
          (exists P, table_page p P false (zip_with child_cell kids keys)) /\ length kids = S (length keys) /\ Forall (in_s 64) keys /\
          (forall u, last kids = Some u -> rd4 (D p) (hdr_of p + 8) = root u) /\ separates kids keys /\ Forall filled kids /\ Forall (tree_ok h) kids
      end
  end.

(** What the page of a subtree is in memory. *)
Definition subtree_page (t : tree) (P : MemPage) : Prop :=
  match t with
  | Leaf p rows => exists l, table_page p P true l /\ Forall2 (fun c r => exists ps, row_on p P c r ps) l rows
  | Node p kids keys => table_page p P false (zip_with child_cell kids keys)
  end.

(** A page with children. *)
Record node_ok (h : nat) (p : Z) (kids : list tree) (keys : list Z) : Prop := {
  no_length : length kids = S (length keys);
  no_keys : Forall (in_s 64) keys;
  no_right u : last kids = Some u -> rd4 (D p) (hdr_of p + 8) = root u;
  no_separates : separates kids keys;
  no_filled u : u ∈ kids -> filled u;
  no_kids u : u ∈ kids -> tree_ok h u
}.

Lemma node_inv h p kids keys : tree_ok h (Node p kids keys) -> exists h', h = S h' /\ node_ok h' p kids keys.
Proof using Type.
  destruct h as [|h]; [done|]. cbn [tree_ok]. intros (H1 & H2 & H3 & H4 & H5 & H6 & H7). exists h. split; [done|]. rewrite Forall_forall in H6, H7. by split.
Qed.

Lemma tree_page h t : tree_ok h t -> exists P, subtree_page t P.
Proof using Type. destruct t as [p rows|p kids keys], h; cbn [tree_ok subtree_page]; try done. by intros (HP & _). Qed.

Lemma subtree_table t P : subtree_page t P -> exists l, table_page (root t) P (match t with Leaf _ _ => true | Node _ _ _ => false end) l.
Proof using Type. destruct t as [p rows|p kids keys]; cbn [subtree_page root]; [intros (l & H & _)|intros H]; eauto. Qed.

Lemma tree_ok_mono h h' t : (h <= h')%nat -> tree_ok h t -> tree_ok h' t.
Proof using Type.
  revert h' t. induction h as [|h IH]; intros h' [p rows|p kids keys] Hh; destruct h' as [|h']; cbn [tree_ok]; try done; try lia.
  intros (H1 & H2 & H3 & H4 & H5 & H6 & H7). split_and!; try done. eapply Forall_impl; [exact H7|]. intros u. apply IH. lia.
Qed.

Lemma flat_nonempty h t : tree_ok h t -> filled t -> exists r, r ∈ flat t.
Proof using Type.
  assert (Hl : forall rows : list table_row, rows <> [] -> exists r, r ∈ rows) by (intros [|r rows] Hr; [done|exists r; by left]).
  revert t. induction h as [|h IH]; intros [p rows|p kids keys] Ht; cbn [filled flat]; [by apply Hl|done|by apply Hl|].
  apply node_inv in Ht as (h' & [= <-] & [N1 N2 N3 N4 N5 N6]). intros _.
  destruct kids as [|u kids]; [done|]. destruct (IH u) as [r Hr]; [apply N6; by left|apply N5; by left|]. exists r. cbn. apply elem_of_app. by left.
Qed.

(** The keys of a page between its children are in order. *)
Lemma keys_sorted h p kids keys i j a b : node_ok h p kids keys -> (i < j)%nat -> keys !! i = Some a -> keys !! j = Some b -> a < b.
Proof using Type.
  intros [N1 N2 N3 N4 N5 N6] Hij Ha Hb. pose proof (lookup_lt_Some _ _ _ Hb). destruct (lookup_lt_is_Some_2 kids j) as [u Hu]; [lia|].
  assert (Hu' := list_elem_of_lookup_2 _ _ _ Hu). destruct (flat_nonempty h u (N6 u Hu') (N5 u Hu')) as [r Hr].
  destruct (N4 i a j u r Ha Hu Hr) as [[? _]|[_ ?]]; [lia|]. destruct (N4 j b j u r Hb Hu Hr) as [[_ ?]|[? _]]; lia.
Qed.

(** ** Pages of tables *)

Lemma table_kind p P lf l : table_page p P lf l ->
  if lf then intKeyLeaf P = true /\ childPtrSize P = 0 /\ xParseCell P = btreeParseCellPtr
  else intKeyLeaf P = false /\ childPtrSize P = 4.
Proof using Type.
  intros [(cs & fs & top & H & _) _ _ _ Hi Hl _]. pose proof (pk_kind _ _ _ _ _ H) as Hk. clear H.
  unfold decodeFlags in Hk. repeat case_decide; try discriminate Hk; injection Hk as Hk; rewrite <- Hk in Hi, Hl |- *; cbn in Hi, Hl |- *; subst; done.
Qed.

Lemma table_count p P lf l : table_page p P lf l -> nCell P = Z.of_nat (length l) /\ isInit P = true /\ 0 <= nCell P <= 32768.
Proof using Type.
  intros [(cs & fs & top & H & <-) _ _ _ _ _ _]. pose proof (page_bounds _ _ _ _ _ H) as (B1 & B2 & B3 & B4 & B5 & B6 & B7 & B8).
  rewrite length_fmap. split; [done|]. split; [apply (pk_init _ _ _ _ _ H)|]. lia.
Qed.

(** The page is known again from its bytes. *)
Lemma table_init ck p P lf l Q : table_page p P lf l -> pBt Q = bt -> aData Q = D p -> hdrOffset Q = hdr_of p -> isInit Q = false ->
  btreeInitPage ck Q = Some (SQLITE_OK, set_nFree (-1) P).
Proof using Type.
  intros [(cs & fs & top & H & _) T1 T2 T3 _ _ _] E1 E2 E3 E4. apply (btreeInitPage_spec ck P cs fs top); congruence.
Qed.

Lemma drop_sub (data c : bytes) pc : 0 <= pc -> sub data pc (len c) = c -> drop (Z.to_nat pc) data = c ++ drop (Z.to_nat (pc + len c)) data.
Proof using Type.
  intros Hp E. rewrite <- (take_drop (length c) (drop (Z.to_nat pc) data)) at 1. unfold sub in E. rewrite Nat2Z.id in E. rewrite E, drop_drop. do 2 f_equal. lia.
Qed.

(** A cell is found with the bytes after it. *)
Lemma table_cell p P lf l i c : table_page p P lf l -> l !! i = Some c ->
  exists pc rest, findCell P (Z.of_nat i) = Some pc /\ drop (Z.to_nat pc) (D p) = c ++ rest /\ bytes_ok c /\ bytes_ok rest /\
    8 <= pc /\ pc + len c <= usable P <= len (D p) /\ sub (D p) pc (len c) = c /\ cellSize_of P c = Some (len c).
Proof using Type.
  intros [(cs & fs & top & H & <-) T1 T2 T3 _ _ _] Hi. apply list_lookup_fmap_Some in Hi as (x & -> & Hi).
  pose proof (pk_cell _ _ _ _ _ H x (list_elem_of_lookup_2 _ _ _ Hi)) as (C1 & C2 & C3 & C4 & C5). rewrite T2 in C4.
  pose proof (page_bounds _ _ _ _ _ H) as (B1 & B2 & B3 & B4 & B5 & B6 & B7 & B8). rewrite T2 in B7. pose proof (pk_ok _ _ _ _ _ H) as Hok. rewrite T2 in Hok.
  pose proof (lookup_lt_Some _ _ _ Hi). pose proof (pk_offset _ _ _ _ _ H). pose proof (pk_child _ _ _ _ _ H).
  exists x.1, (drop (Z.to_nat (x.1 + len x.2)) (D p)). split; [by apply (findCell_spec P cs fs top)|].
  split; [apply drop_sub; [lia|done]|]. split; [rewrite <- C4; by apply bytes_ok_sub|]. split; [by apply Forall_drop|]. split_and!; (done || lia).
Qed.

(** A cell with a child and a key. *)
Lemma node_cell p P l i u k : table_page p P false l -> l !! i = Some (child_cell u k) -> 0 <= root u < 4294967296 -> in_s 64 k ->
  child_at P (Z.of_nat i) = Some (root u) /\ cell_key P (Z.of_nat i) = Some (Some k).
Proof using Type.
  intros T Hi Hu Hk. destruct (table_cell _ _ _ _ _ _ T Hi) as (pc & rest & Hf & Hd & Hc & Hr & Hp1 & Hp2 & Hs & _). pose proof (table_kind _ _ _ _ T) as [K1 K2].
  unfold child_at, cell_key. rewrite Hf, K1, K2, (tp_data _ _ _ _ T). cbn [mbind option_bind].
  assert (Hl : len (child_cell u k) = 4 + len (sqlite3PutVarint (u64 k))) by (unfold child_cell; rewrite length_app, Nat2Z.inj_add, len_four; lia).
  pose proof (tp_cells _ _ _ _ T) as (cs & fs & top & H & _). pose proof (pk_ok _ _ _ _ _ H) as Hok. rewrite (tp_data _ _ _ _ T) in Hok. split.
  - rewrite get4byte_rd4 by (done || lia). f_equal. rewrite <- (Z.mod_small (root u) 4294967296) by done. rewrite <- rd4_four.
    apply rd4_ext. intros j Hj. rewrite (rd_of_sub (D p) pc (child_cell u k) j) by (done || lia). unfold child_cell, rd, ld. rewrite !decide_True by lia. by rewrite lookup_app_l by (pose proof (len_four (root u)); lia).
  - replace (Z.to_nat (4 + pc)) with (Z.to_nat pc + 4)%nat by lia. rewrite <- drop_drop, Hd. unfold child_cell. rewrite <- app_assoc.
    rewrite drop_app_length' by (pose proof (len_four (root u)); lia). destruct (key_read k rest Hk Hr) as (n & -> & E). cbn [mbind option_bind]. by rewrite E.
Qed.

Lemma node_right p P l h kids keys u : table_page p P false l -> node_ok h p kids keys -> last kids = Some u -> right_child P = Some (root u).
Proof using Type.
  intros T [_ _ Hr _ _ _] Hu. pose proof (tp_cells _ _ _ _ T) as (cs & fs & top & H & _). pose proof (table_kind _ _ _ _ T) as [_ K2].
  pose proof (page_bounds _ _ _ _ _ H) as (B1 & B2 & B3 & B4 & B5 & B6 & B7 & B8). pose proof (pk_offset _ _ _ _ _ H). pose proof (pk_ok _ _ _ _ _ H).
  unfold right_child. rewrite get4byte_rd4 by (done || lia). rewrite (tp_data _ _ _ _ T), (tp_hdr _ _ _ _ T). f_equal. by apply Hr.
Qed.

(** What there is of a row. *)
Record row_found (p : Z) (P : MemPage) (i : nat) (r : table_row) (info : CellInfo) (aPay : Z) (ps : list Z) : Prop := {
  rf_key : cell_key P (Z.of_nat i) = Some (Some r.1);
  rf_parse : btreeParseCell P (Z.of_nat i) = Some info;
  rf_nKey : nKey info = r.1;
  rf_info : info_for bt aPay (cell_local P (len r.2)) (len r.2) info;
  rf_local : 0 <= cell_local P (len r.2) <= len r.2 /\ len r.2 < 2147483648;
  rf_room : 1 <= aPay /\ aPay + cell_local P (len r.2) <= usableSize bt /\ (cell_local P (len r.2) < len r.2 -> aPay + cell_local P (len r.2) + 4 <= usableSize bt);
  rf_nodup : NoDup ps /\ p ∉ ps;
  rf_length : Z.of_nat (length ps) = (len r.2 - cell_local P (len r.2) + (usableSize bt - 4) - 1) / (usableSize bt - 4);
  rf_ps q : q ∈ ps -> 2 <= q <= np /\ q <> PENDING_BYTE_PAGE bt;
  rf_links : ps <> [] -> links D (rd4 (D p) (aPay + cell_local P (len r.2))) ps;
  rf_bytes j : 0 <= j < len r.2 -> rd (D (home bt p aPay (cell_local P (len r.2)) ps j).1) (home bt p aPay (cell_local P (len r.2)) ps j).2 = rd r.2 j
}.

Definition as_payload (r : table_row) : BtreePayload := {| x_pKey := []; x_nKey := r.1; x_pData := r.2; x_nData := len r.2; x_nZero := 0 |}.

(** The header of a row, and the sizes it gives. *)
Lemma row_parsed p P l i c r : table_page p P true l -> l !! i = Some c -> (exists rest, c = row_header r ++ rest) -> bytes_ok r.2 -> len r.2 < 2147483648 -> in_s 64 r.1 ->
  exists pc rest, let hl := len (row_header r) in let N := len r.2 in let L := cell_local P N in
    findCell P (Z.of_nat i) = Some pc /\ drop (Z.to_nat pc) (D p) = c ++ rest /\ bytes_ok rest /\ bytes_ok c /\ 8 <= pc /\ sub (D p) pc (len c) = c /\
    pc + len c <= usableSize bt <= len (D p) /\ len (D p) = pageSize bt /\ 1 <= hl <= 14 /\ 0 <= L <= N /\
    (L = N /\ hl + N <= len c \/ L < N /\ len c = hl + L + 4) /\
    exists info, parseCell_of P (c ++ rest) = Some info /\ nKey info = r.1 /\ nPayload info = N /\ nLocal info = L /\ pPayload info = Some (drop (Z.to_nat hl) (c ++ rest)).
Proof using Hlim.
  intros T Hi [crest Hc] Hb Hn Hk. destruct (table_cell _ _ _ _ _ _ T Hi) as (pc & rest & Hf & Hd & Hcb & Hr & Hp & Hu & Hs & Hz). pose proof (table_kind _ _ _ _ T) as (K1 & K2 & K3).
  pose proof (tp_cells _ _ _ _ T) as (cs & fs & top & H & _). pose proof (pk_kind _ _ _ _ _ H) as Hkind. destruct (pk_page _ _ _ _ _ H) as [Hps _]. rewrite (tp_data _ _ _ _ T), (tp_bt _ _ _ _ T) in Hps. clear H.
  destruct (cell_header_spec P _ (as_payload r) Hkind) as (h & Eh & Hh & Hhl & Hsay); [split; unfold payload_source, source_length, payload_length; rewrite (tp_int _ _ _ _ T); cbn; (done || lia)|].
  assert (h = row_header r) as ->.
  { unfold cell_header in Eh. rewrite (tp_int _ _ _ _ T) in Eh. unfold check in Eh. rewrite decide_True in Eh by done. cbn [mbind option_bind as_payload x_nData x_nZero x_nKey] in Eh.
    rewrite Z.add_0_r in Eh. assert (E : i32 (len r.2) = len r.2) by (apply wraps_id; [lia|unfold in_s; change (2 ^ (32 - 1)) with 2147483648; lia]). rewrite E in Eh. by injection Eh. }
  set (hl := len (row_header r)) in *. pose proof (tp_bt _ _ _ _ T) as Tb. assert (Hlc : limits_ok (pBt P)) by (by rewrite Tb).
  destruct (limits_of P _ Hlc Hkind) as (M1 & M2 & M3 & M4 & M5); [done|].
  assert (Hpar := Hsay (c ++ rest) (crest ++ rest)). rewrite K2, (tp_int _ _ _ _ T) in Hpar. change (Z.to_nat 0) with 0%nat in Hpar. rewrite drop_0, Z.add_0_l in Hpar.
  unfold payload_length in Hpar. rewrite (tp_int _ _ _ _ T) in Hpar. cbn [as_payload x_nKey x_nData x_nZero] in Hpar. rewrite Z.add_0_r, (wraps_id 64) in Hpar by (done || lia).
  assert (Hdec : c ++ rest = row_header r ++ crest ++ rest) by (by rewrite Hc, <- app_assoc). assert (Hcr : bytes_ok (c ++ rest)) by (apply bytes_ok_app; by split). rewrite Hc in Hcb. apply bytes_ok_app in Hcb as [_ Hcrest].
  specialize (Hpar Hcr ltac:(by apply bytes_ok_app) Hdec).
  destruct (parse_payload_size P (c ++ rest) hl r.1 (len r.2)) as (A1 & _ & _ & _ & A5 & A6 & A7 & _ & A9 & A10); [lia|lia|lia|lia|unfold hl; lia|].
  destruct (parsed_size P _ _ _ Hlc Hkind Hcr Hpar) as [Hsz _]. rewrite (cellSize_prefix _ _ _ _ Hz) in Hsz. injection Hsz as Hsz.
  pose proof (parse_payload_local P (c ++ rest) hl r.1 (len r.2)) as Hloc. specialize (Hloc ltac:(lia) ltac:(lia) ltac:(lia) ltac:(lia)). fold hl in Hpar.
  exists pc, rest. cbn zeta. fold hl. split; [done|]. split; [done|]. split; [done|]. split; [rewrite Hc; apply bytes_ok_app; by split|]. split; [done|]. split; [done|].
  split; [unfold usable in Hu; rewrite Tb in Hu; lia|]. split; [done|]. split; [done|].
  rewrite Hloc in A10. unfold cell_local in *. destruct (decide (len r.2 <= maxLocal P)) as [HN|HN].
  - specialize (A9 HN). split; [lia|]. split; [left; lia|]. eexists. split; [exact Hpar|]. by split_and!.
  - specialize (A10 ltac:(lia)). pose proof (local_bounds P (len r.2) ltac:(lia) ltac:(lia) ltac:(lia)). split; [lia|]. split; [right; lia|]. eexists. split; [exact Hpar|]. by split_and!.
Qed.

Lemma leaf_row p P l rows i r : table_page p P true l -> Forall2 (fun c r => exists ps, row_on p P c r ps) l rows -> rows !! i = Some r ->
  exists info aPay ps, row_found p P i r info aPay ps.
Proof using Hlim.
  intros T HF Hi. destruct (Forall2_lookup_r _ _ _ _ _ HF Hi) as (c & Hc & ps & [R1 [R2 R2'] R3 [R4 R4'] R5 R6 R7 R8]).
  destruct (row_parsed p P l i c r T Hc R3 R2 R2' R1) as (pc & rest & Hf & Hd & Hr & Hcb & Hp & Hs & Hu & Hps & Hhl & HL & HZ & info & Ei & I1 & I2 & I3 & I4).
  set (hl := len (row_header r)) in *. set (L := cell_local P (len r.2)) in *. pose proof (table_kind _ _ _ _ T) as (K1 & K2 & K3). pose proof (tp_data _ _ _ _ T) as Td.
  exists info, (pc + hl), ps. assert (Hrd : forall j, 0 <= j < len c -> rd (D p) (pc + j) = rd c j) by (intros j Hj; apply (rd_of_sub (D p) pc c j); (done || lia)).
  split; try done.
  - destruct R3 as [crest Ecr]. unfold cell_key. rewrite Hf, K1, K2, Td. cbn [mbind option_bind]. rewrite Z.add_0_l, Hd, Ecr. unfold row_header. rewrite <- !app_assoc.
    assert (Hcr : bytes_ok (crest ++ rest)) by (apply bytes_ok_app; split; [rewrite Ecr in Hcb; by apply bytes_ok_app in Hcb as [_ ?]|done]).
    rewrite skip_header; [|lia|intros E; apply (f_equal length) in E; rewrite !length_app in E; cbn in E; apply (PutVarint_nonempty (u64 r.1)); [apply wrapu_range; lia|by apply nil_length_inv; lia]].
    cbn [mbind option_bind]. destruct (key_read r.1 (crest ++ rest) R1 Hcr) as (m & -> & E). cbn [mbind option_bind]. by rewrite E.
  - unfold btreeParseCell. rewrite Hf. cbn [mbind option_bind]. by rewrite Td, Hd.
  - split; [done|]. split; [done|]. eexists. split; [exact I4|]. rewrite <- Hd, !length_drop. lia.
  - fold L. split_and!; lia.
  - fold L. intros Hne. replace (rd4 (D p) (pc + hl + L)) with (rd4 c (hl + L)); [by apply R7|]. destruct HZ as [[HZ _]|[_ HZ]].
    + exfalso. pose proof (limits_bounds _ Hlim) as (B1 & _). fold L in R5. rewrite HZ, Z.sub_diag, Z.add_0_l, Z.div_small in R5 by lia. by destruct ps.
    + apply rd4_ext. intros j Hj. rewrite <- Hrd by lia. f_equal. lia.
  - fold L. intros j Hj. rewrite <- (R8 j Hj). unfold home, payload_byte. case_decide; cbn [fst snd]; [|done]. rewrite <- Hrd by lia. f_equal. lia.
Qed.

End Table.
