(* ===== verification/SqlCursorMove.v ===== *)
(** * Moves of a cursor in the tree

    A cursor stands for a path in the tree of its table.  The routines of [SqlCursor] that go to a child, to the
    parent, to the root, and to the first or last leaf from there. *)

From S2P Require Import Prelude Bits SqlBytes SqlCell SqlCellProps SqlPage SqlFreelist SqlFreelistOk SqlCursor SqlCursorTree.

(** ** Paths *)

(** The subtree [u] under the frames [fs], the lowest first: a page and the index of the child that was taken. *)
Inductive focus (T : tree) : list (tree * nat) -> tree -> Prop :=
  | focus_root : focus T [] T
  | focus_child fs t i u : focus T fs t -> kids_of t !! i = Some u -> focus T ((t, i) :: fs) u.

(** The rows before and after the subtree. *)
Fixpoint before (fs : list (tree * nat)) : list table_row :=
  match fs with [] => [] | (t, i) :: fs => before fs ++ (take i (kids_of t) ≫= flat) end.
Fixpoint after (fs : list (tree * nat)) : list table_row :=
  match fs with [] => [] | (t, i) :: fs => (drop (S i) (kids_of t) ≫= flat) ++ after fs end.

Definition stack (fs : list (tree * nat)) : list (Z * Z) := (fun f => (root f.1, Z.of_nat f.2)) <$> fs.

Lemma flat_kids t i u : kids_of t !! i = Some u -> flat t = (take i (kids_of t) ≫= flat) ++ flat u ++ (drop (S i) (kids_of t) ≫= flat).
Proof.
  intros Hi. assert (flat t = kids_of t ≫= flat) as -> by (destruct t; [done|reflexivity]).
  rewrite <- (take_drop_middle _ _ _ Hi) at 1. by rewrite bind_app, bind_cons.
Qed.

Lemma focus_flat T fs u : focus T fs u -> flat T = before fs ++ flat u ++ after fs.
Proof.
  induction 1 as [|fs t i u Hf IH Hi]; cbn [before after]; [by rewrite app_nil_r|]. rewrite IH, (flat_kids t i u Hi), <- !app_assoc. done.
Qed.

Lemma focus_bottom T fs u : focus T fs u -> match last (stack fs) with None => fs = [] /\ u = T | Some (p, _) => p = root T end.
Proof.
  induction 1 as [|fs t i u Hf IH Hi]; [done|]. cbn [stack fmap list_fmap]. fold (stack fs). rewrite last_cons.
  destruct (last (stack fs)) as [[p x]|]; [done|]. destruct IH as [_ ->]. done.
Qed.

(** ** Steps of routines *)

Lemma step_act {A B} (m : act A) (k : A -> act B) s a s' : m s = Some (a, s') -> (x ← m; k x) s = k a s'.
Proof. intros E. unfold mbind, act_bind. by rewrite E. Qed.

Lemma step_look {A B} (f : State -> A) (k : A -> act B) s : (x ← look f; k x) s = k (f s) s.
Proof. done. Qed.

Lemma step_change {B} f (k : unit -> act B) s : (x ← change f; k x) s = k tt (set_cur (f (st_cur s)) s).
Proof. done. Qed.

Lemma step_try {A B} (o : option A) (k : A -> act B) s a : o = Some a -> (x ← try o; k x) s = k a s.
Proof. by intros ->. Qed.

Lemma step_assert {B} (P : Cursor -> Prop) `{forall c, Decision (P c)} (k : unit -> act B) s : P (st_cur s) -> (x ← assert P; k x) s = k tt s.
Proof. intros HP. unfold assert, mbind, act_bind. by rewrite decide_True. Qed.

Lemma step_page {B} (k : MemPage -> act B) s p : pPage (st_cur s) = Some p -> (x ← page; k x) s = k (btreePageFromDbPage p s) s.
Proof. intros E. unfold page, mbind, act_bind. by rewrite E. Qed.

Lemma rc_ok {A} (x y : A) : (if decide (SQLITE_OK <> SQLITE_OK) then x else y) = y.
Proof. done. Qed.

Lemma bind_none : ([] : list tree) ≫= flat = [].
Proof. done. Qed.

Section Moves.
Context (bt : BtShared) (np : Z) (D : Z -> bytes).
Hypothesis Hlim : limits_ok bt.
Hypothesis Hnp : np < 4294967296.

#[local] Abbreviation table_page := (table_page bt np D).
#[local] Abbreviation subtree_page := (subtree_page bt np D).
#[local] Abbreviation tree_ok := (tree_ok bt np D).

Lemma focus_ok T fs u : focus T fs u -> forall h, tree_ok h T -> exists h', tree_ok h' u /\ (h' + length fs <= h)%nat /\ (fs <> [] -> filled u).
Proof using Type.
  induction 1 as [|fs t i u Hf IH Hi]; intros h HT; [exists h; split; [done|cbn; split; [lia|done]]|].
  destruct (IH h HT) as (h' & Ht & Hh & _). destruct t as [p rows|p kids keys]; [done|]. apply node_inv in Ht as (h2 & -> & N).
  apply list_elem_of_lookup_2 in Hi. exists h2. split; [by apply (no_kids _ _ _ _ _ _ _ N)|]. cbn. split; [lia|intros _; by apply (no_filled _ _ _ _ _ _ _ N)].
Qed.

(** ** The database and the memory *)

(** The memory of the pages of tables is that of their bytes, when it is set. *)
Definition mem_fits (m : gmap Z MemPage) : Prop := forall p P lf l M, table_page p P lf l -> m !! p = Some M ->
  pBt M = bt /\ hdrOffset M = hdr_of p /\ (isInit M = true -> exists n, set_aData (D p) M = set_nFree n P).

Record world_ok (s : State) : Prop := {
  wo_db : db_ok (st_db s);
  wo_bt : db_bt (st_db s) = bt;
  wo_pages : nPage (st_db s) = np /\ np <= dbSize (st_db s);
  wo_data p : page_of (st_db s) p = D p;
  wo_mem : mem_fits (st_mem s)
}.

(** The page is in the cache, and its memory is set. *)
Definition held (s : State) (p : Z) : Prop := p ∈ cache (st_db s) /\ exists M, st_mem s !! p = Some M /\ isInit M = true.

(** What a move keeps. *)
Record walk (s s' : State) : Prop := {
  wk_world : world_ok s -> world_ok s';
  wk_held p : held s p -> held s' p;
  wk_state : eState (st_cur s') = eState (st_cur s);
  wk_last : atLast (st_cur s') = atLast (st_cur s);
  wk_skip : skipNext (st_cur s') = skipNext (st_cur s);
  wk_fixed : (pKeyInfo (st_cur s'), pgnoRoot (st_cur s'), curIntKey (st_cur s'), pinned (st_cur s')) =
             (pKeyInfo (st_cur s), pgnoRoot (st_cur s), curIntKey (st_cur s), pinned (st_cur s))
}.

#[export] Instance walk_refl : Reflexive walk.
Proof using Type. by intros s. Qed.

#[export] Instance walk_trans : Transitive walk.
Proof using Type. intros s1 s2 s3 [A1 A2 A3 A4 A5 A6] [B1 B2 B3 B4 B5 B6]. split; [tauto|auto|congruence..]. Qed.

(** A change of the cursor that is a move. *)
Lemma walk_cur s c : let o := st_cur s in eState c = eState o -> atLast c = atLast o -> skipNext c = skipNext o ->
  (pKeyInfo c, pgnoRoot c, curIntKey c, pinned c) = (pKeyInfo o, pgnoRoot o, curIntKey o, pinned o) -> walk s (set_cur c s).
Proof using Type. intros o H1 H2 H3 H4. split; try done. by intros [? ? ? ? ?]. Qed.

Lemma page_is s p P lf l : world_ok s -> held s p -> table_page p P lf l -> exists n, btreePageFromDbPage p s = set_nFree n P.
Proof using Type.
  intros [W1 W2 W3 W4 W5] [_ (M & HM & Hi)] T. destruct (W5 p P lf l M T HM) as (_ & _ & H). unfold btreePageFromDbPage. rewrite HM, W4. by apply H.
Qed.

(** What the pager answers for a page of the database. *)
Lemma pager_get_spec s p P lf l : world_ok s -> table_page p P lf l ->
  exists s', pager_get p s = Some (SQLITE_OK, s') /\ walk s s' /\ st_cur s' = st_cur s /\ st_cellck s' = st_cellck s /\ p ∈ cache (st_db s') /\
    (forall M, st_mem s' !! p = Some M -> st_mem s !! p = Some M).
Proof using All.
  intros W T. pose proof W as [W1 W2 W3 W4 W5]. destruct (tp_range _ _ _ _ _ _ _ T) as [R1 R2].
  assert (exists d, sqlite3PagerGet p false (st_db s) = Some (Ok tt, d) /\ d = (if bool_decide (p ∈ cache (st_db s)) then st_db s else set_cache ({[p]} ∪ cache (st_db s)) (st_db s))) as (d & E & Ed).
  { unfold sqlite3PagerGet. rewrite decide_False by lia. unfold gets, update, mbind, routine_bind, mret, routine_ret. cbn beta iota.
    destruct (bool_decide (p ∈ cache (st_db s))) eqn:Eb; cbn [andb negb]; [by eexists|]. unfold next_answer. rewrite (do_answers _ W1). cbn beta iota.
    rewrite W2. rewrite decide_False by done. rewrite bool_decide_eq_false_2 by lia. cbn [orb]. by eexists. }
  unfold pager_get. rewrite E. cbn [mbind option_bind]. eexists. split; [reflexivity|]. cbn [set_mem set_db st_cur st_cellck st_mem st_db].
  assert (Hin : p ∈ cache d) by (rewrite Ed; case_bool_decide; [done|cbn [set_cache cache]; set_solver]).
  split; [|split; [done|split; [done|split; [done|intros M; case_bool_decide; [done|by rewrite lookup_delete_eq]]]]]. split; try done.
  - intros _. split; cbn [set_mem set_db st_db st_mem]; rewrite ?Ed; [case_bool_decide; [done|by destruct W1]|by case_bool_decide|by case_bool_decide|intros q; rewrite <- W4; by case_bool_decide|].
    intros q Q lq lc M TQ HM. apply (W5 q Q lq lc M TQ). case_bool_decide; [done|by apply lookup_delete_Some in HM as [_ ?]].
  - intros q [Hq (M & HM & Hi)]. split; cbn [set_mem set_db st_db st_mem]; [rewrite Ed; case_bool_decide; [done|cbn [set_cache cache]; set_solver]|].
    exists M. split; [|done]. case_bool_decide; [done|]. apply lookup_delete_Some. split; [by intros ->|done].
Qed.

Lemma getAndInit_spec s p P lf l : world_ok s -> table_page p P lf l ->
  exists s', getAndInitPage p s = Some (SQLITE_OK, s') /\ walk s s' /\ st_cur s' = st_cur s /\ held s' p.
Proof using All.
  intros W T. pose proof W as [W1 W2 [W3 W3'] W4 W5]. destruct (tp_range _ _ _ _ _ _ _ T) as [R1 R2].
  unfold getAndInitPage, look, mbind, act_bind, mret, act_ret. rewrite decide_False by lia.
  destruct (pager_get_spec s p P lf l W T) as (s1 & E1 & K1 & C1 & Ck & H1 & M1). rewrite E1. rewrite decide_False by (unfold SQLITE_OK; lia).
  pose proof (wk_world _ _ K1 W) as W'. destruct W' as [X1 X2 X3 X4 X5].
  assert (Hbp : btreePageFromDbPage p s1 = set_aData (D p) (default (fresh_page bt p) (st_mem s1 !! p))) by (unfold btreePageFromDbPage; by rewrite X4, X2).
  assert (Hfit : let Q := btreePageFromDbPage p s1 in pBt Q = bt /\ aData Q = D p /\ hdrOffset Q = hdr_of p).
  { rewrite Hbp. destruct (st_mem s1 !! p) as [M|] eqn:EM; cbn [default from_option id]; [|done]. destruct (X5 p P lf l M T EM) as (F1 & F2 & _). done. }
  destruct (isInit (btreePageFromDbPage p s1)) eqn:Ei.
  - exists s1. split; [done|]. split; [done|]. split; [done|]. split; [done|]. rewrite Hbp in Ei. destruct (st_mem s1 !! p) as [M|]; [|done]. by exists M.
  - destruct Hfit as (F1 & F2 & F3). unfold try. rewrite (table_init bt np D (st_cellck s1) p P lf l _ T F1 F2 F3 Ei). cbn [mbind option_bind set_page].
    destruct (table_count _ _ _ _ _ _ _ T) as (_ & Hini & _).
    eexists. split; [reflexivity|]. split; [|split; [done|split; [done|]]].
    + destruct K1 as [K1 K2 K3 K4 K5 K6]. split; try done.
      * intros _. split; try done. intros q Q lq lc M TQ HM. cbn [set_mem st_mem] in HM. destruct (decide (q = p)) as [->|Hne].
        -- rewrite lookup_insert_eq in HM. injection HM as <-. split; [apply (tp_bt _ _ _ _ _ _ _ T)|]. split; [apply (tp_hdr _ _ _ _ _ _ _ T)|].
           intros _. exists (-1). pose proof (table_init bt np D (st_cellck s1) p P lf l _ T F1 F2 F3 Ei) as I1. rewrite (table_init bt np D (st_cellck s1) p Q lq lc _ TQ F1 F2 F3 Ei) in I1.
           assert (EQ : set_nFree (-1) Q = set_nFree (-1) P) by congruence. rewrite EQ. unfold set_aData, set_nFree. cbn. rewrite <- (tp_data _ _ _ _ _ _ _ T). by destruct P.
        -- rewrite lookup_insert_ne in HM by done. by apply (X5 q Q lq lc M).
      * intros q Hq. destruct (K2 q Hq) as [Q1 (M & Q2 & Q3)]. split; [done|]. cbn [set_mem st_mem]. destruct (decide (q = p)) as [->|Hne].
        -- rewrite lookup_insert_eq. eexists. split; [done|done].
        -- rewrite lookup_insert_ne by done. by exists M.
    + cbn [set_mem st_mem]. rewrite lookup_insert_eq. eexists. by split.
Qed.

(** ** Down and up *)

Section Walk.
Context (T : tree).

(** The cursor is on the page of the subtree [u]. *)
Record at_node (s : State) (fs : list (tree * nat)) (u : tree) : Prop := {
  an_focus : focus T fs u;
  an_page : pPage (st_cur s) = Some (root u);
  an_path : apPage (st_cur s) = stack fs;
  an_held : held s (root u);
  an_frames t i : (t, i) ∈ fs -> held s (root t)
}.

(** Nothing is known of the cell. *)
Definition quiet (c : Cursor) : Prop := c_info c = None /\ validNKey c = false /\ validOvfl c = false.

Lemma at_node_page s fs u P : world_ok s -> at_node s fs u -> subtree_page u P -> exists n, btreePageFromDbPage (root u) s = set_nFree n P.
Proof using Type. intros W A HP. destruct (subtree_table _ _ _ _ _ HP) as [l Hl]. by apply (page_is s _ _ _ _ W (an_held _ _ _ A) Hl). Qed.

(** What the page of a subtree says. *)
Lemma subtree_facts u P h : subtree_page u P -> tree_ok h u -> filled u -> 0 < nCell P /\ intKey P = true /\ isInit P = true.
Proof using Type.
  destruct u as [p rows|p kids keys]; cbn [SqlCursorTree.subtree_page filled].
  - intros (l & Hl & HF) _ Hr. destruct (table_count _ _ _ _ _ _ _ Hl) as (-> & Hi & _). apply Forall2_length in HF. split; [destruct rows; [done|cbn in HF; lia]|].
    split; [apply (tp_int _ _ _ _ _ _ _ Hl)|done].
  - intros Hl (h' & -> & N)%node_inv Hk. destruct (table_count _ _ _ _ _ _ _ Hl) as (-> & Hi & _). rewrite length_zip_with, (no_length _ _ _ _ _ _ _ N).
    split; [destruct keys; [done|cbn; lia]|]. split; [apply (tp_int _ _ _ _ _ _ _ Hl)|done].
Qed.

Lemma down s fs u i v h : world_ok s -> at_node s fs u -> eState (st_cur s) = CURSOR_VALID -> curIntKey (st_cur s) = true -> kids_of u !! i = Some v ->
  c_ix (st_cur s) = Z.of_nat i -> tree_ok h v -> filled v -> (length fs < 19)%nat ->
  exists s', moveToChild (root v) s = Some (SQLITE_OK, s') /\ walk s s' /\ at_node s' ((u, i) :: fs) v /\ c_ix (st_cur s') = 0 /\ quiet (st_cur s').
Proof using All.
  intros W A HV HI Hi Hx Hv Hfl Hd. pose proof A as [A1 A2 A3 A4 A5]. unfold moveToChild. rewrite step_assert by (split; [done|by rewrite A2]). rewrite step_look.
  rewrite decide_False by (rewrite A3; unfold stack; rewrite length_fmap; cbn; lia). rewrite (step_try _ _ _ _ A2), step_change.
  set (c1 := set_place _ _ _ _). assert (K0 : walk s (set_cur c1 s)) by (by apply walk_cur).
  destruct (tree_page _ _ _ _ _ Hv) as [P HP]. destruct (subtree_table _ _ _ _ _ HP) as [l Hl].
  destruct (getAndInit_spec (set_cur c1 s) _ _ _ _ (wk_world _ _ K0 W) Hl) as (s1 & E1 & K1 & C1 & H1). rewrite (step_act _ _ _ _ _ E1).
  assert (K01 : walk s s1) by (by transitivity (set_cur c1 s)). rewrite (step_page _ _ (root v)) by (by rewrite C1).
  destruct (page_is s1 _ _ _ _ (wk_world _ _ K01 W) H1 Hl) as [n ->]. destruct (subtree_facts v P h HP Hv Hfl) as (F1 & F2 & _).
  rewrite (decide_False (P := SQLITE_OK = SQLITE_OK /\ _)) by (change (nCell (set_nFree n P)) with (nCell P); change (intKey (set_nFree n P)) with (intKey P); rewrite HI; intros [_ [?|?]]; [lia|congruence]).
  rewrite rc_ok. exists s1. split; [done|]. split; [done|]. split; [|by rewrite C1].
  split; rewrite ?C1; cbn [c1 set_place pPage apPage]; [by apply focus_child|done|cbn; by rewrite A3, Hx|done|].
  intros t j [Hj|Hj]%elem_of_cons; [injection Hj as -> ->; by apply (wk_held _ _ K01)|]. apply (wk_held _ _ K01). by apply (A5 t j).
Qed.

Lemma up s fs t i u : world_ok s -> at_node s ((t, i) :: fs) u -> eState (st_cur s) = CURSOR_VALID ->
  exists s', moveToParent s = Some (tt, s') /\ walk s s' /\ at_node s' fs t /\ kids_of t !! i = Some u /\ c_ix (st_cur s') = Z.of_nat i /\ quiet (st_cur s').
Proof using All.
  intros W [A1 A2 A3 A4 A5] HV. unfold moveToParent. rewrite step_assert by (split; [done|by rewrite A2, A3]). rewrite step_look, A3. cbn [stack fmap list_fmap fst snd].
  unfold change. eexists. split; [reflexivity|]. inversion A1 as [|fs' t' i' u' Hf Hi]; subst. split; [by apply walk_cur|]. split; [|done].
  split; [done|done|done| |].
  - apply (A5 t i). by left.
  - intros t2 j Hj. apply (A5 t2 j). by right.
Qed.

Lemma at_node_cur s fs u c : at_node s fs u -> pPage c = pPage (st_cur s) -> apPage c = apPage (st_cur s) -> at_node (set_cur c s) fs u.
Proof using Type. intros [A1 A2 A3 A4 A5] E1 E2. split; cbn [set_cur st_cur]; rewrite ?E1, ?E2; done. Qed.

(** The children by their numbers on the page. *)
Lemma child_page h p kids keys P i v : node_ok bt np D h p kids keys -> table_page p P false (zip_with child_cell kids keys) -> kids !! i = Some v -> tree_ok h v ->
  nCell P = Z.of_nat (length keys) /\ (if decide (i < length keys)%nat then child_at P (Z.of_nat i) = Some (root v) else right_child P = Some (root v)).
Proof using All.
  intros N HP Hi Hv. destruct (table_count _ _ _ _ _ _ _ HP) as (Hc & _). rewrite length_zip_with, (no_length _ _ _ _ _ _ _ N) in Hc. split; [lia|].
  destruct (tree_page _ _ _ _ _ Hv) as [V HV]. destruct (subtree_table _ _ _ _ _ HV) as [l Hl]. destruct (tp_range _ _ _ _ _ _ _ Hl) as [R1 R2].
  pose proof (lookup_lt_Some _ _ _ Hi) as Hlt. rewrite (no_length _ _ _ _ _ _ _ N) in Hlt. case_decide as Hk.
  - destruct (lookup_lt_is_Some_2 keys i Hk) as [k Ek]. eapply (node_cell _ _ _ _ _ _ i v k HP).
    + by rewrite lookup_zip_with, Hi, Ek.
    + lia.
    + pose proof (no_keys _ _ _ _ _ _ _ N) as HK. rewrite Forall_forall in HK. apply HK. by apply list_elem_of_lookup_2 in Ek.
  - apply (node_right _ _ _ _ _ _ _ _ _ _ HP N). rewrite last_lookup, (no_length _ _ _ _ _ _ _ N). cbn [pred]. by replace (length keys) with i by lia.
Qed.

(** Where a walk down from the child [i] starts: at a leaf, at its first row. *)
Definition start_at (u : tree) (i : nat) : Prop := match u with Leaf _ rows => rows <> [] /\ i = O | Node _ _ keys => (i < length keys)%nat end.

Lemma filled_start u : filled u -> start_at u 0.
Proof using Type. destruct u as [p rows|p kids [|k keys]]; cbn; [done|done|lia]. Qed.

Lemma to_leftmost_spec fuel : forall h s fs u i, (h < fuel)%nat -> tree_ok h u -> (h + length fs <= 19)%nat -> world_ok s -> at_node s fs u ->
  eState (st_cur s) = CURSOR_VALID -> curIntKey (st_cur s) = true -> quiet (st_cur s) -> c_ix (st_cur s) = Z.of_nat i -> start_at u i ->
  exists s' fs' p rows, to_leftmost fuel s = Some (SQLITE_OK, s') /\ walk s s' /\ at_node s' fs' (Leaf p rows) /\ rows <> [] /\
    c_ix (st_cur s') = 0 /\ quiet (st_cur s') /\ before fs' = before ((u, i) :: fs).
Proof using All.
  induction fuel as [|fuel IH]; intros h s fs u i Hf Hu Hd W A HV HI HQ Hx Hs; [lia|]. cbn [to_leftmost].
  destruct (tree_page _ _ _ _ _ Hu) as [P HP]. destruct (at_node_page s fs u P W A HP) as [n EP]. rewrite (step_page _ _ _ (an_page _ _ _ A)), EP.
  destruct u as [p rows|p kids keys]; cbn [SqlCursorTree.subtree_page start_at] in *.
  - destruct HP as (l & Hl & HF). change (leaf (set_nFree n P)) with (leaf P). rewrite (tp_leaf _ _ _ _ _ _ _ Hl). destruct Hs as [Hr ->].
    exists s, fs, p, rows. cbn [before kids_of]. rewrite take_nil, bind_none, app_nil_r. by split_and!.
  - change (leaf (set_nFree n P)) with (leaf P). rewrite (tp_leaf _ _ _ _ _ _ _ HP). apply node_inv in Hu as (h' & -> & N).
    destruct (lookup_lt_is_Some_2 kids i) as [v Hv]; [rewrite (no_length _ _ _ _ _ _ _ N); lia|]. pose proof (list_elem_of_lookup_2 _ _ _ Hv) as Hin.
    destruct (child_page h' p kids keys P i v N HP Hv (no_kids _ _ _ _ _ _ _ N v Hin)) as [Hc Hch]. rewrite decide_True in Hch by done.
    change (nCell (set_nFree n P)) with (nCell P). rewrite step_assert by lia. rewrite step_look, Hx.
    change (child_at (set_nFree n P)) with (child_at P). rewrite (step_try _ _ _ _ Hch).
    destruct (down s fs (Node p kids keys) i v h' W A HV HI Hv Hx (no_kids _ _ _ _ _ _ _ N v Hin) (no_filled _ _ _ _ _ _ _ N v Hin) ltac:(lia)) as (s1 & E1 & K1 & A1 & X1 & Q1).
    rewrite (step_act _ _ _ _ _ E1), rc_ok.
    destruct (IH h' s1 ((Node p kids keys, i) :: fs) v O) as (s2 & fs' & q & rows & E2 & K2 & A2 & R2 & X2 & Q2 & B2); try done.
    + lia.
    + by apply (no_kids _ _ _ _ _ _ _ N).
    + cbn [length]. lia.
    + by apply (wk_world _ _ K1).
    + by rewrite (wk_state _ _ K1).
    + pose proof (wk_fixed _ _ K1). congruence.
    + apply filled_start. by apply (no_filled _ _ _ _ _ _ _ N).
    + exists s2, fs', q, rows. split; [done|]. split; [by transitivity s1|]. split; [done|]. split; [done|]. split; [done|]. split; [done|].
      rewrite B2. cbn [before]. by rewrite take_0, bind_none, app_nil_r.
Qed.

Lemma to_rightmost_spec fuel : forall h s fs u, (h < fuel)%nat -> tree_ok h u -> (h + length fs <= 19)%nat -> world_ok s -> at_node s fs u ->
  eState (st_cur s) = CURSOR_VALID -> curIntKey (st_cur s) = true -> quiet (st_cur s) -> filled u ->
  exists s' fs' p rows, to_rightmost fuel s = Some (SQLITE_OK, s') /\ walk s s' /\ at_node s' fs' (Leaf p rows) /\ rows <> [] /\
    c_ix (st_cur s') = Z.of_nat (length rows) - 1 /\ quiet (st_cur s') /\ after fs' = after fs.
Proof using All.
  induction fuel as [|fuel IH]; intros h s fs u Hf Hu Hd W A HV HI HQ Hs; [lia|]. cbn [to_rightmost].
  destruct (tree_page _ _ _ _ _ Hu) as [P HP]. destruct (at_node_page s fs u P W A HP) as [n EP]. rewrite (step_page _ _ _ (an_page _ _ _ A)), EP.
  destruct u as [p rows|p kids keys]; cbn [SqlCursorTree.subtree_page filled] in *.
  - destruct HP as (l & Hl & HF). change (leaf (set_nFree n P)) with (leaf P). rewrite (tp_leaf _ _ _ _ _ _ _ Hl). rewrite step_change.
    destruct HQ as (Q1 & Q2 & Q3). rewrite step_assert by done. change (nCell (set_nFree n P)) with (nCell P). destruct (table_count _ _ _ _ _ _ _ Hl) as (Hc & _ & Hc2).
    apply Forall2_length in HF. assert (0 < length rows)%nat by (destruct rows; [done|cbn; lia]). rewrite u16_small by lia.
    eexists _, fs, p, rows. split; [reflexivity|]. split; [by apply walk_cur|]. split; [by apply at_node_cur|]. split; [done|]. split; [cbn; lia|]. done.
  - change (leaf (set_nFree n P)) with (leaf P). rewrite (tp_leaf _ _ _ _ _ _ _ HP). apply node_inv in Hu as (h' & -> & N). set (i := length keys).
    destruct (lookup_lt_is_Some_2 kids i) as [v Hv]; [rewrite (no_length _ _ _ _ _ _ _ N); lia|]. pose proof (list_elem_of_lookup_2 _ _ _ Hv) as Hin.
    destruct (child_page h' p kids keys P i v N HP Hv (no_kids _ _ _ _ _ _ _ N v Hin)) as [Hc Hch]. rewrite decide_False in Hch by lia.
    change (right_child (set_nFree n P)) with (right_child P). rewrite (step_try _ _ _ _ Hch), step_change. change (nCell (set_nFree n P)) with (nCell P).
    set (s0 := set_cur _ s). assert (K0 : walk s s0) by (by apply walk_cur). assert (A0 : at_node s0 fs (Node p kids keys)) by (by apply at_node_cur).
    destruct (down s0 fs (Node p kids keys) i v h' (wk_world _ _ K0 W) A0 HV HI Hv Hc (no_kids _ _ _ _ _ _ _ N v Hin) (no_filled _ _ _ _ _ _ _ N v Hin) ltac:(lia)) as (s1 & E1 & K1 & A1 & X1 & Q1).
    rewrite (step_act _ _ _ _ _ E1), rc_ok. assert (K01 : walk s s1) by (by transitivity s0).
    destruct (IH h' s1 ((Node p kids keys, i) :: fs) v) as (s2 & fs' & q & rows & E2 & K2 & A2 & R2 & X2 & Q2 & B2); try done.
    + lia.
    + by apply (no_kids _ _ _ _ _ _ _ N).
    + cbn [length]. lia.
    + by apply (wk_world _ _ K01).
    + by rewrite (wk_state _ _ K01).
    + pose proof (wk_fixed _ _ K01). congruence.
    + by apply (no_filled _ _ _ _ _ _ _ N).
    + exists s2, fs', q, rows. split; [done|]. split; [by transitivity s1|]. split; [done|]. split; [done|]. split; [done|]. split; [done|].
      rewrite B2. cbn [after kids_of]. rewrite drop_ge; [done|]. rewrite (no_length _ _ _ _ _ _ _ N). lia.
Qed.

(** ** To the root *)

Context (hT : nat).
Hypothesis HT : tree_ok hT T.
Hypothesis Hheight : (hT <= 19)%nat.
(** Only page 1 can have a child and no key. *)
Hypothesis Hroot : match T with Leaf _ _ => True | Node p _ keys => keys = [] -> p = 1 end.

(** What any routine keeps. *)
Record kept (s s' : State) : Prop := {
  kp_world : world_ok s -> world_ok s';
  kp_fixed : (pKeyInfo (st_cur s'), pgnoRoot (st_cur s'), pinned (st_cur s')) = (pKeyInfo (st_cur s), pgnoRoot (st_cur s), pinned (st_cur s));
  kp_skip : skipNext (st_cur s') = skipNext (st_cur s)
}.

#[export] Instance kept_refl : Reflexive kept.
Proof using Type. by intros s. Qed.

#[export] Instance kept_trans : Transitive kept.
Proof using Type. intros s1 s2 s3 [A1 A2 A3] [B1 B2 B3]. split; [tauto|congruence..]. Qed.

Lemma walk_kept s s' : walk s s' -> kept s s'.
Proof using Type. intros [W1 W2 W3 W4 W5 W6]. split; [done|congruence|done]. Qed.

Lemma kept_cur s c : let o := st_cur s in skipNext c = skipNext o -> (pKeyInfo c, pgnoRoot c, pinned c) = (pKeyInfo o, pgnoRoot o, pinned o) -> kept s (set_cur c s).
Proof using Type. intros o H3 H4. split; try done. by intros [? ? ? ? ?]. Qed.

(** The cursor is on a page from which the whole table is reached. *)
Record at_top (s : State) (fs : list (tree * nat)) (u : tree) : Prop := {
  tt_node : at_node s fs u;
  tt_state : eState (st_cur s) = CURSOR_VALID;
  tt_int : curIntKey (st_cur s) = true;
  tt_ix : c_ix (st_cur s) = 0;
  tt_quiet : quiet (st_cur s);
  tt_last : atLast (st_cur s) = false;
  tt_filled : filled u;
  tt_all : before fs = [] /\ after fs = []
}.

(** The table is empty, and the cursor nowhere. *)
Record at_nothing (s : State) : Prop := {
  na_state : eState (st_cur s) = CURSOR_INVALID;
  na_node : pPage (st_cur s) = None \/ curIntKey (st_cur s) = true /\ exists fs u, at_node s fs u
}.

Definition rooted (r : Z) (s s' : State) : Prop :=
  kept s s' /\ (flat T = [] /\ r = SQLITE_EMPTY /\ at_nothing s' \/ r = SQLITE_OK /\ exists fs u, at_top s' fs u).

Lemma skip_init_spec s : world_ok s -> at_node s [] T -> curIntKey (st_cur s) = true -> exists r s', skip_init (root T) s = Some (r, s') /\ rooted r s s'.
Proof using All.
  intros W A HI. unfold skip_init. rewrite step_change. set (s0 := set_cur _ s). assert (K0 : kept s s0) by (by apply kept_cur).
  assert (A0 : at_node s0 [] T) by (by apply at_node_cur). pose proof (kp_world _ _ K0 W) as W0. destruct (tree_page _ _ _ _ _ HT) as [P HP].
  destruct (at_node_page s0 [] T P W0 A0 HP) as [n EP]. rewrite (step_page _ _ _ (an_page _ _ _ A0)), EP. change (nCell (set_nFree n P)) with (nCell P).
  change (leaf (set_nFree n P)) with (leaf P). change (right_child (set_nFree n P)) with (right_child P). destruct (decide (0 < nCell P)) as [Hn|Hn].
  - rewrite step_change. eexists _, _. split; [reflexivity|]. split; [transitivity s0; [done|by apply kept_cur]|]. right. split; [done|]. exists [], T. split; try done; [by apply at_node_cur|].
    clear Hroot HT. destruct T as [p rows|p kids keys]; cbn [SqlCursorTree.subtree_page filled] in *; intros ->; [destruct HP as (l & HP & HF); apply Forall2_length in HF|];
      destruct (table_count _ _ _ _ _ _ _ HP) as (Hc & _); [cbn in HF; lia|]. rewrite length_zip_with in Hc. cbn in Hc. lia.
  - assert (HTc := HT). assert (Hrc := Hroot). clear Hroot. assert (exists t, T = t) as [t Et] by eauto. rewrite Et in HP, HTc, Hrc. destruct t as [p rows|p kids keys]; cbn [SqlCursorTree.subtree_page] in HP.
    + destruct HP as (l & HP & HF). rewrite (tp_leaf _ _ _ _ _ _ _ HP), step_change. eexists _, _. split; [reflexivity|]. split; [transitivity s0; [done|by apply kept_cur]|].
      left. apply Forall2_length in HF. destruct (table_count _ _ _ _ _ _ _ HP) as (Hc & _). split; [rewrite Et; cbn [flat]; destruct rows; [done|cbn in HF; lia]|]. split; [done|].
      split; [done|]. right. split; [done|]. exists [], T. by apply at_node_cur.
    + rewrite (tp_leaf _ _ _ _ _ _ _ HP). apply node_inv in HTc as (h' & Eh & N). pose proof (no_length _ _ _ _ _ _ _ N) as Hl.
      assert (keys = []) as ->. { destruct (table_count _ _ _ _ _ _ _ HP) as (Hc & _). rewrite length_zip_with in Hc. destruct keys; [done|cbn in *; lia]. }
      assert (root T = 1) as -> by (rewrite Et; by apply Hrc). rewrite (decide_False (P := 1 <> 1)) by lia. destruct kids as [|v [|? ?]]; cbn in Hl; try lia.
      assert (Hv : [v] !! 0%nat = Some v) by done. pose proof (list_elem_of_lookup_2 _ _ _ Hv) as Hin.
      destruct (child_page h' p [v] [] P 0 v N HP Hv (no_kids _ _ _ _ _ _ _ N v Hin)) as [_ Hch]. rewrite decide_False in Hch by (cbn; lia).
      rewrite (step_try _ _ _ _ Hch), step_change. set (s1 := set_cur _ s0). assert (K1 : kept s0 s1) by (by apply kept_cur).
      assert (A1 : at_node s1 [] (Node p [v] [])) by (rewrite <- Et; by apply at_node_cur).
      destruct (down s1 [] (Node p [v] []) 0 v h' (kp_world _ _ K1 W0) A1 eq_refl HI Hv eq_refl (no_kids _ _ _ _ _ _ _ N v Hin) (no_filled _ _ _ _ _ _ _ N v Hin) ltac:(cbn; lia)) as (s2 & E2 & K2 & A2 & X2 & Q2).
      eexists _, s2. split; [exact E2|]. split; [transitivity s0; [done|]; transitivity s1; [done|by apply walk_kept]|]. right. split; [done|]. exists [(Node p [v] [], O)], v.
      pose proof (wk_fixed _ _ K2) as F2. split; [done|by rewrite (wk_state _ _ K2)|cbn in F2; congruence|done|done|by rewrite (wk_last _ _ K2)|by apply (no_filled _ _ _ _ _ _ _ N)|done].
Qed.

Lemma root_check_spec s : world_ok s -> at_node s [] T -> curIntKey (st_cur s) = true -> pKeyInfo (st_cur s) = false -> exists r s', root_check (root T) s = Some (r, s') /\ rooted r s s'.
Proof using All.
  intros W A HI HK. unfold root_check. destruct (tree_page _ _ _ _ _ HT) as [P HP]. destruct (at_node_page s [] T P W A HP) as [n EP]. rewrite (step_page _ _ _ (an_page _ _ _ A)), EP, step_look, HK.
  destruct (subtree_table _ _ _ _ _ HP) as [l Hl]. change (isInit (set_nFree n P)) with (isInit P). change (intKey (set_nFree n P)) with (intKey P).
  destruct (table_count _ _ _ _ _ _ _ Hl) as (_ & Hi & _). rewrite Hi, (tp_int _ _ _ _ _ _ _ Hl). rewrite decide_False by (intros [?|Hx]; [done|by apply Hx]). by apply skip_init_spec.
Qed.

(** A cursor on the table of [T], in any state but that of a fault. *)
Record on_table (s : State) : Prop := {
  ot_world : world_ok s;
  ot_key : pKeyInfo (st_cur s) = false;
  ot_root : pgnoRoot (st_cur s) = root T;
  ot_pinned : pinned (st_cur s) = false;
  ot_fault : eState (st_cur s) <> CURSOR_FAULT;
  ot_place : pPage (st_cur s) = None \/ eState (st_cur s) <> CURSOR_REQUIRESEEK /\ curIntKey (st_cur s) = true /\ exists fs u, at_node s fs u
}.

Lemma moveToRoot_spec s : on_table s -> exists r s', moveToRoot s = Some (r, s') /\ rooted r s s'.
Proof using All.
  intros [W HK HR _ HF Hp]. unfold moveToRoot. destruct (tree_page _ _ _ _ _ HT) as [P HP]. destruct (subtree_table _ _ _ _ _ HP) as [l Hl].
  destruct Hp as [Hp|(Hs & HI & fs & u & A)].
  - rewrite step_assert by (by right). rewrite step_look, Hp. destruct (tp_range _ _ _ _ _ _ _ Hl) as [R1 R2]. rewrite decide_False by (rewrite HR; lia). rewrite decide_False by done.
    assert (exists s0, (if decide (eState (st_cur s) = CURSOR_REQUIRESEEK) then change (set_eState CURSOR_INVALID) else mret tt) s = Some (tt, s0) /\ kept s s0 /\
      pPage (st_cur s0) = None) as (s0 & E0 & K0 & P0) by (case_decide; eexists; (split; [reflexivity|]); (split; [first [by apply kept_cur|reflexivity]|done])).
    rewrite (step_act _ _ _ _ _ E0). pose proof (kp_world _ _ K0 W) as W0. pose proof (kp_fixed _ _ K0) as F0.
    destruct (getAndInit_spec s0 _ _ _ _ W0 Hl) as (s1 & E1 & K1 & C1 & H1). rewrite HR, (step_act _ _ _ _ _ E1), rc_ok, step_change.
    pose proof (wk_world _ _ K1 W0) as W1. set (s2 := set_cur _ s1). assert (K2 : kept s1 s2) by (by apply kept_cur).
    assert (R1' : pgnoRoot (st_cur s1) = root T) by (rewrite C1; congruence). assert (P2 : pPage (st_cur s2) = Some (root T)) by (cbn; by rewrite R1').
    rewrite (step_page _ _ _ P2), step_change. destruct (page_is s2 _ _ _ _ (kp_world _ _ K2 W1) H1 Hl) as [n ->]. change (intKey (set_nFree n P)) with (intKey P).
    set (s3 := set_cur _ s2). assert (K3 : kept s2 s3) by (by apply kept_cur).
    destruct (root_check_spec s3) as (r & s' & E & K & Hr).
    + by apply (kp_world _ _ K3), (kp_world _ _ K2).
    + split; [apply focus_root|done|done|done|]. intros t j Hj. by apply elem_of_nil in Hj.
    + apply (tp_int _ _ _ _ _ _ _ Hl).
    + cbn. rewrite C1. congruence.
    + exists r, s'. split; [exact E|]. split; [|done]. transitivity s0; [done|]. transitivity s1; [by apply walk_kept|]. transitivity s2; [done|]. by transitivity s3.
  - rewrite step_assert by (by left). rewrite step_look, (an_page _ _ _ A), (an_path _ _ _ A). pose proof (focus_bottom _ _ _ (an_focus _ _ _ A)) as Hb.
    destruct (last (stack fs)) as [[p x]|] eqn:El.
    + subst p. rewrite step_change. set (s0 := set_cur _ s). assert (K0 : kept s s0) by (by apply kept_cur).
      assert (Hh : held s (root T)).
      { apply last_Some in El as [l' El]. assert (Hin : (root T, x) ∈ stack fs) by (rewrite El; apply elem_of_app; right; by left).
        apply list_elem_of_fmap in Hin as ([t j] & Ex & Hin). injection Ex as Ex _. rewrite Ex. by apply (an_frames _ _ _ A t j). }
      destruct (skip_init_spec s0) as (r & s' & E & K & Hr); [by apply (kp_world _ _ K0)| |done|].
      { split; [apply focus_root|done|done|done|]. intros t j Hj. by apply elem_of_nil in Hj. }
      exists r, s'. split; [exact E|]. split; [by transitivity s0|done].
    + destruct Hb as [-> ->]. by apply root_check_spec.
Qed.

End Walk.

End Moves.
