(* ===== verification/SqlCursorRow.v ===== *)
(** * A cursor on a row

    The routines of [SqlCursor] that read the row of a cursor, and go to the first, the last, the next and the previous
    row, on the list of the rows of the table. *)

From S2P Require Import Prelude Bits SqlBytes SqlCell SqlCellProps SqlPage SqlPageProps SqlFreelist SqlFreelistOk SqlOverflow SqlOverflowCell.
From S2P Require Import SqlOverflowAccess SqlCursor SqlCursorTree SqlCursorMove.

Section Rows.
Context (bt : BtShared) (np : Z) (D : Z -> bytes).
Hypothesis Hlim : limits_ok bt.
Hypothesis Hnp : np < 4294967296.
Context (T : tree) (hT : nat).
Hypothesis HT : tree_ok bt np D hT T.
Hypothesis Hheight : (hT <= 19)%nat.
Hypothesis Hroot : match T with Leaf _ _ => True | Node p _ keys => keys = [] -> p = 1 end.

#[local] Abbreviation table_page := (table_page bt np D).
#[local] Abbreviation row_on := (row_on bt np D).
#[local] Abbreviation row_found := (row_found bt np D).
#[local] Abbreviation tree_ok := (tree_ok bt np D).
#[local] Abbreviation world_ok := (world_ok bt np D).
#[local] Abbreviation walk := (walk bt np D).
#[local] Abbreviation kept := (kept bt np D).
#[local] Abbreviation at_node := (at_node T).
#[local] Abbreviation at_nothing := (at_nothing T).
#[local] Abbreviation on_table := (on_table bt np D T).

(** ** Positions *)

(** What the cursor knows of its cell is true of the row.  A rowid it remembers need not be ([claim]). *)
Definition knows (p : Z) (i : nat) (r : table_row) (c : Cursor) : Prop := exists P l info aPay ps,
  table_page p P true l /\ Z.of_nat i < nCell P /\ row_found p P i r info aPay ps /\
  (c_info c = None \/ c_info c = Some info /\ info_nKey c = r.1) /\
  (validOvfl c = true -> cache_ok ps (c_aOverflow c)).

(** The cursor is on the row [r] of the page [p], after the rows [l] and before the rows [l']. *)
Definition on_row (s : State) (l : list table_row) (r : table_row) (l' : list table_row) : Prop := exists fs p rows i,
  at_node s fs (Leaf p rows) /\ rows !! i = Some r /\ c_ix (st_cur s) = Z.of_nat i /\ eState (st_cur s) = CURSOR_VALID /\ curIntKey (st_cur s) = true /\
  l = before fs ++ take i rows /\ l' = drop (S i) rows ++ after fs /\ (atLast (st_cur s) = true -> l' = []) /\ knows p i r (st_cur s).

Lemma on_row_flat s l r l' : on_row s l r l' -> flat T = l ++ r :: l'.
Proof using Type.
  intros (fs & p & rows & i & A & Hi & _ & _ & _ & -> & -> & _). rewrite (focus_flat _ _ _ (an_focus _ _ _ _ A)). cbn [flat].
  rewrite <- (take_drop_middle _ _ _ Hi) at 1. by rewrite <- !app_assoc.
Qed.

Lemma leaf_page fs p rows : focus T fs (Leaf p rows) -> exists P l, table_page p P true l /\ Forall2 (fun c r => exists ps, row_on p P c r ps) l rows /\
  nCell P = Z.of_nat (length rows) /\ 0 <= nCell P <= 32768 /\ isInit P = true /\ intKey P = true /\ leaf P = true.
Proof using All.
  intros F. destruct (focus_ok _ _ _ _ _ _ F hT HT) as (h' & Hh & _). destruct (tree_page _ _ _ _ _ Hh) as [P (l & Hl & HF)].
  destruct (table_count _ _ _ _ _ _ _ Hl) as (Hc & Hi & Hc2). pose proof (Forall2_length _ _ _ HF) as HL. exists P, l.
  split; [done|]. split; [done|]. split; [lia|]. split; [done|]. split; [done|]. split; [apply (tp_int _ _ _ _ _ _ _ Hl)|apply (tp_leaf _ _ _ _ _ _ _ Hl)].
Qed.

(** Nothing is known of the cell but perhaps its rowid. *)
Definition unread (c : Cursor) : Prop := c_info c = None /\ validOvfl c = false.

Lemma quiet_unread c : quiet c -> unread c.
Proof using Type. by intros (? & _ & ?). Qed.

Lemma unread_knows fs p rows i r c : focus T fs (Leaf p rows) -> rows !! i = Some r -> unread c -> knows p i r c.
Proof using All.
  intros F Hi (Q1 & Q3). destruct (leaf_page fs p rows F) as (P & l & HP & HF & Hc & _). destruct (leaf_row bt np D Hlim p P l rows i r HP HF Hi) as (info & aPay & ps & R).
  pose proof (lookup_lt_Some _ _ _ Hi). exists P, l, info, aPay, ps. split; [done|]. split; [lia|]. split; [done|]. split; [by left|]. by rewrite Q3.
Qed.

(** The end of a walk to a leaf. *)
Lemma on_row_at s fs p rows i r : at_node s fs (Leaf p rows) -> rows !! i = Some r -> c_ix (st_cur s) = Z.of_nat i -> eState (st_cur s) = CURSOR_VALID ->
  curIntKey (st_cur s) = true -> unread (st_cur s) -> (atLast (st_cur s) = true -> drop (S i) rows ++ after fs = []) ->
  on_row s (before fs ++ take i rows) r (drop (S i) rows ++ after fs).
Proof using All.
  intros A Hi Hx HV HI HQ HL. exists fs, p, rows, i. split_and!; try done. by apply (unread_knows fs p rows i r (st_cur s) (an_focus _ _ _ _ A)).
Qed.

Lemma on_row_first s fs p rows : at_node s fs (Leaf p rows) -> rows <> [] -> c_ix (st_cur s) = 0 -> eState (st_cur s) = CURSOR_VALID ->
  curIntKey (st_cur s) = true -> quiet (st_cur s) -> atLast (st_cur s) = false -> exists r l', on_row s (before fs) r l'.
Proof using All.
  intros A Hr Hx HV HI HQ HL. destruct rows as [|r rows]; [done|]. exists r, (rows ++ after fs).
  pose proof (on_row_at s fs p (r :: rows) 0 r A eq_refl Hx HV HI (quiet_unread _ HQ)) as H. rewrite take_0, app_nil_r in H. apply H. by rewrite HL.
Qed.

Lemma on_row_last s fs p rows : at_node s fs (Leaf p rows) -> rows <> [] -> c_ix (st_cur s) = Z.of_nat (length rows) - 1 -> eState (st_cur s) = CURSOR_VALID ->
  curIntKey (st_cur s) = true -> quiet (st_cur s) -> (atLast (st_cur s) = true -> after fs = []) -> exists r l, on_row s l r (after fs).
Proof using All.
  intros A Hr Hx HV HI HQ HL. assert (Hlr : (0 < length rows)%nat) by (destruct rows; [done|cbn; lia]).
  destruct (lookup_lt_is_Some_2 rows (length rows - 1)) as [r Hi]; [lia|]. exists r, (before fs ++ take (length rows - 1) rows).
  pose proof (on_row_at s fs p rows (length rows - 1) r A Hi ltac:(lia) HV HI (quiet_unread _ HQ)) as H. rewrite drop_ge in H by lia. by apply H.
Qed.

(** The cursor is on the table, at the end of any routine. *)
Lemma on_table_row s s' l r l' : on_table s -> kept s s' -> on_row s' l r l' -> on_table s'.
Proof using Type.
  intros [O1 O2 O3 O4 O5 O6] [K1 K2 K3] (fs & p & rows & i & A & _ & _ & HV & HI & _). injection K2 as K21 K22 K23.
  split; [tauto|congruence|congruence|congruence|by rewrite HV|right]. rewrite HV. split; [done|]. split; [done|]. eauto.
Qed.

Lemma on_table_nothing s s' : on_table s -> kept s s' -> at_nothing s' -> on_table s'.
Proof using Type.
  intros [O1 O2 O3 O4 O5 O6] [K1 K2 K3] [HV HN]. injection K2 as K21 K22 K23.
  split; [tauto|congruence|congruence|congruence|by rewrite HV|]. rewrite HV. destruct HN as [HN|[HN1 HN2]]; [by left|by right].
Qed.

(** ** Down to a row *)

Lemma leftmost_row s fs u i : world_ok s -> at_node s fs u -> eState (st_cur s) = CURSOR_VALID -> curIntKey (st_cur s) = true -> quiet (st_cur s) ->
  atLast (st_cur s) = false -> c_ix (st_cur s) = Z.of_nat i -> start_at u i ->
  exists s', moveToLeftmost s = Some (SQLITE_OK, s') /\ walk s s' /\ quiet (st_cur s') /\ exists r l', on_row s' (before ((u, i) :: fs)) r l'.
Proof using All.
  intros W A HV HI HQ HL Hx Hs. destruct (focus_ok _ _ _ _ _ _ (an_focus _ _ _ _ A) hT HT) as (h' & Hh & Hd & _).
  destruct (to_leftmost_spec bt np D Hlim Hnp T BTCURSOR_MAX_DEPTH h' s fs u i) as (s2 & fs' & p & rows & E2 & K2 & A2 & R2 & X2 & Q2 & B); try done.
  { unfold BTCURSOR_MAX_DEPTH. lia. } { lia. }
  exists s2. unfold moveToLeftmost. rewrite step_assert by done. split; [done|]. split; [done|]. split; [done|]. rewrite <- B. pose proof (wk_fixed _ _ _ _ _ K2) as F2.
  apply (on_row_first s2 fs' p rows); try done; first [by rewrite (wk_state _ _ _ _ _ K2)|congruence|by rewrite (wk_last _ _ _ _ _ K2)].
Qed.

Lemma rightmost_row s fs u : world_ok s -> at_node s fs u -> eState (st_cur s) = CURSOR_VALID -> curIntKey (st_cur s) = true -> quiet (st_cur s) ->
  filled u -> exists s', moveToRightmost s = Some (SQLITE_OK, s') /\ walk s s' /\ quiet (st_cur s') /\ ((atLast (st_cur s) = true -> after fs = []) -> exists r l, on_row s' l r (after fs)) /\
    forall b, (b = true -> after fs = []) -> exists r l, on_row (set_cur (set_flags b (validNKey (st_cur s')) (validOvfl (st_cur s')) (st_cur s')) s') l r (after fs).
Proof using All.
  intros W A HV HI HQ Hs. destruct (focus_ok _ _ _ _ _ _ (an_focus _ _ _ _ A) hT HT) as (h' & Hh & Hd & _).
  destruct (to_rightmost_spec bt np D Hlim Hnp T BTCURSOR_MAX_DEPTH h' s fs u) as (s2 & fs' & p & rows & E2 & K2 & A2 & R2 & X2 & Q2 & B); try done.
  { unfold BTCURSOR_MAX_DEPTH. lia. } { lia. }
  exists s2. unfold moveToRightmost. rewrite step_assert by done. split; [done|]. split; [done|]. split; [done|]. rewrite <- B. pose proof (wk_fixed _ _ _ _ _ K2) as F2.
  assert (V2 : eState (st_cur s2) = CURSOR_VALID) by (by rewrite (wk_state _ _ _ _ _ K2)). assert (I2 : curIntKey (st_cur s2) = true) by congruence. split.
  - intros HL. apply (on_row_last s2 fs' p rows); try done. by rewrite (wk_last _ _ _ _ _ K2).
  - intros b Hb. apply (on_row_last _ fs' p rows); try done. by apply at_node_cur.
Qed.

(** ** The first and the last row *)

Definition ends_first (s s' : State) (res : Z) : Prop :=
  kept s s' /\ (flat T = [] /\ res = 1 /\ at_nothing s' \/ res = 0 /\ validNKey (st_cur s') = false /\ exists r l', on_row s' [] r l').

Lemma sqlite3BtreeFirst_spec s : on_table s -> exists res s', sqlite3BtreeFirst s = Some ((SQLITE_OK, res), s') /\ ends_first s s' res.
Proof using All.
  intros H. unfold sqlite3BtreeFirst. destruct (moveToRoot_spec bt np D Hlim Hnp T hT HT Hheight Hroot s H) as (rc & s1 & E1 & K1 & Hr). rewrite (step_act _ _ _ _ _ E1).
  destruct Hr as [(HE & -> & HN)|(-> & fs & u & [A V I X Q L F [B1 B2]])].
  - rewrite decide_False by done. rewrite decide_True by done. exists 1, s1. split; [done|]. split; [done|]. by left.
  - rewrite decide_True by done. pose proof (ot_world _ _ _ _ _ H) as W.
    destruct (leftmost_row s1 fs u 0 (kp_world _ _ _ _ _ K1 W) A V I Q L X (filled_start u F)) as (s2 & E2 & K2 & (_ & Q2 & _) & r & l' & R).
    rewrite (step_act _ _ _ _ _ E2). exists 0, s2. split; [done|]. split; [transitivity s1; [done|by apply walk_kept]|]. right. split; [done|]. split; [done|].
    cbn [before] in R. rewrite take_0, bind_none, app_nil_r, B1 in R. by exists r, l'.
Qed.

Definition ends_last (s s' : State) (res : Z) : Prop :=
  kept s s' /\ (flat T = [] /\ res = 1 /\ at_nothing s' \/ res = 0 /\ validNKey (st_cur s') = false /\ exists r l, on_row s' l r []).

Lemma btreeLast_spec s : on_table s -> exists res s', btreeLast s = Some ((SQLITE_OK, res), s') /\ ends_last s s' res.
Proof using All.
  intros H. unfold btreeLast. destruct (moveToRoot_spec bt np D Hlim Hnp T hT HT Hheight Hroot s H) as (rc & s1 & E1 & K1 & Hr). rewrite (step_act _ _ _ _ _ E1).
  destruct Hr as [(HE & -> & HN)|(-> & fs & u & [A V I X Q L F [B1 B2]])].
  - rewrite decide_False by done. rewrite decide_True by done. exists 1, s1. split; [done|]. split; [done|]. by left.
  - rewrite decide_True by done. rewrite step_assert by done. pose proof (ot_world _ _ _ _ _ H) as W.
    destruct (rightmost_row s1 fs u (kp_world _ _ _ _ _ K1 W) A V I Q F) as (s2 & E2 & K2 & (_ & Q2 & _) & _ & R). rewrite B2 in R.
    rewrite (step_act _ _ _ _ _ E2), step_change. set (s3 := set_cur _ s2). exists 0, s3. split; [done|].
    split; [transitivity s1; [done|]; transitivity s2; [by apply walk_kept|by apply kept_cur]|]. right. split; [done|]. split; [done|]. by apply R.
Qed.

(** On the last row already, it does nothing. *)
Lemma sqlite3BtreeLast_spec s : on_table s -> exists res s', sqlite3BtreeLast s = Some ((SQLITE_OK, res), s') /\
  (ends_last s s' res \/ res = 0 /\ s' = s /\ eState (st_cur s) = CURSOR_VALID /\ atLast (st_cur s) = true).
Proof using All.
  intros H. unfold sqlite3BtreeLast. rewrite step_look. case_decide as Hl; [|destruct (btreeLast_spec s H) as (res & s' & E & R); exists res, s'; auto].
  exists 0, s. split; [done|]. by right.
Qed.

(** ** The next row *)

Lemma node_page fs p kids keys : focus T fs (Node p kids keys) -> exists h P, table_page p P false (zip_with child_cell kids keys) /\ node_ok bt np D h p kids keys /\
  (S h + length fs <= 19)%nat /\ nCell P = Z.of_nat (length keys) /\ nCell P <= 32768 /\ isInit P = true /\ intKey P = true /\ leaf P = false.
Proof using All.
  intros F. destruct (focus_ok _ _ _ _ _ _ F hT HT) as (h' & Hh & Hd & _). destruct (tree_page _ _ _ _ _ Hh) as [P HP]. apply node_inv in Hh as (h & -> & N).
  destruct (table_count _ _ _ _ _ _ _ HP) as (Hc & Hi & Hc2). rewrite length_zip_with, (no_length _ _ _ _ _ _ _ N) in Hc. exists h, P.
  split; [done|]. split; [done|]. split; [lia|]. split; [lia|]. split; [lia|]. split; [done|]. split; [apply (tp_int _ _ _ _ _ _ _ HP)|apply (tp_leaf _ _ _ _ _ _ _ HP)].
Qed.

(** To the child [i] of a page, when the routine has read its number. *)
Lemma child_down s fs p kids keys i : world_ok s -> at_node s fs (Node p kids keys) -> eState (st_cur s) = CURSOR_VALID -> curIntKey (st_cur s) = true ->
  c_ix (st_cur s) = Z.of_nat i -> (i <= length keys)%nat -> exists v n P, btreePageFromDbPage p s = set_nFree n P /\
    (if decide (i < length keys)%nat then child_at P (Z.of_nat i) = Some (root v) else right_child P = Some (root v)) /\
    nCell P = Z.of_nat (length keys) /\ nCell P <= 32768 /\ isInit P = true /\ intKey P = true /\ leaf P = false /\ filled v /\
    exists s', moveToChild (root v) s = Some (SQLITE_OK, s') /\ walk s s' /\ at_node s' ((Node p kids keys, i) :: fs) v /\ c_ix (st_cur s') = 0 /\ quiet (st_cur s').
Proof using All.
  intros W A HV HI Hx Hi. destruct (node_page fs p kids keys (an_focus _ _ _ _ A)) as (h & P & HP & N & Hd & Hc & Hc2 & F1 & F2 & F3).
  destruct (page_is _ _ _ s p P _ _ W (an_held _ _ _ _ A) HP) as [n En].
  destruct (lookup_lt_is_Some_2 kids i) as [v Hv]; [rewrite (no_length _ _ _ _ _ _ _ N); lia|]. pose proof (list_elem_of_lookup_2 _ _ _ Hv) as Hin.
  destruct (child_page bt np D Hlim Hnp T h p kids keys P i v N HP Hv (no_kids _ _ _ _ _ _ _ N v Hin)) as [_ Hch].
  destruct (down bt np D Hlim Hnp T s fs (Node p kids keys) i v h W A HV HI Hv Hx (no_kids _ _ _ _ _ _ _ N v Hin) (no_filled _ _ _ _ _ _ _ N v Hin) ltac:(lia)) as (s1 & E1 & K1 & A1 & X1 & Q1).
  exists v, n, P. split_and!; try done; [by apply (no_filled _ _ _ _ _ _ _ N)|]. eauto 10.
Qed.

Lemma node_before fs p kids keys i u : kids !! i = Some u -> length keys = i -> length kids = S (length keys) ->
  before ((Node p kids keys, i) :: fs) ++ flat u = before fs ++ flat (Node p kids keys).
Proof using All.
  intros Hi Hk Hl. cbn [before kids_of]. rewrite (flat_kids (Node p kids keys) i u Hi). cbn [kids_of]. rewrite (drop_ge kids (S i)) by lia.
  by rewrite bind_none, app_nil_r, <- app_assoc.
Qed.

Lemma climb_next_spec fs : forall fuel s u, (length fs < fuel)%nat -> world_ok s -> at_node s fs u -> eState (st_cur s) = CURSOR_VALID -> curIntKey (st_cur s) = true ->
  exists b s', climb_next fuel s = Some (b, s') /\ kept s s' /\
    if (b : bool) then exists fs' p kids keys i, at_node s' fs' (Node p kids keys) /\ c_ix (st_cur s') = Z.of_nat i /\ (i < length keys)%nat /\
      before fs ++ flat u = before ((Node p kids keys, S i) :: fs') /\ walk s s' /\ quiet (st_cur s')
    else before fs ++ flat u = flat T /\ at_nothing s'.
Proof using All.
  induction fs as [|[t i] fs IH]; intros fuel s u Hf W A HV HI; (destruct fuel as [|fuel]; [cbn in Hf; lia|]); cbn [climb_next]; rewrite step_look, (an_path _ _ _ _ A).
  - cbn [stack fmap list_fmap]. rewrite step_change. eexists false, _. split; [reflexivity|]. split; [by apply kept_cur|]. assert (u = T) as -> by (pose proof (an_focus _ _ _ _ A) as F; by inversion F).
    split; [done|]. split; [done|]. right. split; [done|]. exists [], T. by apply at_node_cur.
  - cbn [stack fmap list_fmap]. destruct (up bt np D Hlim Hnp T s fs t i u W A HV) as (s1 & E1 & K1 & A1 & Hi & X1 & Q1). rewrite (step_act _ _ _ _ _ E1).
    pose proof (wk_world _ _ _ _ _ K1 W) as W1. assert (V1 : eState (st_cur s1) = CURSOR_VALID) by (by rewrite (wk_state _ _ _ _ _ K1)).
    assert (I1 : curIntKey (st_cur s1) = true) by (pose proof (wk_fixed _ _ _ _ _ K1); congruence).
    destruct t as [p rows|p kids keys]; [done|]. cbn [kids_of] in Hi. rewrite (step_page _ _ _ (an_page _ _ _ _ A1)), step_look, X1. cbn [root].
    destruct (node_page fs p kids keys (an_focus _ _ _ _ A1)) as (h & P & HP & N & Hd & Hc & Hc2 & F1 & F2 & F3).
    destruct (page_is _ _ _ s1 p P _ _ W1 (an_held _ _ _ _ A1) HP) as [n ->]. change (nCell (set_nFree n P)) with (nCell P).
    pose proof (lookup_lt_Some _ _ _ Hi) as Hlt. pose proof (no_length _ _ _ _ _ _ _ N) as Hl. case_decide as Hx.
    + destruct (IH fuel s1 (Node p kids keys)) as (b & s2 & E2 & K2 & H2); try done; [cbn in Hf; lia|]. exists b, s2. split; [done|].
      split; [transitivity s1; [by apply walk_kept|done]|]. rewrite (node_before fs p kids keys i u Hi) by lia. destruct b; [|done].
      destruct H2 as (fs' & q & kids' & keys' & j & H3 & H4 & H5 & H6 & H7 & H8). exists fs', q, kids', keys', j. split_and!; try done. by transitivity s1.
    + exists true, s1. split; [done|]. split; [by apply walk_kept|]. exists fs, p, kids, keys, i. split; [done|]. split; [done|]. split; [lia|]. split; [|done].
      cbn [before kids_of]. rewrite (take_S_r _ _ _ Hi), bind_app, <- !app_assoc. do 2 f_equal. cbn. by rewrite app_nil_r.
Qed.

(** From a cell of a page with children. *)
Lemma next_node f s fs p kids keys i : world_ok s -> at_node s fs (Node p kids keys) -> eState (st_cur s) = CURSOR_VALID -> curIntKey (st_cur s) = true ->
  atLast (st_cur s) = false -> c_ix (st_cur s) = Z.of_nat i -> (i < length keys)%nat ->
  exists s', next_fuel (S f) s = Some (SQLITE_OK, s') /\ kept s s' /\ quiet (st_cur s') /\ exists r l', on_row s' (before ((Node p kids keys, S i) :: fs)) r l'.
Proof using All.
  intros W A HV HI HL Hx Hi. cbn [next_fuel]. rewrite step_change, step_look. set (s0 := set_cur _ s). assert (K0 : walk s s0) by (by apply walk_cur).
  rewrite (decide_False (P := eState (st_cur s0) <> _)) by (cbn; rewrite HV; intros Hx2; by apply Hx2). rewrite (step_page _ _ p) by (apply (an_page _ _ _ _ A)). rewrite step_change, step_look.
  set (s1 := set_cur _ s0). pose proof (wk_world _ _ _ _ _ K0 W) as W0. destruct (node_page fs p kids keys (an_focus _ _ _ _ A)) as (h & P & HP & N & Hd & Hc & Hc2 & F1 & F2 & F3).
  assert (A0 : at_node s0 fs (Node p kids keys)) by (by apply at_node_cur).
  assert (X1 : c_ix (st_cur s1) = Z.of_nat (S i)) by (cbn; rewrite Hx, u16_small by lia; lia). rewrite X1.
  destruct (page_is _ _ _ s0 p P _ _ W0 (an_held _ _ _ _ A0) HP) as [n ->]. change (nCell (set_nFree n P)) with (nCell P). change (leaf (set_nFree n P)) with (leaf P). rewrite F3.
  assert (K1 : walk s0 s1) by (by apply walk_cur). pose proof (wk_world _ _ _ _ _ K1 W0) as W1. assert (A1 : at_node s1 fs (Node p kids keys)) by (by apply at_node_cur).
  case_decide as Hn.
  - rewrite step_change. set (s2 := set_cur _ s1). unfold btreeNext. rewrite step_look. rewrite (decide_False (P := eState (st_cur s2) <> _)) by (cbn; rewrite HV; intros Hx2; by apply Hx2).
    unfold next_cell. rewrite (step_page _ _ p) by (apply (an_page _ _ _ _ A)). rewrite step_change, step_look. set (s3 := set_cur _ s2).
    assert (X3 : c_ix (st_cur s3) = Z.of_nat (S i)) by (cbn; rewrite Hx, (u16_small (Z.of_nat i + 1)), (u16_small (Z.of_nat i + 1 - 1)), u16_small by lia; lia).
    assert (K3 : walk s1 s3) by (transitivity s2; by apply walk_cur). pose proof (wk_world _ _ _ _ _ K3 W1) as W3.
    assert (A3 : at_node s3 fs (Node p kids keys)) by (apply (at_node_cur T s2); [by apply at_node_cur|done|done]).
    destruct (child_down s3 fs p kids keys (S i) W3 A3 HV HI X3) as (v & n3 & P3 & E3 & Hch & G1 & G2 & G3 & G4 & G5 & G6 & s4 & E4 & K4 & A4 & X4 & Q4); [lia|].
    change (btreePageFromDbPage p s2) with (btreePageFromDbPage p s3). rewrite E3. change (isInit (set_nFree n3 P3)) with (isInit P3). rewrite G3. cbn [negb].
    change (nCell (set_nFree n3 P3)) with (nCell P3). change (leaf (set_nFree n3 P3)) with (leaf P3). change (right_child (set_nFree n3 P3)) with (right_child P3).
    rewrite X3, decide_True by lia. rewrite G5. rewrite decide_False in Hch by lia. rewrite (step_try _ _ _ _ Hch), (step_act _ _ _ _ _ E4), rc_ok.
    assert (K04 : walk s s4) by (transitivity s0; [done|]; transitivity s1; [done|]; by transitivity s3). pose proof (wk_fixed _ _ _ _ _ K04) as F04.
    destruct (leftmost_row s4 _ v 0 (wk_world _ _ _ _ _ K04 W) A4) as (s5 & E5 & K5 & Q5 & r & l' & R); try done; [by rewrite (wk_state _ _ _ _ _ K04)|congruence|by rewrite (wk_last _ _ _ _ _ K04)|by apply filled_start|].
    exists s5. split; [exact E5|]. split; [transitivity s4; by apply walk_kept|]. split; [done|]. exists r, l'. cbn [before] in R |- *. by rewrite take_0, bind_none, app_nil_r in R.
  - destruct (leftmost_row s1 fs (Node p kids keys) (S i) W1 A1) as (s5 & E5 & K5 & Q5 & r & l' & R); try done; [cbn; lia|].
    exists s5. split; [exact E5|]. split; [transitivity s0; [by apply walk_kept|]; transitivity s1; by apply walk_kept|]. split; [done|]. by exists r, l'.
Qed.

(** The same position with nothing known. *)
Lemma on_row_unread s l r l' c : let o := st_cur s in on_row s l r l' -> pPage c = pPage o -> apPage c = apPage o -> c_ix c = c_ix o -> eState c = eState o ->
  curIntKey c = curIntKey o -> (atLast c = true -> atLast o = true) -> unread c -> on_row (set_cur c s) l r l'.
Proof using All.
  intros o (fs & p & rows & i & A & Hi & Hx & HV & HI & El & El' & HL & HK) E1 E2 E3 E4 E5 E6 Q. subst l l' o.
  apply (on_row_at _ fs p rows i r); try done; [by apply at_node_cur|cbn; congruence|cbn; congruence|cbn; congruence|]. intros Ha. by apply HL, E6.
Qed.

(** The next cell of the leaf. *)
Lemma on_row_shift s fs p rows i r r' l l' c : at_node s fs (Leaf p rows) -> rows !! i = Some r -> rows !! S i = Some r' -> eState c = CURSOR_VALID -> curIntKey c = true ->
  pPage c = pPage (st_cur s) -> apPage c = apPage (st_cur s) -> unread c -> l = before fs ++ take i rows -> l' = drop (S i) rows ++ after fs ->
  (atLast c = true -> l' = []) -> c_ix c = Z.of_nat (S i) -> exists l'', l' = r' :: l'' /\ on_row (set_cur c s) (l ++ [r]) r' l''.
Proof using All.
  intros A Hi Hi' HV HI E1 E2 Q -> -> HL Hx. exists (drop (S (S i)) rows ++ after fs). rewrite (drop_S _ _ _ Hi') in HL |- *. split; [done|].
  rewrite <- app_assoc, <- (take_S_r _ _ _ Hi). apply (on_row_at _ fs p rows (S i) r'); try done; [by apply at_node_cur|]. intros Ha. by specialize (HL Ha).
Qed.

(** The cursor remembers no rowid but one it remembered before. *)
Definition no_claim (s s' : State) : Prop := validNKey (st_cur s') = true ->
  validNKey (st_cur s) = true /\ info_nKey (st_cur s') = info_nKey (st_cur s) /\ atLast (st_cur s') = atLast (st_cur s).

Lemma quiet_claim s s' : quiet (st_cur s') -> no_claim s s'.
Proof using Type. intros (_ & Q & _) H. congruence. Qed.

Definition next_result (l : list table_row) (r : table_row) (l' : list table_row) (rc : Z) (s' : State) : Prop :=
  match l' with [] => rc = SQLITE_DONE /\ at_nothing s' | r' :: l'' => rc = SQLITE_OK /\ on_row s' (l ++ [r]) r' l'' end.

Lemma next_result_row s' l r l' l1 r1 l1' : flat T = l ++ r :: l' -> on_row s' l1 r1 l1' -> l1 = l ++ [r] -> next_result l r l' SQLITE_OK s'.
Proof using Type.
  intros E H ->. pose proof (on_row_flat _ _ _ _ H) as E1. rewrite E, <- app_assoc in E1. apply app_inv_head in E1. injection E1 as ->. done.
Qed.

(** The rest of the table after the child [i] of a page is not empty. *)
Lemma rest_nonempty fs p kids keys i : focus T fs (Node p kids keys) -> (i < length keys)%nat -> exists r l, flat T = before ((Node p kids keys, S i) :: fs) ++ r :: l.
Proof using All.
  intros F Hi. destruct (node_page fs p kids keys F) as (h & P & HP & N & _). destruct (lookup_lt_is_Some_2 kids (S i)) as [v Hv]; [rewrite (no_length _ _ _ _ _ _ _ N); lia|].
  pose proof (list_elem_of_lookup_2 _ _ _ Hv) as Hin. destruct (flat_nonempty _ _ _ _ _ (no_kids _ _ _ _ _ _ _ N v Hin) (no_filled _ _ _ _ _ _ _ N v Hin)) as [x Hx].
  pose proof (focus_flat _ _ _ (focus_child _ _ _ (S i) v F Hv)) as E. destruct (flat v) as [|r l]; [by apply elem_of_nil in Hx|]. eauto.
Qed.

Lemma next_cell_spec f s l r l' : world_ok s -> on_row s l r l' -> unread (st_cur s) ->
  exists rc s', next_cell (next_fuel (S f)) s = Some (rc, s') /\ kept s s' /\ next_result l r l' rc s' /\ (rc = SQLITE_OK -> no_claim s s').
Proof using All.
  intros W R Q. pose proof (on_row_flat _ _ _ _ R) as ET. destruct R as (fs & p & rows & i & A & Hi & Hx & HV & HI & El & El' & HL & HK).
  destruct (leaf_page fs p rows (an_focus _ _ _ _ A)) as (P & ls & HP & HF & Hc & Hc2 & F1 & F2 & F3). unfold next_cell. rewrite (step_page _ _ p) by (apply (an_page _ _ _ _ A)).
  rewrite step_change, step_look. set (s1 := set_cur _ s). destruct (page_is _ _ _ s p P _ _ W (an_held _ _ _ _ A) HP) as [n ->].
  change (isInit (set_nFree n P)) with (isInit P). change (nCell (set_nFree n P)) with (nCell P). change (leaf (set_nFree n P)) with (leaf P). rewrite F1, F3. cbn [negb].
  pose proof (lookup_lt_Some _ _ _ Hi) as Hlt. assert (X1 : c_ix (st_cur s1) = Z.of_nat (S i)) by (cbn; rewrite Hx, u16_small by lia; lia). rewrite X1.
  assert (K1 : kept s s1) by (by apply kept_cur). assert (A1 : at_node s1 fs (Leaf p rows)) by (by apply at_node_cur). pose proof (kp_world _ _ _ _ _ K1 W) as W1. case_decide as Hn.
  - assert (Ebf : before fs ++ flat (Leaf p rows) = l ++ [r]).
    { rewrite El, <- app_assoc. f_equal. cbn [flat]. rewrite <- (take_S_r _ _ _ Hi). by rewrite take_ge by lia. }
    destruct (climb_next_spec fs (S (length (apPage (st_cur s1)))) s1 (Leaf p rows)) as (b & s2 & E2 & K2 & H2); try done.
    { rewrite (an_path _ _ _ _ A1). unfold stack. rewrite length_fmap. lia. }
    rewrite (step_act _ _ _ _ _ E2). rewrite Ebf in H2. destruct b.
    + destruct H2 as (fs' & q & kids & keys & j & A2 & X2 & Hj & B2 & K12 & Q2). pose proof (kp_world _ _ _ _ _ K2 W1) as W2.
      destruct (rest_nonempty fs' q kids keys j (an_focus _ _ _ _ A2) Hj) as (r1 & l1 & E1). rewrite <- B2, ET, <- app_assoc in E1. apply app_inv_head in E1. injection E1 as E1.
      destruct (node_page fs' q kids keys (an_focus _ _ _ _ A2)) as (h & P2 & HP2 & N & Hd & G1 & G2 & G3 & G4 & G5).
      rewrite (step_page _ _ q) by (apply (an_page _ _ _ _ A2)). destruct (page_is _ _ _ s2 q P2 _ _ W2 (an_held _ _ _ _ A2) HP2) as [n2 ->].
      change (intKey (set_nFree n2 P2)) with (intKey P2). rewrite G4.
      destruct (next_node f s2 fs' q kids keys j W2 A2) as (s3 & E3 & K3 & Q3 & r2 & l2 & R3); try done.
      * by rewrite (wk_state _ _ _ _ _ K12).
      * pose proof (wk_fixed _ _ _ _ _ K12). cbn in *. congruence.
      * rewrite (wk_last _ _ _ _ _ K12). destruct (atLast (st_cur s1)) eqn:EL; [|done]. by rewrite (HL EL) in E1.
      * exists SQLITE_OK, s3. split; [done|]. split; [transitivity s1; [done|]; by transitivity s2|]. split; [by apply (next_result_row s3 l r l' (before ((Node q kids keys, S j) :: fs')) r2 l2)|intros _; by apply quiet_claim].
    + destruct H2 as [HB HN]. exists SQLITE_DONE, s2. split; [done|]. split; [by transitivity s1|].
      rewrite ET in HB. apply app_inv_head in HB. injection HB as HB. split; [by rewrite <- HB|done].
  - destruct (lookup_lt_is_Some_2 rows (S i)) as [r' Hi']; [lia|]. exists SQLITE_OK, s1. split; [done|]. split; [done|]. split; [|by intros _ H].
    destruct (on_row_shift s fs p rows i r r' l l' (st_cur s1) A Hi Hi') as (l'' & E & R'); try done. by rewrite E.
Qed.

(** [sqlite3BtreeNext] from a row. *)
Lemma next_row f s l r l' : world_ok s -> on_row s l r l' -> exists rc s', next_fuel (S (S f)) s = Some (rc, s') /\ kept s s' /\ next_result l r l' rc s' /\
  (rc = SQLITE_OK -> validNKey (st_cur s') = false).
Proof using All.
  intros W R. pose proof R as (fs & p & rows & i & A & Hi & Hx & HV & HI & El & El' & HL & HK).
  destruct (leaf_page fs p rows (an_focus _ _ _ _ A)) as (P & ls & HP & HF & Hc & Hc2 & F1 & F2 & F3). pose proof (lookup_lt_Some _ _ _ Hi) as Hlt.
  set (c0 := forget (st_cur s)). set (s0 := set_cur c0 s). assert (K0 : kept s s0) by (by apply kept_cur). pose proof (kp_world _ _ _ _ _ K0 W) as W0.
  cbn [next_fuel]. rewrite step_change, step_look. fold c0. fold s0. rewrite (decide_False (P := eState (st_cur s0) <> _)) by (cbn; rewrite HV; intros Hx2; by apply Hx2).
  rewrite (step_page _ _ p) by (apply (an_page _ _ _ _ A)). rewrite step_change, step_look. set (s1 := set_cur _ s0).
  destruct (page_is _ _ _ s0 p P _ _ W0 (an_held _ _ _ _ A) HP) as [n ->]. change (nCell (set_nFree n P)) with (nCell P). change (leaf (set_nFree n P)) with (leaf P). rewrite F3.
  assert (X1 : c_ix (st_cur s1) = Z.of_nat (S i)) by (cbn; rewrite Hx, u16_small by lia; lia). rewrite X1. case_decide as Hn.
  - rewrite step_change. set (s2 := set_cur _ s1). unfold btreeNext. rewrite step_look. rewrite (decide_False (P := eState (st_cur s2) <> _)) by (cbn; rewrite HV; intros Hx2; by apply Hx2).
    assert (K2 : kept s s2) by (transitivity s0; [done|]; transitivity s1; by apply kept_cur). pose proof (kp_world _ _ _ _ _ K2 W) as W2.
    assert (R2 : on_row s2 l r l').
    { apply (on_row_unread s l r l' (st_cur s2)); try done. cbn. rewrite Hx, (u16_small (Z.of_nat i + 1)), u16_small by lia. lia. }
    destruct (next_cell_spec f s2 l r l' W2 R2) as (rc & s3 & E3 & K3 & H3 & H4); [done|]. exists rc, s3. split; [exact E3|]. split; [by transitivity s2|]. split; [done|].
    intros Hrc. specialize (H4 Hrc). destruct (validNKey (st_cur s3)) eqn:Ev; [|done]. by destruct (H4 Ev).
  - destruct (lookup_lt_is_Some_2 rows (S i)) as [r' Hi']; [lia|]. exists SQLITE_OK, s1. split; [done|]. split; [transitivity s0; [done|by apply kept_cur]|]. split; [|done].
    destruct (on_row_shift s fs p rows i r r' l l' (st_cur s1) A Hi Hi') as (l'' & E & R'); try done. by rewrite E.
Qed.

(** ** The previous row *)

Lemma climb_previous_spec fs : forall fuel s u, (length fs < fuel)%nat -> world_ok s -> at_node s fs u -> eState (st_cur s) = CURSOR_VALID -> curIntKey (st_cur s) = true ->
  c_ix (st_cur s) = 0 -> exists b s', climb_previous fuel s = Some (b, s') /\ kept s s' /\
    if (b : bool) then exists fs' p kids keys i, at_node s' fs' (Node p kids keys) /\ c_ix (st_cur s') = Z.of_nat (S i) /\ (i < length keys)%nat /\
      flat u ++ after fs = after ((Node p kids keys, i) :: fs') /\ walk s s' /\ quiet (st_cur s')
    else flat u ++ after fs = flat T /\ at_nothing s'.
Proof using All.
  induction fs as [|[t i] fs IH]; intros fuel s u Hf W A HV HI Hx; (destruct fuel as [|fuel]; [cbn in Hf; lia|]); cbn [climb_previous]; rewrite step_look, Hx;
    rewrite decide_True by done; rewrite (an_path _ _ _ _ A).
  - cbn [stack fmap list_fmap]. rewrite step_change. eexists false, _. split; [reflexivity|]. split; [by apply kept_cur|].
    assert (u = T) as -> by (pose proof (an_focus _ _ _ _ A) as F; by inversion F). split; [cbn [after]; by rewrite app_nil_r|]. split; [done|]. right. split; [done|]. exists [], T. by apply at_node_cur.
  - cbn [stack fmap list_fmap]. destruct (up bt np D Hlim Hnp T s fs t i u W A HV) as (s1 & E1 & K1 & A1 & Hi & X1 & Q1). rewrite (step_act _ _ _ _ _ E1).
    pose proof (wk_world _ _ _ _ _ K1 W) as W1. assert (V1 : eState (st_cur s1) = CURSOR_VALID) by (by rewrite (wk_state _ _ _ _ _ K1)).
    assert (I1 : curIntKey (st_cur s1) = true) by (pose proof (wk_fixed _ _ _ _ _ K1); congruence). pose proof (flat_kids _ _ _ Hi) as Efl. destruct i as [|i].
    + destruct (IH fuel s1 t) as (b & s2 & E2 & K2 & H2); try done; [cbn in Hf; lia|]. exists b, s2. split; [done|]. split; [transitivity s1; [by apply walk_kept|done]|].
      assert (flat u ++ after ((t, O) :: fs) = flat t ++ after fs) as ->.
      { cbn [after]. rewrite Efl, take_0, bind_none, app_nil_l. by rewrite <- app_assoc. }
      destruct b; [|done]. destruct H2 as (fs' & q & kids' & keys' & j & H3 & H4 & H5 & H6 & H7 & H8). exists fs', q, kids', keys', j. split_and!; try done. by transitivity s1.
    + destruct fuel as [|fuel]; [cbn in Hf; lia|]. cbn [climb_previous]. rewrite step_look, X1. rewrite decide_False by lia. exists true, s1. split; [done|]. split; [by apply walk_kept|].
      destruct t as [p rows|p kids keys]; [done|]. destruct (node_page fs p kids keys (an_focus _ _ _ _ A1)) as (h & P & HP & N & Hd & Hc & Hc2 & F1 & F2 & F3).
      pose proof (lookup_lt_Some _ _ _ Hi) as Hlt. cbn [kids_of] in Hlt, Hi. rewrite (no_length _ _ _ _ _ _ _ N) in Hlt. exists fs, p, kids, keys, i.
      split; [done|]. split; [done|]. split; [lia|]. split; [|done]. cbn [after kids_of]. rewrite (drop_S _ _ _ Hi), bind_cons. by rewrite <- app_assoc.
Qed.

(** From a cell of a page with children. *)
Lemma previous_node f s fs p kids keys i : world_ok s -> at_node s fs (Node p kids keys) -> eState (st_cur s) = CURSOR_VALID -> curIntKey (st_cur s) = true ->
  c_ix (st_cur s) = Z.of_nat i -> (i < length keys)%nat ->
  exists s', previous_fuel (S f) s = Some (SQLITE_OK, s') /\ kept s s' /\ quiet (st_cur s') /\ exists r l, on_row s' l r (after ((Node p kids keys, i) :: fs)).
Proof using All.
  intros W A HV HI Hx Hi. cbn [previous_fuel]. rewrite step_change, step_look. set (s0 := set_cur _ s). assert (K0 : kept s s0) by (by apply kept_cur).
  pose proof (kp_world _ _ _ _ _ K0 W) as W0. assert (A0 : at_node s0 fs (Node p kids keys)) by (by apply at_node_cur).
  destruct (child_down s0 fs p kids keys i W0 A0 HV HI Hx) as (v & n & P & E & Hch & G1 & G2 & G3 & G4 & G5 & G6 & s4 & E4 & K4 & A4 & X4 & Q4); [lia|].
  rewrite decide_True in Hch by done. pose proof (wk_fixed _ _ _ _ _ K4) as F4.
  assert (exists s', btreePrevious (previous_fuel f) s0 = Some (SQLITE_OK, s') /\ kept s0 s' /\ quiet (st_cur s') /\ exists r l, on_row s' l r (after ((Node p kids keys, i) :: fs))) as (s' & E' & K' & R').
  { unfold btreePrevious. rewrite step_assert by done. rewrite step_look. rewrite (decide_False (P := eState (st_cur s0) <> _)) by (cbn; rewrite HV; intros Hx2; by apply Hx2).
    unfold previous_cell. rewrite (step_page _ _ p) by (apply (an_page _ _ _ _ A)). rewrite step_look, E. change (isInit (set_nFree n P)) with (isInit P). change (leaf (set_nFree n P)) with (leaf P).
    rewrite G3, G5. change (child_at (set_nFree n P)) with (child_at P). change (c_ix (st_cur s0)) with (c_ix (st_cur s)). rewrite Hx, (step_try _ _ _ _ Hch), (step_act _ _ _ _ _ E4), rc_ok.
    destruct (rightmost_row s4 _ v (wk_world _ _ _ _ _ K4 W0) A4) as (s5 & E5 & K5 & Q5 & R5 & _); try done; [by rewrite (wk_state _ _ _ _ _ K4)|cbn in F4; congruence|].
    exists s5. split; [exact E5|]. split; [transitivity s4; by apply walk_kept|]. split; [done|]. apply R5. by rewrite (wk_last _ _ _ _ _ K4). }
  exists s'. split; [|split; [by transitivity s0|done]]. case_decide; [done|]. rewrite (step_page _ _ p) by (apply (an_page _ _ _ _ A)). rewrite E.
  change (leaf (set_nFree n P)) with (leaf P). by rewrite G5.
Qed.

Definition previous_result (l : list table_row) (r : table_row) (l' : list table_row) (rc : Z) (s' : State) : Prop :=
  l = [] /\ rc = SQLITE_DONE /\ at_nothing s' \/ exists m r', l = m ++ [r'] /\ rc = SQLITE_OK /\ on_row s' m r' (r :: l').

(** The previous cell of the leaf. *)
Lemma on_row_unshift s fs p rows i r l l' c : at_node s fs (Leaf p rows) -> rows !! S i = Some r -> eState c = CURSOR_VALID -> curIntKey c = true ->
  pPage c = pPage (st_cur s) -> apPage c = apPage (st_cur s) -> unread c -> l = before fs ++ take (S i) rows -> l' = drop (S (S i)) rows ++ after fs ->
  atLast c = false -> c_ix c = Z.of_nat i -> exists m r', l = m ++ [r'] /\ on_row (set_cur c s) m r' (r :: l').
Proof using All.
  intros A Hi HV HI E1 E2 Q -> -> HL Hx. pose proof (lookup_lt_Some _ _ _ Hi). destruct (lookup_lt_is_Some_2 rows i) as [r' Hi']; [lia|].
  exists (before fs ++ take i rows), r'. rewrite <- app_assoc, <- (take_S_r _ _ _ Hi'). split; [done|].
  pose proof (on_row_at (set_cur c s) fs p rows i r' ltac:(by apply at_node_cur) Hi' Hx HV HI Q ltac:(intros Ha; cbn in Ha; congruence)) as R. by rewrite (drop_S _ _ _ Hi) in R.
Qed.

Lemma previous_cell_spec f s l r l' : world_ok s -> on_row s l r l' -> unread (st_cur s) -> atLast (st_cur s) = false ->
  exists rc s', previous_cell (previous_fuel (S f)) s = Some (rc, s') /\ kept s s' /\ previous_result l r l' rc s' /\ (rc = SQLITE_OK -> no_claim s s').
Proof using All.
  intros W R Q HL. pose proof (on_row_flat _ _ _ _ R) as ET. destruct R as (fs & p & rows & i & A & Hi & Hx & HV & HI & El & El' & _ & HK).
  destruct (leaf_page fs p rows (an_focus _ _ _ _ A)) as (P & ls & HP & HF & Hc & Hc2 & F1 & F2 & F3). unfold previous_cell. rewrite (step_page _ _ p) by (apply (an_page _ _ _ _ A)).
  rewrite step_look. destruct (page_is _ _ _ s p P _ _ W (an_held _ _ _ _ A) HP) as [n EP]. rewrite EP.
  change (isInit (set_nFree n P)) with (isInit P). change (leaf (set_nFree n P)) with (leaf P). rewrite F1, F3. pose proof (lookup_lt_Some _ _ _ Hi) as Hlt. destruct i as [|i].
  - destruct (climb_previous_spec fs (S (length (apPage (st_cur s)))) s (Leaf p rows)) as (b & s2 & E2 & K2 & H2); try done.
    { rewrite (an_path _ _ _ _ A). unfold stack. rewrite length_fmap. lia. }
    assert (Eaf : flat (Leaf p rows) ++ after fs = r :: l').
    { rewrite El'. cbn [flat]. rewrite <- (take_drop_middle _ _ _ Hi) at 1. by rewrite take_0, app_nil_l. }
    rewrite Eaf in H2. rewrite (step_act _ _ _ _ _ E2). rewrite take_0, app_nil_r in El. destruct b.
    + destruct H2 as (fs' & q & kids & keys & j & A2 & X2 & Hj & B2 & K12 & Q2). pose proof (kp_world _ _ _ _ _ K2 W) as W2. destruct Q2 as (Q21 & Q22 & Q23).
      rewrite step_assert by done. rewrite step_change. set (s3 := set_cur _ s2). assert (K3 : kept s2 s3) by (by apply kept_cur). assert (A3 : at_node s3 fs' (Node q kids keys)) by (by apply at_node_cur).
      destruct (node_page fs' q kids keys (an_focus _ _ _ _ A2)) as (h & P2 & HP2 & N & Hd & G1 & G2 & G3 & G4 & G5).
      rewrite (step_page _ _ q) by (apply (an_page _ _ _ _ A3)). destruct (page_is _ _ _ s3 q P2 _ _ (kp_world _ _ _ _ _ K3 W2) (an_held _ _ _ _ A3) HP2) as [n2 ->].
      change (intKey (set_nFree n2 P2)) with (intKey P2). change (leaf (set_nFree n2 P2)) with (leaf P2). rewrite G4, G5. cbn [negb andb].
      destruct (previous_node f s3 fs' q kids keys j (kp_world _ _ _ _ _ K3 W2) A3) as (s4 & E4 & K4 & Q4 & r2 & l2 & R4); try done.
      * cbn. by rewrite (wk_state _ _ _ _ _ K12).
      * pose proof (wk_fixed _ _ _ _ _ K12). cbn in *. congruence.
      * cbn. rewrite X2, u16_small by lia. lia.
      * exists SQLITE_OK, s4. split; [done|]. split; [transitivity s2; [done|]; by transitivity s3|]. split; [|intros _; by apply quiet_claim]. right. rewrite <- B2 in R4. pose proof (on_row_flat _ _ _ _ R4) as E5.
        exists l2, r2. split; [|done]. rewrite ET in E5. replace (l2 ++ r2 :: r :: l') with ((l2 ++ [r2]) ++ r :: l') in E5 by (by rewrite <- app_assoc). by apply app_inv_tail in E5.
    + destruct H2 as [HB HN]. exists SQLITE_DONE, s2. split; [done|]. split; [done|]. split; [|done]. left. split; [|done]. rewrite ET in HB. change (r :: l') with ([] ++ r :: l') in HB at 1. by apply app_inv_tail in HB.
  - cbn [climb_previous]. rewrite (step_act _ _ s true s) by (cbn [climb_previous]; rewrite step_look, Hx; by rewrite decide_False by lia).
    destruct Q as (Q1 & Q3). rewrite step_assert by done. rewrite step_change. set (s3 := set_cur _ s). rewrite (step_page _ _ p) by (apply (an_page _ _ _ _ A)).
    change (btreePageFromDbPage p s3) with (btreePageFromDbPage p s). rewrite EP. change (leaf (set_nFree n P)) with (leaf P). rewrite F3. cbn [negb]. rewrite andb_false_r.
    exists SQLITE_OK, s3. split; [done|]. split; [by apply kept_cur|]. split; [|by intros _ H]. right.
    destruct (on_row_unshift s fs p rows i r l l' (st_cur s3) A Hi) as (m & r' & Em & Rm); try done; [cbn; rewrite Hx, u16_small by lia; lia|]. exists m, r'. by split.
Qed.

(** [sqlite3BtreePrevious] from a row. *)
Lemma previous_row f s l r l' : world_ok s -> on_row s l r l' -> exists rc s', previous_fuel (S (S f)) s = Some (rc, s') /\ kept s s' /\ previous_result l r l' rc s' /\
  (rc = SQLITE_OK -> validNKey (st_cur s') = false).
Proof using All.
  intros W R. pose proof R as (fs & p & rows & i & A & Hi & Hx & HV & HI & El & El' & HL & HK).
  destruct (leaf_page fs p rows (an_focus _ _ _ _ A)) as (P & ls & HP & HF & Hc & Hc2 & F1 & F2 & F3). pose proof (lookup_lt_Some _ _ _ Hi) as Hlt.
  cbn [previous_fuel]. rewrite step_change, step_look. set (s0 := set_cur _ s). assert (K0 : kept s s0) by (by apply kept_cur). pose proof (kp_world _ _ _ _ _ K0 W) as W0.
  assert (R0 : on_row s0 l r l') by (by apply (on_row_unread s l r l' (st_cur s0))). case_decide as Hd.
  - unfold btreePrevious. rewrite step_assert by done. rewrite step_look. rewrite (decide_False (P := eState (st_cur s0) <> _)) by (cbn; rewrite HV; intros Hx2; by apply Hx2).
    destruct (previous_cell_spec f s0 l r l' W0 R0) as (rc & s3 & E3 & K3 & H3 & H4); try done. exists rc, s3. split; [exact E3|]. split; [by transitivity s0|]. split; [done|].
    intros Hrc. specialize (H4 Hrc). destruct (validNKey (st_cur s3)) eqn:Ev; [|done]. by destruct (H4 Ev).
  - rewrite (step_page _ _ p) by (apply (an_page _ _ _ _ A)). destruct (page_is _ _ _ s0 p P _ _ W0 (an_held _ _ _ _ A) HP) as [n ->]. change (leaf (set_nFree n P)) with (leaf P). rewrite F3, step_change.
    set (s1 := set_cur _ s0). exists SQLITE_OK, s1. split; [done|]. split; [transitivity s0; [done|by apply kept_cur]|]. split; [|done]. right.
    destruct i as [|i]; [exfalso; apply Hd; by right|].
    destruct (on_row_unshift s fs p rows i r l l' (st_cur s1) A Hi) as (m & r' & Em & Rm); try done; [cbn; rewrite Hx, u16_small by lia; lia|]. exists m, r'. by split.
Qed.

End Rows.
