(* ===== verification/SqlCursorRead.v ===== *)
(** * Reading the row of a cursor

    [sqlite3BtreeIntegerKey], [sqlite3BtreePayloadSize] and [sqlite3BtreePayload] of [SqlCursor]: they read the row the
    cursor is on, and leave it there. *)

From S2P Require Import Prelude Bits SqlBytes SqlCell SqlCellProps SqlPage SqlPageProps SqlFreelist SqlFreelistOk SqlOverflow SqlOverflowOk.
From S2P Require Import SqlOverflowCell SqlOverflowAccess SqlCursor SqlCursorTree SqlCursorMove SqlCursorRow.

(** ** Reading changes nothing but the cache *)

Definition only_cache (d d' : Db) : Prop := exists C, cache d ⊆ C /\ d' = set_cache C d.

#[export] Instance only_cache_refl : Reflexive only_cache.
Proof. intros d. exists (cache d). split; [done|]. by destruct d. Qed.

#[export] Instance only_cache_trans : Transitive only_cache.
Proof. intros d1 d2 d3 (C1 & H1 & ->) (C2 & H2 & ->). exists C2. split; [cbn [set_cache cache] in H2; set_solver|done]. Qed.

Section ReadsOnly.
Context (d0 : Db).
Hypothesis Hans : answers d0 = [].
Hypothesis Hsize : nPage d0 <= dbSize d0.

Lemma get_only p d r d' : only_cache d0 d -> p <= nPage d0 -> sqlite3PagerGet p false d = Some (r, d') -> only_cache d0 d'.
Proof using All.
  intros (C & HC & ->) Hp. unfold sqlite3PagerGet. case_decide; [by intros [= _ <-]; exists C|].
  unfold gets, update, fail, mbind, routine_bind, mret, routine_ret. cbn beta iota. cbn [set_cache cache]. rewrite andb_true_r.
  case_bool_decide; cbn [andb]; [by intros [= _ <-]; exists C|]. unfold next_answer. cbn [set_cache answers]. rewrite Hans. cbn beta iota.
  case_decide; [by intros [= _ <-]; exists C|]. cbn [set_cache dbSize]. rewrite bool_decide_eq_false_2 by lia. cbn [orb].
  intros [= _ <-]. exists ({[p]} ∪ C). split; [set_solver|done].
Qed.

Lemma get4_only p i d r d' : get4 p i d = Some (r, d') -> d' = d.
Proof using Type. unfold get4, gets, lift, mbind, routine_bind. cbn beta iota. destruct (sqlite3Get4byte _ _); [by intros [= _ <-]|done]. Qed.

Lemma copy_only p i n d r d' : copyPayload p i n None d = Some (r, d') -> d' = d.
Proof using Type. unfold copyPayload, gets, lift, mbind, routine_bind. cbn beta iota. destruct (slice _ _ _); [by intros [= _ <-]|done]. Qed.

(** The result of a read, whatever it is. *)
Lemma bind_only {A B} (m : routine A) (k : A -> routine B) d r d' : only_cache d0 d -> (forall r1 d1, m d = Some (r1, d1) -> only_cache d0 d1) ->
  (forall a d1 r2 d2, only_cache d0 d1 -> k a d1 = Some (r2, d2) -> only_cache d0 d2) -> (x ← m; k x) d = Some (r, d') -> only_cache d0 d'.
Proof using Type.
  intros H0 Hm Hk. unfold mbind, routine_bind. destruct (m d) as [[[a|rc] d1]|]; [|by intros [= _ <-]; apply (Hm (Err rc))|done]. apply Hk. by apply (Hm (Ok a)).
Qed.

Lemma overflow_part_only p o a d r d' : only_cache d0 d -> p <= nPage d0 -> overflow_part p o a None d = Some (r, d') -> only_cache d0 d'.
Proof using All.
  intros H0 Hp. unfold overflow_part. apply bind_only; [done|intros r1 d1; by apply get_only|]. intros _ d1 r2 d2 H1. apply bind_only; [done|by intros r3 d3 ->%get4_only|].
  intros nx d3 r4 d4 H3. apply bind_only; [done|by intros r5 d5 ->%copy_only|]. intros bs d5 r6 d6 H5 [= _ <-]. done.
Qed.

Lemma getOverflow_only p d r d' : only_cache d0 d -> p <= nPage d0 -> getOverflowPage p d = Some (r, d') -> only_cache d0 d'.
Proof using All. intros H0 Hp. apply bind_only; [done|intros r1 d1; by apply get_only|]. by intros _ d1 r2 d2 H1 ->%get4_only. Qed.

Lemma only_nPage d : only_cache d0 d -> nPage d = nPage d0.
Proof using Type. by intros (C & _ & ->). Qed.

Lemma access_loop_only ov fuel : forall p o a i l out d rc out' l' d', only_cache d0 d -> access_loop fuel ov p o a i l out None d = Some (rc, out', l', d') -> only_cache d0 d'.
Proof using All.
  induction fuel as [|fuel IH]; intros p o a i l out d rc out' l' d' H0; cbn [access_loop]; [done|].
  case_decide; [by intros [= _ _ _ <-]|]. rewrite (only_nPage d H0). case_decide as Hp; [by intros [= _ _ _ <-]|]. destruct (check _) as [u0|]; cbn [mbind option_bind]; [|done].
  case_decide.
  - destruct (mjoin _) as [kn|]; cbn [mbind option_bind]; [|done]. case_decide; [by apply IH|].
    destruct (getOverflowPage p d) as [[[nx|e] d1]|] eqn:E; cbn [mbind option_bind]; [|by intros [= _ _ _ <-]; apply (getOverflow_only p d (Err e)); [done|lia|]|done].
    apply IH. apply (getOverflow_only p d (Ok nx)); [done|lia|done].
  - destruct (overflow_part _ _ _ _ d) as [[[[nx bs]|e] d1]|] eqn:E; cbn [mbind option_bind]; [| |done].
    + assert (Hd1 : only_cache d0 d1) by (eapply overflow_part_only; [exact H0| |exact E]; lia). destruct (decide (_ - _ = 0)); [by intros [= _ _ _ <-]|]. cbn [fmap option_fmap option_map]. by apply IH.
    + intros [= _ _ _ <-]. eapply overflow_part_only; [exact H0| |exact E]; lia.
Qed.

(** [accessPayload] when it reads: the database, and what the cursor knows of its cell. *)
Lemma accessPayload_only c offset amt rc out c' d' : accessPayload c offset amt None d0 = Some (rc, out, c', d') -> rc = SQLITE_OK -> only_cache d0 d' /\
  cur_info c' = match cur_info c with Some i => Some i | None => btreeParseCell (set_aData (page_of d0 (cur_pgno c)) (cur_page c)) (cur_ix c) end.
Proof using All.
  unfold accessPayload. case_decide; [by intros [= <- _ _ _]|]. set (P := set_aData _ _).
  destruct (SqlOverflow.getCellInfo P c) as [[info c1]|] eqn:Eg; cbn [mbind option_bind]; [|done].
  assert (Ei : cur_info c1 = match cur_info c with Some i => Some i | None => btreeParseCell P (cur_ix c) end).
  { unfold SqlOverflow.getCellInfo in Eg. destruct (cur_info c) as [i|] eqn:Ec; [injection Eg as _ <-; done|]. destruct (btreeParseCell P _) as [i|]; cbn [mbind option_bind] in Eg; [|done]. by injection Eg as _ <-. }
  destruct (pPayload info) as [pl|]; cbn [mbind option_bind]; [|done]. destruct (check _) as [u0|]; cbn [mbind option_bind]; [|done]. case_decide; [by intros [= <- _ _ _]|].
  destruct (access_local _ _ _ _ _ _ _) as [[r d1]|] eqn:El; cbn [mbind option_bind]; [|done].
  assert (Hd1 : only_cache d0 d1).
  { unfold access_local in El. case_decide; [|by injection El as _ <-]. revert El. apply bind_only; [done|by intros r1 d2 ->%copy_only|]. by intros bs d2 r2 d3 H2 [= _ <-]. }
  destruct r as [[[[bs o] a] w]|e]; [|intros [= <- _ <- <-] _; done].
  assert (w = None) as ->.
  { unfold access_local in El. case_decide; [|by injection El as _ _ _ <- _]. revert El. unfold copyPayload, gets, lift, mbind, routine_bind. cbn beta iota.
    destruct (slice _ _ _); cbn [mbind option_bind]; [|done]. by intros [= _ _ _ <- _]. }
  case_decide; [|intros [= _ _ <- <-] _; by split]. destruct (sqlite3Get4byte _ _) as [nx|]; cbn [mbind option_bind]; [|done].
  destruct (if valid_ovfl c1 then _ else _) as [[[[l [[k n] o2]]|e] d2]|] eqn:Ev; cbn [mbind option_bind]; [| |done].
  - assert (H2 : only_cache d0 d2).
    { destruct (valid_ovfl c1).
      - destruct (mjoin _) as [kn|]; cbn [mbind option_bind] in Ev; [|done]. by injection Ev as _ _ <-.
      - revert Ev. apply bind_only; [done| |by intros l2 d3 r2 d4 H3 [= _ <-]]. unfold overflow_cache. intros r1 d3. apply bind_only; [done| |by intros l2 d4 r2 d5 H4 [= _ <-]].
        intros r2 d4. case_decide; [|by intros [= _ <-]]. apply bind_only; [done| |by intros l2 d5 r3 d6 H5 [= _ <-]]. intros r3 d5. unfold next_answer.
        destruct Hd1 as (C & HC & ->). cbn [set_cache answers]. rewrite Hans. intros [= _ <-]. by exists C. }
    destruct (access_loop _ _ _ _ _ _ _ _ _ _) as [[[[rc2 out2] l2] d3]|] eqn:Ea; cbn [mbind option_bind]; [|done]. intros [= _ _ <- <-] _. split; [|done].
    by apply (access_loop_only _ _ _ _ _ _ _ _ _ _ _ _ _ H2 Ea).
  - intros [= -> _ <- <-] He. split; [|done]. destruct (valid_ovfl c1).
    + destruct (mjoin _) as [kn|]; cbn [mbind option_bind] in Ev; [|done]. by injection Ev.
    + revert Ev. apply bind_only; [done| |by intros l2 d3 r2 d4 H3 [= _ <-]]. unfold overflow_cache. intros r1 d3. apply bind_only; [done| |by intros l2 d4 r2 d5 H4 [= _ <-]].
      intros r2 d4. case_decide; [|by intros [= _ <-]]. apply bind_only; [done| |by intros l2 d5 r3 d6 H5 [= _ <-]]. intros r3 d5. unfold next_answer.
      destruct Hd1 as (C & HC & ->). cbn [set_cache answers]. rewrite Hans. intros [= _ <-]. by exists C.
Qed.

End ReadsOnly.

(** ** The row *)

(** A rowid the cursor remembers is the one of the row. *)
Definition true_claim (s : State) (r : table_row) : Prop := validNKey (st_cur s) = true -> info_nKey (st_cur s) = r.1.

Section Read.
Context (bt : BtShared) (np : Z) (D : Z -> bytes).
Hypothesis Hlim : limits_ok bt.
Hypothesis Hnp : np < 4294967296.
Context (T : tree) (hT : nat).
Hypothesis HT : tree_ok bt np D hT T.
Hypothesis Hheight : (hT <= 19)%nat.
Hypothesis Hroot : match T with Leaf _ _ => True | Node p _ keys => keys = [] -> p = 1 end.

#[local] Abbreviation world_ok := (world_ok bt np D).
#[local] Abbreviation kept := (kept bt np D).
#[local] Abbreviation on_row := (on_row bt np D T).

(** The same position, with what the cursor knows now. *)
Lemma on_row_knows s s' l r l' fs p rows i : at_node T s fs (Leaf p rows) -> rows !! i = Some r -> l = before fs ++ take i rows -> l' = drop (S i) rows ++ after fs ->
  (forall q, held s q -> held s' q) -> let o := st_cur s in let c := st_cur s' in
  pPage c = pPage o -> apPage c = apPage o -> c_ix c = Z.of_nat i -> eState c = CURSOR_VALID -> curIntKey c = true -> (atLast c = true -> l' = []) -> knows bt np D p i r c -> on_row s' l r l'.
Proof using Type.
  intros [A1 A2 A3 A4 A5] Hi -> -> Hh o c E1 E2 HX HV HI HL HK. exists fs, p, rows, i. split_and!; try done. split; try done; [by rewrite <- A2|by rewrite <- A3|by apply Hh|].
  intros t j Hj. by apply Hh, (A5 t j).
Qed.

Lemma getCellInfo_spec s l r l' : world_ok s -> on_row s l r l' -> exists s', getCellInfo s = Some (tt, s') /\ kept s s' /\ on_row s' l r l' /\
  info_nKey (st_cur s') = r.1 /\ exists info, c_info (st_cur s') = Some info /\ nPayload info = len r.2.
Proof using All.
  intros W R. pose proof R as (fs & p & rows & i & A & Hi & Hx & HV & HI & El & El' & HL & P & ls & info & aPay & ps & HP & Hn & RF & K1 & K3).
  unfold getCellInfo. rewrite step_look. pose proof (rf_info _ _ _ _ _ _ _ _ _ _ RF) as [Hpay _]. destruct K1 as [K1|[K1 K1']]; rewrite K1.
  - rewrite (step_page _ _ p) by (apply (an_page _ _ _ _ A)). destruct (page_is _ _ _ s p P _ _ W (an_held _ _ _ _ A) HP) as [n ->].
    change (btreeParseCell (set_nFree n P)) with (btreeParseCell P). rewrite Hx, (step_try _ _ _ _ (rf_parse _ _ _ _ _ _ _ _ _ _ RF)).
    eexists. split; [reflexivity|]. pose proof (rf_nKey _ _ _ _ _ _ _ _ _ _ RF) as Hk. split; [by apply kept_cur|]. split; [|split; [done|by exists info]].
    apply (on_row_knows s _ l r l' fs p rows i); try done. exists P, ls, info, aPay, ps. split_and!; try done. by right.
  - exists s. split; [done|]. split; [done|]. split; [done|]. split; [done|]. by exists info.
Qed.

Lemma integerKey_spec s l r l' : world_ok s -> on_row s l r l' -> exists s', sqlite3BtreeIntegerKey s = Some (r.1, s') /\ kept s s' /\ on_row s' l r l' /\ true_claim s' r.
Proof using All.
  intros W R. pose proof R as (fs & p & rows & i & A & Hi & Hx & HV & HI & _). unfold sqlite3BtreeIntegerKey. rewrite step_assert by done.
  destruct (getCellInfo_spec s l r l' W R) as (s' & E & K & R' & Hk & _). rewrite (step_act _ _ _ _ _ E). exists s'. unfold look. rewrite Hk. split; [done|]. split; [done|]. split; [done|by intros _].
Qed.

Lemma payloadSize_spec s l r l' : world_ok s -> on_row s l r l' -> exists s', sqlite3BtreePayloadSize s = Some (len r.2, s') /\ kept s s' /\ on_row s' l r l' /\ true_claim s' r.
Proof using All.
  intros W R. pose proof R as (fs & p & rows & i & A & Hi & Hx & HV & HI & _). unfold sqlite3BtreePayloadSize. rewrite step_assert by done.
  destruct (getCellInfo_spec s l r l' W R) as (s' & E & K & R' & Hk & info & Ei & Hp). rewrite (step_act _ _ _ _ _ E), step_look, (step_try _ _ _ _ Ei). exists s'. rewrite Hp. split; [done|]. split; [done|]. split; [done|by intros _].
Qed.

(** The payload of the row, for [accessPayload]. *)
Lemma row_chained s p P l i r info aPay ps : world_ok s -> table_page bt np D p P true l -> row_found bt np D p P i r info aPay ps ->
  chained bt p aPay (cell_local P (len r.2)) ps (st_db s).
Proof using Type.
  intros [W1 W2 [W3 W3'] W4 W5] HP RF. split; rewrite ?W3; try done.
  - by destruct (tp_range _ _ _ _ _ _ _ HP).
  - apply (rf_ps _ _ _ _ _ _ _ _ _ _ RF).
  - intros Hne. rewrite W4. apply (links_ext D); [intros q _; apply W4|]. by apply (rf_links _ _ _ _ _ _ _ _ _ _ RF).
Qed.

Lemma world_only s d c : world_ok s -> only_cache (st_db s) d -> world_ok (set_cur c (set_db d s)) /\ forall q, held s q -> held (set_cur c (set_db d s)) q.
Proof using Type.
  intros [W1 W2 W3 W4 W5] (C & HC & ->). split; [|intros q [Hq Hm]; split; [by apply HC|done]]. split; try done. by destruct W1.
Qed.

Lemma payload_spec s l r l' offset amt : world_ok s -> on_row s l r l' -> 0 <= offset -> 0 <= amt -> offset + amt <= len r.2 ->
  exists s', sqlite3BtreePayload offset amt s = Some ((SQLITE_OK, sub r.2 offset amt), s') /\ kept s s' /\ on_row s' l r l' /\ true_claim s' r.
Proof using All.
  intros W R Ho Ha HN. pose proof R as (fs & p & rows & i & A & Hi & Hx & HV & HI & El & El' & HL & P & ls & info & aPay & ps & HP & Hn & RF & K1 & K3).
  unfold sqlite3BtreePayload. rewrite step_assert by done. rewrite step_look, (step_try _ _ _ _ (an_page _ _ _ _ A)), (step_page _ _ p) by (apply (an_page _ _ _ _ A)). cbn [root].
  destruct (page_is _ _ _ s p P _ _ W (an_held _ _ _ _ A) HP) as [n EP]. rewrite EP. pose proof W as [W1 W2 [W3 W3'] W4 W5].
  pose proof (rf_nodup _ _ _ _ _ _ _ _ _ _ RF) as [Q1 Q2]. set (L := cell_local P (len r.2)). set (b := payload_cursor p (set_nFree n P) (st_cur s)).
  pose proof (limits_bounds _ Hlim) as (B1 & _). pose proof (do_usable _ W1) as B2. pose proof (do_size _ W1) as B3. rewrite W2 in B2, B3.
  assert (HPd : set_aData (page_of (st_db s) p) (set_nFree n P) = set_nFree n P).
  { rewrite W4, <- (tp_data _ _ _ _ _ _ _ HP). by destruct P. }
  assert (Hat : at_cell bt p aPay L (len r.2) ps b (st_db s)).
  { split; [done|cbn; by rewrite Hx| |exact K3]. exists info. split; [apply (rf_info _ _ _ _ _ _ _ _ _ _ RF)|]. cbn. destruct K1 as [->|[-> _]]; [|done].
    rewrite HPd, Hx. apply (rf_parse _ _ _ _ _ _ _ _ _ _ RF). }
  destruct (accessPayload_spec bt p aPay L (len r.2) ps Q1 Q2 (rf_length _ _ _ _ _ _ _ _ _ _ RF) (rf_local _ _ _ _ _ _ _ _ _ _ RF) (rf_room _ _ _ _ _ _ _ _ _ _ RF) (conj (conj (proj1 B1) (proj2 B2)) B3)
    b (st_db s) offset amt None (row_chained s p P ls i r info aPay ps W HP RF) Hat Ho Ha HN I) as (b' & d' & E & _ & Hat').
  destruct (accessPayload_only (st_db s) (do_answers _ W1) ltac:(lia) b offset amt SQLITE_OK _ b' d' E eq_refl) as [Hd Hb].
  unfold read_payload. fold b. rewrite E. cbn [mbind option_bind]. eexists. split; [|].
  - do 3 f_equal. cbn [read_out]. rewrite sub_seqZ by lia. apply list_fmap_ext. intros k x Hk. apply list_elem_of_lookup_2, elem_of_seqZ in Hk.
    unfold pay. rewrite W4. apply (rf_bytes _ _ _ _ _ _ _ _ _ _ RF). lia.
  - set (c' := after_payload b' (st_cur s)). destruct (world_only s d' c' W Hd) as [W' Hh].
    assert (Hb' : cur_info b' = Some info).
    { rewrite Hb. cbn. destruct K1 as [->|[-> _]]; [|done]. rewrite HPd, Hx. apply (rf_parse _ _ _ _ _ _ _ _ _ _ RF). }
    assert (Hc' : pPage c' = pPage (st_cur s) /\ apPage c' = apPage (st_cur s) /\ c_ix c' = c_ix (st_cur s) /\ eState c' = eState (st_cur s) /\ curIntKey c' = curIntKey (st_cur s) /\
      atLast c' = atLast (st_cur s) /\ skipNext c' = skipNext (st_cur s) /\ pKeyInfo c' = pKeyInfo (st_cur s) /\ pgnoRoot c' = pgnoRoot (st_cur s) /\ pinned c' = pinned (st_cur s) /\
      c_info c' = Some info /\ info_nKey c' = r.1 /\ c_aOverflow c' = aOverflow b' /\ validOvfl c' = valid_ovfl b').
    { unfold c', after_payload. rewrite Hb'. pose proof (rf_nKey _ _ _ _ _ _ _ _ _ _ RF). destruct K1 as [E1|[E1 E1']]; rewrite E1; cbn; by split_and!. }
    destruct Hc' as (C1 & C2 & C3 & C4 & C5 & C6 & C7 & C8 & C9 & C10 & C11 & C12 & C13 & C14).
    split; [split; [done|cbn [set_cur st_cur]; congruence|done]|]. split; [|by intros _]. apply (on_row_knows s _ l r l' fs p rows i); try done; cbn [set_cur st_cur]; rewrite ?C3, ?C4, ?C5, ?C6; try done.
    exists P, ls, info, aPay, ps. split; [done|]. split; [done|]. split; [done|]. split; [by right|]. rewrite C13, C14. apply (at_cache _ _ _ _ _ _ _ _ Hat').
Qed.

End Read.
