(* ===== verification/SqlCursorSeek.v ===== *)
(** * Searching for a rowid

    The binary search on a page, the search from the root to a leaf, and [sqlite3BtreeTableMoveto] with its short cuts:
    the cursor ends on the row with the rowid, or on a neighbour of the place where it would be. *)

From stdpp Require Import sorting.
From S2P Require Import Prelude Bits SqlBytes SqlCell SqlCellProps SqlPage SqlPageProps SqlFreelist SqlFreelistOk SqlCursor SqlCursorTree SqlCursorMove.
From S2P Require Import SqlCursorRow SqlCursorRead.

(** ** On a page *)

Definition search_result (ks : list Z) (k : Z) (f : found) : Prop :=
  match f with
  | KeyCorrupt => False
  | Exact idx x => x = k /\ exists i, idx = Z.of_nat i /\ ks !! i = Some k
  | Between idx lwr c => exists i j, idx = Z.of_nat i /\ lwr = Z.of_nat j /\ (i < length ks)%nat /\ (j <= length ks)%nat /\
      (forall a x, ks !! a = Some x -> (a < j)%nat /\ x < k \/ (j <= a)%nat /\ k < x) /\ (c = -1 /\ j = S i \/ c = 1 /\ j = i)
  end.

(** The keys are in order. *)
Definition increasing (ks : list Z) : Prop := forall i j a b, (i < j)%nat -> ks !! i = Some a -> ks !! j = Some b -> a < b.

Lemma key_search_spec P ks k : (forall i x, ks !! i = Some x -> cell_key P (Z.of_nat i) = Some (Some x)) -> increasing ks ->
  forall fuel lwr upr idx, 0 <= lwr <= idx -> idx <= upr < Z.of_nat (length ks) -> upr - lwr < Z.of_nat fuel ->
  (forall a x, ks !! a = Some x -> Z.of_nat a < lwr -> x < k) -> (forall a x, ks !! a = Some x -> upr < Z.of_nat a -> k < x) ->
  exists f, key_search fuel P k lwr upr idx = Some f /\ search_result ks k f.
Proof.
  intros HP Hs. induction fuel as [|fuel IH]; intros lwr upr idx H1 H2 H3 Hlo Hhi; [lia|]. cbn [key_search].
  destruct (lookup_lt_is_Some_2 ks (Z.to_nat idx)) as [x Hx]; [lia|]. pose proof (HP _ _ Hx) as Hk. rewrite Z2Nat.id in Hk by lia. rewrite Hk. cbn [mbind option_bind].
  assert (Hbelow : forall a y, ks !! a = Some y -> (a < Z.to_nat idx)%nat -> y < x) by (intros a y Ha Hlt; by apply (Hs a (Z.to_nat idx) y x)).
  assert (Habove : forall a y, ks !! a = Some y -> (Z.to_nat idx < a)%nat -> x < y) by (intros a y Ha Hlt; by apply (Hs (Z.to_nat idx) a x y)).
  assert (Hat : forall a y, ks !! a = Some y -> a = Z.to_nat idx -> y = x) by (intros a y Ha ->; congruence). rewrite !Z.shiftr_div_pow2 by lia. change (2 ^ 1) with 2.
  destruct (decide (x < k)) as [Hlt|Hlt]; [|destruct (decide (k < x)) as [Hgt|Hgt]].
  - assert (Hl : forall a y, ks !! a = Some y -> Z.of_nat a < idx + 1 -> y < k).
    { intros a y Ha Hi. destruct (decide (a = Z.to_nat idx)) as [->|]; [by rewrite (Hat _ _ Ha)|]. pose proof (Hbelow a y Ha). lia. }
    destruct (decide (upr < idx + 1)) as [Hn|Hn].
    + eexists. split; [done|]. exists (Z.to_nat idx), (S (Z.to_nat idx)). split_and!; try lia. intros a y Ha. destruct (decide (a < S (Z.to_nat idx))%nat) as [Hi|Hi].
      * left. split; [done|]. apply (Hl a y Ha). lia.
      * right. split; [lia|]. apply (Hhi a y Ha). lia.
    + apply IH; [Z.to_euclidean_division_equations; lia|Z.to_euclidean_division_equations; lia|lia|done|done].
  - assert (Hl : forall a y, ks !! a = Some y -> idx - 1 < Z.of_nat a -> k < y).
    { intros a y Ha Hi. destruct (decide (a = Z.to_nat idx)) as [->|]; [by rewrite (Hat _ _ Ha)|]. pose proof (Habove a y Ha). lia. }
    destruct (decide (idx - 1 < lwr)) as [Hn|Hn].
    + eexists. split; [done|]. exists (Z.to_nat idx), (Z.to_nat idx). split_and!; try lia. intros a y Ha. destruct (decide (a < Z.to_nat idx)%nat) as [Hi|Hi].
      * left. split; [done|]. apply (Hlo a y Ha). lia.
      * right. split; [lia|]. apply (Hl a y Ha). lia.
    + apply IH; [Z.to_euclidean_division_equations; lia|Z.to_euclidean_division_equations; lia|lia|done|done].
  - assert (x = k) as -> by lia. eexists. split; [done|]. split; [done|]. exists (Z.to_nat idx). split; [lia|done].
Qed.

(** ** Rows in order *)

Definition ordered (l : list table_row) : Prop := StronglySorted Z.lt (l.*1).

Lemma ordered_app a b : ordered (a ++ b) -> ordered a /\ ordered b /\ forall x y, x ∈ a -> y ∈ b -> x.1 < y.1.
Proof.
  unfold ordered. rewrite fmap_app. intros H. split; [by apply StronglySorted_app_1_l in H|]. split; [by apply StronglySorted_app_1_r in H|].
  intros x y Hx Hy. apply (StronglySorted_app_1_elem_of Z.lt _ _ _ _ H); apply list_elem_of_fmap; eauto.
Qed.

Lemma ordered_increasing l : ordered l -> increasing (l.*1).
Proof.
  intros H i j a b Hij Ha Hb. apply list_lookup_fmap_Some in Ha as (x & -> & Hx). apply list_lookup_fmap_Some in Hb as (y & -> & Hy).
  rewrite <- (take_drop (S i) l) in H. apply ordered_app in H as (_ & _ & H). apply H.
  - apply list_elem_of_lookup. exists i. rewrite lookup_take_lt by lia. done.
  - apply list_elem_of_lookup. exists (j - S i)%nat. rewrite lookup_drop. by replace (S i + (j - S i))%nat with j by lia.
Qed.

Section Seek.
Context (bt : BtShared) (np : Z) (D : Z -> bytes).
Hypothesis Hlim : limits_ok bt.
Hypothesis Hnp : np < 4294967296.
Context (T : tree) (hT : nat).
Hypothesis HT : tree_ok bt np D hT T.
Hypothesis Hheight : (hT <= 19)%nat.
Hypothesis Hroot : match T with Leaf _ _ => True | Node p _ keys => keys = [] -> p = 1 end.
Hypothesis Hord : ordered (flat T).

#[local] Abbreviation tree_ok := (tree_ok bt np D).
#[local] Abbreviation world_ok := (world_ok bt np D).
#[local] Abbreviation walk := (walk bt np D).
#[local] Abbreviation kept := (kept bt np D).
#[local] Abbreviation on_row := (on_row bt np D T).
#[local] Abbreviation at_node := (at_node T).
#[local] Abbreviation at_nothing := (at_nothing T).
#[local] Abbreviation on_table := (on_table bt np D T).

(** The row with the key, the greatest one below or the least one above. *)
Definition sought (k res : Z) (l : list table_row) (r : table_row) (l' : list table_row) : Prop :=
  res = 0 /\ r.1 = k \/ res = -1 /\ r.1 < k /\ (forall x, x ∈ l' -> k < x.1) \/ res = 1 /\ k < r.1 /\ (forall x, x ∈ l -> x.1 < k).

Definition seek_result (k res : Z) (s' : State) : Prop := exists l r l', on_row s' l r l' /\ sought k res l r l' /\ true_claim s' r /\ (res <> 0 -> validNKey (st_cur s') = false) /\
  unread (st_cur s') /\ atLast (st_cur s') = false.

Lemma seek_leaf s fs p rows k (biasRight : bool) fuel : world_ok s -> at_node s fs (Leaf p rows) -> eState (st_cur s) = CURSOR_VALID -> curIntKey (st_cur s) = true ->
  quiet (st_cur s) -> c_ix (st_cur s) = 0 -> rows <> [] -> atLast (st_cur s) = false ->
  (forall x, x ∈ before fs -> x.1 < k) -> (forall x, x ∈ after fs -> k < x.1) ->
  exists res s', moveto_loop (S fuel) k biasRight s = Some ((SQLITE_OK, res), s') /\ kept s s' /\ seek_result k res s'.
Proof using All.
  intros W A HV HI HQ Hx Hr HL Hb Ha. pose proof HQ as (Q1 & Q2 & Q3). cbn [moveto_loop]. rewrite (step_page _ _ p) by (apply (an_page _ _ _ _ A)).
  destruct (leaf_page bt np D Hlim Hnp T hT HT Hheight Hroot fs p rows (an_focus _ _ _ _ A)) as (P & ls & HP & HF & Hc & Hc2 & F1 & F2 & F3).
  destruct (page_is _ _ _ s p P _ _ W (an_held _ _ _ _ A) HP) as [n ->]. change (nCell (set_nFree n P)) with (nCell P). change (intKey (set_nFree n P)) with (intKey P). change (leaf (set_nFree n P)) with (leaf P).
  assert (Hlen : (0 < length rows)%nat) by (destruct rows; [done|cbn; lia]). rewrite decide_False by (rewrite F2; intros [?|?]; [lia|done]). rewrite F3.
  assert (Hks : forall i x, rows.*1 !! i = Some x -> cell_key (set_nFree n P) (Z.of_nat i) = Some (Some x)).
  { intros i x Hi. apply list_lookup_fmap_Some in Hi as (r & -> & Hi). destruct (leaf_row bt np D Hlim p P ls rows i r HP HF Hi) as (info & aPay & ps & RF). apply (rf_key _ _ _ _ _ _ _ _ _ _ RF). }
  pose proof (focus_flat _ _ _ (an_focus _ _ _ _ A)) as EF. cbn [flat] in EF. assert (Hor : ordered rows) by (rewrite EF in Hord; by apply ordered_app in Hord as (_ & (? & _)%ordered_app & _)).
  destruct (key_search_spec (set_nFree n P) rows.*1 k Hks (ordered_increasing _ Hor) (Z.to_nat (nCell P)) 0 (nCell P - 1) (if biasRight then nCell P - 1 else Z.shiftr (nCell P - 1) 1)) as (f & Ef & Hf).
  { destruct biasRight; [lia|]. rewrite Z.shiftr_div_pow2 by lia. change (2 ^ 1) with 2. Z.to_euclidean_division_equations; lia. }
  { rewrite length_fmap. destruct biasRight; [lia|]. rewrite Z.shiftr_div_pow2 by lia. change (2 ^ 1) with 2. Z.to_euclidean_division_equations; lia. }
  { lia. } { intros a x _ ?. lia. } { intros a x Hi ?. apply lookup_lt_Some in Hi. rewrite length_fmap in Hi. lia. }
  rewrite (step_try _ _ _ _ Ef). assert (Hu16 : forall i, (i < length rows)%nat -> u16 (Z.of_nat i) = Z.of_nat i) by (intros i Hi; apply u16_small; lia).
  destruct f as [|idx x|idx lwr c]; cbn [search_result] in Hf; [done| |].
  - destruct Hf as (-> & i & -> & Hi). apply list_lookup_fmap_Some in Hi as (r & Ek & Hi). pose proof (lookup_lt_Some _ _ _ Hi) as Hlt. rewrite step_change, step_change.
    set (s1 := set_cur _ _). exists 0, s1. split; [done|]. split; [by apply (kept_trans _ _ _ _ (set_cur (set_ix (u16 (Z.of_nat i)) (st_cur s)) s)); apply kept_cur|].
    exists (before fs ++ take i rows), r, (drop (S i) rows ++ after fs). split; [|split; [by left|]; split; [by intros _|]; by split]. destruct (leaf_row bt np D Hlim p P ls rows i r HP HF Hi) as (info & aPay & ps & RF).
    apply (on_row_knows bt np D T s s1 _ r _ fs p rows i); try done; [cbn; by apply Hu16|cbn; congruence|]. exists P, ls, info, aPay, ps. split; [done|]. split; [lia|]. split; [done|]. split; [by left|]. cbn. congruence.
  - destruct Hf as (i & j & -> & -> & Hi & Hj & Hsep & Hc3). rewrite length_fmap in Hi, Hj. rewrite step_assert by lia. rewrite step_change. rewrite step_assert by done.
    set (s1 := set_cur _ _). exists c, s1. split; [done|]. split; [by apply kept_cur|]. destruct (lookup_lt_is_Some_2 rows i Hi) as [r Er].
    exists (before fs ++ take i rows), r, (drop (S i) rows ++ after fs). assert (Hk : rows.*1 !! i = Some r.1) by (by rewrite list_lookup_fmap, Er). split; [|split; [|split; [intros Hv; cbn in Hv; congruence|by split]]].
    + apply (on_row_at bt np D Hlim Hnp T hT HT Hheight Hroot s1 fs p rows i r); try done; [by apply at_node_cur|cbn; by apply Hu16|cbn; congruence].
    + right. destruct Hc3 as [[-> ->]|[-> ->]]; [left|right]; (split; [done|]).
      * destruct (Hsep i _ Hk) as [[_ ?]|[? _]]; [|lia]. split; [done|]. intros x [Hx2|Hx2]%elem_of_app; [|by apply Ha]. apply list_elem_of_lookup in Hx2 as [a Hx2]. rewrite lookup_drop in Hx2.
        destruct (Hsep (S i + a)%nat x.1) as [[? _]|[_ ?]]; [by rewrite list_lookup_fmap, Hx2|lia|done].
      * destruct (Hsep i _ Hk) as [[? _]|[_ ?]]; [lia|]. split; [done|]. intros x [Hx2|Hx2]%elem_of_app; [by apply Hb|]. apply list_elem_of_lookup in Hx2 as [a Hx2].
        apply lookup_take_Some in Hx2 as [Hx2 Hlt]. destruct (Hsep a x.1) as [[_ ?]|[? _]]; [by rewrite list_lookup_fmap, Hx2|done|lia].
Qed.

(** The child the search goes to, and what is on its sides. *)
Lemma sides h p kids keys j k fs : node_ok bt np D h p kids keys -> (j <= length keys)%nat ->
  (forall a x, keys !! a = Some x -> (a < j)%nat /\ x < k \/ (j <= a)%nat /\ k <= x) ->
  (forall x, x ∈ before fs -> x.1 < k) -> (forall x, x ∈ after fs -> k < x.1) ->
  (forall x, x ∈ before ((Node p kids keys, j) :: fs) -> x.1 < k) /\ (forall x, x ∈ after ((Node p kids keys, j) :: fs) -> k < x.1).
Proof using All.
  intros N Hj Hsep Hb Ha. pose proof (no_length _ _ _ _ _ _ _ N) as Hl. cbn [before after kids_of]. split; intros x [Hx|Hx]%elem_of_app; [by apply Hb| | |by apply Ha].
  - apply list_elem_of_bind in Hx as (u & Hx & Hu). apply list_elem_of_lookup in Hu as [a Hu]. apply lookup_take_Some in Hu as [Hu Hlt].
    destruct (lookup_lt_is_Some_2 keys a) as [y Hy]; [lia|]. destruct (Hsep a y Hy) as [[_ ?]|[? _]]; [|lia].
    destruct (no_separates _ _ _ _ _ _ _ N a y a u x Hy Hu Hx) as [[_ ?]|[? _]]; lia.
  - apply list_elem_of_bind in Hx as (u & Hx & Hu). apply list_elem_of_lookup in Hu as [a Hu]. rewrite lookup_drop in Hu. pose proof (lookup_lt_Some _ _ _ Hu).
    destruct (lookup_lt_is_Some_2 keys j) as [y Hy]; [lia|]. destruct (Hsep j y Hy) as [[? _]|[_ ?]]; [lia|].
    destruct (no_separates _ _ _ _ _ _ _ N j y (S j + a)%nat u x Hy Hu Hx) as [[? _]|[_ ?]]; lia.
Qed.

Lemma moveto_loop_spec k (biasRight : bool) fuel : forall h s fs u, (h < fuel)%nat -> tree_ok h u -> (h + length fs <= 19)%nat -> world_ok s -> at_node s fs u ->
  eState (st_cur s) = CURSOR_VALID -> curIntKey (st_cur s) = true -> quiet (st_cur s) -> c_ix (st_cur s) = 0 -> filled u -> atLast (st_cur s) = false ->
  (forall x, x ∈ before fs -> x.1 < k) -> (forall x, x ∈ after fs -> k < x.1) ->
  exists res s', moveto_loop fuel k biasRight s = Some ((SQLITE_OK, res), s') /\ kept s s' /\ seek_result k res s'.
Proof using All.
  induction fuel as [|fuel IH]; intros h s fs u Hf Hu Hd W A HV HI HQ Hx Hfl HL Hb Ha; [lia|].
  destruct u as [p rows|p kids keys]; [by apply (seek_leaf s fs p rows)|]. cbn [moveto_loop]. rewrite (step_page _ _ p) by (apply (an_page _ _ _ _ A)).
  apply node_inv in Hu as (h' & -> & N). pose proof (no_length _ _ _ _ _ _ _ N) as Hkl. destruct (node_page bt np D Hlim Hnp T hT HT Hheight Hroot fs p kids keys (an_focus _ _ _ _ A)) as (h2 & P & HP & _ & _ & Hc & Hc2 & F1 & F2 & F3).
  destruct (page_is _ _ _ s p P _ _ W (an_held _ _ _ _ A) HP) as [n EP]. rewrite EP. change (nCell (set_nFree n P)) with (nCell P). change (intKey (set_nFree n P)) with (intKey P).
  change (leaf (set_nFree n P)) with (leaf P). change (right_child (set_nFree n P)) with (right_child P). change (child_at (set_nFree n P)) with (child_at P).
  assert (Hlen : (0 < length keys)%nat) by (destruct keys; [done|cbn; lia]). rewrite decide_False by (rewrite F2; intros [?|?]; [lia|done]). rewrite F3.
  assert (Hks : forall i x, keys !! i = Some x -> cell_key (set_nFree n P) (Z.of_nat i) = Some (Some x)).
  { intros i x Hi. destruct (lookup_lt_is_Some_2 kids i) as [v Hv]; [apply lookup_lt_Some in Hi; lia|]. pose proof (no_kids _ _ _ _ _ _ _ N v (list_elem_of_lookup_2 _ _ _ Hv)) as Hvo.
    destruct (tree_page _ _ _ _ _ Hvo) as [V HVp]. destruct (subtree_table _ _ _ _ _ HVp) as [lv Hlv]. destruct (tp_range _ _ _ _ _ _ _ Hlv) as [R1 R2].
    apply (node_cell bt np D p P (zip_with child_cell kids keys) i v x HP); [by rewrite lookup_zip_with, Hv, Hi|lia|]. pose proof (no_keys _ _ _ _ _ _ _ N) as HK. rewrite Forall_forall in HK. apply HK. by apply list_elem_of_lookup_2 in Hi. }
  assert (Hinc : increasing keys) by (intros i j a b; by apply (keys_sorted bt np D h' p kids keys)).
  destruct (key_search_spec (set_nFree n P) keys k Hks Hinc (Z.to_nat (nCell P)) 0 (nCell P - 1) (if biasRight then nCell P - 1 else Z.shiftr (nCell P - 1) 1)) as (f & Ef & Hfr).
  { destruct biasRight; [lia|]. rewrite Z.shiftr_div_pow2 by lia. change (2 ^ 1) with 2. Z.to_euclidean_division_equations; lia. }
  { destruct biasRight; [lia|]. rewrite Z.shiftr_div_pow2 by lia. change (2 ^ 1) with 2. Z.to_euclidean_division_equations; lia. }
  { lia. } { intros a x _ ?. lia. } { intros a x Hi ?. apply lookup_lt_Some in Hi. lia. }
  rewrite (step_try _ _ _ _ Ef).
  (* to the child [j] *)
  assert (Hlayer : forall s1 j, kept s s1 -> at_node s1 fs (Node p kids keys) -> eState (st_cur s1) = CURSOR_VALID -> curIntKey (st_cur s1) = true -> atLast (st_cur s1) = false ->
    (j <= length keys)%nat -> (forall a x, keys !! a = Some x -> (a < j)%nat /\ x < k \/ (j <= a)%nat /\ k <= x) ->
    exists res s', (chldPg ← try (if decide (nCell P <= Z.of_nat j) then right_child P else child_at P (Z.of_nat j)); _ ← change (set_ix (u16 (Z.of_nat j)));
      rc ← moveToChild chldPg; if decide (rc <> SQLITE_OK) then _ ← change clear_size; mret (rc, 0) else moveto_loop fuel k biasRight) s1 = Some ((SQLITE_OK, res), s') /\ kept s s' /\ seek_result k res s').
  { intros s1 j K1 A1 V1 I1 L1 Hj Hsep. set (s2 := set_cur (set_ix (u16 (Z.of_nat j)) (st_cur s1)) s1). assert (K2 : walk s1 s2) by (by apply walk_cur).
    assert (A2 : at_node s2 fs (Node p kids keys)) by (by apply at_node_cur). pose proof (wk_world _ _ _ _ _ K2 (kp_world _ _ _ _ _ K1 W)) as W2.
    assert (X2 : c_ix (st_cur s2) = Z.of_nat j) by (cbn; apply u16_small; lia).
    destruct (lookup_lt_is_Some_2 kids j) as [v Hv]; [lia|]. pose proof (list_elem_of_lookup_2 _ _ _ Hv) as Hin.
    destruct (child_page bt np D Hlim Hnp T h' p kids keys P j v N HP Hv (no_kids _ _ _ _ _ _ _ N v Hin)) as [_ Hch].
    assert (Hch2 : (if decide (nCell P <= Z.of_nat j) then right_child P else child_at P (Z.of_nat j)) = Some (root v)) by (destruct (decide (nCell P <= Z.of_nat j)), (decide (j < length keys)%nat); (lia || done)).
    rewrite (step_try _ _ _ _ Hch2), step_change. fold s2.
    destruct (down bt np D Hlim Hnp T s2 fs (Node p kids keys) j v h' W2 A2 V1 I1 Hv X2 (no_kids _ _ _ _ _ _ _ N v Hin) (no_filled _ _ _ _ _ _ _ N v Hin) ltac:(lia)) as (s3 & E3 & K3 & A3 & X3 & Q3).
    rewrite (step_act _ _ _ _ _ E3), rc_ok. destruct (sides h' p kids keys j k fs N Hj Hsep Hb Ha) as [Sb Sa]. pose proof (wk_fixed _ _ _ _ _ K3) as F4.
    destruct (IH h' s3 ((Node p kids keys, j) :: fs) v) as (res & s4 & E4 & K4 & R4); try done; [lia|by apply (no_kids _ _ _ _ _ _ _ N)|cbn [length]; lia|by apply (wk_world _ _ _ _ _ K3)|by rewrite (wk_state _ _ _ _ _ K3)|cbn in F4; congruence|by apply (no_filled _ _ _ _ _ _ _ N)|by rewrite (wk_last _ _ _ _ _ K3)|].
    exists res, s4. split; [done|]. split; [|done]. transitivity s1; [done|]. transitivity s2; [by apply walk_kept|]. transitivity s3; [by apply walk_kept|done]. }
  destruct f as [|idx x|idx lwr c]; cbn [search_result] in Hfr; [done| |].
  - destruct Hfr as (-> & i & -> & Hi). pose proof (lookup_lt_Some _ _ _ Hi). rewrite step_change. apply Hlayer; try done; [by apply kept_cur|by apply at_node_cur|lia|].
    intros a y Hy. destruct (decide (a < i)%nat) as [Hlt|Hge]; [left; split; [done|]; by apply (Hinc a i)|right; split; [lia|]].
    destruct (decide (a = i)) as [->|Hne]; [simplify_eq; lia|]. pose proof (Hinc i a k y ltac:(lia) Hi Hy). lia.
  - destruct Hfr as (i & j & -> & -> & Hi & Hj & Hsep & _). apply Hlayer; try done. intros a y Hy. destruct (Hsep a y Hy) as [?|[? ?]]; [by left|right; split; [done|lia]].
Qed.

(** ** From the root, and the short cuts *)

Definition seek_ends (k res : Z) (s' : State) : Prop := flat T = [] /\ res = -1 /\ at_nothing s' \/ seek_result k res s'.

Lemma moveto_search_spec s k biasRight : on_table s -> exists res s', moveto_search k biasRight s = Some ((SQLITE_OK, res), s') /\ kept s s' /\ seek_ends k res s'.
Proof using All.
  intros H. unfold moveto_search. destruct (moveToRoot_spec bt np D Hlim Hnp T hT HT Hheight Hroot s H) as (rc & s1 & E1 & K1 & Hr). rewrite (step_act _ _ _ _ _ E1).
  destruct Hr as [(HE & -> & HN)|(-> & fs & u & [A V I X Q L F [B1 B2]])].
  - rewrite decide_True by done. exists (-1), s1. split; [done|]. split; [done|]. by left.
  - rewrite decide_False by done. rewrite rc_ok. rewrite step_assert by done. pose proof (ot_world _ _ _ _ _ H) as W. pose proof (kp_world _ _ _ _ _ K1 W) as W1.
    destruct (focus_ok _ _ _ _ _ _ (an_focus _ _ _ _ A) hT HT) as (h' & Hh & Hd & _).
    destruct (moveto_loop_spec k biasRight BTCURSOR_MAX_DEPTH h' s1 fs u) as (res & s2 & E2 & K2 & R2); try done.
    { unfold BTCURSOR_MAX_DEPTH. lia. } { lia. } { intros x Hx. rewrite B1 in Hx. by apply elem_of_nil in Hx. } { intros x Hx. rewrite B2 in Hx. by apply elem_of_nil in Hx. }
    exists res, s2. split; [done|]. split; [by transitivity s1|]. by right.
Qed.

Definition landed (k res : Z) (s' : State) : Prop :=
  flat T = [] /\ res = -1 /\ at_nothing s' \/ exists l r l', on_row s' l r l' /\ sought k res l r l' /\ true_claim s' r.

Lemma seek_landed k res s' : seek_ends k res s' -> landed k res s'.
Proof using Type. intros [H|(l & r & l' & H1 & H2 & H3 & _)]; [by left|right; eauto 10]. Qed.

(** The short cuts that leave the cursor where it is, by the rowid it remembers. *)
Definition stays_put (k res : Z) (s s' : State) : Prop := s' = s /\ eState (st_cur s) = CURSOR_VALID /\ validNKey (st_cur s) = true /\
  (res = 0 /\ info_nKey (st_cur s) = k \/ res = -1 /\ info_nKey (st_cur s) < k /\ atLast (st_cur s) = true).

Lemma TableMoveto_spec next s k biasRight : on_table s ->
  (eState (st_cur s) = CURSOR_VALID -> next = sqlite3BtreeNext /\ exists l r l', on_row s l r l') ->
  exists res s', TableMoveto next k biasRight s = Some ((SQLITE_OK, res), s') /\ kept s s' /\ (stays_put k res s s' \/ landed k res s').
Proof using All.
  intros H HR. pose proof (ot_world _ _ _ _ _ H) as W. unfold TableMoveto.
  assert (Hs : forall s1, kept s s1 -> on_table s1 -> exists res s', moveto_search k biasRight s1 = Some ((SQLITE_OK, res), s') /\ kept s s' /\ (stays_put k res s s' \/ landed k res s')).
  { intros s1 K1 H1. destruct (moveto_search_spec s1 k biasRight H1) as (res & s' & E & K & R). exists res, s'. split; [done|]. split; [by transitivity s1|]. right. by apply seek_landed. }
  rewrite step_assert.
  2: { split; [apply (ot_key _ _ _ _ _ H)|]. intros HV. destruct (HR HV) as (_ & l & r & l' & fs & p & rows & i & _ & _ & _ & _ & HI & _). done. }
  rewrite step_look. case_decide as Hv; [|by apply Hs]. destruct Hv as [HV Hv]. destruct (HR HV) as (-> & l & r & l' & R).
  case_decide as Hk; [exists 0, s; split; [done|]; split; [done|]; left; split_and!; try done; by left|].
  case_decide as Hl; [exists (-1), s; split; [done|]; split; [done|]; left; split_and!; try done; right; tauto|].
  case_decide as Hn; [|by apply Hs]. destruct (next_row bt np D Hlim Hnp T hT HT Hheight Hroot 0 s l r l' W R) as (rc & s1 & E1 & K1 & N1 & V1).
  rewrite (step_act _ _ s rc s1) by exact E1. pose proof (kp_world _ _ _ _ _ K1 W) as W1. destruct l' as [|r1 l1]; destruct N1 as [-> N1].
  - rewrite decide_False by done. rewrite decide_False by (intros Hx; by apply Hx). apply Hs; [done|]. by apply (on_table_nothing bt np D T s s1).
  - rewrite decide_True by done. destruct (getCellInfo_spec bt np D Hlim Hnp T hT HT Hheight Hroot s1 _ r1 l1 W1 N1) as (s2 & E2 & K2 & R2 & Hk2 & _).
    rewrite (step_act _ _ _ _ _ E2), step_look, Hk2. assert (K02 : kept s s2) by (by transitivity s1). case_decide as Hr.
    + exists 0, s2. split; [done|]. split; [done|]. right. right. exists (l ++ [r]), r1, l1. split; [done|]. split; [by left|]. by intros _.
    + apply Hs; [done|]. by apply (on_table_row bt np D T s s2 (l ++ [r]) r1 l1).
Qed.

(** ** Saved positions *)

(** The position is saved: the key, and the side of it for [skipNext]. *)
Definition saved (k sg : Z) (s : State) : Prop := eState (st_cur s) = CURSOR_REQUIRESEEK /\ pPage (st_cur s) = None /\ c_nKey (st_cur s) = k /\ skipNext (st_cur s) = sg.

(** A cursor that is on a row, but skips the next step to one side. *)
Definition skips (sg : Z) (s : State) (l : list table_row) (r : table_row) (l' : list table_row) : Prop :=
  eState (st_cur s) = (if decide (sg = 0) then CURSOR_VALID else CURSOR_SKIPNEXT) /\ (sg <> 0 -> skipNext (st_cur s) = sg) /\
  on_row (set_cur (set_eState CURSOR_VALID (st_cur s)) s) l r l' /\ atLast (st_cur s) = false /\ (validNKey (st_cur s) = true -> info_nKey (st_cur s) = r.1) /\ unread (st_cur s).

(** What a routine keeps that may set [skipNext]. *)
Record stays (s s' : State) : Prop := {
  ss_world : world_ok s -> world_ok s';
  ss_fixed : (pKeyInfo (st_cur s'), pgnoRoot (st_cur s'), pinned (st_cur s')) = (pKeyInfo (st_cur s), pgnoRoot (st_cur s), pinned (st_cur s))
}.

#[export] Instance stays_refl : Reflexive stays.
Proof using Type. by intros s. Qed.

#[export] Instance stays_trans : Transitive stays.
Proof using Type. intros s1 s2 s3 [A1 A2] [B1 B2]. split; [tauto|congruence]. Qed.

Lemma kept_stays s s' : kept s s' -> stays s s'.
Proof using Type. by intros [? ? ?]. Qed.

Lemma stays_cur s c : let o := st_cur s in (pKeyInfo c, pgnoRoot c, pinned c) = (pKeyInfo o, pgnoRoot o, pinned o) -> stays s (set_cur c s).
Proof using Type. intros o H. split; [by intros [? ? ? ? ?]|done]. Qed.

(** The cursor on a row, with other fields changed. *)
Lemma on_row_fields s l r l' c : let o := st_cur s in on_row s l r l' -> pPage c = pPage o -> apPage c = apPage o -> c_ix c = c_ix o -> eState c = CURSOR_VALID ->
  curIntKey c = curIntKey o -> atLast c = atLast o -> c_info c = c_info o -> info_nKey c = info_nKey o -> validOvfl c = validOvfl o -> c_aOverflow c = c_aOverflow o ->
  on_row (set_cur c s) l r l'.
Proof using Type.
  intros o (fs & p & rows & i & A & Hi & Hx & HV & HI & -> & -> & HL & (P & ls & info & aPay & ps & HK)) E1 E2 E3 E4 E5 E6 E7 E8 E9 E10. subst o.
  exists fs, p, rows, i. cbn [set_cur st_cur]. rewrite E3, E4, E5, E6. split_and!; try done; [by apply at_node_cur|]. exists P, ls, info, aPay, ps. by rewrite E7, E8, E9, E10.
Qed.

(** [restoreCursorPosition]: back to the row, or to a neighbour of its place. *)
Definition restored (k sg : Z) (s' : State) : Prop := flat T = [] /\ at_nothing s' \/
  exists l r l' sg', skips sg' s' l r l' /\ (r.1 = k /\ sg' = sg \/ sg' = -1 /\ r.1 < k /\ (forall x, x ∈ l' -> k < x.1) \/ sg' = 1 /\ k < r.1 /\ (forall x, x ∈ l -> x.1 < k)) /\
    (r.1 <> k -> validNKey (st_cur s') = false).

Lemma restore_spec next s k sg : on_table s -> saved k sg s -> exists s', restoreCursorPosition next s = Some (SQLITE_OK, s') /\ stays s s' /\ restored k sg s'.
Proof using All.
  intros H (HE & Hp & Hk & Hsg). unfold restoreCursorPosition. rewrite step_look. rewrite decide_True by (by left). unfold btreeRestoreCursorPosition. rewrite step_assert by (by left).
  rewrite step_look. rewrite decide_False by (by rewrite HE). rewrite step_change, Hk. set (s0 := set_cur _ s). assert (K0 : kept s s0) by (by apply kept_cur). pose proof H as [W O1 O2 O3 O4 O5].
  assert (H0 : on_table s0) by (split; try done; [by apply (kp_world _ _ _ _ _ K0)|by left]).
  assert (TableMoveto next k false s0 = moveto_search k false s0) as Etm by (unfold TableMoveto; rewrite step_assert by done; rewrite step_look; by rewrite decide_False by (intros [Hx _]; discriminate Hx)).
  destruct (moveto_search_spec s0 k false H0) as (res & s1 & E1 & K1 & R1). rewrite <- Etm in E1. rewrite (step_act _ _ _ _ _ E1).
  rewrite decide_True by done. set (c2 := if decide (skipNext (if decide (res <> 0) then set_skipNext res (st_cur s1) else st_cur s1) <> 0 /\ eState (if decide (res <> 0) then set_skipNext res (st_cur s1) else st_cur s1) = CURSOR_VALID) then
    set_eState CURSOR_SKIPNEXT (if decide (res <> 0) then set_skipNext res (st_cur s1) else st_cur s1) else (if decide (res <> 0) then set_skipNext res (st_cur s1) else st_cur s1)).
  exists (set_cur c2 s1). split; [reflexivity|]. pose proof (kp_skip _ _ _ _ _ K1) as Hsk. change (skipNext (st_cur s0)) with (skipNext (st_cur s)) in Hsk. rewrite Hsg in Hsk.
  split; [transitivity s0; [by apply kept_stays|]; transitivity s1; [by apply kept_stays|]; apply stays_cur; unfold c2; by repeat case_decide|].
  destruct R1 as [(HT0 & -> & [HN1 HN2])|(l & r & l' & R & Hs & HC & HQ & HU & HL)].
  - left. split; [done|]. assert (E2 : c2 = set_skipNext (-1) (st_cur s1)) by (unfold c2; rewrite (decide_True (P := -1 <> 0)) by lia; rewrite decide_False by (intros [_ Hx]; cbn in Hx; congruence); done).
    rewrite E2. split; [done|]. destruct HN2 as [HN2|[HN2 (fs & u & A)]]; [by left|right]. split; [done|]. exists fs, u. by apply at_node_cur.
  - right. pose proof R as (_ & _ & _ & _ & _ & _ & _ & HV & _). exists l, r, l', (if decide (res <> 0) then res else sg). destruct (decide (res <> 0)) as [Hr|Hr].
    + assert (Hr0 : res <> 0) by done. assert (E2 : c2 = set_eState CURSOR_SKIPNEXT (set_skipNext res (st_cur s1))) by (unfold c2; by rewrite decide_True by (split; [done|exact HV])). rewrite E2. split.
      * split; [by rewrite decide_False by done|]. split; [done|]. split; [by apply (on_row_fields s1 l r l')|]. split; [done|]. split; [exact HC|exact HU].
      * split; [|intros _; by apply HQ]. right. destruct Hs as [[? _]|[?|?]]; [done|by left|by right].
    + assert (res = 0) as Hr0 by (destruct (decide (res = 0)); [done|tauto]). assert (Hrk : r.1 = k) by (destruct Hs as [[_ ?]|[[? _]|[? _]]]; [done|lia|lia]).
      assert (E2 : c2 = if decide (sg = 0) then st_cur s1 else set_eState CURSOR_SKIPNEXT (st_cur s1)).
      { unfold c2. rewrite Hsk, HV. destruct (decide (sg = 0)); [by rewrite decide_False by tauto|by rewrite decide_True]. }
      rewrite E2. split; [|split; [by left|done]]. unfold skips. destruct (decide (sg = 0)); (split; [done|]; split; [done|]; split; [by apply (on_row_fields s1 l r l')|]; split; [done|]; split; [exact HC|exact HU]).
Qed.

End Seek.
