(* ===== verification/SqlCursorPos.v ===== *)
(** * Positions of cursors

    What a cursor on a table is, for its user: a place in the list of the rows by their rowids.  [goes] says how
    each operation moves it; the rest of the file shows that the operations of [SqlCursor] do. *)

From stdpp Require Import sorting.
From S2P Require Import Prelude Bits SqlBytes SqlCell SqlCellProps SqlPage SqlPageProps SqlFreelist SqlFreelistOk SqlCursor SqlCursorTree SqlCursorMove.
From S2P Require Import SqlCursorRow SqlCursorRead SqlCursorSeek.

(** ** Rows by their rowids *)

Definition above (k : Z) (rows : list table_row) : option table_row := head (filter (fun r => k < r.1) rows).
Definition from (k : Z) (rows : list table_row) : option table_row := head (filter (fun r => k <= r.1) rows).
Definition below (k : Z) (rows : list table_row) : option table_row := last (filter (fun r => r.1 < k) rows).
Definition upto (k : Z) (rows : list table_row) : option table_row := last (filter (fun r => r.1 <= k) rows).
Definition row_at (k : Z) (rows : list table_row) : option table_row := head (filter (fun r => r.1 = k) rows).

Lemma filter_right (P : table_row -> Prop) `{forall r, Decision (P r)} a b : (forall x, x ∈ a -> ~ P x) -> (forall x, x ∈ b -> P x) -> filter P (a ++ b) = b.
Proof.
  intros Ha Hb. rewrite filter_app. replace (filter P a) with (@nil table_row).
  - cbn. induction b as [|x b IH]; [done|]. rewrite filter_cons_True by (apply Hb; by left). by rewrite IH by (intros; apply Hb; by right).
  - symmetry. induction a as [|x a IH]; [done|]. rewrite filter_cons_False by (apply Ha; by left). apply IH. intros; apply Ha. by right.
Qed.

Lemma filter_left (P : table_row -> Prop) `{forall r, Decision (P r)} a b : (forall x, x ∈ a -> P x) -> (forall x, x ∈ b -> ~ P x) -> filter P (a ++ b) = a.
Proof.
  intros Ha Hb. rewrite filter_app. replace (filter P b) with (@nil table_row).
  - rewrite app_nil_r. induction a as [|x a IH]; [done|]. rewrite filter_cons_True by (apply Ha; by left). by rewrite IH by (intros; apply Ha; by right).
  - symmetry. clear Ha a. induction b as [|x b IH]; [done|]. rewrite filter_cons_False by (apply Hb; by left). apply IH. intros; apply Hb. by right.
Qed.

Section Cut.
Context (k : Z) (a b : list table_row).

(** Nothing is at the key: the rows below it, and the rows above. *)
Lemma cut_between : (forall x, x ∈ a -> x.1 < k) -> (forall x, x ∈ b -> k < x.1) ->
  above k (a ++ b) = head b /\ from k (a ++ b) = head b /\ below k (a ++ b) = last a /\ upto k (a ++ b) = last a /\ row_at k (a ++ b) = None.
Proof.
  intros Ha Hb. unfold above, from, below, upto, row_at. split_and!.
  - rewrite filter_right; [done|intros x Hx; apply Ha in Hx; lia|done].
  - rewrite filter_right; [done|intros x Hx; apply Ha in Hx; lia|intros x Hx; apply Hb in Hx; lia].
  - rewrite filter_left; [done|done|intros x Hx; apply Hb in Hx; lia].
  - rewrite filter_left; [done|intros x Hx; apply Ha in Hx; lia|intros x Hx; apply Hb in Hx; lia].
  - enough (filter (fun r : table_row => r.1 = k) (a ++ b) = []) as -> by done.
    rewrite <- (app_nil_r (a ++ b)). apply filter_right; [|by intros x ?%elem_of_nil]. intros x [Hx|Hx]%elem_of_app; [apply Ha in Hx|apply Hb in Hx]; lia.
Qed.

(** A row is at the key. *)
Lemma cut_at r : r.1 = k -> (forall x, x ∈ a -> x.1 < k) -> (forall x, x ∈ b -> k < x.1) ->
  above k (a ++ r :: b) = head b /\ from k (a ++ r :: b) = Some r /\ below k (a ++ r :: b) = last a /\ upto k (a ++ r :: b) = Some r /\ row_at k (a ++ r :: b) = Some r.
Proof.
  intros Hr Ha Hb. assert (Hr1 : forall x, x ∈ r :: b -> k <= x.1) by (intros x [->|Hx]%elem_of_cons; [lia|apply Hb in Hx; lia]).
  assert (Hr2 : forall x, x ∈ a ++ [r] -> x.1 <= k) by (intros x [Hx| ->%list_elem_of_singleton]%elem_of_app; [apply Ha in Hx; lia|lia]).
  assert (E : a ++ r :: b = (a ++ [r]) ++ b) by (by rewrite <- app_assoc).
  unfold above, from, below, upto, row_at. split_and!.
  - rewrite E, filter_right; [done|intros x Hx; apply Hr2 in Hx; lia|done].
  - rewrite filter_right; [done|intros x Hx; apply Ha in Hx; lia|done].
  - rewrite filter_left; [done|done|intros x Hx; apply Hr1 in Hx; lia].
  - rewrite E, filter_left; [by rewrite last_snoc|done|intros x Hx; apply Hb in Hx; lia].
  - rewrite filter_app, filter_cons_True by done. replace (filter (fun x : table_row => x.1 = k) a) with (@nil table_row); [done|].
    symmetry. rewrite <- (app_nil_r a). apply filter_right; [intros x Hx; apply Ha in Hx; lia|by intros x ?%elem_of_nil].
Qed.
End Cut.

(** ** Positions *)

(** On the row [k]; or next to [k] or on it, until it moves: [sg] is the side, the next row after it is not below [k] when it is positive,
    the previous one is not above [k] when it is negative.  On a row, it may remember another rowid, [old]. *)
Inductive position := Nowhere | At (k : Z) (old : option Z) | Near (k sg : Z).

Definition next_of (rows : list table_row) (p : position) : option table_row :=
  match p with Nowhere => None | At k _ => above k rows | Near k sg => if decide (0 < sg) then from k rows else above k rows end.
Definition previous_of (rows : list table_row) (p : position) : option table_row :=
  match p with Nowhere => None | At k _ => below k rows | Near k sg => if decide (sg < 0) then upto k rows else below k rows end.

(** The rowid that a step away leaves behind. *)
Definition left_behind (p : position) : option Z := match p with Near k _ => Some k | _ => None end.

Definition place (o : option table_row) (old : option Z) : position := match o with None => Nowhere | Some r => At r.1 old end.

(** What a search for [k] answers, and the row it ends on: which neighbour it is depends on the pages. *)
Definition finds (rows : list table_row) (k res : Z) (o : option table_row) : Prop :=
  match row_at k rows with
  | Some r => res = 0 /\ o = Some r
  | None => res = -1 /\ o = below k rows /\ (o = None -> rows = []) \/ res = 1 /\ o = above k rows /\ o <> None
  end.

(** ** Operations *)

Inductive op :=
  | First | Last | Next | Previous | Moveto (k : Z) (biasRight : bool)
  | IntegerKey | PayloadSize | Payload (offset amt : Z)
  | SavePosition | RestorePosition | Clear.

(** The code, a number and bytes. *)
Abbreviation answer := (Z * Z * bytes)%type.

Definition perform (o : op) : act answer :=
  match o with
  | First => '(rc, res) ← sqlite3BtreeFirst; mret (rc, res, [])
  | Last => '(rc, res) ← sqlite3BtreeLast; mret (rc, res, [])
  | Next => rc ← sqlite3BtreeNext; mret (rc, 0, [])
  | Previous => rc ← sqlite3BtreePrevious; mret (rc, 0, [])
  | Moveto k biasRight => '(rc, res) ← sqlite3BtreeTableMoveto k biasRight; mret (rc, res, [])
  | IntegerKey => k ← sqlite3BtreeIntegerKey; mret (SQLITE_OK, k, [])
  | PayloadSize => n ← sqlite3BtreePayloadSize; mret (SQLITE_OK, n, [])
  | Payload offset amt => '(rc, bs) ← sqlite3BtreePayload offset amt; mret (rc, 0, bs)
  | SavePosition => rc ← save_on_list; mret (rc, 0, [])
  | RestorePosition => '(rc, moved) ← sqlite3BtreeCursorRestore; mret (rc, moved, [])
  | Clear => _ ← sqlite3BtreeClearCursor; mret (SQLITE_OK, 0, [])
  end.

(** What the callers must see to: a row is read only on a row, within its bytes, and restored only elsewhere. *)
Definition allowed (rows : list table_row) (p : position) (o : op) : Prop :=
  match o, p with
  | (IntegerKey | PayloadSize), At _ _ => True
  | (IntegerKey | PayloadSize), _ => False
  | Payload offset amt, At k _ => 0 <= offset /\ 0 <= amt /\ match row_at k rows with Some r => offset + amt <= len r.2 | None => False end
  | Payload _ _, _ => False
  | RestorePosition, At _ _ => False
  | _, _ => True
  end.

(** A search for another rowid than that of the row the cursor is on, which it remembers from before its last step: the flag [BTCF_ValidNKey]
    is still set for it.  What it answers is not the answer of a search. *)
Definition stale_search (p : position) (o : op) : Prop :=
  match o, p with Moveto k _, At k0 (Some k1) => k = k1 /\ k <> k0 | _, _ => False end.

(** From [p], the operation answers [a] and ends at [p']. *)
Definition goes (rows : list table_row) (p : position) (o : op) (a : answer) (p' : position) : Prop :=
  match o with
  | First => a = (SQLITE_OK, if decide (rows = []) then 1 else 0, []) /\ p' = place (head rows) None
  | Last => a = (SQLITE_OK, if decide (rows = []) then 1 else 0, []) /\ p' = place (last rows) None
  | Next => a = (if decide (next_of rows p = None) then SQLITE_DONE else SQLITE_OK, 0, []) /\ p' = place (next_of rows p) (left_behind p)
  | Previous => a = (if decide (previous_of rows p = None) then SQLITE_DONE else SQLITE_OK, 0, []) /\ p' = place (previous_of rows p) (left_behind p)
  | Moveto k _ => exists res r, finds rows k res r /\ a = (SQLITE_OK, res, []) /\ p' = place r None
  | IntegerKey => exists k old, p = At k old /\ a = (SQLITE_OK, k, []) /\ p' = At k None
  | PayloadSize => exists k old r, p = At k old /\ row_at k rows = Some r /\ a = (SQLITE_OK, len r.2, []) /\ p' = At k None
  | Payload offset amt => exists k old r, p = At k old /\ row_at k rows = Some r /\ a = (SQLITE_OK, 0, sub r.2 offset amt) /\ p' = At k None
  | SavePosition => a = (SQLITE_OK, 0, []) /\ p' = match p with At k _ => Near k 0 | _ => p end
  | RestorePosition =>
      match p with
      | Nowhere => a = (SQLITE_OK, 1, []) /\ p' = Nowhere
      | At _ _ => False
      | Near k sg => exists res o, finds rows k res o /\ let sg' := if decide (res <> 0) then res else sg in
          match o with
          | None => a = (SQLITE_OK, 1, []) /\ p' = Nowhere
          | Some r => if decide (sg' = 0) then a = (SQLITE_OK, 0, []) /\ p' = At r.1 None else a = (SQLITE_OK, 1, []) /\ p' = Near r.1 sg'
          end
      end
  | Clear => a = (SQLITE_OK, 0, []) /\ p' = Nowhere
  end.

(** The codes of the answers. *)
Lemma goes_code rows p o rc n bs p' : goes rows p o (rc, n, bs) p' -> rc = SQLITE_OK \/ rc = SQLITE_DONE /\ (o = Next \/ o = Previous) /\ p' = Nowhere.
Proof.
  destruct o as [| | | |k b| | |offset amt| | |]; cbn [goes]; intros H.
  - left. by destruct H as [[= -> _ _] _].
  - left. by destruct H as [[= -> _ _] _].
  - destruct H as [[= -> _ _] ->]. case_decide as E; [right|by left]. rewrite E. auto.
  - destruct H as [[= -> _ _] ->]. case_decide as E; [right|by left]. rewrite E. auto.
  - left. by destruct H as (res & r & _ & [= -> _ _] & _).
  - left. by destruct H as (k & old & _ & [= -> _ _] & _).
  - left. by destruct H as (k & old & r & _ & _ & [= -> _ _] & _).
  - left. by destruct H as (k & old & r & _ & _ & [= -> _ _] & _).
  - left. by destruct H as [[= -> _ _] _].
  - left. destruct p as [|k old|k sg]; [by destruct H as [[= -> _ _] _]|done|]. destruct H as (res & [r|] & _ & H); [|by destruct H as [[= -> _ _] _]].
    case_decide; by destruct H as [[= -> _ _] _].
  - left. by destruct H as [[= -> _ _] _].
Qed.
