(* ===== verification/SqlCursorStep.v ===== *)
(** * The operations of cursors, on positions

    A cursor of [SqlCursor] stands for a position of [SqlCursorPos], and every operation takes it to one that the position
    allows. *)

From stdpp Require Import sorting.
From S2P Require Import Prelude Bits SqlBytes SqlCell SqlCellProps SqlPage SqlPageProps SqlFreelist SqlFreelistOk SqlCursor SqlCursorTree SqlCursorMove.
From S2P Require Import SqlCursorRow SqlCursorRead SqlCursorSeek SqlCursorPos.

Section Step.
Context (bt : BtShared) (np : Z) (D : Z -> bytes).
Hypothesis Hlim : limits_ok bt.
Hypothesis Hnp : np < 4294967296.
Context (T : tree) (hT : nat).
Hypothesis HT : tree_ok bt np D hT T.
Hypothesis Hheight : (hT <= 19)%nat.
Hypothesis Hroot : match T with Leaf _ _ => True | Node p _ keys => keys = [] -> p = 1 end.
Hypothesis Hord : ordered (flat T).

#[local] Abbreviation world_ok := (world_ok bt np D).
#[local] Abbreviation kept := (kept bt np D).
#[local] Abbreviation stays := (stays bt np D).
#[local] Abbreviation on_row := (on_row bt np D T).
#[local] Abbreviation at_node := (at_node T).
#[local] Abbreviation at_nothing := (at_nothing T).
#[local] Abbreviation on_table := (on_table bt np D T).
#[local] Abbreviation skips := (skips bt np D T).
#[local] Abbreviation restored := (restored bt np D T).

(** The cursor is on the row [k]; the rowid it remembers is [k], or [old] when it does not know that the row is the last. *)
Definition at_row (s : State) (k : Z) (old : option Z) : Prop := exists l r l', on_row s l r l' /\ r.1 = k /\
  (validNKey (st_cur s) = true -> info_nKey (st_cur s) = k \/ old = Some (info_nKey (st_cur s)) /\ atLast (st_cur s) = false).

Definition stands (s : State) (p : position) : Prop := on_table s /\
  match p with
  | Nowhere => at_nothing s
  | At k old => at_row s k old
  | Near k sg => saved k sg s \/ sg <> 0 /\ exists l r l', skips sg s l r l' /\ r.1 = k
  end.

(** ** Staying on the table *)

Lemma on_table_at s s' k old : on_table s -> stays s s' -> at_row s' k old -> on_table s'.
Proof using Type.
  intros [O1 O2 O3 O4 O5 O6] [K1 K2] (l & r & l' & (fs & p & rows & i & A & _ & _ & HV & HI & _) & _). injection K2 as K21 K22 K23.
  split; [tauto|congruence|congruence|congruence|by rewrite HV|right]. rewrite HV. split; [done|]. split; [done|]. eauto.
Qed.

Lemma on_table_none s s' : on_table s -> stays s s' -> at_nothing s' -> on_table s'.
Proof using Type.
  intros [O1 O2 O3 O4 O5 O6] [K1 K2] [HV HN]. injection K2 as K21 K22 K23.
  split; [tauto|congruence|congruence|congruence|by rewrite HV|]. rewrite HV. destruct HN as [HN|[HN1 HN2]]; [by left|by right].
Qed.

Lemma on_table_skips s s' sg l r l' : on_table s -> stays s s' -> skips sg s' l r l' -> on_table s'.
Proof using Type.
  intros [O1 O2 O3 O4 O5 O6] [K1 K2] (HE & _ & (fs & p & rows & i & [A1 A2 A3 A4 A5] & _ & _ & _ & HI & _) & _). injection K2 as K21 K22 K23.
  assert (eState (st_cur s') <> CURSOR_FAULT /\ eState (st_cur s') <> CURSOR_REQUIRESEEK) as [HE1 HE2] by (rewrite HE; by case_decide).
  split; [tauto|congruence|congruence|congruence|done|right]. split; [done|]. split; [done|]. exists fs, (Leaf p rows). by split.
Qed.

Lemma stands_place s s' o old : on_table s -> stays s s' -> match o with None => at_nothing s' | Some r => at_row s' r.1 old end -> stands s' (place o old).
Proof using Type. intros O K H. destruct o as [r|]; (split; [|done]); [by apply (on_table_at s s' r.1 old)|by apply (on_table_none s)]. Qed.

Lemma true_row s l r l' : on_row s l r l' -> true_claim s r -> at_row s r.1 None.
Proof using Type. intros R C. exists l, r, l'. split; [done|]. split; [done|]. intros HV. left. by apply C. Qed.

(** The rows around a row. *)
Lemma row_sides s l r l' : on_row s l r l' -> flat T = l ++ r :: l' /\ (forall x, x ∈ l -> x.1 < r.1) /\ (forall x, x ∈ l' -> r.1 < x.1).
Proof using Hord.
  intros R. pose proof (on_row_flat _ _ _ _ _ _ _ _ R) as E. split; [done|]. rewrite E in Hord. apply ordered_app in Hord as (_ & H2 & H3).
  split; [intros x Hx; apply H3; [done|by left]|]. change (r :: l') with ([r] ++ l') in H2. apply ordered_app in H2 as (_ & _ & H4). intros x Hx. apply H4; [by left|done].
Qed.

Lemma row_lookup s l r l' : on_row s l r l' -> row_at r.1 (flat T) = Some r /\ above r.1 (flat T) = head l' /\ below r.1 (flat T) = last l /\
  from r.1 (flat T) = Some r /\ upto r.1 (flat T) = Some r.
Proof using Hord. intros R. destruct (row_sides _ _ _ _ R) as (-> & H1 & H2). destruct (cut_at r.1 l l' r eq_refl H1 H2) as (? & ? & ? & ? & ?). done. Qed.

(** The results of the moves on rows are those on positions. *)
Lemma next_result_place s s' l r l' rc old : on_row s l r l' -> next_result bt np D T l r l' rc s' ->
  (rc = SQLITE_OK -> validNKey (st_cur s') = true -> old = Some (info_nKey (st_cur s')) /\ atLast (st_cur s') = false) ->
  rc = (if decide (head l' = None) then SQLITE_DONE else SQLITE_OK) /\ match head l' with None => at_nothing s' | Some r => at_row s' r.1 old end.
Proof using Type.
  intros R H HC. destruct l' as [|r' l']; destruct H as [-> H]; [done|]. split; [done|]. cbn. exists (l ++ [r]), r', l'. split; [done|]. split; [done|].
  intros HV. right. by apply HC.
Qed.

Lemma previous_result_place s s' l r l' rc old : on_row s l r l' -> previous_result bt np D T l r l' rc s' ->
  (rc = SQLITE_OK -> validNKey (st_cur s') = true -> old = Some (info_nKey (st_cur s')) /\ atLast (st_cur s') = false) ->
  rc = (if decide (last l = None) then SQLITE_DONE else SQLITE_OK) /\ match last l with None => at_nothing s' | Some r => at_row s' r.1 old end.
Proof using Type.
  intros R [(-> & -> & H)|(m & r' & -> & -> & H)] HC; [done|]. rewrite last_snoc. split; [done|]. exists m, r', (r :: l'). split; [done|]. split; [done|].
  intros HV. right. by apply HC.
Qed.

(** ** One operation *)

Definition works_as (s : State) (o : op) (a : answer) (p' : position) : Prop := exists s', perform o s = Some (a, s') /\ stays s s' /\ stands s' p'.

Definition works (s : State) (p : position) (o : op) : Prop :=
  exists a s' p', perform o s = Some (a, s') /\ stays s s' /\ goes (flat T) p o a p' /\ stands s' p'.

(** A stale search answers that the row is found, and stays where it is. *)
Definition misled (s : State) (p : position) (o : op) : Prop := stale_search p o /\ works_as s o (SQLITE_OK, 0, []) p.

(** The end rows. *)
Lemma first_works s p : stands s p -> works s p First.
Proof using All.
  intros [O _]. destruct (sqlite3BtreeFirst_spec bt np D Hlim Hnp T hT HT Hheight Hroot s O) as (res & s' & E & K & H). pose proof (kept_stays _ _ _ _ _ K) as KS.
  exists (SQLITE_OK, res, []), s', (place (head (flat T)) None). unfold perform. rewrite (step_act _ _ _ _ _ E). split; [done|]. split; [done|]. unfold goes.
  destruct H as [(HE & -> & HN)|(-> & HV & r & l' & R)].
  - rewrite HE. split; [done|]. by apply (stands_place s s' None).
  - pose proof (on_row_flat _ _ _ _ _ _ _ _ R) as E2. rewrite E2. split; [done|]. apply (stands_place s s' (Some r)); [done|done|]. apply (true_row _ [] _ l'); [done|]. intros HV2. congruence.
Qed.

Lemma last_works s p : stands s p -> works s p Last.
Proof using All.
  intros [O HP]. destruct (sqlite3BtreeLast_spec bt np D Hlim Hnp T hT HT Hheight Hroot s O) as (res & s' & E & H).
  exists (SQLITE_OK, res, []), s', (place (last (flat T)) None). unfold perform. rewrite (step_act _ _ _ _ _ E). split; [done|].
  destruct H as [[K H]|(-> & -> & HV & HL)].
  - pose proof (kept_stays _ _ _ _ _ K) as KS. split; [done|]. unfold goes. destruct H as [(HE & -> & HN)|(-> & HV & r & l & R)].
    + rewrite HE. split; [done|]. by apply (stands_place s s' None).
    + pose proof (on_row_flat _ _ _ _ _ _ _ _ R) as E2. rewrite E2, last_snoc. split; [|apply (stands_place s s' (Some r)); [done|done|]; apply (true_row _ l _ []); [done|]; intros HV2; congruence].
      split; [|done]. rewrite decide_False; [done|by destruct l].
  - split; [done|]. destruct p as [|k old|k sg].
    + destruct HP as [HI _]. congruence.
    + destruct HP as (l & r & l' & R & Hk & HC). pose proof R as (fs & q & rows & i & _ & _ & _ & _ & _ & _ & _ & HL' & _).
      pose proof (on_row_flat _ _ _ _ _ _ _ _ R) as E2. rewrite (HL' HL) in E2, R. unfold goes. rewrite E2, last_snoc. split.
      * split; [|done]. rewrite decide_False; [done|by destruct l].
      * apply (stands_place s s (Some r)); [done|done|]. apply (true_row _ l _ []); [done|]. intros HV2. destruct (HC HV2) as [?|[_ ?]]; congruence.
    + destruct HP as [(HE & _)|(Hsg & l & r & l' & (HE & _) & _)]; [congruence|]. rewrite HE in HV. by case_decide.
Qed.

(** Reading the row. *)
Lemma reading_works {A} (m : act A) (x : A) (g : A -> answer) o s k old l r l' : on_table s -> on_row s l r l' -> r.1 = k ->
  (forall s, perform o s = (a ← m; mret (g a)) s) -> goes (flat T) (At k old) o (g x) (At k None) ->
  (exists s', m s = Some (x, s') /\ kept s s' /\ on_row s' l r l' /\ true_claim s' r) -> works s (At k old) o.
Proof using Type.
  intros O R Hk Hp Hg (s' & E & K & R' & C). exists (g x), s', (At k None). rewrite Hp, (step_act _ _ _ _ _ E). split; [done|]. split; [by apply kept_stays|].
  split; [done|]. rewrite <- Hk. apply (stands_place s s' (Some r)); [done|by apply kept_stays|]. by apply (true_row _ l _ l').
Qed.

Lemma key_works s p : stands s p -> allowed (flat T) p IntegerKey -> works s p IntegerKey.
Proof using All.
  destruct p as [|k old|k sg]; try done. intros [O (l & r & l' & R & Hk & _)] _. pose proof (ot_world _ _ _ _ _ O) as W.
  apply (reading_works sqlite3BtreeIntegerKey r.1 (fun k => (SQLITE_OK, k, [])) IntegerKey s k old l r l'); try done; [exists k, old; by rewrite Hk|].
  apply (integerKey_spec bt np D Hlim Hnp T hT HT Hheight Hroot s l r l' W R).
Qed.

Lemma size_works s p : stands s p -> allowed (flat T) p PayloadSize -> works s p PayloadSize.
Proof using All.
  destruct p as [|k old|k sg]; try done. intros [O (l & r & l' & R & Hk & _)] _. pose proof (ot_world _ _ _ _ _ O) as W.
  apply (reading_works sqlite3BtreePayloadSize (len r.2) (fun n => (SQLITE_OK, n, [])) PayloadSize s k old l r l'); try done.
  - exists k, old, r. rewrite <- Hk. by destruct (row_lookup _ _ _ _ R) as (-> & _).
  - apply (payloadSize_spec bt np D Hlim Hnp T hT HT Hheight Hroot s l r l' W R).
Qed.

Lemma payload_works s p offset amt : stands s p -> allowed (flat T) p (Payload offset amt) -> works s p (Payload offset amt).
Proof using All.
  destruct p as [|k old|k sg]; try done. intros [O (l & r & l' & R & Hk & _)] (H1 & H2 & H3). pose proof (ot_world _ _ _ _ _ O) as W.
  destruct (row_lookup _ _ _ _ R) as (EL & _). rewrite Hk in EL. rewrite EL in H3.
  apply (reading_works (sqlite3BtreePayload offset amt) (SQLITE_OK, sub r.2 offset amt) (fun x => (x.1, 0, x.2)) (Payload offset amt) s k old l r l'); try done.
  - intros s0. unfold perform, mbind, act_bind. destruct (sqlite3BtreePayload offset amt s0) as [[[rc bs] s1]|]; done.
  - by exists k, old, r.
  - by apply (payload_spec bt np D Hlim Hnp T hT HT Hheight Hroot s l r l').
Qed.

(** Searching. *)
Lemma sought_finds s k res l r l' : on_row s l r l' -> sought k res l r l' -> finds (flat T) k res (Some r).
Proof using All.
  intros R H. destruct (row_sides _ _ _ _ R) as (E & H1 & H2). unfold finds. destruct H as [[-> Hk]|[(-> & Hk & Hl)|(-> & Hk & Hl)]].
  - subst k. by destruct (row_lookup _ _ _ _ R) as (-> & _).
  - assert (Ha : forall x, x ∈ l ++ [r] -> x.1 < k) by (intros x [Hx| ->%list_elem_of_singleton]%elem_of_app; [apply H1 in Hx; lia|done]).
    destruct (cut_between k (l ++ [r]) l' Ha Hl) as (_ & _ & E1 & _ & E2). rewrite <- app_assoc in E1, E2. rewrite E. cbn [app] in E1, E2. rewrite E1, E2, last_snoc. by left.
  - assert (Hb : forall x, x ∈ r :: l' -> k < x.1) by (intros x [->|Hx]%elem_of_cons; [done|apply H2 in Hx; lia]).
    destruct (cut_between k l (r :: l') Hl Hb) as (E1 & _ & _ & _ & E2). rewrite E, E1, E2. by right.
Qed.

Lemma nothing_finds k : flat T = [] -> finds (flat T) k (-1) None.
Proof using Type. intros ->. by left. Qed.

Lemma moveto_works s p k biasRight : stands s p -> works s p (Moveto k biasRight) \/ misled s p (Moveto k biasRight).
Proof using All.
  intros [O HP]. assert (HR : eState (st_cur s) = CURSOR_VALID -> exists k0 old, p = At k0 old /\ at_row s k0 old).
  { intros HV. destruct p as [|k0 old|k0 sg]; [destruct HP; congruence|by exists k0, old|]. destruct HP as [(HE & _)|(Hsg & l & r & l' & (HE & _) & _)]; [congruence|].
    rewrite HE in HV. by case_decide. }
  destruct (TableMoveto_spec bt np D Hlim Hnp T hT HT Hheight Hroot Hord sqlite3BtreeNext s k biasRight O) as (res & s' & E & K & H).
  { intros HV. split; [done|]. destruct (HR HV) as (k0 & old & _ & l & r & l' & R & _). eauto. }
  pose proof (kept_stays _ _ _ _ _ K) as KS.
  assert (EP : perform (Moveto k biasRight) s = Some ((SQLITE_OK, res, []), s')) by (unfold perform, sqlite3BtreeTableMoveto; by rewrite (step_act _ _ _ _ _ E)).
  assert (HF : forall o, finds (flat T) k res o -> stands s' (place o None) -> works s p (Moveto k biasRight)).
  { intros o HF S'. exists (SQLITE_OK, res, []), s', (place o None). split; [done|]. split; [done|]. split; [by exists res, o|done]. }
  destruct H as [(-> & HV & HV2 & H)|[(HE & -> & HN)|(l & r & l' & R & HS & C)]].
  - destruct (HR HV) as (k0 & old & -> & HA). pose proof HA as (l & r & l' & R & Hk & HC). destruct (decide (info_nKey (st_cur s) = k0)) as [Hi|Hi].
    + left. apply (HF (Some r)).
      * apply (sought_finds s k res l r l' R). destruct H as [[-> ?]|(-> & ? & HL)]; [left; split; [done|congruence]|right; left].
        split; [done|]. split; [lia|]. pose proof R as (fs & q & rows & i & _ & _ & _ & _ & _ & _ & _ & HL' & _). rewrite (HL' HL). by intros x ?%elem_of_nil.
      * apply (stands_place s s (Some r)); [done|done|]. apply (true_row s l r l' R). intros _. congruence.
    + destruct (HC HV2) as [?|[Ho HL]]; [congruence|]. destruct H as [[-> H]|(-> & ? & HL2)]; [|congruence]. right.
      split; [rewrite Ho; cbn; split; congruence|]. exists s. split; [done|]. split; [done|]. by split.
  - left. apply (HF None); [by apply nothing_finds|]. by apply (stands_place s s' None None).
  - left. apply (HF (Some r)); [by apply (sought_finds s' k res l r l')|].
    apply (stands_place s s' (Some r)); [done|done|]. by apply (true_row s' l r l').
Qed.

(** ** Saving and restoring *)

Lemma key_saved s l r l' : world_ok s -> on_row s l r l' -> exists s', saveCursorKey s = Some (SQLITE_OK, s') /\ stays s s' /\
  c_nKey (st_cur s') = r.1 /\ skipNext (st_cur s') = skipNext (st_cur s).
Proof using All.
  intros W R. pose proof R as (fs & p & rows & i & _ & _ & _ & HV & HI & _). unfold saveCursorKey. rewrite step_assert by done.
  destruct (integerKey_spec bt np D Hlim Hnp T hT HT Hheight Hroot s l r l' W R) as (s1 & E1 & K1 & _). rewrite (step_act _ _ _ _ _ E1), step_change. set (s2 := set_cur _ s1).
  exists s2. split; [done|]. split; [transitivity s1; [by apply kept_stays|by apply stays_cur]|]. split; [done|]. apply (kp_skip _ _ _ _ _ K1).
Qed.

Lemma position_saved s l r l' : on_table s -> (eState (st_cur s) = CURSOR_VALID \/ eState (st_cur s) = CURSOR_SKIPNEXT) ->
  on_row (set_cur (set_eState CURSOR_VALID (st_cur s)) s) l r l' ->
  exists s', saveCursorPosition s = Some (SQLITE_OK, s') /\ stays s s' /\ saved r.1 (if decide (eState (st_cur s) = CURSOR_SKIPNEXT) then skipNext (st_cur s) else 0) s'.
Proof using All.
  intros O HE R. unfold saveCursorPosition. rewrite step_assert by done. rewrite step_look, (ot_pinned _ _ _ _ _ O), step_change.
  set (f := if decide (eState (st_cur s) = CURSOR_SKIPNEXT) then set_eState CURSOR_VALID else set_skipNext 0). set (s1 := set_cur (f (st_cur s)) s).
  assert (H1 : stays s s1 /\ on_row s1 l r l' /\ skipNext (st_cur s1) = (if decide (eState (st_cur s) = CURSOR_SKIPNEXT) then skipNext (st_cur s) else 0)).
  { subst s1 f. case_decide as HS; (split; [by apply stays_cur|]); (split; [|done]); [done|]. destruct HE as [HE|?]; [|done].
    by apply (on_row_fields bt np D T (set_cur (set_eState CURSOR_VALID (st_cur s)) s) l r l' (set_skipNext 0 (st_cur s))). }
  destruct H1 as (K1 & R1 & <-). destruct (key_saved s1 l r l' (ss_world _ _ _ _ _ K1 (ot_world _ _ _ _ _ O)) R1) as (s2 & E2 & K2 & N2 & S2).
  rewrite (step_act _ _ _ _ _ E2). exists (set_cur (set_flags false false false (set_eState CURSOR_REQUIRESEEK (set_place [] None (c_ix (st_cur s2)) (st_cur s2)))) s2).
  split; [reflexivity|]. split; [|split_and!; done]. transitivity s1; [done|]. transitivity s2; [done|]. by apply stays_cur.
Qed.

Lemma on_table_released s s' : on_table s -> stays s s' -> pPage (st_cur s') = None -> eState (st_cur s') <> CURSOR_FAULT -> on_table s'.
Proof using Type. intros [O1 O2 O3 O4 O5 O6] [K1 K2] HP HE. injection K2 as K21 K22 K23. split; [tauto|congruence|congruence|congruence|done|by left]. Qed.

Lemma on_list_saves s l r l' : on_table s -> (eState (st_cur s) = CURSOR_VALID \/ eState (st_cur s) = CURSOR_SKIPNEXT) ->
  on_row (set_cur (set_eState CURSOR_VALID (st_cur s)) s) l r l' ->
  works_as s SavePosition (SQLITE_OK, 0, []) (Near r.1 (if decide (eState (st_cur s) = CURSOR_SKIPNEXT) then skipNext (st_cur s) else 0)).
Proof using All.
  intros O HE R. destruct (position_saved s l r l' O HE R) as (s' & E & K & H). exists s'.
  assert (E2 : save_on_list s = Some (SQLITE_OK, s')) by (unfold save_on_list; by rewrite step_look, decide_True).
  unfold perform. rewrite (step_act _ _ _ _ _ E2). split; [done|]. split; [done|].
  pose proof H as (H1 & H2 & _). split; [|by left]. apply (on_table_released s s' O K H2). congruence.
Qed.

Lemma on_list_releases s : on_table s -> eState (st_cur s) <> CURSOR_VALID -> eState (st_cur s) <> CURSOR_SKIPNEXT -> let s' := set_cur (set_place [] None (c_ix (st_cur s)) (st_cur s)) s in
  perform SavePosition s = Some ((SQLITE_OK, 0, []), s') /\ stays s s' /\ on_table s'.
Proof using Type.
  intros O H1 H2 s'. assert (K : stays s s') by (by apply stays_cur).
  assert (E : save_on_list s = Some (SQLITE_OK, s')) by (unfold save_on_list; rewrite step_look; by rewrite decide_False by tauto).
  unfold perform. rewrite (step_act _ _ _ _ _ E). split; [done|]. split; [done|]. apply (on_table_released s s' O K); [done|apply (ot_fault _ _ _ _ _ O)].
Qed.

Lemma save_works s p : stands s p -> works s p SavePosition.
Proof using All.
  intros [O HP]. destruct p as [|k old|k sg].
  - destruct HP as [HE _]. destruct (on_list_releases s O) as (E & K & O'); [congruence|congruence|]. eexists _, _, Nowhere. split; [exact E|]. split; [done|]. split; [done|]. split; [done|]. split; [done|by left].
  - destruct HP as (l & r & l' & R & Hk & _). pose proof R as (fs & q & rows & i & _ & _ & _ & HV & _).
    destruct (on_list_saves s l r l' O) as (s' & E & K & H); [by left|by apply (on_row_fields bt np D T s l r l')|]. rewrite decide_False in H by congruence. rewrite Hk in H.
    by exists (SQLITE_OK, 0, []), s', (Near k 0).
  - destruct HP as [(HE & Hp & Hk & Hs)|(Hsg & l & r & l' & (HE & Hsk & R & _) & Hk)].
    + destruct (on_list_releases s O) as (E & K & O'); [congruence|congruence|]. eexists _, _, (Near k sg). split; [exact E|]. split; [done|]. split; [done|]. split; [done|]. by left.
    + rewrite decide_False in HE by done. destruct (on_list_saves s l r l' O) as (s' & E & K & H); [by right|done|]. rewrite decide_True, Hk, Hsk in H by done.
      by exists (SQLITE_OK, 0, []), s', (Near k sg).
Qed.

Lemma clear_works s p : stands s p -> works s p Clear.
Proof using Type.
  intros [O HP]. unfold works, perform, goes. eexists _, _, Nowhere. split; [reflexivity|]. set (s' := set_cur _ s). assert (K : stays s s') by (by apply stays_cur).
  split; [done|]. split; [done|]. assert (HN : at_nothing s').
  { split; [done|]. destruct (ot_place _ _ _ _ _ O) as [HN|(_ & HI & fs & u & A)]; [by left|right]. split; [done|]. exists fs, u. by apply at_node_cur. }
  split; [by apply (on_table_none s)|done].
Qed.

(** A restored cursor on the row it was saved on, or next to it: with what a search for the rowid answers. *)
Lemma restored_finds s k sg : restored k sg s -> exists res o, finds (flat T) k res o /\
  match o with
  | None => at_nothing s
  | Some r => exists l l', skips (if decide (res <> 0) then res else sg) s l r l' /\ (r.1 <> k -> validNKey (st_cur s) = false)
  end.
Proof using All.
  intros [[HE HN]|(l & r & l' & sg' & H & HS & HV)]; [exists (-1), None; split; [by apply nothing_finds|done]|]. pose proof H as (_ & _ & R & _).
  assert (exists res, sought k res l r l' /\ sg' = if decide (res <> 0) then res else sg) as (res & Hs & ->).
  { destruct HS as [[? ->]|[(-> & ? & ?)|(-> & ? & ?)]]; [exists 0|exists (-1)|exists 1]; (split; [|done]); [by left|right; by left|by right; right]. }
  exists res, (Some r). split; [by apply (sought_finds _ k res l r l' R)|]. by exists l, l'.
Qed.

Lemma same_cur s : set_cur (set_eState (eState (st_cur s)) (st_cur s)) s = s.
Proof using Type. by destruct s as [d m ck []]. Qed.

Lemma skips_zero s l r l' : skips 0 s l r l' -> eState (st_cur s) = CURSOR_VALID /\ on_row s l r l' /\ true_claim s r /\ unread (st_cur s) /\ atLast (st_cur s) = false.
Proof using Type. intros (HE & _ & R & HL & C & U). rewrite decide_True in HE by done. rewrite <- HE, same_cur in R. done. Qed.

Lemma restored_table s s' k sg : on_table s -> stays s s' -> restored k sg s' -> on_table s'.
Proof using Type. intros O K [[_ HN]|(l & r & l' & sg' & HS & _)]; [by apply (on_table_none s)|by apply (on_table_skips s s' sg' l r l')]. Qed.

Lemma restore_idle next s : eState (st_cur s) <> CURSOR_REQUIRESEEK /\ eState (st_cur s) <> CURSOR_FAULT -> restoreCursorPosition next s = Some (SQLITE_OK, s).
Proof using Type. intros H. unfold restoreCursorPosition. rewrite step_look. by rewrite decide_False by tauto. Qed.

Lemma settle next s k sg : stands s (Near k sg) -> exists s1, restoreCursorPosition next s = Some (SQLITE_OK, s1) /\ stays s s1 /\ restored k sg s1.
Proof using All.
  intros [O [H|(Hsg & l & r & l' & H & Hk)]]; [by apply (restore_spec bt np D Hlim Hnp T hT HT Hheight Hroot Hord)|]. exists s. pose proof H as (HE & _). rewrite decide_False in HE by done.
  split; [apply restore_idle; by rewrite HE|]. split; [done|]. right. exists l, r, l', sg. split; [done|]. split; [by left|]. intros Hx. by destruct Hx.
Qed.

Lemma restore_works s p : stands s p -> allowed (flat T) p RestorePosition -> works s p RestorePosition.
Proof using All.
  intros S HA. pose proof S as [O HP]. unfold works, perform. destruct p as [|k old|k sg]; [|done|].
  - destruct HP as [HE HN]. exists (SQLITE_OK, 1, []), s, Nowhere. split; [|done]. assert (E : restoreCursorPosition sqlite3BtreeNext s = Some (SQLITE_OK, s)) by (by rewrite restore_idle by (by rewrite HE)).
    assert (HE2 : eState (st_cur s) <> CURSOR_VALID) by congruence.
    enough (sqlite3BtreeCursorRestore s = Some ((SQLITE_OK, 1), s)) as HR by (by rewrite (step_act _ _ _ _ _ HR)).
    unfold sqlite3BtreeCursorRestore. rewrite step_assert by done. rewrite (step_act _ _ _ _ _ E), rc_ok, step_look. by rewrite decide_True.
  - assert (HV : eState (st_cur s) <> CURSOR_VALID) by (destruct HP as [(HE & _)|(Hsg & l & r & l' & (HE & _) & _)]; [congruence|rewrite HE; by rewrite decide_False]).
    unfold sqlite3BtreeCursorRestore. destruct (settle sqlite3BtreeNext s k sg S) as (s1 & E & K & H). destruct (restored_finds s1 k sg H) as (res & o & HF & HO).
    assert (HE : exists moved, (_ ← assert (fun c => eState c <> CURSOR_VALID); rc ← restoreCursorPosition sqlite3BtreeNext; if decide (rc <> SQLITE_OK) then mret (rc, 1) else c ← look st_cur; mret (SQLITE_OK, if decide (eState c <> CURSOR_VALID) then 1 else 0)) s = Some ((SQLITE_OK, moved), s1) /\
      moved = if decide (eState (st_cur s1) <> CURSOR_VALID) then 1 else 0) by (eexists; rewrite step_assert by done; by rewrite (step_act _ _ _ _ _ E)).
    destruct HE as (moved & HE & Hm). rewrite (step_act _ _ _ _ _ HE). set (sg' := if decide (res <> 0) then res else sg).
    exists (SQLITE_OK, moved, []), s1, (match o with None => Nowhere | Some r => if decide (sg' = 0) then At r.1 None else Near r.1 sg' end). split; [done|]. split; [done|].
    destruct o as [r|]; [|rewrite (na_state _ _ HO) in Hm; subst moved; split; [by exists res, None|by apply (stands_place s s1 None None)]].
    destruct HO as (l & l' & HS & _). fold sg' in HS. assert (HG : forall p', (if decide (sg' = 0) then moved = 0 /\ p' = At r.1 None else moved = 1 /\ p' = Near r.1 sg') -> goes (flat T) (Near k sg) RestorePosition (SQLITE_OK, moved, []) p').
    { intros p' Hp. exists res, (Some r). split; [done|]. cbn zeta. fold sg'. destruct (decide (sg' = 0)); destruct Hp as [-> ->]; done. }
    destruct (decide (sg' = 0)) as [E0|E0].
    + rewrite E0 in HS. destruct (skips_zero _ _ _ _ HS) as (HE1 & R & C & _). rewrite HE1 in Hm. split; [by apply HG|]. apply (stands_place s s1 (Some r)); [done|done|]. by apply (true_row _ l r l').
    + pose proof HS as (HE1 & _). rewrite decide_False in HE1 by done. rewrite HE1 in Hm. split; [by apply HG|]. split; [by apply (on_table_skips s s1 sg' l r l')|]. right. split; [done|]. by exists l, r, l'.
Qed.

(** ** The next row and the previous one *)

(** The first thing they do is to forget what the cursor knows of its cell. *)
Lemma stands_forgetful s p c : let o := st_cur s in stands s p -> (forall k old, p <> At k old) -> unread c -> validNKey c = false -> (atLast c = true -> atLast o = true) ->
  (eState c, pPage c, apPage c, c_ix c, curIntKey c) = (eState o, pPage o, apPage o, c_ix o, curIntKey o) ->
  (skipNext c, c_nKey c, pgnoRoot c, pKeyInfo c, pinned c) = (skipNext o, c_nKey o, pgnoRoot o, pKeyInfo o, pinned o) -> stands (set_cur c s) p.
Proof using All.
  intros o [O HP] Hp Q HV HL [= E1 E2 E3 E4 E5] [= F1 F2 F3 F4 F5]. subst o. assert (K : stays s (set_cur c s)) by (apply stays_cur; congruence). destruct p as [|k old|k sg]; [|by destruct (Hp k old)|].
  - assert (HN : at_nothing (set_cur c s)).
    { destruct HP as [H1 H2]. split; [cbn; congruence|]. destruct H2 as [H2|(H2 & fs & u & A)]; [left; cbn; congruence|right]. split; [cbn; congruence|]. exists fs, u. by apply at_node_cur. }
    split; [by apply (on_table_none s)|done].
  - destruct HP as [(H1 & H2 & H3 & H4)|(Hsg & l & r & l' & (H1 & H2 & H3 & H4 & _) & Hk)].
    + split; [|left; split_and!; cbn; congruence]. apply (on_table_released s _ O K); cbn; [congruence|]. rewrite E1. apply (ot_fault _ _ _ _ _ O).
    + assert (HS : skips sg (set_cur c s) l r l').
      { split; [cbn; congruence|]. split; [intros; cbn; rewrite F1; by apply H2|]. split; [|split; [|split; [cbn; congruence|done]]]; [|destruct (atLast c) eqn:Ea; [by specialize (HL eq_refl); congruence|done]].
        apply (on_row_unread bt np D Hlim Hnp T hT HT Hheight Hroot (set_cur (set_eState CURSOR_VALID (st_cur s)) s) l r l' (set_eState CURSOR_VALID c)); try done. }
      split; [by apply (on_table_skips s _ sg l r l')|]. right. split; [done|]. by exists l, r, l'.
Qed.

(** What is left of the step of a cursor that was restored. *)
Definition outcome (o : option table_row) (old : option Z) (rc : Z) (s' : State) : Prop :=
  rc = (if decide (o = None) then SQLITE_DONE else SQLITE_OK) /\ match o with None => at_nothing s' | Some r => at_row s' r.1 old end.

(** The rows on both sides of a restored cursor. *)
Lemma restored_sides s k sg sg' l r l' : on_row s l r l' ->
  r.1 = k /\ sg' = sg \/ sg' = -1 /\ r.1 < k /\ (forall x, x ∈ l' -> k < x.1) \/ sg' = 1 /\ k < r.1 /\ (forall x, x ∈ l -> x.1 < k) ->
  next_of (flat T) (Near k sg) = (if decide (0 < sg') then Some r else head l') /\ previous_of (flat T) (Near k sg) = (if decide (sg' < 0) then Some r else last l).
Proof using All.
  intros R H. destruct (row_sides _ _ _ _ R) as (E & H1 & H2). unfold next_of, previous_of. destruct H as [[Hr ->]|[(-> & Hr & Hl)|(-> & Hr & Hl)]].
  - rewrite <- Hr. by destruct (row_lookup _ _ _ _ R) as (_ & -> & -> & -> & ->).
  - destruct (cut_between k (l ++ [r]) l') as (E1 & E2 & E3 & E4 & _); [intros x [Hx| ->%list_elem_of_singleton]%elem_of_app; [apply H1 in Hx; lia|done]|done|].
    rewrite <- app_assoc in E1, E2, E3, E4. rewrite E. cbn [app] in E1, E2, E3, E4. rewrite E1, E2, E3, E4, last_snoc. by destruct (decide (0 < sg)), (decide (sg < 0)).
  - destruct (cut_between k l (r :: l') Hl) as (E1 & E2 & E3 & E4 & _); [intros x [->|Hx]%elem_of_cons; [done|apply H2 in Hx; lia]|].
    rewrite E, E1, E2, E3, E4. by destruct (decide (0 < sg)), (decide (sg < 0)).
Qed.

(** A restored cursor on its row: with no step to skip, or after [eState] is set. *)
Lemma restored_row s k l r l' sg' : on_table s -> skips sg' s l r l' -> (r.1 <> k -> validNKey (st_cur s) = false) -> let s0 := set_cur (set_eState CURSOR_VALID (st_cur s)) s in
  world_ok s0 /\ stays s s0 /\ at_row s0 r.1 (Some k) /\ (validNKey (st_cur s0) = true -> info_nKey (st_cur s0) = k) /\ (sg' = 0 -> s0 = s).
Proof using Type.
  intros O (HE & Hsk & R & HL & C & U) HV s0. assert (K0 : stays s s0) by (by apply stays_cur). split; [apply (ss_world _ _ _ _ _ K0 (ot_world _ _ _ _ _ O))|]. split; [done|].
  split; [exists l, r, l'; split; [done|]; split; [done|]; intros Hv; left; by apply C|]. split.
  - intros Hv. destruct (decide (r.1 = k)) as [Hr|Hr]; [rewrite <- Hr; by apply C|]. specialize (HV Hr). cbn in Hv. congruence.
  - intros ->. rewrite decide_True in HE by done. unfold s0. rewrite <- HE. apply same_cur.
Qed.

(** The steps from a restored cursor, forwards with [Z.ltb 0] and backwards with [fun n => Z.ltb n 0]. *)
Lemma advance (skip : Z -> Prop) `{forall n, Decision (skip n)} (cell : act Z) (to : option table_row) s k sg : on_table s -> restored k sg s -> ~ skip 0 ->
  (flat T = [] -> to = None) ->
  (forall s0 l r l' sg', on_row s0 l r l' ->
    r.1 = k /\ sg' = sg \/ sg' = -1 /\ r.1 < k /\ (forall x, x ∈ l' -> k < x.1) \/ sg' = 1 /\ k < r.1 /\ (forall x, x ∈ l -> x.1 < k) -> 
    if decide (skip sg') then to = Some r else
    world_ok s0 -> unread (st_cur s0) -> atLast (st_cur s0) = false -> (validNKey (st_cur s0) = true -> info_nKey (st_cur s0) = k) ->
      exists rc s', cell s0 = Some (rc, s') /\ stays s0 s' /\ outcome to (Some k) rc s') ->
  exists rc s',
    (c ← look st_cur;
     if decide (eState c = CURSOR_INVALID) then mret SQLITE_DONE
     else if decide (eState c = CURSOR_SKIPNEXT) then
       _ ← change (set_eState CURSOR_VALID);
       if decide (skip (skipNext c)) then mret SQLITE_OK else cell
     else cell) s = Some (rc, s') /\ stays s s' /\ outcome to (Some k) rc s'.
Proof using All.
  intros O [[HE HN]|(l & r & l' & sg' & HS & Hk & HV)] H0 Hnone Hcell; rewrite step_look.
  - rewrite decide_True by apply (na_state _ _ HN). exists SQLITE_DONE, s. split; [done|]. split; [done|]. by rewrite (Hnone HE).
  - pose proof HS as (HE & Hsk & R & HL & C & U). destruct (restored_row s k l r l' sg' O HS HV) as (W0 & K0 & A0 & V0 & Z0). set (s0 := set_cur (set_eState CURSOR_VALID (st_cur s)) s) in *.
    specialize (Hcell s0 l r l' sg' R Hk). destruct (decide (sg' = 0)) as [->|Hsg].
    + rewrite (Z0 eq_refl) in *. rewrite HE, !(decide_False (P := CURSOR_VALID = _)) by done. rewrite decide_False in Hcell by done. by apply Hcell.
    + rewrite HE, (decide_False (P := CURSOR_SKIPNEXT = _)) by done. rewrite decide_True by done. rewrite step_change. fold s0. rewrite (Hsk Hsg). destruct (decide (skip sg')) as [Hg|Hg].
      * exists SQLITE_OK, s0. split; [done|]. split; [done|]. rewrite Hcell. by split.
      * destruct Hcell as (rc & s' & E & K & H1); try done. exists rc, s'. split; [done|]. split; [by transitivity s0|done].
Qed.

Lemma next_from f s k sg : on_table s -> restored k sg s -> exists rc s',
  (c ← look st_cur;
   if decide (eState c = CURSOR_INVALID) then mret SQLITE_DONE
   else if decide (eState c = CURSOR_SKIPNEXT) then
     _ ← change (set_eState CURSOR_VALID);
     if decide (0 < skipNext c) then mret SQLITE_OK else next_cell (next_fuel (S f))
   else next_cell (next_fuel (S f))) s = Some (rc, s') /\ stays s s' /\ outcome (next_of (flat T) (Near k sg)) (Some k) rc s'.
Proof using All.
  intros O H. apply (advance (fun n => 0 < n) (next_cell (next_fuel (S f))) (next_of (flat T) (Near k sg)) s k sg O H); [lia|intros ->; unfold next_of; by destruct (decide (0 < sg))|].
  intros s0 l r l' sg' R Hk. destruct (restored_sides s0 k sg sg' l r l' R Hk) as [-> _]. case_decide; [done|]. intros W0 U HL HV.
  destruct (next_cell_spec bt np D Hlim Hnp T hT HT Hheight Hroot f s0 l r l' W0 R U) as (rc & s' & E & K & N & NC). exists rc, s'. split; [done|]. split; [by apply kept_stays|].
  apply (next_result_place s0 s' l r l' rc (Some k) R N). intros Hrc Hv. destruct (NC Hrc Hv) as (N1 & -> & ->). by rewrite HV.
Qed.

Lemma previous_from f s k sg : on_table s -> restored k sg s -> exists rc s',
  (c ← look st_cur;
   if decide (eState c = CURSOR_INVALID) then mret SQLITE_DONE
   else if decide (eState c = CURSOR_SKIPNEXT) then
     _ ← change (set_eState CURSOR_VALID);
     if decide (skipNext c < 0) then mret SQLITE_OK else previous_cell (previous_fuel (S f))
   else previous_cell (previous_fuel (S f))) s = Some (rc, s') /\ stays s s' /\ outcome (previous_of (flat T) (Near k sg)) (Some k) rc s'.
Proof using All.
  intros O H. apply (@advance (fun n => n < 0) (fun n => decide_rel Z.lt n 0) (previous_cell (previous_fuel (S f))) (previous_of (flat T) (Near k sg)) s k sg O H); [lia|intros ->; unfold previous_of; by destruct (decide (sg < 0))|].
  intros s0 l r l' sg' R Hk. destruct (restored_sides s0 k sg sg' l r l' R Hk) as [_ ->]. case_decide; [done|]. intros W0 U HL HV.
  destruct (previous_cell_spec bt np D Hlim Hnp T hT HT Hheight Hroot f s0 l r l' W0 R U HL) as (rc & s' & E & K & N & NC). exists rc, s'. split; [done|]. split; [by apply kept_stays|].
  apply (previous_result_place s0 s' l r l' rc (Some k) R N). intros Hrc Hv. destruct (NC Hrc Hv) as (N1 & -> & ->). by rewrite HV.
Qed.

(** The end of a step. *)
Lemma outcome_works s s0 s' p (o : op) to rc (m : act Z) : on_table s -> stays s s0 -> stays s0 s' -> (forall s, perform o s = (rc ← m; mret (rc, 0, [])) s) -> m s = Some (rc, s') ->
  outcome to (left_behind p) rc s' -> (forall a p', a = (if decide (to = None) then SQLITE_DONE else SQLITE_OK, 0, []) -> p' = place to (left_behind p) -> goes (flat T) p o a p') -> works s p o.
Proof using Type.
  intros O K1 K2 Hp E [-> H] Hg. eexists _, s', (place to (left_behind p)). rewrite Hp, (step_act _ _ _ _ _ E). split; [reflexivity|]. assert (K : stays s s') by (by transitivity s0).
  split; [done|]. split; [by apply Hg|]. by apply (stands_place s s').
Qed.

Lemma on_place (p : position) : (exists k old, p = At k old) \/ forall k old, p <> At k old.
Proof using Type. destruct p; [by right|left; eauto|by right]. Qed.

(** The cursor is not on a row, and has forgotten what it knew. *)
Lemma elsewhere_invalid s p : stands s p -> (forall k old, p <> At k old) -> eState (st_cur s) <> CURSOR_VALID.
Proof using Type.
  intros [O HP] HAt. destruct p as [|k old|k sg]; [destruct HP; congruence|by destruct (HAt k old)|].
  destruct HP as [(HE & _)|(Hsg & l & r & l' & (HE & _) & _)]; [congruence|rewrite HE; by rewrite decide_False].
Qed.

(** A step of a cursor that is not on a row: it is restored, and moves from there. *)
Lemma step_works s s0 p o next (to : position -> option table_row) (m : act Z) (go : act Z) : on_table s -> stays s s0 -> stands s0 p -> (forall k old, p <> At k old) ->
  (forall s, perform o s = (rc ← m; mret (rc, 0, [])) s) ->
  m s = (rc ← restoreCursorPosition next; if decide (rc <> SQLITE_OK) then mret rc else go) s0 ->
  (eState (st_cur s0) = CURSOR_INVALID -> go s0 = Some (SQLITE_DONE, s0)) -> to Nowhere = None ->
  (forall s1 k sg, p = Near k sg -> on_table s1 -> restored k sg s1 -> exists rc s', go s1 = Some (rc, s') /\ stays s1 s' /\ outcome (to p) (Some k) rc s') ->
  (forall a p', a = (if decide (to p = None) then SQLITE_DONE else SQLITE_OK, 0, []) -> p' = place (to p) (left_behind p) -> goes (flat T) p o a p') -> works s p o.
Proof using All.
  intros O K0 S0 HAt Hp E0 Hnone H0 Hgo Hg. pose proof S0 as [O0 HP0]. destruct p as [|k old|k sg]; [|by destruct (HAt k old)|].
  - rewrite (step_act _ _ _ _ _ (restore_idle next s0 ltac:(by rewrite (na_state _ _ HP0)))), rc_ok, (Hnone (na_state _ _ HP0)) in E0.
    apply (outcome_works s s0 s0 Nowhere o (to Nowhere) SQLITE_DONE m); try done. by rewrite H0.
  - destruct (settle next s0 k sg S0) as (s1 & E1 & K1 & H1). rewrite (step_act _ _ _ _ _ E1), rc_ok in E0.
    destruct (Hgo s1 k sg eq_refl (restored_table s0 s1 k sg O0 K1 H1) H1) as (rc & s' & E2 & K2 & H2). rewrite E2 in E0.
    apply (outcome_works s s0 s' (Near k sg) o (to (Near k sg)) rc m); try done. by transitivity s1.
Qed.

Lemma next_works s p : stands s p -> works s p Next.
Proof using All.
  intros S. pose proof S as [O HP]. destruct (on_place p) as [(k & old & ->)|HAt].
  - destruct HP as (l & r & l' & R & Hk & _). destruct (next_row bt np D Hlim Hnp T hT HT Hheight Hroot 0 s l r l' (ot_world _ _ _ _ _ O) R) as (rc & s' & E & K & N & NC).
    apply (outcome_works s s s' (At k old) Next (above k (flat T)) rc sqlite3BtreeNext); try done; [by apply kept_stays|].
    rewrite <- Hk. destruct (row_lookup _ _ _ _ R) as (_ & -> & _). apply (next_result_place s s' l r l' rc None R N). intros Hrc Hv. specialize (NC Hrc). congruence.
  - set (s0 := set_cur (forget (st_cur s)) s). assert (S0 : stands s0 p) by (by apply stands_forgetful). pose proof (elsewhere_invalid s0 p S0 HAt) as HV.
    assert (E0 : sqlite3BtreeNext s = btreeNext (next_fuel 1) s0) by (unfold sqlite3BtreeNext; cbn [next_fuel]; rewrite step_change, step_look; fold s0; by rewrite decide_True).
    unfold btreeNext in E0. rewrite step_look, decide_True, step_assert in E0 by done.
    refine (step_works s s0 p Next _ (next_of (flat T)) sqlite3BtreeNext _ O _ S0 HAt _ E0 _ eq_refl _ _); try done.
    + by apply stays_cur.
    + intros HE. rewrite step_look. by rewrite decide_True.
    + intros s1 k sg -> O1 H1. by apply (next_from 0 s1 k sg).
Qed.

Lemma previous_works s p : stands s p -> works s p Previous.
Proof using All.
  intros S. pose proof S as [O HP]. destruct (on_place p) as [(k & old & ->)|HAt].
  - destruct HP as (l & r & l' & R & Hk & _). destruct (previous_row bt np D Hlim Hnp T hT HT Hheight Hroot 0 s l r l' (ot_world _ _ _ _ _ O) R) as (rc & s' & E & K & N & NC).
    apply (outcome_works s s s' (At k old) Previous (below k (flat T)) rc sqlite3BtreePrevious); try done; [by apply kept_stays|].
    rewrite <- Hk. destruct (row_lookup _ _ _ _ R) as (_ & _ & -> & _). apply (previous_result_place s s' l r l' rc None R N). intros Hrc Hv. specialize (NC Hrc). congruence.
  - set (s0 := set_cur (clear_size (set_flags false false false (st_cur s))) s). assert (S0 : stands s0 p) by (by apply stands_forgetful). pose proof (elsewhere_invalid s0 p S0 HAt) as HV.
    assert (E0 : sqlite3BtreePrevious s = btreePrevious (previous_fuel 1) s0)
      by (unfold sqlite3BtreePrevious; cbn [previous_fuel]; rewrite step_change, step_look; fold s0; by rewrite decide_True by (by left)).
    unfold btreePrevious in E0. rewrite step_assert, step_look, decide_True in E0 by done.
    refine (step_works s s0 p Previous _ (previous_of (flat T)) sqlite3BtreePrevious _ O _ S0 HAt _ E0 _ eq_refl _ _); try done.
    + by apply stays_cur.
    + intros HE. rewrite step_look. by rewrite decide_True.
    + intros s1 k sg -> O1 H1. by apply (previous_from 0 s1 k sg).
Qed.

(** ** All operations *)

Lemma cursor_works s p o : stands s p -> allowed (flat T) p o -> works s p o \/ misled s p o.
Proof using All.
  intros S HA. destruct o as [| | | |k b| | |offset amt| | |]; [left; by apply first_works|left; by apply last_works|left; by apply next_works|
    left; by apply previous_works|by apply moveto_works|left; by apply key_works|left; by apply size_works|left; by apply payload_works|
    left; by apply save_works|left; by apply restore_works|left; by apply clear_works].
Qed.

(** A new cursor. *)
Lemma opened_stands s : world_ok s -> exists s', btreeCursor (root T) false s = Some (SQLITE_OK, s') /\ stands s' Nowhere.
Proof using All.
  intros W. destruct (tree_page _ _ _ _ _ HT) as [P HP]. destruct (subtree_table _ _ _ _ _ HP) as [l Hl]. destruct (tp_range _ _ _ _ _ _ _ Hl) as [HR _].
  unfold btreeCursor. rewrite decide_False by lia. rewrite step_look. destruct (wo_pages _ _ _ _ W) as [Hn _]. rewrite decide_False by lia. rewrite step_change. eexists. split; [reflexivity|].
  split; [|split; [done|by left]]. split; try done; [by destruct W|by left].
Qed.

End Step.
