(* ===== verification/SqlCursorProps.v ===== *)
(** * Cursors on tables: what they promise

    A cursor is a position in the list of the rows of its table ([SqlCursorPos]), whatever its operations are, whoever uses the
    pages, and however the table changes while its position is saved; and every operation succeeds. *)

From stdpp Require Import sorting.
From S2P Require Import Prelude Bits SqlVarint SqlBytes SqlCell SqlCellProps SqlPage SqlPageOk SqlPageInit SqlPageProps SqlFreelist SqlFreelistOk.
From S2P Require Import SqlOverflow SqlOverflowOk SqlOverflowCell SqlCursor SqlCursorTree SqlCursorMove SqlCursorRow SqlCursorRead SqlCursorSeek.
From S2P Require Import SqlCursorPos SqlCursorStep.

(** ** Tables *)

(** The number of pages of the database, their bytes, and the tree of the table. *)
Record Table := { t_pages : Z; t_data : Z -> bytes; t_tree : tree }.

Definition t_rows (t : Table) : list table_row := flat (t_tree t).

Record table_good (bt : BtShared) (t : Table) : Prop := {
  tg_pages : t_pages t < 4294967296;
  tg_tree : tree_ok bt (t_pages t) (t_data t) 19 (t_tree t);
  tg_root : match t_tree t with Leaf _ _ => True | Node p _ keys => keys = [] -> p = 1 end;
  tg_order : ordered (t_rows t)
}.

(** The database holds the table, and what the memory of a page says is true of it. *)
Definition holds (bt : BtShared) (t : Table) (s : State) : Prop := world_ok bt (t_pages t) (t_data t) s.

(** The cursor is at the position of the table. *)
Definition stands_at (bt : BtShared) (t : Table) : State -> position -> Prop := stands bt (t_pages t) (t_data t) (t_tree t).

(** The pages the cursor keeps. *)
Definition cursor_pages (c : Cursor) : list Z := match pPage c with None => [] | Some p => p :: (apPage c).*1 end.

(** ** Runs *)

(** An operation of the cursor with its answer; others use the pages; others change the database. *)
Inductive event := Did (o : op) (a : answer) | Others | Became (t : Table).

Inductive runs (bt : BtShared) : Table -> State -> list event -> Prop :=
  | runs_nil t s : runs bt t s []
  | runs_did t s o a s1 es : perform o s = Some (a, s1) -> runs bt t s1 es -> runs bt t s (Did o a :: es)
  | runs_others t s s1 es : st_cur s1 = st_cur s -> holds bt t s1 -> (forall p, p ∈ cursor_pages (st_cur s) -> held s p -> held s1 p) ->
      runs bt t s1 es -> runs bt t s (Others :: es)
  | runs_became t s t1 s1 es : st_cur s1 = st_cur s -> pPage (st_cur s) = None -> table_good bt t1 -> root (t_tree t1) = root (t_tree t) -> holds bt t1 s1 ->
      runs bt t1 s1 es -> runs bt t s (Became t1 :: es).

(** The same on positions, as long as the operations are allowed.  A stale search is told apart: it may also answer 0 and not move, which
    is no answer to a search. *)
Fixpoint follows (rows : list table_row) (p : position) (es : list event) : Prop :=
  match es with
  | [] => True
  | Did o a :: es => allowed rows p o ->
      (~ stale_search p o -> exists p', goes rows p o a p' /\ follows rows p' es) /\
      (stale_search p o -> (exists p', goes rows p o a p' /\ follows rows p' es) \/ a = (SQLITE_OK, 0, []) /\ follows rows p es)
  | Others :: es => follows rows p es
  | Became t :: es => follows (t_rows t) p es
  end.

Lemma held_cursor (s s1 : State) T fs u : st_cur s1 = st_cur s -> (forall p, p ∈ cursor_pages (st_cur s) -> held s p -> held s1 p) -> at_node T s fs u -> at_node T s1 fs u.
Proof.
  intros E Hh [A1 A2 A3 A4 A5]. unfold cursor_pages in Hh. rewrite A2, A3 in Hh. split; try done; [by rewrite E|by rewrite E|apply Hh; [by left|done]|].
  intros t i Hi. apply Hh; [|by apply (A5 t i)]. right. apply list_elem_of_fmap. exists (root t, Z.of_nat i). split; [done|]. apply list_elem_of_fmap. by exists (t, i).
Qed.

Lemma held_row bt np D T (s s1 : State) l r l' : st_cur s1 = st_cur s -> (forall p, p ∈ cursor_pages (st_cur s) -> held s p -> held s1 p) ->
  on_row bt np D T s l r l' -> on_row bt np D T s1 l r l'.
Proof. intros E Hh (fs & p & rows & i & A & H). exists fs, p, rows, i. split; [by apply (held_cursor s)|]. by rewrite E. Qed.

Lemma stands_others bt t s s1 p : st_cur s1 = st_cur s -> holds bt t s1 -> (forall p, p ∈ cursor_pages (st_cur s) -> held s p -> held s1 p) ->
  stands_at bt t s p -> stands_at bt t s1 p.
Proof.
  intros E W Hh [[O1 O2 O3 O4 O5 O6] HP]. assert (O : on_table bt (t_pages t) (t_data t) (t_tree t) s1).
  { split; rewrite ?E; try done. destruct O6 as [O6|(H1 & H2 & fs & u & A)]; [by left|right]. split; [done|]. split; [done|]. exists fs, u. by apply (held_cursor s). }
  split; [done|]. destruct p as [|k old|k sg].
  - destruct HP as [H1 H2]. split; [by rewrite E|]. rewrite E. destruct H2 as [H2|(H2 & fs & u & A)]; [by left|right]. split; [done|]. exists fs, u. by apply (held_cursor s).
  - destruct HP as (l & r & l' & R & HP). exists l, r, l'. split; [by apply (held_row _ _ _ _ s)|]. by rewrite E.
  - destruct HP as [HP|(Hsg & l & r & l' & (H1 & H2 & R & H3) & Hk)]; [left; unfold saved in *; by rewrite E|right]. split; [done|]. exists l, r, l'. split; [|done].
    unfold skips. rewrite E. split; [done|]. split; [done|]. split; [|done]. by apply (held_row _ _ _ _ (set_cur (set_eState CURSOR_VALID (st_cur s)) s)).
Qed.

(** A cursor without pages is at the same position of any table with the same root. *)
Lemma stands_became bt t t1 s s1 p : st_cur s1 = st_cur s -> pPage (st_cur s) = None -> root (t_tree t1) = root (t_tree t) -> holds bt t1 s1 -> stands_at bt t s p -> stands_at bt t1 s1 p.
Proof.
  intros E HN HR W [[O1 O2 O3 O4 O5 O6] HP]. assert (O : on_table bt (t_pages t1) (t_data t1) (t_tree t1) s1) by (split; rewrite ?E; try done; [congruence|by left]).
  split; [done|]. destruct p as [|k old|k sg].
  - destruct HP as [H1 H2]. split; rewrite E; [done|by left].
  - destruct HP as (l & r & l' & (fs & q & rows & i & A & _) & _). pose proof (an_page _ _ _ _ A). congruence.
  - destruct HP as [HP|(Hsg & l & r & l' & (H1 & H2 & (fs & q & rows & i & A & _) & H3) & Hk)]; [left; unfold saved in *; by rewrite E|].
    pose proof (an_page _ _ _ _ A) as HA. cbn in HA. congruence.
Qed.

Lemma good_works bt t s p o : limits_ok bt -> table_good bt t -> stands_at bt t s p -> allowed (t_rows t) p o ->
  exists a s' p', perform o s = Some (a, s') /\ stands_at bt t s' p' /\
    (goes (t_rows t) p o a p' \/ stale_search p o /\ a = (SQLITE_OK, 0, []) /\ p' = p).
Proof.
  intros Hlim [G1 G2 G3 G4] S HA.
  destruct (cursor_works bt (t_pages t) (t_data t) Hlim G1 (t_tree t) 19 G2 (le_n 19) G3 G4 s p o S HA) as [(a & s' & p' & E & _ & Hg & S')|[Hst (s' & E & _ & S')]].
  - exists a, s', p'. split; [done|]. split; [done|by left].
  - exists (SQLITE_OK, 0, []), s', p. split; [done|]. split; [done|by right].
Qed.

Lemma runs_follow bt t s es : limits_ok bt -> runs bt t s es -> forall p, table_good bt t -> stands_at bt t s p -> follows (t_rows t) p es.
Proof.
  intros Hlim. induction 1 as [t s|t s o a s1 es E _ IH|t s s1 es E W Hh _ IH|t s t1 s1 es E HN G1 HR W _ IH]; intros p G S; cbn [follows].
  - done.
  - intros HA. destruct (good_works bt t s p o Hlim G S HA) as (a2 & s2 & p2 & E2 & S2 & H). rewrite E in E2. injection E2 as <- <-. specialize (IH p2 G S2).
    destruct H as [Hg|(Hst & -> & ->)]; split; intros Hs; [by exists p2|left; by exists p2|done|by right].
  - apply IH; [done|]. by apply (stands_others bt t s s1).
  - apply IH; [done|]. by apply (stands_became bt t t1 s s1).
Qed.

(** ** The properties *)

(** C17: A cursor on a table is a position in the list of its rows.  From a new cursor ([btreeCursor]), every run of
    its operations, of uses of the pages by others that leave the pages of the cursor in memory, and of changes of the whole database and its tree
    while the position is saved, gives at each operation an answer that the position it is at gives: [sqlite3BtreeNext] goes to
    the least rowid above it and [sqlite3BtreePrevious] to the greatest below, or says that there is none; a search ends on the
    rowid or on a neighbour of its place, and says which, unless it is stale: after a step from a saved position, a search for the rowid that the
    cursor left may also answer 0 and stay on the other row, against the comment of [sqlite3BtreeTableMoveto] ([stale_rowid] below); the rowid and the bytes read are those of the row; and after a change, the step
    from a saved position goes to the next row of the changed table in rowid order, whether or not the row of the position is still there. *)
Theorem cursor_is_position bt t s s0 es : limits_ok bt -> table_good bt t -> holds bt t s -> btreeCursor (root (t_tree t)) false s = Some (SQLITE_OK, s0) ->
  runs bt t s0 es -> follows (t_rows t) Nowhere es.
Proof.
  intros Hlim G W E Hr. apply (runs_follow bt t s0 es Hlim Hr Nowhere G). destruct G as [G1 G2 G3 G4].
  destruct (opened_stands bt (t_pages t) (t_data t) Hlim G1 (t_tree t) 19 G2 (le_n 19) G3 G4 s W) as (s1 & E1 & S). rewrite E in E1. by injection E1 as <-.
Qed.

(** C21: Every operation of such a cursor succeeds where it is allowed: the walks up and down the tree end within the depth
    [BTCURSOR_MAX_DEPTH] of the path, no assert fails, no access leaves a page, and it answers with the code [SQLITE_OK], or [SQLITE_DONE] past the end. *)
Theorem cursor_operations_succeed bt t s p o : limits_ok bt -> table_good bt t -> stands_at bt t s p -> allowed (t_rows t) p o ->
  exists rc n bs s' p', perform o s = Some ((rc, n, bs), s') /\ (rc = SQLITE_OK \/ rc = SQLITE_DONE /\ (o = Next \/ o = Previous) /\ p' = Nowhere) /\ stands_at bt t s' p'.
Proof.
  intros Hlim G S HA. destruct (good_works bt t s p o Hlim G S HA) as ([[rc n] bs] & s' & p' & E & S' & Hg). exists rc, n, bs, s', p'. split; [done|]. split; [|done].
  destruct Hg as [Hg|(_ & [= -> _ _] & _)]; [by apply goes_code in Hg|by left].
Qed.

(** ** Examples *)

Definition bt0 : BtShared := lockBtree 512 512 0.

(** A cell has at least four bytes. *)
Definition row_cell (r : table_row) : bytes := let c := row_header r ++ r.2 in c ++ replicate (4 - length c) 0.

(** A page with the cells, made by the routines of [SqlPage]. *)
Definition new_of (flags : Z) (d : bytes) : MemPage := default (blank d) (zeroPage (blank d) flags).
Definition puts (cells : list bytes) : list page_op := imap Put cells.
Definition page_with (flags : Z) (d : bytes) (cells : list bytes) : MemPage := default (blank d) (run op_page (new_of flags d) (puts cells)).

Definition leaf_of (rows : list table_row) : MemPage := page_with 13 (replicate 512 0) (row_cell <$> rows).

(** A page with a key between its children. *)
Definition fork : MemPage := page_with 5 (replicate 8 0 ++ four 4 ++ replicate 500 0) [child_cell (Leaf 3 []) 2].

(** The pages 3 and 4 hold the rows, the page 2 is the root. *)
Definition example_pages (a b : list table_row) : gmap Z bytes := {[2 := aData fork; 3 := aData (leaf_of a); 4 := aData (leaf_of b)]}.
Definition example_db (a b : list table_row) : Db :=
  {| db_bt := bt0; nPage := 4; pages := example_pages a b; cache := ∅; referenced := ∅; inited := ∅; dbSize := 4; mxPgno := 100; pHasContent := None; answers := [] |}.
Definition example_table (a b : list table_row) : Table :=
  {| t_pages := 4; t_data := page_of (example_db a b); t_tree := Node 2 [Leaf 3 a; Leaf 4 b] [2] |}.

(** The memory of a cursor, and the rows before and after a change. *)
Definition raw_cursor : Cursor :=
  {| eState := CURSOR_VALID; skipNext := 7; pinned := true; atLast := true; validNKey := true; validOvfl := true; pgnoRoot := 9; pKeyInfo := true; curIntKey := false; pPage := None;
     apPage := []; c_ix := 3; c_info := None; info_nKey := 4; c_nKey := 0; c_aOverflow := [] |}.
Definition example_state (a b : list table_row) (c : Cursor) : State := {| st_db := example_db a b; st_mem := ∅; st_cellck := false; st_cur := c |}.

Lemma page_with_holds flags d cells : raw_page (blank d) -> page_flags flags -> run (op_list (new_of flags d)) [] (puts cells) = Some cells -> holds_cells (page_with flags d cells) cells.
Proof.
  intros HR Hf Hr. destruct (new_page (blank d) flags HR Hf) as (P0 & E & H). assert (E0 : new_of flags d = P0) by (unfold new_of; by rewrite E). unfold page_with. rewrite E0 in *.
  destruct (run_steps P0 (puts cells) P0 [] cells eq_refl H Hr) as (P & -> & HP & _). done.
Qed.

Definition small_row (r : table_row) : Prop := in_s 64 r.1 /\ bytes_ok r.2 /\ len r.2 <= 100.

Lemma small_row_on np D p P r : pBt P = bt0 -> maxLocal P = 477 -> small_row r -> row_on bt0 np D p P (row_cell r) r [].
Proof.
  intros E1 E2 (H1 & H2 & H3). assert (EL : cell_local P (len r.2) = len r.2) by (unfold cell_local; rewrite E2; by rewrite decide_True by lia).
  assert (Ec : row_cell r = row_header r ++ (r.2 ++ replicate (4 - length (row_header r ++ r.2)) 0)) by (unfold row_cell; by rewrite <- app_assoc).
  split; rewrite ?EL; try done.
  - split; [done|lia].
  - by eexists.
  - split; [by apply NoDup_nil|apply not_elem_of_nil].
  - replace (len r.2 - len r.2) with 0 by lia. done.
  - by intros q ?%elem_of_nil.
  - intros i Hi. unfold payload_byte. rewrite decide_True by lia. rewrite Ec. apply rd_of_sub; [lia| |lia]. unfold sub. rewrite !Nat2Z.id, drop_app_length. by rewrite take_app_length.
Qed.

Lemma small_leaf np D h p rows : D p = aData (leaf_of rows) -> run (op_list (new_of 13 (replicate 512 0))) [] (puts (row_cell <$> rows)) = Some (row_cell <$> rows) ->
  (pBt (leaf_of rows), hdrOffset (leaf_of rows), maxLocal (leaf_of rows), intKey (leaf_of rows), leaf (leaf_of rows)) = (bt0, 0, 477, true, true) -> 2 <= p <= np -> p < 1000 -> Forall small_row rows ->
  tree_ok bt0 np D h (Leaf p rows).
Proof.
  intros E Hr [= E1 E2 E3 E4 E5] Hp Hp2 HF. assert (HH : holds_cells (leaf_of rows) (row_cell <$> rows)) by (apply page_with_holds; [apply blank_raw|unfold page_flags; lia|done]).
  enough (exists P l, table_page bt0 np D p P true l /\ Forall2 (fun c r => exists ps, row_on bt0 np D p P c r ps) l rows) by (by destruct h).
  exists (leaf_of rows), (row_cell <$> rows). split.
  - split; try done; [rewrite E2; unfold hdr_of; by rewrite decide_False by lia|]. split; [lia|]. assert (PENDING_BYTE_PAGE bt0 = 2097153) as -> by (vm_compute; reflexivity). lia.
  - apply Forall2_fmap_l. apply Forall_Forall2_diag. eapply Forall_impl; [exact HF|]. intros r Hr2. exists []. by apply small_row_on.
Qed.

(** What has to be computed of the rows. *)
Definition computed (rows : list table_row) : Prop :=
  run (op_list (new_of 13 (replicate 512 0))) [] (puts (row_cell <$> rows)) = Some (row_cell <$> rows) /\
  (pBt (leaf_of rows), hdrOffset (leaf_of rows), maxLocal (leaf_of rows), intKey (leaf_of rows), leaf (leaf_of rows)) = (bt0, 0, 477, true, true) /\
  len (aData (leaf_of rows)) = 512 /\ bytes_ok (aData (leaf_of rows)) /\ Forall small_row rows /\ rows <> [].

Lemma example_page a b q : page_of (example_db a b) q = if decide (q = 2) then aData fork else if decide (q = 3) then aData (leaf_of a) else if decide (q = 4) then aData (leaf_of b) else replicate 512 0.
Proof.
  unfold page_of, example_db, example_pages, zeros. cbn [pages]. rewrite !lookup_insert, lookup_singleton. repeat case_decide; congruence || done.
Qed.

Lemma fork_bytes : bytes_ok (aData fork) /\ len (aData fork) = 512 /\ rd4 (aData fork) 8 = 4 /\ pBt fork = bt0 /\ hdrOffset fork = 0 /\ intKey fork = true /\ leaf fork = false.
Proof. split; [apply (bool_decide_unpack _); vm_compute; exact I|]. vm_compute. done. Qed.

Lemma example_holds a b c : computed a -> computed b -> holds bt0 (example_table a b) (example_state a b c).
Proof.
  intros (_ & _ & A1 & A2 & _) (_ & _ & B1 & B2 & _). destruct fork_bytes as (F1 & F2 & _).
  assert (Hdb : db_ok (example_db a b)).
  { split; [cbn; lia|cbn; lia|intros q; rewrite example_page; cbn [example_db db_bt]|intros q; rewrite example_page|cbn; lia|reflexivity].
    - destruct (decide (q = 2)); [exact F2|]. destruct (decide (q = 3)); [exact A1|]. destruct (decide (q = 4)).
      + exact B1.
      + by rewrite length_replicate.
    - destruct (decide (q = 2)); [exact F1|]. destruct (decide (q = 3)); [exact A2|]. destruct (decide (q = 4)); [exact B2|apply (bool_decide_unpack _); vm_compute; exact I]. }
  split; [exact Hdb|reflexivity|cbn; lia|reflexivity|]. intros p P lf l M _ HM. cbn [example_state st_mem] in HM. by rewrite lookup_empty in HM.
Qed.

Lemma fork_raw : raw_page (blank (replicate 8 0 ++ four 4 ++ replicate 500 0)).
Proof. split; [by left|done|by exists 9|vm_compute; reflexivity|apply (bool_decide_unpack _); vm_compute; exact I]. Qed.

(** The rows of the first leaf are up to 2, those of the second are above. *)
Lemma example_good a b : computed a -> computed b -> Forall (fun r => r.1 <= 2) a -> Forall (fun r => 2 < r.1) b -> ordered (a ++ b) -> table_good bt0 (example_table a b).
Proof.
  intros CA CB HA HB HO. rewrite Forall_forall in HA, HB. destruct fork_bytes as (F1 & F2 & F3 & F4 & F5 & F6 & F7). split; [done| |done|cbn; by rewrite app_nil_r].
  pose proof (fun q => example_page a b q) as EP. destruct CA as (A1 & A2 & _ & _ & A5 & A6), CB as (B1 & B2 & _ & _ & B5 & B6).
  assert (Hpb : PENDING_BYTE_PAGE bt0 = 2097153) by (vm_compute; reflexivity).
  cbn [example_table t_pages t_data t_tree tree_ok]. split; [|split; [done|split; [apply (bool_decide_unpack _); vm_compute; exact I|split; [|split; [|split]]]]].
  - exists fork. split; [|exact F4|rewrite EP; reflexivity|rewrite F5; reflexivity|exact F6|exact F7|rewrite Hpb; lia].
    apply (page_with_holds 5 _ [child_cell (Leaf 3 []) 2] fork_raw); [unfold page_flags; lia|vm_compute; reflexivity].
  - intros u [= <-]. rewrite EP. exact F3.
  - intros i k j u r Hk Hj Hr. destruct i as [|i]; [|done]. injection Hk as <-. destruct j as [|[|j]]; [| |by destruct j]; injection Hj as <-; cbn [flat] in Hr.
    + left. split; [lia|]. by apply HA.
    + right. split; [lia|]. by apply HB.
  - by repeat constructor.
  - assert (H3 : tree_ok bt0 4 (page_of (example_db a b)) 0 (Leaf 3 a)) by (apply small_leaf; [by rewrite EP|exact A1|exact A2|lia|lia|exact A5]).
    assert (H4 : tree_ok bt0 4 (page_of (example_db a b)) 0 (Leaf 4 b)) by (apply small_leaf; [by rewrite EP|exact B1|exact B2|lia|lia|exact B5]).
    apply Forall_cons; split; [exact H3|apply Forall_singleton; exact H4].
Qed.

Definition rows_a : list table_row := [(1, [10]); (2, [20; 21])].
Definition rows_b : list table_row := [(5, [50])].
(** The row 2 is deleted, and the row 3 is new. *)
Definition rows_a' : list table_row := [(1, [10])].
Definition rows_b' : list table_row := [(3, [30; 31; 32]); (5, [50])].

Lemma small_rows rows : forallb (fun r => bool_decide (small_row r)) rows = true -> Forall small_row rows.
Proof.
  intros H. apply Forall_forall. intros r Hr. rewrite forallb_forall in H. apply list_elem_of_In in Hr. by apply (bool_decide_unpack _), Is_true_true, H.
Qed.

Ltac compute_rows := split; [vm_compute; reflexivity|]; split; [vm_compute; reflexivity|]; split; [vm_compute; reflexivity|];
  split; [apply (bool_decide_unpack _); vm_compute; exact I|]; split; [apply small_rows; vm_compute; reflexivity|discriminate].

Lemma rows_computed : computed rows_a /\ computed rows_b /\ computed rows_a' /\ computed rows_b'.
Proof. split; [compute_rows|]. split; [compute_rows|]. split; compute_rows. Qed.

(** A row of operations, with their answers. *)
Fixpoint plays (os : list op) (s : State) : option (list answer * State) :=
  match os with [] => Some ([], s) | o :: os => '(a, s) ← perform o s; '(l, s) ← plays os s; Some (a :: l, s) end.

Definition answers_of (os : list op) (s : State) : list answer := default [] (fst <$> plays os s).
Definition state_after (os : list op) (s : State) : State := default s (snd <$> plays os s).

Lemma plays_run bt t os : forall s l s' es, plays os s = Some (l, s') -> runs bt t s' es -> runs bt t s (zip_with Did os l ++ es).
Proof.
  induction os as [|o os IH]; intros s l s' es; cbn [plays]; [by intros [= <- <-]|].
  destruct (perform o s) as [[a s1]|] eqn:E; cbn [mbind option_bind]; [|done]. destruct (plays os s1) as [[l1 s2]|] eqn:E1; cbn [mbind option_bind]; [|done].
  intros [= <- <-] Hr. cbn. apply (runs_did _ _ _ _ _ s1); [done|]. by apply (IH s1 l1 s2).
Qed.

(** A search for the row 2, which is read, and the position is saved; the table changes; the cursor goes on from there. *)
Definition opened_state : State := default (example_state rows_a rows_b raw_cursor) (snd <$> btreeCursor 2 false (example_state rows_a rows_b raw_cursor)).
Definition before_change : list op := [Moveto 2 false; IntegerKey; Payload 0 2; SavePosition].
Definition after_change : list op := [Next; IntegerKey; Payload 1 2; Previous; IntegerKey; Previous].
Definition changed (s : State) : State := example_state rows_a' rows_b' (st_cur s).
Definition example_events : list event :=
  zip_with Did before_change [(SQLITE_OK, 0, []); (SQLITE_OK, 2, []); (SQLITE_OK, 0, [20; 21]); (SQLITE_OK, 0, [])] ++ Became (example_table rows_a' rows_b') ::
  (zip_with Did after_change [(SQLITE_OK, 0, []); (SQLITE_OK, 3, []); (SQLITE_OK, 0, [31; 32]); (SQLITE_OK, 0, []); (SQLITE_OK, 1, []); (SQLITE_DONE, 0, [])] ++ []).

Lemma example_good_before : table_good bt0 (example_table rows_a rows_b).
Proof. destruct rows_computed as (C1 & C2 & _). apply example_good; [done|done|apply (bool_decide_unpack _); vm_compute; exact I..|]. repeat constructor. Qed.

Lemma example_good_after : table_good bt0 (example_table rows_a' rows_b').
Proof. destruct rows_computed as (_ & _ & C1 & C2). apply example_good; [done|done|apply (bool_decide_unpack _); vm_compute; exact I..|]. repeat constructor. Qed.

Lemma bt0_limits : limits_ok bt0.
Proof. exists 512, 512, 0. split; [done|lia]. Qed.

Lemma changed_runs s es : pPage (st_cur s) = None -> runs bt0 (example_table rows_a' rows_b') (changed s) es ->
  runs bt0 (example_table rows_a rows_b) s (Became (example_table rows_a' rows_b') :: es).
Proof.
  intros HP Hr. destruct rows_computed as (_ & _ & C1 & C2). apply (runs_became _ _ _ _ (changed s)); [done|done|exact example_good_after|done|exact (example_holds _ _ _ C1 C2)|exact Hr].
Qed.

Lemma example_runs : runs bt0 (example_table rows_a rows_b) opened_state example_events.
Proof.
  apply (plays_run _ _ before_change _ _ (state_after before_change opened_state)); [vm_compute; reflexivity|]. apply changed_runs; [vm_compute; reflexivity|].
  apply (plays_run _ _ after_change _ _ (state_after after_change (changed (state_after before_change opened_state)))); [vm_compute; reflexivity|]. apply runs_nil.
Qed.

Lemma cursor_is_position_witness : limits_ok bt0 /\ table_good bt0 (example_table rows_a rows_b) /\ follows (rows_a ++ rows_b) Nowhere example_events.
Proof.
  destruct rows_computed as (C1 & C2 & _). split; [exact bt0_limits|]. split; [exact example_good_before|].
  apply (cursor_is_position bt0 (example_table rows_a rows_b) (example_state rows_a rows_b raw_cursor) opened_state example_events bt0_limits example_good_before);
    [exact (example_holds _ _ _ C1 C2)|vm_compute; reflexivity|exact example_runs].
Defined.

(** The new cursor is on no row. *)
Lemma opened_nowhere : stands_at bt0 (example_table rows_a rows_b) opened_state Nowhere.
Proof.
  destruct example_good_before as [G1 G2 G3 G4], rows_computed as (C1 & C2 & _).
  destruct (opened_stands bt0 (t_pages _) (t_data _) bt0_limits G1 (t_tree _) 19 G2 (le_n 19) G3 G4 (example_state rows_a rows_b raw_cursor) (example_holds _ _ _ C1 C2)) as (s1 & E1 & S).
  unfold opened_state. cbn [example_table t_tree root] in E1. rewrite E1. exact S.
Qed.

Lemma cursor_operations_succeed_witness : limits_ok bt0 /\ table_good bt0 (example_table rows_a rows_b) /\ stands_at bt0 (example_table rows_a rows_b) opened_state Nowhere /\
  exists rc n bs s' p', perform (Moveto 4 false) opened_state = Some ((rc, n, bs), s') /\ (rc = SQLITE_OK \/ rc = SQLITE_DONE /\ (Moveto 4 false = Next \/ Moveto 4 false = Previous) /\ p' = Nowhere) /\
    stands_at bt0 (example_table rows_a rows_b) s' p'.
Proof.
  split; [exact bt0_limits|]. split; [exact example_good_before|]. split; [exact opened_nowhere|].
  apply (cursor_operations_succeed bt0 (example_table rows_a rows_b) opened_state Nowhere (Moveto 4 false) bt0_limits example_good_before opened_nowhere). exact I.
Defined.

(** ** A rowid that the cursor left *)

(** After a search for the row 1, and the step from the saved position to the row 2, the flag [BTCF_ValidNKey] is set with the rowid 1: a second
    search for the row 1 answers 0 (an exact match), and leaves the cursor on the row 2. *)
Lemma stale_rowid : answers_of [Moveto 1 false; SavePosition; Next; Moveto 1 false; IntegerKey] opened_state =
    [(SQLITE_OK, 0, []); (SQLITE_OK, 0, []); (SQLITE_OK, 0, []); (SQLITE_OK, 0, []); (SQLITE_OK, 2, [])] /\
  let c := st_cur (state_after [Moveto 1 false; SavePosition; Next] opened_state) in validNKey c = true /\ info_nKey c = 1.
Proof. split; [vm_compute; reflexivity|]. vm_compute. by split. Qed.

(** The same without saving the position in between. *)
Lemma rowid_found_again : answers_of [Moveto 1 false; Next; Moveto 1 false; IntegerKey] opened_state = [(SQLITE_OK, 0, []); (SQLITE_OK, 0, []); (SQLITE_OK, 0, []); (SQLITE_OK, 1, [])].
Proof. vm_compute. reflexivity. Qed.
